(* ===== verification/_CoqProject ===== *)
-Q . S2P
Prelude.v
GoStrings.v
GoFloat.v
Base64.v
GoUrl.v
GoJson.v
GoIndent.v
GoRegexp.v
Redis.v
RingBuf.v
NodeLog.v
LogStream.v
TunnelHealth.v
Traffic.v
ProxySettings.v
Store.v
ReviewJob.v
UserApi.v
UserProps.v
Accounting.v
LoadMap.v
Auth.v
Dump.v
MySQLDump.v
Effect.v
CoreDto.v
CoreConfig.v
NodeAdmin.v
NodeAdminProps.v
NodeConfig.v
NodeConfigProps.v
Share.v
ShareProps.v
ClientDocs.v
ClientDocsProps.v
Subscription.v
NodeConfigCache.v
NodeWire.v
NodePlan.v
NodePlanProps.v
NodeSync.v
NodeSyncProps.v
NodePush.v
NodeLive.v
OnlineView.v
NodeLiveProps.v
LogRelay.v
OnlineProps.v
GoTime.v
LegacyImport.v
PasarGuard.v
ImportLoad.v
ImportProps.v
Gateway.v
GatewayProps.v
SubBody.v
SubBodyProps.v
Inventory.v
XrayConfig.v
XrayAdmin.v
InventoryProps.v
HostsProps.v
XrayRoundtrip.v
XrayProps.v
BotText.v
IntegrationSettings.v
BotApi.v
BotRequest.v
BotConsole.v
BotProps.v
BotStateProps.v
Tickets.v
TicketsProps.v
UserView.v
UserViewProps.v
