(* ===== verification/Prelude.v ===== *)
(** * Rapido-Go: verification development (root file and prelude)

    Rapido-Go is a panel that sells access to proxy nodes. One _panel_ process keeps
    the users, their limits and their credentials in Postgres and hands out
    subscription links; many _node_ processes carry the traffic, count it by user and
    report it; background jobs of the panel enforce the limits, bill resellers and
    prune history. Redis holds what is live: presence, logs, cached reads. Several
    panels can be joined by a gateway, which pushes its users to each of them.

    ** How the parts meet

    _Users._ Admins log in ([internal/auth], [internal/httpapi/auth.go]: [Auth]) and create
    and edit users over HTTP ([internal/httpapi/user.go], [user_bulk.go]: [UserApi]) and
    list them ([UserView]). Customers write tickets to their admin, from the subscription
    page and the panel ([Tickets]). The
    dumps of other panels are read ([internal/legacyimport]: [Dump], [MySQLDump]),
    interpreted ([LegacyImport], [PasarGuard]) and loaded into the same tables
    ([ImportLoad]). A gateway pushes its users to other panels ([Gateway]), which keep a
    replica of each.

    _Inbounds._ Core configurations hold the inbounds a node can serve ([CoreDto],
    [CoreConfig]); the inbounds and hosts tables name them and say where they are reached
    ([Inventory]); both can be written from and read back as one Xray document
    ([XrayConfig], [XrayAdmin]). A host, its inbound and a user's credentials make a link
    and the entries of the client documents ([Share], [ClientDocs]).

    _Nodes._ An admin gives a node its profile ([NodeAdmin]); the panel generates the
    node's configuration from the profile and the users ([NodeConfig]), caches it
    ([NodeConfigCache]) and serves it; the node pulls it ([NodeWire]), compares it with
    what runs ([NodePlan]) and applies it to the running core ([NodeSync]). A node counts
    bytes ([Traffic]) and pushes its usage ([NodePush]); the panel books the report
    ([Accounting.NodeReport]); the review job compares the counters with the limits and
    flips statuses or applies the pending plan ([ReviewJob]); the billing job reports a
    reseller's share to its bot ([Accounting.Billing]) and the retention job deletes old
    hourly rows ([Accounting.Retention]). On a node the tunnel monitor and the fallback
    supervisor choose the way out ([TunnelHealth]).

    _Live._ A node posts its new log lines and the users it sees ([NodeLog], [NodeLive]);
    the panel writes them to Redis and shows them ([OnlineView], [LogRelay], [LogStream]).

    _Subscriptions._ A customer's client fetches its subscription with a signed link
    ([Subscription]); the panel walks the user's hosts, asks the other panels of a gateway
    and answers in the client's format ([SubBody]), the entries in the order of their load
    ([LoadMap]).

    _Telegram._ Admins can also work from a private chat with a bot
    ([internal/telegrambot]). The console polls Telegram, decides which panel identity an
    account acts as, and puts accepted updates in a queue for each account ([BotConsole]);
    a request answers a tap or a text by calling the panel's own router as that identity
    and edits one message ([BotRequest]). Its settings are the integration settings
    ([IntegrationSettings]), which the panel edits and the other notifiers share.

    ** Files

    - [Prelude]: machine integers (the code's [int32]/[int64], wrap-around written
      out), [result], binary search ([sort.Search]), list suffixes, sums over maps,
      the tactics and the hint database [rapido].
    - The standard library in use. [GoStrings]: [strings], [strconv], [unicode/utf8].
      [GoFloat]: [float64] arithmetic rounded to 53 bits. [Base64]: base64 and hex.
      [GoUrl]: [net/url] escaping. [GoJson]: [encoding/json], text to tree and back, with
      the class [Codec] a Go struct's fields are an instance of. [GoIndent]:
      [json.MarshalIndent]. [GoRegexp]: regular expressions by derivatives. [GoTime]:
      calendar dates and [time.Parse]. [Redis]: the commands in use, with expiry, and what
      a lost answer leaves. [Effect]: a state with errors, and its triples.
    - [RingBuf]: the ring arithmetic both rings share. [NodeLog]: [Line] (classify.go),
      [Noise] (aggregate.go), [NodeRing] (ring.go), [Capture] (capture.go).
      [LogStream]: the panel's ring and its Redis publisher.
    - [TunnelHealth]: [Monitor] (monitor.go), a record of entries and one transition
      per probe result; [Fallback], over the classes [Health] and [SelectorGroup] that
      say what the supervisor needs of the monitor and of sing-box.
    - [Traffic]: [Usage] (traffic.go) as programs of atomic operations with a step
      relation for their interleavings, [Presence], [ConnGroup].
    - [ProxySettings]: credentials of the eight proxy types, over a class [Random] for
      the generators.
    - [Store]: the tables, the statements of [internal/db/queries] that the modelled
      code runs, and the monad of a handler: it threads the database and a list of
      injected faults that says which statements fail (with nothing done), so that a
      theorem about it covers a failure at every point.
      [wf] is the invariant of the schema and [keeps]/[preserves] (database [store])
      carry it through statements and handlers.
    - [ReviewJob], [UserApi], [Accounting]: the jobs and handlers over that monad;
      [UserProps] has the theorems about the user handlers. [UserView]: [GET /api/users]
      and the answers it is put together from (user.go).
    - [Tickets]: both sides of the tickets (tickets.go, subscription_tickets.go) and the
      emergency grant (subscription_emergency.go).
    - [LoadMap]: [Presence] (redis.go), [Dns] (dns.go), [LoadMap] (the build, over a
      class [Resolver] for the address cache), [Cache] (the single-flight snapshot).
    - [Auth]: passwords, the verify cache, the lockout, tokens, admin accounts.
    - [CoreDto], [CoreConfig]: the core's JSON and its checks. [NodeAdmin]: nodes and
      profiles. [NodeConfig]: the generated configuration. [NodeConfigCache]: the cached
      copy and its version. [NodeWire], [NodePlan], [NodeSync], [NodePush]: the node
      program: reading, planning, applying, reporting. [NodeLive], [OnlineView],
      [LogRelay]: the live channel on the node and on the panel.
    - [Share]: the effective inbound and the links. [ClientDocs]: Clash, sing-box and
      v2ray documents. [Subscription]: [Token] (token.go and the lookup), [Vars],
      [HostOrder] (the walk over one shared variable map and the order by load),
      [Negotiate]. [SubBody]: the variables of a user, the walk and the answer.
    - [Dump], [MySQLDump]: pg_dump and mysqldump text. [LegacyImport] (Marzban),
      [PasarGuard], [ImportLoad]: the importers.
    - [Gateway]: the push to the panels and what each panel does with it.
    - [Inventory]: inbounds and hosts. [XrayConfig]: Xray documents to and from the
      core's. [XrayAdmin]: the import, the export and the editor.
    - [BotText]: catalogues, [fmt.Sprintf], sizes, runes, numbers as admins type them.
      [IntegrationSettings]: the row, its resolution over the environment, the cached read
      and the update. [BotApi]: [op], the calls of the console with what each is answered,
      and [prog], programs over them; [Bot] (botapi.go), [Api] (api.go), [Session]
      (session.go). [BotRequest]: [Request] (the state of an interaction), [Views]
      (views.go), [Actions] (actions.go and the dispatch of taps and texts). [BotConsole]:
      [Authz] (authz.go), [Console] (the loop, filters, limits), [Queue] (the queues and
      their workers as a step relation). [BotProps] says what runs do, as triples over the
      events of a run; [BotStateProps] has the sessions, the queue and the token.
    - The theorems of a part are in the file of its name ending in [Props]; those of the
      inventory and the Xray documents in [InventoryProps], [HostsProps], [XrayRoundtrip]
      and [XrayProps], those of the live channel in [NodeLiveProps] and [OnlineProps].

    ** What the theorems show

    - Users: any sequence of requests by anyone, with any failures, keeps the database
      well formed; a refused create or edit changed nothing; nobody but its owner or a
      sudo admin touches a user; what a create, an edit, a reset and a reconcile write. A
      list is the page asked for of the users its admin may see, each told its own rows.
    - Tickets: a request acts from the tickets of its own scope as if there were no others,
      and threads only grow, within their bounds.
    - Limits: a review tick is a function of each row and its plan, and no user stays
      active over its limits.
    - Accounting: no byte is lost or doubled between connections and drains under any
      interleaving; a report books the same bytes everywhere; billing is at least once
      and exact when no answer was lost; the sweep deletes exactly the old rows.
    - Admins: who a login lets in, with the verify cache and the lockout, and that a
      token opens nothing its claims do not say.
    - Nodes: the generated configuration offers exactly the permitted users; the cached
      copy is one some panel state generated; the node ends up running what the panel
      serves, whatever fails on the way; the panel is told
      no byte twice and misses exactly those of reports that were lost. The
      monitor's hysteresis, the supervisor's choice, every connection closed once; the
      rings hold the newest lines and lose none they should keep.
    - Live channel: a node's lines reach the panel once and in order, and presence shows
      what the nodes report.
    - Subscriptions: a minted link opens, a revoked one does not; the document offers
      exactly the enabled hosts of the user's inbounds, in the order by load; a link reads
      back as what the inbound serves and the client documents agree with it.
    - Imports: a dump reads back as its rows, and an import writes every account once.
    - Gateway: a panel holds a replica of each user pushed to it.
    - Inventory: every host is under an inbound and every exclusion and template names
      one, whatever is asked and whatever fails; a sync stores exactly its entries. An
      exported Xray document imports as what it was exported from, importing again changes
      nothing, and the copy a reseller gets depends on no secret.
    - Telegram: whatever is sent and whatever anything answers, work is done only for
      private chats of entitled accounts, as the identity each is entitled to; a run writes
      to the panel only what its tap or text asks for; an account's work is done one piece
      at a time in order; sessions read back; an error never shows the token. An update of
      the settings sets exactly the fields named.
    - Load: percentages are exact and bounded, a build covers every visible host, at
      most one rebuild runs, stale answers are bounded, working addresses are kept.

    ** Fuel and bounds

    String scanners take the length of their input as fuel and consume a byte a round; the
    JSON reader takes twice its length, one unit for a value and one for the list it is in.
    [Accounting.Retention.Sweep] takes one unit per batch and a lemma beside it gives the
    number that is enough; the node's reader of a report takes the twelve rounds the code
    allows. [Itoa] has 20 digits, an [int64] 19. Sums are 64-bit where the code's are; a
    theorem about an exact sum states the bound it needs.

    ** Parameters

    Random generators, bcrypt, SHA-256, HMAC, the JWT library, X.509, gzip, RFC 3339 text
    of the standard library, the resolver, IP literal parsing, the cipher lists of the
    Shadowsocks library, the QR library, the services and the start and stop of sing-box, overflow of a
    decimal to infinity, YAML text, template files on disk, the answers of Redis and of the
    billing bot, and the collation and the case-insensitive match of Postgres are arguments or classes, with laws where something relies on them and
    concrete instances in the witnesses.

    ** Not modelled

    HTTP plumbing (routes, status texts, CORS), timers and tickers: handlers are called by
    the theorems in any order instead. The protocol inbounds of [internal/nodecore] are
    adapters of sing-box's, whose state is the library's. Host metrics are read from
    [/proc]. Notifiers ([internal/telegram], [internal/discord], [internal/report]) format
    texts and post them. The calls of the Telegram console reach the panel's router with a
    token minted for one call; their answers are unknown to the model of the console. Backups run [pg_dump] and [psql]; certificates are calls of
    [crypto/x509]. The node's command line prints and calls [systemctl]; the load generator
    is a test tool. *)

From stdpp Require Export base tactics list gmap strings fin_maps.
From Stdlib Require Export ZArith Lia.

#[export] Set Default Goal Selector "!".

Declare Scope go_scope.
Delimit Scope go_scope with go.

Create HintDb rapido.
Create Rewrite HintDb rapido.

(** ** Tactics *)

(** Case analysis on every [if]/[match] head of the goal, closing the branches
    that the constructors refute. *)
Ltac go_cases :=
  repeat (case_match || case_decide); simplify_eq/=; try done.

(** The same on a hypothesis that records the outcome of a computation. *)
Ltac go_inv H :=
  repeat (case_match || case_decide); simplify_eq/=.

(** Turns the boolean tests of the code into the propositions they decide. *)
Ltac go_bool :=
  repeat match goal with
  | H : negb _ = true |- _ => apply negb_true_iff in H
  | H : negb _ = false |- _ => apply negb_false_iff in H
  | H : andb _ _ = true |- _ => apply andb_true_iff in H as [? ?]
  | H : andb _ _ = false |- _ => apply andb_false_iff in H
  | H : orb _ _ = false |- _ => apply orb_false_iff in H as [? ?]
  | H : orb _ _ = true |- _ => apply orb_true_iff in H
  | H : (_ <? _)%Z = true |- _ => apply Z.ltb_lt in H
  | H : (_ <? _)%Z = false |- _ => apply Z.ltb_ge in H
  | H : (_ <=? _)%Z = true |- _ => apply Z.leb_le in H
  | H : (_ <=? _)%Z = false |- _ => apply Z.leb_gt in H
  | H : (_ =? _)%Z = true |- _ => apply Z.eqb_eq in H
  | H : (_ =? _)%Z = false |- _ => apply Z.eqb_neq in H
  | H : bool_decide _ = true |- _ => apply bool_decide_eq_true in H
  | H : bool_decide _ = false |- _ => apply bool_decide_eq_false in H
  end.

(** ** Machine integers *)

(** Go's conversions to a signed type of [w] bits keep the low [w] bits. *)
Definition wrap (w : Z) (z : Z) : Z := ((z + 2 ^ (w - 1)) mod 2 ^ w - 2 ^ (w - 1))%Z.

Definition int32 (z : Z) : Z := wrap 32 z.
Definition int64 (z : Z) : Z := wrap 64 z.

Definition fits (w : Z) (z : Z) : Prop := (- 2 ^ (w - 1) <= z < 2 ^ (w - 1))%Z.

#[export] Instance fits_dec w z : Decision (fits w z).
Proof. unfold fits. apply _. Defined.

Lemma pow2_half (w : Z) : (0 < w)%Z -> (2 ^ w = 2 * 2 ^ (w - 1))%Z.
Proof.
  intros Hw. rewrite <- Z.pow_succ_r by lia. f_equal. lia.
Qed.

Lemma wrap_fits w z : (0 < w)%Z -> fits w (wrap w z).
Proof.
  intros Hw. unfold fits, wrap.
  pose proof (pow2_half w Hw). pose proof (Z.pow_pos_nonneg 2 (w - 1)).
  pose proof (Z.mod_pos_bound (z + 2 ^ (w - 1)) (2 ^ w)). lia.
Qed.

Lemma wrap_id w z : (0 < w)%Z -> fits w z -> wrap w z = z.
Proof.
  unfold fits, wrap. intros Hw Hz.
  pose proof (pow2_half w Hw). rewrite Z.mod_small by lia. lia.
Qed.

#[export] Hint Resolve wrap_fits : rapido.

(** ** Results of fallible code *)

Inductive result (E A : Type) : Type :=
  | Ok (a : A)
  | Err (e : E).
Arguments Ok {E A} a.
Arguments Err {E A} e.

#[export] Instance result_ret {E} : MRet (result E) := fun A a => Ok a.
#[export] Instance result_bind {E} : MBind (result E) :=
  fun A B f r => match r with Ok a => f a | Err e => Err e end.
#[export] Instance result_fmap {E} : FMap (result E) :=
  fun A B f r => match r with Ok a => Ok (f a) | Err e => Err e end.

#[export] Instance result_eq_dec {E A} `{EqDecision E, EqDecision A} :
  EqDecision (result E A).
Proof. solve_decision. Defined.

Definition is_ok {E A} (r : result E A) : bool :=
  match r with Ok _ => true | Err _ => false end.

Lemma result_bind_ok {E A B} (r : result E A) (f : A -> result E B) b :
  r ≫= f = Ok b <-> exists a, r = Ok a /\ f a = Ok b.
Proof. destruct r; simpl; naive_solver. Qed.

(** ** Go's [sort.Search] *)

(** [for i < j { h := (i+j)>>1; if !f(h) { i = h+1 } else { j = h } }] with one
    unit of fuel per iteration; the interval shrinks on each one. *)
Fixpoint search_loop (fuel : nat) (f : nat -> bool) (i j : nat) : nat :=
  match fuel with
  | O => i
  | S fuel =>
      if i <? j then
        let h := (i + j) / 2 in
        if f h then search_loop fuel f i h else search_loop fuel f (S h) j
      else i
  end.

Definition sort_Search (n : nat) (f : nat -> bool) : nat := search_loop n f 0 n.

(** [f] is false and then true along the indexes, as [sort.Search] requires. *)
Definition monotone_pred (n : nat) (f : nat -> bool) : Prop :=
  forall i j, i <= j < n -> f i = true -> f j = true.

Lemma mid_bounds (i j : nat) : i < j -> i <= (i + j) / 2 < j.
Proof.
  intros H. split.
  - apply Nat.div_le_lower_bound; lia.
  - apply Nat.Div0.div_lt_upper_bound; lia.
Qed.

Lemma search_loop_spec fuel f i j n :
  monotone_pred n f -> i <= j <= n -> j - i <= fuel ->
  (forall k, k < i -> f k = false) ->
  (forall k, j <= k < n -> f k = true) ->
  let r := search_loop fuel f i j in
  i <= r <= j /\ (forall k, k < r -> f k = false) /\ (forall k, r <= k < n -> f k = true).
Proof.
  intros Hm. revert i j. induction fuel as [|fuel IH]; intros i j Hij Hf Hlo Hhi;
    cbn [search_loop].
  { replace j with i in * by lia. auto. }
  destruct (Nat.ltb_spec i j) as [Hlt|Hge]; [|replace j with i in * by lia; auto].
  pose proof (mid_bounds i j Hlt). destruct (f ((i + j) / 2)) eqn:Hmid.
  - destruct (IH i ((i + j) / 2)) as (? & ? & ?); [lia|lia|done| |].
    + intros k Hk. apply (Hm ((i + j) / 2) k); [lia|done].
    + split; [lia|auto].
  - destruct (IH (S ((i + j) / 2)) j) as (? & ? & ?); [lia|lia| |done|].
    + intros k Hk. destruct (f k) eqn:Hfk; [|done].
      rewrite (Hm k ((i + j) / 2)) in Hmid; [done|lia|done].
    + split; [lia|auto].
Qed.

(** [sort.Search] returns the least index at which a monotone predicate holds,
    or [n] when there is none. *)
Lemma sort_Search_spec n f :
  monotone_pred n f ->
  sort_Search n f <= n /\
  (forall k, k < sort_Search n f -> f k = false) /\
  (forall k, sort_Search n f <= k < n -> f k = true).
Proof.
  intros Hm. unfold sort_Search.
  destruct (search_loop_spec n f 0 n n) as (? & ? & ?); auto with lia.
Qed.

(** ** Lists *)

(** The last [k] elements, in order. *)
Definition lastn {A} (k : nat) (l : list A) : list A := drop (length l - k) l.

Section lastn.
Context {A : Type}.
Implicit Types l : list A.

Lemma length_lastn k l : length (lastn k l) = min k (length l).
Proof. unfold lastn. rewrite length_drop. lia. Qed.

Lemma lastn_all k l : length l <= k -> lastn k l = l.
Proof. intros. unfold lastn. by replace (length l - k) with 0 by lia. Qed.

Lemma lastn_0 l : lastn 0 l = [].
Proof. unfold lastn. by rewrite Nat.sub_0_r, drop_all. Qed.

Lemma lastn_snoc k l x : lastn (S k) (l ++ [x]) = lastn k l ++ [x].
Proof.
  unfold lastn. rewrite length_app; simpl.
  rewrite drop_app_le by lia. do 2 f_equal. lia.
Qed.

(** Pushing onto a window of size [k] and pushing onto the full history give
    the same window. *)
Lemma lastn_lastn_snoc k l x : lastn k (lastn k l ++ [x]) = lastn k (l ++ [x]).
Proof.
  destruct k as [|k]; [by rewrite !lastn_0|]. rewrite !lastn_snoc. f_equal.
  unfold lastn. rewrite drop_drop, length_drop. f_equal. lia.
Qed.

Lemma lastn_suffix k l : lastn k l `suffix_of` l.
Proof. unfold lastn. exists (take (length l - k) l). by rewrite take_drop. Qed.

Lemma lastn_sub k l : incl (lastn k l) l.
Proof.
  intros x Hx. rewrite <- (take_drop (length l - k) l). apply in_or_app. by right.
Qed.
End lastn.

(** A list whose elements at and past index [k] satisfy [p] and whose earlier
    ones do not is filtered by dropping [k] elements. *)
Lemma filter_drop {A} (p : A -> bool) (l : list A) (k : nat) :
  (forall i x, l !! i = Some x -> p x = (k <=? i)) ->
  List.filter p l = drop k l.
Proof.
  revert k. induction l as [|x l IH]; intros k Hp; [by destruct k|].
  pose proof (Hp 0 x eq_refl) as H0. simpl in *. rewrite H0.
  assert (List.filter p l = drop (pred k) l) as ->.
  { apply IH. intros i y Hy. rewrite (Hp (S i) y Hy). destruct k; done. }
  destruct k; done.
Qed.

Lemma filter_true {A} (p : A -> bool) (l : list A) :
  (forall x, In x l -> p x = true) -> List.filter p l = l.
Proof.
  induction l as [|x l IH]; intros Hp; [done|]. simpl.
  rewrite (Hp x (or_introl eq_refl)). f_equal. apply IH. intros y Hy. apply Hp. by right.
Qed.

(** ** Sums over finite maps *)

(** The total of the values of a counter map. *)
Definition map_sum {K} `{Countable K} (m : gmap K Z) : Z :=
  map_fold (fun _ v acc => (v + acc)%Z) 0%Z m.

Section map_sum.
Context {K : Type} `{Countable K}.
Implicit Types m : gmap K Z.
Open Scope Z_scope.

Lemma map_sum_empty : map_sum (∅ : gmap K Z) = 0.
Proof. apply map_fold_empty. Qed.

Lemma map_sum_insert_None m k v :
  m !! k = None -> map_sum (<[k := v]> m) = v + map_sum m.
Proof.
  intros Hk. unfold map_sum. apply map_fold_insert_L; [|done].
  intros. lia.
Qed.

Lemma map_sum_delete m k :
  map_sum (delete k m) = map_sum m - default 0 (m !! k).
Proof.
  destruct (m !! k) as [v|] eqn:Hk; simpl.
  - rewrite <- (insert_delete_id m k v Hk) at 2.
    rewrite map_sum_insert_None by apply lookup_delete_eq. lia.
  - rewrite delete_id by done. lia.
Qed.

Lemma map_sum_insert m k v :
  map_sum (<[k := v]> m) = v - default 0 (m !! k) + map_sum m.
Proof.
  rewrite <- insert_delete_eq, map_sum_insert_None by apply lookup_delete_eq.
  rewrite map_sum_delete. lia.
Qed.

Lemma map_sum_nonneg m :
  (forall k v, m !! k = Some v -> 0 <= v) -> 0 <= map_sum m.
Proof.
  induction m as [|k v m Hk IH] using map_ind; intros Hm.
  { by rewrite map_sum_empty. }
  rewrite map_sum_insert_None by done.
  assert (0 <= v) by (apply (Hm k); apply lookup_insert_eq).
  assert (0 <= map_sum m); [|lia].
  apply IH. intros k' v' Hk'. apply (Hm k'). by simplify_map_eq.
Qed.
End map_sum.

#[export] Hint Rewrite @map_sum_empty @map_sum_insert @map_sum_delete : rapido.
