(* ===== verification/GoStrings.v ===== *)
(** * GoStrings: the part of Go's [strings], [strconv] and [sort] the panel uses

    A Go string is a [string]: a sequence of bytes. Non-ASCII text is its UTF-8
    encoding, as it is in Go. *)

From Stdlib Require Export Ascii.
From S2P Require Import Prelude.

#[local] Open Scope string_scope.

#[global] Arguments String.append : simpl nomatch.

(** ** Bytes *)

Definition byte_of (c : ascii) : Z := Z.of_N (N_of_ascii c).

Definition between (lo hi : Z) (c : ascii) : bool :=
  ((lo <=? byte_of c) && (byte_of c <=? hi))%Z.

Definition is_digit (c : ascii) : bool := between 48 57 c.
Definition is_upper (c : ascii) : bool := between 65 90 c.
Definition is_lower (c : ascii) : bool := between 97 122 c.

(** The regexp class [\s]: tab, newline, form feed, carriage return, space. *)
Definition is_re_space (c : ascii) : bool :=
  let b := byte_of c in
  ((b =? 9) || (b =? 10) || (b =? 12) || (b =? 13) || (b =? 32))%Z.

(** [utf8.RuneStart]: not a continuation byte ([b&0xC0 != 0x80]). *)
Definition RuneStart (c : ascii) : bool := negb (Z.land (byte_of c) 192 =? 128)%Z.

(** ** Searching *)

Definition HasPrefix (s p : string) : bool := String.prefix p s.

(** [s[n:]] *)
Fixpoint sdrop (n : nat) (s : string) : string :=
  match n, s with
  | O, _ => s
  | S n, String _ s => sdrop n s
  | S _, EmptyString => EmptyString
  end.

(** [s[:n]] *)
Fixpoint stake (n : nat) (s : string) : string :=
  match n, s with
  | S n, String c s => String c (stake n s)
  | _, _ => EmptyString
  end.

Definition HasSuffix (s p : string) : bool :=
  (String.length p <=? String.length s)%nat &&
  String.eqb (sdrop (String.length s - String.length p) s) p.

(** [strings.Index]; [None] is Go's -1. *)
Definition Index (s p : string) : option nat := String.index 0 p s.

Definition Contains (s p : string) : bool :=
  match Index s p with Some _ => true | None => false end.

(** What follows the first occurrence of [p] in [s]. *)
Definition after_first (s p : string) : option string :=
  match Index s p with
  | Some i => Some (sdrop (i + String.length p) s)
  | None => None
  end.

Fixpoint str_forallb (f : ascii -> bool) (s : string) : bool :=
  match s with
  | EmptyString => true
  | String c s => f c && str_forallb f s
  end.

(** Splits [s] before the first byte that does not satisfy [f]. *)
Fixpoint span (f : ascii -> bool) (s : string) : string * string :=
  match s with
  | EmptyString => (EmptyString, EmptyString)
  | String c s' =>
      if f c then let (a, b) := span f s' in (String c a, b)
      else (EmptyString, s)
  end.

(** Removes the prefix [p]. *)
Fixpoint strip_prefix (p s : string) : option string :=
  match p, s with
  | EmptyString, _ => Some s
  | String a p, String b s => if Ascii.eqb a b then strip_prefix p s else None
  | String _ _, EmptyString => None
  end.

(** ** [strings.TrimSpace] *)

(** The UTF-8 encodings of the runes [unicode.IsSpace] accepts. *)
Definition space_encodings : list string :=
  [ String "009" ""; String "010" ""; String "011" ""; String "012" "";
    String "013" ""; " ";
    String "194" (String "133" ""); String "194" (String "160" "");
    String "225" (String "154" (String "128" ""));
    String "226" (String "128" (String "128" "")); String "226" (String "128" (String "129" ""));
    String "226" (String "128" (String "130" "")); String "226" (String "128" (String "131" ""));
    String "226" (String "128" (String "132" "")); String "226" (String "128" (String "133" ""));
    String "226" (String "128" (String "134" "")); String "226" (String "128" (String "135" ""));
    String "226" (String "128" (String "136" "")); String "226" (String "128" (String "137" ""));
    String "226" (String "128" (String "138" "")); String "226" (String "128" (String "168" ""));
    String "226" (String "128" (String "169" "")); String "226" (String "128" (String "175" ""));
    String "226" (String "129" (String "159" "")); String "227" (String "128" (String "128" "")) ].

Fixpoint trim_left (fuel : nat) (s : string) : string :=
  match fuel with
  | O => s
  | S fuel =>
      match List.find (HasPrefix s) space_encodings with
      | Some p => trim_left fuel (sdrop (String.length p) s)
      | None => s
      end
  end.

Fixpoint trim_right (fuel : nat) (s : string) : string :=
  match fuel with
  | O => s
  | S fuel =>
      match List.find (HasSuffix s) space_encodings with
      | Some p => trim_right fuel (stake (String.length s - String.length p) s)
      | None => s
      end
  end.

(** Each round removes at least one byte, so the length is enough fuel. *)
Definition TrimSpace (s : string) : string :=
  let l := trim_left (String.length s) s in trim_right (String.length l) l.

(** ** Decimal numbers: [strconv.Itoa] / [FormatInt(n, 10)] *)

Definition digit_ascii (d : Z) : ascii := ascii_of_N (Z.to_N (48 + d)).

Fixpoint utoa (fuel : nat) (n : Z) (acc : string) : string :=
  match fuel with
  | O => acc
  | S fuel =>
      let acc := String (digit_ascii (n mod 10)) acc in
      if (n <? 10)%Z then acc else utoa fuel (n / 10) acc
  end.

(** An int64 has at most 19 decimal digits. *)
Definition Itoa (n : Z) : string :=
  if (n <? 0)%Z then String "-" (utoa 20 (- n) "") else utoa 20 n "".

(** [strconv.ParseUint]'s accumulation over decimal digits. *)
Fixpoint parse_digits (acc : Z) (s : string) : option Z :=
  match s with
  | EmptyString => Some acc
  | String c s =>
      if is_digit c then parse_digits (10 * acc + (byte_of c - 48))%Z s else None
  end.

Definition parse_nat (s : string) : option Z :=
  match s with EmptyString => None | _ => parse_digits 0 s end.

(** [strconv.ParseInt(s, 10, 64)] ([strconv.Atoi] on a 64-bit platform): an
    optional sign, decimal digits, in range. *)
Definition ParseInt (s : string) : option Z :=
  let r := match s with
           | String "-" s' => Z.opp <$> parse_nat s'
           | String "+" s' => parse_nat s'
           | _ => parse_nat s
           end in
  match r with
  | Some z => if decide (fits 64 z) then Some z else None
  | None => None
  end.

(** ** Order and membership *)

(** Go compares strings byte by byte. *)
Fixpoint str_ltb (a b : string) : bool :=
  match a, b with
  | EmptyString, String _ _ => true
  | _, EmptyString => false
  | String x a, String y b =>
      if Ascii.eqb x y then str_ltb a b else (byte_of x <? byte_of y)%Z
  end.

Definition str_mem (x : string) (l : list string) : bool :=
  existsb (String.eqb x) l.

(** ** Lemmas *)

Lemma str_app_nil_l (s : string) : "" ++ s = s.
Proof. done. Qed.

Lemma str_app_nil_r (s : string) : s ++ "" = s.
Proof. induction s as [|c s IH]; simpl; [done|by rewrite IH]. Qed.

Lemma str_app_assoc (a b c : string) : a ++ (b ++ c) = (a ++ b) ++ c.
Proof. induction a as [|x a IH]; simpl; [done|by rewrite IH]. Qed.

Lemma str_length_app (a b : string) :
  String.length (a ++ b) = (String.length a + String.length b)%nat.
Proof. induction a as [|x a IH]; simpl; [done|by rewrite IH]. Qed.

Lemma sdrop_app (a b : string) : sdrop (String.length a) (a ++ b) = b.
Proof. by induction a as [|x a IH]. Qed.

Lemma sdrop_plus (n m : nat) (s : string) : sdrop (n + m) s = sdrop m (sdrop n s).
Proof.
  revert s. induction n as [|n IH]; intros s; simpl; [done|].
  destruct s; [by destruct m|done].
Qed.

Lemma stake_app (a b : string) : stake (String.length a) (a ++ b) = a.
Proof. induction a as [|x a IH]; simpl; [by destruct b|by rewrite IH]. Qed.

Lemma stake_sdrop (n : nat) (s : string) : stake n s ++ sdrop n s = s.
Proof.
  revert s. induction n as [|n IH]; intros s; [by destruct s|].
  destruct s as [|c s]; simpl; [done|by rewrite IH].
Qed.

Lemma stake_length (n : nat) (s : string) :
  String.length (stake n s) = min n (String.length s).
Proof.
  revert s. induction n as [|n IH]; intros [|c s]; simpl; [done..|by rewrite IH].
Qed.

Lemma sdrop_length (n : nat) (s : string) :
  String.length (sdrop n s) = (String.length s - n)%nat.
Proof.
  revert s. induction n as [|n IH]; intros [|c s]; simpl; [done..|by rewrite IH].
Qed.

Lemma HasPrefix_spec (s p : string) : HasPrefix s p = true <-> exists r, s = p ++ r.
Proof.
  unfold HasPrefix. revert s. induction p as [|x p IH]; intros s.
  { split; [intros _; by exists s|by destruct s]. }
  destruct s as [|y s]; simpl.
  { split; [done|]. intros (r & [=]). }
  destruct (ascii_dec x y) as [->|Hne].
  - rewrite IH. split; intros (r & E); exists r; congruence.
  - split; [done|]. intros (r & [= -> _]). done.
Qed.

Lemma HasPrefix_app (p r : string) : HasPrefix (p ++ r) p = true.
Proof. apply HasPrefix_spec. eauto. Qed.

Lemma HasSuffix_app (s p : string) : HasSuffix (s ++ p) p = true.
Proof.
  unfold HasSuffix. rewrite str_length_app, Nat.add_sub, sdrop_app, String.eqb_refl.
  rewrite andb_true_r. apply Nat.leb_le. lia.
Qed.

Lemma HasSuffix_spec (s p : string) : HasSuffix s p = true <-> exists r, s = r ++ p.
Proof.
  split; [|intros (r & ->); apply HasSuffix_app].
  unfold HasSuffix. intros [_ He]%andb_true_iff. apply String.eqb_eq in He.
  exists (stake (String.length s - String.length p) s). rewrite <- He at 2.
  by rewrite stake_sdrop.
Qed.

Lemma strip_prefix_app (p r : string) : strip_prefix p (p ++ r) = Some r.
Proof.
  induction p as [|x p IH]; [done|]. simpl. by rewrite Ascii.eqb_refl.
Qed.

Lemma strip_prefix_spec (p s r : string) : strip_prefix p s = Some r <-> s = p ++ r.
Proof.
  split; [|intros ->; apply strip_prefix_app].
  revert s. induction p as [|x p IH]; intros s; simpl; [congruence|].
  destruct s as [|y s]; [done|]. destruct (Ascii.eqb_spec x y) as [->|]; [|done].
  intros E%IH. congruence.
Qed.

(** A maximal run: bytes that satisfy [f], then one that does not (or the end). *)
Lemma span_app f (a b : string) :
  str_forallb f a = true ->
  match b with String c _ => f c = false | EmptyString => True end ->
  span f (a ++ b) = (a, b).
Proof.
  intros Ha Hb. induction a as [|x a IH]; simpl in *.
  - destruct b as [|c b]; [done|]. simpl. by rewrite Hb.
  - apply andb_true_iff in Ha as [-> Ha]. by rewrite (IH Ha).
Qed.

Lemma span_spec f (s a b : string) :
  span f s = (a, b) ->
  s = a ++ b /\ str_forallb f a = true /\
  match b with String c _ => f c = false | EmptyString => True end.
Proof.
  revert a b. induction s as [|x s IH]; intros a b; simpl.
  { intros [= <- <-]. done. }
  destruct (f x) eqn:Hx.
  - destruct (span f s) as [a' b'] eqn:Hs. intros [= <- <-].
    destruct (IH a' b' eq_refl) as (-> & Ha & Hb). simpl. by rewrite Hx, Ha.
  - intros [= <- <-]. done.
Qed.

Lemma index_cons_ne (p : string) (c d : ascii) (p' s : string) :
  p = String d p' -> c <> d ->
  String.index 0 p (String c s) = option_map S (String.index 0 p s).
Proof.
  intros -> Hne. simpl. destruct (ascii_dec d c) as [->|]; [done|].
  by destruct (String.index 0 (String d p') s).
Qed.

(** The first occurrence of a pattern after a prefix free of the pattern's first
    byte is right after that prefix. *)
Lemma Index_app (a r : string) (d : ascii) (p' : string) :
  str_forallb (fun c => negb (Ascii.eqb c d)) a = true ->
  Index (a ++ String d p' ++ r) (String d p') = Some (String.length a).
Proof.
  unfold Index. intros Ha. induction a as [|x a IH].
  - simpl. destruct (ascii_dec d d); [|done].
    pose proof (HasPrefix_app p' r) as Hp. unfold HasPrefix in Hp. by rewrite Hp.
  - apply andb_true_iff in Ha as [Hx Ha].
    change (String x a ++ String d p' ++ r) with (String x (a ++ String d p' ++ r)).
    rewrite (index_cons_ne _ _ d p'); [by rewrite (IH Ha)|done|].
    intros ->. by rewrite Ascii.eqb_refl in Hx.
Qed.

Lemma Index_prefix (p r : string) : Index (p ++ r) p = Some 0%nat.
Proof.
  unfold Index. pose proof (HasPrefix_app p r) as Hp. unfold HasPrefix in Hp.
  destruct p as [|c p]; [by destruct r|]. simpl in *.
  destruct (ascii_dec c c); [by rewrite Hp|done].
Qed.

(** A string contains each of its factors. *)
Lemma Contains_app (a p b : string) : Contains (a ++ p ++ b) p = true.
Proof.
  induction a as [|x a IH]; unfold Contains in *.
  - by rewrite str_app_nil_l, Index_prefix.
  - destruct p as [|d p]; [done|]. unfold Index in *.
    change (String x a ++ String d p ++ b) with (String x (a ++ String d p ++ b)).
    set (s := a ++ String d p ++ b) in *. clearbody s. simpl.
    destruct (String.index 0 (String d p) s) as [n|]; [|done].
    by repeat case_match.
Qed.

Lemma Contains_suffix (a p : string) : Contains (a ++ p) p = true.
Proof. rewrite <- (str_app_nil_r p) at 1. apply Contains_app. Qed.

Lemma Contains_prefix (p b : string) : Contains (p ++ b) p = true.
Proof. apply (Contains_app "" p b). Qed.

Lemma str_forallb_app f (a b : string) :
  str_forallb f (a ++ b) = str_forallb f a && str_forallb f b.
Proof. induction a as [|x a IH]; simpl; [done|]. by rewrite IH, andb_assoc. Qed.

Lemma str_mem_spec x l : str_mem x l = true <-> In x l.
Proof.
  unfold str_mem. rewrite existsb_exists. split.
  - intros (y & Hy & E). apply String.eqb_eq in E. by subst.
  - intros Hx. exists x. by rewrite String.eqb_refl.
Qed.

(** ** Decimal numbers read back *)

Lemma digit_ascii_byte d : (0 <= d < 10)%Z -> byte_of (digit_ascii d) = (48 + d)%Z.
Proof. intros Hd. unfold byte_of, digit_ascii. rewrite N_ascii_embedding; lia. Qed.

Lemma digit_ascii_digit d : (0 <= d < 10)%Z -> is_digit (digit_ascii d) = true.
Proof.
  intros Hd. unfold is_digit, between. rewrite digit_ascii_byte by done.
  apply andb_true_iff; split; apply Z.leb_le; lia.
Qed.

Lemma parse_digits_utoa fuel n acc :
  (0 <= n < 10 ^ Z.of_nat (S fuel))%Z ->
  parse_digits 0 (utoa (S fuel) n acc) = parse_digits n acc.
Proof.
  revert n acc. induction fuel as [|fuel IH]; intros n acc Hn; cbn [utoa].
  - change (10 ^ Z.of_nat 1)%Z with 10%Z in Hn. destruct (Z.ltb_spec n 10) as [_|]; [|lia].
    rewrite Z.mod_small by lia. cbn [parse_digits].
    rewrite digit_ascii_digit, digit_ascii_byte by lia. f_equal. lia.
  - pose proof (Z.mod_pos_bound n 10 ltac:(lia)) as Hm.
    assert (forall r, parse_digits r (String (digit_ascii (n mod 10)) acc) =
      parse_digits (10 * r + n mod 10) acc) as Hstep.
    { intros r. cbn [parse_digits]. rewrite digit_ascii_digit, digit_ascii_byte by lia. f_equal. lia. }
    destruct (Z.ltb_spec n 10) as [Hlt|Hge].
    + rewrite Hstep, Z.mod_small by lia. f_equal.
    + etransitivity; [apply (IH (n / 10)%Z)|].
      * rewrite (Nat2Z.inj_succ (S fuel)), Z.pow_succ_r in Hn by lia.
        split; [apply Z.div_pos; lia|apply Z.div_lt_upper_bound; lia].
      * rewrite Hstep. f_equal. pose proof (Z.div_mod n 10 ltac:(lia)). lia.
Qed.

Lemma utoa_digits fuel n acc :
  (0 <= n)%Z -> str_forallb is_digit (utoa fuel n acc) = str_forallb is_digit acc.
Proof.
  revert n acc. induction fuel as [|fuel IH]; intros n acc Hn; cbn [utoa]; [done|].
  assert (str_forallb is_digit (String (digit_ascii (n mod 10)) acc) = str_forallb is_digit acc) as E.
  { cbn [str_forallb]. rewrite digit_ascii_digit; [done|]. apply Z.mod_pos_bound. lia. }
  destruct (n <? 10)%Z; [done|]. rewrite IH; [done|]. apply Z.div_pos; lia.
Qed.

Lemma Itoa_digits n : (0 <= n)%Z -> str_forallb is_digit (Itoa n) = true.
Proof. intros Hn. unfold Itoa. destruct (Z.ltb_spec n 0); [lia|]. by rewrite utoa_digits. Qed.

Lemma ParseInt_fits s z : ParseInt s = Some z -> fits 64 z.
Proof. unfold ParseInt. intros Hp. repeat case_match; simplify_eq; done. Qed.

Lemma ParseInt_Itoa n : (0 <= n < 2 ^ 63)%Z -> ParseInt (Itoa n) = Some n.
Proof.
  intros Hn. pose proof (Itoa_digits n ltac:(lia)) as Hd.
  assert (parse_digits 0 (Itoa n) = Some n) as Hp.
  { unfold Itoa in *. destruct (Z.ltb_spec n 0); [lia|]. rewrite (parse_digits_utoa 19); [done|].
    split; [lia|]. apply Z.lt_trans with (2 ^ 63)%Z; [lia|]. vm_compute. reflexivity. }
  assert (Itoa n <> "") as Hne.
  { intros E. rewrite E in Hp. injection Hp as <-. vm_compute in E. discriminate. }
  unfold ParseInt. destruct (Itoa n) as [|c s] eqn:E; [done|].
  assert (match String c s with
          | String "-" s' => Z.opp <$> parse_nat s'
          | String "+" s' => parse_nat s'
          | _ => parse_nat (String c s) end = parse_nat (String c s)) as ->.
  { simpl in Hd. apply andb_true_iff in Hd as [Hc _].
    destruct c as [[] [] [] [] [] [] [] []]; try done; by vm_compute in Hc. }
  unfold parse_nat. rewrite Hp. rewrite decide_True; [done|]. split; simpl; lia.
Qed.

#[export] Hint Rewrite str_app_nil_r str_length_app sdrop_app stake_app
  HasPrefix_app HasSuffix_app strip_prefix_app Index_prefix
  Contains_suffix Contains_prefix str_forallb_app : rapido.

(** ** UTF-8 *)

Definition is_cont (lo hi : Z) (s : string) : bool :=
  match s with String c _ => between lo hi c | EmptyString => false end.

(** How many bytes the valid encoding at the head of [s] takes; 0 when the first
    byte starts none ([utf8.DecodeRuneInString] then reports width 1 and
    [RuneError]). *)
Definition utf8_width (s : string) : nat :=
  match s with
  | EmptyString => 0
  | String c r =>
      let r2 := sdrop 1 r in
      let r3 := sdrop 2 r in
      if between 0 127 c then 1
      else if between 194 223 c then if is_cont 128 191 r then 2 else 0
      else if between 224 239 c then
        let lo := if (byte_of c =? 224)%Z then 160%Z else 128%Z in
        let hi := if (byte_of c =? 237)%Z then 159%Z else 191%Z in
        if is_cont lo hi r && is_cont 128 191 r2 then 3 else 0
      else if between 240 244 c then
        let lo := if (byte_of c =? 240)%Z then 144%Z else 128%Z in
        let hi := if (byte_of c =? 244)%Z then 143%Z else 191%Z in
        if is_cont lo hi r && is_cont 128 191 r2 && is_cont 128 191 r3 then 4 else 0
      else 0
  end%nat.

(** [utf8.ValidString]; the length is enough fuel. *)
Fixpoint utf8_valid (fuel : nat) (s : string) : bool :=
  match fuel, s with
  | _, EmptyString => true
  | O, _ => false
  | S fuel, _ => match utf8_width s with
                 | O => false
                 | w => utf8_valid fuel (sdrop w s)
                 end
  end.

Definition ValidUTF8 (s : string) : bool := utf8_valid (String.length s) s.

(** [strings.ToValidUTF8(s, "")]: drops the bytes that are part of no valid
    encoding. *)
Fixpoint to_valid (fuel : nat) (s : string) : string :=
  match fuel, s with
  | S fuel, String _ s' =>
      match utf8_width s with
      | O => to_valid fuel s'
      | w => stake w s ++ to_valid fuel (sdrop w s)
      end
  | _, _ => EmptyString
  end.

Definition ToValidUTF8 (s : string) : string := to_valid (String.length s) s.

(** [strings.ToLower], up to comparison with ASCII text: ASCII letters, and the
    two other runes whose lower case is an ASCII letter (U+0130 and U+212A). *)
Fixpoint ToLower (s : string) : string :=
  match s with
  | EmptyString => EmptyString
  | String "196" (String "176" s) => String "i" (ToLower s)
  | String "226" (String "132" (String "170" s)) => String "k" (ToLower s)
  | String c s =>
      String (if is_upper c then ascii_of_N (Z.to_N (byte_of c + 32)) else c) (ToLower s)
  end.

(** ASCII letters alone. *)
Definition lower_byte (c : ascii) : ascii :=
  if is_upper c then ascii_of_N (Z.to_N (byte_of c + 32)) else c.

(** The folding under which [encoding/json] matches keys, up to comparison with an
    ASCII text in lower case: ASCII letters, U+212A for k and U+017F for s. *)
Fixpoint FoldKey (s : string) : string :=
  match s with
  | EmptyString => EmptyString
  | String "226" (String "132" (String "170" s)) => String "k" (FoldKey s)
  | String "197" (String "191" s) => String "s" (FoldKey s)
  | String c s => String (lower_byte c) (FoldKey s)
  end.

(** The number of characters of a UTF-8 string. *)
Fixpoint char_count (s : string) : nat :=
  match s with
  | EmptyString => 0
  | String c s => (if RuneStart c then 1 else 0) + char_count s
  end%nat.

(** ** Splitting and trimming at one byte *)

(** [strings.Split] at a one-byte separator. *)
Fixpoint split_at (sep : ascii) (s : string) : list string :=
  match s with
  | EmptyString => [""]
  | String c s =>
      if Ascii.eqb c sep then "" :: split_at sep s
      else match split_at sep s with
           | [] => [String c ""]
           | x :: l => String c x :: l
           end
  end.

Lemma split_at_none sep s : str_forallb (fun c => negb (Ascii.eqb c sep)) s = true -> split_at sep s = [s].
Proof.
  induction s as [|c s IH]; simpl; [done|]. rewrite andb_true_iff, negb_true_iff. intros [-> Hs].
  by rewrite IH.
Qed.

Lemma split_at_app sep a b :
  str_forallb (fun c => negb (Ascii.eqb c sep)) a = true ->
  split_at sep (a ++ String sep b) = a :: split_at sep b.
Proof.
  induction a as [|c a IH]; simpl.
  - intros _. by rewrite Ascii.eqb_refl.
  - rewrite andb_true_iff, negb_true_iff. intros [-> Ha]. by rewrite IH.
Qed.

(** [strings.LastIndexByte] as a split: what is before and after the last [c]. *)
Fixpoint split_last (c : ascii) (s : string) : option (string * string) :=
  match s with
  | EmptyString => None
  | String d s =>
      match split_last c s with
      | Some (a, b) => Some (String d a, b)
      | None => if Ascii.eqb d c then Some ("", s) else None
      end
  end.

Lemma split_last_none c s : str_forallb (fun d => negb (Ascii.eqb d c)) s = true -> split_last c s = None.
Proof.
  induction s as [|d s IH]; simpl; [done|]. rewrite andb_true_iff, negb_true_iff. intros [-> Hs].
  by rewrite IH.
Qed.

Lemma split_last_app c a b :
  str_forallb (fun d => negb (Ascii.eqb d c)) b = true -> split_last c (a ++ String c b) = Some (a, b).
Proof.
  intros Hb. induction a as [|d a IH]; simpl; [|by rewrite IH].
  by rewrite (split_last_none _ _ Hb), Ascii.eqb_refl.
Qed.

Lemma split_last_spec c s a b : split_last c s = Some (a, b) -> s = (a ++ String c b).
Proof.
  revert a b. induction s as [|d s IH]; intros a b; simpl; [done|].
  destruct (split_last c s) as [[a' b']|].
  - intros [= <- <-]. simpl. by rewrite (IH a' b').
  - destruct (Ascii.eqb_spec d c) as [->|]; [|done]. by intros [= <- <-].
Qed.

(** [strings.TrimRight(s, c)] for one byte. *)
Fixpoint trim_right_byte (c : ascii) (s : string) : string :=
  match s with
  | EmptyString => EmptyString
  | String d s =>
      match trim_right_byte c s with
      | EmptyString => if Ascii.eqb d c then EmptyString else String d ""
      | r => String d r
      end
  end.

Lemma trim_right_byte_id c s :
  str_forallb (fun d => negb (Ascii.eqb d c)) s = true -> trim_right_byte c s = s.
Proof.
  induction s as [|d s IH]; simpl; [done|]. rewrite andb_true_iff, negb_true_iff. intros [-> Hs].
  rewrite (IH Hs). by destruct s.
Qed.

(** [strings.NewReplacer] on single bytes. *)
Fixpoint map_bytes (f : ascii -> ascii) (s : string) : string :=
  match s with EmptyString => EmptyString | String c s => String (f c) (map_bytes f s) end.

Lemma map_bytes_id f s : str_forallb (fun c => Ascii.eqb (f c) c) s = true -> map_bytes f s = s.
Proof.
  induction s as [|c s IH]; simpl; [done|]. rewrite andb_true_iff. intros [E Hs].
  apply Ascii.eqb_eq in E. by rewrite E, IH.
Qed.

Lemma str_forallb_impl (f g : ascii -> bool) s :
  (forall c, f c = true -> g c = true) -> str_forallb f s = true -> str_forallb g s = true.
Proof.
  intros Hfg. induction s as [|c s IH]; simpl; [done|]. rewrite !andb_true_iff. intros [Hc Hs].
  split; [by apply Hfg|by apply IH].
Qed.

(** ** [strings.Join], [TrimPrefix], [TrimSuffix], [TrimLeft] *)

Fixpoint Join (l : list string) (sep : string) : string :=
  match l with
  | [] => ""
  | [x] => x
  | x :: l => x ++ sep ++ Join l sep
  end.

Definition TrimSuffix (s p : string) : string :=
  if HasSuffix s p then stake (String.length s - String.length p) s else s.

Definition TrimPrefix (s p : string) : string :=
  match strip_prefix p s with Some r => r | None => s end.

(** [strings.TrimLeft(s, c)] for one byte. *)
Fixpoint trim_left_byte (c : ascii) (s : string) : string :=
  match s with
  | String d r => if Ascii.eqb d c then trim_left_byte c r else s
  | EmptyString => s
  end.

Lemma TrimPrefix_app p r : TrimPrefix (p ++ r) p = r.
Proof. unfold TrimPrefix. by rewrite strip_prefix_app. Qed.

Lemma TrimSuffix_app s p : TrimSuffix (s ++ p) p = s.
Proof. unfold TrimSuffix. by rewrite HasSuffix_app, str_length_app, Nat.add_sub, stake_app. Qed.

Lemma str_snoc_inj a b c d : a ++ String c "" = b ++ String d "" -> a = b /\ c = d.
Proof.
  revert b. induction a as [|x a IH]; intros [|y b]; simpl.
  - by intros [= ->].
  - by destruct b.
  - by destruct a.
  - intros [= -> E]. destruct (IH b E) as [-> ->]. done.
Qed.

Lemma HasSuffix_last a c b d : HasSuffix (a ++ String c "") (b ++ String d "") = true -> c = d.
Proof.
  intros (r & E)%HasSuffix_spec. rewrite str_app_assoc in E. by apply str_snoc_inj in E as [_ ->].
Qed.

(** A string that neither starts with nor ends in a byte of a white space is what
    [TrimSpace] leaves of it. *)
Definition starts_space (c : ascii) : bool :=
  existsb (fun p => match p with String d _ => Ascii.eqb c d | EmptyString => false end) space_encodings.

Fixpoint last_byte (s : string) : option ascii :=
  match s with EmptyString => None | String c "" => Some c | String _ s => last_byte s end.

Definition ends_space (c : ascii) : bool :=
  existsb (fun p => match last_byte p with Some d => Ascii.eqb c d | None => false end) space_encodings.

Lemma last_byte_snoc s c : last_byte (s ++ String c "") = Some c.
Proof. induction s as [|x s IH]; [done|]. simpl. rewrite IH. by destruct s. Qed.

Lemma last_byte_some s d : last_byte s = Some d -> exists a, s = a ++ String d "".
Proof.
  induction s as [|x s IH]; simpl; [done|]. destruct s as [|y s].
  - intros [= ->]. by exists "".
  - intros (a & E)%IH. exists (String x a). by rewrite E.
Qed.

Lemma trim_left_stop fuel c s : starts_space c = false -> trim_left fuel (String c s) = String c s.
Proof.
  intros Hc. destruct fuel as [|fuel]; [done|]. cbn [trim_left].
  destruct (List.find _ _) as [p|] eqn:Hf; [|done]. apply find_some in Hf as [Hin Hp].
  apply HasPrefix_spec in Hp as [r E]. unfold starts_space in Hc.
  assert (existsb (fun p => match p with String d _ => Ascii.eqb c d | EmptyString => false end) space_encodings = true) as Hex.
  { apply existsb_exists. exists p. split; [done|]. destruct p as [|d p]; [|injection E as -> _; apply Ascii.eqb_refl].
    by repeat (destruct Hin as [Hin|Hin]; [done|]). }
  congruence.
Qed.

Lemma trim_right_stop fuel s c : ends_space c = false -> trim_right fuel (s ++ String c "") = s ++ String c "".
Proof.
  intros Hc. destruct fuel as [|fuel]; [done|]. cbn [trim_right].
  destruct (List.find _ _) as [p|] eqn:Hf; [|done]. apply find_some in Hf as [Hin Hp].
  unfold ends_space in Hc.
  assert (existsb (fun p => match last_byte p with Some d => Ascii.eqb c d | None => false end) space_encodings = true) as Hex.
  { apply existsb_exists. exists p. split; [done|]. destruct (last_byte p) as [d|] eqn:Hl.
    - apply last_byte_some in Hl as [a ->]. apply HasSuffix_last in Hp as ->. apply Ascii.eqb_refl.
    - exfalso. revert Hl. by repeat (destruct Hin as [<-|Hin]; [done|]). }
  congruence.
Qed.

Lemma trim_left_space fuel s : trim_left (S fuel) (String " " s) = trim_left fuel s.
Proof. cbn [trim_left]. assert (List.find (HasPrefix (String " " s)) space_encodings = Some (String " " "")) as -> by (destruct s; reflexivity).
  reflexivity.
Qed.

Lemma TrimSpace_id c s d :
  starts_space c = false -> ends_space d = false -> TrimSpace (String c (s ++ String d "")) = String c (s ++ String d "").
Proof.
  intros Hc Hd. unfold TrimSpace. rewrite trim_left_stop by done. apply (trim_right_stop _ (String c s)). done.
Qed.

Lemma split_at_Join c l :
  l <> [] -> Forall (fun s => str_forallb (fun d => negb (Ascii.eqb d c)) s = true) l ->
  split_at c (Join l (String c "")) = l.
Proof.
  intros Hne H. induction H as [|s l Hs Hl IH]; [done|]. destruct l as [|t l]; [by apply split_at_none|].
  change (Join (s :: t :: l) (String c "")) with (s ++ String c (Join (t :: l) (String c ""))).
  rewrite split_at_app by done. by rewrite IH.
Qed.

(** Induction where the hypothesis covers all shorter strings. *)
Lemma str_ind_len (P : string -> Prop) :
  P "" -> (forall c s, (forall t, (String.length t < S (String.length s))%nat -> P t) -> P (String c s)) -> forall s, P s.
Proof.
  intros H0 HS s. induction s as [s IH] using (induction_ltof1 _ String.length). unfold ltof in IH.
  destruct s as [|c s]; [done|]. apply HS. intros t Ht. by apply IH.
Qed.

(** ** Numbers and white space *)

Lemma ParseInt_Itoa_int64 n : fits 64 n -> ParseInt (Itoa n) = Some n.
Proof.
  intros Hn. destruct (Z.ltb_spec n 0) as [Hneg|Hpos].
  2:{ apply ParseInt_Itoa. unfold fits in Hn. change (64 - 1)%Z with 63%Z in Hn. lia. }
  assert (parse_digits 0 (utoa 20 (- n) "") = Some (- n)%Z) as Hp.
  { rewrite (parse_digits_utoa 19); [done|]. unfold fits in Hn. change (64 - 1)%Z with 63%Z in Hn.
    split; [lia|]. apply Z.le_lt_trans with (2 ^ 63)%Z; [lia|]. vm_compute. reflexivity. }
  unfold Itoa. rewrite (proj2 (Z.ltb_lt n 0) Hneg). unfold ParseInt.
  assert (parse_nat (utoa 20 (- n) "") = Some (- n)%Z) as ->.
  { unfold parse_nat. destruct (utoa 20 (- n) "") eqn:E; [|done]. injection Hp as Hp. lia. }
  cbn [fmap option_fmap option_map]. rewrite Z.opp_involutive. by rewrite decide_True.
Qed.

Definition plain_byte (c : ascii) : bool := negb (starts_space c) && negb (ends_space c).

Lemma TrimSpace_stop s c d :
  match s with String x _ => x = c | EmptyString => False end -> last_byte s = Some d ->
  starts_space c = false -> ends_space d = false -> TrimSpace s = s.
Proof.
  intros Hc (a & E)%last_byte_some Hcs Hds. destruct s as [|x s]; [done|]. subst x.
  unfold TrimSpace. rewrite trim_left_stop by done. rewrite E. by apply trim_right_stop.
Qed.

Lemma TrimSpace_plain s : str_forallb plain_byte s = true -> TrimSpace s = s.
Proof.
  intros Hs. destruct s as [|c s]; [done|].
  assert (exists a d, String c s = a ++ String d "") as (a & d & E).
  { clear Hs. revert c. induction s as [|x s IH]; intros c; [by exists "", c|].
    destruct (IH x) as (a & d & E). exists (String c a), d. by rewrite E. }
  apply (TrimSpace_stop _ c d).
  - done.
  - rewrite E. apply last_byte_snoc.
  - cbn [str_forallb] in Hs. apply andb_true_iff in Hs as [Hc _]. unfold plain_byte in Hc.
    by apply andb_true_iff in Hc as [Hc%negb_true_iff _].
  - rewrite E, str_forallb_app in Hs. apply andb_true_iff in Hs as [_ Hd]. cbn [str_forallb] in Hd.
    rewrite andb_true_r in Hd. unfold plain_byte in Hd. by apply andb_true_iff in Hd as [_ Hd%negb_true_iff].
Qed.

Lemma utoa_nonempty fuel n acc : utoa (S fuel) n acc <> "".
Proof.
  revert n acc. induction fuel as [|fuel IH]; intros n acc; [cbn [utoa]; by destruct (n <? 10)%Z|].
  change (utoa (S (S fuel)) n acc) with
    (if (n <? 10)%Z then String (digit_ascii (n mod 10)) acc else utoa (S fuel) (n / 10) (String (digit_ascii (n mod 10)) acc)).
  destruct (n <? 10)%Z; [done|]. apply IH.
Qed.

Lemma Itoa_nonempty n : Itoa n <> "".
Proof. unfold Itoa. destruct (n <? 0)%Z; [done|]. apply utoa_nonempty. Qed.

Lemma after_first_prefix p r : after_first (p ++ r) p = Some r.
Proof. unfold after_first. rewrite Index_prefix. cbn [Nat.add]. by rewrite sdrop_app. Qed.

Lemma trim_left_spaces pad s :
  str_forallb (fun c => Ascii.eqb c " ") pad = true ->
  trim_left (String.length (pad ++ s)) (pad ++ s) = trim_left (String.length s) s.
Proof.
  induction pad as [|c pad IH]; [done|]. cbn [str_forallb]. intros [->%Ascii.eqb_eq Hp]%andb_true_iff.
  cbn [String.append String.length]. rewrite trim_left_space. by apply IH.
Qed.

Lemma TrimSpace_spaces pad s :
  str_forallb (fun c => Ascii.eqb c " ") pad = true -> TrimSpace (pad ++ s) = TrimSpace s.
Proof. intros Hp. unfold TrimSpace. by rewrite trim_left_spaces. Qed.

(** *** ASCII text is UTF-8 *)

Definition is_ascii (c : ascii) : bool := between 0 127 c.

Lemma ascii_valid s : str_forallb is_ascii s = true -> ValidUTF8 s = true.
Proof.
  unfold ValidUTF8. induction s as [|c s IH]; [done|]. cbn [str_forallb String.length].
  rewrite andb_true_iff. intros [Hc Hs]. cbn [utf8_valid]. unfold utf8_width, is_ascii in *. rewrite Hc.
  cbn [sdrop]. by apply IH.
Qed.

(** *** The order of strings *)

Lemma byte_of_inj c d : byte_of c = byte_of d -> c = d.
Proof.
  unfold byte_of. intros H%N2Z.inj. rewrite <- (ascii_N_embedding c), <- (ascii_N_embedding d). by f_equal.
Qed.

Lemma str_ltb_irrefl a : str_ltb a a = false.
Proof. induction a as [|c a IH]; [done|]. cbn. by rewrite Ascii.eqb_refl. Qed.

Lemma str_ltb_trans a b c : str_ltb a b = true -> str_ltb b c = true -> str_ltb a c = true.
Proof.
  revert b c. induction a as [|x a IH]; intros [|y b] [|z c]; cbn; try done.
  destruct (Ascii.eqb_spec x y) as [E1|E1], (Ascii.eqb_spec y z) as [E2|E2], (Ascii.eqb_spec x z) as [E3|E3]; subst; try done; [by apply IH|..];
    rewrite ?Z.ltb_lt; lia.
Qed.

Lemma str_ltb_total a b : str_ltb a b = true \/ a = b \/ str_ltb b a = true.
Proof.
  revert b. induction a as [|x a IH]; intros [|y b]; cbn; auto.
  destruct (Ascii.eqb_spec x y) as [->|Hne].
  - rewrite Ascii.eqb_refl. destruct (IH b) as [|[->|]]; auto.
  - destruct (Ascii.eqb_spec y x) as [->|]; [done|]. destruct (Z.lt_trichotomy (byte_of x) (byte_of y)) as [H|[H|H]].
    + left. by apply Z.ltb_lt.
    + by apply byte_of_inj in H.
    + right. right. by apply Z.ltb_lt.
Qed.
