(* ===== verification/GoFloat.v ===== *)
(** * Double-precision arithmetic

    [float64] as far as the panel computes with it: conversions of integers,
    product and quotient, rounded to 53 bits to nearest and ties to even, and
    [math.Round]. The magnitudes that occur (products and quotients of 64-bit
    integers) stay far from overflow and subnormals, so the exponent is unbounded. *)

From S2P Require Import Prelude.

#[local] Open Scope Z_scope.

Module GoFloat.

(** [mant * 2 ^ expo]. *)
Record float64 := mkFloat { mant : Z; expo : Z }.

Definition num (x : float64) : Z := mant x * 2 ^ Z.max 0 (expo x).
Definition den (x : float64) : Z := 2 ^ Z.max 0 (- expo x).

(** [n / d] to the nearest integer, ties to even. *)
Definition div_even (n d : Z) : Z :=
  let q := n / d in
  let r := n mod d in
  if 2 * r <? d then q
  else if d <? 2 * r then q + 1
  else if Z.even q then q else q + 1.

(** The exponent of the leading bit of [n / d]. *)
Definition log2_frac (n d : Z) : Z :=
  let e := Z.log2 n - Z.log2 d in
  if d * 2 ^ Z.max 0 e <=? n * 2 ^ Z.max 0 (- e) then e else e - 1.

(** The double nearest to [n / d], for positive [n] and [d]. *)
Definition nearest_pos (n d : Z) : float64 :=
  let e := log2_frac n d - 52 in
  mkFloat (div_even (n * 2 ^ Z.max 0 (- e)) (d * 2 ^ Z.max 0 e)) e.

Definition nearest (n d : Z) : float64 :=
  if n =? 0 then mkFloat 0 0
  else if n <? 0 then let x := nearest_pos (- n) d in mkFloat (- mant x) (expo x)
  else nearest_pos n d.

Definition of_int (n : Z) : float64 := nearest n 1.
Definition fmul (x y : float64) : float64 := nearest (num x * num y) (den x * den y).

(** The quotient by a positive number. *)
Definition fdiv (x y : float64) : float64 := nearest (num x * den y) (den x * num y).

Definition fadd (x y : float64) : float64 := nearest (num x * den y + num y * den x) (den x * den y).
Definition flt (x y : float64) : bool := num x * den y <? num y * den x.

(** Conversion to an integer, towards zero. *)
Definition Trunc (x : float64) : Z := Z.quot (num x) (den x).

(** [n / d] to the nearest integer, ties away from zero. *)
Definition round_div (n d : Z) : Z :=
  if n <? 0 then - ((2 * - n + d) / (2 * d)) else (2 * n + d) / (2 * d).

(** [math.Round]. *)
Definition Round (x : float64) : Z := round_div (num x) (den x).

(** ** Exactness *)

Lemma den_pos x : 0 < den x.
Proof. unfold den. apply Z.pow_pos_nonneg; lia. Qed.

Lemma log2_frac_spec n d :
  0 < n -> 0 < d ->
  let e := log2_frac n d in
  d * 2 ^ Z.max 0 e <= n * 2 ^ Z.max 0 (- e) /\
  n * 2 ^ Z.max 0 (- (e + 1)) < d * 2 ^ Z.max 0 (e + 1).
Proof.
  intros Hn Hd. unfold log2_frac. set (e := Z.log2 n - Z.log2 d).
  destruct (Z.log2_spec n Hn) as [Hn1 Hn2]. destruct (Z.log2_spec d Hd) as [Hd1 Hd2].
  pose proof (Z.log2_nonneg n). pose proof (Z.log2_nonneg d).
  rewrite Z.pow_succ_r in Hn2, Hd2 by lia.
  set (a := Z.log2 n) in *. set (b := Z.log2 d) in *. assert (e = a - b) as Heq by done. clearbody a b e.
  destruct (Z.leb_spec (d * 2 ^ Z.max 0 e) (n * 2 ^ Z.max 0 (- e))) as [Hle|Hlt]; cbv zeta.
  - split; [done|]. destruct (Z.le_gt_cases 0 e) as [He|He].
    + rewrite (Z.max_l 0 (- (e + 1))), (Z.max_r 0 (e + 1)) by lia.
      replace (e + 1) with (Z.succ e) by lia. rewrite Z.pow_succ_r, Z.pow_0_r by lia.
      assert (2 ^ a = 2 ^ b * 2 ^ e) by (rewrite <- Z.pow_add_r by lia; f_equal; lia).
      assert (0 < 2 ^ e) by (apply Z.pow_pos_nonneg; lia). nia.
    + destruct (Z.eq_dec e (-1)) as [->|].
      * change (Z.max 0 (- (-1 + 1))) with 0. change (Z.max 0 (-1 + 1)) with 0.
        assert (2 ^ b = 2 ^ a * 2 ^ 1) by (rewrite <- Z.pow_add_r by lia; f_equal; lia). lia.
      * rewrite (Z.max_r 0 (- (e + 1))), (Z.max_l 0 (e + 1)), Z.pow_0_r by lia.
        assert (2 ^ b = 2 * (2 ^ a * 2 ^ (- (e + 1)))).
        { rewrite <- Z.pow_add_r, <- Z.pow_succ_r by lia. f_equal. lia. }
        assert (0 < 2 ^ (- (e + 1))) by (apply Z.pow_pos_nonneg; lia). nia.
  - replace (e - 1 + 1) with e by lia. split; [|done]. destruct (Z.le_gt_cases e 0) as [He|He].
    + rewrite (Z.max_r 0 (- (e - 1))), (Z.max_l 0 (e - 1)), Z.pow_0_r by lia.
      assert (2 ^ b = 2 ^ a * 2 ^ (- e)) by (rewrite <- Z.pow_add_r by lia; f_equal; lia).
      replace (- (e - 1)) with (Z.succ (- e)) by lia. rewrite Z.pow_succ_r by lia.
      assert (0 < 2 ^ (- e)) by (apply Z.pow_pos_nonneg; lia). nia.
    + rewrite (Z.max_l 0 (- (e - 1))), (Z.max_r 0 (e - 1)), !Z.pow_0_r by lia.
      assert (2 ^ a = 2 * (2 ^ b * 2 ^ (e - 1))).
      { rewrite <- Z.pow_add_r, <- Z.pow_succ_r by lia. f_equal. lia. }
      assert (0 < 2 ^ (e - 1)) by (apply Z.pow_pos_nonneg; lia). nia.
Qed.

Lemma div_even_spec n d : 0 < d -> let m := div_even n d in - d <= 2 * (m * d - n) <= d.
Proof.
  intros Hd. unfold div_even. pose proof (Z.div_mod n d ltac:(lia)) as Hn.
  pose proof (Z.mod_pos_bound n d Hd). cbv zeta.
  destruct (Z.ltb_spec (2 * (n mod d)) d); [nia|].
  destruct (Z.ltb_spec d (2 * (n mod d))); [nia|]. destruct (Z.even (n / d)); nia.
Qed.

Lemma div_even_exact k d : 0 < d -> div_even (k * d) d = k.
Proof.
  intros Hd. unfold div_even. rewrite Z.mod_mul, Z.div_mul by lia.
  by rewrite (proj2 (Z.ltb_lt (2 * 0) d)) by lia.
Qed.

(** Below [2 ^ 52] the rounded quotient rounds to the same integer. *)
Lemma Round_nearest n d :
  0 <= n < 2 ^ 52 -> 0 < d -> Round (nearest n d) = (2 * n + d) / (2 * d).
Proof.
  intros Hn Hd. unfold nearest. destruct (Z.eqb_spec n 0) as [->|Hn0].
  { unfold Round, round_div, num, den; simpl. symmetry. apply Z.div_small. lia. }
  destruct (Z.ltb_spec n 0) as [|_]; [lia|]. unfold nearest_pos.
  destruct (log2_frac_spec n d ltac:(lia) Hd) as [Hlo Hhi].
  set (l := log2_frac n d) in *.
  assert (l < 52) as Hl.
  { destruct (Z.lt_ge_cases l 52) as [|Hge]; [done|]. exfalso.
    rewrite (Z.max_r 0 l), (Z.max_l 0 (- l)) in Hlo by lia.
    assert (2 ^ 52 <= 2 ^ l) by (apply Z.pow_le_mono_r; lia). nia. }
  rewrite (Z.max_r 0 (- (l - 52))), (Z.max_l 0 (l - 52)) by lia. set (s := - (l - 52)).
  assert (0 < 2 ^ s) as Hs by (apply Z.pow_pos_nonneg; lia).
  assert (d < 2 ^ s) as Hds.
  { assert (d * 2 ^ 52 <= n * 2 ^ s) as Hscaled; [|nia]. destruct (Z.le_ge_cases 0 l).
    - rewrite (Z.max_r 0 l), (Z.max_l 0 (- l)) in Hlo by lia.
      assert (2 ^ 52 = 2 ^ l * 2 ^ s) by (rewrite <- Z.pow_add_r by lia; f_equal; lia). nia.
    - rewrite (Z.max_l 0 l), (Z.max_r 0 (- l)) in Hlo by lia.
      assert (2 ^ s = 2 ^ 52 * 2 ^ (- l)) by (rewrite <- Z.pow_add_r by lia; f_equal; lia). nia. }
  rewrite Z.pow_0_r, Z.mul_1_r. pose proof (div_even_spec (n * 2 ^ s) d Hd) as Herr. cbv zeta in Herr.
  set (m := div_even (n * 2 ^ s) d) in *.
  unfold Round, num, den; cbn [mant expo].
  replace (Z.max 0 (l - 52)) with 0 by lia. replace (Z.max 0 (- (l - 52))) with s by lia.
  rewrite Z.pow_0_r, Z.mul_1_r. assert (0 <= m) as Hm by nia.
  unfold round_div. destruct (Z.ltb_spec m 0) as [|_]; [lia|].
  set (h := (2 * n + d) / (2 * d)). pose proof (Z.div_mod (2 * n + d) (2 * d) ltac:(lia)) as Hdm.
  pose proof (Z.mod_pos_bound (2 * n + d) (2 * d) ltac:(lia)) as Hmod. fold h in Hdm.
  set (r := (2 * n + d) mod (2 * d)) in *.
  symmetry. apply Z.div_unique with (r := 2 * m + 2 ^ s - 2 * 2 ^ s * h); [|lia]. left.
  assert (d * (2 * m + 2 ^ s) < d * (2 * 2 ^ s * (h + 1))) as Hup by nia. split; [|nia].
  destruct (Z.eq_dec r 0) as [Hr|Hr].
  - assert (2 ^ s = 2 * 2 ^ (s - 1)) as E by (rewrite <- Z.pow_succ_r by lia; f_equal; lia).
    assert (n * 2 ^ s = ((2 * h - 1) * 2 ^ (s - 1)) * d) as En by nia.
    subst m. rewrite En, div_even_exact by lia. lia.
  - assert (d * (2 * 2 ^ s * h) < d * (2 * m + 2 ^ s + 1)) as Hdn by nia. nia.
Qed.

(** The value depends on the fraction alone. *)
Definition at_least (n d e : Z) : Prop := d * 2 ^ Z.max 0 e <= n * 2 ^ Z.max 0 (- e).

Lemma at_least_pred n d e : 0 < n -> 0 < d -> at_least n d (e + 1) -> at_least n d e.
Proof.
  unfold at_least. intros Hn Hd H. destruct (Z.le_gt_cases 0 e) as [He|He].
  - rewrite (Z.max_r 0 (e + 1)), (Z.max_l 0 (- (e + 1))) in H by lia.
    rewrite (Z.max_r 0 e), (Z.max_l 0 (- e)) by lia.
    replace (e + 1) with (Z.succ e) in H by lia. rewrite Z.pow_succ_r in H by lia.
    assert (0 < 2 ^ e) by (apply Z.pow_pos_nonneg; lia). nia.
  - rewrite (Z.max_l 0 (e + 1)), (Z.max_r 0 (- (e + 1))) in H by lia.
    rewrite (Z.max_l 0 e), (Z.max_r 0 (- e)) by lia.
    replace (- e) with (Z.succ (- (e + 1))) by lia. rewrite Z.pow_succ_r by lia.
    assert (0 < 2 ^ (- (e + 1))) by (apply Z.pow_pos_nonneg; lia). nia.
Qed.

Lemma at_least_le n d e e' : 0 < n -> 0 < d -> e' <= e -> at_least n d e -> at_least n d e'.
Proof.
  intros Hn Hd Hle H. replace e' with (e - (e - e')) by lia.
  assert (0 <= e - e') as Hk by lia. revert Hk. generalize (e - e').
  apply natlike_ind; [by replace (e - 0) with e by lia|].
  intros k Hk IH. apply at_least_pred; [done|done|]. by replace (e - Z.succ k + 1) with (e - k) by lia.
Qed.

Lemma log2_frac_scale n d c : 0 < n -> 0 < d -> 0 < c -> log2_frac (n * c) (d * c) = log2_frac n d.
Proof.
  intros Hn Hd Hc. destruct (log2_frac_spec n d Hn Hd) as [H1 H2].
  destruct (log2_frac_spec (n * c) (d * c) ltac:(nia) ltac:(nia)) as [H3 H4].
  set (e := log2_frac n d) in *. set (e' := log2_frac (n * c) (d * c)) in *.
  destruct (Z.lt_total e e') as [Hlt|[Heq|Hgt]]; [exfalso|done|exfalso].
  - assert (at_least n d (e + 1)) as Ha; [|unfold at_least in Ha; lia].
    apply at_least_le with e'; [done|done|lia|]. unfold at_least. nia.
  - assert (at_least n d (e' + 1)) as Ha; [|unfold at_least in Ha; nia].
    apply at_least_le with e; [done|done|lia|]. done.
Qed.

Lemma div_even_scale n d c : 0 < d -> 0 < c -> div_even (n * c) (d * c) = div_even n d.
Proof.
  intros Hd Hc. unfold div_even. rewrite Z.div_mul_cancel_r, Z.mul_mod_distr_r by lia.
  assert ((2 * (n mod d * c) <? d * c) = (2 * (n mod d) <? d)) as ->.
  { destruct (Z.ltb_spec (2 * (n mod d)) d), (Z.ltb_spec (2 * (n mod d * c)) (d * c)); try done; nia. }
  assert ((d * c <? 2 * (n mod d * c)) = (d <? 2 * (n mod d))) as ->; [|done].
  destruct (Z.ltb_spec d (2 * (n mod d))), (Z.ltb_spec (d * c) (2 * (n mod d * c))); try done; nia.
Qed.

Lemma nearest_scale n d c : 0 <= n -> 0 < d -> 0 < c -> nearest (n * c) (d * c) = nearest n d.
Proof.
  intros Hn Hd Hc. unfold nearest. destruct (Z.eqb_spec n 0) as [->|Hn0]; [done|].
  destruct (Z.eqb_spec (n * c) 0); [nia|]. destruct (Z.ltb_spec n 0); [lia|].
  destruct (Z.ltb_spec (n * c) 0); [nia|]. unfold nearest_pos. rewrite log2_frac_scale by lia.
  set (e := log2_frac n d - 52). f_equal.
  rewrite <- (div_even_scale (n * 2 ^ Z.max 0 (- e)) (d * 2 ^ Z.max 0 e) c).
  - f_equal; lia.
  - apply Z.mul_pos_pos; [lia|]. apply Z.pow_pos_nonneg; lia.
  - done.
Qed.

(** Integers below [2 ^ 53] are exact. *)
Lemma of_int_exact n : 0 <= n < 2 ^ 53 -> num (of_int n) = n * den (of_int n).
Proof.
  intros Hn. unfold of_int, nearest. destruct (Z.eqb_spec n 0) as [->|Hn0]; [reflexivity|].
  destruct (Z.ltb_spec n 0) as [|_]; [lia|]. unfold nearest_pos.
  destruct (log2_frac_spec n 1 ltac:(lia) ltac:(lia)) as [Hlo _]. set (l := log2_frac n 1) in *.
  assert (l < 53) as Hl.
  { destruct (Z.lt_ge_cases l 53) as [|Hge]; [done|]. exfalso.
    rewrite (Z.max_r 0 l), (Z.max_l 0 (- l)) in Hlo by lia.
    assert (2 ^ 53 <= 2 ^ l) by (apply Z.pow_le_mono_r; lia). lia. }
  rewrite (Z.max_l 0 (l - 52)) by lia. unfold num, den; cbn [mant expo].
  rewrite (Z.max_l 0 (l - 52)), Z.pow_0_r, !Z.mul_1_r by lia.
  rewrite <- (Z.mul_1_r (n * 2 ^ _)), div_even_exact by lia. by rewrite Z.mul_1_r.
Qed.

(** A count times a constant, over a capacity, rounded: as over the integers. *)
Lemma Round_fdiv_fmul k n d :
  0 <= k < 2 ^ 53 -> 0 <= n < 2 ^ 53 -> k * n < 2 ^ 52 -> 0 < d < 2 ^ 53 ->
  Round (fdiv (fmul (of_int k) (of_int n)) (of_int d)) = (2 * (k * n) + d) / (2 * d).
Proof.
  intros Hk Hn Hkn Hd. unfold fdiv, fmul.
  pose proof (of_int_exact k Hk) as Ek. pose proof (of_int_exact n Hn) as En.
  pose proof (of_int_exact d ltac:(lia)) as Ed.
  pose proof (den_pos (of_int k)). pose proof (den_pos (of_int n)). pose proof (den_pos (of_int d)).
  assert (nearest (num (of_int k) * num (of_int n)) (den (of_int k) * den (of_int n)) = of_int (k * n)) as ->.
  { rewrite Ek, En. unfold of_int at 5. rewrite <- (nearest_scale (k * n) 1 (den (of_int k) * den (of_int n))) by lia.
    f_equal; lia. }
  pose proof (of_int_exact (k * n) ltac:(lia)) as Ekn. pose proof (den_pos (of_int (k * n))).
  rewrite Ekn, Ed.
  replace (k * n * den (of_int (k * n)) * den (of_int d)) with
    (k * n * (den (of_int (k * n)) * den (of_int d))) by lia.
  replace (den (of_int (k * n)) * (d * den (of_int d))) with
    (d * (den (of_int (k * n)) * den (of_int d))) by lia.
  rewrite nearest_scale, Round_nearest by lia. done.
Qed.
End GoFloat.
