(* ===== verification/Base64.v ===== *)
(** * Text encodings: URL-safe base64 and hexadecimal

    [encoding/base64]'s [RawURLEncoding] and [URLEncoding], and [encoding/hex], as far
    as the panel uses them. Decoding skips line breaks, wants no padding, and ignores
    the spare bits of the last character, as the library does. *)

From S2P Require Import Prelude GoStrings.

#[local] Open Scope Z_scope.

Module Base64.

Definition alphabet : list ascii :=
  String.list_ascii_of_string "ABCDEFGHIJKLMNOPQRSTUVWXYZabcdefghijklmnopqrstuvwxyz0123456789-_".

Definition encode6 (n : Z) : ascii := List.nth (Z.to_nat n) alphabet "A"%char.

Definition decode6 (c : ascii) : option Z :=
  let b := byte_of c in
  if is_upper c then Some (b - 65)
  else if is_lower c then Some (b - 71)
  else if is_digit c then Some (b + 4)
  else if Ascii.eqb c "-" then Some 62
  else if Ascii.eqb c "_" then Some 63
  else None.

(** [RawURLEncoding] of a list of bytes. *)
Fixpoint encode_bytes (l : list Z) : list Z :=
  match l with
  | [] => []
  | [a] => [a / 4; (a mod 4) * 16]
  | [a; b] => [a / 4; (a mod 4) * 16 + b / 16; (b mod 16) * 4]
  | a :: b :: c :: l =>
      a / 4 :: (a mod 4) * 16 + b / 16 :: (b mod 16) * 4 + c / 64 :: c mod 64 :: encode_bytes l
  end.

Fixpoint decode_sextets (l : list Z) : option (list Z) :=
  match l with
  | [] => Some []
  | [_] => None
  | [s; t] => Some [s * 4 + t / 16]
  | [s; t; u] => Some [s * 4 + t / 16; (t mod 16) * 16 + u / 4]
  | s :: t :: u :: v :: l =>
      rest ← decode_sextets l;
      Some (s * 4 + t / 16 :: (t mod 16) * 16 + u / 4 :: (u mod 4) * 64 + v :: rest)
  end.

Definition bytes_of (s : string) : list Z := map byte_of (String.list_ascii_of_string s).
Definition string_of_bytes (l : list Z) : string :=
  String.string_of_list_ascii (map (fun b => ascii_of_N (Z.to_N b)) l).

Definition Encode (s : string) : string :=
  String.string_of_list_ascii (map encode6 (encode_bytes (bytes_of s))).

(** [URLEncoding]: the same with padding. *)
Definition EncodePadded (s : string) : string :=
  Encode s ++ match (String.length s mod 3)%nat with
              | 1%nat => "=="
              | 2%nat => "="
              | _ => ""
              end.

Definition is_line_break (c : ascii) : bool := (byte_of c =? 10) || (byte_of c =? 13).

Definition Decode (s : string) : option string :=
  sextets ← mapM decode6 (List.filter (fun c => negb (is_line_break c)) (String.list_ascii_of_string s));
  bytes ← decode_sextets sextets;
  Some (string_of_bytes bytes).

(** [hex.EncodeToString]. *)
Definition hex_digit (n : Z) : ascii := List.nth (Z.to_nat n) (String.list_ascii_of_string "0123456789abcdef") "0"%char.

Definition Hex (s : string) : string :=
  String.string_of_list_ascii (flat_map (fun b => [hex_digit (b / 16); hex_digit (b mod 16)]) (bytes_of s)).

(** ** Round trip *)

Lemma byte_of_bounds c : 0 <= byte_of c < 256.
Proof.
  unfold byte_of. pose proof (N_ascii_bounded c). lia.
Qed.

Lemma bytes_of_byte s : Forall (fun b => 0 <= b < 256) (bytes_of s).
Proof.
  unfold bytes_of. apply Forall_forall. intros b Hb. apply list_elem_of_In, in_map_iff in Hb as (c & <- & _).
  apply byte_of_bounds.
Qed.

Lemma string_of_bytes_of s : string_of_bytes (bytes_of s) = s.
Proof.
  unfold string_of_bytes, bytes_of. rewrite map_map.
  transitivity (String.string_of_list_ascii (String.list_ascii_of_string s));
    [|apply String.string_of_list_ascii_of_string].
  f_equal. transitivity (map id (String.list_ascii_of_string s)); [|apply map_id].
  apply map_ext. intros c. unfold byte_of. by rewrite N2Z.id, ascii_N_embedding.
Qed.

(** Induction three at a time. *)
Lemma list_ind3 {A} (P : list A -> Prop) :
  P [] -> (forall a, P [a]) -> (forall a b, P [a; b]) ->
  (forall a b c l, P l -> P (a :: b :: c :: l)) -> forall l, P l.
Proof.
  intros H0 H1 H2 H3. fix IH 1. intros [|a [|b [|c l]]]; [apply H0|apply H1|apply H2|].
  apply H3, IH.
Qed.

Lemma encode_bytes_sextets l :
  Forall (fun b => 0 <= b < 256) l -> Forall (fun n => 0 <= n < 64) (encode_bytes l).
Proof.
  induction l as [|a|a b|a b c l IH] using list_ind3; cbn [encode_bytes]; rewrite ?Forall_cons; intros H.
  - constructor.
  - destruct H as [Ha _]. split_and!; try apply Forall_nil_2;
      cbv beta in *; Z.to_euclidean_division_equations; lia.
  - destruct H as (Ha & Hb & _). split_and!; try apply Forall_nil_2;
      cbv beta in *; Z.to_euclidean_division_equations; lia.
  - destruct H as (Ha & Hb & Hc & Hl). specialize (IH Hl).
    split_and!; try exact IH; cbv beta in *; Z.to_euclidean_division_equations; lia.
Qed.

Lemma decode_encode_bytes l :
  Forall (fun b => 0 <= b < 256) l -> decode_sextets (encode_bytes l) = Some l.
Proof.
  induction l as [|a|a b|a b c l IH] using list_ind3; cbn [encode_bytes decode_sextets]; rewrite ?Forall_cons;
    intros H.
  - done.
  - destruct H as [Ha _]. repeat f_equal; cbv beta in *; Z.to_euclidean_division_equations; lia.
  - destruct H as (Ha & Hb & _). repeat f_equal; cbv beta in *; Z.to_euclidean_division_equations; lia.
  - destruct H as (Ha & Hb & Hc & Hl). rewrite (IH Hl). simpl.
    repeat f_equal; cbv beta in *; Z.to_euclidean_division_equations; lia.
Qed.

Definition sextets : list Z := map Z.of_nat (seq 0 64).

Lemma sextets_In n : 0 <= n < 64 -> In n sextets.
Proof. intros Hn. unfold sextets. apply in_map_iff. exists (Z.to_nat n). rewrite in_seq. lia. Qed.

(** A fact about every sextet, checked one by one. *)
Lemma sextet_cases (p : Z -> bool) n : 0 <= n < 64 -> forallb p sextets = true -> p n = true.
Proof. intros Hn Hp. rewrite forallb_forall in Hp. by apply Hp, sextets_In. Qed.

Lemma decode6_encode6 n : 0 <= n < 64 -> decode6 (encode6 n) = Some n.
Proof.
  intros Hn.
  pose proof (sextet_cases (fun n => bool_decide (decode6 (encode6 n) = Some n)) n Hn eq_refl) as H.
  by apply bool_decide_eq_true_1 in H.
Qed.

(** The characters base64 uses: none of them is a dot, a comma or a line break. *)
Definition is_b64 (c : ascii) : bool := match decode6 c with Some _ => true | None => false end.

Lemma Encode_b64 s : str_forallb is_b64 (Encode s) = true.
Proof.
  unfold Encode. pose proof (encode_bytes_sextets _ (bytes_of_byte s)) as Hs.
  induction Hs as [|n l Hn _ IH]; [done|]. simpl. rewrite IH, andb_true_r. unfold is_b64.
  by rewrite decode6_encode6.
Qed.

Lemma b64_not_line_break c : is_b64 c = true -> is_line_break c = false.
Proof.
  destruct c as [[] [] [] [] [] [] [] []]; by vm_compute.
Qed.

Lemma Decode_Encode s : Decode (Encode s) = Some s.
Proof.
  unfold Decode, Encode. rewrite String.list_ascii_of_string_of_list_ascii.
  pose proof (encode_bytes_sextets _ (bytes_of_byte s)) as Hs.
  assert (mapM decode6 (List.filter (fun c => negb (is_line_break c)) (map encode6 (encode_bytes (bytes_of s))))
    = Some (encode_bytes (bytes_of s))) as ->.
  { induction Hs as [|n l Hn _ IH]; [done|]. simpl.
    assert (is_b64 (encode6 n) = true) as Hb by (unfold is_b64; by rewrite decode6_encode6).
    rewrite (b64_not_line_break _ Hb). simpl. by rewrite decode6_encode6, IH. }
  simpl. rewrite (decode_encode_bytes _ (bytes_of_byte s)). simpl. by rewrite string_of_bytes_of.
Qed.

Lemma length_Encode s : (String.length s <= String.length (Encode s))%nat.
Proof.
  unfold Encode. assert (String.length s = length (bytes_of s)) as ->.
  { unfold bytes_of. rewrite length_map. induction s; simpl; congruence. }
  assert (forall l, String.length (String.string_of_list_ascii l) = length l) as -> by (induction l; simpl; congruence).
  rewrite length_map. generalize (bytes_of s). intros l.
  induction l as [|a|a b|a b c l IH] using list_ind3; simpl; lia.
Qed.

(** ** [StdEncoding]: the other alphabet, padded to whole groups of four *)

Definition to_std (c : ascii) : ascii :=
  if Ascii.eqb c "-" then "+"%char else if Ascii.eqb c "_" then "/"%char else c.

Definition of_std (c : ascii) : option ascii :=
  if Ascii.eqb c "+" then Some "-"%char
  else if Ascii.eqb c "/" then Some "_"%char
  else if Ascii.eqb c "-" || Ascii.eqb c "_" then None
  else Some c.

Definition padding (n : nat) : list ascii :=
  match (n mod 3)%nat with
  | 1%nat => ["="; "="]%char
  | 2%nat => ["="]%char
  | _ => []
  end.

Definition StdEncode (s : string) : string :=
  String.string_of_list_ascii
    (map (fun n => to_std (encode6 n)) (encode_bytes (bytes_of s)) ++ padding (String.length s)).

Definition unpad (cs : list ascii) : list ascii :=
  match rev cs with
  | "="%char :: "="%char :: r => rev r
  | "="%char :: r => rev r
  | _ => cs
  end.

Definition StdDecode (s : string) : option string :=
  let cs := List.filter (fun c => negb (is_line_break c)) (String.list_ascii_of_string s) in
  if negb (length cs mod 4 =? 0)%nat then None
  else
    us ← mapM of_std (unpad cs);
    sextets ← mapM decode6 us;
    bytes ← decode_sextets sextets;
    Some (string_of_bytes bytes).

Lemma std_sextet n : 0 <= n < 64 ->
  of_std (to_std (encode6 n)) = Some (encode6 n) /\ is_line_break (to_std (encode6 n)) = false /\
  to_std (encode6 n) <> "="%char.
Proof.
  intros Hn.
  pose proof (sextet_cases (fun n => bool_decide (of_std (to_std (encode6 n)) = Some (encode6 n) /\
    is_line_break (to_std (encode6 n)) = false /\ to_std (encode6 n) <> "="%char)) n Hn eq_refl) as H.
  by apply bool_decide_eq_true_1 in H.
Qed.

Lemma encode_bytes_length l :
  length (encode_bytes l) = (4 * (length l / 3) + match length l mod 3 with 0 => 0 | 1 => 2 | _ => 3 end)%nat.
Proof.
  induction l as [|a|a b|a b c l IH] using list_ind3; [done..|].
  change (length (encode_bytes (a :: b :: c :: l))) with (4 + length (encode_bytes l))%nat.
  rewrite IH. cbn [length]. replace (S (S (S (length l)))) with (length l + 1 * 3)%nat by lia.
  rewrite Nat.div_add, Nat.Div0.mod_add by lia. lia.
Qed.

Lemma std_length l : ((length (encode_bytes l) + length (padding (length l))) mod 4 = 0)%nat.
Proof.
  rewrite encode_bytes_length. unfold padding. pose proof (Nat.mod_upper_bound (length l) 3 ltac:(lia)).
  destruct (length l mod 3)%nat as [|[|[|?]]]; try lia; cbn [length];
    match goal with |- ((4 * ?q + ?a + ?b) mod 4 = 0)%nat =>
      replace (4 * q + a + b)%nat with ((q + (a + b) / 4) * 4)%nat by (cbn; lia) end; apply Nat.Div0.mod_mul.
Qed.

Lemma unpad_plain cs : Forall (fun c => c <> "="%char) cs -> unpad cs = cs.
Proof.
  intros Hcs. unfold unpad. destruct (rev cs) as [|c r] eqn:E; [done|].
  assert (c <> "="%char) as Hc.
  { rewrite Forall_forall in Hcs. apply Hcs, list_elem_of_In. rewrite in_rev, E. by left. }
  revert Hc. clear. destruct c as [[] [] [] [] [] [] [] []]; done.
Qed.

Lemma unpad_padding cs n : Forall (fun c => c <> "="%char) cs -> unpad (cs ++ padding n) = cs.
Proof.
  intros Hcs. pose proof (unpad_plain cs Hcs) as Hp. unfold unpad, padding in *.
  destruct (n mod 3)%nat as [|[|[|?]]]; rewrite ?app_nil_r; try done; rewrite rev_app_distr; cbn [rev List.app].
  - by rewrite rev_involutive.
  - destruct (rev cs) as [|c r] eqn:E; [by rewrite <- (rev_involutive cs), E|].
    assert (c <> "="%char) as Hc.
    { rewrite Forall_forall in Hcs. apply Hcs, list_elem_of_In. rewrite in_rev, E. by left. }
    assert (rev (c :: r) = cs) as Hr by (rewrite <- E; apply rev_involutive).
    revert Hc Hr. clear. destruct c as [[] [] [] [] [] [] [] []]; done.
Qed.

Lemma padding_kept n : List.filter (fun c => negb (is_line_break c)) (padding n) = padding n.
Proof. unfold padding. by destruct (n mod 3)%nat as [|[|[|?]]]. Qed.

Lemma StdDecode_StdEncode s : StdDecode (StdEncode s) = Some s.
Proof.
  unfold StdDecode, StdEncode. rewrite String.list_ascii_of_string_of_list_ascii.
  pose proof (encode_bytes_sextets _ (bytes_of_byte s)) as Hs.
  assert (length (bytes_of s) = String.length s) as Hlen.
  { clear Hs. unfold bytes_of. rewrite length_map. induction s; simpl; congruence. }
  rewrite List.filter_app, padding_kept, filter_true.
  2:{ intros x (n & <- & Hn)%in_map_iff. rewrite List.Forall_forall in Hs.
      by destruct (std_sextet n (Hs n Hn)) as (_ & -> & _). }
  rewrite length_app, length_map, <- Hlen, std_length. cbn [Nat.eqb negb].
  rewrite unpad_padding.
  2:{ rewrite Forall_map. eapply Forall_impl; [exact Hs|]. intros n Hn. by apply std_sextet. }
  assert (mapM of_std (map (fun n => to_std (encode6 n)) (encode_bytes (bytes_of s))) =
          Some (map encode6 (encode_bytes (bytes_of s)))) as ->.
  { induction Hs as [|n l Hn _ IH]; [done|]. simpl. destruct (std_sextet n Hn) as (-> & _). simpl. by rewrite IH. }
  cbn. assert (mapM decode6 (map encode6 (encode_bytes (bytes_of s))) = Some (encode_bytes (bytes_of s))) as ->.
  { induction Hs as [|n l Hn _ IH]; [done|]. simpl. by rewrite decode6_encode6, IH. }
  cbn. rewrite (decode_encode_bytes _ (bytes_of_byte s)). cbn. by rewrite string_of_bytes_of.
Qed.
End Base64.
