(* ===== verification/GoUrl.v ===== *)
(** * GoUrl: what the code uses of [net/url]

    Percent encoding as [QueryEscape] and [PathEscape] write it and as their inverses
    read it, and [Values.Encode] with the reading of a query. What was escaped reads
    back ([unescape_escape], [ParseQuery_Encode]). *)

From stdpp Require Import sorting.
From S2P Require Import Prelude GoStrings Base64.

#[local] Open Scope string_scope.

(** ** Percent encoding *)

Definition hex_upper (n : Z) : ascii := ascii_of_N (Z.to_N (if (n <? 10)%Z then 48 + n else 55 + n)).

(** [%XX] *)
Definition percent (c : ascii) : string :=
  String "%" (String (hex_upper (byte_of c / 16)) (String (hex_upper (byte_of c mod 16)) "")).

(** The bytes [keep] says stay as they are; [plus] writes a space as a plus sign. *)
Fixpoint escape_with (keep : ascii -> bool) (plus : bool) (s : string) : string :=
  match s with
  | EmptyString => ""
  | String c s =>
      (if keep c then String c "" else if plus && Ascii.eqb c " " then "+" else percent c) ++ escape_with keep plus s
  end.

Definition is_mem (c : ascii) (s : string) : bool := negb (str_forallb (fun d => negb (Ascii.eqb c d)) s).

(** RFC 3986, section 2.3. *)
Definition unreserved (c : ascii) : bool := is_upper c || is_lower c || is_digit c || is_mem c "-_.~".

Definition QueryEscape : string -> string := escape_with unreserved true.
Definition PathEscape : string -> string := escape_with (fun c => unreserved c || is_mem c "$&+=:@") false.

Definition hex_digit_value (c : ascii) : option Z :=
  if is_digit c then Some (byte_of c - 48)%Z
  else if between 97 102 c then Some (byte_of c - 87)%Z
  else if between 65 70 c then Some (byte_of c - 55)%Z
  else None.

Fixpoint unescape (plus : bool) (s : string) : option string :=
  match s with
  | EmptyString => Some ""
  | String "%" (String a (String b r)) =>
      x ← hex_digit_value a; y ← hex_digit_value b; t ← unescape plus r;
      Some (String (ascii_of_N (Z.to_N (16 * x + y))) t)
  | String "%" _ => None
  | String c r => t ← unescape plus r; Some (String (if plus && Ascii.eqb c "+" then " "%char else c) t)
  end.

Definition QueryUnescape : string -> option string := unescape true.
Definition PathUnescape : string -> option string := unescape false.

(** ** [url.Values] with one value per key *)

Abbreviation Values := (gmap string string).

Definition key_le (a b : string * string) : Prop := str_ltb b.1 a.1 = false.
#[export] Instance key_le_dec : RelDecision key_le. Proof. intros a b. unfold key_le. apply _. Defined.

(** The pairs in the order of the keys. *)
Definition sorted_pairs (v : Values) : list (string * string) := merge_sort key_le (map_to_list v).

Definition pair_text (kv : string * string) : string := QueryEscape kv.1 ++ "=" ++ QueryEscape kv.2.

(** [Values.Encode]. *)
Definition Encode (v : Values) : string := Join (map pair_text (sorted_pairs v)) "&".

(** [strings.Cut] at one byte: what is before it, and what is after it if it is there. *)
Fixpoint cut (c : ascii) (s : string) : string * option string :=
  match s with
  | EmptyString => ("", None)
  | String d r =>
      if Ascii.eqb d c then ("", Some r)
      else let '(a, b) := cut c r in (String d a, b)
  end.

Definition read_pair (s : string) : option (string * string) :=
  let '(k, v) := cut "=" s in
  k ← QueryUnescape k; v ← QueryUnescape (default "" v); Some (k, v).

(** [ParseQuery], for a query whose pairs all decode. *)
Definition ParseQuery (s : string) : option (list (string * string)) :=
  mapM read_pair (List.filter (fun p => negb (String.eqb p "")) (split_at "&" s)).

(** ** Reading what was escaped *)

Definition free_of (c : ascii) (s : string) : bool := str_forallb (fun d => negb (Ascii.eqb d c)) s.

Lemma all_bytes (p : ascii -> bool) : forallb (fun n => p (ascii_of_nat n)) (seq 0 256) = true -> forall c, p c = true.
Proof.
  intros Hp c. rewrite forallb_forall in Hp. rewrite <- (ascii_nat_embedding c). apply Hp, in_seq.
  pose proof (nat_ascii_bounded c). lia.
Qed.

Lemma nibble_cases (p : Z -> bool) n : (0 <= n < 16)%Z -> forallb p (map Z.of_nat (seq 0 16)) = true -> p n = true.
Proof.
  intros Hn Hp. rewrite forallb_forall in Hp. apply Hp, in_map_iff. exists (Z.to_nat n). rewrite in_seq. lia.
Qed.

Lemma hex_upper_value n : (0 <= n < 16)%Z -> hex_digit_value (hex_upper n) = Some n.
Proof.
  intros Hn. apply (bool_decide_eq_true_1 _), (nibble_cases (fun n => bool_decide (hex_digit_value (hex_upper n) = Some n)) n Hn).
  reflexivity.
Qed.

Lemma nibbles c : (0 <= byte_of c / 16 < 16 /\ 0 <= byte_of c mod 16 < 16)%Z.
Proof.
  pose proof (Base64.byte_of_bounds c) as Hc. split; [|apply Z.mod_pos_bound; lia].
  split; [apply Z.div_pos; lia|apply Z.div_lt_upper_bound; lia].
Qed.

Lemma unescape_percent plus c r : unescape plus (percent c ++ r) = (t ← unescape plus r; Some (String c t)).
Proof.
  destruct (nibbles c) as [Hd Hm]. unfold percent. cbn [String.append unescape].
  rewrite !hex_upper_value by done.
  cbn [mbind option_bind]. replace (16 * (byte_of c / 16) + byte_of c mod 16)%Z with (byte_of c) by (apply Z.div_mod; lia).
  unfold byte_of. rewrite N2Z.id, ascii_N_embedding. done.
Qed.

(** No byte that is kept reads as anything else. *)
Definition keeps_sound (keep : ascii -> bool) (plus : bool) : Prop :=
  forall c, keep c = true -> c <> "%"%char /\ (plus = true -> c <> "+"%char).

Lemma unescape_escape keep plus s : keeps_sound keep plus -> unescape plus (escape_with keep plus s) = Some s.
Proof.
  intros Hk. induction s as [|c s IH]; [done|]. cbn [escape_with]. destruct (keep c) eqn:Hc.
  - destruct (Hk c Hc) as [H1 H2]. change (String c "" ++ ?r) with (String c r).
    assert (forall r, unescape plus (String c r) = (t ← unescape plus r; Some (String (if plus && Ascii.eqb c "+" then " "%char else c) t))) as ->.
    { intros r. revert H1. clear. destruct c as [[] [] [] [] [] [] [] []]; done. }
    rewrite IH. cbn. destruct plus; [|done]. destruct (Ascii.eqb_spec c "+"); [|done]. by destruct H2.
  - destruct (plus && Ascii.eqb c " ") eqn:Hp.
    + apply andb_true_iff in Hp as [-> ->%Ascii.eqb_eq]. cbn. unfold QueryUnescape in *. by rewrite IH.
    + by rewrite unescape_percent, IH.
Qed.

Lemma QueryUnescape_QueryEscape s : QueryUnescape (QueryEscape s) = Some s.
Proof.
  apply unescape_escape. intros c Hc. split; intros; intros ->; by vm_compute in Hc.
Qed.

Lemma PathUnescape_PathEscape s : PathUnescape (PathEscape s) = Some s.
Proof. apply unescape_escape. intros c Hc. split; intros; [intros ->; by vm_compute in Hc|done]. Qed.

(** A byte that is neither kept nor part of an escape does not occur. *)
Lemma escape_free d keep plus s : keep d = false -> is_mem d "%+0123456789ABCDEF" = false -> free_of d (escape_with keep plus s) = true.
Proof.
  intros Hd Hx. assert (forall c, is_mem c "%+0123456789ABCDEF" = true -> Ascii.eqb c d = false) as Hne.
  { intros c Hc. destruct (Ascii.eqb_spec c d); [congruence|done]. }
  induction s as [|c s IH]; [done|]. cbn [escape_with]. unfold free_of in *. rewrite str_forallb_app, IH, andb_true_r.
  destruct (keep c) eqn:Hc.
  - cbn. rewrite andb_true_r. destruct (Ascii.eqb_spec c d); [congruence|done].
  - destruct (plus && _); [cbn [str_forallb]; by rewrite Hne|].
    destruct (nibbles c) as [H1 H2].
    unfold percent. cbn [str_forallb]. rewrite !Hne; try done; by apply (nibble_cases (fun n => is_mem (hex_upper n) "%+0123456789ABCDEF")).
Qed.

Lemma cut_app c a b : free_of c a = true -> cut c (a ++ String c b) = (a, Some b).
Proof.
  induction a as [|d a IH]; cbn; [by rewrite Ascii.eqb_refl|]. intros [Hd Ha]%andb_true_iff.
  apply negb_true_iff in Hd. by rewrite Hd, IH.
Qed.

Lemma cut_none c a : free_of c a = true -> cut c a = (a, None).
Proof. induction a as [|d a IH]; cbn; [done|]. intros [Hd Ha]%andb_true_iff. apply negb_true_iff in Hd. by rewrite Hd, IH. Qed.

Lemma read_pair_text kv : read_pair (pair_text kv) = Some kv.
Proof.
  unfold read_pair, pair_text. destruct kv as [k v]. cbn [fst snd].
  change (QueryEscape k ++ "=" ++ QueryEscape v) with (QueryEscape k ++ String "=" (QueryEscape v)).
  rewrite cut_app by by apply escape_free. cbn [default]. unfold id. rewrite QueryUnescape_QueryEscape. cbn. by rewrite QueryUnescape_QueryEscape.
Qed.

Lemma ParseQuery_Encode v : ParseQuery (Encode v) = Some (sorted_pairs v).
Proof.
  unfold ParseQuery, Encode. induction (sorted_pairs v) as [|kv l IH]; [done|].
  assert (free_of "&" (pair_text kv) = true) as Hamp.
  { destruct kv as [k x]. unfold pair_text, free_of, QueryEscape. cbn [fst snd]. rewrite !str_forallb_app.
    pose proof (escape_free "&" unreserved true k eq_refl eq_refl) as H1.
    pose proof (escape_free "&" unreserved true x eq_refl eq_refl) as H2. unfold free_of in *. by rewrite H1, H2. }
  assert (String.eqb (pair_text kv) "" = false) as Hne.
  { apply String.eqb_neq. unfold pair_text. by destruct (QueryEscape kv.1). }
  assert (split_at "&" (Join (map pair_text (kv :: l)) "&") = pair_text kv :: match l with [] => [] | _ => split_at "&" (Join (map pair_text l) "&") end) as ->.
  { destruct l as [|kv' l]; [by apply split_at_none|]. cbn [map Join]. apply split_at_app. exact Hamp. }
  cbn [List.filter]. rewrite Hne. cbn [negb mapM]. rewrite read_pair_text. cbn [mbind option_bind].
  destruct l as [|kv' l]; [done|]. by rewrite IH.
Qed.

Lemma list_to_map_sorted {A} (R : relation (string * A)) `{!RelDecision R} (m : gmap string A) :
  list_to_map (merge_sort R (map_to_list m)) = m.
Proof.
  rewrite <- (list_to_map_to_list m) at 2. apply list_to_map_proper; [|apply merge_sort_Permutation].
  rewrite (fmap_Permutation fst _ _ (merge_sort_Permutation _ _)). apply NoDup_fst_map_to_list.
Qed.

Lemma sorted_pairs_map v : list_to_map (sorted_pairs v) = v.
Proof. apply list_to_map_sorted. Qed.

(** A query reads back as the values it was written from. *)
Lemma Encode_reads v : (l ← ParseQuery (Encode v); Some (list_to_map l)) = Some v.
Proof. rewrite ParseQuery_Encode. cbn. by rewrite sorted_pairs_map. Qed.
