(* ===== verification/GoJson.v ===== *)
(** * GoJson: what the code uses of [encoding/json]

    JSON values, the text [json.Marshal] writes for one, what it does with a
    [json.RawMessage], and the text [json.Unmarshal] reads. A raw message is the text
    of a value, so a value spliced in as its own text is written as if it had been
    there all along ([encode_raw]); reading what was written gives the value back
    ([parse_encode]). Go refuses values nested more than 10000 deep; the reader here
    has no such limit. *)

From S2P Require Import Prelude GoStrings.

#[local] Open Scope string_scope.
#[local] Set Warnings "-register-all".

Definition quote_byte : ascii := "034".
Definition escape_byte : ascii := "092".

(** A number keeps its literal, as [json.Number] does. *)
Inductive json :=
  | JNull
  | JBool (b : bool)
  | JNumber (literal : string)
  | JString (s : string)
  | JArray (l : list json)
  | JObject (fields : list (string * json))
  | JRaw (text : string).

Definition JInt (z : Z) : json := JNumber (Itoa z).

(** ** Strings *)

Definition hex_digit (n : Z) : ascii :=
  ascii_of_N (Z.to_N (if (n <? 10)%Z then 48 + n else 87 + n)).

Definition u_escape (a b c d : ascii) : string :=
  String escape_byte (String "u" (String a (String b (String c (String d ""))))).

(** [\u00XX] *)
Definition byte_escape (c : ascii) : string :=
  u_escape "0" "0" (hex_digit (byte_of c / 16)) (hex_digit (byte_of c mod 16)).

(** The bytes that [json.Marshal] writes as an escape because a browser could take
    them for markup. *)
Definition is_html (c : ascii) : bool :=
  Ascii.eqb c "<" || Ascii.eqb c ">" || Ascii.eqb c "&".

Definition short_escape (c : ascii) : option ascii :=
  if Ascii.eqb c quote_byte || Ascii.eqb c escape_byte then Some c
  else if Ascii.eqb c "008" then Some "b"%char
  else if Ascii.eqb c "012" then Some "f"%char
  else if Ascii.eqb c "010" then Some "n"%char
  else if Ascii.eqb c "013" then Some "r"%char
  else if Ascii.eqb c "009" then Some "t"%char
  else None.

Definition ascii_text (c : ascii) : string :=
  match short_escape c with
  | Some e => String escape_byte (String e "")
  | None => if between 0 31 c || is_html c then byte_escape c else String c ""
  end.

(** U+2028 and U+2029, the line separators JavaScript does not allow in a string. *)
Definition is_separator (c d e : ascii) : bool :=
  Ascii.eqb c "226" && Ascii.eqb d "128" && (Ascii.eqb e "168" || Ascii.eqb e "169").

Definition separator_text (e : ascii) : string :=
  u_escape "2" "0" "2" (hex_digit (byte_of e mod 16)).

Definition rune_text (bytes : string) : string :=
  match bytes with
  | String c (String d (String e "")) => if is_separator c d e then separator_text e else bytes
  | _ => bytes
  end.

Definition replacement : string := String "239" (String "191" (String "189" "")).
Definition replacement_text : string := u_escape "f" "f" "f" "d".

(** [appendString]; the length of the string is enough fuel. *)
Fixpoint escape (fuel : nat) (s : string) : string :=
  match fuel, s with
  | S fuel, String c r =>
      match utf8_width s with
      | O => replacement_text ++ escape fuel r
      | 1 => ascii_text c ++ escape fuel r
      | w => rune_text (stake w s) ++ escape fuel (sdrop w s)
      end
  | _, _ => ""
  end.

Definition quoted (s : string) : string :=
  String quote_byte (escape (String.length s) s ++ String quote_byte "").

(** ** Raw messages *)

Definition is_white (c : ascii) : bool :=
  Ascii.eqb c " " || Ascii.eqb c "009" || Ascii.eqb c "010" || Ascii.eqb c "013".

(** [compact], on the text of a valid value: white space between tokens goes, markup
    and line separators are escaped. [instr] and [esc] say whether the byte is inside
    a string and follows a backslash there. *)
Fixpoint compact (instr esc : bool) (s : string) : string :=
  match s with
  | EmptyString => ""
  | String c t =>
      let byte (_ : unit) :=
        if is_html c then byte_escape c ++ compact instr false t
        else if instr then
          String c (if esc then compact true false t
                    else if Ascii.eqb c escape_byte then compact true true t
                    else if Ascii.eqb c quote_byte then compact false false t
                    else compact true false t)
        else if is_white c then compact false false t
        else String c (compact (Ascii.eqb c quote_byte) false t) in
      match t with
      | String d (String e r) =>
          if is_separator c d e then separator_text e ++ compact instr esc r else byte tt
      | _ => byte tt
      end
  end.

(** ** [json.Marshal] *)

Fixpoint encode (j : json) : string :=
  match j with
  | JNull => "null"
  | JBool b => if b then "true" else "false"
  | JNumber n => n
  | JString s => quoted s
  | JArray l => "[" ++ Join (map encode l) "," ++ "]"
  | JObject fs =>
      "{" ++ Join (map (fun kv => match kv with (k, v) => quoted k ++ ":" ++ encode v end) fs) "," ++ "}"
  | JRaw text => compact false false text
  end.

Section json_ind.
Variable P : json -> Prop.
Hypothesis Hnull : P JNull.
Hypothesis Hbool : forall b, P (JBool b).
Hypothesis Hnum : forall n, P (JNumber n).
Hypothesis Hstr : forall s, P (JString s).
Hypothesis Harr : forall l, Forall P l -> P (JArray l).
Hypothesis Hobj : forall fs, Forall (fun kv => P kv.2) fs -> P (JObject fs).
Hypothesis Hraw : forall t, P (JRaw t).

Lemma json_nested_ind j : P j.
Proof.
  revert j. fix IH 1. intros [|b|n|s|l|fs|t].
  - exact Hnull.
  - apply Hbool.
  - apply Hnum.
  - apply Hstr.
  - apply Harr. induction l as [|x l IHl]; constructor; [apply IH|done].
  - apply Hobj. induction fs as [|[k v] fs IHl]; constructor; [apply IH|done].
  - apply Hraw.
Qed.
End json_ind.

(** ** Number literals *)

Definition digits1 (s : string) : option string :=
  match span is_digit s with
  | (EmptyString, _) => None
  | (_, r) => Some r
  end.

(** The part of a number literal before its fraction, with what follows. *)
Definition integer_part (s : string) : option string :=
  match s with
  | String "0" r => Some r
  | _ => digits1 s
  end.

Definition fraction_part (s : string) : option string :=
  match s with
  | String "." r => digits1 r
  | _ => Some s
  end.

Definition exponent_part (s : string) : option string :=
  match s with
  | String c r =>
      if Ascii.eqb c "e" || Ascii.eqb c "E" then
        digits1 (match r with
                 | String d r' => if Ascii.eqb d "+" || Ascii.eqb d "-" then r' else r
                 | EmptyString => r
                 end)
      else Some s
  | EmptyString => Some s
  end.

(** What follows the number literal at the head of [s]. *)
Definition skip_number (s : string) : option string :=
  r ← integer_part (match s with String "-" r => r | _ => s end);
  r ← fraction_part r;
  exponent_part r.

Definition read_number (s : string) : option (string * string) :=
  r ← skip_number s;
  Some (stake (String.length s - String.length r) s, r).

(** ** [json.Unmarshal]: the text of a value *)

Definition skip_white (s : string) : string := snd (span is_white s).

Definition hex_value (c : ascii) : option Z :=
  if is_digit c then Some (byte_of c - 48)%Z
  else if between 97 102 c then Some (byte_of c - 87)%Z
  else if between 65 70 c then Some (byte_of c - 55)%Z
  else None.

(** [getu4], past its backslash and [u]. *)
Definition hex4 (s : string) : option (Z * string) :=
  match s with
  | String a (String b (String c (String d r))) =>
      a ← hex_value a; b ← hex_value b; c ← hex_value c; d ← hex_value d;
      Some (((a * 16 + b) * 16 + c) * 16 + d, r)%Z
  | _ => None
  end.

Definition u4 (s : string) : option (Z * string) :=
  match s with
  | String a (String b r) => if Ascii.eqb a escape_byte && Ascii.eqb b "u" then hex4 r else None
  | _ => None
  end.

Definition chr (z : Z) : ascii := ascii_of_N (Z.to_N z).

(** [utf8.AppendRune] for a rune that is no surrogate. *)
Definition append_rune (u : Z) : string :=
  if (u <? 128)%Z then String (chr u) ""
  else if (u <? 2048)%Z then String (chr (192 + u / 64)) (String (chr (128 + u mod 64)) "")
  else if (u <? 65536)%Z then
    String (chr (224 + u / 4096)) (String (chr (128 + u / 64 mod 64)) (String (chr (128 + u mod 64)) ""))
  else String (chr (240 + u / 262144)) (String (chr (128 + u / 4096 mod 64))
         (String (chr (128 + u / 64 mod 64)) (String (chr (128 + u mod 64)) ""))).

Definition high_surrogate (u : Z) : bool := ((55296 <=? u) && (u <? 56320))%Z.
Definition low_surrogate (u : Z) : bool := ((56320 <=? u) && (u <? 57344))%Z.

(** What a [\uXXXX] escape at the head of [s], past the [u], stands for: two escapes
    that form a surrogate pair are one rune, any other surrogate is U+FFFD. *)
Definition unicode_escape (s : string) : option (string * string) :=
  '(u, r) ← hex4 s;
  if high_surrogate u || low_surrogate u then
    match u4 r with
    | Some (l, r') =>
        if high_surrogate u && low_surrogate l
        then Some (append_rune (65536 + (u - 55296) * 1024 + (l - 56320)), r')%Z
        else Some (replacement, r)
    | None => Some (replacement, r)
    end
  else Some (append_rune u, r).

Definition simple_escape (e : ascii) : option ascii :=
  if Ascii.eqb e quote_byte || Ascii.eqb e escape_byte || Ascii.eqb e "/" then Some e
  else if Ascii.eqb e "b" then Some "008"%char
  else if Ascii.eqb e "f" then Some "012"%char
  else if Ascii.eqb e "n" then Some "010"%char
  else if Ascii.eqb e "r" then Some "013"%char
  else if Ascii.eqb e "t" then Some "009"%char
  else None.

(** One character of a string literal: [Some None] at its closing mark. *)
Definition string_item (s : string) : option (option (string * string)) :=
  match s with
  | EmptyString => None
  | String c r =>
      if Ascii.eqb c quote_byte then Some None
      else if Ascii.eqb c escape_byte then
        match r with
        | String e r' =>
            if Ascii.eqb e "u" then x ← unicode_escape r'; Some (Some x)
            else x ← simple_escape e; Some (Some (String x "", r'))
        | EmptyString => None
        end
      else if between 0 31 c then None
      else match utf8_width s with
           | O => Some (Some (replacement, r))
           | w => Some (Some (stake w s, sdrop w s))
           end
  end.

(** The rest of a string literal; one unit of fuel a character. *)
Fixpoint string_body (fuel : nat) (s : string) : option (string * string) :=
  match fuel with
  | O => None
  | S fuel =>
      x ← string_item s;
      match x with
      | None => Some ("", sdrop 1 s)
      | Some (bytes, r) => '(t, r) ← string_body fuel r; Some (bytes ++ t, r)
      end
  end.

Definition read_string (s : string) : option (string * string) :=
  match s with
  | String c r => if Ascii.eqb c quote_byte then string_body (S (String.length r)) r else None
  | EmptyString => None
  end.

(** A value, the elements of an array up to its bracket, the members of an object up
    to its brace, each with what follows. *)
Fixpoint value (fuel : nat) (s : string) {struct fuel} : option (json * string) :=
  match fuel with
  | O => None
  | S fuel =>
      let s := skip_white s in
      match s with
      | EmptyString => None
      | String c r =>
          if Ascii.eqb c quote_byte then '(x, r) ← read_string s; Some (JString x, r)
          else if Ascii.eqb c "[" then
            match skip_white r with
            | String "]" r' => Some (JArray [], r')
            | _ => '(l, r) ← elements fuel r; Some (JArray l, r)
            end
          else if Ascii.eqb c "{" then
            match skip_white r with
            | String "}" r' => Some (JObject [], r')
            | _ => '(l, r) ← members fuel r; Some (JObject l, r)
            end
          else if Ascii.eqb c "n" then r ← strip_prefix "null" s; Some (JNull, r)
          else if Ascii.eqb c "t" then r ← strip_prefix "true" s; Some (JBool true, r)
          else if Ascii.eqb c "f" then r ← strip_prefix "false" s; Some (JBool false, r)
          else '(n, r) ← read_number s; Some (JNumber n, r)
      end
  end
with elements (fuel : nat) (s : string) {struct fuel} : option (list json * string) :=
  match fuel with
  | O => None
  | S fuel =>
      '(x, r) ← value fuel s;
      match skip_white r with
      | String "]" r => Some ([x], r)
      | String "," r => '(l, r) ← elements fuel r; Some (x :: l, r)
      | _ => None
      end
  end
with members (fuel : nat) (s : string) {struct fuel} : option (list (string * json) * string) :=
  match fuel with
  | O => None
  | S fuel =>
      '(k, r) ← read_string (skip_white s);
      match skip_white r with
      | String ":" r =>
          '(x, r) ← value fuel r;
          match skip_white r with
          | String "}" r => Some ([(k, x)], r)
          | String "," r => '(l, r) ← members fuel r; Some ((k, x) :: l, r)
          | _ => None
          end
      | _ => None
      end
  end.

(** The value at the head of a text; twice its length is enough fuel. *)
Definition decode_value (s : string) : option (json * string) := value (S (2 * String.length s)) s.

(** [json.Unmarshal]: nothing but white space may follow. *)
Definition parse (s : string) : option json :=
  '(j, r) ← decode_value s;
  if String.eqb (skip_white r) "" then Some j else None.

(** ** Runes *)

(** Continuation bytes. *)
Definition cont_byte (c : ascii) : bool := between 128 191 c.

Inductive rune_view (c : ascii) (r : string) : nat -> Prop :=
  | rune_bad : between 0 127 c = false -> rune_view c r 0
  | rune_ascii : between 0 127 c = true -> rune_view c r 1
  | rune_two d r' : r = String d r' -> between 194 223 c = true -> cont_byte d = true -> rune_view c r 2
  | rune_three d e r' : r = String d (String e r') -> between 224 239 c = true ->
      cont_byte d = true -> cont_byte e = true -> rune_view c r 3
  | rune_four d e f r' : r = String d (String e (String f r')) -> between 240 244 c = true ->
      cont_byte d = true -> cont_byte e = true -> cont_byte f = true -> rune_view c r 4.

Lemma between_spec lo hi c : between lo hi c = true <-> (lo <= byte_of c <= hi)%Z.
Proof. unfold between. rewrite andb_true_iff, !Z.leb_le. done. Qed.

Lemma is_cont_inv lo hi s : is_cont lo hi s = true -> exists d r, s = String d r /\ between lo hi d = true.
Proof. destruct s; [done|]. eauto. Qed.

Lemma cont_weaken lo hi d : (128 <= lo)%Z -> (hi <= 191)%Z -> between lo hi d = true -> cont_byte d = true.
Proof. unfold cont_byte. rewrite !between_spec. lia. Qed.

Lemma utf8_width_view c r : rune_view c r (utf8_width (String c r)).
Proof.
  unfold utf8_width. destruct (between 0 127 c) eqn:E0; [by constructor|].
  destruct (between 194 223 c) eqn:E2.
  { destruct (is_cont 128 191 r) eqn:Ec; [|by constructor].
    apply is_cont_inv in Ec as (d & r' & -> & Hd). by econstructor. }
  destruct (between 224 239 c) eqn:E3.
  { destruct (_ && _) eqn:Ec; [|by constructor]. apply andb_true_iff in Ec as [Hd He].
    apply is_cont_inv in Hd as (d & r' & -> & Hd). cbn [sdrop] in He.
    apply is_cont_inv in He as (e & r2 & -> & He).
    econstructor; [done|done| |done]. eapply cont_weaken; [| |exact Hd]; clear; destruct (byte_of c =? _)%Z; lia. }
  destruct (between 240 244 c) eqn:E4; [|by constructor].
  destruct (_ && _ && _) eqn:Ec; [|by constructor]. apply andb_true_iff in Ec as [Ec Hf].
  apply andb_true_iff in Ec as [Hd He].
  apply is_cont_inv in Hd as (d & r' & -> & Hd). cbn [sdrop] in He, Hf.
  apply is_cont_inv in He as (e & r2 & -> & He). cbn [sdrop] in Hf.
  apply is_cont_inv in Hf as (f & r3 & -> & Hf).
  econstructor; [done|done| |done|done]. eapply cont_weaken; [| |exact Hd]; clear; destruct (byte_of c =? _)%Z; lia.
Qed.

(** ** A raw message is written as it is *)

(** Bytes that stand for themselves inside a string, and between tokens. *)
Definition still_byte (c : ascii) : bool :=
  negb (is_html c || Ascii.eqb c escape_byte || Ascii.eqb c quote_byte || Ascii.eqb c "226").
Definition token_byte (c : ascii) : bool := still_byte c && negb (is_white c).

Lemma high_still c : between 128 255 c = true -> Ascii.eqb c "226" = false -> still_byte c = true.
Proof. destruct c as [[] [] [] [] [] [] [] []]; vm_compute; done. Qed.

Lemma compact_still instr c t : still_byte c = true -> instr = true \/ is_white c = false ->
  compact instr false (String c t) = String c (compact instr false t).
Proof.
  unfold still_byte. rewrite negb_true_iff, !orb_false_iff. intros [[[H1 H2] H3] H4] Hi.
  assert (forall d e, is_separator c d e = false) as Hs by (intros; unfold is_separator; by rewrite H4).
  cbn. destruct t as [|d [|e r]]; rewrite ?Hs, H1, ?H2, ?H3; (destruct instr; [done|]);
    (destruct Hi as [|Hi]; [done|]); by rewrite Hi.
Qed.

Lemma compact_token s t : str_forallb token_byte s = true ->
  compact false false (s ++ t) = s ++ compact false false t.
Proof.
  induction s as [|c s IH]; [done|]. cbn [str_forallb]. intros [Hc Hs]%andb_true_iff.
  unfold token_byte in Hc. apply andb_true_iff in Hc as [Hc Hw]. apply negb_true_iff in Hw.
  change (String c s ++ t) with (String c (s ++ t)). rewrite compact_still by auto. by rewrite IH.
Qed.

Lemma compact_stills s t : str_forallb still_byte s = true ->
  compact true false (s ++ t) = s ++ compact true false t.
Proof.
  induction s as [|c s IH]; [done|]. cbn [str_forallb]. intros [Hc Hs]%andb_true_iff.
  change (String c s ++ t) with (String c (s ++ t)). rewrite compact_still by auto. by rewrite IH.
Qed.

(** An escape of one byte. *)
Lemma compact_escape e s t : is_html e = false -> Ascii.eqb e "226" = false -> str_forallb still_byte s = true ->
  compact true false (String escape_byte (String e (s ++ t))) = String escape_byte (String e (s ++ compact true false t)).
Proof.
  intros He H2 Hs.
  assert (forall d f, is_separator e d f = false) as Hsep by (intros; unfold is_separator; by rewrite H2).
  transitivity (String escape_byte (compact true true (String e (s ++ t)))).
  { cbn. by destruct (s ++ t). }
  f_equal. transitivity (String e (compact true false (s ++ t))).
  { destruct (s ++ t) as [|d [|f r]]; cbn; rewrite ?Hsep, He; done. }
  f_equal. by apply compact_stills.
Qed.

Lemma hex_digit_still n : (0 <= n < 16)%Z -> still_byte (hex_digit n) = true.
Proof.
  intros Hn. assert (In n [0;1;2;3;4;5;6;7;8;9;10;11;12;13;14;15]%Z) as Hin by (cbn; lia).
  cbn in Hin. repeat (destruct Hin as [<-|Hin]; [vm_compute; reflexivity|]). done.
Qed.

Lemma u_escape_compact a b c d t :
  forallb still_byte [a; b; c; d] = true ->
  compact true false (u_escape a b c d ++ t) = u_escape a b c d ++ compact true false t.
Proof.
  intros H. apply (compact_escape "u" (String a (String b (String c (String d ""))))); done.
Qed.

Lemma json_byte_bounds c : (0 <= byte_of c < 256)%Z.
Proof. unfold byte_of. pose proof (N_ascii_bounded c). lia. Qed.

Lemma byte_escape_compact c t : compact true false (byte_escape c ++ t) = byte_escape c ++ compact true false t.
Proof.
  pose proof (json_byte_bounds c). apply u_escape_compact. cbn [forallb]. rewrite !hex_digit_still; [done| |].
  - apply Z.mod_pos_bound. lia.
  - split; [apply Z.div_pos; lia|apply Z.div_lt_upper_bound; lia].
Qed.

Lemma ascii_text_compact c t : between 0 127 c = true ->
  compact true false (ascii_text c ++ t) = ascii_text c ++ compact true false t.
Proof.
  intros Hc. unfold ascii_text. destruct (short_escape c) as [e|] eqn:E.
  { apply (compact_escape e "").
    - revert E. unfold short_escape. repeat case_match; intros [= <-]; try done; go_bool;
        destruct c as [[] [] [] [] [] [] [] []]; vm_compute in *; naive_solver.
    - revert E. unfold short_escape. repeat case_match; intros [= <-]; try done;
        destruct c as [[] [] [] [] [] [] [] []]; vm_compute in *; naive_solver.
    - done. }
  destruct (between 0 31 c || is_html c) eqn:E2; [apply byte_escape_compact|].
  apply (compact_stills (String c "")). cbn. rewrite andb_true_r.
  apply orb_false_iff in E2 as [_ Eh]. revert Hc E Eh. destruct c as [[] [] [] [] [] [] [] []]; vm_compute; done.
Qed.

Lemma cont_still c : cont_byte c = true -> still_byte c = true.
Proof. destruct c as [[] [] [] [] [] [] [] []]; vm_compute; done. Qed.

Lemma rune_text_compact c r w t : rune_view c r w -> (2 <= w)%nat ->
  compact true false (rune_text (stake w (String c r)) ++ t) = rune_text (stake w (String c r)) ++ compact true false t.
Proof.
  assert (forall s, str_forallb still_byte s = true -> forall t, compact true false (s ++ t) = s ++ compact true false t)
    as Hplain by (intros; by apply compact_stills).
  destruct 1 as [|?|d r' -> Hc Hd|d e r' -> Hc Hd He|d e f r' -> Hc Hd He Hf]; intros Hw; try lia; cbn [stake rune_text].
  - apply Hplain. cbn. rewrite (cont_still d) by done. rewrite high_still; [done| |];
      revert Hc; destruct c as [[] [] [] [] [] [] [] []]; vm_compute; done.
  - destruct (is_separator c d e) eqn:Es.
    { apply u_escape_compact. cbn [forallb]. rewrite hex_digit_still by (apply Z.mod_pos_bound; lia). done. }
    change (String c (String d (String e "")) ++ t) with (String c (String d (String e "") ++ t)).
    assert (compact true false (String c (String d (String e "") ++ t)) =
            String c (compact true false (String d (String e "") ++ t))) as ->.
    { cbn -[compact]. assert (is_html c = false /\ Ascii.eqb c escape_byte = false /\ Ascii.eqb c quote_byte = false) as (H1 & H2 & H3).
      { revert Hc. clear. destruct c as [[] [] [] [] [] [] [] []]; vm_compute; done. }
      cbn [compact]. rewrite Es, H1, H2, H3. done. }
    rewrite Hplain; [done|]. cbn. by rewrite !cont_still.
  - apply Hplain. cbn. rewrite (cont_still d), (cont_still e), (cont_still f) by done. rewrite high_still; [done| |];
      revert Hc; clear; destruct c as [[] [] [] [] [] [] [] []]; vm_compute; done.
Qed.

Lemma escape_compact fuel s t : compact true false (escape fuel s ++ t) = escape fuel s ++ compact true false t.
Proof.
  revert s. induction fuel as [|fuel IH]; intros [|c r]; [done..|]. cbn [escape].
  pose proof (utf8_width_view c r) as Hv. destruct (utf8_width (String c r)) as [|[|w]] eqn:Ew.
  - rewrite <- !str_app_assoc. unfold replacement_text. rewrite u_escape_compact by done. by rewrite IH.
  - rewrite <- !str_app_assoc, ascii_text_compact by (by inversion Hv). by rewrite IH.
  - rewrite <- !str_app_assoc, rune_text_compact by (done || lia). by rewrite IH.
Qed.

Lemma quoted_compact s t : compact false false (quoted s ++ t) = quoted s ++ compact false false t.
Proof.
  unfold quoted. change (String quote_byte (escape (String.length s) s ++ String quote_byte "") ++ t)
    with (String quote_byte ((escape (String.length s) s ++ String quote_byte "") ++ t)).
  transitivity (String quote_byte (compact true false ((escape (String.length s) s ++ String quote_byte "") ++ t))).
  { cbn. by destruct ((escape (String.length s) s ++ String quote_byte "") ++ t) as [|d [|e r]]. }
  rewrite <- str_app_assoc, escape_compact. cbn [String.append]. f_equal. rewrite <- str_app_assoc. f_equal. cbn [String.append].
  cbn. by destruct t as [|d [|e r]].
Qed.

(** Text that stands between tokens or holds whole string literals: [compact] passes
    over it without change. *)
Definition transparent (s : string) : Prop :=
  forall t, compact false false (s ++ t) = s ++ compact false false t.

Lemma transparent_nil : transparent "".
Proof. done. Qed.

Lemma transparent_app a b : transparent a -> transparent b -> transparent (a ++ b).
Proof. intros Ha Hb t. by rewrite <- !str_app_assoc, Ha, Hb. Qed.

Lemma transparent_token s : str_forallb token_byte s = true -> transparent s.
Proof. intros H t. by apply compact_token. Qed.

Lemma transparent_quoted s : transparent (quoted s).
Proof. intros t. apply quoted_compact. Qed.

Lemma transparent_Join sep l : transparent sep -> Forall transparent l -> transparent (Join l sep).
Proof.
  intros Hsep Hl. induction Hl as [|x l Hx Hl IH]; [apply transparent_nil|].
  destruct l as [|y l]; [done|]. change (Join (x :: y :: l) sep) with (x ++ sep ++ Join (y :: l) sep).
  by repeat apply transparent_app.
Qed.

(** A value without raw parts whose numbers are literals. *)
Fixpoint direct (j : json) : bool :=
  match j with
  | JNumber n => str_forallb token_byte n
  | JArray l => forallb direct l
  | JObject fs => forallb (fun kv => match kv with (_, v) => direct v end) fs
  | JRaw _ => false
  | _ => true
  end.

Lemma encode_transparent j : direct j = true -> transparent (encode j).
Proof.
  induction j as [|b|n|s|l IH|fs IH|t] using json_nested_ind; cbn [direct encode]; intros Hd.
  - by apply transparent_token.
  - apply transparent_token. by destruct b.
  - by apply transparent_token.
  - apply transparent_quoted.
  - apply transparent_app; [by apply transparent_token|]. apply transparent_app; [|by apply transparent_token].
    apply transparent_Join; [by apply transparent_token|].
    induction IH as [|x l Hx _ IHl]; [constructor|]. apply andb_true_iff in Hd as [H1 H2].
    constructor; auto.
  - apply transparent_app; [by apply transparent_token|]. apply transparent_app; [|by apply transparent_token].
    apply transparent_Join; [by apply transparent_token|].
    induction IH as [|[k x] fs Hx _ IHl]; [constructor|]. apply andb_true_iff in Hd as [H1 H2].
    constructor; [|auto]. apply transparent_app; [apply transparent_quoted|].
    apply transparent_app; [by apply transparent_token|auto].
  - done.
Qed.

(** A message holding what [json.Marshal] wrote is written out unchanged. *)
Lemma encode_raw j : direct j = true -> encode (JRaw (encode j)) = encode j.
Proof.
  intros Hd. pose proof (encode_transparent j Hd "") as H. cbn [encode].
  by rewrite !str_app_nil_r in H.
Qed.

(** ** Reading back what was written *)

Lemma lead_two c : between 194 223 c = true -> between 0 127 c = false.
Proof. rewrite <- not_true_iff_false, !between_spec. lia. Qed.
Lemma lead_three c : between 224 239 c = true -> between 0 127 c = false /\ between 194 223 c = false.
Proof. rewrite <- !not_true_iff_false, !between_spec. lia. Qed.
Lemma lead_four c : between 240 244 c = true ->
  between 0 127 c = false /\ between 194 223 c = false /\ between 224 239 c = false.
Proof. rewrite <- !not_true_iff_false, !between_spec. lia. Qed.

Lemma stake_width s x : utf8_width s <> 0%nat -> utf8_width (stake (utf8_width s) s ++ x) = utf8_width s.
Proof.
  destruct s as [|c r]; [done|]. pose proof (utf8_width_view c r) as Hv.
  remember (utf8_width (String c r)) as w eqn:Hw. intros H0.
  destruct Hv as [|Hc|d r' -> Hc Hd|d e r' -> Hc Hd He|d e f r' -> Hc Hd He Hf]; [done|..];
    cbn [stake String.append]; (etrans; [|symmetry; exact Hw]); unfold utf8_width; cbn [is_cont sdrop].
  - by rewrite Hc.
  - by rewrite (lead_two _ Hc), Hc.
  - destruct (lead_three _ Hc) as [-> ->]. by rewrite Hc.
  - destruct (lead_four _ Hc) as (-> & -> & ->). by rewrite Hc.
Qed.

Lemma string_item_ascii c x : between 0 127 c = true -> string_item (ascii_text c ++ x) = Some (Some (String c "", x)).
Proof. destruct c as [[] [] [] [] [] [] [] []]; try done; intros _; destruct x as [|? [|? [|? ?]]]; vm_compute; reflexivity. Qed.

Lemma string_item_rune c r w x : utf8_width (String c r) = w -> (2 <= w)%nat ->
  string_item (rune_text (stake w (String c r)) ++ x) = Some (Some (stake w (String c r), x)).
Proof.
  intros Hw H2. pose proof (utf8_width_view c r) as Hv. rewrite Hw in Hv.
  assert (Hplain : string_item (stake w (String c r) ++ x) = Some (Some (stake w (String c r), x))).
  { pose proof (stake_width (String c r) x) as Hs. rewrite Hw in Hs. specialize (Hs ltac:(lia)).
    assert (Hl : String.length (stake w (String c r)) = w).
    { rewrite stake_length. inversion Hv; subst; cbn; lia. }
    destruct w as [|w]; [lia|]. cbn [stake] in Hs, Hl |- *. cbn [String.append] in Hs |- *. unfold string_item.
    assert (Hc : between 0 127 c = false).
    { inversion Hv; try lia; [by apply lead_two|by apply lead_three|by apply lead_four]. }
    assert (Ascii.eqb c quote_byte = false /\ Ascii.eqb c escape_byte = false /\ between 0 31 c = false) as (-> & -> & ->).
    { revert Hc. clear. destruct c as [[] [] [] [] [] [] [] []]; vm_compute; done. }
    rewrite Hs. change (String c (stake w r ++ x)) with (String c (stake w r) ++ x).
    cbn in Hl. injection Hl as Hl.
    assert (stake (S w) (String c (stake w r) ++ x) = String c (stake w r)) as ->.
    { cbn. rewrite <- Hl at 1. by rewrite stake_app. }
    assert (sdrop (S w) (String c (stake w r) ++ x) = x) as ->.
    { cbn. rewrite <- Hl at 1. by rewrite sdrop_app. }
    done. }
  destruct Hv as [|?|d r' -> Hc Hd|d e r' -> Hc Hd He|d e f r' -> Hc Hd He Hf]; try lia; try done.
  cbn [stake rune_text] in *. destruct (is_separator c d e) eqn:Es; [|done].
  unfold is_separator in Es. apply andb_true_iff in Es as [Es Ee]. apply andb_true_iff in Es as [Ec Ed]. apply Ascii.eqb_eq in Ec as ->. apply Ascii.eqb_eq in Ed as ->.
  apply orb_true_iff in Ee as [Ee|Ee]; apply Ascii.eqb_eq in Ee as ->; vm_compute; destruct x as [|? [|? [|? ?]]]; reflexivity.
Qed.

Lemma string_body_escape n s f x : utf8_valid n s = true -> (String.length s <= n)%nat -> (String.length s < f)%nat ->
  string_body f (escape n s ++ String quote_byte x) = Some (s, x).
Proof.
  revert s f. induction n as [|n IH]; intros [|c r] [|f] Hv Hn Hf; cbn [String.length] in *; try lia; try done.
  cbn [utf8_valid escape] in *. destruct (utf8_width (String c r)) as [|[|w]] eqn:Ew; [done| |].
  - pose proof (utf8_width_view c r) as Hu. rewrite Ew in Hu. cbn [string_body].
    rewrite <- str_app_assoc, string_item_ascii by (by inversion Hu). cbn -[string_body].
    cbn [sdrop] in Hv. rewrite IH by (done || lia). done.
  - cbn [string_body]. rewrite <- str_app_assoc, (string_item_rune c r _ _ Ew) by lia.
    pose proof (stake_sdrop (S (S w)) (String c r)) as Hsp.
    assert (Hlen : (String.length (sdrop (S (S w)) (String c r)) < S (String.length r))%nat).
    { rewrite sdrop_length. cbn. lia. }
    cbn -[string_body stake sdrop] . rewrite IH by (done || lia). cbn -[stake sdrop]. by rewrite Hsp.
Qed.

Lemma escape_length n s : (String.length s <= n)%nat -> (String.length s <= String.length (escape n s))%nat.
Proof.
  revert s. induction n as [|n IH]; intros [|c r] Hn; cbn [String.length] in *; try lia.
  cbn [escape]. pose proof (utf8_width_view c r) as Hv. destruct (utf8_width (String c r)) as [|[|w]] eqn:Ew.
  - rewrite str_length_app. specialize (IH r ltac:(lia)). cbn. lia.
  - rewrite str_length_app. specialize (IH r ltac:(lia)).
    assert (1 <= String.length (ascii_text c))%nat; [|lia]. unfold ascii_text. repeat case_match; cbn; lia.
  - rewrite str_length_app.
    pose proof (stake_sdrop (S (S w)) (String c r)) as Hsp. apply (f_equal String.length) in Hsp.
    rewrite str_length_app in Hsp. cbn [String.length] in Hsp.
    assert (String.length (stake (S (S w)) (String c r)) <= String.length (rune_text (stake (S (S w)) (String c r))))%nat.
    { unfold rune_text. repeat case_match; cbn; lia. }
    rewrite stake_length in *. cbn [String.length] in *.
    specialize (IH (sdrop (S (S w)) (String c r)) ltac:(lia)). lia.
Qed.

Lemma read_string_quoted s x : ValidUTF8 s = true -> read_string (quoted s ++ x) = Some (s, x).
Proof.
  intros Hv. unfold read_string, quoted. cbn [String.append]. rewrite Ascii.eqb_refl, <- str_app_assoc. cbn [String.append].
  apply string_body_escape; [done|lia|]. pose proof (escape_length (String.length s) s ltac:(lia)).
  rewrite str_length_app. cbn. lia.
Qed.

(** What can follow a value in the text of a larger one. *)
Definition ends_value (t : string) : bool :=
  match t with
  | EmptyString => true
  | String c _ => negb (is_digit c || Ascii.eqb c "." || Ascii.eqb c "e" || Ascii.eqb c "E")
  end.

Lemma span_more f s t : match t with String c _ => f c = false | "" => True end ->
  span f (s ++ t) = ((span f s).1, (span f s).2 ++ t).
Proof.
  intros Ht. induction s as [|c s IH]; cbn.
  - destruct t as [|c t]; [done|]. cbn. by rewrite Ht.
  - destruct (f c); [|done]. cbn [String.append]. rewrite IH. by destruct (span f s).
Qed.

Lemma digits1_more s r t : digits1 s = Some r -> ends_value t = true -> digits1 (s ++ t) = Some (r ++ t).
Proof.
  unfold digits1. intros Hd Ht. rewrite span_more.
  - destruct (span is_digit s) as [[|d a] b]; [done|]. cbn. by injection Hd as <-.
  - destruct t as [|c t]; [done|]. cbn in Ht. by destruct (is_digit c).
Qed.

Lemma integer_part_more s r t : integer_part s = Some r -> ends_value t = true -> integer_part (s ++ t) = Some (r ++ t).
Proof.
  unfold integer_part. destruct s as [|c s]; [done|].
  destruct (Ascii.eqb c "0") eqn:E; [apply Ascii.eqb_eq in E as ->; cbn; by intros [= ->]|].
  intros Hd Ht.
  assert (forall x, match String c x with String "0" r => Some r | _ => digits1 (String c x) end = digits1 (String c x)) as Hx.
  { intros x. revert E. by destruct c as [[] [] [] [] [] [] [] []]. }
  rewrite Hx in Hd. etrans; [apply (Hx (s ++ t))|]. by apply (digits1_more (String c s)).
Qed.

Lemma fraction_part_more s r t : fraction_part s = Some r -> ends_value t = true -> fraction_part (s ++ t) = Some (r ++ t).
Proof.
  unfold fraction_part. destruct s as [|c s]; cbn [String.append].
  - intros [= <-] Ht. destruct t as [|c t]; [done|]. cbn in Ht.
    destruct (Ascii.eqb c ".") eqn:E; [by destruct (is_digit c)|]. revert E. by destruct c as [[] [] [] [] [] [] [] []].
  - destruct (Ascii.eqb c ".") eqn:E; [apply Ascii.eqb_eq in E as ->; apply digits1_more|].
    intros Hs _. revert E Hs. destruct c as [[] [] [] [] [] [] [] []]; try done; intros _ [= <-]; done.
Qed.

Lemma exponent_part_more s r t : exponent_part s = Some r -> ends_value t = true -> exponent_part (s ++ t) = Some (r ++ t).
Proof.
  unfold exponent_part. destruct s as [|c s]; cbn [String.append].
  - intros [= <-] Ht. destruct t as [|c t]; [done|]. cbn in Ht.
    destruct (Ascii.eqb c "e"), (Ascii.eqb c "E"); cbn in *; try done; by rewrite ?orb_true_r in Ht.
  - destruct (_ || _); [|by intros [= <-] _]. destruct s as [|d s]; [done|]. cbn [String.append].
    destruct (_ || _); [apply digits1_more|apply (digits1_more (String d s))].
Qed.

(** A string that is one number literal. *)
Definition number_ok (n : string) : bool :=
  match skip_number n with Some "" => str_forallb token_byte n && negb (String.eqb n "") | _ => false end.

Lemma number_token n : number_ok n = true -> str_forallb token_byte n = true.
Proof. unfold number_ok. destruct (skip_number n) as [[|? ?]|]; [|done..]. by intros [? _]%andb_true_iff. Qed.

Lemma skip_number_more n r t : skip_number n = Some r -> ends_value t = true -> skip_number (n ++ t) = Some (r ++ t).
Proof.
  unfold skip_number. intros H Ht.
  assert (forall c x, Ascii.eqb c "-" = false -> match String c x with String "-" r => r | _ => String c x end = String c x) as Hx.
  { intros c x. by destruct c as [[] [] [] [] [] [] [] []]. }
  destruct n as [|c n]; [done|]. cbn [String.append].
  destruct (Ascii.eqb c "-") eqn:E; [apply Ascii.eqb_eq in E as ->|rewrite Hx in H |- * by done].
  - destruct (integer_part n) as [a|] eqn:E1; [|done]. cbn in H. destruct (fraction_part a) as [b|] eqn:E2; [|done]. cbn in H.
    rewrite (integer_part_more _ _ _ E1 Ht). cbn. rewrite (fraction_part_more _ _ _ E2 Ht). cbn. by apply exponent_part_more.
  - destruct (integer_part (String c n)) as [a|] eqn:E1; [|done]. cbn -[integer_part] in H.
    destruct (fraction_part a) as [b|] eqn:E2; [|done]. cbn -[integer_part] in H.
    change (String c (n ++ t)) with (String c n ++ t).
    rewrite (integer_part_more _ _ _ E1 Ht). cbn. rewrite (fraction_part_more _ _ _ E2 Ht). cbn. by apply exponent_part_more.
Qed.

Lemma read_number_more n t : number_ok n = true -> ends_value t = true -> read_number (n ++ t) = Some (n, t).
Proof.
  unfold number_ok, read_number. destruct (skip_number n) as [[|? ?]|] eqn:E; [|done..]. intros _ Ht.
  rewrite (skip_number_more _ _ _ E Ht). cbn. rewrite str_length_app.
  replace (_ + _ - _)%nat with (String.length n) by lia. by rewrite stake_app.
Qed.

(** A value [json.Marshal] can write and the reader gives back: strings are UTF-8 (other
    bytes are replaced), numbers are literals. *)
Fixpoint wf_json (j : json) : bool :=
  match j with
  | JNumber n => number_ok n
  | JString s => ValidUTF8 s
  | JArray l => forallb wf_json l
  | JObject fs => forallb (fun kv => match kv with (k, v) => ValidUTF8 k && wf_json v end) fs
  | JRaw _ => false
  | _ => true
  end.

Lemma wf_direct j : wf_json j = true -> direct j = true.
Proof.
  induction j as [|b|n|s|l IH|fs IH|t] using json_nested_ind; cbn; try done.
  - apply number_token.
  - induction IH as [|x l Hx _ IHl]; [done|]. cbn. intros [H1 H2]%andb_true_iff. by rewrite Hx, IHl.
  - induction IH as [|[k x] l Hx _ IHl]; [done|]. cbn in *. intros [H1 H2]%andb_true_iff.
    apply andb_true_iff in H1 as [_ H1]. by rewrite Hx, IHl.
Qed.

(** How the text of a number starts. *)
Lemma number_head n : number_ok n = true -> exists c r, n = String c r /\ (is_digit c || Ascii.eqb c "-" = true).
Proof.
  unfold number_ok. destruct n as [|c n]; [done|]. intros H. exists c, n. split; [done|].
  destruct (is_digit c) eqn:Ed; [done|]. destruct (Ascii.eqb c "-") eqn:Em; [done|]. exfalso. revert H.
  assert (skip_number (String c n) = None) as ->; [|done]. unfold skip_number.
  assert (match String c n with String "-" r => r | _ => String c n end = String c n) as ->.
  { revert Em. by destruct c as [[] [] [] [] [] [] [] []]. }
  assert (integer_part (String c n) = None) as ->; [|done]. unfold integer_part.
  assert (digits1 (String c n) = None) as Hd by (unfold digits1; cbn; by rewrite Ed).
  revert Ed. rewrite Hd. clear. by destruct c as [[] [] [] [] [] [] [] []].
Qed.

Definition value_head (c : ascii) : bool :=
  negb (is_white c || Ascii.eqb c "]" || Ascii.eqb c "}").

Lemma encode_head j : wf_json j = true -> exists c r, encode j = String c r /\ value_head c = true.
Proof.
  destruct j as [|b|n|s|l|fs|t]; cbn [wf_json]; intros Hj;
    [by eexists _, _|by destruct b; eexists _, _| |by eexists _, _|by eexists _, _|by eexists _, _|done].
  apply number_head in Hj as (c & r & -> & Hc). exists c, r. split; [done|].
  revert Hc. clear. destruct c as [[] [] [] [] [] [] [] []]; vm_compute; done.
Qed.

Lemma skip_white_head c r : is_white c = false -> skip_white (String c r) = String c r.
Proof. unfold skip_white. cbn. by intros ->. Qed.

Lemma skip_white_quoted k x : skip_white (quoted k ++ x) = quoted k ++ x.
Proof. done. Qed.

Definition text_fuel (s : string) : nat := 2 * String.length s.

Definition reads (j : json) : Prop :=
  forall fuel t, (text_fuel (encode j) < fuel)%nat -> ends_value t = true -> value fuel (encode j ++ t) = Some (j, t).

Lemma elements_encode l : l <> [] -> Forall reads l -> forall fuel t,
  (text_fuel (Join (map encode l) ",") + 1 < fuel)%nat ->
  elements fuel (Join (map encode l) "," ++ String "]" t) = Some (l, t).
Proof.
  intros Hne Hl. induction Hl as [|x l Hx Hl IH]; [done|]. clear Hne. unfold text_fuel, reads in *.
  intros [|fuel] t Hf; [lia|]. cbn [elements]. destruct l as [|y l].
  - cbn [map Join] in *. rewrite Hx by (done || unfold text_fuel; lia). done.
  - change (Join (map encode (x :: y :: l)) ",") with (encode x ++ String "," (Join (map encode (y :: l)) ",")) in *.
    rewrite str_length_app in Hf. cbn [String.length] in Hf.
    rewrite <- str_app_assoc, Hx by (done || unfold text_fuel; lia). cbn -[elements Join].
    rewrite IH by (done || lia). done.
Qed.

Definition member_text (kv : string * json) : string := match kv with (k, v) => quoted k ++ ":" ++ encode v end.

Lemma members_encode fs : fs <> [] -> Forall (fun kv => reads kv.2) fs ->
  forallb (fun kv : string * json => ValidUTF8 kv.1) fs = true -> forall fuel t,
  (text_fuel (Join (map member_text fs) ",") + 1 < fuel)%nat ->
  members fuel (Join (map member_text fs) "," ++ String "}" t) = Some (fs, t).
Proof.
  intros Hne Hl. induction Hl as [|[k x] l Hx Hl IH]; [done|]. clear Hne. unfold text_fuel, reads in *.
  cbn [forallb]. intros [Hk Hv]%andb_true_iff [|fuel] t Hf; [lia|]. cbn [members]. destruct l as [|y l].
  - cbn [map Join] in *. unfold member_text in *. rewrite !str_length_app in Hf.
    rewrite <- !str_app_assoc, skip_white_quoted, read_string_quoted by done.
    cbn -[value skip_white String.append]. cbn [String.append]. rewrite skip_white_head by done.
    rewrite Hx by (done || unfold text_fuel; cbn in *; lia). done.
  - change (Join (map member_text ((k, x) :: y :: l)) ",")
      with ((quoted k ++ ":" ++ encode x) ++ String "," (Join (map member_text (y :: l)) ",")) in *.
    rewrite !str_length_app in Hf. cbn [String.length] in Hf.
    rewrite <- !str_app_assoc, skip_white_quoted, read_string_quoted by done.
    cbn -[value skip_white String.append members Join]. cbn [String.append]. rewrite skip_white_head by done.
    rewrite Hx by (done || unfold text_fuel; cbn in *; lia). cbn -[members Join].
    rewrite IH by (done || lia). done.
Qed.

Lemma value_encode j : wf_json j = true -> reads j.
Proof.
  induction j as [|b|n|s|l IH|fs IH|x] using json_nested_ind; intros Hw [|fuel] t Hf Ht; try (unfold text_fuel in Hf; lia);
    unfold text_fuel in Hf.
  - done.
  - by destruct b.
  - cbn [encode] in *. cbn [wf_json] in Hw. pose proof (read_number_more n t Hw Ht) as Hr.
    apply number_head in Hw as (c & r & -> & Hc). cbn [value String.append].
    rewrite skip_white_head by (revert Hc; clear; destruct c as [[] [] [] [] [] [] [] []]; vm_compute; done).
    change (String c (r ++ t)) with (String c r ++ t). rewrite Hr.
    revert Hc. clear. destruct c as [[] [] [] [] [] [] [] []]; try done.
  - cbn [encode wf_json] in *. cbn [value]. rewrite skip_white_quoted.
    rewrite read_string_quoted by done. done.
  - cbn [wf_json] in Hw. destruct l as [|x l]; [done|].
    change (encode (JArray (x :: l))) with (String "[" (Join (map encode (x :: l)) "," ++ "]")) in *.
    cbn [String.length] in Hf. rewrite str_length_app in Hf. cbn [String.length] in Hf.
    cbn [String.append value]. rewrite skip_white_head by done. cbn -[elements Join skip_white String.append map].
    rewrite <- str_app_assoc. cbn [String.append].
    assert (Hl : Forall reads (x :: l)).
    { clear Hf. induction IH as [|y l' Hy _ IHl]; [constructor|]. cbn in Hw. apply andb_true_iff in Hw as [H1 H2]. auto. }
    pose proof (elements_encode (x :: l) ltac:(done) Hl fuel t) as He. unfold text_fuel in He.
    rewrite He by lia. clear He Hf IH Hl. cbn [forallb] in Hw. apply andb_true_iff in Hw as [Hw _].
    apply encode_head in Hw as (c & r & Ec & Hc). cbn [map].
    assert (exists r', Join (encode x :: map encode l) "," ++ String "]" t = String c r') as [r' ->].
    { destruct l; cbn; rewrite Ec; eexists; reflexivity. }
    revert Hc. clear. destruct c as [[] [] [] [] [] [] [] []]; done.
  - cbn [wf_json] in Hw. destruct fs as [|[k x] fs]; [done|].
    change (encode (JObject ((k, x) :: fs))) with (String "{" (Join (map member_text ((k, x) :: fs)) "," ++ "}")) in *.
    cbn [String.length] in Hf. rewrite str_length_app in Hf. cbn [String.length] in Hf.
    cbn [String.append value]. rewrite skip_white_head by done. cbn -[members Join skip_white String.append map].
    rewrite <- str_app_assoc. cbn [String.append].
    assert (Hl : Forall (fun kv => reads kv.2) ((k, x) :: fs) /\
                 forallb (fun kv : string * json => ValidUTF8 kv.1) ((k, x) :: fs) = true).
    { clear Hf. induction IH as [|[k' y] l' Hy _ IHl]; [done|]. cbn in Hw. apply andb_true_iff in Hw as [H1 H2].
      apply andb_true_iff in H1 as [H0 H1]. destruct (IHl H2). split; [auto|]. cbn [forallb fst]. by rewrite H0. }
    destruct Hl as [Hl Hk].
    pose proof (members_encode ((k, x) :: fs) ltac:(done) Hl Hk fuel t) as He. unfold text_fuel in He.
    rewrite He by lia.
    assert (exists r', Join (map member_text ((k, x) :: fs)) "," ++ String "}" t = String quote_byte r') as [r' ->]; [|done].
    destruct fs; cbn; eexists; reflexivity.
  - done.
Qed.

(** Reading what was written gives the value back. *)
Lemma parse_encode j : wf_json j = true -> parse (encode j) = Some j.
Proof.
  intros Hw. unfold parse, decode_value. rewrite <- (str_app_nil_r (encode j)) at 2.
  rewrite (value_encode j Hw) by (done || unfold text_fuel; lia). done.
Qed.

Lemma decode_encode j : wf_json j = true -> decode_value (encode j) = Some (j, "").
Proof.
  intros Hw. unfold decode_value. rewrite <- (str_app_nil_r (encode j)) at 2.
  by rewrite (value_encode j Hw) by (done || unfold text_fuel; lia).
Qed.

(** ** Struct fields

    How a Go value and a JSON value correspond: [of_json] decodes onto the value a
    field already has (null leaves a scalar alone), [to_json] encodes, [empty] is what
    [omitempty] leaves out. *)

Class Codec (A : Type) := {
  to_json : A -> json;
  of_json : json -> A -> option A;
  zero : A;
  empty : A -> bool;
}.

(** All strings of a value, keys included, are UTF-8. *)
Fixpoint valid_strings (j : json) : bool :=
  match j with
  | JString s => ValidUTF8 s
  | JArray l => forallb valid_strings l
  | JObject fs => forallb (fun kv => match kv with (k, v) => ValidUTF8 k && valid_strings v end) fs
  | _ => true
  end.

(** The values that survive: [codec_ok] holds of every decoded value of a valid text. *)
Class CodecLaws (A : Type) `{Codec A} := {
  codec_ok : A -> Prop;
  codec_zero : codec_ok zero;
  codec_empty x : empty x = true -> x = zero;
  codec_wf x : codec_ok x -> wf_json (to_json x) = true;
  codec_roundtrip x : codec_ok x -> of_json (to_json x) zero = Some x;
  codec_decoded j old x : valid_strings j = true -> codec_ok old -> of_json j old = Some x -> codec_ok x;
}.

#[export] Instance string_codec : Codec string := {|
  to_json := JString;
  of_json j old := match j with JString s => Some s | JNull => Some old | _ => None end;
  zero := "";
  empty s := String.eqb s "";
|}.

#[export] Instance bool_codec : Codec bool := {|
  to_json := JBool;
  of_json j old := match j with JBool b => Some b | JNull => Some old | _ => None end;
  zero := false;
  empty b := negb b;
|}.

(** An [int]: a literal with a fraction or an exponent, or out of range, is refused. *)
#[export] Instance int_codec : Codec Z := {|
  to_json := JInt;
  of_json j old :=
    match j with
    | JNumber n => z ← ParseInt n; if bool_decide (fits 64 z) then Some z else None
    | JNull => Some old
    | _ => None
    end;
  zero := 0%Z;
  empty z := (z =? 0)%Z;
|}.

Fixpoint decode_all {A} `{Codec A} (l : list json) : option (list A) :=
  match l with
  | [] => Some []
  | j :: l => x ← of_json j zero; xs ← decode_all l; Some (x :: xs)
  end.

(** A slice that is written as an array whatever it holds. *)
#[export] Instance list_codec {A} `{Codec A} : Codec (list A) := {|
  to_json l := JArray (map to_json l);
  of_json j _ := match j with JArray l => decode_all l | JNull => Some [] | _ => None end;
  zero := [];
  empty l := match l with [] => true | _ => false end;
|}.

(** A pointer, nil for null or an absent key. *)
#[export] Instance pointer_codec {A} `{Codec A} : Codec (option A) := {|
  to_json o := match o with Some x => to_json x | None => JNull end;
  of_json j old := match j with
                   | JNull => Some None
                   | _ => x ← of_json j (default zero old); Some (Some x)
                   end;
  zero := None;
  empty o := match o with None => true | Some _ => false end;
|}.

Definition emit {A} `{Codec A} (name : string) (x : A) : list (string * json) := [(name, to_json x)].

Definition omitempty {A} `{Codec A} (name : string) (x : A) : list (string * json) :=
  if empty x then [] else emit name x.

Definition is_key (name : string) (kv : string * json) : bool := String.eqb (FoldKey kv.1) name.

(** A field [name] holding [acc] after decoding the members of an object: of several
    the last one decides. *)
Definition get_from {A} `{Codec A} (name : string) (acc : option A) (members : list (string * json)) : option A :=
  foldl (fun acc kv => x ← acc; if is_key name kv then of_json kv.2 x else Some x) acc members.

(** [DisallowUnknownFields] *)
Definition known_fields (names : list string) (members : list (string * json)) : bool :=
  forallb (fun kv => existsb (fun n => is_key n kv) names) members.

(** *** The laws of the instances *)

Lemma utf8_valid_fuel n s : (String.length s <= n)%nat -> utf8_valid n s = ValidUTF8 s.
Proof.
  unfold ValidUTF8. revert n. induction s as [|c s IH] using str_ind_len; intros n Hn; [by destruct n|].
  destruct n as [|n]; cbn [String.length] in *; [lia|]. cbn [utf8_valid].
  destruct (utf8_width (String c s)) as [|w] eqn:Ew; [done|].
  assert (String.length (sdrop (S w) (String c s)) < S (String.length s))%nat by (rewrite sdrop_length; cbn; lia).
  rewrite (IH _ H n) by lia. by rewrite (IH _ H (String.length s)) by lia.
Qed.

Lemma valid_rune s t : utf8_width s <> 0%nat -> ValidUTF8 (stake (utf8_width s) s ++ t) = ValidUTF8 t.
Proof.
  intros Hw. pose proof (stake_width s t Hw) as Hs. remember (utf8_width s) as w eqn:Ew.
  assert (Hl : String.length (stake w s) = w).
  { destruct s as [|c r]; [subst; done|]. pose proof (utf8_width_view c r) as Hv. rewrite <- Ew in Hv.
    rewrite stake_length. destruct Hv; subst; cbn; lia. }
  assert (Hd : sdrop w (stake w s ++ t) = t) by (rewrite <- Hl at 1; apply sdrop_app).
  unfold ValidUTF8 at 1. destruct (stake w s ++ t) as [|c r] eqn:E.
  { apply (f_equal String.length) in E. rewrite str_length_app in E. cbn in E. lia. }
  cbn [String.length utf8_valid]. rewrite Hs. destruct w as [|w]; [done|]. rewrite Hd. apply utf8_valid_fuel.
  apply (f_equal String.length) in E. rewrite str_length_app, Hl in E. cbn [String.length] in E. lia.
Qed.

(** The text of a rune is the encoding of one. *)
Definition one_rune (b : string) : Prop := forall t, ValidUTF8 (b ++ t) = ValidUTF8 t.

Lemma one_rune_width b : utf8_width b = String.length b -> b <> "" -> one_rune b.
Proof.
  intros Hb Hne t. pose proof (valid_rune b t) as Hv. rewrite Hb in Hv.
  rewrite <- Hv; [|by destruct b]. do 2 f_equal. pose proof (stake_app b "") as Ht.
  by rewrite str_app_nil_r in Ht.
Qed.

Lemma one_rune_replacement : one_rune replacement.
Proof. by apply one_rune_width. Qed.

Lemma chr_byte z : (0 <= z < 256)%Z -> byte_of (chr z) = z.
Proof. intros Hz. unfold byte_of, chr. rewrite N_ascii_embedding by lia. lia. Qed.

Lemma between_chr lo hi z : (0 <= z < 256)%Z -> between lo hi (chr z) = ((lo <=? z) && (z <=? hi))%Z.
Proof. intros Hz. unfold between. by rewrite chr_byte. Qed.

Lemma between_in lo hi z : (0 <= z < 256)%Z -> (lo <= z <= hi)%Z -> between lo hi (chr z) = true.
Proof. intros. rewrite between_spec, chr_byte; lia. Qed.

Lemma between_out lo hi z : (0 <= z < 256)%Z -> (z < lo \/ hi < z)%Z -> between lo hi (chr z) = false.
Proof. intros. rewrite <- not_true_iff_false, between_spec, chr_byte; lia. Qed.

Lemma append_rune_one u : (0 <= u < 1114112)%Z -> high_surrogate u = false -> low_surrogate u = false ->
  one_rune (append_rune u).
Proof.
  intros Hu Hh Hl t. unfold high_surrogate, low_surrogate in *.
  assert (Hs : (u < 55296 \/ 57344 <= u)%Z).
  { destruct (Z.leb_spec 55296 u), (Z.ltb_spec u 56320), (Z.leb_spec 56320 u), (Z.ltb_spec u 57344); cbn in *; try done; lia. }
  clear Hh Hl.
  pose proof (Z.mod_pos_bound u 64 ltac:(lia)). pose proof (Z.mod_pos_bound (u / 64) 64 ltac:(lia)).
  pose proof (Z.mod_pos_bound (u / 4096) 64 ltac:(lia)).
  pose proof (Z.div_mod u 64 ltac:(lia)). pose proof (Z.div_mod (u / 64) 64 ltac:(lia)) as H4.
  rewrite Z.div_div in H4 by lia. change (64 * 64)%Z with 4096%Z in H4.
  pose proof (Z.div_mod (u / 4096) 64 ltac:(lia)) as H5. rewrite Z.div_div in H5 by lia.
  change (4096 * 64)%Z with 262144%Z in H5.
  unfold append_rune. destruct (Z.ltb_spec u 128); [|destruct (Z.ltb_spec u 2048); [|destruct (Z.ltb_spec u 65536)]];
    (apply one_rune_width; [|done]); unfold utf8_width; cbn [is_cont sdrop String.length].
  - by rewrite between_in by lia.
  - rewrite between_out, !between_in by lia. done.
  - rewrite (between_out 0), (between_out 194), (between_in 224), chr_byte by lia.
    rewrite (between_in _ _ (128 + u / 64 mod 64)), between_in; [done|lia|lia|lia|].
    destruct (Z.eqb_spec (224 + u / 4096) 224), (Z.eqb_spec (224 + u / 4096) 237); lia.
  - rewrite (between_out 0), (between_out 194), (between_out 224), (between_in 240), chr_byte by lia.
    rewrite (between_in _ _ (128 + u / 4096 mod 64)), !between_in; [done|lia..|].
    destruct (Z.eqb_spec (240 + u / 262144) 240), (Z.eqb_spec (240 + u / 262144) 244); lia.
Qed.

Lemma hex_value_bounds c z : hex_value c = Some z -> (0 <= z < 16)%Z.
Proof. destruct c as [[] [] [] [] [] [] [] []]; vm_compute; intros [= <-]; done. Qed.

Lemma hex4_bounds s u r : hex4 s = Some (u, r) -> (0 <= u < 65536)%Z.
Proof.
  unfold hex4. destruct s as [|a [|b [|c [|d s]]]]; try done.
  destruct (hex_value a) as [x|] eqn:Ea; [|done]. destruct (hex_value b) as [y|] eqn:Eb; [|done].
  destruct (hex_value c) as [z|] eqn:Ec; [|done]. destruct (hex_value d) as [w|] eqn:Ed; [|done].
  cbn. intros [= <- <-]. apply hex_value_bounds in Ea, Eb, Ec, Ed. lia.
Qed.

Lemma unicode_escape_one s b r : unicode_escape s = Some (b, r) -> one_rune b.
Proof.
  unfold unicode_escape. destruct (hex4 s) as [[u r0]|] eqn:E; [|done]. apply hex4_bounds in E. cbn.
  destruct (high_surrogate u) eqn:Eh; cbn [orb].
  - destruct (u4 r0) as [[l r']|] eqn:El; [|intros [= <- <-]; apply one_rune_replacement].
    destruct (low_surrogate l) eqn:Ell; cbn; intros [= <- <-]; [|apply one_rune_replacement].
    unfold high_surrogate, low_surrogate in *. rewrite andb_true_iff, Z.leb_le, Z.ltb_lt in *.
    apply append_rune_one; [lia| |]; unfold high_surrogate, low_surrogate; apply andb_false_iff; right; apply Z.ltb_ge; lia.
  - destruct (low_surrogate u) eqn:El; [|intros [= <- <-]; apply append_rune_one; [lia|done..]].
    destruct (u4 r0) as [[l r']|]; intros [= <- <-]; apply one_rune_replacement.
Qed.

Lemma string_item_one s b r : string_item s = Some (Some (b, r)) -> one_rune b.
Proof.
  unfold string_item. destruct s as [|c s]; [done|]. destruct (Ascii.eqb c quote_byte); [done|].
  destruct (Ascii.eqb c escape_byte).
  - destruct s as [|e s]; [done|]. destruct (Ascii.eqb e "u").
    + destruct (unicode_escape s) as [[x y]|] eqn:E; [|done]. intros [= <- <-]. by eapply unicode_escape_one.
    + destruct (simple_escape e) as [x|] eqn:E; [|done]. intros [= <- <-]. apply one_rune_width; [|done].
      revert E. unfold simple_escape. repeat case_match; intros [= <-]; try done;
        match goal with H : (_ || _) = true |- _ => revert H | _ => idtac end;
        destruct e as [[] [] [] [] [] [] [] []]; vm_compute; done.
  - destruct (between 0 31 c); [done|]. destruct (utf8_width (String c s)) as [|w] eqn:Ew.
    + intros [= <- <-]. apply one_rune_replacement.
    + intros H. assert (b = stake (utf8_width (String c s)) (String c s)) as -> by (rewrite Ew; congruence).
      intros t. apply valid_rune. by rewrite Ew.
Qed.

Lemma string_body_valid f s t r : string_body f s = Some (t, r) -> ValidUTF8 t = true.
Proof.
  revert s t r. induction f as [|f IH]; intros s t r; [done|]. cbn [string_body].
  destruct (string_item s) as [[[b r0]|]|] eqn:E; [| |done]; cbn -[string_body]; [|by intros [= <- <-]].
  destruct (string_body f r0) as [[t0 r1]|] eqn:Eb; [|done]. intros [= <- <-].
  rewrite (string_item_one _ _ _ E). by eapply IH.
Qed.

Lemma read_string_valid s t r : read_string s = Some (t, r) -> ValidUTF8 t = true.
Proof. unfold read_string. destruct s; [done|]. destruct (Ascii.eqb _ _); [|done]. apply string_body_valid. Qed.

Lemma readers_valid f :
  (forall s j r, value f s = Some (j, r) -> valid_strings j = true) /\
  (forall s l r, elements f s = Some (l, r) -> forallb valid_strings l = true) /\
  (forall s l r, members f s = Some (l, r) -> valid_strings (JObject l) = true).
Proof.
  induction f as [|f (IHv & IHe & IHm)]; [done|]. split; [|split]; intros s.
  - intros j r. cbn [value]. destruct (skip_white s) as [|c t] eqn:Es; [done|].
    destruct (Ascii.eqb c quote_byte).
    { destruct (read_string _) as [[x y]|] eqn:E; [|done]. intros [= <- <-]. by eapply read_string_valid. }
    destruct (Ascii.eqb c "[").
    { assert (Hl : ('(l, r) ← elements f t; Some (JArray l, r)) = Some (j, r) -> valid_strings j = true).
      { destruct (elements f t) as [[l y]|] eqn:E; [|done]. intros [= <- <-]. cbn. by eapply IHe. }
      destruct (skip_white t) as [|d t']; [done|].
      destruct (Ascii.eqb d "]") eqn:Ed; [apply Ascii.eqb_eq in Ed as ->; by intros [= <- <-]|].
      revert Ed. by destruct d as [[] [] [] [] [] [] [] []]. }
    destruct (Ascii.eqb c "{").
    { assert (Hl : ('(l, r) ← members f t; Some (JObject l, r)) = Some (j, r) -> valid_strings j = true).
      { destruct (members f t) as [[l y]|] eqn:E; [|done]. intros [= <- <-]. by eapply IHm. }
      destruct (skip_white t) as [|d t']; [done|].
      destruct (Ascii.eqb d "}") eqn:Ed; [apply Ascii.eqb_eq in Ed as ->; by intros [= <- <-]|].
      revert Ed. by destruct d as [[] [] [] [] [] [] [] []]. }
    repeat (case_match; [destruct (strip_prefix _ _); [|done]; by intros [= <- <-]|]).
    destruct (read_number _) as [[n y]|]; [|done]. by intros [= <- <-].
  - intros l r. cbn [elements]. destruct (value f s) as [[x y]|] eqn:E; [|done]. cbn -[elements].
    destruct (skip_white y) as [|d t]; [done|].
    destruct (Ascii.eqb d "]") eqn:Ed; [apply Ascii.eqb_eq in Ed as ->; intros [= <- <-]; cbn; by rewrite (IHv _ _ _ E)|].
    destruct (Ascii.eqb d ",") eqn:Ec; [apply Ascii.eqb_eq in Ec as ->|revert Ed Ec; by destruct d as [[] [] [] [] [] [] [] []]].
    destruct (elements f t) as [[l' y']|] eqn:El; [|done]. intros [= <- <-]. cbn. by rewrite (IHv _ _ _ E), (IHe _ _ _ El).
  - intros l r. cbn [members]. destruct (read_string _) as [[k y]|] eqn:Ek; [|done]. cbn -[members].
    apply read_string_valid in Ek.
    destruct (skip_white y) as [|d t]; [done|].
    destruct (Ascii.eqb d ":") eqn:Ed; [apply Ascii.eqb_eq in Ed as ->|revert Ed; by destruct d as [[] [] [] [] [] [] [] []]].
    destruct (value f t) as [[x z]|] eqn:E; [|done]. cbn -[members].
    destruct (skip_white z) as [|d t']; [done|].
    destruct (Ascii.eqb d "}") eqn:Ed;
      [apply Ascii.eqb_eq in Ed as ->; intros [= <- <-]; cbn [valid_strings forallb]; by rewrite Ek, (IHv _ _ _ E)|].
    destruct (Ascii.eqb d ",") eqn:Ec; [apply Ascii.eqb_eq in Ec as ->|revert Ed Ec; by destruct d as [[] [] [] [] [] [] [] []]].
    destruct (members f t') as [[l' y']|] eqn:El; [|done]. intros [= <- <-]. cbn [valid_strings forallb].
    rewrite Ek, (IHv _ _ _ E). apply (IHm _ _ _ El).
Qed.

Lemma decode_value_valid s j r : decode_value s = Some (j, r) -> valid_strings j = true.
Proof. apply readers_valid. Qed.

(** [Itoa] writes a number literal: no leading zero, one sign at most. *)
Lemma span_all f s : str_forallb f s = true -> span f s = (s, "").
Proof. induction s as [|c s IH]; [done|]. cbn. intros [-> Hs]%andb_true_iff. by rewrite IH. Qed.

Lemma digits_token s : str_forallb is_digit s = true -> str_forallb token_byte s = true.
Proof. apply str_forallb_impl. intros c. destruct c as [[] [] [] [] [] [] [] []]; vm_compute; done. Qed.

Lemma utoa_head fuel n acc : (1 <= n)%Z -> (n < 10 ^ Z.of_nat fuel)%Z ->
  exists d r, utoa fuel n acc = String d r /\ is_digit d = true /\ d <> "0"%char.
Proof.
  revert n acc. induction fuel as [|fuel IH]; intros n acc H1 H2; [cbn in H2; lia|]. cbn [utoa].
  rewrite Nat2Z.inj_succ, Z.pow_succ_r in H2 by lia.
  destruct (Z.ltb_spec n 10).
  - exists (digit_ascii (n mod 10)), acc. rewrite Z.mod_small by lia. split; [done|].
    split; [apply digit_ascii_digit; lia|]. intros E. pose proof (digit_ascii_byte n ltac:(lia)) as Hb.
    rewrite E in Hb. change (48 = 48 + n)%Z in Hb. lia.
  - apply IH; [apply Z.div_le_lower_bound; lia|apply Z.div_lt_upper_bound; lia].
Qed.

Lemma number_ok_digits d r : is_digit d = true -> str_forallb is_digit r = true -> d <> "0"%char \/ r = "" ->
  number_ok (String d r) = true /\ number_ok (String "-" (String d r)) = true.
Proof.
  intros Hd Hr H0.
  assert (Hi : integer_part (String d r) = Some "").
  { unfold integer_part. destruct (Ascii.eqb d "0") eqn:E.
    { apply Ascii.eqb_eq in E as ->. by destruct H0 as [| ->]. }
    assert (digits1 (String d r) = Some "") as Hx by (unfold digits1; cbn; by rewrite Hd, span_all).
    rewrite Hx. revert E. clear. by destruct d as [[] [] [] [] [] [] [] []]. }
  assert (Ht : str_forallb token_byte (String d r) = true).
  { apply digits_token. cbn. by rewrite Hd. }
  unfold number_ok, skip_number.
  assert (match String d r with String "-" x => x | _ => String d r end = String d r) as ->.
  { revert Hd. clear. by destruct d as [[] [] [] [] [] [] [] []]. }
  rewrite Hi. cbn -[integer_part str_forallb]. rewrite Ht. split; [done|].
  change (str_forallb token_byte (String "-" (String d r))) with (str_forallb token_byte (String d r)). by rewrite Ht.
Qed.

Lemma number_ok_Itoa z : fits 64 z -> number_ok (Itoa z) = true.
Proof.
  unfold fits. intros Hz. change (2 ^ (64 - 1))%Z with 9223372036854775808%Z in Hz.
  destruct (Z.eq_dec z 0) as [->|H0]; [done|]. unfold Itoa.
  assert (forall n, (1 <= n < 10 ^ Z.of_nat 20)%Z -> number_ok (utoa 20 n "") = true /\ number_ok (String "-" (utoa 20 n "")) = true) as H.
  { intros n Hn. destruct (utoa_head 20 n "" ltac:(lia) ltac:(lia)) as (d & r & E & Hd & H1).
    pose proof (utoa_digits 20 n "") as Hdig. rewrite E in *. apply number_ok_digits; [done| |by left].
    specialize (Hdig ltac:(lia)). cbn [str_forallb] in Hdig. apply andb_true_iff in Hdig. tauto. }
  change (10 ^ Z.of_nat 20)%Z with 100000000000000000000%Z in H.
  destruct (Z.ltb_spec z 0); apply H; lia.
Qed.

#[export] Instance string_laws : CodecLaws string.
Proof.
  refine {| codec_ok s := ValidUTF8 s = true |}; cbn; try done.
  - intros x. by rewrite String.eqb_eq.
  - intros [| | | | | |] old x; cbn; try done; by intros; simplify_eq.
Defined.

#[export] Instance bool_laws : CodecLaws bool.
Proof. refine {| codec_ok _ := True |}; try done. by intros []. Defined.

#[export] Instance int_laws : CodecLaws Z.
Proof.
  refine {| codec_ok z := fits 64 z |}; cbn.
  - unfold fits. lia.
  - intros x. by rewrite Z.eqb_eq.
  - apply number_ok_Itoa.
  - intros x Hx. rewrite ParseInt_Itoa_int64 by done. cbn. by rewrite bool_decide_true.
  - intros [] old x; cbn; try done; [by intros; simplify_eq|]. intros _ _.
    destruct (ParseInt _) as [z|]; [|done]. cbn. case_bool_decide; [|done]. by intros [= <-].
Defined.

Class NotNull (A : Type) `{Codec A} := not_null : forall x, to_json x <> JNull.
#[export] Instance string_not_null : NotNull string. Proof. done. Qed.
#[export] Instance bool_not_null : NotNull bool. Proof. done. Qed.
#[export] Instance int_not_null : NotNull Z. Proof. done. Qed.
#[export] Instance list_not_null {A} `{Codec A} : NotNull (list A). Proof. done. Qed.

#[export] Instance list_laws {A} `{CodecLaws A} : CodecLaws (list A).
Proof.
  refine {| codec_ok l := Forall codec_ok l |}; cbn.
  - constructor.
  - by intros [].
  - intros x. induction 1 as [|a l Ha _ IH]; [done|]. cbn in *. by rewrite codec_wf, IH.
  - induction 1 as [|a l Ha _ IH]; [done|]. cbn in *. rewrite codec_roundtrip by done. cbn. by rewrite IH.
  - intros [] old x; cbn; try done; [intros _ _ [= <-]; constructor|]. intros Hv _. revert x Hv.
    induction l as [|j l IH]; intros x; cbn; [intros _ [= <-]; constructor|]. intros [H1 H2]%andb_true_iff.
    destruct (of_json j zero) as [a|] eqn:Ea; [|done]. cbn. destruct (decode_all l) as [as_|] eqn:El; [|done].
    intros [= <-]. constructor; [|auto]. eapply codec_decoded; [done| |done]. apply codec_zero.
Defined.

#[export] Instance pointer_laws {A} `{CodecLaws A, !NotNull A} : CodecLaws (option A).
Proof.
  refine {| codec_ok o := from_option codec_ok True o |}; cbn.
  - done.
  - by intros [].
  - intros [x|]; cbn; [apply codec_wf|done].
  - intros [x|]; cbn; [|done]. intros Hx. pose proof (not_null x).
    pose proof (codec_roundtrip x Hx) as Hr. destruct (to_json x); try done; by rewrite Hr.
  - intros j old x Hj Hold.
    assert (codec_ok (default zero old)) as Hd by (destruct old; [done|apply codec_zero]).
    assert ((y ← of_json j (default zero old); Some (Some y)) = Some x -> from_option codec_ok True x) as Hx.
    { destruct (of_json j _) as [y|] eqn:E; [|done]. intros [= <-]. cbn. by eapply codec_decoded. }
    destruct j; try exact Hx. by intros [= <-].
Defined.

(** *** Fields of a struct *)

Section fields.
Context {A : Type} `{CodecLaws A}.
Implicit Types x : A.

Lemma get_skip {B} `{Codec B} name n (y : B) acc rest :
  String.eqb (FoldKey n) name = false ->
  get_from (A := A) name acc (omitempty n y ++ rest) = get_from name acc rest /\
  get_from (A := A) name acc (emit n y ++ rest) = get_from name acc rest.
Proof.
  intros Hn. unfold omitempty, emit. assert (forall v, get_from (A := A) name acc ((n, v) :: rest) = get_from name acc rest) as Hs.
  { intros v. unfold get_from, is_key. cbn. rewrite Hn. by destruct acc. }
  split; [destruct (empty y)|]; cbn; [done|apply Hs..].
Qed.

Lemma get_hit name x rest : codec_ok x -> String.eqb (FoldKey name) name = true ->
  get_from name (Some zero) (omitempty name x ++ rest) = get_from name (Some x) rest /\
  get_from name (Some zero) (emit name x ++ rest) = get_from name (Some x) rest.
Proof.
  intros Hx Hn. assert (get_from name (Some zero) ((name, to_json x) :: rest) = get_from name (Some x) rest) as Hs.
  { unfold get_from, is_key. cbn. rewrite Hn. by rewrite codec_roundtrip. }
  unfold omitempty, emit. split; [|done]. destruct (empty x) eqn:E; [|done]. cbn. by rewrite (codec_empty x E).
Qed.

Lemma emit_wf name x rest : ValidUTF8 name = true -> codec_ok x ->
  wf_json (JObject rest) = true ->
  wf_json (JObject (omitempty name x ++ rest)) = true /\ wf_json (JObject (emit name x ++ rest)) = true.
Proof.
  intros Hn Hx Hr. unfold omitempty, emit. assert (wf_json (JObject ((name, to_json x) :: rest)) = true) as Hs.
  { cbn [wf_json forallb]. rewrite Hn, codec_wf by done. done. }
  split; [destruct (empty x)|]; done.
Qed.

Lemma get_from_ok name members y x : valid_strings (JObject members) = true -> codec_ok y ->
  get_from name (Some y) members = Some x -> codec_ok x.
Proof.
  unfold get_from. intros Hm Hy. revert y Hy Hm.
  induction members as [|[k v] ms IH]; intros y Hy Hm; cbn [foldl]; [by intros [= <-]|].
  cbn [valid_strings forallb] in Hm. apply andb_true_iff in Hm as [[Hk Hv]%andb_true_iff Hm]. cbn [mbind option_bind].
  destruct (is_key name (k, v)); [|by apply IH]. change ((k, v).2) with v.
  destruct (of_json v y) as [y'|] eqn:E.
  - apply IH; [|done]. by eapply codec_decoded.
  - intros Hn. exfalso. revert Hn. clear. induction ms; [done|]. cbn. done.
Qed.
End fields.

Lemma known_skip names {A} `{Codec A} n (x : A) rest :
  existsb (fun m => String.eqb (FoldKey n) m) names = true -> known_fields names rest = true ->
  known_fields names (omitempty n x ++ rest) = true /\ known_fields names (emit n x ++ rest) = true.
Proof.
  intros Hn Hr. unfold omitempty, emit. assert (known_fields names ((n, to_json x) :: rest) = true) as Hs.
  { unfold known_fields. cbn [forallb]. unfold is_key at 1. cbn [fst]. by rewrite Hn. }
  split; [destruct (empty x)|]; done.
Qed.

(** ** Texts with the same members *)

(** Bytes a string literal shows as they are. *)
Definition literal_byte (c : ascii) : bool :=
  between 32 126 c && negb (is_html c || Ascii.eqb c quote_byte || Ascii.eqb c escape_byte).

Lemma escape_literal n s : str_forallb literal_byte s = true -> (String.length s <= n)%nat -> escape n s = s.
Proof.
  revert s. induction n as [|n IH]; intros [|c s] Hs Hn; cbn [String.length] in *; try done; try lia.
  cbn [str_forallb] in Hs. apply andb_true_iff in Hs as [Hc Hs]. cbn [escape].
  assert (between 0 127 c = true /\ ascii_text c = String c "") as [H1 H2].
  { revert Hc. clear. destruct c as [[] [] [] [] [] [] [] []]; vm_compute; done. }
  assert (utf8_width (String c s) = 1%nat) as -> by (unfold utf8_width; by rewrite H1).
  rewrite H2. cbn [String.append]. rewrite IH by (done || lia). done.
Qed.

Lemma quoted_literal s : str_forallb literal_byte s = true -> quoted s = String quote_byte (s ++ String quote_byte "").
Proof. intros Hs. unfold quoted. by rewrite escape_literal. Qed.

Lemma encode_member k v v' a b : encode v = encode v' ->
  encode (JObject (a ++ [(k, v)] ++ b)) = encode (JObject (a ++ [(k, v')] ++ b)).
Proof. intros E. cbn [encode]. rewrite !map_app. cbn [map]. by rewrite E. Qed.

Lemma encode_array l l' : map encode l = map encode l' -> encode (JArray l) = encode (JArray l').
Proof. intros E. cbn [encode]. by rewrite E. Qed.

Lemma encode_inj a b : wf_json a = true -> wf_json b = true -> encode a = encode b -> a = b.
Proof. intros Ha Hb E. pose proof (parse_encode a Ha). pose proof (parse_encode b Hb). congruence. Qed.

Lemma to_json_inj {A} `{CodecLaws A} (x y : A) : codec_ok x -> codec_ok y -> to_json x = to_json y -> x = y.
Proof. intros Hx Hy E. pose proof (codec_roundtrip x Hx). pose proof (codec_roundtrip y Hy). congruence. Qed.
