(* ===== verification/GoIndent.v ===== *)
(** * GoIndent: [json.MarshalIndent] with two spaces

    [indented] writes a value over several lines as [json.Indent] lays out what
    [json.Marshal] wrote; an empty array or object stays on its line. What was laid out
    is read back as the same value ([parse_indented]). *)

From S2P Require Import Prelude GoStrings GoJson.

#[local] Open Scope string_scope.

Fixpoint spaces (n : nat) : string := match n with O => "" | S n => String " " (String " " (spaces n)) end.
Definition newline (d : nat) : string := String "010" (spaces d).

(** The value at depth [d]. A raw message has been compacted before. *)
Fixpoint indented (d : nat) (j : json) : string :=
  match j with
  | JArray (x :: l) =>
      "[" ++ newline (S d) ++ Join (map (indented (S d)) (x :: l)) ("," ++ newline (S d)) ++ newline d ++ "]"
  | JObject (kv :: fs) =>
      "{" ++ newline (S d) ++
      Join (map (fun kv => match kv with (k, v) => quoted k ++ ": " ++ indented (S d) v end) (kv :: fs)) ("," ++ newline (S d)) ++
      newline d ++ "}"
  | _ => encode j
  end.

(** [json.MarshalIndent(v, "", "  ")] *)
Definition MarshalIndent (j : json) : string := indented 0 j.

(** ** Reading it back *)

Definition white (s : string) : Prop := str_forallb is_white s = true.

Lemma newline_white d : white (newline d).
Proof. unfold white, newline. cbn. induction d; done. Qed.

Lemma skip_white_app w s : white w -> skip_white (w ++ s) = skip_white s.
Proof.
  unfold white, skip_white. induction w as [|c w IH]; [done|]. cbn. intros [Hc Hw]%andb_true_iff. rewrite Hc.
  specialize (IH Hw). destruct (span is_white (w ++ s)) as [a b]. cbn in *. congruence.
Qed.

Lemma value_white fuel w s : white w -> value fuel (w ++ s) = value fuel s.
Proof. intros Hw. destruct fuel; [done|]. cbn [value]. by rewrite skip_white_app. Qed.

Lemma elements_white fuel w s : white w -> elements fuel (w ++ s) = elements fuel s.
Proof. intros Hw. destruct fuel; [done|]. cbn [elements]. by rewrite value_white. Qed.

Lemma members_white fuel w s : white w -> members fuel (w ++ s) = members fuel s.
Proof. intros Hw. destruct fuel; [done|]. cbn [members]. by rewrite skip_white_app. Qed.

Definition reads_indented (d : nat) (j : json) : Prop :=
  forall fuel t, (text_fuel (indented d j) < fuel)%nat -> ends_value t = true -> value fuel (indented d j ++ t) = Some (j, t).

Lemma white_ends w c t : white w -> ends_value (String c t) = true -> ends_value (w ++ String c t) = true.
Proof.
  intros Hw Hc. destruct w as [|d w]; [done|]. cbn in *. apply andb_true_iff in Hw as [Hd _].
  revert Hd. clear. destruct d as [[] [] [] [] [] [] [] []]; done.
Qed.

Lemma elements_indented d e l : l <> [] -> white e -> Forall (reads_indented d) l -> forall fuel t,
  (text_fuel (Join (map (indented d) l) ("," ++ newline d)) + 1 < fuel)%nat ->
  elements fuel (Join (map (indented d) l) ("," ++ newline d) ++ e ++ String "]" t) = Some (l, t).
Proof.
  intros Hne He Hl. induction Hl as [|x l Hx Hl IH]; [done|]. clear Hne. unfold text_fuel, reads_indented in *.
  intros [|fuel] t Hf; [lia|]. cbn [elements]. destruct l as [|y l].
  - cbn [map Join] in *. rewrite Hx by ((by apply white_ends) || unfold text_fuel; lia). cbn [mbind option_bind]. by rewrite skip_white_app.
  - change (Join (map (indented d) (x :: y :: l)) ("," ++ newline d))
      with (indented d x ++ String "," (newline d ++ Join (map (indented d) (y :: l)) ("," ++ newline d))) in *.
    rewrite str_length_app in Hf. cbn [String.length] in Hf. rewrite str_length_app in Hf.
    rewrite <- str_app_assoc, Hx by (done || unfold text_fuel; lia). cbn [mbind option_bind String.append].
    rewrite skip_white_head by done. cbv beta iota. rewrite <- str_app_assoc, elements_white by apply newline_white.
    rewrite IH by (done || lia). done.
Qed.

Definition member_line (d : nat) (kv : string * json) : string := match kv with (k, v) => quoted k ++ ": " ++ indented d v end.

Lemma members_indented d e fs : fs <> [] -> white e -> Forall (fun kv => reads_indented d kv.2) fs ->
  forallb (fun kv : string * json => ValidUTF8 kv.1) fs = true -> forall fuel t,
  (text_fuel (Join (map (member_line d) fs) ("," ++ newline d)) + 1 < fuel)%nat ->
  members fuel (Join (map (member_line d) fs) ("," ++ newline d) ++ e ++ String "}" t) = Some (fs, t).
Proof.
  intros Hne He Hl. induction Hl as [|[k x] l Hx Hl IH]; [done|]. clear Hne. unfold text_fuel, reads_indented in *.
  cbn [forallb]. intros [Hk Hv]%andb_true_iff [|fuel] t Hf; [lia|]. cbn [members]. destruct l as [|y l].
  - cbn [map Join] in *. unfold member_line in *. rewrite !str_length_app in Hf.
    rewrite <- !str_app_assoc, skip_white_quoted, read_string_quoted by done.
    cbn [mbind option_bind String.append]. rewrite skip_white_head by done. cbv beta iota.
    change (String " " (indented d x ++ e ++ String "}" t)) with (" " ++ indented d x ++ e ++ String "}" t). rewrite value_white by done.
    rewrite Hx by ((by apply white_ends) || unfold text_fuel; cbn in *; lia). cbn [mbind option_bind]. by rewrite skip_white_app.
  - change (Join (map (member_line d) ((k, x) :: y :: l)) ("," ++ newline d))
      with ((quoted k ++ ": " ++ indented d x) ++ String "," (newline d ++ Join (map (member_line d) (y :: l)) ("," ++ newline d))) in *.
    rewrite !str_length_app in Hf. cbn [String.length] in Hf. rewrite !str_length_app in Hf.
    rewrite <- !str_app_assoc, skip_white_quoted, read_string_quoted by done.
    cbn [mbind option_bind String.append]. rewrite skip_white_head by done. cbv beta iota.
    match goal with |- context [value fuel (String " " ?r)] => change (String " " r) with (" " ++ r) end. rewrite value_white by done.
    rewrite Hx by (done || unfold text_fuel; cbn in *; lia). cbn [mbind option_bind String.append].
    rewrite skip_white_head by done. cbv beta iota. rewrite <- str_app_assoc, members_white by apply newline_white. rewrite IH by (done || lia). done.
Qed.

Lemma indented_head d j : wf_json j = true -> exists c r, indented d j = String c r /\ value_head c = true.
Proof.
  intros Hw. destruct j as [|b|n|s|l|fs|t]; try (apply encode_head in Hw; exact Hw).
  - destruct l; eexists _, _; split; cbn; done.
  - destruct fs; eexists _, _; split; cbn; done.
Qed.

Lemma join_head d l e s : l <> [] -> Forall (fun x => wf_json x = true) l ->
  exists c r, Join (map (indented d) l) e ++ s = String c r /\ value_head c = true.
Proof.
  intros Hne Hl. destruct Hl as [|x l Hx _]; [done|]. destruct (indented_head d x Hx) as (c & r & E & Hc).
  exists c. destruct l; cbn; rewrite E; eexists; split; done.
Qed.

Lemma forallb_all {A} (f : A -> bool) l : forallb f l = true -> Forall (fun x => f x = true) l.
Proof. intros H. apply Forall_forall. intros x Hx%list_elem_of_In. by eapply forallb_forall in H. Qed.

Lemma value_indented j : wf_json j = true -> forall d, reads_indented d j.
Proof.
  induction j as [|b|n|s|l IH|fs IH|x] using json_nested_ind; intros Hw d; try (by apply value_encode).
  - destruct l as [|x l]; [by apply value_encode|]. intros [|fuel] t Hf Ht; unfold text_fuel in Hf; [lia|].
    change (indented d (JArray (x :: l))) with
      (String "[" (newline (S d) ++ Join (map (indented (S d)) (x :: l)) ("," ++ newline (S d)) ++ newline d ++ "]")) in *.
    cbn [String.length] in Hf. rewrite !str_length_app in Hf. cbn [String.length] in Hf.
    cbn [wf_json] in Hw. apply forallb_all in Hw.
    assert (Hl : Forall (reads_indented (S d)) (x :: l)).
    { clear Hf. induction IH as [|y l' Hy _ IHl]; [constructor|]. apply Forall_cons in Hw as [H1 H2]. auto. }
    cbn [String.append value]. rewrite skip_white_head by done. cbn -[elements Join skip_white String.append map newline].
    rewrite <- !str_app_assoc, skip_white_app, elements_white by apply newline_white. cbn [String.append].
    rewrite (elements_indented (S d) (newline d)) by (done || apply newline_white || unfold text_fuel; lia).
    destruct (join_head (S d) (x :: l) (String "," (newline (S d))) (newline d ++ String "]" t) ltac:(done) Hw) as (c & r & -> & Hc).
    revert Hc. clear. destruct c as [[] [] [] [] [] [] [] []]; done.
  - destruct fs as [|[k x] fs]; [by apply value_encode|]. intros [|fuel] t Hf Ht; unfold text_fuel in Hf; [lia|].
    change (indented d (JObject ((k, x) :: fs))) with
      (String "{" (newline (S d) ++ Join (map (member_line (S d)) ((k, x) :: fs)) ("," ++ newline (S d)) ++ newline d ++ "}")) in *.
    cbn [String.length] in Hf. rewrite !str_length_app in Hf. cbn [String.length] in Hf.
    cbn [wf_json] in Hw. apply forallb_all in Hw.
    assert (Forall (fun kv => reads_indented (S d) kv.2) ((k, x) :: fs) /\
            forallb (fun kv : string * json => ValidUTF8 kv.1) ((k, x) :: fs) = true) as [Hl Hk].
    { clear Hf. induction IH as [|[k' y] l' Hy _ IHl]; [done|]. apply Forall_cons in Hw as [H1 H2].
      apply andb_true_iff in H1 as [H0 H1]. destruct (IHl H2) as [IH1 IH2]. split; [constructor; [by apply Hy|done]|]. cbn [forallb fst]. by rewrite H0. }
    cbn [String.append value]. rewrite skip_white_head by done. cbn -[members Join skip_white String.append map newline].
    rewrite <- !str_app_assoc, skip_white_app, members_white by apply newline_white. cbn [String.append].
    rewrite (members_indented (S d) (newline d)) by (done || apply newline_white || unfold text_fuel; lia).
    assert (exists r', Join (map (member_line (S d)) ((k, x) :: fs)) (String "," (newline (S d))) ++ newline d ++ String "}" t = String quote_byte r') as [r' ->]; [|done].
    destruct fs; cbn; eexists; reflexivity.
Qed.

Lemma parse_indented j : wf_json j = true -> parse (MarshalIndent j) = Some j.
Proof.
  intros Hw. unfold parse, decode_value, MarshalIndent. rewrite <- (str_app_nil_r (indented 0 j)) at 2.
  rewrite (value_indented j Hw) by (done || unfold text_fuel; lia). done.
Qed.
