(* ===== verification/GoRegexp.v ===== *)
(** * GoRegexp: what the code uses of [regexp]

    Patterns anchored at both ends, over bytes: classes, sequences, alternatives and
    repetitions. [matches] takes derivatives; [matches_spec] says that it decides the
    language of the pattern. No pattern in use tells the bytes of a rune apart. *)

From S2P Require Import Prelude GoStrings.

#[local] Open Scope string_scope.

Module Regexp.

Inductive re :=
  | Void
  | Eps
  | Class (p : ascii -> bool)
  | Seq (a b : re)
  | Alt (a b : re)
  | Star (a : re).

(** The strings a pattern stands for. *)
Inductive lang : re -> string -> Prop :=
  | l_eps : lang Eps ""
  | l_class p c : p c = true -> lang (Class p) (String c "")
  | l_seq a b s t : lang a s -> lang b t -> lang (Seq a b) (s ++ t)
  | l_left a b s : lang a s -> lang (Alt a b) s
  | l_right a b s : lang b s -> lang (Alt a b) s
  | l_done a : lang (Star a) ""
  | l_more a s t : lang a s -> lang (Star a) t -> lang (Star a) (s ++ t).

Fixpoint nullable (r : re) : bool :=
  match r with
  | Void | Class _ => false
  | Eps | Star _ => true
  | Seq a b => nullable a && nullable b
  | Alt a b => nullable a || nullable b
  end.

(** Sequences and alternatives without the parts that match nothing. *)
Definition seq (a b : re) : re :=
  match a, b with Void, _ | _, Void => Void | Eps, r | r, Eps => r | _, _ => Seq a b end.

Definition alt (a b : re) : re := match a, b with Void, r | r, Void => r | _, _ => Alt a b end.

Fixpoint deriv (c : ascii) (r : re) : re :=
  match r with
  | Void | Eps => Void
  | Class p => if p c then Eps else Void
  | Seq a b => if nullable a then alt (seq (deriv c a) b) (deriv c b) else seq (deriv c a) b
  | Alt a b => alt (deriv c a) (deriv c b)
  | Star a => seq (deriv c a) (Star a)
  end.

Fixpoint matches (r : re) (s : string) : bool :=
  match s with "" => nullable r | String c s => matches (deriv c r) s end.

(** ** Notations of patterns *)

Definition chr (c : ascii) : re := Class (Ascii.eqb c).
Fixpoint lit (s : string) : re := match s with "" => Eps | String c s => seq (chr c) (lit s) end.
Definition digit : re := Class is_digit.
Definition any : re := Class (fun c => negb (Ascii.eqb c "010")).
Definition opt (a : re) : re := Alt Eps a.
Definition plus (a : re) : re := Seq a (Star a).
Fixpoint alts (l : list re) : re := match l with [] => Void | [r] => r | r :: l => Alt r (alts l) end.
Fixpoint seqs (l : list re) : re := match l with [] => Eps | [r] => r | r :: l => Seq r (seqs l) end.

(** [a{1,n}] *)
Fixpoint up_to (n : nat) (a : re) : re :=
  match n with O => Void | 1 => a | S n => Seq a (opt (up_to n a)) end.

(** ** [matches] decides the language *)

Lemma nullable_spec r : nullable r = true <-> lang r "".
Proof.
  split.
  - induction r; cbn; try done; intros H.
    + constructor.
    + apply andb_true_iff in H as [Ha Hb]. apply (l_seq _ _ "" ""); auto.
    + apply orb_true_iff in H as [H|H]; [apply l_left|apply l_right]; auto.
    + constructor.
  - remember "" as s eqn:E. intros H. induction H; cbn; try done.
    + destruct s; [|done]. cbn in E. subst. by rewrite IHlang1, IHlang2.
    + by rewrite IHlang.
    + by rewrite IHlang, orb_true_r.
Qed.

Lemma append_nil s : s ++ "" = s.
Proof. induction s; [done|]. cbn. by rewrite IHs. Qed.

Lemma seq_lang a b s : lang (seq a b) s <-> lang (Seq a b) s.
Proof.
  assert (forall r t, lang (Seq Void r) t -> False) as Hv by (intros r t H; inversion H as [| |? ? ? ? Hx| | | |]; inversion Hx).
  assert (forall r t, lang (Seq r Void) t -> False) as Hv' by (intros r t H; inversion H as [| |? ? ? ? ? Hx| | | |]; inversion Hx).
  assert (forall r t, lang (Seq Eps r) t <-> lang r t) as He.
  { intros r t. split; [intros H; inversion H as [| |? ? ? ? Hx| | | |]; subst; by inversion Hx|]. intros H. apply (l_seq Eps r "" t); [constructor|done]. }
  assert (forall r t, lang (Seq r Eps) t <-> lang r t) as He'.
  { intros r t. split; [intros H; inversion H as [| |? ? ? ? ? Hx| | | |]; subst; inversion Hx; subst; by rewrite append_nil|].
    intros H. rewrite <- (append_nil t). apply l_seq; [done|constructor]. }
  assert (lang Void s <-> False) as HV by (split; [inversion 1|done]).
  destruct a, b; cbn [seq]; rewrite ?He, ?He'; try done; rewrite HV; split; try done; intros H; (by apply Hv in H) || (by apply Hv' in H).
Qed.

Lemma alt_lang a b s : lang (alt a b) s <-> lang a s \/ lang b s.
Proof.
  assert (lang (Alt a b) s <-> lang a s \/ lang b s) as HA.
  { split; [inversion 1; subst; auto|intros [|]; [by apply l_left|by apply l_right]]. }
  assert (lang Void s <-> False) as HV by (split; [inversion 1|done]).
  destruct a, b; cbn [alt]; try exact HA; rewrite HV; tauto.
Qed.

Lemma star_split a s : lang (Star a) s -> s = "" \/ exists c t u, s = String c t ++ u /\ lang a (String c t) /\ lang (Star a) u.
Proof.
  remember (Star a) as r eqn:E. induction 1; simplify_eq; [by left|].
  destruct s as [|c s]; cbn; [auto|]. right. by exists c, s, t.
Qed.

Lemma deriv_spec c r s : lang (deriv c r) s <-> lang r (String c s).
Proof.
  revert s. induction r as [| |p|a IHa b IHb|a IHa b IHb|a IHa]; intros s; cbn [deriv].
  - split; inversion 1.
  - split; inversion 1.
  - destruct (p c) eqn:E; split.
    + inversion 1; subst. by constructor.
    + inversion 1; subst. constructor.
    + inversion 1.
    + inversion 1; subst. congruence.
  - assert (lang (Seq (deriv c a) b) s <-> exists t u, s = t ++ u /\ lang a (String c t) /\ lang b u) as Hl.
    { split; [inversion 1; subst; eexists _, _; split; [done|]; by rewrite <- IHa|].
      intros (t & u & -> & Ht & Hu). apply l_seq; [by apply IHa|done]. }
    assert (lang (Seq a b) (String c s) <-> (exists t u, s = t ++ u /\ lang a (String c t) /\ lang b u) \/ (nullable a = true /\ lang b (String c s))) as Hr.
    { rewrite nullable_spec. split.
      - inversion 1 as [| |? ? x y Hx Hy E| | | |]; subst. destruct x as [|d x]; cbn in *; [by right|]. simplify_eq. left. eauto.
      - intros [(t & u & -> & Ht & Hu)|[Hn Hb]]; [by apply (l_seq a b (String c t))|by apply (l_seq a b "")]. }
    destruct (nullable a).
    + rewrite alt_lang, seq_lang, Hl, IHb, Hr. naive_solver.
    + rewrite seq_lang, Hl, Hr. naive_solver.
  - rewrite alt_lang, IHa, IHb. split; [intros [|]; [by apply l_left|by apply l_right]|inversion 1; subst; auto].
  - rewrite seq_lang. split.
    + inversion 1; subst. apply IHa in H2 as Hx || apply IHa in H3 as Hx. by apply (l_more a (String c s0) t).
    + intros H. apply star_split in H as [|(d & t & u & E & Ht & Hu)]; [done|]. cbn in E. simplify_eq. apply l_seq; [by apply IHa|done].
Qed.

Lemma matches_spec r s : matches r s = true <-> lang r s.
Proof.
  revert r. induction s as [|c s IH]; intros r; cbn [matches]; [apply nullable_spec|]. by rewrite IH, deriv_spec.
Qed.
End Regexp.
