(* ===== verification/Redis.v ===== *)
(** * Redis: the commands the live channel uses

    The documented effect of the commands of the key-value store that the presence and
    log handlers send, on a database of typed values with an expiry. A key past its
    expiry is absent to every command; a command on a key of another type answers
    WRONGTYPE and does nothing; a collection that becomes empty is removed. Instants and
    lifetimes are milliseconds of the store's own clock. Scores are whole numbers below
    2^53 here, which doubles represent exactly. *)

From stdpp Require Import sorting.
From S2P Require Import Prelude GoStrings GoUrl.

#[local] Open Scope Z_scope.

Module Redis.

Inductive value :=
  | VString (s : string)
  | VZset (m : gmap string Z)
  | VHash (m : gmap string string)
  | VList (l : list string).

Record cell := mkCell { held : value; expires : option Z }.

Abbreviation db := (gmap string cell).

Definition alive (t : Z) (c : cell) : bool := match expires c with Some x => t <? x | None => true end.

(** What a key holds at [t]. *)
Definition cell_at (t : Z) (k : string) (d : db) : option cell := c ← d !! k; if alive t c then Some c else None.
Definition get (t : Z) (k : string) (d : db) : option value := held <$> cell_at t k d.

Definition is_empty (v : value) : bool :=
  match v with
  | VString _ => false
  | VZset m => bool_decide (m = ∅)
  | VHash m => bool_decide (m = ∅)
  | VList l => bool_decide (l = [])
  end.

(** A write to a collection keeps the key's expiry. *)
Definition put (t : Z) (k : string) (v : value) (d : db) : db :=
  if is_empty v then delete k d else <[k := mkCell v (c ← cell_at t k d; expires c)]> d.

Inductive command :=
  | ZAdd (k : string) (members : list (string * Z))
  | ZMScore (k : string) (members : list string)
  | ZCount (k : string) (min : Z)                    (* ZCOUNT k min +inf *)
  | ZRangeByScore (k : string) (min : Z)             (* ZRANGEBYSCORE k min +inf *)
  | ZRemBelow (k : string) (max : Z)                 (* ZREMRANGEBYSCORE k -inf "(max" *)
  | HSet (k : string) (fields : list (string * string))
  | RPush (k : string) (vals : list string)
  | LTrimLast (k : string) (n : nat)                 (* LTRIM k -n -1 *)
  | LRangeLast (k : string) (n : nat)                (* LRANGE k -n -1 *)
  | SetEx (k v : string) (ttl : Z)
  | Get (k : string)
  | Exists (k : string)
  | Del (k : string)
  | Expire (k : string) (ttl : Z).

Inductive reply :=
  | Status
  | Int (z : Z)
  | Bulk (s : option string)
  | Bulks (l : list string)
  | Scores (l : list (option Z))
  | WrongType.

Definition score_le (a b : string * Z) : Prop := a.2 < b.2 \/ a.2 = b.2 /\ str_ltb b.1 a.1 = false.
#[export] Instance score_le_dec a b : Decision (score_le a b).
Proof. unfold score_le. apply _. Defined.

Definition zset_of (o : option value) : option (gmap string Z) :=
  match o with None => Some ∅ | Some (VZset m) => Some m | _ => None end.
Definition hash_of (o : option value) : option (gmap string string) :=
  match o with None => Some ∅ | Some (VHash m) => Some m | _ => None end.
Definition list_of (o : option value) : option (list string) :=
  match o with None => Some [] | Some (VList l) => Some l | _ => None end.

Definition at_least_score (min : Z) (m : gmap string Z) : gmap string Z := filter (fun '(_, s) => min <= s) m.

(** A command run at [t]. *)
Definition effect (t : Z) (c : command) (d : db) : db * reply :=
  match c with
  | ZAdd k ms =>
      match zset_of (get t k d) with
      | Some m => (put t k (VZset (foldl (fun m p => <[p.1 := p.2]> m) m ms)) d, Int 0)
      | None => (d, WrongType)
      end
  | ZMScore k ms =>
      match zset_of (get t k d) with Some m => (d, Scores (map (fun n => m !! n) ms)) | None => (d, WrongType) end
  | ZCount k min =>
      match zset_of (get t k d) with
      | Some m => (d, Int (Z.of_nat (size (at_least_score min m)))) | None => (d, WrongType) end
  | ZRangeByScore k min =>
      match zset_of (get t k d) with
      | Some m => (d, Bulks (map fst (merge_sort score_le (map_to_list (at_least_score min m)))))
      | None => (d, WrongType)
      end
  | ZRemBelow k max =>
      match zset_of (get t k d) with
      | Some m => (put t k (VZset (at_least_score max m)) d, Int 0) | None => (d, WrongType) end
  | HSet k fs =>
      match hash_of (get t k d) with
      | Some m => (put t k (VHash (foldl (fun m p => <[p.1 := p.2]> m) m fs)) d, Int 0)
      | None => (d, WrongType)
      end
  | RPush k vs =>
      match list_of (get t k d) with Some l => (put t k (VList (l ++ vs)%list) d, Int 0) | None => (d, WrongType) end
  | LTrimLast k n =>
      match list_of (get t k d) with Some l => (put t k (VList (lastn n l)) d, Status) | None => (d, WrongType) end
  | LRangeLast k n =>
      match list_of (get t k d) with Some l => (d, Bulks (lastn n l)) | None => (d, WrongType) end
  | SetEx k v ttl => (<[k := mkCell (VString v) (Some (t + ttl))]> d, Status)
  | Get k =>
      match get t k d with
      | None => (d, Bulk None) | Some (VString s) => (d, Bulk (Some s)) | Some _ => (d, WrongType) end
  | Exists k => (d, Int (if bool_decide (is_Some (get t k d)) then 1 else 0))
  | Del k => (delete k d, Int 0)
  | Expire k ttl =>
      match cell_at t k d with
      | Some c => (<[k := mkCell (held c) (Some (t + ttl))]> d, Int 1) | None => (d, Int 0) end
  end.

Fixpoint run (t : Z) (cs : list command) (d : db) : db * list reply :=
  match cs with
  | [] => (d, [])
  | c :: cs => let '(d, r) := effect t c d in let '(d, rs) := run t cs d in (d, r :: rs)
  end.

(** One round trip of a client: it reached the store at an instant and the answer came
    back, or it did and the answer was lost, or it never arrived. *)
Inductive trip := Answered (t : Z) | Lost (t : Z) | Unreached.

Definition send (tr : trip) (cs : list command) (d : db) : db * option (list reply) :=
  match tr with
  | Answered t => let '(d, rs) := run t cs d in (d, Some rs)
  | Lost t => ((run t cs d).1, None)
  | Unreached => (d, None)
  end.

(** ** What a command leaves alone *)

Definition key_of (c : command) : string :=
  match c with
  | ZAdd k _ | ZMScore k _ | ZCount k _ | ZRangeByScore k _ | ZRemBelow k _ | HSet k _ | RPush k _ | LTrimLast k _
  | LRangeLast k _ | SetEx k _ _ | Get k | Exists k | Del k | Expire k _ => k
  end.

Lemma lookup_put_ne t k v d k' : k <> k' -> put t k v d !! k' = d !! k'.
Proof. intros Hk. unfold put. destruct (is_empty v); [by rewrite lookup_delete_ne|by rewrite lookup_insert_ne]. Qed.

Lemma effect_frame t c d k : key_of c <> k -> (effect t c d).1 !! k = d !! k.
Proof.
  intros Hk. destruct c; cbn [effect key_of] in *; repeat case_match; cbn [fst];
    rewrite ?lookup_put_ne, ?lookup_insert_ne, ?lookup_delete_ne by done; done.
Qed.

Lemma run_frame t cs d k : Forall (fun c => key_of c <> k) cs -> (run t cs d).1 !! k = d !! k.
Proof.
  intros Hcs. revert d. induction Hcs as [|c cs Hc _ IH]; intros d; [done|]. cbn [run].
  pose proof (effect_frame t c d k Hc) as Hf. destruct (effect t c d) as [d1 r]. specialize (IH d1).
  destruct (run t cs d1) as [d2 rs]. cbn in *. by rewrite IH.
Qed.

Lemma run_app t cs1 cs2 d :
  run t (cs1 ++ cs2) d = let '(d1, r1) := run t cs1 d in let '(d2, r2) := run t cs2 d1 in (d2, (r1 ++ r2)%list).
Proof.
  revert d. induction cs1 as [|c cs1 IH]; intros d; cbn [run app]; [by destruct (run t cs2 d)|].
  destruct (effect t c d) as [d1 r]. rewrite IH. destruct (run t cs1 d1) as [d2 r1].
  by destruct (run t cs2 d2) as [d3 r2].
Qed.

Lemma run_app_db t cs1 cs2 d : (run t (cs1 ++ cs2) d).1 = (run t cs2 (run t cs1 d).1).1.
Proof. rewrite run_app. destruct (run t cs1 d) as [d1 r1]. cbn. by destruct (run t cs2 d1). Qed.

Lemma run_app_replies t cs1 cs2 d : (run t (cs1 ++ cs2) d).2 = ((run t cs1 d).2 ++ (run t cs2 (run t cs1 d).1).2)%list.
Proof. rewrite run_app. destruct (run t cs1 d) as [d1 r1]. cbn. by destruct (run t cs2 d1). Qed.

Lemma run_length t cs d : length (run t cs d).2 = length cs.
Proof.
  revert d. induction cs as [|c cs IH]; intros d; [done|]. cbn [run]. destruct (effect t c d) as [d1 r].
  specialize (IH d1). destruct (run t cs d1). cbn in *. by rewrite IH.
Qed.

Lemma cell_at_ext t k d d' : d !! k = d' !! k -> cell_at t k d = cell_at t k d'.
Proof. intros H. unfold cell_at. by rewrite H. Qed.

Lemma get_ext t k d d' : d !! k = d' !! k -> get t k d = get t k d'.
Proof. intros H. unfold get. by rewrite (cell_at_ext t k d d' H). Qed.

(** A key that is gone stays gone until it is written. *)
Lemma cell_at_later t t' k d : t <= t' -> cell_at t k d = None -> cell_at t' k d = None.
Proof.
  unfold cell_at, alive. destruct (d !! k) as [[v [x|]]|]; [|done..]. cbn. intros Ht.
  destruct (Z.ltb_spec t x); [done|]. by rewrite (proj2 (Z.ltb_ge t' x)) by lia.
Qed.

(** ** Pushing in pieces *)

Lemma kept_alive t k v d : alive t (mkCell v (c ← cell_at t k d; expires c)) = true.
Proof.
  unfold cell_at. destruct (d !! k) as [c|]; [|done]. cbn. destruct (alive t c) eqn:Ha; [|done]. exact Ha.
Qed.

Lemma cell_at_put t k v d : is_empty v = false ->
  cell_at t k (put t k v d) = Some (mkCell v (c ← cell_at t k d; expires c)).
Proof.
  intros Hv. unfold cell_at at 1, put. rewrite Hv, lookup_insert_eq. cbn [mbind option_bind]. by rewrite kept_alive.
Qed.

Lemma get_put t k v d : is_empty v = false -> get t k (put t k v d) = Some v.
Proof. intros Hv. unfold get. by rewrite cell_at_put. Qed.

End Redis.
