(* ===== verification/RingBuf.v ===== *)
(** * RingBuf: the bounded log buffer

    The circular buffer that [internal/nodelog/ring.go] (the node's log) and
    [internal/logstream/ring.go] (the panel's log) both implement: a slice of
    fixed length, the index of the oldest entry, the number of entries held and
    the last id handed out. Ids are microseconds of the wall clock, bumped past
    the previous id when the clock repeats or steps back.

    The abstract view of a ring is the list [contents] of the entries it holds,
    oldest first. [ring_inv] is the representation invariant; the lemmas of this
    file say what each operation does to [contents], and [NodeLog] and
    [LogStream] state the properties of the two rings with them. *)

From S2P Require Import Prelude.

Section ring.
Context {A : Type} `{Inhabited A} (id_of : A -> Z).

Record Ring := mkRing {
  buf : list A;
  start : nat;   (* index of the oldest entry *)
  held : nat;    (* the Go field [n]: entries held *)
  last : Z;      (* the last id handed out *)
}.

(** [make([]Entry, capacity)]: a slice of zero entries. *)
Definition ring_make (capacity : nat) : Ring :=
  mkRing (replicate capacity inhabitant) 0 0 0.

Definition ring_cap (r : Ring) : nat := length (buf r).

(** [r.buf[(r.start+i)%len(r.buf)]] *)
Definition ring_at (r : Ring) (i : nat) : A :=
  buf r !!! ((start r + i) mod ring_cap r).

(** [id := now; if id <= r.last { id = r.last + 1 }] *)
Definition next_id (r : Ring) (now : Z) : Z :=
  if (now <=? last r)%Z then (last r + 1)%Z else now.

(** The store of an entry whose id has been chosen: in the next free slot, or
    over the oldest one. *)
Definition ring_store (r : Ring) (e : A) : Ring :=
  if held r <? ring_cap r then
    mkRing (<[(start r + held r) mod ring_cap r := e]> (buf r))
           (start r) (S (held r)) (id_of e)
  else
    mkRing (<[start r := e]> (buf r))
           ((start r + 1) mod ring_cap r) (held r) (id_of e).

(** [sort.Search(r.n, func(i int) bool { return r.at(i).ID > after })] *)
Definition ring_firstAfter (r : Ring) (after : Z) : nat :=
  sort_Search (held r) (fun i => (after <? id_of (ring_at r i))%Z).

(** [count] entries from logical index [from]. *)
Definition ring_slice (r : Ring) (from count : nat) : list A :=
  map (ring_at r) (seq from count).

Definition contents (r : Ring) : list A := ring_slice r 0 (held r).

(** Ids strictly increase along a list of entries. *)
Definition ids_increasing (l : list A) : Prop :=
  forall i j x y, i < j -> l !! i = Some x -> l !! j = Some y -> (id_of x < id_of y)%Z.

Record ring_inv (r : Ring) : Prop := {
  inv_cap : 0 < ring_cap r;
  inv_start : start r < ring_cap r;
  inv_held : held r <= ring_cap r;
  inv_sorted : ids_increasing (contents r);
  inv_last : forall x, In x (contents r) -> (id_of x <= last r)%Z;
}.

(** ** The abstract view *)

Lemma length_contents r : length (contents r) = held r.
Proof. unfold contents, ring_slice. by rewrite length_map, length_seq. Qed.

Lemma lookup_contents r i : i < held r -> contents r !! i = Some (ring_at r i).
Proof.
  intros Hi. unfold contents, ring_slice.
  change (ring_at r <$> seq 0 (held r)) with (map (ring_at r) (seq 0 (held r))).
  rewrite list_lookup_fmap, lookup_seq_lt by done. done.
Qed.

Lemma contents_ext r l :
  length l = held r -> (forall i, i < held r -> l !! i = Some (ring_at r i)) ->
  contents r = l.
Proof.
  intros Hlen Hl. apply list_eq. intros i.
  destruct (decide (i < held r)) as [Hi|Hi].
  - by rewrite lookup_contents, Hl.
  - rewrite !lookup_ge_None_2; [done|lia|rewrite length_contents; lia].
Qed.

Lemma ring_slice_contents r from count :
  from + count <= held r ->
  ring_slice r from count = take count (drop from (contents r)).
Proof.
  intros Hle. unfold ring_slice, contents, ring_slice.
  rewrite <- fmap_drop, <- fmap_take. f_equal.
  rewrite drop_seq, take_seq. f_equal; lia.
Qed.

(** Two logical positions inside the window are two different slots. *)
Lemma slot_inj (s i j c : nat) :
  s < c -> i < c -> j < c -> (s + i) mod c = (s + j) mod c -> i = j.
Proof.
  intros Hs Hi Hj Heq.
  assert (forall k, k < c -> (s + k) mod c = if s + k <? c then s + k else s + k - c) as E.
  { intros k Hk. destruct (Nat.ltb_spec (s + k) c) as [Hlt|Hge].
    - by apply Nat.mod_small.
    - rewrite <- (Nat.mod_small (s + k - c) c) at 1 by lia.
      rewrite <- (Nat.Div0.mod_add (s + k - c) 1 c). f_equal. lia. }
  rewrite !E in Heq by done.
  destruct (Nat.ltb_spec (s + i) c), (Nat.ltb_spec (s + j) c); lia.
Qed.

Lemma slot_lt (s i c : nat) : s < c -> (s + i) mod c < c.
Proof. intros. apply Nat.mod_upper_bound. lia. Qed.

(** Storing while there is room appends; storing into a full ring drops the
    oldest entry and appends. *)
Lemma contents_store_room r e :
  ring_inv r -> held r < ring_cap r ->
  contents (ring_store r e) = contents r ++ [e].
Proof.
  intros [Hc Hs Hh _ _] Hroom. unfold ring_store.
  destruct (Nat.ltb_spec (held r) (ring_cap r)) as [_|]; [|lia].
  apply contents_ext; [by rewrite length_app, length_contents, Nat.add_comm|].
  simpl. intros i Hi. unfold ring_at, ring_cap in *; simpl.
  rewrite length_insert. destruct (decide (i = held r)) as [->|Hne].
  - rewrite lookup_app_r by (rewrite length_contents; lia).
    rewrite length_contents, Nat.sub_diag; simpl.
    rewrite list_lookup_total_insert_eq; [done|by apply slot_lt].
  - rewrite lookup_app_l by (rewrite length_contents; lia).
    rewrite lookup_contents by lia. unfold ring_at, ring_cap.
    rewrite list_lookup_total_insert_ne; [done|].
    intros E. apply slot_inj in E; lia.
Qed.

Lemma contents_store_full r e :
  ring_inv r -> held r = ring_cap r ->
  contents (ring_store r e) = drop 1 (contents r) ++ [e].
Proof.
  intros [Hc Hs Hh _ _] Hfull. unfold ring_store.
  destruct (Nat.ltb_spec (held r) (ring_cap r)) as [|_]; [lia|].
  assert (length (drop 1 (contents r)) = held r - 1) as Hd
    by (rewrite length_drop, length_contents; lia).
  apply contents_ext; [rewrite length_app, Hd; simpl; lia|].
  simpl. intros i Hi. unfold ring_at, ring_cap in *; simpl.
  rewrite length_insert, Nat.Div0.add_mod_idemp_l, <- Nat.add_assoc.
  destruct (decide (i = held r - 1)) as [->|Hne].
  - rewrite lookup_app_r by lia. rewrite Hd, Nat.sub_diag; cbn [lookup list_lookup].
    replace (start r + (1 + (held r - 1))) with (start r + 1 * length (buf r)) by lia.
    rewrite Nat.Div0.mod_add, Nat.mod_small by done.
    by rewrite list_lookup_total_insert_eq.
  - rewrite lookup_app_l by lia. rewrite lookup_drop, lookup_contents by lia.
    unfold ring_at, ring_cap.
    rewrite list_lookup_total_insert_ne; [done|].
    rewrite <- (Nat.mod_small (start r) (length (buf r))) at 1 by done.
    rewrite <- (Nat.add_0_r (start r)) at 1. intros E. apply slot_inj in E; lia.
Qed.

(** The refinement: a store is a push onto the abstract list, cut to the
    capacity. *)
Lemma contents_store r e :
  ring_inv r ->
  contents (ring_store r e) = lastn (ring_cap r) (contents r ++ [e]).
Proof.
  intros Hinv. destruct (decide (held r < ring_cap r)) as [Hlt|Hge].
  - rewrite contents_store_room by done. rewrite lastn_all; [done|].
    rewrite length_app, length_contents; simpl; lia.
  - pose proof (inv_held r Hinv). pose proof (inv_cap r Hinv).
    rewrite contents_store_full by (done || lia).
    replace (ring_cap r) with (S (ring_cap r - 1)) by lia.
    rewrite lastn_snoc. f_equal. unfold lastn. f_equal.
    rewrite length_contents. lia.
Qed.

Lemma ring_cap_store r e : ring_cap (ring_store r e) = ring_cap r.
Proof. unfold ring_store, ring_cap. go_cases; by rewrite length_insert. Qed.

Lemma next_id_fresh r now : (last r < next_id r now)%Z.
Proof. unfold next_id. destruct (Z.leb_spec now (last r)); lia. Qed.

Lemma ids_increasing_snoc l e :
  ids_increasing l -> (forall x, In x l -> (id_of x < id_of e)%Z) ->
  ids_increasing (l ++ [e]).
Proof.
  intros Hl Hlt i j x y Hij Hx Hy.
  apply lookup_app_Some in Hy as [Hy|[Hge Hy]].
  - rewrite lookup_app_l in Hx; [by apply (Hl i j)|].
    apply lookup_lt_Some in Hy. lia.
  - apply list_lookup_singleton_Some in Hy as [Hj <-].
    rewrite lookup_app_l in Hx by lia. apply Hlt.
    apply list_elem_of_In. by eapply list_elem_of_lookup_2.
Qed.

Lemma ids_increasing_lastn k l : ids_increasing l -> ids_increasing (lastn k l).
Proof.
  intros Hl i j x y Hij. unfold lastn. rewrite !lookup_drop. intros Hx Hy.
  apply (Hl (length l - k + i) (length l - k + j)); [lia|done..].
Qed.

(** Storing an entry with a fresh id keeps the invariant. *)
Lemma ring_store_inv r e :
  ring_inv r -> (last r < id_of e)%Z -> ring_inv (ring_store r e).
Proof.
  intros Hinv Hid. pose proof Hinv as [Hc Hs Hh Hsort Hlast].
  assert (ids_increasing (contents r ++ [e])).
  { apply ids_increasing_snoc; [done|]. intros x Hx. specialize (Hlast x Hx). lia. }
  split.
  - by rewrite ring_cap_store.
  - rewrite ring_cap_store. unfold ring_store. go_cases. apply Nat.mod_upper_bound. lia.
  - rewrite ring_cap_store. unfold ring_store.
    destruct (Nat.ltb_spec (held r) (ring_cap r)); simpl; lia.
  - rewrite contents_store by done. by apply ids_increasing_lastn.
  - rewrite contents_store by done. intros x Hx.
    assert (last (ring_store r e) = id_of e) as -> by (unfold ring_store; go_cases).
    apply lastn_sub, in_app_or in Hx as [Hx|[<-|[]]]; [|done].
    specialize (Hlast x Hx). lia.
Qed.

Lemma contents_make capacity : contents (ring_make capacity) = [].
Proof. done. Qed.

Lemma ring_make_inv capacity : 0 < capacity -> ring_inv (ring_make capacity).
Proof.
  intros Hc. split; unfold ring_make, ring_cap; simpl; rewrite ?length_replicate; try lia.
  all: done.
Qed.

(** ** Reading *)

(** Along increasing ids, the entries newer than a given id are a suffix. *)
Definition newer (after : Z) (l : list A) : list A :=
  List.filter (fun e => (after <? id_of e)%Z) l.

Lemma ids_increasing_app_r l1 l2 : ids_increasing (l1 ++ l2) -> ids_increasing l2.
Proof.
  intros Hl i j x y Hij Hx Hy.
  apply (Hl (length l1 + i) (length l1 + j)); [lia|..];
    by rewrite lookup_app_r, Nat.add_sub_swap, Nat.sub_diag by lia.
Qed.

Lemma ids_increasing_head l x y :
  ids_increasing (x :: l) -> In y l -> (id_of x < id_of y)%Z.
Proof.
  intros Hl Hy. apply list_elem_of_In, list_elem_of_lookup in Hy as [j Hy].
  by apply (Hl 0 (S j)); [lia|..].
Qed.

Lemma ids_increasing_app l1 l2 :
  ids_increasing l1 -> ids_increasing l2 ->
  (forall x y, In x l1 -> In y l2 -> (id_of x < id_of y)%Z) ->
  ids_increasing (l1 ++ l2).
Proof.
  intros H1 H2 Hlt i j x y Hij Hx Hy.
  apply lookup_app_Some in Hy as [Hy|[Hge Hy]].
  - rewrite lookup_app_l in Hx; [by apply (H1 i j)|]. apply lookup_lt_Some in Hy. lia.
  - apply lookup_app_Some in Hx as [Hx|[Hge' Hx]].
    + apply Hlt; apply list_elem_of_In; by eapply list_elem_of_lookup_2.
    + by apply (H2 (i - length l1) (j - length l1)); [lia|..].
Qed.

Lemma newer_all after l :
  (forall x, In x l -> (after < id_of x)%Z) -> newer after l = l.
Proof.
  induction l as [|x l IH]; intros Hall; [done|]. simpl.
  pose proof (Hall x (or_introl eq_refl)).
  destruct (Z.ltb_spec after (id_of x)); [|lia].
  f_equal. apply IH. intros y Hy. apply Hall. by right.
Qed.

Lemma newer_suffix after l :
  ids_increasing l -> exists older, l = older ++ newer after l.
Proof.
  induction l as [|x l IH]; intros Hl; [by exists []|]. simpl.
  destruct (Z.ltb_spec after (id_of x)) as [Hx|Hx].
  - exists []. simpl. f_equal. symmetry. apply newer_all. intros y Hy.
    pose proof (ids_increasing_head _ _ _ Hl Hy). lia.
  - destruct IH as [older Ho]; [by apply (ids_increasing_app_r [x])|].
    exists (x :: older). simpl. by rewrite <- Ho.
Qed.

(** After the entries up to and including [e] come exactly those newer than
    [e]. *)
Lemma newer_split l pre e rest :
  ids_increasing l -> l = pre ++ e :: rest -> newer (id_of e) l = rest.
Proof.
  intros Hl ->. unfold newer. rewrite List.filter_app.
  assert (List.filter (fun x => (id_of e <? id_of x)%Z) pre = []) as ->.
  { induction pre as [|y pre IH]; [done|]. simpl.
    assert (id_of y < id_of e)%Z.
    { apply (ids_increasing_head _ _ _ Hl). apply in_or_app. by right; left. }
    destruct (Z.ltb_spec (id_of e) (id_of y)); [lia|].
    apply IH. by apply (ids_increasing_app_r [y]). }
  simpl. rewrite Z.ltb_irrefl. apply newer_all. intros y Hy.
  apply ids_increasing_app_r in Hl. by apply (ids_increasing_head _ _ _ Hl).
Qed.

(** The binary search drops exactly the entries that are not newer. *)
Lemma ring_firstAfter_spec r after :
  ring_inv r ->
  ring_firstAfter r after <= held r /\
  drop (ring_firstAfter r after) (contents r) = newer after (contents r).
Proof.
  intros Hinv. unfold ring_firstAfter.
  destruct (sort_Search_spec (held r) (fun i => (after <? id_of (ring_at r i))%Z))
    as (Hle & Hlo & Hhi).
  { intros i j Hij Hi. apply Z.ltb_lt in Hi. apply Z.ltb_lt.
    destruct (decide (i = j)) as [->|]; [done|].
    pose proof (inv_sorted r Hinv i j (ring_at r i) (ring_at r j)) as Hs.
    rewrite !lookup_contents in Hs by lia.
    assert (id_of (ring_at r i) < id_of (ring_at r j))%Z by (apply Hs; [lia|done..]).
    lia. }
  split; [done|]. symmetry. apply filter_drop. intros i x Hx.
  assert (i < held r) by (apply lookup_lt_Some in Hx; by rewrite length_contents in Hx).
  rewrite lookup_contents in Hx by done. simplify_eq.
  destruct (Nat.leb_spec (sort_Search (held r)
    (fun i => (after <? id_of (ring_at r i))%Z)) i); [apply Hhi|apply Hlo]; lia.
Qed.

(** ** Histories *)

(** A ring reached from [r] by storing the entries of a list, each with a fresh
    id. *)
Inductive stores : Ring -> list A -> Ring -> Prop :=
  | stores_nil r : stores r [] r
  | stores_snoc r l r' e :
      stores r l r' -> (last r' < id_of e)%Z -> stores r (l ++ [e]) (ring_store r' e).

Lemma stores_refine r l r' :
  ring_inv r -> stores r l r' ->
  ring_inv r' /\ ring_cap r' = ring_cap r /\
  contents r' = lastn (ring_cap r) (contents r ++ l).
Proof.
  intros Hinv Hst. induction Hst as [r|r l r' e Hst IH Hid].
  - split_and!; [done..|]. rewrite app_nil_r, lastn_all; [done|].
    rewrite length_contents. apply (inv_held r Hinv).
  - destruct (IH Hinv) as (Hinv' & Hcap & Hcont).
    split_and!; [by apply ring_store_inv|by rewrite ring_cap_store|].
    rewrite contents_store, Hcont, Hcap by done.
    by rewrite lastn_lastn_snoc, app_assoc.
Qed.

(** Ids handed out along a history strictly increase and exceed the ring's last
    id at the beginning. *)
Lemma stores_ids r l r' :
  stores r l r' ->
  ids_increasing l /\ (forall x, In x l -> (last r < id_of x <= last r')%Z) /\
  (last r <= last r')%Z.
Proof.
  induction 1 as [r|r l r' e Hst (Hinc & Hb & Hle) Hid].
  { split_and!; [intros ???? _ Hx; by rewrite lookup_nil in Hx|by intros x []|lia]. }
  assert (last (ring_store r' e) = id_of e) as -> by (unfold ring_store; go_cases).
  split_and!; [| |lia].
  - apply ids_increasing_snoc; [done|]. intros x Hx. specialize (Hb x Hx). lia.
  - intros x [Hx|[<-|[]]]%in_app_or; [|lia]. specialize (Hb x Hx). lia.
Qed.
End ring.

Arguments Ring A : clear implicits.
Arguments mkRing {A}.

#[export] Hint Resolve ring_store_inv ring_make_inv next_id_fresh : rapido.
