(* ===== verification/NodeLog.v ===== *)
(** * NodeLog: the node's log — [internal/nodelog]

    [Line] recognises sing-box log lines and the benign client noise among them
    ([classify.go]); [Noise] is the aggregator that counts what was dropped
    ([aggregate.go]); [NodeRing] is the buffer of the kept lines ([ring.go]). *)

From S2P Require Import Prelude GoStrings RingBuf.

#[local] Open Scope string_scope.

Definition LevelDebug := "debug".
Definition LevelInfo := "info".
Definition LevelWarn := "warn".
Definition LevelError := "error".

Module Line.

Definition KindClientEOF := "client_eof".
Definition KindMuxClosed := "mux_closed".
Definition KindTLSHandshake := "tls_handshake".
Definition KindUnknownUUID := "unknown_uuid".
Definition KindBadHandshake := "bad_handshake".
Definition KindClientReset := "client_reset".
Definition KindBrokenPipe := "broken_pipe".
Definition KindClosedConn := "closed_conn".
Definition KindCanceled := "context_canceled".
Definition KindClientTimeout := "client_timeout".
Definition KindFlowMismatch := "flow_mismatch".
Definition KindDialTimeout := "dial_timeout".
Definition KindDialRefused := "dial_refused".
Definition KindDialUnreachable := "dial_unreachable".
Definition KindDNSFailure := "dns_failure".

(** The kinds an inbound failure can have; a dial failure has one of
    [dial_kinds], a colon and the outbound's tag. *)
Definition client_kinds : list string :=
  [KindClientEOF; KindMuxClosed; KindTLSHandshake; KindUnknownUUID; KindBadHandshake;
   KindClientReset; KindBrokenPipe; KindClosedConn; KindCanceled; KindClientTimeout;
   KindFlowMismatch].
Definition dial_kinds : list string :=
  [KindDialTimeout; KindDialRefused; KindDialUnreachable; KindDNSFailure].

Definition esc : ascii := "027".

(** [\x1b\[[0-9;?]*[ -/]*[@-~]]: the rest of the text after one colour code.
    The three classes are disjoint, so the match is the maximal run of each. *)
Definition ansi_rest (s : string) : option string :=
  match s with
  | String c (String "[" s) =>
      if Ascii.eqb c esc then
        let s := snd (span (fun c => is_digit c || Ascii.eqb c ";" || Ascii.eqb c "?") s) in
        let s := snd (span (between 32 47) s) in
        match s with
        | String c s => if between 64 126 c then Some s else None
        | EmptyString => None
        end
      else None
  | _ => None
  end.

Fixpoint replace_ansi (fuel : nat) (s : string) : string :=
  match fuel, s with
  | S fuel, String c s' =>
      match ansi_rest s with
      | Some r => replace_ansi fuel r
      | None => String c (replace_ansi fuel s')
      end
  | _, _ => EmptyString
  end.

Definition StripANSI (s : string) : string :=
  if negb (Contains s (String esc "")) then s else replace_ansi (String.length s) s.

(** [[+-]\d{4} \d{4}-\d{2}-\d{2} \d{2}:\d{2}:\d{2} ]: ['s'] stands for a sign,
    ['d'] for a digit, anything else for itself. *)
Fixpoint match_template (t s : string) : option string :=
  match t, s with
  | EmptyString, _ => Some s
  | String x t, String c s =>
      if (if Ascii.eqb x "s" then Ascii.eqb c "+" || Ascii.eqb c "-"
          else if Ascii.eqb x "d" then is_digit c else Ascii.eqb c x)
      then match_template t s else None
  | String _ _, EmptyString => None
  end.

Definition timestamp_template := "sdddd dddd-dd-dd dd:dd:dd ".

Definition level_tokens : list string :=
  ["TRACE"; "DEBUG"; "INFO"; "WARN"; "ERROR"; "FATAL"; "PANIC"].

Fixpoint strip_first (ps : list string) (s : string) : option (string * string) :=
  match ps with
  | [] => None
  | p :: ps => match strip_prefix p s with Some r => Some (p, r) | None => strip_first ps s end
  end.

(** [(?:\[\d+\])? ]: the seconds since start, then a space. *)
Definition match_seconds (s : string) : option string :=
  match s with
  | String "[" s' =>
      match span is_digit s' with
      | (String _ _, String "]" (String " " r)) => Some r
      | _ => None
      end
  | String " " r => Some r
  | _ => None
  end.

(** [linePrefix]: the level token and what follows the prefix. *)
Definition linePrefix (line : string) : option (string * string) :=
  let body := match match_template timestamp_template line with
              | Some r => r
              | None => line
              end in
  match strip_first level_tokens body with
  | Some (tok, r) => match match_seconds r with Some text => Some (tok, text) | None => None end
  | None => None
  end.

Definition level_of_token (tok : string) : string :=
  if str_mem tok ["TRACE"; "DEBUG"] then LevelDebug
  else if String.eqb tok "INFO" then LevelInfo
  else if String.eqb tok "WARN" then LevelWarn
  else LevelError.

Definition ParseLine (line : string) : string * string * bool :=
  match linePrefix line with
  | None => ("", line, false)
  | Some (tok, text) => (level_of_token tok, text, true)
  end.

(** A kind, or [None] for a line that is not benign. *)
Definition benignTail (cause : string) : option string :=
  let cause := TrimSpace cause in
  if String.eqb cause "EOF" || HasSuffix cause ": EOF" || HasSuffix cause "unexpected EOF"
  then Some KindClientEOF
  else if Contains cause "connection reset by peer"
          || Contains cause "forcibly closed by the remote host"
  then Some KindClientReset
  else if Contains cause "broken pipe" then Some KindBrokenPipe
  else if Contains cause "use of closed network connection" then Some KindClosedConn
  else if Contains cause "context canceled" then Some KindCanceled
  else if Contains cause "i/o timeout" || Contains cause "connection timed out"
  then Some KindClientTimeout
  else None.

Definition isBadHandshake (cause : string) : bool :=
  String.eqb cause "bad header" || String.eqb cause "bad request"
  || HasSuffix cause ": fallback disabled"
  || Contains cause "message authentication failed".

Definition classifyInbound (rest : string) : option string :=
  match after_first rest ": " with
  | None => None
  | Some cause =>
      if HasPrefix cause "TLS handshake" then Some KindTLSHandshake
      else if Contains cause "unknown UUID" || Contains cause "unknown user"
      then Some KindUnknownUUID
      else if isBadHandshake cause then Some KindBadHandshake
      else if HasPrefix cause "flow mismatch" then Some KindFlowMismatch
      else if Contains cause "mux connection closed" then
        match benignTail cause with Some _ => Some KindMuxClosed | None => None end
      else benignTail cause
  end.

Definition isNameNotFound (cause : string) : bool :=
  Contains cause "NXDOMAIN" || Contains cause "no such host"
  || Contains cause "server misbehaving".

Definition not_space (c : ascii) : bool := negb (is_re_space c).

(** [^(?:open connection to \S+|listen packet connection using)\s+]: the two
    alternatives begin with different bytes, and [\S+] ends at the first space. *)
Definition dial_head (s : string) : option string :=
  let after_spaces s := match span is_re_space s with
                        | (String _ _, r) => Some r
                        | _ => None
                        end in
  match strip_prefix "open connection to " s with
  | Some r => match span not_space r with
              | (String _ _, r) => after_spaces r
              | _ => None
              end
  | None => match strip_prefix "listen packet connection using" s with
            | Some r => after_spaces r
            | None => None
            end
  end.

Definition type_char (c : ascii) : bool :=
  negb (Ascii.eqb c "[" || is_re_space c || Ascii.eqb c ":").

(** [(?:\[([^\]]+)\])?]: the tag, empty when there is no bracket. *)
Definition match_tag (r : string) : option (string * string) :=
  match r with
  | String "[" r' =>
      match span (fun c => negb (Ascii.eqb c "]")) r' with
      | (String c tag, String _ r) => Some (String c tag, r)
      | _ => None
      end
  | _ => Some ("", r)
  end.

(** The whole of [dialLine]: after the head, "using outbound/", the outbound's
    type (a run free of brackets, spaces and colons), its tag in brackets (empty
    when there is none), ": " and the cause, which holds no newline. *)
Definition dialLine (text : string) : option (string * string * string) :=
  match dial_head text with
  | None => None
  | Some r =>
      match strip_prefix "using outbound/" r with
      | None => None
      | Some r =>
          match span type_char r with
          | (String c typ, r) =>
              match match_tag r with
              | Some (tag, r) =>
                  match strip_prefix ": " r with
                  | Some cause =>
                      if str_forallb (fun c => negb (Ascii.eqb c "010")) cause
                      then Some (String c typ, tag, cause) else None
                  | None => None
                  end
              | None => None
              end
          | _ => None
          end
      end
  end.

Definition classifyDial (text : string) : option string :=
  match dialLine text with
  | None => None
  | Some (typ, tag, cause) =>
      let tag := if String.eqb tag "" then typ else tag in
      if HasPrefix cause "lookup " && isNameNotFound cause
      then Some (KindDNSFailure ++ ":" ++ tag)
      else if negb (Contains cause "dial ") then None
      else if Contains cause "i/o timeout" || Contains cause "connection timed out"
      then Some (KindDialTimeout ++ ":" ++ tag)
      else if Contains cause "connection refused" || Contains cause "actively refused"
      then Some (KindDialRefused ++ ":" ++ tag)
      else if Contains cause "unreachable" || Contains cause "no route to host"
      then Some (KindDialUnreachable ++ ":" ++ tag)
      else None
  end.

(** The first marker of the list that occurs in the text. *)
Fixpoint classify_closed (markers : list string) (text : string) : option string :=
  match markers with
  | [] => None
  | m :: ms => match after_first text m with
               | Some rest => benignTail rest
               | None => classify_closed ms text
               end
  end.

Definition Classify (level text : string) : option string :=
  if negb (String.eqb level LevelError) && negb (String.eqb level LevelWarn) then None
  else match Index text "open connection to " with
  | Some i => classifyDial (sdrop i text)
  | None =>
      match Index text "listen packet connection using" with
      | Some i => classifyDial (sdrop i text)
      | None =>
          match after_first text "process connection from " with
          | Some rest => classifyInbound rest
          | None =>
              classify_closed ["connection upload closed: "; "connection download closed: "] text
          end
      end
  end.

(** *** Properties *)

Lemma benignTail_kinds cause kind :
  benignTail cause = Some kind -> In kind client_kinds.
Proof. unfold benignTail. intros H. go_inv H; simpl; tauto. Qed.

Lemma classifyInbound_kinds rest kind :
  classifyInbound rest = Some kind -> In kind client_kinds.
Proof.
  unfold classifyInbound. intros H.
  repeat case_match; simplify_eq;
    first [by eapply benignTail_kinds | unfold client_kinds; simpl; tauto].
Qed.

Lemma classify_closed_kinds markers text kind :
  classify_closed markers text = Some kind -> In kind client_kinds.
Proof.
  induction markers as [|m ms IH]; simpl; [done|].
  case_match; [apply benignTail_kinds|done].
Qed.

Lemma dialLine_type text typ tag cause :
  dialLine text = Some (typ, tag, cause) -> typ <> "".
Proof. unfold dialLine. intros H. repeat case_match; simplify_eq; done. Qed.

Lemma classifyDial_kinds text kind :
  classifyDial text = Some kind ->
  exists k tag, In k dial_kinds /\ tag <> "" /\ kind = k ++ ":" ++ tag.
Proof.
  unfold classifyDial. destruct (dialLine text) as [[[typ tag] cause]|] eqn:Hd; [|done].
  apply dialLine_type in Hd.
  set (t := if String.eqb tag "" then typ else tag).
  assert (t <> "") as Ht.
  { subst t. destruct (String.eqb_spec tag ""); congruence. }
  intros H. repeat case_match; simplify_eq; eexists _, t;
    (split; [|split; [exact Ht|reflexivity]]); simpl; tauto.
Qed.

(** The wire contract of the suppressed counters, which the panel relies on:
    only error and warning lines are ever dropped, and the kind of a dropped
    line is one of the fixed client kinds or a dial kind with the non-empty tag
    of an outbound. *)
Theorem Classify_wire_contract level text kind :
  Classify level text = Some kind ->
  (level = LevelError \/ level = LevelWarn) /\
  (In kind client_kinds \/
   exists k tag, In k dial_kinds /\ tag <> "" /\ kind = k ++ ":" ++ tag).
Proof.
  unfold Classify. intros H. split.
  - destruct (String.eqb_spec level LevelError), (String.eqb_spec level LevelWarn); auto.
    done.
  - repeat case_match; simplify_eq;
      eauto using classifyDial_kinds, classifyInbound_kinds, classify_closed_kinds.
Qed.

(** A line as sing-box writes it without timestamps. *)
Definition render_line (tok secs text : string) : string :=
  tok ++ "[" ++ secs ++ "] " ++ text.

Lemma match_seconds_render secs text :
  secs <> "" -> str_forallb is_digit secs = true ->
  match_seconds ("[" ++ secs ++ "] " ++ text) = Some text.
Proof.
  intros Hne Hd. simpl.
  rewrite (span_app is_digit secs (String "]" (String " " text))) by done.
  by destruct secs.
Qed.

(** A line as sing-box writes it, [LEVEL[seconds] text], parses back to the level
    its token stands for and the text, unchanged. *)
Theorem ParseLine_render tok secs text :
  In tok level_tokens -> secs <> "" -> str_forallb is_digit secs = true ->
  ParseLine (render_line tok secs text) = (level_of_token tok, text, true).
Proof.
  intros Htok Hne Hd. pose proof (match_seconds_render secs text Hne Hd) as Hm.
  unfold ParseLine, linePrefix, render_line.
  set (r := "[" ++ secs ++ "] " ++ text) in *. clearbody r.
  simpl in Htok. destruct_or!; subst; try done; simpl; by rewrite Hm.
Qed.

(** A failed dial as sing-box writes it: the destination, the outbound's type,
    its tag in brackets when it has one, and the cause. *)
Definition render_dial (dst typ tag cause : string) : string :=
  "open connection to " ++ dst ++ " using outbound/" ++ typ ++
  (if String.eqb tag "" then "" else "[" ++ tag ++ "]") ++ ": " ++ cause.

Lemma dial_head_render dst r :
  dst <> "" -> str_forallb not_space dst = true ->
  dial_head ("open connection to " ++ dst ++ " using outbound/" ++ r) =
    Some ("using outbound/" ++ r).
Proof.
  intros Hne Hd. unfold dial_head. rewrite strip_prefix_app.
  rewrite (span_app not_space dst (" using outbound/" ++ r)) by done.
  destruct dst as [|c dst]; [done|].
  change (" using outbound/" ++ r) with (" " ++ ("using outbound/" ++ r)).
  by rewrite (span_app is_re_space " " ("using outbound/" ++ r)).
Qed.

Lemma match_tag_render tag cause :
  str_forallb (fun c => negb (Ascii.eqb c "]")) tag = true ->
  match_tag ((if String.eqb tag "" then "" else "[" ++ tag ++ "]") ++ ": " ++ cause) =
    Some (tag, ": " ++ cause).
Proof.
  intros Htag. destruct tag as [|x tag]; [done|].
  change (match_tag (("[" ++ String x tag ++ "]") ++ ": " ++ cause) =
    Some (String x tag, ": " ++ cause)).
  rewrite <- !str_app_assoc.
  change (match span (fun c => negb (Ascii.eqb c "]"))
                  (String x tag ++ String "]" (": " ++ cause)) with
          | (String c tag, String _ r) => Some (String c tag, r)
          | _ => None
          end = Some (String x tag, ": " ++ cause)).
  by rewrite span_app.
Qed.

Lemma dialLine_render dst typ tag cause :
  dst <> "" -> str_forallb not_space dst = true ->
  typ <> "" -> str_forallb type_char typ = true ->
  str_forallb (fun c => negb (Ascii.eqb c "]")) tag = true ->
  str_forallb (fun c => negb (Ascii.eqb c "010")) cause = true ->
  dialLine (render_dial dst typ tag cause) = Some (typ, tag, cause).
Proof.
  intros Hd Hds Ht Htc Htag Hc. unfold dialLine, render_dial.
  rewrite dial_head_render, strip_prefix_app by done.
  set (r := (if String.eqb tag "" then "" else "[" ++ tag ++ "]") ++ ": " ++ cause).
  assert (match_tag r = Some (tag, ": " ++ cause)) as Hr by by apply match_tag_render.
  assert (match r with String c _ => type_char c = false | "" => True end) as Hh
    by (subst r; by destruct tag).
  clearbody r. rewrite (span_app type_char typ r) by done.
  destruct typ as [|y typ]; [done|]. by rewrite Hr, strip_prefix_app, Hc.
Qed.

(** A dial that timed out is filed under the exit's tag, or under the outbound's
    type when it has no tag. *)
Theorem classifyDial_timeout dst typ tag net :
  dst <> "" -> str_forallb not_space dst = true ->
  typ <> "" -> str_forallb type_char typ = true ->
  str_forallb (fun c => negb (Ascii.eqb c "]")) tag = true ->
  str_forallb (fun c => negb (Ascii.eqb c "010")) net = true ->
  classifyDial (render_dial dst typ tag ("dial tcp " ++ net ++ ": i/o timeout")) =
    Some ("dial_timeout:" ++ (if String.eqb tag "" then typ else tag)).
Proof.
  intros Hd Hds Ht Htc Htag Hnet. unfold classifyDial.
  assert (str_forallb (fun c => negb (Ascii.eqb c "010"))
            ("dial tcp " ++ net ++ ": i/o timeout") = true) as Hline
    by (by rewrite !str_forallb_app, Hnet).
  rewrite dialLine_render by done.
  assert (Contains ("dial tcp " ++ net ++ ": i/o timeout") "dial " = true) as ->
    by apply (Contains_prefix "dial " ("tcp " ++ net ++ ": i/o timeout")).
  assert (Contains ("dial tcp " ++ net ++ ": i/o timeout") "i/o timeout" = true) as ->.
  { change ("dial tcp " ++ net ++ ": i/o timeout")
      with ("dial tcp " ++ (net ++ (": " ++ "i/o timeout"))).
    rewrite (str_app_assoc net), str_app_assoc. apply Contains_suffix. }
  done.
Qed.

Lemma Classify_wire_contract_witness :
  (LevelError = LevelError \/ LevelError = LevelWarn) /\
  (In "dial_refused:fi-1" client_kinds \/
   exists k tag, In k dial_kinds /\ tag <> "" /\ "dial_refused:fi-1" = k ++ ":" ++ tag).
Proof.
  apply (Classify_wire_contract LevelError
    (render_dial "a.example:443" "socks" "fi-1" "dial tcp 10.0.0.1:1080: connection refused")).
  vm_compute. reflexivity.
Defined.

Lemma ParseLine_render_witness :
  ParseLine (render_line "WARN" "0031" "router: dropped") =
    (level_of_token "WARN", "router: dropped", true).
Proof. apply (ParseLine_render "WARN" "0031"); [simpl; tauto|done|reflexivity]. Defined.

Lemma classifyDial_timeout_witness :
  classifyDial (render_dial "1.1.1.1:443" "vless" "de-2" ("dial tcp " ++ "5.5.5.5:443" ++ ": i/o timeout"))
    = Some ("dial_timeout:" ++ (if String.eqb "de-2" "" then "vless" else "de-2")).
Proof. apply (classifyDial_timeout "1.1.1.1:443" "vless" "de-2" "5.5.5.5:443"); done. Defined.

(** The messages the source documents, classified. *)
Example classify_eof :
  Classify "error" "inbound/vless[main#20001]: process connection from 1.2.3.4:5678: EOF"
    = Some "client_eof".
Proof. reflexivity. Qed.
Example classify_mux :
  Classify "error" ("[1234567 1m0s] inbound/vless[main#20001]: process connection from " ++
    "1.2.3.4:5678: mux connection closed: read frame header: EOF") = Some "mux_closed".
Proof. reflexivity. Qed.
Example classify_uuid :
  Classify "warn" "inbound/vless[a]: process connection from 1.2.3.4:5: unknown UUID: 0c1e"
    = Some "unknown_uuid".
Proof. reflexivity. Qed.
Example classify_kept :
  Classify "error" "inbound/vless[a]: process connection from 1.2.3.4:5: out of memory" = None.
Proof. reflexivity. Qed.
End Line.

Module Noise.

(** [Aggregator]: the counts since the last flush, the counts since start, and
    the time of the last flush (nanoseconds). *)
Record Aggregator := mkAggregator {
  window : gmap string Z;
  total : gmap string Z;
  since : Z;
}.

Definition NewAggregator (now : Z) : Aggregator := mkAggregator ∅ ∅ now.

(** [m[kind]++]: an absent key counts from zero. *)
Definition incr (kind : string) (m : gmap string Z) : gmap string Z :=
  <[kind := (default 0 (m !! kind) + 1)%Z]> m.

Definition Count (kind : string) (a : Aggregator) : Aggregator :=
  mkAggregator (incr kind (window a)) (incr kind (total a)) (since a).

Definition Totals (a : Aggregator) : gmap string Z := total a.

(** The one line a flush logs: the sum, the window's length in seconds and the
    count of each kind. *)
Record Line := mkLine { l_total : Z; l_window_seconds : Z; l_counts : gmap string Z }.

Definition second : Z := 1000000000.

(** [int(elapsed.Round(time.Second)/time.Second)]: half away from zero. *)
Definition round_seconds (d : Z) : Z :=
  (if d <? 0 then - ((- d + second / 2) / second) else (d + second / 2) / second)%Z.

(** Nothing is logged when nothing was dropped; the window restarts either
    way. *)
Definition Flush (now : Z) (a : Aggregator) : Aggregator * option Line :=
  (mkAggregator ∅ (total a) now,
   if decide (window a = ∅) then None
   else Some (mkLine (map_sum (window a)) (round_seconds (now - since a)) (window a))).

(** What happens to an aggregator: a dropped line, or a flush at an instant. *)
Inductive event := EvCount (kind : string) | EvFlush (now : Z).

Definition step (e : event) (s : Aggregator * list Line) : Aggregator * list Line :=
  match e with
  | EvCount kind => (Count kind s.1, s.2)
  | EvFlush now => let '(a, l) := Flush now s.1 in
                   (a, s.2 ++ match l with Some l => [l] | None => [] end)%list
  end.

Definition run (es : list event) (s : Aggregator * list Line) : Aggregator * list Line :=
  foldl (fun s e => step e s) s es.

Definition count_of (kind : string) (m : gmap string Z) : Z := default 0%Z (m !! kind).

Definition logged (kind : string) (ls : list Line) : Z :=
  foldr (fun l acc => (count_of kind (l_counts l) + acc)%Z) 0%Z ls.

Definition drops (kind : string) (es : list event) : Z :=
  foldr (fun e acc => match e with
                      | EvCount k => if String.eqb k kind then (1 + acc)%Z else acc
                      | EvFlush _ => acc
                      end) 0%Z es.

Lemma count_incr kind k m :
  count_of kind (incr k m) =
    (count_of kind m + if String.eqb k kind then 1 else 0)%Z.
Proof.
  unfold count_of, incr. rewrite lookup_insert.
  destruct (String.eqb_spec k kind) as [->|Hne].
  - by rewrite decide_True.
  - rewrite decide_False by done. lia.
Qed.

Lemma logged_app kind l1 l2 :
  logged kind (l1 ++ l2) = (logged kind l1 + logged kind l2)%Z.
Proof. induction l1 as [|l l1 IH]; simpl; [done|]. lia. Qed.

(** The quantity a step changes only by the drop it records. *)
Definition accounted (kind : string) (s : Aggregator * list Line) : Z :=
  (logged kind s.2 + count_of kind (window s.1))%Z.

Lemma step_accounted kind e s :
  accounted kind (step e s) = (accounted kind s + drops kind [e])%Z /\
  count_of kind (total (step e s).1) = (count_of kind (total s.1) + drops kind [e])%Z.
Proof.
  destruct s as [a ls], e as [k|now]; unfold accounted; simpl.
  - rewrite !count_incr. destruct (String.eqb k kind); lia.
  - case_decide as Hw; rewrite logged_app; simpl; [rewrite Hw|]; unfold count_of;
      rewrite lookup_empty; simpl; lia.
Qed.

Lemma drops_cons kind e es : drops kind (e :: es) = (drops kind [e] + drops kind es)%Z.
Proof. destruct e; simpl; [|lia]. destruct (String.eqb _ _); lia. Qed.

Lemma run_accounted kind es s :
  accounted kind (run es s) = (accounted kind s + drops kind es)%Z /\
  count_of kind (total (run es s).1) = (count_of kind (total s.1) + drops kind es)%Z.
Proof.
  revert s. induction es as [|e es IH]; intros s; [simpl; lia|].
  rewrite drops_cons. change (run (e :: es) s) with (run es (step e s)).
  destruct (IH (step e s)), (step_accounted kind e s). lia.
Qed.

(** No dropped line is lost or counted twice: after any history, the drops of a
    kind are the node's reported total, and equally what the flushed lines say
    plus what the current window holds. *)
Theorem aggregator_conserves kind es t0 :
  let '(a, lines) := run es (NewAggregator t0, []) in
  count_of kind (Totals a) = drops kind es /\
  (logged kind lines + count_of kind (window a))%Z = drops kind es.
Proof.
  destruct (run_accounted kind es (NewAggregator t0, [])) as [H1 H2].
  unfold accounted in H1. destruct (run es _) as [a lines]. simpl in *.
  unfold Totals, count_of in *. rewrite lookup_empty in *. simpl in *. lia.
Qed.

(** The line's total is the sum of its counts, and a flush of an empty window
    logs nothing. *)
Lemma Flush_line now a :
  (Flush now a).2 = None <-> window a = ∅.
Proof. unfold Flush; simpl. by case_decide. Qed.

Example flush_example :
  let '(a, lines) := run [EvCount "client_eof"; EvFlush 60000000000; EvFlush 61000000000;
                          EvCount "client_eof"; EvCount "tls_handshake"]
                         (NewAggregator 0, []) in
  (map l_total lines, map l_window_seconds lines, count_of "client_eof" (total a))
    = ([1%Z], [60%Z], 2%Z).
Proof. vm_compute. reflexivity. Qed.
End Noise.

Module NodeRing.

Record Entry := mkEntry { ID : Z; Level : string; Text : string }.

#[export] Instance Entry_inhabited : Inhabited Entry := populate (mkEntry 0 "" "").

Definition DefaultRingSize : Z := 5000.
Definition maxLineBytes : nat := Nat.pow 2 14.

Definition NewRing (capacity : Z) : Ring Entry :=
  ring_make (Z.to_nat (if (capacity <=? 0)%Z then DefaultRingSize else capacity)).

(** [for cut > 0 && !utf8.RuneStart(text[cut]) { cut-- }] *)
Fixpoint rune_cut (text : string) (cut : nat) : nat :=
  match cut with
  | O => O
  | S cut' =>
      match String.get cut text with
      | Some c => if RuneStart c then cut else rune_cut text cut'
      | None => cut
      end
  end.

Definition truncate (limit : nat) (text : string) : string :=
  if (limit <? String.length text)%nat
  then stake (rune_cut text limit) text ++ "...(truncated)"
  else text.

(** [Add] at clock reading [now] (microseconds): the ring and the entry stored,
    whose id is the result. *)
Definition Add (now : Z) (level text : string) (r : Ring Entry) : Ring Entry * Entry :=
  let e := mkEntry (next_id r now) level (truncate maxLineBytes text) in
  (ring_store ID r e, e).

Definition firstAfter (r : Ring Entry) (after : Z) : nat := ring_firstAfter ID r after.

Definition Since (after limit : Z) (r : Ring Entry) : list Entry :=
  let from := firstAfter r after in
  let count := held r - from in
  let count := if ((0 <=? limit) && (limit <? Z.of_nat count))%Z then Z.to_nat limit else count in
  ring_slice r from count.

Definition Newest (n : Z) (r : Ring Entry) : list Entry :=
  let n := if (Z.of_nat (held r) <? n)%Z then Z.of_nat (held r) else n in
  let n := if (n <? 0)%Z then 0%Z else n in
  ring_slice r (held r - Z.to_nat n) (Z.to_nat n).

Definition OldestID (r : Ring Entry) : Z :=
  if (held r =? 0)%nat then 0%Z else ID (ring_at r 0).

Definition NewestID (r : Ring Entry) : Z := last r.

Definition Len (r : Ring Entry) : nat := held r.

(** The level of a slog JSON record, looked for in its first 160 bytes. *)
Definition levelKey := String "034" ("level" ++ String "034" (":" ++ String "034" "")).

Definition jsonLevel (line : string) : string :=
  match after_first (stake 160 line) levelKey with
  | None => LevelInfo
  | Some v =>
      if HasPrefix v "ERROR" then LevelError
      else if HasPrefix v "WARN" then LevelWarn
      else if HasPrefix v "DEBUG" then LevelDebug
      else LevelInfo
  end.

(** [bytes.Split(p, "\n")] *)
Fixpoint split_lines (p : string) : list string :=
  match p with
  | EmptyString => [""]
  | String c p =>
      let ls := split_lines p in
      if Ascii.eqb c "010" then "" :: ls
      else match ls with l :: ls => String c l :: ls | [] => [String c ""] end
  end.

(** [bytes.TrimRight(line, "\r")] *)
Fixpoint trim_cr (s : string) : string :=
  match s with
  | EmptyString => ""
  | String c s =>
      match trim_cr s with
      | EmptyString => if Ascii.eqb c "013" then "" else String c ""
      | t => String c t
      end
  end.

(** [jsonTee.Write]: every non-empty line of the write is recorded. Each [Add]
    reads the clock: [clock k] is its [k]-th reading. *)
Fixpoint tee_lines (clock : nat -> Z) (k : nat) (lines : list string) (r : Ring Entry) :
  Ring Entry :=
  match lines with
  | [] => r
  | l :: ls =>
      let l := trim_cr l in
      if String.eqb l "" then tee_lines clock k ls r
      else tee_lines clock (S k) ls (Add (clock k) (jsonLevel l) l r).1
  end.

Definition Write (clock : nat -> Z) (p : string) (r : Ring Entry) : Ring Entry :=
  tee_lines clock 0 (split_lines p) r.

(** *** Histories of [Add] *)

Inductive reachable (capacity : Z) : list Entry -> Ring Entry -> Prop :=
  | reach_new : reachable capacity [] (NewRing capacity)
  | reach_add l r now level text :
      reachable capacity l r ->
      reachable capacity (l ++ [(Add now level text r).2])%list (Add now level text r).1.

Lemma reachable_stores capacity l r :
  reachable capacity l r -> stores ID (NewRing capacity) l r.
Proof.
  induction 1; [constructor|]. simpl. constructor; [done|]. apply next_id_fresh.
Qed.

Lemma NewRing_inv capacity : ring_inv ID (NewRing capacity).
Proof.
  apply ring_make_inv. unfold DefaultRingSize.
  destruct (Z.leb_spec capacity 0); lia.
Qed.

Lemma reachable_inv capacity l r : reachable capacity l r -> ring_inv ID r.
Proof.
  intros Hr%reachable_stores.
  by destruct (stores_refine ID _ _ _ (NewRing_inv capacity) Hr).
Qed.

#[local] Hint Resolve reachable_inv : rapido.

(** Whatever the clock does, the ring holds exactly the newest entries added,
    as many as its capacity, and their ids strictly increase. *)
Theorem ring_holds_newest capacity l r :
  reachable capacity l r ->
  contents r = lastn (ring_cap (NewRing capacity)) l /\
  ids_increasing ID l /\
  NewestID r = (match List.rev l with e :: _ => ID e | [] => 0%Z end) /\
  Len r = min (ring_cap (NewRing capacity)) (length l).
Proof.
  intros Hr. pose proof (reachable_stores _ _ _ Hr) as Hs.
  destruct (stores_refine ID _ _ _ (NewRing_inv capacity) Hs) as (_ & _ & Hc).
  change (contents (NewRing capacity)) with (@nil Entry) in Hc; simpl in Hc.
  split_and!; [done|by destruct (stores_ids ID _ _ _ Hs)| |].
  - destruct Hr as [|l r now level text]; [done|].
    rewrite rev_unit; simpl. unfold NewestID, ring_store. by case_match.
  - unfold Len. by rewrite <- (length_contents r), Hc, length_lastn.
Qed.

(** *** Reading *)

(** [Since] is the specification "the oldest [limit] held entries newer than
    [after]"; a negative limit means all of them. *)
Theorem Since_spec after limit r :
  ring_inv ID r ->
  Since after limit r =
    let held := newer ID after (contents r) in
    if (limit <? 0)%Z then held else take (Z.to_nat limit) held.
Proof.
  intros Hinv. destruct (ring_firstAfter_spec ID r after Hinv) as [Hle Hf].
  unfold Since, firstAfter. set (from := ring_firstAfter ID r after) in *.
  assert (length (drop from (contents r)) = held r - from) as Hlen
    by (by rewrite length_drop, length_contents).
  rewrite <- Hf. cbv zeta.
  destruct (Z.ltb_spec limit 0), (Z.leb_spec 0 limit); simpl; try lia.
  - rewrite ring_slice_contents by lia. apply take_ge. lia.
  - destruct (Z.ltb_spec limit (Z.of_nat (held r - from))); simpl.
    + by rewrite ring_slice_contents by lia.
    + rewrite ring_slice_contents by lia. rewrite !take_ge; [done|lia..].
Qed.

(** [Newest n] is the last [n] entries held, oldest first. *)
Theorem Newest_spec n r :
  ring_inv ID r -> Newest n r = lastn (Z.to_nat n) (contents r).
Proof.
  intros Hinv. unfold Newest, lastn. rewrite length_contents.
  set (k := Z.to_nat _). assert (k = min (Z.to_nat n) (held r)) as Hk.
  { subst k. destruct (Z.ltb_spec (Z.of_nat (held r)) n);
      [destruct (Z.ltb_spec (Z.of_nat (held r)) 0)|destruct (Z.ltb_spec n 0)]; lia. }
  rewrite ring_slice_contents by lia.
  rewrite take_ge by (rewrite length_drop, length_contents; lia).
  f_equal. lia.
Qed.

(** A reader that keeps passing the last id it received. *)
Fixpoint walk (fuel : nat) (after limit : Z) (r : Ring Entry) : list Entry :=
  match fuel with
  | O => []
  | S fuel =>
      let page := Since after limit r in
      match List.rev page with
      | [] => []
      | e :: _ => (page ++ walk fuel (ID e) limit r)%list
      end
  end.

(** With a positive page size and enough rounds the walk returns everything still
    held that is newer than the starting id, in order and without gaps. *)
Theorem walk_complete fuel after limit r :
  ring_inv ID r -> (0 < limit)%Z -> length (newer ID after (contents r)) < fuel ->
  walk fuel after limit r = newer ID after (contents r).
Proof.
  intros Hinv Hlim. revert after. induction fuel as [|fuel IH]; intros after Hfuel; [lia|].
  simpl. rewrite Since_spec by done. destruct (Z.ltb_spec limit 0); [lia|]. cbv zeta.
  destruct (newer_suffix ID after (contents r) (inv_sorted ID r Hinv)) as [older Hl].
  set (held := newer ID after (contents r)) in *.
  destruct (List.rev (take (Z.to_nat limit) held)) as [|e p] eqn:Hrev.
  { apply (f_equal length) in Hrev. rewrite length_rev, length_take in Hrev.
    simpl in Hrev. destruct held; [done|simpl in Hrev; lia]. }
  assert (take (Z.to_nat limit) held = List.rev p ++ [e])%list as Hpage
    by (by rewrite <- (rev_involutive (take _ _)), Hrev).
  pose proof (take_drop (Z.to_nat limit) held) as Htd.
  assert (newer ID (ID e) (contents r) = drop (Z.to_nat limit) held) as Hnext.
  { apply (newer_split ID _ (older ++ List.rev p)%list e); [apply (inv_sorted ID r Hinv)|].
    rewrite Hl. rewrite <- Htd at 1. by rewrite Hpage, <- !app_assoc. }
  rewrite IH; rewrite Hnext; [done|]. rewrite length_drop.
  assert (length held <> 0).
  { apply (f_equal length) in Hpage. rewrite length_take, length_app in Hpage.
    simpl in Hpage. lia. }
  lia.
Qed.

(** *** Truncation *)

Lemma get_lt_None n text : n < String.length text -> String.get n text = None <-> False.
Proof.
  revert n. induction text as [|x text IH]; intros n Hn; simpl in *; [lia|].
  destruct n as [|n]; [done|]. apply IH. lia.
Qed.

(** A cut never lands inside a multi-byte rune: the first byte dropped starts a
    rune, unless nothing is kept. *)
Lemma rune_cut_spec text cut :
  cut < String.length text ->
  rune_cut text cut <= cut /\
  (rune_cut text cut = 0 \/
   exists c, String.get (rune_cut text cut) text = Some c /\ RuneStart c = true).
Proof.
  induction cut as [|cut IH]; intros Hlt; [simpl; auto|]. cbn [rune_cut].
  destruct (String.get (S cut) text) as [c|] eqn:Hg.
  - destruct (RuneStart c) eqn:Hc; [eauto|]. destruct IH as [? ?]; [lia|]. split; [lia|done].
  - by rewrite get_lt_None in Hg.
Qed.

Theorem truncate_spec limit text :
  if (limit <? String.length text)%nat then
    exists k, k <= limit /\ truncate limit text = stake k text ++ "...(truncated)" /\
      String.length (stake k text) = k /\
      (k = 0 \/ exists c, String.get k text = Some c /\ RuneStart c = true)
  else truncate limit text = text.
Proof.
  unfold truncate. destruct (Nat.ltb_spec limit (String.length text)) as [Hlt|Hle]; [|done].
  destruct (rune_cut_spec text limit Hlt) as [Hc Hs].
  exists (rune_cut text limit). rewrite stake_length. split_and!; [lia|done|lia|done].
Qed.

Definition demo_ring : Ring Entry :=
  (Add 3 "error" "c" (Add 9 "info" "b" (Add 9 "info" "a" (NewRing 2)).1).1).1.

Lemma demo_reachable : exists l, reachable 2 l demo_ring /\ map Text l = ["a"; "b"; "c"].
Proof. eexists. split; [repeat constructor|reflexivity]. Defined.

Lemma ring_holds_newest_witness :
  exists l, contents demo_ring = lastn (ring_cap (NewRing 2)) l /\ ids_increasing ID l /\
    NewestID demo_ring = (match List.rev l with e :: _ => ID e | [] => 0%Z end) /\
    Len demo_ring = min (ring_cap (NewRing 2)) (length l).
Proof.
  destruct demo_reachable as (l & Hl & _). exists l. exact (ring_holds_newest 2 l demo_ring Hl).
Defined.

Lemma walk_complete_witness :
  walk 3 0 1 demo_ring = newer ID 0 (contents demo_ring).
Proof.
  destruct demo_reachable as (l & Hl & _).
  apply (walk_complete 3 0 1 demo_ring); [exact (reachable_inv _ _ _ Hl)|lia|].
  vm_compute. lia.
Defined.

Example ring_example :
  let r := (Add 7 "warn" "c" (Add 5 "info" "b" (Add 5 "info" "a" (NewRing 2)).1).1).1 in
  (map ID (contents r), map ID (Since 6 1 r), OldestID r, NewestID r) = ([6; 7]%Z, [7]%Z, 6%Z, 7%Z).
Proof. vm_compute. reflexivity. Qed.
End NodeRing.

Module Capture.

(** [Capture]: the ring and aggregator it feeds, what it has written to the real
    stderr, and the level the last recognised line had. *)
Record Capture := mkCapture {
  ring : Ring NodeRing.Entry;
  agg : Noise.Aggregator;
  out : list string;
  lastLevel : string;
}.

Definition NewCapture (r : Ring NodeRing.Entry) (a : Noise.Aggregator) : Capture :=
  mkCapture r a [] LevelInfo.

(** [raw + "\n"] *)
Definition ln (raw : string) : string := raw ++ String "010" "".

Definition forward (raw : string) (c : Capture) : Capture :=
  mkCapture (ring c) (agg c) (out c ++ [ln raw])%list (lastLevel c).

(** [handle] at clock reading [now]: a benign line is counted and dropped, any
    other one is recorded in the ring and forwarded as it came. *)
Definition handle (now : Z) (raw : string) (c : Capture) : Capture :=
  let line := Line.StripANSI raw in
  let '(level, text, parsed) := Line.ParseLine line in
  let keep level lastLevel :=
    forward raw (mkCapture (NodeRing.Add now level text (ring c)).1 (agg c) (out c) lastLevel) in
  if (parsed : bool) then
    match Line.Classify level text with
    | Some kind => mkCapture (ring c) (Noise.Count kind (agg c)) (out c) level
    | None => keep level level
    end
  else keep (lastLevel c) (lastLevel c).

(** Lines read one after the other, each with the clock reading at its turn. *)
Definition process (lines : list (Z * string)) (c : Capture) : Capture :=
  foldl (fun c '(now, raw) => handle now raw c) c lines.

(** What becomes of a raw line. *)
Definition noise_of (raw : string) : option string :=
  let '(level, text, parsed) := Line.ParseLine (Line.StripANSI raw) in
  if (parsed : bool) then Line.Classify level text else None.

Lemma handle_cases now raw c :
  match noise_of raw with
  | Some kind => out (handle now raw c) = out c /\ ring (handle now raw c) = ring c /\
                 agg (handle now raw c) = Noise.Count kind (agg c)
  | None => out (handle now raw c) = (out c ++ [ln raw])%list /\
            agg (handle now raw c) = agg c /\
            exists level text,
              ring (handle now raw c) = (NodeRing.Add now level text (ring c)).1
  end.
Proof.
  unfold noise_of, handle.
  destruct (Line.ParseLine (Line.StripANSI raw)) as [[level text] []]; [|by eauto].
  destruct (Line.Classify level text); simpl; eauto.
Qed.

(** The journal receives, in order and unchanged, exactly the lines that are not
    recognised as noise; every other line is one more count of its kind. *)
Theorem process_keeps_every_line lines c kind :
  out (process lines c) =
    (out c ++ flat_map (fun '(_, raw) => match noise_of raw with
                                         | Some _ => []
                                         | None => [ln raw]
                                         end) lines)%list /\
  Noise.count_of kind (Noise.total (agg (process lines c))) =
    (Noise.count_of kind (Noise.total (agg c)) +
     Z.of_nat (length (List.filter (fun '(_, raw) =>
       match noise_of raw with Some k => String.eqb k kind | None => false end) lines)))%Z.
Proof.
  revert c. induction lines as [|[now raw] lines IH]; intros c; simpl.
  { rewrite app_nil_r. split; [done|lia]. }
  destruct (IH (handle now raw c)) as [-> ->].
  pose proof (handle_cases now raw c) as Hh. destruct (noise_of raw) as [k|].
  - destruct Hh as (-> & _ & ->). split; [done|].
    unfold Noise.Count; simpl. rewrite Noise.count_incr.
    destruct (String.eqb k kind); simpl; lia.
  - destruct Hh as (-> & -> & _). by rewrite <- app_assoc.
Qed.

End Capture.
