(* ===== verification/LogStream.v ===== *)
(** * LogStream: the panel's log — [internal/logstream]

    The level names ([LevelRank], [NormalizeLevel], [FromSlogLevel],
    [Entry.Matches]), the in-process ring of [ring.go] and the publisher of
    [publisher.go], which mirrors the ring into a capped Redis list. The
    RFC3339Nano rendering of a timestamp is [time.Format] of the standard library,
    a parameter of the entries; Redis is modelled by the documented effect of the
    two commands used, RPUSH and LTRIM, on one list. *)

From S2P Require Import Prelude GoStrings RingBuf.

#[local] Open Scope string_scope.

Module LogStream.

Definition RingSize : nat := 2000.
Definition MaxLineBytes : nat := Nat.pow 2 14.

Definition LevelDebug := "debug".
Definition LevelInfo := "info".
Definition LevelWarn := "warn".
Definition LevelError := "error".

Record Entry := mkEntry { ID : Z; TS : string; Level : string; Line : string }.

#[export] Instance Entry_inhabited : Inhabited Entry := populate (mkEntry 0 "" "" "").

(** The rank of a level name, [None] when it is not a level. *)
Definition LevelRank (level : string) : option Z :=
  let l := ToLower (TrimSpace level) in
  if str_mem l [LevelDebug; "trace"] then Some 0%Z
  else if str_mem l [LevelInfo] then Some 1%Z
  else if str_mem l [LevelWarn; "warning"] then Some 2%Z
  else if str_mem l [LevelError; "fatal"; "panic"] then Some 3%Z
  else None.

Definition NormalizeLevel (level : string) : string :=
  match LevelRank level with
  | None => LevelInfo
  | Some rank =>
      if (rank =? 0)%Z then LevelDebug
      else if (rank =? 2)%Z then LevelWarn
      else if (rank =? 3)%Z then LevelError
      else LevelInfo
  end.

(** slog's levels are -4 (debug), 0 (info), 4 (warn), 8 (error). *)
Definition FromSlogLevel (l : Z) : string :=
  if (l <? 0)%Z then LevelDebug
  else if (l <? 4)%Z then LevelInfo
  else if (l <? 8)%Z then LevelWarn
  else LevelError.

(** [rank, _ := LevelRank(e.Level)]: an unknown level ranks 0. [lower] is
    [strings.ToLower] on the whole line. *)
Definition Matches (lower : string -> string) (minRank : Z) (needle : string) (e : Entry) : bool :=
  (if (0 <? minRank)%Z then negb (default 0 (LevelRank (Level e)) <? minRank)%Z else true)
  && (String.eqb needle "" || Contains (lower (Line e)) needle).

Section ring.
(** [time.Format(time.RFC3339Nano)] of an instant in microseconds. *)
Context (fmt : Z -> string).

Definition NewRing (capacity : Z) : Ring Entry :=
  ring_make (if (capacity <? 1)%Z then RingSize else Z.to_nat capacity).

Definition cut_line (limit : nat) (line : string) : string :=
  if (limit <? String.length line)%nat then ToValidUTF8 (stake limit line) ++ "..." else line.

(** [Add] at time [t] (microseconds; a zero time has already been replaced by the
    clock). *)
Definition Add (t : Z) (level line : string) (r : Ring Entry) : Ring Entry * Entry :=
  let e := mkEntry (next_id r t) (fmt t) level (cut_line MaxLineBytes line) in
  (ring_store ID r e, e).

Definition After (after limit : Z) (r : Ring Entry) : list Entry :=
  let first := ring_firstAfter ID r after in
  let count := (held r - first)%nat in
  let count := if ((0 <? limit) && (limit <? Z.of_nat count))%Z then Z.to_nat limit else count in
  ring_slice r first count.

Definition Tail (n : Z) (r : Ring Entry) : list Entry :=
  let n := if ((Z.of_nat (held r) <? n) || (n <=? 0))%Z then Z.of_nat (held r) else n in
  ring_slice r (held r - Z.to_nat n) (Z.to_nat n).

Definition Len (r : Ring Entry) : nat := held r.
Definition LastID (r : Ring Entry) : Z := last r.

(** ** The publisher *)

Definition pushChunk : nat := 500.

(** The Redis list [logs:<source>], oldest element first. *)
Record Publisher := mkPublisher { p_last : Z; p_failing : bool }.

Definition NewPublisher : Publisher := mkPublisher 0 false.

(** [RPUSH key vals...] and [LTRIM key -RingSize -1]. *)
Inductive command := RPush (vals : list Entry) | LTrimNewest.

Definition exec1 (l : list Entry) (c : command) : list Entry :=
  match c with
  | RPush vals => l ++ vals
  | LTrimNewest => lastn RingSize l
  end%list.

Fixpoint chunks (fuel : nat) (l : list Entry) : list command :=
  match fuel, l with
  | S fuel, _ :: _ => RPush (take pushChunk l) :: chunks fuel (drop pushChunk l)
  | _, _ => []
  end.

(** The pipeline of one flush of [entries]. *)
Definition pipeline (entries : list Entry) : list command :=
  (chunks (length entries) entries ++ [LTrimNewest])%list.

(** What a publisher would push now. *)
Definition pending (p : Publisher) (r : Ring Entry) : list Entry :=
  let entries := After (p_last p) 0 r in
  if (RingSize <? length entries)%nat then drop (length entries - RingSize) entries else entries.

(** [Flush]: [fails = Some k] when the pipeline broke after [k] of its commands;
    the cursor then stays where it was. *)
Definition Flush (fails : option nat) (r : Ring Entry) (p : Publisher) (l : list Entry) :
  Publisher * list Entry * bool :=
  match pending p r with
  | [] => (p, l, true)
  | e :: es =>
      let entries := e :: es in
      match fails with
      | Some k => (p, foldl exec1 l (take k (pipeline entries)), false)
      | None => (mkPublisher (ID (List.last es e)) (p_failing p),
                 foldl exec1 l (pipeline entries), true)
      end
  end.

(** [report]: the outage flag follows the outcome; the result says whether a line
    is logged. *)
Definition report (ok : bool) (p : Publisher) : Publisher * bool :=
  (mkPublisher (p_last p) (negb ok), Bool.eqb ok (p_failing p)).

Definition tick (fails : option nat) (r : Ring Entry) (p : Publisher) (l : list Entry) :
  Publisher * list Entry :=
  let '(p, l, ok) := Flush fails r p l in ((report ok p).1, l).

(** A process: its ring, its publisher and its list. A failed flush of this
    relation is one whose pipeline was not applied at all. *)
Inductive process (capacity : Z) : Ring Entry -> Publisher -> list Entry -> Prop :=
  | proc_start : process capacity (NewRing capacity) NewPublisher []
  | proc_add r p l t level line :
      process capacity r p l -> process capacity (Add t level line r).1 p l
  | proc_tick r p l fails :
      process capacity r p l -> (fails = None \/ fails = Some 0) ->
      process capacity r (tick fails r p l).1 (tick fails r p l).2.

(** ** Reading the ring *)

Lemma After_spec after limit r :
  ring_inv ID r ->
  After after limit r =
    let held := newer ID after (contents r) in
    if (limit <=? 0)%Z then held else take (Z.to_nat limit) held.
Proof.
  intros Hinv. destruct (ring_firstAfter_spec ID r after Hinv) as [Hle Hf].
  unfold After. set (from := ring_firstAfter ID r after) in *.
  assert (length (drop from (contents r)) = held r - from)%nat as Hlen
    by (by rewrite length_drop, length_contents).
  rewrite <- Hf. cbv zeta.
  destruct (Z.leb_spec limit 0), (Z.ltb_spec 0 limit); simpl; try lia.
  - rewrite ring_slice_contents by lia. apply take_ge. lia.
  - destruct (Z.ltb_spec limit (Z.of_nat (held r - from))); simpl.
    + by rewrite ring_slice_contents by lia.
    + rewrite ring_slice_contents by lia. rewrite !take_ge; [done|lia..].
Qed.

Lemma Tail_spec n r :
  ring_inv ID r ->
  Tail n r = if (n <=? 0)%Z then contents r else lastn (Z.to_nat n) (contents r).
Proof.
  intros Hinv. unfold Tail. set (k := if orb _ _ then _ else _).
  assert (ring_slice r (held r - Z.to_nat k) (Z.to_nat k) = lastn (Z.to_nat k) (contents r)) as ->.
  { unfold lastn. rewrite length_contents.
    assert (Z.to_nat k <= held r)%nat.
    { subst k. destruct (Z.ltb_spec (Z.of_nat (held r)) n), (Z.leb_spec n 0); simpl; lia. }
    rewrite ring_slice_contents by lia. apply take_ge.
    rewrite length_drop, length_contents. lia. }
  subst k. destruct (Z.ltb_spec (Z.of_nat (held r)) n), (Z.leb_spec n 0); simpl; try lia.
  - rewrite !lastn_all; [done|rewrite length_contents; lia..].
  - rewrite lastn_all; [done|rewrite length_contents; lia].
  - done.
Qed.

(** ** The publisher keeps the list in step with the ring *)

Lemma chunks_push fuel l entries :
  (length entries <= fuel)%nat -> foldl exec1 l (chunks fuel entries) = (l ++ entries)%list.
Proof.
  revert l entries. induction fuel as [|fuel IH]; intros l entries Hf.
  { destruct entries; [by rewrite app_nil_r|simpl in Hf; lia]. }
  destruct entries as [|e es]; [by rewrite app_nil_r|].
  change (chunks (S fuel) (e :: es))
    with (RPush (take pushChunk (e :: es)) :: chunks fuel (drop pushChunk (e :: es))).
  cbn [foldl]. rewrite IH.
  - cbn [exec1]. by rewrite <- app_assoc, take_drop.
  - rewrite length_drop. unfold pushChunk. simpl in *. lia.
Qed.

Lemma pipeline_exec l entries :
  foldl exec1 l (pipeline entries) = lastn RingSize (l ++ entries).
Proof. unfold pipeline. rewrite foldl_app, chunks_push by lia. done. Qed.

Lemma pending_lastn p r :
  ring_inv ID r -> pending p r = lastn RingSize (newer ID (p_last p) (contents r)).
Proof.
  intros Hinv. unfold pending. rewrite After_spec by done. simpl.
  destruct (Nat.ltb_spec RingSize (length (newer ID (p_last p) (contents r)))); [done|].
  by rewrite lastn_all by lia.
Qed.

(** The held entries the cursor has passed. *)
Definition published (p : Publisher) (l : list Entry) : list Entry :=
  List.filter (fun e => (ID e <=? p_last p)%Z) l.

Lemma published_newer p l :
  ids_increasing ID l -> l = (published p l ++ newer ID (p_last p) l)%list.
Proof.
  unfold published. induction l as [|x l IH]; intros Hl; [done|]. simpl.
  destruct (Z.leb_spec (ID x) (p_last p)), (Z.ltb_spec (p_last p) (ID x)); try lia.
  - simpl. f_equal. apply IH. by apply (ids_increasing_app_r ID [x]).
  - assert (forall y, In y l -> (p_last p < ID y)%Z) as Hall.
    { intros y Hy. pose proof (ids_increasing_head ID _ _ _ Hl Hy). lia. }
    fold (newer ID (p_last p) l). rewrite newer_all by done.
    assert (List.filter (fun e => (ID e <=? p_last p)%Z) l = []) as ->; [|done].
    clear IH Hl. induction l as [|y l IH]; [done|]. simpl.
    pose proof (Hall y (or_introl eq_refl)). destruct (Z.leb_spec (ID y) (p_last p)); [lia|].
    apply IH. intros z Hz. apply Hall. by right.
Qed.

Record pub_inv (r : Ring Entry) (p : Publisher) (l : list Entry) : Prop := {
  pi_ring : ring_inv ID r;
  pi_cap : (ring_cap r <= RingSize)%nat;
  pi_cursor : (p_last p <= last r)%Z;
  pi_sorted : ids_increasing ID l;
  pi_bound : forall x, In x l -> (ID x <= p_last p)%Z;
  pi_size : (length l <= RingSize)%nat;
  pi_suffix : published p (contents r) `suffix_of` l;
}.

Lemma suffix_lastn {A} k (s l : list A) :
  s `suffix_of` l -> (length s <= k)%nat -> s `suffix_of` lastn k l.
Proof.
  intros [pre ->] Hk. unfold lastn. rewrite length_app.
  exists (drop (length pre + length s - k) pre). rewrite drop_app_le by lia. done.
Qed.

Lemma suffix_filter {A} (f : A -> bool) (s l : list A) :
  s `suffix_of` l -> List.filter f s `suffix_of` List.filter f l.
Proof. intros [pre ->]. exists (List.filter f pre). apply List.filter_app. Qed.

Lemma add_pub_inv r p l t level line :
  pub_inv r p l -> pub_inv (Add t level line r).1 p l.
Proof.
  intros [Hr Hcap Hcur Hs Hb Hn Hsuf]. simpl. set (e := mkEntry _ _ _ _).
  assert (last r < ID e)%Z as Hid by apply next_id_fresh. clearbody e.
  split; [by apply ring_store_inv|by rewrite ring_cap_store| |done..|].
  - unfold ring_store. case_match; simpl; lia.
  - etrans; [|exact Hsuf]. rewrite contents_store by done. unfold published.
    etrans; [apply suffix_filter, lastn_suffix|]. rewrite List.filter_app. simpl.
    destruct (Z.leb_spec (ID e) (p_last p)); [lia|]. by rewrite app_nil_r.
Qed.

Lemma last_snoc_id (e : Entry) es : exists init, e :: es = (init ++ [List.last es e])%list.
Proof.
  exists (removelast (e :: es)).
  replace (List.last es e) with (List.last (e :: es) e) by (by destruct es).
  by apply app_removelast_last.
Qed.

Lemma newer_bound after l x :
  In x (newer ID after l) <-> In x l /\ (after < ID x)%Z.
Proof. unfold newer. rewrite filter_In, Z.ltb_lt. done. Qed.

(** A flush that goes through leaves the ring's contents as the newest elements of
    the list, and the cursor at the newest one. *)
Lemma flush_ok r p l :
  pub_inv r p l ->
  let '(p', l', ok) := Flush None r p l in
  ok = true /\ contents r `suffix_of` l' /\ pub_inv r p' l'.
Proof.
  intros [Hr Hcap Hcur Hs Hb Hn Hsuf].
  pose proof (published_newer p (contents r) (inv_sorted ID r Hr)) as Hc.
  assert (pending p r = newer ID (p_last p) (contents r)) as Hp.
  { rewrite pending_lastn by done. apply lastn_all.
    apply (f_equal length) in Hc. rewrite length_app, length_contents in Hc.
    pose proof (inv_held ID r Hr). lia. }
  unfold Flush. rewrite Hp. destruct (newer ID (p_last p) (contents r)) as [|e es] eqn:Hnew.
  { rewrite app_nil_r in Hc. split_and!; [done| |by split]. by rewrite Hc. }
  rewrite pipeline_exec.
  destruct (last_snoc_id e es) as [init Hinit]. set (z := List.last es e) in *.
  assert (contents r `suffix_of` lastn RingSize (l ++ e :: es)) as Hsuf'.
  { rewrite Hc at 1. apply suffix_lastn.
    - destruct Hsuf as [pre ->]. exists pre. by rewrite app_assoc.
    - rewrite <- Hc, length_contents. pose proof (inv_held ID r Hr). lia. }
  assert (ids_increasing ID (e :: es)) as He.
  { apply (ids_increasing_app_r ID (published p (contents r))). rewrite <- Hc.
    apply (inv_sorted ID r Hr). }
  assert (forall x, In x (e :: es) -> p_last p < ID x <= ID z)%Z as Hrange.
  { intros x Hx. split; [by rewrite <- Hnew in Hx; apply newer_bound in Hx as [_ ?]|].
    rewrite Hinit in Hx, He. apply in_app_or in Hx as [Hx|[<-|[]]]; [|lia].
    apply list_elem_of_In, list_elem_of_lookup in Hx as [i Hx].
    pose proof (lookup_lt_Some _ _ _ Hx).
    apply Z.lt_le_incl, (He i (length init)); [done| |by rewrite lookup_app_r, Nat.sub_diag by lia].
    by rewrite lookup_app_l by done. }
  assert (In z (contents r)) as Hz.
  { rewrite Hc, Hinit. apply in_or_app. right. apply in_or_app. right. by left. }
  assert (forall x, In x (l ++ e :: es) -> ID x <= ID z)%Z as Hle.
  { intros x [Hx|Hx]%in_app_or; [|by apply Hrange].
    specialize (Hb x Hx). pose proof (Hrange e (or_introl eq_refl)). lia. }
  split_and!; [done|done|]. split; simpl; [done|done| | | | |].
  - apply (inv_last ID r Hr z Hz).
  - apply ids_increasing_lastn, ids_increasing_app; [done|done|].
    intros x y Hx Hy. specialize (Hb x Hx). specialize (Hrange y Hy). lia.
  - intros x Hx%lastn_sub. by apply Hle.
  - rewrite length_lastn. lia.
  - etrans; [|exact Hsuf']. unfold published. simpl. rewrite filter_true; [done|].
    intros x Hx. apply Z.leb_le. rewrite Hc in Hx. apply in_app_or in Hx as [Hx|Hx].
    + apply filter_In in Hx as [_ Hx%Z.leb_le]. specialize (Hrange e (or_introl eq_refl)). lia.
    + by apply Hrange.
Qed.

Lemma process_inv capacity r p l :
  (capacity <= Z.of_nat RingSize)%Z -> process capacity r p l -> pub_inv r p l.
Proof.
  intros Hcap. induction 1 as [|r p l t level line _ IH|r p l fails _ IH Hf].
  - assert (forall c, ring_cap (ring_make c : Ring Entry) = c) as Hlen
      by (intros c; unfold ring_cap; simpl; apply length_replicate).
    unfold NewRing. split; try done.
    + apply ring_make_inv. unfold RingSize. destruct (Z.ltb_spec capacity 1); lia.
    + rewrite Hlen. destruct (Z.ltb_spec capacity 1); lia.
    + simpl. lia.
  - by apply add_pub_inv.
  - unfold tick. destruct Hf as [->| ->].
    + pose proof (flush_ok r p l IH) as Hok. destruct (Flush None r p l) as [[p' l'] ok].
      destruct Hok as (_ & _ & [? ? ? ? ? ? ?]). by split.
    + unfold Flush. destruct IH as [? ? ? ? ? ? ?]. destruct (pending p r); by split.
Qed.

(** Through any mix of log lines, successful publishes and failed ones, the Redis
    list never repeats or reorders a line and never exceeds its cap; and as soon
    as one publish goes through it ends with exactly the lines the ring holds. *)
Theorem publisher_in_step capacity r p l :
  (capacity <= Z.of_nat RingSize)%Z -> process capacity r p l ->
  ids_increasing ID l /\ (length l <= RingSize)%nat /\
  contents r `suffix_of` (tick None r p l).2.
Proof.
  intros Hcap Hp. pose proof (process_inv _ _ _ _ Hcap Hp) as Hinv.
  pose proof (flush_ok r p l Hinv) as Hok. unfold tick.
  destruct (Flush None r p l) as [[p' l'] ok]. destruct Hok as (_ & ? & _).
  destruct Hinv. by split_and!.
Qed.

End ring.

Lemma publisher_in_step_witness :
  let fmt := fun _ : Z => "t" in
  let r := (Add fmt 2 "warn" "y" (Add fmt 7 "info" "x" (NewRing 3)).1).1 in
  ids_increasing ID [] /\ (0 <= RingSize)%nat /\
  contents r `suffix_of` (tick None r NewPublisher []).2.
Proof.
  apply (publisher_in_step (fun _ => "t") 3); [vm_compute; discriminate|].
  repeat constructor.
Defined.

(** ** Levels *)

(** Every spelling of a level normalises to one of the four names, which rank as
    the spelling did; anything else is treated as info. *)
Theorem NormalizeLevel_rank level :
  LevelRank (NormalizeLevel level) =
    Some (match LevelRank level with Some k => k | None => 1%Z end) /\
  NormalizeLevel (NormalizeLevel level) = NormalizeLevel level.
Proof.
  assert (forall k, LevelRank level = Some k -> k = 0 \/ k = 1 \/ k = 2 \/ k = 3)%Z as Hk.
  { unfold LevelRank. intros k. repeat case_match; intros [= <-]; auto. }
  unfold NormalizeLevel at 1 3 4. destruct (LevelRank level) as [k|]; [|done].
  destruct (Hk k eq_refl) as [->|[->|[->| ->]]]; done.
Qed.

End LogStream.
