(* ===== verification/TunnelHealth.v ===== *)
(** * TunnelHealth: which WireGuard exits carry traffic

    [Monitor] is [internal/tunnelhealth/monitor.go]: one entry per tracked
    tunnel, updated by rounds of probes. [Fallback] is the client of its verdict,
    [internal/nodecore/fallback.go]: the supervisor that points every selector
    group at its tunnel or at the plain connection. The Go interfaces [Health]
    and [selectorGroup] are the classes [Health] and [SelectorGroup]. *)

From S2P Require Import Prelude GoStrings.

#[local] Open Scope string_scope.

(** What one probe of an interface yields: a round trip time (nanoseconds),
    [ErrMissing], or any other error with its message. *)
Inductive outcome := ProbeOk (rtt : Z) | ProbeMissing (msg : string) | ProbeFail (msg : string).

#[export] Instance outcome_eq_dec : EqDecision outcome.
Proof. solve_decision. Defined.

Definition is_good (o : outcome) : bool := match o with ProbeOk _ => true | _ => false end.
Definition is_missing (o : outcome) : bool := match o with ProbeMissing _ => true | _ => false end.

Module Monitor.

Record Options := mkOptions {
  Interval : Z;
  DownAfter : Z;
  UpAfter : Z;
  ProbeTimeout : Z;
}.

Definition second : Z := 1000000000.

(** The defaults [New] fills in. *)
Definition with_defaults (o : Options) : Options :=
  mkOptions (if (Interval o <=? 0)%Z then 5 * second else Interval o)
            (if (DownAfter o <=? 0)%Z then 2 else DownAfter o)%Z
            (if (UpAfter o <=? 0)%Z then 3 else UpAfter o)%Z
            (if (ProbeTimeout o <=? 0)%Z then 4 * second else ProbeTimeout o).

Record Status := mkStatus {
  Name : string;
  Present : bool;
  Up : bool;
  Probed : bool;
  RTT : Z;
  Error : string;
  CheckedAt : Z;
  Since : Z;
}.

Record entry := mkEntry { status : Status; okStreak : Z; failStreak : Z }.

Record Monitor := mkMonitor {
  opts : Options;
  entries : gmap string entry;
  watched : gset string;
}.

Definition New (o : Options) : Monitor := mkMonitor (with_defaults o) ∅ ∅.

Definition set_entries (es : gmap string entry) (m : Monitor) : Monitor :=
  mkMonitor (opts m) es (watched m).

Definition Watch (names : list string) (m : Monitor) : Monitor :=
  mkMonitor (opts m) (entries m)
    (list_to_set (List.filter (fun n => negb (String.eqb n "")) names)).

(** The names probed by a round; the code sorts them, which only fixes the order
    in which the probes are started. *)
Definition trackedNames (discover : list string) (m : Monitor) : gset string :=
  list_to_set discover ∪ watched m.

(** What a record logs: a tunnel that recovered, or one that went down. *)
Inductive log := Recovered (name : string) | WentDown (name : string) (error : string).

(** The state machine of one tunnel: [record] applied to the entry found for the
    name ([None] when there is none), at clock reading [now]. *)
Definition record_entry (o : Options) (name : string) (now : Z) (r : outcome)
    (found : option entry) : entry :=
  let first := match found with None => true | Some _ => false end in
  let e := match found with
           | Some e => e
           | None => mkEntry (mkStatus name false false false 0 "" 0 now) 0 0
           end in
  let wasUp := Up (status e) in
  let '(present, rtt, err, okS, failS, up) :=
    match r with
    | ProbeOk rtt =>
        let okS := (okStreak e + 1)%Z in
        (true, rtt, "", okS, 0%Z,
         if first || (negb wasUp && (UpAfter o <=? okS)%Z) then true else wasUp)
    | ProbeMissing msg | ProbeFail msg =>
        let missing := is_missing r in
        let failS := (failStreak e + 1)%Z in
        (negb missing, 0%Z, msg, 0%Z, failS,
         if first || missing || (wasUp && (DownAfter o <=? failS)%Z) then false else wasUp)
    end in
  let since := if negb (Bool.eqb up wasUp) || first then now else Since (status e) in
  mkEntry (mkStatus (Name (status e)) present up true rtt err now since) okS failS.

Definition record_log (name : string) (found : option entry) (e : entry) : list log :=
  match found with
  | None => []
  | Some e0 =>
      if Bool.eqb (Up (status e)) (Up (status e0)) then []
      else if Up (status e) then [Recovered name] else [WentDown name (Error (status e))]
  end.

Definition record (name : string) (now : Z) (r : outcome) (m : Monitor) : Monitor * list log :=
  let found := entries m !! name in
  let e := record_entry (opts m) name now r found in
  (set_entries (<[name := e]> (entries m)) m, record_log name found e).

(** A probe result as it arrives: the name, the clock reading at its turn, the
    outcome. *)
Definition arrival : Type := string * (Z * outcome).

Definition record_all (rs : list arrival) (m : Monitor) : Monitor * list log :=
  foldl (fun '(m, l) '(name, (now, r)) =>
           let '(m, l') := record name now r m in (m, l ++ l')%list) (m, []) rs.

(** [Tick]: the results of the round in the order they arrived, then the entries
    whose tunnel is no longer tracked are dropped. [names] is the set read at the
    start of the round: a [Watch] during the round counts from the next one. *)
Definition Tick (names : gset string) (rs : list arrival) (m : Monitor) : Monitor * list log :=
  let '(m, l) := record_all rs m in
  (set_entries (filter (fun '(n, _) => n ∈ names) (entries m)) m, l).

(** The results of a round: one per tracked name. *)
Definition round (names : gset string) (rs : list arrival) : Prop :=
  NoDup (map fst rs) /\ forall n, In n (map fst rs) <-> n ∈ names.

(** [Up]: a tunnel that was never probed counts as up. *)
Definition isUp (m : Monitor) (name : string) : bool :=
  match entries m !! name with
  | None => true
  | Some e => if Probed (status e) then Up (status e) else true
  end.

Definition getStatus (name : string) (m : Monitor) : option Status :=
  status <$> entries m !! name.

(** [hostmetrics.TunnelHealth]; the probe time is in microseconds where the code
    divides them by 1000 as a float. *)
Record TunnelHealth := mkTunnelHealth {
  th_Present : bool; th_Up : bool; th_Error : string; th_ProbeUs : option Z }.

Definition Health (own : list string) (m : Monitor) : gmap string TunnelHealth :=
  omap (fun e =>
    if Probed (status e) then
      Some (mkTunnelHealth (Present (status e)) (Up (status e)) (Error (status e))
             (if Up (status e) && (0 <? RTT (status e))%Z
              then Some (RTT (status e) / 1000)%Z else None))
    else None)
  (filter (fun '(n, _) => n ∈ (list_to_set own : gset string)) (entries m)).

(** ** The verdict of one tunnel *)

(** The length of the run of elements satisfying [p] at the head of a list, and
    at its end. *)
Fixpoint leading {A} (p : A -> bool) (l : list A) : nat :=
  match l with
  | [] => 0
  | x :: l => if p x then S (leading p l) else 0
  end.

Definition trailing {A} (p : A -> bool) (l : list A) : nat := leading p (List.rev l).

Lemma leading_ge {A} (p : A -> bool) n l :
  n <= leading p l <->
  exists s t, l = (s ++ t)%list /\ length s = n /\ (forall x, In x s -> p x = true).
Proof.
  split.
  - revert n. induction l as [|x l IH]; intros n Hn; simpl in Hn.
    { exists [], []. split_and!; [done|simpl; lia|by intros x []]. }
    destruct n as [|n]; [exists [], (x :: l); split_and!; [done..|by intros y []]|].
    destruct (p x) eqn:Hx; [|lia]. destruct (IH n) as (s & t & -> & <- & Hs); [lia|].
    exists (x :: s), t. split_and!; [done..|]. intros y [<-|Hy]; auto.
  - intros (s & t & -> & <- & Hs). induction s as [|x s IH]; simpl; [lia|].
    rewrite (Hs x (or_introl eq_refl)). apply le_n_S, IH. intros y Hy. apply Hs. by right.
Qed.

Lemma trailing_ge {A} (p : A -> bool) n l :
  n <= trailing p l <->
  exists t s, l = (t ++ s)%list /\ length s = n /\ (forall x, In x s -> p x = true).
Proof.
  unfold trailing. rewrite leading_ge. split.
  - intros (s & t & Hl & <- & Hs). exists (List.rev t), (List.rev s).
    rewrite <- rev_app_distr, <- Hl, rev_involutive, length_rev.
    split_and!; [done..|]. intros x Hx. apply Hs. by apply in_rev.
  - intros (t & s & -> & <- & Hs). exists (List.rev s), (List.rev t).
    rewrite rev_app_distr, length_rev. split_and!; [done..|].
    intros x Hx. apply Hs. by apply in_rev.
Qed.

Lemma trailing_snoc {A} (p : A -> bool) l x :
  trailing p (l ++ [x]) = if p x then S (trailing p l) else 0.
Proof. unfold trailing. by rewrite rev_unit. Qed.

(** A run counted at the end of [l1 ++ l2] stops inside [l2] when [l1] ends with
    an element outside the run. *)
Lemma trailing_app_stop {A} (p : A -> bool) l1 l2 :
  trailing p l1 = 0 -> trailing p (l1 ++ l2) = trailing p l2.
Proof.
  intros H1. induction l2 as [|x l2 IH] using rev_ind; [by rewrite app_nil_r|].
  by rewrite app_assoc, !trailing_snoc, IH.
Qed.

Section verdict.
Context (o : Options) (name : string).

(** The entry after a history of (clock, outcome) pairs, oldest first, from no
    entry at all. *)
Definition entry_after (h : list (Z * outcome)) : option entry :=
  foldl (fun found '(now, r) => Some (record_entry o name now r found)) None h.

Definition up_after (h : list (Z * outcome)) : bool :=
  match entry_after h with Some e => Up (status e) | None => true end.

Definition good (x : Z * outcome) : bool := is_good x.2.
Definition bad (x : Z * outcome) : bool := negb (is_good x.2).

Lemma entry_after_snoc h now r :
  entry_after (h ++ [(now, r)]) = Some (record_entry o name now r (entry_after h)).
Proof. unfold entry_after. by rewrite foldl_app. Qed.

(** The streaks kept in an entry are the lengths of the runs of good and of
    failed rounds at the end of its history. *)
Lemma streaks h e :
  entry_after h = Some e ->
  okStreak e = Z.of_nat (trailing good h) /\ failStreak e = Z.of_nat (trailing bad h) /\
  Probed (status e) = true /\ Name (status e) = name.
Proof.
  revert e. induction h as [|[now r] h IH] using rev_ind; intros e; [done|].
  rewrite entry_after_snoc, !trailing_snoc. intros [= <-].
  assert (forall found, Name (status (record_entry o name now r found)) =
            match found with Some e => Name (status e) | None => name end) as Hname
    by (intros []; by destruct r).
  destruct (entry_after h) as [e0|] eqn:He.
  - destruct (IH e0 eq_refl) as (Hok & Hfail & _ & Hn). rewrite Hname, Hn.
    destruct r; simpl; split_and!; lia || done.
  - rewrite Hname. assert (h = []) as -> by
      (destruct h as [|[] h _] using rev_ind; [done|by rewrite entry_after_snoc in He]).
    by destruct r.
Qed.

(** The histories that make a tunnel usable: a good first round, or [UpAfter]
    good rounds in a row. *)
Definition turns_up (h : list (Z * outcome)) : Prop :=
  (exists x, h = [x] /\ good x = true) \/
  (exists t s, h = (t ++ s)%list /\ Z.of_nat (length s) = UpAfter o /\
    forall x, In x s -> good x = true).

(** The rounds through which a usable tunnel stays usable: the interface is never
    missing and no [DownAfter] rounds in a row fail. *)
Definition stays_up (h : list (Z * outcome)) : Prop :=
  (forall x, In x h -> is_missing x.2 = false) /\
  (forall a s b, h = (a ++ s ++ b)%list -> Z.of_nat (length s) = DownAfter o ->
    exists x, In x s /\ good x = true).

Context (Hopt : (1 <= UpAfter o /\ 1 <= DownAfter o)%Z).

(** One more round, in terms of the history. *)
Lemma up_after_snoc h now r :
  up_after (h ++ [(now, r)]) =
    match h with
    | [] => is_good r
    | _ =>
      if is_good r then up_after h || (UpAfter o <=? Z.of_nat (S (trailing good h)))%Z
      else up_after h && negb (is_missing r)
           && (Z.of_nat (S (trailing bad h)) <? DownAfter o)%Z
    end.
Proof.
  unfold up_after. rewrite entry_after_snoc. destruct (entry_after h) as [e|] eqn:He.
  - destruct (streaks h e He) as (Hok & Hfail & _).
    destruct h as [|x h]; [done|]. set (h' := x :: h) in *. clearbody h'.
    rewrite !Nat2Z.inj_succ, <- !Z.add_1_r, <- Hok, <- Hfail.
    destruct r; simpl; destruct (Up (status e)); simpl; try done.
    + by destruct (_ <=? _)%Z.
    + destruct (Z.leb_spec (DownAfter o) (failStreak e + 1)),
        (Z.ltb_spec (failStreak e + 1) (DownAfter o)); lia || done.
  - assert (h = []) as -> by
      (destruct h as [|[] h _] using rev_ind; [done|by rewrite entry_after_snoc in He]).
    by destruct r.
Qed.

Lemma turns_up_trailing h :
  turns_up h -> up_after h = true /\ trailing bad h = 0.
Proof.
  destruct h as [|[now r] h _] using rev_ind.
  { intros [(x & Hx & _)|(t & s & Hx & Hl & _)]; [done|].
    symmetry in Hx. apply app_eq_nil in Hx as [-> ->]. simpl in Hl. lia. }
  intros Hup. rewrite up_after_snoc, trailing_snoc.
  assert (is_good r = true) as Hr.
  { destruct Hup as [(x & Hx & Hg)|(t & s & Hx & Hl & Hg)].
    - apply app_eq_unit in Hx as [[-> [= <-]]|[_ ?]]; done.
    - destruct s as [|y s _] using rev_ind; [simpl in Hl; lia|].
      rewrite app_assoc in Hx. apply app_inj_tail in Hx as [_ <-].
      apply (Hg (now, r)). apply in_or_app. right. by left. }
  unfold bad. simpl. rewrite Hr. split; [|done].
  destruct Hup as [(x & Hx & Hg)|(t & s & Hx & Hl & Hg)].
  - apply app_eq_unit in Hx as [[-> _]|[_ ?]]; done.
  - destruct h as [|y h]; [done|]. set (h' := y :: h) in *. clearbody h'.
    apply orb_true_iff. right. apply Z.leb_le. rewrite <- Hl. apply Nat2Z.inj_le.
    pose proof (proj2 (trailing_ge good (length s) (h' ++ [(now, r)]))) as Ht.
    rewrite trailing_snoc in Ht. change (good (now, r)) with (is_good r) in Ht.
    rewrite Hr in Ht. apply Ht. by exists t, s.
Qed.

Lemma stays_up_snoc h x : stays_up (h ++ [x]) -> stays_up h.
Proof.
  intros [Hm Hs]. split.
  - intros y Hy. apply Hm, in_or_app. by left.
  - intros a s b -> Hl. apply (Hs a s (b ++ [x])%list); [|done].
    by rewrite <- !app_assoc.
Qed.

Lemma stays_up_nil : stays_up [].
Proof.
  split; [by intros x []|]. intros a s b Hs Hl. symmetry in Hs.
  apply app_eq_nil in Hs as [_ [-> _]%app_eq_nil]. simpl in Hl. lia.
Qed.

(** A quiet period ends with the round that completes a run of failures. *)
Lemma stays_up_trailing h x :
  stays_up (h ++ [x]) -> good x = false ->
  (Z.of_nat (S (trailing bad h)) < DownAfter o)%Z.
Proof.
  intros [_ Hs] Hx. destruct (Z.ltb_spec (Z.of_nat (S (trailing bad h))) (DownAfter o)) as [|Hge];
    [done|exfalso].
  assert (Z.to_nat (DownAfter o) <= trailing bad (h ++ [x])) as Ht.
  { rewrite trailing_snoc. unfold bad at 1. change (is_good x.2) with (good x).
    rewrite Hx. simpl. lia. }
  apply trailing_ge in Ht as (t & s & Heq & Hl & Hbad).
  destruct (Hs t s []) as (y & Hy & Hgood); [by rewrite app_nil_r|lia|].
  specialize (Hbad y Hy). unfold bad, good in *. by rewrite Hgood in Hbad.
Qed.

Lemma stays_up_extend h x :
  stays_up h -> is_missing x.2 = false ->
  (good x = true \/ (Z.of_nat (S (trailing bad h)) < DownAfter o)%Z) ->
  stays_up (h ++ [x]).
Proof.
  intros [Hm Hs] Hx Hor. split.
  - intros y [Hy|[<-|[]]]%in_app_or; auto.
  - intros a s b Heq Hl. destruct b as [|y b _] using rev_ind.
    + rewrite app_nil_r in Heq. destruct s as [|y s _] using rev_ind; [simpl in Hl; lia|].
      rewrite app_assoc in Heq. apply app_inj_tail in Heq as [-> <-].
      destruct Hor as [Hg|Hlt]; [exists x; split; [apply in_or_app; by right; left|done]|].
      destruct (existsb good s) eqn:He.
      { apply existsb_exists in He as (z & Hz & Hg). exists z. split; [|done].
        apply in_or_app. by left. }
      assert (length s <= trailing bad (a ++ s)) as Ht.
      { apply trailing_ge. exists a, s. split_and!; [done..|]. intros z Hz. unfold bad.
        destruct (is_good z.2) eqn:Hg; [|done]. exfalso.
        assert (existsb good s = true) as E by (apply existsb_exists; by exists z).
        by rewrite E in He. }
      rewrite length_app in Hl. simpl in Hl. lia.
    + rewrite !app_assoc in Heq. apply app_inj_tail in Heq as [-> _].
      apply (Hs a s b); [by rewrite app_assoc|done].
Qed.

(** Hysteresis: a probed tunnel is usable exactly when at some point of its
    history it became usable and has stayed so since. *)
Lemma up_after_spec h :
  h <> [] ->
  up_after h = true <-> exists h1 h2, h = (h1 ++ h2)%list /\ turns_up h1 /\ stays_up h2.
Proof.
  intros Hne. split.
  - induction h as [|[now r] h IH] using rev_ind; [done|]. clear Hne. rewrite up_after_snoc.
    destruct h as [|y h].
    { intros Hr. exists [(now, r)], []. split_and!; [done| |apply stays_up_nil]. left. eauto. }
    set (h' := y :: h) in *. assert (h' <> []) as Hne by done. clearbody h'.
    destruct (is_good r) eqn:Hr; intros Hup.
    + apply orb_true_iff in Hup as [Hup|Hup%Z.leb_le].
      * destruct (IH Hne Hup) as (h1 & h2 & -> & H1 & H2).
        exists h1, (h2 ++ [(now, r)])%list. rewrite app_assoc. split_and!; [done..|].
        apply stays_up_extend; [done|by destruct r|by left].
      * exists (h' ++ [(now, r)])%list, []. rewrite app_nil_r.
        split_and!; [done| |apply stays_up_nil]. right.
        assert (Z.to_nat (UpAfter o) <= trailing good (h' ++ [(now, r)])) as Ht.
        { rewrite trailing_snoc. change (good (now, r)) with (is_good r). rewrite Hr. lia. }
        apply trailing_ge in Ht as (t & s & -> & Hl & Hg). exists t, s.
        split_and!; [done|lia|done].
    + apply andb_true_iff in Hup as [[Hup Hmiss%negb_true_iff]%andb_true_iff Hlt%Z.ltb_lt].
      destruct (IH Hne Hup) as (h1 & h2 & -> & H1 & H2).
      exists h1, (h2 ++ [(now, r)])%list. rewrite app_assoc. split_and!; [done..|].
      rewrite (trailing_app_stop bad) in Hlt by apply turns_up_trailing, H1.
      apply stays_up_extend; auto.
  - intros (h1 & h2 & -> & Hup & Hst). clear Hne.
    destruct (turns_up_trailing h1 Hup) as [Hup1 Hbad1].
    induction h2 as [|[now r] h2 IH] using rev_ind; [by rewrite app_nil_r|].
    rewrite app_assoc, up_after_snoc, (trailing_app_stop bad) by done.
    rewrite (IH (stays_up_snoc _ _ Hst)).
    assert (h1 <> []) as Hne.
    { intros ->. destruct Hup as [(x & [=] & _)|(t & s & Hx & Hl & _)].
      symmetry in Hx. apply app_eq_nil in Hx as [_ ->]. simpl in Hl. lia. }
    destruct (h1 ++ h2)%list as [|y h] eqn:Hh; [by apply app_eq_nil in Hh as [? _]|].
    destruct (is_good r) eqn:Hr; [done|]. simpl. apply andb_true_iff. split.
    + apply negb_true_iff. apply (proj1 Hst (now, r)). apply in_or_app. by right; left.
    + apply Z.ltb_lt. by apply (stays_up_trailing h2 (now, r)).
Qed.
End verdict.

(** ** A round *)

(** The result of a round for a name. *)
Fixpoint result_of (name : string) (rs : list arrival) : option (Z * outcome) :=
  match rs with
  | [] => None
  | (n, x) :: rs => if decide (n = name) then Some x else result_of name rs
  end.

Lemma result_of_None name rs : ~ In name (map fst rs) -> result_of name rs = None.
Proof.
  induction rs as [|[n x] rs IH]; simpl; intros Hn; [done|].
  case_decide; [subst; tauto|]. apply IH. tauto.
Qed.

Lemma result_of_Some name rs : In name (map fst rs) -> is_Some (result_of name rs).
Proof.
  induction rs as [|[n x] rs IH]; simpl; [done|]. case_decide; [eauto|].
  intros [?|?]; [done|auto].
Qed.

Definition add_arrival (s : Monitor * list log) (a : arrival) : Monitor * list log :=
  let '(m', l') := record a.1 a.2.1 a.2.2 s.1 in (m', s.2 ++ l')%list.

Lemma record_all_fold rs m : record_all rs m = foldl add_arrival (m, []) rs.
Proof.
  unfold record_all. generalize (m, @nil log).
  induction rs as [|[n [now r]] rs IH]; intros [m' l]; [done|]. simpl. apply IH.
Qed.

Lemma add_arrival_frame rs s :
  opts (foldl add_arrival s rs).1 = opts s.1 /\ watched (foldl add_arrival s rs).1 = watched s.1.
Proof. revert s. induction rs as [|a rs IH]; intros s; [done|]. apply (IH (add_arrival s a)). Qed.

Lemma add_arrival_lookup rs s name :
  NoDup (map fst rs) ->
  entries (foldl add_arrival s rs).1 !! name =
    match result_of name rs with
    | Some (now, r) => Some (record_entry (opts s.1) name now r (entries s.1 !! name))
    | None => entries s.1 !! name
    end.
Proof.
  revert s. induction rs as [|[n [now r]] rs IH]; intros s Hnd; [done|].
  simpl in Hnd. apply NoDup_cons in Hnd as [Hn Hnd]. rewrite list_elem_of_In in Hn.
  simpl. rewrite IH by done. simpl. case_decide as Heq.
  - subst n. rewrite result_of_None by done. apply lookup_insert_eq.
  - by rewrite lookup_insert_ne.
Qed.

Lemma set_entries_eq m es es' : es = es' -> set_entries es m = set_entries es' m.
Proof. by intros ->. Qed.

Lemma Monitor_ext m m' :
  opts m = opts m' -> watched m = watched m' -> (forall n, entries m !! n = entries m' !! n) ->
  m = m'.
Proof.
  destruct m, m'; simpl. intros -> -> He. f_equal. by apply map_eq.
Qed.

Lemma result_of_perm rs rs' name :
  NoDup (map fst rs) -> rs ≡ₚ rs' -> result_of name rs = result_of name rs'.
Proof.
  intros Hnd Hp. induction Hp as [|[n x] rs rs' Hp IH|[n x] [n' x'] rs|rs1 rs2 rs3 H1 IH1 H2 IH2];
    simpl in *; [done| | |].
  - apply NoDup_cons in Hnd as [_ Hnd]. case_decide; [done|auto].
  - apply NoDup_cons in Hnd as [Hn _]. rewrite elem_of_cons in Hn.
    repeat case_decide; subst; tauto || done.
  - rewrite IH1 by done. apply IH2. by rewrite <- H1.
Qed.

(** The verdicts after a round do not depend on the order in which its probes
    finished. *)
Theorem Tick_any_order names rs rs' m :
  round names rs -> rs ≡ₚ rs' -> (Tick names rs m).1 = (Tick names rs' m).1.
Proof.
  intros [Hnd _] Hp. unfold Tick. rewrite !record_all_fold.
  assert ((foldl add_arrival (m, []) rs).1 = (foldl add_arrival (m, []) rs').1) as E.
  { apply Monitor_ext.
    - by rewrite !(proj1 (add_arrival_frame _ _)).
    - by rewrite !(proj2 (add_arrival_frame _ _)).
    - intros n. rewrite !add_arrival_lookup by (done || by rewrite <- Hp).
      by rewrite (result_of_perm rs rs' n). }
  destruct (foldl add_arrival (m, []) rs), (foldl add_arrival (m, []) rs'). simpl in *.
  by rewrite E.
Qed.

(** ** Runs of the monitor *)

(** What a round adds to the history of each tunnel: its result, or a fresh start
    for a tunnel that is no longer tracked. *)
Definition extend (rs : list arrival) (h : string -> list (Z * outcome)) (name : string) :
  list (Z * outcome) :=
  match result_of name rs with
  | Some x => (h name ++ [x])%list
  | None => []
  end.

Inductive reachable (o : Options) : (string -> list (Z * outcome)) -> Monitor -> Prop :=
  | reach_new : reachable o (fun _ => []) (New o)
  | reach_watch h m names : reachable o h m -> reachable o h (Watch names m)
  | reach_tick h m discover rs :
      reachable o h m -> round (trackedNames discover m) rs ->
      reachable o (extend rs h) (Tick (trackedNames discover m) rs m).1.

Lemma Tick_lookup names rs m name :
  round names rs ->
  entries (Tick names rs m).1 !! name =
    match result_of name rs with
    | Some (now, r) => Some (record_entry (opts m) name now r (entries m !! name))
    | None => None
    end.
Proof.
  intros [Hnd Hr]. unfold Tick. rewrite record_all_fold.
  pose proof (add_arrival_lookup rs (m, []) name Hnd) as Hl.
  destruct (foldl add_arrival (m, []) rs) as [m' l]. simpl in *.
  destruct (decide (name ∈ names)) as [Hin|Hout].
  - destruct (result_of_Some name rs) as [[now r] Hres]; [by apply Hr|]. rewrite Hres in *.
    by apply map_lookup_filter_Some.
  - rewrite result_of_None by (by rewrite Hr). apply map_lookup_filter_None. right.
    intros e _. done.
Qed.

Lemma Tick_opts names rs m : opts (Tick names rs m).1 = opts m.
Proof.
  unfold Tick. rewrite record_all_fold.
  pose proof (proj1 (add_arrival_frame rs (m, []))) as Ho.
  by destruct (foldl add_arrival (m, []) rs).
Qed.

Lemma reachable_entries o h m :
  reachable o h m ->
  opts m = with_defaults o /\
  forall name, entries m !! name = entry_after (with_defaults o) name (h name).
Proof.
  induction 1 as [|h m names _ IH|h m discover rs _ [Ho IH] Hr]; [done|done|].
  split; [by rewrite Tick_opts|]. intros name. rewrite Tick_lookup by done. unfold extend.
  destruct (result_of name rs) as [[now r]|]; [|done].
  by rewrite entry_after_snoc, <- IH, Ho.
Qed.

Lemma with_defaults_pos o : (1 <= UpAfter (with_defaults o) /\ 1 <= DownAfter (with_defaults o))%Z.
Proof.
  unfold with_defaults; simpl.
  destruct (Z.leb_spec (UpAfter o) 0), (Z.leb_spec (DownAfter o) 0); lia.
Qed.

(** The monitor's verdict: whatever was watched and discovered along the way, a
    tunnel that was never probed counts as up, and a probed one is up exactly when
    it became usable (a good first round, or [UpAfter] good rounds in a row) and
    has since never gone missing nor failed [DownAfter] rounds in a row. *)
Theorem verdict_hysteresis o h m name :
  reachable o h m ->
  isUp m name = true <->
  h name = [] \/
  exists h1 h2, h name = (h1 ++ h2)%list /\
    turns_up (with_defaults o) h1 /\ stays_up (with_defaults o) h2.
Proof.
  intros Hr. destruct (reachable_entries o h m Hr) as [_ He]. unfold isUp. rewrite He.
  destruct (decide (h name = [])) as [->|Hne]; [simpl; tauto|].
  rewrite <- (up_after_spec _ name (with_defaults_pos o) _ Hne). unfold up_after.
  destruct (entry_after _ _ _) as [e|] eqn:Hent; [|tauto].
  destruct (streaks _ _ _ _ Hent) as (_ & _ & -> & _). tauto.
Qed.

(** After a round exactly the tracked tunnels have an entry, and every one was
    probed. *)
Theorem Tick_tracks discover rs m name :
  round (trackedNames discover m) rs ->
  let m' := (Tick (trackedNames discover m) rs m).1 in
  (is_Some (getStatus name m') <-> name ∈ trackedNames discover m) /\
  (forall st, getStatus name m' = Some st -> Probed st = true).
Proof.
  intros Hr. cbv zeta. unfold getStatus. rewrite Tick_lookup by done.
  destruct Hr as [_ Hr]. rewrite <- Hr. split.
  - split.
    + rewrite Hr. destruct (decide (name ∈ trackedNames discover m)) as [|Hn]; [done|].
      rewrite result_of_None by (by rewrite Hr). by intros [? ?].
    + intros [[now r] ->]%result_of_Some. simpl. eauto.
  - intros st. destruct (result_of name rs) as [[now r]|]; [|done]. simpl.
    intros [= <-]. by destruct r.
Qed.

Definition flap : list outcome :=
  [ProbeOk 9; ProbeFail "t"; ProbeOk 8; ProbeFail "t"; ProbeFail "t"; ProbeOk 7; ProbeOk 7].

Example hysteresis_example :
  let run k := up_after (with_defaults (mkOptions 0 0 0 0)) "wg0"
                 (map (fun r => (0%Z, r)) (take k flap)) in
  map run (seq 1 7) = [true; true; true; true; false; false; false].
Proof. reflexivity. Qed.
(** A monitor watching one tunnel that failed three rounds after a good one. *)
Definition demo_round (r : outcome) : list arrival := [("wg0", (0%Z, r))].

Lemma demo_is_round r m : round (trackedNames [] (Watch ["wg0"; ""] m)) (demo_round r).
Proof.
  split; [apply NoDup_singleton|].
  intros n. unfold trackedNames, demo_round. simpl. set_solver.
Qed.

Lemma verdict_hysteresis_witness :
  let m0 := Watch ["wg0"; ""] (New (mkOptions 0 0 0 0)) in
  let names := trackedNames [] m0 in
  let m1 := (Tick names (demo_round (ProbeOk 5)) m0).1 in
  let h := extend (demo_round (ProbeOk 5)) (fun _ => []) in
  isUp m1 "wg0" = true <->
  h "wg0" = [] \/
  exists h1 h2, h "wg0" = (h1 ++ h2)%list /\
    turns_up (with_defaults (mkOptions 0 0 0 0)) h1 /\
    stays_up (with_defaults (mkOptions 0 0 0 0)) h2.
Proof.
  cbv zeta. apply (verdict_hysteresis (mkOptions 0 0 0 0)).
  apply reach_tick; [do 2 constructor|apply demo_is_round].
Defined.

Lemma Tick_any_order_witness :
  let rs := [("wg0", (1%Z, ProbeOk 5)); ("wg1", (2%Z, ProbeMissing "interface not found"))] in
  (Tick {["wg0"; "wg1"]} rs (New (mkOptions 0 0 0 0))).1 =
  (Tick {["wg0"; "wg1"]} (List.rev rs) (New (mkOptions 0 0 0 0))).1.
Proof.
  apply Tick_any_order; [|apply perm_swap]. split.
  - by apply (bool_decide_eq_true_1 _); vm_compute.
  - intros n. simpl. set_solver.
Defined.

Lemma Tick_tracks_witness :
  let m := Watch ["wg0"; ""] (New (mkOptions 0 0 0 0)) in
  let m' := (Tick (trackedNames [] m) (demo_round (ProbeFail "timeout")) m).1 in
  (is_Some (getStatus "wg0" m') <-> "wg0" ∈ trackedNames [] m) /\
  (forall st, getStatus "wg0" m' = Some st -> Probed st = true).
Proof. apply Tick_tracks. apply demo_is_round. Defined.

End Monitor.

Module Fallback.

(** Go's interface [Health]. *)
Class Health (H : Type) := up : H -> string -> bool.

#[export] Instance monitor_health : Health Monitor.Monitor := Monitor.isUp.

(** Go's interface [selectorGroup], which sing-box's selector outbound
    implements. *)
Class SelectorGroup (S : Type) := {
  SelectOutbound : string -> S -> option S;   (* [None] for Go's [false] *)
  Now : S -> string;
}.

(** What sing-box documents of it: selecting one of the members succeeds and is
    then the selection; anything else is refused. *)
Class SelectorLaws (S : Type) `{SelectorGroup S} (members : S -> list string) := {
  select_member s tag : In tag (members s) ->
    exists s', SelectOutbound tag s = Some s' /\ Now s' = tag /\ members s' = members s;
  select_other s tag : ~ In tag (members s) -> SelectOutbound tag s = None;
}.

Record FallbackGroup := mkGroup {
  Group : string;
  Primary : string;
  FallbackTag : string;
  Interface : string;
}.

Section supervisor.
Context {S : Type} `{SG : SelectorGroup S} {T : Type} `{HT : Health T}.

(** What the outbound manager holds under a tag. *)
Inductive outbound := Selector (s : S) | Other.

Inductive log :=
  | ReadError (group : string)
  | SwitchError (group want : string)
  | TunnelDown (group iface : string)
  | TunnelBack (group iface : string).

Record Supervisor := mkSupervisor {
  groups : list FallbackGroup;
  Foreign : option (string -> bool);
  outbounds : gmap string outbound;
  active : gmap string bool;
  logs : list log;
}.

Definition NewSupervisor (foreign : option (string -> bool)) (obs : gmap string outbound)
    (gs : list FallbackGroup) : Supervisor :=
  mkSupervisor gs foreign obs ∅ [].

Definition selectorGroup (group : string) (s : Supervisor) : option S :=
  match outbounds s !! group with
  | Some (Selector sel) => Some sel
  | _ => None
  end.

Definition set_selected (group : string) (sel : S) (s : Supervisor) : Supervisor :=
  mkSupervisor (groups s) (Foreign s) (<[group := Selector sel]> (outbounds s)) (active s) (logs s).

Definition add_log (l : log) (s : Supervisor) : Supervisor :=
  mkSupervisor (groups s) (Foreign s) (outbounds s) (active s) (logs s ++ [l])%list.

(** [iface + "\x00" + group] *)
Definition key (iface group : string) : string := iface ++ String "000" group.

Definition setActive (iface group : string) (fallback : bool) (s : Supervisor) : Supervisor :=
  mkSupervisor (groups s) (Foreign s) (outbounds s) (<[key iface group := fallback]> (active s))
    (logs s).

Definition report_switch (g : FallbackGroup) (want : string) (s : Supervisor) : Supervisor :=
  if match Foreign s with Some f => f (Interface g) | None => false end then s
  else if String.eqb want (FallbackTag g) then add_log (TunnelDown (Group g) (Interface g)) s
  else add_log (TunnelBack (Group g) (Interface g)) s.

Definition wanted (h : T) (g : FallbackGroup) : string :=
  if up h (Interface g) then Primary g else FallbackTag g.

(** The body of [Reconcile]'s loop, with the health read at its turn. *)
Definition reconcile_group (h : T) (g : FallbackGroup) (s : Supervisor) : Supervisor :=
  let want := wanted h g in
  let done_ := setActive (Interface g) (Group g) (String.eqb want (FallbackTag g)) in
  match selectorGroup (Group g) s with
  | None => add_log (ReadError (Group g)) s
  | Some sel =>
      if String.eqb (Now sel) want then done_ s
      else match SelectOutbound want sel with
           | None => add_log (SwitchError (Group g) want) s
           | Some sel' => done_ (report_switch g want (set_selected (Group g) sel' s))
           end
  end.

(** [hs k] is what the health says when the loop reaches its [k]-th group. *)
Fixpoint reconcile_from (hs : nat -> T) (k : nat) (gs : list FallbackGroup) (s : Supervisor) :
  Supervisor :=
  match gs with
  | [] => s
  | g :: gs => reconcile_from hs (k + 1) gs (reconcile_group (hs k) g s)
  end.

Definition Reconcile (hs : nat -> T) (s : Supervisor) : Supervisor :=
  reconcile_from hs 0 (groups s) s.

Definition ActiveByInterface (s : Supervisor) : gset string :=
  list_to_set (map Interface (List.filter (fun g =>
    default false (active s !! key (Interface g) (Group g))) (groups s))).

(** ** Properties *)

Context (members : S -> list string) `{!SelectorLaws S members}.

(** A group that can be switched: its tag names a selector with both members. *)
Definition switchable (g : FallbackGroup) (s : Supervisor) : Prop :=
  exists sel, selectorGroup (Group g) s = Some sel /\
    In (Primary g) (members sel) /\ In (FallbackTag g) (members sel).

Definition no_nul (x : string) : Prop := str_forallb (fun c => negb (Ascii.eqb c "000")) x = true.

(** What one pass makes of a group. *)
Definition settled (h : T) (g : FallbackGroup) (s : Supervisor) : Prop :=
  (exists sel, selectorGroup (Group g) s = Some sel /\ Now sel = wanted h g) /\
  active s !! key (Interface g) (Group g) = Some (String.eqb (wanted h g) (FallbackTag g)).

Lemma report_switch_frame g want s :
  outbounds (report_switch g want s) = outbounds s /\ active (report_switch g want s) = active s /\
  groups (report_switch g want s) = groups s.
Proof. unfold report_switch. by repeat case_match. Qed.

Lemma reconcile_group_settles h g s : switchable g s -> settled h g (reconcile_group h g s).
Proof.
  intros (sel & Hsel & Hp & Hf). unfold reconcile_group. rewrite Hsel.
  destruct (String.eqb_spec (Now sel) (wanted h g)) as [Heq|Hne].
  - split; [by exists sel|]. apply lookup_insert_eq.
  - destruct (select_member sel (wanted h g)) as (sel' & -> & Hnow & _).
    { unfold wanted. by destruct (up h (Interface g)). }
    split; [|apply lookup_insert_eq]. exists sel'. split; [|done].
    unfold selectorGroup; simpl. rewrite (proj1 (report_switch_frame _ _ _)); simpl.
    by rewrite lookup_insert_eq.
Qed.

Lemma key_inj i1 g1 i2 g2 :
  no_nul i1 -> no_nul i2 -> key i1 g1 = key i2 g2 -> g1 = g2.
Proof.
  unfold no_nul, key. intros H1 H2 He.
  assert (forall i g, str_forallb (fun c => negb (Ascii.eqb c "000")) i = true ->
    span (fun c => negb (Ascii.eqb c "000")) (i ++ String "000" g) = (i, String "000" g)) as Hs
    by (intros i g Hi; by apply (span_app _ i (String "000" g))).
  pose proof (Hs i1 g1 H1) as E1. rewrite He, (Hs i2 g2 H2) in E1. congruence.
Qed.

(** A pass over another group leaves this one alone. *)
Lemma reconcile_group_frame h g g' s :
  Group g <> Group g' -> no_nul (Interface g) -> no_nul (Interface g') ->
  selectorGroup (Group g) (reconcile_group h g' s) = selectorGroup (Group g) s /\
  active (reconcile_group h g' s) !! key (Interface g) (Group g) =
    active s !! key (Interface g) (Group g).
Proof.
  intros Hne Hi Hi'. assert (key (Interface g') (Group g') <> key (Interface g) (Group g)) as Hk.
  { intros E. apply Hne. symmetry. by apply (key_inj _ _ _ _ Hi' Hi). }
  unfold reconcile_group, selectorGroup.
  destruct (outbounds s !! Group g') as [[sel|]|]; try done.
  destruct (String.eqb _ _); [by simpl; rewrite lookup_insert_ne|].
  destruct (SelectOutbound _ sel) as [sel'|]; [|done]. simpl.
  destruct (report_switch_frame g' (wanted h g') (set_selected (Group g') sel' s)) as (-> & -> & _).
  simpl. by rewrite !lookup_insert_ne.
Qed.

Lemma reconcile_from_frame hs k gs g s :
  ~ In (Group g) (map Group gs) -> no_nul (Interface g) ->
  Forall (fun g => no_nul (Interface g)) gs ->
  selectorGroup (Group g) (reconcile_from hs k gs s) = selectorGroup (Group g) s /\
  active (reconcile_from hs k gs s) !! key (Interface g) (Group g) =
    active s !! key (Interface g) (Group g).
Proof.
  intros Hni Hi Hall. revert k s. induction Hall as [|g' gs Hi' _ IH]; intros k s; [done|].
  simpl in *. destruct (IH ltac:(tauto) (k + 1) (reconcile_group (hs k) g' s)) as [-> ->].
  apply reconcile_group_frame; [|done..]. intros E. apply Hni. by left.
Qed.

Lemma reconcile_from_settles hs k gs s i g :
  NoDup (map Group gs) -> Forall (fun g => no_nul (Interface g)) gs ->
  gs !! i = Some g -> switchable g s ->
  settled (hs (k + i)%nat) g (reconcile_from hs k gs s).
Proof.
  intros Hnd Hall. revert k s i. induction Hall as [|g' gs Hi' Hall IH]; intros k s i Hg Hsw; [done|].
  simpl in Hnd. apply NoDup_cons in Hnd as [Hni Hnd]. rewrite list_elem_of_In in Hni.
  destruct i as [|i]; simpl in *.
  - simplify_eq. rewrite Nat.add_0_r.
    destruct (reconcile_from_frame hs (k + 1) gs g (reconcile_group (hs k) g s) Hni Hi' Hall)
      as [Hs Ha].
    destruct (reconcile_group_settles (hs k) g s Hsw) as [Hsel Hact].
    unfold settled. by rewrite Hs, Ha.
  - replace (k + Datatypes.S i)%nat with (k + 1 + i)%nat by lia. apply IH; [done..|].
    unfold switchable. destruct (reconcile_group_frame (hs k) g g' s) as [-> _]; [| |done|done].
    + intros E. apply Hni. rewrite <- E. apply in_map. apply list_elem_of_In.
      by eapply list_elem_of_lookup_2.
    + by apply (Forall_lookup_1 _ _ _ _ Hall Hg).
Qed.

(** One pass points every group that can be switched at its tunnel when the
    health said it is up at the group's turn, at the fallback otherwise, and
    records which: a broken group does not stop the others. *)
Theorem Reconcile_settles hs s i g :
  NoDup (map Group (groups s)) -> Forall (fun g => no_nul (Interface g)) (groups s) ->
  groups s !! i = Some g -> switchable g s ->
  settled (hs i) g (Reconcile hs s).
Proof. intros. by apply (reconcile_from_settles hs 0). Qed.

Lemma reconcile_group_groups h g s : groups (reconcile_group h g s) = groups s.
Proof.
  unfold reconcile_group. repeat case_match; try done. simpl.
  by rewrite (proj2 (proj2 (report_switch_frame _ _ _))).
Qed.

Lemma reconcile_from_groups hs k gs s : groups (reconcile_from hs k gs s) = groups s.
Proof.
  revert k s. induction gs as [|g gs IH]; intros k s; [done|]. simpl.
  by rewrite IH, reconcile_group_groups.
Qed.

(** After a pass over switchable groups, the tunnels reported as running on the
    fallback are exactly those of the groups whose tunnel was found down. *)
Theorem ActiveByInterface_spec hs s iface :
  NoDup (map Group (groups s)) ->
  Forall (fun g => no_nul (Interface g) /\ Primary g <> FallbackTag g) (groups s) ->
  (forall g, In g (groups s) -> switchable g s) ->
  iface ∈ ActiveByInterface (Reconcile hs s) <->
  exists i g, groups s !! i = Some g /\ Interface g = iface /\ up (hs i) iface = false.
Proof.
  intros Hnd Hall Hsw.
  assert (forall i g, groups s !! i = Some g ->
    active (Reconcile hs s) !! key (Interface g) (Group g) = Some (negb (up (hs i) (Interface g))))
    as Hact.
  { intros i g Hg. pose proof (Forall_lookup_1 _ _ _ _ Hall Hg) as [_ Hpf].
    destruct (reconcile_from_settles hs 0 (groups s) s i g) as [_ Hset]; [done| |done| |].
    - eapply Forall_impl; [exact Hall|]. by intros ? [? _].
    - apply Hsw. apply list_elem_of_In. by eapply list_elem_of_lookup_2.
    - unfold Reconcile. rewrite Hset. unfold wanted. simpl. f_equal.
      destruct (up (hs i) (Interface g)); simpl; [by apply String.eqb_neq|apply String.eqb_refl]. }
  assert (groups (Reconcile hs s) = groups s) as Hgr by apply reconcile_from_groups.
  unfold ActiveByInterface. rewrite Hgr, elem_of_list_to_set, list_elem_of_In, in_map_iff. split.
  - intros (g & <- & [Hin Hd]%filter_In). apply list_elem_of_In, list_elem_of_lookup in Hin as [i Hi].
    exists i, g. split_and!; [done..|]. rewrite (Hact i g Hi) in Hd. by apply negb_true_iff in Hd.
  - intros (i & g & Hg & <- & Hup). exists g. split; [done|]. apply filter_In. split.
    + apply list_elem_of_In. by eapply list_elem_of_lookup_2.
    + by rewrite (Hact i g Hg), Hup.
Qed.
End supervisor.

(** A selector as sing-box keeps it: its members and the one selected. *)
Record list_selector := mkSel { sel_members : list string; sel_now : string }.

#[export] Instance list_selector_group : SelectorGroup list_selector := {
  SelectOutbound tag s :=
    if str_mem tag (sel_members s) then Some (mkSel (sel_members s) tag) else None;
  Now := sel_now;
}.

#[export] Instance list_selector_laws : SelectorLaws list_selector sel_members.
Proof.
  split.
  - intros s tag Hin%str_mem_spec. simpl. rewrite Hin. eauto.
  - intros s tag Hni. simpl. destruct (str_mem tag (sel_members s)) eqn:E; [|done].
    by apply str_mem_spec in E.
Qed.

Definition demo_groups : list FallbackGroup :=
  [mkGroup "germany" "germany~wg" "germany~direct" "wg0";
   mkGroup "finland" "finland~wg" "finland~direct" "wg1"].

Definition demo_supervisor : Supervisor (S := list_selector) :=
  NewSupervisor None
    (<["germany" := Selector (mkSel ["germany~wg"; "germany~direct"] "germany~wg")]>
     (<["finland" := Selector (mkSel ["finland~wg"; "finland~direct"] "finland~wg")]> ∅))
    demo_groups.

(** A health that finds wg0 down. *)
#[local] Instance fixed_health : Health (list string) := fun down name => negb (str_mem name down).

Lemma demo_switchable g : In g demo_groups -> switchable sel_members g demo_supervisor.
Proof.
  intros [<-|[<-|[]]]; (eexists; split; [vm_compute; reflexivity|]); simpl; tauto.
Qed.

Lemma Reconcile_settles_witness :
  settled ["wg0"] (mkGroup "germany" "germany~wg" "germany~direct" "wg0")
    (Reconcile (fun _ => ["wg0"]) demo_supervisor).
Proof.
  apply (Reconcile_settles sel_members (fun _ => ["wg0"]) demo_supervisor 0).
  - by apply (bool_decide_eq_true_1 _); vm_compute.
  - by repeat constructor.
  - reflexivity.
  - apply demo_switchable. by left.
Defined.

Lemma ActiveByInterface_spec_witness :
  "wg0" ∈ ActiveByInterface (Reconcile (fun _ => ["wg0"]) demo_supervisor) <->
  exists i g, groups demo_supervisor !! i = Some g /\ Interface g = "wg0" /\
    up ["wg0"] "wg0" = false.
Proof.
  apply (ActiveByInterface_spec sel_members (fun _ => ["wg0"])).
  - by apply (bool_decide_eq_true_1 _); vm_compute.
  - repeat constructor; done.
  - apply demo_switchable.
Defined.
End Fallback.
