(* ===== verification/Traffic.v ===== *)
(** * Traffic: per-user byte counters and open connections

    [Usage] is [internal/nodecore/traffic/traffic.go]: counters that the
    connections of a user add to and a drain empties, at the granularity of its
    atomic operations. [Presence] is [presence.go], the open-connection counts by
    user and port with their generations. [ConnGroup] is [conngroup.go], the set
    of connections a running core still holds. *)

From S2P Require Import Prelude GoStrings.

#[local] Open Scope Z_scope.

Lemma int64_add_l a b : int64 (int64 a + b) = int64 (a + b).
Proof.
  unfold int64, wrap. f_equal.
  replace ((a + 2 ^ (64 - 1)) mod 2 ^ 64 - 2 ^ (64 - 1) + b + 2 ^ (64 - 1))
    with ((a + 2 ^ (64 - 1)) mod 2 ^ 64 + b) by lia.
  rewrite Zplus_mod_idemp_l. f_equal. lia.
Qed.

Lemma int64_add_r a b : int64 (a + int64 b) = int64 (a + b).
Proof. by rewrite Z.add_comm, int64_add_l, Z.add_comm. Qed.

Lemma int64_0 : int64 0 = 0.
Proof. reflexivity. Qed.

Module Usage.

Record userCounter := mkCounter { up : Z; down : Z }.
Record Usage := mkUsage { Up : Z; Down : Z }.

(** The counters by user; an entry is never removed. *)
Abbreviation Manager := (gmap string userCounter).

Definition NewManager : Manager := ∅.

(** The atomic operations the code is made of. *)
Inductive action :=
  | LoadOrStore (user : string)
  | AddUp (user : string) (n : Z)
  | AddDown (user : string) (n : Z)
  | SwapUp (user : string)
  | SwapDown (user : string).

(** The effect of an atomic operation, and what a swap read. *)
Definition exec (a : action) (m : Manager) : Manager * Z :=
  match a with
  | LoadOrStore u =>
      (match m !! u with Some _ => m | None => <[u := mkCounter 0 0]> m end, 0)
  | AddUp u n => (alter (fun c => mkCounter (int64 (up c + n)) (down c)) u m, 0)
  | AddDown u n => (alter (fun c => mkCounter (up c) (int64 (down c + n))) u m, 0)
  | SwapUp u => (alter (fun c => mkCounter 0 (down c)) u m, default 0 (up <$> m !! u))
  | SwapDown u => (alter (fun c => mkCounter (up c) 0) u m, default 0 (down <$> m !! u))
  end.

(** The program of [Add]. *)
Definition add_prog (user : string) (u d : Z) : list action :=
  if (u =? 0) && (d =? 0) then []
  else (LoadOrStore user :: (if negb (u =? 0) then [AddUp user u] else [])
        ++ (if negb (d =? 0) then [AddDown user d] else []))%list.

(** The program of [Drain] when its [Range] visits [keys]. *)
Definition drain_prog (keys : list string) : list action :=
  flat_map (fun k => [SwapUp k; SwapDown k]) keys.

(** [Add] and [Drain] when nothing runs in between. *)
Definition Add (user : string) (u d : Z) (m : Manager) : Manager :=
  foldl (fun m a => (exec a m).1) m (add_prog user u d).

Definition Drain (m : Manager) : Manager * gmap string Usage :=
  ((fun _ => mkCounter 0 0) <$> m,
   omap (fun c => if (negb (up c =? 0) || negb (down c =? 0))%bool
                  then Some (mkUsage (up c) (down c)) else None) m).

(** What the swaps of a run read, and the interleaved runs of a pool of
    goroutines: any goroutine may take the next step. *)
Definition event : Type := action * Z.

Inductive steps : list (list action) -> Manager -> list event -> list (list action) -> Manager -> Prop :=
  | steps_done ps m : steps ps m [] ps m
  | steps_go ps1 a p ps2 m evs ps' m' :
      steps (ps1 ++ p :: ps2) (exec a m).1 evs ps' m' ->
      steps (ps1 ++ (a :: p) :: ps2) m ((a, (exec a m).2) :: evs) ps' m'.

Definition is_swap_up (user : string) (a : action) : bool :=
  match a with SwapUp u => String.eqb u user | _ => false end.

Definition added_up (user : string) (a : action) : Z :=
  match a with AddUp u n => if String.eqb u user then n else 0 | _ => 0 end.

(** The upload bytes added for a user along a run, those reported by drains, and
    those still in the counter. *)
Definition total_added (user : string) (evs : list event) : Z :=
  foldr (fun e acc => added_up user e.1 + acc) 0 evs.
Definition total_reported (user : string) (evs : list event) : Z :=
  foldr (fun e acc => (if is_swap_up user e.1 then e.2 else 0) + acc) 0 evs.
Definition counter_up (user : string) (m : Manager) : Z := default 0 (up <$> m !! user).

(** A goroutine adds to a counter only after it has loaded or stored it. *)
Fixpoint ready (have : gset string) (p : list action) : Prop :=
  match p with
  | [] => True
  | LoadOrStore u :: p => ready ({[u]} ∪ have) p
  | AddUp u _ :: p | AddDown u _ :: p => u ∈ have /\ ready have p
  | _ :: p => ready have p
  end.

Lemma ready_mono have have' p : have ⊆ have' -> ready have p -> ready have' p.
Proof.
  revert have have'. induction p as [|[] p IH]; simpl; intros have have' Hs; try done.
  - apply IH. set_solver.
  - intros [? ?]. split; [set_solver|by eapply IH].
  - intros [? ?]. split; [set_solver|by eapply IH].
  - by apply IH.
  - by apply IH.
Qed.

Lemma add_prog_ready have user u d : ready have (add_prog user u d).
Proof.
  unfold add_prog. destruct (u =? 0), (d =? 0); simpl; try done;
    repeat (split; [set_solver|]); done.
Qed.

Lemma drain_prog_ready have keys : ready have (drain_prog keys).
Proof. induction keys as [|k keys IH]; simpl; done. Qed.

Lemma exec_dom a m : dom m ⊆ dom (exec a m).1.
Proof.
  destruct a as [u| | | |]; simpl; rewrite ?dom_alter_L; try done. case_match; set_solver.
Qed.

Lemma exec_ready a p m : ready (dom m) (a :: p) -> ready (dom (exec a m).1) p.
Proof.
  intros Hr. destruct a as [u|u n|u n|u|u]; simpl in *; rewrite ?dom_alter_L; try tauto.
  eapply ready_mono; [|exact Hr]. case_match; [|set_solver].
  assert (u ∈ dom m) by (apply elem_of_dom; eauto).
  set_solver.
Qed.

(** One atomic operation: the bytes it adds are in the counter or in what it
    read. *)
Lemma exec_conserves user a m p :
  ready (dom m) (a :: p) ->
  int64 (counter_up user (exec a m).1 + (if is_swap_up user a then (exec a m).2 else 0)) =
  int64 (counter_up user m + added_up user a).
Proof.
  intros Hr. unfold counter_up. destruct a as [u|u n|u n|u|u]; simpl.
  - destruct (m !! u) as [c|] eqn:Hu; [done|].
    destruct (decide (u = user)) as [->|]; [by rewrite lookup_insert_eq, Hu|].
    by rewrite lookup_insert_ne.
  - destruct Hr as [[c Hc]%elem_of_dom _]. destruct (String.eqb_spec u user) as [->|].
    + rewrite lookup_alter_eq, Hc; simpl. by rewrite int64_add_l, Z.add_0_r.
    + by rewrite lookup_alter_ne.
  - destruct (decide (u = user)) as [->|]; [|by rewrite lookup_alter_ne].
    rewrite lookup_alter_eq. by destruct (m !! user).
  - destruct (String.eqb_spec u user) as [->|].
    + rewrite lookup_alter_eq. destruct (m !! user); simpl; f_equal; lia.
    + by rewrite lookup_alter_ne.
  - destruct (decide (u = user)) as [->|]; [|by rewrite lookup_alter_ne].
    rewrite lookup_alter_eq. by destruct (m !! user).
Qed.

Lemma steps_conserve user ps m evs ps' m' :
  Forall (ready (dom m)) ps -> steps ps m evs ps' m' ->
  int64 (counter_up user m' + total_reported user evs) =
  int64 (counter_up user m + total_added user evs).
Proof.
  intros Hall Hst. induction Hst as [ps m|ps1 a p ps2 m evs ps' m' Hst IH]; [done|].
  apply Forall_app in Hall as [H1 [Hp H2]%Forall_cons]. simpl.
  set (A := added_up user a). set (R := if is_swap_up user a then (exec a m).2 else 0).
  assert (int64 (counter_up user m' + total_reported user evs) =
          int64 (counter_up user (exec a m).1 + total_added user evs)) as IH'.
  { apply IH. apply Forall_app. split; [|constructor].
    - eapply Forall_impl; [exact H1|]. intros q. apply ready_mono, exec_dom.
    - by apply exec_ready.
    - eapply Forall_impl; [exact H2|]. intros q. apply ready_mono, exec_dom. }
  pose proof (exec_conserves user a m p Hp) as He. fold A R in He.
  transitivity (int64 (R + int64 (counter_up user m' + total_reported user evs))).
  { rewrite int64_add_r. f_equal. lia. }
  rewrite IH', int64_add_r.
  transitivity (int64 (total_added user evs + int64 (counter_up user (exec a m).1 + R))).
  { rewrite int64_add_r. f_equal. lia. }
  rewrite He, int64_add_r. f_equal. lia.
Qed.

(** The goroutines of a node: connections adding bytes and drains, in any
    number. *)
Definition is_goroutine (p : list action) : Prop :=
  (exists user u d, p = add_prog user u d) \/ (exists keys, p = drain_prog keys).


(** ** Without interleaving *)

Definition sum_for (user : string) (f : Z * Z -> Z) (adds : list (string * (Z * Z))) : Z :=
  foldr (fun a acc => (if String.eqb a.1 user then f a.2 else 0) + acc) 0 adds.

Definition add_all (adds : list (string * (Z * Z))) (m : Manager) : Manager :=
  foldl (fun m '(user, (u, d)) => Add user u d m) m adds.

Definition counter (user : string) (m : Manager) : Z * Z :=
  match m !! user with Some c => (up c, down c) | None => (0, 0) end.

Lemma Add_counter user u d user' m :
  fits 64 (counter user' m).1 -> fits 64 (counter user' m).2 ->
  counter user' (Add user u d m) =
    (int64 ((counter user' m).1 + if String.eqb user user' then u else 0),
     int64 ((counter user' m).2 + if String.eqb user user' then d else 0)).
Proof.
  intros H1 H2. unfold Add, add_prog, counter in *.
  assert (forall z, fits 64 z -> int64 z = z) as Hid by (intros; by apply wrap_id).
  destruct (String.eqb_spec user user') as [->|Hne].
  - assert (int64 (0 + 0) = 0) as Hz by done.
    destruct (m !! user') as [c|] eqn:Hc; simpl in H1, H2.
    + assert (int64 (up c + 0) = up c /\ int64 (down c + 0) = down c) as [E1 E2]
        by (rewrite !Z.add_0_r; auto).
      destruct (Z.eqb_spec u 0) as [->|], (Z.eqb_spec d 0) as [->|]; simpl; rewrite Hc; simpl;
        rewrite ?lookup_alter_eq, ?Hc, ?E1, ?E2; done.
    + destruct (Z.eqb_spec u 0) as [->|], (Z.eqb_spec d 0) as [->|]; simpl; rewrite Hc; simpl;
        rewrite ?lookup_alter_eq, ?lookup_insert_eq, ?Hc; done.
  - rewrite !Z.add_0_r, !Hid by done.
    destruct (u =? 0), (d =? 0); simpl; destruct (m !! user); simpl;
      rewrite ?lookup_alter_ne, ?lookup_insert_ne by done; by destruct (m !! user').
Qed.

Lemma add_all_counter user adds m :
  fits 64 (counter user m).1 -> fits 64 (counter user m).2 ->
  counter user (add_all adds m) =
    (int64 ((counter user m).1 + sum_for user fst adds),
     int64 ((counter user m).2 + sum_for user snd adds)).
Proof.
  revert m. induction adds as [|[u' [u d]] adds IH]; intros m H1 H2; simpl.
  { rewrite !Z.add_0_r. unfold int64. rewrite !wrap_id by done. by destruct (counter user m). }
  change (add_all ((u', (u, d)) :: adds) m) with (add_all adds (Add u' u d m)).
  rewrite IH; rewrite Add_counter by done; cbn [fst snd];
    try (by apply wrap_fits). rewrite !int64_add_l. f_equal; f_equal; lia.
Qed.

(** A drain after any sequence of adds reports, for each user, the sum of its
    bytes in each direction (as 64-bit integers), omits the users with none, and
    leaves every counter empty. *)
Theorem Drain_exact adds user :
  let m := add_all adds NewManager in
  let u := int64 (sum_for user fst adds) in
  let d := int64 (sum_for user snd adds) in
  (Drain m).2 !! user = (if (u =? 0) && (d =? 0) then None else Some (mkUsage u d)) /\
  counter user (Drain m).1 = (0, 0).
Proof.
  cbv zeta. pose proof (add_all_counter user adds NewManager) as Hc.
  assert (counter user NewManager = (0, 0)) as H0 by done. rewrite H0 in Hc.
  specialize (Hc ltac:(done) ltac:(done)). cbn [fst snd] in Hc. rewrite !Z.add_0_l in Hc.
  unfold Drain. set (m := add_all adds NewManager) in *. clearbody m. unfold counter in *.
  cbn [fst snd]. rewrite lookup_omap, lookup_fmap. destruct (m !! user) as [c|]; simpl.
  - simplify_eq. split; [|done]. rewrite <- H, <- H1.
    by destruct (up c =? 0), (down c =? 0).
  - injection Hc as <- <-. done.
Qed.

End Usage.

Module Presence.

(** [presenceSet]: the open connections by user and by listening port, and in
    all. A zero count and an absent key are the same to every reader. *)
Record presenceSet := mkSet {
  users : gmap string Z;
  ports : gmap Z Z;
  total : Z;
}.

Definition empty_set : presenceSet := mkSet ∅ ∅ 0.

(** What [OpenConn] captures in the function it returns, and whether that has run
    already. *)
Record handle := mkHandle { h_set : nat; h_user : string; h_port : Z; h_closed : bool }.

(** The sets ever allocated, the one in use ([nil] until the first access), and
    the handles given out. *)
Record Manager := mkManager {
  sets : list presenceSet;
  presence : option nat;
  handles : list handle;
}.

Definition NewManager : Manager := mkManager [] None [].

(** The index of the set in use, allocated by the first caller. *)
Definition currentPresence (m : Manager) : Manager * nat :=
  match presence m with
  | Some i => (m, i)
  | None => (mkManager (sets m ++ [empty_set]) (Some (length (sets m))) (handles m),
             length (sets m))
  end.

Definition bump {K} `{Countable K} (k : K) (n : Z) (m : gmap K Z) : gmap K Z :=
  <[k := default 0 (m !! k) + n]> m.

(** [uc.Add(n); if pc != nil { pc.Add(n) }; set.total.Add(n)] *)
Definition count (user : string) (port n : Z) (s : presenceSet) : presenceSet :=
  mkSet (bump user n (users s)) (if port =? 0 then ports s else bump port n (ports s))
        (total s + n).

Definition OpenConn (user : string) (port : Z) (m : Manager) : Manager :=
  let '(m, i) := currentPresence m in
  mkManager (alter (count user port 1) i (sets m)) (presence m)
            (handles m ++ [mkHandle i user port false]).

(** The function returned for the [h]-th connection. *)
Definition closeFn (h : nat) (m : Manager) : Manager :=
  match handles m !! h with
  | Some c =>
      if h_closed c then m
      else mkManager (alter (count (h_user c) (h_port c) (-1)) (h_set c) (sets m)) (presence m)
                     (<[h := mkHandle (h_set c) (h_user c) (h_port c) true]> (handles m))
  | None => m
  end.

Definition ResetPresence (m : Manager) : Manager :=
  mkManager (sets m ++ [empty_set]) (Some (length (sets m))) (handles m).

(** [Presence]: the counts that are positive; the code also sorts the users. *)
Record PresenceSnapshot := mkSnapshot {
  Total : Z; Ports : gmap Z Z; Users : gmap string Z }.

Definition positive {K} `{Countable K} (m : gmap K Z) : gmap K Z :=
  filter (fun '(_, n) => 0 < n) m.

Definition snapshot (s : presenceSet) : PresenceSnapshot :=
  mkSnapshot (Z.max (total s) 0) (positive (ports s)) (positive (users s)).

Definition Presence (m : Manager) : Manager * PresenceSnapshot :=
  let '(m, i) := currentPresence m in (m, snapshot (default empty_set (sets m !! i))).

(** ** The counts are the open connections *)

Definition is_open (i : nat) (c : handle) : bool := bool_decide (h_set c = i) && negb (h_closed c).

Definition open_where (f : handle -> bool) (i : nat) (hs : list handle) : Z :=
  Z.of_nat (length (List.filter (fun c => is_open i c && f c)%bool hs)).

Definition of_user (u : string) (c : handle) : bool := String.eqb (h_user c) u.
Definition of_port (p : Z) (c : handle) : bool := (h_port c =? p) && negb (p =? 0).

Record set_ok (hs : list handle) (i : nat) (s : presenceSet) : Prop := {
  ok_users : forall u, default 0 (users s !! u) = open_where (of_user u) i hs;
  ok_ports : forall p, default 0 (ports s !! p) = open_where (of_port p) i hs;
  ok_total : total s = open_where (fun _ => true) i hs;
}.

Record inv (m : Manager) : Prop := {
  inv_sets : forall i s, sets m !! i = Some s -> set_ok (handles m) i s;
  inv_handles : forall c, In c (handles m) -> (h_set c < length (sets m))%nat;
  inv_presence : forall i, presence m = Some i -> (i < length (sets m))%nat;
}.

Lemma open_where_snoc f i hs c :
  open_where f i (hs ++ [c]) = open_where f i hs + (if is_open i c && f c then 1 else 0).
Proof.
  unfold open_where. rewrite List.filter_app, length_app. simpl.
  destruct (is_open i c && f c); simpl; lia.
Qed.

Lemma open_where_insert f i hs h c c' :
  hs !! h = Some c ->
  open_where f i (<[h := c']> hs) =
    open_where f i hs - (if is_open i c && f c then 1 else 0)
                      + (if is_open i c' && f c' then 1 else 0).
Proof.
  intros Hh. pose proof (lookup_lt_Some _ _ _ Hh) as Hlt.
  rewrite insert_take_drop by done. rewrite <- (take_drop_middle hs h c Hh) at 3.
  unfold open_where. rewrite !List.filter_app, !length_app. simpl.
  destruct (is_open i c && f c), (is_open i c' && f c'); simpl; lia.
Qed.

Lemma bump_lookup {K} `{Countable K} (k k' : K) n (m : gmap K Z) :
  default 0 (bump k n m !! k') = default 0 (m !! k') + (if decide (k = k') then n else 0).
Proof.
  unfold bump. case_decide as Hk; [subst; by rewrite lookup_insert_eq|].
  rewrite lookup_insert_ne by done. lia.
Qed.

(** Counting a connection by [n] changes each count by [n] where the connection
    belongs. *)
Lemma count_ok hs hs' i s user port n :
  set_ok hs i s ->
  (forall f, open_where f i hs' =
             open_where f i hs + (if f (mkHandle i user port false) then n else 0)) ->
  set_ok hs' i (count user port n s).
Proof.
  intros [Hu Hp Ht] Hf. split; simpl.
  - intros u. rewrite bump_lookup, Hu, Hf. unfold of_user; simpl.
    case_decide as E; [subst; by rewrite String.eqb_refl|].
    by apply String.eqb_neq in E as ->.
  - intros p. rewrite Hf, <- Hp. unfold of_port; simpl.
    destruct (Z.eqb_spec port 0) as [->|Hne].
    + destruct (Z.eqb_spec 0 p) as [<-|]; simpl; lia.
    + rewrite bump_lookup. case_decide as E.
      * subst. rewrite Z.eqb_refl. by apply Z.eqb_neq in Hne as ->.
      * apply Z.eqb_neq in E as ->. done.
  - by rewrite Hf, Ht.
Qed.

Lemma set_ok_same hs hs' i s :
  set_ok hs i s -> (forall f, open_where f i hs' = open_where f i hs) -> set_ok hs' i s.
Proof. intros [Hu Hp Ht] Hf. split; intros; by rewrite Hf. Qed.

Lemma empty_ok hs i : (forall c, In c hs -> h_set c <> i) -> set_ok hs i empty_set.
Proof.
  intros Hne. assert (forall f, open_where f i hs = 0) as Hz.
  { intros f. unfold open_where. induction hs as [|c hs IH]; [done|]. simpl.
    unfold is_open at 1. rewrite bool_decide_eq_false_2 by (apply Hne; by left). simpl.
    apply IH. intros c' Hc'. apply Hne. by right. }
  split; simpl; intros; by rewrite Hz, ?lookup_empty.
Qed.

(** Allocating a fresh set, for a reset or a first access. *)
Lemma fresh_inv m :
  inv m -> inv (mkManager (sets m ++ [empty_set]) (Some (length (sets m))) (handles m)).
Proof.
  intros [Hs Hh Hp]. split; simpl.
  - intros i s [Hi|[Hge Hi]]%lookup_app_Some; [by apply Hs|].
    apply list_lookup_singleton_Some in Hi as [Hi <-]. apply empty_ok.
    intros c Hc. specialize (Hh c Hc). lia.
  - intros c Hc. specialize (Hh c Hc). rewrite length_app. simpl. lia.
  - intros i [= <-]. rewrite length_app. simpl. lia.
Qed.

Lemma current_inv m :
  inv m -> inv (currentPresence m).1 /\
  presence (currentPresence m).1 = Some (currentPresence m).2 /\
  handles (currentPresence m).1 = handles m.
Proof.
  intros Hinv. unfold currentPresence. destruct (presence m) as [i|] eqn:Hp; simpl; [done|].
  split_and!; [by apply fresh_inv|done..].
Qed.

(** A change of the handles and of the set they belong to. *)
Lemma update_inv m i hs' f :
  inv m -> (i < length (sets m))%nat ->
  (forall c, In c hs' -> (h_set c < length (sets m))%nat) ->
  (forall s, set_ok (handles m) i s -> set_ok hs' i (f s)) ->
  (forall j g, j <> i -> open_where g j hs' = open_where g j (handles m)) ->
  inv (mkManager (alter f i (sets m)) (presence m) hs').
Proof.
  intros [Hs Hh Hp] Hi Hh' Hf Hg. split; simpl; rewrite ?length_alter; try done.
  intros j s. destruct (decide (j = i)) as [->|Hne].
  - rewrite list_lookup_alter_eq. intros (s0 & Hs0 & ->)%fmap_Some_1. by apply Hf, Hs.
  - rewrite list_lookup_alter_ne by done. intros Hj. eapply set_ok_same; [by apply Hs|].
    intros g. by apply Hg.
Qed.

Lemma OpenConn_inv user port m : inv m -> inv (OpenConn user port m).
Proof.
  intros Hinv. unfold OpenConn. destruct (current_inv m Hinv) as (Hinv' & Hp & Hh).
  destruct (currentPresence m) as [m' i]. simpl in *.
  pose proof (inv_presence m' Hinv' i Hp) as Hi.
  apply update_inv; [done..| | |].
  - intros c [Hc|[<-|[]]]%in_app_or; [by apply (inv_handles m' Hinv')|done].
  - intros s Hs. eapply count_ok; [done|]. intros f. rewrite open_where_snoc.
    unfold is_open at 1; simpl. by rewrite bool_decide_eq_true_2.
  - intros j g Hne. rewrite open_where_snoc. unfold is_open at 1; simpl.
    rewrite bool_decide_eq_false_2 by done. simpl. lia.
Qed.

Lemma closeFn_inv h m : inv m -> inv (closeFn h m).
Proof.
  intros Hinv. unfold closeFn. destruct (handles m !! h) as [c|] eqn:Hh; [|done].
  destruct (h_closed c) eqn:Hc; [done|].
  assert (In c (handles m)) as Hin by (apply list_elem_of_In; by eapply list_elem_of_lookup_2).
  apply update_inv; [done|by apply (inv_handles m Hinv)| | |].
  - intros c' Hc'%list_elem_of_In%list_elem_of_lookup_1. destruct Hc' as [j Hj].
    apply list_lookup_insert_Some in Hj as [(_ & <- & _)|[_ Hj]]; simpl.
    + by apply (inv_handles m Hinv).
    + apply (inv_handles m Hinv). apply list_elem_of_In. by eapply list_elem_of_lookup_2.
  - intros s Hs. eapply count_ok; [done|]. intros f.
    rewrite (open_where_insert _ _ _ _ c) by done. unfold is_open; simpl.
    rewrite bool_decide_eq_true_2, Hc by done. simpl.
    assert (c = mkHandle (h_set c) (h_user c) (h_port c) false) as <- by (destruct c; simpl in *; by subst).
    destruct (f c); simpl; lia.
  - intros j g Hne. rewrite (open_where_insert _ _ _ _ c) by done. unfold is_open; simpl.
    rewrite !bool_decide_eq_false_2 by done. simpl. lia.
Qed.

(** ** Runs *)

Inductive op :=
  | OpOpen (user : string) (port : Z)
  | OpClose (h : nat)
  | OpReset
  | OpPresence.

Definition exec (m : Manager) (o : op) : Manager :=
  match o with
  | OpOpen user port => OpenConn user port m
  | OpClose h => closeFn h m
  | OpReset => ResetPresence m
  | OpPresence => (Presence m).1
  end.

Definition run (os : list op) (m : Manager) : Manager := foldl exec m os.

Lemma exec_inv m o : inv m -> inv (exec m o).
Proof.
  intros Hinv. destruct o; simpl.
  - by apply OpenConn_inv.
  - by apply closeFn_inv.
  - by apply fresh_inv.
  - unfold Presence. destruct (current_inv m Hinv) as (H & _ & _).
    by destruct (currentPresence m).
Qed.

Lemma run_inv os m : inv m -> inv (run os m).
Proof.
  revert m. induction os as [|o os IH]; intros m Hm; [done|]. apply IH. by apply exec_inv.
Qed.

Lemma new_inv : inv NewManager.
Proof. split; simpl; [intros i s Hi; by rewrite lookup_nil in Hi|by intros c []|done]. Qed.

Lemma positive_lookup {K} `{Countable K} (k : K) (m : gmap K Z) n :
  positive m !! k = Some n <-> n = default 0 (m !! k) /\ 0 < n.
Proof.
  unfold positive. rewrite map_lookup_filter_Some. destruct (m !! k) as [v|]; simpl.
  - naive_solver.
  - split; [naive_solver|lia].
Qed.

(** After any run of opens, closes and resets, the snapshot counts the open
    connections of the generation in use: in all, by user, and by port (a
    connection without a port counts in no port). *)
Theorem Presence_counts os :
  let m := run os NewManager in
  let cur := (currentPresence m).2 in
  let snap := (Presence m).2 in
  Total snap = open_where (fun _ => true) cur (handles m) /\
  (forall u n, Users snap !! u = Some n <->
     n = open_where (of_user u) cur (handles m) /\ 0 < n) /\
  (forall p n, Ports snap !! p = Some n <->
     n = open_where (of_port p) cur (handles m) /\ 0 < n).
Proof.
  cbv zeta. pose proof (run_inv os NewManager new_inv) as Hinv.
  set (m := run os NewManager) in *. clearbody m.
  destruct (current_inv m Hinv) as (Hinv' & Hp & Hh). unfold Presence.
  destruct (currentPresence m) as [m' i]. simpl in *.
  pose proof (inv_presence m' Hinv' i Hp) as Hi.
  destruct (lookup_lt_is_Some_2 (sets m') i Hi) as [s Hs]. rewrite Hs. simpl.
  destruct (inv_sets m' Hinv' i s Hs) as [Hu Hpo Ht]. rewrite Hh in *. split_and!.
  - rewrite Ht. unfold open_where. lia.
  - intros u n. by rewrite positive_lookup, Hu.
  - intros p n. by rewrite positive_lookup, Hpo.
Qed.

(** A close function works once. *)
Lemma closeFn_twice h m : closeFn h (closeFn h m) = closeFn h m.
Proof.
  unfold closeFn. destruct (handles m !! h) as [c|] eqn:Hh; [|by rewrite Hh].
  destruct (h_closed c) eqn:Hc; [by rewrite Hh, Hc|]. simpl.
  by rewrite list_lookup_insert_eq by (by eapply lookup_lt_Some).
Qed.

Lemma closes_open os m i f :
  Forall (fun o => match o with OpClose _ => True | _ => False end) os ->
  (forall c, In c (handles m) -> h_set c <> i) ->
  open_where f i (handles (run os m)) = 0 /\ presence (run os m) = presence m.
Proof.
  revert m. induction os as [|o os IH]; intros m Hos Hne; simpl.
  - split; [|done]. unfold open_where. induction (handles m) as [|c hs IHh]; [done|]. simpl.
    unfold is_open at 1. rewrite bool_decide_eq_false_2 by (apply Hne; by left). simpl.
    apply IHh. intros c' Hc'. apply Hne. by right.
  - apply Forall_cons in Hos as [Ho Hos]. destruct o as [|h| |]; try done.
    assert (presence (closeFn h m) = presence m) as <-.
    { unfold closeFn. by repeat case_match. }
    apply IH; [done|]. intros c. unfold closeFn.
    destruct (handles m !! h) as [c0|] eqn:Hh; [|by apply Hne].
    destruct (h_closed c0); [by apply Hne|]. simpl.
    intros Hin%list_elem_of_In%list_elem_of_lookup_1. destruct Hin as [j Hj].
    apply list_lookup_insert_Some in Hj as [(_ & <- & _)|[_ Hj]]; simpl; apply Hne;
      apply list_elem_of_In; by eapply list_elem_of_lookup_2.
Qed.

(** A reset starts from nothing: until the next open the snapshot stays empty,
    even while the connections of the old core finish closing. *)
Theorem reset_isolates os closes :
  Forall (fun o => match o with OpClose _ => True | _ => False end) closes ->
  (Presence (run (os ++ OpReset :: closes) NewManager)).2 = mkSnapshot 0 ∅ ∅.
Proof.
  intros Hcl. unfold run. rewrite foldl_app.
  change (foldl exec NewManager os) with (run os NewManager).
  pose proof (run_inv os NewManager new_inv) as Hinv. set (m := run os NewManager) in *.
  clearbody m. change (foldl exec m (OpReset :: closes)) with (run closes (ResetPresence m)).
  pose proof (run_inv closes _ (fresh_inv m Hinv)) as Hinv'.
  assert (forall f, open_where f (length (sets m)) (handles (run closes (ResetPresence m))) = 0 /\
            presence (run closes (ResetPresence m)) = Some (length (sets m))) as Hz.
  { intros f. apply (closes_open closes (ResetPresence m)); [done|]. simpl.
    intros c Hc. pose proof (inv_handles m Hinv c Hc). lia. }
  change (mkManager _ _ _) with (ResetPresence m) in Hinv'.
  set (m' := run closes (ResetPresence m)) in *. clearbody m'.
  destruct (Hz (fun _ => true)) as [_ Hp]. unfold Presence, currentPresence. rewrite Hp.
  destruct (lookup_lt_is_Some_2 (sets m') _ (inv_presence m' Hinv' _ Hp)) as [s Hs].
  rewrite Hs. simpl. destruct (inv_sets m' Hinv' _ s Hs) as [Hu Hpo Ht].
  unfold snapshot. rewrite Ht, (proj1 (Hz _)). f_equal; apply map_empty; intros k;
    apply eq_None_not_Some; intros [n Hn]; apply positive_lookup in Hn as [-> Hn].
  - rewrite Hpo, (proj1 (Hz _)) in Hn. lia.
  - rewrite Hu, (proj1 (Hz _)) in Hn. lia.
Qed.

Lemma reset_isolates_witness :
  (Presence (run ([OpOpen "ali" 443; OpOpen "sara" 0] ++ OpReset :: [OpClose 0; OpClose 0; OpClose 1])
     NewManager)).2 = mkSnapshot 0 ∅ ∅.
Proof. apply reset_isolates. repeat constructor. Defined.

Example presence_example :
  let m := run [OpOpen "ali" 443; OpOpen "ali" 8443; OpOpen "sara" 443; OpClose 1; OpClose 1]
             NewManager in
  (Presence m).2 = mkSnapshot 2 {[443 := 2]} (<["ali" := 1]> {["sara" := 1]}).
Proof. vm_compute. reflexivity. Qed.
End Presence.

Module ConnGroup.

(** [ConnGroup]: the connections held, by id. Closers are numbered; [closes] is
    the sequence of [Close] calls made on them. *)
Record ConnGroup := mkGroup {
  conns : gmap Z nat;
  next : Z;
  closed : bool;
  closes : list nat;
}.

Definition NewConnGroup : ConnGroup := mkGroup ∅ 0 false [].

(** [g.next++] on a uint64. *)
Definition uint64 (z : Z) : Z := z mod 2 ^ 64.

(** [Hold]: the group and the id the release function is for; none when the
    group was already closed, and the connection is then closed at once. *)
Definition Hold (c : nat) (g : ConnGroup) : ConnGroup * option Z :=
  if closed g then (mkGroup (conns g) (next g) (closed g) (closes g ++ [c]), None)
  else let id := uint64 (next g + 1) in
       (mkGroup (<[id := c]> (conns g)) id (closed g) (closes g), Some id).

(** The release function of an id; its flag makes a second call do nothing, and
    so does deleting an id that is gone, ids being fresh. *)
Definition release (id : Z) (g : ConnGroup) : ConnGroup :=
  mkGroup (delete id (conns g)) (next g) (closed g) (closes g).

Definition Len (g : ConnGroup) : nat := size (conns g).

(** [CloseAll] with the order in which the workers closed the connections. *)
Definition CloseAll (order : list nat) (g : ConnGroup) : ConnGroup :=
  mkGroup ∅ (next g) true (closes g ++ order).

(** ** Runs *)

(** A run of a group: what was held so far in order (the closer and the id given,
    none once the group is closed), and the ids released while it was open. *)
Inductive reachable : list (nat * option Z) -> gset Z -> ConnGroup -> Prop :=
  | reach_new : reachable [] ∅ NewConnGroup
  | reach_hold hs rel g c :
      reachable hs rel g -> reachable (hs ++ [(c, (Hold c g).2)]) rel (Hold c g).1
  | reach_release hs rel g c id :
      reachable hs rel g -> In (c, Some id) hs ->
      reachable hs (if closed g then rel else {[id]} ∪ rel) (release id g)
  | reach_close hs rel g order :
      reachable hs rel g -> order ≡ₚ (map_to_list (conns g)).*2 ->
      reachable hs rel (CloseAll order g).

(** The connections not released before the group was closed, and those that
    came too late. *)
Definition unreleased (rel : gset Z) (hs : list (nat * option Z)) : list (nat * option Z) :=
  List.filter (fun '(_, o) => match o with Some id => bool_decide (id ∉ rel) | None => false end) hs.
Definition refused (hs : list (nat * option Z)) : list (nat * option Z) :=
  List.filter (fun '(_, o) => match o with Some _ => false | None => true end) hs.

Record group_inv (hs : list (nat * option Z)) (rel : gset Z) (g : ConnGroup) : Prop := {
  g_next : 0 <= next g <= Z.of_nat (length hs);
  g_ids : forall c id, In (c, Some id) hs -> 1 <= id <= next g;
  g_rel : forall id, id ∈ rel -> 1 <= id <= next g;
  g_open : closed g = false ->
    closes g = [] /\ refused hs = [] /\ List.NoDup hs /\
    forall id c, conns g !! id = Some c <-> In (c, Some id) hs /\ id ∉ rel;
  g_closed : closed g = true ->
    conns g = ∅ /\ closes g ≡ₚ (unreleased rel hs).*1 ++ (refused hs).*1;
}.

(** While the group is open, its map holds the unreleased connections. *)
Lemma conns_unreleased hs rel g :
  group_inv hs rel g -> closed g = false ->
  (fun '(id, c) => (c, Some id)) <$> map_to_list (conns g) ≡ₚ unreleased rel hs.
Proof.
  intros Hinv Ho. destruct (g_open _ _ _ Hinv Ho) as (_ & _ & Hnd & Hc).
  apply NoDup_Permutation.
  - apply NoDup_fmap_2_strong; [|apply NoDup_map_to_list]. intros [id c] [id' c'] _ _ [= -> ->]. done.
  - apply NoDup_ListNoDup. by apply List.NoDup_filter.
  - intros [c o]. rewrite list_elem_of_fmap, list_elem_of_In. unfold unreleased. rewrite filter_In. split.
    + intros ([id c'] & [= -> ->] & Hin%elem_of_map_to_list%Hc).
      by rewrite bool_decide_eq_true.
    + intros [Hin Ho']. destruct o as [id|]; [|done]. rewrite bool_decide_eq_true in Ho'.
      exists (id, c). split; [done|]. by apply elem_of_map_to_list, Hc.
Qed.

Lemma unreleased_closers hs rel g :
  group_inv hs rel g -> closed g = false ->
  (map_to_list (conns g)).*2 ≡ₚ (unreleased rel hs).*1.
Proof.
  intros Hinv Ho. rewrite <- (conns_unreleased hs rel g Hinv Ho), <- list_fmap_compose.
  erewrite list_fmap_ext; [reflexivity|]. by intros ? [].
Qed.

Lemma hold_inv hs rel g c :
  group_inv hs rel g -> Z.of_nat (length hs) + 1 < 2 ^ 64 ->
  group_inv (hs ++ [(c, (Hold c g).2)]) rel (Hold c g).1.
Proof.
  intros Hinv Hb. pose proof Hinv as [Hn Hids Hrel Ho Hc].
  unfold Hold. destruct (closed g) eqn:Hcl; cbn [fst snd].
  - destruct (Hc eq_refl) as [Hc1 Hc2]. split; cbn [next closed conns closes]; rewrite ?length_app.
    + simpl. lia.
    + intros c' id [Hin|[[=]|[]]]%in_app_or. by eapply Hids.
    + done.
    + congruence.
    + intros _. split; [done|]. unfold unreleased, refused in *.
      rewrite !List.filter_app, !fmap_app. simpl. rewrite !app_nil_r, Hc2. by rewrite app_assoc.
  - destruct (Ho eq_refl) as (Ho1 & Ho2 & Ho3 & Ho4).
    assert (uint64 (next g + 1) = next g + 1) as -> by (unfold uint64; apply Z.mod_small; lia).
    split; cbn [next closed conns closes]; rewrite ?length_app.
    + simpl. lia.
    + intros c' id [Hin|[[= _ <-]|[]]]%in_app_or; [|lia]. specialize (Hids c' id Hin). lia.
    + intros id Hid. specialize (Hrel id Hid). lia.
    + intros _. split_and!; [done| | |].
      * unfold refused in *. by rewrite List.filter_app, Ho2.
      * apply NoDup_ListNoDup, NoDup_app. rewrite NoDup_ListNoDup. split_and!; [done| |apply NoDup_singleton].
        intros [c' o] Hin%list_elem_of_In [= -> ->]%list_elem_of_singleton. specialize (Hids _ _ Hin). lia.
      * intros id c'. rewrite in_app_iff. simpl. destruct (decide (id = next g + 1)) as [->|Hne].
        -- rewrite lookup_insert_eq. split.
           ++ intros [= ->]. split; [by right; left|]. intros Hin. specialize (Hrel _ Hin). lia.
           ++ intros [[Hin|[[= ->]|[]]] _]; [|done]. specialize (Hids _ _ Hin). lia.
        -- rewrite lookup_insert_ne, Ho4 by done. split; [naive_solver|].
           intros [[Hin|[[= _ E]|[]]] Hnr]; [done|]. congruence.
    + congruence.
Qed.

Lemma release_inv hs rel g c id :
  group_inv hs rel g -> In (c, Some id) hs ->
  group_inv hs (if closed g then rel else {[id]} ∪ rel) (release id g).
Proof.
  intros [Hn Hids Hrel Ho Hc] Hin. split; cbn [next closed conns closes release]; try done.
  - intros id'. destruct (closed g); [apply Hrel|].
    rewrite elem_of_union, elem_of_singleton. intros [->|?]; [by eapply Hids|auto].
  - intros Hcl. rewrite Hcl. destruct (Ho Hcl) as (? & ? & ? & Ho4). split_and!; [done..|].
    intros id' c'. rewrite lookup_delete_Some, Ho4, not_elem_of_union, not_elem_of_singleton.
    naive_solver.
  - intros Hcl. rewrite Hcl. destruct (Hc Hcl) as [Hc1 Hc2]. split; [|done].
    by rewrite Hc1, delete_empty.
Qed.

Lemma close_inv hs rel g order :
  group_inv hs rel g -> order ≡ₚ (map_to_list (conns g)).*2 ->
  group_inv hs rel (CloseAll order g).
Proof.
  intros Hinv Hord. pose proof Hinv as [Hn Hids Hrel Ho Hc].
  split; cbn [next closed conns closes CloseAll]; try done.
  intros _. split; [done|]. rewrite Hord. destruct (closed g) eqn:Hcl.
  - destruct (Hc eq_refl) as [Hc1 Hc2]. rewrite Hc1, map_to_list_empty. by rewrite app_nil_r.
  - destruct (Ho eq_refl) as (-> & -> & _ & _). rewrite (unreleased_closers hs rel g) by done.
    simpl. by rewrite app_nil_r.
Qed.

Lemma reachable_group_inv hs rel g :
  reachable hs rel g -> Z.of_nat (length hs) < 2 ^ 64 -> group_inv hs rel g.
Proof.
  induction 1 as [|hs rel g c _ IH|hs rel g c id _ IH Hin|hs rel g order _ IH Hord]; intros Hb.
  - split; simpl; try done; try lia. intros _. split_and!; [done..|constructor|].
    intros id c. rewrite lookup_empty. naive_solver.
  - rewrite length_app in Hb. simpl in Hb. apply hold_inv; [apply IH|]; lia.
  - by eapply release_inv; [apply IH|].
  - apply close_inv; auto.
Qed.

(** While the group is open it holds exactly the connections not yet released
    and closes none. Once it is closed it holds nothing, and every connection ever
    given to it was closed exactly once unless its user released it first: those
    held at that moment by [CloseAll], later ones as they came. *)
Theorem every_conn_closed_once hs rel g :
  reachable hs rel g -> Z.of_nat (length hs) < 2 ^ 64 ->
  if closed g
  then Len g = 0%nat /\ closes g ≡ₚ (unreleased rel hs).*1 ++ (refused hs).*1
  else Len g = length (unreleased rel hs) /\ closes g = [] /\ refused hs = [].
Proof.
  intros Hr Hb. pose proof (reachable_group_inv _ _ _ Hr Hb) as Hinv. unfold Len.
  destruct (closed g) eqn:Hcl.
  - destruct (g_closed _ _ _ Hinv Hcl) as [-> Hc]. by rewrite map_size_empty.
  - destruct (g_open _ _ _ Hinv Hcl) as (Hc & Hf & _). split_and!; [|done..].
    rewrite <- (conns_unreleased hs rel g Hinv Hcl), length_fmap. symmetry. apply length_map_to_list.
Qed.

Lemma every_conn_closed_once_witness :
  closes (Hold 9 (CloseAll [8]%nat (release 1 (Hold 8 (Hold 7 NewConnGroup).1).1))).1 ≡ₚ [8; 9]%nat.
Proof.
  refine (proj2 (every_conn_closed_once [(7%nat, Some 1); (8%nat, Some 2); (9%nat, None)] {[1]}
    (Hold 9 (CloseAll [8]%nat (release 1 (Hold 8 (Hold 7 NewConnGroup).1).1))).1 _ _)); [|done].
  set (g0 := NewConnGroup). assert (reachable [] ∅ g0) as H0 by constructor.
  pose proof (reach_hold _ _ _ 7%nat H0) as H1. pose proof (reach_hold _ _ _ 8%nat H1) as H2.
  pose proof (reach_release _ _ _ 7%nat 1 H2 (or_introl eq_refl)) as H3.
  pose proof (reach_close _ _ _ [8%nat] H3 ltac:(vm_compute; reflexivity)) as H4.
  pose proof (reach_hold _ _ _ 9%nat H4) as H5. clear -H5.
  assert ({[1]} = ({[1]} ∪ ∅ : gset Z)) as -> by (symmetry; apply union_empty_r_L).
  exact H5.
Defined.
End ConnGroup.
