(* ===== verification/ProxySettings.v ===== *)
(** * ProxySettings: per-protocol proxy settings — [internal/proxysettings]

    The settings a proxy row stores, how they are read from a client's payload
    and from the database, written back, and rotated. [FromWire], [FromStored],
    [MarshalJSON] and [Revoke] are the functions of [proxysettings.go]. The
    random identifiers come from a supply that the operations draw from. *)

From S2P Require Import Prelude GoStrings.

#[local] Open Scope string_scope.

Module ProxySettings.

(** The protocols, by the text of Go's [ProxyType] constants. *)
Inductive ProxyType :=
  | VMess | VLESS | Trojan | Shadowsocks | Hysteria2 | TUIC | Snell | AnyTLS.

#[export] Instance ProxyType_eq_dec : EqDecision ProxyType.
Proof. solve_decision. Defined.

Definition type_name (t : ProxyType) : string :=
  match t with
  | VMess => "vmess" | VLESS => "vless" | Trojan => "trojan" | Shadowsocks => "shadowsocks"
  | Hysteria2 => "hysteria2" | TUIC => "tuic" | Snell => "snell" | AnyTLS => "anytls"
  end.

Definition all_types : list ProxyType :=
  [VMess; VLESS; Trojan; Shadowsocks; Hysteria2; TUIC; Snell; AnyTLS].

(** [ProxyType(s).Valid()]: the constant [s] is, if any. *)
Definition Valid (s : string) : option ProxyType :=
  List.find (fun t => String.eqb s (type_name t)) all_types.

Definition FlowNone := "".
Definition FlowVision := "xtls-rprx-vision".
Definition Chacha20Poly1305 := "chacha20-ietf-poly1305".

(** [Settings]: the type and, with it, the one populated struct. *)
Inductive Settings :=
  | VMessSettings (id : string)
  | VLESSSettings (id flow : string)
  | TrojanSettings (password flow : string)
  | ShadowsocksSettings (password method : string)
  | Hysteria2Settings (password : string)
  | TUICSettings (id password : string)
  | SnellSettings (user_key : string)
  | AnyTLSSettings (password : string).

#[export] Instance Settings_eq_dec : EqDecision Settings.
Proof. solve_decision. Defined.

Definition type_of (s : Settings) : ProxyType :=
  match s with
  | VMessSettings _ => VMess | VLESSSettings _ _ => VLESS | TrojanSettings _ _ => Trojan
  | ShadowsocksSettings _ _ => Shadowsocks | Hysteria2Settings _ => Hysteria2
  | TUICSettings _ _ => TUIC | SnellSettings _ => Snell | AnyTLSSettings _ => AnyTLS
  end.

(** A JSON value as far as the code looks at it, and a raw payload: absent, the
    text [] (with space around it), an object, or any other value. *)
Inductive json := JNull | JString (s : string) | JOther.
Inductive payload := NoPayload | Brackets | PNull | PObject (fields : list (string * json)) | POther.

Inductive error := InvalidSettings (t : ProxyType) | UnknownType (t : string).

(** [json.Unmarshal] into a struct of string fields: keys match without regard
    to case, the last match wins, null leaves the field as it is and any other
    value but a string is an error. *)
Definition key_is (name : string) (kv : string * json) : bool := String.eqb (FoldKey kv.1) name.

Definition decode_field (name : string) (fields : list (string * json)) : string :=
  foldl (fun acc kv => if key_is name kv then match kv.2 with JString s => s | _ => acc end else acc)
        "" fields.

Definition fields_decode (names : list string) (fields : list (string * json)) : bool :=
  forallb (fun kv => negb (existsb (fun n => key_is n kv) names)
                     || match kv.2 with JOther => false | _ => true end) fields.

(** [hasSettings] and the [json.Unmarshal] it guards: the object's fields, or
    [None] for the decoder's error. *)
Definition unmarshal (names : list string) (raw : payload) : option (list (string * json)) :=
  match raw with
  | NoPayload | Brackets | PNull => Some []
  | PObject fields => if fields_decode names fields then Some fields else None
  | POther => None
  end.

(** The supply of random identifiers: [uuid.NewString] and [randomPassword] as
    functions of how many draws were made before. *)
Class Random := { newUUID : nat -> string; randomPassword : nat -> string }.

Class RandomLaws `{Random} := {
  newUUID_nonempty n : newUUID n <> "";
  randomPassword_nonempty n : randomPassword n <> "";
  newUUID_fresh m n : newUUID m = newUUID n -> m = n;
  randomPassword_fresh m n : randomPassword m = randomPassword n -> m = n;
}.

Section settings.
Context `{Random}.

(** [if s == "" { s = gen() }] *)
Definition fill (gen : nat -> string) (s : string) (n : nat) : string * nat :=
  if String.eqb s "" then (gen n, S n) else (s, n).

Definition with_fields (t : ProxyType) (names : list string) (raw : payload)
    (k : (string -> string) -> Settings * nat) : result error (Settings * nat) :=
  match unmarshal names raw with
  | Some fields => Ok (k (fun name => decode_field name fields))
  | None => Err (InvalidSettings t)
  end.

(** [parse]; the result says how many identifiers have been drawn since [n]. *)
Definition parse (t : ProxyType) (raw : payload) (coerceVisionFlow : bool) (n : nat) :
  result error (Settings * nat) :=
  match t with
  | VMess => with_fields t ["id"] raw (fun f =>
      let '(id, n) := fill newUUID (f "id") n in (VMessSettings id, n))
  | VLESS => with_fields t ["id"; "flow"] raw (fun f =>
      let '(id, n) := fill newUUID (f "id") n in
      (VLESSSettings id (if coerceVisionFlow && String.eqb (f "flow") FlowNone
                         then FlowVision else f "flow"), n))
  | Trojan => with_fields t ["password"; "flow"] raw (fun f =>
      let '(p, n) := fill randomPassword (f "password") n in (TrojanSettings p (f "flow"), n))
  | Shadowsocks => with_fields t ["password"; "method"] raw (fun f =>
      let '(p, n) := fill randomPassword (f "password") n in
      (ShadowsocksSettings p (if String.eqb (f "method") "" then Chacha20Poly1305
                              else f "method"), n))
  | Hysteria2 => with_fields t ["password"] raw (fun f =>
      let '(p, n) := fill randomPassword (f "password") n in (Hysteria2Settings p, n))
  | TUIC => with_fields t ["id"; "password"] raw (fun f =>
      let '(id, n) := fill newUUID (f "id") n in
      let '(p, n) := fill randomPassword (f "password") n in (TUICSettings id p, n))
  | Snell => with_fields t ["user_key"] raw (fun f =>
      let '(k, n) := fill randomPassword (f "user_key") n in (SnellSettings k, n))
  | AnyTLS => with_fields t ["password"] raw (fun f =>
      let '(p, n) := fill randomPassword (f "password") n in (AnyTLSSettings p, n))
  end.

Definition parse_type (t : string) (raw : payload) (coerce : bool) (n : nat) :
  result error (Settings * nat) :=
  match Valid t with
  | Some t => parse t raw coerce n
  | None => Err (UnknownType t)
  end.

Definition FromWire (t : string) (raw : payload) (n : nat) := parse_type t raw true n.
Definition FromStored (t : string) (raw : payload) (n : nat) := parse_type t raw false n.

Definition MarshalJSON (s : Settings) : payload :=
  PObject match s with
  | VMessSettings id => [("id", JString id)]
  | VLESSSettings id flow => [("id", JString id); ("flow", JString flow)]
  | TrojanSettings p flow => [("password", JString p); ("flow", JString flow)]
  | ShadowsocksSettings p m => [("password", JString p); ("method", JString m)]
  | Hysteria2Settings p => [("password", JString p)]
  | TUICSettings id p => [("id", JString id); ("password", JString p)]
  | SnellSettings k => [("user_key", JString k)]
  | AnyTLSSettings p => [("password", JString p)]
  end.

Definition Revoke (s : Settings) (n : nat) : Settings * nat :=
  match s with
  | VMessSettings _ => (VMessSettings (newUUID n), S n)
  | VLESSSettings _ flow => (VLESSSettings (newUUID n) flow, S n)
  | TrojanSettings _ flow => (TrojanSettings (randomPassword n) flow, S n)
  | ShadowsocksSettings _ m => (ShadowsocksSettings (randomPassword n) m, S n)
  | Hysteria2Settings _ => (Hysteria2Settings (randomPassword n), S n)
  | TUICSettings _ _ => (TUICSettings (newUUID n) (randomPassword (S n)), S (S n))
  | SnellSettings _ => (SnellSettings (randomPassword n), S n)
  | AnyTLSSettings _ => (AnyTLSSettings (randomPassword n), S n)
  end.

(** ** Properties *)

(** The secrets of a settings value, and the parts that are not secret. *)
Definition secrets (s : Settings) : list string :=
  match s with
  | VMessSettings x | VLESSSettings x _ | TrojanSettings x _ | ShadowsocksSettings x _
  | Hysteria2Settings x | SnellSettings x | AnyTLSSettings x => [x]
  | TUICSettings x y => [x; y]
  end.

Definition flow_of (s : Settings) : string :=
  match s with VLESSSettings _ f | TrojanSettings _ f => f | _ => "" end.
Definition method_of (s : Settings) : string :=
  match s with ShadowsocksSettings _ m => m | _ => "" end.

(** A stored value is complete when no secret is blank and a method is set. *)
Definition complete (s : Settings) : Prop :=
  Forall (fun x => x <> "") (secrets s) /\
  (type_of s = Shadowsocks -> method_of s <> "").

Lemma Valid_name t : Valid (type_name t) = Some t.
Proof. by destruct t. Qed.

Lemma Valid_spec s t : Valid s = Some t <-> s = type_name t.
Proof.
  split; [|intros ->; apply Valid_name].
  intros [_ He]%find_some. by apply String.eqb_eq in He.
Qed.

Lemma fill_kept gen s n : s <> "" -> fill gen s n = (s, n).
Proof. intros Hs. unfold fill. by apply String.eqb_neq in Hs as ->. Qed.

Lemma eqb_nonempty (s : string) : s <> "" -> String.eqb s "" = false.
Proof. apply String.eqb_neq. Qed.

(** Reading back what was written gives the same settings and draws nothing: the
    stored credentials of a user never change by being read. *)
Theorem FromStored_MarshalJSON s n :
  complete s -> FromStored (type_name (type_of s)) (MarshalJSON s) n = Ok (s, n).
Proof.
  intros [Hs Hm]. unfold FromStored, parse_type. rewrite Valid_name.
  destruct s as [| | |p [|c m]| | | |]; simpl in Hs; decompose_Forall_hyps;
    try (by destruct Hm); cbv -[fill newUUID randomPassword];
    by rewrite !fill_kept by done.
Qed.

Context `{!RandomLaws}.

Lemma fill_nonempty gen s n : (forall k, gen k <> "") -> (fill gen s n).1 <> "".
Proof. intros Hg. unfold fill. destruct (String.eqb_spec s ""); simpl; auto. Qed.

(** Whatever a client sends for a known protocol either is refused or becomes a
    complete value of that protocol, with XTLS Vision on every VLESS proxy whose
    flow the client left empty. *)
Theorem FromWire_complete t raw n s n' :
  FromWire t raw n = Ok (s, n') ->
  t = type_name (type_of s) /\ complete s /\ (type_of s = VLESS -> flow_of s <> FlowNone).
Proof.
  unfold FromWire, parse_type. destruct (Valid t) as [pt|] eqn:Hv; [|done].
  apply Valid_spec in Hv as ->.
  pose proof (fun s n => fill_nonempty newUUID s n newUUID_nonempty) as Hu.
  pose proof (fun s n => fill_nonempty randomPassword s n randomPassword_nonempty) as Hp.
  destruct pt; cbn [parse]; unfold with_fields; destruct (unmarshal _ raw) as [fs|]; try done;
    intros Heq.
  all: repeat match type of Heq with
    | context [fill newUUID ?x ?k] =>
        let E := fresh in pose proof (Hu x k) as E; destruct (fill newUUID x k); simpl in E
    | context [fill randomPassword ?x ?k] =>
        let E := fresh in pose proof (Hp x k) as E; destruct (fill randomPassword x k); simpl in E
    end; simplify_eq; (split; [done|]); (split; [split; [by repeat constructor|]|]); try done.
  - intros _. simpl. unfold FlowNone, FlowVision.
    by destruct (String.eqb_spec (decode_field "flow" fs) "").
  - intros _. simpl. by destruct (String.eqb_spec (decode_field "method" fs) "").
Qed.

(** Revoking replaces every secret by one never handed out before and keeps the
    protocol, the flow and the method. *)
Theorem Revoke_rotates s n s' n' :
  Revoke s n = (s', n') ->
  type_of s' = type_of s /\ flow_of s' = flow_of s /\ method_of s' = method_of s /\
  n < n' /\ (complete s -> complete s') /\
  forall x, In x (secrets s') -> exists k, n <= k < n' /\ (x = newUUID k \/ x = randomPassword k).
Proof.
  intros Hr. destruct s; simpl in Hr; simplify_eq; simpl;
    (split_and!; [done..|lia| |]).
  all: try (intros [_ Hm]; split; [simpl; repeat constructor;
              auto using newUUID_nonempty, randomPassword_nonempty|exact Hm]).
  all: intros x Hx; simpl in Hx; destruct_or?; subst; try done;
    first [by (exists n; split; [lia|auto]) | by (exists (S n); split; [lia|auto])].
Qed.
End settings.

(** A supply that satisfies the laws: the [n]-th identifier has [n + 1] bytes. *)
Fixpoint tally (n : nat) : string :=
  match n with O => "x" | S n => String "x" (tally n) end.

#[export] Instance tally_random : Random := { newUUID := tally; randomPassword := tally }.

Lemma tally_inj m n : tally m = tally n -> m = n.
Proof.
  revert n. induction m as [|m IH]; intros [|n] He; simpl in He; simplify_eq; try done.
  - by destruct n.
  - by destruct m.
  - f_equal. by apply IH.
Qed.

#[export] Instance tally_laws : RandomLaws.
Proof. split; simpl; [by intros []|by intros []|apply tally_inj|apply tally_inj]. Qed.

Lemma FromStored_MarshalJSON_witness :
  FromStored "tuic" (MarshalJSON (TUICSettings "a" "b")) 3 = Ok (TUICSettings "a" "b", 3).
Proof.
  apply (FromStored_MarshalJSON (TUICSettings "a" "b") 3).
  split; [repeat constructor; done|done].
Defined.

Lemma FromWire_complete_witness :
  "vless" = type_name (type_of (VLESSSettings "x" FlowVision)) /\
  complete (VLESSSettings "x" FlowVision) /\
  (type_of (VLESSSettings "x" FlowVision) = VLESS -> flow_of (VLESSSettings "x" FlowVision) <> FlowNone).
Proof.
  apply (FromWire_complete "vless" (PObject [("Flow", JString "")]) 0 _ 1). vm_compute. reflexivity.
Defined.

Lemma Revoke_rotates_witness :
  flow_of (VLESSSettings (tally 4) FlowVision) = FlowVision /\ 4 < 5.
Proof.
  edestruct (Revoke_rotates (VLESSSettings "old" FlowVision) 4 (VLESSSettings (tally 4) FlowVision) 5)
    as (_ & Hf & _ & Hlt & _); [vm_compute; reflexivity|]. split; [exact Hf|exact Hlt].
Defined.

(** A bracketed payload is an empty settings object; a number where a string is
    expected is an error. *)
Example FromWire_examples :
  FromWire "trojan" Brackets 2 = Ok (TrojanSettings "xxx" "", 3) /\
  FromWire "vless" (PObject [("id", JString "7"); ("flow", JNull)]) 0
    = Ok (VLESSSettings "7" "xtls-rprx-vision", 0) /\
  FromWire "vmess" (PObject [("ID", JOther)]) 0 = Err (InvalidSettings VMess) /\
  FromWire "socks" NoPayload 0 = Err (UnknownType "socks").
Proof. vm_compute. auto. Qed.

(** Reading a stored row without an id makes one up, a different one each time it
    is read. *)
Lemma FromStored_blank_id :
  FromStored "vmess" (PObject []) 0 = Ok (VMessSettings "x", 1) /\
  FromStored "vmess" (PObject []) 1 = Ok (VMessSettings "xx", 2).
Proof. vm_compute. auto. Qed.
End ProxySettings.
