(* ===== verification/Store.v ===== *)
(** * Store: the panel's database

    The tables behind users and accounting ([internal/db/migrations]) as finite
    maps, and one definition per SQL statement of [internal/db/queries] that the
    modelled handlers and jobs run. A statement either changes the database or
    fails and leaves it alone; the monad [M] threads the database through the
    statements of a handler, and its fault list can make any of them fail, as a
    lost connection does. Times are in microseconds since the epoch. *)

From stdpp Require Import sorting.
From S2P Require Import Prelude GoStrings ProxySettings.

#[local] Open Scope Z_scope.

Module Store.

Create HintDb store.

(** ** Tables *)

(** The columns of [users] that an edit replaces at once. *)
Record Core := mkCore {
  Status : string;
  DataLimit : option Z;
  DataLimitResetStrategy : string;
  Expire : option Z;
  Note : option string;
  OnHoldExpireDuration : option Z;
  OnHoldTimeout : option Z;
  AutoDeleteInDays : option Z;
}.

Record User := mkUser {
  ID : Z;
  Username : string;
  core : Core;
  UsedTraffic : Z;
  AdminID : option Z;
  SyncedFromPanelName : option string;
  CreatedAt : Z;
  EditAt : option Z;
  OnlineAt : option Z;
  SubRevokedAt : option Z;
  LastStatusChange : option Z;
}.

Record NextPlan := mkPlan {
  np_DataLimit : Z;
  np_Expire : option Z;
  AddRemainingTraffic : bool;
  FireOnEither : bool;
}.

Record Proxy := mkProxy { p_ID : Z; p_UserID : Z; p_Type : string; p_Settings : ProxySettings.Settings }.

Record Admin := mkAdmin { a_ID : Z; a_Username : string; UsersUsage : Z }.

Record Queued := mkQueued { Pending : Z; Reported : Z }.

(** [next_id] stands for the serial sequences. *)
Record Db := mkDb {
  users : gmap Z User;
  next_plans : gmap Z NextPlan;
  proxies : gmap Z Proxy;
  exclude_inbounds : gmap Z (list string);
  user_usage_logs : list (Z * Z);
  node_user_usages : gmap (Z * Z * Z) Z;   (* hour, user, node *)
  node_usages : gmap (Z * Z) (Z * Z);      (* hour, node *)
  nodes : gmap Z (Z * Z);                  (* cumulative uplink, downlink *)
  system : Z * Z;
  admins : gmap Z Admin;
  usage_queue : gmap Z Queued;
  inbounds : list (string * string);       (* tag, protocol *)
  next_id : Z;
}.

Definition set_users us d := mkDb us (next_plans d) (proxies d) (exclude_inbounds d)
  (user_usage_logs d) (node_user_usages d) (node_usages d) (nodes d) (system d) (admins d)
  (usage_queue d) (inbounds d) (next_id d).
Definition set_next_plans ps d := mkDb (users d) ps (proxies d) (exclude_inbounds d)
  (user_usage_logs d) (node_user_usages d) (node_usages d) (nodes d) (system d) (admins d)
  (usage_queue d) (inbounds d) (next_id d).
Definition set_proxies ps d := mkDb (users d) (next_plans d) ps (exclude_inbounds d)
  (user_usage_logs d) (node_user_usages d) (node_usages d) (nodes d) (system d) (admins d)
  (usage_queue d) (inbounds d) (next_id d).
Definition set_excluded es d := mkDb (users d) (next_plans d) (proxies d) es
  (user_usage_logs d) (node_user_usages d) (node_usages d) (nodes d) (system d) (admins d)
  (usage_queue d) (inbounds d) (next_id d).
Definition set_logs ls d := mkDb (users d) (next_plans d) (proxies d) (exclude_inbounds d)
  ls (node_user_usages d) (node_usages d) (nodes d) (system d) (admins d)
  (usage_queue d) (inbounds d) (next_id d).
Definition set_node_user_usages us d := mkDb (users d) (next_plans d) (proxies d)
  (exclude_inbounds d) (user_usage_logs d) us (node_usages d) (nodes d) (system d) (admins d)
  (usage_queue d) (inbounds d) (next_id d).
Definition set_node_totals nu ns sys d := mkDb (users d) (next_plans d) (proxies d)
  (exclude_inbounds d) (user_usage_logs d) (node_user_usages d) nu ns sys (admins d)
  (usage_queue d) (inbounds d) (next_id d).
Definition set_admins aa q d := mkDb (users d) (next_plans d) (proxies d) (exclude_inbounds d)
  (user_usage_logs d) (node_user_usages d) (node_usages d) (nodes d) (system d) aa q (inbounds d)
  (next_id d).
Definition set_next_id n d := mkDb (users d) (next_plans d) (proxies d) (exclude_inbounds d)
  (user_usage_logs d) (node_user_usages d) (node_usages d) (nodes d) (system d) (admins d)
  (usage_queue d) (inbounds d) n.

(** Changes of one user row. *)
Definition with_core c (u : User) := mkUser (ID u) (Username u) c (UsedTraffic u) (AdminID u)
  (SyncedFromPanelName u) (CreatedAt u) (EditAt u) (OnlineAt u) (SubRevokedAt u)
  (LastStatusChange u).
Definition with_used n (u : User) := mkUser (ID u) (Username u) (core u) n (AdminID u)
  (SyncedFromPanelName u) (CreatedAt u) (EditAt u) (OnlineAt u) (SubRevokedAt u)
  (LastStatusChange u).
Definition with_owner a (u : User) := mkUser (ID u) (Username u) (core u) (UsedTraffic u) a
  (SyncedFromPanelName u) (CreatedAt u) (EditAt u) (OnlineAt u) (SubRevokedAt u)
  (LastStatusChange u).
Definition with_stamps edit online revoked change (u : User) := mkUser (ID u) (Username u)
  (core u) (UsedTraffic u) (AdminID u) (SyncedFromPanelName u) (CreatedAt u) edit online revoked
  change.
Definition with_status s (c : Core) := mkCore s (DataLimit c) (DataLimitResetStrategy c)
  (Expire c) (Note c) (OnHoldExpireDuration c) (OnHoldTimeout c) (AutoDeleteInDays c).

Definition touch_edit now u := with_stamps (Some now) (OnlineAt u) (SubRevokedAt u) (LastStatusChange u) u.
Definition touch_online now u := with_stamps (EditAt u) (Some now) (SubRevokedAt u) (LastStatusChange u) u.
Definition touch_revoked now u := with_stamps (EditAt u) (OnlineAt u) (Some now) (LastStatusChange u) u.
Definition touch_status now u := with_stamps (EditAt u) (OnlineAt u) (SubRevokedAt u) (Some now) u.

(** ** Statements *)

Inductive dberror := Unavailable | NoRows | UniqueViolation | OutOfRange | CheckViolation | ForeignKey.

Record World := mkWorld { db : Db; faults : list bool }.

(** A computation over the database with errors of type [E]. *)
Definition M (E A : Type) : Type := World -> World * result E A.

#[export] Instance M_ret {E} : MRet (M E) := fun A a w => (w, Ok a).
#[export] Instance M_bind {E} : MBind (M E) := fun A B f m w =>
  match m w with
  | (w, Ok a) => f a w
  | (w, Err e) => (w, Err e)
  end.

Definition fail {E A} (e : E) : M E A := fun w => (w, Err e).

(** [if err != nil { return ...}] with the error turned into [f err]. *)
Definition or_else {E E' A} (m : M E A) (f : E -> E') : M E' A := fun w =>
  match m w with
  | (w, Ok a) => (w, Ok a)
  | (w, Err e) => (w, Err (f e))
  end.

(** The outcome as a value: for errors the code looks at or only logs. *)
Definition attempt {E E' A} (m : M E A) : M E' (result E A) := fun w =>
  let '(w, r) := m w in (w, Ok r).

Fixpoint for_each {E A} (f : A -> M E unit) (l : list A) : M E unit :=
  match l with
  | [] => mret tt
  | x :: l => f x ≫= fun _ => for_each f l
  end.

(** A statement that changes the database, and one that only reads it. *)
Definition stmt {A} (q : Db -> result dberror (Db * A)) : M dberror A := fun w =>
  match faults w with
  | true :: fs => (mkWorld (db w) fs, Err Unavailable)
  | fs =>
      match q (db w) with
      | Ok (d, a) => (mkWorld d (tail fs), Ok a)
      | Err e => (mkWorld (db w) (tail fs), Err e)
      end
  end.

Definition query {A} (q : Db -> result dberror A) : M dberror A :=
  stmt (fun d => match q d with Ok a => Ok (d, a) | Err e => Err e end).

Definition unix (t : Z) : Z := t / 1000000.

Definition int4 (z : Z) : result dberror Z := if bool_decide (fits 32 z) then Ok z else Err OutOfRange.
Definition int8 (z : Z) : result dberror Z := if bool_decide (fits 64 z) then Ok z else Err OutOfRange.

Definition all_statuses : list string := ["active"; "disabled"; "limited"; "expired"; "on_hold"]%string.
Definition all_strategies : list string := ["no_reset"; "day"; "week"; "month"; "year"]%string.

Definition opt_fits (w : Z) (o : option Z) : bool :=
  match o with Some z => bool_decide (fits w z) | None => true end.

(** The CHECK constraints of the status and strategy columns, the length of the
    VARCHAR one and the ranges of the integer ones. *)
Definition core_ok (c : Core) : bool :=
  str_mem (Status c) all_statuses && str_mem (DataLimitResetStrategy c) all_strategies &&
  match Note c with Some n => (char_count n <=? 500)%nat | None => true end &&
  opt_fits 64 (DataLimit c) && opt_fits 32 (Expire c) && opt_fits 64 (OnHoldExpireDuration c) &&
  opt_fits 32 (AutoDeleteInDays c).

(** The rows satisfying a condition, in no particular order. *)
Definition select (p : User -> bool) (d : Db) : list User :=
  List.filter p (map snd (map_to_list (users d))).

Definition find_user (username : string) (d : Db) : option User :=
  List.find (fun u => String.eqb (Username u) username) (map snd (map_to_list (users d))).

Definition CreateUser (now : Z) (username : string) (c : Core) (adminID : option Z) (d : Db) :
  result dberror (Db * User) :=
  if negb (core_ok c) then Err CheckViolation
  else if (34 <? char_count username)%nat then Err OutOfRange
  else if match find_user username d with Some _ => true | None => false end then Err UniqueViolation
  else let u := mkUser (next_id d) username c 0 adminID None now None None None (Some now) in
       Ok (set_next_id (next_id d + 1) (set_users (<[next_id d := u]> (users d)) d), u).

Definition GetUserByUsername (username : string) (d : Db) : result dberror User :=
  match find_user username d with Some u => Ok u | None => Err NoRows end.

Definition GetUsersByUsernames (names : list string) (d : Db) : result dberror (list User) :=
  Ok (select (fun u => str_mem (Username u) names) d).

(** [UPDATE users SET ... WHERE id = $1 RETURNING *] *)
Definition update_user (id : Z) (f : User -> result dberror User) (d : Db) :
  result dberror (Db * User) :=
  match users d !! id with
  | None => Err NoRows
  | Some u => match f u with
              | Ok u' => if core_ok (core u') then Ok (set_users (<[id := u']> (users d)) d, u')
                         else Err CheckViolation
              | Err e => Err e
              end
  end.

(** The [:exec] form: no row is not an error. *)
Definition update_user_exec (id : Z) (f : User -> result dberror User) (d : Db) :
  result dberror (Db * unit) :=
  match update_user id f d with
  | Ok (d, _) => Ok (d, tt)
  | Err NoRows => Ok (d, tt)
  | Err e => Err e
  end.

Definition UpdateUserCore (now id : Z) (c : Core) : Db -> result dberror (Db * User) :=
  update_user id (fun u => Ok (touch_edit now (with_core c u))).

Definition ResetUserTraffic (id : Z) (status : string) : Db -> result dberror (Db * User) :=
  update_user id (fun u => Ok (with_core (with_status status (core u)) (with_used 0 u))).

Definition SetUserSubRevoked (now id : Z) : Db -> result dberror (Db * User) :=
  update_user id (fun u => Ok (touch_revoked now u)).

Definition SetUserOwner (id : Z) (admin : option Z) : Db -> result dberror (Db * User) :=
  update_user id (fun u => Ok (with_owner admin u)).

Definition UpdateUserStatusOnly (now id : Z) (status : string) : Db -> result dberror (Db * unit) :=
  update_user_exec id (fun u => Ok (touch_status now (with_core (with_status status (core u)) u))).

(** Deleting a user takes its rows of every other table with it. *)
Definition cascade (ids : gset Z) (d : Db) : Db :=
  let gone_proxies := dom (filter (fun '(_, p) => p_UserID p ∈ ids) (proxies d)) in
  mkDb (filter (fun '(i, _) => i ∉ ids) (users d))
       (filter (fun '(i, _) => i ∉ ids) (next_plans d))
       (filter (fun '(_, p) => p_UserID p ∉ ids) (proxies d))
       (filter (fun '(i, _) => i ∉ gone_proxies) (exclude_inbounds d))
       (List.filter (fun '(i, _) => bool_decide (i ∉ ids)) (user_usage_logs d))
       (filter (fun '((_, u, _), _) => u ∉ ids) (node_user_usages d))
       (node_usages d) (nodes d) (system d) (admins d) (usage_queue d) (inbounds d) (next_id d).

Definition DeleteUsersByIDs (ids : list Z) (d : Db) : result dberror (Db * unit) :=
  Ok (cascade (list_to_set ids) d, tt).

Definition DeleteUser (id : Z) : Db -> result dberror (Db * unit) := DeleteUsersByIDs [id].

Definition UpsertNextPlan (id : Z) (p : NextPlan) (d : Db) : result dberror (Db * unit) :=
  match users d !! id with
  | Some _ => Ok (set_next_plans (<[id := p]> (next_plans d)) d, tt)
  | None => Err ForeignKey
  end.

Definition DeleteNextPlanByUserID (id : Z) (d : Db) : result dberror (Db * unit) :=
  Ok (set_next_plans (delete id (next_plans d)) d, tt).

Definition DeleteNextPlansByUserIDs (ids : list Z) (d : Db) : result dberror (Db * unit) :=
  Ok (set_next_plans (filter (fun '(i, _) => i ∉ (list_to_set ids : gset Z)) (next_plans d)) d, tt).

Definition GetNextPlanByUserID (id : Z) (d : Db) : result dberror NextPlan :=
  match next_plans d !! id with Some p => Ok p | None => Err NoRows end.

Definition CreateUserUsageLog (id used : Z) (d : Db) : result dberror (Db * unit) :=
  match users d !! id with
  | Some _ => Ok (set_logs (user_usage_logs d ++ [(id, used)])%list d, tt)
  | None => Err ForeignKey
  end.

Definition DeleteUserUsageLogsByUserIDs (ids : list Z) (d : Db) : result dberror (Db * unit) :=
  Ok (set_logs (List.filter (fun '(i, _) => bool_decide (i ∉ ids)) (user_usage_logs d)) d, tt).

Definition DeleteNodeUserUsagesByUserIDs (ids : list Z) (d : Db) : result dberror (Db * unit) :=
  Ok (set_node_user_usages (filter (fun '((_, u, _), _) => u ∉ ids) (node_user_usages d)) d, tt).

Definition ClearNodeUserUsages (id : Z) : Db -> result dberror (Db * unit) :=
  DeleteNodeUserUsagesByUserIDs [id].

Definition ResetUsersUsageByIDs (ids : list Z) (d : Db) : result dberror (Db * unit) :=
  let reset (u : User) :=
    let s := Status (core u) in
    with_core (with_status (if str_mem s ["on_hold"; "expired"; "disabled"]%string then s
                            else "active"%string) (core u)) (with_used 0 u) in
  Ok (set_users (map_imap (fun i u => Some (if bool_decide (i ∈ ids) then reset u else u)) (users d)) d, tt).

Definition ListUserIDsByAdmin (admin : Z) (d : Db) : result dberror (list Z) :=
  Ok (map ID (select (fun u => bool_decide (AdminID u = Some admin)) d)).
Definition ListAllUserIDs (d : Db) : result dberror (list Z) := Ok (map ID (select (fun _ => true) d)).

Definition GetUsersNeedingStatusReview (nowUnix : Z) (d : Db) : result dberror (list User) :=
  Ok (select (fun u =>
    String.eqb (Status (core u)) "active" &&
    (match DataLimit (core u) with Some l => (0 <? l) && (l <=? UsedTraffic u) | None => false end
     || match Expire (core u) with Some e => negb (e =? 0) && (e <=? nowUnix) | None => false end)) d).

Definition GetOnHoldUsers (d : Db) : result dberror (list User) :=
  Ok (select (fun u => String.eqb (Status (core u)) "on_hold") d).

(** [extract(epoch FROM now())::int + on_hold_expire_duration]: a null duration
    makes the sum null, and a sum outside the column's 32 bits is an error. *)
Definition ActivateOnHoldUser (now id : Z) : Db -> result dberror (Db * unit) :=
  update_user_exec id (fun u =>
    let c := core u in
    let put e := touch_status now (with_core (mkCore "active" (DataLimit c)
                   (DataLimitResetStrategy c) e (Note c) None None (AutoDeleteInDays c)) u) in
    match OnHoldExpireDuration c with
    | None => Ok (put None)
    | Some dur => e ← int4 (unix now + dur); Ok (put (Some e))
    end).

(** The plan's formula: the new limit is the plan's, plus what is left of the old
    one unless [add_remaining_traffic] is set; null absorbs. *)
Definition plan_limit (p : NextPlan) (u : User) : result dberror (option Z) :=
  if AddRemainingTraffic p then Ok (Some (np_DataLimit p))
  else match DataLimit (core u) with
       | None => Ok None
       | Some l => r ← int8 (l - UsedTraffic u); n ← int8 (np_DataLimit p + r); Ok (Some n)
       end.

Definition plan_expire (now : Z) (p : NextPlan) : result dberror (option Z) :=
  match np_Expire p with
  | None => Ok None
  | Some e => n ← int4 (unix now + e); Ok (Some n)
  end.

Definition ResetUserByNextPlan (now id : Z) (d : Db) : result dberror (Db * User) :=
  match next_plans d !! id with
  | None => Err NoRows
  | Some p => update_user id (fun u =>
      let c := core u in
      l ← plan_limit p u; e ← plan_expire now p;
      Ok (with_core (mkCore "active" l (DataLimitResetStrategy c) e (Note c)
                       (OnHoldExpireDuration c) (OnHoldTimeout c) (AutoDeleteInDays c))
                    (with_used 0 u))) d
  end.

(** *** Proxies *)

Definition CreateProxy (userID : Z) (typ : string) (s : ProxySettings.Settings) (d : Db) :
  result dberror (Db * Proxy) :=
  match users d !! userID with
  | None => Err ForeignKey
  | Some _ => let p := mkProxy (next_id d) userID typ s in
              Ok (set_next_id (next_id d + 1) (set_proxies (<[next_id d := p]> (proxies d)) d), p)
  end.

Definition by_id (p q : Proxy) : Prop := p_ID p <= p_ID q.
#[export] Instance by_id_dec p q : Decision (by_id p q).
Proof. unfold by_id. apply _. Defined.

Definition ListProxiesByUserID (userID : Z) (d : Db) : result dberror (list Proxy) :=
  Ok (merge_sort by_id
        (List.filter (fun p => p_UserID p =? userID) (map snd (map_to_list (proxies d))))).

Definition UpdateProxySettings (id : Z) (s : ProxySettings.Settings) (d : Db) :
  result dberror (Db * unit) :=
  match proxies d !! id with
  | None => Err NoRows
  | Some p => Ok (set_proxies (<[id := mkProxy id (p_UserID p) (p_Type p) s]> (proxies d)) d, tt)
  end.

Definition DeleteProxyByID (id : Z) (d : Db) : result dberror (Db * unit) :=
  Ok (set_excluded (delete id (exclude_inbounds d)) (set_proxies (delete id (proxies d)) d), tt).

Definition DeleteExcludedInbounds (id : Z) (d : Db) : result dberror (Db * unit) :=
  Ok (set_excluded (delete id (exclude_inbounds d)) d, tt).

(** The primary key (proxy, tag) refuses a tag twice, the foreign keys a proxy or
    a tag that is not there. *)
Definition ReplaceExcludedInbounds (id : Z) (tags : list string) (d : Db) :
  result dberror (Db * unit) :=
  let all := (default [] (exclude_inbounds d !! id) ++ tags)%list in
  if negb (match proxies d !! id with Some _ => true | None => false end
           && forallb (fun t => str_mem t (map fst (inbounds d))) tags) then Err ForeignKey
  else if bool_decide (NoDup all) then Ok (set_excluded (<[id := all]> (exclude_inbounds d)) d, tt)
  else Err UniqueViolation.

(** The tags of a protocol's inbounds, and whether a tag exists; the panel reads
    both through a cache. *)
Definition ListInboundTagsByProtocol (protocol : string) (d : Db) : result dberror (list string) :=
  Ok (map fst (List.filter (fun '(_, p) => String.eqb p protocol) (inbounds d))).

Definition GetInboundByTag (tag : string) (d : Db) : result dberror (string * string) :=
  match List.find (fun '(t, _) => String.eqb t tag) (inbounds d) with
  | Some r => Ok r
  | None => Err NoRows
  end.

(** [CountUsers] for an admin and a list of statuses. *)
Definition CountUsers (admin : option Z) (statuses : list string) (d : Db) : result dberror Z :=
  Ok (Z.of_nat (length (select (fun u =>
    match admin with Some a => bool_decide (AdminID u = Some a) | None => true end
    && match statuses with [] => true | _ => str_mem (Status (core u)) statuses end) d))).

Definition ListExpiredUsers (admin : option Z) (after before : Z) (d : Db) : result dberror (list User) :=
  Ok (select (fun u =>
    str_mem (Status (core u)) ["expired"; "limited"]%string
    && match Expire (core u) with Some e => (after <=? e) && (e <=? before) | None => false end
    && match admin with Some a => bool_decide (AdminID u = Some a) | None => true end) d).

(** *** Accounting *)

(** [INSERT ... ON CONFLICT DO UPDATE SET n = n + EXCLUDED.n] *)
Definition bump {K} `{Countable K} (m : gmap K Z) (kd : K * Z) : gmap K Z :=
  <[kd.1 := default 0 (m !! kd.1) + kd.2]> m.
Definition bulk_bump {K} `{Countable K} (ds : list (K * Z)) (m : gmap K Z) : gmap K Z :=
  foldl bump m ds.

Definition all_fit8 {K} `{Countable K} (m : gmap K Z) : bool :=
  bool_decide (map_Forall (fun _ n => fits 64 n) m).

(** The two arrays as pairs; their ids are distinct. *)
Definition add_used (now : Z) (us : gmap Z User) (kd : Z * Z) : gmap Z User :=
  alter (fun u => touch_online now (with_used (UsedTraffic u + kd.2) u)) kd.1 us.

Definition BulkIncrementUserUsage (now : Z) (ds : list (Z * Z)) (d : Db) :
  result dberror (Db * unit) :=
  let us := foldl (add_used now) (users d) ds in
  if bool_decide (map_Forall (fun _ u => fits 64 (UsedTraffic u)) us)
  then Ok (set_users us d, tt) else Err OutOfRange.

Definition BulkUpsertNodeUserUsage (hour nodeID : Z) (ds : list (Z * Z)) (d : Db) :
  result dberror (Db * unit) :=
  let m := bulk_bump (map (fun '(u, n) => ((hour, u, nodeID), n)) ds) (node_user_usages d) in
  if negb (forallb (fun '(u, _) => match users d !! u with Some _ => true | None => false end) ds)
  then Err ForeignKey
  else if all_fit8 m then Ok (set_node_user_usages m d, tt) else Err OutOfRange.

Definition add_usage (as_ : gmap Z Admin) (kd : Z * Z) : gmap Z Admin :=
  alter (fun a => mkAdmin (a_ID a) (a_Username a) (UsersUsage a + kd.2)) kd.1 as_.

Definition enqueue (q : gmap Z Queued) (kd : Z * Z) : gmap Z Queued :=
  let old := default (mkQueued 0 0) (q !! kd.1) in
  <[kd.1 := mkQueued (Pending old + kd.2) (Reported old)]> q.

(** Both in one statement: only the admins that exist are queued for. *)
Definition BulkIncrementAdminUsage (ds : list (Z * Z)) (queueForResellerApi : bool) (d : Db) :
  result dberror (Db * unit) :=
  let aa := foldl add_usage (admins d) ds in
  let bumped := List.filter (fun kd => match admins d !! kd.1 with Some _ => true | None => false end) ds in
  let q := if queueForResellerApi then foldl enqueue (usage_queue d) bumped else usage_queue d in
  if bool_decide (map_Forall (fun _ a => fits 64 (UsersUsage a)) aa)
     && bool_decide (map_Forall (fun _ x => fits 64 (Pending x)) q)
  then Ok (set_admins aa q d, tt) else Err OutOfRange.

Definition add2 (x y : Z * Z) : Z * Z := (x.1 + y.1, x.2 + y.2).
Definition fit2 (x : Z * Z) : bool := bool_decide (fits 64 x.1) && bool_decide (fits 64 x.2).

Definition UpsertNodeUsage (hour nodeID : Z) (n : Z * Z) (d : Db) : result dberror (Db * unit) :=
  let n' := add2 (default (0, 0) (node_usages d !! (hour, nodeID))) n in
  if fit2 n' then Ok (set_node_totals (<[(hour, nodeID) := n']> (node_usages d)) (nodes d) (system d) d, tt)
  else Err OutOfRange.

Definition IncrementNodeCumulative (nodeID : Z) (n : Z * Z) (d : Db) : result dberror (Db * unit) :=
  match nodes d !! nodeID with
  | None => Ok (d, tt)
  | Some old =>
      let n' := add2 old n in
      if fit2 n' then Ok (set_node_totals (node_usages d) (<[nodeID := n']> (nodes d)) (system d) d, tt)
      else Err OutOfRange
  end.

Definition IncrementSystemCumulative (n : Z * Z) (d : Db) : result dberror (Db * unit) :=
  let n' := add2 (system d) n in
  if fit2 n' then Ok (set_node_totals (node_usages d) (nodes d) n' d, tt) else Err OutOfRange.

(** (admin id, username, pending) of every admin with something queued. *)
Definition GetPendingResellerAPIUsage (d : Db) : result dberror (list (Z * string * Z)) :=
  Ok (omap (fun '(i, q) =>
        if 0 <? Pending q then (fun a => (i, a_Username a, Pending q)) <$> admins d !! i else None)
      (map_to_list (usage_queue d))).

Definition mark (q : gmap Z Queued) (kd : Z * Z) : gmap Z Queued :=
  alter (fun x => mkQueued (Pending x - kd.2) (Reported x + kd.2)) kd.1 q.

Definition MarkResellerAPIUsageReported (sent : list (Z * Z)) (d : Db) : result dberror (Db * unit) :=
  let q := foldl mark (usage_queue d) sent in
  if bool_decide (map_Forall (fun _ x => fits 64 (Reported x)) q)
  then Ok (set_admins (admins d) q d, tt) else Err OutOfRange.

(** At most [batch] rows older than the cutoff; which ones is up to the planner:
    here the first in key order. *)
Definition DeleteOldNodeUserUsages (cutoff : Z) (batch : nat) (d : Db) : result dberror (Db * nat) :=
  let old := List.filter (fun '((h, _, _), _) => h <? cutoff) (map_to_list (node_user_usages d)) in
  let gone := map fst (take batch old) in
  Ok (set_node_user_usages (filter (fun '(k, _) => k ∉ gone) (node_user_usages d)) d, length gone).

(** ** Well-formed databases *)

Record wf (d : Db) : Prop := {
  wf_id : forall i u, users d !! i = Some u -> ID u = i;
  wf_core : forall i u, users d !! i = Some u -> core_ok (core u) = true;
  wf_used : forall i u, users d !! i = Some u -> fits 64 (UsedTraffic u);
  wf_names : forall i j u v, users d !! i = Some u -> users d !! j = Some v ->
    Username u = Username v -> i = j;
  wf_plans : dom (next_plans d) ⊆ dom (users d);
  wf_logs : forall i n, In (i, n) (user_usage_logs d) -> i ∈ dom (users d);
  wf_usages : forall h u n x, node_user_usages d !! (h, u, n) = Some x -> u ∈ dom (users d);
  wf_proxies : forall i p, proxies d !! i = Some p -> p_ID p = i /\ p_UserID p ∈ dom (users d);
  wf_excluded : dom (exclude_inbounds d) ⊆ dom (proxies d);
  wf_next : forall i, next_id d <= i -> (i ∉ dom (users d)) /\ (i ∉ dom (proxies d));
}.

(** A statement keeps a database well formed when it succeeds. *)
Definition keeps {A} (q : Db -> result dberror (Db * A)) : Prop :=
  forall d d' a, wf d -> q d = Ok (d', a) -> wf d'.

(** A computation keeps it well formed whatever fails along the way. *)
Definition preserves {E A} (m : M E A) : Prop :=
  forall w, wf (db w) -> wf (db (m w).1).

Lemma preserves_ret {E A} (a : A) : preserves (E:=E) (mret a).
Proof. intros w Hw. exact Hw. Qed.

Lemma preserves_fail {E A} (e : E) : preserves (A:=A) (fail e).
Proof. intros w Hw. exact Hw. Qed.

Lemma preserves_bind {E A B} (m : M E A) (f : A -> M E B) :
  preserves m -> (forall a, preserves (f a)) -> preserves (m ≫= f).
Proof.
  intros Hm Hf w Hw. unfold mbind, M_bind. specialize (Hm w Hw).
  destruct (m w) as [w' [a|e]]; [by apply Hf|done].
Qed.

Lemma preserves_or_else {E E' A} (m : M E A) (f : E -> E') : preserves m -> preserves (or_else m f).
Proof. intros Hm w Hw. unfold or_else. specialize (Hm w Hw). by destruct (m w) as [w' []]. Qed.

Lemma preserves_attempt {E E' A} (m : M E A) : preserves m -> preserves (attempt (E':=E') m).
Proof. intros Hm w Hw. unfold attempt. specialize (Hm w Hw). by destruct (m w) as [w' []]. Qed.

Lemma preserves_if {E A} (b : bool) (m1 m2 : M E A) :
  preserves m1 -> preserves m2 -> preserves (if b then m1 else m2).
Proof. by destruct b. Qed.

Lemma preserves_stmt {A} (q : Db -> result dberror (Db * A)) : keeps q -> preserves (stmt q).
Proof.
  intros Hq w Hw. unfold stmt. destruct (faults w) as [|[] fs]; [|done|];
    (destruct (q (db w)) as [[d a]|e] eqn:He; simpl; [by eapply Hq|done]).
Qed.

Lemma preserves_query {A} (q : Db -> result dberror A) : preserves (query q).
Proof.
  apply preserves_stmt. intros d d' a Hd He. destruct (q d); by simplify_eq.
Qed.

Lemma preserves_for_each {E A} (f : A -> M E unit) l :
  (forall x, preserves (f x)) -> preserves (for_each f l).
Proof.
  intros Hf. induction l as [|x l IH]; [apply preserves_ret|]. by apply preserves_bind.
Qed.

#[export] Hint Resolve preserves_for_each preserves_ret preserves_fail preserves_bind preserves_or_else
  preserves_attempt preserves_if preserves_stmt preserves_query : store.

(** A change of user rows that keeps their ids and names. *)
Definition row_ok (u u' : User) : Prop :=
  ID u' = ID u /\ Username u' = Username u /\ core_ok (core u') = true /\ fits 64 (UsedTraffic u').

Lemma set_users_wf d us :
  wf d -> dom us = dom (users d) ->
  (forall i u', us !! i = Some u' -> exists u, users d !! i = Some u /\ row_ok u u') ->
  wf (set_users us d).
Proof.
  intros [Hid Hco Hus Hnm Hpl Hlg Hug Hpx Hex Hnx] Hdom Hrow.
  split; simpl; rewrite ?Hdom; try done.
  - intros i u' Hu'. destruct (Hrow i u' Hu') as (u & Hu & -> & _). by apply Hid.
  - intros i u' Hu'. by destruct (Hrow i u' Hu') as (u & Hu & _ & _ & ? & _).
  - intros i u' Hu'. by destruct (Hrow i u' Hu') as (u & Hu & _ & _ & _ & ?).
  - intros i j u' v' Hu' Hv' Hn.
    destruct (Hrow i u' Hu') as (u & Hu & _ & Eu & _), (Hrow j v' Hv') as (v & Hv & _ & Ev & _).
    apply (Hnm i j u v); [done..|]. by rewrite <- Eu, <- Ev.
Qed.

Lemma row_ok_refl d i u : wf d -> users d !! i = Some u -> row_ok u u.
Proof. intros Hd Hu. split_and!; [done..|by apply (wf_core d Hd i)|by apply (wf_used d Hd i)]. Qed.

Lemma update_user_keeps id f :
  (forall u u', fits 64 (UsedTraffic u) -> f u = Ok u' ->
     ID u' = ID u /\ Username u' = Username u /\ fits 64 (UsedTraffic u')) ->
  keeps (update_user id f).
Proof.
  intros Hf d d' u' Hd. unfold update_user. destruct (users d !! id) as [u|] eqn:Hu; [|done].
  destruct (f u) as [v|] eqn:Hv; [|done]. destruct (core_ok (core v)) eqn:Hc; [|done].
  intros [= <- <-]. destruct (Hf u v (wf_used d Hd id u Hu) Hv) as (E1 & E2 & E3).
  apply set_users_wf; [done| |].
  - rewrite dom_insert_L. assert (id ∈ dom (users d)) by (by eapply elem_of_dom_2). set_solver.
  - intros i w [[<- <-]|[Hne Hw]]%lookup_insert_Some; [by exists u; split_and!|].
    exists w. split; [done|]. by apply (row_ok_refl d i).
Qed.

Lemma update_user_exec_keeps id f : keeps (update_user id f) -> keeps (update_user_exec id f).
Proof.
  intros Hk d d' [] Hd. unfold update_user_exec.
  destruct (update_user id f d) as [[d1 u]|e] eqn:He.
  - intros [= <-]. by eapply Hk.
  - intros H. repeat case_match; by simplify_eq.
Qed.

Lemma UpdateUserCore_keeps now id c : keeps (UpdateUserCore now id c).
Proof. apply update_user_keeps. intros u u' Hu [= <-]. done. Qed.
Lemma ResetUserTraffic_keeps id s : keeps (ResetUserTraffic id s).
Proof. apply update_user_keeps. intros u u' Hu [= <-]. done. Qed.
Lemma SetUserSubRevoked_keeps now id : keeps (SetUserSubRevoked now id).
Proof. apply update_user_keeps. intros u u' Hu [= <-]. done. Qed.
Lemma SetUserOwner_keeps id a : keeps (SetUserOwner id a).
Proof. apply update_user_keeps. intros u u' Hu [= <-]. done. Qed.
Lemma UpdateUserStatusOnly_keeps now id s : keeps (UpdateUserStatusOnly now id s).
Proof. apply update_user_exec_keeps, update_user_keeps. intros u u' Hu [= <-]. done. Qed.

Lemma ActivateOnHoldUser_keeps now id : keeps (ActivateOnHoldUser now id).
Proof.
  apply update_user_exec_keeps, update_user_keeps. intros u u' Hu. cbv zeta.
  destruct (OnHoldExpireDuration (core u)); [|by intros [= <-]].
  intros (e & _ & [= <-])%result_bind_ok. done.
Qed.

Lemma ResetUserByNextPlan_keeps now id : keeps (ResetUserByNextPlan now id).
Proof.
  intros d d' a Hd. unfold ResetUserByNextPlan. destruct (next_plans d !! id); [|done].
  apply update_user_keeps; [|done]. intros u u' Hu.
  intros (l & _ & (e & _ & [= <-])%result_bind_ok)%result_bind_ok. done.
Qed.

Lemma find_user_None username d i u :
  find_user username d = None -> users d !! i = Some u -> Username u <> username.
Proof.
  intros Hf Hu He. unfold find_user in Hf.
  assert (In u (map snd (map_to_list (users d)))) as Hin.
  { apply in_map_iff. exists (i, u). split; [done|]. by apply list_elem_of_In, elem_of_map_to_list. }
  pose proof (find_none _ _ Hf u Hin) as Hn. simpl in Hn. by apply String.eqb_neq in Hn.
Qed.

Lemma CreateUser_keeps now username c a : keeps (CreateUser now username c a).
Proof.
  intros d d' u Hd. pose proof Hd as [Hid Hco Hus Hnm Hpl Hlg Hug Hpx Hex Hnx].
  unfold CreateUser. destruct (core_ok c) eqn:Hc; [|done]. simpl.
  destruct (_ <? _)%nat; [done|]. destruct (find_user username d) eqn:Hf; [done|].
  intros [= <- <-]. set (u := mkUser _ _ _ _ _ _ _ _ _ _ _).
  destruct (Hnx (next_id d)) as [Hfresh Hfreshp]; [lia|].
  split; simpl; rewrite ?dom_insert_L; try done.
  - intros i v [[<- <-]|[_ Hv]]%lookup_insert_Some; [done|by apply Hid].
  - intros i v [[<- <-]|[_ Hv]]%lookup_insert_Some; [done|by eapply Hco].
  - intros i v [[<- <-]|[_ Hv]]%lookup_insert_Some; [done|by eapply Hus].
  - intros i j v w [[<- <-]|[_ Hv]]%lookup_insert_Some [[<- <-]|[_ Hw]]%lookup_insert_Some He;
      [done| | |by eapply Hnm].
    + by destruct (find_user_None _ _ _ _ Hf Hw).
    + by destruct (find_user_None _ _ _ _ Hf Hv).
  - set_solver.
  - intros i n Hin. specialize (Hlg i n Hin). set_solver.
  - intros h v n x Hx. specialize (Hug h v n x Hx). set_solver.
  - intros i p Hp. destruct (Hpx i p Hp). split; [done|set_solver].
  - intros i Hi. destruct (Hnx i) as [? ?]; [lia|]. split; [|done].
    rewrite elem_of_union, elem_of_singleton. intros [->|?]; [lia|done].
Qed.

(** Changes outside the users table. *)
Lemma set_next_plans_wf d ps : wf d -> dom ps ⊆ dom (users d) -> wf (set_next_plans ps d).
Proof. intros [] Hd. by split. Qed.

Lemma set_logs_wf d ls :
  wf d -> (forall i n, In (i, n) ls -> i ∈ dom (users d)) -> wf (set_logs ls d).
Proof. intros [] Hd. by split. Qed.

Lemma set_node_user_usages_wf d m :
  wf d -> (forall h u n x, m !! (h, u, n) = Some x -> u ∈ dom (users d)) ->
  wf (set_node_user_usages m d).
Proof. intros [] Hd. by split. Qed.

Lemma UpsertNextPlan_keeps id p : keeps (UpsertNextPlan id p).
Proof.
  intros d d' [] Hd. unfold UpsertNextPlan. destruct (users d !! id) eqn:Hu; [|done].
  intros [= <-]. apply set_next_plans_wf; [done|]. rewrite dom_insert_L.
  pose proof (wf_plans d Hd). assert (id ∈ dom (users d)) by (by eapply elem_of_dom_2). set_solver.
Qed.

Lemma DeleteNextPlanByUserID_keeps id : keeps (DeleteNextPlanByUserID id).
Proof.
  intros d d' [] Hd [= <-]. apply set_next_plans_wf; [done|]. rewrite dom_delete_L.
  pose proof (wf_plans d Hd). set_solver.
Qed.

Lemma DeleteNextPlansByUserIDs_keeps ids : keeps (DeleteNextPlansByUserIDs ids).
Proof.
  intros d d' [] Hd [= <-]. apply set_next_plans_wf; [done|].
  etrans; [apply dom_filter_subseteq|]. apply (wf_plans d Hd).
Qed.

Lemma CreateUserUsageLog_keeps id used : keeps (CreateUserUsageLog id used).
Proof.
  intros d d' [] Hd. unfold CreateUserUsageLog. destruct (users d !! id) eqn:Hu; [|done].
  intros [= <-]. apply set_logs_wf; [done|].
  intros i n [Hin|[[= <- <-]|[]]]%in_app_or; [by eapply wf_logs|by eapply elem_of_dom_2].
Qed.

Lemma DeleteUserUsageLogsByUserIDs_keeps ids : keeps (DeleteUserUsageLogsByUserIDs ids).
Proof.
  intros d d' [] Hd [= <-]. apply set_logs_wf; [done|].
  intros i n [Hin _]%filter_In. by eapply wf_logs.
Qed.

Lemma DeleteNodeUserUsagesByUserIDs_keeps ids : keeps (DeleteNodeUserUsagesByUserIDs ids).
Proof.
  intros d d' [] Hd [= <-]. apply set_node_user_usages_wf; [done|].
  intros h u n x [Hx _]%map_lookup_filter_Some. by eapply wf_usages.
Qed.

Lemma ClearNodeUserUsages_keeps id : keeps (ClearNodeUserUsages id).
Proof. apply DeleteNodeUserUsagesByUserIDs_keeps. Qed.

Lemma core_ok_with_status c s :
  core_ok c = true -> str_mem s all_statuses = true -> core_ok (with_status s c) = true.
Proof.
  unfold core_ok, with_status. cbn -[str_mem all_statuses all_strategies opt_fits Nat.leb].
  intros Hc Hs. go_bool. by repeat (apply andb_true_iff; split).
Qed.

Lemma ResetUsersUsageByIDs_keeps ids : keeps (ResetUsersUsageByIDs ids).
Proof.
  intros d d' [] Hd [= <-]. apply set_users_wf; [done| |].
  - apply dom_imap_L. intros i. split.
    + intros [u Hu]%elem_of_dom. eauto.
    + intros (u & Hu & _). by eapply elem_of_dom_2.
  - intros i u'. rewrite map_lookup_imap. destruct (users d !! i) as [u|] eqn:Hu; [|done].
    simpl. intros [= <-]. exists u. split; [done|].
    pose proof (row_ok_refl d i u Hd Hu) as (? & ? & Hc & ?).
    case_bool_decide; [|done]. split_and!; [done..| |done].
    apply (core_ok_with_status (core u)); [done|].
    assert (str_mem (Status (core u)) all_statuses = true) by (unfold core_ok in Hc; by go_bool).
    by match goal with |- str_mem (if ?b then _ else _) _ = _ => destruct b end.
Qed.

Lemma cascade_wf ids d : wf d -> wf (cascade ids d).
Proof.
  intros [Hid Hco Hus Hnm Hpl Hlg Hug Hpx Hex Hnx]. unfold cascade. split; simpl.
  - intros i u [Hu _]%map_lookup_filter_Some. by apply Hid.
  - intros i u [Hu _]%map_lookup_filter_Some. by eapply Hco.
  - intros i u [Hu _]%map_lookup_filter_Some. by eapply Hus.
  - intros i j u v [Hu _]%map_lookup_filter_Some [Hv _]%map_lookup_filter_Some. by apply Hnm.
  - intros i [p [Hp Hi]%map_lookup_filter_Some]%elem_of_dom.
    assert (i ∈ dom (users d)) as [u Hu]%elem_of_dom by (apply Hpl; by eapply elem_of_dom_2).
    apply elem_of_dom. exists u. by apply map_lookup_filter_Some.
  - intros i n [Hin Hi%bool_decide_eq_true]%filter_In.
    pose proof (Hlg i n Hin) as [u Hu]%elem_of_dom.
    apply elem_of_dom. exists u. by apply map_lookup_filter_Some.
  - intros h u n x [Hx Hi]%map_lookup_filter_Some. pose proof (Hug h u n x Hx) as [v Hv]%elem_of_dom.
    apply elem_of_dom. exists v. by apply map_lookup_filter_Some.
  - intros i p [Hp Hi]%map_lookup_filter_Some. destruct (Hpx i p Hp) as [? [v Hv]%elem_of_dom].
    split; [done|]. apply elem_of_dom. exists v. by apply map_lookup_filter_Some.
  - intros i [p [Hp Hi]%map_lookup_filter_Some]%elem_of_dom.
    assert (i ∈ dom (proxies d)) as [q Hq]%elem_of_dom by (apply Hex; by eapply elem_of_dom_2).
    apply elem_of_dom. exists q. apply map_lookup_filter_Some. split; [done|].
    intros Hin. apply Hi, elem_of_dom. exists q. by apply map_lookup_filter_Some.
  - intros i Hi. destruct (Hnx i Hi) as [H1 H2]. split; intros Hin.
    + apply H1. revert i Hi Hin H1 H2. intros i _ Hin _ _. by apply dom_filter_subseteq in Hin.
    + apply H2. by apply dom_filter_subseteq in Hin.
Qed.

Lemma DeleteUsersByIDs_keeps ids : keeps (DeleteUsersByIDs ids).
Proof. intros d d' [] Hd [= <-]. by apply cascade_wf. Qed.
Lemma DeleteUser_keeps id : keeps (DeleteUser id).
Proof. apply DeleteUsersByIDs_keeps. Qed.

Lemma CreateProxy_keeps uid t s : keeps (CreateProxy uid t s).
Proof.
  intros d d' p [Hid Hco Hus Hnm Hpl Hlg Hug Hpx Hex Hnx]. unfold CreateProxy.
  destruct (users d !! uid) as [u|] eqn:Hu; [|done]. intros [= <- <-].
  split; simpl; rewrite ?dom_insert_L; try done.
  - intros i q [[<- <-]|[_ Hq]]%lookup_insert_Some; [|by apply Hpx].
    split; [done|]. by eapply elem_of_dom_2.
  - set_solver.
  - intros i Hi. destruct (Hnx i) as [? ?]; [lia|]. split; [done|].
    rewrite elem_of_union, elem_of_singleton. intros [->|?]; [lia|done].
Qed.

Lemma UpdateProxySettings_keeps id s : keeps (UpdateProxySettings id s).
Proof.
  intros d d' [] [Hid Hco Hus Hnm Hpl Hlg Hug Hpx Hex Hnx]. unfold UpdateProxySettings.
  destruct (proxies d !! id) as [p|] eqn:Hp; [|done]. intros [= <-].
  assert (dom (<[id := mkProxy id (p_UserID p) (p_Type p) s]> (proxies d)) = dom (proxies d)) as Hdom.
  { rewrite dom_insert_L. assert (id ∈ dom (proxies d)) by (by eapply elem_of_dom_2). set_solver. }
  split; simpl; rewrite ?Hdom; try done.
  intros i q [[<- <-]|[_ Hq]]%lookup_insert_Some; [|by apply Hpx].
  split; [done|]. exact (proj2 (Hpx id p Hp)).
Qed.

Lemma DeleteProxyByID_keeps id : keeps (DeleteProxyByID id).
Proof.
  intros d d' [] [Hid Hco Hus Hnm Hpl Hlg Hug Hpx Hex Hnx] [= <-].
  split; simpl; rewrite ?dom_delete_L; try done.
  - intros i p [_ Hp]%lookup_delete_Some. by apply Hpx.
  - set_solver.
  - intros i Hi. destruct (Hnx i Hi). set_solver.
Qed.

Lemma set_excluded_wf d es : wf d -> dom es ⊆ dom (proxies d) -> wf (set_excluded es d).
Proof. intros [] Hd. by split. Qed.

Lemma DeleteExcludedInbounds_keeps id : keeps (DeleteExcludedInbounds id).
Proof.
  intros d d' [] Hd [= <-]. apply set_excluded_wf; [done|]. rewrite dom_delete_L.
  pose proof (wf_excluded d Hd). set_solver.
Qed.

Lemma ReplaceExcludedInbounds_keeps id tags : keeps (ReplaceExcludedInbounds id tags).
Proof.
  intros d d' [] Hd. unfold ReplaceExcludedInbounds. cbv zeta.
  destruct (proxies d !! id) as [p|] eqn:Hp; [|done].
  destruct (forallb _ tags); [|done]. simpl. case_bool_decide; [|done]. intros [= <-].
  apply set_excluded_wf; [done|]. rewrite dom_insert_L. pose proof (wf_excluded d Hd).
  assert (id ∈ dom (proxies d)) by (by eapply elem_of_dom_2). set_solver.
Qed.

Lemma add_used_lookup now ds us i u' :
  foldl (add_used now) us ds !! i = Some u' ->
  exists u, us !! i = Some u /\ ID u' = ID u /\ Username u' = Username u /\ core u' = core u.
Proof.
  revert us. induction ds as [|[k n] ds IH]; intros us; simpl; [intros Hu; eauto|].
  intros (u & Hu & E1 & E2 & E3)%IH. unfold add_used in Hu. simpl in Hu.
  destruct (decide (k = i)) as [->|Hne].
  - rewrite lookup_alter_eq in Hu. destruct (us !! i) as [v|]; [|done]. simpl in Hu. simplify_eq.
    exists v. by rewrite E1, E2, E3.
  - rewrite lookup_alter_ne in Hu by done. eauto 10.
Qed.

Lemma add_used_dom now ds us : dom (foldl (add_used now) us ds) = dom us.
Proof.
  revert us. induction ds as [|[k n] ds IH]; intros us; simpl; [done|].
  rewrite IH. unfold add_used. by rewrite dom_alter_L.
Qed.

Lemma BulkIncrementUserUsage_keeps now ds : keeps (BulkIncrementUserUsage now ds).
Proof.
  intros d d' [] Hd. unfold BulkIncrementUserUsage. cbv zeta. case_bool_decide as Hfit; [|done].
  intros [= <-]. apply set_users_wf; [done|apply add_used_dom|].
  intros i u' Hu'. destruct (add_used_lookup _ _ _ _ _ Hu') as (u & Hu & E1 & E2 & E3).
  exists u. split; [done|]. split_and!; [done..| |by apply (Hfit i)].
  rewrite E3. by apply (wf_core d Hd i).
Qed.

Lemma bulk_bump_lookup {K} `{Countable K} (ds : list (K * Z)) m k x :
  bulk_bump ds m !! k = Some x -> In k (map fst ds) \/ is_Some (m !! k).
Proof.
  revert m. induction ds as [|[k' n] ds IH]; intros m; simpl; [eauto|].
  intros [?|Hs]%IH; [by left; right|]. unfold bump in Hs. simpl in Hs.
  destruct (decide (k' = k)) as [->|]; [by left; left|]. rewrite lookup_insert_ne in Hs by done. auto.
Qed.

Lemma BulkUpsertNodeUserUsage_keeps hour nodeID ds : keeps (BulkUpsertNodeUserUsage hour nodeID ds).
Proof.
  intros d d' [] Hd. unfold BulkUpsertNodeUserUsage. cbv zeta.
  destruct (forallb _ ds) eqn:Hfk; [|done]. simpl. destruct (all_fit8 _); [|done].
  intros [= <-]. apply set_node_user_usages_wf; [done|]. intros h u n x Hx.
  apply bulk_bump_lookup in Hx as [Hin|[y Hy]]; [|by eapply wf_usages].
  rewrite map_map in Hin. apply in_map_iff in Hin as ([u' n'] & [= <- <- <-] & Hin).
  rewrite forallb_forall in Hfk. specialize (Hfk _ Hin). simpl in Hfk.
  destruct (users d !! u') eqn:Hu; [|done]. by eapply elem_of_dom_2.
Qed.

Lemma set_admins_wf d aa q : wf d -> wf (set_admins aa q d).
Proof. intros []. by split. Qed.
Lemma set_node_totals_wf d nu ns sys : wf d -> wf (set_node_totals nu ns sys d).
Proof. intros []. by split. Qed.

Lemma BulkIncrementAdminUsage_keeps ds b : keeps (BulkIncrementAdminUsage ds b).
Proof.
  intros d d' [] Hd. unfold BulkIncrementAdminUsage. cbv zeta. destruct (_ && _); [|done].
  intros [= <-]. by apply set_admins_wf.
Qed.
Lemma UpsertNodeUsage_keeps hour nodeID n : keeps (UpsertNodeUsage hour nodeID n).
Proof.
  intros d d' [] Hd. unfold UpsertNodeUsage. cbv zeta. destruct (fit2 _); [|done].
  intros [= <-]. by apply set_node_totals_wf.
Qed.
Lemma IncrementNodeCumulative_keeps nodeID n : keeps (IncrementNodeCumulative nodeID n).
Proof.
  intros d d' [] Hd. unfold IncrementNodeCumulative. cbv zeta.
  destruct (nodes d !! nodeID); [|by intros [= <-]]. destruct (fit2 _); [|done].
  intros [= <-]. by apply set_node_totals_wf.
Qed.
Lemma IncrementSystemCumulative_keeps n : keeps (IncrementSystemCumulative n).
Proof.
  intros d d' [] Hd. unfold IncrementSystemCumulative. cbv zeta. destruct (fit2 _); [|done].
  intros [= <-]. by apply set_node_totals_wf.
Qed.
Lemma MarkResellerAPIUsageReported_keeps sent : keeps (MarkResellerAPIUsageReported sent).
Proof.
  intros d d' [] Hd. unfold MarkResellerAPIUsageReported. cbv zeta.
  case_bool_decide; [|done]. intros [= <-]. by apply set_admins_wf.
Qed.
Lemma DeleteOldNodeUserUsages_keeps cutoff batch : keeps (DeleteOldNodeUserUsages cutoff batch).
Proof.
  intros d d' n Hd [= <- _]. apply set_node_user_usages_wf; [done|].
  intros h u m x [Hx _]%map_lookup_filter_Some. by eapply wf_usages.
Qed.

#[export] Hint Resolve UpdateUserCore_keeps ResetUserTraffic_keeps SetUserSubRevoked_keeps
  SetUserOwner_keeps UpdateUserStatusOnly_keeps ActivateOnHoldUser_keeps ResetUserByNextPlan_keeps
  CreateUser_keeps UpsertNextPlan_keeps DeleteNextPlanByUserID_keeps DeleteNextPlansByUserIDs_keeps
  CreateUserUsageLog_keeps DeleteUserUsageLogsByUserIDs_keeps DeleteNodeUserUsagesByUserIDs_keeps
  ClearNodeUserUsages_keeps ResetUsersUsageByIDs_keeps DeleteUsersByIDs_keeps DeleteUser_keeps
  CreateProxy_keeps UpdateProxySettings_keeps DeleteProxyByID_keeps DeleteExcludedInbounds_keeps
  ReplaceExcludedInbounds_keeps BulkIncrementUserUsage_keeps BulkUpsertNodeUserUsage_keeps
  BulkIncrementAdminUsage_keeps UpsertNodeUsage_keeps IncrementNodeCumulative_keeps
  IncrementSystemCumulative_keeps MarkResellerAPIUsageReported_keeps
  DeleteOldNodeUserUsages_keeps : store.

(** ** Reasoning about successful runs *)

Lemma bind_ok {E A B} (m : M E A) (f : A -> M E B) w w' b :
  (m ≫= f) w = (w', Ok b) <-> exists w1 a, m w = (w1, Ok a) /\ f a w1 = (w', Ok b).
Proof.
  unfold mbind, M_bind. destruct (m w) as [w1 [a|e]]; naive_solver.
Qed.

Lemma stmt_ok {A} (q : Db -> result dberror (Db * A)) w w' a :
  stmt q w = (w', Ok a) -> q (db w) = Ok (db w', a).
Proof.
  unfold stmt. destruct (faults w) as [|[] fs]; [|done|];
    destruct (q (db w)) as [[d b]|]; intros [= <- <-]; done.
Qed.

Lemma query_ok {A} (q : Db -> result dberror A) w w' a :
  query q w = (w', Ok a) -> q (db w) = Ok a /\ db w' = db w.
Proof.
  intros Hs%stmt_ok. destruct (q (db w)); [|done]. by injection Hs as <- <-.
Qed.

Lemma or_else_ok {E E' A} (m : M E A) (f : E -> E') w w' a :
  or_else m f w = (w', Ok a) <-> m w = (w', Ok a).
Proof. unfold or_else. destruct (m w) as [w1 []]; naive_solver. Qed.

(** A query leaves the database as it is, whatever comes out. *)
Lemma query_db {A} (q : Db -> result dberror A) w : db (query q w).1 = db w.
Proof.
  unfold query, stmt. destruct (faults w) as [|[] fs]; [|done|]; by destruct (q (db w)).
Qed.

Lemma attempt_query_ok {E A} (q : Db -> result dberror A) w w' (r : result dberror A) :
  attempt (E':=E) (query q) w = (w', Ok r) ->
  db w' = db w /\ (r = q (db w) \/ r = Err Unavailable).
Proof.
  unfold attempt. pose proof (query_db q w) as Hdb. revert Hdb. unfold query, stmt.
  destruct (faults w) as [|[] fs]; [| |]; destruct (q (db w)); intros Hdb [= <- <-]; auto.
Qed.

Lemma select_elem p d u :
  wf d -> In u (select p d) <-> users d !! ID u = Some u /\ p u = true.
Proof.
  intros Hd. unfold select. rewrite filter_In, in_map_iff. split.
  - intros [([i v] & <- & Hin) Hp]. apply list_elem_of_In, elem_of_map_to_list in Hin.
    simpl. by rewrite (wf_id d Hd i v Hin).
  - intros [Hu Hp]. split; [|done]. exists (ID u, u). split; [done|].
    by apply list_elem_of_In, elem_of_map_to_list.
Qed.

Lemma select_NoDup p d : wf d -> NoDup (map ID (select p d)).
Proof.
  intros Hd. unfold select.
  assert (map ID (map snd (map_to_list (users d))) = (map_to_list (users d)).*1) as E.
  { rewrite map_map. apply map_ext_in. intros [i u] Hin. simpl.
    apply (wf_id d Hd). by apply list_elem_of_In, elem_of_map_to_list in Hin. }
  assert (forall l, NoDup (map ID l) -> NoDup (map ID (List.filter p l))) as Hf.
  { induction l as [|u l IH]; [done|]. simpl. intros [Hn Hnd]%NoDup_cons.
    destruct (p u); [|auto]. simpl. apply NoDup_cons. split; [|auto].
    intros Hin. apply Hn. apply list_elem_of_In, in_map_iff in Hin as (v & Ev & [Hv _]%filter_In).
    apply list_elem_of_In, in_map_iff. eauto. }
  apply Hf. rewrite E. apply NoDup_fst_map_to_list.
Qed.

Lemma update_user_ok id f d d' u' :
  update_user id f d = Ok (d', u') ->
  exists u, users d !! id = Some u /\ f u = Ok u' /\ d' = set_users (<[id := u']> (users d)) d.
Proof.
  unfold update_user. intros Hu.
  repeat case_match; simplify_eq. eauto.
Qed.

Lemma update_user_exec_ok id f d d' u :
  update_user_exec id f d = Ok (d', tt) -> users d !! id = Some u -> f u <> Err NoRows ->
  exists u', f u = Ok u' /\ d' = set_users (<[id := u']> (users d)) d.
Proof.
  unfold update_user_exec, update_user. intros Hu Hid Hf. rewrite Hid in Hu.
  destruct (f u) as [u'|[]]; try done. destruct (core_ok (core u')); [|done]. simplify_eq. eauto.
Qed.
End Store.
