(* ===== verification/ReviewJob.v ===== *)
(** * ReviewJob: limits, expiry and holds — [internal/reviewjob]

    The background job that moves users between statuses: an active user who
    crossed the data limit or the expiry becomes limited or expired, or has the
    pending next plan applied; a held user becomes active once seen online or once
    the hold timed out. [now] is the job's clock at the start of the tick, [dbnow]
    the database's; notifications and log lines are left out. *)

From S2P Require Import Prelude GoStrings ProxySettings Store.

Import Store.
#[local] Open Scope Z_scope.

Module ReviewJob.

Definition isLimited (u : User) : bool :=
  match DataLimit (core u) with
  | Some l => (0 <? l) && (l <=? UsedTraffic u)
  | None => false
  end.

Definition isExpired (nowUnix : Z) (u : User) : bool :=
  match Expire (core u) with
  | Some e => negb (e =? 0) && (e <=? nowUnix)
  | None => false
  end.

(** [fireNextPlan]: log the usage so far, clear the per-node history, apply the
    plan, drop it. *)
Definition fireNextPlan (dbnow : Z) (user : User) : M dberror User :=
  _ ← stmt (CreateUserUsageLog (ID user) (UsedTraffic user));
  _ ← stmt (ClearNodeUserUsages (ID user));
  updated ← stmt (ResetUserByNextPlan dbnow (ID user));
  _ ← stmt (DeleteNextPlanByUserID (ID user));
  mret updated.

(** Whether a user's plan fires: on either limit, or only when both are hit. *)
Definition fires (limited expired : bool) (plan : NextPlan) : bool :=
  FireOnEither plan || (limited && expired).

(** The body of the loop over the users to review. *)
Definition reviewActiveUser (now dbnow : Z) (user : User) : M dberror unit :=
  let limited := isLimited user in
  let expired := isExpired (unix now) user in
  let flip :=
    if limited then stmt (UpdateUserStatusOnly dbnow (ID user) "limited")
    else if expired then stmt (UpdateUserStatusOnly dbnow (ID user) "expired")
    else mret tt in
  if limited || expired then
    r ← attempt (query (GetNextPlanByUserID (ID user)));
    match r with
    | Err NoRows => flip
    | Err e => fail e
    | Ok plan =>
        if fires limited expired plan
        then _ ← fireNextPlan dbnow user; mret tt
        else flip
    end
  else flip.

(** The bound of the query is the clock in 32 bits. *)
Definition reviewActiveUsers (now dbnow : Z) : M dberror unit :=
  users ← query (GetUsersNeedingStatusReview (int32 (unix now)));
  for_each (reviewActiveUser now dbnow) users.

Definition shouldActivate (now : Z) (u : User) : bool :=
  let baseTime := default (CreatedAt u) (EditAt u) in
  if match OnlineAt u with Some t => baseTime <=? t | None => false end then true
  else match OnHoldTimeout (core u) with Some t => t <=? now | None => false end.

Definition reviewOnHoldUsers (now dbnow : Z) : M dberror unit :=
  users ← query GetOnHoldUsers;
  for_each (fun u => if shouldActivate now u then stmt (ActivateOnHoldUser dbnow (ID u))
                     else mret tt) users.

Definition review (now dbnow : Z) : M dberror unit :=
  _ ← reviewActiveUsers now dbnow;
  reviewOnHoldUsers now dbnow.

(** ** The database stays well formed *)

Lemma fireNextPlan_preserves dbnow u : preserves (fireNextPlan dbnow u).
Proof. unfold fireNextPlan. eauto 20 with store. Qed.

Lemma reviewActiveUser_preserves now dbnow u : preserves (reviewActiveUser now dbnow u).
Proof.
  unfold reviewActiveUser. cbv zeta.
  assert (preserves (if isLimited u then stmt (UpdateUserStatusOnly dbnow (ID u) "limited")
    else if isExpired (unix now) u then stmt (UpdateUserStatusOnly dbnow (ID u) "expired")
    else mret tt)) as Hflip by auto with store.
  apply preserves_if; [|done]. apply preserves_bind; [auto with store|].
  intros [plan|[]]; auto using fireNextPlan_preserves with store.
Qed.

Lemma reviewActiveUsers_preserves now dbnow : preserves (reviewActiveUsers now dbnow).
Proof.
  unfold reviewActiveUsers. apply preserves_bind; [auto with store|]. intros us.
  apply preserves_for_each, reviewActiveUser_preserves.
Qed.

(** Whatever fails along the way, a tick leaves a well-formed database. *)
Theorem review_preserves now dbnow w : wf (db w) -> wf (db (review now dbnow w).1).
Proof.
  revert w. change (preserves (review now dbnow)). unfold review, reviewOnHoldUsers.
  apply preserves_bind; [apply reviewActiveUsers_preserves|]. auto 10 with store.
Qed.

(** ** What a tick does to a row *)

(** A row after its plan was applied. *)
Definition renewed (dbnow : Z) (p : NextPlan) (u : User) : User :=
  let c := core u in
  with_core (mkCore "active"
    (if AddRemainingTraffic p then Some (np_DataLimit p)
     else (fun l => np_DataLimit p + (l - UsedTraffic u)) <$> DataLimit c)
    (DataLimitResetStrategy c) ((fun e => unix dbnow + e) <$> np_Expire p) (Note c)
    (OnHoldExpireDuration c) (OnHoldTimeout c) (AutoDeleteInDays c)) (with_used 0 u).

Definition flipped (dbnow : Z) (status : string) (u : User) : User :=
  touch_status dbnow (with_core (with_status status (core u)) u).

Definition activated (dbnow : Z) (u : User) : User :=
  let c := core u in
  touch_status dbnow (with_core (mkCore "active" (DataLimit c) (DataLimitResetStrategy c)
    ((fun dur => unix dbnow + dur) <$> OnHoldExpireDuration c) (Note c) None None
    (AutoDeleteInDays c)) u).

(** The first pass, on an active user. *)
Definition reviewed_active (now dbnow : Z) (plan : option NextPlan) (u : User) : User :=
  let limited := isLimited u in
  let expired := isExpired (unix now) u in
  if limited || expired then
    match plan with
    | Some p => if fires limited expired p then renewed dbnow p u
                else flipped dbnow (if limited then "limited" else "expired") u
    | None => flipped dbnow (if limited then "limited" else "expired") u
    end
  else u.

(** A whole tick, on any user. *)
Definition reviewed (now dbnow : Z) (plan : option NextPlan) (u : User) : User :=
  if String.eqb (Status (core u)) "active" then reviewed_active now dbnow plan u
  else if String.eqb (Status (core u)) "on_hold" then
    if shouldActivate now u then activated dbnow u else u
  else u.

(** A step for a user: its own row becomes [R], every other row and plan stays. *)
Definition acts (f : User -> M dberror unit) (R : option NextPlan -> User -> User) : Prop :=
  forall u w w', f u w = (w', Ok tt) -> users (db w) !! ID u = Some u ->
    users (db w') = <[ID u := R (next_plans (db w) !! ID u) u]> (users (db w)) /\
    forall i, i <> ID u -> next_plans (db w') !! i = next_plans (db w) !! i.

Lemma for_each_acts f R l w w' :
  acts f R -> NoDup (map ID l) -> (forall u, In u l -> users (db w) !! ID u = Some u) ->
  for_each f l w = (w', Ok tt) ->
  (forall i, ~ In i (map ID l) -> users (db w') !! i = users (db w) !! i) /\
  (forall u, In u l -> users (db w') !! ID u = Some (R (next_plans (db w) !! ID u) u)).
Proof.
  intros Hf. revert w. induction l as [|u l IH]; intros w Hnd Hin Hrun.
  { injection Hrun as <-. split; [done|by intros u []]. }
  simpl in Hnd. apply NoDup_cons in Hnd as [Hni Hnd]. rewrite list_elem_of_In in Hni.
  simpl in Hrun. apply bind_ok in Hrun as (w1 & [] & Hu & Hrun).
  destruct (Hf u w w1 Hu) as [Hus Hps]; [apply Hin; by left|].
  assert (forall v, In v l -> ID v <> ID u) as Hne.
  { intros v Hv E. apply Hni. rewrite <- E. by apply in_map. }
  destruct (IH w1 Hnd) as [IH1 IH2]; [|done|].
  { intros v Hv. rewrite Hus, lookup_insert_ne by (symmetry; by apply Hne).
    apply Hin. by right. }
  split.
  - intros i Hi. simpl in Hi. rewrite IH1 by tauto. rewrite Hus. apply lookup_insert_ne. tauto.
  - intros v [<-|Hv].
    + rewrite IH1 by done. rewrite Hus. apply lookup_insert_eq.
    + rewrite IH2 by done. by rewrite Hps by (by apply Hne).
Qed.

Lemma status_only_acts dbnow s u w w' :
  stmt (UpdateUserStatusOnly dbnow (ID u) s) w = (w', Ok tt) ->
  users (db w) !! ID u = Some u ->
  users (db w') = <[ID u := flipped dbnow s u]> (users (db w)) /\
  next_plans (db w') = next_plans (db w).
Proof.
  intros Hs%stmt_ok Hu. destruct (update_user_exec_ok _ _ _ _ _ Hs Hu) as (u' & [= <-] & ->); done.
Qed.

Lemma int4_ok z n : int4 z = Ok n -> n = z.
Proof. unfold int4. case_bool_decide; naive_solver. Qed.
Lemma int8_ok z n : int8 z = Ok n -> n = z.
Proof. unfold int8. case_bool_decide; naive_solver. Qed.

Lemma plan_limit_ok p u l :
  plan_limit p u = Ok l ->
  l = if AddRemainingTraffic p then Some (np_DataLimit p)
      else (fun l => np_DataLimit p + (l - UsedTraffic u)) <$> DataLimit (core u).
Proof.
  unfold plan_limit. destruct (AddRemainingTraffic p); [naive_solver|].
  destruct (DataLimit (core u)) as [l0|]; [|naive_solver].
  intros (r & ->%int8_ok & (n & ->%int8_ok & [= <-])%result_bind_ok)%result_bind_ok. done.
Qed.

Lemma plan_expire_ok dbnow p e :
  plan_expire dbnow p = Ok e -> e = (fun e => unix dbnow + e) <$> np_Expire p.
Proof.
  unfold plan_expire. destruct (np_Expire p) as [x|]; [|naive_solver].
  intros (n & ->%int4_ok & [= <-])%result_bind_ok. done.
Qed.

Lemma fireNextPlan_acts dbnow u p w w' r :
  fireNextPlan dbnow u w = (w', Ok r) ->
  users (db w) !! ID u = Some u -> next_plans (db w) !! ID u = Some p ->
  users (db w') = <[ID u := renewed dbnow p u]> (users (db w)) /\
  next_plans (db w') = delete (ID u) (next_plans (db w)).
Proof.
  unfold fireNextPlan. intros Hrun Hu Hp.
  apply bind_ok in Hrun as (w1 & [] & H1%stmt_ok & Hrun).
  apply bind_ok in Hrun as (w2 & [] & H2%stmt_ok & Hrun).
  apply bind_ok in Hrun as (w3 & u' & H3%stmt_ok & Hrun).
  apply bind_ok in Hrun as (w4 & [] & H4%stmt_ok & [= <- _]).
  unfold CreateUserUsageLog in H1. rewrite Hu in H1. injection H1 as Hw1.
  injection H2 as Hw2. injection H4 as Hw4.
  unfold ResetUserByNextPlan in H3. rewrite <- Hw2, <- Hw1 in H3. simpl in H3. rewrite Hp in H3.
  apply update_user_ok in H3 as (v & Hv & Hf & Hw3). simpl in Hv. rewrite Hu in Hv.
  injection Hv as <-.
  apply result_bind_ok in Hf as (l & Hl%plan_limit_ok & Hf).
  apply result_bind_ok in Hf as (e & He%plan_expire_ok & [= Hf]).
  rewrite <- Hw4, Hw3, <- Hf, Hl, He. done.
Qed.

Lemma reviewActiveUser_acts now dbnow :
  acts (reviewActiveUser now dbnow) (reviewed_active now dbnow).
Proof.
  intros u w w' Hrun Hu. unfold reviewActiveUser in Hrun. cbv zeta in Hrun.
  unfold reviewed_active. cbv zeta.
  destruct (isLimited u || isExpired (unix now) u) eqn:Hneed.
  2:{ apply orb_false_iff in Hneed as [Hl He]. rewrite Hl, He in Hrun. injection Hrun as <-.
      by rewrite insert_id. }
  apply bind_ok in Hrun as (w1 & r & Hq & Hrun).
  apply attempt_query_ok in Hq as [Hdb Hr]. rewrite <- Hdb in Hu |- *.
  set (s := if isLimited u then "limited"%string else "expired"%string).
  assert (forall w2, (if isLimited u then stmt (UpdateUserStatusOnly dbnow (ID u) "limited")
       else if isExpired (unix now) u then stmt (UpdateUserStatusOnly dbnow (ID u) "expired")
       else mret tt) w1 = (w2, Ok tt) ->
     users (db w2) = <[ID u := flipped dbnow s u]> (users (db w1)) /\
     next_plans (db w2) = next_plans (db w1)) as Hflip.
  { intros w2 Hs. subst s. destruct (isLimited u); [by apply status_only_acts|].
    simpl in Hneed. rewrite Hneed in Hs. by apply status_only_acts. }
  unfold GetNextPlanByUserID in Hr. rewrite <- Hdb in Hr.
  destruct (next_plans (db w1) !! ID u) as [p|] eqn:Hp.
  - destruct Hr as [->| ->]; [|done].
    destruct (fires (isLimited u) (isExpired (unix now) u) p).
    + apply bind_ok in Hrun as (w2 & r' & Hfire & [= <-]).
      destruct (fireNextPlan_acts _ _ _ _ _ _ Hfire Hu Hp) as [-> ->].
      split; [done|]. intros i Hi. by rewrite lookup_delete_ne.
    + destruct (Hflip w' Hrun) as [-> ->]. done.
  - destruct Hr as [->| ->]; [|done]. destruct (Hflip w' Hrun) as [-> ->]. done.
Qed.

Lemma activate_acts now dbnow :
  acts (fun u => if shouldActivate now u then stmt (ActivateOnHoldUser dbnow (ID u)) else mret tt)
       (fun _ u => if shouldActivate now u then activated dbnow u else u).
Proof.
  intros u w w' Hrun Hu. destruct (shouldActivate now u); [|].
  2:{ injection Hrun as <-. by rewrite insert_id. }
  apply stmt_ok in Hrun. unfold ActivateOnHoldUser in Hrun.
  eapply update_user_exec_ok in Hrun as (u' & Hf & ->); [|done|].
  - unfold activated. cbv zeta in Hf |- *.
    destruct (OnHoldExpireDuration (core u)) as [dur|]; [|by injection Hf as <-].
    apply result_bind_ok in Hf as (e & ->%int4_ok & [= <-]). done.
  - cbv zeta. destruct (OnHoldExpireDuration (core u)) as [dur|]; [|done].
    unfold int4. by case_bool_decide.
Qed.

Lemma reviewed_active_not_held now dbnow p u :
  Status (core u) = "active"%string ->
  Status (core (reviewed_active now dbnow p u)) <> "on_hold"%string.
Proof.
  intros Hs. unfold reviewed_active. cbv zeta.
  destruct (isLimited u), (isExpired (unix now) u); simpl; try (by rewrite Hs);
    destruct p as [p|]; try done; by destruct (fires _ _ p).
Qed.

Definition needs_review (now : Z) (u : User) : bool :=
  String.eqb (Status (core u)) "active" && (isLimited u || isExpired (unix now) u).

Lemma reviewActiveUsers_spec now dbnow w w' :
  wf (db w) -> fits 32 (unix now) -> reviewActiveUsers now dbnow w = (w', Ok tt) ->
  forall i u, users (db w) !! i = Some u ->
    users (db w') !! i =
      Some (if String.eqb (Status (core u)) "active"
            then reviewed_active now dbnow (next_plans (db w) !! i) u else u).
Proof.
  intros Hd Hnow Hrun i u Hu. unfold reviewActiveUsers in Hrun.
  apply bind_ok in Hrun as (w1 & us & Hq & Hrun). apply query_ok in Hq as [Hq Hdb].
  unfold GetUsersNeedingStatusReview in Hq. injection Hq as Hus.
  assert (int32 (unix now) = unix now) as Hint by (by apply wrap_id). rewrite Hint in Hus.
  change (select (needs_review now) (db w) = us) in Hus. rewrite <- Hdb in *.
  pose proof (select_NoDup (needs_review now) (db w1) Hd) as Hnd. rewrite Hus in Hnd.
  assert (forall v, In v us <-> users (db w1) !! ID v = Some v /\ needs_review now v = true) as Hin
    by (intros v; rewrite <- Hus; by apply select_elem).
  destruct (for_each_acts _ _ us w1 w' (reviewActiveUser_acts now dbnow) Hnd) as [Hrest Heach];
    [intros v Hv; by apply Hin|done|].
  pose proof (wf_id (db w1) Hd i u Hu) as Hid.
  destruct (needs_review now u) eqn:Hneed.
  - assert (In u us) as Hmem by (apply Hin; by rewrite Hid).
    pose proof (Heach u Hmem) as He. rewrite Hid in He. rewrite He.
    unfold needs_review in Hneed. apply andb_true_iff in Hneed as [-> _]. done.
  - rewrite Hrest, Hu.
    2:{ intros (v & Hv & [Hv1 Hv2]%Hin)%in_map_iff. rewrite Hv, Hu in Hv1. congruence. }
    destruct (String.eqb (Status (core u)) "active") eqn:Hact; [|done].
    unfold needs_review in Hneed. rewrite Hact in Hneed. simpl in Hneed.
    unfold reviewed_active. by rewrite Hneed.
Qed.

Lemma reviewOnHoldUsers_spec now dbnow w w' :
  wf (db w) -> reviewOnHoldUsers now dbnow w = (w', Ok tt) ->
  forall i u, users (db w) !! i = Some u ->
    users (db w') !! i =
      Some (if String.eqb (Status (core u)) "on_hold" && shouldActivate now u
            then activated dbnow u else u).
Proof.
  intros Hd Hrun i u Hu. unfold reviewOnHoldUsers in Hrun.
  apply bind_ok in Hrun as (w1 & us & Hq & Hrun). apply query_ok in Hq as [Hq Hdb].
  unfold GetOnHoldUsers in Hq. injection Hq as Hus. rewrite <- Hdb in *.
  set (held := fun u => String.eqb (Status (core u)) "on_hold") in *.
  pose proof (select_NoDup held (db w1) Hd) as Hnd. rewrite Hus in Hnd.
  assert (forall v, In v us <-> users (db w1) !! ID v = Some v /\ held v = true) as Hin
    by (intros v; rewrite <- Hus; by apply select_elem).
  destruct (for_each_acts _ _ us w1 w' (activate_acts now dbnow) Hnd) as [Hrest Heach];
    [intros v Hv; by apply Hin|done|].
  pose proof (wf_id (db w1) Hd i u Hu) as Hid. change (String.eqb _ "on_hold") with (held u).
  destruct (held u) eqn:Hheld; simpl.
  - assert (In u us) as Hmem by (apply Hin; by rewrite Hid).
    pose proof (Heach u Hmem) as He. by rewrite Hid in He.
  - rewrite Hrest, Hu; [done|].
    intros (v & Hv & [Hv1 Hv2]%Hin)%in_map_iff. rewrite Hv, Hu in Hv1. congruence.
Qed.

(** What a tick that runs to its end does to every user: active users over their
    limit or past their expiry are renewed by a plan that fires or else become
    limited (which wins) or expired; held users that were seen or timed out become
    active with their period starting now; everyone else is untouched. *)
Lemma review_rows now dbnow w w' :
  wf (db w) -> fits 32 (unix now) -> review now dbnow w = (w', Ok tt) ->
  forall i u, users (db w) !! i = Some u ->
    users (db w') !! i = Some (reviewed now dbnow (next_plans (db w) !! i) u).
Proof.
  intros Hd Hnow Hrun i u Hu. unfold review in Hrun.
  apply bind_ok in Hrun as (w1 & [] & H1 & H2).
  pose proof (reviewActiveUsers_preserves now dbnow w Hd) as Hd1. rewrite H1 in Hd1.
  pose proof (reviewActiveUsers_spec _ _ _ _ Hd Hnow H1 i u Hu) as Hu1.
  rewrite (reviewOnHoldUsers_spec _ _ _ _ Hd1 H2 i _ Hu1). f_equal. unfold reviewed.
  destruct (String.eqb_spec (Status (core u)) "active") as [Hact|Hact].
  - pose proof (reviewed_active_not_held now dbnow (next_plans (db w) !! i) u Hact) as Hn.
    apply String.eqb_neq in Hn. by rewrite Hn.
  - by destruct (String.eqb _ "on_hold"), (shouldActivate now u).
Qed.


(** C31: No overuse survives a tick: a user that is active after it is within its
    limits, unless the tick has just applied a plan or ended a hold. *)
Theorem no_overuse_after_review now dbnow w w' i u u' :
  wf (db w) -> fits 32 (unix now) -> review now dbnow w = (w', Ok tt) ->
  users (db w) !! i = Some u -> users (db w') !! i = Some u' ->
  Status (core u') = "active"%string -> isLimited u' || isExpired (unix now) u' = true ->
  Status (core u) = "on_hold"%string \/
  exists p, next_plans (db w) !! i = Some p /\ fires (isLimited u) (isExpired (unix now) u) p = true.
Proof.
  intros Hd Hnow Hrun Hu Hu' Hact Hover.
  rewrite (review_rows _ _ _ _ Hd Hnow Hrun i u Hu) in Hu'. injection Hu' as <-.
  unfold reviewed in *. destruct (String.eqb_spec (Status (core u)) "active") as [Ha|Ha].
  - right. unfold reviewed_active in *. cbv zeta in *.
    destruct (isLimited u || isExpired (unix now) u) eqn:Hneed; [|congruence].
    destruct (next_plans (db w) !! i) as [p|].
    + destruct (fires _ _ p) eqn:Hf; [eauto|]. by destruct (isLimited u).
    + by destruct (isLimited u).
  - destruct (String.eqb_spec (Status (core u)) "on_hold") as [Hh|Hh]; [by left|congruence].
Qed.

(** *** A concrete panel: three users at noon of some day *)

Definition demo_core (status : string) (limit expire hold : option Z) : Core :=
  mkCore status limit "no_reset" expire None hold None None.

Definition demo_user (i : Z) (name status : string) (used : Z) (limit expire hold online : option Z) :
  User := mkUser i name (demo_core status limit expire hold) used None None 0 None online None None.

Definition noon : Z := 1700000000 * 1000000.

Definition demo_db : Db :=
  mkDb (<[1 := demo_user 1 "ali" "active" 100 (Some 100) None None None]>
        (<[2 := demo_user 2 "sara" "active" 5 None (Some 1600000000) None None]>
         (<[3 := demo_user 3 "reza" "on_hold" 0 None None (Some 86400) (Some 7)]> ∅)))
    {[2 := mkPlan 500 (Some 1000) true true]} ∅ ∅ [] ∅ ∅ ∅ (0, 0) ∅ ∅ [] 4.

Lemma demo_users_cases i u :
  users demo_db !! i = Some u ->
  (i = 1 /\ u = demo_user 1 "ali" "active" 100 (Some 100) None None None) \/
  (i = 2 /\ u = demo_user 2 "sara" "active" 5 None (Some 1600000000) None None) \/
  (i = 3 /\ u = demo_user 3 "reza" "on_hold" 0 None None (Some 86400) (Some 7)).
Proof.
  unfold demo_db; simpl. rewrite !lookup_insert_Some, lookup_empty. naive_solver.
Qed.

Lemma demo_wf : wf demo_db.
Proof.
  split.
  - intros i u [[-> ->]|[[-> ->]|[-> ->]]]%demo_users_cases; done.
  - intros i u [[-> ->]|[[-> ->]|[-> ->]]]%demo_users_cases; done.
  - intros i u [[-> ->]|[[-> ->]|[-> ->]]]%demo_users_cases; vm_compute; split; congruence.
  - intros i j u v [[-> ->]|[[-> ->]|[-> ->]]]%demo_users_cases
      [[-> ->]|[[-> ->]|[-> ->]]]%demo_users_cases; simpl; congruence.
  - unfold demo_db; simpl. set_solver.
  - intros i n [].
  - intros h u n x Hx. unfold demo_db in Hx; simpl in Hx. by rewrite lookup_empty in Hx.
  - intros i p Hp. unfold demo_db in Hp; simpl in Hp. by rewrite lookup_empty in Hp.
  - done.
  - intros i Hi. unfold demo_db in *; simpl in *. rewrite !dom_insert_L, !dom_empty_L.
    split; [|set_solver]. rewrite !elem_of_union, !elem_of_singleton, elem_of_empty. lia.
Qed.

Definition demo_after : World := (review noon noon (mkWorld demo_db [])).1.


Lemma review_preserves_witness : wf (db demo_after).
Proof. apply (review_preserves noon noon (mkWorld demo_db []) demo_wf). Defined.

(** A user whose new plan is for 0 seconds is active and expired after the tick
    that applied the plan. *)
Definition zero_plan_db : Db :=
  mkDb (users demo_db) {[2 := mkPlan 500 (Some 0) true true]} ∅ ∅ [] ∅ ∅ ∅ (0, 0) ∅ ∅ [] 4.

Lemma zero_plan_wf : wf zero_plan_db.
Proof. destruct demo_wf. by split. Qed.

Lemma no_overuse_after_review_witness :
  Status (core (demo_user 2 "sara" "active" 5 None (Some 1600000000) None None)) = "on_hold"%string \/
  exists p, next_plans zero_plan_db !! 2 = Some p /\
    fires (isLimited (demo_user 2 "sara" "active" 5 None (Some 1600000000) None None))
          (isExpired (unix noon) (demo_user 2 "sara" "active" 5 None (Some 1600000000) None None)) p
    = true.
Proof.
  apply (no_overuse_after_review noon noon (mkWorld zero_plan_db [])
    (review noon noon (mkWorld zero_plan_db [])).1 2 _
    (renewed noon (mkPlan 500 (Some 0) true true)
       (demo_user 2 "sara" "active" 5 None (Some 1600000000) None None)) zero_plan_wf);
    try (vm_compute; reflexivity).
  vm_compute. split; congruence.
Defined.

(** One hold too long for the 32-bit column stops the tick there, every time: the
    held users that come after it in the database's order are never activated. *)
Definition stuck_db : Db :=
  mkDb (<[2 := demo_user 2 "ali" "on_hold" 0 None None (Some 3000000000) (Some 7)]>
        (<[1 := demo_user 1 "sara" "on_hold" 0 None None (Some 86400) (Some 7)]> ∅))
    ∅ ∅ ∅ [] ∅ ∅ ∅ (0, 0) ∅ ∅ [] 3.

Lemma stuck_hold :
  let '(w, r) := review noon noon (mkWorld stuck_db []) in
  r = Err OutOfRange /\ db w = stuck_db.
Proof. vm_compute. auto. Qed.

(** A plan applied to a user without a data limit loses its own limit unless
    [add_remaining_traffic] is set: the user becomes unlimited. *)
Lemma plan_limit_lost :
  let u := demo_user 2 "sara" "active" 5 None (Some 1600000000) None None in
  DataLimit (core (renewed noon (mkPlan 500 (Some 1000) false true) u)) = None.
Proof. reflexivity. Qed.
End ReviewJob.
