(* ===== verification/UserApi.v ===== *)
(** * UserApi: the panel's user handlers — [internal/httpapi/user.go]

    Creating, editing, resetting, revoking and deleting a user, with the checks
    that refuse a request and the statements that carry it out, and the
    fleet-wide operations of [user_bulk.go]. A handler is a computation over the
    database whose error is the HTTP answer it gives. Notifications, the push to
    gateway peers and the rendering of the response body are left out. *)

From S2P Require Import Prelude GoStrings ProxySettings Store ReviewJob.

Import Store.
#[local] Open Scope Z_scope.

Module UserApi.

(** An HTTP error: the status code and the detail. *)
Definition httperr : Type := Z * string.

Definition unprocessable (detail : string) : httperr := (422, detail).
Definition err500 (detail : string) : dberror -> httperr := fun _ => (500, detail).

(** A guard: the request goes on only when [b] holds. *)
Definition ensure (b : bool) (e : httperr) : M httperr unit := if b then mret tt else fail e.

(** A statement whose failure answers [e]. *)
Definition run {A} (m : M dberror A) (detail : string) : M httperr A := or_else m (err500 detail).

(** ** Helpers *)

Definition is_word (c : ascii) : bool :=
  is_digit c || is_upper c || is_lower c || Ascii.eqb c "_".
Definition allowed_char (c : ascii) : bool :=
  is_word c || Ascii.eqb c "@" || Ascii.eqb c "." || Ascii.eqb c "-".

(** The whole name is made of allowed characters and its leading run of word
    characters has 3 to 32 of them. *)
Definition validUsername (s : string) : bool :=
  negb (String.eqb s "") && str_forallb allowed_char s &&
  (let run := String.length (span is_word s).1 in (3 <=? run)%nat && (run <=? 32)%nat).

Definition statusActive := "active"%string.
Definition statusDisabled := "disabled"%string.
Definition statusLimited := "limited"%string.
Definition statusExpired := "expired"%string.
Definition statusOnHold := "on_hold"%string.

Definition validCreateStatus (s : string) : bool := str_mem s [statusActive; statusOnHold].
Definition validModifyStatus (s : string) : bool :=
  str_mem s [statusActive; statusDisabled; statusOnHold].
Definition validResetStrategy (s : string) : bool := str_mem s all_strategies.

Definition normalizeZero (v : option Z) : option Z :=
  match v with Some n => if n =? 0 then None else Some n | None => None end.

Definition normalizeZeroString (v : option string) : option string :=
  match v with Some s => if String.eqb s "" then None else Some s | None => None end.

Definition strOr (v : option string) (fallback : string) : string :=
  match v with Some s => if String.eqb s "" then fallback else s | None => fallback end.

Definition expireFitsColumn (expire : option Z) : bool :=
  match expire with Some e => (- 2 ^ 31 <=? e) && (e <=? 2 ^ 31 - 1) | None => true end.

(** [pgtype.Int4{Int32: int32(v)}] *)
Definition pgInt4FromPtrInt64 (v : option Z) : option Z := int32 <$> v.

Definition subtractTags (all exclude : list string) : list string :=
  List.filter (fun t => negb (str_mem t exclude)) all.

Definition validUserSort (v : string) : string :=
  if str_mem v ["created_at"; "-created_at"; "username"; "-used_traffic"; "expire"]%string
  then v else "-created_at".

(** ** Requests *)

Record nextPlanDTO := mkPlanDTO {
  dto_DataLimit : Z; dto_Expire : Z; dto_AddRemaining : bool; dto_FireOnEither : bool }.

(** [userWriteRequest]. The integers are 64-bit, [AutoDeleteInDays] 32-bit. The maps
    are lists in the order in which Go's [range] visits them. *)
Record request := mkRequest {
  r_Status : option string;
  r_Proxies : list (string * ProxySettings.payload);
  r_Inbounds : list (string * list string);
  r_Expire : option Z;
  r_DataLimit : option Z;
  r_Strategy : option string;
  r_Note : option string;
  r_OnHoldExpireDuration : option Z;
  r_OnHoldTimeout : option Z;
  r_AutoDeleteInDays : option Z;
  r_NextPlan : option nextPlanDTO;
}.

(** The JSON decoder accepts only integers of the fields' widths. *)
Definition request_ok (r : request) : Prop :=
  opt_fits 64 (r_Expire r) = true /\ opt_fits 64 (r_DataLimit r) = true /\
  opt_fits 64 (r_OnHoldExpireDuration r) = true /\ opt_fits 32 (r_AutoDeleteInDays r) = true.

Record Identity := mkIdentity { i_Username : string; i_AdminID : Z; IsSudo : bool }.

(** The plan as stored: its expiry loses its high bits. *)
Definition stored_plan (p : nextPlanDTO) : NextPlan :=
  mkPlan (dto_DataLimit p) (Some (int32 (dto_Expire p))) (dto_AddRemaining p) (dto_FireOnEither p).

Definition noteTooLong (r : request) : bool :=
  match r_Note r with Some n => (500 <? String.length n)%nat | None => false end.

Definition status_given (r : request) : option string := normalizeZeroString (r_Status r).

Section handlers.
Context `{ProxySettings.Random}.

(** [resolveProxySettings]: the protocols to write with their settings, and those
    to remove (an explicit null); identifiers are drawn from [n] on. *)
Fixpoint resolveProxySettings (raw : list (string * ProxySettings.payload)) (n : nat) :
  result string (list (string * ProxySettings.Settings) * list string * nat) :=
  match raw with
  | [] => Ok ([], [], n)
  | (protocol, payload) :: raw =>
      match ProxySettings.Valid protocol with
      | None => Err ("unknown proxy type: " ++ protocol)%string
      | Some _ =>
          match payload with
          | ProxySettings.PNull =>
              '(wanted, remove, n) ← resolveProxySettings raw n;
              Ok (wanted, protocol :: remove, n)
          | _ =>
              match ProxySettings.FromWire protocol payload n with
              | Ok (s, n) =>
                  '(wanted, remove, n) ← resolveProxySettings raw n;
                  Ok ((protocol, s) :: wanted, remove, n)
              | Err _ => Err ("proxysettings: invalid " ++ protocol ++ " settings")%string
              end
          end
      end
  end.

Definition resolve (raw : list (string * ProxySettings.payload)) (n : nat) :
  M httperr (list (string * ProxySettings.Settings) * list string) :=
  match resolveProxySettings raw n with
  | Ok (wanted, remove, _) => mret (wanted, remove)
  | Err e => fail (unprocessable e)
  end.

(** ** The reseller's cap *)

(** [limit] is what the reseller API answered: [None] while it is not configured,
    unreachable or sets no cap. A failed count does not block. *)
Definition enforceResellerAPIUserLimit (limit : option Z) (adminID : Z) : M httperr unit :=
  match limit with
  | None => mret tt
  | Some limit =>
      r ← attempt (query (CountUsers (Some (int32 adminID)) [statusActive; statusOnHold]));
      match r with
      | Err _ => mret tt
      | Ok count => ensure (negb (limit <=? count))
                      (400, "User limit reached. Please contact your administrator."%string)
      end
  end.

(** ** Create *)

Definition check_tags (tags : list string) : M httperr unit :=
  for_each (fun tag =>
    or_else (_ ← query (GetInboundByTag tag); mret tt)
            (fun _ => unprocessable ("Inbound " ++ tag ++ " doesn't exist"))) tags.

(** The tags given for a protocol. *)
Definition tags_of (inbounds : list (string * list string)) (protocol : string) : option (list string) :=
  match List.find (fun '(p, _) => String.eqb p protocol) inbounds with
  | Some (_, tags) => Some tags
  | None => None
  end.

Fixpoint resolveInbounds (inbounds : list (string * list string)) (protocols : list string) :
  M httperr (list (string * list string)) :=
  match protocols with
  | [] => mret []
  | protocol :: protocols =>
      tags ← match default [] (tags_of inbounds protocol) with
             | [] => run (query (ListInboundTagsByProtocol protocol)) "Could not resolve inbounds"
             | tags => _ ← check_tags tags; mret tags
             end;
      rest ← resolveInbounds inbounds protocols;
      mret ((protocol, tags) :: rest)
  end.

Definition createProxyForUser (userID : Z) (protocol : string) (settings : ProxySettings.Settings)
    (includedTags : list string) : M httperr unit :=
  proxy ← run (stmt (CreateProxy userID protocol settings)) ("could not create " ++ protocol ++ " proxy");
  known ← run (query (ListInboundTagsByProtocol protocol)) "the query's error";
  match subtractTags known includedTags with
  | [] => mret tt
  | excluded => run (stmt (ReplaceExcludedInbounds (p_ID proxy) excluded))
                  ("could not set excluded inbounds for " ++ protocol)
  end.

(** The row a create request asks for, once it passed the checks. *)
Definition create_core (r : request) : Core :=
  mkCore (default statusActive (status_given r)) (normalizeZero (r_DataLimit r))
    (strOr (r_Strategy r) "no_reset") (pgInt4FromPtrInt64 (normalizeZero (r_Expire r)))
    (r_Note r) (normalizeZero (r_OnHoldExpireDuration r)) (r_OnHoldTimeout r)
    (r_AutoDeleteInDays r).

Definition is_some {A} (o : option A) : bool := match o with Some _ => true | None => false end.

Definition hold_checks (on_hold : bool) (r : request) : M httperr unit :=
  if on_hold then
    _ ← ensure (is_some (normalizeZero (r_OnHoldExpireDuration r)))
      (unprocessable "User cannot be on hold without a valid on_hold_expire_duration.");
    ensure (negb (is_some (normalizeZero (r_Expire r))))
      (unprocessable "User cannot be on hold with specified expire.")
  else mret tt.

Definition write_checks (r : request) : M httperr unit :=
  _ ← ensure (match r_Strategy r with Some s => validResetStrategy s | None => true end)
    (unprocessable "invalid data_limit_reset_strategy");
  ensure (expireFitsColumn (r_Expire r)) (unprocessable "expire is out of range").

Definition handleCreateUser (now : Z) (limit : option Z) (n : nat) (identity : Identity)
    (username : string) (r : request) : M httperr User :=
  _ ← ensure (validUsername username) (unprocessable "Username only can be 3 to 32 characters");
  _ ← ensure (negb (noteTooLong r)) (unprocessable "User's note can be a maximum of 500 character");
  _ ← ensure (negb (match r_Proxies r with [] => true | _ => false end))
    (unprocessable "Each user needs at least one proxy");
  _ ← (if IsSudo identity then mret tt else enforceResellerAPIUserLimit limit (i_AdminID identity));
  _ ← ensure (match status_given r with Some s => validCreateStatus s | None => true end)
    (unprocessable "invalid status for user creation");
  _ ← hold_checks (String.eqb (Status (create_core r)) statusOnHold) r;
  _ ← write_checks r;
  '(settingsByType, _) ← resolve (r_Proxies r) n;
  resolved ← resolveInbounds (r_Inbounds r) (map fst settingsByType);
  dbuser ← or_else (stmt (CreateUser now username (create_core r)
                      (if i_AdminID identity =? 0 then None else Some (int32 (i_AdminID identity)))))
    (fun e => match e with
              | UniqueViolation => (409, "User already exists"%string)
              | _ => (500, "Could not create user"%string)
              end);
  _ ← for_each (fun '(protocol, settings) =>
        createProxyForUser (ID dbuser) protocol settings (default [] (tags_of resolved protocol)))
      settingsByType;
  _ ← match r_NextPlan r with
      | Some p => run (stmt (UpsertNextPlan (ID dbuser) (stored_plan p))) "Could not create next_plan"
      | None => mret tt
      end;
  mret dbuser.

(** ** Edit *)

Definition loadAuthorizedUser (identity : Identity) (username : string) : M httperr User :=
  dbuser ← or_else (query (GetUserByUsername username)) (fun _ => (404, "User not found"%string));
  _ ← ensure (IsSudo identity || bool_decide (AdminID dbuser = Some (i_AdminID identity)))
    (403, "You're not allowed"%string);
  mret dbuser.

(** The status an edit leads to: the one asked for, then what the data limit
    makes of it, then what the expiry does. *)
Definition status_after_limit (used : Z) (r : request) (status : string) : string :=
  match r_DataLimit r with
  | None => status
  | Some _ =>
      let dl := normalizeZero (r_DataLimit r) in
      if negb (String.eqb status statusExpired) && negb (String.eqb status statusDisabled) then
        if match dl with None => true | Some l => used <? l end
        then if negb (String.eqb status statusOnHold) then statusActive else status
        else statusLimited
      else status
  end.

Definition status_after_expire (now : Z) (r : request) (status : string) : string :=
  match r_Expire r with
  | None => status
  | Some _ =>
      let ex := normalizeZero (r_Expire r) in
      if String.eqb status statusActive || String.eqb status statusExpired then
        if match ex with None => true | Some e => unix now <? e end then statusActive
        else statusExpired
      else status
  end.

Definition new_status (now : Z) (u : User) (r : request) : string :=
  status_after_expire now r
    (status_after_limit (UsedTraffic u) r (default (Status (core u)) (status_given r))).

(** The row an edit writes: what the request leaves out stays. *)
Definition modify_core (now : Z) (u : User) (r : request) : Core :=
  let c := core u in
  mkCore (new_status now u r)
    (match r_DataLimit r with Some _ => normalizeZero (r_DataLimit r) | None => DataLimit c end)
    (default (DataLimitResetStrategy c) (r_Strategy r))
    (match r_Expire r with
     | Some _ => pgInt4FromPtrInt64 (normalizeZero (r_Expire r))
     | None => Expire c end)
    (match r_Note r with Some _ => normalizeZeroString (r_Note r) | None => Note c end)
    (match r_OnHoldExpireDuration r with
     | Some _ => normalizeZero (r_OnHoldExpireDuration r)
     | None => OnHoldExpireDuration c end)
    (match r_OnHoldTimeout r with Some t => Some t | None => OnHoldTimeout c end)
    (match r_AutoDeleteInDays r with Some d => Some d | None => AutoDeleteInDays c end).

Definition proxy_of (existing : list Proxy) (protocol : string) : option Proxy :=
  List.find (fun p => String.eqb (p_Type p) protocol) (List.rev existing).

Definition reconcileProxies (userID : Z) (wanted : list (string * ProxySettings.Settings))
    (remove : list string) (deleteOmitted : bool) : M httperr unit :=
  existing ← run (query (ListProxiesByUserID userID)) "could not read proxies";
  _ ← for_each (fun '(protocol, settings) =>
        match proxy_of existing protocol with
        | Some p => run (stmt (UpdateProxySettings (p_ID p) settings))
                      ("could not update " ++ protocol ++ " proxy")
        | None => _ ← run (stmt (CreateProxy userID protocol settings))
                      ("could not create " ++ protocol ++ " proxy"); mret tt
        end) wanted;
  for_each (fun p =>
    if str_mem (p_Type p) (map fst wanted) then mret tt
    else if str_mem (p_Type p) remove || deleteOmitted
    then run (stmt (DeleteProxyByID (p_ID p))) ("could not remove " ++ p_Type p ++ " proxy")
    else mret tt) existing.

Definition reconcileExcludedInbounds (userID : Z) (wanted : list (string * list string)) :
  M httperr unit :=
  existing ← run (query (ListProxiesByUserID userID)) "could not read proxies";
  for_each (fun '(protocol, tags) =>
    match proxy_of existing protocol with
    | None => mret tt
    | Some p =>
        known ← run (query (ListInboundTagsByProtocol protocol)) "could not resolve inbounds";
        _ ← run (stmt (DeleteExcludedInbounds (p_ID p))) "could not update excluded inbounds";
        match subtractTags known tags with
        | [] => mret tt
        | excluded => run (stmt (ReplaceExcludedInbounds (p_ID p) excluded))
                        "could not update excluded inbounds"
        end
    end) wanted.

Definition handleModifyUser (now : Z) (limit : option Z) (n : nat) (identity : Identity)
    (username : string) (r : request) : M httperr User :=
  dbuser ← loadAuthorizedUser identity username;
  _ ← ensure (negb (is_some (SyncedFromPanelName dbuser))) (409, "This user is managed by another panel"%string);
  _ ← ensure (negb (noteTooLong r)) (unprocessable "User's note can be a maximum of 500 character");
  _ ← ensure (match status_given r with Some s => validModifyStatus s | None => true end)
    (unprocessable "invalid status");
  _ ← hold_checks (bool_decide (r_Status r = Some statusOnHold)) r;
  _ ← write_checks r;
  _ ← (if negb (IsSudo identity) && String.eqb (Status (core dbuser)) statusDisabled
          && (bool_decide (r_Status r = Some statusActive) || bool_decide (r_Status r = Some statusOnHold))
       then enforceResellerAPIUserLimit limit (i_AdminID identity) else mret tt);
  '(settingsByType, removeTypes) ← resolve (r_Proxies r) n;
  _ ← for_each (fun '(_, tags) => check_tags tags) (r_Inbounds r);
  _ ← match settingsByType, removeTypes with
      | [], [] => mret tt
      | _, _ => reconcileProxies (ID dbuser) settingsByType removeTypes false
      end;
  _ ← match r_Inbounds r with
      | [] => mret tt
      | inbounds => reconcileExcludedInbounds (ID dbuser) inbounds
      end;
  updated ← run (stmt (UpdateUserCore now (ID dbuser) (modify_core now dbuser r))) "Could not update user";
  _ ← match r_NextPlan r with
      | Some p => run (stmt (UpsertNextPlan (ID updated) (stored_plan p))) "Could not update next_plan"
      | None => run (stmt (DeleteNextPlanByUserID (ID updated))) "Could not clear next_plan"
      end;
  mret updated.

(** ** Delete, reset, revoke *)

Definition handleDeleteUser (identity : Identity) (username : string) : M httperr unit :=
  dbuser ← loadAuthorizedUser identity username;
  run (stmt (DeleteUser (ID dbuser))) "Could not delete user".

Definition handleResetUserDataUsage (identity : Identity) (username : string) : M httperr User :=
  dbuser ← loadAuthorizedUser identity username;
  _ ← run (stmt (CreateUserUsageLog (ID dbuser) (UsedTraffic dbuser))) "Could not log usage reset";
  let s := Status (core dbuser) in
  let newStatus := if negb (String.eqb s statusExpired) && negb (String.eqb s statusDisabled)
                   then statusActive else s in
  updated ← run (stmt (ResetUserTraffic (ID dbuser) newStatus)) "Could not reset user data usage";
  _ ← run (stmt (ClearNodeUserUsages (ID updated))) "Could not clear node usage history";
  _ ← run (stmt (DeleteNextPlanByUserID (ID updated))) "Could not clear next_plan";
  mret updated.

(** Every proxy gets new secrets, each from its own place in the supply. *)
Fixpoint revoke_all (ps : list Proxy) (n : nat) : M httperr unit :=
  match ps with
  | [] => mret tt
  | p :: ps =>
      let '(s, n) := ProxySettings.Revoke (p_Settings p) n in
      _ ← run (stmt (UpdateProxySettings (p_ID p) s)) "Could not revoke proxy";
      revoke_all ps n
  end.

Definition handleRevokeUserSub (now : Z) (n : nat) (identity : Identity) (username : string) :
  M httperr User :=
  dbuser ← loadAuthorizedUser identity username;
  proxies ← run (query (ListProxiesByUserID (ID dbuser))) "Could not read proxies";
  _ ← revoke_all proxies n;
  run (stmt (SetUserSubRevoked now (ID dbuser))) "Could not revoke subscription".
End handlers.

(** ** The fleet-wide operations of [user_bulk.go] *)

Definition handleResetAllUsersUsage (identity : Identity) : M httperr unit :=
  ids ← run (query (if i_AdminID identity =? 0 then ListAllUserIDs
                    else ListUserIDsByAdmin (i_AdminID identity))) "Could not read users";
  match ids with
  | [] => mret tt
  | _ =>
      _ ← run (stmt (ResetUsersUsageByIDs ids)) "Could not reset users";
      _ ← run (stmt (DeleteNodeUserUsagesByUserIDs ids)) "Could not clear usage history";
      _ ← run (stmt (DeleteUserUsageLogsByUserIDs ids)) "Could not clear usage logs";
      run (stmt (DeleteNextPlansByUserIDs ids)) "Could not clear next plans"
  end.

(** The window as parsed: [None] for an absent bound, [Some None] for one that does
    not parse. *)
Definition bound (raw : option (option Z)) (fallback : Z) (name : string) : M httperr Z :=
  match raw with
  | None => mret fallback
  | Some None => fail (unprocessable ("Invalid " ++ name ++ " date"))
  | Some (Some t) => mret (int32 (unix t))
  end.

Definition expiredUsersInWindow (now : Z) (after before : option (option Z)) (identity : Identity) :
  M httperr (list User) :=
  after ← bound after 0 "expired_after";
  before ← bound before (int32 (unix now)) "expired_before";
  _ ← ensure (negb (before <? after)) (400, "Start date must be before end date"%string);
  run (query (ListExpiredUsers (if IsSudo identity then None else Some (i_AdminID identity))
                after before)) "Could not read users".

Definition handleGetExpiredUsers now after before identity : M httperr (list string) :=
  rows ← expiredUsersInWindow now after before identity;
  mret (map Username rows).

Definition handleDeleteExpiredUsers now after before identity : M httperr (list string) :=
  rows ← expiredUsersInWindow now after before identity;
  match rows with
  | [] => fail (404, "No expired users found in the specified date range"%string)
  | _ =>
      _ ← run (stmt (DeleteUsersByIDs (map ID rows))) "Could not delete users";
      mret (map Username rows)
  end.

Definition GetAdminByUsername (name : string) (d : Db) : result dberror Admin :=
  match List.find (fun a => String.eqb (a_Username a) name) (map snd (map_to_list (admins d))) with
  | Some a => Ok a
  | None => Err NoRows
  end.

Definition handleSetUserOwner (identity : Identity) (username adminUsername : string) : M httperr User :=
  dbuser ← loadAuthorizedUser identity username;
  _ ← ensure (negb (String.eqb adminUsername "")) (unprocessable "admin_username is required");
  newAdmin ← or_else (query (GetAdminByUsername adminUsername)) (fun _ => (404, "Admin not found"%string));
  run (stmt (SetUserOwner (ID dbuser) (Some (a_ID newAdmin)))) "Could not set owner".

Definition handleActivateNextPlan (dbnow : Z) (identity : Identity) (username : string) : M httperr User :=
  dbuser ← loadAuthorizedUser identity username;
  _ ← or_else (query (GetNextPlanByUserID (ID dbuser))) (fun _ => (404, "User doesn't have next plan"%string));
  _ ← run (stmt (CreateUserUsageLog (ID dbuser) (UsedTraffic dbuser))) "Could not log usage";
  _ ← run (stmt (ClearNodeUserUsages (ID dbuser))) "Could not clear usage history";
  updated ← run (stmt (ResetUserByNextPlan dbnow (ID dbuser))) "Could not activate next plan";
  _ ← run (stmt (DeleteNextPlanByUserID (ID dbuser))) "Could not clear next plan";
  mret updated.
End UserApi.
