(* ===== verification/UserProps.v ===== *)
(** * UserProps: what the user handlers guarantee

    Theorems about the handlers of [UserApi]: they keep the database well formed,
    a refused request changes nothing, an admin cannot touch another admin's
    users, and what each operation makes of a row. *)

From stdpp Require Import sorting.
From S2P Require Import Prelude GoStrings ProxySettings Store ReviewJob UserApi.

Import Store UserApi.
#[local] Open Scope Z_scope.

Module UserProps.

(** ** Well-formedness *)

Lemma preserves_run {A} (m : M dberror A) detail : preserves m -> preserves (run m detail).
Proof. apply preserves_or_else. Qed.
Lemma preserves_ensure b e : preserves (ensure b e).
Proof. unfold ensure. auto with store. Qed.

#[local] Hint Resolve preserves_run preserves_ensure : store.
#[local] Hint Extern 2 (preserves (match ?x with _ => _ end)) => destruct x : store.
#[local] Hint Extern 1 (preserves _) => progress simpl : store.

Ltac preserves := repeat (intros; lazymatch goal with
  | |- preserves (mbind _ _) => apply preserves_bind
  | |- preserves (ensure _ _) => apply preserves_ensure
  | |- preserves (run _ _) => apply preserves_run
  | |- preserves (or_else _ _) => apply preserves_or_else
  | |- preserves (query _) => apply preserves_query
  | |- preserves (for_each _ _) => apply preserves_for_each
  | |- preserves (attempt _) => apply preserves_attempt
  | |- preserves (mret _) => apply preserves_ret
  | |- preserves (fail _) => apply preserves_fail
  | |- preserves (stmt _) => apply preserves_stmt; solve [auto with store]
  | |- preserves (match ?x with _ => _ end) => destruct x
  end).

Section handlers.
Context `{ProxySettings.Random}.

Lemma loadAuthorizedUser_preserves identity username : preserves (loadAuthorizedUser identity username).
Proof. unfold loadAuthorizedUser. preserves. Qed.

Lemma enforce_preserves limit a : preserves (enforceResellerAPIUserLimit limit a).
Proof. unfold enforceResellerAPIUserLimit. preserves. Qed.

Lemma check_tags_preserves tags : preserves (check_tags tags).
Proof. unfold check_tags. preserves. Qed.

Lemma resolveInbounds_preserves inb ps : preserves (resolveInbounds inb ps).
Proof.
  induction ps as [|p ps IH]; simpl; preserves; try apply check_tags_preserves; try exact IH.
Qed.

Lemma createProxyForUser_preserves u p s t : preserves (createProxyForUser u p s t).
Proof. unfold createProxyForUser. preserves. Qed.

Lemma resolve_preserves raw n : preserves (resolve raw n).
Proof. unfold resolve. preserves. Qed.

Lemma hold_checks_preserves b r : preserves (hold_checks b r).
Proof. unfold hold_checks. preserves. Qed.
Lemma write_checks_preserves r : preserves (write_checks r).
Proof. unfold write_checks. preserves. Qed.
Lemma reconcileProxies_preserves u w r b : preserves (reconcileProxies u w r b).
Proof. unfold reconcileProxies. preserves. Qed.
Lemma reconcileExcluded_preserves u w : preserves (reconcileExcludedInbounds u w).
Proof. unfold reconcileExcludedInbounds. preserves. Qed.
Lemma revoke_all_preserves ps n : preserves (revoke_all ps n).
Proof.
  revert n. induction ps as [|p ps IH]; intros n; cbn [revoke_all]; preserves. intros. apply IH.
Qed.

Lemma handleCreateUser_preserves now limit n identity username r :
  preserves (handleCreateUser now limit n identity username r).
Proof.
  unfold handleCreateUser. preserves; auto using enforce_preserves, hold_checks_preserves,
    write_checks_preserves, resolve_preserves, resolveInbounds_preserves, createProxyForUser_preserves.
Qed.

Lemma handleModifyUser_preserves now limit n identity username r :
  preserves (handleModifyUser now limit n identity username r).
Proof.
  unfold handleModifyUser. preserves; auto using loadAuthorizedUser_preserves, enforce_preserves,
    hold_checks_preserves, write_checks_preserves, resolve_preserves, check_tags_preserves,
    reconcileProxies_preserves, reconcileExcluded_preserves.
Qed.

Lemma handleDeleteUser_preserves identity username : preserves (handleDeleteUser identity username).
Proof. unfold handleDeleteUser. preserves; auto using loadAuthorizedUser_preserves. Qed.
Lemma handleReset_preserves identity username :
  preserves (handleResetUserDataUsage identity username).
Proof. unfold handleResetUserDataUsage. preserves; auto using loadAuthorizedUser_preserves. Qed.
Lemma handleRevoke_preserves now n identity username :
  preserves (handleRevokeUserSub now n identity username).
Proof.
  unfold handleRevokeUserSub. preserves; auto using loadAuthorizedUser_preserves, revoke_all_preserves.
Qed.
Lemma handleResetAll_preserves identity : preserves (handleResetAllUsersUsage identity).
Proof. unfold handleResetAllUsersUsage. preserves. Qed.
Lemma bound_preserves raw f name : preserves (bound raw f name).
Proof. unfold bound. preserves. Qed.
Lemma window_preserves now a b identity : preserves (expiredUsersInWindow now a b identity).
Proof. unfold expiredUsersInWindow. preserves; apply bound_preserves. Qed.
Lemma handleDeleteExpired_preserves now a b identity :
  preserves (handleDeleteExpiredUsers now a b identity).
Proof. unfold handleDeleteExpiredUsers. preserves; apply window_preserves. Qed.
Lemma handleSetUserOwner_preserves identity u a : preserves (handleSetUserOwner identity u a).
Proof. unfold handleSetUserOwner. preserves; auto using loadAuthorizedUser_preserves. Qed.
Lemma handleActivateNextPlan_preserves dbnow identity u :
  preserves (handleActivateNextPlan dbnow identity u).
Proof. unfold handleActivateNextPlan. preserves; auto using loadAuthorizedUser_preserves. Qed.

(** ** Runs of requests *)

(** Every request the user handlers serve, and a tick of the review job. *)
Inductive action :=
  | ACreate (limit : option Z) (n : nat) (username : string) (r : request)
  | AModify (limit : option Z) (n : nat) (username : string) (r : request)
  | ADelete (username : string)
  | AReset (username : string)
  | ARevoke (n : nat) (username : string)
  | AResetAll
  | ADeleteExpired (after before : option (option Z))
  | ASetOwner (username admin : string)
  | AActivateNext (username : string)
  | AReview.

Definition drop_result {E A} (m : M E A) (w : World) : World := (m w).1.

Definition perform (now : Z) (who : Identity) (a : action) : World -> World :=
  match a with
  | ACreate limit n username r => drop_result (handleCreateUser now limit n who username r)
  | AModify limit n username r => drop_result (handleModifyUser now limit n who username r)
  | ADelete username => drop_result (handleDeleteUser who username)
  | AReset username => drop_result (handleResetUserDataUsage who username)
  | ARevoke n username => drop_result (handleRevokeUserSub now n who username)
  | AResetAll => drop_result (handleResetAllUsersUsage who)
  | ADeleteExpired after before => drop_result (handleDeleteExpiredUsers now after before who)
  | ASetOwner username admin => drop_result (handleSetUserOwner who username admin)
  | AActivateNext username => drop_result (handleActivateNextPlan now who username)
  | AReview => drop_result (ReviewJob.review now now)
  end.


(** ** A refused request changes nothing *)

(** A computation that only reads; one whose failure answers 500; one that leaves
    the database as it was whenever it answers anything but 500. *)
Definition reads {E A} (m : M E A) : Prop := forall w, db (m w).1 = db w.
Definition only500 {A} (m : M httperr A) : Prop := forall w e, (m w).2 = Err e -> e.1 = 500.
Definition clean {A} (m : M httperr A) : Prop :=
  forall w e, (m w).2 = Err e -> e.1 <> 500 -> db (m w).1 = db w.

Lemma reads_clean {A} (m : M httperr A) : reads m -> clean m.
Proof. intros Hm w e _ _. apply Hm. Qed.
Lemma only500_clean {A} (m : M httperr A) : only500 m -> clean m.
Proof. intros Hm w e He Hne. by destruct (Hne (Hm w e He)). Qed.

Lemma clean_bind_reads {A B} (m : M httperr A) (f : A -> M httperr B) :
  reads m -> (forall a, clean (f a)) -> clean (m ≫= f).
Proof.
  intros Hm Hf w e. unfold mbind, M_bind. specialize (Hm w).
  destruct (m w) as [w1 [a|e1]]; simpl in *; [|done]. intros He Hne.
  rewrite <- Hm. by eapply Hf.
Qed.

Lemma clean_bind_write {A B} (m : M httperr A) (f : A -> M httperr B) :
  clean m -> (forall a, only500 (f a)) -> clean (m ≫= f).
Proof.
  intros Hm Hf w e. unfold mbind, M_bind. specialize (Hm w).
  destruct (m w) as [w1 [a|e1]]; simpl in *; [|intros [= <-]; by apply Hm].
  intros He Hne. by destruct (Hne (Hf a w1 e He)).
Qed.

Lemma only500_bind {A B} (m : M httperr A) (f : A -> M httperr B) :
  only500 m -> (forall a, only500 (f a)) -> only500 (m ≫= f).
Proof.
  intros Hm Hf w e. unfold mbind, M_bind. specialize (Hm w).
  destruct (m w) as [w1 [a|e1]]; simpl in *; [apply Hf|]. intros [= <-]. by apply Hm.
Qed.

Lemma only500_run {A} (m : M dberror A) detail : only500 (run m detail).
Proof.
  intros w e. unfold run, or_else. destruct (m w) as [w1 []]; simpl; [done|]. by intros [= <-].
Qed.

Lemma only500_ret {A} (a : A) : only500 (mret a).
Proof. by intros w e. Qed.

Lemma only500_for_each {A} (f : A -> M httperr unit) l :
  (forall x, only500 (f x)) -> only500 (for_each f l).
Proof. intros Hf. induction l; [apply only500_ret|by apply only500_bind]. Qed.

Lemma reads_bind {E A B} (m : M E A) (f : A -> M E B) :
  reads m -> (forall a, reads (f a)) -> reads (m ≫= f).
Proof.
  intros Hm Hf w. unfold mbind, M_bind. specialize (Hm w).
  destruct (m w) as [w1 [a|e1]]; simpl in *; [|done]. by rewrite Hf.
Qed.

Lemma reads_query {A} (q : Db -> result dberror A) : reads (query q).
Proof. intros w. apply query_db. Qed.
Lemma reads_or_else {E E' A} (m : M E A) (f : E -> E') : reads m -> reads (or_else m f).
Proof. intros Hm w. unfold or_else. specialize (Hm w). by destruct (m w) as [w1 []]. Qed.
Lemma reads_run {A} (m : M dberror A) d : reads m -> reads (run m d).
Proof. apply reads_or_else. Qed.
Lemma reads_attempt {E E' A} (m : M E A) : reads m -> reads (attempt (E':=E') m).
Proof. intros Hm w. unfold attempt. specialize (Hm w). by destruct (m w). Qed.
Lemma reads_ret {E A} (a : A) : reads (E:=E) (mret a).
Proof. by intros w. Qed.
Lemma reads_fail {E A} (e : E) : reads (A:=A) (fail e).
Proof. by intros w. Qed.
Lemma reads_ensure b e : reads (ensure b e).
Proof. unfold ensure. by destruct b. Qed.
Lemma reads_for_each {E A} (f : A -> M E unit) l : (forall x, reads (f x)) -> reads (for_each f l).
Proof. intros Hf. induction l; [apply reads_ret|by apply reads_bind]. Qed.

Ltac reads := repeat (intros; lazymatch goal with
  | |- reads (mbind _ _) => apply reads_bind
  | |- reads (ensure _ _) => apply reads_ensure
  | |- reads (run _ _) => apply reads_run
  | |- reads (or_else _ _) => apply reads_or_else
  | |- reads (query _) => apply reads_query
  | |- reads (for_each _ _) => apply reads_for_each
  | |- reads (attempt _) => apply reads_attempt
  | |- reads (mret _) => apply reads_ret
  | |- reads (fail _) => apply reads_fail
  | |- reads (match ?x with _ => _ end) => destruct x
  end).

Ltac only500 := repeat (intros; lazymatch goal with
  | |- only500 (mbind _ _) => apply only500_bind
  | |- only500 (run _ _) => apply only500_run
  | |- only500 (for_each _ _) => apply only500_for_each
  | |- only500 (mret _) => apply only500_ret
  | |- only500 (match ?x with _ => _ end) => destruct x
  end).

Lemma load_reads identity username : reads (loadAuthorizedUser identity username).
Proof. unfold loadAuthorizedUser. reads. Qed.
Lemma enforce_reads limit a : reads (enforceResellerAPIUserLimit limit a).
Proof. unfold enforceResellerAPIUserLimit. reads. Qed.
Lemma check_tags_reads tags : reads (check_tags tags).
Proof. unfold check_tags. reads. Qed.
Lemma resolveInbounds_reads inb ps : reads (resolveInbounds inb ps).
Proof. induction ps as [|p ps IH]; simpl; reads; try apply check_tags_reads; try exact IH. Qed.
Lemma resolve_reads raw n : reads (resolve raw n).
Proof. unfold resolve. reads. Qed.
Lemma hold_checks_reads b r : reads (hold_checks b r).
Proof. unfold hold_checks. reads. Qed.
Lemma write_checks_reads r : reads (write_checks r).
Proof. unfold write_checks. reads. Qed.

Lemma createProxyForUser_500 u p s t : only500 (createProxyForUser u p s t).
Proof. unfold createProxyForUser. only500. Qed.
Lemma reconcileProxies_500 u w r b : only500 (reconcileProxies u w r b).
Proof. unfold reconcileProxies. only500. Qed.
Lemma reconcileExcluded_500 u w : only500 (reconcileExcludedInbounds u w).
Proof. unfold reconcileExcludedInbounds. only500. Qed.

(** A statement that fails, however the failure is answered, changed nothing. *)
Lemma stmt_clean {A} (q : Db -> result dberror (Db * A)) (f : dberror -> httperr) :
  clean (or_else (stmt q) f).
Proof.
  intros w e. unfold or_else, stmt. destruct (faults w) as [|[] fs]; [|done|];
    by destruct (q (db w)) as [[d a]|].
Qed.

(** C33: A create or edit that is refused, by any answer but an internal error, has
    changed nothing: every check comes before the first write. *)
Theorem refused_changes_nothing now limit n identity username r w e :
  e.1 <> 500 ->
  ((handleCreateUser now limit n identity username r w).2 = Err e ->
   db (handleCreateUser now limit n identity username r w).1 = db w) /\
  ((handleModifyUser now limit n identity username r w).2 = Err e ->
   db (handleModifyUser now limit n identity username r w).1 = db w).
Proof.
  intros Hne. split; intros He; revert w e He Hne.
  - change (clean (handleCreateUser now limit n identity username r)). unfold handleCreateUser.
    do 3 (apply clean_bind_reads; [reads|intros []]).
    apply clean_bind_reads; [destruct (IsSudo identity); [reads|apply enforce_reads]|intros []].
    apply clean_bind_reads; [reads|intros []].
    apply clean_bind_reads; [apply hold_checks_reads|intros []].
    apply clean_bind_reads; [apply write_checks_reads|intros []].
    apply clean_bind_reads; [apply resolve_reads|intros [wanted remove]].
    apply clean_bind_reads; [apply resolveInbounds_reads|intros resolved].
    apply clean_bind_write; [apply stmt_clean|intros u].
    only500; apply createProxyForUser_500.
  - change (clean (handleModifyUser now limit n identity username r)). unfold handleModifyUser.
    apply clean_bind_reads; [apply load_reads|intros u].
    do 3 (apply clean_bind_reads; [reads|intros []]).
    apply clean_bind_reads; [apply hold_checks_reads|intros []].
    apply clean_bind_reads; [apply write_checks_reads|intros []].
    apply clean_bind_reads; [destruct (_ && _); [apply enforce_reads|reads]|intros []].
    apply clean_bind_reads; [apply resolve_reads|intros [wanted remove]].
    apply clean_bind_reads; [apply reads_for_each; intros [? ?]; apply check_tags_reads|intros []].
    apply only500_clean.
    only500; auto using reconcileProxies_500, reconcileExcluded_500.
Qed.

(** ** Ownership *)

Lemma load_refuses identity username w u A (k : User -> M httperr A) :
  wf (db w) -> IsSudo identity = false ->
  find_user username (db w) = Some u -> AdminID u <> Some (i_AdminID identity) ->
  exists e, (x ← loadAuthorizedUser identity username; k x) w =
            ((loadAuthorizedUser identity username w).1, Err e) /\ (e.1 = 403 \/ e.1 = 404).
Proof.
  intros Hw Hs Hf Ha. unfold mbind at 1, M_bind.
  unfold loadAuthorizedUser, mbind, M_bind, or_else, query, stmt, GetUserByUsername, ensure.
  rewrite Hf, Hs. destruct (faults w) as [|[] fs]; simpl;
    rewrite ?bool_decide_eq_false_2 by done; simpl; eauto.
Qed.

(** C34: An admin who is not sudo gets 403 for any operation on a user of somebody
    else (404 when the read itself fails), and nothing changes. *)
Theorem foreign_user_untouched now limit n identity username target r w u :
  wf (db w) -> IsSudo identity = false ->
  find_user username (db w) = Some u -> AdminID u <> Some (i_AdminID identity) ->
  let refused {A} (m : M httperr A) :=
    exists e, (m w).2 = Err e /\ (e.1 = 403 \/ e.1 = 404) /\ db (m w).1 = db w in
  refused (handleModifyUser now limit n identity username r) /\
  refused (handleDeleteUser identity username) /\
  refused (handleResetUserDataUsage identity username) /\
  refused (handleRevokeUserSub now n identity username) /\
  refused (handleSetUserOwner identity username target) /\
  refused (handleActivateNextPlan now identity username).
Proof.
  intros Hw Hs Hf Ha. cbv zeta.
  assert (forall A (k : User -> M httperr A),
    exists e, ((x ← loadAuthorizedUser identity username; k x) w).2 = Err e /\
      (e.1 = 403 \/ e.1 = 404) /\
      db ((x ← loadAuthorizedUser identity username; k x) w).1 = db w) as Hall.
  { intros A k. destruct (load_refuses identity username w u A k Hw Hs Hf Ha) as (e & He & Hc).
    exists e. rewrite He. split_and!; [done..|]. apply load_reads. }
  split_and!; apply Hall.
Qed.

(** ** What an edit makes of the status *)

(** Over the limit and past the expiry, as the edit itself asks for them. *)
Definition over (used : Z) (limit : option Z) : bool :=
  match normalizeZero limit with Some l => l <=? used | None => false end.
Definition past (now : Z) (expire : option Z) : bool :=
  match normalizeZero expire with Some e => e <=? unix now | None => false end.

(** An edit that sets both limits, as a decision table: a disabled user stays
    disabled; a held user stays on hold unless over the limit; an expired one is
    judged by the new expiry alone; any other is limited when over the limit, else
    expired when past the expiry, else active. *)
Definition edit_status (used now : Z) (limit expire : option Z) (status : string) : string :=
  if String.eqb status "disabled" then "disabled"
  else if String.eqb status "expired" then (if past now expire then "expired" else "active")
  else if over used limit then "limited"
  else if String.eqb status "on_hold" then "on_hold"
  else if past now expire then "expired" else "active".

(** The status an edit leaves when it sets both limits is the one of the decision
    table, computed by the handler in two passes over limit and expiry. *)
Theorem full_edit_status now u r l e :
  core_ok (core u) = true ->
  r_DataLimit r = Some l -> r_Expire r = Some e ->
  match status_given r with Some s => validModifyStatus s = true | None => True end ->
  new_status now u r =
    edit_status (UsedTraffic u) now (Some l) (Some e) (default (Status (core u)) (status_given r)).
Proof.
  intros Hc Hl He Hs.
  set (s := default (Status (core u)) (status_given r)).
  assert (str_mem s all_statuses = true) as Hmem.
  { subst s. destruct (status_given r) as [s|]; unfold default, id.
    - apply str_mem_spec. apply str_mem_spec in Hs. simpl in Hs |- *. naive_solver.
    - unfold core_ok in Hc. by go_bool. }
  unfold new_status, status_after_expire, status_after_limit. rewrite Hl, He. fold s.
  unfold edit_status, over, past.
  assert (match normalizeZero (Some l) with Some x => x <=? UsedTraffic u | None => false end =
          negb match normalizeZero (Some l) with Some x => UsedTraffic u <? x | None => true end) as ->.
  { destruct (normalizeZero (Some l)) as [x|]; [|done].
    destruct (Z.leb_spec x (UsedTraffic u)), (Z.ltb_spec (UsedTraffic u) x); lia || done. }
  assert (match normalizeZero (Some e) with Some x => x <=? unix now | None => false end =
          negb match normalizeZero (Some e) with Some x => unix now <? x | None => true end) as ->.
  { destruct (normalizeZero (Some e)) as [x|]; [|done].
    destruct (Z.leb_spec x (unix now)), (Z.ltb_spec (unix now) x); lia || done. }
  destruct (match normalizeZero (Some l) with Some x => _ | None => _ end),
    (match normalizeZero (Some e) with Some x => _ | None => _ end);
    apply str_mem_spec in Hmem; simpl in Hmem; destruct_or?; by (rewrite <- Hmem || done).
Qed.

(** ** The expiry is stored as given *)

Lemma ensure_ok b e w w' : ensure b e w = (w', Ok tt) -> b = true /\ w' = w.
Proof. unfold ensure. destruct b; [|done]. by intros [= <-]. Qed.

Lemma expireFits_int32 v :
  expireFitsColumn v = true -> pgInt4FromPtrInt64 (normalizeZero v) = normalizeZero v.
Proof.
  unfold expireFitsColumn, pgInt4FromPtrInt64, normalizeZero. destruct v as [e|]; [|done].
  intros [H1%Z.leb_le H2%Z.leb_le]%andb_true_iff. destruct (Z.eqb_spec e 0); [done|]. simpl.
  f_equal. apply wrap_id; [lia|]. unfold fits. simpl. lia.
Qed.

Lemma write_checks_ok r w w' : write_checks r w = (w', Ok tt) -> expireFitsColumn (r_Expire r) = true.
Proof.
  unfold write_checks. intros Hc. apply bind_ok in Hc as (w1 & [] & _ & Hc).
  by apply ensure_ok in Hc as [? _].
Qed.

Lemma CreateUser_row now username c a d d' u :
  CreateUser now username c a d = Ok (d', u) ->
  u = mkUser (next_id d) username c 0 a None now None None None (Some now) /\
  find_user username d = None.
Proof.
  unfold CreateUser. destruct (core_ok c); [|done]. simpl. destruct (_ <? _)%nat; [done|].
  destruct (find_user username d); [done|]. by intros [= _ <-].
Qed.

Lemma bind_reads_ok {A B} (m : M httperr A) (k : A -> M httperr B) w w' b :
  (m ≫= k) w = (w', Ok b) -> reads m ->
  exists w1 a, m w = (w1, Ok a) /\ db w1 = db w /\ k a w1 = (w', Ok b).
Proof.
  intros (w1 & a & Hm & Hk)%bind_ok Hr. exists w1, a. split_and!; [done| |done].
  specialize (Hr w). by rewrite Hm in Hr.
Qed.

(** The row a successful create returns: a name no user had, the status asked for
    (active by default), nothing used, the caller as owner, and the limit and the
    expiry exactly as given, zero meaning none: no value is ever wrapped into the
    32-bit column. *)
Theorem create_row now limit n identity username r w w' u :
  handleCreateUser now limit n identity username r w = (w', Ok u) ->
  find_user username (db w) = None /\ Username u = username /\
  In (Status (core u)) [statusActive; statusOnHold] /\
  UsedTraffic u = 0 /\ DataLimit (core u) = normalizeZero (r_DataLimit r) /\
  Expire (core u) = normalizeZero (r_Expire r) /\
  (Status (core u) = statusOnHold -> Expire (core u) = None /\ OnHoldExpireDuration (core u) <> None).
Proof.
  unfold handleCreateUser. intros Hr.
  apply bind_reads_ok in Hr as (w1 & [] & _ & E1 & Hr); [|reads].
  apply bind_reads_ok in Hr as (w2 & [] & _ & E2 & Hr); [|reads].
  apply bind_reads_ok in Hr as (w3 & [] & _ & E3 & Hr); [|reads].
  apply bind_reads_ok in Hr as (w4 & [] & _ & E4 & Hr); [|destruct (IsSudo identity); [reads|apply enforce_reads]].
  apply bind_reads_ok in Hr as (w5 & [] & Hst & E5 & Hr); [|reads].
  apply bind_reads_ok in Hr as (w6 & [] & Hhold & E6 & Hr); [|apply hold_checks_reads].
  apply bind_reads_ok in Hr as (w7 & [] & Hwr & E7 & Hr); [|apply write_checks_reads].
  apply bind_reads_ok in Hr as (w8 & [ws rm] & _ & E8 & Hr); [|apply resolve_reads].
  apply bind_reads_ok in Hr as (w9 & rs & _ & E9 & Hr); [|apply resolveInbounds_reads].
  apply bind_ok in Hr as (w10 & u0 & Hcr & Hr).
  apply bind_ok in Hr as (w11 & [] & _ & Hr). apply bind_ok in Hr as (w12 & [] & _ & Hr).
  injection Hr as _ <-.
  apply or_else_ok, stmt_ok, CreateUser_row in Hcr as [-> Hfree].
  assert (db w9 = db w) as Hdb by congruence. rewrite Hdb in Hfree.
  apply ensure_ok in Hst as [Hst _]. apply write_checks_ok in Hwr.
  cbn [Username core UsedTraffic Status DataLimit Expire OnHoldExpireDuration create_core].
  rewrite (expireFits_int32 _ Hwr). split_and!; try done.
  - destruct (status_given r) as [s|]; simpl; [|by left]. by apply str_mem_spec in Hst.
  - intros Hon. cbn [create_core Status] in Hhold. rewrite Hon in Hhold.
    unfold hold_checks in Hhold. rewrite String.eqb_refl in Hhold.
    apply bind_ok in Hhold as (w13 & [] & [Ha _]%ensure_ok & [Hb _]%ensure_ok).
    destruct (normalizeZero (r_OnHoldExpireDuration r)), (normalizeZero (r_Expire r)); done.
Qed.

(** ** Reconciling proxies *)

Lemma for_each_inv {E A} (I : World -> Prop) (f : A -> M E unit) l w w' :
  (forall x w w', In x l -> I w -> f x w = (w', Ok tt) -> I w') ->
  I w -> for_each f l w = (w', Ok tt) -> I w'.
Proof.
  revert w. induction l as [|x l IH]; intros w Hf Hw Hrun; [by injection Hrun as <-|].
  apply bind_ok in Hrun as (w1 & [] & Hx & Hrun). apply (IH w1); [|by eapply Hf; [left|..]|done].
  intros y w2 w3 Hy. apply Hf. by right.
Qed.

(** Deleting the rows selected by [g] from a list that holds row [p]. *)
Lemma for_each_deletes (g : Proxy -> bool) (f : Proxy -> M httperr unit) l p w w' :
  (forall q w w', f q w = (w', Ok tt) ->
     proxies (db w') = if g q then delete (p_ID q) (proxies (db w)) else proxies (db w)) ->
  In p l -> g p = true -> for_each f l w = (w', Ok tt) -> proxies (db w') !! p_ID p = None.
Proof.
  intros Hf. revert w. induction l as [|q l IH]; intros w Hin Hg Hrun; [done|].
  apply bind_ok in Hrun as (w1 & [] & Hq & Hrun). destruct Hin as [->|Hin]; [|by apply (IH w1)].
  revert Hrun. apply (for_each_inv (fun w => proxies (db w) !! p_ID p = None)).
  - intros x w2 w3 _ Hn Hx. rewrite (Hf _ _ _ Hx). destruct (g x); [|done].
    by rewrite lookup_delete_None; right.
  - by rewrite (Hf _ _ _ Hq), Hg, lookup_delete_eq.
Qed.

Lemma run_ok {A} (m : M dberror A) detail w w' a : run m detail w = (w', Ok a) -> m w = (w', Ok a).
Proof. apply or_else_ok. Qed.

Lemma ListProxies_elem uid d l p :
  wf d -> ListProxiesByUserID uid d = Ok l ->
  In p l <-> proxies d !! p_ID p = Some p /\ p_UserID p = uid.
Proof.
  intros Hd [= <-]. rewrite <- list_elem_of_In, merge_sort_Permutation, list_elem_of_In, filter_In,
    in_map_iff. rewrite Z.eqb_eq. split; intros [Hp Hu]; (split; [|done]).
  - destruct Hp as ([i q] & <- & Hin%list_elem_of_In%elem_of_map_to_list). simpl.
    by rewrite (proj1 (wf_proxies d Hd i q Hin)).
  - exists (p_ID p, p). split; [done|]. by apply list_elem_of_In, elem_of_map_to_list.
Qed.

Lemma proxy_of_spec l t q : proxy_of l t = Some q -> In q l /\ p_Type q = t.
Proof.
  unfold proxy_of. intros [Hin He%String.eqb_eq]%find_some. split; [|done]. by apply in_rev.
Qed.

(** The rows of the user that a request does not write: an edit deletes exactly
    those the client sent an explicit null for (a full replacement, those it left
    out as well), and leaves every other proxy as it was, with its exclusions. *)
Theorem reconcileProxies_spec uid wanted remove deleteOmitted w w' p :
  wf (db w) -> reconcileProxies uid wanted remove deleteOmitted w = (w', Ok tt) ->
  proxies (db w) !! p_ID p = Some p -> p_UserID p = uid -> ~ In (p_Type p) (map fst wanted) ->
  if str_mem (p_Type p) remove || deleteOmitted
  then proxies (db w') !! p_ID p = None
  else proxies (db w') !! p_ID p = Some p /\
       exclude_inbounds (db w') !! p_ID p = exclude_inbounds (db w) !! p_ID p.
Proof.
  intros Hw Hrun Hp Hu Hnw. unfold reconcileProxies in Hrun.
  apply bind_ok in Hrun as (w1 & l & Hl%run_ok & Hrun). apply query_ok in Hl as [Hl Hdb].
  apply bind_ok in Hrun as (w2 & [] & Hwr & Hdel).
  pose proof (fun q => ListProxies_elem uid (db w) l q Hw Hl) as Hin.
  assert (In p l) as Hpl by by apply Hin.
  set (keep := fun w0 : World => wf (db w0) /\ proxies (db w0) !! p_ID p = Some p /\
    exclude_inbounds (db w0) !! p_ID p = exclude_inbounds (db w) !! p_ID p).
  assert (keep w2) as Hk2.
  { revert Hwr. apply (for_each_inv keep); [|unfold keep; by rewrite Hdb].
    intros [t s] w3 w4 Ht (Hw3 & Hp3 & He3) Hst. apply (in_map fst) in Ht. simpl in Ht.
    destruct (proxy_of l t) as [q|] eqn:Hq.
    - apply run_ok, stmt_ok in Hst. split; [by eapply UpdateProxySettings_keeps|].
      apply proxy_of_spec in Hq as [Hql Hqt]. unfold UpdateProxySettings in Hst.
      destruct (proxies (db w3) !! p_ID q) as [q'|]; [|done]. injection Hst as <-. simpl.
      rewrite lookup_insert_ne; [done|]. intros E. apply Hin in Hql as [Hql _].
      rewrite E, Hp in Hql. congruence.
    - apply bind_ok in Hst as (w5 & q & Hst%run_ok%stmt_ok & [= <-]).
      split; [by eapply CreateProxy_keeps|]. unfold CreateProxy in Hst.
      destruct (users (db w3) !! uid); [|done]. injection Hst as <- _. simpl.
      rewrite lookup_insert_ne; [done|]. intros E.
      destruct (wf_next _ Hw3 (next_id (db w3))) as [_ Hfresh]; [lia|]. apply Hfresh.
      rewrite E. by eapply elem_of_dom_2. }
  assert (str_mem (p_Type p) (map fst wanted) = false) as Hmem.
  { destruct (str_mem _ _) eqn:E; [|done]. by apply str_mem_spec in E. }
  destruct (str_mem (p_Type p) remove || deleteOmitted) eqn:Hrm.
  - revert Hpl Hdel. intros Hpl Hdel. eapply (for_each_deletes
      (fun q => negb (str_mem (p_Type q) (map fst wanted))
                && (str_mem (p_Type q) remove || deleteOmitted))); [|exact Hpl| |exact Hdel].
    + intros q w3 w4 Hq. cbv beta in Hq. destruct (str_mem (p_Type q) (map fst wanted)); simpl;
        [by injection Hq as <-|]. destruct (str_mem (p_Type q) remove || deleteOmitted);
        [|by injection Hq as <-]. by apply run_ok, stmt_ok in Hq as [= <-].
    + by rewrite Hmem, Hrm.
  - enough (keep w') as (_ & ? & ?) by done. revert Hk2 Hdel. apply (for_each_inv keep).
    intros q w3 w4 Hql (Hw3 & Hp3 & He3) Hq.
    destruct (str_mem (p_Type q) (map fst wanted)); [by injection Hq as <-|].
    destruct (str_mem (p_Type q) remove || deleteOmitted) eqn:Hrq; [|by injection Hq as <-].
    apply run_ok, stmt_ok in Hq. split; [by eapply DeleteProxyByID_keeps|]. injection Hq as <-.
    simpl. rewrite !lookup_delete_ne; [done|..]; intros E; apply Hin in Hql as [Hql _];
      rewrite E, Hp in Hql; congruence.
Qed.

(** ** Resetting and removing *)

(** A reset: the usage so far is logged, the counter and the per-node history are
    cleared, the pending plan is dropped, and the user is active again unless
    expired or disabled. *)
Theorem reset_effect identity username w w' u :
  wf (db w) -> handleResetUserDataUsage identity username w = (w', Ok u) ->
  exists u0, users (db w) !! ID u0 = Some u0 /\ Username u0 = username /\
    u = with_core (with_status (if str_mem (Status (core u0)) ["expired"; "disabled"]%string
                                then Status (core u0) else "active"%string) (core u0)) (with_used 0 u0) /\
    users (db w') = <[ID u0 := u]> (users (db w)) /\
    user_usage_logs (db w') = (user_usage_logs (db w) ++ [(ID u0, UsedTraffic u0)])%list /\
    next_plans (db w') = delete (ID u0) (next_plans (db w)) /\
    (forall h n, node_user_usages (db w') !! (h, ID u0, n) = None).
Proof.
  intros Hw Hr. unfold handleResetUserDataUsage in Hr.
  apply bind_reads_ok in Hr as (w1 & u0 & Hload & E1 & Hr); [|apply load_reads].
  apply bind_ok in Hr as (w2 & [] & H2%run_ok%stmt_ok & Hr).
  apply bind_ok in Hr as (w3 & u3 & H3%run_ok%stmt_ok & Hr).
  apply bind_ok in Hr as (w4 & [] & H4%run_ok%stmt_ok & Hr).
  apply bind_ok in Hr as (w5 & [] & H5%run_ok%stmt_ok & [= <- <-]).
  assert (users (db w) !! ID u0 = Some u0 /\ Username u0 = username) as [Hu0 Hname].
  { unfold loadAuthorizedUser in Hload. apply bind_ok in Hload as (wa & ua & Ha & Hload).
    apply or_else_ok, query_ok in Ha as [Ha _].
    apply bind_ok in Hload as (wb & [] & _ & [= _ ->]).
    unfold GetUserByUsername in Ha. destruct (find_user username (db w)) as [v|] eqn:Hv; [|done].
    injection Ha as ->. unfold find_user in Hv. apply find_some in Hv as [Hin Hn%String.eqb_eq].
    split; [|done]. apply in_map_iff in Hin as ([i v] & <- & Hin%list_elem_of_In%elem_of_map_to_list).
    simpl. by rewrite (wf_id _ Hw i v Hin). }
  exists u0. split; [done|]. split; [done|].
  unfold CreateUserUsageLog in H2. rewrite E1, Hu0 in H2. injection H2 as H2.
  apply update_user_ok in H3 as (v & Hv & [= <-] & H3). rewrite <- H2 in Hv, H3. simpl in Hv.
  rewrite Hu0 in Hv. injection Hv as <-. injection H4 as H4. injection H5 as H5.
  rewrite <- H5, <- H4, H3. split_and!; try done.
  - do 2 f_equal. unfold str_mem. cbn [existsb]. unfold statusExpired, statusDisabled.
    by destruct (String.eqb (Status (core u0)) "expired"), (String.eqb (Status (core u0)) "disabled").
  - intros h n. apply map_lookup_filter_None. right. intros x _. simpl. set_solver.
Qed.
End handlers.

(** ** Concrete requests *)

Import ReviewJob.

#[local] Existing Instance ProxySettings.tally_random.

Definition sudo : Identity := mkIdentity "root" 0 true.
Definition reseller : Identity := mkIdentity "shop" 7 false.

Definition empty_request : request :=
  mkRequest None [] [] None None None None None None None None.

Definition vless_request : request :=
  mkRequest None [("vless"%string, ProxySettings.PObject [])] [] (Some 1900000000) (Some 500) None None
    None None None None.

Definition w0 : World := mkWorld demo_db [].


Lemma refused_changes_nothing_witness :
  db (handleCreateUser noon None 0 sudo "ali" vless_request w0).1 = db w0.
Proof.
  refine (proj1 (refused_changes_nothing noon None 0 sudo "ali" vless_request w0
    (409, "User already exists"%string) _) _); vm_compute; [discriminate|reflexivity].
Defined.

Lemma foreign_user_untouched_witness :
  exists e, (handleDeleteUser reseller "ali" w0).2 = Err e /\ (e.1 = 403 \/ e.1 = 404) /\
    db (handleDeleteUser reseller "ali" w0).1 = db w0.
Proof.
  edestruct (foreign_user_untouched noon None 0 reseller "ali" "shop" empty_request w0
    (demo_user 1 "ali" "active" 100 (Some 100) None None None)) as (_ & Hd & _).
  - apply demo_wf.
  - reflexivity.
  - vm_compute. reflexivity.
  - vm_compute. discriminate.
  - exact Hd.
Defined.

Lemma full_edit_status_witness :
  let u := demo_user 1 "ali" "limited" 100 (Some 100) None None None in
  let r := mkRequest None [] [] (Some 0) (Some 101) None None None None None None in
  new_status noon u r = edit_status 100 noon (Some 101) (Some 0) "limited".
Proof.
  cbv zeta. apply (full_edit_status noon (demo_user 1 "ali" "limited" 100 (Some 100) None None None)
    (mkRequest None [] [] (Some 0) (Some 101) None None None None None None));
    vm_compute; reflexivity || exact I.
Defined.

Definition created : World := (handleCreateUser noon None 0 sudo "kaveh" vless_request w0).1.

Definition created_user : User :=
  mkUser 4 "kaveh" (mkCore "active" (Some 500) "no_reset" (Some 1900000000) None None None None)
    0 None None noon None None None (Some noon).

Lemma create_row_witness :
  find_user "kaveh" demo_db = None /\ Expire (core created_user) = Some 1900000000.
Proof.
  destruct (create_row noon None 0 sudo "kaveh" vless_request w0 created created_user)
    as (Hf & _ & _ & _ & _ & He & _); [vm_compute; reflexivity|].
  split; [exact Hf|exact He].
Defined.

Definition vless_proxy : Proxy := mkProxy 5 4 "vless" (ProxySettings.VLESSSettings "x" "xtls-rprx-vision").

Lemma created_wf : wf (db created).
Proof. apply (handleCreateUser_preserves noon None 0 sudo "kaveh" vless_request w0). apply demo_wf. Qed.

(** Adding a trojan proxy leaves the vless one alone. *)
Lemma reconcileProxies_spec_witness :
  let w' := (reconcileProxies 4 [("trojan"%string, ProxySettings.TrojanSettings "p" "")] [] false created).1 in
  proxies (db w') !! 5 = Some vless_proxy /\
  exclude_inbounds (db w') !! 5 = exclude_inbounds (db created) !! 5.
Proof.
  apply (reconcileProxies_spec 4 [("trojan"%string, ProxySettings.TrojanSettings "p" "")] [] false created
    _ vless_proxy created_wf).
  - vm_compute. reflexivity.
  - vm_compute. reflexivity.
  - reflexivity.
  - intros [E|[]]. discriminate E.
Defined.

Lemma reset_effect_witness :
  exists u0, users demo_db !! ID u0 = Some u0 /\ Username u0 = "ali"%string.
Proof.
  edestruct (reset_effect sudo "ali" w0 (handleResetUserDataUsage sudo "ali" w0).1
    (demo_user 1 "ali" "active" 0 (Some 100) None None None)) as (u0 & Hu & Hn & _).
  - apply demo_wf.
  - vm_compute. reflexivity.
  - exists u0. split; [exact Hu|exact Hn].
Defined.

(** A name with a short leading run passes the check whatever its length; the
    column then refuses it with an internal error. *)
Definition long_name : string := "abc.abcdefghijklmnopqrstuvwxyz0123456789".
Lemma long_name_accepted :
  validUsername long_name = true /\
  (handleCreateUser noon None 0 sudo long_name vless_request w0).2
    = Err (500, "Could not create user"%string).
Proof. vm_compute. auto. Qed.

(** An expired-before date past 2038 wraps to a negative bound, and a correct
    window is answered with 400. *)
Lemma window_wraps :
  (expiredUsersInWindow noon (Some (Some noon)) (Some (Some (2200000000 * 1000000))) sudo w0).2
    = Err (400, "Start date must be before end date"%string).
Proof. vm_compute. reflexivity. Qed.

(** Resetting a held user by name ends the hold without starting its period;
    resetting all users keeps it on hold. *)
Lemma reset_ends_hold :
  (exists u, (handleResetUserDataUsage sudo "reza" w0).2 = Ok u /\ Status (core u) = "active"%string) /\
  (exists u, users (db (handleResetAllUsersUsage sudo w0).1) !! 3 = Some u /\
             Status (core u) = "on_hold"%string).
Proof. split; vm_compute; eexists; split; reflexivity. Qed.
End UserProps.
