(* ===== verification/Accounting.v ===== *)
(** * Accounting: traffic from node reports to bills

    [NodeReport] is the receiving end of a node's usage report
    ([internal/httpapi/nodereport.go]); [Billing] the job that reports each
    reseller's traffic to the billing bot ([internal/resellerusagejob]);
    [Retention] the job that prunes the hourly usage rows ([internal/usagejob]). *)

From S2P Require Import Prelude GoStrings Store ReviewJob UserApi.

Import Store.
#[local] Open Scope Z_scope.

(** ** Sums *)

Lemma map_sum_alter {K} `{Countable K} (f : Z -> Z) (m : gmap K Z) k v :
  m !! k = Some v -> map_sum (alter f k m) = map_sum m + (f v - v).
Proof.
  intros Hk. rewrite <- (insert_id (alter f k m) k (f v)) by (by rewrite lookup_alter_eq, Hk).
  assert (<[k := f v]> (alter f k m) = <[k := f v]> m) as ->.
  { apply map_eq. intros i. destruct (decide (i = k)) as [->|]; [by rewrite !lookup_insert_eq|].
    by rewrite !lookup_insert_ne, lookup_alter_ne. }
  rewrite map_sum_insert, Hk. simpl. lia.
Qed.

Definition sum_snd {K} (ds : list (K * Z)) : Z := foldr (fun kd acc => kd.2 + acc) 0 ds.

Lemma map_sum_bulk_bump {K} `{Countable K} (ds : list (K * Z)) m :
  map_sum (bulk_bump ds m) = map_sum m + sum_snd ds.
Proof.
  revert m. induction ds as [|[k n] ds IH]; intros m; simpl; [lia|].
  change (foldl bump (bump m (k, n)) ds) with (bulk_bump ds (bump m (k, n))).
  rewrite IH. unfold bump; simpl. rewrite map_sum_insert. lia.
Qed.

Module NodeReport.

Record nodeReportUserUsage := mkUsage { u_Username : string; Uplink : Z; Downlink : Z }.

(** The last entry for a name, as in the map the handler builds. *)
Definition byUsername (req : list nodeReportUserUsage) (name : string) : option nodeReportUserUsage :=
  List.find (fun u => String.eqb (u_Username u) name) (List.rev req).

(** What the loop over the rows collects: (id, delta) of every user that moved
    traffic, the deltas of their admins, the node's uplink and downlink; in
    64-bit arithmetic. *)
Record deltas := mkDeltas {
  d_users : list (Z * Z);
  d_admins : gmap Z Z;
  d_up : Z;
  d_down : Z;
}.

Definition add_row (req : list nodeReportUserUsage) (acc : deltas) (row : User) : deltas :=
  match byUsername req (Username row) with
  | None => acc
  | Some usage =>
      let delta := int64 (Uplink usage + Downlink usage) in
      if delta <=? 0 then acc
      else mkDeltas (d_users acc ++ [(ID row, delta)])
             (match AdminID row with
              | Some a => <[a := int64 (default 0 (d_admins acc !! a) + delta)]> (d_admins acc)
              | None => d_admins acc
              end)
             (int64 (d_up acc + Uplink usage)) (int64 (d_down acc + Downlink usage))
  end.

Definition collect (req : list nodeReportUserUsage) (rows : list User) : deltas :=
  foldl (add_row req) (mkDeltas [] ∅ 0 0) rows.

(** A statement whose failure is only logged. *)
Definition logged {A} (m : M dberror A) (name : string) : M UserApi.httperr (list string) :=
  r ← attempt m; mret match r with Ok _ => [] | Err _ => [name] end.

Definition hour : Z := 3600 * 1000000.
Definition truncate_hour (now : Z) : Z := now - now mod hour.

Definition apply_users (now nodeID : Z) (d : deltas) : M UserApi.httperr (list string) :=
  match d_users d with
  | [] => mret []
  | ds =>
      l1 ← logged (stmt (BulkIncrementUserUsage now ds)) "bulk increment user usage";
      l2 ← logged (stmt (BulkUpsertNodeUserUsage (truncate_hour now) nodeID ds))
             "bulk upsert node_user_usage";
      mret (l1 ++ l2)%list
  end.

Definition apply_admins (queueForResellerApi : bool) (d : deltas) : M UserApi.httperr (list string) :=
  match map_to_list (d_admins d) with
  | [] => mret []
  | ds => logged (stmt (BulkIncrementAdminUsage ds queueForResellerApi)) "bulk increment admin usage"
  end.

Definition apply_node (now nodeID : Z) (d : deltas) : M UserApi.httperr (list string) :=
  if (0 <? d_up d) || (0 <? d_down d) then
    l1 ← logged (stmt (UpsertNodeUsage (truncate_hour now) nodeID (d_up d, d_down d))) "upsert node_usage";
    l2 ← logged (stmt (IncrementNodeCumulative nodeID (d_up d, d_down d))) "increment node cumulative";
    l3 ← logged (stmt (IncrementSystemCumulative (d_up d, d_down d))) "increment system cumulative";
    mret (l1 ++ l2 ++ l3)%list
  else mret [].

(** [handleNodeReport] up to the host metrics: the result is what it logged. *)
Definition handleNodeReport (now nodeID : Z) (queueForResellerApi : bool)
    (req : list nodeReportUserUsage) : M UserApi.httperr (list string) :=
  match req with
  | [] => mret []
  | _ =>
      rows ← UserApi.run (query (GetUsersByUsernames (map u_Username req))) "Could not resolve users";
      let d := collect req rows in
      l1 ← apply_users now nodeID d;
      l2 ← apply_admins queueForResellerApi d;
      l3 ← apply_node now nodeID d;
      mret (l1 ++ l2 ++ l3)%list
  end.

(** ** Conservation *)

Definition used_total (d : Db) : Z := map_sum (UsedTraffic <$> users d).
Definition hourly_total (d : Db) : Z := map_sum (node_user_usages d).
Definition system_total (d : Db) : Z := (system d).1 + (system d).2.
Definition queue_total (d : Db) : Z := map_sum (Pending <$> usage_queue d).
Definition admins_total (d : Db) : Z := map_sum (UsersUsage <$> admins d).

Lemma add_used_total now ds us :
  (forall i n, In (i, n) ds -> i ∈ dom us) ->
  map_sum (UsedTraffic <$> foldl (add_used now) us ds) = map_sum (UsedTraffic <$> us) + sum_snd ds.
Proof.
  revert us. induction ds as [|[i n] ds IH]; intros us Hin; cbn [foldl sum_snd foldr]; [lia|].
  rewrite IH.
  2:{ intros j m Hj. unfold add_used. rewrite dom_alter_L. apply (Hin j m). by right. }
  assert (i ∈ dom us) as [u Hu]%elem_of_dom by (apply (Hin i n); by left).
  assert (UsedTraffic <$> add_used now us (i, n) = alter (fun x => x + n) i (UsedTraffic <$> us)) as ->.
  { unfold add_used; cbn [fst snd]. apply map_eq. intros j. rewrite lookup_fmap.
    destruct (decide (j = i)) as [->|].
    - rewrite !lookup_alter_eq, lookup_fmap. by destruct (us !! i).
    - rewrite !lookup_alter_ne, lookup_fmap by done. done. }
  rewrite (map_sum_alter _ _ i (UsedTraffic u)) by (by rewrite lookup_fmap, Hu).
  fold (sum_snd ds). simpl. lia.
Qed.

(** Every amount in the report is a byte count, under a tebibyte per user. *)
Definition sane (req : list nodeReportUserUsage) : Prop :=
  Forall (fun u => 0 <= Uplink u /\ 0 <= Downlink u /\ Uplink u + Downlink u < 2 ^ 40) req.

Lemma byUsername_sane req name u :
  sane req -> byUsername req name = Some u -> 0 <= Uplink u /\ 0 <= Downlink u /\ Uplink u + Downlink u < 2 ^ 40.
Proof.
  intros Hs [Hin _]%find_some. apply in_rev in Hin.
  unfold sane in Hs. rewrite Forall_forall in Hs. apply Hs. by apply list_elem_of_In.
Qed.

Lemma int64_id z : - 2 ^ 63 <= z < 2 ^ 63 -> int64 z = z.
Proof. intros Hz. apply wrap_id; [lia|]. unfold fits. simpl. lia. Qed.

(** The bytes a report holds for some rows. *)
Definition booked (req : list nodeReportUserUsage) (rows : list User) : Z :=
  foldr (fun row acc => match byUsername req (Username row) with
                        | Some u => Uplink u + Downlink u
                        | None => 0
                        end + acc) 0 rows.

Lemma booked_nil rows : booked [] rows = 0.
Proof. induction rows as [|r rows IH]; simpl; [done|]. by rewrite IH. Qed.

Lemma booked_snoc req rows row : booked req (rows ++ [row]) = booked req rows + booked req [row].
Proof. induction rows as [|r rows IH]; simpl; [lia|]. simpl in IH. rewrite IH. lia. Qed.

(** What [collect] has gathered after some rows: the node's total is the users'
    total, and the users are rows. *)
Definition balanced (req : list nodeReportUserUsage) (rows : list User) (acc : deltas) : Prop :=
  sum_snd (d_users acc) = booked req rows /\
  d_up acc + d_down acc = sum_snd (d_users acc) /\ 0 <= d_up acc /\ 0 <= d_down acc /\
  d_up acc + d_down acc <= Z.of_nat (length rows) * 2 ^ 40 /\
  (forall i n, In (i, n) (d_users acc) -> In i (map ID rows)) /\
  (d_users acc = [] -> d_up acc = 0 /\ d_down acc = 0).

Lemma sum_snd_app {K} (l1 l2 : list (K * Z)) : sum_snd (l1 ++ l2) = sum_snd l1 + sum_snd l2.
Proof.
  unfold sum_snd. induction l1 as [|[k n] l1 IH]; simpl; [lia|]. rewrite IH. lia.
Qed.

Lemma add_row_balanced req rows acc row :
  sane req -> Z.of_nat (length rows) < 2 ^ 22 -> balanced req rows acc ->
  balanced req (rows ++ [row]) (add_row req acc row).
Proof.
  intros Hs Hlen (H0 & H1 & H2 & H3 & H4 & H5 & H6). unfold add_row.
  assert (booked req (rows ++ [row]) = booked req rows + booked req [row]) as Hb by apply booked_snoc.
  simpl in Hb.
  assert (forall i n, In (i, n) (d_users acc) -> In i (map ID (rows ++ [row]))) as H5'.
  { intros i n Hi. rewrite map_app. apply in_or_app. left. by eapply H5. }
  assert (Z.of_nat (length (rows ++ [row])) = Z.of_nat (length rows) + 1) as Hl
    by (rewrite length_app; simpl; lia).
  destruct (byUsername req (Username row)) as [u|] eqn:Hu; [|unfold balanced; rewrite Hl; split_and!; auto; lia].
  destruct (byUsername_sane _ _ _ Hs Hu) as (Hup & Hdown & Hsum).
  rewrite (int64_id (Uplink u + Downlink u)) by lia. cbv zeta.
  destruct (Z.leb_spec (Uplink u + Downlink u) 0); [unfold balanced; rewrite Hl, Hb; split_and!; auto; lia|].
  rewrite !int64_id by lia. unfold balanced; cbn [d_users d_up d_down]. rewrite Hl, Hb.
  rewrite sum_snd_app. change (sum_snd [(ID row, Uplink u + Downlink u)]) with (Uplink u + Downlink u + 0).
  split_and!; try lia.
  - intros i n [Hi|[[= <- <-]|[]]]%in_app_or; [by eapply H5'|].
    rewrite map_app. apply in_or_app. right. by left.
  - intros [_ E]%app_eq_nil. done.
Qed.

Lemma collect_balanced req rows :
  sane req -> Z.of_nat (length rows) < 2 ^ 22 -> balanced req rows (collect req rows).
Proof.
  intros Hs. unfold collect. induction rows as [|row rows IH] using rev_ind; intros Hlen.
  { unfold balanced. simpl. split_and!; auto; lia. }
  rewrite foldl_app; simpl. rewrite length_app in Hlen. simpl in Hlen.
  apply add_row_balanced; [done|lia|]. apply IH. lia.
Qed.

(** A logged statement: it worked, or it changed nothing. *)
Lemma logged_stmt (q : Db -> result dberror (Db * unit)) name w w' l :
  logged (stmt q) name w = (w', Ok l) ->
  (l = [] /\ q (db w) = Ok (db w', tt)) \/ (l = [name] /\ db w' = db w).
Proof.
  unfold logged. intros Hl. apply bind_ok in Hl as (w1 & r & Ha & [= <- <-]).
  unfold attempt in Ha. destruct (stmt q w) as [w2 [[]|e]] eqn:Hs; injection Ha as <- <-.
  - left. split; [done|]. by apply stmt_ok in Hs.
  - right. split; [done|]. unfold stmt in Hs. destruct (faults w) as [|[] fs];
      [|by injection Hs as <- _|]; (destruct (q (db w)) as [[d []]|]; [done|by injection Hs as <- _]).
Qed.

Lemma app_nil_inv {A} (l1 l2 : list A) : (l1 ++ l2 = [])%list -> l1 = [] /\ l2 = [].
Proof. apply app_eq_nil. Qed.

Lemma apply_users_effect now nodeID d w w' :
  (forall i n, In (i, n) (d_users d) -> i ∈ dom (users (db w))) ->
  apply_users now nodeID d w = (w', Ok []) ->
  used_total (db w') = used_total (db w) + sum_snd (d_users d) /\
  hourly_total (db w') = hourly_total (db w) + sum_snd (d_users d) /\
  system (db w') = system (db w).
Proof.
  intros Hin Hrun. unfold apply_users in Hrun. destruct (d_users d) as [|kd ds'] eqn:Hds.
  { injection Hrun as <-. simpl. split_and!; try done; lia. }
  set (ds := kd :: ds') in *. clearbody ds.
  apply bind_ok in Hrun as (w1 & l1 & H1 & Hrun). apply bind_ok in Hrun as (w2 & l2 & H2 & Hrun).
  injection Hrun as <- [-> ->]%app_nil_inv.
  apply logged_stmt in H1 as [[_ H1]|[[=] _]]. apply logged_stmt in H2 as [[_ H2]|[[=] _]].
  unfold BulkIncrementUserUsage in H1. cbv zeta in H1. case_bool_decide; [|done].
  injection H1 as H1. unfold BulkUpsertNodeUserUsage in H2. cbv zeta in H2.
  destruct (negb _); [done|]. destruct (all_fit8 _); [|done]. injection H2 as H2.
  unfold used_total, hourly_total. rewrite <- H2, <- H1. simpl. split_and!; [|  |done].
  - by apply add_used_total.
  - rewrite map_sum_bulk_bump. f_equal. clear. induction ds as [|[i n] ds IH]; simpl; [done|].
    unfold sum_snd in *. simpl. by rewrite IH.
Qed.

Lemma apply_admins_frame b d w w' l :
  apply_admins b d w = (w', Ok l) ->
  users (db w') = users (db w) /\ node_user_usages (db w') = node_user_usages (db w) /\
  system (db w') = system (db w).
Proof.
  unfold apply_admins. destruct (map_to_list (d_admins d)); [by intros [= <- _]|].
  intros [[_ Hq]|[_ ->]]%logged_stmt; [|done]. unfold BulkIncrementAdminUsage in Hq. cbv zeta in Hq.
  destruct (_ && _); [|done]. by injection Hq as <-.
Qed.

Lemma apply_node_effect now nodeID d w w' :
  0 <= d_up d -> 0 <= d_down d -> apply_node now nodeID d w = (w', Ok []) ->
  users (db w') = users (db w) /\ node_user_usages (db w') = node_user_usages (db w) /\
  system_total (db w') = system_total (db w) + (d_up d + d_down d).
Proof.
  intros Hu Hd. unfold apply_node. destruct ((0 <? d_up d) || (0 <? d_down d)) eqn:Hpos.
  2:{ intros [= <-]. apply orb_false_iff in Hpos as [H1%Z.ltb_ge H2%Z.ltb_ge].
      split_and!; [done..|lia]. }
  intros Hrun. apply bind_ok in Hrun as (w1 & l1 & H1 & Hrun).
  apply bind_ok in Hrun as (w2 & l2 & H2 & Hrun). apply bind_ok in Hrun as (w3 & l3 & H3 & Hrun).
  injection Hrun as <- [-> [-> ->]%app_nil_inv]%app_nil_inv.
  apply logged_stmt in H1 as [[_ H1]|[[=] _]]. apply logged_stmt in H2 as [[_ H2]|[[=] _]].
  apply logged_stmt in H3 as [[_ H3]|[[=] _]].
  unfold UpsertNodeUsage in H1. cbv zeta in H1. destruct (fit2 _); [|done]. injection H1 as H1.
  assert (users (db w2) = users (db w1) /\ node_user_usages (db w2) = node_user_usages (db w1) /\
          system (db w2) = system (db w1)) as (E1 & E2 & E3).
  { unfold IncrementNodeCumulative in H2. destruct (nodes (db w1) !! nodeID); [|by injection H2 as <-].
    cbv zeta in H2. destruct (fit2 _); [|done]. by injection H2 as <-. }
  unfold IncrementSystemCumulative in H3. cbv zeta in H3. destruct (fit2 _); [|done].
  injection H3 as H3. unfold system_total. rewrite <- H3. simpl. rewrite E1, E2, E3, <- H1. simpl.
  split_and!; [done..|lia].
Qed.

(** C32: A report whose statements all went through (nothing was logged) books the same
    number of bytes everywhere: on the users' counters, in the hourly history and
    in the panel's total. *)
Theorem report_conserves now nodeID b req w w' :
  wf (db w) -> sane req -> Z.of_nat (length (map_to_list (users (db w)))) < 2 ^ 22 ->
  handleNodeReport now nodeID b req w = (w', Ok []) ->
  let total := booked req (select (fun u => str_mem (Username u) (map u_Username req)) (db w)) in
  used_total (db w') = used_total (db w) + total /\
  hourly_total (db w') = hourly_total (db w) + total /\
  system_total (db w') = system_total (db w) + total.
Proof.
  intros Hw Hs Hsize Hrun. cbv zeta. unfold handleNodeReport in Hrun. destruct req as [|u0 req0].
  { injection Hrun as <-. rewrite booked_nil. split_and!; lia. }
  set (req := u0 :: req0) in *. clearbody req.
  apply bind_ok in Hrun as (w1 & rows & Hq & Hrun). apply or_else_ok, query_ok in Hq as [Hq Hdb].
  cbv zeta in Hrun. injection Hq as Hrows. rewrite <- Hdb in *.
  assert (Z.of_nat (length rows) < 2 ^ 22) as Hlen.
  { rewrite <- Hrows. unfold select. rewrite <- (length_map snd) in Hsize.
    pose proof (List.filter_length_le (fun u => str_mem (Username u) (map u_Username req))
      (map snd (map_to_list (users (db w1))))). lia. }
  pose proof (collect_balanced req rows Hs Hlen) as (B0 & B1 & B2 & B3 & _ & B5 & _).
  set (d := collect req rows) in *. clearbody d.
  apply bind_ok in Hrun as (w2 & l1 & H1 & Hrun). apply bind_ok in Hrun as (w3 & l2 & H2 & Hrun).
  apply bind_ok in Hrun as (w4 & l3 & H3 & Hrun).
  injection Hrun as <- [-> [-> ->]%app_nil_inv]%app_nil_inv.
  destruct (apply_users_effect now nodeID d w1 w2) as (U1 & U2 & U3); [|done|].
  { intros i n Hi. apply B5, in_map_iff in Hi as (u & <- & Hu). rewrite <- Hrows in Hu.
    apply select_elem in Hu as [Hu _]; [|done]. by eapply elem_of_dom_2. }
  destruct (apply_admins_frame _ _ _ _ _ H2) as (A1 & A2 & A3).
  destruct (apply_node_effect _ _ _ _ _ B2 B3 H3) as (N1 & N2 & N3).
  rewrite Hrows, <- B0. unfold used_total, hourly_total, system_total in *.
  rewrite N1, N2, N3, A1, A2, A3, U1, U2, U3, B1. split_and!; lia.
Qed.

Definition demo_report : list nodeReportUserUsage := [mkUsage "ali" 30 12; mkUsage "ghost" 5 5; mkUsage "sara" 0 0].

Definition demo_w0 : World := mkWorld ReviewJob.demo_db [].

Definition demo_w1 : World := (handleNodeReport ReviewJob.noon 7 true demo_report demo_w0).1.

Lemma report_conserves_witness :
  used_total (db demo_w1) =
    used_total (db demo_w0) +
    booked demo_report (select (fun u => str_mem (Username u) (map u_Username demo_report)) (db demo_w0)).
Proof.
  assert (wf (db demo_w0)) as H1 by exact ReviewJob.demo_wf.
  assert (sane demo_report) as H2 by (repeat constructor; vm_compute; congruence).
  assert (Z.of_nat (length (map_to_list (users (db demo_w0)))) < 2 ^ 22) as H3 by (vm_compute; reflexivity).
  assert (handleNodeReport ReviewJob.noon 7 true demo_report demo_w0 = (demo_w1, Ok [])) as H4.
  { unfold demo_w1. vm_compute. reflexivity. }
  exact (proj1 (report_conserves ReviewJob.noon 7 true demo_report demo_w0 demo_w1 H1 H2 H3 H4)).
Defined.

Example demo_report_booked : used_total (db demo_w1) = 147.
Proof. vm_compute. reflexivity. Qed.
End NodeReport.

Module Billing.

(** A row of the report: admin id, username, bytes. *)
Definition pending_row : Type := Z * string * Z.

Definition sent_of (rows : list pending_row) : list (Z * Z) := map (fun '(a, _, n) => (a, n)) rows.

(** [Tick] once the integration is configured: [accepted] says whether the report
    was delivered and answered, [during] is what other writers did to the
    database while it was under way. *)
Definition Tick (canReport accepted : bool) (during : Db -> Db) : M string unit :=
  if negb canReport then mret tt
  else
    rows ← or_else (query GetPendingResellerAPIUsage) (fun _ => "load queued usage"%string);
    match rows with
    | [] => mret tt
    | _ =>
        _ ← (fun w => (mkWorld (during (db w)) (faults w), Ok tt));
        if accepted then
          or_else (stmt (MarkResellerAPIUsageReported (sent_of rows)))
            (fun _ => "reported but could not mark them sent, they will be sent again"%string)
        else fail "send"%string
    end.

(** ** A history of the queue *)

(** Node reports that queue traffic, and ticks: [charged] says whether the bot
    booked the report, [answered] whether its answer came back, [meanwhile] what
    node reports queued in between. *)
Inductive event :=
  | Queue (ds : list (Z * Z))
  | ATick (charged answered : bool) (meanwhile : list (list (Z * Z))).

(** The database, the bytes the bot has charged each admin for, and those that
    node reports ever queued for each. *)
Record state := mkState { w_of : World; charged : gmap Z Z; queued : gmap Z Z }.

Definition existing (d : Db) (ds : list (Z * Z)) : list (Z * Z) :=
  List.filter (fun kd => match admins d !! kd.1 with Some _ => true | None => false end) ds.

Definition queue_db (ds : list (Z * Z)) (d : Db) : Db :=
  match BulkIncrementAdminUsage ds true d with Ok (d', _) => d' | Err _ => d end.

Definition queued_now (ds : list (Z * Z)) (d : Db) : list (Z * Z) :=
  match BulkIncrementAdminUsage ds true d with Ok _ => existing d ds | Err _ => [] end.

Definition meanwhile_db (dss : list (list (Z * Z))) (d : Db) : Db := foldl (fun d ds => queue_db ds d) d dss.

Fixpoint meanwhile_queued (dss : list (list (Z * Z))) (d : Db) : list (Z * Z) :=
  match dss with
  | [] => []
  | ds :: dss => (queued_now ds d ++ meanwhile_queued dss (queue_db ds d))%list
  end.

(** The rows a tick would send, if its query works. *)
Definition to_send (w : World) : list pending_row :=
  match (query GetPendingResellerAPIUsage w).2 with Ok rows => rows | Err _ => [] end.

Definition step (s : state) (e : event) : state :=
  let w := w_of s in
  match e with
  | Queue ds =>
      mkState (mkWorld (queue_db ds (db w)) (faults w)) (charged s)
              (bulk_bump (queued_now ds (db w)) (queued s))
  | ATick booked answered meanwhile =>
      let rows := to_send w in
      let dss := match rows with [] => [] | _ => meanwhile end in
      mkState (Tick true (booked && answered) (meanwhile_db meanwhile) w).1
              (if booked then bulk_bump (sent_of rows) (charged s) else charged s)
              (bulk_bump (meanwhile_queued dss (db w)) (queued s))
  end.

Definition run (es : list event) (s : state) : state := foldl step s es.

Definition start (aa : gmap Z Admin) (fs : list bool) : state :=
  mkState (mkWorld (mkDb ∅ ∅ ∅ ∅ [] ∅ ∅ ∅ (0, 0) aa ∅ [] 1) fs) ∅ ∅.

(** ** No byte of traffic is billed less than once *)

Definition pending (a : Z) (d : Db) : Z := default 0 (Pending <$> usage_queue d !! a).
Definition reported (a : Z) (d : Db) : Z := default 0 (Reported <$> usage_queue d !! a).
Definition at_key (a : Z) (ds : list (Z * Z)) : Z :=
  foldr (fun kd acc => (if kd.1 =? a then kd.2 else 0) + acc) 0 ds.

Lemma bulk_bump_at a ds m : default 0 (bulk_bump ds m !! a) = default 0 (m !! a) + at_key a ds.
Proof.
  revert m. induction ds as [|[k n] ds IH]; intros m; simpl; [lia|].
  change (foldl bump (bump m (k, n)) ds) with (bulk_bump ds (bump m (k, n))). rewrite IH.
  unfold bump; simpl. destruct (Z.eqb_spec k a) as [->|Hne].
  - rewrite lookup_insert_eq. simpl. lia.
  - rewrite lookup_insert_ne by done. lia.
Qed.

Lemma at_key_app a l1 l2 : at_key a (l1 ++ l2) = at_key a l1 + at_key a l2.
Proof. induction l1 as [|[k n] l1 IH]; simpl; [lia|]. rewrite IH. lia. Qed.

Lemma enqueue_at a ds q :
  default 0 (Pending <$> foldl enqueue q ds !! a) = default 0 (Pending <$> q !! a) + at_key a ds /\
  default 0 (Reported <$> foldl enqueue q ds !! a) = default 0 (Reported <$> q !! a).
Proof.
  revert q. induction ds as [|[k n] ds IH]; intros q; simpl; [lia|].
  destruct (IH (enqueue q (k, n))) as [-> ->]. unfold enqueue; simpl.
  destruct (Z.eqb_spec k a) as [->|Hne].
  - rewrite lookup_insert_eq. simpl. destruct (q !! a); simpl; lia.
  - rewrite lookup_insert_ne by done. lia.
Qed.

Lemma queue_db_at a ds d :
  pending a (queue_db ds d) = pending a d + at_key a (queued_now ds d) /\
  reported a (queue_db ds d) = reported a d.
Proof.
  unfold queue_db, queued_now. destruct (BulkIncrementAdminUsage ds true d) as [[d' []]|] eqn:Hq;
    [|simpl; lia].
  unfold BulkIncrementAdminUsage in Hq. cbv zeta in Hq. destruct (_ && _); [|done]. injection Hq as <-.
  unfold pending, reported; simpl. apply enqueue_at.
Qed.

Lemma meanwhile_at a dss d :
  pending a (meanwhile_db dss d) = pending a d + at_key a (meanwhile_queued dss d) /\
  reported a (meanwhile_db dss d) = reported a d.
Proof.
  revert d. induction dss as [|ds dss IH]; intros d; simpl; [lia|].
  unfold meanwhile_db in *. simpl. destruct (IH (queue_db ds d)) as [-> ->].
  destruct (queue_db_at a ds d) as [-> ->]. rewrite at_key_app. lia.
Qed.

Lemma mark_at a sent q :
  NoDup (map fst sent) -> (forall k n, In (k, n) sent -> is_Some (q !! k)) ->
  default 0 (Pending <$> foldl mark q sent !! a) = default 0 (Pending <$> q !! a) - at_key a sent /\
  default 0 (Reported <$> foldl mark q sent !! a) = default 0 (Reported <$> q !! a) + at_key a sent.
Proof.
  revert q. induction sent as [|[k n] sent IH]; intros q Hnd Hin; simpl; [lia|].
  simpl in Hnd. apply NoDup_cons in Hnd as [Hk Hnd].
  destruct (IH (mark q (k, n)) Hnd) as [-> ->].
  { intros k' n' Hk'. unfold mark; simpl. apply lookup_alter_is_Some. apply (Hin k' n'). by right. }
  unfold mark; simpl. destruct (Z.eqb_spec k a) as [->|Hne].
  - rewrite lookup_alter_eq. destruct (Hin a n) as [x ->]; [by left|]. simpl. lia.
  - rewrite lookup_alter_ne by done. lia.
Qed.

Lemma query_rows w w' rows :
  query GetPendingResellerAPIUsage w = (w', Ok rows) -> to_send w = rows /\ db w' = db w.
Proof.
  intros Hq. unfold to_send. rewrite Hq. split; [done|].
  by apply query_ok in Hq as [_ Hq].
Qed.

(** The rows sent: distinct admins, each with exactly what is pending for it. *)
Lemma pending_rows_spec d rows :
  GetPendingResellerAPIUsage d = Ok rows ->
  NoDup (map fst (sent_of rows)) /\
  forall a n, In (a, n) (sent_of rows) -> is_Some (usage_queue d !! a) /\ n = pending a d /\ 0 < n.
Proof.
  intros [= <-]. unfold sent_of. split.
  - rewrite map_map.
    assert (forall l : list (Z * Queued), NoDup (l.*1) ->
      NoDup (map (fun x : pending_row => (let '(a, _, n) := x in (a, n)).1)
        (omap (fun '(i, q) => if 0 <? Pending q
                              then (fun a => (i, a_Username a, Pending q)) <$> admins d !! i else None) l))) as Hl.
    { induction l as [|[i q] l IH]; [done|]. simpl. intros [Hi Hnd]%NoDup_cons.
      assert (forall x, In x (map (fun x : pending_row => (let '(a, _, n) := x in (a, n)).1)
        (omap (fun '(i, q) => if 0 <? Pending q
           then (fun a => (i, a_Username a, Pending q)) <$> admins d !! i else None) l)) -> x ∈ l.*1) as Hsub.
      { intros x ([[a nm] n] & <- & Hin)%in_map_iff. simpl.
        apply list_elem_of_In, list_elem_of_omap in Hin as ([j q'] & Hj & Hq').
        destruct (0 <? Pending q'); [|done]. destruct (admins d !! j); [|done]. injection Hq' as <- _ _.
        apply list_elem_of_fmap. by exists (j, q'). }
      destruct (0 <? Pending q); [|auto]. destruct (admins d !! i); [|auto]. simpl.
      apply NoDup_cons. split; [|auto]. intros Hin. apply Hi, Hsub. by apply list_elem_of_In. }
    apply Hl, NoDup_fst_map_to_list.
  - intros a n ([[a' nm] n'] & [= -> ->] & Hin)%in_map_iff.
    apply list_elem_of_In, list_elem_of_omap in Hin as ([j q] & Hj%elem_of_map_to_list & Hq).
    destruct (Z.ltb_spec 0 (Pending q)); [|done]. destruct (admins d !! j); [|done].
    injection Hq as <- _ <-. unfold pending. rewrite Hj. simpl. eauto.
Qed.

Lemma at_key_nonneg a ds : (forall k n, In (k, n) ds -> 0 <= n) -> 0 <= at_key a ds.
Proof.
  induction ds as [|[k n] ds IH]; intros Hn; simpl; [lia|].
  assert (0 <= n) by (apply (Hn k); by left).
  assert (0 <= at_key a ds) by (apply IH; intros k' n' H'; apply (Hn k'); by right).
  destruct (k =? a); lia.
Qed.

Lemma at_key_unique a m ds :
  NoDup (map fst ds) -> (forall n, In (a, n) ds -> n = m) -> 0 <= m -> 0 <= at_key a ds <= m.
Proof.
  induction ds as [|[k n] ds IH]; intros Hnd Hin Hm; simpl; [lia|].
  simpl in Hnd. apply NoDup_cons in Hnd as [Hk Hnd]. destruct (Z.eqb_spec k a) as [->|Hne].
  - rewrite (Hin n) by (by left). assert (at_key a ds = 0) as ->; [|lia].
    clear -Hk. induction ds as [|[k n] ds IH]; [done|]. simpl in *.
    rewrite elem_of_cons in Hk. destruct (Z.eqb_spec k a) as [->|]; [tauto|]. rewrite IH; tauto.
  - apply IH; [done| |done]. intros n' Hn'. apply Hin. by right.
Qed.

Definition nonneg_event (e : event) : Prop :=
  match e with
  | Queue ds => forall k n, In (k, n) ds -> 0 <= n
  | ATick _ _ dss => forall ds k n, In ds dss -> In (k, n) ds -> 0 <= n
  end.

(** A tick is clean when a report the bot charged for was answered and marked. *)
Definition clean_event (s : state) (e : event) : bool :=
  match e with
  | Queue _ => true
  | ATick booked answered dss =>
      negb booked || is_ok (Tick true (booked && answered) (meanwhile_db dss) (w_of s)).2
  end.

(** The reachable states, with whether every tick so far was clean. *)
Inductive reach : bool -> state -> Prop :=
  | reach_start aa fs : reach true (start aa fs)
  | reach_step b s e : reach b s -> nonneg_event e -> reach (b && clean_event s e) (step s e).

Lemma queued_now_nonneg a ds d :
  (forall k n, In (k, n) ds -> 0 <= n) -> 0 <= at_key a (queued_now ds d).
Proof.
  intros Hn. apply at_key_nonneg. unfold queued_now, existing.
  destruct (BulkIncrementAdminUsage ds true d); [|done]. intros k n [Hin _]%filter_In. by apply (Hn k).
Qed.

Lemma meanwhile_nonneg a dss d :
  (forall ds k n, In ds dss -> In (k, n) ds -> 0 <= n) -> 0 <= at_key a (meanwhile_queued dss d).
Proof.
  revert d. induction dss as [|ds dss IH]; intros d Hn; simpl; [lia|]. rewrite at_key_app.
  assert (0 <= at_key a (queued_now ds d)) by (apply queued_now_nonneg; intros k n; apply (Hn ds k n); by left).
  assert (0 <= at_key a (meanwhile_queued dss (queue_db ds d)));
    [apply IH; intros ds' k n H'; apply (Hn ds' k n); by right|lia].
Qed.

Lemma enqueue_keeps k l q : is_Some (q !! k) -> is_Some (foldl enqueue q l !! k).
Proof.
  revert q. induction l as [|[k' n] l IH]; intros q Hq; simpl; [done|]. apply IH.
  unfold enqueue; simpl. destruct (decide (k' = k)) as [->|Hne].
  - rewrite lookup_insert_eq. eauto.
  - by rewrite lookup_insert_ne.
Qed.

Lemma meanwhile_keeps k dss d :
  is_Some (usage_queue d !! k) -> is_Some (usage_queue (meanwhile_db dss d) !! k).
Proof.
  revert d. induction dss as [|ds dss IH]; intros d Hd; [done|]. apply IH.
  unfold queue_db, BulkIncrementAdminUsage. cbv zeta. destruct (_ && _); [|done].
  by apply enqueue_keeps.
Qed.

(** What a tick does to one admin: either nothing but the traffic queued
    meanwhile, or the move of what was sent from pending to reported, and then it
    succeeded. *)
Lemma Tick_at a accepted dss w :
  let rows := to_send w in
  let dss' := match rows with [] => [] | _ => dss end in
  let d := meanwhile_db dss' (db w) in
  let r := Tick true accepted (meanwhile_db dss) w in
  (accepted = true /\ r.2 = Ok tt /\
   pending a (db r.1) = pending a d - at_key a (sent_of rows) /\
   reported a (db r.1) = reported a d + at_key a (sent_of rows)) \/
  ((is_ok r.2 = true -> rows = []) /\ db r.1 = d).
Proof.
  cbv zeta. unfold Tick, mbind, M_bind, or_else. cbn [negb]. cbv beta iota.
  destruct (query GetPendingResellerAPIUsage w) as [w1 [rows|e]] eqn:Hq.
  2:{ right. unfold to_send. rewrite Hq. simpl. split; [done|].
      pose proof (query_db GetPendingResellerAPIUsage w) as Hdb.
      by rewrite Hq in Hdb. }
  pose proof (query_ok _ _ _ _ Hq) as [Hrows Hdb].
  apply query_rows in Hq as [-> _]. destruct rows as [|row rows'] eqn:Er.
  { right. split; [done|]. exact Hdb. }
  rewrite <- Er in *. clear Er row rows'. simpl. rewrite Hdb. destruct accepted.
  2:{ right. simpl. done. }
  destruct (stmt _ _) as [w2 [[]|e]] eqn:Hs.
  - left. split; [done|]. split; [done|]. apply stmt_ok in Hs. cbn [db] in Hs.
    unfold MarkResellerAPIUsageReported in Hs. cbv zeta in Hs. case_bool_decide; [|done].
    injection Hs as Hs. simpl. unfold pending, reported. rewrite <- Hs. simpl.
    destruct (pending_rows_spec _ _ Hrows) as [Hnd Hin].
    apply mark_at; [done|]. intros k n Hk. destruct (Hin k n Hk) as (Hx & _).
    by apply meanwhile_keeps.
  - right. simpl. split; [done|]. unfold stmt in Hs. simpl in Hs.
    destruct (faults w1) as [|[] fs]; [|by injection Hs as <- _|];
      (destruct (MarkResellerAPIUsageReported _ _) as [[d []]|]; [done|by injection Hs as <- _]).
Qed.

(** C2: For every admin and at every moment: what was queued is either still pending
    or reported; nothing is reported that the bot has not charged; and as long as
    no answer and no mark was lost, the bot has charged exactly what is reported.
    A lost one can only charge again, never lose traffic. *)
Theorem billing_at_least_once clean s a :
  reach clean s ->
  let d := db (w_of s) in
  0 <= pending a d /\ pending a d + reported a d = default 0 (queued s !! a) /\
  reported a d <= default 0 (charged s !! a) /\
  (clean = true -> reported a d = default 0 (charged s !! a)).
Proof.
  cbv zeta. induction 1 as [aa fs|b s e Hr (I1 & I2 & I3 & I4) Hn].
  { unfold start, pending, reported; simpl. rewrite !lookup_empty. simpl. lia. }
  destruct e as [ds|booked answered dss]; simpl.
  - rewrite andb_true_r, bulk_bump_at. destruct (queue_db_at a ds (db (w_of s))) as [-> ->].
    pose proof (queued_now_nonneg a ds (db (w_of s)) Hn). split_and!; [lia..|done].
  - rewrite bulk_bump_at. set (w := w_of s) in *. clearbody w.
    set (rows := to_send w). set (dss' := match rows with [] => [] | _ => dss end).
    destruct (meanwhile_at a dss' (db w)) as [M1 M2].
    assert (0 <= at_key a (meanwhile_queued dss' (db w))) as Hmq.
    { apply meanwhile_nonneg. subst dss'. destruct rows; [done|exact Hn]. }
    assert (0 <= at_key a (sent_of rows) <= pending a (db w)) as Hsent.
    { subst rows. unfold to_send. destruct (query _ w) as [w1 [rows|]] eqn:Hq; [|simpl; lia].
      apply query_ok in Hq as [Hq _]. destruct (pending_rows_spec _ _ Hq) as [Hnd Hin].
      simpl. apply at_key_unique; [done| |done]. intros n Hk. by destruct (Hin a n Hk) as (_ & ? & _). }
    assert (default 0 ((if booked then bulk_bump (sent_of rows) (charged s) else charged s) !! a) =
            default 0 (charged s !! a) + (if booked then at_key a (sent_of rows) else 0)) as ->.
    { destruct booked; [apply bulk_bump_at|lia]. }
    destruct (Tick_at a (booked && answered) dss w) as [(Ha & Hok & -> & ->)|[Hok ->]];
      fold rows dss'; rewrite M1, M2.
    + apply andb_true_iff in Ha as [-> ->]. split_and!; [lia..|].
      intros [? _]%andb_true_iff. rewrite I4 by done. lia.
    + split_and!; [lia|lia|destruct booked; lia|]. intros [Hb Hc]%andb_true_iff. rewrite I4 by done.
      destruct booked; [|lia]. simpl in Hc. fold rows in Hok. rewrite Hok by done. simpl. lia.
Qed.

Lemma billing_at_least_once_witness :
  let aa : gmap Z Admin := {[7 := mkAdmin 7 "shop" 0]} in
  let s := step (step (start aa []) (Queue [(7, 100)])) (ATick true true [[(7, 5)]]) in
  pending 7 (db (w_of s)) = 5 /\ reported 7 (db (w_of s)) = 100 /\
  (0 <= pending 7 (db (w_of s)) /\
   pending 7 (db (w_of s)) + reported 7 (db (w_of s)) = default 0 (queued s !! 7) /\
   reported 7 (db (w_of s)) <= default 0 (charged s !! 7) /\
   (true = true -> reported 7 (db (w_of s)) = default 0 (charged s !! 7))).
Proof.
  cbv zeta. split; [vm_compute; reflexivity|]. split; [vm_compute; reflexivity|].
  apply (billing_at_least_once true).
  set (s0 := start {[7 := mkAdmin 7 "shop" 0]} []).
  assert (reach true s0) as H0 by constructor.
  assert (reach true (step s0 (Queue [(7, 100)]))) as H1.
  { apply (reach_step true s0 (Queue [(7, 100)]) H0). intros k n [[= <- <-]|[]]. lia. }
  assert (nonneg_event (ATick true true [[(7, 5)]])) as Hn.
  { intros ds k n [<-|[]] [[= <- <-]|[]]. lia. }
  pose proof (reach_step true _ _ H1 Hn) as H2.
  replace (true && clean_event _ _) with true in H2 by (vm_compute; reflexivity). exact H2.
Defined.
End Billing.

Module Retention.

Definition BatchSize : nat := Nat.mul 200 100.

(** [Sweep], one unit of fuel per statement: the rows removed so far and, unless it
    ran to the end, the error. The pause between full batches lets other writers
    in: [during k] is what they do after the [k]-th batch. *)
Fixpoint Sweep (fuel : nat) (cutoff : Z) (batchSize : nat) (total : nat) (w : World) :
  World * nat * option dberror :=
  match fuel with
  | O => (w, total, Some Unavailable)
  | S fuel =>
      match stmt (DeleteOldNodeUserUsages cutoff batchSize) w with
      | (w, Err e) => (w, total, Some e)
      | (w, Ok n) =>
          if (n <? batchSize)%nat then (w, total + n, None)%nat
          else Sweep fuel cutoff batchSize (total + n) w
      end
  end.

Definition is_old (cutoff : Z) (kx : (Z * Z * Z) * Z) : bool := let '((h, _, _), _) := kx in h <? cutoff.

Definition old_rows (cutoff : Z) (d : Db) : list ((Z * Z * Z) * Z) :=
  List.filter (is_old cutoff) (map_to_list (node_user_usages d)).

Definition recent (cutoff : Z) (d : Db) : gmap (Z * Z * Z) Z :=
  filter (fun '((h, _, _), _) => cutoff <= h) (node_user_usages d).

Lemma old_NoDup cutoff d : NoDup ((old_rows cutoff d).*1).
Proof.
  unfold old_rows. assert (forall l : list ((Z * Z * Z) * Z), NoDup (l.*1) ->
    NoDup ((List.filter (is_old cutoff) l).*1)) as Hl; [|apply Hl, NoDup_fst_map_to_list].
  induction l as [|x l IH]; [done|]. rewrite fmap_cons. intros [Hx Hnd]%NoDup_cons. simpl.
  destruct (is_old cutoff x); [|auto]. rewrite fmap_cons. apply NoDup_cons. split; [|auto].
  intros (y & E & Hy)%list_elem_of_fmap. apply Hx, list_elem_of_fmap. exists y. split; [done|].
  apply list_elem_of_In in Hy. apply filter_In in Hy as [Hy _]. by apply list_elem_of_In.
Qed.

Lemma old_elem cutoff d k x :
  (k, x) ∈ old_rows cutoff d <-> node_user_usages d !! k = Some x /\ is_old cutoff (k, x) = true.
Proof.
  unfold old_rows. by rewrite list_elem_of_In, filter_In, <- list_elem_of_In, elem_of_map_to_list.
Qed.

(** One batch: the oldest [batch] rows (or all that are left) go. *)
Lemma delete_batch cutoff batch d d' n :
  DeleteOldNodeUserUsages cutoff batch d = Ok (d', n) ->
  n = min batch (length (old_rows cutoff d)) /\ recent cutoff d' = recent cutoff d /\
  old_rows cutoff d' ≡ₚ drop batch (old_rows cutoff d) /\
  d' = set_node_user_usages (node_user_usages d') d.
Proof.
  intros [= <- <-]. fold (old_rows cutoff d). rewrite length_map, length_take.
  set (old := old_rows cutoff d). set (gone := map fst (take batch old)).
  pose proof (old_NoDup cutoff d) as Hnd. fold old in Hnd.
  assert (forall k x, (k, x) ∈ old -> k ∈ gone <-> (k, x) ∈ take batch old) as Hgone.
  { intros k x Hkx. subst gone. rewrite list_elem_of_fmap. split; [|by exists (k, x)].
    intros ([k' y] & -> & Hin). simpl in *. assert (x = y) as ->; [|done].
    assert ((k', y) ∈ old) as Hy by (rewrite <- (take_drop batch old); apply elem_of_app; by left).
    apply old_elem in Hkx as [Hkx _], Hy as [Hy _]. congruence. }
  change (set_node_user_usages _ d) with
    (set_node_user_usages (filter (fun '(k, _) => k ∉ gone) (node_user_usages d)) d).
  split_and!; [done| | |done].
  - unfold recent; simpl. rewrite map_filter_filter. apply map_filter_ext.
    intros [[h u] nd] x Hx. simpl. split; [tauto|]. intros Hh. split; [done|].
    subst gone. intros ([k y] & E & Hin)%list_elem_of_fmap. simpl in E. subst k.
    assert (((h, u, nd), y) ∈ old) as Hy by (rewrite <- (take_drop batch old); apply elem_of_app; by left).
    apply old_elem in Hy as [_ Hy]. simpl in Hy. apply Z.ltb_lt in Hy. lia.
  - apply NoDup_Permutation.
    + eapply NoDup_fmap_1. apply old_NoDup.
    + eapply NoDup_fmap_1. rewrite <- (take_drop batch old), fmap_app in Hnd.
      by apply NoDup_app in Hnd as (_ & _ & Hnd).
    + intros [k x]. rewrite old_elem. simpl. rewrite map_lookup_filter_Some. split.
      * intros [[Hk Hng] Ho]. assert ((k, x) ∈ old) as Hin by by apply old_elem.
        pose proof Hin as Hin'. rewrite <- (take_drop batch old), elem_of_app in Hin'.
        destruct Hin' as [Ht|]; [|done]. by apply Hgone in Ht.
      * intros Hd. assert ((k, x) ∈ old) as Hin
          by (rewrite <- (take_drop batch old); apply elem_of_app; by right).
        pose proof Hin as [Hk Ho]%old_elem. split; [|done]. split; [done|]. intros Ht%(Hgone k x Hin).
        rewrite <- (take_drop batch old), fmap_app in Hnd. apply NoDup_app in Hnd as (_ & Hdis & _).
        apply (Hdis k); apply list_elem_of_fmap; by exists (k, x).
Qed.

Lemma recent_all cutoff d : old_rows cutoff d = [] -> node_user_usages d = recent cutoff d.
Proof.
  intros Ho. unfold recent. symmetry. apply map_filter_id. intros [[h u] n] x Hx.
  destruct (decide (cutoff <= h)) as [|Hlt]; [done|]. exfalso.
  assert (((h, u, n), x) ∈ old_rows cutoff d) as Hin.
  { apply old_elem. split; [done|]. simpl. apply Z.ltb_lt. lia. }
  rewrite Ho in Hin. by apply not_elem_of_nil in Hin.
Qed.

(** A sweep that meets no error ends, with as much fuel as there are full batches
    to delete and one more; it has removed exactly the rows older than the cutoff,
    counted each, and touched no other table: the reported totals stay. *)
Theorem Sweep_complete fuel cutoff batch total w :
  (0 < batch)%nat -> faults w = [] ->
  (length (old_rows cutoff (db w)) < fuel * batch)%nat ->
  Sweep fuel cutoff batch total w =
    (mkWorld (set_node_user_usages (recent cutoff (db w)) (db w)) [],
     (total + length (old_rows cutoff (db w)))%nat, None).
Proof.
  intros Hb. revert w total. induction fuel as [|fuel IH]; intros w total Hf Hfuel; [simpl in Hfuel; lia|].
  cbn [Sweep]. unfold stmt. rewrite Hf.
  destruct (DeleteOldNodeUserUsages cutoff batch (db w)) as [[d' n]|e] eqn:Hd; [|done].
  destruct (delete_batch _ _ _ _ _ Hd) as (Hn & Hrec & Hperm & Hset). cbn [tail].
  pose proof (Permutation_length Hperm) as Hlen. rewrite length_drop in Hlen.
  destruct (Nat.ltb_spec n batch) as [Hlt|Hge].
  - assert (old_rows cutoff d' = []) as Hnil by (apply nil_length_inv; lia).
    rewrite <- Hrec, <- (recent_all _ _ Hnil), <- Hset. do 2 f_equal. lia.
  - rewrite IH; cbn [db faults]; [|done|simpl in Hfuel; lia].
    rewrite Hrec, Hlen. assert (set_node_user_usages (recent cutoff (db w)) d' =
      set_node_user_usages (recent cutoff (db w)) (db w)) as -> by (by rewrite Hset).
    do 2 f_equal. lia.
Qed.

Lemma Sweep_complete_witness :
  let m : gmap (Z * Z * Z) Z := <[(1, 1, 1) := 5]> (<[(2, 1, 1) := 6]> {[(9, 1, 1) := 7]}) in
  let w := mkWorld (mkDb ∅ ∅ ∅ ∅ [] m ∅ ∅ (0, 0) ∅ ∅ [] 1) [] in
  Sweep 3 5 1 0 w = (mkWorld (set_node_user_usages (recent 5 (db w)) (db w)) [], 2%nat, None).
Proof.
  cbv zeta. apply (Sweep_complete 3 5 1 0); [lia|reflexivity|]. vm_compute. lia.
Defined.
End Retention.
