(* ===== verification/LoadMap.v ===== *)
(** * Config load: how crowded each config is

    [internal/loadmap]. [Presence] reads what the node-live endpoint wrote to Redis;
    [Dns] is the address cache that never waits; [LoadMap] turns nodes, hosts and
    presence into percentages; [Cache] is the snapshot served to requests, rebuilt by
    one flight at a time. *)

From stdpp Require Import sorting.
From S2P Require Import Prelude GoStrings GoFloat.
Import GoFloat.

#[local] Open Scope Z_scope.

(** What [int(x)] gives for a double outside the 64-bit range: the language leaves
    it to the implementation. *)
Class FloatToInt := float_to_int_overflow : Z -> Z.

(** What a call to something outside the program comes back with. *)
Inductive answer (A : Type) := Answered (a : A) | Failed | Panics.
Arguments Answered {A} a.
Arguments Failed {A}.
Arguments Panics {A}.

Module Presence.

Record NodePresence := mkPresence { Reporting : bool; Ports : gmap Z Z; Total : Z }.
Record PresenceData := mkData { Live : bool; Nodes : gmap Z NodePresence }.

(** The zero value a Go map gives for a key it does not hold. *)
Definition no_presence : NodePresence := mkPresence false ∅ 0.

Definition total (np : NodePresence) : Z := Z.max (Total np) (int64 (map_sum (Ports np))).

(** The answer to the pipeline for one node: the total ([None]: no such key) and the
    fields of the hash, in the order the loop over the Go map visits them; [None]
    when the command itself failed. *)
Record node_reply := mkReply {
  r_total : option (option string);
  r_ports : option (list (string * string));
}.

Definition port_entry (field value : string) : option (Z * Z) :=
  match ParseInt field, ParseInt value with
  | Some port, Some conns => if (port <=? 0) || (conns <? 0) then None else Some (port, conns)
  | _, _ => None
  end.

(** The ports of a hash; when two fields spell one port the one visited last wins. *)
Definition read_ports (order : list (string * string)) : gmap Z Z :=
  foldl (fun m '(f, v) => match port_entry f v with Some (p, c) => <[p := c]> m | None => m end)
    ∅ order.

Definition read_total (raw : option string) : Z :=
  match raw with
  | Some s => match ParseInt s with Some t => if 0 <? t then t else 0 | None => 0 end
  | None => 0
  end.

Definition read_node (r : node_reply) : option NodePresence :=
  match r_total r, r_ports r with
  | Some t, Some raw =>
      Some (mkPresence (match t with Some _ => true | None => false end || (0 <? Z.of_nat (length raw)))
              (read_ports raw) (read_total t))
  | _, _ => None
  end.

(** [Read]: [exec] says whether the round trip worked, [live] what EXISTS answered. *)
Definition Read (exec : bool) (live : option Z) (replies : Z -> node_reply) (nodeIDs : list Z) :
  option PresenceData :=
  if negb exec then None
  else match live with
  | None => None
  | Some n =>
      if negb (0 <? n) then Some (mkData false ∅)
      else Some (mkData true
             (foldl (fun m id => match read_node (replies id) with
                                 | Some np => <[id := np]> m
                                 | None => m
                                 end) ∅ nodeIDs))
  end.

(** What the rest of the program relies on. *)
Definition sane (np : NodePresence) : Prop :=
  0 <= Total np /\ map_Forall (fun p c => 0 < p /\ 0 <= c) (Ports np).

Lemma read_ports_sane order : map_Forall (fun p c => 0 < p /\ 0 <= c) (read_ports order).
Proof.
  unfold read_ports. induction order as [|[f v] order IH] using rev_ind; [apply map_Forall_empty|].
  rewrite foldl_app; simpl. unfold port_entry.
  destruct (ParseInt f) as [p|], (ParseInt v) as [c|]; try done.
  destruct (Z.leb_spec p 0), (Z.ltb_spec c 0); simpl; try done.
  by apply map_Forall_insert_2.
Qed.

(** Whatever Redis holds, a report read from it has positive ports, no negative
    count, and is about a node that was asked for. *)
Theorem Read_sane exec live replies ids data :
  Read exec live replies ids = Some data ->
  forall id np, Nodes data !! id = Some np -> sane np /\ In id ids /\ Live data = true.
Proof.
  unfold Read. destruct exec; [|done]. destruct live as [n|]; [|done]. cbn [negb].
  destruct (0 <? n); [|intros [= <-] id np; cbn; by rewrite lookup_empty].
  intros [= <-]. cbn [Nodes Live negb]. induction ids as [|i ids IH] using rev_ind; intros id np.
  { simpl. by rewrite lookup_empty. }
  rewrite foldl_app; simpl. unfold read_node at 1. rewrite in_app_iff.
  destruct (r_total (replies i)) as [t|], (r_ports (replies i)) as [raw|];
    try (intros (? & ? & _)%IH; tauto).
  rewrite lookup_insert_Some. intros [[<- <-]|[_ (? & ? & _)%IH]]; [|tauto].
  split; [|simpl; tauto]. split; [|apply read_ports_sane]. unfold read_total; simpl.
  destruct t as [s|]; [|done]. destruct (ParseInt s) as [z|]; [|done]. destruct (Z.ltb_spec 0 z); lia.
Qed.

Definition demo_reply (i : Z) : node_reply :=
  mkReply (Some (Some "7"%string)) (Some [("443", "5"); ("0", "9"); ("80", "-1"); ("x", "1")]%string).

Lemma Read_sane_witness :
  let np := mkPresence true {[443 := 5]} 7 in sane np /\ In 3 [3] /\ true = true.
Proof.
  cbv zeta. apply (Read_sane true (Some 1) demo_reply [3] (mkData true {[3 := mkPresence true {[443 := 5]} 7]})).
  - vm_compute. reflexivity.
  - reflexivity.
Defined.
End Presence.

Module Dns.

Definition second : Z := 1000000000.
Definition dnsTTL : Z := 5 * 60 * second.
Definition dnsFailTTL : Z := 60 * second.

Record dnsEntry := mkEntry { ips : gset string; at_ : Z; failed : bool; refreshing : bool }.

(** The entries, and the background lookups that have been started and have not
    finished. *)
Record dnsCache := mkCache { entries : gmap string dnsEntry; running : list string }.

Definition newDNSCache : dnsCache := mkCache ∅ [].

Section Dns.

(** [netip.ParseAddr(s)] followed by [Unmap().String()]: the normal form of an IP
    literal. *)
Context (parse_addr : string -> option string).

Definition spawn (name : string) (e : dnsEntry) (c : dnsCache) : dnsCache :=
  mkCache (<[name := e]> (entries c)) (name :: running c).

Definition lookup (now : Z) (name : string) (c : dnsCache) : dnsCache * gset string :=
  match parse_addr name with
  | Some a => (c, {[a]})
  | None =>
      match entries c !! name with
      | None => (spawn name (mkEntry ∅ 0 false true) c, ∅)
      | Some e =>
          let ttl := if failed e then dnsFailTTL else dnsTTL in
          if negb (refreshing e) && (ttl <=? now - at_ e)
          then (spawn name (mkEntry (ips e) (at_ e) (failed e) true) c, ips e)
          else (c, ips e)
      end
  end.

(** The addresses of an answer that parse. *)
Definition normalized (addrs : list string) : gset string := list_to_set (omap parse_addr addrs).

(** A background lookup comes back ([None]: with an error). *)
Definition land (now : Z) (name : string) (res : option (list string)) (c : dnsCache) : dnsCache :=
  match entries c !! name with
  | None => c
  | Some e =>
      let got := default ∅ (normalized <$> res) in
      let e' := if decide (got = ∅)
                then mkEntry (ips e) now true false
                else mkEntry got now false false in
      mkCache (<[name := e']> (entries c))
        (List.filter (fun x => negb (String.eqb x name)) (running c))
  end.

(** ** What a cache answers *)

Inductive event :=
  | ELookup (now : Z) (name : string)
  | ELand (now : Z) (name : string) (res : option (list string)).

(** The last answer for a name that held an address. *)
Definition last_good (name : string) (h : list event) : gset string :=
  foldl (fun acc e => match e with
                      | ELand _ n res =>
                          let got := default ∅ (normalized <$> res) in
                          if String.eqb n name && bool_decide (got <> ∅) then got else acc
                      | ELookup _ _ => acc
                      end) ∅ h.

(** The lookups and landings a cache can have seen: only a running one lands. *)
Inductive reachable : list event -> dnsCache -> Prop :=
  | reach_new : reachable [] newDNSCache
  | reach_lookup h c now name :
      reachable h c -> reachable (h ++ [ELookup now name]) (lookup now name c).1
  | reach_land h c now name res :
      reachable h c -> In name (running c) ->
      reachable (h ++ [ELand now name res]) (land now name res c).

Record cache_inv (h : list event) (c : dnsCache) : Prop := {
  inv_nodup : NoDup (running c);
  inv_running : forall name, In name (running c) <-> exists e, entries c !! name = Some e /\ refreshing e = true;
  inv_ips : forall name, default ∅ (ips <$> entries c !! name) = last_good name h;
}.

Lemma last_good_snoc name h e :
  last_good name (h ++ [e]) =
    match e with
    | ELand _ n res =>
        let got := default ∅ (normalized <$> res) in
        if String.eqb n name && bool_decide (got <> ∅) then got else last_good name h
    | ELookup _ _ => last_good name h
    end.
Proof. unfold last_good. by rewrite foldl_app. Qed.

Lemma spawn_inv h c name e0 now :
  cache_inv h c -> default ∅ (ips <$> entries c !! name) = ips e0 -> refreshing e0 = true ->
  ~ In name (running c) -> cache_inv (h ++ [ELookup now name]) (spawn name e0 c).
Proof.
  intros [Hn Hr Hi] He Href Hnot. split; cbn [spawn running entries].
  - apply NoDup_cons. split; [|done]. by rewrite list_elem_of_In.
  - intros n. cbn [In]. destruct (decide (n = name)) as [->|Hne].
    + rewrite lookup_insert_eq. split; [by exists e0|tauto].
    + rewrite lookup_insert_ne by done. rewrite <- Hr. intuition congruence.
  - intros n. rewrite last_good_snoc, <- Hi. destruct (decide (n = name)) as [->|Hne].
    + by rewrite lookup_insert_eq, He.
    + by rewrite lookup_insert_ne.
Qed.

Lemma lookup_inv h c now name :
  cache_inv h c -> cache_inv (h ++ [ELookup now name]) (lookup now name c).1.
Proof.
  intros Hc. assert (cache_inv (h ++ [ELookup now name]) c) as Hsame.
  { destruct Hc as [Hn Hr Hi]. split; [done|done|]. intros n. by rewrite last_good_snoc. }
  unfold lookup. destruct (parse_addr name); [done|].
  destruct (entries c !! name) as [e|] eqn:He.
  - cbv zeta. destruct (refreshing e) eqn:Href; [done|]. cbn [negb andb].
    destruct (_ <=? _); [|done]. cbn [fst]. apply spawn_inv; try done; [by rewrite He|].
    rewrite (inv_running _ _ Hc). intros (e' & He' & Ht). congruence.
  - cbn [fst]. apply spawn_inv; try done; [by rewrite He|].
    rewrite (inv_running _ _ Hc). intros (e' & He' & _). congruence.
Qed.

Lemma land_inv h c now name res :
  cache_inv h c -> In name (running c) -> cache_inv (h ++ [ELand now name res]) (land now name res c).
Proof.
  intros Hc Hin. pose proof Hin as (e & He & _)%(inv_running _ _ Hc). destruct Hc as [Hn Hr Hi].
  unfold land. rewrite He. cbv zeta. set (got := default ∅ (normalized <$> res)).
  split; cbn [running entries].
  - by apply NoDup_ListNoDup, List.NoDup_filter, NoDup_ListNoDup.
  - intros n. rewrite filter_In, Hr. destruct (decide (n = name)) as [->|Hne].
    + rewrite lookup_insert_eq, String.eqb_refl. split; [by intros [_ ?]|].
      intros (e' & [= <-] & Ht). by destruct (decide (got = ∅)).
    + rewrite lookup_insert_ne by done. apply String.eqb_neq in Hne. rewrite Hne. simpl. tauto.
  - intros n. rewrite last_good_snoc, <- Hi. fold got. destruct (decide (n = name)) as [->|Hne].
    + rewrite lookup_insert_eq, He, String.eqb_refl. simpl.
      destruct (decide (got = ∅)) as [E|E]; [by rewrite bool_decide_eq_false_2 by tauto|].
      by rewrite bool_decide_eq_true_2.
    + rewrite lookup_insert_ne by done. assert (name <> n) as ->%String.eqb_neq by congruence. done.
Qed.

(** At every moment a name is being resolved at most once, and a lookup answers at
    once with the last answer that held an address: a failure, or an answer with
    none, never forgets a working one. *)
Theorem lookup_last_good h c now name :
  reachable h c -> parse_addr name = None ->
  NoDup (running (lookup now name c).1) /\ (lookup now name c).2 = last_good name h.
Proof.
  intros Hr Hp. assert (cache_inv h c) as Hc.
  { induction Hr as [|h c now' name' _ IH|h c now' name' res _ IH Hin].
    - split; cbn; [constructor| |by intros n; rewrite lookup_empty].
      intros n. split; [done|]. intros (e & He & _). by rewrite lookup_empty in He.
    - by apply lookup_inv.
    - by apply land_inv. }
  split; [exact (inv_nodup _ _ (lookup_inv _ _ now name Hc))|].
  rewrite <- (inv_ips _ _ Hc). unfold lookup. rewrite Hp.
  destruct (entries c !! name) as [e|]; [|done]. cbv zeta. by destruct (_ && _).
Qed.
End Dns.

(** Enough of an address parser for concrete runs: dotted quads of digits. *)
Definition demo_parse (s : string) : option string :=
  if str_forallb (fun c => is_digit c || Ascii.eqb c ".") s then Some s else None.

Definition demo_history : list event :=
  [ELookup 0 "a.example"; ELand 5 "a.example" (Some ["10.0.0.7"; "bogus"]);
   ELookup dnsTTL "a.example"; ELookup (dnsTTL + 5) "a.example"; ELand (dnsTTL + 9) "a.example" None]%string.

Definition demo_cache : dnsCache :=
  foldl (fun c e => match e with
                    | ELookup t n => (lookup demo_parse t n c).1
                    | ELand t n r => land demo_parse t n r c
                    end) newDNSCache demo_history.

Lemma lookup_last_good_witness :
  NoDup (running (lookup demo_parse (2 * dnsTTL) "a.example" demo_cache).1) /\
  (lookup demo_parse (2 * dnsTTL) "a.example" demo_cache).2 =
    last_good demo_parse "a.example" demo_history.
Proof.
  apply (lookup_last_good demo_parse); [|reflexivity].
  pose proof (reach_new demo_parse) as H0.
  pose proof (reach_lookup _ _ _ 0 "a.example" H0) as H1.
  pose proof (reach_land _ _ _ 5 "a.example" (Some ["10.0.0.7"; "bogus"]%string) H1 ltac:(by left)) as H2.
  pose proof (reach_lookup _ _ _ dnsTTL "a.example" H2) as H3.
  pose proof (reach_lookup _ _ _ (dnsTTL + 5) "a.example" H3) as H4.
  assert (In "a.example"%string (running (lookup demo_parse (dnsTTL + 5) "a.example"
    (lookup demo_parse dnsTTL "a.example" (land demo_parse 5 "a.example"
      (Some ["10.0.0.7"; "bogus"]%string) (lookup demo_parse 0 "a.example" newDNSCache).1)).1).1))
    as Hin by (vm_compute; tauto).
  exact (reach_land _ _ _ (dnsTTL + 9) "a.example" None H4 Hin).
Defined.

Example demo_cache_answers :
  last_good demo_parse "a.example" demo_history = {["10.0.0.7"%string]}.
Proof. apply (bool_decide_eq_true_1 _). vm_compute. reflexivity. Qed.
End Dns.

Module LoadMap.
Import Presence.

Inductive Level := LevelUnknown | LevelFree | LevelNormal | LevelBusy | LevelFull.
#[export] Instance Level_eq_dec : EqDecision Level.
Proof. solve_decision. Defined.

Definition DefaultCapacity : Z := 10000.
Definition homeShareDivisor : Z := 5.

Definition LevelFor (percent : Z) : Level :=
  if percent <? 40 then LevelFree
  else if percent <? 70 then LevelNormal
  else if percent <? 90 then LevelBusy
  else LevelFull.

Definition Emoji (l : Level) : string :=
  match l with
  | LevelFree => "🟢"
  | LevelNormal => "🟡"
  | LevelBusy => "🟠"
  | LevelFull => "🔴"
  | LevelUnknown => ""
  end.

Definition to_int `{FloatToInt} (x : Z) : Z := if decide (fits 64 x) then x else float_to_int_overflow x.

Definition Percent `{FloatToInt} (conns : float64) (capacity : Z) : Z :=
  let capacity := if capacity <? 1 then DefaultCapacity else capacity in
  let p := to_int (Round (fdiv (fmul (of_int 100) conns) (of_int capacity))) in
  if p <? 0 then 0 else if 100 <? p then 100 else p.

Record Node := mkNode {
  N_ID : Z; N_Name : string; N_Address : string; N_Status : string; N_Capacity : Z;
  InboundTags : list string; ListenPorts : list Z;
}.

Record Host := mkHost { H_ID : Z; H_Remark : string; H_Address : string; H_Port : Z; InboundTag : string }.

Record HostLoad := mkHostLoad {
  HostID : Z; Remark : string; Address : string; Port : Z;
  Known : bool; Conns : Z; PortPercent : Z; NodePercent : Z; HPercent : Z; HLevel : Level;
  NodeIDs : list Z; UsesLoad : bool;
}.

Inductive source := CapacityNode | CapacityDefault.

Record NodeLoad := mkNodeLoad {
  L_ID : Z; L_Name : string; L_Conns : Z; L_Capacity : Z; CapacitySource : source; L_Percent : Z;
}.

Record Snapshot := mkSnapshot {
  At : Z; S_Live : bool; S_Capacity : Z; Hosts : list HostLoad; S_Nodes : list NodeLoad;
  byID : gmap Z nat; known : bool;
}.

(** [For]; [None] for the snapshot is the nil pointer. *)
Definition For (s : option Snapshot) (hostID : Z) : option HostLoad :=
  s ← s; i ← byID s !! hostID; Hosts s !! i.

Definition HasData (s : option Snapshot) : bool := match s with Some s => known s | None => false end.

Definition UsesLoadVariable (s : string) : bool := Contains s "{LOAD".
Definition IsInfo (remark : string) : bool := Contains remark "{" && negb (UsesLoadVariable remark).

Definition emptySnapshot (capacity at_ : Z) : Snapshot := mkSnapshot at_ false capacity [] [] ∅ false.

Definition by_id (m n : Node) : Prop := N_ID m <= N_ID n.
#[export] Instance by_id_dec m n : Decision (by_id m n).
Proof. unfold by_id. apply _. Defined.

(** [activeNodes]; ids are unique, so an unstable sort has one outcome. *)
Definition activeNodes (nodes : list Node) : list Node :=
  merge_sort by_id (List.filter (fun n => negb (String.eqb (N_Status n) "disabled")) nodes).

Definition serves (n : Node) (h : Host) : bool :=
  (match InboundTags n with [] => true | tags => str_mem (InboundTag h) tags end) &&
  (match ListenPorts n with [] => true | ports => existsb (Z.eqb (H_Port h)) ports end).

Definition overlaps (a b : gset string) : bool :=
  let '(a, b) := if (size b <? size a)%nat then (b, a) else (a, b) in
  existsb (fun ip => bool_decide (ip ∈ b)) (elements a).

(** ** One host *)

(** The resolver a build asks: what it answers may change from one call to the
    next. *)
Class Resolver (S : Type) := dns_lookup : string -> S -> S * gset string.

Record Config := mkConfig { Capacity : Z; TTL : Z; ExpandAddress : option (string -> string) }.

Definition DefaultTTL : Z := 3 * Dns.second.
Definition maxStale : Z := 10 * Dns.second.

(** The defaults [New] fills in. *)
Definition New (cfg : Config) : Config :=
  mkConfig (if Capacity cfg <? 1 then DefaultCapacity else Capacity cfg)
    (if TTL cfg <=? 0 then DefaultTTL else TTL cfg) (ExpandAddress cfg).

Definition capacityOf (cfg : Config) (n : Node) : Z * source :=
  if 1 <=? N_Capacity n then (N_Capacity n, CapacityNode) else (Capacity cfg, CapacityDefault).

Definition expand (cfg : Config) (address : string) : string :=
  match ExpandAddress cfg with Some f => f address | None => address end.

Definition reporting (data : PresenceData) (n : Node) : bool :=
  match Nodes data !! N_ID n with Some np => Reporting np | None => false end.

Definition presence_of (data : PresenceData) (n : Node) : NodePresence :=
  default no_presence (Nodes data !! N_ID n).

Definition port_conns (data : PresenceData) (port : Z) (n : Node) : Z :=
  default 0 (Ports (presence_of data n) !! port).

(** A reporting node with the port in its report, or one whose profile serves the host. *)
Definition is_candidate (data : PresenceData) (h : Host) (n : Node) : bool :=
  reporting data n &&
  (match Ports (presence_of data n) !! H_Port h with Some _ => true | None => false end || serves n h).

Definition use_nodes (hostIPs : gset string) (nodeIPs : Z -> gset string) (candidates : list Node) :
  list Node :=
  if (size hostIPs =? 0)%nat then candidates
  else match List.filter (fun n => overlaps hostIPs (nodeIPs (N_ID n))) candidates with
       | [] => candidates
       | matched => matched
       end.

Definition sum_conns (data : PresenceData) (port : Z) (use : list Node) : Z :=
  foldl (fun s n => int64 (s + port_conns data port n)) 0 use.

Definition is_home (data : PresenceData) (port sum : Z) (n : Node) : bool :=
  sum <=? int64 (port_conns data port n * homeShareDivisor).

Definition home_nodes (data : PresenceData) (port : Z) (use : list Node) : list Node :=
  let sum := sum_conns data port use in
  if 0 <? sum then List.filter (is_home data port sum) use else use.

Section Build.
Context `{FloatToInt} {S : Type} `{Resolver S}.

Definition addresses (address : string) (s : S) : S * gset string :=
  let address := TrimSpace address in
  if String.eqb address "" || Contains address "{" || Contains address "}" then (s, ∅)
  else dns_lookup address s.

Definition port_percent (cfg : Config) (data : PresenceData) (port : Z) (n : Node) : Z :=
  Percent (of_int (port_conns data port n)) (capacityOf cfg n).1.

Definition node_percent (cfg : Config) (data : PresenceData) (n : Node) : Z :=
  Percent (of_int (total (presence_of data n))) (capacityOf cfg n).1.

Definition max_over (f : Node -> Z) (l : list Node) (start : Z) : Z := foldl (fun m n => Z.max m (f n)) start l.

Definition unknown_load (h : Host) : HostLoad :=
  mkHostLoad (H_ID h) (H_Remark h) (H_Address h) (H_Port h) false 0 0 0 0 LevelUnknown []
    (UsesLoadVariable (H_Remark h)).

(** What [compute] makes of a host once the nodes to use are chosen. *)
Definition load_over (cfg : Config) (data : PresenceData) (use : list Node) (hl : HostLoad) : HostLoad :=
  let home := home_nodes data (Port hl) use in
  let pp := max_over (port_percent cfg data (Port hl)) home (PortPercent hl) in
  let np := max_over (node_percent cfg data) home (NodePercent hl) in
  mkHostLoad (HostID hl) (Remark hl) (Address hl) (Port hl) true (sum_conns data (Port hl) use)
    pp np (Z.max pp np) (LevelFor (Z.max pp np)) (map N_ID home) (UsesLoad hl).

Definition compute (cfg : Config) (h : Host) (nodes : list Node) (nodeIPs : gmap Z (gset string))
    (data : PresenceData) (hl : HostLoad) (s : S) : S * HostLoad :=
  match List.filter (is_candidate data h) nodes with
  | [] => (s, hl)
  | candidates =>
      let '(s, hostIPs) := addresses (expand cfg (H_Address h)) s in
      (s, load_over cfg data (use_nodes hostIPs (fun i => default ∅ (nodeIPs !! i)) candidates) hl)
  end.

(** ** A build *)

Definition node_load (cfg : Config) (data : PresenceData) (n : Node) : option NodeLoad :=
  match Nodes data !! N_ID n with
  | Some np =>
      if Reporting np then
        let '(capacity, src) := capacityOf cfg n in
        Some (mkNodeLoad (N_ID n) (N_Name n) (total np) capacity src (Percent (of_int (total np)) capacity))
      else None
  | None => None
  end.

Definition node_addresses (nodes : list Node) (s : S) : S * gmap Z (gset string) :=
  foldl (fun '(s, m) n => let '(s, a) := addresses (N_Address n) s in (s, <[N_ID n := a]> m)) (s, ∅) nodes.

Definition add_host (cfg : Config) (nodes : list Node) (nodeIPs : gmap Z (gset string)) (data : PresenceData)
    (acc : S * Snapshot) (h : Host) : S * Snapshot :=
  let '(s, snap) := acc in
  if IsInfo (H_Remark h) then (s, snap)
  else
    let '(s, hl) := if Live data && (0 <? H_Port h)
                    then compute cfg h nodes nodeIPs data (unknown_load h) s
                    else (s, unknown_load h) in
    (s, mkSnapshot (At snap) (S_Live snap) (S_Capacity snap) (Hosts snap ++ [hl]) (S_Nodes snap)
          (<[H_ID h := length (Hosts snap)]> (byID snap)) (known snap || Known hl)).

(** What the inventory and Redis answered to this build; [reads] is [None] for a map
    without a presence source. *)
Record inputs := mkInputs {
  in_hosts : answer (list Host);
  in_nodes : answer (list Node);
  in_presence : option (list Z -> answer PresenceData);
}.

Definition no_data : PresenceData := mkData false ∅.

(** [build] from the listed hosts and nodes on. *)
Definition build_from (cfg : Config) (now : Z) (hosts : list Host) (nodes : list Node)
    (data : PresenceData) (s : S) : S * Snapshot :=
  let loads := if Live data then omap (node_load cfg data) nodes else [] in
  let '(s, nodeIPs) := node_addresses nodes s in
  foldl (add_host cfg nodes nodeIPs data)
    (s, mkSnapshot now (Live data) (Capacity cfg) [] loads ∅ false) hosts.

(** [build]; [None] when something it called panicked. *)
Definition build (cfg : Config) (now : Z) (i : inputs) (s : S) : option (S * Snapshot) :=
  match in_hosts i with
  | Panics => None
  | Failed => Some (s, emptySnapshot (Capacity cfg) now)
  | Answered hosts =>
      match in_nodes i with
      | Panics => None
      | ns =>
          let nodes := activeNodes (match ns with Answered l => l | _ => [] end) in
          match in_presence i, nodes with
          | Some read, _ :: _ =>
              match read (map N_ID nodes) with
              | Panics => None
              | Answered data => Some (build_from cfg now hosts nodes data s)
              | Failed => Some (build_from cfg now hosts nodes no_data s)
              end
          | _, _ => Some (build_from cfg now hosts nodes no_data s)
          end
      end
  end.

(** [safeBuild]: always a snapshot; after a panic one that knows nothing, stamped
    when it was recovered. *)
Definition safeBuild (cfg : Config) (now recovered : Z) (i : inputs) (s : S) : S * Snapshot :=
  default (s, emptySnapshot (Capacity cfg) recovered) (build cfg now i s).
End Build.

(** ** The percentage *)

Lemma Percent_range `{FloatToInt} x c : 0 <= Percent x c <= 100.
Proof.
  unfold Percent. cbv zeta. set (p := to_int _). destruct (Z.ltb_spec p 0); [lia|].
  destruct (Z.ltb_spec 100 p); lia.
Qed.

(** The percentage computed in doubles is the exact one, rounded half up and cut at
    100, for any counts below [2 ^ 45]; and it is between 0 and 100 for every count
    and setting there is, whatever the machine does with a double that does not fit
    an integer. *)
Theorem Percent_exact `{FloatToInt} conns capacity :
  (forall x c, 0 <= Percent x c <= 100) /\
  (0 <= conns < 2 ^ 45 -> 0 < capacity < 2 ^ 45 ->
   Percent (of_int conns) capacity = Z.min 100 ((2 * (100 * conns) + capacity) / (2 * capacity))).
Proof.
  split; [apply Percent_range|]. intros Hc Hk. unfold Percent. destruct (Z.ltb_spec capacity 1) as [|_]; [lia|]. cbv zeta.
  rewrite Round_fdiv_fmul by lia. set (q := (2 * (100 * conns) + capacity) / (2 * capacity)).
  assert (0 <= q) as Hq by (apply Z.div_pos; lia).
  assert (q < 2 ^ 60) as Hq' by (apply Z.div_lt_upper_bound; nia).
  unfold to_int. rewrite decide_True by (split; lia).
  destruct (Z.ltb_spec q 0); [lia|]. destruct (Z.ltb_spec 100 q); lia.
Qed.

#[local] Instance wraps_like_amd64 : FloatToInt := fun _ => - 2 ^ 63.

Lemma Percent_exact_witness : Percent (of_int 4567) 10000 = Z.min 100 ((2 * (100 * 4567) + 10000) / (2 * 10000)).
Proof. apply (Percent_exact 4567 10000); lia. Defined.

Lemma NoDup_map_inj {A B} (f : A -> B) (l : list A) x y :
  NoDup (map f l) -> In x l -> In y l -> f x = f y -> x = y.
Proof.
  intros Hnd Hx Hy E. apply list_elem_of_In, list_elem_of_lookup in Hx as [i Hi], Hy as [j Hj].
  assert (i = j) as ->; [|congruence].
  apply (NoDup_lookup (map f l) i j (f x)); [done|by rewrite list_lookup_fmap, Hi|].
  by rewrite list_lookup_fmap, Hj, E.
Qed.

(** ** Home nodes *)

Definition zsum (f : Node -> Z) (l : list Node) : Z := foldr (fun n acc => f n + acc) 0 l.

Lemma zsum_app f l1 l2 : zsum f (l1 ++ l2) = zsum f l1 + zsum f l2.
Proof. unfold zsum. induction l1 as [|n l1 IH]; simpl; lia. Qed.

Lemma zsum_le_length f l b : Forall (fun n => f n <= b) l -> zsum f l <= b * Z.of_nat (length l).
Proof. induction 1; cbn [zsum foldr length]; fold (zsum f); [lia|]. unfold zsum in *. lia. Qed.

Lemma zsum_ge_length f l b : Forall (fun n => b <= f n) l -> b * Z.of_nat (length l) <= zsum f l.
Proof. induction 1; cbn [zsum foldr length]; fold (zsum f); [lia|]. unfold zsum in *. lia. Qed.

Lemma zsum_filter_le f p l : Forall (fun n => 0 <= f n) l -> zsum f (List.filter p l) <= zsum f l.
Proof. induction 1; cbn; [lia|]. destruct (p _); cbn; unfold zsum in *; lia. Qed.

(** Counts small enough for 64-bit sums. *)
Definition small (data : PresenceData) (port : Z) (use : list Node) : Prop :=
  Forall (fun n => 0 <= port_conns data port n < 2 ^ 40) use /\ Z.of_nat (length use) < 2 ^ 20.

Lemma zsum_bounds data port use :
  Forall (fun n => 0 <= port_conns data port n < 2 ^ 40) use ->
  0 <= zsum (port_conns data port) use <= 2 ^ 40 * Z.of_nat (length use).
Proof.
  intros Hf. split.
  - pose proof (zsum_ge_length (port_conns data port) use 0) as H. rewrite Z.mul_0_l in H. apply H.
    eapply Forall_impl; [exact Hf|]. simpl. lia.
  - apply zsum_le_length. eapply Forall_impl; [exact Hf|]. simpl. lia.
Qed.

Lemma sum_conns_exact data port use :
  small data port use ->
  sum_conns data port use = zsum (port_conns data port) use /\ 0 <= zsum (port_conns data port) use < 2 ^ 60.
Proof.
  unfold small, sum_conns. intros [Hf Hl]. pose proof (zsum_bounds _ _ _ Hf) as Hb.
  split; [|lia]. clear Hb. revert Hl. induction use as [|n use IH] using rev_ind; intros Hl; [done|].
  rewrite Forall_app, Forall_singleton in Hf. destruct Hf as [Hf Hn]. specialize (IH Hf).
  rewrite foldl_app, zsum_app, length_app in *. cbn [foldl length zsum foldr] in *. rewrite Z.add_0_r.
  pose proof (zsum_bounds _ _ _ Hf) as Hb. rewrite IH by lia. apply wrap_id; [lia|]. unfold fits. simpl. lia.
Qed.

(** The home nodes of a port that carries traffic are the ones with at least a
    fifth of it; there are at most five, and at least one when at most five nodes
    share the port. A port idle everywhere has every node as its home. *)
Theorem home_nodes_share data port use :
  small data port use ->
  let home := home_nodes data port use in
  let sum := zsum (port_conns data port) use in
  sum_conns data port use = sum /\
  (sum = 0 -> home = use) /\
  (0 < sum ->
   (forall n, In n home <-> In n use /\ sum <= 5 * port_conns data port n) /\
   (length home <= 5)%nat /\
   ((length use <= 5)%nat -> home <> [])).
Proof.
  intros Hs. pose proof (sum_conns_exact _ _ _ Hs) as [Hsum Hb]. destruct Hs as [Hf Hlen].
  cbv zeta. unfold home_nodes. rewrite Hsum. cbv zeta. set (sum := zsum _ use) in *.
  split; [done|]. split; [by intros ->|]. intros Hpos. rewrite (proj2 (Z.ltb_lt 0 sum) Hpos).
  assert (forall n, In n use -> is_home data port sum n = true <-> sum <= 5 * port_conns data port n) as Hh.
  { intros n Hn. rewrite Forall_forall in Hf. apply list_elem_of_In in Hn. apply Hf in Hn.
    unfold is_home. rewrite Z.leb_le. unfold homeShareDivisor, int64. rewrite wrap_id; [|lia|split; simpl; lia].
    lia. }
  assert (forall n, In n (List.filter (is_home data port sum) use) <->
    In n use /\ sum <= 5 * port_conns data port n) as Hin.
  { intros n. rewrite filter_In. split; intros [Hn ?]; (split; [done|]); by apply Hh. }
  split; [done|]. split.
  - assert (sum * Z.of_nat (length (List.filter (is_home data port sum) use)) <= 5 * sum) as Hle; [|nia].
    transitivity (zsum (fun n => 5 * port_conns data port n) (List.filter (is_home data port sum) use)).
    + apply zsum_ge_length. apply Forall_forall. intros n Hn%list_elem_of_In. by apply Hin.
    + transitivity (zsum (fun n => 5 * port_conns data port n) use).
      * apply zsum_filter_le. eapply Forall_impl; [exact Hf|]. simpl. lia.
      * apply Z.eq_le_incl. subst sum. clear. induction use as [|n use IH]; cbn in *; unfold zsum in *; lia.
  - intros H5 Hnil.
    assert (5 * sum <= (sum - 1) * Z.of_nat (length use)) as Hle; [|nia].
    transitivity (zsum (fun n => 5 * port_conns data port n) use).
    + apply Z.eq_le_incl. subst sum. clear. induction use as [|n use IH]; cbn in *; unfold zsum in *; lia.
    + apply zsum_le_length. apply Forall_forall. intros n Hn%list_elem_of_In.
      destruct (Z.le_gt_cases sum (5 * port_conns data port n)) as [Hge|]; [exfalso|lia].
      assert (In n []) as [] by (rewrite <- Hnil; by apply Hin).
Qed.

Definition demo_node (i : Z) : Node := mkNode i "de" "10.0.0.1" "connected" 10000 [] [].

(** Six nodes full to their capacity with one port's traffic, spread evenly. *)
Definition spread_nodes : list Node := map demo_node [1; 2; 3; 4; 5; 6].

Definition spread_data (ids : list Z) : PresenceData :=
  mkData true (list_to_map (map (fun i => (i, mkPresence true {[443 := 10000]} 10000)) ids)).

Definition three_data : PresenceData := spread_data [1; 2; 3].
Definition three_nodes : list Node := map demo_node [1; 2; 3].

Lemma home_nodes_share_witness :
  let use := three_nodes in
  let sum := zsum (port_conns three_data 443) use in
  sum_conns three_data 443 use = sum /\
  (sum = 0 -> home_nodes three_data 443 use = use) /\
  (0 < sum ->
   (forall n, In n (home_nodes three_data 443 use) <->
      In n use /\ sum <= 5 * port_conns three_data 443 n) /\
   (length (home_nodes three_data 443 use) <= 5)%nat /\
   ((length use <= 5)%nat -> home_nodes three_data 443 use <> [])).
Proof.
  cbv zeta. apply (home_nodes_share three_data 443 three_nodes).
  split; [|vm_compute; reflexivity]. repeat constructor; vm_compute; congruence.
Defined.

(** A port whose traffic is spread evenly over six full nodes has no home node, so
    the config reads as known, 0% and free. *)
Lemma spread_reads_free :
  let hl := load_over (mkConfig 10000 0 None) (spread_data [1; 2; 3; 4; 5; 6]) spread_nodes
              (unknown_load (mkHost 9 "de" "" 443 "in")) in
  Known hl = true /\ Conns hl = 60000 /\ HPercent hl = 0 /\ HLevel hl = LevelFree /\ NodeIDs hl = [].
Proof. vm_compute. auto 10. Qed.

(** ** A build *)

Section BuildSpec.
Context `{FloatToInt} {S : Type} `{Resolver S}.
Variables (cfg : Config) (nodes : list Node) (nodeIPs : gmap Z (gset string)) (data : PresenceData).

Definition visible (hosts : list Host) : list Host :=
  List.filter (fun h => negb (IsInfo (H_Remark h))) hosts.

(** What a host's entry must say: known exactly when presence is live, the host has a
    port and some reporting node serves it, and then computed over a choice of those
    nodes. *)
Definition load_ok (h : Host) (hl : HostLoad) : Prop :=
  Known hl = Live data && (0 <? H_Port h) && existsb (is_candidate data h) nodes /\
  if Known hl
  then exists choice, let use := List.filter choice (List.filter (is_candidate data h) nodes) in
       use <> [] /\ hl = load_over cfg data use (unknown_load h)
  else hl = unknown_load h.

Lemma use_nodes_choice hostIPs ips candidates :
  candidates <> [] ->
  exists choice, use_nodes hostIPs ips candidates = List.filter choice candidates /\
    List.filter choice candidates <> [].
Proof.
  intros Hne. unfold use_nodes.
  destruct (_ =? 0)%nat; [exists (fun _ => true); by rewrite filter_true|].
  set (f := fun n => overlaps hostIPs (ips (N_ID n))). destruct (List.filter f candidates) as [|n l] eqn:Hf.
  - exists (fun _ => true). by rewrite filter_true.
  - exists f. by rewrite Hf.
Qed.

Lemma compute_ok h s s' hl :
  (if Live data && (0 <? H_Port h) then compute cfg h nodes nodeIPs data (unknown_load h) s
   else (s, unknown_load h)) = (s', hl) ->
  load_ok h hl /\ HostID hl = H_ID h.
Proof.
  unfold load_ok. destruct (Live data && (0 <? H_Port h)) eqn:Hon; [|by intros [= <- <-]].
  unfold compute. destruct (List.filter (is_candidate data h) nodes) as [|c cs] eqn:Hc.
  - intros [= <- <-]. simpl. split; [|done]. split; [|done]. symmetry. apply not_true_iff_false.
    rewrite existsb_exists. intros (n & Hn & Ht).
    assert (In n []) as [] by (rewrite <- Hc; apply filter_In; done).
  - destruct (addresses _ s) as [s1 hostIPs]. intros [= <- <-]. cbn [Known HostID load_over].
    split; [|done]. split.
    + symmetry. apply existsb_exists. exists c.
      assert (In c (List.filter (is_candidate data h) nodes)) as Hin by (rewrite Hc; by left).
      by apply filter_In in Hin.
    + destruct (use_nodes_choice hostIPs (fun i => default ∅ (nodeIPs !! i)) (c :: cs)) as (f & -> & Hne);
        [done|]. exists f. by split.
Qed.

Record hosts_inv (hosts : list Host) (snap : Snapshot) : Prop := {
  hi_ids : map HostID (Hosts snap) = map H_ID (visible hosts);
  hi_known : known snap = existsb Known (Hosts snap);
  hi_loads : Forall2 load_ok (visible hosts) (Hosts snap);
  hi_byID : forall id i, byID snap !! id = Some i <-> map H_ID (visible hosts) !! i = Some id;
}.

Lemma add_host_inv hosts h s snap :
  NoDup (map H_ID (hosts ++ [h])) -> hosts_inv hosts snap ->
  hosts_inv (hosts ++ [h]) (add_host cfg nodes nodeIPs data (s, snap) h).2.
Proof.
  intros Hnd [H1 H2 H3 H4]. unfold add_host.
  assert (visible (hosts ++ [h]) = visible hosts ++ (if IsInfo (H_Remark h) then [] else [h])) as Hv.
  { unfold visible. rewrite List.filter_app. simpl. by destruct (IsInfo _). }
  destruct (IsInfo (H_Remark h)).
  { cbn [snd]. rewrite app_nil_r in Hv. split; rewrite ?Hv; done. }
  destruct (if Live data && (0 <? H_Port h) then _ else _) as [s' hl] eqn:Hrun.
  destruct (compute_ok _ _ _ _ Hrun) as [Hok Hid]. cbn [snd].
  split; cbn [LoadMap.Hosts LoadMap.known LoadMap.byID].
  - by rewrite Hv, !map_app, H1; simpl; rewrite Hid.
  - rewrite existsb_app, H2. simpl. by rewrite orb_false_r.
  - rewrite Hv. by apply Forall2_app; [|constructor].
  - intros id i. rewrite Hv, map_app, lookup_insert_Some, H4, lookup_app_Some. simpl.
    pose proof (length_map HostID (Hosts snap)) as Hl. rewrite H1, length_map in Hl. rewrite length_map.
    rewrite <- Hl, list_lookup_singleton_Some. rewrite map_app, NoDup_app in Hnd.
    destruct Hnd as (_ & Hnot & _).
    assert (map H_ID (visible hosts) !! i <> Some (H_ID h)) as Hfresh.
    { intros Hi%list_elem_of_lookup_2. apply (Hnot (H_ID h)); [|by left].
      apply list_elem_of_In, in_map_iff in Hi as (h' & E & Hin). apply filter_In in Hin as [Hin _].
      rewrite <- E. by apply list_elem_of_In, in_map. }
    split.
    + intros [[<- <-]|[Hne Hi]]; [|by left]. right. split; [done|]. split; [lia|done].
    + intros [Hi|[Hge [Hz <-]]]; [right; split; [congruence|done]|left; split; [done|lia]].
Qed.

Lemma fold_hosts_inv hosts s snap :
  NoDup (map H_ID hosts) -> Hosts snap = [] -> byID snap = ∅ -> known snap = false ->
  hosts_inv hosts (foldl (add_host cfg nodes nodeIPs data) (s, snap) hosts).2.
Proof.
  intros Hnd H1 H2 H3. induction hosts as [|h hosts IH] using rev_ind.
  { simpl. split; cbn; rewrite ?H1, ?H2, ?H3; [done..|constructor|].
    intros id i. by rewrite lookup_empty, lookup_nil. }
  rewrite foldl_app. cbn [foldl]. assert (NoDup (map H_ID hosts)) as Hnd'.
  { rewrite map_app, NoDup_app in Hnd. tauto. }
  specialize (IH Hnd'). destruct (foldl _ _ hosts) as [s1 snap1]. by apply add_host_inv.
Qed.
End BuildSpec.

(** A build holds an entry for every host but the info ones, in display order, each
    found by its id and saying what [load_ok] asks, whatever the resolver answered;
    there is data exactly when some entry is known. *)
Theorem build_spec `{FloatToInt} {S : Type} `{Resolver S} cfg now hosts nodes data (s : S) :
  NoDup (map H_ID hosts) ->
  let snap := (build_from cfg now hosts nodes data s).2 in
  map HostID (Hosts snap) = map H_ID (visible hosts) /\
  HasData (Some snap) = existsb Known (Hosts snap) /\
  (forall h, In h hosts ->
     if IsInfo (H_Remark h) then For (Some snap) (H_ID h) = None
     else exists hl, For (Some snap) (H_ID h) = Some hl /\ load_ok cfg nodes data h hl).
Proof.
  intros Hnd. cbv zeta. unfold build_from. destruct (node_addresses nodes s) as [s1 nodeIPs].
  pose proof (fold_hosts_inv cfg nodes nodeIPs data hosts s1
    (mkSnapshot now (Live data) (Capacity cfg) []
       (if Live data then omap (node_load cfg data) nodes else []) ∅ false) Hnd eq_refl eq_refl eq_refl)
    as [H1 H2 H3 H4].
  set (snap := (foldl _ _ _).2) in *. split; [done|]. split; [done|]. intros h Hin. unfold For. simpl.
  destruct (IsInfo (H_Remark h)) eqn:Hi.
  - destruct (byID snap !! H_ID h) as [i|] eqn:Hb; [|done]. exfalso.
    apply H4, list_elem_of_lookup_2, list_elem_of_In, in_map_iff in Hb as (h' & E & Hh').
    apply filter_In in Hh' as [Hin' Hv]. assert (h' = h) as ->; [|by rewrite Hi in Hv].
    by eapply NoDup_map_inj.
  - assert (In h (visible hosts)) as Hv by (apply filter_In; split; [done|by rewrite Hi]).
    apply list_elem_of_In, list_elem_of_lookup in Hv as [i Hi'].
    assert (byID snap !! H_ID h = Some i) as ->.
    { apply H4. by rewrite list_lookup_fmap, Hi'. }
    simpl. destruct (Forall2_lookup_l _ _ _ _ _ H3 Hi') as (hl & Hhl & Hok). by exists hl.
Qed.

#[local] Instance silent_resolver : Resolver unit := fun _ s => (s, ∅).

Definition demo_hosts : list Host :=
  [mkHost 1 "de {LOAD}" "10.0.0.1" 443 "in"; mkHost 2 "left {DATA_LEFT}" "" 0 "in"; mkHost 3 "nl" "" 80 "x"].

Definition demo_snapshot : Snapshot := (build_from (mkConfig 10000 0 None) 5 demo_hosts three_nodes three_data tt).2.

Lemma build_spec_witness :
  map HostID (Hosts demo_snapshot) = map H_ID (visible demo_hosts).
Proof.
  refine (proj1 (build_spec (mkConfig 10000 0 None) 5 demo_hosts three_nodes three_data tt _)).
  by apply (bool_decide_eq_true_1 _); vm_compute.
Defined.

Example demo_snapshot_de : HPercent <$> For (Some demo_snapshot) 1 = Some 100.
Proof. vm_compute. reflexivity. Qed.
End LoadMap.

(** ** The cached snapshot *)

Module Cache.
Import LoadMap.

(** The cached snapshot with the number of the build it came from, and the build in
    flight; [c_stored] says it has published its snapshot but not finished yet. *)
Record Map := mkMap {
  snap : option (nat * Snapshot);
  flight : option nat;
  c_stored : bool;
  started : nat;
}.

Definition NewMap : Map := mkMap None None false 0.

(** [startRefresh]: join the build in flight or start one. *)
Definition startRefresh (m : Map) : Map * nat :=
  match flight m with
  | Some f => (m, f)
  | None => (mkMap (snap m) (Some (started m)) false (S (started m)), started m)
  end.

Inductive reply := Serve (s : Snapshot) | Wait (f : nat).

(** [Snapshot] up to the wait. *)
Definition request (ttl now : Z) (m : Map) : Map * reply :=
  match snap m with
  | Some (_, s) =>
      let age := now - At s in
      if age <? ttl then (m, Serve s)
      else if age <? maxStale then ((startRefresh m).1, Serve s)
      else let '(m, f) := startRefresh m in (m, Wait f)
  | None => let '(m, f) := startRefresh m in (m, Wait f)
  end.

(** After the wait (or when the caller's context ended it). *)
Definition after_wait (cfg_capacity now : Z) (m : Map) : Snapshot :=
  match snap m with Some (_, s) => s | None => emptySnapshot cfg_capacity now end.

(** The build in flight publishes its snapshot; then it ends. *)
Definition store (s : Snapshot) (m : Map) : Map :=
  match flight m with
  | Some f => mkMap (Some (f, s)) (Some f) true (started m)
  | None => m
  end.

Definition finish (m : Map) : Map := mkMap (snap m) None false (started m).

Definition is_done (f : nat) (m : Map) : Prop := (f < started m)%nat /\ flight m <> Some f.

(** Requests, and the steps of the builds they start. *)
Inductive reachable (ttl : Z) : Map -> Prop :=
  | reach_new : reachable ttl NewMap
  | reach_request m now : reachable ttl m -> reachable ttl (request ttl now m).1
  | reach_store m s :
      reachable ttl m -> flight m <> None -> c_stored m = false -> reachable ttl (store s m)
  | reach_finish m : reachable ttl m -> c_stored m = true -> reachable ttl (finish m).

(** One build in flight at most, the newest started; every finished one has
    published, and the cache holds the newest published. *)
Record cache_inv (m : Map) : Prop := {
  ci_flight : forall f, flight m = Some f -> started m = S f;
  ci_snap : forall f s, snap m = Some (f, s) -> (f < started m)%nat /\ (flight m = Some f -> c_stored m = true);
  ci_newest : forall f, is_done f m -> exists g s, snap m = Some (g, s) /\ (f <= g)%nat;
  ci_stored : c_stored m = true -> exists f s, flight m = Some f /\ snap m = Some (f, s);
}.

Lemma startRefresh_inv m : cache_inv m -> cache_inv (startRefresh m).1.
Proof.
  intros Hm. unfold startRefresh. destruct (flight m) as [f|] eqn:Hf; [done|].
  destruct Hm as [H1 H2 H3 H4].
  unfold is_done in *. split; cbn.
  - congruence.
  - intros f s Hs. destruct (H2 _ _ Hs) as [Hlt _]. split; [lia|]. intros [= E]. lia.
  - intros f [Hlt Hne]. cbn in Hlt, Hne. apply H3. split; [|congruence].
    destruct (decide (f = started m)) as [->|]; [done|lia].
  - done.
Qed.

Lemma cache_reachable_inv ttl m : reachable ttl m -> cache_inv m.
Proof.
  induction 1 as [|m now Hm IH|m s Hm IH Hfl Hst|m Hm IH Hst].
  - split; cbn; try done. intros f [Hlt _]. simpl in Hlt. lia.
  - unfold request. pose proof (startRefresh_inv m IH) as Hs.
    destruct (snap m) as [[g s]|].
    + cbv zeta. destruct (_ <? ttl); [done|]. destruct (_ <? maxStale); [done|].
      by destruct (startRefresh m).
    + by destruct (startRefresh m).
  - destruct IH as [H1 H2 H3 H4]. unfold store. destruct (flight m) as [f|] eqn:Hf; [|done].
    pose proof (H1 _ eq_refl) as Hs. unfold is_done in *. split; cbn.
    + by intros g [= <-].
    + intros g s' [= <- <-]. split; [lia|done].
    + intros g [Hlt Hne]. cbn in Hlt. exists f, s. split; [done|]. lia.
    + intros _. by exists f, s.
  - destruct IH as [H1 H2 H3 H4]. destruct (H4 Hst) as (f & s & Hf & Hs). unfold is_done in *.
    split; cbn; try done.
    + intros g s' Hg. split; [by apply (H2 g s')|done].
    + intros g [Hlt _]. pose proof (H1 _ Hf). cbn in Hlt. exists f, s. split; [done|]. lia.
Qed.

(** What a request gets: a snapshot younger than [maxStale], at once and without
    starting more than the one build there is; otherwise it joins that build, and
    whenever that build has finished the answer is a built snapshot, its own or a
    newer one. *)
Theorem request_answer ttl now m :
  reachable ttl m -> ttl <= maxStale ->
  let '(m', r) := request ttl now m in
  match r with
  | Serve s => now - At s < maxStale /\ (now - At s < ttl -> m' = m) /\ (started m' <= S (started m))%nat
  | Wait f =>
      flight m' = Some f /\
      forall m2 capacity t, reachable ttl m2 -> is_done f m2 ->
        exists g, (f <= g)%nat /\ snap m2 = Some (g, after_wait capacity t m2)
  end.
Proof.
  intros Hm Httl.
  assert (forall m2 capacity t f, reachable ttl m2 -> is_done f m2 ->
    exists g, (f <= g)%nat /\ snap m2 = Some (g, after_wait capacity t m2)) as Hdone.
  { intros m2 cap t f H2 Hd. destruct (ci_newest _ (cache_reachable_inv _ _ H2) f Hd) as (g & s & Hs & Hle).
    exists g. split; [done|]. unfold after_wait. by rewrite Hs. }
  assert (flight (startRefresh m).1 = Some (startRefresh m).2) as Hfl.
  { unfold startRefresh. by destruct (flight m) eqn:Hf; simpl. }
  unfold request. destruct (snap m) as [[g s]|].
  - cbv zeta. destruct (Z.ltb_spec (now - At s) ttl); [split_and!; [lia|done|lia]|].
    destruct (Z.ltb_spec (now - At s) maxStale).
    + split_and!; [done|lia|]. unfold startRefresh. destruct (flight m); simpl; lia.
    + destruct (startRefresh m) as [m' f]. cbn [fst snd] in Hfl. split; [done|]. intros. by apply Hdone.
  - destruct (startRefresh m) as [m' f]. cbn [fst snd] in Hfl. split; [done|]. intros. by apply Hdone.
Qed.

Lemma request_answer_witness :
  let '(m', r) := request DefaultTTL 100 NewMap in
  match r with
  | Serve s => 100 - At s < maxStale /\ (100 - At s < DefaultTTL -> m' = NewMap) /\ (started m' <= 1)%nat
  | Wait f =>
      flight m' = Some f /\
      forall m2 capacity t, reachable DefaultTTL m2 -> is_done f m2 ->
        exists g, (f <= g)%nat /\ snap m2 = Some (g, after_wait capacity t m2)
  end.
Proof. apply (request_answer DefaultTTL 100 NewMap); [apply reach_new|vm_compute; congruence]. Defined.
End Cache.
