(* ===== verification/Auth.v ===== *)
(** * Admin authentication and accounts

    [VerifyCache] is [internal/auth/verifycache.go]; [Accounts] the admin rows, their
    Redis cache ([internal/cache], [internal/httpapi/store.go]), the token middleware
    ([internal/auth/jwt.go] and [middleware.go]) and the endpoints of
    [internal/httpapi/admin.go]; [Login] the login endpoint with its failure limit. *)

From stdpp Require Import sorting.
From S2P Require Import Prelude GoStrings.
From S2P Require Store.

#[local] Open Scope Z_scope.

Module VerifyCache.

Definition second : Z := 1000000000.
Definition verifyHitTTL : Z := 5 * 60 * second.
Definition verifyMissTTL : Z := 60 * second.
Definition verifyMaxEntries : nat := Nat.mul 64 64.

Record verifyEntry := mkEntry { ok : bool; expires : Z }.

Section VerifyCache.

(** The key of a triple: an HMAC over its length-prefixed parts, taken to have no
    collisions; and the password comparison. *)
Context (verify : string -> string -> bool).

Abbreviation key := (string * string * string)%type.
Abbreviation cache := (gmap (string * string * string) verifyEntry).

(** [evictLocked]; [victim] is the entry the map's iteration gives first. *)
Definition evictLocked (now : Z) (victim : cache -> option key) (c : cache) : cache :=
  let c := filter (fun '(_, e) => now < expires e) c in
  if (size c <? verifyMaxEntries)%nat then c
  else match victim c with Some k => delete k c | None => c end.

(** The two critical sections of [Verify]: the lookup, and the store of a verdict. *)
Definition find (now : Z) (k : key) (c : cache) : option bool :=
  match c !! k with
  | Some e => if now <? expires e then Some (ok e) else None
  | None => None
  end.

Definition remember (now : Z) (victim : cache -> option key) (k : key) (verdict : bool) (c : cache) : cache :=
  let ttl := if verdict then verifyHitTTL else verifyMissTTL in
  let c := if (verifyMaxEntries <=? size c)%nat then evictLocked now victim c else c in
  <[k := mkEntry verdict (now + ttl)]> c.

(** [Verify] when nothing runs in between: the verdict, and whether bcrypt ran. *)
Definition Verify (now : Z) (victim : cache -> option key) (k : key) (c : cache) : cache * bool * bool :=
  match find now k c with
  | Some b => (c, b, false)
  | None =>
      let '(_, plain, hashed) := k in
      let b := verify plain hashed in
      (remember now victim k b c, b, true)
  end.

(** Verdicts are stored at any time and in any order: between the two critical
    sections of a call, others may do both of theirs. *)
Inductive reachable : cache -> Prop :=
  | reach_new : reachable ∅
  | reach_remember c now victim u plain hashed :
      reachable c ->
      (forall c', c' <> ∅ -> exists k, victim c' = Some k /\ is_Some (c' !! k)) ->
      reachable (remember now victim (u, plain, hashed) (verify plain hashed) c).

Record inv (c : cache) : Prop := {
  inv_true : forall u p h e, c !! (u, p, h) = Some e -> ok e = verify p h;
  inv_size : (size c <= verifyMaxEntries)%nat;
}.

Lemma evict_sub now victim c k e : evictLocked now victim c !! k = Some e -> c !! k = Some e.
Proof.
  unfold evictLocked. cbv zeta. set (c' := filter _ c).
  assert (c' !! k = Some e -> c !! k = Some e) as Hf by (subst c'; rewrite map_lookup_filter_Some; tauto).
  destruct (_ <? _)%nat; [done|]. destruct (victim c') as [k'|]; [|done].
  rewrite lookup_delete_Some. tauto.
Qed.

Lemma evict_size now victim c :
  (forall c', c' <> ∅ -> exists k, victim c' = Some k /\ is_Some (c' !! k)) ->
  (size c <= verifyMaxEntries)%nat -> (size (evictLocked now victim c) < verifyMaxEntries)%nat.
Proof.
  intros Hv Hc. unfold evictLocked. cbv zeta. set (c' := filter _ c).
  assert (size c' <= size c)%nat as Hle by (apply map_size_filter).
  destruct (Nat.ltb_spec (size c') verifyMaxEntries) as [|Hge]; [done|].
  destruct (Hv c') as (k & -> & Hk).
  { intros E. rewrite E, map_size_empty in Hge. unfold verifyMaxEntries in Hge. simpl in Hge. lia. }
  rewrite map_size_delete_Some by done.
  assert (0 < verifyMaxEntries)%nat by (apply Nat.ltb_lt; vm_compute; reflexivity). lia.
Qed.

Lemma reachable_verdicts c : reachable c -> inv c.
Proof.
  induction 1 as [|c now victim u plain hashed _ [IHt IHs] Hv].
  { split; [intros u p h e He; by rewrite lookup_empty in He|rewrite map_size_empty; lia]. }
  unfold remember. cbv zeta. set (c' := if (verifyMaxEntries <=? size c)%nat then evictLocked now victim c else c).
  assert (forall k e, c' !! k = Some e -> c !! k = Some e) as Hsub.
  { intros k e. subst c'. destruct (_ <=? _)%nat; [apply evict_sub|done]. }
  assert (size c' < verifyMaxEntries)%nat as Hs.
  { subst c'. destruct (Nat.leb_spec verifyMaxEntries (size c)); [by apply evict_size|done]. }
  split.
  - intros u' p h e [[[= <- <- <-] <-]|[_ He%Hsub]]%lookup_insert_Some; [done|by eapply IHt].
  - destruct (c' !! (u, plain, hashed)) as [e|] eqn:He.
    + rewrite map_size_insert_Some by (by eexists). lia.
    + rewrite map_size_insert_None by done. lia.
Qed.

(** However logins interleave, the cache answers what bcrypt would, holds at most
    [verifyMaxEntries] verdicts, and a verdict given now is given again without bcrypt
    until it expires, five minutes on for a right password and one for a wrong one. *)
Theorem Verify_exact now later victim u plain hashed c :
  reachable c ->
  let '(c', b, _) := Verify now victim (u, plain, hashed) c in
  b = verify plain hashed /\ (size c <= verifyMaxEntries)%nat /\
  (find now (u, plain, hashed) c = None ->
   later < now + (if b then verifyHitTTL else verifyMissTTL) ->
   Verify later victim (u, plain, hashed) c' = (c', b, false)).
Proof.
  intros Hr. pose proof (reachable_verdicts c Hr) as [Ht Hs]. unfold Verify.
  destruct (find now (u, plain, hashed) c) as [b|] eqn:Hf.
  - split_and!; [|done|done]. unfold find in Hf.
    destruct (c !! _) as [e|] eqn:He; [|done]. destruct (_ <? _); [|done]. injection Hf as <-. by eapply Ht.
  - split_and!; [done|done|]. intros _ Hl. unfold find, remember. rewrite lookup_insert_eq. cbn [expires ok].
    by rewrite (proj2 (Z.ltb_lt later _)) by done.
Qed.
End VerifyCache.

Definition demo_verify (plain hashed : string) : bool := String.eqb (plain ++ "#") hashed.

Lemma Verify_exact_witness :
  let '(c', b, _) := Verify demo_verify 10 (fun _ => None) ("ali", "pw", "pw#")%string ∅ in
  b = demo_verify "pw" "pw#" /\ (size (∅ : gmap (string * string * string) verifyEntry) <= verifyMaxEntries)%nat /\
  (find 10 ("ali", "pw", "pw#")%string ∅ = None ->
   60 * second < 10 + (if b then verifyHitTTL else verifyMissTTL) ->
   Verify demo_verify (60 * second) (fun _ => None) ("ali", "pw", "pw#")%string c' = (c', b, false)).
Proof. apply (Verify_exact demo_verify 10 (60 * second) (fun _ => None) "ali" "pw" "pw#"). constructor. Defined.
End VerifyCache.

Module Accounts.

Record Admin := mkAdmin {
  ID : Z; Username : string; HashedPassword : string; CreatedAt : Z; IsSudo : bool; IsOwner : bool;
  PasswordResetAt : option Z; TelegramID : option Z; DiscordWebhook : option string; UsersUsage : Z;
}.

(** What the cleanup reads of a user. *)
Record Owned := mkOwned { o_AdminID : Z; EditAt : option Z; o_CreatedAt : Z }.

(** The admins table, the users that have an admin, the archived usage counters,
    the cached rows in Redis ([None] for an entry that does not decode) with the time
    they expire, the failure counters of the login endpoint, and the calls that will
    fail. *)
Record St := mkSt {
  rows : gmap Z Admin;
  users : list Owned;
  usage_logs : list (Z * Z);
  next_id : Z;
  cached : gmap string (option Admin * Z);
  attempts : gmap string (Z * option Z);
  faults : list bool;
}.

Definition set_rows r s := mkSt r (users s) (usage_logs s) (next_id s) (cached s) (attempts s) (faults s).
Definition set_next n s := mkSt (rows s) (users s) (usage_logs s) n (cached s) (attempts s) (faults s).
Definition set_cached c s := mkSt (rows s) (users s) (usage_logs s) (next_id s) c (attempts s) (faults s).
Definition set_attempts a s := mkSt (rows s) (users s) (usage_logs s) (next_id s) (cached s) a (faults s).
Definition set_faults f s := mkSt (rows s) (users s) (usage_logs s) (next_id s) (cached s) (attempts s) f.

Definition set_logs l s := mkSt (rows s) (users s) l (next_id s) (cached s) (attempts s) (faults s).

Definition set_users u s := mkSt (rows s) u (usage_logs s) (next_id s) (cached s) (attempts s) (faults s).

Inductive callerr := Unavailable | NoRows | UniqueViolation | ForeignKey | OutOfRange.

Definition M (E A : Type) : Type := St -> St * result E A.

#[export] Instance M_ret {E} : MRet (M E) := fun A a s => (s, Ok a).
#[export] Instance M_bind {E} : MBind (M E) :=
  fun A B f m s => match m s with (s, Ok a) => f a s | (s, Err e) => (s, Err e) end.

Definition fail {E A} (e : E) : M E A := fun s => (s, Err e).

Definition or_else {E E' A} (m : M E A) (f : E -> E') : M E' A := fun s =>
  match m s with (s, Ok a) => (s, Ok a) | (s, Err e) => (s, Err (f e)) end.

(** A call whose failure is only logged. *)
Definition best_effort {E E'} (m : M E unit) : M E' unit := fun s => ((m s).1, Ok tt).

(** A call to Postgres or Redis: it fails with nothing done, or answers. *)
Definition call {A} (f : St -> result callerr (St * A)) : M callerr A := fun s =>
  match faults s with
  | true :: fs => (set_faults fs s, Err Unavailable)
  | fs =>
      let s := set_faults (tail fs) s in
      match f s with Ok (s, a) => (s, Ok a) | Err e => (s, Err e) end
  end.

(** ** Statements *)

Definition find_admin (username : string) (s : St) : option Admin :=
  List.find (fun a => String.eqb (Username a) username) (map snd (map_to_list (rows s))).

Definition GetAdminByUsername (username : string) : M callerr Admin :=
  call (fun s => match find_admin username s with Some a => Ok (s, a) | None => Err NoRows end).

Definition GetAdminByID (id : Z) : M callerr Admin :=
  call (fun s => match rows s !! id with Some a => Ok (s, a) | None => Err NoRows end).

(** The widths of the columns. *)
Definition row_fits (a : Admin) : bool :=
  (char_count (Username a) <=? 34)%nat && (char_count (HashedPassword a) <=? 128)%nat &&
  match DiscordWebhook a with Some h => (char_count h <=? 1024)%nat | None => true end &&
  bool_decide (fits 64 (UsersUsage a)).

Definition CreateAdmin (now : Z) (username hashed : string) (sudo : bool) (tg : option Z) (hook : option string) :
  M callerr Admin :=
  call (fun s =>
    let a := mkAdmin (next_id s) username hashed now sudo false None tg hook 0 in
    if negb (row_fits a) then Err OutOfRange
    else match find_admin username s with
    | Some _ => Err UniqueViolation
    | None => Ok (set_next (next_id s + 1) (set_rows (<[next_id s := a]> (rows s)) s), a)
    end).

(** [UPDATE admins SET ... WHERE id = $1 RETURNING *]: [f] says what is set, [log] what
    the statement archives of the row it found. *)
Definition update_row (id : Z) (f : Admin -> Admin) (log : Admin -> list (Z * Z)) : M callerr Admin :=
  call (fun s =>
    match rows s !! id with
    | None => Err NoRows
    | Some a =>
        if row_fits (f a)
        then Ok (set_logs (usage_logs s ++ log a) (set_rows (<[id := f a]> (rows s)) s), f a)
        else Err OutOfRange
    end).

Record UpdateAdminParams := mkParams {
  u_IsSudo : bool; u_HashedPassword : string; u_PasswordResetAt : option Z;
  u_TelegramID : option Z; u_DiscordWebhook : option string; u_IsOwner : bool;
}.

Definition UpdateAdmin (id : Z) (p : UpdateAdminParams) : M callerr Admin :=
  update_row id (fun a => mkAdmin (ID a) (Username a) (u_HashedPassword p) (CreatedAt a) (u_IsSudo p) (u_IsOwner p)
    (u_PasswordResetAt p) (u_TelegramID p) (u_DiscordWebhook p) (UsersUsage a)) (fun _ => []).

Definition with_usage (n : Z) (a : Admin) : Admin :=
  mkAdmin (ID a) (Username a) (HashedPassword a) (CreatedAt a) (IsSudo a) (IsOwner a) (PasswordResetAt a)
    (TelegramID a) (DiscordWebhook a) n.

Definition ResetAdminUsage (id : Z) : M callerr Admin := update_row id (with_usage 0)
    (fun a => if UsersUsage a =? 0 then [] else [(id, UsersUsage a)]).

(** What a node report does to an admin's row ([BulkIncrementAdminUsage]). *)
Definition add_usage (id n : Z) : M callerr unit :=
  _ ← update_row id (fun a => with_usage (UsersUsage a + n) a) (fun _ => []); mret tt.

(** Two foreign keys restrict it: an admin that owns users, and one with an archived
    counter, stays. *)
Definition DeleteAdmin (id : Z) : M callerr unit :=
  call (fun s => if existsb (fun u => o_AdminID u =? id) (users s) || existsb (fun l => fst l =? id) (usage_logs s) then Err ForeignKey
                 else Ok (set_rows (delete id (rows s)) s, tt)).

Definition DeleteUsersByAdminID (id : Z) : M callerr nat :=
  call (fun s => Ok (set_users (List.filter (fun u => negb (o_AdminID u =? id)) (users s)) s,
                     length (List.filter (fun u => o_AdminID u =? id) (users s)))).

Definition last_activity (s : St) (a : Admin) : Z :=
  match map (fun u => default (o_CreatedAt u) (EditAt u)) (List.filter (fun u => o_AdminID u =? ID a) (users s)) with
  | [] => CreatedAt a
  | t :: ts => foldr Z.max t ts
  end.

Definition by_activity (x y : Admin * Z) : Prop := snd x <= snd y.

#[export] Instance by_activity_dec : RelDecision by_activity.
Proof. intros x y. unfold by_activity. apply _. Defined.

(** The admins that are not sudo and were last active before the cutoff, with that time. *)
Definition GetInactiveAdmins (cutoff : Z) : M callerr (list (Admin * Z)) :=
  call (fun s => Ok (s, merge_sort by_activity
    (List.filter (fun '(a, t) => negb (IsSudo a) && (t <? cutoff))
       (map (fun a => (a, last_activity s a)) (map snd (map_to_list (rows s))))))).

(** ** The cache *)

Definition AdminByUsernameKey (username : string) : string := "rapido:admin:by_username:" ++ username.
Definition AdminByIDKey (id : Z) : string := "rapido:admin:by_id:" ++ Itoa id.

Definition adminCacheTTL : Z := 15 * 60 * 1000000.

Definition Get (now : Z) (key : string) : M callerr (option (option Admin)) :=
  call (fun s => Ok (s, match cached s !! key with
                        | Some (v, exp) => if now <? exp then Some v else None
                        | None => None
                        end)).

Definition Set_ (now : Z) (key : string) (a : Admin) : M callerr unit :=
  call (fun s => Ok (set_cached (<[key := (Some a, now + adminCacheTTL)]> (cached s)) s, tt)).

Definition Del (keys : list string) : M callerr unit :=
  call (fun s => Ok (set_cached (foldr delete (cached s) keys) s, tt)).

(** [GetOrSet]: only a hit that decodes skips the fetch; Redis never fails the call. *)
Definition GetOrSet (now : Z) (key : string) (fetch : M callerr Admin) : M callerr Admin := fun s =>
  match Get now key s with
  | (s, Ok (Some (Some a))) => (s, Ok a)
  | (s, _) => (a ← fetch; _ ← best_effort (Set_ now key a); mret a) s
  end.

Definition CachedGetAdminByUsername (now : Z) (username : string) : M callerr Admin :=
  GetOrSet now (AdminByUsernameKey username) (GetAdminByUsername username).

Definition CachedGetAdminByID (now id : Z) : M callerr Admin :=
  GetOrSet now (AdminByIDKey id) (GetAdminByID id).

Definition InvalidateAdmin (id : Z) (username : string) : M callerr unit :=
  Del [AdminByIDKey id; AdminByUsernameKey username].

(** ** Tokens and the middleware *)

(** The claims of a token whose HMAC signature and expiry the JWT library accepts;
    [IssuedAt] in microseconds, like the columns. *)
Record Claims := mkClaims { c_Username : string; Access : string; IssuedAt : option Z }.

(** The JWT library: signing, and parsing at a time. *)
Class Jwt := { jwt_sign : Claims -> option Z -> string; jwt_parse : Z -> string -> option Claims }.

Record Identity := mkIdentity { AdminID : Z; i_Username : string; i_IsSudo : bool; i_IsOwner : bool }.

Inductive reason := NoBearer | BadToken | UnknownAdmin | PasswordReset.

Section Middleware.
Context `{Jwt} (sudoUsername : string).

(** [Issue]: the library keeps whole seconds; a [ttl] of 0 or less never expires. *)
Definition Issue (now ttl : Z) (username : string) (isSudo : bool) : string :=
  let seconds t := t - t mod 1000000 in
  jwt_sign (mkClaims username (if isSudo then "sudo" else "admin")%string (Some (seconds now)))
    (if 0 <? ttl then Some (seconds (now + ttl)) else None).

Definition Verify (now : Z) (token : string) : option Claims :=
  claims ← jwt_parse now token;
  if String.eqb (c_Username claims) "" ||
     (negb (String.eqb (Access claims) "admin") && negb (String.eqb (Access claims) "sudo"))
  then None else Some claims.

(** [ResolveAdmin] and the rest of [resolve]. *)
Definition resolve (now : Z) (header : string) : M reason Identity :=
  match strip_prefix "Bearer " header with
  | None => fail NoBearer
  | Some token =>
      match Verify now token with
      | None => fail BadToken
      | Some claims =>
          if String.eqb (Access claims) "sudo" && negb (String.eqb sudoUsername "") &&
             String.eqb (c_Username claims) sudoUsername
          then mret (mkIdentity 0 (c_Username claims) true true)
          else
            admin ← or_else (CachedGetAdminByUsername now (c_Username claims)) (fun _ => UnknownAdmin);
            let id := mkIdentity (ID admin) (c_Username claims) (IsSudo admin) (IsOwner admin) in
            match PasswordResetAt admin, IssuedAt claims with
            | Some t, Some iat => if iat <? t then fail PasswordReset else mret id
            | Some _, None => fail PasswordReset
            | None, _ => mret id
            end
      end
  end.

(** [RequireSudo]: the status a request is turned away with, or its identity. *)
Definition RequireSudo (now : Z) (header : string) : M Z Identity :=
  id ← or_else (resolve now header) (fun _ => 401);
  if i_IsSudo id then mret id else fail 403.
End Middleware.

(** ** The endpoints *)

Definition httperr : Type := Z * string.

Definition validateDiscordWebhook (v : option string) : bool :=
  match v with
  | Some s => String.eqb s "" || HasPrefix s "https://discord.com"
  | None => true
  end.

Definition invalidate (a : Admin) : M httperr unit :=
  or_else (InvalidateAdmin (ID a) (Username a)) (fun _ => (500, "Could not invalidate admin cache"%string)).

Definition load (username : string) : M httperr Admin :=
  or_else (GetAdminByUsername username) (fun _ => (404, "Admin not found"%string)).

Record adminModifyRequest := mkModify {
  r_Password : option string; r_IsSudo : option bool; r_IsOwner : option bool;
  r_TelegramID : option Z; r_DiscordWebhook : option string;
}.

Definition changed (req : option bool) (old : bool) : bool :=
  match req with Some b => negb (Bool.eqb b old) | None => false end.

Section Endpoints.

(** [HashPassword]: bcrypt with a fresh salt. *)
Context (HashPassword : string -> option string).

Definition new_password (now : Z) (req : adminModifyRequest) (admin : Admin) :
  option (string * option Z) :=
  match r_Password req with
  | None | Some ""%string => Some (HashedPassword admin, PasswordResetAt admin)
  | Some p =>
      match HashPassword p with
      | None => None
      | Some hashed =>
          Some (if String.eqb hashed (HashedPassword admin) then (HashedPassword admin, PasswordResetAt admin)
                else (hashed, Some now))
      end
  end.

Definition handleUpdateAdmin (now : Z) (current : Identity) (username : string) (req : adminModifyRequest) :
  M httperr Admin :=
  admin ← load username;
  if negb (String.eqb (Username admin) (i_Username current)) && IsSudo admin && negb (i_IsOwner current)
  then fail (403, "You're not allowed to edit another sudoer's account. Use rapido-cli instead."%string)
  else if negb (validateDiscordWebhook (r_DiscordWebhook req))
  then fail (422, "Discord webhook must start with 'https://discord.com'"%string)
  else if changed (r_IsSudo req) (IsSudo admin) && IsSudo admin && negb (i_IsOwner current)
  then fail (403, "Only an owner can revoke sudo access"%string)
  else if changed (r_IsOwner req) (IsOwner admin) && negb (i_IsOwner current)
  then fail (403, "Only an owner can grant or revoke owner access"%string)
  else if changed (r_IsOwner req) (IsOwner admin) && String.eqb (Username admin) (i_Username current)
          && negb (default false (r_IsOwner req))
  then fail (403, "An owner cannot remove their own owner access - have another owner do it"%string)
  else match new_password now req admin with
  | None => fail (500, "Could not hash password"%string)
  | Some (hashed, resetAt) =>
      updated ← or_else (UpdateAdmin (ID admin)
          (mkParams (default (IsSudo admin) (r_IsSudo req)) hashed resetAt
             (match r_TelegramID req with Some 0 | None => TelegramID admin | Some t => Some t end)
             (match r_DiscordWebhook req with Some ""%string | None => DiscordWebhook admin | Some h => Some h end)
             (default (IsOwner admin) (r_IsOwner req))))
        (fun _ => (500, "Could not update admin"%string));
      _ ← invalidate updated;
      mret updated
  end.

Definition handleCreateAdmin (now : Z) (username password : string) (sudo : bool) (tg : option Z) (hook : option string) :
  M httperr Admin :=
  if String.eqb username "" || String.eqb password "" then fail (422, "required"%string)
  else if negb (validateDiscordWebhook hook)
  then fail (422, "Discord webhook must start with 'https://discord.com'"%string)
  else match HashPassword password with
  | None => fail (500, "Could not hash password"%string)
  | Some hashed =>
      or_else (CreateAdmin now username hashed sudo tg hook)
        (fun e => match e with
                  | UniqueViolation => (409, "Admin already exists"%string)
                  | _ => (500, "Could not create admin"%string)
                  end)
  end.

Definition handleDeleteAdmin (username : string) : M httperr unit :=
  admin ← load username;
  if IsSudo admin then
    fail (403, "You're not allowed to delete sudo accounts. Use rapido-cli instead."%string)
  else
    _ ← or_else (DeleteAdmin (ID admin)) (fun _ => (500, "Could not delete admin"%string));
    invalidate admin.

(** The [days] parameter of the query, and the cleanup: the names removed and how many
    users went with them. *)
Definition inactive_days (q : string) : Z :=
  match ParseInt q with Some n => if 1 <=? n then n else 90 | None => 90 end.

Fixpoint delete_inactive (inactive : list (Admin * Z)) : M httperr (list string * nat) :=
  match inactive with
  | [] => mret ([], 0%nat)
  | (r, _) :: rest =>
      gone ← or_else (DeleteUsersByAdminID (ID r)) (fun _ => (500, "Could not remove users for inactive admin"%string));
      _ ← or_else (DeleteAdmin (ID r)) (fun _ => (500, "Could not remove inactive admin"%string));
      _ ← invalidate r;
      '(names, usersRemoved) ← delete_inactive rest;
      mret (Username r :: names, Nat.add gone usersRemoved)
  end.

Definition handleDeleteInactiveAdmins (now : Z) (q : string) : M httperr (list string * nat) :=
  let cutoff := now - inactive_days q * (24 * 60 * 60 * 1000000) in
  rows ← or_else (GetInactiveAdmins cutoff) (fun _ => (500, "Could not fetch inactive admins"%string));
  delete_inactive rows.

Definition handleResetAdminUsage (username : string) : M httperr Admin :=
  admin ← load username;
  updated ← or_else (ResetAdminUsage (ID admin)) (fun _ => (500, "Could not reset admin usage"%string));
  _ ← invalidate updated;
  mret updated.
End Endpoints.

(** ** Runs of requests *)

Inductive op :=
  | OResolve (header : string)
  | OById (id : Z)
  | OUpdate (current : Identity) (username : string) (req : adminModifyRequest)
  | OCreate (username password : string) (sudo : bool) (tg : option Z) (hook : option string)
  | ODelete (username : string)
  | ODeleteInactive (days : string)
  | OUsers (us : list Owned)
  | OResetUsage (username : string)
  | OReport (id n : Z).

Section Runs.
Context `{Jwt} (sudoUsername : string) (HashPassword : string -> option string).

(** The state after an operation, and whether it answered that it could not
    invalidate the cache. *)
Definition stale_answer {A} (r : result httperr A) : bool :=
  match r with Err (500, "Could not invalidate admin cache"%string) => true | _ => false end.

Definition observe {A} (m : M httperr A) (s : St) : St * bool := let '(s, r) := m s in (s, stale_answer r).

Definition perform (now : Z) (o : op) (s : St) : St * bool :=
  match o with
  | OResolve header => ((resolve sudoUsername now header s).1, false)
  | OById id => ((CachedGetAdminByID now id s).1, false)
  | OUpdate current username req => observe (handleUpdateAdmin HashPassword now current username req) s
  | OCreate username password sudo tg hook => observe (handleCreateAdmin HashPassword now username password sudo tg hook) s
  | ODelete username => observe (handleDeleteAdmin username) s
  | ODeleteInactive days => observe (handleDeleteInactiveAdmins now days) s
  | OUsers us => (set_users us s, false)
  | OResetUsage username => observe (handleResetAdminUsage username) s
  | OReport id n => ((add_usage id n s).1, false)
  end.

Fixpoint run (os : list (Z * op)) (s : St) : St * bool :=
  match os with
  | [] => (s, false)
  | (now, o) :: os => let '(s, b) := perform now o s in let '(s, b') := run os s in (s, b || b')
  end.

(** ** What the rows and the cache agree on *)

(** Equal but for the usage counter, which node reports move without touching the
    cache. *)
Definition same_rights (a b : Admin) : Prop := with_usage 0 a = with_usage 0 b.

Record wf (s : St) : Prop := {
  wf_id : forall i a, rows s !! i = Some a -> ID a = i;
  wf_names : forall i j a b, rows s !! i = Some a -> rows s !! j = Some b -> Username a = Username b -> i = j;
  wf_next : forall i, next_id s <= i -> rows s !! i = None;
}.

(** A decodable entry sits under one of its admin's two keys and shows its current row. *)
Definition coherent (s : St) : Prop :=
  forall key a exp, cached s !! key = Some (Some a, exp) ->
    (key = AdminByUsernameKey (Username a) \/ key = AdminByIDKey (ID a)) /\
    exists r, rows s !! ID a = Some r /\ same_rights a r.

Definition good (s : St) : Prop := wf s /\ coherent s.

(** Nothing but the faults differs. *)
Definition same_but_faults (s s' : St) : Prop :=
  rows s' = rows s /\ next_id s' = next_id s /\ cached s' = cached s /\ users s' = users s /\
  usage_logs s' = usage_logs s.

Lemma good_same s s' : same_but_faults s s' -> good s -> good s'.
Proof.
  intros (E1 & E2 & E3 & _) [[H1 H2 H3] Hc]. split.
  - split; rewrite ?E1, ?E2; done.
  - unfold coherent. by rewrite E1, E3.
Qed.

Lemma good_set_users us s : good s -> good (set_users us s).
Proof. intros [[H1 H2 H3] Hc]. split; [by split|exact Hc]. Qed.

(** What a call that only reads, and any call, leaves behind. *)
Lemma call_spec {A} (f : St -> result callerr (St * A)) s s' r :
  call f s = (s', r) ->
  match r with
  | Ok a => exists s0, same_but_faults s s0 /\ f s0 = Ok (s', a)
  | Err _ => same_but_faults s s'
  end.
Proof.
  unfold call. intros Hc.
  assert (forall fs, same_but_faults s (set_faults fs s)) as Hs by done.
  destruct (faults s) as [|[] fs]; [| by injection Hc as <- <- |].
  all: destruct (f _) as [[s1 a]|e] eqn:Hf; injection Hc as <- <-; [eexists; split; [apply Hs|exact Hf]|apply Hs].
Qed.

Lemma find_admin_spec username s a :
  wf s -> find_admin username s = Some a -> rows s !! ID a = Some a /\ Username a = username.
Proof.
  intros Hw Hf. unfold find_admin in Hf. apply find_some in Hf as [Hin Hn%String.eqb_eq].
  split; [|done]. apply in_map_iff in Hin as ([i b] & <- & Hin%list_elem_of_In%elem_of_map_to_list).
  simpl. by rewrite (wf_id s Hw i b Hin).
Qed.

Lemma find_admin_none username s i a : find_admin username s = None -> rows s !! i = Some a -> Username a <> username.
Proof.
  intros Hf Hi E. unfold find_admin in Hf.
  assert (In a (map snd (map_to_list (rows s)))) as Hin.
  { apply in_map_iff. exists (i, a). split; [done|]. by apply list_elem_of_In, elem_of_map_to_list. }
  pose proof (find_none _ _ Hf a Hin) as Hn. simpl in Hn. by apply String.eqb_neq in Hn.
Qed.

(** Reading the rows. *)
Lemma by_username_spec username s s' r :
  wf s -> GetAdminByUsername username s = (s', r) ->
  same_but_faults s s' /\
  forall a, r = Ok a -> rows s !! ID a = Some a /\ Username a = username.
Proof.
  intros Hw Hc%call_spec. destruct r as [a|e]; [|by split].
  destruct Hc as (s0 & Hs & Hf). destruct (find_admin username s0) as [b|] eqn:Hb; [|done].
  injection Hf as <- <-. split; [done|]. intros a [= <-]. pose proof Hs as (E1 & E2 & _).
  rewrite <- E1. apply find_admin_spec; [|done]. destruct Hw as [H1 H2 H3]. split; rewrite ?E1, ?E2; done.
Qed.

Lemma by_id_spec id s s' r :
  GetAdminByID id s = (s', r) ->
  same_but_faults s s' /\ forall a, r = Ok a -> rows s !! id = Some a.
Proof.
  intros Hc%call_spec. destruct r as [a|e]; [|by split].
  destruct Hc as (s0 & Hs & Hf). destruct (rows s0 !! id) as [b|] eqn:Hb; [|done].
  injection Hf as <- <-. split; [done|]. intros a [= <-]. by rewrite <- (proj1 Hs).
Qed.

Definition own_key (key : string) (a : Admin) : Prop :=
  key = AdminByUsernameKey (Username a) \/ key = AdminByIDKey (ID a).

(** A cached read: whatever Redis does, it changes no row and leaves the cache
    coherent, and an answer shows the current row. *)
Lemma GetOrSet_good now key fetch s s' r :
  good s ->
  (forall s1 s2 r, good s1 -> fetch s1 = (s2, r) ->
     same_but_faults s1 s2 /\ forall a, r = Ok a -> rows s1 !! ID a = Some a /\ own_key key a) ->
  GetOrSet now key fetch s = (s', r) ->
  good s' /\ rows s' = rows s /\
  forall a, r = Ok a -> own_key key a /\ exists row, rows s' !! ID a = Some row /\ same_rights a row.
Proof.
  intros Hg Hfetch Hrun. unfold GetOrSet in Hrun.
  destruct (Get now key s) as [s1 g] eqn:Hget. unfold Get in Hget. apply call_spec in Hget.
  assert (same_but_faults s s1 /\ forall a, g = Ok (Some (Some a)) ->
    exists exp, cached s !! key = Some (Some a, exp)) as [Hs1 Hhit].
  { destruct g as [v|e]; [|by split]. destruct Hget as (s0 & Hs0 & [= <- <-]). split; [done|].
    intros a Ha. destruct Hs0 as (_ & _ & <- & _).
    destruct (cached s0 !! key) as [[v exp]|]; [|done]. destruct (now <? exp); [|done].
    injection Ha as ->. by exists exp. }
  assert (forall s' r, (a ← fetch; _ ← best_effort (Set_ now key a); mret a) s1 = (s', r) ->
    good s' /\ rows s' = rows s /\
    forall a, r = Ok a -> own_key key a /\ exists row, rows s' !! ID a = Some row /\ same_rights a row) as Hmiss.
  { intros s2 r2 H2. unfold mbind, M_bind in H2. destruct (fetch s1) as [s3 [a|e]] eqn:Hf.
    - destruct (Hfetch _ _ _ (good_same _ _ Hs1 Hg) Hf) as [Hs3 Ha]. destruct (Ha a eq_refl) as [Hrow Hkey].
      unfold best_effort in H2. destruct (Set_ now key a s3) as [s4 r4] eqn:Hset. injection H2 as <- <-. cbn [fst].
      pose proof (good_same _ _ Hs3 (good_same _ _ Hs1 Hg)) as Hg3.
      assert (rows s3 = rows s) as Er by (destruct Hs3 as (-> & _); by destruct Hs1 as (-> & _)).
      assert (good s4 /\ rows s4 = rows s) as [Hg4 Er4].
      { unfold Set_ in Hset. apply call_spec in Hset. destruct r4 as [u|e].
        - destruct Hset as (s0 & Hs0 & [= <-]). pose proof (good_same _ _ Hs0 Hg3) as [[W1 W2 W3] Hc].
          cbn [set_cached rows]. split; [|destruct Hs0 as (-> & _); done]. split; [by split|].
          intros k b exp. cbn [set_cached cached rows].
          rewrite lookup_insert_Some. intros [[<- [= <- <-]]|[_ Hb]]; [|by apply (Hc k b exp)].
          split; [exact Hkey|]. exists a. split; [|done]. destruct Hs0 as (-> & _). rewrite Er.
          destruct Hs1 as (<- & _). exact Hrow.
        - split; [by apply (good_same s3)|]. destruct Hset as (-> & _). done. }
      split; [done|]. split; [done|]. intros b [= <-]. split; [done|]. exists a. split; [|done].
      rewrite Er4. destruct Hs1 as (<- & _). done.
    - injection H2 as <- <-. destruct (Hfetch _ _ _ (good_same _ _ Hs1 Hg) Hf) as [Hs3 _].
      split; [by apply (good_same s1); [|by apply (good_same s)]|].
      split; [|done]. destruct Hs3 as (-> & _). by destruct Hs1 as (-> & _). }
  destruct g as [[[a|]|]|e]; try (by apply Hmiss).
  injection Hrun as <- <-. destruct (Hhit a eq_refl) as [exp Ha].
  split; [by apply (good_same s)|]. destruct Hs1 as (Er & _). split; [done|].
  intros b [= <-]. destruct (proj2 Hg key a exp Ha) as [Hk (row & Hrow & Hsame)].
  split; [done|]. exists row. by rewrite Er.
Qed.

(** Coherent but for the entries of one admin. *)
Definition coherent_but (id : Z) (name : string) (s : St) : Prop :=
  forall key a exp, cached s !! key = Some (Some a, exp) ->
    own_key key a /\
    ((ID a = id /\ Username a = name) \/ exists r, rows s !! ID a = Some r /\ same_rights a r).

Lemma coherent_weaken id name s : coherent s -> coherent_but id name s.
Proof. intros Hc key a exp Ha. destruct (Hc key a exp Ha) as [Hk Hr]. split; [done|by right]. Qed.

Lemma wf_set_row id a u logs s :
  rows s !! id = Some a -> ID u = ID a -> Username u = Username a -> wf s ->
  wf (set_logs logs (set_rows (<[id := u]> (rows s)) s)).
Proof.
  intros Ha Hid Hname Hw. pose proof Hw as [W1 W2 W3]. pose proof (W1 id a Ha) as Hida.
  split; cbn [set_logs set_rows rows next_id].
  - intros i b [[<- <-]|[_ Hb]]%lookup_insert_Some; [congruence|by apply W1].
  - intros i j b c [[<- <-]|[Hi Hb]]%lookup_insert_Some [[<- <-]|[Hj Hcc]]%lookup_insert_Some E; try done.
    + eapply W2; [exact Ha|exact Hcc|congruence].
    + symmetry. eapply W2; [exact Ha|exact Hb|congruence].
    + by eapply W2.
  - intros i Hi. rewrite lookup_insert_ne; [by apply W3|]. intros ->. rewrite W3 in Ha; done.
Qed.

Lemma update_row_good id f log s s' r :
  (forall a, ID (f a) = ID a /\ Username (f a) = Username a) ->
  good s -> update_row id f log s = (s', r) ->
  match r with
  | Ok u => exists a, rows s !! id = Some a /\ u = f a /\ wf s' /\ coherent_but (ID u) (Username u) s' /\
              (same_rights u a -> good s') /\ rows s' = <[id := u]> (rows s)
  | Err _ => good s' /\ rows s' = rows s
  end.
Proof.
  intros Hf Hg Hc%call_spec. destruct r as [u|e]; [|by split; [apply (good_same s)|destruct Hc as (-> & _)]].
  destruct Hc as (s0 & Hs0 & Hu). pose proof (good_same _ _ Hs0 Hg) as [Hw Hco].
  destruct (rows s0 !! id) as [a|] eqn:Ha; [|done]. destruct (row_fits (f a)); [|done]. injection Hu as <- <-.
  destruct (Hf a) as [Hid Hname]. pose proof Hw as [W1 W2 W3]. pose proof (W1 id a Ha) as Hida.
  assert (wf (set_logs (usage_logs s0 ++ log a) (set_rows (<[id := f a]> (rows s0)) s0))) as Hw'
    by (by apply (wf_set_row id a)).
  exists a. split; [destruct Hs0 as (<- & _); exact Ha|]. split; [done|]. split; [done|]. split; [|split].
  - intros key b exp Hb. cbn [set_logs set_rows cached rows] in *. destruct (Hco key b exp Hb) as [Hk (r0 & Hr0 & Hsame)].
    split; [done|]. destruct (decide (ID b = id)) as [E|Hne].
    + left. rewrite E in Hr0. rewrite Ha in Hr0. injection Hr0 as <-. split; [congruence|].
      rewrite Hname. by injection Hsame.
    + right. exists r0. by rewrite lookup_insert_ne.
  - intros Hsr. split; [done|]. intros key b exp Hb. cbn [set_logs set_rows cached rows] in *.
    destruct (Hco key b exp Hb) as [Hk (r0 & Hr0 & Hsame)]. split; [done|].
    destruct (decide (ID b = id)) as [E|Hne].
    + rewrite E in Hr0 |- *. rewrite Ha in Hr0. injection Hr0 as <-. exists (f a).
      rewrite lookup_insert_eq. split; [done|]. unfold same_rights in *. congruence.
    + exists r0. by rewrite lookup_insert_ne.
  - cbn [set_logs set_rows rows]. by destruct Hs0 as (-> & _).
Qed.

Lemma invalidate_good a s s' r :
  wf s -> coherent_but (ID a) (Username a) s -> invalidate a s = (s', r) ->
  (r = Ok tt /\ good s') \/ (exists e, r = Err e /\ stale_answer (A:=unit) r = true).
Proof.
  intros Hw Hc. unfold invalidate, or_else, InvalidateAdmin, Del.
  destruct (call _ s) as [s1 [[]|e]] eqn:Hcall; intros [= <- <-]; [left|right; by eexists].
  split; [done|]. apply call_spec in Hcall as (s0 & (E1 & E2 & E3 & _) & [= <-]).
  destruct Hw as [W1 W2 W3]. split; [split; cbn [set_cached rows next_id]; rewrite ?E1, ?E2; done|].
  intros key b exp. cbn [set_cached cached rows foldr]. rewrite !lookup_delete_Some.
  rewrite E3. intros (Hk1 & Hk2 & Hb). destruct (Hc key b exp Hb) as [Hk Hr]. split; [done|].
  rewrite E1. destruct Hr as [[Hi Hn]|Hr]; [|done]. exfalso.
  destruct Hk as [-> | ->]; [apply Hk2; by rewrite Hn|apply Hk1; by rewrite Hi].
Qed.

Lemma invalidate_rows a s s' r : invalidate a s = (s', r) -> rows s' = rows s.
Proof.
  unfold invalidate, or_else, InvalidateAdmin, Del.
  destruct (call _ s) as [s1 r1] eqn:Hcall. apply call_spec in Hcall.
  destruct r1; intros [= <- <-]; [destruct Hcall as (s0 & (E & _) & [= <-]); exact E|by destruct Hcall as (-> & _)].
Qed.

Lemma invalidate_answer a s s' r :
  invalidate a s = (s', r) -> r = Ok tt \/ exists e, r = Err e /\ stale_answer (A:=Admin) (Err e) = true.
Proof.
  unfold invalidate, or_else, InvalidateAdmin, Del.
  destruct (call _ s) as [s1 [[]|e]]; intros [= <- <-]; [by left|right; by eexists].
Qed.

Lemma load_spec username s s' r :
  good s -> load username s = (s', r) ->
  good s' /\ rows s' = rows s /\ match r with
    | Ok a => rows s' !! ID a = Some a /\ Username a = username
    | Err e => stale_answer (A:=Admin) (Err e) = false
    end.
Proof.
  intros Hg. unfold load, or_else. destruct (GetAdminByUsername username s) as [s1 r1] eqn:Hc.
  destruct (by_username_spec _ _ _ _ (proj1 Hg) Hc) as [Hs Ha].
  destruct r1 as [a|e]; intros [= <- <-].
  - split; [by apply (good_same s)|]. destruct Hs as (Er & _). split; [done|]. rewrite Er. by apply Ha.
  - split; [by apply (good_same s)|]. split; [by destruct Hs as (-> & _)|done].
Qed.

(** A write followed by the invalidation of the row it returned. *)
Lemma write_invalidate_good id f log g s s' r :
  (forall a, ID (f a) = ID a /\ Username (f a) = Username a) -> good s ->
  (updated ← or_else (update_row id f log) g; _ ← invalidate updated; mret updated) s = (s', r) ->
  stale_answer r = false -> good s'.
Proof.
  intros Hf Hg Hrun Hst. unfold mbind, M_bind, or_else in Hrun.
  destruct (update_row id f log s) as [s1 r1] eqn:Hu.
  pose proof (update_row_good _ _ _ _ _ _ Hf Hg Hu) as Hup. destruct r1 as [u|e].
  - destruct Hup as (a & _ & _ & Hw & Hc & _).
    destruct (invalidate u s1) as [s2 r2] eqn:Hi.
    destruct (invalidate_good _ _ _ _ Hw Hc Hi) as [[-> Hg2]|(e & -> & He)]; injection Hrun as <- <-; [done|].
    unfold stale_answer in *. by rewrite He in Hst.
  - injection Hrun as <- <-. by destruct Hup.
Qed.

Lemma update_good now current username req s s' r :
  good s -> handleUpdateAdmin HashPassword now current username req s = (s', r) ->
  stale_answer r = false -> good s'.
Proof.
  intros Hg. unfold handleUpdateAdmin. unfold mbind at 1, M_bind at 1.
  destruct (load username s) as [s1 r1] eqn:Hl. destruct (load_spec _ _ _ _ Hg Hl) as (Hg1 & _ & _).
  destruct r1 as [a|e]; [|by intros [= <- <-]].
  repeat (case_match; [by intros [= <- <-]|]). case_match; [|by intros [= <- <-]]. destruct p as [h t].
  intros Hrun Hst. eapply write_invalidate_good; [|exact Hg1|exact Hrun|exact Hst]. done.
Qed.

Lemma reset_usage_good username s s' r :
  good s -> handleResetAdminUsage username s = (s', r) -> stale_answer r = false -> good s'.
Proof.
  intros Hg. unfold handleResetAdminUsage. unfold mbind at 1, M_bind at 1.
  destruct (load username s) as [s1 r1] eqn:Hl. destruct (load_spec _ _ _ _ Hg Hl) as (Hg1 & _ & _).
  destruct r1 as [a|e]; [|by intros [= <- <-]].
  intros Hrun Hst. eapply write_invalidate_good; [|exact Hg1|exact Hrun|exact Hst]. done.
Qed.

Lemma create_good now username password sudo tg hook s s' r :
  good s -> handleCreateAdmin HashPassword now username password sudo tg hook s = (s', r) -> good s'.
Proof.
  intros Hg. unfold handleCreateAdmin.
  destruct (_ || _); [by intros [= <- <-]|]. destruct (negb _); [by intros [= <- <-]|].
  destruct (HashPassword password) as [hashed|]; [|by intros [= <- <-]].
  unfold or_else, CreateAdmin. destruct (call _ s) as [s1 r1] eqn:Hcall. apply call_spec in Hcall.
  destruct r1 as [a|e]; intros [= <- <-]; [|by apply (good_same s)].
  destruct Hcall as (s0 & Hs0 & Hc). pose proof (good_same _ _ Hs0 Hg) as [[W1 W2 W3] Hco].
  set (new := mkAdmin _ _ _ _ _ _ _ _ _ _) in Hc. destruct (row_fits new); [|done]. cbn [negb] in Hc.
  destruct (find_admin username s0) eqn:Hf; [done|]. injection Hc as <- <-.
  assert (forall i b, rows s0 !! i = Some b -> i <> next_id s0) as Hfresh
    by (intros i b Hb ->; by rewrite W3 in Hb).
  split; [split|]; cbn [set_next set_rows rows next_id].
  - intros i b [[<- <-]|[_ Hb]]%lookup_insert_Some; [done|by apply W1].
  - intros i j b c [[<- <-]|[Hi Hb]]%lookup_insert_Some [[<- <-]|[Hj Hcc]]%lookup_insert_Some E; try done.
    + by pose proof (find_admin_none _ _ _ _ Hf Hcc).
    + by pose proof (find_admin_none _ _ _ _ Hf Hb).
    + by eapply W2.
  - intros i Hi. rewrite lookup_insert_ne by lia. apply W3. lia.
  - intros key b exp Hb. cbn [set_next set_rows cached rows] in *.
    destruct (Hco key b exp Hb) as [Hk (r0 & Hr0 & Hsame)]. split; [done|]. exists r0.
    rewrite lookup_insert_ne; [done|]. intros E. apply (Hfresh _ _ Hr0). by symmetry.
Qed.

(** Deleting a row and invalidating what the request saw of it. *)
Lemma drop_good a g s s' r :
  (forall b, rows s !! ID a = Some b -> Username b = Username a) -> good s ->
  (_ ← or_else (DeleteAdmin (ID a)) g; invalidate a) s = (s', r) ->
  match r with
  | Ok _ => good s' /\ rows s' = delete (ID a) (rows s)
  | Err e => stale_answer (A:=unit) (Err e) = false -> good s'
  end.
Proof.
  intros Hn Hg. unfold mbind, M_bind, or_else, DeleteAdmin.
  destruct (call _ s) as [s2 r2] eqn:Hcall. apply call_spec in Hcall.
  destruct r2 as [[]|e]; [|by intros [= <- <-] _; apply (good_same s)].
  destruct Hcall as (s0 & Hs0 & Hd). pose proof (good_same _ _ Hs0 Hg) as [[W1 W2 W3] Hco].
  destruct (_ || _); [done|]. injection Hd as <-. intros Hi.
  assert (wf (set_rows (delete (ID a) (rows s0)) s0)) as Hw.
  { split; cbn [set_rows rows next_id].
    - intros i b [_ Hb]%lookup_delete_Some. by apply W1.
    - intros i j b c [_ Hb]%lookup_delete_Some [_ Hc]%lookup_delete_Some. by eapply W2.
    - intros i Hle. rewrite lookup_delete_None. right. by apply W3. }
  assert (coherent_but (ID a) (Username a) (set_rows (delete (ID a) (rows s0)) s0)) as Hc.
  { intros key b exp Hb. cbn [set_rows cached rows] in *.
    destruct (Hco key b exp Hb) as [Hk (r0 & Hr0 & Hsame)]. split; [done|].
    destruct (decide (ID b = ID a)) as [E|Hne].
    - left. split; [done|]. destruct Hs0 as (E1 & _). rewrite E, E1 in Hr0. rewrite <- (Hn _ Hr0).
      by injection Hsame.
    - right. exists r0. by rewrite lookup_delete_ne. }
  pose proof (invalidate_rows _ _ _ _ Hi) as Er. cbn [set_rows rows] in Er. destruct Hs0 as (E1 & _).
  destruct (invalidate_good _ _ _ _ Hw Hc Hi) as [[-> Hg2]|(e & -> & He)].
  - split; [done|]. by rewrite Er, E1.
  - unfold stale_answer in *. by rewrite He.
Qed.

Lemma delete_good username s s' r :
  good s -> handleDeleteAdmin username s = (s', r) -> stale_answer r = false -> good s'.
Proof.
  intros Hg. unfold handleDeleteAdmin. unfold mbind at 1, M_bind at 1.
  destruct (load username s) as [s1 r1] eqn:Hl. destruct (load_spec _ _ _ _ Hg Hl) as (Hg1 & _ & Hr1).
  destruct r1 as [a|e]; [|by intros [= <- <-]]. destruct (IsSudo a); [by intros [= <- <-]|].
  intros Hd. apply drop_good in Hd; [|intros b Hb; destruct Hr1 as [Ha _]; rewrite Ha in Hb; by injection Hb as <-|done].
  intros Hst. destruct r; [by destruct Hd|by apply Hd].
Qed.

Lemma delete_inactive_good l s s' r :
  (forall a t b, In (a, t) l -> rows s !! ID a = Some b -> Username b = Username a) -> good s ->
  delete_inactive l s = (s', r) -> stale_answer r = false -> good s'.
Proof.
  revert s s' r. induction l as [|[a t] l IH]; intros s s' r Hl Hg; cbn [delete_inactive]; [by intros [= <- <-]|].
  unfold mbind at 1, M_bind at 1. destruct (or_else (DeleteUsersByAdminID (ID a)) _ s) as [s1 r1] eqn:Hu.
  assert (good s1 /\ rows s1 = rows s) as [Hg1 E1].
  { unfold or_else, DeleteUsersByAdminID in Hu. destruct (call _ s) as [s2 r2] eqn:Hc. apply call_spec in Hc.
    destruct r2 as [n|e]; injection Hu as <- <-.
    - destruct Hc as (s0 & Hs0 & [= <- <-]). split; [by apply good_set_users, (good_same s)|exact (proj1 Hs0)].
    - split; [by apply (good_same s)|]. by destruct Hc as (-> & _). }
  destruct r1 as [n|e]; [|by intros [= <- <-]].
  pose proof (fun s2 r2 => drop_good a (fun _ => (500, "Could not remove inactive admin"%string)) s1 s2 r2) as Hdrop.
  unfold mbind at 1, M_bind at 1. unfold mbind in Hdrop at 1. unfold M_bind in Hdrop at 1.
  destruct (or_else (DeleteAdmin (ID a)) _ s1) as [s2 [[]|e]] eqn:Hd.
  2:{ intros [= <- <-] Hst. apply (Hdrop s2 (Err e)); [|done..]. rewrite E1. intros b. apply (Hl a t). by left. }
  unfold mbind at 1, M_bind at 1. destruct (invalidate a s2) as [s3 [u|e]] eqn:Hi.
  2:{ intros [= <- <-] Hst. apply (Hdrop s3 (Err e)); [|done..]. rewrite E1. intros b. apply (Hl a t). by left. }
  destruct (Hdrop s3 (Ok u)) as [Hg3 E3]; [|done..|].
  { rewrite E1. intros b. apply (Hl a t). by left. }
  unfold mbind at 1, M_bind at 1. destruct (delete_inactive l s3) as [s4 r4] eqn:Hrest.
  assert (stale_answer r4 = false -> good s4) as Hg4.
  { eapply IH; [|exact Hg3|exact Hrest]. intros b t' c Hin. rewrite E3, E1. intros [_ Hc]%lookup_delete_Some.
    eapply Hl; [right; exact Hin|done]. }
  destruct r4 as [[names k]|e]; intros [= <- <-] Hst; by apply Hg4.
Qed.

Lemma inactive_good now q s s' r :
  good s -> handleDeleteInactiveAdmins now q s = (s', r) -> stale_answer r = false -> good s'.
Proof.
  intros Hg. unfold handleDeleteInactiveAdmins. unfold mbind at 1, M_bind at 1, or_else, GetInactiveAdmins.
  destruct (call _ s) as [s1 r1] eqn:Hc. apply call_spec in Hc.
  destruct r1 as [l|e]; [|by intros [= <- <-] _; apply (good_same s)].
  destruct Hc as (s0 & Hs0 & [= <- <-]). pose proof (good_same _ _ Hs0 Hg) as Hg0.
  apply delete_inactive_good; [|done]. intros a t b.
  rewrite <- list_elem_of_In, merge_sort_Permutation, list_elem_of_In. intros [Hin _]%filter_In Hb.
  apply in_map_iff in Hin as (a' & [= -> _] & Hin).
  apply in_map_iff in Hin as ([i a'] & <- & Hin%list_elem_of_In%elem_of_map_to_list). cbn [snd] in *.
  pose proof (wf_id _ (proj1 Hg0) _ _ Hin) as <-. rewrite Hin in Hb. by injection Hb as <-.
Qed.

Lemma cached_username_good now username s s' r :
  good s -> CachedGetAdminByUsername now username s = (s', r) ->
  good s' /\ rows s' = rows s /\
  forall a, r = Ok a -> own_key (AdminByUsernameKey username) a /\
    exists row, rows s' !! ID a = Some row /\ same_rights a row.
Proof.
  intros Hg. apply GetOrSet_good; [done|]. intros s1 s2 r1 [Hw _] Hc.
  destruct (by_username_spec _ _ _ _ Hw Hc) as [Hs Ha]. split; [done|].
  intros a ->. destruct (Ha a eq_refl) as [Hrow <-]. split; [done|by left].
Qed.

Lemma cached_id_good now id s s' r :
  good s -> CachedGetAdminByID now id s = (s', r) -> good s'.
Proof.
  intros Hg Hc. apply (GetOrSet_good now (AdminByIDKey id) (GetAdminByID id) s s' r); [done| |exact Hc].
  intros s1 s2 r1 [[W1 _ _] _] Hf. destruct (by_id_spec _ _ _ _ Hf) as [Hs Ha]. split; [done|].
  intros a ->. pose proof (Ha a eq_refl) as Hrow. pose proof (W1 _ _ Hrow) as <-. split; [done|by right].
Qed.

Lemma own_username_key username a : own_key (AdminByUsernameKey username) a -> username = Username a.
Proof.
  unfold own_key, AdminByUsernameKey, AdminByIDKey. intros [E|E]; [|by simpl in E].
  by apply strip_prefix_spec in E; rewrite strip_prefix_app in E; injection E.
Qed.

Lemma find_admin_row s a : wf s -> rows s !! ID a = Some a -> find_admin (Username a) s = Some a.
Proof.
  intros Hw Ha. destruct (find_admin (Username a) s) as [b|] eqn:Hf.
  - destruct (find_admin_spec _ _ _ Hw Hf) as [Hb Hn]. f_equal.
    pose proof (wf_names s Hw _ _ _ _ Hb Ha Hn) as E. rewrite E, Ha in Hb. by injection Hb.
  - by pose proof (find_admin_none _ _ _ _ Hf Ha).
Qed.

(** What a request that is let through stands for. *)
Lemma resolve_good now header s s' r :
  good s -> resolve sudoUsername now header s = (s', r) ->
  good s' /\ rows s' = rows s /\
  forall id, r = Ok id -> exists token claims,
    header = ("Bearer " ++ token)%string /\ jwt_parse now token = Some claims /\ i_Username id = c_Username claims /\
    (sudoUsername <> "" /\ id = mkIdentity 0 sudoUsername true true \/
     exists a, find_admin (i_Username id) s' = Some a /\
       id = mkIdentity (ID a) (Username a) (IsSudo a) (IsOwner a) /\
       forall t, PasswordResetAt a = Some t -> exists iat, IssuedAt claims = Some iat /\ t <= iat).
Proof.
  intros Hg. unfold resolve.
  destruct (strip_prefix "Bearer " header) as [token|] eqn:Hh; [|by intros [= <- <-]].
  apply strip_prefix_spec in Hh. unfold Verify.
  destruct (jwt_parse now token) as [claims|] eqn:Hp; [|by intros [= <- <-]]. cbn [mbind option_bind].
  destruct (_ || _); [by intros [= <- <-]|].
  destruct (_ && _ && _) eqn:Henv.
  { intros [= <- <-]. split; [done|]. split; [done|]. intros id [= <-].
    apply andb_true_iff in Henv as [[_ Hne%negb_true_iff%String.eqb_neq]%andb_true_iff Hu%String.eqb_eq].
    exists token, claims. rewrite Hu. split_and!; [done..|by left]. }
  unfold mbind, M_bind, or_else.
  destruct (CachedGetAdminByUsername now (c_Username claims) s) as [s1 r1] eqn:Hc.
  destruct (cached_username_good _ _ _ _ _ Hg Hc) as (Hg1 & Hrows & Ha).
  destruct r1 as [a|e]; [|by intros [= <- <-]].
  destruct (Ha a eq_refl) as [Hname%own_username_key (row & Hrow & Hsame)]. clear Ha.
  intros Hrun. assert (s' = s1 /\ forall id, r = Ok id ->
    id = mkIdentity (ID a) (c_Username claims) (IsSudo a) (IsOwner a) /\
    forall t, PasswordResetAt a = Some t -> exists iat, IssuedAt claims = Some iat /\ t <= iat) as [-> Hr].
  { destruct (PasswordResetAt a) as [t|]; [destruct (IssuedAt claims) as [iat|]; [destruct (Z.ltb_spec iat t)|]|];
      injection Hrun as <- <-; (split; [done|]); intros id [= <-]; (split; [done|]); intros t' [= <-]. by exists iat. }
  split; [done|]. split; [done|]. intros id [-> Hreset]%Hr. exists token, claims.
  split_and!; [done..|right]. exists row. cbn [i_Username].
  pose proof Hsame as Hs. injection Hs as E1 E2 _ _ E3 E4 E5 _ _.
  split; [|split; [congruence|by rewrite <- E5]].
  rewrite Hname, E2. apply find_admin_row; [apply Hg1|]. by rewrite <- E1.
Qed.

Lemma observe_good {A} (m : M httperr A) s s' :
  (forall r, m s = (s', r) -> stale_answer r = false -> good s') -> observe m s = (s', false) -> good s'.
Proof. unfold observe. destruct (m s) as [s1 r]. intros Hm [= -> Hst]. by apply (Hm r). Qed.

Lemma perform_good now o s s' : good s -> perform now o s = (s', false) -> good s'.
Proof.
  intros Hg. destruct o; cbn [perform].
  - destruct (resolve _ _ _ _) as [s1 r] eqn:Hr. intros [= <-]. by apply (resolve_good _ _ _ _ _ Hg Hr).
  - destruct (CachedGetAdminByID _ _ _) as [s1 r] eqn:Hr. intros [= <-]. by apply (cached_id_good _ _ _ _ _ Hg Hr).
  - apply observe_good. intros r. by apply update_good.
  - apply observe_good. intros r Hr _. by eapply create_good.
  - apply observe_good. intros r. by apply delete_good.
  - apply observe_good. intros r. by apply inactive_good.
  - intros [= <-]. by apply good_set_users.
  - apply observe_good. intros r. by apply reset_usage_good.
  - unfold add_usage, mbind, M_bind. destruct (update_row _ _ _ _) as [s1 r] eqn:Hu.
    pose proof (update_row_good id (fun a => with_usage (UsersUsage a + n) a) (fun _ => []) _ _ _
      (fun a => conj eq_refl eq_refl) Hg Hu) as Hup.
    destruct r as [u|e]; intros [= <-]; [|by destruct Hup].
    destruct Hup as (a & _ & -> & _ & _ & Hs & _). by apply Hs.
Qed.

Lemma run_good os s s' : good s -> run os s = (s', false) -> good s'.
Proof.
  revert s. induction os as [|[now o] os IH]; intros s Hg; cbn [run]; [by intros [= <-]|].
  destruct (perform now o s) as [s1 b] eqn:Hp. destruct (run os s1) as [s2 b2] eqn:Hr.
  intros [= -> [-> ->]%orb_false_iff]. eapply IH; [by eapply perform_good|exact Hr].
Qed.


(** A load that needs no coherent cache. *)
Lemma load_row username s s' r :
  wf s -> load username s = (s', r) ->
  same_but_faults s s' /\ match r with Ok a => rows s !! ID a = Some a /\ Username a = username | Err _ => True end.
Proof.
  intros Hw. unfold load, or_else. destruct (GetAdminByUsername username s) as [s1 r1] eqn:Hc.
  destruct (by_username_spec _ _ _ _ Hw Hc) as [Hs Ha].
  destruct r1 as [a|e]; intros [= <- <-]; (split; [done|]); [by apply Ha|done].
Qed.

Lemma write_rows id f log g s s' r :
  (updated ← or_else (update_row id f log) g; _ ← invalidate updated; mret updated) s = (s', r) ->
  (exists a, rows s !! id = Some a /\ rows s' = <[id := f a]> (rows s) /\ (r = Ok (f a) \/ stale_answer r = true)) \/
  (rows s' = rows s /\ exists e, r = Err e).
Proof.
  unfold mbind, M_bind, or_else, update_row. destruct (call _ s) as [s1 r1] eqn:Hc. apply call_spec in Hc.
  destruct r1 as [u|e]; [|intros [= <- <-]; right; split; [by destruct Hc as (-> & _)|by eexists]].
  destruct Hc as (s0 & (E1 & _) & Hu). rewrite E1 in Hu. destruct (rows s !! id) as [a|] eqn:Ha; [|done].
  destruct (row_fits (f a)); [|done]. injection Hu as <- <-.
  destruct (invalidate (f a) _) as [s2 r2] eqn:Hinv. pose proof (invalidate_rows _ _ _ _ Hinv) as Hi.
  intros Hrun. left. exists a. split; [done|]. cbn [set_logs set_rows rows] in Hi.
  destruct (invalidate_answer _ _ _ _ Hinv) as [-> | (e & -> & He)]; injection Hrun as <- <-; by auto.
Qed.

Lemma new_password_reset now req a h t :
  new_password HashPassword now req a = Some (h, t) -> h = HashedPassword a \/ t = Some now.
Proof.
  unfold new_password. destruct (r_Password req) as [[|c p]|]; try (intros [= <- <-]; by left).
  destruct (HashPassword _); [|done]. destruct (String.eqb _ _); intros [= <- <-]; [by left|by right].
Qed.

Lemma new_password_kept now req a h t :
  new_password HashPassword now req a = Some (h, t) -> r_Password req = None ->
  h = HashedPassword a /\ t = PasswordResetAt a.
Proof. unfold new_password. intros Hp E. rewrite E in Hp. by injection Hp as <- <-. Qed.

(** What an edit may do to the row it names. *)
Record edited (now : Z) (current : Identity) (username : string) (req : adminModifyRequest) (a b : Admin) : Prop := {
  ed_done : IsSudo b = default (IsSudo a) (r_IsSudo req) /\ IsOwner b = default (IsOwner a) (r_IsOwner req) /\
    (r_Password req = None -> HashedPassword b = HashedPassword a /\ PasswordResetAt b = PasswordResetAt a);
  ed_name : Username a = username /\ Username b = username;
  ed_kept : ID b = ID a /\ CreatedAt b = CreatedAt a /\ UsersUsage b = UsersUsage a;
  ed_other_sudo : IsSudo a = true -> username <> i_Username current -> i_IsOwner current = true;
  ed_revoke : IsSudo a = true -> IsSudo b = false -> i_IsOwner current = true;
  ed_owner : IsOwner b <> IsOwner a -> i_IsOwner current = true;
  ed_self : IsOwner a = true -> username = i_Username current -> IsOwner b = true;
  ed_password : HashedPassword b <> HashedPassword a -> PasswordResetAt b = Some now;
}.

(** Who may change what on an admin. An edit does what it is asked to the row it names and
    leaves every other row alone, or changes nothing and answers with an error; another
    sudo admin is edited by owners only, only an owner takes sudo away or changes who is an
    owner, and not on itself to give it up; and a new password dates the reset that ends
    the older tokens. Only the answer that the cache could not be invalidated is an error
    after the change. *)
Theorem update_rights now current username req s s' r :
  wf s -> handleUpdateAdmin HashPassword now current username req s = (s', r) ->
  (rows s' = rows s /\ exists e, r = Err e) \/
  exists a b, rows s !! ID a = Some a /\ rows s' = <[ID a := b]> (rows s) /\
    (r = Ok b \/ stale_answer r = true) /\ edited now current username req a b.
Proof.
  intros Hw. unfold handleUpdateAdmin. unfold mbind at 1, M_bind at 1.
  destruct (load username s) as [s1 r1] eqn:Hl. destruct (load_row _ _ _ _ Hw Hl) as [(E1 & _) Ha].
  destruct r1 as [a|e]; [|intros [= <- <-]; left; by eauto]. destruct Ha as [Ha Hn].
  destruct (_ && IsSudo a && _) eqn:G1; [intros [= <- <-]; left; by eauto|].
  destruct (negb (validateDiscordWebhook _)); [intros [= <- <-]; left; by eauto|].
  destruct (changed (r_IsSudo req) _ && _ && _) eqn:G2; [intros [= <- <-]; left; by eauto|].
  destruct (changed (r_IsOwner req) _ && negb (i_IsOwner current)) eqn:G3; [intros [= <- <-]; left; by eauto|].
  destruct (changed (r_IsOwner req) _ && _ && negb (default _ _)) eqn:G4; [intros [= <- <-]; left; by eauto|].
  destruct (new_password _ _ _) as [[h t]|] eqn:Hp; [|intros [= <- <-]; left; by eauto].
  intros Hrun. unfold UpdateAdmin in Hrun. apply write_rows in Hrun as [(a' & Ha' & Hr & Hans)|[Hr He]]; [right|left; split; [congruence|done]].
  rewrite E1 in *. rewrite Ha in Ha'. injection Ha' as <-. exists a. eexists. split; [done|]. split; [exact Hr|]. split; [exact Hans|].
  clear Hr Hans. pose proof (new_password_kept _ _ _ _ _ Hp) as Hkept. apply new_password_reset in Hp. unfold changed in *.
  split; cbn [Username ID CreatedAt UsersUsage IsSudo IsOwner HashedPassword PasswordResetAt u_IsSudo u_IsOwner
              u_HashedPassword u_PasswordResetAt]; subst username.
  - done.
  - done.
  - done.
  - intros Hs Hne%String.eqb_neq. rewrite Hs, Hne in G1. by destruct (i_IsOwner current).
  - intros Hs. rewrite Hs in *. destruct (r_IsSudo req) as [[]|], (i_IsOwner current); simpl in *; done.
  - destruct (r_IsOwner req) as [[]|], (IsOwner a), (i_IsOwner current); simpl in *; done.
  - intros Ho E. rewrite E, String.eqb_refl, Ho in *. destruct (r_IsOwner req) as [[]|]; simpl in *; done.
  - by destruct Hp.
Qed.

(** An admin with an archived usage counter is never deleted. *)
Lemma archived_admin_stays i a n s s' r :
  wf s -> rows s !! i = Some a -> In (i, n) (usage_logs s) ->
  handleDeleteAdmin (Username a) s = (s', r) -> (exists e, r = Err e) /\ rows s' = rows s.
Proof.
  intros Hw Ha Hlog. unfold handleDeleteAdmin, mbind, M_bind.
  destruct (load (Username a) s) as [s1 r1] eqn:Hl. destruct (load_row _ _ _ _ Hw Hl) as [Hs1 Hrow].
  destruct r1 as [b|e]; [|intros [= <- <-]; split; [by eexists|by destruct Hs1]].
  destruct Hrow as [Hb Hn]. pose proof (wf_names s Hw _ _ _ _ Hb Ha Hn) as E.
  destruct (IsSudo b); [intros [= <- <-]; split; [by eexists|by destruct Hs1]|].
  unfold or_else, DeleteAdmin. destruct (call _ s1) as [s2 r2] eqn:Hc. apply call_spec in Hc. destruct r2 as [[]|e].
  - destruct Hc as (s0 & Hs0 & Hd). exfalso.
    assert (existsb (fun l => l.1 =? ID b) (usage_logs s0) = true) as Hex.
    { apply existsb_exists. exists (i, n). split; [|apply Z.eqb_eq; by rewrite E].
      destruct Hs0 as (_ & _ & _ & _ & ->). by destruct Hs1 as (_ & _ & _ & _ & ->). }
    by rewrite Hex, orb_true_r in Hd.
  - intros [= <- <-]. split; [by eexists|]. destruct Hc as (-> & _). by destruct Hs1.
Qed.
End Runs.

(** ** Concrete runs *)

(** Tokens [<access>:<username>], issued five seconds in. *)
#[local] Instance demo_jwt : Jwt := {
  jwt_sign c _ := (Access c ++ ":" ++ c_Username c)%string;
  jwt_parse _ t :=
    match strip_prefix "admin:" t with
    | Some u => Some (mkClaims u "admin" (Some 5000000))
    | None => match strip_prefix "sudo:" t with Some u => Some (mkClaims u "sudo" (Some 5000000)) | None => None end
    end;
}.

Definition demo_hash (p : string) : option string := Some ("#" ++ p)%string.
Definition ali : Admin := mkAdmin 1 "ali" "#a" 0 true false None None None 0.
Definition sara : Admin := mkAdmin 2 "sara" "#s" 0 false false None None None 700.
Definition owner : Identity := mkIdentity 0 "root" true true.
Definition revoke_sudo : adminModifyRequest := mkModify None (Some false) None None None.

Definition demo : St := mkSt {[1 := ali; 2 := sara]} [] [] 3 ∅ ∅ [].

Definition demo_run : list (Z * op) :=
  [(6000000, OResolve "Bearer admin:ali"); (6000001, OById 1); (6000002, OReport 1 50);
   (6000003, OUpdate owner "ali" revoke_sudo); (6000004, OResolve "Bearer admin:ali")].

Lemma demo_rows_wf : wf demo.
Proof.
  assert (forall i a, rows demo !! i = Some a -> i = 1 /\ a = ali \/ i = 2 /\ a = sara) as Hd.
  { intros i a. cbn [demo rows]. rewrite lookup_insert_Some, lookup_singleton_Some. intuition. }
  split.
  - by intros i a [[-> ->]|[-> ->]]%Hd.
  - intros i j a b [[-> ->]|[-> ->]]%Hd [[-> ->]|[-> ->]]%Hd; done.
  - intros i Hi. cbn [demo rows next_id] in *. apply lookup_insert_None.
    split; [apply lookup_singleton_None|]; lia.
Qed.


Lemma update_rights_witness :
  let '(s', r) := handleUpdateAdmin demo_hash 9 owner "ali" revoke_sudo demo in
  (rows s' = rows demo /\ exists e, r = Err e) \/
  exists a b, rows demo !! ID a = Some a /\ rows s' = <[ID a := b]> (rows demo) /\
    (r = Ok b \/ stale_answer r = true) /\ edited 9 owner "ali" revoke_sudo a b.
Proof.
  destruct (handleUpdateAdmin demo_hash 9 owner "ali" revoke_sudo demo) as [s' r] eqn:H.
  exact (update_rights demo_hash 9 owner "ali" revoke_sudo demo s' r demo_rows_wf H).
Defined.

(** A cached read that fetched before an edit stores what it fetched after the edit's
    invalidation: the revoked right is answered until the entry expires. *)
Example stale_fill :
  let '(s, fetched) := GetAdminByUsername "ali" demo in
  let '(s, edit) := handleUpdateAdmin demo_hash 9 owner "ali" revoke_sudo s in
  match fetched, edit with
  | Ok old, Ok new =>
      let s := (Set_ 10 (AdminByUsernameKey "ali") old s).1 in
      IsSudo new = false /\ (resolve "root" (60 * 1000000) "Bearer admin:ali" s).2 = Ok (mkIdentity 1 "ali" true false)
  | _, _ => False
  end.
Proof. vm_compute. done. Qed.

(** Resetting a usage counter keeps its admin from ever being deleted; the cleanup of
    inactive admins then fails after it removed the admin's users. *)
Example cleanup_stuck :
  let s := set_users [mkOwned 2 None 5] demo in
  let '(s, reset) := handleResetAdminUsage "sara" s in
  let '(s, r) := handleDeleteInactiveAdmins (200 * 86400 * 1000000) "30" s in
  is_ok reset = true /\ r = Err (500, "Could not remove inactive admin"%string) /\
  users s = [] /\ is_Some (rows s !! 2).
Proof. vm_compute. by eauto. Qed.

(** Node reports do not touch the cache: the counter answered lags behind the row. *)
Example usage_lags :
  let s := (CachedGetAdminByUsername 5 "sara" demo).1 in
  let s := (add_usage 2 300 s).1 in
  option_map UsersUsage (rows s !! 2) = Some 1000 /\
  match (CachedGetAdminByUsername 6 "sara" s).2 with Ok a => UsersUsage a = 700 | Err _ => False end.
Proof. vm_compute. done. Qed.
End Accounts.

Module Login.
Import Accounts.

Definition loginRateLimitWindow : Z := 60 * 1000000.
Definition loginRateLimitMax : Z := 20.

Definition LoginAttemptsKey (ip : string) : string := "rapido:login_attempts:" ++ ip.

(** The counter of a key, while it has not expired. *)
Definition live (now : Z) (e : option (Z * option Z)) : option (Z * option Z) :=
  match e with
  | Some (n, Some exp) => if now <? exp then Some (n, Some exp) else None
  | e => e
  end.

(** [Incr]: INCR, then EXPIRE on the first increment only. *)
Definition Incr (now : Z) (key : string) (ttl : Z) : M callerr Z :=
  n ← call (fun s =>
        let '(n, exp) := match live now (attempts s !! key) with Some (n, exp) => (n + 1, exp) | None => (1, None) end in
        Ok (set_attempts (<[key := (n, exp)]> (attempts s)) s, n));
  if n =? 1 then
    _ ← call (fun s => Ok (match live now (attempts s !! key) with
                           | Some (n, _) => set_attempts (<[key := (n, Some (now + ttl))]> (attempts s)) s
                           | None => s
                           end, tt));
    mret n
  else mret n.

(** The limiter fails open. *)
Definition tooManyFailedLogins (now : Z) (ip : string) : St -> St * bool := fun s =>
  match call (fun s => Ok (s, live now (attempts s !! LoginAttemptsKey ip))) s with
  | (s, Ok (Some (n, _))) => (s, loginRateLimitMax <=? n)
  | (s, _) => (s, false)
  end.

Definition recordFailedLogin (now : Z) (ip : string) (s : St) : St :=
  fst (Incr now (LoginAttemptsKey ip) loginRateLimitWindow s).

Definition clearFailedLogins (ip : string) (s : St) : St :=
  fst (call (fun s => Ok (set_attempts (delete (LoginAttemptsKey ip) (attempts s)) s, tt)) s).

(** [clientIP]: the X-Forwarded-For header and what gin makes of the connection. *)
Definition clientIP (fwd peer : string) : string :=
  if negb (String.eqb fwd "") then
    TrimSpace (match Index fwd "," with Some i => String.substring 0 i fwd | None => fwd end)
  else if negb (String.eqb peer "") then peer else "Unknown".

Inductive answer := TooMany | Incorrect | Granted (token : string).

Record request := mkRequest {
  at_ : Z; username : string; password : string; forwarded : string; peer : string;
}.

Section Login.
Context `{Jwt} (sudoUsername sudoPassword : string) (ttl : Z) (verify : string -> string -> bool).

Abbreviation vcache := (gmap (string * string * string) VerifyCache.verifyEntry).

Definition handleLogin (victim : vcache -> option (string * string * string)) (r : request) (w : St * vcache) :
  St * vcache * answer :=
  let '(s, vc) := w in
  let now := at_ r in
  let ip := clientIP (forwarded r) (peer r) in
  let '(s, many) := tooManyFailedLogins now ip s in
  if many then (s, vc, TooMany) else
  let incorrect s vc := (recordFailedLogin now ip s, vc, Incorrect) in
  let granted s vc (isSudo : bool) := (clearFailedLogins ip s, vc, Granted (Issue now ttl (username r) isSudo)) in
  if negb (String.eqb sudoUsername "") && String.eqb (username r) sudoUsername && String.eqb (password r) sudoPassword
  then granted s vc true
  else match GetAdminByUsername (username r) s with
  | (s, Err _) => incorrect s vc
  | (s, Ok admin) =>
      let '(vc, ok, _) :=
        VerifyCache.Verify verify (now * 1000) victim (username r, password r, HashedPassword admin) vc in
      if ok then granted s vc (IsSudo admin) else incorrect s vc
  end.

(** A run of logins, from any addresses, and its answers. *)
Fixpoint logins (victim : vcache -> option (string * string * string)) (rs : list request) (w : St * vcache) :
  St * vcache * list (request * answer) :=
  match rs with
  | [] => (w, [])
  | r :: rs =>
      let '(w, a) := handleLogin victim r w in
      let '(w, l) := logins victim rs w in
      (w, (r, a) :: l)
  end.

(** The answers to one address. *)
Definition answers_to (ip : string) (l : list (request * answer)) : list answer :=
  map snd (List.filter (fun x => String.eqb (clientIP (forwarded (fst x)) (peer (fst x))) ip) l).

Definition is_incorrect (a : answer) : bool := match a with Incorrect => true | _ => false end.

Lemma call_ok {A} (f : St -> result callerr (St * A)) s :
  faults s = [] -> call f s = match f s with Ok (s', a) => (s', Ok a) | Err e => (s, Err e) end.
Proof. destruct s as [r u l n c a f0]. cbn [faults]. intros ->. done. Qed.

Lemma attempts_key_inj ip ip' : LoginAttemptsKey ip = LoginAttemptsKey ip' -> ip = ip'.
Proof.
  unfold LoginAttemptsKey. intros E. apply strip_prefix_spec in E. rewrite strip_prefix_app in E. by injection E.
Qed.

(** The failures counted at a time, and the counter after one more. *)
Definition failures (now : Z) (ip : string) (s : St) : Z :=
  match live now (attempts s !! LoginAttemptsKey ip) with Some (n, _) => n | None => 0 end.

Definition counted (now : Z) (e : option (Z * option Z)) : Z * option Z :=
  match live now e with
  | Some (n, exp) => (n + 1, if n + 1 =? 1 then Some (now + loginRateLimitWindow) else exp)
  | None => (1, Some (now + loginRateLimitWindow))
  end.

Lemma tooMany_spec now ip s :
  faults s = [] -> tooManyFailedLogins now ip s = (s, loginRateLimitMax <=? failures now ip s).
Proof.
  intros Hf. unfold tooManyFailedLogins, failures. rewrite call_ok by done. by destruct (live _ _) as [[n exp]|].
Qed.

Lemma record_spec now ip s :
  faults s = [] ->
  recordFailedLogin now ip s =
    set_attempts (<[LoginAttemptsKey ip := counted now (attempts s !! LoginAttemptsKey ip)]> (attempts s)) s.
Proof.
  intros Hf. unfold recordFailedLogin, Incr, mbind, M_bind, counted. rewrite call_ok by done.
  destruct (live now _) as [[n exp]|] eqn:Hl.
  - destruct (Z.eqb_spec (n + 1) 1) as [->|Hn]; [|done]. rewrite call_ok by done. cbn [set_attempts attempts].
    rewrite lookup_insert_eq.
    assert (live now (Some (1, exp)) = Some (1, exp)) as ->.
    { destruct (attempts s !! LoginAttemptsKey ip) as [[m [e|]]|]; simpl in Hl; try done;
        [|by injection Hl as _ <-]. destruct (now <? e) eqn:Hlt; [|done]. injection Hl as _ <-. simpl. by rewrite Hlt. }
    cbn [fst]. by rewrite insert_insert_eq.
  - rewrite Z.eqb_refl, call_ok by done. cbn [set_attempts attempts]. rewrite lookup_insert_eq. cbn [live fst].
    by rewrite insert_insert_eq.
Qed.

(** What a login does when the database and Redis answer. *)
Lemma handleLogin_step victim r s vc s' vc' a :
  faults s = [] -> handleLogin victim r (s, vc) = (s', vc', a) ->
  let ip := clientIP (forwarded r) (peer r) in
  let key := LoginAttemptsKey ip in
  match a with
  | TooMany => loginRateLimitMax <= failures (at_ r) ip s /\ s' = s
  | Granted _ => failures (at_ r) ip s < loginRateLimitMax /\ s' = set_attempts (delete key (attempts s)) s
  | Incorrect => failures (at_ r) ip s < loginRateLimitMax /\
      s' = set_attempts (<[key := counted (at_ r) (attempts s !! key)]> (attempts s)) s
  end.
Proof.
  intros Hf. unfold handleLogin. rewrite tooMany_spec by done.
  destruct (Z.leb_spec loginRateLimitMax (failures (at_ r) (clientIP (forwarded r) (peer r)) s)) as [Hle|Hlt];
    [by intros [= <- _ <-]|].
  destruct (_ && _ && _).
  { intros [= <- _ <-]. split; [done|]. unfold clearFailedLogins. by rewrite call_ok. }
  unfold GetAdminByUsername. rewrite call_ok by done.
  destruct (find_admin (username r) s) as [admin|].
  - destruct (VerifyCache.Verify _ _ _ _ _) as [[vc1 []] b]; intros [= <- _ <-]; (split; [done|]).
    + unfold clearFailedLogins. by rewrite call_ok.
    + by apply record_spec.
  - intros [= <- _ <-]. split; [done|]. by apply record_spec.
Qed.

(** Where the counter of an address stands after [c] wrong logins: [w] windows were
    opened, the last one ending no earlier than [w] windows after [t0]. *)
Definition paced (t0 k w c : Z) (e : option (Z * option Z)) : Prop :=
  match e with
  | None => w = 0 /\ c = 0
  | Some (n, Some exp) =>
      1 <= n <= loginRateLimitMax /\ 1 <= w <= k /\ t0 + w * loginRateLimitWindow <= exp /\
      n <= c <= loginRateLimitMax * (w - 1) + n
  | Some (_, None) => False
  end.

Lemma paced_step t0 k w c now e :
  paced t0 k w c e -> t0 <= now < t0 + k * loginRateLimitWindow ->
  match live now e with Some (n, _) => n | None => 0 end < loginRateLimitMax ->
  exists w', paced t0 k w' (c + 1) (Some (counted now e)).
Proof.
  unfold loginRateLimitMax, counted. intros Hp Hnow Hlive.
  assert (loginRateLimitWindow = 60000000) as Hwin by done.
  destruct e as [[n [exp|]]|]; cbn [paced live] in *; [|done|].
  - unfold loginRateLimitMax in *. destruct (Z.ltb_spec now exp) as [Hlt|Hge].
    + rewrite (proj2 (Z.eqb_neq (n + 1) 1)) by lia. exists w. unfold loginRateLimitMax. lia.
    + exists (w + 1). unfold loginRateLimitMax. nia.
  - exists 1. unfold loginRateLimitMax. nia.
Qed.

Lemma paced_total t0 k w c e : 0 <= k -> paced t0 k w c e -> c <= loginRateLimitMax * k.
Proof. unfold loginRateLimitMax. destruct e as [[n [exp|]]|]; cbn [paced]; unfold loginRateLimitMax; [nia|done|lia]. Qed.

Lemma paced_full t0 k w c now e :
  paced t0 k w c e -> loginRateLimitMax <= match live now e with Some (n, _) => n | None => 0 end ->
  loginRateLimitMax <= c.
Proof.
  destruct e as [[n [exp|]]|]; cbn [paced live]; unfold loginRateLimitMax; [|done|lia].
  destruct (now <? exp); lia.
Qed.

Lemma logins_paced victim ip t0 k rs s vc s' vc' l w c :
  faults s = [] -> 0 <= k -> paced t0 k w c (attempts s !! LoginAttemptsKey ip) ->
  Forall (fun r => t0 <= at_ r < t0 + k * loginRateLimitWindow) rs ->
  logins victim rs (s, vc) = (s', vc', l) ->
  (forall token, ~ In (Granted token) (answers_to ip l)) ->
  Z.min loginRateLimitMax (c + Z.of_nat (length (answers_to ip l))) <=
    c + Z.of_nat (length (List.filter is_incorrect (answers_to ip l))) <= loginRateLimitMax * k.
Proof.
  intros Hf Hk. revert s vc s' vc' l w c Hf.
  induction rs as [|r rs IH]; intros s vc s' vc' l w c Hf Hp Ht Hrun Hno; cbn [logins] in Hrun.
  { injection Hrun as <- <- <-. cbn. pose proof (paced_total _ _ _ _ _ Hk Hp). lia. }
  destruct (handleLogin victim r (s, vc)) as [[s1 vc1] a] eqn:Hlogin.
  destruct (logins victim rs (s1, vc1)) as [[s2 vc2] l2] eqn:Hrest. injection Hrun as <- <- <-.
  apply Forall_cons in Ht as [Htr Ht]. pose proof (handleLogin_step _ _ _ _ _ _ _ Hf Hlogin) as Hstep.
  unfold answers_to in *. cbn [List.filter fst snd map] in *.
  set (ip' := clientIP (forwarded r) (peer r)) in *. cbv zeta in Hstep. clearbody ip'.
  destruct (String.eqb_spec ip' ip) as [Eip|Hne]; cbn [map List.filter snd length] in *.
  - rewrite Eip in Hstep. destruct a as [| |token]; cbn [is_incorrect length] in *.
    + destruct Hstep as [Hfull ->]. pose proof (paced_full _ _ _ _ _ _ Hp Hfull).
      pose proof (IH _ _ _ _ _ w c Hf Hp Ht Hrest (fun t Hin => Hno t (or_intror Hin))). lia.
    + destruct Hstep as [Hlt ->]. destruct (paced_step _ _ _ _ _ _ Hp Htr Hlt) as [w' Hp'].
      rewrite <- (lookup_insert_eq (attempts s) (LoginAttemptsKey ip)) in Hp'.
      pose proof (IH (set_attempts (<[LoginAttemptsKey ip := counted (at_ r) (attempts s !! LoginAttemptsKey ip)]> (attempts s)) s)
        _ _ _ _ w' (c + 1) Hf Hp' Ht Hrest (fun t Hin => Hno t (or_intror Hin))). lia.
    + destruct (Hno token). by left.
  - assert (faults s1 = [] /\ attempts s1 !! LoginAttemptsKey ip = attempts s !! LoginAttemptsKey ip) as [Hf1 He].
    { assert (LoginAttemptsKey ip' <> LoginAttemptsKey ip) as Hkey by (by intros E%attempts_key_inj).
      destruct a; destruct Hstep as [_ ->]; (split; [done|]); cbn [set_attempts attempts];
        [done|by rewrite lookup_insert_ne|by rewrite lookup_delete_ne]. }
    eapply IH; [done|by rewrite He|done|exact Hrest|done].
Qed.

End Login.

#[local] Existing Instance demo_jwt.

Definition wrong (t : Z) (header : string) : request := mkRequest t "nobody" "x" header "10.0.0.1".
Definition no_victim (c : gmap (string * string * string) VerifyCache.verifyEntry) : option (string * string * string) := None.
Abbreviation login := (handleLogin "root" "pw" 0 VerifyCache.demo_verify no_victim).
Abbreviation logins_ := (logins "root" "pw" 0 VerifyCache.demo_verify no_victim).

(** Thirty wrong guesses within one minute, another address logging in between. *)
Definition guessing : list request :=
  mkRequest 7 "root" "pw" "9.9.9.9" "10.0.0.1" :: map (fun n => wrong (Z.of_nat n) "1.2.3.4, 5.6.7.8") (seq 0 30).


(** A first failure whose EXPIRE is lost leaves a counter that never expires: the
    twentieth failure locks the address out for good, right passwords included. *)
Example lockout_forever now :
  (login (mkRequest now "root" "pw" "1.2.3.4" "10.0.0.1")
     (logins_ (map (fun n => wrong (Z.of_nat n) "1.2.3.4") (seq 0 20))
        (set_faults [false; false; false; true] demo, ∅)).1).2 = TooMany.
Proof.
  destruct (logins_ _ _) as [[s vc] l] eqn:H. cbn [fst].
  assert (attempts (logins_ (map (fun n => wrong (Z.of_nat n) "1.2.3.4") (seq 0 20))
        (set_faults [false; false; false; true] demo, ∅)).1.1 !! LoginAttemptsKey "1.2.3.4" = Some (20, None) /\
      faults (logins_ (map (fun n => wrong (Z.of_nat n) "1.2.3.4") (seq 0 20))
        (set_faults [false; false; false; true] demo, ∅)).1.1 = []) as [E Hf] by (split; vm_compute; reflexivity).
  rewrite H in E, Hf. cbn [fst] in E, Hf. unfold handleLogin.
  change (clientIP (forwarded (mkRequest now "root" "pw" "1.2.3.4" "10.0.0.1")) (peer (mkRequest now "root" "pw" "1.2.3.4" "10.0.0.1")))
    with "1.2.3.4"%string.
  rewrite tooMany_spec by done. unfold failures. by rewrite E.
Qed.

(** The address is the client's own header: a guesser that changes it is never limited. *)
Example header_evades_limit :
  map snd (logins_ (map (fun n => wrong (Z.of_nat n) (Itoa (Z.of_nat n))) (seq 0 40)) (demo, ∅)).2 =
  repeat Incorrect 40.
Proof. vm_compute. reflexivity. Qed.
End Login.
