(* ===== verification/Dump.v ===== *)
(** * Dump: reading other panels' database dumps

    The lines of an uploaded file, and [PgDump], the reader of plain pg_dump files
    ([internal/legacyimport/pgdump.go]); [mysqldump.go] has a file of its own. Both work
    on the text alone, line by line. A reader is its content and whether it ends with an
    error other than the end of the file (a broken gzip stream, say). *)

From S2P Require Import Prelude GoStrings.

#[local] Open Scope string_scope.

Record Reader := mkReader { content : string; broken : bool }.

Definition newline : ascii := "010".
Definition return_ : ascii := "013".
Definition tab : ascii := "009".
Definition backslash : ascii := "092".
Definition quote_mark : ascii := "034".

(** The lines [ReadString] gives, without their newline; the last one is what follows
    the last newline. *)
Definition lines (r : Reader) : list string := split_at newline (content r).

(** The text of lines that all end in a newline. *)
Fixpoint unlines_nl (ls : list string) : string :=
  match ls with [] => "" | l :: ls => l ++ String newline (unlines_nl ls) end.

Module PgDump.

(** One table: the column list of its COPY header, and the data lines. [None] is
    NULL. *)
Record PgTable := mkTable { Name : string; Columns : list string; Rows : list (list (option string)) }.

Record PgDump := mkDump { Created : gset string; Tables : gmap string PgTable }.

(** [Rows] of a dump: each row by column name; of columns of one name the last counts. *)
Fixpoint row_map (cols : list string) (row : list (option string)) (m : gmap string (option string)) :
  gmap string (option string) :=
  match cols, row with
  | c :: cols, v :: row => row_map cols row (<[c := v]> m)
  | _, _ => m
  end.

Definition RowsOf (table : string) (d : PgDump) : option (list (gmap string (option string))) :=
  match Tables d !! table with
  | Some t => Some (map (fun r => row_map (Columns t) r ∅) (Rows t))
  | None => None
  end.

Inductive error :=
  | FieldCount (line : nat) (table : string) (fields columns : nat)
  | LoneBackslash (line : nat) (table : string)
  | ReadError
  | Truncated.

Definition is_ident (c : ascii) : bool :=
  Ascii.eqb c "_" || Ascii.eqb c "$" || is_digit c || is_lower c || is_upper c || (128 <=? byte_of c)%Z.

(** The rest of a quoted identifier after its opening mark; a doubled mark stands for
    one. *)
Fixpoint readQuoted (s : string) : option (string * string) :=
  match s with
  | EmptyString => None
  | String c r =>
      if Ascii.eqb c quote_mark then
        match r with
        | String d r' =>
            if Ascii.eqb d quote_mark
            then match readQuoted r' with Some (n, rest) => Some (String quote_mark n, rest) | None => None end
            else Some ("", r)
        | EmptyString => Some ("", r)
        end
      else match readQuoted r with Some (n, rest) => Some (String c n, rest) | None => None end
  end.

(** [readIdent]: one identifier off the front of [s], and the rest. *)
Definition readIdent (s : string) : option (string * string) :=
  match s with
  | String c r =>
      if Ascii.eqb c quote_mark then readQuoted r
      else match span is_ident s with
           | ("", _) => None
           | (n, rest) => Some (n, rest)
           end
  | EmptyString => None
  end.

(** The part of both headers that names a table of the public schema. *)
Definition publicTableRest (s : string) : option (string * string) :=
  match readIdent s with
  | Some ("public", String "." rest) => readIdent rest
  | _ => None
  end.

Definition publicTableName (s : string) : option string := option_map fst (publicTableRest s).

(** The loop over the column list: every round reads at least one byte. *)
Fixpoint column_list (fuel : nat) (list_ : string) : option (list string) :=
  match fuel, list_ with
  | _, EmptyString => Some []
  | O, _ => None
  | S fuel, _ =>
      match readIdent (trim_left_byte " " list_) with
      | None => None
      | Some (col, after) =>
          match column_list fuel (TrimPrefix (trim_left_byte " " after) ",") with
          | Some cols => Some (col :: cols)
          | None => None
          end
      end
  end.

(** [parseCopyHeader] *)
Definition parseCopyHeader (line : string) : option (string * list string) :=
  match publicTableRest (TrimPrefix line "COPY ") with
  | None => None
  | Some (name, rest) =>
      match TrimSpace rest with
      | String "(" rest' =>
          match split_last ")" rest' with
          | Some (list_, _) =>
              if HasSuffix rest' "FROM stdin;" then
                match column_list (String.length list_) list_ with
                | Some cols => Some (name, cols)
                | None => None
                end
              else None
          | None => None
          end
      | _ => None
      end
  end.

Definition is_octal (c : ascii) : bool := between 48 55 c.

Definition isHexDigit (c : ascii) : bool := is_digit c || between 97 102 c || between 65 70 c.

Definition hex_value (c : ascii) : Z :=
  (if is_digit c then byte_of c - 48
   else if between 97 102 c then byte_of c - 87 else byte_of c - 55)%Z.

(** [byte(v)]. *)
Definition byte (v : Z) : ascii := ascii_of_N (Z.to_N (v mod 256)).

(** The escapes of one letter. *)
Definition letter_escape (e : ascii) : option ascii :=
  match e with
  | "b" => Some "008" | "f" => Some "012" | "n" => Some "010"
  | "r" => Some "013" | "t" => Some "009" | "v" => Some "011"
  | _ => None
  end%char.

(** [unescapeCopyField]; [None] is its error, a lone backslash at the end. *)
Fixpoint unescape (f : string) : option string :=
  match f with
  | EmptyString => Some ""
  | String c r =>
      if negb (Ascii.eqb c backslash) then option_map (String c) (unescape r)
      else match r with
      | EmptyString => None
      | String e r1 =>
          match letter_escape e with
          | Some x => option_map (String x) (unescape r1)
          | None =>
              let put v rest := option_map (String (byte v)) rest in
              let d c := (byte_of c - 48)%Z in
              if is_octal e then
                match r1 with
                | String e2 r2 =>
                    if is_octal e2 then
                      match r2 with
                      | String e3 r3 =>
                          if is_octal e3 then put (64 * d e + 8 * d e2 + d e3)%Z (unescape r3)
                          else put (8 * d e + d e2)%Z (unescape r2)
                      | EmptyString => put (8 * d e + d e2)%Z (unescape r2)
                      end
                    else put (d e) (unescape r1)
                | EmptyString => put (d e) (unescape r1)
                end
              else if Ascii.eqb e "x" && match r1 with String h _ => isHexDigit h | _ => false end then
                match r1 with
                | String h r2 =>
                    match r2 with
                    | String h2 r3 =>
                        if isHexDigit h2 then put (16 * hex_value h + hex_value h2)%Z (unescape r3)
                        else put (hex_value h) (unescape r2)
                    | EmptyString => put (hex_value h) (unescape r2)
                    end
                | EmptyString => None
                end
              else option_map (String e) (unescape r1)
          end
      end
  end.

Definition unescapeCopyField (f : string) : option string :=
  if negb (Contains f (String backslash "")) then Some f else unescape f.

(** [parseCopyRow] *)
Fixpoint copy_fields (fields : list string) : option (list (option string)) :=
  match fields with
  | [] => Some []
  | f :: fields =>
      let v := if String.eqb f (String backslash "N") then Some None
               else option_map Some (unescapeCopyField f) in
      match v, copy_fields fields with
      | Some v, Some row => Some (v :: row)
      | _, _ => None
      end
  end.

Definition parseCopyRow (lineNo : nat) (table : string) (line : string) (want : nat) :
  result error (list (option string)) :=
  let fields := split_at tab line in
  if negb (length fields =? want)%nat then Err (FieldCount lineNo table (length fields) want)
  else match copy_fields fields with
       | Some row => Ok row
       | None => Err (LoneBackslash lineNo table)
       end.

(** Outside a COPY block, inside one that is kept (its rows go to the table of that
    name), inside one that is not. *)
Inductive mode := Outside | Copying (table : string) | Skipping.

Definition add_row (table : string) (row : list (option string)) (d : PgDump) : PgDump :=
  mkDump (Created d) (alter (fun t => mkTable (Name t) (Columns t) (Rows t ++ [row])%list) table (Tables d)).

Section Parse.

(** The caller's filter. *)
Context (want : string -> bool).

(** One line of [ParsePgDump]. *)
Definition pg_line (lineNo : nat) (line : string) (st : PgDump * mode) : result error (PgDump * mode) :=
  let body := TrimSuffix line (String return_ "") in
  let '(d, m) := st in
  match m with
  | Copying table =>
      if String.eqb body (String backslash ".") then Ok (d, Outside)
      else match Tables d !! table with
           | Some t =>
               row ← parseCopyRow lineNo table body (length (Columns t));
               Ok (add_row table row d, m)
           | None => Ok (d, m)
           end
  | Skipping => if String.eqb body (String backslash ".") then Ok (d, Outside) else Ok (d, m)
  | Outside =>
      if HasPrefix body "CREATE TABLE " then
        match publicTableName (TrimPrefix body "CREATE TABLE ") with
        | Some name => Ok (mkDump ({[name]} ∪ Created d) (Tables d), m)
        | None => Ok (d, m)
        end
      else if HasPrefix body "COPY " && HasSuffix body " FROM stdin;" then
        match parseCopyHeader body with
        | Some (name, cols) =>
            if want name
            then Ok (mkDump (Created d) (<[name := mkTable name cols []]> (Tables d)), Copying name)
            else Ok (d, Skipping)
        | None => Ok (d, Skipping)
        end
      else Ok (d, m)
  end.

(** What follows the last newline is a line only when it is not empty. *)
Fixpoint pg_lines (lineNo : nat) (ls : list string) (st : PgDump * mode) : result error (PgDump * mode) :=
  match ls with
  | [] => Ok st
  | [l] => if String.eqb l "" then Ok st else pg_line lineNo l st
  | l :: ls => st ← pg_line lineNo l st; pg_lines (S lineNo) ls st
  end.

Definition ParsePgDump (r : Reader) : result error PgDump :=
  '(d, m) ← pg_lines 1 (lines r) (mkDump ∅ ∅, Outside);
  if broken r then Err ReadError
  else match m with Outside => Ok d | _ => Err Truncated end.

(** ** What a dump's text stands for

    The COPY text format, as the documentation of Postgres gives it: the text of a value
    byte by byte. A numeric escape has all its digits. *)
Inductive copy_text : string -> string -> Prop :=
  | text_nil : copy_text "" ""
  | text_raw c v t :
      c <> backslash -> c <> newline -> c <> return_ -> c <> tab ->
      copy_text v t -> copy_text (String c v) (String c t)
  | text_letter e c v t :
      letter_escape e = Some c -> copy_text v t -> copy_text (String c v) (String backslash (String e t))
  | text_self c v t :
      c <> newline -> c <> return_ -> c <> tab -> is_octal c = false ->
      ~ In c ["b"; "f"; "n"; "r"; "t"; "v"; "x"; "N"; "."]%char ->
      copy_text v t -> copy_text (String c v) (String backslash (String c t))
  | text_octal d1 d2 d3 v t :
      is_octal d1 = true -> is_octal d2 = true -> is_octal d3 = true -> copy_text v t ->
      copy_text (String (byte (64 * (byte_of d1 - 48) + 8 * (byte_of d2 - 48) + (byte_of d3 - 48))) v)
                (String backslash (String d1 (String d2 (String d3 t))))
  | text_hex h1 h2 v t :
      isHexDigit h1 = true -> isHexDigit h2 = true -> copy_text v t ->
      copy_text (String (byte (16 * hex_value h1 + hex_value h2)) v)
                (String backslash (String "x" (String h1 (String h2 t)))).

Inductive field_text : option string -> string -> Prop :=
  | field_null : field_text None (String backslash "N")
  | field_value v t : copy_text v t -> field_text (Some v) t.

(** An identifier, bare or between marks. *)
Fixpoint double_marks (s : string) : string :=
  match s with
  | EmptyString => ""
  | String c s =>
      if Ascii.eqb c quote_mark then String c (String c (double_marks s)) else String c (double_marks s)
  end.

Inductive ident_text : string -> string -> Prop :=
  | ident_bare n : n <> "" -> str_forallb is_ident n = true -> ident_text n n
  | ident_quoted n : ident_text n (String quote_mark (double_marks n ++ String quote_mark "")).

(** The parts of a dump: a table's creation, its data, any other line. *)
Inductive item :=
  | Create (schema name : string)
  | Copy (schema : string) (t : PgTable)
  | Other (line : string).

Definition row_text (row : list (option string)) (line : string) : Prop :=
  exists fields, Forall2 field_text row fields /\ line = Join fields (String tab "").

Inductive item_text : item -> list string -> Prop :=
  | create_text schema name s n rest :
      ident_text schema s -> ident_text name n ->
      item_text (Create schema name) ["CREATE TABLE " ++ s ++ "." ++ n ++ " " ++ rest]
  | copy_block_text schema t s n cols rows :
      ident_text schema s -> ident_text (Name t) n -> Forall2 ident_text (Columns t) cols ->
      Forall2 row_text (Rows t) rows -> Columns t <> [] ->
      Forall (fun r => length r = length (Columns t)) (Rows t) ->
      item_text (Copy schema t)
        (("COPY " ++ s ++ "." ++ n ++ " (" ++ Join cols ", " ++ ") FROM stdin;") :: rows ++ [String backslash "."])
  | other_text line :
      HasPrefix line "CREATE TABLE " = false -> HasPrefix line "COPY " && HasSuffix line " FROM stdin;" = false ->
      item_text (Other line) [line].

(** The lines of a file that ends in a newline. *)
Fixpoint unlines (eol : string) (ls : list string) : string :=
  match ls with [] => "" | l :: ls => l ++ eol ++ unlines eol ls end.

(** What the reader is to make of an item. *)
Definition keep (i : item) (d : PgDump) : PgDump :=
  match i with
  | Create schema name => if String.eqb schema "public" then mkDump ({[name]} ∪ Created d) (Tables d) else d
  | Copy schema t =>
      if String.eqb schema "public" && want (Name t) then mkDump (Created d) (<[Name t := t]> (Tables d)) else d
  | Other _ => d
  end.

(** ** Lemmas *)

Definition clean_byte (c : ascii) : bool :=
  negb (Ascii.eqb c newline) && negb (Ascii.eqb c return_).

Lemma octal_cases c : is_octal c = true -> letter_escape c = None /\ c <> backslash /\ c <> tab /\ c <> "x"%char /\ c <> newline.
Proof. destruct c as [[] [] [] [] [] [] [] []]; vm_compute; intuition discriminate. Qed.

Lemma hex_cases c : isHexDigit c = true -> c <> tab /\ c <> newline.
Proof. destruct c as [[] [] [] [] [] [] [] []]; vm_compute; intuition discriminate. Qed.

Lemma letter_cases c x : letter_escape c = Some x -> c <> backslash /\ c <> tab /\ c <> newline.
Proof. destruct c as [[] [] [] [] [] [] [] []]; vm_compute; intuition discriminate. Qed.

Lemma self_cases c :
  ~ In c ["b"; "f"; "n"; "r"; "t"; "v"; "x"; "N"; "."]%char -> letter_escape c = None /\ c <> "x"%char.
Proof. intros H. destruct c as [[] [] [] [] [] [] [] []]; vm_compute in H |- *; intuition. Qed.

Lemma unescape_text v t : copy_text v t -> unescape t = Some v.
Proof.
  induction 1 as [|c v t Hb Hn Hr Ht _ IH|e c v t He _ IH|c v t Hn Hr Ht Ho Hc _ IH|d1 d2 d3 v t H1 H2 H3 _ IH
                 |h1 h2 v t H1 H2 _ IH]; cbn [unescape].
  - done.
  - rewrite (proj2 (Ascii.eqb_neq c backslash) Hb). cbn [negb]. by rewrite IH.
  - rewrite Ascii.eqb_refl, He. cbn [negb]. by rewrite IH.
  - rewrite Ascii.eqb_refl. cbn [negb]. destruct (self_cases c Hc) as [-> Hx].
    rewrite Ho, (proj2 (Ascii.eqb_neq c "x") Hx). cbn [andb]. by rewrite IH.
  - rewrite Ascii.eqb_refl. cbn [negb]. destruct (octal_cases d1 H1) as [-> _].
    rewrite H1, H2, H3. by rewrite IH.
  - rewrite Ascii.eqb_refl. cbn [negb]. change (letter_escape "x") with (@None ascii).
    change (is_octal "x") with false. cbn [Ascii.eqb andb]. rewrite H1, H2. by rewrite IH.
Qed.

Lemma unescape_plain t : str_forallb (fun c => negb (Ascii.eqb c backslash)) t = true -> unescape t = Some t.
Proof.
  induction t as [|c t IH]; [done|]. cbn [str_forallb unescape]. intros [-> Ht]%andb_true_iff. by rewrite (IH Ht).
Qed.

Lemma Contains_byte s c : Contains s (String c "") = negb (str_forallb (fun d => negb (Ascii.eqb d c)) s).
Proof.
  unfold Contains, Index. induction s as [|d s IH]; [done|]. cbn [str_forallb].
  destruct (Ascii.eqb_spec d c) as [->|Hne]; cbn [negb andb].
  - cbn. destruct (ascii_dec c c); [|done]. by destruct s.
  - rewrite (index_cons_ne _ _ c "") by done. rewrite <- IH. by destruct (String.index 0 _ s).
Qed.

Lemma unescapeCopyField_text v t : copy_text v t -> unescapeCopyField t = Some v.
Proof.
  intros H%unescape_text. unfold unescapeCopyField. rewrite Contains_byte, negb_involutive.
  destruct (str_forallb _ t) eqn:Ht; [|done]. by rewrite (unescape_plain t Ht) in H.
Qed.

(** The text of a value has no tab, nor a newline. *)
Lemma copy_text_bytes v t : copy_text v t -> str_forallb (fun c => negb (Ascii.eqb c tab)) t = true.
Proof.
  induction 1 as [|c v t Hb Hn Hr Ht _ IH|e c v t He _ IH|c v t Hn Hr Ht Ho Hc _ IH|d1 d2 d3 v t H1 H2 H3 _ IH
                 |h1 h2 v t H1 H2 _ IH]; cbn [str_forallb]; rewrite ?IH, ?andb_true_r.
  - done.
  - by apply negb_true_iff, Ascii.eqb_neq.
  - apply andb_true_iff. split; [done|]. apply negb_true_iff, Ascii.eqb_neq. by apply (letter_cases e c).
  - apply andb_true_iff. split; [done|]. by apply negb_true_iff, Ascii.eqb_neq.
  - repeat (apply andb_true_iff; split; [done || (by apply negb_true_iff, Ascii.eqb_neq, octal_cases)|]).
    by apply negb_true_iff, Ascii.eqb_neq, octal_cases.
  - repeat (apply andb_true_iff; split; [done || (by apply negb_true_iff, Ascii.eqb_neq, hex_cases)|]).
    by apply negb_true_iff, Ascii.eqb_neq, hex_cases.
Qed.

Lemma copy_text_no_self v t c : copy_text v t -> c = "N"%char \/ c = "."%char -> t <> String backslash (String c "").
Proof.
  intros H Hc ->. inversion H; subst; try done.
  - destruct Hc as [-> | ->]; done.
  - match goal with Hn : ~ In _ _ |- _ => apply Hn end. destruct Hc as [-> | ->]; cbn; intuition.
Qed.

Lemma copy_fields_text row fields : Forall2 field_text row fields -> copy_fields fields = Some row.
Proof.
  induction 1 as [|o t row fields Hf _ IH]; [done|]. cbn [copy_fields]. rewrite IH. destruct Hf as [|v t Hv].
  - done.
  - rewrite (unescapeCopyField_text v t Hv). destruct (String.eqb_spec t (String backslash "N")) as [E|_]; [|done].
    by apply (copy_text_no_self _ _ _ Hv (or_introl eq_refl)) in E.
Qed.

Lemma field_text_bytes o t : field_text o t -> str_forallb (fun c => negb (Ascii.eqb c tab)) t = true.
Proof. intros []; [done|by eapply copy_text_bytes]. Qed.

Lemma parseCopyRow_text n table row line cols :
  row_text row line -> row <> [] -> length row = cols -> parseCopyRow n table line cols = Ok row.
Proof.
  intros (fields & Hf & ->) Hne Hlen. unfold parseCopyRow.
  assert (fields <> []) as Hne' by (intros ->; by inversion Hf; subst).
  rewrite split_at_Join.
  - rewrite <- (Forall2_length _ _ _ Hf), Hlen, Nat.eqb_refl. cbn [negb]. by rewrite (copy_fields_text _ _ Hf).
  - done.
  - clear -Hf. induction Hf as [|o t row fields H _ IH]; constructor; [by eapply field_text_bytes|done].
Qed.

(** No line of data is the end mark. *)
Lemma row_text_not_end row line : row_text row line -> row <> [] -> line <> String backslash ".".
Proof.
  intros (fields & Hf & ->) Hne. destruct Hf as [|o t row fields Ht Hf]; [done|]. destruct fields as [|t' fields].
  - cbn [Join]. destruct Ht as [|v t Hv]; [done|]. apply (copy_text_no_self v); [done|by right].
  - intros E. apply field_text_bytes in Ht.
    assert (str_forallb (fun c => negb (Ascii.eqb c tab)) (Join (t :: t' :: fields) (String tab "")) = true) as Hall
      by (by rewrite E).
    change (Join (t :: t' :: fields) (String tab "")) with (t ++ String tab (Join (t' :: fields) (String tab ""))) in Hall.
    rewrite str_forallb_app in Hall. cbn [str_forallb] in Hall. by rewrite Ascii.eqb_refl, andb_false_r in Hall.
Qed.

(** Where an identifier ends. *)
Definition stops (rest : string) : Prop :=
  match rest with String c _ => is_ident c = false /\ c <> quote_mark | EmptyString => True end.

Lemma readQuoted_text n rest :
  match rest with String c _ => c <> quote_mark | EmptyString => True end ->
  readQuoted (double_marks n ++ String quote_mark rest) = Some (n, rest).
Proof.
  intros Hr. induction n as [|c n IH].
  - cbn [double_marks String.append readQuoted]. rewrite Ascii.eqb_refl. destruct rest as [|d rest]; [done|].
    by rewrite (proj2 (Ascii.eqb_neq d quote_mark) Hr).
  - cbn [double_marks]. destruct (Ascii.eqb_spec c quote_mark) as [->|Hne].
    + cbn [String.append readQuoted]. rewrite !Ascii.eqb_refl. by rewrite IH.
    + cbn [String.append readQuoted]. rewrite (proj2 (Ascii.eqb_neq c quote_mark) Hne). by rewrite IH.
Qed.

Lemma ident_not_mark c : is_ident c = true -> c <> quote_mark /\ c <> " "%char /\ c <> newline.
Proof. destruct c as [[] [] [] [] [] [] [] []]; vm_compute; intuition discriminate. Qed.

Lemma readIdent_text n t rest : ident_text n t -> stops rest -> readIdent (t ++ rest) = Some (n, rest).
Proof.
  intros Hi Hs. destruct Hi as [n Hne Hn|n].
  - assert (span is_ident (n ++ rest) = (n, rest)) as Hspan.
    { apply span_app; [done|]. destruct rest as [|c rest]; [done|]. by destruct Hs. }
    destruct n as [|c n]; [done|]. unfold readIdent. cbn [String.append] in *.
    cbn [str_forallb] in Hn. apply andb_true_iff in Hn as [Hc _].
    rewrite (proj2 (Ascii.eqb_neq c quote_mark)) by (by apply ident_not_mark). by rewrite Hspan.
  - cbn [String.append]. unfold readIdent. rewrite Ascii.eqb_refl, <- str_app_assoc.
    apply readQuoted_text. destruct rest; [done|]. by destruct Hs.
Qed.

Lemma ident_text_head n t : ident_text n t -> exists c r, t = String c r /\ c <> " "%char.
Proof.
  intros [m Hne Hm|m]; [|by exists quote_mark, (double_marks m ++ String quote_mark "")].
  destruct m as [|c r]; [done|]. exists c, r. split; [done|].
  cbn [str_forallb] in Hm. apply andb_true_iff in Hm as [Hc _]. by apply ident_not_mark.
Qed.

Lemma trim_left_ident n t rest : ident_text n t -> trim_left_byte " " (t ++ rest) = t ++ rest.
Proof.
  intros (c & r & -> & Hc)%ident_text_head. cbn [String.append trim_left_byte].
  by rewrite (proj2 (Ascii.eqb_neq c " ") Hc).
Qed.

Lemma column_list_text names cols pad fuel :
  Forall2 ident_text names cols -> pad = "" \/ pad = " " -> names <> [] ->
  (String.length (pad ++ Join cols ", ") <= fuel)%nat ->
  column_list fuel (pad ++ Join cols ", ") = Some names.
Proof.
  intros H. revert pad fuel. induction H as [|n t names cols Ht Hrest IH]; intros pad fuel Hpad Hne Hlen; [done|].
  destruct (ident_text_head _ _ Ht) as (c & r & Et & Hc).
  assert (exists rest, Join (t :: cols) ", " = t ++ rest /\ stops rest /\
            TrimPrefix (trim_left_byte " " rest) "," = match cols with [] => "" | _ => " " ++ Join cols ", " end /\
            (match cols with [] => 0 | _ => S (String.length (Join cols ", ")) end <= String.length rest)%nat)
    as (rest & E & Hs & Hnext & Hl).
  { destruct cols as [|t' cols].
    - exists "". by rewrite str_app_nil_r.
    - exists (", " ++ Join (t' :: cols) ", "). split; [done|]. split; [done|]. split; [done|].
      set (j := Join (t' :: cols) ", "). rewrite str_length_app. cbn [String.length]. lia. }
  rewrite E in *.
  destruct fuel as [|fuel].
  { rewrite !str_length_app, Et in Hlen. cbn [String.length] in Hlen. lia. }
  assert (trim_left_byte " " (pad ++ t ++ rest) = t ++ rest) as Htrim.
  { destruct Hpad as [-> | ->]; [|cbn [String.append trim_left_byte]; rewrite Ascii.eqb_refl];
      exact (trim_left_ident n t rest Ht). }
  assert (exists d q, pad ++ t ++ rest = String d q) as (d & q & Eq).
  { rewrite Et. destruct Hpad as [-> | ->]; cbn [String.append]; by eexists _, _. }
  cbn [column_list]. rewrite Eq. rewrite <- Eq. rewrite Htrim, (readIdent_text _ _ _ Ht Hs), Hnext.
  destruct cols as [|t' cols].
  - inversion Hrest; subst. by destruct fuel.
  - rewrite (IH " " fuel); [done|by right|by destruct names; [inversion Hrest|]|].
    rewrite !str_length_app, Et in Hlen. rewrite str_length_app. cbn [String.length] in *. lia.
Qed.

Lemma publicTableRest_text schema s name n rest :
  ident_text schema s -> ident_text name n -> stops rest ->
  publicTableRest (s ++ "." ++ n ++ rest) = if String.eqb schema "public" then Some (name, rest) else None.
Proof.
  intros Hs Hn Hr. unfold publicTableRest. rewrite (readIdent_text _ _ ("." ++ n ++ rest) Hs) by done.
  destruct (String.eqb_spec schema "public") as [->|Hne]; [exact (readIdent_text _ _ _ Hn Hr)|].
  repeat (done || case_match).
Qed.

Lemma publicTableRest_other schema s r : ident_text schema s -> schema <> "public" ->
  publicTableRest (s ++ "." ++ r) = None.
Proof.
  intros Hs Hne. unfold publicTableRest. rewrite (readIdent_text _ _ ("." ++ r) Hs) by done.
  repeat (done || case_match).
Qed.

Lemma parseCopyHeader_text schema s name n names cols :
  ident_text schema s -> ident_text name n -> Forall2 ident_text names cols -> names <> [] ->
  parseCopyHeader ("COPY " ++ s ++ "." ++ n ++ " (" ++ Join cols ", " ++ ") FROM stdin;") =
  if String.eqb schema "public" then Some (name, names) else None.
Proof.
  intros Hs Hn Hc Hne. unfold parseCopyHeader. rewrite TrimPrefix_app.
  rewrite (publicTableRest_text _ _ _ _ (" (" ++ Join cols ", " ++ ") FROM stdin;") Hs Hn) by done.
  destruct (String.eqb schema "public"); [|done].
  set (j := Join cols ", ").
  assert (TrimSpace (" (" ++ j ++ ") FROM stdin;") = "(" ++ j ++ ") FROM stdin;") as ->.
  { unfold TrimSpace. set (tail_ := j ++ ") FROM stdin;").
    assert (trim_left (String.length (" (" ++ tail_)) (" (" ++ tail_) = "(" ++ tail_) as ->.
    { cbn [String.append String.length]. rewrite trim_left_space. apply (trim_left_stop (S (String.length tail_)) "(" tail_). done. }
    subst tail_. change ("(" ++ j ++ ") FROM stdin;") with ("(" ++ (j ++ (") FROM stdin" ++ String ";" ""))).
    rewrite (str_app_assoc j), (str_app_assoc "("). apply trim_right_stop. done. }
  cbn [String.append]. change (j ++ ") FROM stdin;") with (j ++ String ")" " FROM stdin;").
  rewrite split_last_app by done. cbn [fst].
  replace (HasSuffix (j ++ String ")" " FROM stdin;") "FROM stdin;") with true; [|symmetry].
  { by rewrite (column_list_text names cols "" _ Hc (or_introl eq_refl) Hne) by done. }
  change (String ")" " FROM stdin;") with (") " ++ "FROM stdin;"). rewrite str_app_assoc. apply HasSuffix_app.
Qed.

Lemma copy_header_suffix s n j : HasSuffix ("COPY " ++ s ++ "." ++ n ++ " (" ++ j ++ ") FROM stdin;") " FROM stdin;" = true.
Proof. change (") FROM stdin;") with (")" ++ " FROM stdin;"). rewrite !str_app_assoc. apply HasSuffix_app. Qed.

(** ** Reading a whole file *)

Definition clean (l : string) : bool := str_forallb clean_byte l.

Lemma clean_no_newline l : clean l = true -> str_forallb (fun c => negb (Ascii.eqb c newline)) l = true.
Proof. apply str_forallb_impl. intros c. by intros [-> _]%andb_true_iff. Qed.

Lemma lines_unlines cr ls part b :
  cr = "" \/ cr = String return_ "" -> Forall (fun l => clean l = true) ls ->
  str_forallb (fun c => negb (Ascii.eqb c newline)) part = true ->
  lines (mkReader (unlines (cr ++ String newline "") ls ++ part) b) =
    (map (fun l => (l ++ cr)%string) ls ++ [part])%list.
Proof.
  intros Hcr H Hpart. unfold lines. cbn [content]. induction H as [|l ls Hl _ IH]; [by apply split_at_none|].
  cbn [unlines map app]. rewrite <- IH, <- !str_app_assoc, (str_app_assoc l).
  change (String newline "" ++ ?x) with (String newline x). apply split_at_app.
  rewrite str_forallb_app, (clean_no_newline l Hl). by destruct Hcr as [-> | ->].
Qed.

Lemma TrimSuffix_cr cr l :
  cr = "" \/ cr = String return_ "" -> clean l = true -> TrimSuffix (l ++ cr) (String return_ "") = l.
Proof.
  intros [-> | ->] Hl; [|apply TrimSuffix_app]. rewrite str_app_nil_r. unfold TrimSuffix.
  destruct (HasSuffix l _) eqn:Hs; [|done]. apply HasSuffix_spec in Hs as [r ->].
  unfold clean in Hl. rewrite str_forallb_app in Hl. cbn in Hl. by rewrite andb_false_r in Hl.
Qed.

(** The lines of a file that ends in a newline, one after the other. *)
Fixpoint pg_run (n : nat) (ls : list string) (st : PgDump * mode) : result error (PgDump * mode) :=
  match ls with
  | [] => Ok st
  | l :: ls => st ← pg_line n l st; pg_run (S n) ls st
  end.

Lemma pg_lines_run n ls part st :
  pg_lines n (ls ++ [part])%list st =
  st ← pg_run n ls st; if String.eqb part "" then Ok st else pg_line (n + length ls) part st.
Proof.
  revert n st. induction ls as [|l ls IH]; intros n st.
  - cbn [app pg_lines pg_run length]. by rewrite Nat.add_0_r.
  - cbn [app pg_lines pg_run length]. destruct (ls ++ [part])%list as [|x y] eqn:E; [by destruct ls|].
    destruct (pg_line n l st) as [st'|e]; [|done]. rewrite <- Nat.add_succ_comm. exact (IH (S n) st').
Qed.

Lemma pg_run_app n a b st : pg_run n (a ++ b)%list st = st ← pg_run n a st; pg_run (n + length a) b st.
Proof.
  revert n st. induction a as [|l a IH]; intros n st; cbn [app pg_run length]; [by rewrite Nat.add_0_r|].
  destruct (pg_line n l st) as [st'|e]; [|done]. cbn. rewrite IH. by rewrite Nat.add_succ_r.
Qed.

Section File.
Context (cr : string) (Hcr : cr = "" \/ cr = String return_ "").

Abbreviation piece := (fun l => l ++ cr).

Lemma rows_run n rows rs d t :
  Forall2 row_text rows rs -> Forall (fun r => length r = length (Columns t)) rows -> Columns t <> [] ->
  Forall (fun l => clean l = true) rs -> Tables d !! Name t = Some t ->
  pg_run n (map piece rs) (d, Copying (Name t)) =
    Ok (mkDump (Created d) (<[Name t := mkTable (Name t) (Columns t) (Rows t ++ rows)%list]> (Tables d)), Copying (Name t)).
Proof.
  intros Hrows. revert n d t. induction Hrows as [|row line rows rs Hrow Hrows IH]; intros n d t Hw Hne Hclean Ht.
  - cbn [map pg_run]. rewrite app_nil_r. destruct t as [nm cols rw]. cbn [Name Columns Rows] in *.
    rewrite insert_id by done. by destruct d.
  - apply Forall_cons in Hw as [Hlen Hw]. apply Forall_cons in Hclean as [Hl Hclean].
    assert (row <> []) as Hrne by (intros ->; by destruct (Columns t)).
    cbn [map pg_run]. unfold pg_line at 1. rewrite TrimSuffix_cr by done.
    rewrite (proj2 (String.eqb_neq line _) (row_text_not_end _ _ Hrow Hrne)), Ht.
    rewrite (parseCopyRow_text _ _ _ _ _ Hrow Hrne Hlen). cbn.
    set (t' := mkTable (Name t) (Columns t) (Rows t ++ [row])%list).
    assert (add_row (Name t) row d = mkDump (Created d) (<[Name t' := t']> (Tables d))) as ->.
    { unfold add_row. f_equal. apply map_eq. intros k. cbn [Name t'].
      destruct (decide (k = Name t)) as [->|Hk].
      - rewrite lookup_alter_eq, lookup_insert_eq, Ht. done.
      - by rewrite lookup_alter_ne, lookup_insert_ne. }
    rewrite (IH (S n) _ t') by (done || apply lookup_insert_eq). cbn [Name Columns Rows t' Created Tables].
    by rewrite insert_insert_eq, <- app_assoc.
Qed.

Lemma skip_run n rows rs d :
  Forall2 row_text rows rs -> Forall (fun r => r <> []) rows -> Forall (fun l => clean l = true) rs ->
  pg_run n (map piece rs) (d, Skipping) = Ok (d, Skipping).
Proof.
  intros Hrows. revert n. induction Hrows as [|row line rows rs Hrow _ IH]; intros n Hne Hclean; [done|].
  apply Forall_cons in Hne as [Hr Hne]. apply Forall_cons in Hclean as [Hl Hclean].
  cbn [map pg_run]. unfold pg_line at 1. rewrite TrimSuffix_cr by done.
  rewrite (proj2 (String.eqb_neq line _) (row_text_not_end _ _ Hrow Hr)). cbn. by apply IH.
Qed.

Lemma pg_run_end n d m : m <> Outside -> pg_run n [(String backslash "." ++ cr)%string] (d, m) = Ok (d, Outside).
Proof.
  intros Hm. cbn [pg_run]. unfold pg_line. rewrite TrimSuffix_cr by done.
  destruct m; [done|..]; by rewrite String.eqb_refl.
Qed.

Lemma item_run n i ls d :
  item_text i ls -> Forall (fun l => clean l = true) ls ->
  pg_run n (map piece ls) (d, Outside) = Ok (keep i d, Outside).
Proof.
  intros Hi Hclean. destruct Hi as [schema name s m rest Hs Hm|schema t s m cols rows Hs Hm Hc Hr Hne Hw|line Hl1 Hl2].
  - apply Forall_cons in Hclean as [Hl _]. cbn [map pg_run]. unfold pg_line. rewrite TrimSuffix_cr by done.
    rewrite HasPrefix_app, TrimPrefix_app. unfold publicTableName.
    rewrite (publicTableRest_text _ _ _ _ (" " ++ rest) Hs Hm) by done. cbn [keep].
    by destruct (String.eqb schema "public").
  - apply Forall_cons in Hclean as [Hl Hclean]. cbn [map pg_run]. unfold pg_line at 1. rewrite TrimSuffix_cr by done.
    rewrite (parseCopyHeader_text _ _ _ _ _ _ Hs Hm Hc Hne), copy_header_suffix.
    set (j := Join cols ", ") in *.
    change (HasPrefix ("COPY " ++ s ++ "." ++ m ++ " (" ++ j ++ ") FROM stdin;") "CREATE TABLE ") with false.
    rewrite HasPrefix_app.
    cbn [andb keep]. rewrite map_app. cbn [map].
    apply Forall_app in Hclean as [Hclean _].
    assert (Forall (fun r => r <> []) (Rows t)) as Hrne
      by (eapply Forall_impl; [exact Hw|]; intros [|x r] Hlen; [by destruct (Columns t)|done]).
    destruct (String.eqb schema "public"); [destruct (want (Name t))|].
    + cbn. rewrite pg_run_app.
      rewrite (rows_run _ (Rows t) rows _ (mkTable (Name t) (Columns t) [])) by (done || apply lookup_insert_eq).
      etrans; [by apply pg_run_end|]. cbn [Name Columns Rows app Created Tables].
      rewrite insert_insert_eq. by destruct t.
    + cbn. rewrite pg_run_app, (skip_run _ (Rows t) rows) by done.
      by apply pg_run_end.
    + cbn. rewrite pg_run_app, (skip_run _ (Rows t) rows) by done.
      by apply pg_run_end.
  - apply Forall_cons in Hclean as [Hl _]. cbn [map pg_run]. unfold pg_line. rewrite TrimSuffix_cr by done.
    by rewrite Hl1, Hl2.
Qed.
Lemma items_run n items ls d :
  Forall2 item_text items ls -> Forall (fun l => clean l = true) (concat ls) ->
  pg_run n (map piece (concat ls)) (d, Outside) = Ok (foldl (fun d i => keep i d) d items, Outside).
Proof.
  intros H. revert n d. induction H as [|i l items ls Hi _ IH]; intros n d Hclean; [done|].
  cbn [concat] in *. apply Forall_app in Hclean as [Hl Hclean].
  rewrite map_app, pg_run_app, (item_run _ _ _ _ Hi Hl). cbn [foldl]. by apply IH.
Qed.
End File.

Definition eol_of (dos : bool) : string := if dos then String return_ (String newline "") else String newline "".

Lemma eol_cr dos : exists cr, (cr = "" \/ cr = String return_ "") /\ eol_of dos = (cr ++ String newline "")%string.
Proof. destruct dos; [exists (String return_ "")|exists ""]; auto. Qed.

(** C40: Whatever way a dump writes its values and names in the COPY format, and whatever it
    has between its tables, reading it gives the public tables it creates and, row by row
    and byte by byte, the data of the tables asked for. *)
Theorem pg_roundtrip dos items ls :
  Forall2 item_text items ls -> Forall (fun l => clean l = true) (concat ls) ->
  ParsePgDump (mkReader (unlines (eol_of dos) (concat ls)) false) =
  Ok (foldl (fun d i => keep i d) (mkDump ∅ ∅) items).
Proof.
  intros Hi Hclean. destruct (eol_cr dos) as (cr & Hcr & ->). unfold ParsePgDump.
  rewrite <- (str_app_nil_r (unlines _ _)), (lines_unlines cr _ "" false Hcr Hclean) by done.
  rewrite pg_lines_run, (items_run cr Hcr 1 items ls) by done. done.
Qed.

Lemma inside_line n line d m :
  m <> Outside -> TrimSuffix line (String return_ "") <> String backslash "." ->
  match pg_line n line (d, m) with Ok (_, m') => m' = m | Err _ => True end.
Proof.
  intros Hm Hl. unfold pg_line. rewrite (proj2 (String.eqb_neq _ _) Hl). destruct m as [|table|]; [done| |done].
  destruct (Tables d !! table) as [t|]; [|done]. by destruct (parseCopyRow _ _ _ _).
Qed.

Lemma inside_run n ls d m :
  m <> Outside ->
  match pg_run n ls (d, m) with
  | Ok (_, m') => Forall (fun l => TrimSuffix l (String return_ "") <> String backslash ".") ls -> m' = m
  | Err _ => True
  end.
Proof.
  intros Hm. revert n d. induction ls as [|l ls IH]; intros n d; [done|]. cbn [pg_run].
  destruct (decide (TrimSuffix l (String return_ "") = String backslash ".")) as [E|Hne].
  - destruct (pg_line n l (d, m)) as [[d1 m1]|e]; [|done]. cbn [mbind result_bind].
    destruct (pg_run (S n) ls (d1, m1)) as [[d2 m2]|e]; [|done]. by intros [? _]%Forall_cons.
  - pose proof (inside_line n l d m Hm Hne) as Hline.
    destruct (pg_line n l (d, m)) as [[d1 m1]|e]; [|done]. subst m1. cbn [mbind result_bind].
    specialize (IH (S n) d1). destruct (pg_run (S n) ls (d1, m)) as [[d2 m2]|e]; [|done].
    intros [_ H]%Forall_cons. by apply IH.
Qed.

Lemma copy_block_inv i ls :
  item_text i ls ->
  match i with
  | Copy schema t => exists s n cols rows,
      ident_text schema s /\ ident_text (Name t) n /\ Forall2 ident_text (Columns t) cols /\
      Forall2 row_text (Rows t) rows /\ Columns t <> [] /\
      Forall (fun r => length r = length (Columns t)) (Rows t) /\
      ls = (("COPY " ++ s ++ "." ++ n ++ " (" ++ Join cols ", " ++ ") FROM stdin;")%string :: rows ++ [String backslash "."])%list
  | _ => True
  end.
Proof. intros []; [done| |done]. by eauto 12. Qed.

Lemma header_inside cr (Hcr : cr = "" \/ cr = String return_ "") n schema t header rows d :
  item_text (Copy schema t) (header :: rows ++ [String backslash "."])%list -> clean header = true ->
  exists d' m, m <> Outside /\ pg_line n (header ++ cr) (d, Outside) = Ok (d', m).
Proof.
  intros (s & m & cols & rs & Hs & Hm & Hc & _ & Hne & _ & E)%copy_block_inv Hl.
  assert (header = ("COPY " ++ s ++ "." ++ m ++ " (" ++ Join cols ", " ++ ") FROM stdin;")%string) as -> by congruence.
  unfold pg_line. rewrite TrimSuffix_cr by done. rewrite (parseCopyHeader_text _ _ _ _ _ _ Hs Hm Hc Hne).
  rewrite copy_header_suffix. set (j := Join cols ", ") in *.
  change (HasPrefix ("COPY " ++ s ++ "." ++ m ++ " (" ++ j ++ ") FROM stdin;") "CREATE TABLE ") with false.
  rewrite HasPrefix_app. cbn [andb].
  destruct (String.eqb schema "public"); [destruct (want (Name t))|]; eexists _, _; (split; [|reflexivity]); done.
Qed.

Lemma block_row_not_end schema t header rows l :
  item_text (Copy schema t) (header :: rows ++ [String backslash "."])%list -> In l rows -> l <> String backslash ".".
Proof.
  intros (s & m & cols & rs & _ & _ & _ & Hr & Hne & Hw & [= _ E])%copy_block_inv Hin.
  apply app_inj_tail in E as [-> _].
  apply list_elem_of_In, list_elem_of_lookup in Hin as [k Hk].
  destruct (Forall2_lookup_r _ _ _ _ _ Hr Hk) as (row & Hrow & Ht). eapply row_text_not_end; [exact Ht|].
  rewrite Forall_lookup in Hw. pose proof (Hw _ _ Hrow) as Hlen. intros ->. by destruct (Columns t).
Qed.

(** A dump cut off inside a table's data, in the middle of a line or after one, is
    refused. *)
Theorem pg_truncated dos items ls schema t header rows part :
  Forall2 item_text items ls -> item_text (Copy schema t) (header :: rows ++ [String backslash "."])%list ->
  Forall (fun l => clean l = true) (concat ls ++ header :: rows)%list ->
  forall shown, shown `prefix_of` rows ->
  str_forallb (fun c => negb (Ascii.eqb c newline)) part = true ->
  TrimSuffix part (String return_ "") <> String backslash "." ->
  exists e, ParsePgDump (mkReader (unlines (eol_of dos) (concat ls ++ header :: shown) ++ part) false) = Err e.
Proof.
  intros Hi Hblock Hclean shown Hshown Hpart Hend. destruct (eol_cr dos) as (cr & Hcr & ->).
  apply Forall_app in Hclean as [Hcl Hclean]. apply Forall_cons in Hclean as [Hch Hcr'].
  assert (Forall (fun l => clean l = true) shown) as Hcs by (destruct Hshown as [z ->]; by apply Forall_app in Hcr' as [? _]).
  unfold ParsePgDump. rewrite (lines_unlines cr _ part false Hcr) by (done || by apply Forall_app; split; [|constructor]).
  rewrite pg_lines_run, map_app, pg_run_app, (items_run cr Hcr 1 items ls) by done.
  set (d := foldl _ _ _). cbn [mbind result_bind map pg_run].
  destruct (header_inside cr Hcr (1 + length (map (fun l => l ++ cr) (concat ls))) schema t header rows d Hblock Hch)
    as (d1 & m & Hm & Hline). rewrite Hline. cbn [mbind result_bind].
  pose proof (inside_run (S (1 + length (map (fun l => l ++ cr) (concat ls)))) (map (fun l => l ++ cr) shown) d1 m Hm) as Hrun.
  destruct (pg_run _ (map _ shown) _) as [[d2 m2]|e]; [|by eexists]. cbn [mbind result_bind].
  assert (m2 = m) as ->.
  { apply Hrun. apply Forall_forall. intros l (l0 & <- & Hin)%list_elem_of_In%in_map_iff.
    rewrite TrimSuffix_cr; [|done|rewrite Forall_forall in Hcs; by apply Hcs, list_elem_of_In].
    eapply block_row_not_end; [exact Hblock|]. destruct Hshown as [z ->]. apply in_or_app. by left. }
  clear Hrun. destruct (String.eqb part ""); [destruct m; [done|..]; eexists; reflexivity|].
  match goal with |- context [pg_line ?k part _] => pose proof (inside_line k part d2 m Hm Hend) as Hpl end.
  destruct (pg_line _ part _) as [[d3 m3]|e]; [|eexists; reflexivity]. subst m3.
  destruct m; [done|..]; eexists; reflexivity.
Qed.

(** The fuel of the column list is enough: more of it changes nothing. *)
Lemma readQuoted_shorter s n r : readQuoted s = Some (n, r) -> (String.length r < String.length s)%nat.
Proof.
  revert n r. induction s as [|c s IH] using str_ind_len; intros n r; [done|]. cbn [readQuoted].
  destruct (Ascii.eqb c quote_mark).
  - destruct s as [|d s]; [intros [= <- <-]; cbn; lia|]. destruct (Ascii.eqb d quote_mark).
    + destruct (readQuoted s) as [[n' r']|] eqn:E; [|done]. intros [= <- <-].
      apply (IH s) in E; [cbn [String.length] in *; lia|cbn [String.length]; lia].
    + intros [= <- <-]. cbn [String.length]. lia.
  - destruct (readQuoted s) as [[n' r']|] eqn:E; [|done]. intros [= <- <-].
    apply (IH s) in E; cbn [String.length] in *; lia.
Qed.

Lemma readIdent_shorter s n r : readIdent s = Some (n, r) -> (String.length r < String.length s)%nat.
Proof.
  destruct s as [|c s]; [done|]. unfold readIdent. destruct (Ascii.eqb c quote_mark).
  - intros H%readQuoted_shorter. cbn [String.length]. lia.
  - destruct (span is_ident (String c s)) as [a b] eqn:E. apply span_spec in E as (-> & _ & _).
    destruct a as [|x a]; [done|]. intros [= <- <-]. rewrite str_length_app. cbn [String.length]. lia.
Qed.

Lemma trim_left_byte_shorter c s : (String.length (trim_left_byte c s) <= String.length s)%nat.
Proof.
  induction s as [|d s IH]; [done|]. cbn [trim_left_byte]. destruct (Ascii.eqb d c); cbn [String.length]; lia.
Qed.

Lemma TrimPrefix_shorter s p : (String.length (TrimPrefix s p) <= String.length s)%nat.
Proof.
  unfold TrimPrefix. destruct (strip_prefix p s) eqn:E; [|done]. apply strip_prefix_spec in E as ->.
  rewrite str_length_app. lia.
Qed.

Lemma column_list_fuel fuel l : (String.length l <= fuel)%nat -> column_list fuel l = column_list (String.length l) l.
Proof.
  revert fuel. induction l as [l IH] using (induction_ltof1 _ String.length). unfold ltof in IH. intros fuel Hf.
  destruct l as [|c l]; [by destruct fuel|]. destruct fuel as [|fuel]; [cbn [String.length] in Hf; lia|].
  change (String.length (String c l)) with (S (String.length l)) in *. cbn [column_list].
  destruct (readIdent _) as [[n r]|] eqn:E; [|done]. apply readIdent_shorter in E.
  pose proof (trim_left_byte_shorter " " (String c l)). pose proof (trim_left_byte_shorter " " r).
  pose proof (TrimPrefix_shorter (trim_left_byte " " r) ",").
  set (l' := TrimPrefix (trim_left_byte " " r) ",") in *. cbn [String.length] in *.
  rewrite (IH l' ltac:(lia) fuel), (IH l' ltac:(lia) (String.length l)) by lia. done.
Qed.

(** ** What is read from any text *)

Definition shaped (d : PgDump) (m : mode) : Prop :=
  (forall name t, Tables d !! name = Some t ->
     Name t = name /\ want name = true /\ Forall (fun row => length row = length (Columns t)) (Rows t)) /\
  match m with Copying name => is_Some (Tables d !! name) | _ => True end.

Lemma parseCopyRow_width n table line want_ row :
  parseCopyRow n table line want_ = Ok row -> length row = want_.
Proof.
  unfold parseCopyRow. destruct (Nat.eqb_spec (length (split_at tab line)) want_) as [<-|]; [|done].
  cbn [negb]. destruct (copy_fields _) as [r|] eqn:E; [|done]. intros [= <-].
  revert r E. induction (split_at tab line) as [|f fs IH]; intros r; cbn [copy_fields]; [by intros [= <-]|].
  case_match; [|done]. destruct (copy_fields fs) as [r'|]; [|done]. intros [= <-].
  cbn [length]. f_equal. by apply IH.
Qed.

Lemma pg_line_shaped n l d m d' m' : shaped d m -> pg_line n l (d, m) = Ok (d', m') -> shaped d' m'.
Proof.
  intros [Hd Hm]. unfold pg_line. destruct m as [|table|].
  - destruct (HasPrefix _ _).
    { destruct (publicTableName _); by intros [= <- <-]. }
    destruct (_ && _); [|by intros [= <- <-]].
    destruct (parseCopyHeader _) as [[name cols]|]; [|by intros [= <- <-]].
    destruct (want name) eqn:Hw; [|by intros [= <- <-]]. intros [= <- <-]. split.
    + intros k t. cbn [Tables]. intros [[<- <-]|[_ Ht]]%lookup_insert_Some; [|by apply Hd]. done.
    + cbn [Tables]. rewrite lookup_insert_eq. by eexists.
  - destruct (String.eqb _ _); [by intros [= <- <-]|]. destruct Hm as [t Ht]. rewrite Ht.
    destruct (parseCopyRow _ _ _ _) as [row|e] eqn:Hrow; [|done]. intros [= <- <-].
    apply parseCopyRow_width in Hrow. destruct (Hd _ _ Ht) as (Hn & Hw & Hrows). split.
    + intros k u. cbn [add_row Tables]. rewrite lookup_alter_Some.
      intros [(<- & t0 & Ht0 & ->)|[_ Hu]]; [|by apply Hd]. rewrite Ht in Ht0. injection Ht0 as <-.
      split; [done|]. split; [done|]. cbn [Rows Columns]. apply Forall_app. auto.
    + cbn [add_row Tables]. rewrite lookup_alter_eq, Ht. by eexists.
  - destruct (String.eqb _ _); by intros [= <- <-].
Qed.

Lemma pg_lines_shaped n ls d m d' m' : shaped d m -> pg_lines n ls (d, m) = Ok (d', m') -> shaped d' m'.
Proof.
  revert n d m. induction ls as [|l [|l2 ls] IH]; intros n d m H0 E.
  - by injection E as <- <-.
  - cbn [pg_lines] in E. destruct (String.eqb l ""); [by injection E as <- <-|]. by eapply pg_line_shaped.
  - change (pg_lines n (l :: l2 :: ls) (d, m)) with (st ← pg_line n l (d, m); pg_lines (S n) (l2 :: ls) st) in E.
    destruct (pg_line n l (d, m)) as [[d1 m1]|e] eqn:E1; [|done].
    eapply IH; [|exact E]. by eapply pg_line_shaped.
Qed.

(** Whatever the text, a table that is read was asked for, is kept under its own name,
    and every row of it has one value for each column. *)
Theorem pg_rows_shaped r d name t :
  ParsePgDump r = Ok d -> Tables d !! name = Some t ->
  Name t = name /\ want name = true /\ Forall (fun row => length row = length (Columns t)) (Rows t).
Proof.
  unfold ParsePgDump. intros Hp.
  destruct (pg_lines 1 (lines r) (mkDump ∅ ∅, Outside)) as [[d' m]|e] eqn:E; [|done].
  assert (d' = d) as ->.
  { cbn in Hp. destruct (broken r); [done|]. destruct m; [|done..]. by injection Hp. }
  assert (shaped (mkDump ∅ ∅) Outside) as H0 by (by split).
  by apply (pg_lines_shaped _ _ _ _ _ _ H0 E).
Qed.
End Parse.

(** A table whose name needs marks, a value with a tab, and a table of another schema. *)
Definition demo_items : list item :=
  [Other "-- PostgreSQL database dump"; Create "public" "Odd"; 
   Copy "public" (mkTable "users" ["id"; "note"] [[Some "1"; Some (String tab "a")]; [None; Some "bA"]]);
   Copy "private" (mkTable "users" ["id"] [[Some "7"]])].

Definition marked (s : string) : string := String quote_mark (s ++ String quote_mark "").

Definition demo_rows : list string :=
  ["1" ++ String tab "" ++ "\ta"; "\N" ++ String tab "" ++ "b\101"].

Definition demo_header : string := "COPY public.users (id, " ++ marked "note" ++ ") FROM stdin;".

Definition demo_lines : list (list string) :=
  [["-- PostgreSQL database dump"]; ["CREATE TABLE public." ++ marked "Odd" ++ " ("];
   (demo_header :: demo_rows ++ ["\."])%list; ["COPY private.users (id) FROM stdin;"; "7"; "\."]].

Lemma pg_demo_block :
  item_text (Copy "public" (mkTable "users" ["id"; "note"] [[Some "1"; Some (String tab "a")]; [None; Some "bA"]]))
    (demo_header :: demo_rows ++ ["\."])%list.
Proof.
  apply (copy_block_text "public" _ "public" "users" ["id"; marked "note"] demo_rows); try done.
  - by constructor.
  - by constructor.
  - constructor; [by constructor|constructor; [apply (ident_quoted "note")|constructor]].
  - constructor; [|constructor; [|constructor]].
    + exists ["1"; "\ta"]. split; [|done]. constructor; [|constructor; [|constructor]]; constructor.
      * apply text_raw; [done..|constructor].
      * apply (text_letter "t"); [done|]. apply text_raw; [done..|constructor].
    + exists ["\N"; "b\101"]. split; [|done]. constructor; [|constructor; [|constructor]]; constructor.
      apply text_raw; [done..|]. apply (text_octal "1" "0" "1"); [done..|constructor].
  - by repeat constructor.
Qed.

Lemma pg_demo_text : Forall2 item_text demo_items demo_lines.
Proof.
  constructor; [by constructor|]. constructor.
  { apply (create_text "public" "Odd" "public" (marked "Odd") "("); [by constructor|apply (ident_quoted "Odd")]. }
  constructor; [exact pg_demo_block|]. constructor; [|constructor].
  apply (copy_block_text "private" _ "private" "users" ["id"] ["7"]); try done.
  - by constructor.
  - by constructor.
  - constructor; [by constructor|constructor].
  - constructor; [|constructor]. exists ["7"]. split; [|done]. constructor; [|constructor]. constructor.
    apply text_raw; [done..|constructor].
  - by repeat constructor.
Qed.

Lemma pg_roundtrip_witness :
  ParsePgDump (String.eqb "users") (mkReader (unlines (eol_of true) (concat demo_lines)) false) =
  Ok (foldl (fun d i => keep (String.eqb "users") i d) (mkDump ∅ ∅) demo_items).
Proof.
  assert (Forall (fun l => clean l = true) (concat demo_lines)) as H2 by (repeat constructor).
  exact (pg_roundtrip (String.eqb "users") true demo_items demo_lines pg_demo_text H2).
Defined.

Lemma pg_truncated_witness :
  exists e, ParsePgDump (String.eqb "users")
    (mkReader (unlines (eol_of false) (demo_header :: ["1" ++ String tab "" ++ "\ta"]) ++ "2") false) = Err e.
Proof.
  assert (Forall (fun l => clean l = true) (demo_header :: demo_rows)) as H3 by (repeat constructor).
  assert (["1" ++ String tab "" ++ "\ta"] `prefix_of` demo_rows) as H4 by (by exists ["\N" ++ String tab "" ++ "b\101"]).
  assert (TrimSuffix "2" (String return_ "") <> String backslash ".") as H6 by done.
  exact (pg_truncated (String.eqb "users") false [] [] "public" _ demo_header demo_rows "2"
    (@List.Forall2_nil _ _ item_text) pg_demo_block H3 _ H4 eq_refl H6).
Defined.

Lemma pg_rows_shaped_witness :
  let t := mkTable "users" ["id"; "note"] [[Some "1"; Some (String tab "a")]; [None; Some "bA"]] in
  Name t = "users" /\ String.eqb "users" "users" = true /\ Forall (fun row => length row = length (Columns t)) (Rows t).
Proof.
  assert (ParsePgDump (String.eqb "users") (mkReader (unlines (eol_of true) (concat demo_lines)) false) =
          Ok (mkDump {["Odd"]} {["users" := mkTable "users" ["id"; "note"] [[Some "1"; Some (String tab "a")]; [None; Some "bA"]]]}))
    as H1 by (vm_compute; reflexivity).
  exact (pg_rows_shaped (String.eqb "users") _ _ "users" _ H1 eq_refl).
Defined.
End PgDump.
