(* ===== verification/MySQLDump.v ===== *)
(** * MySQLDump: reading mysqldump files

    [internal/legacyimport/mysqldump.go]: the columns of each CREATE TABLE, and the scanner
    of the value lists of the INSERT statements. *)

From S2P Require Import Prelude GoStrings GoFloat Dump.
Import GoFloat.

#[local] Open Scope string_scope.

Module MySQLDump.

Inductive float := Finite (x : float64) | Inf (negative : bool) | NaN.

(** A value of a row: nil, a string, an [int64] or a [float64]. *)
Inductive value := VNull | VString (s : string) | VInt (z : Z) | VFloat (f : float).

Record MySQLTable := mkTable { Name : string; Columns : list string; Rows : list (list value) }.

Abbreviation MySQLDump := (gmap string MySQLTable).

(** [Row]. *)
Fixpoint row_map (cols : list string) (row : list value) (m : gmap string value) : gmap string value :=
  match cols, row with
  | c :: cols, v :: row => row_map cols row (<[c := v]> m)
  | _, _ => m
  end.

Definition Row (table : string) (d : MySQLDump) : option (list (gmap string value)) :=
  match d !! table with
  | Some t => Some (map (fun r => row_map (Columns t) r ∅) (Rows t))
  | None => None
  end.

Inductive error :=
  | MalformedCreate (line : string)
  | EOFInCreate (table : string)
  | ExpectedParen (table : string)
  | EndInTuple (table : string)
  | UnterminatedString (table : string)
  | OutOfFuel
  | ReadError.

(** ** [strconv.ParseFloat] *)

Section ParseFloat.
Local Open Scope Z_scope.

(** The mantissa: its digits as a number, how many follow the point, whether there is
    one, and the rest. *)
Fixpoint read_mantissa (hex : bool) (s : string) (m frac : Z) (dot saw : bool) : Z * Z * bool * string :=
  match s with
  | String c r =>
      let digit v := read_mantissa hex r (m * (if hex then 16 else 10) + v) (if dot then frac + 1 else frac) dot true in
      if Ascii.eqb c "_" then read_mantissa hex r m frac dot saw
      else if Ascii.eqb c "." then if dot then (m, frac, saw, s) else read_mantissa hex r m frac true saw
      else if is_digit c then digit (byte_of c - 48)
      else if hex && PgDump.isHexDigit c then digit (PgDump.hex_value c)
      else (m, frac, saw, s)
  | EmptyString => (m, frac, saw, s)
  end.

Fixpoint read_exponent (s : string) (e : Z) : Z * string :=
  match s with
  | String c r =>
      if Ascii.eqb c "_" then read_exponent r e
      else if is_digit c then read_exponent r (if e <? 10000 then e * 10 + (byte_of c - 48) else e)
      else (e, s)
  | EmptyString => (e, s)
  end.

(** [underscoreOK]: underscores only between digits, or after a base prefix. *)
Fixpoint underscores (hex : bool) (saw : ascii) (s : string) : bool :=
  match s with
  | EmptyString => negb (Ascii.eqb saw "_")
  | String c r =>
      if is_digit c || hex && PgDump.isHexDigit c then underscores hex "0" r
      else if Ascii.eqb c "_" then Ascii.eqb saw "0" && underscores hex "_" r
      else negb (Ascii.eqb saw "_") && underscores hex "!" r
  end.

Definition strip_sign (s : string) : bool * string :=
  match s with String "-" r => (true, r) | String "+" r => (false, r) | _ => (false, s) end.

Definition underscoreOK (s : string) : bool :=
  let '(_, s) := strip_sign s in
  match s with
  | String "0" (String c r) =>
      let l := lower_byte c in
      if Ascii.eqb l "b" || Ascii.eqb l "o" || Ascii.eqb l "x" then underscores (Ascii.eqb l "x") "0" r
      else underscores false "^" s
  | _ => underscores false "^" s
  end.

(** The value [m * base^-frac * (10 or 2)^e], or [None] for a syntax error, and for a
    magnitude that rounds beyond the largest double. *)
Definition finite (neg hex : bool) (m frac e : Z) : option float :=
  let k := if hex then e - 4 * frac else e - frac in
  let b := if hex then 2 else 10 in
  let x := nearest ((if neg then - m else m) * b ^ Z.max 0 k) (b ^ Z.max 0 (- k)) in
  if 2 ^ 1024 * den x <=? Z.abs (num x) then None else Some (Finite x).

Definition read_float (s : string) : option float :=
  let '(neg, t) := strip_sign s in
  let '(hex, t) := match t with
                   | String "0" (String c (String d r)) =>
                       if Ascii.eqb (lower_byte c) "x" then (true, String d r) else (false, t)
                   | _ => (false, t)
                   end in
  let '(m, frac, saw, t) := read_mantissa hex t 0 0 false false in
  if negb saw then None
  else
    let after := match t with
                 | String c r =>
                     if Ascii.eqb (lower_byte c) (if hex then "p" else "e") then
                       let '(eneg, r) := strip_sign r in
                       match r with
                       | String d _ =>
                           if is_digit d then let '(e, r) := read_exponent r 0 in Some ((if eneg then - e else e), r)
                           else None
                       | EmptyString => None
                       end
                     else if hex then None else Some (0, t)
                 | EmptyString => if hex then None else Some (0, t)
                 end in
    match after with
    | Some (e, EmptyString) =>
        if str_forallb (fun c => negb (Ascii.eqb c "_")) s || underscoreOK s then finite neg hex m frac e else None
    | _ => None
    end.

Definition ParseFloat (s : string) : option float :=
  let '(neg, t) := strip_sign (map_bytes lower_byte s) in
  if String.eqb t "inf" || String.eqb t "infinity" then Some (Inf neg)
  else if String.eqb (map_bytes lower_byte s) "nan" then Some NaN
  else read_float s.
End ParseFloat.

(** ** The scanner *)

(** [extractBacktickName] *)
Definition backtick : ascii := "`".

Definition extractBacktickName (s prefix : string) : option string :=
  match after_first s prefix with
  | Some rest => match Index rest "`" with Some i => Some (stake i rest) | None => None end
  | None => None
  end.

(** [parseInsertHeader] *)
Definition parseInsertHeader (line : string) : option (string * string) :=
  match strip_prefix "INSERT INTO `" line with
  | None => None
  | Some afterP =>
      match Index afterP "`" with
      | None => None
      | Some i =>
          match after_first (sdrop (i + 1) afterP) "VALUES" with
          | Some rest => Some (stake i afterP, rest)
          | None => None
          end
      end
  end.

Definition is_blank (c : ascii) : bool :=
  Ascii.eqb c " " || Ascii.eqb c tab || Ascii.eqb c return_ || Ascii.eqb c newline.

Definition skipSpace (s : string) : string := snd (span is_blank s).

Definition parseBareLiteral (tok : string) : value :=
  if String.eqb tok "NULL" then VNull
  else match ParseInt tok with
       | Some z => VInt z
       | None => match ParseFloat tok with Some f => VFloat f | None => VString tok end
       end.

(** What a backslash makes of the byte after it. *)
Definition mysql_escape (c : ascii) : ascii :=
  match c with
  | "n" => "010" | "r" => "013" | "t" => "009" | "0" => "000" | "Z" => "026" | _ => c
  end%char.

Definition apostrophe : ascii := "'".

(** [parseQuotedString], after the opening mark: the value and what follows it. *)
Fixpoint parseQuotedString (s : string) : option (string * string) :=
  let put c r := match r with Some (v, rest) => Some (String c v, rest) | None => None end in
  match s with
  | EmptyString => None
  | String c r =>
      match r with
      | EmptyString => if Ascii.eqb c apostrophe then Some ("", r) else None
      | String d r' =>
          if Ascii.eqb c backslash then put (mysql_escape d) (parseQuotedString r')
          else if Ascii.eqb c apostrophe then
            if Ascii.eqb d apostrophe then put apostrophe (parseQuotedString r') else Some ("", r)
          else put c (parseQuotedString r)
      end
  end.

(** The values of a row, after its opening parenthesis; every round takes a byte. *)
Fixpoint row_loop (fuel : nat) (table : string) (s : string) (row : list value) : result error (list value * string) :=
  match fuel with
  | O => Err OutOfFuel
  | S fuel =>
      match skipSpace s with
      | EmptyString => Err (EndInTuple table)
      | String c r =>
          if Ascii.eqb c ")" then Ok (row, r)
          else
            let item := if Ascii.eqb c apostrophe then
                          match parseQuotedString r with
                          | Some (v, rest) => Ok (VString v, rest)
                          | None => Err (UnterminatedString table)
                          end
                        else let '(tok, rest) := span (fun d => negb (Ascii.eqb d "," || Ascii.eqb d ")")) (String c r) in
                             Ok (parseBareLiteral (TrimSpace tok), rest) in
            '(v, rest) ← item;
            let row := (row ++ [v])%list in
            match skipSpace rest with
            | String d rest' =>
                if Ascii.eqb d "," then row_loop fuel table rest' row
                else if Ascii.eqb d ")" then Ok (row, rest')
                else row_loop fuel table (String d rest') row
            | EmptyString => row_loop fuel table "" row
            end
      end
  end.

Fixpoint tuples_loop (fuel : nat) (table : string) (s : string) (tuples : list (list value)) :
  result error (list (list value)) :=
  match fuel with
  | O => Err OutOfFuel
  | S fuel =>
      match skipSpace s with
      | EmptyString => Ok tuples
      | String c r =>
          if Ascii.eqb c ";" then Ok tuples
          else if negb (Ascii.eqb c "(") then Err (ExpectedParen table)
          else
            '(row, rest) ← row_loop (S (String.length r)) table r [];
            let tuples := (tuples ++ [row])%list in
            match skipSpace rest with
            | EmptyString => Ok tuples
            | String d rest' =>
                if Ascii.eqb d "," then tuples_loop fuel table rest' tuples
                else if Ascii.eqb d ";" then Ok tuples
                else tuples_loop fuel table (String d rest') tuples
            end
      end
  end.

Definition parseValuesTuples (table s : string) : result error (list (list value)) :=
  tuples_loop (S (String.length s)) table s [].

(** Between statements, or inside a CREATE TABLE with the columns read so far. *)
Inductive mode := Outside | Creating (table : string) (cols : list string).

Definition my_line (line : string) (st : MySQLDump * mode) : result error (MySQLDump * mode) :=
  let trimmed := TrimSpace line in
  match st with
  | (d, Creating name cols) =>
      if HasPrefix trimmed ")" then Ok (<[name := mkTable name cols []]> d, Outside)
      else if HasPrefix trimmed "`" then
        match extractBacktickName trimmed "`" with
        | Some col => Ok (d, Creating name (cols ++ [col])%list)
        | None => Ok st
        end
      else Ok st
  | (d, Outside) =>
      if HasPrefix trimmed "CREATE TABLE `" then
        match extractBacktickName trimmed "CREATE TABLE `" with
        | Some name => Ok (d, Creating name [])
        | None => Err (MalformedCreate trimmed)
        end
      else if HasPrefix trimmed "INSERT INTO `" then
        match parseInsertHeader trimmed with
        | Some (name, rest) =>
            rows ← parseValuesTuples name rest;
            Ok (alter (fun t => mkTable (Name t) (Columns t) (Rows t ++ rows)%list) name d, Outside)
        | None => Ok st
        end
      else Ok st
  end.

Fixpoint my_lines (ls : list string) (st : MySQLDump * mode) : result error (MySQLDump * mode) :=
  match ls with
  | [] => Ok st
  | l :: ls => st ← my_line l st; my_lines ls st
  end.

Definition ParseMySQLDump (r : Reader) : result error MySQLDump :=
  '(d, m) ← my_lines (lines r) (∅, Outside);
  if broken r then Err ReadError
  else match m with Outside => Ok d | Creating name _ => Err (EOFInCreate name) end.

(** ** The scanner ends *)

Lemma skipSpace_shorter s : (String.length (skipSpace s) <= String.length s)%nat.
Proof.
  unfold skipSpace. destruct (span is_blank s) as [a b] eqn:E. apply span_spec in E as (-> & _ & _).
  rewrite str_length_app. cbn [snd]. lia.
Qed.

Lemma skipSpace_stop c s : is_blank c = false -> skipSpace (String c s) = String c s.
Proof. intros Hc. unfold skipSpace. cbn [span]. by rewrite Hc. Qed.

Lemma parseQuotedString_shorter s v r : parseQuotedString s = Some (v, r) -> (String.length r < String.length s)%nat.
Proof.
  revert v r. induction s as [|c s IH] using str_ind_len; intros v r; [done|].
  destruct s as [|d s']; cbn [parseQuotedString].
  - destruct (Ascii.eqb c apostrophe); [|done]. intros [= <- <-]. cbn. lia.
  - assert (forall x t, (String.length t < S (S (String.length s')))%nat ->
      match parseQuotedString t with Some (w, rest) => Some (String x w, rest) | None => None end = Some (v, r) ->
      (String.length r < String.length (String c (String d s')))%nat) as Hput.
    { intros x t Ht. destruct (parseQuotedString t) as [[w rest]|] eqn:E; [|done]. intros [= <- <-].
      apply (IH t) in E; cbn [String.length] in *; lia. }
    destruct (Ascii.eqb c backslash); [apply Hput; lia|].
    destruct (Ascii.eqb c apostrophe).
    + destruct (Ascii.eqb d apostrophe); [apply Hput; lia|]. intros [= <- <-]. cbn [String.length]. lia.
    + apply (Hput c (String d s')). cbn [String.length]. lia.
Qed.

Lemma row_loop_ends fuel table s row :
  (String.length s < fuel)%nat ->
  match row_loop fuel table s row with
  | Ok (_, rest) => (String.length rest < String.length s)%nat
  | Err e => e <> OutOfFuel
  end.
Proof.
  revert s row. induction fuel as [|fuel IH]; intros s row Hf; [lia|]. cbn [row_loop].
  pose proof (skipSpace_shorter s) as Hs. destruct (skipSpace s) as [|c r]; [done|]. cbn [String.length] in Hs.
  destruct (Ascii.eqb_spec c ")") as [->|Hc]; [lia|].
  assert (forall v rest, (String.length rest <= String.length r)%nat \/ (exists r', rest = String "," r' /\ r' = r) ->
    match
      match skipSpace rest with
      | String d rest' =>
          if Ascii.eqb d "," then row_loop fuel table rest' (row ++ [v])
          else if Ascii.eqb d ")" then Ok ((row ++ [v])%list, rest')
          else row_loop fuel table (String d rest') (row ++ [v])
      | EmptyString => row_loop fuel table "" (row ++ [v])
      end
    with Ok (_, rest) => (String.length rest < String.length s)%nat | Err e => e <> OutOfFuel end) as Hnext.
  { intros v rest Hrest.
    assert (forall t, (String.length t < String.length s)%nat ->
      match row_loop fuel table t (row ++ [v]) with
      | Ok (_, rest) => (String.length rest < String.length s)%nat | Err e => e <> OutOfFuel end) as Hrec.
    { intros t Ht. specialize (IH t (row ++ [v])%list ltac:(lia)).
      destruct (row_loop fuel table t _) as [[x y]|e]; [lia|done]. }
    destruct Hrest as [Hrest|(r' & -> & ->)]; [|rewrite skipSpace_stop by done; apply Hrec; lia].
    pose proof (skipSpace_shorter rest). destruct (skipSpace rest) as [|d rest']; [apply Hrec; cbn; lia|].
    cbn [String.length] in *. destruct (Ascii.eqb d ","); [apply Hrec; lia|].
    destruct (Ascii.eqb d ")"); [lia|]. apply Hrec. cbn [String.length]. lia. }
  destruct (Ascii.eqb c apostrophe).
  - destruct (parseQuotedString r) as [[v rest]|] eqn:E; [|done]. apply parseQuotedString_shorter in E.
    cbn. apply Hnext. left. lia.
  - destruct (span _ (String c r)) as [tok rest] eqn:E. cbn. apply Hnext. cbn [span] in E.
    rewrite (proj2 (Ascii.eqb_neq c ")") Hc), orb_false_r in E. destruct (Ascii.eqb_spec c ",") as [->|].
    + injection E as <- <-. right. by exists r.
    + cbn [negb] in E. destruct (span _ r) as [a b] eqn:E2. injection E as <- <-.
      apply span_spec in E2 as (-> & _). rewrite str_length_app. left. lia.
Qed.

Lemma tuples_loop_ends fuel table s tuples :
  (String.length s < fuel)%nat -> tuples_loop fuel table s tuples <> Err OutOfFuel.
Proof.
  revert s tuples. induction fuel as [|fuel IH]; intros s tuples Hf; [lia|]. cbn [tuples_loop].
  pose proof (skipSpace_shorter s) as Hs. destruct (skipSpace s) as [|c r]; [done|]. cbn [String.length] in Hs.
  destruct (Ascii.eqb c ";"); [done|]. destruct (negb _); [done|].
  pose proof (row_loop_ends (S (String.length r)) table r [] ltac:(lia)) as Hrow.
  destruct (row_loop _ table r []) as [[row rest]|e]; [|by intros [= ->]]. cbn.
  pose proof (skipSpace_shorter rest). destruct (skipSpace rest) as [|d rest']; [done|]. cbn [String.length] in *.
  destruct (Ascii.eqb d ","); [apply IH; lia|]. destruct (Ascii.eqb d ";"); [done|].
  apply IH. cbn [String.length]. lia.
Qed.

(** The scanner of row values ends on every text: it returns rows or an error of its
    own, and so does the reader of a dump. *)
Theorem mysql_scanner_ends r : ParseMySQLDump r <> Err OutOfFuel.
Proof.
  assert (forall ls st, my_lines ls st <> Err OutOfFuel) as Hlines.
  { intros ls. induction ls as [|l ls IH]; intros [d m]; [done|]. cbn [my_lines].
    destruct (my_line l (d, m)) as [st'|e] eqn:E; cbn; [apply IH|]. intros [= ->]. revert E.
    unfold my_line. destruct m as [|name cols].
    - destruct (HasPrefix _ _); [by destruct (extractBacktickName _ _)|].
      destruct (HasPrefix _ _); [|done]. destruct (parseInsertHeader _) as [[name rest]|]; [|done].
      pose proof (tuples_loop_ends (S (String.length rest)) name rest [] ltac:(lia)) as Ht.
      unfold parseValuesTuples. destruct (tuples_loop _ _ _ _); [done|]. by intros [= ->].
    - destruct (HasPrefix _ _); [done|]. destruct (HasPrefix _ _); [|done]. by destruct (extractBacktickName _ _). }
  unfold ParseMySQLDump. specialize (Hlines (lines r) (∅, Outside)).
  destruct (my_lines _ _) as [[d m]|e]; cbn; [|by intros [= ->]]. destruct (broken r); [done|]. by destruct m.
Qed.

(** ** What a dump's text stands for

    String literals as MySQL reads them: a byte itself, a backslash escape, or a doubled
    apostrophe. *)
Inductive string_text : string -> string -> Prop :=
  | str_nil : string_text "" ""
  | str_raw c v t : c <> backslash -> c <> apostrophe -> string_text v t -> string_text (String c v) (String c t)
  | str_escape e v t : string_text v t -> string_text (String (mysql_escape e) v) (String backslash (String e t))
  | str_doubled v t :
      string_text v t -> string_text (String apostrophe v) (String apostrophe (String apostrophe t)).

(** Bytes a bare literal is made of: no white space, comma, parenthesis or mark. *)
Definition bare_byte (c : ascii) : bool :=
  plain_byte c && negb (is_blank c) &&
  negb (Ascii.eqb c ",") && negb (Ascii.eqb c ")") && negb (Ascii.eqb c apostrophe).

Inductive literal_text : value -> string -> Prop :=
  | lit_null : literal_text VNull "NULL"
  | lit_int z : fits 64 z -> literal_text (VInt z) (Itoa z)
  | lit_string v t : string_text v t -> literal_text (VString v) (String apostrophe (t ++ String apostrophe ""))
  | lit_bare tok : tok <> "" -> str_forallb bare_byte tok = true -> literal_text (parseBareLiteral tok) tok.

Definition tuple_text (row : list value) (t : string) : Prop :=
  exists lits, Forall2 literal_text row lits /\ t = "(" ++ Join lits "," ++ ")".

Lemma parseQuotedString_text v t rest :
  string_text v t -> match rest with String c _ => c <> apostrophe | EmptyString => True end ->
  parseQuotedString (t ++ String apostrophe rest) = Some (v, rest).
Proof.
  intros H Hr. induction H as [|c v t Hb Ha _ IH|e v t _ IH|v t _ IH].
  - cbn [String.append parseQuotedString]. rewrite Ascii.eqb_refl. destruct rest as [|d rest]; [done|].
    by rewrite (proj2 (Ascii.eqb_neq d apostrophe) Hr).
  - cbn [String.append parseQuotedString].
    destruct (t ++ String apostrophe rest) as [|d r'] eqn:E; [by destruct t|].
    rewrite (proj2 (Ascii.eqb_neq c backslash) Hb), (proj2 (Ascii.eqb_neq c apostrophe) Ha). by rewrite IH.
  - cbn [String.append parseQuotedString]. rewrite Ascii.eqb_refl. by rewrite IH.
  - cbn [String.append parseQuotedString]. rewrite !Ascii.eqb_refl. cbn [Ascii.eqb]. by rewrite IH.
Qed.

(** The bare literals, as the scanner sees them. *)
Lemma bare_int z : fits 64 z -> parseBareLiteral (Itoa z) = VInt z.
Proof.
  intros Hz. unfold parseBareLiteral. rewrite ParseInt_Itoa_int64 by done.
  destruct (String.eqb_spec (Itoa z) "NULL") as [E|_]; [|done].
  pose proof (ParseInt_Itoa_int64 z Hz) as Hp. rewrite E in Hp. by vm_compute in Hp.
Qed.

Lemma digit_bare c : is_digit c = true -> bare_byte c = true.
Proof. destruct c as [[] [] [] [] [] [] [] []]; by vm_compute. Qed.

Lemma Itoa_bare z : Itoa z <> "" /\ str_forallb bare_byte (Itoa z) = true.
Proof.
  split; [apply Itoa_nonempty|].
  assert (forall n, (0 <= n)%Z -> str_forallb bare_byte (utoa 20 n "") = true) as Hu.
  { intros n Hn. eapply str_forallb_impl; [apply digit_bare|]. by rewrite utoa_digits. }
  unfold Itoa. destruct (Z.ltb_spec z 0).
  - cbn [str_forallb]. rewrite Hu by lia. done.
  - by apply Hu.
Qed.

(** One literal, up to the comma or parenthesis after it. *)
Definition ends_item (rest : string) : Prop :=
  match rest with String c _ => c = ","%char \/ c = ")"%char | EmptyString => False end.

Definition read_item (table : string) (c : ascii) (r : string) : result error (value * string) :=
  if Ascii.eqb c apostrophe then
    match parseQuotedString r with
    | Some (v, rest) => Ok (VString v, rest)
    | None => Err (UnterminatedString table)
    end
  else let '(tok, rest) := span (fun d => negb (Ascii.eqb d "," || Ascii.eqb d ")")) (String c r) in
       Ok (parseBareLiteral (TrimSpace tok), rest).

Lemma row_loop_step fuel table s row :
  row_loop (S fuel) table s row =
  match skipSpace s with
  | EmptyString => Err (EndInTuple table)
  | String c r =>
      if Ascii.eqb c ")" then Ok (row, r)
      else '(v, rest) ← read_item table c r;
           match skipSpace rest with
           | String d rest' =>
               if Ascii.eqb d "," then row_loop fuel table rest' (row ++ [v])
               else if Ascii.eqb d ")" then Ok ((row ++ [v])%list, rest')
               else row_loop fuel table (String d rest') (row ++ [v])
           | EmptyString => row_loop fuel table "" (row ++ [v])
           end
  end.
Proof. done. Qed.

Lemma bare_byte_spec c : bare_byte c = true ->
  plain_byte c = true /\ is_blank c = false /\ Ascii.eqb c "," = false /\ Ascii.eqb c ")" = false /\
  Ascii.eqb c apostrophe = false.
Proof. unfold bare_byte. rewrite !andb_true_iff, !negb_true_iff. tauto. Qed.

Lemma read_bare table tok rest :
  tok <> "" -> str_forallb bare_byte tok = true -> ends_item rest ->
  exists c r, tok ++ rest = String c r /\ is_blank c = false /\ Ascii.eqb c ")" = false /\
    read_item table c r = Ok (parseBareLiteral tok, rest).
Proof.
  intros Hne Htok Hr. destruct tok as [|c tok]; [done|]. exists c, (tok ++ rest). split; [done|].
  pose proof Htok as Hall. cbn [str_forallb] in Htok. apply andb_true_iff in Htok as [Hc Ht].
  apply bare_byte_spec in Hc as (_ & Hb & _ & Hp & Ha). split_and!; [done..|]. unfold read_item. rewrite Ha.
  assert (span (fun d => negb (Ascii.eqb d "," || Ascii.eqb d ")")) (String c tok ++ rest) = (String c tok, rest)) as Hspan.
  { apply span_app.
    - eapply str_forallb_impl; [|exact Hall]. intros d (_ & _ & -> & -> & _)%bare_byte_spec. done.
    - destruct rest as [|d rest]; [done|]. by destruct Hr as [-> | ->]. }
  cbn [String.append] in Hspan. rewrite Hspan. rewrite TrimSpace_plain; [done|].
  eapply str_forallb_impl; [|exact Hall]. by intros d (-> & _)%bare_byte_spec.
Qed.

Lemma read_literal table v t rest :
  literal_text v t -> ends_item rest ->
  exists c r, t ++ rest = String c r /\ is_blank c = false /\ Ascii.eqb c ")" = false /\
    read_item table c r = Ok (v, rest).
Proof.
  intros Hl Hr. destruct Hl as [|z Hz|v t Ht|tok Hne Htok].
  - by apply (read_bare table "NULL").
  - rewrite <- (bare_int z Hz). apply read_bare; [apply Itoa_bare|apply Itoa_bare|done].
  - exists apostrophe, (t ++ String apostrophe rest). cbn [String.append]. rewrite <- str_app_assoc.
    split_and!; [done..|]. unfold read_item. rewrite Ascii.eqb_refl.
    rewrite (parseQuotedString_text v t rest Ht); [done|]. destruct rest as [|d rest]; [done|]. by destruct Hr as [-> | ->].
  - by apply read_bare.
Qed.

Lemma row_loop_text table vs lits rest fuel row :
  Forall2 literal_text vs lits -> (length lits < fuel)%nat ->
  row_loop fuel table (Join lits "," ++ String ")" rest) row = Ok ((row ++ vs)%list, rest).
Proof.
  intros H. revert fuel row. induction H as [|v t vs lits Hv Hrest IH]; intros fuel row Hf.
  - destruct fuel as [|fuel]; [lia|]. cbn [row_loop Join String.append]. rewrite skipSpace_stop by done.
    cbn [Ascii.eqb]. by rewrite app_nil_r.
  - destruct fuel as [|fuel]; [lia|]. rewrite row_loop_step.
    set (after := match lits with [] => String ")" rest | _ => String "," (Join lits "," ++ String ")" rest) end).
    assert (Join (t :: lits) "," ++ String ")" rest = t ++ after) as ->.
    { subst after. destruct lits as [|t' lits]; [done|].
      change (Join (t :: t' :: lits) ",") with (t ++ String "," (Join (t' :: lits) ",")).
      by rewrite <- str_app_assoc. }
    destruct (read_literal table v t after Hv) as (c & r & -> & Hb & Hp & Hitem).
    { subst after. destruct lits; cbn; auto. }
    rewrite skipSpace_stop, Hp, Hitem by done. cbn [mbind result_bind].
    subst after. destruct lits as [|t' lits].
    + rewrite skipSpace_stop by done. inversion Hrest; subst. done.
    + rewrite skipSpace_stop by done. cbn [Ascii.eqb]. rewrite IH by (cbn [length] in *; lia).
      by rewrite <- app_assoc.
Qed.

Lemma length_Join_lits vs lits rest :
  Forall2 literal_text vs lits -> (length lits <= String.length (Join lits "," ++ String ")" rest))%nat.
Proof.
  induction 1 as [|v t vs lits Hv _ IH]; [cbn; lia|]. destruct lits as [|t' lits].
  - rewrite str_length_app. cbn [length String.length]. lia.
  - change (Join (t :: t' :: lits) ",") with (t ++ String "," (Join (t' :: lits) ",")).
    rewrite <- str_app_assoc, str_length_app. cbn [String.append String.length length] in *. lia.
Qed.

Lemma tuples_loop_text table rows ts fuel acc :
  Forall2 tuple_text rows ts -> rows <> [] -> (length rows < fuel)%nat ->
  tuples_loop fuel table (Join ts "," ++ ";") acc = Ok (acc ++ rows)%list.
Proof.
  intros H. revert fuel acc. induction H as [|row t rows ts Ht Hrest IH]; intros fuel acc Hne Hf; [done|].
  destruct fuel as [|fuel]; [lia|]. destruct Ht as (lits & Hlits & ->).
  set (after := match ts with [] => ";" | _ => String "," (Join ts "," ++ ";") end).
  assert (Join (("(" ++ Join lits "," ++ ")") :: ts) "," ++ ";" = String "(" (Join lits "," ++ String ")" after)) as ->.
  { subst after. destruct ts as [|t' ts].
    - cbn [Join String.append]. by rewrite <- str_app_assoc.
    - change (Join (("(" ++ Join lits "," ++ ")") :: t' :: ts) ",")
        with (("(" ++ Join lits "," ++ ")") ++ String "," (Join (t' :: ts) ",")).
      cbn [String.append]. by rewrite <- !str_app_assoc. }
  cbn [tuples_loop]. rewrite skipSpace_stop by done. cbn [Ascii.eqb negb].
  rewrite (row_loop_text _ _ _ after _ _ Hlits) by (pose proof (length_Join_lits _ _ after Hlits); lia).
  cbn [mbind result_bind app]. subst after. destruct ts as [|t' ts].
  - rewrite skipSpace_stop by done. inversion Hrest; subst. done.
  - rewrite skipSpace_stop by done. cbn [Ascii.eqb]. rewrite IH.
    + by rewrite <- app_assoc.
    + by inversion Hrest.
    + cbn [length] in *. lia.
Qed.

(** The lines of a CREATE TABLE after its first: columns, and lines of another kind. *)
Definition no_backtick (s : string) : bool := str_forallb (fun c => negb (Ascii.eqb c backtick)) s.

Inductive column_lines : list string -> list string -> Prop :=
  | cols_nil : column_lines [] []
  | cols_column col pad rest z cols ls :
      no_backtick col = true -> str_forallb (fun c => Ascii.eqb c " ") pad = true -> ends_space z = false ->
      column_lines cols ls -> column_lines (col :: cols) ((pad ++ "`" ++ col ++ "`" ++ rest ++ String z "")%string :: ls)
  | cols_other line cols ls :
      HasPrefix (TrimSpace line) ")" = false -> HasPrefix (TrimSpace line) "`" = false ->
      column_lines cols ls -> column_lines cols (line :: ls).

Inductive item :=
  | Create (name : string) (cols : list string)
  | Insert (name : string) (rows : list (list value))
  | Other (line : string).

Inductive item_text : item -> list string -> Prop :=
  | create_text name cols ls close :
      no_backtick name = true -> column_lines cols ls -> HasPrefix (TrimSpace close) ")" = true ->
      item_text (Create name cols) (("CREATE TABLE `" ++ name ++ "` (")%string :: ls ++ [close])
  | insert_text name rows ts :
      no_backtick name = true -> rows <> [] -> Forall2 tuple_text rows ts ->
      item_text (Insert name rows) ["INSERT INTO `" ++ name ++ "` VALUES " ++ Join ts "," ++ ";"]
  | other_text line :
      HasPrefix (TrimSpace line) "CREATE TABLE `" = false -> HasPrefix (TrimSpace line) "INSERT INTO `" = false ->
      item_text (Other line) [line].

Definition keep (i : item) (d : MySQLDump) : MySQLDump :=
  match i with
  | Create name cols => <[name := mkTable name cols []]> d
  | Insert name rows => alter (fun t => mkTable (Name t) (Columns t) (Rows t ++ rows)%list) name d
  | Other _ => d
  end.

Lemma Index_backtick a r : no_backtick a = true -> Index (a ++ String backtick r) "`" = Some (String.length a).
Proof. apply (Index_app a r backtick ""). Qed.

Lemma extract_text prefix name rest :
  no_backtick name = true -> extractBacktickName (prefix ++ name ++ String backtick rest) prefix = Some name.
Proof.
  intros Hn. unfold extractBacktickName. rewrite after_first_prefix, Index_backtick by done. by rewrite stake_app.
Qed.

Lemma column_run d name cols ls close acc :
  column_lines cols ls -> HasPrefix (TrimSpace close) ")" = true ->
  forall more, my_lines (ls ++ close :: more)%list (d, Creating name acc) =
    my_lines more (<[name := mkTable name (acc ++ cols)%list []]> d, Outside).
Proof.
  intros H Hclose more. revert acc. induction H as [|col pad rest z cols ls Hcol Hpad Hz _ IH|line cols ls H1 H2 _ IH]; intros acc.
  - cbn [app my_lines]. unfold my_line. rewrite Hclose. by rewrite app_nil_r.
  - cbn [app my_lines]. unfold my_line at 1. rewrite TrimSpace_spaces by done.
    assert (TrimSpace ("`" ++ col ++ "`" ++ rest ++ String z "") = "`" ++ col ++ String backtick (rest ++ String z "")) as ->.
    { apply (TrimSpace_stop _ backtick z); [done| |done|done].
      rewrite !str_app_assoc. apply last_byte_snoc. }
    change (HasPrefix ("`" ++ ?x) ")") with false. rewrite HasPrefix_app, extract_text by done.
    cbn [mbind result_bind]. rewrite IH. by rewrite <- app_assoc.
  - cbn [app my_lines]. unfold my_line at 1. rewrite H1, H2. apply IH.
Qed.

Lemma tuples_length rows ts :
  Forall2 tuple_text rows ts -> (length rows <= String.length (Join ts "," ++ ";"))%nat.
Proof.
  induction 1 as [|row t rows ts (lits & _ & ->) _ IH]; [cbn; lia|]. destruct ts as [|t' ts].
  - rewrite str_length_app. cbn [length Join String.append String.length]. destruct rows; cbn [length] in *; cbn in IH; lia.
  - change (Join (("(" ++ Join lits "," ++ ")") :: t' :: ts) ",")
      with (("(" ++ Join lits "," ++ ")") ++ String "," (Join (t' :: ts) ",")).
    rewrite <- str_app_assoc, str_length_app. cbn [String.append String.length length] in *. lia.
Qed.

Lemma tuples_loop_space fuel table s acc : tuples_loop fuel table (String " " s) acc = tuples_loop fuel table s acc.
Proof.
  destruct fuel as [|fuel]; [done|]. cbn [tuples_loop]. unfold skipSpace. cbn [span].
  by destruct (span is_blank s).
Qed.

Lemma value_run i ls d more :
  item_text i ls -> my_lines (ls ++ more)%list (d, Outside) = my_lines more (keep i d, Outside).
Proof.
  intros Hi. destruct Hi as [name cols ls close Hn Hc Hclose|name rows ts Hn Hne Hts|line H1 H2].
  - cbn [app my_lines]. unfold my_line at 1.
    assert (TrimSpace ("CREATE TABLE `" ++ name ++ "` (") = "CREATE TABLE `" ++ name ++ String backtick " (") as ->.
    { apply (TrimSpace_stop _ "C" "("); [done| |done|done].
      change ("` (") with ("` " ++ String "(" ""). rewrite !str_app_assoc. apply last_byte_snoc. }
    rewrite HasPrefix_app, extract_text by done. cbn [mbind result_bind].
    rewrite <- app_assoc. cbn [app]. by rewrite (column_run _ _ cols ls close []).
  - cbn [app my_lines]. unfold my_line at 1. set (j := Join ts ",") in *.
    assert (TrimSpace ("INSERT INTO `" ++ name ++ "` VALUES " ++ j ++ ";") =
            "INSERT INTO `" ++ name ++ String backtick (" VALUES " ++ j ++ ";")) as ->.
    { apply (TrimSpace_stop _ "I" ";"); [done| |done|done].
      rewrite !str_app_assoc. apply last_byte_snoc. }
    change (HasPrefix ("INSERT INTO `" ++ ?x) "CREATE TABLE `") with false. rewrite HasPrefix_app.
    unfold parseInsertHeader. rewrite strip_prefix_app, Index_backtick by done.
    assert (sdrop (String.length name + 1) (name ++ String backtick (" VALUES " ++ j ++ ";")) = " VALUES " ++ j ++ ";") as ->.
    { rewrite sdrop_plus, sdrop_app. done. }
    assert (after_first (" VALUES " ++ j ++ ";") "VALUES" = Some (" " ++ j ++ ";")) as ->.
    { unfold after_first. pose proof (Index_app " " (" " ++ j ++ ";") "V" "ALUES" eq_refl) as E.
      change (Index (" VALUES " ++ j ++ ";") "VALUES" = Some 1%nat) in E. by rewrite E. }
    rewrite stake_app.
    assert (parseValuesTuples name (" " ++ j ++ ";") = Ok rows) as ->; [|done].
    unfold parseValuesTuples. cbn [String.append String.length].
    rewrite tuples_loop_space, (tuples_loop_text _ rows ts) by (done || pose proof (tuples_length _ _ Hts) as Hl; fold j in Hl; lia). done.
  - cbn [app my_lines]. unfold my_line at 1. by rewrite H1, H2.
Qed.

(** Whatever way mysqldump writes its strings, and whatever it has between its
    statements, reading a dump gives each table its columns in the declared order and, in
    the order of the inserts, the rows with their NULLs, integers and strings. *)
Theorem mysql_roundtrip items ls :
  Forall2 item_text items ls ->
  Forall (fun l => str_forallb (fun c => negb (Ascii.eqb c newline)) l = true) (concat ls) ->
  ParseMySQLDump (mkReader (unlines_nl (concat ls)) false) = Ok (foldl (fun d i => keep i d) ∅ items).
Proof.
  intros Hi Hclean. unfold ParseMySQLDump, lines. cbn [content broken].
  assert (split_at newline (unlines_nl (concat ls)) = (concat ls ++ [""])%list) as ->.
  { induction Hclean as [|l l' Hl _ IH]; [done|]. cbn [unlines_nl]. rewrite split_at_app by done. by rewrite IH. }
  assert (forall d, my_lines (concat ls ++ [""])%list (d, Outside) = Ok (foldl (fun d i => keep i d) d items, Outside)) as ->.
  { clear Hclean. induction Hi as [|i l items ls Hi _ IH]; intros d; [done|].
    cbn [concat foldl]. rewrite <- app_assoc, (value_run _ _ _ _ Hi). apply IH. }
  done.
Qed.

Definition demo_items : list item :=
  [Other "-- MySQL dump 10.13"; Create "admins" ["id"; "username"];
   Insert "admins" [[VInt 1; VString ("a'b" ++ String newline "c")]; [VInt (-2); VNull]]].

Definition demo_lines : list (list string) :=
  [["-- MySQL dump 10.13"];
   ["CREATE TABLE `admins` ("; "  `id` int NOT NULL,"; "  `username` varchar(34) DEFAULT NULL,";
    "  PRIMARY KEY (`id`)"; ") ENGINE=InnoDB;"];
   ["INSERT INTO `admins` VALUES (1,'a''b\nc'),(-2,NULL);"]].

Lemma mysql_demo_text : Forall2 item_text demo_items demo_lines.
Proof.
  repeat constructor; try done.
  - apply (create_text "admins" ["id"; "username"]
      ["  `id` int NOT NULL,"; "  `username` varchar(34) DEFAULT NULL,"; "  PRIMARY KEY (`id`)"] ") ENGINE=InnoDB;"); [done| |done].
    apply (cols_column "id" "  " " int NOT NULL" ","); [done..|].
    apply (cols_column "username" "  " " varchar(34) DEFAULT NULL" ","); [done..|].
    apply cols_other; [done..|]. constructor.
  - apply (insert_text "admins" _ ["(1,'a''b\nc')"; "(-2,NULL)"]); [done..|]. constructor; [|constructor; [|constructor]].
    + exists ["1"; "'a''b\nc'"]. split; [|done]. constructor; [by apply (lit_int 1)|constructor; [|constructor]].
      apply (lit_string _ "a''b\nc"). apply str_raw; [done..|]. apply str_doubled. apply str_raw; [done..|].
      apply (str_escape "n"). apply str_raw; [done..|]. constructor.
    + exists ["-2"; "NULL"]. split; [|done]. constructor; [by apply (lit_int (-2))|constructor; [|constructor]]. constructor.
Qed.

Lemma mysql_roundtrip_witness :
  ParseMySQLDump (mkReader (unlines_nl (concat demo_lines)) false) = Ok (foldl (fun d i => keep i d) ∅ demo_items).
Proof.
  assert (Forall (fun l => str_forallb (fun c => negb (Ascii.eqb c newline)) l = true) (concat demo_lines)) as H2
    by (repeat constructor).
  exact (mysql_roundtrip demo_items demo_lines mysql_demo_text H2).
Defined.
End MySQLDump.
