(* ===== verification/Effect.v ===== *)
(** * Effect: handlers over a state with calls that can fail

    A computation over a state [S] with errors of type [E], for the components whose
    state is not the user database of [Store]. An error keeps the state it was met in,
    as an early return does: what was written before stays written. *)

From S2P Require Import Prelude.

Definition eff (S E A : Type) : Type := S -> S * result E A.

#[export] Instance eff_ret {S E} : MRet (eff S E) := fun A a s => (s, Ok a).
#[export] Instance eff_bind {S E} : MBind (eff S E) := fun A B f m s =>
  match m s with
  | (s, Ok a) => f a s
  | (s, Err e) => (s, Err e)
  end.

Section eff.
Context {S : Type}.

Definition throw {E A} (e : E) : eff S E A := fun s => (s, Err e).

(** [if err != nil { return f(err) }] *)
Definition catch {E E' A} (m : eff S E A) (f : E -> E') : eff S E' A := fun s =>
  match m s with
  | (s, Ok a) => (s, Ok a)
  | (s, Err e) => (s, Err (f e))
  end.

(** A result computed without the state. *)
Definition lift {E A} (r : result E A) : eff S E A := fun s => (s, r).

(** ** Triples: from a state in [P], [m] returns a value in [Q] or fails in [R] *)

Definition triple {E A} (P : S -> Prop) (m : eff S E A) (Q : A -> S -> Prop) (R : S -> Prop) : Prop :=
  forall s, P s -> match m s with
                   | (s', Ok a) => Q a s'
                   | (s', Err _) => R s'
                   end.

Lemma triple_ret {E A} P R (a : A) (Q : A -> S -> Prop) : (forall s, P s -> Q a s) -> triple P (mret a : eff S E A) Q R.
Proof. intros H s Hs. by apply H. Qed.

Lemma triple_throw {E A} P (e : E) (Q : A -> S -> Prop) R : (forall s, P s -> R s) -> triple P (throw e) Q R.
Proof. intros H s Hs. by apply H. Qed.

Lemma triple_lift {E A} P (r : result E A) (Q : A -> S -> Prop) R :
  (forall s a, P s -> r = Ok a -> Q a s) -> (forall s, P s -> R s) -> triple P (lift r) Q R.
Proof. intros HQ HR s Hs. unfold lift. destruct r; auto. Qed.

Lemma triple_bind {E A B} P (m : eff S E A) (f : A -> eff S E B) Q Q' R :
  triple P m Q R -> (forall a, triple (Q a) (f a) Q' R) -> triple P (m ≫= f) Q' R.
Proof.
  intros Hm Hf s Hs. specialize (Hm s Hs). unfold mbind, eff_bind.
  destruct (m s) as [s' [a|e]]; [|done]. by apply Hf.
Qed.

Lemma triple_catch {E E' A} P (m : eff S E A) (f : E -> E') Q R : triple P m Q R -> triple P (catch m f) Q R.
Proof. intros H s Hs. specialize (H s Hs). unfold catch. by destruct (m s) as [s' []]. Qed.

Lemma triple_conseq {E A} P P' (m : eff S E A) (Q Q' : A -> S -> Prop) (R R' : S -> Prop) :
  triple P' m Q' R' -> (forall s, P s -> P' s) -> (forall a s, Q' a s -> Q a s) -> (forall s, R' s -> R s) ->
  triple P m Q R.
Proof.
  intros H HP HQ HR s Hs. specialize (H s (HP s Hs)). destruct (m s) as [s' []]; auto.
Qed.

(** What holds whether or not [m] succeeds. *)
Lemma triple_state {E A} P (m : eff S E A) R : triple P m (fun _ => R) R -> forall s, P s -> R (m s).1.
Proof. intros H s Hs. specialize (H s Hs). by destruct (m s) as [s' []]. Qed.

Lemma eff_bind_ok {E A B} (m : eff S E A) (f : A -> eff S E B) s s' b :
  (m ≫= f) s = (s', Ok b) <-> exists s1 a, m s = (s1, Ok a) /\ f a s1 = (s', Ok b).
Proof.
  unfold mbind, eff_bind. destruct (m s) as [s1 [a|e]]; split.
  - eauto.
  - by intros (? & ? & [= <- <-] & ?).
  - done.
  - by intros (? & ? & ? & ?).
Qed.

Lemma catch_ok {E E' A} (m : eff S E A) (f : E -> E') s s' a : catch m f s = (s', Ok a) <-> m s = (s', Ok a).
Proof. unfold catch. destruct (m s) as [? []]; naive_solver. Qed.
End eff.
