(* ===== verification/CoreDto.v ===== *)
(** * CoreDto: the documents of the core configuration — [internal/httpapi/coreconfig.go]

    The structs that the panel stores as JSON and sends to nodes: outbounds, routing
    rules, DNS servers, and the overrides of one node ([nodeprofile.go]). Each is a
    record with its [Codec]: the members in the order and with the [omitempty] of the
    struct tags. They are decoded here as [DisallowUnknownFields] makes the decoder do
    it, the way [parseCoreOverrides] asks for. [CodecLaws] says that what is written is
    read back. *)

From S2P Require Import Prelude GoStrings GoJson.

#[local] Open Scope string_scope.

Record outboundDTO := mkOutbound {
  ob_Tag : string; ob_Type : string; ob_Server : string; ob_ServerPort : Z; ob_Username : string;
  ob_Password : string; ob_Outbounds : list string; ob_UUID : string; ob_Flow : string;
  ob_Method : string; ob_Security : string; ob_CongestionControl : string; ob_Version : Z;
  ob_PSK : string; ob_ObfsMode : string; ob_ObfsHost : string; ob_Obfs : string; ob_UpMbps : Z;
  ob_DownMbps : Z; ob_ExecutablePath : string; ob_DataDirectory : string; ob_TLSEnabled : bool;
  ob_TLSServerName : string; ob_TLSInsecure : bool; ob_BindInterface : string;
  ob_DirectFallback : bool
}.

Definition outboundDTO_names : list string :=
  ["tag"; "type"; "server"; "server_port"; "username"; "password"; "outbounds"; "uuid"; "flow";
    "method"; "security"; "congestion_control"; "version"; "psk"; "obfs_mode"; "obfs_host"; "obfs";
    "up_mbps"; "down_mbps"; "executable_path"; "data_directory"; "tls_enabled"; "tls_server_name";
    "tls_insecure"; "bind_interface"; "direct_fallback"].

Definition outboundDTO_zero : outboundDTO := mkOutbound zero zero zero zero zero zero zero zero
    zero zero zero zero zero zero zero zero zero zero zero zero zero zero zero zero zero zero.

#[export] Instance outboundDTO_codec : Codec outboundDTO := {|
  to_json x := JObject (
    emit "tag" (ob_Tag x) ++ emit "type" (ob_Type x) ++ omitempty "server" (ob_Server x) ++
    omitempty "server_port" (ob_ServerPort x) ++ omitempty "username" (ob_Username x) ++
    omitempty "password" (ob_Password x) ++ omitempty "outbounds" (ob_Outbounds x) ++
    omitempty "uuid" (ob_UUID x) ++ omitempty "flow" (ob_Flow x) ++
    omitempty "method" (ob_Method x) ++ omitempty "security" (ob_Security x) ++
    omitempty "congestion_control" (ob_CongestionControl x) ++
    omitempty "version" (ob_Version x) ++ omitempty "psk" (ob_PSK x) ++
    omitempty "obfs_mode" (ob_ObfsMode x) ++ omitempty "obfs_host" (ob_ObfsHost x) ++
    omitempty "obfs" (ob_Obfs x) ++ omitempty "up_mbps" (ob_UpMbps x) ++
    omitempty "down_mbps" (ob_DownMbps x) ++ omitempty "executable_path" (ob_ExecutablePath x) ++
    omitempty "data_directory" (ob_DataDirectory x) ++ omitempty "tls_enabled" (ob_TLSEnabled x) ++
    omitempty "tls_server_name" (ob_TLSServerName x) ++
    omitempty "tls_insecure" (ob_TLSInsecure x) ++
    omitempty "bind_interface" (ob_BindInterface x) ++
    omitempty "direct_fallback" (ob_DirectFallback x) ++ [])%list;
  of_json j old :=
    match j with
    | JNull => Some old
    | JObject ms =>
        if known_fields outboundDTO_names ms then
          tag_ ← get_from "tag" (Some (ob_Tag old)) ms;
          type_ ← get_from "type" (Some (ob_Type old)) ms;
          server_ ← get_from "server" (Some (ob_Server old)) ms;
          server_port_ ← get_from "server_port" (Some (ob_ServerPort old)) ms;
          username_ ← get_from "username" (Some (ob_Username old)) ms;
          password_ ← get_from "password" (Some (ob_Password old)) ms;
          outbounds_ ← get_from "outbounds" (Some (ob_Outbounds old)) ms;
          uuid_ ← get_from "uuid" (Some (ob_UUID old)) ms;
          flow_ ← get_from "flow" (Some (ob_Flow old)) ms;
          method_ ← get_from "method" (Some (ob_Method old)) ms;
          security_ ← get_from "security" (Some (ob_Security old)) ms;
          congestion_control_ ← get_from "congestion_control" (Some (ob_CongestionControl old)) ms;
          version_ ← get_from "version" (Some (ob_Version old)) ms;
          psk_ ← get_from "psk" (Some (ob_PSK old)) ms;
          obfs_mode_ ← get_from "obfs_mode" (Some (ob_ObfsMode old)) ms;
          obfs_host_ ← get_from "obfs_host" (Some (ob_ObfsHost old)) ms;
          obfs_ ← get_from "obfs" (Some (ob_Obfs old)) ms;
          up_mbps_ ← get_from "up_mbps" (Some (ob_UpMbps old)) ms;
          down_mbps_ ← get_from "down_mbps" (Some (ob_DownMbps old)) ms;
          executable_path_ ← get_from "executable_path" (Some (ob_ExecutablePath old)) ms;
          data_directory_ ← get_from "data_directory" (Some (ob_DataDirectory old)) ms;
          tls_enabled_ ← get_from "tls_enabled" (Some (ob_TLSEnabled old)) ms;
          tls_server_name_ ← get_from "tls_server_name" (Some (ob_TLSServerName old)) ms;
          tls_insecure_ ← get_from "tls_insecure" (Some (ob_TLSInsecure old)) ms;
          bind_interface_ ← get_from "bind_interface" (Some (ob_BindInterface old)) ms;
          direct_fallback_ ← get_from "direct_fallback" (Some (ob_DirectFallback old)) ms;
          Some (mkOutbound tag_ type_ server_ server_port_ username_ password_ outbounds_ uuid_
    flow_ method_ security_ congestion_control_ version_ psk_ obfs_mode_ obfs_host_ obfs_ up_mbps_
    down_mbps_ executable_path_ data_directory_ tls_enabled_ tls_server_name_ tls_insecure_
    bind_interface_ direct_fallback_)
        else None
    | _ => None
    end;
  zero := outboundDTO_zero;
  empty _ := false;
|}.

Record routingRuleDTO := mkRule {
  ru_Inbound : list string; ru_InboundPort : list Z; ru_Domain : list string;
  ru_DomainSuffix : list string; ru_DomainKeyword : list string; ru_IPCIDR : list string;
  ru_IPIsPrivate : bool; ru_Port : list Z; ru_PortRange : list string; ru_Network : list string;
  ru_Protocol : list string; ru_OutboundTag : string
}.

Definition routingRuleDTO_names : list string :=
  ["inbound"; "inbound_port"; "domain"; "domain_suffix"; "domain_keyword"; "ip_cidr";
    "ip_is_private"; "port"; "port_range"; "network"; "protocol"; "outbound_tag"].

Definition routingRuleDTO_zero : routingRuleDTO := mkRule zero zero zero zero zero zero zero zero
    zero zero zero zero.

#[export] Instance routingRuleDTO_codec : Codec routingRuleDTO := {|
  to_json x := JObject (
    omitempty "inbound" (ru_Inbound x) ++ omitempty "inbound_port" (ru_InboundPort x) ++
    omitempty "domain" (ru_Domain x) ++ omitempty "domain_suffix" (ru_DomainSuffix x) ++
    omitempty "domain_keyword" (ru_DomainKeyword x) ++ omitempty "ip_cidr" (ru_IPCIDR x) ++
    omitempty "ip_is_private" (ru_IPIsPrivate x) ++ omitempty "port" (ru_Port x) ++
    omitempty "port_range" (ru_PortRange x) ++ omitempty "network" (ru_Network x) ++
    omitempty "protocol" (ru_Protocol x) ++ emit "outbound_tag" (ru_OutboundTag x) ++ [])%list;
  of_json j old :=
    match j with
    | JNull => Some old
    | JObject ms =>
        if known_fields routingRuleDTO_names ms then
          inbound_ ← get_from "inbound" (Some (ru_Inbound old)) ms;
          inbound_port_ ← get_from "inbound_port" (Some (ru_InboundPort old)) ms;
          domain_ ← get_from "domain" (Some (ru_Domain old)) ms;
          domain_suffix_ ← get_from "domain_suffix" (Some (ru_DomainSuffix old)) ms;
          domain_keyword_ ← get_from "domain_keyword" (Some (ru_DomainKeyword old)) ms;
          ip_cidr_ ← get_from "ip_cidr" (Some (ru_IPCIDR old)) ms;
          ip_is_private_ ← get_from "ip_is_private" (Some (ru_IPIsPrivate old)) ms;
          port_ ← get_from "port" (Some (ru_Port old)) ms;
          port_range_ ← get_from "port_range" (Some (ru_PortRange old)) ms;
          network_ ← get_from "network" (Some (ru_Network old)) ms;
          protocol_ ← get_from "protocol" (Some (ru_Protocol old)) ms;
          outbound_tag_ ← get_from "outbound_tag" (Some (ru_OutboundTag old)) ms;
          Some (mkRule inbound_ inbound_port_ domain_ domain_suffix_ domain_keyword_ ip_cidr_
    ip_is_private_ port_ port_range_ network_ protocol_ outbound_tag_)
        else None
    | _ => None
    end;
  zero := routingRuleDTO_zero;
  empty _ := false;
|}.

Record dnsServerDTO := mkDns {
  dns_Tag : string; dns_Type : string; dns_Address : string; dns_Port : Z; dns_Path : string
}.

Definition dnsServerDTO_names : list string :=
  ["tag"; "type"; "address"; "port"; "path"].

Definition dnsServerDTO_zero : dnsServerDTO := mkDns zero zero zero zero zero.

#[export] Instance dnsServerDTO_codec : Codec dnsServerDTO := {|
  to_json x := JObject (
    emit "tag" (dns_Tag x) ++ emit "type" (dns_Type x) ++ omitempty "address" (dns_Address x) ++
    omitempty "port" (dns_Port x) ++ omitempty "path" (dns_Path x) ++ [])%list;
  of_json j old :=
    match j with
    | JNull => Some old
    | JObject ms =>
        if known_fields dnsServerDTO_names ms then
          tag_ ← get_from "tag" (Some (dns_Tag old)) ms;
          type_ ← get_from "type" (Some (dns_Type old)) ms;
          address_ ← get_from "address" (Some (dns_Address old)) ms;
          port_ ← get_from "port" (Some (dns_Port old)) ms;
          path_ ← get_from "path" (Some (dns_Path old)) ms;
          Some (mkDns tag_ type_ address_ port_ path_)
        else None
    | _ => None
    end;
  zero := dnsServerDTO_zero;
  empty _ := false;
|}.

Record coreOverridesDTO := mkOverrides {
  co_LogLevel : option string; co_SniffEnabled : option bool;
  co_DNSServers : option (list dnsServerDTO); co_Outbounds : list outboundDTO;
  co_RoutingRulesFirst : list routingRuleDTO
}.

Definition coreOverridesDTO_names : list string :=
  ["log_level"; "sniff_enabled"; "dns_servers"; "outbounds"; "routing_rules_first"].

Definition coreOverridesDTO_zero : coreOverridesDTO := mkOverrides zero zero zero zero zero.

#[export] Instance coreOverridesDTO_codec : Codec coreOverridesDTO := {|
  to_json x := JObject (
    omitempty "log_level" (co_LogLevel x) ++ omitempty "sniff_enabled" (co_SniffEnabled x) ++
    omitempty "dns_servers" (co_DNSServers x) ++ omitempty "outbounds" (co_Outbounds x) ++
    omitempty "routing_rules_first" (co_RoutingRulesFirst x) ++ [])%list;
  of_json j old :=
    match j with
    | JNull => Some old
    | JObject ms =>
        if known_fields coreOverridesDTO_names ms then
          log_level_ ← get_from "log_level" (Some (co_LogLevel old)) ms;
          sniff_enabled_ ← get_from "sniff_enabled" (Some (co_SniffEnabled old)) ms;
          dns_servers_ ← get_from "dns_servers" (Some (co_DNSServers old)) ms;
          outbounds_ ← get_from "outbounds" (Some (co_Outbounds old)) ms;
          routing_rules_first_ ← get_from "routing_rules_first" (Some (co_RoutingRulesFirst old)) ms;
          Some (mkOverrides log_level_ sniff_enabled_ dns_servers_ outbounds_ routing_rules_first_)
        else None
    | _ => None
    end;
  zero := coreOverridesDTO_zero;
  empty _ := false;
|}.

(** ** What is written is read back

    The fields of a struct, one after the other: a field reads its own member and skips
    the others. *)

Lemma get_done {A} `{CodecLaws A} name (x : A) : get_from name (Some x) [] = Some x.
Proof. done. Qed.

Lemma get_next_omit {A} `{CodecLaws A} {B} `{Codec B} name n (y : B) acc (x : A) rest :
  String.eqb (FoldKey n) name = false -> get_from name acc rest = Some x ->
  get_from name acc (omitempty n y ++ rest) = Some x.
Proof. intros Hn <-. by apply get_skip. Qed.

Lemma get_next_emit {A} `{CodecLaws A} {B} `{Codec B} name n (y : B) acc (x : A) rest :
  String.eqb (FoldKey n) name = false -> get_from name acc rest = Some x ->
  get_from name acc (emit n y ++ rest) = Some x.
Proof. intros Hn <-. by apply get_skip. Qed.

Lemma get_here_omit {A} `{CodecLaws A} name (x : A) rest :
  codec_ok x -> String.eqb (FoldKey name) name = true -> get_from name (Some x) rest = Some x ->
  get_from name (Some zero) (omitempty name x ++ rest) = Some x.
Proof. intros Hx Hn <-. by apply get_hit. Qed.

Lemma get_here_emit {A} `{CodecLaws A} name (x : A) rest :
  codec_ok x -> String.eqb (FoldKey name) name = true -> get_from name (Some x) rest = Some x ->
  get_from name (Some zero) (emit name x ++ rest) = Some x.
Proof. intros Hx Hn <-. by apply get_hit. Qed.

Ltac read_field :=
  match goal with
  | |- get_from ?n _ [] = _ => reflexivity
  | |- get_from ?n _ (omitempty ?n _ ++ _) = _ => apply get_here_omit;
    [assumption|reflexivity|read_field]
  | |- get_from ?n _ (emit ?n _ ++ _) = _ => apply get_here_emit; [assumption|reflexivity|read_field]
  | |- get_from _ _ (omitempty _ _ ++ _) = _ => apply get_next_omit; [reflexivity|read_field]
  | |- get_from _ _ (emit _ _ ++ _) = _ => apply get_next_emit; [reflexivity|read_field]
  end.

Lemma bind_some {A B} (o : option A) (f : A -> option B) x r : o = Some x -> f x = r -> o ≫= f = r.
Proof. by intros -> <-. Qed.

Ltac read_fields :=
  repeat match goal with
  | |- (get_from _ _ _ ≫= _) = _ => eapply bind_some; [read_field|]
  end.

Ltac known_members :=
  repeat (apply known_skip; [reflexivity|]); reflexivity.

Ltac decide_known :=
  match goal with
  | |- context [known_fields ?names ?ms] => assert (known_fields names ms = true) as -> by known_members
  end.

Ltac wf_members :=
  repeat (apply emit_wf; [reflexivity|assumption|]); reflexivity.

Ltac decoded_fields :=
  repeat match goal with
  | |- (get_from ?n (Some ?y) ?ms ≫= _) = Some _ -> _ =>
      let E := fresh "E" in destruct (get_from n (Some y) ms) eqn:E; cbn [mbind option_bind]; [|done];
      apply get_from_ok in E; [|assumption|assumption]
  end;
  intros [= <-]; split_and!; assumption.

#[export] Instance dnsServerDTO_laws : CodecLaws dnsServerDTO.
Proof.
  refine {| codec_ok x :=
    codec_ok (dns_Tag x) /\ codec_ok (dns_Type x) /\ codec_ok (dns_Address x) /\
    codec_ok (dns_Port x) /\ codec_ok (dns_Path x) |}.
  - split_and!; apply codec_zero.
  - done.
  - destruct x. cbn [dns_Tag dns_Type dns_Address dns_Port dns_Path]. intros Hx. destruct_and? Hx.
    wf_members.
  - destruct x. cbn [dns_Tag dns_Type dns_Address dns_Port dns_Path]. intros Hx. destruct_and? Hx.
    cbn [to_json of_json dnsServerDTO_codec]. change (@zero dnsServerDTO _) with dnsServerDTO_zero.
    unfold dnsServerDTO_zero. cbn [dns_Tag dns_Type dns_Address dns_Port dns_Path].
    decide_known. read_fields. reflexivity.
  - intros j old x Hj Hold. destruct_and? Hold. destruct j; cbn [of_json dnsServerDTO_codec]; try
    done; [by intros [= <-]|].
    destruct (known_fields _ _); [|done]. decoded_fields.
Qed.

#[export] Instance outboundDTO_laws : CodecLaws outboundDTO.
Proof.
  refine {| codec_ok x :=
    codec_ok (ob_Tag x) /\ codec_ok (ob_Type x) /\ codec_ok (ob_Server x) /\
    codec_ok (ob_ServerPort x) /\ codec_ok (ob_Username x) /\ codec_ok (ob_Password x) /\
    codec_ok (ob_Outbounds x) /\ codec_ok (ob_UUID x) /\ codec_ok (ob_Flow x) /\
    codec_ok (ob_Method x) /\ codec_ok (ob_Security x) /\ codec_ok (ob_CongestionControl x) /\
    codec_ok (ob_Version x) /\ codec_ok (ob_PSK x) /\ codec_ok (ob_ObfsMode x) /\
    codec_ok (ob_ObfsHost x) /\ codec_ok (ob_Obfs x) /\ codec_ok (ob_UpMbps x) /\
    codec_ok (ob_DownMbps x) /\ codec_ok (ob_ExecutablePath x) /\ codec_ok (ob_DataDirectory x) /\
    codec_ok (ob_TLSEnabled x) /\ codec_ok (ob_TLSServerName x) /\ codec_ok (ob_TLSInsecure x) /\
    codec_ok (ob_BindInterface x) /\ codec_ok (ob_DirectFallback x) |}.
  - split_and!; apply codec_zero.
  - done.
  - destruct x. cbn [ob_Tag ob_Type ob_Server ob_ServerPort ob_Username ob_Password ob_Outbounds
    ob_UUID ob_Flow ob_Method ob_Security ob_CongestionControl ob_Version ob_PSK ob_ObfsMode
    ob_ObfsHost ob_Obfs ob_UpMbps ob_DownMbps ob_ExecutablePath ob_DataDirectory ob_TLSEnabled
    ob_TLSServerName ob_TLSInsecure ob_BindInterface ob_DirectFallback]. intros Hx. destruct_and?
    Hx. wf_members.
  - destruct x. cbn [ob_Tag ob_Type ob_Server ob_ServerPort ob_Username ob_Password ob_Outbounds
    ob_UUID ob_Flow ob_Method ob_Security ob_CongestionControl ob_Version ob_PSK ob_ObfsMode
    ob_ObfsHost ob_Obfs ob_UpMbps ob_DownMbps ob_ExecutablePath ob_DataDirectory ob_TLSEnabled
    ob_TLSServerName ob_TLSInsecure ob_BindInterface ob_DirectFallback]. intros Hx. destruct_and? Hx.
    cbn [to_json of_json outboundDTO_codec]. change (@zero outboundDTO _) with outboundDTO_zero.
    unfold outboundDTO_zero. cbn [ob_Tag ob_Type ob_Server ob_ServerPort ob_Username ob_Password
    ob_Outbounds ob_UUID ob_Flow ob_Method ob_Security ob_CongestionControl ob_Version ob_PSK
    ob_ObfsMode ob_ObfsHost ob_Obfs ob_UpMbps ob_DownMbps ob_ExecutablePath ob_DataDirectory
    ob_TLSEnabled ob_TLSServerName ob_TLSInsecure ob_BindInterface ob_DirectFallback].
    decide_known. read_fields. reflexivity.
  - intros j old x Hj Hold. destruct_and? Hold. destruct j; cbn [of_json outboundDTO_codec]; try
    done; [by intros [= <-]|].
    destruct (known_fields _ _); [|done]. decoded_fields.
Qed.

#[export] Instance routingRuleDTO_laws : CodecLaws routingRuleDTO.
Proof.
  refine {| codec_ok x :=
    codec_ok (ru_Inbound x) /\ codec_ok (ru_InboundPort x) /\ codec_ok (ru_Domain x) /\
    codec_ok (ru_DomainSuffix x) /\ codec_ok (ru_DomainKeyword x) /\ codec_ok (ru_IPCIDR x) /\
    codec_ok (ru_IPIsPrivate x) /\ codec_ok (ru_Port x) /\ codec_ok (ru_PortRange x) /\
    codec_ok (ru_Network x) /\ codec_ok (ru_Protocol x) /\ codec_ok (ru_OutboundTag x) |}.
  - split_and!; apply codec_zero.
  - done.
  - destruct x. cbn [ru_Inbound ru_InboundPort ru_Domain ru_DomainSuffix ru_DomainKeyword ru_IPCIDR
    ru_IPIsPrivate ru_Port ru_PortRange ru_Network ru_Protocol ru_OutboundTag]. intros Hx.
    destruct_and? Hx. wf_members.
  - destruct x. cbn [ru_Inbound ru_InboundPort ru_Domain ru_DomainSuffix ru_DomainKeyword ru_IPCIDR
    ru_IPIsPrivate ru_Port ru_PortRange ru_Network ru_Protocol ru_OutboundTag]. intros Hx.
    destruct_and? Hx.
    cbn [to_json of_json routingRuleDTO_codec]. change (@zero routingRuleDTO _) with
    routingRuleDTO_zero. unfold routingRuleDTO_zero. cbn [ru_Inbound ru_InboundPort ru_Domain
    ru_DomainSuffix ru_DomainKeyword ru_IPCIDR ru_IPIsPrivate ru_Port ru_PortRange ru_Network
    ru_Protocol ru_OutboundTag].
    decide_known. read_fields. reflexivity.
  - intros j old x Hj Hold. destruct_and? Hold. destruct j; cbn [of_json routingRuleDTO_codec]; try
    done; [by intros [= <-]|].
    destruct (known_fields _ _); [|done]. decoded_fields.
Qed.

#[export] Instance coreOverridesDTO_laws : CodecLaws coreOverridesDTO.
Proof.
  refine {| codec_ok x :=
    codec_ok (co_LogLevel x) /\ codec_ok (co_SniffEnabled x) /\ codec_ok (co_DNSServers x) /\
    codec_ok (co_Outbounds x) /\ codec_ok (co_RoutingRulesFirst x) |}.
  - split_and!; apply codec_zero.
  - done.
  - destruct x. cbn [co_LogLevel co_SniffEnabled co_DNSServers co_Outbounds co_RoutingRulesFirst].
    intros Hx. destruct_and? Hx. wf_members.
  - destruct x. cbn [co_LogLevel co_SniffEnabled co_DNSServers co_Outbounds co_RoutingRulesFirst].
    intros Hx. destruct_and? Hx.
    cbn [to_json of_json coreOverridesDTO_codec]. change (@zero coreOverridesDTO _) with
    coreOverridesDTO_zero. unfold coreOverridesDTO_zero. cbn [co_LogLevel co_SniffEnabled
    co_DNSServers co_Outbounds co_RoutingRulesFirst].
    decide_known. read_fields. reflexivity.
  - intros j old x Hj Hold. destruct_and? Hold. destruct j; cbn [of_json coreOverridesDTO_codec];
    try done; [by intros [= <-]|].
    destruct (known_fields _ _); [|done]. decoded_fields.
Qed.

