(* ===== verification/CoreConfig.v ===== *)
(** * CoreConfig: the core configuration and the nodes' own overrides

    Module [Rules] is what [coreconfig.go] and [nodeprofile.go] compute: the validation
    of a core configuration, the overrides of one node, how they are parsed and applied,
    and their validation against the fleet's configuration. Module [Admin] is the
    handlers that write them: [applyCoreConfig], [resolveNodeProfile] and the node
    endpoints of [node.go], over the tables [core_config], [nodes] and the inbound tags.
    Its main invariant: whatever is saved, in any order, the configuration each node is
    given passes the validation. *)

From stdpp Require Import sorting.
From S2P Require Import Prelude GoStrings GoJson Effect CoreDto.

#[local] Open Scope string_scope.
#[local] Open Scope Z_scope.

Module Rules.

(** ** [coreconfig.go] *)

Definition implicitOutboundTags : list string := ["direct"; "block"].
Definition validOutboundTypes : list string :=
  ["direct"; "block"; "socks"; "http"; "shadowsocks"; "vmess"; "trojan"; "vless"; "hysteria2"; "tuic";
   "selector"; "urltest"; "anytls"; "hysteria"; "shadowtls"; "snell"; "ssh"; "tor"].
Definition validDNSTypes : list string := ["local"; "udp"; "tcp"; "tls"; "https"].
Definition validLogLevels : list string := ["trace"; "debug"; "info"; "warn"; "error"; "fatal"; "panic"].
Definition validNetworks : list string := ["tcp"; "udp"; "icmp"].
Definition validProtocols : list string :=
  ["tls"; "http"; "quic"; "dns"; "stun"; "bittorrent"; "dtls"; "ssh"; "rdp"; "ntp"].
Definition validShadowsocksMethods : list string :=
  ["none"; "aes-128-gcm"; "aes-192-gcm"; "aes-256-gcm"; "chacha20-ietf-poly1305"; "xchacha20-ietf-poly1305";
   "2022-blake3-aes-128-gcm"; "2022-blake3-aes-256-gcm"; "2022-blake3-chacha20-poly1305"].
Definition validVMessSecurity : list string := ["auto"; "none"; "zero"; "aes-128-gcm"; "chacha20-poly1305"].
Definition validCongestionControl : list string := ["cubic"; "new_reno"; "bbr"].
Definition validSnellObfsModes : list string := ["none"; "http"; "tls"].

(** [coreConfigDTO]; a slice is [None] when it is nil. [UpdatedAt] in microseconds. *)
Record coreConfigDTO := mkCore {
  LogLevel : string; SniffEnabled : bool; Outbounds : option (list outboundDTO);
  RoutingRules : option (list routingRuleDTO); DNSServers : option (list dnsServerDTO);
  UpdatedAt : option Z
}.

Definition elems {A} (s : option (list A)) : list A := default [] s.

(** A check that fails with its message. *)
Definition ensure (b : bool) (msg : string) : result string unit := if b then Ok tt else Err msg.

Fixpoint each {A} (f : A -> result string unit) (l : list A) : result string unit :=
  match l with [] => Ok tt | x :: l => _ ← f x; each f l end.

Definition blank (s : string) : bool := String.eqb s "".

(** What an outbound's type asks for. *)
Definition needsServer (type : string) : bool :=
  str_mem type ["socks"; "http"; "shadowsocks"; "vmess"; "trojan"; "vless"; "hysteria2"; "tuic"; "anytls";
                "hysteria"; "shadowtls"; "snell"; "ssh"].

Definition is_group (type : string) : bool := str_mem type ["selector"; "urltest"].

Definition check_type (ob : outboundDTO) : result string unit :=
  let fail_if b msg := ensure (negb b) ("outbound " ++ ob_Tag ob ++ ": " ++ msg) in
  let type := ob_Type ob in
  if String.eqb type "shadowsocks" then
    _ ← fail_if (negb (str_mem (ob_Method ob) validShadowsocksMethods)) ("invalid shadowsocks method " ++ ob_Method ob);
    fail_if (blank (ob_Password ob)) "password is required for type shadowsocks"
  else if String.eqb type "vmess" then
    _ ← fail_if (blank (ob_UUID ob)) "uuid is required for type vmess";
    fail_if (negb (str_mem (ob_Security ob) validVMessSecurity)) ("invalid vmess security " ++ ob_Security ob)
  else if String.eqb type "trojan" then fail_if (blank (ob_Password ob)) "password is required for type trojan"
  else if String.eqb type "vless" then fail_if (blank (ob_UUID ob)) "uuid is required for type vless"
  else if String.eqb type "hysteria2" then fail_if (blank (ob_Password ob)) "password is required for type hysteria2"
  else if String.eqb type "tuic" then
    _ ← fail_if (blank (ob_UUID ob) || blank (ob_Password ob)) "uuid and password are required for type tuic";
    fail_if (negb (blank (ob_CongestionControl ob)) && negb (str_mem (ob_CongestionControl ob) validCongestionControl))
            ("invalid congestion_control " ++ ob_CongestionControl ob)
  else if String.eqb type "anytls" then fail_if (blank (ob_Password ob)) "password is required for type anytls"
  else if String.eqb type "hysteria" then
    fail_if ((ob_UpMbps ob <=? 0) || (ob_DownMbps ob <=? 0)) "up_mbps and down_mbps (both > 0) are required for type hysteria"
  else if String.eqb type "shadowtls" then
    _ ← fail_if ((ob_Version ob <? 1) || (3 <? ob_Version ob)) "version must be 1, 2 or 3 for type shadowtls";
    fail_if (negb (ob_Version ob =? 1) && blank (ob_Password ob))
            ("password is required for shadowtls version " ++ Itoa (ob_Version ob))
  else if String.eqb type "snell" then
    _ ← fail_if (blank (ob_PSK ob)) "psk is required for type snell";
    fail_if (negb (blank (ob_ObfsMode ob)) && negb (str_mem (ob_ObfsMode ob) validSnellObfsModes))
            ("invalid snell obfs_mode " ++ ob_ObfsMode ob)
  else if String.eqb type "ssh" then
    fail_if (blank (ob_Username ob) || blank (ob_Password ob)) "username and password are required for type ssh"
  else Ok tt.

Definition check_outbound (tags : list string) (ob : outboundDTO) : result string unit :=
  _ ← ensure (negb (blank (ob_Tag ob) || str_mem (ob_Tag ob) implicitOutboundTags))
        "outbound tag must be non-empty and not 'direct'/'block' (reserved)";
  _ ← ensure (negb (str_mem (ob_Tag ob) tags)) ("duplicate outbound tag: " ++ ob_Tag ob);
  _ ← ensure (str_mem (ob_Type ob) validOutboundTypes) ("invalid outbound type: " ++ ob_Type ob);
  let fail_if b msg := ensure (negb b) ("outbound " ++ ob_Tag ob ++ ": " ++ msg) in
  _ ← fail_if (needsServer (ob_Type ob) && (blank (ob_Server ob) || (ob_ServerPort ob =? 0)))
        ("server and server_port are required for type " ++ ob_Type ob);
  _ ← fail_if (is_group (ob_Type ob) && match ob_Outbounds ob with [] => true | _ => false end)
        ("at least one member outbound is required for type " ++ ob_Type ob);
  _ ← (if ob_DirectFallback ob then
         _ ← fail_if (blank (ob_BindInterface ob)) "direct_fallback requires bind_interface";
         fail_if (is_group (ob_Type ob) || String.eqb (ob_Type ob) "block")
           ("direct_fallback is not allowed for type " ++ ob_Type ob)
       else Ok tt);
  check_type ob.

(** The first loop: each outbound against the tags before it. *)
Fixpoint check_outbounds (tags : list string) (obs : list outboundDTO) : result string (list string) :=
  match obs with
  | [] => Ok tags
  | ob :: obs => _ ← check_outbound tags ob; check_outbounds (ob_Tag ob :: tags) obs
  end.

Definition validTarget (tags : list string) (tag : string) : bool :=
  str_mem tag implicitOutboundTags || str_mem tag tags.

Definition check_members (tags : list string) (ob : outboundDTO) : result string unit :=
  each (fun member => ensure (validTarget tags member)
          ("outbound " ++ ob_Tag ob ++ ": unknown member outbound " ++ member)) (ob_Outbounds ob).

Fixpoint check_ports (seen : list Z) (ports : list Z) : result string unit :=
  match ports with
  | [] => Ok tt
  | p :: ports =>
      _ ← ensure (negb ((p <? 1) || (65535 <? p))) ("routing rule: invalid inbound_port " ++ Itoa p ++ " (must be 1-65535)");
      _ ← ensure (negb (existsb (Z.eqb p) seen)) ("routing rule: duplicate inbound_port " ++ Itoa p);
      check_ports (p :: seen) ports
  end.

Definition check_rule (tags : list string) (rule : routingRuleDTO) : result string unit :=
  _ ← ensure (validTarget tags (ru_OutboundTag rule)) ("routing rule targets unknown outbound: " ++ ru_OutboundTag rule);
  _ ← each (fun n => ensure (str_mem n validNetworks) ("routing rule: invalid network " ++ n)) (ru_Network rule);
  _ ← each (fun p => ensure (str_mem p validProtocols) ("routing rule: invalid protocol " ++ p)) (ru_Protocol rule);
  match ru_InboundPort rule with
  | [] => Ok tt
  | ports =>
      _ ← ensure match ru_Inbound rule with [] => false | _ => true end
            "routing rule: inbound_port requires a non-empty inbound";
      check_ports [] ports
  end.

Fixpoint check_dns (tags : list string) (servers : list dnsServerDTO) : result string unit :=
  match servers with
  | [] => Ok tt
  | srv :: servers =>
      _ ← ensure (negb (blank (dns_Tag srv))) "dns server tag is required";
      _ ← ensure (negb (str_mem (dns_Tag srv) tags)) ("duplicate dns server tag: " ++ dns_Tag srv);
      _ ← ensure (str_mem (dns_Type srv) validDNSTypes) ("invalid dns server type: " ++ dns_Type srv);
      _ ← ensure (negb (negb (String.eqb (dns_Type srv) "local") && blank (dns_Address srv)))
            ("dns server " ++ dns_Tag srv ++ ": address is required for type " ++ dns_Type srv);
      check_dns (dns_Tag srv :: tags) servers
  end.

Definition validateCoreConfig (dto : coreConfigDTO) : result string unit :=
  _ ← ensure (negb (negb (blank (LogLevel dto)) && negb (str_mem (LogLevel dto) validLogLevels))) "invalid log_level";
  tags ← check_outbounds [] (elems (Outbounds dto));
  _ ← each (check_members tags) (elems (Outbounds dto));
  _ ← each (check_rule tags) (elems (RoutingRules dto));
  check_dns [] (elems (DNSServers dto)).

(** ** [nodeprofile.go]: overrides *)

Definition isZero (o : coreOverridesDTO) : bool :=
  match co_LogLevel o, co_SniffEnabled o, co_DNSServers o, co_Outbounds o, co_RoutingRulesFirst o with
  | None, None, None, [], [] => true
  | _, _, _, _, _ => false
  end.

Definition noOverrides : coreOverridesDTO := zero.

(** [parseCoreOverrides]: blank and null are no overrides; anything else is one object,
    decoded strictly, with nothing after it. (The decoder's own messages are shortened.) *)
Definition parseCoreOverrides (raw : string) : result string coreOverridesDTO :=
  let trimmed := TrimSpace raw in
  if blank trimmed || String.eqb trimmed "null" then Ok noOverrides
  else if negb (HasPrefix trimmed "{") then Err "core_overrides must be a JSON object"
  else match decode_value trimmed with
       | None => Err "core_overrides: invalid JSON"
       | Some (j, rest) =>
           match of_json j noOverrides with
           | None => Err "core_overrides: does not fit"
           | Some o => if blank (skip_white rest) then Ok o
                       else Err "core_overrides: unexpected data after the JSON object"
           end
       end.

(** [apply], the outbounds: the same tag replaces in place, a new tag is appended. The
    index of a tag is the last one that has it. *)
Definition tag_index (obs : list outboundDTO) : gmap string nat :=
  foldl (fun m '(i, ob) => <[ob_Tag ob := i]> m) ∅ (imap pair obs).

Definition merge_one (acc : list outboundDTO * gmap string nat) (ob : outboundDTO) :
    list outboundDTO * gmap string nat :=
  let '(merged, at_) := acc in
  match at_ !! ob_Tag ob with
  | Some i => (<[i := ob]> merged, at_)
  | None => ((merged ++ [ob])%list, <[ob_Tag ob := length merged]> at_)
  end.

Definition merge_outbounds (fleet over : list outboundDTO) : list outboundDTO :=
  (foldl merge_one (fleet, tag_index fleet) over).1.

Definition apply (o : coreOverridesDTO) (fleet : coreConfigDTO) : coreConfigDTO :=
  if isZero o then fleet
  else mkCore (default (LogLevel fleet) (co_LogLevel o)) (default (SniffEnabled fleet) (co_SniffEnabled o))
         match co_Outbounds o with
         | [] => Outbounds fleet
         | over => Some (merge_outbounds (elems (Outbounds fleet)) over)
         end
         match co_RoutingRulesFirst o with
         | [] => RoutingRules fleet
         | first => Some (first ++ elems (RoutingRules fleet))%list
         end
         match co_DNSServers o with None => DNSServers fleet | Some servers => Some servers end
         (UpdatedAt fleet).

Fixpoint check_tags (seen : list string) (obs : list outboundDTO) : result string unit :=
  match obs with
  | [] => Ok tt
  | ob :: obs =>
      _ ← ensure (negb (str_mem (ob_Tag ob) seen)) ("core_overrides: duplicate outbound tag: " ++ ob_Tag ob);
      check_tags (ob_Tag ob :: seen) obs
  end.

Definition prefix_err (p : string) (r : result string unit) : result string unit :=
  match r with Ok u => Ok u | Err msg => Err (p ++ msg) end.

(** [validateCoreOverrides]; [known] is [None] where the check of inbounds is skipped. *)
Definition validateCoreOverrides (fleet : coreConfigDTO) (o : coreOverridesDTO) (known : option (list string)) :
    result string unit :=
  _ ← ensure match co_LogLevel o with Some l => str_mem l validLogLevels | None => true end
        "core_overrides: invalid log_level";
  _ ← check_tags [] (co_Outbounds o);
  _ ← prefix_err "core_overrides: " (validateCoreConfig (apply o fleet));
  each (fun rule => each (fun tag =>
          ensure match known with Some ks => str_mem tag ks | None => true end
            ("core_overrides: routing rule targets unknown inbound: " ++ tag)) (ru_Inbound rule))
       (co_RoutingRulesFirst o).
End Rules.

(** ** What the rules guarantee *)

Module RulesProps.
Import Rules.

Lemma bind_tt {A} (r : result string unit) (f : unit -> result string A) b :
  r ≫= f = Ok b <-> r = Ok tt /\ f tt = Ok b.
Proof. rewrite result_bind_ok. split; [by intros ([] & ? & ?)|eauto]. Qed.

Lemma rule_ensure_ok b msg : ensure b msg = Ok tt <-> b = true.
Proof. by destruct b. Qed.

Lemma each_ok {A} (f : A -> result string unit) l : each f l = Ok tt <-> Forall (fun x => f x = Ok tt) l.
Proof.
  induction l as [|x l IH]; cbn [each]; [split; constructor|].
  by rewrite bind_tt, IH, Forall_cons.
Qed.

Lemma str_mem_false x l : str_mem x l = false <-> ~ In x l.
Proof. rewrite <- str_mem_spec. by destruct (str_mem x l). Qed.

Lemma check_outbound_tag tags ob : check_outbound tags ob = Ok tt ->
  ob_Tag ob <> "" /\ ~ In (ob_Tag ob) implicitOutboundTags /\ ~ In (ob_Tag ob) tags /\ In (ob_Type ob) validOutboundTypes.
Proof.
  unfold check_outbound. rewrite !bind_tt, !rule_ensure_ok. intros (H1 & H2 & H3 & _).
  apply negb_true_iff, orb_false_iff in H1 as [Hb Hi]. apply negb_true_iff in H2.
  unfold blank in Hb. apply String.eqb_neq in Hb.
  by rewrite <- str_mem_false, <- (str_mem_false _ tags), <- str_mem_spec.
Qed.

(** The tags of the outbounds that passed, in reverse, on top of those before. *)
Lemma check_outbounds_ok tags obs tags' : check_outbounds tags obs = Ok tags' ->
  tags' = (rev (map ob_Tag obs) ++ tags)%list /\
  (NoDup tags -> NoDup tags') /\
  Forall (fun ob => ob_Tag ob <> "" /\ ~ In (ob_Tag ob) implicitOutboundTags /\ In (ob_Type ob) validOutboundTypes) obs.
Proof.
  revert tags. induction obs as [|ob obs IH]; intros tags; cbn [check_outbounds]; [intros [= <-]; done|].
  rewrite bind_tt. intros [Hc Ho]. apply check_outbound_tag in Hc as (H1 & H2 & H3 & H4).
  apply IH in Ho as (-> & Hn & Hf). cbn [map rev]. rewrite <- app_assoc. split; [done|]. split; [|by constructor].
  intros Ht. apply Hn. constructor; [|done]. by rewrite list_elem_of_In.
Qed.

(** Every reference of a configuration resolves: group members and rule targets are
    outbounds of it or the built-in ones, tags are unique and none shadows a built-in. *)
Record consistent (c : coreConfigDTO) : Prop := {
  tags_unique : NoDup (map ob_Tag (elems (Outbounds c)));
  tags_proper ob : In ob (elems (Outbounds c)) -> ob_Tag ob <> "" /\ ~ In (ob_Tag ob) implicitOutboundTags;
  types_known ob : In ob (elems (Outbounds c)) -> In (ob_Type ob) validOutboundTypes;
  members_exist ob m : In ob (elems (Outbounds c)) -> In m (ob_Outbounds ob) ->
    In m (implicitOutboundTags ++ map ob_Tag (elems (Outbounds c)));
  targets_exist r : In r (elems (RoutingRules c)) ->
    In (ru_OutboundTag r) (implicitOutboundTags ++ map ob_Tag (elems (Outbounds c)));
  ports_proper r p : In r (elems (RoutingRules c)) -> In p (ru_InboundPort r) -> 1 <= p <= 65535;
  dns_unique : NoDup (map dns_Tag (elems (DNSServers c)));
}.

Lemma check_ports_ok seen ports : check_ports seen ports = Ok tt -> Forall (fun p => 1 <= p <= 65535) ports.
Proof.
  revert seen. induction ports as [|p ports IH]; intros seen; cbn [check_ports]; [constructor|].
  rewrite !bind_tt, !rule_ensure_ok. intros (H1 & _ & H2). constructor; [|by eapply IH].
  apply negb_true_iff, orb_false_iff in H1 as [H1 H3]. lia.
Qed.

Lemma check_dns_ok tags servers : check_dns tags servers = Ok tt ->
  NoDup (map dns_Tag servers) /\ Forall (fun s => ~ In (dns_Tag s) tags) servers.
Proof.
  revert tags. induction servers as [|s servers IH]; intros tags; cbn [check_dns]; [repeat constructor|].
  rewrite !bind_tt, !rule_ensure_ok. intros (_ & H2 & _ & _ & H5). apply IH in H5 as [Hn Hf].
  apply negb_true_iff, str_mem_false in H2. split.
  - cbn [map]. constructor; [|done]. rewrite list_elem_of_In, in_map_iff. intros (s' & E & Hs').
    rewrite Forall_forall in Hf. apply (Hf s'); [by apply list_elem_of_In|]. rewrite E. by left.
  - constructor; [done|]. eapply Forall_impl; [exact Hf|]. intros s' H Hin. apply H. by right.
Qed.

Lemma validTarget_In tags tag : validTarget tags tag = true -> In tag (implicitOutboundTags ++ tags).
Proof. unfold validTarget. rewrite orb_true_iff, !str_mem_spec, in_app_iff. done. Qed.

Lemma validate_consistent c : validateCoreConfig c = Ok tt -> consistent c.
Proof.
  unfold validateCoreConfig. rewrite bind_tt. intros [_ H]. apply result_bind_ok in H as (tags & Ho & H).
  rewrite !bind_tt, !each_ok, !Forall_forall in H. destruct H as (Hm & Hr & Hd).
  apply check_outbounds_ok in Ho as (-> & Hn & Hf). rewrite app_nil_r in *. rewrite Forall_forall in Hf.
  setoid_rewrite list_elem_of_In in Hf. setoid_rewrite list_elem_of_In in Hm. setoid_rewrite list_elem_of_In in Hr.
  assert (forall t, In t (implicitOutboundTags ++ rev (map ob_Tag (elems (Outbounds c)))) ->
                    In t (implicitOutboundTags ++ map ob_Tag (elems (Outbounds c)))) as Hrev.
  { intros t. rewrite !in_app_iff, <- in_rev. done. }
  split.
  - specialize (Hn NoDup_nil_2). rewrite NoDup_ListNoDup in *. rewrite <- (rev_involutive (map _ _)). by apply NoDup_rev.
  - intros ob Hob. by destruct (Hf ob Hob) as (? & ? & _).
  - intros ob Hob. by destruct (Hf ob Hob) as (_ & _ & ?).
  - intros ob m Hob Hmem. apply Hrev. specialize (Hm ob Hob). unfold check_members in Hm.
    rewrite each_ok, Forall_forall in Hm. specialize (Hm m). rewrite list_elem_of_In in Hm. specialize (Hm Hmem).
    apply rule_ensure_ok in Hm. by apply validTarget_In.
  - intros r Hin. apply Hrev. specialize (Hr r Hin). unfold check_rule in Hr. rewrite bind_tt, rule_ensure_ok in Hr.
    apply validTarget_In. tauto.
  - intros r p Hin Hp. specialize (Hr r Hin). unfold check_rule in Hr. rewrite !bind_tt in Hr. destruct Hr as (_ & _ & _ & Hr).
    destruct (ru_InboundPort r) as [|q ports]; [done|]. rewrite bind_tt in Hr. destruct Hr as [_ Hr].
    apply check_ports_ok in Hr. rewrite Forall_forall in Hr. apply Hr. by apply list_elem_of_In.
  - by apply check_dns_ok in Hd as [? _].
Qed.

(** *** Merging outbounds by tag *)

Definition indexes (m : gmap string nat) (obs : list outboundDTO) : Prop :=
  forall t i, m !! t = Some i <-> exists ob, obs !! i = Some ob /\ ob_Tag ob = t.

Lemma indexes_snoc m obs ob : indexes m obs -> m !! ob_Tag ob = None ->
  indexes (<[ob_Tag ob := length obs]> m) (obs ++ [ob]).
Proof.
  intros Hm Hn t i. destruct (decide (t = ob_Tag ob)) as [->|Ht].
  - rewrite lookup_insert_eq. split.
    + intros [= <-]. exists ob. by rewrite lookup_app_r, Nat.sub_diag by lia.
    + intros (ob' & Hi & E). apply lookup_snoc_Some in Hi as [[_ Hi]|[-> _]]; [|done].
      assert (m !! ob_Tag ob = Some i) by (apply Hm; eauto). congruence.
  - rewrite lookup_insert_ne by done. etrans; [apply Hm|]. split.
    + intros (ob' & Hi & E). exists ob'. split; [|done]. by apply lookup_app_l_Some.
    + intros (ob' & Hi & <-). apply lookup_snoc_Some in Hi as [[_ Hi]|[_ ->]]; [eauto|done].
Qed.

Lemma indexes_set m obs ob i : indexes m obs -> m !! ob_Tag ob = Some i -> indexes m (<[i := ob]> obs).
Proof.
  intros Hm Hi t j. etrans; [apply Hm|]. pose proof (proj1 (Hm _ _) Hi) as (old & Hold & E).
  destruct (decide (i = j)) as [->|Hij].
  - rewrite Hold, list_lookup_insert_eq by (by eapply lookup_lt_Some). naive_solver congruence.
  - by rewrite list_lookup_insert_ne.
Qed.

Lemma tag_index_ok obs : NoDup (map ob_Tag obs) -> indexes (tag_index obs) obs.
Proof.
  unfold tag_index. induction obs as [|ob obs IH] using rev_ind; intros Hn.
  { intros t i. cbn. rewrite lookup_empty. split; [done|]. by intros (? & ? & ?). }
  rewrite imap_app, foldl_app. cbn. rewrite Nat.add_0_r.
  rewrite map_app in Hn. apply NoDup_app in Hn as (H1 & H2 & _). specialize (IH H1).
  apply indexes_snoc; [done|]. destruct (_ !! ob_Tag ob) as [i|] eqn:E; [|done].
  apply IH in E as (ob' & Hi & E). exfalso. apply (H2 (ob_Tag ob)); [|by left].
  rewrite <- E. apply list_elem_of_fmap_2. by eapply list_elem_of_lookup_2.
Qed.

Definition with_tag (t : string) (obs : list outboundDTO) : option outboundDTO :=
  List.find (fun ob => String.eqb (ob_Tag ob) t) obs.

(** What the merge should be: the fleet's outbounds in their order, each replaced by the
    override of its tag, then the overrides whose tags the fleet does not have. *)
Definition overlay (fleet over : list outboundDTO) : list outboundDTO :=
  (map (fun ob => default ob (with_tag (ob_Tag ob) over)) fleet ++
   List.filter (fun ob => negb (str_mem (ob_Tag ob) (map ob_Tag fleet))) over)%list.

Lemma with_tag_snoc t over ob : ~ In (ob_Tag ob) (map ob_Tag over) ->
  with_tag t (over ++ [ob]) = if String.eqb (ob_Tag ob) t then Some ob else with_tag t over.
Proof.
  intros Hn. induction over as [|o over IH]; cbn; [done|].
  destruct (String.eqb (ob_Tag o) t) eqn:Ht.
  - apply String.eqb_eq in Ht. destruct (String.eqb_spec (ob_Tag ob) t) as [E|]; [|done].
    exfalso. apply Hn. left. congruence.
  - apply IH. intros H. apply Hn. by right.
Qed.

Lemma with_tag_name t over ob : with_tag t over = Some ob -> ob_Tag ob = t.
Proof. intros [_ H]%find_some. by apply String.eqb_eq in H. Qed.

Lemma overlay_tags fleet over : map ob_Tag (overlay fleet over) =
  (map ob_Tag fleet ++ map ob_Tag (List.filter (fun ob => negb (str_mem (ob_Tag ob) (map ob_Tag fleet))) over))%list.
Proof.
  unfold overlay. rewrite map_app. f_equal. rewrite map_map. apply map_ext. intros ob.
  destruct (with_tag (ob_Tag ob) over) eqn:E; [|done]. by apply with_tag_name in E.
Qed.

Lemma overlay_fleet fleet over i fo : fleet !! i = Some fo ->
  overlay fleet over !! i = Some (default fo (with_tag (ob_Tag fo) over)).
Proof.
  intros Hi. unfold overlay. rewrite lookup_app_l by (rewrite length_map; by eapply lookup_lt_Some).
  change (map ?f fleet) with (f <$> fleet). by rewrite list_lookup_fmap, Hi.
Qed.

Lemma overlay_beyond fleet over i : (length fleet <= i)%nat ->
  overlay fleet over !! i =
  List.filter (fun ob => negb (str_mem (ob_Tag ob) (map ob_Tag fleet))) over !! (i - length fleet)%nat.
Proof. intros Hi. unfold overlay. rewrite lookup_app_r; by rewrite length_map. Qed.

Lemma default_tag fo over : ob_Tag (default fo (with_tag (ob_Tag fo) over)) = ob_Tag fo.
Proof. destruct (with_tag (ob_Tag fo) over) eqn:E; [|done]. by apply with_tag_name in E. Qed.

(** Where an override of a tag the fleet has lands. *)
Lemma overlay_replaces fleet over ob i fo : NoDup (map ob_Tag fleet) -> ~ In (ob_Tag ob) (map ob_Tag over) ->
  fleet !! i = Some fo -> ob_Tag fo = ob_Tag ob ->
  overlay fleet (over ++ [ob]) = <[i := ob]> (overlay fleet over).
Proof.
  intros Hf Hnew Hi Efo. apply list_eq. intros j.
  assert (Hin : str_mem (ob_Tag ob) (map ob_Tag fleet) = true).
  { apply str_mem_spec. rewrite <- Efo. apply in_map, list_elem_of_In. by eapply list_elem_of_lookup_2. }
  destruct (decide (i = j)) as [<-|Hij].
  - rewrite list_lookup_insert_eq by (eapply lookup_lt_Some; by apply overlay_fleet).
    rewrite (overlay_fleet _ _ _ _ Hi), with_tag_snoc, Efo, String.eqb_refl by done. done.
  - rewrite list_lookup_insert_ne by done. destruct (fleet !! j) as [o|] eqn:Ej.
    + rewrite !(overlay_fleet _ _ _ _ Ej), with_tag_snoc by done.
      destruct (String.eqb_spec (ob_Tag ob) (ob_Tag o)) as [E|]; [|done]. exfalso. apply Hij.
      apply (NoDup_lookup _ _ _ (ob_Tag ob) Hf); change (map ?f fleet) with (f <$> fleet);
        rewrite list_lookup_fmap; [rewrite Hi|rewrite Ej]; cbn; congruence.
    + apply lookup_ge_None in Ej. rewrite !overlay_beyond by done. rewrite List.filter_app. cbn. rewrite Hin.
      by rewrite app_nil_r.
Qed.

(** And one of a tag it does not have. *)
Lemma overlay_appends fleet over ob : ~ In (ob_Tag ob) (map ob_Tag over) -> ~ In (ob_Tag ob) (map ob_Tag fleet) ->
  overlay fleet (over ++ [ob]) = (overlay fleet over ++ [ob])%list.
Proof.
  intros Hnew Hn. unfold overlay. rewrite List.filter_app. cbn. rewrite (proj2 (str_mem_false _ _) Hn), <- app_assoc. f_equal.
  apply map_ext_in. intros o Hin. rewrite with_tag_snoc by done.
  destruct (String.eqb_spec (ob_Tag ob) (ob_Tag o)) as [E|]; [|done]. exfalso. apply Hn. rewrite E. by apply in_map.
Qed.

Lemma fleet_position fleet t : In t (map ob_Tag fleet) -> exists i fo, fleet !! i = Some fo /\ ob_Tag fo = t.
Proof. intros (fo & E & Hfo)%in_map_iff. apply list_elem_of_In, list_elem_of_lookup_1 in Hfo as [k Hk]. eauto. Qed.

Lemma merge_overlay fleet over : NoDup (map ob_Tag fleet) -> NoDup (map ob_Tag over) ->
  merge_outbounds fleet over = overlay fleet over /\
  indexes (foldl merge_one (fleet, tag_index fleet) over).2 (overlay fleet over).
Proof.
  intros Hf. unfold merge_outbounds. induction over as [|ob over IH] using rev_ind; intros Ho.
  { unfold overlay. cbn. rewrite app_nil_r, map_id. split; [done|]. by apply tag_index_ok. }
  rewrite map_app in Ho. apply NoDup_app in Ho as (H1 & H2 & _). destruct (IH H1) as [Em Hi]. clear IH.
  assert (Hnew : ~ In (ob_Tag ob) (map ob_Tag over)).
  { intros H. apply (H2 (ob_Tag ob)); [by apply list_elem_of_In|by left]. }
  rewrite foldl_app. cbn. destruct (foldl merge_one (fleet, tag_index fleet) over) as [merged at_]. cbn in *. subst merged.
  destruct (str_mem (ob_Tag ob) (map ob_Tag fleet)) eqn:Es.
  - apply str_mem_spec, fleet_position in Es as (i & fo & Hk & Efo).
    assert (at_ !! ob_Tag ob = Some i) as Ei.
    { apply Hi. eexists. split; [by apply overlay_fleet|]. by rewrite default_tag. }
    rewrite Ei. cbn. rewrite (overlay_replaces fleet over ob i fo) by done. split; [done|]. by apply indexes_set.
  - apply str_mem_false in Es. destruct (at_ !! ob_Tag ob) as [i|] eqn:Ei.
    + exfalso. apply Hi in Ei as (o & Ho & Eo). apply list_elem_of_lookup_2, list_elem_of_In, (in_map ob_Tag) in Ho.
      rewrite overlay_tags, in_app_iff, Eo in Ho. destruct Ho as [|Hin]; [done|]. apply Hnew.
      apply in_map_iff in Hin as (o' & E' & [Hin _]%filter_In). rewrite <- E'. by apply in_map.
    + cbn. rewrite overlay_appends by done. split; [done|]. by apply indexes_snoc.
Qed.

(** *** Overrides as they are stored *)

Lemma parse_marshalled o : codec_ok o -> parseCoreOverrides (encode (to_json o)) = Ok o.
Proof.
  intros Ho. pose proof (codec_wf o Ho) as Hw. pose proof (codec_roundtrip o Ho) as Hr.
  change (@zero coreOverridesDTO _) with noOverrides in Hr.
  unfold parseCoreOverrides. assert (exists t, encode (to_json o) = String "{" (t ++ String "}" "")) as [t Ht].
  { eexists. reflexivity. }
  rewrite Ht, TrimSpace_id by done. rewrite <- Ht, decode_encode, Hr by done. rewrite Ht. cbn. by destruct (t ++ "}").
Qed.

Lemma parse_codec_ok raw o : parseCoreOverrides raw = Ok o -> codec_ok o.
Proof.
  unfold parseCoreOverrides. destruct (_ || _); [intros [= <-]; apply codec_zero|].
  destruct (negb _); [done|]. destruct (decode_value _) as [[j rest]|] eqn:E; [|done].
  destruct (of_json j noOverrides) as [o'|] eqn:Eo; [|done]. destruct (blank _); [|done]. intros [= <-].
  eapply codec_decoded; [by eapply decode_value_valid|apply codec_zero|exact Eo].
Qed.

Lemma isZero_zero o : isZero o = true -> o = noOverrides.
Proof. unfold isZero. destruct o as [[] [] [] [] []]; done. Qed.

Lemma parse_blank : parseCoreOverrides "{}" = Ok noOverrides.
Proof. reflexivity. Qed.

Lemma apply_zero o fleet : isZero o = true -> apply o fleet = fleet.
Proof. unfold apply. by intros ->. Qed.

(** Skipping the check of inbounds only drops conditions. *)
Lemma validate_any_inbounds fleet o known :
  validateCoreOverrides fleet o known = Ok tt -> validateCoreOverrides fleet o None = Ok tt.
Proof.
  unfold validateCoreOverrides. rewrite !bind_tt. intros (H1 & H2 & H3 & _). repeat split; [done..|].
  apply each_ok, Forall_forall. intros r _. apply each_ok, Forall_forall. done.
Qed.

Lemma validate_applied fleet o known :
  validateCoreOverrides fleet o known = Ok tt -> validateCoreConfig (apply o fleet) = Ok tt.
Proof.
  unfold validateCoreOverrides. rewrite !bind_tt. intros (_ & _ & H & _).
  unfold prefix_err in H. by destruct (validateCoreConfig _) as [[]|].
Qed.

(** The time of the last change plays no part. *)
Definition same_core (a b : coreConfigDTO) : Prop :=
  LogLevel a = LogLevel b /\ SniffEnabled a = SniffEnabled b /\ Outbounds a = Outbounds b /\
  RoutingRules a = RoutingRules b /\ DNSServers a = DNSServers b.

Lemma validate_same a b : same_core a b -> validateCoreConfig a = validateCoreConfig b.
Proof. intros (E1 & E2 & E3 & E4 & E5). unfold validateCoreConfig. by rewrite E1, E3, E4, E5. Qed.

Lemma apply_same o a b : same_core a b -> same_core (apply o a) (apply o b).
Proof. intros (E1 & E2 & E3 & E4 & E5). unfold apply. destruct (isZero o); [done|]. by rewrite E1, E2, E3, E4, E5. Qed.

Lemma overrides_same a b o known : same_core a b ->
  validateCoreOverrides a o known = validateCoreOverrides b o known.
Proof. intros E. unfold validateCoreOverrides. by rewrite (validate_same _ _ (apply_same o _ _ E)). Qed.
End RulesProps.
