(* ===== verification/NodeAdmin.v ===== *)
(** * NodeAdmin: saving nodes, their profiles and the core configuration

    [node.go], [resolveNodeProfile] and [validateNodeOverridesAgainstFleet] of
    [nodeprofile.go], [applyCoreConfig] of [coreconfig.go], over the tables they write:
    [core_config], [nodes], the inbound tags, and the change counter that the triggers of
    migration 00015 bump. A request body arrives decoded; the fields a request may leave
    out, set to null or give are a [patch]. Each statement takes the next entry of
    [faults], which says whether it fails, as a lost connection makes it.

    Signing a node's certificate and drawing its secret are parameters. The setup blob a
    node starts from is built here and read by [cmd/node] ([applyNodeSetupBlob]). *)

From stdpp Require Import sorting.
From S2P Require Import Prelude GoStrings GoFloat Base64 GoJson Effect CoreDto CoreConfig.
Import Rules.

#[local] Open Scope string_scope.
#[local] Open Scope Z_scope.

Module NodeAdmin.

(** ** State *)

Record NodeRow := mkNode {
  n_ID : Z; n_Name : string; n_Address : string; n_Port : Z; n_ApiPort : Z;
  n_UsageCoefficient : GoFloat.float64; n_Status : string; n_ReportSecret : option string;
  n_InboundTags : list string; n_ListenPorts : list Z; n_CoreOverrides : string; n_Capacity : option Z
}.

(** [tls] is the panel's CA, certificate and key. *)
Record St := mkSt {
  core_config : coreConfigDTO; nodes : gmap Z NodeRow; inbound_tags : list string;
  tls : option (string * string); next_id : Z; version : Z; faults : list bool
}.

Definition set_core c v s := mkSt c (nodes s) (inbound_tags s) (tls s) (next_id s) v (faults s).
Definition set_nodes ns v s := mkSt (core_config s) ns (inbound_tags s) (tls s) (next_id s) v (faults s).
Definition set_next n s := mkSt (core_config s) (nodes s) (inbound_tags s) (tls s) n (version s) (faults s).
Definition set_faults f s := mkSt (core_config s) (nodes s) (inbound_tags s) (tls s) (next_id s) (version s) f.

Inductive callerr := Unavailable | NoRows | UniqueViolation | Refused.

Abbreviation M := (eff St).

Definition call {A} (f : St -> result callerr (St * A)) : M callerr A := fun s =>
  match faults s with
  | true :: fs => (set_faults fs s, Err Unavailable)
  | fs => let s := set_faults (tail fs) s in
          match f s with Ok (s, a) => (s, Ok a) | Err e => (s, Err e) end
  end.

Definition query {A} (f : St -> result callerr A) : M callerr A :=
  call (fun s => match f s with Ok a => Ok (s, a) | Err e => Err e end).

(** [bump_data_version]: one more, and never below the clock in microseconds. *)
Definition bump (now : Z) (s : St) : Z := Z.max (version s + 1) now.

(** ** Statements *)

Definition GetCoreConfig : M callerr coreConfigDTO := query (fun s => Ok (core_config s)).

Definition UpdateCoreConfig (now : Z) (dto : coreConfigDTO) : M callerr coreConfigDTO := call (fun s =>
  if str_mem (LogLevel dto) validLogLevels then
    let row := mkCore (LogLevel dto) (SniffEnabled dto) (Outbounds dto) (RoutingRules dto) (DNSServers dto) (Some now) in
    Ok (set_core row (bump now s) s, row)
  else Err Refused).

Definition ListInboundTags : M callerr (list string) := query (fun s => Ok (inbound_tags s)).

Definition by_id (a b : NodeRow) : Prop := n_ID a <= n_ID b.
#[export] Instance by_id_dec : RelDecision by_id. Proof. intros a b. apply Z_le_dec. Defined.

Definition ListNodes : M callerr (list NodeRow) :=
  query (fun s => Ok (merge_sort by_id (map snd (map_to_list (nodes s))))).

Definition GetNodeByID (id : Z) : M callerr NodeRow :=
  query (fun s => match nodes s !! id with Some n => Ok n | None => Err NoRows end).

Definition GetNodeByReportSecret (secret : string) : M callerr NodeRow :=
  query (fun s => match List.find (fun n => bool_decide (n_ReportSecret n = Some secret))
                          (map snd (map_to_list (nodes s))) with
                  | Some n => Ok n | None => Err NoRows end).

Definition GetTLS : M callerr (string * string) :=
  query (fun s => match tls s with Some t => Ok t | None => Err NoRows end).

(** The lengths of the columns and the range of the capacity. *)
Definition row_fits (n : NodeRow) : bool :=
  (char_count (n_Name n) <=? 256)%nat && (char_count (n_Address n) <=? 256)%nat &&
  match n_Capacity n with Some c => 0 <? c | None => true end.

Definition taken (p : NodeRow -> bool) (id : Z) (s : St) : bool :=
  existsb (fun n => negb (n_ID n =? id) && p n) (map snd (map_to_list (nodes s))).

Definition name_taken (n : NodeRow) (s : St) : bool :=
  taken (fun m => String.eqb (n_Name m) (n_Name n)) (n_ID n) s.
Definition secret_taken (n : NodeRow) (s : St) : bool :=
  taken (fun m => bool_decide (n_ReportSecret m = n_ReportSecret n /\ n_ReportSecret n <> None)) (n_ID n) s.

Definition CreateNode (now : Z) (row : Z -> NodeRow) : M callerr NodeRow := call (fun s =>
  let n := row (next_id s) in
  if negb (row_fits n) then Err Refused
  else if name_taken n s || secret_taken n s then Err UniqueViolation
  else Ok (set_next (next_id s + 1) (set_nodes (<[n_ID n := n]> (nodes s)) (bump now s) s), n)).

Record UpdateNodeParams := mkUpdate {
  u_Name : string; u_Address : string; u_Port : Z; u_ApiPort : Z;
  u_UsageCoefficient : option GoFloat.float64; u_Disabled : option bool;
  u_InboundTags : list string; u_ListenPorts : list Z; u_CoreOverrides : string;
  u_SetCapacity : bool; u_Capacity : option Z
}.

Definition updated (p : UpdateNodeParams) (n : NodeRow) : NodeRow :=
  mkNode (n_ID n) (u_Name p) (u_Address p) (u_Port p) (u_ApiPort p)
    (default (n_UsageCoefficient n) (u_UsageCoefficient p))
    match u_Disabled p with
    | Some true => "disabled"
    | Some false => if String.eqb (n_Status n) "disabled" then "connecting" else n_Status n
    | None => n_Status n
    end
    (n_ReportSecret n) (u_InboundTags p) (u_ListenPorts p) (u_CoreOverrides p)
    (if u_SetCapacity p then u_Capacity p else n_Capacity n).

Definition update_node (version' : St -> Z) (id : Z) (f : NodeRow -> NodeRow) : M callerr NodeRow := call (fun s =>
  match nodes s !! id with
  | None => Err NoRows
  | Some n => let n := f n in
              if negb (row_fits n) then Err Refused
              else if name_taken n s then Err UniqueViolation
              else Ok (set_nodes (<[id := n]> (nodes s)) (version' s) s, n)
  end).

Definition UpdateNode (now id : Z) (p : UpdateNodeParams) : M callerr NodeRow :=
  update_node (bump now) id (updated p).

Definition with_capacity (c : option Z) (n : NodeRow) : NodeRow :=
  mkNode (n_ID n) (n_Name n) (n_Address n) (n_Port n) (n_ApiPort n) (n_UsageCoefficient n) (n_Status n)
    (n_ReportSecret n) (n_InboundTags n) (n_ListenPorts n) (n_CoreOverrides n) c.

(** Its SET list names none of the columns the trigger watches. *)
Definition SetNodeCapacity (id : Z) (c : option Z) : M callerr NodeRow :=
  update_node version id (with_capacity c).

Definition DeleteNode (now id : Z) : M callerr unit := call (fun s =>
  Ok (set_nodes (delete id (nodes s)) (bump now s) s, tt)).

(** ** Profiles *)

Inductive patch (A : Type) := Absent | Null | Value (a : A).
Arguments Absent {A}. Arguments Null {A}. Arguments Value {A} a.

Definition is_set {A} (p : patch A) : bool := match p with Absent => false | _ => true end.

Record nodeProfileFields := mkFields { tags : list string; ports : list Z; overrides : string }.

Definition emptyCoreOverridesJSON : string := "{}".

Definition profileFieldsFromNode (n : NodeRow) : nodeProfileFields :=
  mkFields (n_InboundTags n) (n_ListenPorts n)
    (if blank (n_CoreOverrides n) then emptyCoreOverridesJSON else n_CoreOverrides n).

(** A failed call, or the message of a 422. *)
Inductive profile_error := Internal | Message (msg : string).

Definition str_le (a b : string) : Prop := str_ltb b a = false.
#[export] Instance str_le_dec : RelDecision str_le. Proof. intros a b. unfold str_le. apply _. Defined.

(** The inbound tags, read at most once a request. *)
Definition knownInbounds (known : option (list string)) : M profile_error (list string) :=
  match known with
  | Some k => mret k
  | None => catch ListInboundTags (fun _ => Internal)
  end.

Fixpoint resolve_tags (inbounds seen : list string) (raw : list string) : result profile_error (list string) :=
  match raw with
  | [] => Ok []
  | r :: raw =>
      let tag := TrimSpace r in
      if blank tag then Err (Message "inbound_tags: a tag must not be empty")
      else if str_mem tag seen then Err (Message ("inbound_tags: duplicate tag " ++ tag))
      else if negb (str_mem tag inbounds) then Err (Message ("inbound_tags: unknown inbound " ++ tag))
      else rest ← resolve_tags inbounds (tag :: seen) raw; Ok (tag :: rest)
  end.

Fixpoint resolve_ports (seen : list Z) (raw : list Z) : result profile_error (list Z) :=
  match raw with
  | [] => Ok []
  | p :: raw =>
      if (p <? 1) || (65535 <? p) then Err (Message ("listen_ports: invalid port " ++ Itoa p ++ " (must be 1-65535)"))
      else if existsb (Z.eqb p) seen then Err (Message ("listen_ports: duplicate port " ++ Itoa p))
      else rest ← resolve_ports (p :: seen) raw; Ok (int32 p :: rest)
  end.

Definition message (r : result string coreOverridesDTO) : result profile_error coreOverridesDTO :=
  match r with Ok o => Ok o | Err m => Err (Message m) end.

(** [resolveNodeProfile] *)
Definition resolveNodeProfile (base : nodeProfileFields) (tagsIn : patch (list string)) (portsIn : patch (list Z))
    (overridesIn : patch string) : M profile_error nodeProfileFields :=
  '(ts, known) ← match tagsIn with
                 | Absent => mret (tags base, None)
                 | Null | Value [] => mret ([], None)
                 | Value raw =>
                     inbounds ← knownInbounds None;
                     ts ← lift (resolve_tags inbounds [] raw);
                     mret (merge_sort str_le ts, Some inbounds)
                 end;
  ps ← match portsIn with
       | Absent => mret (ports base)
       | Null => mret []
       | Value raw => ps ← lift (resolve_ports [] raw); mret (merge_sort Z.le ps)
       end;
  ov ← match overridesIn with
       | Absent => mret (overrides base)
       | Null => mret emptyCoreOverridesJSON
       | Value raw =>
           o ← lift (message (parseCoreOverrides raw));
           if isZero o then mret emptyCoreOverridesJSON
           else
             inbounds ← knownInbounds known;
             fleet ← catch GetCoreConfig (fun _ => Internal);
             _ ← lift match validateCoreOverrides fleet o (Some inbounds) with
                      | Ok u => Ok u | Err m => Err (Message m) end;
             mret (encode (to_json o))
       end;
  mret (mkFields ts ps ov).

(** [validateNodeOverridesAgainstFleet], over the rows. *)
Definition node_conflict (fleet : coreConfigDTO) (n : NodeRow) : result string unit :=
  match parseCoreOverrides (n_CoreOverrides n) with
  | Err _ => Ok tt
  | Ok o => if isZero o then Ok tt
            else prefix_err ("node " ++ n_Name n ++ ": ") (validateCoreOverrides fleet o None)
  end.

Definition validateNodeOverridesAgainstFleet (fleet : coreConfigDTO) : M profile_error unit :=
  ns ← catch ListNodes (fun _ => Internal);
  lift match each (node_conflict fleet) ns with Ok u => Ok u | Err m => Err (Message m) end.

Definition needs_tags (dto : coreConfigDTO) : bool :=
  existsb (fun r => match ru_Inbound r with [] => false | _ => true end) (elems (RoutingRules dto)).

Definition check_inbounds (known : list string) (dto : coreConfigDTO) : result string unit :=
  each (fun r => each (fun tag => ensure (str_mem tag known) ("routing rule targets unknown inbound: " ++ tag))
                   (ru_Inbound r)) (elems (RoutingRules dto)).

Definition as_message (r : result string unit) : result profile_error unit :=
  match r with Ok u => Ok u | Err m => Err (Message m) end.

(** [applyCoreConfig]; the caches it invalidates only hold copies for the dashboard. *)
Definition applyCoreConfig (now : Z) (dto : coreConfigDTO) : M profile_error coreConfigDTO :=
  let dto := mkCore (if blank (LogLevel dto) then "warn" else LogLevel dto) (SniffEnabled dto) (Outbounds dto)
               (RoutingRules dto) (DNSServers dto) (UpdatedAt dto) in
  _ ← lift (as_message (validateCoreConfig dto));
  _ ← (if needs_tags dto then
         known ← catch ListInboundTags (fun _ => Internal);
         lift (as_message (check_inbounds known dto))
       else mret tt);
  _ ← validateNodeOverridesAgainstFleet dto;
  catch (UpdateCoreConfig now dto) (fun _ => Internal).

(** ** The node endpoints of [node.go]; errors are a status and its detail *)

Definition httperr : Type := Z * string.

Definition defaultNodePort : Z := 62050.
Definition defaultNodeAPIPort : Z := 62051.
Definition maxNodeCapacity : Z := 10000000.

(** [capacityPatch.column] *)
Definition capacity_column (p : patch Z) : result httperr (option Z) :=
  match p with
  | Value c => if (c <? 1) || (maxNodeCapacity <? c)
               then Err (422, "capacity must be between 1 and " ++ Itoa maxNodeCapacity ++ ", or null to use the panel default")
               else Ok (Some (int32 c))
  | _ => Ok None
  end.

Definition profile_http (e : profile_error) : httperr :=
  match e with
  | Internal => (500, "Could not validate the node profile")
  | Message m => (422, m)
  end.

(** *** The setup blob *)

Record nodeSetupBlob := mkBlob { b_Cert : string; b_Key : string; b_CA : string; b_Secret : string; b_PanelURL : string }.

Definition blob_json (b : nodeSetupBlob) : json := JObject
  (emit "cert" (b_Cert b) ++ emit "key" (b_Key b) ++ emit "ca" (b_CA b) ++ emit "secret" (b_Secret b) ++
   omitempty "panel_url" (b_PanelURL b) ++ [])%list.

Definition buildNodeSetupBlob (cert key ca secret panelURL : string) : string :=
  Base64.StdEncode (encode (blob_json (mkBlob cert key ca secret panelURL))).

Record nodeCreateRequest := mkCreate {
  c_Name : string; c_Address : string; c_Port : Z; c_APIPort : Z; c_UsageCoefficient : option GoFloat.float64;
  c_PanelURL : string; c_InboundTags : patch (list string); c_ListenPorts : patch (list Z);
  c_CoreOverrides : patch string; c_Capacity : patch Z
}.

(** What a create returns next to the node: the blob and its parts. *)
Record created := mkCreated { cr_Node : NodeRow; cr_Blob : string; cr_Cert : string; cr_Key : string; cr_CA : string; cr_Secret : string }.

Section Create.
(** [certs.SignNodeCert] under the CA's certificate and key, [None] when either cannot be
    used; [generateReportSecret], [None] when the system has no randomness. *)
Context (SignNodeCert : string -> string * string -> option (string * string)).
Context (generateReportSecret : option string).

Definition some_or {A} (o : option A) (e : httperr) : M httperr A :=
  match o with Some a => mret a | None => throw e end.

Definition handleCreateNode (now : Z) (req : nodeCreateRequest) : M httperr created :=
  capacity ← lift (capacity_column (c_Capacity req));
  profile ← catch (resolveNodeProfile (mkFields [] [] emptyCoreOverridesJSON) (c_InboundTags req) (c_ListenPorts req)
                     (c_CoreOverrides req)) profile_http;
  ca ← catch GetTLS (fun _ => (500, "Could not load the Rapido CA"));
  nodeCert ← some_or (SignNodeCert (c_Name req) ca) (500, "Could not issue a certificate for this node");
  reportSecret ← some_or generateReportSecret (500, "Could not generate a report secret for this node");
  node ← catch (CreateNode now (fun id =>
                  mkNode id (c_Name req) (c_Address req) (if c_Port req =? 0 then defaultNodePort else c_Port req)
                    (if c_APIPort req =? 0 then defaultNodeAPIPort else c_APIPort req)
                    (default (GoFloat.nearest 1 1) (c_UsageCoefficient req)) "connecting" (Some reportSecret)
                    (tags profile) (ports profile) (overrides profile) capacity))
           (fun e => match e with
                     | UniqueViolation => (409, "A node with this name already exists")
                     | _ => (500, "Could not create node")
                     end);
  mret (mkCreated node (buildNodeSetupBlob nodeCert.1 nodeCert.2 ca.1 reportSecret (c_PanelURL req))
          nodeCert.1 nodeCert.2 ca.1 reportSecret).
End Create.

Record nodeUpdateRequest := mkUpdateRequest {
  q_Name : option string; q_Address : option string; q_Port : option Z; q_APIPort : option Z;
  q_UsageCoefficient : option GoFloat.float64; q_Status : option string; q_Disabled : option bool;
  q_InboundTags : patch (list string); q_ListenPorts : patch (list Z); q_CoreOverrides : patch string;
  q_Capacity : patch Z
}.

Definition is_nil {A} (o : option A) : bool := match o with None => true | Some _ => false end.

Definition onlyCapacity (r : nodeUpdateRequest) : bool :=
  is_set (q_Capacity r) && is_nil (q_Name r) && is_nil (q_Address r) && is_nil (q_Port r) && is_nil (q_APIPort r) &&
  is_nil (q_UsageCoefficient r) && is_nil (q_Status r) && is_nil (q_Disabled r) &&
  negb (is_set (q_InboundTags r)) && negb (is_set (q_ListenPorts r)) && negb (is_set (q_CoreOverrides r)).

Definition node_not_found : httperr := (404, "Node not found").

Definition handleUpdateNode (now id : Z) (req : nodeUpdateRequest) : M httperr NodeRow :=
  capacity ← lift (capacity_column (q_Capacity req));
  if onlyCapacity req then
    catch (SetNodeCapacity id capacity)
      (fun e => match e with NoRows => node_not_found | _ => (500, "Could not update node") end)
  else
    current ← catch (GetNodeByID id) (fun _ => node_not_found);
    profile ← catch (resolveNodeProfile (profileFieldsFromNode current) (q_InboundTags req) (q_ListenPorts req)
                       (q_CoreOverrides req)) profile_http;
    catch (UpdateNode now id (mkUpdate (default (n_Name current) (q_Name req)) (default (n_Address current) (q_Address req))
             (default (n_Port current) (q_Port req)) (default (n_ApiPort current) (q_APIPort req))
             (q_UsageCoefficient req)
             match q_Status req with Some st => Some (String.eqb st "disabled") | None => q_Disabled req end
             (tags profile) (ports profile) (overrides profile) (is_set (q_Capacity req)) capacity))
      (fun e => match e with
                | UniqueViolation => (409, "A node with this name already exists")
                | _ => node_not_found
                end).

Definition handleDeleteNode (now id : Z) : M httperr unit :=
  _ ← catch (GetNodeByID id) (fun _ => node_not_found);
  catch (DeleteNode now id) (fun _ => (500, "Could not delete node")).

(** [handleUpdateCoreConfig] *)
Definition handleUpdateCoreConfig (now : Z) (dto : coreConfigDTO) : M httperr coreConfigDTO :=
  catch (applyCoreConfig now dto)
    (fun e => match e with Message m => (422, m) | Internal => (500, "could not save core config") end).

(** *** The node's side: [applyNodeSetupBlob] *)

Record node_config := mkNodeConfig { CertFile : string; KeyFile : string; CAFile : string; PanelURL : string; ReportSecret : string }.

Inductive blob_error := NotBase64 | NotBlob | MissingParts | WriteFailed (path : string).

(** Fields by their folded names, unknown members ignored. *)
Definition read_blob (j : json) : option nodeSetupBlob :=
  match j with
  | JNull => Some (mkBlob "" "" "" "" "")
  | JObject ms =>
      cert ← get_from "cert" (Some "") ms; key ← get_from "key" (Some "") ms; ca ← get_from "ca" (Some "") ms;
      secret ← get_from "secret" (Some "") ms; url ← get_from "panel_url" (Some "") ms;
      Some (mkBlob cert key ca secret url)
  | _ => None
  end.

(** [fs] is the file system by path; [writable] says which paths can be written. *)
Fixpoint write_files (writable : string -> bool) (ws : list (string * string)) (fs : gmap string string) :
    gmap string string * result blob_error unit :=
  match ws with
  | [] => (fs, Ok tt)
  | (path, data) :: ws =>
      if writable path then write_files writable ws (<[path := data]> fs) else (fs, Err (WriteFailed path))
  end.

Definition applyNodeSetupBlob (writable : string -> bool) (blob : string) (cfg : node_config) (fs : gmap string string) :
    gmap string string * result blob_error node_config :=
  match Base64.StdDecode blob with
  | None => (fs, Err NotBase64)
  | Some raw =>
      match parse raw ≫= read_blob with
      | None => (fs, Err NotBlob)
      | Some p =>
          if blank (b_Cert p) || blank (b_Key p) || blank (b_CA p) || blank (b_Secret p) then (fs, Err MissingParts)
          else match write_files writable [(CertFile cfg, b_Cert p); (KeyFile cfg, b_Key p); (CAFile cfg, b_CA p)] fs with
               | (fs, Err e) => (fs, Err e)
               | (fs, Ok _) =>
                   (fs, Ok (mkNodeConfig (CertFile cfg) (KeyFile cfg) (CAFile cfg)
                              (if blank (b_PanelURL p) then PanelURL cfg else b_PanelURL p) (b_Secret p)))
               end
      end
  end.
End NodeAdmin.
