(* ===== verification/NodeAdminProps.v ===== *)
(** * NodeAdminProps: what is saved for nodes is always usable

    The theorems about [NodeAdmin]: the invariant that every node's configuration, the
    fleet's with the node's overrides on top, passes the validation ([served_core_valid]);
    that everything a node's configuration depends on is counted ([change_is_counted]);
    and that the setup blob carries its parts to the node ([setup_blob_arrives]). *)

From stdpp Require Import sorting.
From S2P Require Import Prelude GoStrings GoFloat Base64 GoJson Effect CoreDto CoreConfig NodeAdmin.
Import Rules RulesProps.

#[local] Open Scope string_scope.
#[local] Open Scope Z_scope.

Module NodeAdminProps.
Import NodeAdmin.

(** ** The invariant *)

(** Overrides that can be read, and that are none or fit the fleet's configuration. *)
Definition overrides_fit (fleet : coreConfigDTO) (raw : string) : Prop :=
  exists o, parseCoreOverrides raw = Ok o /\ (isZero o = true \/ validateCoreOverrides fleet o None = Ok tt).

Definition ports_fit (ps : list Z) : Prop := Forall (fun p => 1 <= p <= 65535) ps.

Record inv (s : St) : Prop := {
  inv_core : validateCoreConfig (core_config s) = Ok tt;
  inv_id id n : nodes s !! id = Some n -> n_ID n = id;
  inv_ports id n : nodes s !! id = Some n -> ports_fit (n_ListenPorts n);
  inv_overrides id n : nodes s !! id = Some n -> overrides_fit (core_config s) (n_CoreOverrides n);
}.

(** Only the tables matter. *)
Definition faultless (P : St -> Prop) : Prop := forall s f, P s -> P (set_faults f s).

Lemma inv_faultless : faultless inv.
Proof. intros s f []. by split. Qed.

Lemma triple_call {A} P (f : St -> result callerr (St * A)) Q :
  faultless P -> (forall s s' a, P s -> f s = Ok (s', a) -> Q a s') -> triple P (call f) Q P.
Proof.
  intros HP HQ s Hs. unfold call.
  assert (forall fs, match match f (set_faults fs s) with Ok (s0, a) => (s0, Ok a) | Err e => (set_faults fs s, Err e) end with
          | (s', Ok a) => Q a s' | (s', Err _) => P s' end) as H.
  { intros fs. destruct (f (set_faults fs s)) as [[s' a]|e] eqn:E; [|by apply HP].
    by apply (HQ (set_faults fs s)); [apply HP|]. }
  destruct (faults s) as [|[] fs]; [apply H|by apply HP|apply H].
Qed.

Lemma triple_query {A} P (f : St -> result callerr A) :
  faultless P -> triple P (query f) (fun a s => P s /\ f s = Ok a) P.
Proof.
  intros HP. apply triple_call; [done|]. intros s s' a Hs. destruct (f s) eqn:E; intros [= <- <-]. done.
Qed.

Definition fields_fit (f : nodeProfileFields) (s : St) : Prop :=
  ports_fit (ports f) /\ overrides_fit (core_config s) (overrides f).

Definition inv_with (f : nodeProfileFields) (s : St) : Prop := inv s /\ fields_fit f s.

Lemma resolve_ports_fit seen raw ps : resolve_ports seen raw = Ok ps -> ports_fit ps.
Proof.
  revert seen ps. induction raw as [|p raw IH]; intros seen ps; cbn [resolve_ports]; [intros [= <-]; constructor|].
  destruct (_ || _) eqn:E; [done|]. destruct (existsb _ _); [done|].
  apply orb_false_iff in E as [H1 H2]. rewrite result_bind_ok. intros (rest & Hr & [= <-]).
  constructor; [|by eapply IH]. unfold int32. rewrite wrap_id; unfold fits; lia.
Qed.

Lemma marshalled_fit fleet o raw : parseCoreOverrides raw = Ok o -> validateCoreOverrides fleet o None = Ok tt ->
  overrides_fit fleet (encode (to_json o)).
Proof. intros Hp Hv. exists o. split; [|by right]. apply parse_marshalled. by eapply parse_codec_ok. Qed.

Lemma empty_fit fleet : overrides_fit fleet emptyCoreOverridesJSON.
Proof. exists noOverrides. split; [done|by left]. Qed.

(** ** The handlers keep it *)

Lemma fit_faultless f : faultless (inv_with f).
Proof. intros s fs [Hi Hf]. split; [by apply inv_faultless|done]. Qed.

(** A read inside a handler: the state stays, the answer is the one of the state. *)
Lemma read_triple {A E} P (f : St -> result callerr A) (e : callerr -> E) : faultless P -> (forall s, P s -> inv s) ->
  triple P (catch (query f) e) (fun a s => P s /\ f s = Ok a) inv.
Proof. intros HP Hi. apply triple_catch. by eapply triple_conseq; [apply triple_query, HP| | |]. Qed.

Lemma pure_triple {A E} (P : St -> Prop) (r : result E A) : (forall s, P s -> inv s) ->
  triple P (lift r) (fun a s => P s /\ r = Ok a) inv.
Proof. intros Hi. apply triple_lift; auto. Qed.

Ltac triple_next := eapply triple_bind; [|intros ?].

Lemma resolve_overrides_triple base known o :
  triple (inv_with base)
    (match o with
     | Absent => mret (overrides base)
     | Null => mret emptyCoreOverridesJSON
     | Value raw =>
         o ← lift (message (parseCoreOverrides raw));
         if isZero o then mret emptyCoreOverridesJSON
         else
           inbounds ← knownInbounds known;
           fleet ← catch GetCoreConfig (fun _ => Internal);
           _ ← lift match validateCoreOverrides fleet o (Some inbounds) with
                    | Ok u => Ok u | Err m => Err (Message m) end;
           mret (encode (to_json o))
     end)
    (fun ov s => inv_with base s /\ overrides_fit (core_config s) ov) inv.
Proof.
  destruct o as [| |raw].
  - apply triple_ret. intros s [Hi Hf]. split; [done|apply Hf].
  - apply triple_ret. intros s Hs. split; [done|apply empty_fit].
  - eapply triple_bind; [by apply pure_triple; intros s []|]. intros o. cbn beta.
    destruct (isZero o); [apply triple_ret; intros s [Hs _]; split; [done|apply empty_fit]|].
    set (P := fun s => inv_with base s /\ message (parseCoreOverrides raw) = Ok o).
    assert (HP : faultless P) by (intros s f [Hs He]; split; [by apply fit_faultless|exact He]).
    assert (Hi : forall s, P s -> inv s) by (by intros s [[] _]).
    apply (triple_bind _ _ _ (fun _ => P)).
    { destruct known as [k|]; [by apply triple_ret|].
      eapply triple_conseq; [by apply (read_triple P)|done| |done]. by intros a s [H _]. }
    intros inbounds. eapply triple_bind; [by apply (read_triple P)|].
    intros fleet. eapply triple_bind; [apply pure_triple; by intros s [[[] _] _]|]. intros []. apply triple_ret.
    intros s [[[Hs Hm] Hf] Hv]. split; [done|]. injection Hf as <-.
    destruct (parseCoreOverrides raw) as [o'|] eqn:Ep; [|done]. injection Hm as ->.
    apply (marshalled_fit _ _ raw Ep). apply (validate_any_inbounds _ _ (Some inbounds)).
    by destruct (validateCoreOverrides _ _ _) as [[]|].
Qed.

Lemma resolve_triple base t p o : triple (inv_with base) (resolveNodeProfile base t p o) inv_with inv.
Proof.
  unfold resolveNodeProfile.
  apply (triple_bind _ _ _ (fun _ => inv_with base)).
  { destruct t as [| |[|r raw]]; try by apply triple_ret.
    eapply triple_bind; [apply read_triple; [apply fit_faultless|by intros s []]|]. intros inbounds.
    eapply triple_bind; [apply pure_triple; by intros s [[] _]|]. intros ts. apply triple_ret. by intros s [[Hs _] _]. }
  intros [ts known].
  apply (triple_bind _ _ _ (fun ps s => inv_with base s /\ ports_fit ps)).
  { destruct p as [| |raw].
    - apply triple_ret. intros s [Hi Hf]. split; [done|apply Hf].
    - apply triple_ret. intros s Hs. split; [done|constructor].
    - eapply triple_bind; [apply pure_triple; by intros s []|]. intros ps. apply triple_ret. intros s [Hs He]. split; [done|].
      unfold ports_fit. rewrite merge_sort_Permutation. by eapply resolve_ports_fit. }
  intros ps. apply (triple_bind _ _ _ (fun ov s => inv_with (mkFields ts ps ov) s)).
  { intros s [Hs Hp]. pose proof (resolve_overrides_triple base known o s Hs) as H.
    (* the outcome below is the one of the lemma *)
    match goal with |- match ?m with _ => _ end => destruct m as [s' [ov|e]] end; [|done].
    destruct H as [[Hi _] Ho]. split; [done|]. by split. }
  intros ov. by apply triple_ret.
Qed.

(** Rows of [nodes] under the invariant. *)
Lemma inv_insert s id n v : inv s -> n_ID n = id -> ports_fit (n_ListenPorts n) ->
  overrides_fit (core_config s) (n_CoreOverrides n) -> inv (set_nodes (<[id := n]> (nodes s)) v s).
Proof.
  intros [H1 H2 H3 H4] Hid Hp Ho. split; cbn; [done|..]; intros j m; destruct (decide (j = id)) as [->|Hj];
    rewrite ?lookup_insert_eq, ?lookup_insert_ne by done; try (intros [= <-]; done); eauto.
Qed.

Lemma inv_next s n : inv s -> inv (set_next n s).
Proof. by intros []. Qed.

Lemma CreateNode_triple now row f :
  (forall id, n_ID (row id) = id /\ n_ListenPorts (row id) = ports f /\ n_CoreOverrides (row id) = overrides f) ->
  triple (inv_with f) (CreateNode now row) (fun _ => inv) inv.
Proof.
  intros Hrow. eapply triple_conseq; [apply (triple_call (inv_with f)); [apply fit_faultless|]| | |].
  - intros s s' a [Hi [Hp Ho]]. cbn zeta. destruct (Hrow (next_id s)) as (H1 & H2 & H3).
    destruct (negb _); [done|]. destruct (_ || _); [done|]. intros [= <- <-].
    instantiate (1 := fun _ => inv). apply inv_next. rewrite H1. apply inv_insert; [done|done|by rewrite H2|by rewrite H3].
  - done.
  - done.
  - by intros s [].
Qed.

Lemma update_triple version' id f P : faultless P -> (forall s, P s -> inv s) ->
  (forall s n, P s -> nodes s !! id = Some n -> n_ID (f n) = id /\ ports_fit (n_ListenPorts (f n)) /\
               overrides_fit (core_config s) (n_CoreOverrides (f n))) ->
  triple P (update_node version' id f) (fun _ => inv) inv.
Proof.
  intros HP Hi Hf. eapply triple_conseq; [apply (triple_call P); [done|]| | |].
  - intros s s' a Hs. instantiate (1 := fun _ => inv). destruct (nodes s !! id) as [n|] eqn:En; [|done]. cbn zeta.
    destruct (negb _); [done|]. destruct (name_taken _ _); [done|]. intros [= <- <-].
    destruct (Hf s n Hs En) as (H1 & H2 & H3). apply inv_insert; auto.
  - done.
  - done.
  - done.
Qed.

Lemma create_triple sign secret now req : triple inv (handleCreateNode sign secret now req) (fun _ => inv) inv.
Proof.
  unfold handleCreateNode. eapply triple_bind; [by apply pure_triple|]. intros capacity.
  eapply triple_bind.
  { apply triple_catch. eapply triple_conseq; [apply resolve_triple| |done|done].
    intros s [Hs _]. split; [done|]. split; [constructor|apply empty_fit]. }
  intros f. eapply triple_bind; [apply read_triple; [apply fit_faultless|by intros s []]|]. intros ca.
  apply (triple_bind _ _ _ (fun _ => inv_with f)).
  { unfold some_or. destruct (sign _ _); [apply triple_ret; by intros s []|apply triple_throw; by intros s [[] _]]. }
  intros cert. apply (triple_bind _ _ _ (fun _ => inv_with f)).
  { unfold some_or. destruct secret; [by apply triple_ret|apply triple_throw; by intros s []]. }
  intros sec. eapply triple_bind; [apply triple_catch, CreateNode_triple; intros id; done|]. intros n. by apply triple_ret.
Qed.

Lemma updated_row id f p s n : inv_with f s -> u_ListenPorts p = ports f -> u_CoreOverrides p = overrides f ->
  nodes s !! id = Some n -> n_ID (updated p n) = id /\ ports_fit (n_ListenPorts (updated p n)) /\
  overrides_fit (core_config s) (n_CoreOverrides (updated p n)).
Proof. intros [Hi [Hp Ho]] E1 E2 En. cbn. rewrite E1, E2. split; [by eapply inv_id|done]. Qed.

Lemma profile_of_row s id n : inv s -> nodes s !! id = Some n -> fields_fit (profileFieldsFromNode n) s.
Proof.
  intros Hi Hn. split; [by eapply inv_ports|]. cbn. destruct (blank (n_CoreOverrides n)); [apply empty_fit|].
  by eapply inv_overrides.
Qed.

Lemma handle_update_triple now id req : triple inv (handleUpdateNode now id req) (fun _ => inv) inv.
Proof.
  unfold handleUpdateNode. eapply triple_bind; [by apply pure_triple|]. intros capacity. cbn beta.
  destruct (onlyCapacity req).
  { apply triple_catch, update_triple; [intros s f []; split; [by apply inv_faultless|done]|by intros s []|].
    intros s n [Hi _] Hn. split; [exact (inv_id _ Hi _ _ Hn)|].
    split; [exact (inv_ports _ Hi _ _ Hn)|exact (inv_overrides _ Hi _ _ Hn)]. }
  eapply triple_bind; [apply read_triple; [intros s f []; split; [by apply inv_faultless|done]|by intros s []]|].
  intros current. eapply triple_bind.
  { apply triple_catch. eapply triple_conseq; [apply resolve_triple| |done|done].
    intros s [[Hi _] Hn]. destruct (nodes s !! id) eqn:E; [|done]. injection Hn as <-.
    split; [done|]. by apply (profile_of_row s id). }
  intros f. apply triple_catch, update_triple; [apply fit_faultless|by intros s []|].
  intros s n Hs Hn. by apply (updated_row id f).
Qed.

Lemma handle_delete_triple now id : triple inv (handleDeleteNode now id) (fun _ => inv) inv.
Proof.
  unfold handleDeleteNode. eapply triple_bind; [by apply read_triple; [apply inv_faultless|]|]. intros n.
  apply triple_catch. eapply triple_conseq; [apply (triple_call inv); [apply inv_faultless|]| | |].
  - intros s s' u [H1 H2 H3 H4] [= <- <-]. instantiate (1 := fun _ => inv).
    split; cbn; [done|..]; intros j m [_ Hj]%lookup_delete_Some; eauto.
  - by intros s [].
  - done.
  - done.
Qed.

(** No row of the database stands in the way of the new configuration. *)
Definition no_conflict (dto : coreConfigDTO) (s : St) : Prop :=
  inv s /\ forall id n, nodes s !! id = Some n -> node_conflict dto n = Ok tt.

Lemma overrides_triple dto : triple inv (validateNodeOverridesAgainstFleet dto) (fun _ => no_conflict dto) inv.
Proof.
  unfold validateNodeOverridesAgainstFleet.
  eapply triple_bind; [apply read_triple; [apply inv_faultless|done]|]. intros ns.
  apply triple_lift; [|by intros s []]. intros s u [Hi Hns] Hok. split; [done|]. intros id n Hn.
  destruct (each _ _) as [[]|] eqn:E; [|done]. rewrite each_ok, Forall_forall in E. apply E.
  injection Hns as <-. rewrite merge_sort_Permutation.
  change (map snd ?l) with (snd <$> l). apply list_elem_of_fmap. exists (id, n). split; [done|].
  by apply elem_of_map_to_list.
Qed.

Lemma applyCoreConfig_triple now dto : triple inv (applyCoreConfig now dto) (fun _ => inv) inv.
Proof.
  unfold applyCoreConfig. set (dto' := mkCore _ _ _ _ _ _). cbn zeta.
  eapply triple_bind; [by apply pure_triple|]. intros [].
  set (P := fun s => inv s /\ as_message (validateCoreConfig dto') = Ok tt).
  assert (HP : faultless P) by (intros s f [Hs He]; split; [by apply inv_faultless|exact He]).
  apply (triple_bind _ _ _ (fun _ => P)).
  { destruct (needs_tags dto'); [|by apply triple_ret].
    eapply triple_bind; [apply (read_triple P); [done|by intros s []]|]. intros known.
    apply triple_lift; [by intros s a []|by intros s [[] _]]. }
  intros []. apply (triple_bind _ _ _ (fun _ s => no_conflict dto' s /\ validateCoreConfig dto' = Ok tt)).
  { intros s [Hi Hv]. pose proof (overrides_triple dto' s Hi) as H.
    destruct (validateNodeOverridesAgainstFleet dto' s) as [s' [u|e]]; [|done]. split; [done|].
    by destruct (validateCoreConfig dto') as [[]|]. }
  intros []. apply triple_catch. eapply triple_conseq; [apply (triple_call (fun s => no_conflict dto' s /\ validateCoreConfig dto' = Ok tt))| | |].
  - intros s f [[Hi Hn] Hv]. split; [|done]. split; [by apply inv_faultless|done].
  - intros s s' row [[[H1 H2 H3 H4] Hn] Hv]. instantiate (1 := fun _ => inv). destruct (str_mem _ _); [|done]. intros [= <- <-].
    set (row := mkCore _ _ _ _ _ (Some now)). assert (E : same_core dto' row) by done.
    split; cbn; [by rewrite <- (validate_same _ _ E)|done|done|].
    intros id n Hid. destruct (H4 id n Hid) as (o & Hp & _). exists o. split; [done|]. specialize (Hn id n Hid).
    unfold node_conflict in Hn. rewrite Hp in Hn. destruct (isZero o); [by left|right].
    rewrite <- (overrides_same _ _ o None E). unfold prefix_err in Hn. by destruct (validateCoreOverrides _ _ _) as [[]|].
  - done.
  - done.
  - by intros s [[] _].
Qed.

(** ** Any sequence of requests *)

Inductive op :=
  | Create (sign : string -> string * string -> option (string * string)) (secret : option string) (req : nodeCreateRequest)
  | Update (id : Z) (req : nodeUpdateRequest)
  | Delete (id : Z)
  | SaveCore (dto : coreConfigDTO)
  | Inbounds (tags : list string)
  | Faults (fs : list bool).

Definition step (now : Z) (o : op) (s : St) : St :=
  match o with
  | Create sign secret req => (handleCreateNode sign secret now req s).1
  | Update id req => (handleUpdateNode now id req s).1
  | Delete id => (handleDeleteNode now id s).1
  | SaveCore dto => (handleUpdateCoreConfig now dto s).1
  | Inbounds ts => mkSt (core_config s) (nodes s) ts (tls s) (next_id s) (bump now s) (faults s)
  | Faults fs => set_faults fs s
  end.

Definition run (ops : list (Z * op)) (s : St) : St := foldl (fun s '(now, o) => step now o s) s ops.

Lemma request_inv now o s : inv s -> inv (step now o s).
Proof.
  intros Hs. destruct o; cbn.
  - by apply (triple_state inv _ inv (create_triple _ _ _ _)).
  - by apply (triple_state inv _ inv (handle_update_triple _ _ _)).
  - by apply (triple_state inv _ inv (handle_delete_triple _ _)).
  - by apply (triple_state inv _ inv (triple_catch _ _ _ _ _ (applyCoreConfig_triple _ _))).
  - by destruct Hs.
  - by apply inv_faultless.
Qed.

Lemma requests_inv ops s : inv s -> inv (run ops s).
Proof.
  unfold run. revert s. induction ops as [|[now o] ops IH]; intros s Hs; [done|]. cbn. by apply IH, request_inv.
Qed.

(** The row migration 00007 inserts. *)
Definition default_core (t : option Z) : coreConfigDTO := mkCore "warn" true (Some []) (Some []) (Some []) t.

(** A fresh installation. *)
Definition installed (s : St) : Prop := (exists t, core_config s = default_core t) /\ nodes s = ∅.

Lemma installed_inv s : installed s -> inv s.
Proof. intros [[t Ht] Hn]. split; rewrite ?Ht, ?Hn; [done|..]; intros ? ?; by rewrite lookup_empty. Qed.

(** C30: After any requests on nodes and on the core configuration, accepted or refused and
    whichever statements fail, every node's overrides can be read and the configuration
    it is given — the fleet's with its overrides on top — is valid: its tags are unique
    and every group member, rule target and port in it is a real one. *)
Theorem served_core_valid ops s id n :
  installed s -> nodes (run ops s) !! id = Some n ->
  exists o, parseCoreOverrides (n_CoreOverrides n) = Ok o /\
    validateCoreConfig (apply o (core_config (run ops s))) = Ok tt /\
    consistent (apply o (core_config (run ops s))) /\ ports_fit (n_ListenPorts n).
Proof.
  intros Hs Hn. pose proof (requests_inv ops s (installed_inv s Hs)) as Hi.
  destruct (inv_overrides _ Hi id n Hn) as (o & Hp & Ho). exists o. split; [done|].
  assert (validateCoreConfig (apply o (core_config (run ops s))) = Ok tt) as Hv.
  { destruct Ho as [Hz|Hv]; [rewrite apply_zero by done; apply Hi|by eapply validate_applied]. }
  split; [done|]. split; [by apply validate_consistent|by eapply inv_ports].
Qed.

(** ** Every change is counted *)

(** What a node's configuration takes from its row. *)
Definition profile_of (n : NodeRow) : list string * list Z * string := (n_InboundTags n, n_ListenPorts n, n_CoreOverrides n).

Definition profiles (s : St) : gmap Z (list string * list Z * string) := profile_of <$> nodes s.

Definition same_inputs (s s' : St) : Prop :=
  core_config s' = core_config s /\ inbound_tags s' = inbound_tags s /\ profiles s' = profiles s.

(** From [s] to [s']: nothing a node is told changed, or the counter went up. *)
Definition counted (s s' : St) : Prop :=
  version s < version s' \/ (version s' = version s /\ same_inputs s s').

Definition untouched (s s' : St) : Prop := version s' = version s /\ same_inputs s s' /\ nodes s' = nodes s.

Lemma untouched_faultless s : faultless (untouched s).
Proof. by intros s' f. Qed.

Lemma untouched_counted s s' : untouched s s' -> counted s s'.
Proof. intros (Hv & Hs & _). by right. Qed.

Lemma untouched_refl s : untouched s s.
Proof. done. Qed.

Lemma reads {A E} s (f : St -> result callerr A) (e : callerr -> E) :
  triple (untouched s) (catch (query f) e) (fun _ => untouched s) (untouched s).
Proof.
  apply triple_catch. eapply triple_conseq; [apply triple_query, untouched_faultless|done| |done]. by intros a s' [].
Qed.

Lemma pure_reads {A E} s (r : result E A) : triple (untouched s) (lift r) (fun _ => untouched s) (untouched s).
Proof. by apply triple_lift. Qed.

Ltac reads_only :=
  repeat first
    [ apply triple_ret; by auto
    | apply reads
    | apply pure_reads
    | match goal with |- triple (untouched ?s) (_ ≫= _) _ _ =>
        eapply (triple_bind (untouched s) _ _ (fun _ => untouched s)); [|intros ?] end
    | apply triple_catch
    | progress case_match ].

Lemma profile_reads s base t p o :
  triple (untouched s) (resolveNodeProfile base t p o) (fun _ => untouched s) (untouched s).
Proof. unfold resolveNodeProfile, knownInbounds. reads_only. Qed.

Lemma overrides_reads s dto :
  triple (untouched s) (validateNodeOverridesAgainstFleet dto) (fun _ => untouched s) (untouched s).
Proof. unfold validateNodeOverridesAgainstFleet. reads_only. Qed.

Lemma bump_counts now s s' : untouched s s' -> version s < bump now s'.
Proof. intros (Hv & _). unfold bump. lia. Qed.

(** The one statement a handler ends in. *)
Lemma writes {A} s (f : St -> result callerr (St * A)) :
  (forall s1 s2 a, untouched s s1 -> f s1 = Ok (s2, a) -> counted s s2) ->
  triple (untouched s) (call f) (fun _ => counted s) (counted s).
Proof.
  intros Hf. eapply triple_conseq; [apply triple_call; [apply untouched_faultless|]|done| |].
  - intros s1 s2 a H1 E. instantiate (1 := fun _ => counted s). by eapply Hf.
  - done.
  - apply untouched_counted.
Qed.

Lemma reads_then {A B E} s (m : M E A) (f : A -> M E B) :
  triple (untouched s) m (fun _ => untouched s) (untouched s) ->
  (forall a, triple (untouched s) (f a) (fun _ => counted s) (counted s)) ->
  triple (untouched s) (m ≫= f) (fun _ => counted s) (counted s).
Proof.
  intros Hm Hf. eapply triple_bind; [|exact Hf]. eapply triple_conseq; [exact Hm|done|done|apply untouched_counted].
Qed.

Lemma update_counts s version' id f :
  (forall s1, untouched s s1 -> version s < version' s1 \/ (version' s1 = version s1 /\ forall n, profile_of (f n) = profile_of n)) ->
  triple (untouched s) (update_node version' id f) (fun _ => counted s) (counted s).
Proof.
  intros Hv. apply writes. intros s1 s2 n H1. destruct (nodes s1 !! id) as [n0|] eqn:En; [|done]. cbn zeta.
  destruct (negb _); [done|]. destruct (name_taken _ _); [done|]. intros [= <- <-].
  destruct (Hv s1 H1) as [Hlt|[Heq Hp]]; [by left|right]. destruct H1 as (E1 & (E2 & E3 & E4) & E5). cbn.
  split; [by rewrite Heq|]. split; [done|]. split; [done|]. unfold profiles in *. cbn. rewrite fmap_insert, Hp, <- E4.
  apply insert_id. by rewrite lookup_fmap, En.
Qed.

(** Whatever a request changes of what nodes are told — the core configuration, the set
    of inbounds, the nodes and their profiles — makes the counter that nodes' polls
    compare go up, and the counter never goes down; setting a node's capacity alone
    leaves it as it is. *)
Theorem change_is_counted now o s : counted s (step now o s).
Proof.
  destruct o as [sign secret req|id req|id|dto|ts|fs]; cbn [step].
  - apply (triple_state (untouched s) _ (counted s)); [|done]. unfold handleCreateNode.
    apply reads_then; [apply pure_reads|intros capacity].
    apply reads_then; [apply triple_catch, profile_reads|intros f]. apply reads_then; [apply reads|intros ca].
    apply reads_then; [unfold some_or; destruct (sign _ _); [by apply triple_ret|by apply triple_throw]|intros cert].
    apply reads_then; [unfold some_or; destruct secret; [by apply triple_ret|by apply triple_throw]|intros sec].
    eapply triple_bind; [apply triple_catch, writes|intros n; by apply triple_ret].
    intros s1 s2 n H1. cbn zeta. destruct (negb _); [done|]. destruct (_ || _); [done|]. intros [= <- <-].
    left. by apply bump_counts.
  - apply (triple_state (untouched s) _ (counted s)); [|done]. unfold handleUpdateNode.
    apply reads_then; [apply pure_reads|intros capacity]. destruct (onlyCapacity req).
    + apply triple_catch, update_counts. intros s1 _. by right.
    + apply reads_then; [apply reads|intros current].
      apply reads_then; [apply triple_catch, profile_reads|intros f]. apply triple_catch, update_counts.
      intros s1 H1. left. by apply bump_counts.
  - apply (triple_state (untouched s) _ (counted s)); [|done]. unfold handleDeleteNode.
    apply reads_then; [apply reads|intros n]. apply triple_catch, writes. intros s1 s2 u H1 [= <- <-].
    left. by apply bump_counts.
  - apply (triple_state (untouched s) _ (counted s)); [|done]. apply triple_catch. unfold applyCoreConfig. cbn zeta.
    apply reads_then; [apply pure_reads|intros _]. apply reads_then; [reads_only|intros _].
    apply reads_then; [apply overrides_reads|intros _]. apply triple_catch, writes.
    intros s1 s2 row H1. destruct (str_mem _ _); [|done]. intros [= <- <-]. left. by apply bump_counts.
  - left. by apply bump_counts.
  - by right.
Qed.

(** ** The setup blob *)

Definition blob_ok (b : nodeSetupBlob) : Prop :=
  Forall (fun x => ValidUTF8 x = true /\ x <> "") [b_Cert b; b_Key b; b_CA b; b_Secret b] /\ ValidUTF8 (b_PanelURL b) = true.

Lemma blob_wf b : blob_ok b -> wf_json (blob_json b) = true.
Proof.
  intros [Hf Hu]. rewrite !Forall_cons in Hf. destruct Hf as ([H1 _] & [H2 _] & [H3 _] & [H4 _] & _).
  assert (forall x, ValidUTF8 x = true -> codec_ok x) as Hok by exact (fun x H => H).
  unfold blob_json. repeat (apply emit_wf; [done|by apply Hok|]). done.
Qed.

Lemma read_blob_json b : blob_ok b -> read_blob (blob_json b) = Some b.
Proof.
  intros [Hf Hu]. rewrite !Forall_cons in Hf. destruct Hf as ([H1 _] & [H2 _] & [H3 _] & [H4 _] & _).
  destruct b as [cert key ca secret url]. cbn [b_Cert b_Key b_CA b_Secret b_PanelURL] in *.
  assert (codec_ok cert /\ codec_ok key /\ codec_ok ca /\ codec_ok secret /\ codec_ok url) as (G1 & G2 & G3 & G4 & G5) by (repeat split; assumption).
  unfold read_blob, blob_json. cbn [b_Cert b_Key b_CA b_Secret b_PanelURL]. change "" with (@zero string _).
  read_fields. reflexivity.
Qed.

Lemma blob_opens cert key ca secret url : blob_ok (mkBlob cert key ca secret url) ->
  Base64.StdDecode (buildNodeSetupBlob cert key ca secret url) ≫= (fun raw => parse raw ≫= read_blob) =
  Some (mkBlob cert key ca secret url).
Proof.
  intros Hb. eapply bind_some; [apply Base64.StdDecode_StdEncode|].
  eapply bind_some; [by apply parse_encode, blob_wf|]. by apply read_blob_json.
Qed.

Lemma node_call_ok {A} (f : St -> result callerr (St * A)) s s' a : call f s = (s', Ok a) ->
  exists fs, f (set_faults fs s) = Ok (s', a).
Proof.
  unfold call. destruct (faults s) as [|[] fs]; [|done|]; (destruct (f _) as [[s1 a1]|] eqn:E; [|done]; intros [= -> ->]; eauto).
Qed.

(** The only row that has this secret. *)
Definition known_by (secret : string) (n : NodeRow) (s : St) : Prop :=
  nodes s !! n_ID n = Some n /\ n_ReportSecret n = Some secret /\
  forall id m, nodes s !! id = Some m -> n_ID m = id -> n_ReportSecret m = Some secret -> m = n.

Lemma CreateNode_known now row s s' n secret :
  (forall id, n_ID (row id) = id /\ n_ReportSecret (row id) = Some secret) ->
  CreateNode now row s = (s', Ok n) -> known_by secret n s'.
Proof.
  intros Hrow H. apply node_call_ok in H as [fs H]. cbn zeta in H.
  set (s0 := set_faults fs s) in *. destruct (Hrow (next_id s0)) as [Hid Hsec].
  destruct (negb _); [done|]. destruct (name_taken _ _); [done|]. destruct (secret_taken _ s0) eqn:Es; [done|].
  injection H as <- <-. split; [|split; [done|]]; cbn; [by rewrite lookup_insert_eq|].
  intros id m Hm Em Hs. destruct (decide (id = n_ID (row (next_id s0)))) as [->|Hne].
  { rewrite lookup_insert_eq in Hm. by injection Hm. }
  rewrite lookup_insert_ne in Hm by done. exfalso. unfold secret_taken, taken in Es.
  rewrite <- not_true_iff_false in Es. apply Es, existsb_exists. exists m. split.
  - change (map snd ?l) with (snd <$> l). apply list_elem_of_In, list_elem_of_fmap. exists (id, m). split; [done|].
    by apply elem_of_map_to_list.
  - rewrite (proj2 (Z.eqb_neq _ _)) by congruence. rewrite bool_decide_true by (by rewrite Hs, Hsec). done.
Qed.

Lemma known_found secret n s : (forall id m, nodes s !! id = Some m -> n_ID m = id) -> known_by secret n s ->
  (GetNodeByReportSecret secret (set_faults [] s)).2 = Ok n.
Proof.
  intros Hids (Hn & Hs & Hu). unfold GetNodeByReportSecret, query, call. cbn.
  set (p := fun n => bool_decide (n_ReportSecret n = Some secret)).
  assert (Hin : In n (map snd (map_to_list (nodes s)))).
  { change (map snd ?l) with (snd <$> l). apply list_elem_of_In, list_elem_of_fmap. exists (n_ID n, n). split; [done|].
    by apply elem_of_map_to_list. }
  destruct (List.find p (map snd (map_to_list (nodes s)))) as [m|] eqn:E.
  - apply find_some in E as [Hm Hp]. apply bool_decide_eq_true in Hp.
    change (map snd ?l) with (snd <$> l) in Hm. apply list_elem_of_In, list_elem_of_fmap in Hm as ([id m'] & -> & Hm).
    apply elem_of_map_to_list in Hm. cbn in *. by rewrite (Hu id m' Hm (Hids id m' Hm) Hp).
  - exfalso. pose proof (find_none _ _ E n Hin) as Hf. unfold p in Hf. by rewrite bool_decide_true in Hf.
Qed.

Lemma create_result sign secret now req s s' c :
  handleCreateNode sign secret now req s = (s', Ok c) ->
  known_by (cr_Secret c) (cr_Node c) s' /\
  cr_Blob c = buildNodeSetupBlob (cr_Cert c) (cr_Key c) (cr_CA c) (cr_Secret c) (c_PanelURL req).
Proof.
  unfold handleCreateNode. intros H. do 5 apply eff_bind_ok in H as (? & ? & _ & H).
  apply eff_bind_ok in H as (? & n & H & [= <- <-]). apply catch_ok in H. cbn. split; [|done].
  by eapply CreateNode_known; [|exact H].
Qed.

(** What a create hands out reaches the node: pasted as NODE_SETUP_BLOB on a machine that
    can write its three files, the blob leaves exactly the certificate, key and CA there
    and the secret in the configuration, and the panel knows the node by that secret as
    the one that was created. *)
Theorem setup_blob_arrives sign secret now req s s' c writable cfg fs :
  inv s -> handleCreateNode sign secret now req s = (s', Ok c) ->
  blob_ok (mkBlob (cr_Cert c) (cr_Key c) (cr_CA c) (cr_Secret c) (c_PanelURL req)) ->
  NoDup [CertFile cfg; KeyFile cfg; CAFile cfg] ->
  Forall (fun p => writable p = true) [CertFile cfg; KeyFile cfg; CAFile cfg] ->
  exists fs' cfg', applyNodeSetupBlob writable (cr_Blob c) cfg fs = (fs', Ok cfg') /\
    fs' !! CertFile cfg = Some (cr_Cert c) /\ fs' !! KeyFile cfg = Some (cr_Key c) /\ fs' !! CAFile cfg = Some (cr_CA c) /\
    (forall p, p ∉ [CertFile cfg; KeyFile cfg; CAFile cfg] -> fs' !! p = fs !! p) /\
    (c_PanelURL req <> "" -> PanelURL cfg' = c_PanelURL req) /\
    (GetNodeByReportSecret (ReportSecret cfg') (set_faults [] s')).2 = Ok (cr_Node c).
Proof.
  intros Hi H Hb Hnd Hw. pose proof (create_triple sign secret now req s Hi) as Hi'. rewrite H in Hi'.
  apply create_result in H as [Hk ->]. pose proof (blob_opens _ _ _ _ _ Hb) as Hopen.
  rewrite !NoDup_cons, !not_elem_of_cons in Hnd. destruct Hnd as ((H1 & H2 & _) & (H3 & _) & _).
  rewrite !Forall_cons in Hw. destruct Hw as (W1 & W2 & W3 & _).
  destruct Hb as [Hf _]. rewrite !Forall_cons in Hf. destruct Hf as ([_ B1] & [_ B2] & [_ B3] & [_ B4] & _). cbn in B1, B2, B3, B4.
  unfold applyNodeSetupBlob. destruct (Base64.StdDecode _) as [raw|]; [|done]. cbn [mbind option_bind] in Hopen.
  rewrite Hopen. unfold blank. cbn [b_Cert b_Key b_CA b_Secret b_PanelURL].
  rewrite !(proj2 (String.eqb_neq _ _)) by done. cbn [orb write_files]. rewrite W1, W2, W3.
  eexists _, _. split; [done|]. split; [by simplify_map_eq|]. split; [by simplify_map_eq|]. split; [by simplify_map_eq|].
  split; [|split].
  - intros p Hp. rewrite !not_elem_of_cons in Hp. destruct Hp as (P1 & P2 & P3 & _). by simplify_map_eq.
  - intros Hu. cbn. by rewrite (proj2 (String.eqb_neq _ _) Hu).
  - cbn. apply known_found; [|done]. apply Hi'.
Qed.

(** ** The theorems on concrete requests *)

Definition demo_start : St := mkSt (default_core (Some 5)) ∅ ["vless-ws"] (Some ("CA", "CAKEY")) 1 0 [].

Definition demo_outbound (tag : string) : outboundDTO :=
  mkOutbound tag "direct" "" 0 "" "" [] "" "" "" "" "" 0 "" "" "" "" 0 0 "" "" false "" false "" false.

Definition demo_overrides : coreOverridesDTO :=
  mkOverrides (Some "debug") None None [demo_outbound "wg"]
    [mkRule ["vless-ws"] [443] [] [] [] [] false [] [] [] [] "wg"].

Definition demo_sign (name : string) (ca : string * string) : option (string * string) := Some ("CERT " ++ name, "KEY").

Definition demo_create : nodeCreateRequest :=
  mkCreate "n1" "10.0.0.1" 0 0 None "https://panel" (Value ["vless-ws"]) (Value [443])
    (Value (" " ++ encode (to_json demo_overrides))) Absent.

(** A node whose overrides shadow port 443, then a fleet that defines an outbound of the
    same tag: both are accepted. *)
Definition demo_ops : list (Z * op) :=
  [(10, Create demo_sign (Some "secret") demo_create);
   (20, SaveCore (mkCore "" true (Some [demo_outbound "wg"; demo_outbound "wg2"]) (Some []) None None))].

Definition demo_node : NodeRow :=
  mkNode 1 "n1" "10.0.0.1" 62050 62051 (GoFloat.nearest 1 1) "connecting" (Some "secret") ["vless-ws"] [443]
    (encode (to_json demo_overrides)) None.

Lemma served_core_valid_witness :
  exists o, parseCoreOverrides (n_CoreOverrides demo_node) = Ok o /\
    validateCoreConfig (apply o (core_config (run demo_ops demo_start))) = Ok tt /\
    consistent (apply o (core_config (run demo_ops demo_start))) /\ ports_fit (n_ListenPorts demo_node).
Proof.
  assert (H1 : installed demo_start) by (split; [by exists (Some 5)|done]).
  assert (H2 : nodes (run demo_ops demo_start) !! 1 = Some demo_node) by (vm_compute; reflexivity).
  exact (served_core_valid demo_ops demo_start 1 demo_node H1 H2).
Defined.

(** The fleet really took the second configuration. *)
Example demo_saved : option_map (map ob_Tag) (Outbounds (core_config (run demo_ops demo_start))) = Some ["wg"; "wg2"].
Proof. vm_compute. reflexivity. Qed.

Definition demo_config : node_config := mkNodeConfig "/c.pem" "/k.pem" "/ca.pem" "" "".

Definition demo_created : created :=
  mkCreated demo_node (buildNodeSetupBlob "CERT n1" "KEY" "CA" "secret" "https://panel") "CERT n1" "KEY" "CA" "secret".

Lemma setup_blob_arrives_witness : exists fs' cfg',
  applyNodeSetupBlob (fun _ => true) (cr_Blob demo_created) demo_config ∅ = (fs', Ok cfg') /\
  fs' !! "/c.pem" = Some "CERT n1" /\ fs' !! "/k.pem" = Some "KEY" /\ fs' !! "/ca.pem" = Some "CA" /\
  (forall p, p ∉ ["/c.pem"; "/k.pem"; "/ca.pem"] -> fs' !! p = (∅ : gmap string string) !! p) /\
  ("https://panel" <> "" -> PanelURL cfg' = "https://panel") /\
  (GetNodeByReportSecret (ReportSecret cfg') (set_faults []
     (handleCreateNode demo_sign (Some "secret") 10 demo_create demo_start).1)).2 = Ok demo_node.
Proof.
  assert (H1 : inv demo_start) by (apply installed_inv; split; [by exists (Some 5)|done]).
  assert (H2 : handleCreateNode demo_sign (Some "secret") 10 demo_create demo_start =
    ((handleCreateNode demo_sign (Some "secret") 10 demo_create demo_start).1, Ok demo_created)) by (vm_compute; reflexivity).
  assert (H3 : blob_ok (mkBlob "CERT n1" "KEY" "CA" "secret" "https://panel"))
    by (split; [repeat constructor; done|done]).
  assert (H4 : NoDup [CertFile demo_config; KeyFile demo_config; CAFile demo_config])
    by (apply NoDup_ListNoDup; repeat constructor; cbn; intros H; intuition discriminate).
  assert (H5 : Forall (fun p : string => true = true) [CertFile demo_config; KeyFile demo_config; CAFile demo_config])
    by (repeat constructor).
  exact (setup_blob_arrives demo_sign (Some "secret") 10 demo_create demo_start _ demo_created (fun _ => true)
           demo_config ∅ H1 H2 H3 H4 H5).
Defined.

(** The checks of a node's overrides and of the fleet's configuration read the other one
    before they write: a fleet without the outbound, saved between the check of a
    profile that routes to it and its write, leaves the node with a rule that goes
    nowhere. *)
Definition race_overrides : coreOverridesDTO :=
  mkOverrides None None None [] [mkRule [] [] ["example.org"] [] [] [] false [] [] [] [] "wg"].

Definition race_start : St := run demo_ops demo_start.

Example profile_race :
  let '(s1, profile) := resolveNodeProfile (mkFields [] [] "{}") Absent Absent (Value (encode (to_json race_overrides))) race_start in
  let '(s2, saved) := applyCoreConfig 30 (mkCore "warn" true (Some [demo_outbound "other"]) (Some []) None None) s1 in
  match profile, saved with
  | Ok f, Ok _ =>
      let s3 := (UpdateNode 40 1 (mkUpdate "n1" "10.0.0.1" 1 1 None None (tags f) (ports f) (overrides f) false None) s2).1 in
      match nodes s3 !! 1 with
      | Some n => match parseCoreOverrides (n_CoreOverrides n) with
                  | Ok o => validateCoreConfig (apply o (core_config s3)) = Err "routing rule targets unknown outbound: wg"
                  | Err _ => False
                  end
      | None => False
      end
  | _, _ => False
  end.
Proof. vm_compute. reflexivity. Qed.
End NodeAdminProps.
