(* ===== verification/NodeConfig.v ===== *)
(** * NodeConfig: what a node is told to serve — [nodeconfig.go], [nodeprofile.go]

    The panel computes each node's configuration from its tables: the inbounds that can
    be served ([ListAutoSyncInbounds]), each with the credentials of every active user
    of its protocol ([loadNodeConfigSnapshot]), narrowed to the tags and ports of the
    node's profile ([filterInbounds]) and with the node's overrides applied to the core
    configuration. The body sent is spliced together from lists of users encoded once
    per protocol ([render], [nodeConfigBodyBytes]). *)

From stdpp Require Import sorting.
From S2P Require Import Prelude GoStrings Base64 GoJson ProxySettings Store CoreDto CoreConfig.
Import Rules.

#[local] Open Scope string_scope.
#[local] Open Scope Z_scope.

Module NodeConfig.

(** ** The rows read *)

(** [inbounds] and [hosts], as far as they are read here. *)
Record InboundRow := mkInbound {
  i_Tag : string; i_Protocol : string; i_Network : string; i_HeaderType : option string; i_Security : string;
  i_RealityPrivateKey : option string; i_RealityShortIds : option (list string);
  i_RealityServerName : option string; i_RealityServerPort : option Z;
  i_TlsCertificate : option string; i_TlsKey : option string; i_TlsServerName : option string;
  i_Hysteria2ObfsPassword : option string; i_UpMbps : option Z; i_DownMbps : option Z;
  i_CongestionControl : option string; i_ZeroRttHandshake : bool;
  i_SnellPsk : option string; i_SnellV6Mode : option string
}.

Record HostRow := mkHost {
  h_ID : Z; h_InboundTag : string; h_Port : option Z; h_Host : option string; h_Path : option string;
  h_IsDisabled : option bool
}.

(** A row of [ListAutoSyncInbounds]: the inbound with its primary host and all ports. *)
Record AutoSyncRow := mkRow { r_Inbound : InboundRow; r_Port : Z; r_Host : option string; r_Path : option string; r_Ports : list Z }.

Record ProxyRow := mkProxyRow { pr_UserID : Z; pr_Username : string; pr_Type : string; pr_Settings : ProxySettings.payload }.

Definition text (o : option string) : string := default "" o.
Definition int4 (o : option Z) : Z := default 0 o.
Definition nonblank (o : option string) : bool := negb (blank (text o)).

(** [is_disabled IS NOT TRUE AND port IS NOT NULL] *)
Definition serving (tag : string) (h : HostRow) : bool :=
  String.eqb (h_InboundTag h) tag && negb (bool_decide (h_IsDisabled h = Some true)) &&
  match h_Port h with Some _ => true | None => false end.

Definition by_host_id (a b : HostRow) : Prop := h_ID a <= h_ID b.
#[export] Instance by_host_id_dec : RelDecision by_host_id. Proof. intros a b. apply Z_le_dec. Defined.

Definition by_tag (a b : AutoSyncRow) : Prop := str_ltb (i_Tag (r_Inbound b)) (i_Tag (r_Inbound a)) = false.
#[export] Instance by_tag_dec : RelDecision by_tag. Proof. intros a b. unfold by_tag. apply _. Defined.

Definition servable (i : InboundRow) : bool :=
  str_mem (i_Security i) ["none"; "reality"] ||
  String.eqb (i_Security i) "tls" && nonblank (i_TlsCertificate i) && nonblank (i_TlsKey i).

Definition sync_row (hosts : list HostRow) (i : InboundRow) : option AutoSyncRow :=
  if servable i then
    match merge_sort by_host_id (List.filter (serving (i_Tag i)) hosts) with
    | [] => None
    | h :: _ =>
        Some (mkRow i (int4 (h_Port h)) (h_Host h) (h_Path h)
                (merge_sort Z.le (remove_dups (omap h_Port (List.filter (serving (i_Tag i)) hosts)))))
    end
  else None.

(** Ordered by tag; the order is bytewise, that of the C collation. *)
Definition ListAutoSyncInbounds (inbounds : list InboundRow) (hosts : list HostRow) : list AutoSyncRow :=
  merge_sort by_tag (omap (sync_row hosts) inbounds).

Definition by_user (a b : ProxyRow) : Prop := pr_UserID a <= pr_UserID b.
#[export] Instance by_user_dec : RelDecision by_user. Proof. intros a b. apply Z_le_dec. Defined.

Definition proxy_row (d : Store.Db) (p : Store.Proxy) : option ProxyRow :=
  u ← Store.users d !! Store.p_UserID p;
  if str_mem (Store.Status (Store.core u)) ["active"; "on_hold"]
  then Some (mkProxyRow (Store.ID u) (Store.Username u) (Store.p_Type p) (ProxySettings.MarshalJSON (Store.p_Settings p)))
  else None.

Definition ListActiveUserProxiesForNodeConfig (d : Store.Db) : list ProxyRow :=
  merge_sort by_user (omap (fun kv => proxy_row d kv.2) (map_to_list (Store.proxies d))).

(** ** The specs *)

Record userSpec := mkUserSpec {
  us_Name : string; us_UUID : string; us_Password : string; us_Flow : string; us_Method : string; us_UserKey : string
}.

Record realitySpec := mkReality { re_PrivateKey : string; re_ShortID : option (list string); re_ServerName : string; re_ServerPort : Z }.
Record tlsSpec := mkTls { t_ServerName : string; t_Certificate : string; t_Key : string; t_Reality : option realitySpec }.
Record transportSpec := mkTransport { tr_Type : string; tr_Path : string; tr_Host : string }.

Record inboundSpec := mkSpec {
  in_Tag : string; in_Protocol : string; in_ListenPort : Z; in_ListenPorts : list Z; in_Users : list userSpec;
  in_TLS : option tlsSpec; in_Transport : option transportSpec; in_Hysteria2ObfsPassword : string;
  in_UpMbps : Z; in_DownMbps : Z; in_CongestionControl : string; in_ZeroRTTHandshake : bool;
  in_SnellPSK : string; in_SnellV6Mode : string; in_usersKey : string
}.

(** A conversion to [uint16]. *)
Definition uint16 (z : Z) : Z := z mod 65536.

Definition flowApplies (network security headerType : string) : bool :=
  (String.eqb security "tls" || String.eqb security "reality") &&
  (String.eqb network "tcp" || String.eqb network "raw" || String.eqb network "kcp") && negb (String.eqb headerType "http").

Definition noFlowUsersKey (protocol : string) : string := protocol ++ "/no-flow".

Definition nodeInboundTransport (protocol network path host : string) : option transportSpec :=
  if negb (str_mem protocol ["vless"; "vmess"; "trojan"]) then None
  else if str_mem network ["ws"; "httpupgrade"] then Some (mkTransport network (if blank path then "/" else path) host)
  else None.

Definition validHostPorts (ports : list Z) : list Z := List.filter (fun p => (1 <=? p) && (p <=? 65535)) ports.

Definition multiListenPorts (ports : list Z) : list Z :=
  let valid := validHostPorts ports in
  if (length valid <? 2)%nat then [] else map uint16 valid.

(** ** [loadNodeConfigSnapshot] *)

Record snapshot := mkSnapshot {
  sn_version : Z; sn_builtAt : Z; sn_inbounds : list inboundSpec; sn_usersJSON : gmap string string; sn_core : coreConfigDTO
}.

Definition user_spec (name : string) (s : ProxySettings.Settings) : userSpec :=
  match s with
  | ProxySettings.VMessSettings id => mkUserSpec name id "" "" "" ""
  | ProxySettings.VLESSSettings id flow => mkUserSpec name id "" flow "" ""
  | ProxySettings.TrojanSettings p flow => mkUserSpec name "" p flow "" ""
  | ProxySettings.ShadowsocksSettings p m => mkUserSpec name "" p "" m ""
  | ProxySettings.Hysteria2Settings p => mkUserSpec name "" p "" "" ""
  | ProxySettings.TUICSettings id p => mkUserSpec name id p "" "" ""
  | ProxySettings.SnellSettings k => mkUserSpec name "" "" "" "" k
  | ProxySettings.AnyTLSSettings p => mkUserSpec name "" p "" "" ""
  end.

Definition without_flow (u : userSpec) : userSpec :=
  mkUserSpec (us_Name u) (us_UUID u) (us_Password u) "" (us_Method u) (us_UserKey u).

Section Load.
Context `{ProxySettings.Random}.

Definition add_user (protocol : string) (u : userSpec) (m : gmap string (list userSpec)) : gmap string (list userSpec) :=
  <[protocol := (default [] (m !! protocol) ++ [u])%list]> m.

(** The first loop; [n] counts the identifiers drawn for rows that lack one. *)
Fixpoint users_by_protocol (rows : list ProxyRow) (m : gmap string (list userSpec)) (n : nat) : gmap string (list userSpec) :=
  match rows with
  | [] => m
  | p :: rows =>
      match ProxySettings.FromStored (pr_Type p) (pr_Settings p) n with
      | Err _ => users_by_protocol rows m n
      | Ok (settings, n) => users_by_protocol rows (add_user (pr_Type p) (user_spec (pr_Username p) settings) m) n
      end
  end.
End Load.

Definition flowless (in_ : InboundRow) : bool :=
  str_mem (i_Protocol in_) ["vless"; "trojan"] &&
  negb (flowApplies (i_Network in_) (i_Security in_) (text (i_HeaderType in_))).

(** The second loop: the lists with every flow cleared, for the inbounds that need them. *)
Fixpoint add_no_flow (rows : list AutoSyncRow) (m : gmap string (list userSpec)) : gmap string (list userSpec) :=
  match rows with
  | [] => m
  | r :: rows =>
      let protocol := i_Protocol (r_Inbound r) in
      add_no_flow rows
        (if flowless (r_Inbound r) then
           match m !! protocol, m !! noFlowUsersKey protocol with
           | Some src, None => <[noFlowUsersKey protocol := map without_flow src]> m
           | _, _ => m
           end
         else m)
  end.

Definition users_key (in_ : InboundRow) : string :=
  if flowless in_ then noFlowUsersKey (i_Protocol in_) else i_Protocol in_.

Definition tls_of (in_ : InboundRow) : option tlsSpec :=
  if String.eqb (i_Security in_) "reality" then
    Some (mkTls "" "" "" (Some (mkReality (text (i_RealityPrivateKey in_)) (i_RealityShortIds in_)
                                 (text (i_RealityServerName in_)) (uint16 (int4 (i_RealityServerPort in_))))))
  else if String.eqb (i_Security in_) "tls" then
    Some (mkTls (text (i_TlsServerName in_)) (text (i_TlsCertificate in_)) (text (i_TlsKey in_)) None)
  else None.

Definition inbound_spec (usersByProtocol : gmap string (list userSpec)) (r : AutoSyncRow) : inboundSpec :=
  let in_ := r_Inbound r in
  let proto p := String.eqb (i_Protocol in_) p in
  mkSpec (i_Tag in_) (i_Protocol in_) (uint16 (r_Port r)) (multiListenPorts (r_Ports r))
    (default [] (usersByProtocol !! users_key in_))
    (tls_of in_)
    (nodeInboundTransport (i_Protocol in_) (i_Network in_) (text (r_Path r)) (text (r_Host r)))
    (if proto "hysteria2" then text (i_Hysteria2ObfsPassword in_) else "")
    (if proto "hysteria2" then int4 (i_UpMbps in_) else 0)
    (if proto "hysteria2" then int4 (i_DownMbps in_) else 0)
    (if proto "tuic" then text (i_CongestionControl in_) else "")
    (proto "tuic" && i_ZeroRttHandshake in_)
    (if proto "snell" then text (i_SnellPsk in_) else "")
    (if proto "snell" then text (i_SnellV6Mode in_) else "")
    (users_key in_).

(** ** The wire format: one list of members for each struct, in the order of its fields *)

Definition user_json (u : userSpec) : json := JObject
  (emit "name" (us_Name u) ++ omitempty "uuid" (us_UUID u) ++ omitempty "password" (us_Password u) ++
   omitempty "flow" (us_Flow u) ++ omitempty "method" (us_Method u) ++ omitempty "user_key" (us_UserKey u))%list.

Definition users_json (us : list userSpec) : json := JArray (map user_json us).

Definition reality_json (r : realitySpec) : json := JObject
  (emit "private_key" (re_PrivateKey r) ++ emit "short_id" (re_ShortID r) ++
   [("handshake", JObject (emit "server_name" (re_ServerName r) ++ emit "server_port" (re_ServerPort r)))])%list.

Definition tls_json (t : tlsSpec) : json := JObject
  (emit "server_name" (t_ServerName t) ++ emit "certificate" (t_Certificate t) ++ emit "key" (t_Key t) ++
   match t_Reality t with Some r => [("reality", reality_json r)] | None => [] end)%list.

Definition transport_json (t : transportSpec) : json := JObject
  (emit "type" (tr_Type t) ++ omitempty "path" (tr_Path t) ++ omitempty "host" (tr_Host t))%list.

Definition optional {A} (name : string) (f : A -> json) (o : option A) : list (string * json) :=
  match o with Some x => [(name, f x)] | None => [] end.

(** [nodeConfigInboundSpec], marshalled. *)
Definition spec_json (s : inboundSpec) : json := JObject
  (emit "tag" (in_Tag s) ++ emit "protocol" (in_Protocol s) ++ emit "listen_port" (in_ListenPort s) ++
   omitempty "listen_ports" (in_ListenPorts s) ++ [("users", users_json (in_Users s))] ++
   optional "tls" tls_json (in_TLS s) ++ optional "transport" transport_json (in_Transport s) ++
   omitempty "hysteria2_obfs_password" (in_Hysteria2ObfsPassword s) ++ omitempty "up_mbps" (in_UpMbps s) ++
   omitempty "down_mbps" (in_DownMbps s) ++ omitempty "congestion_control" (in_CongestionControl s) ++
   omitempty "zero_rtt_handshake" (in_ZeroRTTHandshake s) ++ omitempty "snell_psk" (in_SnellPSK s) ++
   omitempty "snell_v6_mode" (in_SnellV6Mode s))%list.

(** [nodeConfigInboundWire]: the users are a [json.RawMessage]. *)
Record inboundWire := mkWire {
  w_Tag : string; w_Protocol : string; w_ListenPort : Z; w_ListenPorts : list Z; w_Users : string;
  w_TLS : option tlsSpec; w_Transport : option transportSpec; w_Hysteria2ObfsPassword : string;
  w_UpMbps : Z; w_DownMbps : Z; w_CongestionControl : string; w_ZeroRTTHandshake : bool;
  w_SnellPSK : string; w_SnellV6Mode : string
}.

Definition wire_json (w : inboundWire) : json := JObject
  (emit "tag" (w_Tag w) ++ emit "protocol" (w_Protocol w) ++ emit "listen_port" (w_ListenPort w) ++
   omitempty "listen_ports" (w_ListenPorts w) ++ [("users", JRaw (w_Users w))] ++
   optional "tls" tls_json (w_TLS w) ++ optional "transport" transport_json (w_Transport w) ++
   omitempty "hysteria2_obfs_password" (w_Hysteria2ObfsPassword w) ++ omitempty "up_mbps" (w_UpMbps w) ++
   omitempty "down_mbps" (w_DownMbps w) ++ omitempty "congestion_control" (w_CongestionControl w) ++
   omitempty "zero_rtt_handshake" (w_ZeroRTTHandshake w) ++ omitempty "snell_psk" (w_SnellPSK w) ++
   omitempty "snell_v6_mode" (w_SnellV6Mode w))%list.

(** The whole snapshot from the rows of its three queries. *)
Definition loadNodeConfigSnapshot `{ProxySettings.Random} (version builtAt : Z) (inboundRows : list AutoSyncRow)
    (proxyRows : list ProxyRow) (coreRow : coreConfigDTO) (n : nat) : snapshot :=
  let usersByProtocol := add_no_flow inboundRows (users_by_protocol proxyRows ∅ n) in
  mkSnapshot version builtAt (map (inbound_spec usersByProtocol) inboundRows)
    ((fun us => encode (users_json us)) <$> usersByProtocol) coreRow.
End NodeConfig.

(** ** Profiles — [nodeprofile.go] *)

Module Profile.
Import NodeConfig.

Record nodeProfile := mkProfile { InboundTags : list string; ListenPorts : list Z; CoreOverrides : coreOverridesDTO }.

Definition isDefault (p : nodeProfile) : bool :=
  match InboundTags p, ListenPorts p with [], [] => isZero (CoreOverrides p) | _, _ => false end.

Definition specPorts (in_ : inboundSpec) : list Z :=
  match in_ListenPorts in_ with [] => [in_ListenPort in_] | ps => ps end.

Definition with_ports (port : Z) (ports : list Z) (s : inboundSpec) : inboundSpec :=
  mkSpec (in_Tag s) (in_Protocol s) port ports (in_Users s) (in_TLS s) (in_Transport s) (in_Hysteria2ObfsPassword s)
    (in_UpMbps s) (in_DownMbps s) (in_CongestionControl s) (in_ZeroRTTHandshake s) (in_SnellPSK s) (in_SnellV6Mode s)
    (in_usersKey s).

(** One inbound under a set of ports: dropped, as it is, or narrowed. *)
Definition narrow (ports : list Z) (in_ : inboundSpec) : option inboundSpec :=
  let all := specPorts in_ in
  let kept := List.filter (fun p => existsb (Z.eqb p) ports) all in
  match kept with
  | [] => None
  | first :: _ =>
      if (length kept =? length all)%nat then Some in_
      else Some (with_ports (if existsb (Z.eqb (in_ListenPort in_)) kept then in_ListenPort in_ else first)
                   (if (1 <? length kept)%nat then kept else []) in_)
  end.

Definition filterInbounds (p : nodeProfile) (fleet : list inboundSpec) : list inboundSpec :=
  match InboundTags p, ListenPorts p with
  | [], [] => fleet
  | tags, ports =>
      omap (fun in_ =>
        if match tags with [] => false | _ => negb (str_mem (in_Tag in_) tags) end then None
        else match ports with [] => Some in_ | _ => narrow (map uint16 ports) in_ end) fleet
  end.

Definition str_le (a b : string) : Prop := str_ltb b a = false.
#[export] Instance str_le_dec : RelDecision str_le. Proof. intros a b. unfold str_le. apply _. Defined.

(** A nil slice is null. *)
Definition slice_json {A} `{Codec A} (l : list A) : json := match l with [] => JNull | _ => to_json l end.

Section key.
Context (sha256 : string -> string).

Definition key_text (p : nodeProfile) : string := encode (JObject
  [("t", slice_json (merge_sort str_le (InboundTags p))); ("p", slice_json (merge_sort Z.le (ListenPorts p)));
   ("c", to_json (CoreOverrides p))]).

Definition key (p : nodeProfile) : string :=
  if isDefault p then "default" else Base64.Hex (stake 16 (sha256 (key_text p))).
End key.
End Profile.

(** ** Rendering a profile's payload *)

Module Render.
Import NodeConfig Profile.

Section Render.
Context (sha256 : string -> string).
(** [time.Time.MarshalJSON] without its quotes; it depends on the local time zone. *)
Context (rfc3339 : Z -> string).

Definition core_json (c : coreConfigDTO) : json := JObject
  (emit "log_level" (LogLevel c) ++ emit "sniff_enabled" (SniffEnabled c) ++ emit "outbounds" (Outbounds c) ++
   emit "routing_rules" (RoutingRules c) ++ emit "dns_servers" (DNSServers c) ++
   optional "updated_at" (fun t => JString (rfc3339 t)) (UpdatedAt c))%list.

(** [nodeConfigResponse] *)
Record response := mkResponse { Version : string; Inbounds : list inboundSpec; Core : coreConfigDTO }.

Definition response_json (r : response) : json := JObject
  (emit "version" (Version r) ++ [("inbounds", JArray (map spec_json (Inbounds r)))] ++ [("core", core_json (Core r))])%list.

Definition wire_of (usersJSON : gmap string string) (in_ : inboundSpec) : inboundWire :=
  mkWire (in_Tag in_) (in_Protocol in_) (in_ListenPort in_) (in_ListenPorts in_)
    (default "[]" (usersJSON !! (if blank (in_usersKey in_) then in_Protocol in_ else in_usersKey in_)))
    (in_TLS in_) (in_Transport in_) (in_Hysteria2ObfsPassword in_) (in_UpMbps in_) (in_DownMbps in_)
    (in_CongestionControl in_) (in_ZeroRTTHandshake in_) (in_SnellPSK in_) (in_SnellV6Mode in_).

Definition canonical_json (wire : list inboundWire) (core : coreConfigDTO) : json :=
  JObject [("inbounds", JArray (map wire_json wire)); ("core", core_json core)].

(** [render]: the payload and the canonical bytes it hashed. *)
Definition render (s : snapshot) (p : nodeProfile) : response * string :=
  let inbounds := filterInbounds p (sn_inbounds s) in
  let core := apply (CoreOverrides p) (sn_core s) in
  let canonical := encode (canonical_json (map (wire_of (sn_usersJSON s)) inbounds) core) in
  (mkResponse (Base64.Hex (sha256 canonical)) inbounds core, canonical).

(** [nodeConfigBodyBytes]: the version spliced in after the opening brace. *)
Definition nodeConfigBodyBytes (payload : response) (canonical : string) : string :=
  match canonical with
  | String "{" (String c r as rest) =>
      if Ascii.eqb c quote_byte then
        "{" ++ quoted "version" ++ ":" ++ String quote_byte (Version payload ++ String quote_byte ("," ++ rest))
      else encode (response_json payload)
  | _ => encode (response_json payload)
  end.

Definition body (s : snapshot) (p : nodeProfile) : string :=
  let '(payload, canonical) := render s p in nodeConfigBodyBytes payload canonical.
End Render.
End Render.
