(* ===== verification/NodeConfigProps.v ===== *)
(** * NodeConfigProps: a node is told exactly what it should serve

    The theorems about [NodeConfig]: the users in a payload are the active ones with
    their credentials ([node_users]); a profile narrows the inbounds to its tags and
    ports and to nothing less ([profile_serves]); the body spliced together from shared
    parts is the marshalled payload ([body_is_marshalled]); profiles with one cache key
    get one payload ([same_key_same_body]). *)

From stdpp Require Import sorting.
From S2P Require Import Prelude GoStrings Base64 GoJson ProxySettings Store CoreDto CoreConfig NodeConfig.
Import Rules.

#[local] Open Scope string_scope.
#[local] Open Scope Z_scope.

Module NodeConfigProps.
Import NodeConfig Profile Render.

(** ** The body *)

(** A property of the sixteen digits is one of every character of a hex text. *)
Lemma hex_all f s : forallb (fun k => f (Base64.hex_digit (Z.of_nat k))) (seq 0 16) = true -> str_forallb f (Base64.Hex s) = true.
Proof.
  intros Hall. unfold Base64.Hex. pose proof (Base64.bytes_of_byte s) as Hb.
  assert (forall n, 0 <= n < 16 -> f (Base64.hex_digit n) = true) as Hd.
  { intros n Hn. rewrite forallb_forall in Hall. specialize (Hall (Z.to_nat n)). rewrite Z2Nat.id in Hall by lia. apply Hall, in_seq. lia. }
  induction Hb as [|b l Hx _ IH]; [done|]. cbn [flat_map app String.string_of_list_ascii str_forallb].
  rewrite IH, !Hd; [done| |]; Z.to_euclidean_division_equations; lia.
Qed.

Lemma hex_literal s : str_forallb literal_byte (Base64.Hex s) = true.
Proof. apply hex_all. reflexivity. Qed.

Lemma hex_digit_inj a b : 0 <= a < 16 -> 0 <= b < 16 -> Base64.hex_digit a = Base64.hex_digit b -> a = b.
Proof.
  assert (forallb (fun i => forallb (fun j => implb (Ascii.eqb (Base64.hex_digit (Z.of_nat i)) (Base64.hex_digit (Z.of_nat j)))
    (i =? j)%nat) (seq 0 16)) (seq 0 16) = true) as Hall by reflexivity.
  rewrite forallb_forall in Hall. intros Ha Hb E. specialize (Hall (Z.to_nat a)). rewrite forallb_forall in Hall.
  specialize (Hall ltac:(apply in_seq; lia) (Z.to_nat b) ltac:(apply in_seq; lia)).
  rewrite !Z2Nat.id, E, Ascii.eqb_refl in Hall by lia. apply Nat.eqb_eq in Hall. lia.
Qed.

Lemma hex_inj s t : Base64.Hex s = Base64.Hex t -> s = t.
Proof.
  intros E. apply (f_equal String.list_ascii_of_string) in E. unfold Base64.Hex in E. rewrite !String.list_ascii_of_string_of_list_ascii in E.
  rewrite <- (Base64.string_of_bytes_of s), <- (Base64.string_of_bytes_of t). f_equal.
  pose proof (Base64.bytes_of_byte s) as Hs. pose proof (Base64.bytes_of_byte t) as Ht. revert E Ht.
  generalize (Base64.bytes_of t). induction Hs as [|a l Ha _ IH]; intros [|b l'] E Ht; try done.
  cbn [flat_map app] in E. injection E as E1 E2 E3. inversion Ht as [|? ? Hb Ht']; subst.
  apply hex_digit_inj in E1, E2; try (Z.to_euclidean_division_equations; lia). rewrite (IH l') by done. f_equal.
  rewrite (Z.div_mod a 16), (Z.div_mod b 16) by lia. congruence.
Qed.

(** What a snapshot keeps between its inbounds and the lists encoded beforehand. *)
Definition users_shared (s : snapshot) : Prop :=
  Forall (fun in_ => w_Users (wire_of (sn_usersJSON s) in_) = encode (users_json (in_Users in_))) (sn_inbounds s).

Lemma users_direct us : direct (users_json us) = true.
Proof.
  unfold users_json. cbn [direct]. apply forallb_forall. intros j (u & <- & _)%in_map_iff.
  unfold user_json, emit, omitempty. destruct u as [a b c d e f]. cbn [us_Name us_UUID us_Password us_Flow us_Method us_UserKey].
  by repeat match goal with |- context [if empty ?x then _ else _] => destruct (empty x) end.
Qed.

Lemma load_shared `{ProxySettings.Random} v t rows proxies core n :
  users_shared (loadNodeConfigSnapshot v t rows proxies core n).
Proof.
  unfold users_shared. cbn [loadNodeConfigSnapshot sn_inbounds sn_usersJSON]. set (m := add_no_flow _ _). apply Forall_map, Forall_forall. intros r _.
  unfold wire_of. cbn [w_Users inbound_spec in_usersKey in_Users in_Protocol].
  assert (blank (users_key (r_Inbound r)) = true -> users_key (r_Inbound r) = i_Protocol (r_Inbound r)) as Hk.
  { unfold users_key, noFlowUsersKey, blank. destruct (flowless _); [|done]. by destruct (i_Protocol _). }
  assert ((if blank (users_key (r_Inbound r)) then i_Protocol (r_Inbound r) else users_key (r_Inbound r)) = users_key (r_Inbound r)) as ->.
  { destruct (blank _) eqn:E; [|done]. by rewrite Hk. }
  rewrite lookup_fmap. by destruct (m !! users_key (r_Inbound r)).
Qed.

(** Narrowing an inbound touches its ports alone. *)
Definition same_but_ports (a b : inboundSpec) : Prop :=
  exists port ports, a = with_ports port ports b.

Lemma same_refl in_ : same_but_ports in_ in_.
Proof. exists (in_ListenPort in_), (in_ListenPorts in_). by destruct in_. Qed.

Lemma narrow_same ports in_ o : narrow ports in_ = Some o -> same_but_ports o in_.
Proof.
  unfold narrow. destruct (List.filter _ _) as [|p ps]; [done|]. destruct (_ =? _)%nat; intros [= <-]; [apply same_refl|].
  eexists _, _. reflexivity.
Qed.

Lemma filter_same p fleet o : In o (filterInbounds p fleet) -> exists in_, In in_ fleet /\ same_but_ports o in_.
Proof.
  unfold filterInbounds. intros Ho.
  assert (forall f, In o (omap f fleet) -> (forall in_ o, f in_ = Some o -> same_but_ports o in_) ->
    exists in_, In in_ fleet /\ same_but_ports o in_) as Hm.
  { intros f Hin Hf. apply list_elem_of_In, list_elem_of_omap in Hin as (in_ & Hin & E). exists in_.
    split; [by apply list_elem_of_In|by apply Hf]. }
  assert (forall in_ o, (if match InboundTags p with [] => false | _ => negb (str_mem (in_Tag in_) (InboundTags p)) end then None
    else match ListenPorts p with [] => Some in_ | _ => narrow (map uint16 (ListenPorts p)) in_ end) = Some o -> same_but_ports o in_) as Hf.
  { intros in_ o'. set (b := match InboundTags p with [] => false | _ => _ end). destruct b; [done|].
    destruct (ListenPorts p); [intros [= <-]; apply same_refl|apply narrow_same]. }
  destruct (InboundTags p), (ListenPorts p); try by eapply Hm; [exact Ho|exact Hf].
  exists o. split; [done|apply same_refl].
Qed.

Lemma member_swap k v v' a b c d e : encode v = encode v' ->
  encode (JObject (a ++ b ++ c ++ d ++ [(k, v)] ++ e)) = encode (JObject (a ++ b ++ c ++ d ++ [(k, v')] ++ e)).
Proof. intros E. cbn [encode]. rewrite !map_app. cbn [map]. by rewrite E. Qed.

Lemma wire_spec m in_ : w_Users (wire_of m in_) = encode (users_json (in_Users in_)) ->
  encode (wire_json (wire_of m in_)) = encode (spec_json in_).
Proof.
  intros E. unfold wire_json. rewrite E. apply member_swap, encode_raw, users_direct.
Qed.

Lemma wires_specs s p : users_shared s ->
  encode (JArray (map wire_json (map (wire_of (sn_usersJSON s)) (filterInbounds p (sn_inbounds s))))) =
  encode (JArray (map spec_json (filterInbounds p (sn_inbounds s)))).
Proof.
  intros Hs. apply encode_array. rewrite !map_map. apply map_ext_in. intros o Ho.
  apply wire_spec. destruct (filter_same _ _ _ Ho) as (in_ & Hin & port & ports & ->).
  unfold users_shared in Hs. rewrite Forall_forall in Hs. apply (Hs in_). by apply list_elem_of_In.
Qed.

Lemma encode_object3 k1 v1 k2 v2 k3 v3 : encode (JObject [(k1, v1); (k2, v2); (k3, v3)]) =
  "{" ++ quoted k1 ++ ":" ++ encode v1 ++ "," ++ quoted k2 ++ ":" ++ encode v2 ++ "," ++ quoted k3 ++ ":" ++ encode v3 ++ "}".
Proof. cbn [encode map Join]. by rewrite !str_app_assoc. Qed.

Lemma encode_object2 k1 v1 k2 v2 : encode (JObject [(k1, v1); (k2, v2)]) =
  "{" ++ quoted k1 ++ ":" ++ encode v1 ++ "," ++ quoted k2 ++ ":" ++ encode v2 ++ "}".
Proof. cbn [encode map Join]. by rewrite !str_app_assoc. Qed.

Lemma quoted_app s t : str_forallb literal_byte s = true -> quoted s ++ t = String quote_byte (s ++ String quote_byte t).
Proof. intros Hs. rewrite quoted_literal by done. cbn [String.append]. by rewrite <- str_app_assoc. Qed.

Section body.
Context (sha256 : string -> string) (rfc3339 : Z -> string).

Lemma splice payload rest : nodeConfigBodyBytes rfc3339 payload ("{" ++ String quote_byte rest) =
  "{" ++ quoted "version" ++ ":" ++ String quote_byte (Version payload ++ String quote_byte ("," ++ String quote_byte rest)).
Proof. reflexivity. Qed.

(** The body a node is sent, spliced together from the text that was hashed and from
    user lists encoded once for the whole fleet, is byte for byte what marshalling the
    payload would give, for every profile of every database state; so the version in it
    is the hash of all the rest. *)
Theorem body_is_marshalled `{ProxySettings.Random} version builtAt rows proxies core n p :
  let s := loadNodeConfigSnapshot version builtAt rows proxies core n in
  body sha256 rfc3339 s p = encode (response_json rfc3339 (render sha256 rfc3339 s p).1).
Proof.
  intros s. unfold body, render. cbn [fst]. set (canonical := encode (canonical_json _ _ _)).
  set (h := Base64.Hex _). set (c := apply _ _). set (ins := filterInbounds _ _).
  assert (canonical = "{" ++ String quote_byte ("inbounds" ++ String quote_byte (":" ++
    encode (JArray (map spec_json ins)) ++ "," ++ quoted "core" ++ ":" ++ encode (core_json rfc3339 c) ++ "}"))) as E.
  { unfold canonical, canonical_json, ins. rewrite encode_object2, wires_specs by apply load_shared.
    by rewrite (quoted_app "inbounds"). }
  rewrite E, splice. unfold response_json. cbn [Version Inbounds Core].
  change (emit "version" h ++ _)%list with [("version", JString h); ("inbounds", JArray (map spec_json ins)); ("core", core_json rfc3339 c)].
  rewrite encode_object3. change (encode (JString h)) with (quoted h).
  rewrite (quoted_app h) by apply hex_literal. by rewrite (quoted_app "inbounds").
Qed.
End body.

(** ** The users *)

(** No protocol's name is the key of a list without flows. *)
Definition plain (k : string) : Prop := forall p, k <> noFlowUsersKey p.

Lemma type_plain t : plain (ProxySettings.type_name t).
Proof.
  intros p E. apply (f_equal (fun s => HasSuffix s "/no-flow")) in E. unfold noFlowUsersKey in E.
  assert (HasSuffix (p ++ "/no-flow") "/no-flow" = true) as Ht by (apply HasSuffix_spec; eauto).
  rewrite Ht in E. by destruct t.
Qed.

Lemma noFlow_inj p q : noFlowUsersKey p = noFlowUsersKey q -> p = q.
Proof.
  unfold noFlowUsersKey. revert q. induction p as [|c p IH]; intros [|d q] E; cbn [String.append] in E.
  - done.
  - apply (f_equal String.length) in E. cbn [String.length] in E. rewrite str_length_app in E. cbn in E. lia.
  - apply (f_equal String.length) in E. cbn [String.length] in E. rewrite str_length_app in E. cbn in E. lia.
  - injection E as -> E. f_equal. by apply IH.
Qed.

(** The rows [ListActiveUserProxiesForNodeConfig] gives for a sound table. *)
Definition usable (r : ProxyRow) : Prop := exists s, ProxySettings.complete s /\
  pr_Type r = ProxySettings.type_name (ProxySettings.type_of s) /\ pr_Settings r = ProxySettings.MarshalJSON s.

Section users.
Context `{ProxySettings.Random}.

Definition row_spec (q : string) (n : nat) (r : ProxyRow) : option userSpec :=
  if String.eqb (pr_Type r) q then
    match ProxySettings.FromStored (pr_Type r) (pr_Settings r) n with
    | Ok (s, _) => Some (user_spec (pr_Username r) s) | Err _ => None
    end
  else None.

Lemma users_lookup rows m n q : Forall usable rows ->
  default [] (users_by_protocol rows m n !! q) = (default [] (m !! q) ++ omap (row_spec q n) rows)%list.
Proof.
  intros Hr. revert m. induction Hr as [|r rows (s & Hs & Ht & Hp) _ IH]; intros m; [by rewrite app_nil_r|].
  cbn [users_by_protocol omap list_omap]. unfold row_spec at 1. rewrite Ht, Hp, ProxySettings.FromStored_MarshalJSON by done.
  rewrite IH. unfold add_user. destruct (String.eqb_spec (ProxySettings.type_name (ProxySettings.type_of s)) q) as [<-|Hq].
  - rewrite lookup_insert_eq. cbn [default from_option id]. by rewrite <- app_assoc.
  - by rewrite lookup_insert_ne.
Qed.

Lemma users_keys rows m n k : Forall usable rows -> m !! k = None -> plain k \/ users_by_protocol rows m n !! k = None.
Proof.
  intros Hr. revert m. induction Hr as [|r rows (s & Hs & Ht & Hp) _ IH]; intros m Hm; [by right|].
  cbn [users_by_protocol]. rewrite Ht, Hp, ProxySettings.FromStored_MarshalJSON by done. unfold add_user.
  destruct (String.eqb_spec (ProxySettings.type_name (ProxySettings.type_of s)) k) as [<-|Hq].
  - left. apply type_plain.
  - apply IH. by rewrite lookup_insert_ne.
Qed.
End users.

(** [m] is [m0] with some lists without flows added. *)
Definition extends (m0 m : gmap string (list userSpec)) : Prop :=
  (forall k, plain k -> m !! k = m0 !! k) /\
  (forall p, m !! noFlowUsersKey p = None \/ m !! noFlowUsersKey p = map without_flow <$> m0 !! p).

Lemma add_no_flow_keeps rows m k v : m !! k = Some v -> add_no_flow rows m !! k = Some v.
Proof.
  revert m. induction rows as [|r rows IH]; intros m Hm; [done|]. cbn [add_no_flow]. apply IH.
  destruct (flowless _); [|done]. destruct (m !! i_Protocol _); [|done]. destruct (m !! noFlowUsersKey _) eqn:E; [done|].
  rewrite lookup_insert_ne; congruence.
Qed.

Lemma add_no_flow_lookup m0 rows m : Forall (fun r => plain (i_Protocol (r_Inbound r))) rows -> extends m0 m ->
  extends m0 (add_no_flow rows m) /\
  forall r, In r rows -> flowless (r_Inbound r) = true ->
    add_no_flow rows m !! noFlowUsersKey (i_Protocol (r_Inbound r)) = map without_flow <$> m0 !! i_Protocol (r_Inbound r).
Proof.
  intros Hr. revert m. induction Hr as [|r rows Hp _ IH]; intros m He; [done|].
  cbn [add_no_flow]. set (k := i_Protocol (r_Inbound r)) in *. set (m1 := if flowless _ then _ else m).
  assert (m1 = m \/ exists src, m0 !! k = Some src /\ m1 = <[noFlowUsersKey k := map without_flow src]> m) as Hm1.
  { subst m1. destruct (flowless _); [|by left]. destruct (m !! k) as [src|] eqn:Es; [|by left].
    destruct (m !! noFlowUsersKey k) eqn:En; [by left|]. right. exists src. rewrite <- (proj1 He) by done. done. }
  assert (extends m0 m1) as He1.
  { destruct Hm1 as [->|(src & Es & ->)]; [done|]. split.
    - intros q Hq. rewrite lookup_insert_ne; [by apply He|]. intros E. by apply (Hq k).
    - intros p. destruct (decide (p = k)) as [->|Hpk]; [right; by rewrite lookup_insert_eq, Es|].
      rewrite lookup_insert_ne; [by apply He|]. intros E. by apply Hpk, noFlow_inj. }
  destruct (IH m1 He1) as [HE HL]. split; [done|]. intros r' [<-|Hin] Hf; [|by apply HL].
  destruct (proj2 HE k) as [Hn|Hn]; [|done]. fold k. destruct (m0 !! k) as [src|] eqn:Es; [|by rewrite Hn].
  assert (exists v, m1 !! noFlowUsersKey k = Some v) as [v Hv].
  { subst m1. rewrite Hf. fold k. rewrite (proj1 He k Hp), Es. destruct (m !! noFlowUsersKey k) eqn:E; [eauto|].
    rewrite lookup_insert_eq. eauto. }
  by rewrite (add_no_flow_keeps _ _ _ _ Hv) in Hn.
Qed.

(** What inbound [i] must accept, from the tables: one entry for the proxy [p] if it is
    of the inbound's protocol and its user is active or on hold. *)
Definition accepted (d : Store.Db) (i : InboundRow) (p : Store.Proxy) : option userSpec :=
  u ← Store.users d !! Store.p_UserID p;
  if str_mem (Store.Status (Store.core u)) ["active"; "on_hold"] && String.eqb (Store.p_Type p) (i_Protocol i)
  then Some ((if flowless i then without_flow else id) (user_spec (Store.Username u) (Store.p_Settings p)))
  else None.

Definition sound_proxies (d : Store.Db) : Prop := forall id p, Store.proxies d !! id = Some p ->
  Store.p_Type p = ProxySettings.type_name (ProxySettings.type_of (Store.p_Settings p)) /\
  ProxySettings.complete (Store.p_Settings p).

Lemma omap_perm {A B} (f : A -> option B) l l' : l ≡ₚ l' -> omap f l ≡ₚ omap f l'.
Proof. intros E. by rewrite E. Qed.

Lemma active_usable d : sound_proxies d -> Forall usable (ListActiveUserProxiesForNodeConfig d).
Proof.
  intros Hs. unfold ListActiveUserProxiesForNodeConfig. rewrite merge_sort_Permutation. apply Forall_forall.
  intros r ([id p] & Hin & Hr)%list_elem_of_omap. apply elem_of_map_to_list in Hin. cbn [snd] in Hr.
  unfold proxy_row in Hr. apply bind_Some in Hr as (u & _ & Hr). destruct (str_mem _ _); [|done]. injection Hr as <-.
  exists (Store.p_Settings p). by destruct (Hs id p Hin).
Qed.

Lemma active_rows `{ProxySettings.Random} d q n (f : userSpec -> userSpec) (l : list (Z * Store.Proxy)) :
  Forall (fun kv => Store.p_Type kv.2 = ProxySettings.type_name (ProxySettings.type_of (Store.p_Settings kv.2)) /\
    ProxySettings.complete (Store.p_Settings kv.2)) l ->
  map f (omap (row_spec q n) (omap (fun kv : Z * Store.Proxy => proxy_row d kv.2) l)) =
  omap (fun kv : Z * Store.Proxy => u ← Store.users d !! Store.p_UserID kv.2;
    if str_mem (Store.Status (Store.core u)) ["active"; "on_hold"] && String.eqb (Store.p_Type kv.2) q
    then Some (f (user_spec (Store.Username u) (Store.p_Settings kv.2))) else None) l.
Proof.
  induction 1 as [|[id p] l [Ht Hc] _ IH]; [done|]. cbn [omap list_omap snd] in *. unfold proxy_row at 1.
  destruct (Store.users d !! Store.p_UserID p) as [u|]; cbn [mbind option_bind]; [|exact IH].
  destruct (str_mem _ _); cbn [andb]; [|exact IH]. cbn [omap list_omap]. unfold row_spec at 1. cbn [pr_Type pr_Settings pr_Username].
  rewrite Ht, ProxySettings.FromStored_MarshalJSON by done.
  destruct (String.eqb _ q); cbn [map]; [by rewrite IH|exact IH].
Qed.

Lemma sync_rows inbounds hosts : map r_Inbound (ListAutoSyncInbounds inbounds hosts) ≡ₚ
  List.filter (fun i => servable i && existsb (serving (i_Tag i)) hosts) inbounds.
Proof.
  unfold ListAutoSyncInbounds. rewrite (fmap_Permutation r_Inbound _ _ (merge_sort_Permutation by_tag _)).
  induction inbounds as [|i inbounds IH]; [done|]. cbn [omap list_omap List.filter]. unfold sync_row at 1.
  destruct (servable i); cbn [andb]; [|exact IH].
  pose proof (merge_sort_Permutation by_host_id (List.filter (serving (i_Tag i)) hosts)) as Hp.
  destruct (merge_sort _ _) as [|h hs].
  - apply Permutation_nil_l in Hp. destruct (existsb _ hosts) eqn:E; [|exact IH].
    apply existsb_exists in E as (x & Hx & Hs). assert (In x []) as []. rewrite Hp. by apply filter_In.
  - assert (existsb (serving (i_Tag i)) hosts = true) as ->.
    { apply existsb_exists. exists h. apply filter_In. apply list_elem_of_In. rewrite <- Hp. apply list_elem_of_here. }
    cbn [fmap list_fmap r_Inbound]. by rewrite IH.
Qed.

(** C5: The inbounds a node is told to serve are exactly those that can be served and have an
    enabled host with a port; and each accepts exactly the users that are active or on
    hold and have a proxy of its protocol, under their names and with their stored
    credentials, the flow being cleared exactly where the transport does not carry one. *)
Theorem node_users `{ProxySettings.Random} d version builtAt inbounds hosts core n :
  sound_proxies d -> (forall i, In i inbounds -> ProxySettings.Valid (i_Protocol i) <> None) ->
  let rows := ListAutoSyncInbounds inbounds hosts in
  map r_Inbound rows ≡ₚ List.filter (fun i => servable i && existsb (serving (i_Tag i)) hosts) inbounds /\
  Forall2 (fun r s => in_Tag s = i_Tag (r_Inbound r) /\
      in_Users s ≡ₚ omap (fun kv => accepted d (r_Inbound r) kv.2) (map_to_list (Store.proxies d)))
    rows (sn_inbounds (loadNodeConfigSnapshot version builtAt rows (ListActiveUserProxiesForNodeConfig d) core n)).
Proof.
  intros Hs Hi rows. split; [apply sync_rows|]. cbn [loadNodeConfigSnapshot sn_inbounds].
  assert (Forall (fun r => plain (i_Protocol (r_Inbound r))) rows) as Hpl.
  { apply Forall_forall. intros r Hr. assert (In (r_Inbound r) inbounds) as Hin.
    { assert (r_Inbound r ∈ map r_Inbound rows) as Hm by (by apply (list_elem_of_fmap_2 r_Inbound)).
      unfold rows in Hm. rewrite sync_rows in Hm. apply list_elem_of_In, filter_In in Hm. by destruct Hm. }
    specialize (Hi _ Hin). destruct (ProxySettings.Valid _) as [t|] eqn:E; [|done]. apply ProxySettings.Valid_spec in E as ->.
    apply type_plain. }
  set (m0 := users_by_protocol _ ∅ n). pose proof (active_usable d Hs) as Hu.
  assert (extends m0 m0) as He.
  { split; [done|]. intros p. left. destruct (users_keys _ ∅ n (noFlowUsersKey p) Hu) as [Hk|Hk]; [done|by destruct (Hk p)|exact Hk]. }
  destruct (add_no_flow_lookup m0 rows m0 Hpl He) as [[HP _] HF]. apply Forall2_fmap_r, Forall_Forall2_diag, Forall_forall.
  intros r Hr. split; [done|]. cbn [inbound_spec in_Users]. rewrite Forall_forall in Hpl.
  assert (forall f : userSpec -> userSpec, map f (default [] (m0 !! i_Protocol (r_Inbound r))) ≡ₚ omap (fun kv : Z * Store.Proxy => u ← Store.users d !! Store.p_UserID kv.2;
    if str_mem (Store.Status (Store.core u)) ["active"; "on_hold"] && String.eqb (Store.p_Type kv.2) (i_Protocol (r_Inbound r))
    then Some (f (user_spec (Store.Username u) (Store.p_Settings kv.2))) else None) (map_to_list (Store.proxies d))) as Hm.
  { intros f. unfold m0. rewrite users_lookup by done. rewrite lookup_empty. cbn [default from_option app].
    rewrite <- (active_rows d _ n f). - apply fmap_Permutation, omap_perm, merge_sort_Permutation.
    - apply Forall_forall. intros [id p] Hin%elem_of_map_to_list. by apply (Hs id). }
  unfold users_key, accepted. destruct (flowless (r_Inbound r)) eqn:Ef.
  - rewrite HF by (done || by apply list_elem_of_In). rewrite <- Hm. by destruct (m0 !! _).
  - rewrite HP by (by apply Hpl). rewrite <- (Hm id). by rewrite map_id.
Qed.

(** ** Profiles *)

(** The ports of an inbound a node with profile [p] serves. *)
Definition served_ports (p : nodeProfile) (in_ : inboundSpec) : list Z :=
  if bool_decide (InboundTags p = []) || str_mem (in_Tag in_) (InboundTags p) then
    List.filter (fun q => bool_decide (ListenPorts p = []) || existsb (Z.eqb q) (map uint16 (ListenPorts p))) (specPorts in_)
  else [].

(** [o] is the inbound [in_] as a node with profile [p] should run it. *)
Definition runs (p : nodeProfile) (in_ o : inboundSpec) : Prop :=
  same_but_ports o in_ /\ specPorts o = served_ports p in_ /\
  (In (in_ListenPort in_) (served_ports p in_) -> in_ListenPort o = in_ListenPort in_) /\
  (In (in_ListenPort in_) (specPorts in_) -> In (in_ListenPort o) (specPorts o)).

Lemma filter_full {A} (f : A -> bool) l : length (List.filter f l) = length l -> List.filter f l = l.
Proof.
  intros E. apply filter_true. induction l as [|a l IH]; [done|]. cbn [List.filter] in E.
  pose proof (filter_length_le f l). intros x [<-|Hx]; destruct (f a); cbn [length] in *; try done; try lia.
  apply IH; [lia|done].
Qed.

Lemma existsb_eqb x l : existsb (Z.eqb x) l = true <-> In x l.
Proof. rewrite existsb_exists. split; [intros (y & Hy & ->%Z.eqb_eq); done|intros Hx; exists x; by rewrite Z.eqb_refl]. Qed.

Lemma narrow_spec ports in_ :
  let kept := List.filter (fun q => existsb (Z.eqb q) ports) (specPorts in_) in
  match narrow ports in_ with
  | None => kept = []
  | Some o => kept <> [] /\ same_but_ports o in_ /\ specPorts o = kept /\
      (In (in_ListenPort in_) kept -> in_ListenPort o = in_ListenPort in_) /\
      (In (in_ListenPort in_) (specPorts in_) -> In (in_ListenPort o) (specPorts o))
  end.
Proof.
  intros kept. unfold narrow. fold kept. destruct kept as [|first rest] eqn:E; [done|].
  destruct (Nat.eqb_spec (length (first :: rest)) (length (specPorts in_))) as [El|_].
  { assert (kept = specPorts in_) as Hfull by (apply filter_full; fold kept; by rewrite E).
    rewrite <- E. split_and!; [congruence|apply same_refl|by rewrite Hfull|done|done]. }
  set (port := if existsb (Z.eqb (in_ListenPort in_)) (first :: rest) then in_ListenPort in_ else first).
  assert (In port (first :: rest)) as Hport.
  { unfold port. destruct (existsb _ _) eqn:Ex; [by apply existsb_eqb|by left]. }
  assert (specPorts (with_ports port (if (1 <? length (first :: rest))%nat then first :: rest else []) in_) = first :: rest) as Hs.
  { unfold specPorts, with_ports. cbn [in_ListenPorts in_ListenPort]. destruct rest; cbn; [|done].
    destruct Hport as [<-|[]]. done. }
  split_and!; [done|by eexists _, _|done| |].
  - intros Hin. cbn [with_ports in_ListenPort]. unfold port. by rewrite (proj2 (existsb_eqb _ _) Hin).
  - intros _. by rewrite Hs.
Qed.

(** One inbound under a profile, whatever the profile restricts. *)
Definition restrict (p : nodeProfile) (in_ : inboundSpec) : option inboundSpec :=
  if match InboundTags p with [] => false | _ => negb (str_mem (in_Tag in_) (InboundTags p)) end then None
  else match ListenPorts p with [] => Some in_ | _ => narrow (map uint16 (ListenPorts p)) in_ end.

Lemma omap_all {A} (f : A -> option A) (l : list A) : (forall x, f x = Some x) -> omap f l = l.
Proof. intros Hf. induction l as [|a l IH]; [done|]. cbn [omap list_omap]. by rewrite Hf, IH. Qed.

Lemma filter_restrict p fleet : filterInbounds p fleet = omap (restrict p) fleet.
Proof.
  unfold filterInbounds, restrict. destruct (InboundTags p) eqn:Et, (ListenPorts p) eqn:Ep; try done.
  by rewrite omap_all.
Qed.

(** A node serves, in the fleet's order, exactly the inbounds its profile leaves a port
    to; each differs from the fleet's in its ports alone and listens on exactly the
    chosen ones; the port older nodes read is unchanged when it is among them and is one
    of them in any case. *)
Theorem profile_serves p fleet :
  exists f, filterInbounds p fleet = omap f fleet /\
  forall in_, (served_ports p in_ = [] -> f in_ = None) /\
              (served_ports p in_ <> [] -> exists o, f in_ = Some o /\ runs p in_ o).
Proof.
  exists (restrict p). split; [apply filter_restrict|]. intros in_. unfold restrict, runs, served_ports.
  assert (match InboundTags p with [] => false | _ => negb (str_mem (in_Tag in_) (InboundTags p)) end =
    negb (bool_decide (InboundTags p = []) || str_mem (in_Tag in_) (InboundTags p))) as ->.
  { destruct (InboundTags p); [by rewrite bool_decide_true|by rewrite bool_decide_false]. }
  destruct (_ || str_mem _ _); cbn [negb]; [|done].
  destruct (ListenPorts p) as [|q qs] eqn:Ep.
  - rewrite bool_decide_true by done. rewrite filter_true by done. split.
    + unfold specPorts. by destruct (in_ListenPorts in_).
    + intros _. exists in_. split_and!; try done. apply same_refl.
  - rewrite bool_decide_false by done. cbn [orb]. pose proof (narrow_spec (map uint16 (q :: qs)) in_) as Hn. cbv zeta in Hn.
    destruct (narrow _ _) as [o|].
    + destruct Hn as (Hk & H1 & H2 & H3 & H4). split; [done|]. intros _. exists o. done.
    + by rewrite Hn.
Qed.

(** What can be stored as a profile: text columns and a decoded object. *)
Definition stored_profile (p : nodeProfile) : Prop :=
  Forall (fun t => ValidUTF8 t = true) (InboundTags p) /\ Forall (fits 64) (ListenPorts p) /\ codec_ok (CoreOverrides p).

Lemma slice_inj {A} `{CodecLaws A} (x y : list A) : codec_ok x -> codec_ok y -> slice_json x = slice_json y -> x = y.
Proof.
  intros Hx Hy E. destruct x, y; cbn [slice_json] in E; try done. by apply to_json_inj.
Qed.

Lemma slice_wf {A} `{CodecLaws A} (x : list A) : codec_ok x -> wf_json (slice_json x) = true.
Proof. intros Hx. destruct x; [done|]. by apply (codec_wf (_ :: _)). Qed.

Section key.
Context (sha256 : string -> string).

Lemma key_text_inj p q : stored_profile p -> stored_profile q -> key_text p = key_text q ->
  InboundTags p ≡ₚ InboundTags q /\ ListenPorts p ≡ₚ ListenPorts q /\ CoreOverrides p = CoreOverrides q.
Proof.
  intros (Ht & Hp & Hc) (Ht' & Hp' & Hc') E.
  assert (forall r, Forall (fun t => ValidUTF8 t = true) (InboundTags r) -> @codec_ok (list string) _ _ (merge_sort str_le (InboundTags r))) as Hst.
  { intros r Hr. unfold codec_ok. cbn. by rewrite (merge_sort_Permutation str_le). }
  assert (forall r, Forall (fits 64) (ListenPorts r) -> @codec_ok (list Z) _ _ (merge_sort Z.le (ListenPorts r))) as Hsp.
  { intros r Hr. unfold codec_ok. cbn. by rewrite (merge_sort_Permutation Z.le). }
  assert (forall r, stored_profile r -> wf_json (JObject [("t", slice_json (merge_sort str_le (InboundTags r)));
    ("p", slice_json (merge_sort Z.le (ListenPorts r))); ("c", to_json (CoreOverrides r))]) = true) as Hwf.
  { intros r (H1 & H2 & H3). cbn [wf_json forallb]. rewrite !slice_wf, codec_wf by auto. done. }
  apply encode_inj in E; [|by apply Hwf..]. 
  assert (forall n (a b : list (string * json)), JObject a = JObject b -> snd <$> a !! n = snd <$> b !! n) as Hj by (by intros n a b [= ->]).
  pose proof (Hj 0%nat _ _ E) as E1. pose proof (Hj 1%nat _ _ E) as E2. pose proof (Hj 2%nat _ _ E) as E3. clear E Hj.
  apply (inj Some) in E1, E2, E3. apply slice_inj in E1, E2; auto. apply to_json_inj in E3; try done. split_and!; [| |done].
  - by rewrite <- (merge_sort_Permutation str_le), E1, merge_sort_Permutation.
  - by rewrite <- (merge_sort_Permutation Z.le), E2, merge_sort_Permutation.
Qed.

Lemma existsb_perm {A} (f : A -> bool) l l' : l ≡ₚ l' -> existsb f l = existsb f l'.
Proof. intros El. apply eq_true_iff_eq. rewrite !existsb_exists. by setoid_rewrite El. Qed.

Lemma narrow_perm l l' in_ : l ≡ₚ l' -> narrow l in_ = narrow l' in_.
Proof.
  intros El. unfold narrow. rewrite (filter_ext _ (fun p => existsb (Z.eqb p) l')); [done|].
  intros a. by apply existsb_perm.
Qed.

Lemma nil_case {A B} (l l' : list A) (x y : B) : l ≡ₚ l' ->
  match l with [] => x | _ => y end = match l' with [] => x | _ => y end.
Proof. intros El. destruct l, l'; try done; [by apply Permutation_nil_l in El|by apply Permutation_nil_r in El]. Qed.

Lemma restrict_perm p q in_ : InboundTags p ≡ₚ InboundTags q -> ListenPorts p ≡ₚ ListenPorts q ->
  restrict p in_ = restrict q in_.
Proof.
  intros Et Ep. unfold restrict, str_mem. rewrite (existsb_perm _ _ _ Et).
  rewrite (nil_case _ _ _ _ Et), (nil_case _ _ _ _ Ep). by rewrite (narrow_perm (map uint16 (ListenPorts p)) (map uint16 (ListenPorts q)))
    by by apply fmap_Permutation.
Qed.

Lemma default_not_hex s : Base64.Hex s <> "default".
Proof.
  intros E. assert (str_forallb (fun c => negb (Ascii.eqb c "l")) (Base64.Hex s) = true) as H by by apply hex_all.
  by rewrite E in H.
Qed.

(** Profiles the cache gives one key get one payload from every snapshot, so sharing an
    entry among them is sound, unless SHA-256 cut to sixteen bytes collides on just
    these two. *)
Theorem same_key_same_body rfc3339 s p q : stored_profile p -> stored_profile q ->
  (stake 16 (sha256 (key_text p)) = stake 16 (sha256 (key_text q)) -> key_text p = key_text q) ->
  key sha256 p = key sha256 q ->
  render sha256 rfc3339 s p = render sha256 rfc3339 s q /\ body sha256 rfc3339 s p = body sha256 rfc3339 s q.
Proof.
  intros Hp Hq Hsha Hk. assert (render sha256 rfc3339 s p = render sha256 rfc3339 s q) as Hr; [|split; [done|unfold body; by rewrite Hr]].
  assert (filterInbounds p (sn_inbounds s) = filterInbounds q (sn_inbounds s) /\
    apply (CoreOverrides p) (sn_core s) = apply (CoreOverrides q) (sn_core s)) as [Ei Ec]; [|unfold render; by rewrite Ei, Ec].
  unfold key in Hk. destruct (isDefault p) eqn:Ep, (isDefault q) eqn:Eq.
  - unfold isDefault in Ep, Eq. unfold filterInbounds.
    destruct (InboundTags p), (ListenPorts p), (InboundTags q), (ListenPorts q); try done.
    by rewrite !RulesProps.apply_zero.
  - symmetry in Hk. by apply default_not_hex in Hk.
  - by apply default_not_hex in Hk.
  - apply hex_inj, Hsha, key_text_inj in Hk as (Et & Epo & ->); try done. split; [|done].
    rewrite !filter_restrict. apply list_omap_ext. apply Forall2_same_length_lookup. split; [done|].
    intros i x y Hx Hy. replace y with x by congruence. by apply restrict_perm.
Qed.
End key.

(** ** Witnesses and findings *)

#[local] Existing Instance ProxySettings.tally_random.

Definition demo_user (i : Z) (name status : string) : Store.User :=
  Store.mkUser i name (Store.mkCore status None "no_reset" None None None None None) 0 None None 0 None None None None.

(** Two proxies of an active user and one of a disabled user. *)
Definition demo_db : Store.Db :=
  Store.mkDb (<[1 := demo_user 1 "ali" "active"]> (<[2 := demo_user 2 "sara" "disabled"]> ∅)) ∅
    (<[10 := Store.mkProxy 10 1 "vless" (ProxySettings.VLESSSettings "u-1" "xtls-rprx-vision")]>
      (<[11 := Store.mkProxy 11 1 "trojan" (ProxySettings.TrojanSettings "t-1" "")]>
        (<[12 := Store.mkProxy 12 2 "vless" (ProxySettings.VLESSSettings "u-2" "")]> ∅)))
    ∅ [] ∅ ∅ ∅ (0, 0) ∅ ∅ [] 20.

Definition demo_inbound (tag network security : string) : InboundRow :=
  mkInbound tag "vless" network None security None None None None None None None None None None None false None None.

Definition demo_core_config : coreConfigDTO := mkCore "warn" true None None None None.

Lemma demo_sound : sound_proxies demo_db.
Proof.
  intros id p Hp. cbn [demo_db Store.proxies] in Hp.
  repeat (apply lookup_insert_Some in Hp as [[<- <-]|[_ Hp]]; [by split; [|split; [repeat constructor|]]|]).
  by rewrite lookup_empty in Hp.
Qed.

(** The flow is kept over tcp and cleared over websockets; the disabled user is nowhere. *)
Example demo_users :
  map (fun s => (in_Tag s, map (fun u => (us_Name u, us_UUID u, us_Flow u)) (in_Users s), in_ListenPort s, in_ListenPorts s))
    (sn_inbounds (loadNodeConfigSnapshot 1 0
       (ListAutoSyncInbounds [demo_inbound "b" "ws" "none"; demo_inbound "a" "tcp" "reality"; demo_inbound "c" "tcp" "none"]
          [mkHost 1 "a" (Some 443) None None None; mkHost 2 "a" (Some 8443) None None None;
           mkHost 3 "b" (Some 80) None None (Some false); mkHost 4 "c" (Some 81) None None (Some true)])
       (ListActiveUserProxiesForNodeConfig demo_db) demo_core_config 0))
  = [("a", [("ali", "u-1", "xtls-rprx-vision")], 443, [443; 8443]); ("b", [("ali", "u-1", "")], 80, [])].
Proof. vm_compute. reflexivity. Qed.

Lemma node_users_witness :
  sound_proxies demo_db /\
  Forall2 (fun r s => in_Tag s = i_Tag (r_Inbound r) /\
      in_Users s ≡ₚ omap (fun kv => accepted demo_db (r_Inbound r) kv.2) (map_to_list (Store.proxies demo_db)))
    (ListAutoSyncInbounds [demo_inbound "a" "tcp" "reality"] [mkHost 1 "a" (Some 443) None None None])
    (sn_inbounds (loadNodeConfigSnapshot 1 0
       (ListAutoSyncInbounds [demo_inbound "a" "tcp" "reality"] [mkHost 1 "a" (Some 443) None None None])
       (ListActiveUserProxiesForNodeConfig demo_db) demo_core_config 0)).
Proof.
  split; [exact demo_sound|].
  refine (proj2 (node_users demo_db 1 0 [demo_inbound "a" "tcp" "reality"] [mkHost 1 "a" (Some 443) None None None]
    demo_core_config 0 demo_sound _)).
  intros i [<-|[]]. discriminate.
Defined.

Definition two_tags (a b : string) : nodeProfile := mkProfile [a; b] [443] noOverrides.

Lemma two_tags_stored a b : ValidUTF8 a = true -> ValidUTF8 b = true -> stored_profile (two_tags a b).
Proof. intros Ha Hb. split_and!; [by repeat constructor|by repeat constructor|apply codec_zero]. Qed.

Lemma same_key_same_body_witness :
  key (fun s => s) (two_tags "x" "y") = key (fun s => s) (two_tags "y" "x") /\
  forall s, body (fun s => s) (fun _ => "") s (two_tags "x" "y") = body (fun s => s) (fun _ => "") s (two_tags "y" "x").
Proof.
  assert (key (fun s => s) (two_tags "x" "y") = key (fun s => s) (two_tags "y" "x")) as Hk by (vm_compute; reflexivity).
  split; [exact Hk|]. intros s.
  refine (proj2 (same_key_same_body (fun s => s) (fun _ => "") s (two_tags "x" "y") (two_tags "y" "x") _ _ _ Hk)).
  - apply two_tags_stored; reflexivity.
  - apply two_tags_stored; reflexivity.
  - intros _. vm_compute. reflexivity.
Defined.

(** Repeating a tag changes the key, though not what is served. *)
Example repeats_change_key :
  key (fun s => s) (mkProfile ["x"; "x"] [] noOverrides) <> key (fun s => s) (mkProfile ["x"] [] noOverrides) /\
  key_text (mkProfile ["x"; "x"] [] noOverrides) <> key_text (mkProfile ["x"] [] noOverrides).
Proof. split; vm_compute; discriminate. Qed.

(** A primary host with port 65979 makes the inbound listen on 443. *)
Example host_port_wraps i : in_ListenPort (inbound_spec ∅ (mkRow i 65979 None None [65979])) = 443.
Proof. reflexivity. Qed.
End NodeConfigProps.
