(* ===== verification/Share.v ===== *)
(** * Share: what one host of a subscription offers, and its share link

    [Curve] is the X25519 function that gives a REALITY public key; [Effective] the merge
    of a host onto its inbound ([internal/subscription/effective.go]); [Links] the share
    links ([links.go]), with a reader of such links to say what they mean. *)

From stdpp Require Import sorting.
From S2P Require Import Prelude GoStrings Base64 GoUrl GoJson ProxySettings NodeConfig.

#[local] Open Scope string_scope.
#[local] Open Scope Z_scope.

(** ** [crypto/ecdh]'s X25519: RFC 7748, section 5 *)

Module Curve.
Import Base64.

Definition p : Z := 2 ^ 255 - 19.

Definition little_endian (bs : list Z) : Z := foldr (fun b n => b + 256 * n) 0 bs.

Definition to_bytes (n : Z) : list Z := map (fun i => Z.shiftr n (8 * Z.of_nat i) mod 256) (seq 0 32).

(** The scalar of a key: the low three bits and the top bit cleared, the one below it set. *)
Definition clamp (bs : list Z) : Z := Z.lor (Z.land (little_endian bs) (2 ^ 255 - 8) mod 2 ^ 254) (2 ^ 254).

Fixpoint power (x : Z) (e : positive) : Z :=
  match e with
  | xH => x mod p
  | xO e => let y := power x e in y * y mod p
  | xI e => let y := power x e in (y * y mod p) * x mod p
  end.

(** One step of the ladder, for bit [t] of the scalar. *)
Definition ladder_step (k x1 : Z) (st : Z * Z * Z * Z) (t : Z) : Z * Z * Z * Z :=
  let '(x2, z2, x3, z3) := if Z.testbit k t then let '(x2, z2, x3, z3) := st in (x3, z3, x2, z2) else st in
  let a := x2 + z2 in let aa := a * a mod p in
  let b := x2 - z2 in let bb := b * b mod p in
  let e := (aa - bb) mod p in
  let da := (x3 - z3) * a mod p in let cb := (x3 + z3) * b mod p in
  let s := (da + cb) mod p in let d := (da - cb) mod p in
  let r := (aa * bb mod p, e * ((aa + 121665 * e) mod p) mod p, s * s mod p, x1 * (d * d mod p) mod p) in
  if Z.testbit k t then let '(x2, z2, x3, z3) := r in (x3, z3, x2, z2) else r.

Definition x25519 (k u : Z) : Z :=
  let '(x2, z2, _, _) := foldl (ladder_step k u) (1, 0, u, 1) (map (fun i => 254 - Z.of_nat i) (seq 0 255)) in
  x2 * power z2 (Z.to_pos (p - 2)) mod p.

(** The public key of 32 private bytes. *)
Definition PublicKey (bs : list Z) : list Z := to_bytes (x25519 (clamp bs) 9).

End Curve.

(** ** The merge of a host onto its inbound: [effective.go] *)

Module Effective.
Import NodeConfig.

(** A row of [hosts]; [hs_Port] and the like are the nullable columns. *)
Record Host := mkHost {
  hs_ID : Z; hs_Remark : string; hs_Address : string; hs_Port : option Z; hs_Path : option string; hs_Sni : option string;
  hs_Host : option string; hs_Security : string; hs_Alpn : string; hs_Fingerprint : string; hs_InboundTag : string;
  hs_Allowinsecure : option bool; hs_IsDisabled : option bool; hs_MuxEnable : bool; hs_FragmentSetting : option string;
  hs_NoiseSetting : option string; hs_RandomUserAgent : bool; hs_UseSniAsHost : bool; hs_Priority : Z
}.

Record EffectiveInbound := mkEffective {
  Tag : string; Protocol : string; Network : string; HeaderType : string; Port : Z; Address : string; SNI : string;
  HostHeader : string; Path : string; Security : string; ALPN : string; Fingerprint : string; AllowInsecure : bool;
  RealityPublicKey : string; RealityShortID : string; MuxEnable : bool; FragmentSetting : string; NoiseSetting : string;
  RandomUserAgent : bool; Hysteria2ObfsPassword : string; UpMbps : Z; DownMbps : Z; CongestionControl : string;
  ZeroRTTHandshake : bool; SnellPSK : string; SnellV6Mode : string
}.

Definition valueOr (t : option string) (fallback : string) : string :=
  match t with
  | Some s => if String.eqb s "" then fallback else s
  | None => fallback
  end.

Definition derivePublicKey (privateKeyB64 : string) : string :=
  match Base64.Decode privateKeyB64 with
  | Some raw =>
      if (String.length raw =? 32)%nat
      then Base64.Encode (Base64.string_of_bytes (Curve.PublicKey (Base64.bytes_of raw)))
      else ""
  | None => ""
  end.

Definition security_of (inbound : InboundRow) (host : Host) : string :=
  if negb (String.eqb (hs_Security host) "inbound_default") then hs_Security host else i_Security inbound.

Definition not_none (s : string) : string := if String.eqb s "none" then "" else s.

Definition BuildEffectiveInbound (inbound : InboundRow) (host : Host) : EffectiveInbound :=
  let security := security_of inbound host in
  let sni := valueOr (hs_Sni host) (hs_Address host) in
  let reality := String.eqb security "reality" in
  mkEffective (i_Tag inbound) (i_Protocol inbound) (i_Network inbound) (text (i_HeaderType inbound)) (int4 (hs_Port host)) (hs_Address host)
    sni (if hs_UseSniAsHost host then sni else valueOr (hs_Host host) "") (text (hs_Path host)) security
    (not_none (hs_Alpn host)) (not_none (hs_Fingerprint host)) (default false (hs_Allowinsecure host))
    (if reality then derivePublicKey (text (i_RealityPrivateKey inbound)) else "")
    (if reality then match i_RealityShortIds inbound with Some (x :: _) => x | _ => "" end else "")
    (hs_MuxEnable host) (text (hs_FragmentSetting host)) (text (hs_NoiseSetting host)) (hs_RandomUserAgent host)
    (text (i_Hysteria2ObfsPassword inbound)) (int4 (i_UpMbps inbound)) (int4 (i_DownMbps inbound)) (text (i_CongestionControl inbound))
    (i_ZeroRttHandshake inbound) (text (i_SnellPsk inbound)) (text (i_SnellV6Mode inbound)).
End Effective.

(** ** Share links: [links.go] *)

Module Links.
Import Effective ProxySettings GoJson.

Definition set_if (b : bool) (k v : string) (q : Values) : Values := if b then <[k := v]> q else q.

Definition nonempty (s : string) : bool := negb (String.eqb s "").

Definition tlsQueryParams (in_ : EffectiveInbound) (q : Values) : Values :=
  if String.eqb (Security in_) "tls" then
    set_if (AllowInsecure in_) "allowInsecure" "1" (set_if (nonempty (FragmentSetting in_)) "fragment" (FragmentSetting in_)
      (set_if (nonempty (ALPN in_)) "alpn" (ALPN in_) (<["fp" := Fingerprint in_]> (<["sni" := SNI in_]> q))))
  else if String.eqb (Security in_) "reality" then
    <["sid" := RealityShortID in_]> (<["pbk" := RealityPublicKey in_]> (<["fp" := Fingerprint in_]> (<["sni" := SNI in_]> q)))
  else q.

Definition transportQueryParams (in_ : EffectiveInbound) (q : Values) : Values :=
  if String.eqb (Network in_) "grpc" then <["mode" := "gun"]> (<["authority" := HostHeader in_]> (<["serviceName" := Path in_]> q))
  else if String.eqb (Network in_) "quic" then <["quicSecurity" := HostHeader in_]> (<["key" := Path in_]> q)
  else if String.eqb (Network in_) "kcp" then <["host" := HostHeader in_]> (<["seed" := Path in_]> q)
  else <["host" := HostHeader in_]> (<["path" := Path in_]> q).

(** When a link carries a flow at all. *)
Definition flow_allowed (in_ : EffectiveInbound) : bool :=
  str_mem (Security in_) ["tls"; "reality"] && str_mem (Network in_) ["tcp"; "raw"; "kcp"] && negb (String.eqb (HeaderType in_) "http").

(** The query of a vless or trojan link. *)
Definition stream_query (in_ : EffectiveInbound) (flow : string) : Values :=
  tlsQueryParams in_ (transportQueryParams in_
    (set_if (nonempty flow && flow_allowed in_) "flow" flow
       (<["security" := Security in_]> (<["type" := Network in_]> (<["headerType" := HeaderType in_]> ∅))))).

(** [fmt.Sprintf] with "%s://%s@%s:%d?%s#%s". *)
Definition link (scheme user address : string) (port : Z) (path : string) (q : Values) (remark : string) : string :=
  scheme ++ "://" ++ user ++ "@" ++ address ++ ":" ++ Itoa port ++ path ++ "?" ++ Encode q ++ "#" ++ PathEscape remark.

Definition vlessLink (remark address : string) (in_ : EffectiveInbound) (id flow : string) : string :=
  link "vless" id address (Port in_) "" (stream_query in_ flow) remark.

Definition quoteKeepColon : string -> string := escape_with (fun c => unreserved c || Ascii.eqb c ":") false.

Definition trojanLink (remark address : string) (in_ : EffectiveInbound) (password flow : string) : string :=
  link "trojan" (quoteKeepColon password) address (Port in_) "" (stream_query in_ flow) remark.

(** *** vmess: a JSON object in base64 *)

Definition str_le (a b : string * json) : Prop := str_ltb b.1 a.1 = false.
#[export] Instance str_le_dec : RelDecision str_le. Proof. intros a b. unfold str_le. apply _. Defined.

(** [sortedMap]. *)
Definition sortedMap (m : gmap string json) : json := JObject (merge_sort str_le (map_to_list m)).

Definition put_if (b : bool) (k : string) (v : json) (m : gmap string json) : gmap string json := if b then <[k := v]> m else m.

Definition vmess_payload (remark address : string) (in_ : EffectiveInbound) (id : string) : gmap string json :=
  let m := list_to_map [("add", JString address); ("aid", JString "0"); ("host", JString (HostHeader in_)); ("id", JString id);
    ("net", JString (Network in_)); ("path", JString (Path in_)); ("port", JString (Itoa (Port in_))); ("ps", JString remark);
    ("scy", JString "auto"); ("tls", JString (Security in_)); ("type", JString (HeaderType in_)); ("v", JString "2")] in
  let m := if String.eqb (Network in_) "grpc" then <["path" := JString (Path in_)]> (<["mode" := JString "gun"]> m)
           else if String.eqb (Network in_) "kcp" then <["type" := JString (HeaderType in_)]> m else m in
  let m := put_if (nonempty (FragmentSetting in_)) "fragment" (JString (FragmentSetting in_)) m in
  if String.eqb (Security in_) "tls" then
    put_if (AllowInsecure in_) "allowInsecure" (JInt 1) (put_if (nonempty (ALPN in_)) "alpn" (JString (ALPN in_))
      (<["fp" := JString (Fingerprint in_)]> (<["sni" := JString (SNI in_)]> m)))
  else if String.eqb (Security in_) "reality" then
    <["sid" := JString (RealityShortID in_)]> (<["pbk" := JString (RealityPublicKey in_)]>
      (<["fp" := JString (Fingerprint in_)]> (<["sni" := JString (SNI in_)]> m)))
  else m.

Definition vmessLink (remark address : string) (in_ : EffectiveInbound) (id : string) : string :=
  "vmess://" ++ Base64.StdEncode (encode (sortedMap (vmess_payload remark address in_ id))).

(** *** The others *)

Definition ssLink (remark address : string) (in_ : EffectiveInbound) (password method : string) : string :=
  "ss://" ++ Base64.StdEncode (method ++ ":" ++ password) ++ "@" ++ address ++ ":" ++ Itoa (Port in_) ++ "#" ++ PathEscape remark.

Definition hysteria2_query (in_ : EffectiveInbound) : Values :=
  let q := set_if (AllowInsecure in_) "insecure" "1" (<["sni" := SNI in_]> ∅) in
  if nonempty (Hysteria2ObfsPassword in_) then <["obfs-password" := Hysteria2ObfsPassword in_]> (<["obfs" := "salamander"]> q) else q.

Definition hysteria2Link (remark address : string) (in_ : EffectiveInbound) (password : string) : string :=
  link "hysteria2" (PathEscape password) address (Port in_) "/" (hysteria2_query in_) remark.

Definition congestion (in_ : EffectiveInbound) : string :=
  if String.eqb (CongestionControl in_) "" then "cubic" else CongestionControl in_.

Definition tuic_query (in_ : EffectiveInbound) : Values :=
  set_if (AllowInsecure in_) "allow_insecure" "1"
    (<["udp_relay_mode" := "native"]> (<["congestion_control" := congestion in_]> (<["alpn" := "h3"]> (<["sni" := SNI in_]> ∅)))).

Definition tuicLink (remark address : string) (in_ : EffectiveInbound) (id password : string) : string :=
  link "tuic" (id ++ ":" ++ quoteKeepColon password) address (Port in_) "" (tuic_query in_) remark.

(** [BuildLink]; [None]: the protocol has no share link. *)
Definition BuildLink (remark address : string) (in_ : EffectiveInbound) (s : Settings) : option string :=
  match s with
  | VMessSettings id => Some (vmessLink remark address in_ id)
  | VLESSSettings id flow => Some (vlessLink remark address in_ id flow)
  | TrojanSettings password flow => Some (trojanLink remark address in_ password flow)
  | ShadowsocksSettings password method => Some (ssLink remark address in_ password method)
  | Hysteria2Settings password => Some (hysteria2Link remark address in_ password)
  | TUICSettings id password => Some (tuicLink remark address in_ id password)
  | SnellSettings _ | AnyTLSSettings _ => None
  end.
End Links.
