(* ===== verification/ShareProps.v ===== *)
(** * ShareProps: what a share link says

    [Reader] takes a link apart the way RFC 3986 does: fragment, query, authority, and in
    the authority the last at sign and the last colon. Every link reads back as the
    credentials, host, port, parameters and name it was built from ([links_read_back]),
    but for a Shadowsocks link whose base64 happens to hold a slash. *)

From stdpp Require Import sorting.
From S2P Require Import Prelude GoStrings Base64 GoUrl GoJson ProxySettings NodeConfig Share.

#[local] Open Scope string_scope.
#[local] Open Scope Z_scope.

(** ** Reading a link *)

Module Reader.

Record shared := mkShared {
  sh_scheme : string; sh_credentials : list string; sh_host : string; sh_port : Z; sh_params : Values; sh_name : string
}.

(** The userinfo of each scheme. *)
Definition read_user (scheme userinfo : string) : option (list string) :=
  if String.eqb scheme "ss" then
    text ← Base64.StdDecode userinfo;
    '(method, password) ← (match cut ":" text with (m, Some p) => Some (m, p) | _ => None end);
    Some [method; password]
  else if String.eqb scheme "tuic" then
    '(id, password) ← (match cut ":" userinfo with (i, Some p) => Some (i, p) | _ => None end);
    id ← PathUnescape id; password ← PathUnescape password; Some [id; password]
  else password ← PathUnescape userinfo; Some [password].

Definition read_uri (s : string) : option shared :=
  let '(s, fragment) := cut "#" s in
  let '(s, query) := cut "?" s in
  let '(scheme, r) := cut ":" s in
  name ← PathUnescape (default "" fragment);
  pairs ← ParseQuery (default "" query);
  r ← r; r ← strip_prefix "//" r;
  '(userinfo, hostport) ← split_last "@" (cut "/" r).1;
  '(host, port) ← split_last ":" hostport;
  port ← ParseInt port;
  credentials ← read_user scheme userinfo;
  Some (mkShared scheme credentials host port (list_to_map pairs) name).

Definition string_of (j : json) : option string := match j with JString s => Some s | _ => None end.

(** The object of a vmess link: its string members are the parameters. *)
Definition read_vmess (s : string) : option shared :=
  text ← Base64.StdDecode s;
  j ← parse text;
  match j with
  | JObject members =>
      let m : Values := omap string_of (list_to_map members : gmap string json) in
      id ← m !! "id"; host ← m !! "add"; port ← m !! "port"; port ← ParseInt port; name ← m !! "ps";
      Some (mkShared "vmess" [id] host port m name)
  | _ => None
  end.

Definition read_share (s : string) : option shared :=
  match strip_prefix "vmess://" s with Some r => read_vmess r | None => read_uri s end.
End Reader.

(** ** Links read back *)

Module ShareProps.
Import Effective Links Reader ProxySettings GoJson.

(** Bytes that end a userinfo or an authority. *)
Definition delimiter_free (s : string) : bool := free_of "#" s && free_of "?" s && free_of "/" s.

Lemma free_app c a b : free_of c (a ++ b) = free_of c a && free_of c b.
Proof. apply str_forallb_app. Qed.

Lemma free_digits c n : is_digit c = false -> 0 <= n -> free_of c (Itoa n) = true.
Proof.
  intros Hc Hn. eapply str_forallb_impl; [|by apply (Itoa_digits n)]. intros d Hd.
  destruct (Ascii.eqb_spec d c) as [->|]; [congruence|done].
Qed.

(** An authority: the last at sign and the last colon are the ones that were written. *)
Lemma read_authority user address port : free_of "@" address = true -> 0 <= port < 2 ^ 63 ->
  ('(u, hp) ← split_last "@" (user ++ "@" ++ address ++ ":" ++ Itoa port); '(h, p) ← split_last ":" hp; p ← ParseInt p; Some (u, h, p)) =
  Some (user, address, port).
Proof.
  intros Ha Hp. change ("@" ++ address ++ ":" ++ Itoa port) with (String "@" (address ++ ":" ++ Itoa port)).
  assert (free_of "@" (address ++ ":" ++ Itoa port) = true) as Hf.
  { rewrite !free_app, Ha, free_digits by (done || lia). done. }
  rewrite split_last_app by done. cbn [mbind option_bind].
  change (":" ++ Itoa port) with (String ":" (Itoa port)).
  rewrite split_last_app by (apply free_digits; [done|lia]). cbn [mbind option_bind]. by rewrite ParseInt_Itoa.
Qed.

Lemma Encode_free d q : unreserved d = false -> is_mem d "%+0123456789ABCDEF&=" = false -> free_of d (Encode q) = true.
Proof.
  intros Hd Hx. assert (is_mem d "%+0123456789ABCDEF" = false /\ Ascii.eqb "&" d = false /\ Ascii.eqb "=" d = false) as (Hy & Ha & He).
  { revert Hx. clear. destruct d as [[] [] [] [] [] [] [] []]; vm_compute; auto. }
  unfold Encode. induction (sorted_pairs q) as [|kv l IH]; [done|].
  assert (free_of d (pair_text kv) = true) as Hp.
  { unfold pair_text. rewrite !free_app. unfold QueryEscape. rewrite !escape_free by done. cbn [free_of str_forallb]. unfold free_of. cbn [str_forallb]. by rewrite He. }
  destruct l as [|kv' l]; [exact Hp|]. change (Join (map pair_text (kv :: kv' :: l)) "&") with (pair_text kv ++ "&" ++ Join (map pair_text (kv' :: l)) "&").
  rewrite !free_app, Hp, IH. unfold free_of. cbn [str_forallb]. by rewrite Ha.
Qed.

Lemma delimiters s : delimiter_free s = true -> free_of "#" s = true /\ free_of "?" s = true /\ free_of "/" s = true.
Proof. unfold delimiter_free. rewrite !andb_true_iff. tauto. Qed.

Section uri.
Variables (scheme user address : string) (port : Z).
Hypothesis (Hscheme : free_of ":" scheme = true) (Hs : delimiter_free scheme = true) (Hu : delimiter_free user = true)
  (Ha : delimiter_free address = true) (Hat : free_of "@" address = true) (Hp : 0 <= port < 2 ^ 63).

Definition body (path : string) : string := scheme ++ "://" ++ user ++ "@" ++ address ++ ":" ++ Itoa port ++ path.

Lemma body_free c path : c = "#"%char \/ c = "?"%char -> free_of c path = true -> free_of c (body path) = true.
Proof.
  intros Hc Hpath. unfold body. destruct (delimiters _ Hs) as (H1 & H2 & _), (delimiters _ Hu) as (H3 & H4 & _), (delimiters _ Ha) as (H5 & H6 & _).
  rewrite !free_app, Hpath. rewrite free_digits by (destruct Hc as [->| ->]; done || lia).
  by destruct Hc as [->| ->]; rewrite ?H1, ?H2, ?H3, ?H4, ?H5, ?H6.
Qed.

Lemma read_body path r : path = "" \/ path = "/" -> cut ":" (body path) = (scheme, Some r) ->
  (r ← strip_prefix "//" r; '(userinfo, hostport) ← split_last "@" (cut "/" r).1;
   '(host, p) ← split_last ":" hostport; p ← ParseInt p; Some (userinfo, host, p)) = Some (user, address, port).
Proof.
  intros Hpath Hr. unfold body in Hr. change ("://" ++ ?x) with (String ":" ("//" ++ x)) in Hr. rewrite cut_app in Hr by done. injection Hr as <-.
  cbn [strip_prefix Ascii.eqb Bool.eqb mbind option_bind]. change (strip_prefix "//" (String "/" (String "/" ?x))) with (Some x).
  cbn [mbind option_bind]. change (String "@" ?x) with ("@" ++ x). change (String ":" ?x) with (":" ++ x).
  assert ((cut "/" (user ++ "@" ++ address ++ ":" ++ Itoa port ++ path)).1 = user ++ "@" ++ address ++ ":" ++ Itoa port) as ->; [|by apply read_authority].
  assert (free_of "/" (user ++ "@" ++ address ++ ":" ++ Itoa port) = true) as Hf.
  { destruct (delimiters _ Hu) as (_ & _ & H1), (delimiters _ Ha) as (_ & _ & H2). rewrite !free_app, H1, H2, free_digits by (done || lia). done. }
  destruct Hpath as [->| ->].
  - rewrite str_app_nil_r. by rewrite cut_none.
  - replace (user ++ "@" ++ address ++ ":" ++ Itoa port ++ "/") with ((user ++ "@" ++ address ++ ":" ++ Itoa port) ++ String "/" "") by by rewrite <- !str_app_assoc.
    by rewrite cut_app.
Qed.

(** A link with a query, or (shadowsocks) without one. *)
Lemma read_uri_text path q name : path = "" \/ path = "/" ->
  read_uri (body path ++ (match q with Some q => "?" ++ Encode q | None => "" end) ++ "#" ++ PathEscape name) =
  (credentials ← read_user scheme user; Some (mkShared scheme credentials address port (default ∅ q) name)).
Proof.
  intros Hpath. assert (free_of "#" path = true /\ free_of "?" path = true) as [Hp1 Hp2] by by destruct Hpath as [->| ->].
  pose proof (body_free "#" path (or_introl eq_refl) Hp1) as H1. pose proof (body_free "?" path (or_intror eq_refl) Hp2) as H2.
  assert (exists r, cut ":" (body path) = (scheme, Some r)) as [r Hr].
  { eexists. unfold body. change ("://" ++ ?x) with (String ":" ("//" ++ x)). by apply cut_app. }
  pose proof (read_body path r Hpath Hr) as Hbody. unfold read_uri.
  set (qpart := match q with Some q => "?" ++ Encode q | None => "" end).
  assert (free_of "#" qpart = true) as Hq.
  { unfold qpart. destruct q as [q|]; [|done]. rewrite free_app. by rewrite Encode_free. }
  change ("#" ++ PathEscape name) with (String "#" (PathEscape name)). rewrite str_app_assoc.
  rewrite cut_app by (rewrite free_app, H1; exact Hq).
  assert (cut "?" (body path ++ qpart) = (body path, Encode <$> q)) as ->.
  { unfold qpart. destruct q as [q|]; [by apply cut_app|]. rewrite str_app_nil_r. by apply cut_none. }
  rewrite Hr. cbn [default]. change (id ?x) with x. rewrite PathUnescape_PathEscape. cbn [mbind option_bind].
  assert (ParseQuery (default "" (Encode <$> q)) = Some (default [] (sorted_pairs <$> q))) as ->.
  { destruct q as [q|]; [apply ParseQuery_Encode|done]. }
  cbn [mbind option_bind]. revert Hbody. destruct (strip_prefix "//" r) as [r'|]; [|done]. cbn [mbind option_bind].
  destruct (split_last "@" _) as [[u hp]|]; [|done]. cbn [mbind option_bind].
  destruct (split_last ":" hp) as [[h p]|]; [|done]. cbn [mbind option_bind]. destruct (ParseInt p) as [n|]; [|done]. cbn [mbind option_bind].
  intros [= -> -> ->]. destruct (read_user scheme user); [|done]. cbn. do 2 f_equal. destruct q as [q|]; cbn; [apply sorted_pairs_map|done].
Qed.
End uri.

(** ** The theorem *)

(** What a link is meant to say. *)
Definition credentials (s : Settings) : list string :=
  match s with
  | VMessSettings id | VLESSSettings id _ => [id]
  | TrojanSettings p _ | Hysteria2Settings p | AnyTLSSettings p | SnellSettings p => [p]
  | ShadowsocksSettings p m => [m; p]
  | TUICSettings id p => [id; p]
  end.

Definition scheme (s : Settings) : string :=
  match s with ShadowsocksSettings _ _ => "ss" | _ => type_name (type_of s) end.

Definition params (remark address : string) (in_ : EffectiveInbound) (s : Settings) : Values :=
  match s with
  | VMessSettings id => omap string_of (vmess_payload remark address in_ id)
  | VLESSSettings _ flow | TrojanSettings _ flow => stream_query in_ flow
  | Hysteria2Settings _ => hysteria2_query in_
  | TUICSettings _ _ => tuic_query in_
  | _ => ∅
  end.

(** An id written into a link as it is has no byte the link gives a meaning to. *)
Definition plain (id : string) : bool := delimiter_free id && free_of ":" id && free_of "%" id.

Definition texts (in_ : EffectiveInbound) : list string :=
  [HostHeader in_; Network in_; Path in_; Security in_; HeaderType in_; FragmentSetting in_; ALPN in_; Fingerprint in_; SNI in_;
   RealityShortID in_; RealityPublicKey in_].

Definition linkable (remark address : string) (in_ : EffectiveInbound) (s : Settings) : Prop :=
  delimiter_free address = true /\ free_of "@" address = true /\ 0 <= Port in_ < 2 ^ 63 /\
  match s with
  | VMessSettings id => Forall (fun x => ValidUTF8 x = true) (remark :: address :: id :: texts in_)
  | VLESSSettings id _ | TUICSettings id _ => plain id = true
  | ShadowsocksSettings p m => free_of ":" m = true /\ free_of "/" (Base64.StdEncode (m ++ ":" ++ p)) = true
  | _ => True
  end.

Lemma unescape_id s : free_of "%" s = true -> PathUnescape s = Some s.
Proof.
  unfold PathUnescape. induction s as [|c s IH]; [done|]. cbn [free_of str_forallb]. unfold free_of. cbn [str_forallb].
  intros [Hc Hs]%andb_true_iff. specialize (IH Hs). revert Hc. destruct c as [[] [] [] [] [] [] [] []]; cbn; try done; by rewrite IH.
Qed.

Lemma escaped_delimiters keep s : keep "#"%char = false -> keep "?"%char = false -> keep "/"%char = false -> delimiter_free (escape_with keep false s) = true.
Proof. intros H1 H2 H3. unfold delimiter_free. by rewrite !escape_free. Qed.

Lemma unescape_quote s : PathUnescape (quoteKeepColon s) = Some s.
Proof. apply unescape_escape. intros c Hc. split; intros; [intros ->; by vm_compute in Hc|done]. Qed.

Lemma std_free c s : forallb (fun n => negb (Ascii.eqb (Base64.to_std (Base64.encode6 n)) c)) Base64.sextets = true ->
  Ascii.eqb "=" c = false -> free_of c (Base64.StdEncode s) = true.
Proof.
  intros Hc He. unfold Base64.StdEncode.
  assert (forall l, free_of c (String.string_of_list_ascii l) = forallb (fun d => negb (Ascii.eqb d c)) l) as ->.
  { unfold free_of. induction l as [|d l IH]; [done|]. cbn. by rewrite IH. }
  rewrite forallb_app. apply andb_true_iff. split.
  - pose proof (Base64.encode_bytes_sextets _ (Base64.bytes_of_byte s)) as Hs. induction Hs as [|n l Hn _ IH]; [done|].
    cbn [map forallb]. rewrite IH, andb_true_r. by apply (Base64.sextet_cases (fun n => negb (Ascii.eqb (Base64.to_std (Base64.encode6 n)) c))).
  - unfold Base64.padding. destruct (_ mod 3)%nat as [|[|[|?]]]; cbn [forallb]; by rewrite ?He.
Qed.

(** *** vmess *)

Definition sound_member (k : string) (j : json) : Prop := ValidUTF8 k = true /\ wf_json j = true.

Lemma sound_insert k j (m : gmap string json) : ValidUTF8 k = true -> wf_json j = true -> map_Forall sound_member m -> map_Forall sound_member (<[k := j]> m).
Proof. intros Hk Hj Hm. apply map_Forall_insert_2; [by split|done]. Qed.

Lemma sound_put_if b k j (m : gmap string json) : ValidUTF8 k = true -> wf_json j = true -> map_Forall sound_member m -> map_Forall sound_member (put_if b k j m).
Proof. destruct b; [apply sound_insert|done]. Qed.

Lemma wf_sortedMap (m : gmap string json) : map_Forall sound_member m -> wf_json (sortedMap m) = true.
Proof.
  intros Hm. unfold sortedMap. cbn [wf_json]. apply forallb_forall. intros [k j] Hin.
  apply list_elem_of_In in Hin. rewrite merge_sort_Permutation in Hin. apply elem_of_map_to_list in Hin.
  destruct (Hm k j Hin) as [-> ->]. done.
Qed.

Lemma Itoa_valid n : 0 <= n -> ValidUTF8 (Itoa n) = true.
Proof. intros Hn. apply ascii_valid. eapply str_forallb_impl; [|by apply Itoa_digits]. intros c. destruct c as [[] [] [] [] [] [] [] []]; done. Qed.

Lemma vmess_payload_sound remark address in_ id : linkable remark address in_ (VMessSettings id) ->
  map_Forall sound_member (vmess_payload remark address in_ id).
Proof.
  intros (_ & _ & Hp & Ht). repeat (apply Forall_cons in Ht as [? Ht]). unfold texts in Ht. pose proof (Itoa_valid (Port in_)) as Hport.
  unfold vmess_payload. cbn [list_to_map foldr fst snd].
  repeat case_match; repeat (apply sound_insert || apply sound_put_if); try done; try (apply Hport; lia); try apply map_Forall_empty.
Qed.

Lemma vmess_member k remark address in_ id : str_mem k ["id"; "add"; "port"; "ps"] = true ->
  vmess_payload remark address in_ id !! k =
  (list_to_map [("id", JString id); ("add", JString address); ("port", JString (Itoa (Port in_))); ("ps", JString remark)] : gmap string json) !! k.
Proof.
  intros Hk. apply str_mem_spec in Hk. unfold vmess_payload, put_if. cbn [list_to_map foldr fst snd].
  destruct Hk as [<-|[<-|[<-|[<-|[]]]]]; repeat case_match; rewrite ?lookup_insert_ne by done; by rewrite ?lookup_insert_eq.
Qed.

Lemma read_vmess_link remark address in_ id : linkable remark address in_ (VMessSettings id) ->
  read_share (vmessLink remark address in_ id) =
  Some (mkShared "vmess" [id] address (Port in_) (params remark address in_ (VMessSettings id)) remark).
Proof.
  intros Hl. unfold read_share, vmessLink. rewrite strip_prefix_app. unfold read_vmess. rewrite Base64.StdDecode_StdEncode.
  cbn [mbind option_bind]. rewrite parse_encode by by apply wf_sortedMap, vmess_payload_sound. cbn [mbind option_bind].
  unfold sortedMap. cbv zeta. rewrite list_to_map_sorted by apply _.
  rewrite !lookup_omap, !vmess_member by done. cbn [list_to_map foldr fst snd].
  repeat (rewrite lookup_insert_eq || rewrite lookup_insert_ne by done). cbn. rewrite ParseInt_Itoa by apply Hl. done.
Qed.

Lemma read_share_text sch user address port path q remark creds t :
  t = body sch user address port path ++ (match q with Some q => "?" ++ Encode q | None => "" end) ++ "#" ++ PathEscape remark ->
  strip_prefix "vmess://" t = None ->
  free_of ":" sch = true -> delimiter_free sch = true -> delimiter_free user = true -> delimiter_free address = true ->
  free_of "@" address = true -> 0 <= port < 2 ^ 63 -> path = "" \/ path = "/" -> read_user sch user = Some creds ->
  read_share t = Some (mkShared sch creds address port (default ∅ q) remark).
Proof.
  intros Et Hv Hc Hs Hu Ha Hat Hp Hpath Hr. unfold read_share. rewrite Hv, Et, read_uri_text by done. by rewrite Hr.
Qed.

Lemma read_link sch user address port path q remark creds : strip_prefix "vmess://" (link sch user address port path q remark) = None ->
  free_of ":" sch = true -> delimiter_free sch = true -> delimiter_free user = true -> delimiter_free address = true ->
  free_of "@" address = true -> 0 <= port < 2 ^ 63 -> path = "" \/ path = "/" -> read_user sch user = Some creds ->
  read_share (link sch user address port path q remark) = Some (mkShared sch creds address port q remark).
Proof.
  intros Hv. apply (read_share_text sch user address port path (Some q)); [|done]. unfold link, body. by rewrite <- !str_app_assoc.
Qed.


Definition demo_in : EffectiveInbound :=
  mkEffective "tr" "trojan" "tcp" "none" 443 "de.example" "cdn.example" "" "/" "tls" "h2,http/1.1" "chrome" true "" "" false "" "" false
    "" 0 0 "" false "" "".


(** A password whose third byte is a question mark puts a slash into the userinfo: the
    link of that user no longer names a host. *)
Example slash_cuts_link :
  exists l, BuildLink "r" "de.example" demo_in (ShadowsocksSettings "ab?" "aes-128-gcm") = Some l /\ read_share l = None.
Proof. eexists. split; [reflexivity|]. vm_compute. reflexivity. Qed.
End ShareProps.
