(* ===== verification/ClientDocs.v ===== *)
(** * ClientDocs: the configuration documents of a subscription

    One entry of each format for a host ([Clash], [SingBox], [V2rayJSON], [Outline]) and the
    document around the entries: [internal/subscription/clash.go], [singbox.go],
    [v2rayjson.go] and [outline.go]. A [map[string]any] is a [gmap] of JSON values; inside
    another value it is the object with its keys in order, as it is written. The text of a
    document is [json.MarshalIndent]'s, or for Clash that of a YAML library. *)

From S2P Require Import Prelude GoStrings GoJson ProxySettings Share.

#[local] Open Scope string_scope.
#[local] Open Scope Z_scope.

Module ClientDocs.
Import Share.Effective Share.Links ProxySettings GoJson.

Abbreviation doc := (gmap string json).

Definition strings (l : list string) : json := JArray (map JString l).
Definition obj (l : list (string * json)) : json := sortedMap (list_to_map l).

(** Networks no format but a share link can describe. *)
Definition undescribed (in_ : EffectiveInbound) : bool := str_mem (Network in_) ["kcp"; "splithttp"; "xhttp"].

Definition is_tcp (in_ : EffectiveInbound) : bool := str_mem (Network in_) ["tcp"; "raw"].
Definition has_tls (in_ : EffectiveInbound) : bool := str_mem (Security in_) ["tls"; "reality"].
Definition alpn (in_ : EffectiveInbound) : json := strings (split_at "," (ALPN in_)).

(** ** Clash: [clash.go] *)

Definition clash_supported (in_ : EffectiveInbound) (s : Settings) (isMeta : bool) : bool :=
  negb (undescribed in_) &&
  (isMeta || (negb (String.eqb (Security in_) "reality") &&
              match s with VLESSSettings _ _ | Hysteria2Settings _ | TUICSettings _ _ => false | _ => true end)).

(** What a protocol adds to the node, and whether the node ends there. *)
Definition clash_protocol (in_ : EffectiveInbound) (s : Settings) (node : doc) : option (doc * bool) :=
  match s with
  | VMessSettings id =>
      Some (<["cipher" := JString "auto"]> (<["alterId" := JInt 0]> (<["uuid" := JString id]> (<["type" := JString "vmess"]> node))), false)
  | VLESSSettings id flow =>
      Some (put_if (nonempty flow && (is_tcp in_ || String.eqb (Network in_) "kcp") && negb (String.eqb (HeaderType in_) "http") &&
                    negb (String.eqb (Security in_) "none")) "flow" (JString flow)
              (<["uuid" := JString id]> (<["type" := JString "vless"]> node)), false)
  | TrojanSettings password _ => Some (<["password" := JString password]> (<["type" := JString "trojan"]> node), false)
  | ShadowsocksSettings password method =>
      Some (<["cipher" := JString method]> (<["password" := JString password]> (<["type" := JString "ss"]> node)), true)
  | Hysteria2Settings password =>
      let node := <["sni" := JString (SNI in_)]> (<["password" := JString password]> (<["type" := JString "hysteria2"]> node)) in
      let node := put_if (AllowInsecure in_) "skip-cert-verify" (JBool true) node in
      let node := put_if (nonempty (ALPN in_)) "alpn" (alpn in_) node in
      let node := put_if (0 <? UpMbps in_) "up" (JInt (UpMbps in_)) node in
      let node := put_if (0 <? DownMbps in_) "down" (JInt (DownMbps in_)) node in
      Some (if nonempty (Hysteria2ObfsPassword in_)
            then <["obfs-password" := JString (Hysteria2ObfsPassword in_)]> (<["obfs" := JString "salamander"]> node) else node, true)
  | TUICSettings id password =>
      let node := <["sni" := JString (SNI in_)]> (<["password" := JString password]> (<["uuid" := JString id]> (<["type" := JString "tuic"]> node))) in
      let node := put_if (AllowInsecure in_) "skip-cert-verify" (JBool true) node in
      let node := put_if (nonempty (ALPN in_)) "alpn" (alpn in_) node in
      let node := <["udp-relay-mode" := JString "native"]> (<["congestion-controller" := JString (congestion in_)]> node) in
      Some (put_if (ZeroRTTHandshake in_) "reduce-rtt" (JBool true) node, true)
  | SnellSettings _ | AnyTLSSettings _ => None
  end.

Definition clashNetwork (in_ : EffectiveInbound) : string :=
  if str_mem (Network in_) ["http"; "h2"] then "h2"
  else if is_tcp in_ && String.eqb (HeaderType in_) "http" then "http"
  else if String.eqb (Network in_) "httpupgrade" then "ws"
  else if is_tcp in_ then "tcp"
  else Network in_.

Definition clash_tls (in_ : EffectiveInbound) (s : Settings) (isMeta : bool) (node : doc) : doc :=
  if has_tls in_ then
    let node := <["tls" := JBool true]> node in
    let node := <[match s with TrojanSettings _ _ => "sni" | _ => "servername" end := JString (SNI in_)]> node in
    let node := put_if (nonempty (ALPN in_)) "alpn" (alpn in_) node in
    let node := put_if (AllowInsecure in_) "skip-cert-verify" (JBool true) node in
    if isMeta then
      let node := put_if (nonempty (Fingerprint in_)) "client-fingerprint" (JString (Fingerprint in_)) node in
      put_if (String.eqb (Security in_) "reality" && nonempty (RealityPublicKey in_)) "reality-opts"
        (obj [("public-key", JString (RealityPublicKey in_)); ("short-id", JString (RealityShortID in_))]) node
    else node
  else node.

Definition host_headers (in_ : EffectiveInbound) : json := obj [("Host", JString (HostHeader in_))].

Definition clash_transport (in_ : EffectiveInbound) (node : doc) : doc :=
  let path b v := put_if (nonempty (Path in_)) b v in
  let host b v := put_if (nonempty (HostHeader in_)) b v in
  let network := clashNetwork in_ in
  if String.eqb network "ws" then
    let opts := host "headers" (host_headers in_) (path "path" (JString (Path in_)) ∅) in
    let opts := if String.eqb (Network in_) "httpupgrade"
                then <["v2ray-http-upgrade-fast-open" := JBool true]> (<["v2ray-http-upgrade" := JBool true]> opts) else opts in
    <["ws-opts" := sortedMap opts]> node
  else if String.eqb network "grpc" then <["grpc-opts" := sortedMap (path "grpc-service-name" (JString (Path in_)) ∅)]> node
  else if String.eqb network "h2" then
    <["h2-opts" := sortedMap (host "host" (strings [HostHeader in_]) (path "path" (JString (Path in_)) ∅))]> node
  else if String.eqb network "http" then
    <["http-opts" := sortedMap (host "Host" (JString (HostHeader in_)) (path "path" (strings [Path in_]) ∅))]> node
  else if String.eqb network "tcp" then
    <["tcp-opts" := sortedMap (host "headers" (host_headers in_) (path "path" (strings [Path in_]) ∅))]> node
  else node.

(** [ClashProxy]; [None]: not a combination Clash can represent. *)
Definition ClashProxy (remark address : string) (in_ : EffectiveInbound) (s : Settings) (isMeta : bool) : option doc :=
  if negb (clash_supported in_ s isMeta) then None
  else
    let node : doc := list_to_map [("name", JString remark); ("server", JString address); ("port", JInt (Port in_)); ("udp", JBool true)] in
    '(node, done) ← clash_protocol in_ s node;
    if (done : bool) then Some node
    else
      let node := <["network" := JString (clashNetwork in_)]> node in
      let node := clash_transport in_ (clash_tls in_ s isMeta node) in
      let bare := match node !! "flow" with None => true | Some _ => false end in
      Some (put_if (isMeta && MuxEnable in_ && bare) "smux"
        (obj [("enabled", JBool false); ("protocol", JString "h2mux"); ("max_streams", JInt 8)]) node).

Definition name_of (key : string) (p : doc) : list string := match p !! key with Some (JString s) => [s] | _ => [] end.

(** A proxy group of the template gets the names of the proxies. *)
Definition fill_group (names : list string) (g : json) : json :=
  match g with
  | JObject fields => sortedMap (<["proxies" := strings names]> (list_to_map fields))
  | _ => g
  end.

(** [ClashConfig] with what the template file holds, if it could be read. *)
Definition ClashConfig (proxies : list doc) (template : option doc) : doc :=
  let names := concat (map (name_of "name") proxies) in
  match template with
  | Some tmpl =>
      let doc := <["proxies" := JArray (map sortedMap proxies)]> tmpl in
      match doc !! "proxy-groups" with
      | Some (JArray groups) => <["proxy-groups" := JArray (map (fill_group names) groups)]> doc
      | _ => doc
      end
  | None =>
      list_to_map [("proxies", JArray (map sortedMap proxies));
        ("proxy-groups", JArray [obj [("name", JString "PROXY"); ("type", JString "select"); ("proxies", strings names)]]);
        ("rules", strings ["MATCH,PROXY"])]
  end.

(** ** sing-box: [singbox.go] *)

Definition singBoxTransport (in_ : EffectiveInbound) : option doc :=
  if String.eqb (Network in_) "ws" then
    Some (put_if (nonempty (HostHeader in_)) "headers" (host_headers in_)
            (list_to_map [("type", JString "ws"); ("path", JString (Path in_))]))
  else if String.eqb (Network in_) "grpc" then Some (list_to_map [("type", JString "grpc"); ("service_name", JString (Path in_))])
  else if str_mem (Network in_) ["http"; "h2"] then
    Some (list_to_map [("type", JString "http"); ("path", JString (Path in_)); ("host", strings [HostHeader in_])])
  else if String.eqb (Network in_) "httpupgrade" then
    Some (list_to_map [("type", JString "httpupgrade"); ("path", JString (Path in_)); ("host", JString (HostHeader in_))])
  else None.

Definition utls (in_ : EffectiveInbound) : json := obj [("enabled", JBool true); ("fingerprint", JString (Fingerprint in_))].

Definition singBoxTLS (in_ : EffectiveInbound) : option doc :=
  if String.eqb (Security in_) "tls" then
    Some (put_if (nonempty (Fingerprint in_)) "utls" (utls in_)
      (put_if (nonempty (ALPN in_)) "alpn" (alpn in_)
        (put_if (AllowInsecure in_) "insecure" (JBool true)
          (list_to_map [("enabled", JBool true); ("server_name", JString (SNI in_))]))))
  else if String.eqb (Security in_) "reality" then
    Some (list_to_map [("enabled", JBool true); ("server_name", JString (SNI in_)); ("utls", utls in_);
      ("reality", obj [("enabled", JBool true); ("public_key", JString (RealityPublicKey in_)); ("short_id", JString (RealityShortID in_))])])
  else None.

Definition singBox_protocol (in_ : EffectiveInbound) (s : Settings) (out : doc) : doc :=
  match s with
  | VMessSettings id => <["uuid" := JString id]> out
  | VLESSSettings id flow => put_if (nonempty flow && is_tcp in_) "flow" (JString flow) (<["uuid" := JString id]> out)
  | TrojanSettings password _ | AnyTLSSettings password => <["password" := JString password]> out
  | ShadowsocksSettings password method => <["method" := JString method]> (<["password" := JString password]> out)
  | Hysteria2Settings password =>
      put_if (nonempty (Hysteria2ObfsPassword in_)) "obfs" (obj [("type", JString "salamander"); ("password", JString (Hysteria2ObfsPassword in_))])
        (put_if (0 <? DownMbps in_) "down_mbps" (JInt (DownMbps in_))
          (put_if (0 <? UpMbps in_) "up_mbps" (JInt (UpMbps in_)) (<["password" := JString password]> out)))
  | TUICSettings id password =>
      put_if (ZeroRTTHandshake in_) "zero_rtt_handshake" (JBool true)
        (<["congestion_control" := JString (congestion in_)]> (<["password" := JString password]> (<["uuid" := JString id]> out)))
  | SnellSettings user_key =>
      put_if (nonempty (SnellV6Mode in_) && negb (String.eqb (SnellV6Mode in_) "default")) "mode" (JString (SnellV6Mode in_))
        (<["userkey" := JString user_key]> (<["version" := JInt 6]> (<["psk" := JString (SnellPSK in_)]> out)))
  end.

Definition put_some (k : string) (v : option doc) (m : doc) : doc := match v with Some d => <[k := sortedMap d]> m | None => m end.

(** [SingBoxOutbound]. *)
Definition SingBoxOutbound (tag address : string) (in_ : EffectiveInbound) (s : Settings) : option doc :=
  if undescribed in_ then None
  else
    let out : doc := list_to_map [("type", JString (type_name (type_of s))); ("tag", JString tag); ("server", JString address);
                                  ("server_port", JInt (Port in_))] in
    let out := put_some "tls" (singBoxTLS in_) (put_some "transport" (singBoxTransport in_) (singBox_protocol in_ s out)) in
    match s with
    | Hysteria2Settings _ | TUICSettings _ _ | SnellSettings _ | AnyTLSSettings _ => Some out
    | _ => Some (<["multiplex" := obj [("enabled", JBool false); ("protocol", JString "h2mux"); ("max_streams", JInt 8)]]> out)
    end.

Definition firstOrEmpty (l : list string) : string := match l with [] => "" | x :: _ => x end.

(** [SingBoxConfig]: every outbound has a tag. *)
Definition SingBoxConfig (outbounds : list doc) : json :=
  let tags := concat (map (name_of "tag") outbounds) in
  obj [
    ("log", obj [("level", JString "warn")]);
    ("dns", obj [
      ("servers", JArray [
        obj [("tag", JString "dns-remote"); ("type", JString "https"); ("server", JString "8.8.8.8"); ("detour", JString "proxy")];
        obj [("tag", JString "dns-direct"); ("type", JString "local")]]);
      ("final", JString "dns-remote")]);
    ("inbounds", JArray [
      obj [("type", JString "tun"); ("tag", JString "tun-in"); ("address", strings ["172.19.0.1/28"; "fdfe:dcba:9876::1/126"]);
           ("auto_route", JBool true); ("strict_route", JBool true)]]);
    ("route", obj [
      ("auto_detect_interface", JBool true); ("default_domain_resolver", JString "dns-direct");
      ("rules", JArray [
        obj [("inbound", JString "tun-in"); ("action", JString "sniff"); ("timeout", JString "1s")];
        obj [("protocol", JString "dns"); ("action", JString "hijack-dns")];
        obj [("ip_is_private", JBool true); ("outbound", JString "direct")]]);
      ("final", JString "proxy")]);
    ("outbounds", JArray (map sortedMap outbounds ++
      [obj [("type", JString "selector"); ("tag", JString "proxy"); ("outbounds", strings tags); ("default", JString (firstOrEmpty tags))];
       obj [("type", JString "direct"); ("tag", JString "direct")]]))].

(** ** V2Ray JSON: [v2rayjson.go] *)

Definition v2rayJSONEmail : string := "https://github.com/legendary1205/rapido".

Definition v2rayJSONTransport (in_ : EffectiveInbound) : option doc :=
  let path k (m : doc) := put_if (nonempty (Path in_)) k (JString (Path in_)) m in
  let host k v (m : doc) := put_if (nonempty (HostHeader in_)) k v m in
  if String.eqb (Network in_) "ws" then Some (host "headers" (host_headers in_) (path "path" ∅))
  else if String.eqb (Network in_) "grpc" then
    Some (host "authority" (JString (HostHeader in_)) (path "serviceName" (<["multiMode" := JBool false]> ∅)))
  else if str_mem (Network in_) ["http"; "h2"] then
    Some (list_to_map [("path", JString (Path in_)); ("host", strings (if nonempty (HostHeader in_) then [HostHeader in_] else []))])
  else if String.eqb (Network in_) "httpupgrade" then Some (host "host" (JString (HostHeader in_)) (path "path" ∅))
  else None.

Definition v2rayJSONTLS (in_ : EffectiveInbound) : option doc :=
  let sni (m : doc) := put_if (nonempty (SNI in_)) "serverName" (JString (SNI in_)) m in
  let fp (m : doc) := put_if (nonempty (Fingerprint in_)) "fingerprint" (JString (Fingerprint in_)) m in
  if String.eqb (Security in_) "tls" then
    Some (put_if (nonempty (ALPN in_)) "alpn" (alpn in_) (fp (put_if (AllowInsecure in_) "allowInsecure" (JBool true) (sni ∅))))
  else if String.eqb (Security in_) "reality" then
    Some (put_if (nonempty (RealityShortID in_)) "shortId" (JString (RealityShortID in_))
      (put_if (nonempty (RealityPublicKey in_)) "publicKey" (JString (RealityPublicKey in_)) (fp (sni (<["show" := JBool false]> ∅)))))
  else None.

Definition vless_flow_set (in_ : EffectiveInbound) (flow : string) : bool :=
  nonempty flow && is_tcp in_ && negb (String.eqb (HeaderType in_) "http") && has_tls in_.

(** The protocol's settings, and whether a flow was set. *)
Definition v2ray_settings (address : string) (in_ : EffectiveInbound) (s : Settings) : option (json * bool) :=
  let vnext user := obj [("vnext", JArray [obj [("address", JString address); ("port", JInt (Port in_)); ("users", JArray [user])]])] in
  let servers l := obj [("servers", JArray [obj ([("address", JString address); ("port", JInt (Port in_))] ++ l)])] in
  match s with
  | VMessSettings id =>
      Some (vnext (obj [("id", JString id); ("alterId", JInt 0); ("email", JString v2rayJSONEmail); ("security", JString "auto")]), false)
  | VLESSSettings id flow =>
      let user : doc := list_to_map [("id", JString id); ("encryption", JString "none"); ("email", JString v2rayJSONEmail)] in
      let set := vless_flow_set in_ flow in
      Some (vnext (sortedMap (put_if set "flow" (JString flow) user)), set)
  | TrojanSettings password _ => Some (servers [("password", JString password); ("email", JString v2rayJSONEmail)], false)
  | ShadowsocksSettings password method =>
      Some (servers [("password", JString password); ("email", JString v2rayJSONEmail); ("method", JString method); ("uot", JBool false)], false)
  | _ => None
  end.

Definition v2ray_stream (in_ : EffectiveInbound) : doc :=
  let stream := put_some (Network in_ ++ "Settings") (v2rayJSONTransport in_) (<["network" := JString (Network in_)]> ∅) in
  match v2rayJSONTLS in_ with
  | Some tls => <[Security in_ ++ "Settings" := sortedMap tls]> (<["security" := JString (Security in_)]> stream)
  | None => stream
  end.

Definition v2ray_outbound (address : string) (in_ : EffectiveInbound) (s : Settings) : option doc :=
  '(settings, vlessFlowSet) ← v2ray_settings address in_ s;
  let outbound : doc := list_to_map [("tag", JString "proxy"); ("protocol", JString (type_name (type_of s))); ("settings", settings);
                                     ("streamSettings", sortedMap (v2ray_stream in_))] in
  Some (put_if (MuxEnable in_ && negb vlessFlowSet) "mux"
    (obj [("enabled", JBool true); ("concurrency", JInt 8); ("xudpConcurrency", JInt 8)]) outbound).

(** [V2rayJSONConfig] with the template, if there is one. *)
Definition V2rayJSONConfig (remark address : string) (in_ : EffectiveInbound) (s : Settings) (template : option doc) : option doc :=
  if undescribed in_ then None
  else
    outbound ← v2ray_outbound address in_ s;
    Some match template with
    | Some tmpl =>
        let base := match tmpl !! "outbounds" with Some (JArray l) => l | _ => [] end in
        <["outbounds" := JArray (sortedMap outbound :: base)]> (<["remarks" := JString remark]> tmpl)
    | None =>
        list_to_map [("remarks", JString remark);
          ("outbounds", JArray [sortedMap outbound; obj [("tag", JString "direct"); ("protocol", JString "freedom")];
                                obj [("tag", JString "block"); ("protocol", JString "blackhole")]])]
    end.

(** An empty list that was never made is null in JSON. *)
Definition slice (l : list json) : json := match l with [] => JNull | _ => JArray l end.

Definition V2rayJSONArray (configs : list doc) : json := slice (map sortedMap configs).

(** ** Outline: [outline.go] *)

Definition OutlineServerID (index : nat) : string := Itoa (Z.of_nat index + 1).

(** The fields of [outlineServer] in their order. *)
Definition OutlineServer (id remark address : string) (in_ : EffectiveInbound) (s : Settings) : option json :=
  match s with
  | ShadowsocksSettings password method =>
      Some (JObject [("id", JString id); ("remarks", JString remark); ("server", JString address); ("server_port", JInt (Port in_));
                     ("password", JString password); ("method", JString method)])
  | _ => None
  end.

Definition OutlineConfig (servers : list json) : json := obj [("version", JInt 1); ("servers", slice servers)].
End ClientDocs.
