(* ===== verification/ClientDocsProps.v ===== *)
(** * ClientDocsProps: the formats of a subscription describe one account

    Every format dials the same server and port with the same credentials
    ([formats_agree]); where a host does not override the security of its inbound, the flow
    a share link, a Clash or a V2Ray document carries is the one the node expects
    ([flow_agrees]); a flow is never multiplexed ([vision_not_muxed]). *)

From stdpp Require Import sorting.
From S2P Require Import Prelude GoStrings GoUrl GoJson ProxySettings Store ReviewJob NodeConfig NodeConfigProps Share ShareProps ClientDocs.

#[local] Open Scope string_scope.
#[local] Open Scope Z_scope.

Module ClientDocsProps.
Import NodeConfig NodeConfigProps Store Share.Effective Share.Links ShareProps.ShareProps ProxySettings GoJson ClientDocs.

(** ** Reading documents *)

Inductive step := Key (k : string) | At (i : nat).

(** Go's decoder keeps the last of equal keys; here keys are unique. *)
Definition down (s : step) (j : json) : option json :=
  match s, j with
  | Key k, JObject fields => (list_to_map fields : doc) !! k
  | At i, JArray l => l !! i
  | _, _ => None
  end.

Fixpoint look (path : list step) (j : json) : option json :=
  match path with [] => Some j | s :: path => j' ← down s j; look path j' end.

Lemma look_sorted k path m : look (Key k :: path) (sortedMap m) = (j ← m !! k; look path j).
Proof. cbn [look down]. unfold sortedMap. by rewrite list_to_map_sorted. Qed.

Lemma look_obj k path l : look (Key k :: path) (obj l) = (j ← (list_to_map l : doc) !! k; look path j).
Proof. apply look_sorted. Qed.

Lemma look_at i path l : look (At i :: path) (JArray l) = (j ← l !! i; look path j).
Proof. done. Qed.

Lemma lookup_put_if b k k' j (m : doc) : put_if b k j m !! k' = if b && String.eqb k k' then Some j else m !! k'.
Proof.
  unfold put_if. destruct b; [|done]. cbn [andb]. destruct (String.eqb_spec k k') as [->|]; [by rewrite lookup_insert_eq|by rewrite lookup_insert_ne].
Qed.

Lemma lookup_put k k' j (m : doc) : <[k := j]> m !! k' = if String.eqb k k' then Some j else m !! k'.
Proof. apply (lookup_put_if true). Qed.

Lemma lookup_put_some k k' v (m : doc) : put_some k v m !! k' = if String.eqb k k' then default (m !! k') (Some <$> (sortedMap <$> v)) else m !! k'.
Proof. unfold put_some. destruct v; cbn; [rewrite lookup_put|]; by destruct (String.eqb k k'). Qed.

(** Reads a key of a document under construction. *)
Ltac read_doc :=
  cbn [list_to_map foldr fst snd];
  repeat ((rewrite lookup_put_if || rewrite lookup_put || rewrite lookup_put_some || rewrite andb_false_r);
          cbn [String.eqb Ascii.eqb Bool.eqb list_to_map foldr fst snd]).

(** ** Accounts *)

(** What a client dials: server, port and credentials. *)
Definition account (server port : list step) (keys : list (list step)) (j : json) : option json * option json * list (option json) :=
  (look server j, look port j, map (fun k => look k j) keys).

Definition wanted (address : string) (in_ : EffectiveInbound) (s : Settings) : option json * option json * list (option json) :=
  (Some (JString address), Some (JInt (Port in_)), map (fun c => Some (JString c)) (credentials s)).

Definition clash_keys (s : Settings) : list string :=
  match s with
  | VMessSettings _ | VLESSSettings _ _ => ["uuid"]
  | ShadowsocksSettings _ _ => ["cipher"; "password"]
  | TUICSettings _ _ => ["uuid"; "password"]
  | _ => ["password"]
  end.

Definition singbox_keys (s : Settings) : list string :=
  match s with
  | VMessSettings _ | VLESSSettings _ _ => ["uuid"]
  | ShadowsocksSettings _ _ => ["method"; "password"]
  | TUICSettings _ _ => ["uuid"; "password"]
  | SnellSettings _ => ["userkey"]
  | _ => ["password"]
  end.

Definition v2ray_server (s : Settings) : list step :=
  [Key "outbounds"; At 0; Key "settings"; Key (match s with VMessSettings _ | VLESSSettings _ _ => "vnext" | _ => "servers" end); At 0].

Definition v2ray_keys (s : Settings) : list (list step) :=
  match s with
  | VMessSettings _ | VLESSSettings _ _ => [[Key "users"; At 0; Key "id"]]
  | ShadowsocksSettings _ _ => [[Key "method"]; [Key "password"]]
  | _ => [[Key "password"]]
  end.

Definition field (k : string) : list step := [Key k].

Lemma transport_keeps in_ node k : str_mem k ["ws-opts"; "grpc-opts"; "h2-opts"; "http-opts"; "tcp-opts"] = false ->
  clash_transport in_ node !! k = node !! k.
Proof.
  intros Hk. assert (forall o, str_mem o ["ws-opts"; "grpc-opts"; "h2-opts"; "http-opts"; "tcp-opts"] = true -> String.eqb o k = false) as Hne.
  { intros o Ho. destruct (String.eqb_spec o k); congruence. }
  unfold clash_transport. cbv zeta. repeat case_match; rewrite ?lookup_put, ?Hne; done.
Qed.

Lemma clash_tls_keeps in_ s b node k : str_mem k ["tls"; "sni"; "servername"; "alpn"; "skip-cert-verify"; "client-fingerprint"; "reality-opts"] = false ->
  clash_tls in_ s b node !! k = node !! k.
Proof.
  intros Hk. assert (forall o, str_mem o ["tls"; "sni"; "servername"; "alpn"; "skip-cert-verify"; "client-fingerprint"; "reality-opts"] = true -> String.eqb o k = false) as Hne.
  { intros o Ho. destruct (String.eqb_spec o k); congruence. }
  unfold clash_tls. cbv zeta. destruct (has_tls in_); [|done].
  assert (String.eqb match s with TrojanSettings _ _ => "sni" | _ => "servername" end k = false) as Hs by (by destruct s; apply Hne).
  destruct b; rewrite ?lookup_put_if, ?lookup_put, ?Hs, ?Hne, ?andb_false_r; done.
Qed.

Lemma clash_account remark address in_ s b m : ClashProxy remark address in_ s b = Some m ->
  account (field "server") (field "port") (map field (clash_keys s)) (sortedMap m) = wanted address in_ s.
Proof.
  unfold ClashProxy. destruct (negb _); [done|]. unfold account, wanted, field. rewrite !map_map.
  assert (forall k, look [Key k] (sortedMap m) = m !! k) as Hk by (intros k; rewrite look_sorted; by destruct (m !! k)).
  rewrite !Hk. erewrite map_ext by (intros; apply Hk).
  destruct s as [id|id flow|p flow|p mth|p|id p|k|p]; cbn [clash_protocol mbind option_bind clash_keys credentials map]; try done;
    intros [= <-]; read_doc; rewrite ?transport_keeps, ?clash_tls_keeps by done; read_doc; try done.
  by destruct (nonempty (Hysteria2ObfsPassword in_)); read_doc.
Qed.

Lemma singbox_account tag address in_ s m : SingBoxOutbound tag address in_ s = Some m ->
  account (field "server") (field "server_port") (map field (singbox_keys s)) (sortedMap m) = wanted address in_ s.
Proof.
  unfold SingBoxOutbound. destruct (undescribed _); [done|]. unfold account, wanted, field. rewrite !map_map.
  assert (forall k, look [Key k] (sortedMap m) = m !! k) as Hk by (intros k; rewrite look_sorted; by destruct (m !! k)).
  rewrite !Hk. erewrite map_ext by (intros; apply Hk).
  destruct s as [id|id flow|p flow|p mth|p|id p|k|p]; cbn [singBox_protocol singbox_keys credentials map]; intros [= <-]; by read_doc.
Qed.

Lemma v2ray_account remark address in_ s t m : V2rayJSONConfig remark address in_ s t = Some m ->
  account (v2ray_server s ++ [Key "address"]) (v2ray_server s ++ [Key "port"]) (map (app (v2ray_server s)) (v2ray_keys s)) (sortedMap m) =
  wanted address in_ s.
Proof.
  unfold V2rayJSONConfig. destruct (undescribed _); [done|]. intros (o & Ho & Hm)%bind_Some. injection Hm as <-.
  unfold v2ray_outbound in Ho. apply bind_Some in Ho as ([settings set] & Hs & [= <-]).
  set (d := match t with Some tmpl => _ | None => _ end).
  assert (forall path, look (Key "outbounds" :: At 0 :: Key "settings" :: path) (sortedMap d) = look path settings) as Hout.
  { intros path. rewrite look_sorted. assert (exists l, d !! "outbounds" = Some (JArray (sortedMap (put_if (MuxEnable in_ && negb set) "mux"
      (obj [("enabled", JBool true); ("concurrency", JInt 8); ("xudpConcurrency", JInt 8)])
      (list_to_map [("tag", JString "proxy"); ("protocol", JString (type_name (type_of s))); ("settings", settings);
                    ("streamSettings", sortedMap (v2ray_stream in_))])) :: l))) as [l ->].
    { unfold d. destruct t; read_doc; eauto. }
    cbn [mbind option_bind]. rewrite look_at. cbn [lookup list_lookup mbind option_bind]. rewrite look_sorted. by read_doc. }
  unfold account, wanted, v2ray_server. cbn [app]. rewrite !Hout. rewrite map_map. erewrite map_ext by (intros k; cbn [app]; apply Hout).
  destruct s as [id|id flow|p flow|p mth|p|id p|k|p]; cbn [v2ray_settings] in Hs; try done; injection Hs as <- <-; cbn [v2ray_keys map credentials app];
    repeat (rewrite ?look_obj, ?look_sorted, ?look_at; read_doc; cbn [mbind option_bind lookup list_lookup]); done.
Qed.

Lemma outline_account id remark address in_ s j : OutlineServer id remark address in_ s = Some j ->
  account (field "server") (field "server_port") [field "method"; field "password"] j = wanted address in_ s.
Proof. destruct s; cbn [OutlineServer]; try done. intros [= <-]. unfold account, field. cbn [look down map]. by read_doc. Qed.

(** Whatever format a client asks for, an entry for a host dials the same server and port
    with the same credentials. *)
Theorem formats_agree remark address in_ s :
  (forall b m, ClashProxy remark address in_ s b = Some m ->
    account (field "server") (field "port") (map field (clash_keys s)) (sortedMap m) = wanted address in_ s) /\
  (forall m, SingBoxOutbound remark address in_ s = Some m ->
    account (field "server") (field "server_port") (map field (singbox_keys s)) (sortedMap m) = wanted address in_ s) /\
  (forall t m, V2rayJSONConfig remark address in_ s t = Some m ->
    account (v2ray_server s ++ [Key "address"]) (v2ray_server s ++ [Key "port"]) (map (app (v2ray_server s)) (v2ray_keys s)) (sortedMap m) =
    wanted address in_ s) /\
  (forall id j, OutlineServer id remark address in_ s = Some j ->
    account (field "server") (field "server_port") [field "method"; field "password"] j = wanted address in_ s).
Proof.
  split; [|split; [|split]]; intros; [by eapply clash_account|by eapply singbox_account|by eapply v2ray_account|by eapply outline_account].
Qed.

(** ** Flows *)

Lemma untouched_tls in_ q : tlsQueryParams in_ q !! "flow" = q !! "flow".
Proof. unfold tlsQueryParams, set_if. repeat case_match; by rewrite ?lookup_insert_ne by done. Qed.

Lemma untouched_transport in_ q : transportQueryParams in_ q !! "flow" = q !! "flow".
Proof. unfold transportQueryParams. repeat case_match; by rewrite ?lookup_insert_ne by done. Qed.

Lemma link_flow in_ flow : stream_query in_ flow !! "flow" = if nonempty flow && flow_allowed in_ then Some flow else None.
Proof.
  unfold stream_query, set_if. rewrite untouched_tls, untouched_transport.
  destruct (_ && _); [by rewrite lookup_insert_eq|]. by rewrite !lookup_insert_ne by done.
Qed.

Lemma clash_flow remark address in_ id flow b m : ClashProxy remark address in_ (VLESSSettings id flow) b = Some m ->
  m !! "flow" = if nonempty flow && (is_tcp in_ || String.eqb (Network in_) "kcp") && negb (String.eqb (HeaderType in_) "http") &&
                   negb (String.eqb (Security in_) "none") then Some (JString flow) else None.
Proof.
  unfold ClashProxy. destruct (negb _); [done|]. cbn [clash_protocol mbind option_bind]. intros [= <-].
  rewrite lookup_put_if. cbn [String.eqb Ascii.eqb Bool.eqb]. rewrite andb_false_r, transport_keeps, clash_tls_keeps by done. read_doc.
  rewrite andb_true_r. by destruct (_ && _).
Qed.

Lemma v2ray_flow remark address in_ id flow t m : V2rayJSONConfig remark address in_ (VLESSSettings id flow) t = Some m ->
  look (v2ray_server (VLESSSettings id flow) ++ [Key "users"; At 0; Key "flow"]) (sortedMap m) =
  if vless_flow_set in_ flow then Some (JString flow) else None.
Proof.
  unfold V2rayJSONConfig. destruct (undescribed _); [done|]. cbn [v2ray_outbound v2ray_settings mbind option_bind]. intros [= <-].
  unfold v2ray_server. cbn [app]. destruct t; repeat (rewrite ?look_obj, ?look_sorted, ?look_at; read_doc; cbn [mbind option_bind lookup list_lookup]);
    rewrite ?andb_true_r; by destruct (vless_flow_set in_ flow).
Qed.

Definition flow_text (flow : string) : option json := if nonempty flow then Some (JString flow) else None.

Lemma flow_all d i host p u id flow remark address : accepted d i p = Some u -> p_Settings p = VLESSSettings id flow -> i_Protocol i = "vless" ->
  str_mem (i_Security i) ["none"; "tls"; "reality"] = true -> security_of i host = i_Security i ->
  let e := BuildEffectiveInbound i host in let s := VLESSSettings id flow in
  default "" (params remark address e s !! "flow") = us_Flow u /\
  (forall b m, ClashProxy remark address e s b = Some m -> m !! "flow" = flow_text (us_Flow u)) /\
  (forall t m, V2rayJSONConfig remark address e s t = Some m ->
    look (v2ray_server s ++ [Key "users"; At 0; Key "flow"]) (sortedMap m) = flow_text (us_Flow u)).
Proof.
  intros Ha Hp Hi Hsec Hov e s.
  assert (us_Flow u = if flow_allowed e then flow else "") as Hu.
  { unfold accepted in Ha. destruct (users d !! p_UserID p); [|done]. cbn [mbind option_bind] in Ha. destruct (_ && _); [|done].
    injection Ha as <-. rewrite Hp. unfold flowless. rewrite Hi. unfold flow_allowed, e, flowApplies, str_mem. cbn [existsb Network Security HeaderType BuildEffectiveInbound].
    rewrite Hov, !orb_false_r, !orb_assoc. cbn [String.eqb Ascii.eqb Bool.eqb orb andb].
    by destruct ((String.eqb (i_Security i) "tls" || String.eqb (i_Security i) "reality") &&
      (String.eqb (i_Network i) "tcp" || String.eqb (i_Network i) "raw" || String.eqb (i_Network i) "kcp") && negb (String.eqb (text (i_HeaderType i)) "http")). }
  assert (forall b1, (nonempty flow && b1 = nonempty flow && flow_allowed e) -> (if nonempty flow && b1 then Some (JString flow) else None) = flow_text (us_Flow u)) as Htext.
  { intros b1 ->. rewrite Hu. unfold flow_text. destruct (flow_allowed e); [rewrite andb_true_r; done|]. by rewrite andb_false_r. }
  split; [|split].
  - change (params remark address e s) with (stream_query e flow). rewrite link_flow, Hu. unfold nonempty. destruct (String.eqb_spec flow "") as [->|]; cbn; by destruct (flow_allowed e).
  - intros b m Hm. rewrite (clash_flow _ _ _ _ _ _ _ Hm), <- !andb_assoc. apply Htext. f_equal.
    unfold flow_allowed, is_tcp, e, str_mem in *. cbn [existsb Network Security HeaderType BuildEffectiveInbound] in *. rewrite Hov, !orb_false_r in *.
    destruct (String.eqb_spec (i_Security i) "none") as [E|]; [rewrite E|destruct (String.eqb (i_Security i) "tls"), (String.eqb (i_Security i) "reality"); try done];
    destruct (String.eqb (i_Network i) "tcp"), (String.eqb (i_Network i) "raw"), (String.eqb (i_Network i) "kcp"), (String.eqb (text (i_HeaderType i)) "http"); done.
  - intros t m Hm. pose proof Hm as Hk. unfold s. rewrite (v2ray_flow _ _ _ _ _ _ _ Hm). unfold vless_flow_set. rewrite <- !andb_assoc. apply Htext. f_equal.
    assert (undescribed e = false) as Hd by (unfold V2rayJSONConfig in Hk; by destruct (undescribed e)).
    unfold undescribed, flow_allowed, is_tcp, has_tls, e, str_mem in *. cbn [existsb Network Security HeaderType BuildEffectiveInbound] in *. rewrite !orb_false_r in *.
    destruct (String.eqb (i_Network i) "kcp"); [done|]. rewrite !orb_false_r.
    destruct (String.eqb (security_of i host) "tls"), (String.eqb (security_of i host) "reality"), (String.eqb (i_Network i) "tcp"), (String.eqb (i_Network i) "raw"),
      (String.eqb (text (i_HeaderType i)) "http"); done.
Qed.

Lemma flow_agrees_at d i host p u id flow remark address : accepted d i p = Some u -> p_Settings p = VLESSSettings id flow -> i_Protocol i = "vless" ->
  str_mem (i_Security i) ["none"; "tls"; "reality"] = true -> security_of i host = i_Security i ->
  default "" (params remark address (BuildEffectiveInbound i host) (VLESSSettings id flow) !! "flow") = us_Flow u.
Proof. intros. by eapply flow_all. Qed.

(** Where a host leaves the security of its inbound alone, the flow a VLESS client is told
    to use - by a link, a Clash or a V2Ray document - is the one the node expects of that
    user on that inbound. *)
Theorem flow_agrees d i host p u id flow remark address : accepted d i p = Some u -> p_Settings p = VLESSSettings id flow -> i_Protocol i = "vless" ->
  str_mem (i_Security i) ["none"; "tls"; "reality"] = true -> security_of i host = i_Security i ->
  let e := BuildEffectiveInbound i host in let s := VLESSSettings id flow in
  default "" (params remark address e s !! "flow") = us_Flow u /\
  (forall b m, ClashProxy remark address e s b = Some m -> m !! "flow" = flow_text (us_Flow u)) /\
  (forall t m, V2rayJSONConfig remark address e s t = Some m ->
    look (v2ray_server s ++ [Key "users"; At 0; Key "flow"]) (sortedMap m) = flow_text (us_Flow u)).
Proof. apply flow_all. Qed.

(** A flow is never multiplexed. *)
Lemma vision_not_muxed remark address in_ id flow :
  (forall b m, ClashProxy remark address in_ (VLESSSettings id flow) b = Some m -> m !! "flow" <> None -> m !! "smux" = None) /\
  (forall t m, V2rayJSONConfig remark address in_ (VLESSSettings id flow) t = Some m -> vless_flow_set in_ flow = true ->
    look [Key "outbounds"; At 0; Key "mux"] (sortedMap m) = None).
Proof.
  split.
  - intros b m Hm. unfold ClashProxy in Hm. destruct (negb _); [done|]. cbn [clash_protocol mbind option_bind] in Hm. injection Hm as <-.
    rewrite !lookup_put_if. cbn [String.eqb Ascii.eqb Bool.eqb]. rewrite andb_false_r, andb_true_r.
    destruct (clash_transport _ _ !! "flow") as [j|] eqn:Hf; [|done]. rewrite andb_false_r. intros _.
    rewrite transport_keeps, clash_tls_keeps by done. by read_doc.
  - intros t m Hm Hs. unfold V2rayJSONConfig in Hm. destruct (undescribed _); [done|]. cbn [v2ray_outbound v2ray_settings mbind option_bind] in Hm. injection Hm as <-.
    destruct t; repeat (rewrite ?look_sorted, ?look_at; read_doc; cbn [mbind option_bind lookup list_lookup]); rewrite Hs; by rewrite andb_false_r.
Qed.

(** ** A concrete inbound *)

Definition demo_inbound (security : string) : InboundRow :=
  mkInbound "de" "vless" "tcp" None security None None None None None None None None None None None false None None.

Definition demo_host (security : string) : Host :=
  mkHost 1 "Germany" "de.example" (Some 443) None None None security "none" "chrome" "de" None None true None None false false 0.

Definition demo_db : Db := set_proxies {[9 := mkProxy 9 1 "vless" (VLESSSettings "x" FlowVision)]} ReviewJob.demo_db.

Lemma flow_agrees_witness :
  default "" (params "Germany" "de.example" (BuildEffectiveInbound (demo_inbound "tls") (demo_host "inbound_default")) (VLESSSettings "x" FlowVision) !! "flow") = FlowVision.
Proof.
  refine (proj1 (flow_agrees demo_db (demo_inbound "tls") (demo_host "inbound_default") (mkProxy 9 1 "vless" (VLESSSettings "x" FlowVision))
    (user_spec "ali" (VLESSSettings "x" FlowVision)) "x" FlowVision "Germany" "de.example" _ _ _ _ _)); vm_compute; reflexivity.
Defined.

Definition demo_proxy : Proxy := mkProxy 9 1 "vless" (VLESSSettings "x" FlowVision).

(** A sing-box document sets the flow of every VLESS proxy on plain TCP, also where the
    node has cleared it: the node refuses that client. *)
Example singbox_flow_mismatch :
  us_Flow <$> accepted demo_db (demo_inbound "none") demo_proxy = Some "" /\
  (SingBoxOutbound "Germany" "de.example" (BuildEffectiveInbound (demo_inbound "none") (demo_host "inbound_default")) (VLESSSettings "x" FlowVision) ≫= fun m => m !! "flow") =
  Some (JString FlowVision).
Proof. vm_compute. auto. Qed.

(** A host that overrides the security of its inbound changes the flow of the link, but not
    of the node. *)
Example override_flow_mismatch :
  us_Flow <$> accepted demo_db (demo_inbound "none") demo_proxy = Some "" /\
  params "Germany" "de.example" (BuildEffectiveInbound (demo_inbound "none") (demo_host "tls")) (VLESSSettings "x" FlowVision) !! "flow" = Some FlowVision.
Proof. vm_compute. auto. Qed.
End ClientDocsProps.
