(* ===== verification/Subscription.v ===== *)
(** * Subscriptions: tokens, variables, order and formats

    [Token] is [internal/subscription/token.go] with the lookup of
    [internal/httpapi/subscription.go]; [Vars] the placeholders of a remark;
    [HostOrder] the order by load of [internal/httpapi/hostsload.go]; [Negotiate]
    the choice of a client format. *)

From stdpp Require Import sorting.
From S2P Require Import Prelude GoStrings GoFloat Base64 ProxySettings Store ReviewJob UserApi UserProps LoadMap Share.
Import GoFloat Store.

#[local] Open Scope Z_scope.

Module Token.
Import Base64.

Record TokenClaims := mkClaims { ByID : bool; UserID : Z; c_Username : string; c_CreatedAt : Z }.

(** [time.Unix(sec, nsec)] in nanoseconds: the seconds are kept in 64 bits counted
    from the year 1. *)
Definition epoch_seconds : Z := 62135596800.
Definition Unix (sec nsec : Z) : Z := (int64 (sec + epoch_seconds) - epoch_seconds) * 1000000000 + nsec.

(** The claims the JWT library hands back for a token that verifies under a key:
    the string claims that are strings and the [iat] that is a number. *)
Record jwtClaims := mkJwt { j_access : option string; j_sub : option string; j_iat : option float64 }.

(** [math.Modf]. *)
Definition Modf (x : float64) : Z * float64 :=
  let sec := Z.quot (num x) (den x) in
  (sec, mkFloat (num x - sec * den x) (Z.min 0 (expo x))).

Definition trunc (x : float64) : Z := Z.quot (num x) (den x).

Definition jwtSubscriptionPrefix : string := "eyJhbGciOiJIUzI1NiIsInR5cCI6IkpXVCJ9.".

(** [crypto/sha256], [crypto/hmac] over it (key first), and the JWT library. *)
Class Crypto := {
  sha256 : string -> string;
  hmac_sha256 : string -> string -> string;
  jwt_verify : string -> string -> option jwtClaims;
}.

Section Token.
Context `{Crypto} `{FloatToInt}.

Definition sign (dataB64 secret : string) : string :=
  stake 10 (EncodePadded (sha256 (dataB64 ++ Hex secret))).

Definition signHex (dataB64 secret : string) : string :=
  stake 10 (Hex (sha256 (dataB64 ++ Hex secret))).

(** [CreateToken] at the time [now], in nanoseconds. *)
Definition token_ts (now : Z) : Z :=
  let ts := now / 1000000000 in if 0 <? now mod 1000000000 then ts + 1 else ts.

Definition CreateToken (username secret : string) (now : Z) : string :=
  let dataB64 := Encode (username ++ "," ++ Itoa (token_ts now)) in
  (dataB64 ++ sign dataB64 secret)%string.

Definition decodeTokenB64 (s : string) : option string :=
  let s := map_bytes (fun c => if Ascii.eqb c "+" then "-"%char
                               else if Ascii.eqb c "/" then "_"%char else c)
             (trim_right_byte "=" s) in
  b ← Decode s;
  if ValidUTF8 b then Some b else None.

Definition parseTokenPayload (dataB64 : string) : option TokenClaims :=
  raw ← decodeTokenB64 dataB64;
  match split_at "," raw with
  | [a; b; c] =>
      if String.eqb a "v2" || String.eqb a "v3" then
        id ← ParseInt b;
        ts ← ParseInt c;
        Some (mkClaims true id "" (Unix ts 0))
      else None
  | [a; b] =>
      ts ← ParseInt b;
      Some (mkClaims false 0 a (Unix ts 0))
  | _ => None
  end.

Definition parseJWTToken (token key : string) : option TokenClaims :=
  claims ← jwt_verify token key;
  if negb (String.eqb (default "" (j_access claims)) "subscription") then None
  else
    let username := default ""%string (j_sub claims) in
    if String.eqb username "" then None
    else
      iat ← j_iat claims;
      let '(sec, frac) := Modf iat in
      Some (mkClaims false 0 username
              (Unix (LoadMap.to_int sec) (LoadMap.to_int (trunc (fmul frac (of_int 1000000000)))))).

Definition ParseToken (token secret : string) : option TokenClaims :=
  if (String.length token <? 15)%nat then None
  else
    let key := Hex secret in
    if HasPrefix token jwtSubscriptionPrefix then parseJWTToken token key
    else match split_last "." token with
    | Some (dataB64, signature) =>
        let expected := Encode (hmac_sha256 key dataB64) in
        if String.eqb signature expected then parseTokenPayload dataB64 else None
    | None =>
        let dataB64 := stake (String.length token - 10) token in
        let signature := sdrop (String.length token - 10) token in
        if String.eqb signature (sign dataB64 secret) || String.eqb signature (signHex dataB64 secret)
        then parseTokenPayload dataB64
        else None
    end.

(** ** The lookup of a subscription request *)

Definition GetUserByID (id : Z) (d : Db) : result dberror User :=
  match users d !! id with Some u => Ok u | None => Err NoRows end.

(** [createdAt] is in nanoseconds, the columns in microseconds. *)
Definition outdated (stamp : option Z) (createdAt : Z) : bool :=
  match stamp with Some t => createdAt <? t * 1000 | None => false end.

Definition not_found : UserApi.httperr := (404, "Not Found"%string).

Definition lookup_claims (claims : TokenClaims) : M UserApi.httperr User :=
  if ByID claims && (1 <=? UserID claims) && (UserID claims <=? 2147483647) then
    or_else (query (GetUserByID (UserID claims))) (fun _ => not_found)
  else if negb (ByID claims) && negb (String.eqb (c_Username claims) "") then
    or_else (query (GetUserByUsername (c_Username claims))) (fun _ => not_found)
  else fail not_found.

Definition loadSubscriptionUser (token secret : string) : M UserApi.httperr User :=
  match ParseToken token secret with
  | None => fail not_found
  | Some claims =>
      user ← lookup_claims claims;
      _ ← UserApi.ensure (negb (outdated (Some (CreatedAt user)) (c_CreatedAt claims))) not_found;
      _ ← UserApi.ensure (negb (outdated (SubRevokedAt user) (c_CreatedAt claims))) not_found;
      mret user
  end.
End Token.

(** ** Round trip *)

(** SHA-256 has 32 bytes, and so has an HMAC over it. *)
Class CryptoLaws `{Crypto} := {
  sha256_length x : String.length (sha256 x) = 32%nat;
  hmac_length k x : String.length (hmac_sha256 k x) = 32%nat;
}.

(** Facts about single bytes, by cases on all of them. *)
Lemma allowed_plain c :
  UserApi.allowed_char c = true -> is_ascii c = true /\ negb (Ascii.eqb c ",") = true.
Proof. destruct c as [[] [] [] [] [] [] [] []]; by vm_compute. Qed.

Lemma digit_plain c : is_digit c = true -> is_ascii c = true /\ negb (Ascii.eqb c ",") = true.
Proof. destruct c as [[] [] [] [] [] [] [] []]; by vm_compute. Qed.

Lemma b64_plain c :
  is_b64 c = true ->
  negb (Ascii.eqb c ".") = true /\ negb (Ascii.eqb c "=") = true /\
  Ascii.eqb (if Ascii.eqb c "+" then "-"%char else if Ascii.eqb c "/" then "_"%char else c) c = true.
Proof. destruct c as [[] [] [] [] [] [] [] []]; by vm_compute. Qed.

Definition dotless (s : string) : Prop := str_forallb (fun d => negb (Ascii.eqb d ".")) s = true.

Lemma Encode_dotless s : dotless (Encode s).
Proof. eapply str_forallb_impl; [|apply Encode_b64]. intros c Hc. by apply b64_plain. Qed.

Lemma stake_forallb f n s : str_forallb f s = true -> str_forallb f (stake n s) = true.
Proof.
  intros Hs. rewrite <- (stake_sdrop n s), str_forallb_app in Hs. by apply andb_true_iff in Hs as [Hs _].
Qed.

Lemma decodeTokenB64_Encode s : ValidUTF8 s = true -> decodeTokenB64 (Encode s) = Some s.
Proof.
  intros Hs. unfold decodeTokenB64. pose proof (Encode_b64 s) as Hb.
  rewrite trim_right_byte_id, map_bytes_id.
  - rewrite Decode_Encode. simpl. by rewrite Hs.
  - eapply str_forallb_impl; [|exact Hb]. intros c Hc. by apply b64_plain.
  - eapply str_forallb_impl; [|exact Hb]. intros c Hc. by apply b64_plain.
Qed.

Lemma Unix_id ts : 0 <= ts < 2 ^ 62 -> Unix ts 0 = ts * 1000000000.
Proof.
  intros Hts. unfold Unix, int64. rewrite wrap_id; [lia|lia|]. unfold fits, epoch_seconds. simpl. lia.
Qed.

Lemma payload_by_name username ts :
  str_forallb UserApi.allowed_char username = true -> 0 <= ts < 2 ^ 62 ->
  parseTokenPayload (Encode (username ++ "," ++ Itoa ts)) =
    Some (mkClaims false 0 username (ts * 1000000000)).
Proof.
  intros Hu Hts. pose proof (Itoa_digits ts ltac:(lia)) as Hd. unfold parseTokenPayload.
  rewrite decodeTokenB64_Encode.
  - simpl. rewrite split_at_app, split_at_none.
    + rewrite ParseInt_Itoa by lia. simpl. by rewrite Unix_id.
    + eapply str_forallb_impl; [|exact Hd]. intros c Hc. by apply digit_plain.
    + eapply str_forallb_impl; [|exact Hu]. intros c Hc. by apply allowed_plain.
  - apply ascii_valid. rewrite !str_forallb_app. simpl.
    rewrite (str_forallb_impl _ is_ascii _ (fun c Hc => proj1 (allowed_plain c Hc)) Hu).
    by rewrite (str_forallb_impl _ is_ascii _ (fun c Hc => proj1 (digit_plain c Hc)) Hd).
Qed.

Lemma payload_by_id (v : string) id ts :
  v = "v2"%string \/ v = "v3"%string -> 0 <= id < 2 ^ 63 -> 0 <= ts < 2 ^ 62 ->
  parseTokenPayload (Encode (v ++ "," ++ Itoa id ++ "," ++ Itoa ts)) =
    Some (mkClaims true id "" (ts * 1000000000)).
Proof.
  intros Hv Hid Hts. pose proof (Itoa_digits ts ltac:(lia)) as Hd. pose proof (Itoa_digits id ltac:(lia)) as Hi.
  unfold parseTokenPayload.
  rewrite decodeTokenB64_Encode.
  - simpl. rewrite split_at_app by (by destruct Hv as [-> | ->]). rewrite split_at_app, split_at_none.
    + rewrite !ParseInt_Itoa by lia. simpl. rewrite Unix_id by done. by destruct Hv as [-> | ->].
    + eapply str_forallb_impl; [|exact Hd]. intros c Hc. by apply digit_plain.
    + eapply str_forallb_impl; [|exact Hi]. intros c Hc. by apply digit_plain.
  - apply ascii_valid. rewrite !str_forallb_app. simpl.
    rewrite (str_forallb_impl _ is_ascii _ (fun c Hc => proj1 (digit_plain c Hc)) Hi).
    rewrite (str_forallb_impl _ is_ascii _ (fun c Hc => proj1 (digit_plain c Hc)) Hd).
    by destruct Hv as [-> | ->].
Qed.

Section RoundTrip.
Context `{CryptoLaws} `{FloatToInt}.

Lemma sign_shape d secret : String.length (sign d secret) = 10%nat /\ dotless (sign d secret).
Proof.
  unfold sign, EncodePadded. rewrite sha256_length. cbn [Nat.modulo Nat.divmod fst snd Nat.sub].
  pose proof (length_Encode (sha256 (d ++ Hex secret))) as Hl. rewrite sha256_length in Hl. split.
  - rewrite stake_length, str_length_app. lia.
  - apply stake_forallb. rewrite str_forallb_app. by rewrite Encode_dotless.
Qed.

Lemma no_jwt_prefix token : dotless token -> HasPrefix token jwtSubscriptionPrefix = false.
Proof.
  intros Hd. apply not_true_iff_false. intros (r & ->)%HasPrefix_spec.
  unfold dotless in Hd. rewrite str_forallb_app in Hd. by apply andb_true_iff in Hd as [Hd _].
Qed.

Lemma ParseToken_signed d secret :
  dotless d -> (5 <= String.length d)%nat ->
  ParseToken (d ++ sign d secret) secret = parseTokenPayload d.
Proof.
  intros Hd Hlen. destruct (sign_shape d secret) as [Hs Hdot]. unfold ParseToken.
  rewrite str_length_app, Hs. destruct (Nat.ltb_spec (String.length d + 10) 15); [lia|]. cbv zeta.
  assert (dotless (d ++ sign d secret)) as Hall by (unfold dotless in *; by rewrite str_forallb_app, Hd, Hdot).
  rewrite (no_jwt_prefix _ Hall), (split_last_none _ _ Hall).
  replace (String.length d + 10 - 10)%nat with (String.length d) by lia.
  by rewrite stake_app, sdrop_app, String.eqb_refl.
Qed.

(** ** Who a token opens for *)

Lemma token_ts_ceil now : 0 <= now -> now <= token_ts now * 1000000000 < now + 1000000000.
Proof.
  intros Hn. unfold token_ts. pose proof (Z.div_mod now 1000000000 ltac:(lia)).
  pose proof (Z.mod_pos_bound now 1000000000 ltac:(lia)). cbv zeta.
  destruct (Z.ltb_spec 0 (now mod 1000000000)); lia.
Qed.

Lemma ParseToken_CreateToken username secret now :
  UserApi.validUsername username = true -> 0 <= now -> token_ts now < 2 ^ 62 ->
  ParseToken (CreateToken username secret now) secret =
    Some (mkClaims false 0 username (token_ts now * 1000000000)).
Proof.
  intros Hv Hn Ht. unfold UserApi.validUsername in Hv.
  apply andb_true_iff in Hv as [[_ Hall]%andb_true_iff [Hrun _]%andb_true_iff].
  pose proof (token_ts_ceil now Hn). unfold CreateToken. cbv zeta. rewrite ParseToken_signed.
  - apply payload_by_name; [done|lia].
  - apply Encode_dotless.
  - eapply Nat.le_trans; [|apply length_Encode]. rewrite !str_length_app. simpl.
    assert (3 <= String.length username)%nat as Hu.
    { apply Nat.leb_le in Hrun. pose proof (span_spec UserApi.is_word username) as Hs.
      destruct (span UserApi.is_word username) as [a b] eqn:E. simpl in Hrun.
      destruct (Hs a b eq_refl) as [-> _]. rewrite str_length_app. lia. }
    assert (Itoa (token_ts now) <> ""%string) as Hne.
    { intros E. pose proof (ParseInt_Itoa (token_ts now) ltac:(lia)) as Hp. by rewrite E in Hp. }
    destruct (Itoa (token_ts now)); [done|]. simpl. lia.
Qed.

Lemma find_user_some username d i u :
  wf d -> users d !! i = Some u -> Username u = username -> find_user username d = Some u.
Proof.
  intros Hd Hu Hn. destruct (find_user username d) as [v|] eqn:Hf.
  - unfold find_user in Hf. apply find_some in Hf as [Hin Hv%String.eqb_eq].
    apply in_map_iff in Hin as ([j v'] & <- & Hin%list_elem_of_In%elem_of_map_to_list). simpl in Hv.
    assert (i = j) as -> by (eapply (wf_names d Hd); eauto; congruence). simpl. congruence.
  - by apply (find_user_None _ _ _ _ Hf) in Hu.
Qed.

(** What the lookup answers for a token that names a user by name. *)
Lemma load_by_name token secret w u username created :
  ParseToken token secret = Some (mkClaims false 0 username created) -> username <> ""%string ->
  find_user username (db w) = Some u ->
  (loadSubscriptionUser token secret w).2 = Err not_found \/
  ((loadSubscriptionUser token secret w).2 = Ok u /\
   outdated (Some (CreatedAt u)) created = false /\ outdated (SubRevokedAt u) created = false).
Proof.
  intros Hp Hne Hf. unfold loadSubscriptionUser. rewrite Hp. unfold lookup_claims. cbn [ByID c_Username].
  cbn [andb negb]. apply String.eqb_neq in Hne. rewrite Hne. cbn [negb]. unfold mbind, M_bind, or_else.
  destruct (query (GetUserByUsername username) w) as [w1 r] eqn:Hq.
  destruct r as [v|e]; [|by left]. apply query_ok in Hq as [Hq _]. unfold GetUserByUsername in Hq.
  rewrite Hf in Hq. injection Hq as <-. cbn [c_CreatedAt]. unfold UserApi.ensure.
  destruct (outdated (Some _) _); [by left|]. cbn [negb]. destruct (outdated (SubRevokedAt u) _); [by left|].
  by right.
Qed.
End RoundTrip.

Section Access.
Context `{CryptoLaws} `{FloatToInt} `{ProxySettings.ProxySettings.Random}.

(** A link minted for a user, now or at any moment since the account was created
    and its links were last revoked, opens that user's subscription. *)
Theorem minted_token_opens username secret now w u :
  UserApi.validUsername username = true -> 0 <= now -> token_ts now < 2 ^ 62 -> faults w = [] ->
  find_user username (db w) = Some u -> CreatedAt u * 1000 <= now ->
  (forall t, SubRevokedAt u = Some t -> t * 1000 <= now) ->
  (loadSubscriptionUser (CreateToken username secret now) secret w).2 = Ok u.
Proof.
  intros Hv Hn Ht Hw Hf Hc Hr. pose proof (token_ts_ceil now Hn).
  unfold loadSubscriptionUser. rewrite ParseToken_CreateToken by done.
  unfold lookup_claims. cbn [ByID c_Username andb negb].
  assert (username <> ""%string) as Hne by (intros ->; done).
  apply String.eqb_neq in Hne. rewrite Hne. cbn [negb]. unfold mbind, M_bind, or_else, query, stmt.
  rewrite Hw. unfold GetUserByUsername. rewrite Hf. cbn [c_CreatedAt]. unfold UserApi.ensure, outdated.
  destruct (Z.ltb_spec (token_ts now * 1000000000) (CreatedAt u * 1000)); [lia|]. cbn [negb].
  destruct (SubRevokedAt u) as [t|]; [|done]. specialize (Hr t eq_refl).
  destruct (Z.ltb_spec (token_ts now * 1000000000) (t * 1000)); [lia|]. done.
Qed.

Lemma revoke_all_users ps n w w' : UserApi.revoke_all ps n w = (w', Ok tt) -> users (db w') = users (db w).
Proof.
  revert n w. induction ps as [|p ps IH]; intros n w; cbn [UserApi.revoke_all]; [by intros [= <-]|].
  destruct (ProxySettings.ProxySettings.Revoke (p_Settings p) n) as [s n'].
  intros (w1 & [] & Hs%UserProps.run_ok%stmt_ok & Hrest)%bind_ok. rewrite (IH _ _ Hrest).
  unfold UpdateProxySettings in Hs. destruct (proxies (db w) !! p_ID p); [|done].
  by injection Hs as <-.
Qed.

(** C37: Once a revoke at time [t] has succeeded, every link whose second was over by
    then is answered 404. *)
Theorem revoked_token_refused t n identity username secret now w w' u :
  wf (db w) -> UserApi.validUsername username = true -> 0 <= now -> token_ts now < 2 ^ 62 ->
  UserApi.handleRevokeUserSub t n identity username w = (w', Ok u) ->
  token_ts now * 1000000 < t ->
  (loadSubscriptionUser (CreateToken username secret now) secret w').2 = Err not_found.
Proof.
  intros Hw Hv Hn Hts Hrun Hold.
  assert (wf (db w')) as Hw'.
  { pose proof (UserProps.handleRevoke_preserves t n identity username w Hw) as Hp. by rewrite Hrun in Hp. }
  unfold UserApi.handleRevokeUserSub in Hrun.
  apply bind_ok in Hrun as (w1 & u0 & Hload & Hrun).
  apply bind_ok in Hrun as (w2 & ps & [_ Hp2]%UserProps.run_ok%query_ok & Hrun).
  apply bind_ok in Hrun as (w3 & [] & Hr3%revoke_all_users & Hrun%UserProps.run_ok%stmt_ok).
  assert (users (db w1) = users (db w) /\ Username u0 = username /\ users (db w) !! ID u0 = Some u0)
    as (E1 & Hname & Hu0).
  { unfold UserApi.loadAuthorizedUser in Hload. apply bind_ok in Hload as (wa & ua & Ha & Hload).
    apply or_else_ok, query_ok in Ha as [Ha Hdb]. apply bind_ok in Hload as (wb & [] & Hens & [= <- ->]).
    assert (wb = wa) as ->.
    { unfold UserApi.ensure in Hens. destruct (_ || _); [by injection Hens|done]. }
    rewrite Hdb. split; [done|]. unfold GetUserByUsername in Ha.
    destruct (find_user username (db w)) as [v|] eqn:Hf; [|done]. injection Ha as ->.
    unfold find_user in Hf. apply find_some in Hf as [Hin Hn'%String.eqb_eq]. split; [done|].
    apply in_map_iff in Hin as ([i v] & <- & Hin%list_elem_of_In%elem_of_map_to_list). simpl.
    by rewrite (wf_id _ Hw i v Hin). }
  apply update_user_ok in Hrun as (v & Hv' & [= <-] & Hdb).
  rewrite Hr3, Hp2, E1, Hu0 in Hv'. injection Hv' as <-.
  assert (users (db w') !! ID u0 = Some (touch_revoked t u0)) as Hu' by (rewrite Hdb; simpl; by rewrite lookup_insert_eq).
  assert (find_user username (db w') = Some (touch_revoked t u0)) as Hf
    by (eapply find_user_some; [done|exact Hu'|by simpl]).
  destruct (load_by_name _ secret w' _ _ _ (ParseToken_CreateToken username secret now Hv Hn Hts)
    ltac:(intros ->; done) Hf) as [Hres|(_ & _ & Hout)]; [done|]. simpl in Hout.
  apply Z.ltb_ge in Hout. lia.
Qed.

(** Nothing is accepted without a signature under the panel's secret over exactly
    the payload that is believed: an HMAC after the dot, one of the two ten-byte
    digests at the end, or the JWT library's word for a subscription token. *)
Theorem accepted_token_signed token secret c :
  ParseToken token secret = Some c ->
  (HasPrefix token jwtSubscriptionPrefix = true /\
     exists claims, jwt_verify token (Hex secret) = Some claims /\
       j_access claims = Some "subscription"%string /\ j_sub claims = Some (c_Username c) /\ ByID c = false) \/
  (exists d s, parseTokenPayload d = Some c /\
     ((token = d ++ "." ++ s /\ s = Encode (hmac_sha256 (Hex secret) d))%string \/
      (token = (d ++ s)%string /\ (s = sign d secret \/ s = signHex d secret)))).
Proof.
  unfold ParseToken. destruct (Nat.ltb_spec (String.length token) 15) as [|Hlen]; [done|]. cbv zeta.
  destruct (HasPrefix token jwtSubscriptionPrefix).
  - intros Hj. left. split; [done|]. unfold parseJWTToken in Hj.
    destruct (jwt_verify token (Hex secret)) as [claims|]; [|done]. simpl in Hj. exists claims. split; [done|].
    destruct (j_access claims) as [a|]; [|done]. simpl in Hj.
    destruct (String.eqb a "subscription") eqn:Ha; [|done].
    apply String.eqb_eq in Ha. rewrite Ha. cbn [negb] in Hj.
    destruct (j_sub claims) as [u|]; [|done]. simpl in Hj.
    destruct (String.eqb u ""); [done|]. destruct (j_iat claims); [|done]. simpl in Hj.
    injection Hj as <-. done.
  - destruct (split_last "." token) as [[d s]|] eqn:Hs.
    + destruct (String.eqb_spec s (Encode (hmac_sha256 (Hex secret) d))) as [->|]; [|done].
      intros Hp. right. exists d, (Encode (hmac_sha256 (Hex secret) d)). split; [done|]. left.
      split; [|done]. by apply split_last_spec.
    + intros Hp. right. set (d := stake _ token) in *. set (x := sdrop _ token) in *. exists d, x.
      destruct (String.eqb_spec x (sign d secret)) as [E|], (String.eqb_spec x (signHex d secret)) as [E'|];
        try done; (split; [done|right; split; [|tauto]]); symmetry; apply stake_sdrop.
Qed.

(** A link of the format PasarGuard hands out, over the same secret, is accepted and
    names the same user id at the same second. *)
Theorem pasarguard_token_accepted v id ts secret :
  v = "v2"%string \/ v = "v3"%string -> 0 <= id < 2 ^ 63 -> 0 <= ts < 2 ^ 62 ->
  let d := Encode (v ++ "," ++ Itoa id ++ "," ++ Itoa ts) in
  let claims := Some (mkClaims true id "" (ts * 1000000000)) in
  ParseToken (d ++ "." ++ Encode (hmac_sha256 (Hex secret) d)) secret = claims /\
  ParseToken (d ++ sign d secret) secret = claims.
Proof.
  intros Hv Hid Hts. cbv zeta. set (d := Encode _). pose proof (payload_by_id v id ts Hv Hid Hts) as Hpay.
  fold d in Hpay. assert (5 <= String.length d)%nat as Hd.
  { subst d. eapply Nat.le_trans; [|apply length_Encode]. rewrite !str_length_app.
    assert (forall n : Z, 0 <= n < 2 ^ 63 -> (1 <= String.length (Itoa n))%nat) as Hne.
    { intros n Hn. pose proof (ParseInt_Itoa n Hn) as Hp. destruct (Itoa n); [done|]. simpl. lia. }
    pose proof (Hne id Hid). pose proof (Hne ts ltac:(lia)). destruct Hv as [-> | ->]; simpl; lia. }
  split; [|rewrite ParseToken_signed; [done|apply Encode_dotless|done]].
  pose proof (length_Encode (hmac_sha256 (Hex secret) d)) as Hl. rewrite hmac_length in Hl.
  unfold ParseToken. rewrite !str_length_app. destruct (Nat.ltb_spec
    (String.length d + (String.length "." + String.length (Encode (hmac_sha256 (Hex secret) d)))) 15); [simpl in *; lia|].
  cbv zeta.
  assert (HasPrefix (d ++ "." ++ Encode (hmac_sha256 (Hex secret) d)) jwtSubscriptionPrefix = false) as ->.
  { subst d. by destruct Hv as [-> | ->]. }
  change ("." ++ ?x)%string with (String "." x).
  rewrite split_last_app by apply Encode_dotless. by rewrite String.eqb_refl.
Qed.
End Access.

(** ** Concrete tokens *)

Definition pad32 : string := "00000000000000000000000000000000".

#[local] Instance toy_crypto : Crypto := {|
  sha256 x := stake 32 (x ++ pad32);
  hmac_sha256 k x := stake 32 (k ++ x ++ pad32);
  jwt_verify _ _ := None;
|}.

#[local] Instance toy_laws : CryptoLaws.
Proof.
  split.
  - intros x. cbn [sha256 toy_crypto]. rewrite stake_length, str_length_app.
    change (String.length pad32) with 32%nat. lia.
  - intros k x. cbn [hmac_sha256 toy_crypto]. rewrite stake_length, !str_length_app.
    change (String.length pad32) with 32%nat. lia.
Qed.

#[local] Existing Instances LoadMap.wraps_like_amd64 ProxySettings.ProxySettings.tally_random.

Definition demo_w : World := mkWorld ReviewJob.demo_db [].

(** Half past noon and a bit, in nanoseconds. *)
Definition demo_now : Z := (ReviewJob.noon + 1800000000) * 1000 + 250000000.

Definition demo_user1 : User := ReviewJob.demo_user 1 "ali" "active" 100 (Some 100) None None None.

Lemma minted_token_opens_witness :
  (loadSubscriptionUser (CreateToken "ali" "k" demo_now) "k" demo_w).2 = Ok demo_user1.
Proof.
  assert (UserApi.validUsername "ali" = true) as H1 by (vm_compute; reflexivity).
  assert (0 <= demo_now) as H2 by (vm_compute; congruence).
  assert (token_ts demo_now < 2 ^ 62) as H3 by (vm_compute; reflexivity).
  assert (find_user "ali" (db demo_w) = Some demo_user1) as H4 by (vm_compute; reflexivity).
  assert (CreatedAt demo_user1 * 1000 <= demo_now) as H5 by (vm_compute; congruence).
  assert (forall t, SubRevokedAt demo_user1 = Some t -> t * 1000 <= demo_now) as H6 by (intros t [=]).
  exact (minted_token_opens "ali" "k" demo_now demo_w demo_user1 H1 H2 H3 eq_refl H4 H5 H6).
Defined.

Definition revoked_run : World * result UserApi.httperr User :=
  UserApi.handleRevokeUserSub (ReviewJob.noon + 1800700000) 0 UserProps.sudo "ali" demo_w.

Definition revoked_user : User := touch_revoked (ReviewJob.noon + 1800700000) demo_user1.

Lemma revoked_token_refused_witness :
  (loadSubscriptionUser (CreateToken "ali" "k" (ReviewJob.noon * 1000)) "k" revoked_run.1).2 = Err not_found.
Proof.
  assert (UserApi.handleRevokeUserSub (ReviewJob.noon + 1800700000) 0 UserProps.sudo "ali" demo_w
    = (revoked_run.1, Ok revoked_user)) as Hrun by (vm_compute; reflexivity).
  assert (UserApi.validUsername "ali" = true) as H1 by (vm_compute; reflexivity).
  assert (0 <= ReviewJob.noon * 1000) as H2 by (vm_compute; congruence).
  assert (token_ts (ReviewJob.noon * 1000) < 2 ^ 62) as H3 by (vm_compute; reflexivity).
  assert (token_ts (ReviewJob.noon * 1000) * 1000000 < ReviewJob.noon + 1800700000) as H4
    by (vm_compute; reflexivity).
  exact (revoked_token_refused (ReviewJob.noon + 1800700000) 0 UserProps.sudo "ali" "k" (ReviewJob.noon * 1000)
    demo_w revoked_run.1 revoked_user ReviewJob.demo_wf H1 H2 H3 Hrun H4).
Defined.

(** A link minted less than a second before the revoke still opens after it: its
    time is rounded up past the revoke. *)
Lemma same_second_survives :
  demo_now < (ReviewJob.noon + 1800700000) * 1000 /\
  (loadSubscriptionUser (CreateToken "ali" "k" demo_now) "k" revoked_run.1).2 = Ok revoked_user.
Proof. split; vm_compute; reflexivity. Qed.

Lemma accepted_token_signed_witness :
  let token := CreateToken "ali" "k" demo_now in
  let c := mkClaims false 0 "ali" (token_ts demo_now * 1000000000) in
  (HasPrefix token jwtSubscriptionPrefix = true /\
     exists claims, jwt_verify token (Hex "k") = Some claims /\
       j_access claims = Some "subscription"%string /\ j_sub claims = Some (c_Username c) /\ ByID c = false) \/
  (exists d s, parseTokenPayload d = Some c /\
     ((token = d ++ "." ++ s /\ s = Encode (hmac_sha256 (Hex "k") d))%string \/
      (token = (d ++ s)%string /\ (s = sign d "k" \/ s = signHex d "k")))).
Proof. cbv zeta. apply (accepted_token_signed (CreateToken "ali" "k" demo_now) "k"). vm_compute. reflexivity. Defined.

Lemma pasarguard_token_accepted_witness :
  let d := Encode ("v3" ++ "," ++ Itoa 42 ++ "," ++ Itoa 1700000000) in
  let claims := Some (mkClaims true 42 "" (1700000000 * 1000000000)) in
  ParseToken (d ++ "." ++ Encode (hmac_sha256 (Hex "k") d)) "k" = claims /\
  ParseToken (d ++ sign d "k") "k" = claims.
Proof. cbv zeta. apply (pasarguard_token_accepted "v3" 42 1700000000 "k"); [by right|lia|lia]. Defined.
End Token.

(** ** Placeholders *)

Module Vars.

Abbreviation Variables := (gmap string string).

(** The letters of a placeholder's name. *)
Definition is_var (c : ascii) : bool := is_upper c || Ascii.eqb c "_".

Definition value (v : Variables) (key : string) : string := default "<missing>"%string (v !! key).

(** [ReplaceAllStringFunc] with [\{[A-Z_]+\}], left to right; each round consumes a
    byte at least, so the length is enough fuel. *)
Fixpoint replace (fuel : nat) (v : Variables) (s : string) : string :=
  match fuel, s with
  | S fuel, String c rest =>
      if Ascii.eqb c "{" then
        match span is_var rest with
        | (String k key, String "}" after) => value v (String k key) ++ replace fuel v after
        | _ => String c (replace fuel v rest)
        end
      else String c (replace fuel v rest)
  | _, _ => EmptyString
  end.

Definition Format (v : Variables) (s : string) : string :=
  if negb (Contains s "{") then s else replace (String.length s) v s.

Definition AutoLoadSuffix : string := " {LOAD}".

Definition SetLoad (emoji percent level : string) (v : Variables) : Variables :=
  let load := if negb (String.eqb emoji "") || negb (String.eqb percent "")
              then TrimSpace (emoji ++ " " ++ percent) else ""%string in
  <["LOAD_LEVEL"%string := level]> (<["LOAD_PERCENT"%string := percent]>
    (<["LOAD_EMOJI"%string := emoji]> (<["LOAD"%string := load]> v))).

Definition FormatRemark (template : string) (v : Variables) : string :=
  let out := Format v template in
  if String.eqb (default ""%string (v !! "LOAD"%string)) "" && Contains template "{LOAD"
  then TrimSpace out else out.

(** The variables that are set anew for every host. *)
Definition per_host : list string :=
  ["PROTOCOL"; "TRANSPORT"; "LOAD"; "LOAD_EMOJI"; "LOAD_PERCENT"; "LOAD_LEVEL"]%string.

Definition agree (ks : list string) (v v' : Variables) : Prop := forall k, k ∉ ks -> v !! k = v' !! k.

Lemma agree_insert k x ks v v' : agree (k :: ks) v v' -> agree ks (<[k := x]> v) (<[k := x]> v').
Proof.
  intros Ha i Hi. destruct (decide (i = k)) as [->|Hne]; [by rewrite !lookup_insert_eq|].
  rewrite !lookup_insert_ne by done. apply Ha. rewrite not_elem_of_cons. done.
Qed.

Lemma agree_nil v v' : agree [] v v' -> v = v'.
Proof. intros Ha. apply map_eq. intros i. apply Ha. apply not_elem_of_nil. Qed.

Lemma agree_perm ks ks' v v' : (forall k, k ∈ ks -> k ∈ ks') -> agree ks v v' -> agree ks' v v'.
Proof. intros Hk Ha i Hi. apply Ha. intros Hin. by apply Hi, Hk. Qed.

Lemma agree_set ks k x v : k ∈ ks -> agree ks (<[k := x]> v) v.
Proof. intros Hk i Hi. rewrite lookup_insert_ne; [done|]. by intros ->. Qed.

Lemma agree_trans ks v1 v2 v3 : agree ks v1 v2 -> agree ks v2 v3 -> agree ks v1 v3.
Proof. intros H1 H2 k Hk. by rewrite H1, H2. Qed.

Lemma agree_sym ks v v' : agree ks v v' -> agree ks v' v.
Proof. intros H k Hk. by rewrite H. Qed.

Lemma SetLoad_agree e p l ks v v' :
  agree ("LOAD" :: "LOAD_EMOJI" :: "LOAD_PERCENT" :: "LOAD_LEVEL" :: ks)%string v v' ->
  agree ks (SetLoad e p l v) (SetLoad e p l v').
Proof. intros Ha. unfold SetLoad. cbv zeta. by do 4 apply agree_insert. Qed.

Lemma SetLoad_keeps e p l v : agree per_host (SetLoad e p l v) v.
Proof.
  unfold SetLoad. cbv zeta.
  do 4 (eapply agree_trans; [apply agree_set; unfold per_host; set_solver|]). done.
Qed.
End Vars.

Module HostOrder.
Import LoadMap Vars.

Definition level_name (l : Level) : string :=
  match l with
  | LevelUnknown => "unknown"
  | LevelFree => "free"
  | LevelNormal => "normal"
  | LevelBusy => "busy"
  | LevelFull => "full"
  end.

Definition remarkPercentSign : string := "٪".
Definition unknownLoadSortKey : Z := 101.

(** [requestLoad.remark]: the shared map comes back with the load variables set. *)
Definition remark (loadIndicator sortByLoad : bool) (snap : option Snapshot) (id : Z) (template : string)
    (vars : Variables) : Variables * string * Z * bool :=
  let usesLoad := Contains template "{LOAD" in
  if negb loadIndicator && negb sortByLoad && negb usesLoad then
    let vars := SetLoad "" "" "" vars in (vars, Format vars template, 0, false)
  else
    let e := For snap id in
    let '(vars, template, sortKey) :=
      match e with
      | Some hl =>
          if Known hl then
            (SetLoad (Emoji (HLevel hl)) (Itoa (HPercent hl) ++ remarkPercentSign)
               (level_name (HLevel hl)) vars,
             (if loadIndicator && negb (UsesLoad hl) then
                if String.eqb template "" then "{LOAD}"%string
                else (trim_right_byte " " template ++ AutoLoadSuffix)%string
              else template),
             HPercent hl)
          else (SetLoad "" "" "" vars, template, unknownLoadSortKey)
      | None => (SetLoad "" "" "" vars, template, unknownLoadSortKey)
      end in
    (vars, FormatRemark template vars, sortKey, match e with Some _ => true | None => false end).

Definition peerRemark (peerName template : string) (vars : Variables) : Variables * string :=
  let vars := SetLoad "" "" "" vars in
  (vars, "[" ++ peerName ++ "] " ++ FormatRemark template vars)%string.

(** A host of a user's walk: what the loop of [forEachUserHost] reads of the proxy,
    the inbound and the host row. *)
Record walked := mkWalked {
  wk_protocol : string; wk_settings : ProxySettings.Settings; wk_id : Z; wk_remark : string; wk_address : string;
  wk_eff : Effective.EffectiveInbound;
}.

Definition wk_network (h : walked) : string := Effective.Network (wk_eff h).

Record pendingHost := mkPending {
  ph_host : walked; ph_remark : string; ph_address : string; sortKey : Z; sortable : bool;
}.

(** One turn of the loop, over the map that all hosts share. *)
Definition render (loadIndicator sortByLoad : bool) (snap : option Snapshot) (vars : Variables) (h : walked) :
  Variables * pendingHost :=
  let vars := <["TRANSPORT"%string := wk_network h]> (<["PROTOCOL"%string := wk_protocol h]> vars) in
  let '(vars, rem, key, able) := remark loadIndicator sortByLoad snap (wk_id h) (wk_remark h) vars in
  (vars, mkPending h rem (Format vars (wk_address h)) key able).

Definition render_all (loadIndicator sortByLoad : bool) (snap : option Snapshot) (vars : Variables)
    (hosts : list walked) : Variables * list pendingHost :=
  foldl (fun '(vars, out) h =>
    let '(vars, p) := render loadIndicator sortByLoad snap vars h in (vars, (out ++ [p])%list))
    (vars, []) hosts.

(** [sort.SliceStable] by key: the one stable order there is. *)
Fixpoint insert_by_key (x : pendingHost) (l : list pendingHost) : list pendingHost :=
  match l with
  | [] => [x]
  | y :: l => if sortKey x <=? sortKey y then x :: y :: l else y :: insert_by_key x l
  end.

Definition stable_sort (l : list pendingHost) : list pendingHost := foldr insert_by_key [] l.

(** The indices of the sortable hosts. *)
Fixpoint slots_from (i : nat) (items : list pendingHost) : list nat :=
  match items with
  | [] => []
  | it :: items => if sortable it then i :: slots_from (S i) items else slots_from (S i) items
  end.

Definition put (items : list pendingHost) (slots : list nat) (moved : list pendingHost) : list pendingHost :=
  foldl (fun l '(i, x) => <[i := x]> l) items (zip slots moved).

Definition sortPendingByLoad (items : list pendingHost) : list pendingHost :=
  let slots := slots_from 0 items in
  if (length slots <? 2)%nat then items
  else put items slots (stable_sort (omap (fun i => items !! i) slots)).

(** The local hosts of a request in the order they are handed out. *)
Definition local_hosts (loadIndicator sortByLoad : bool) (snap : option Snapshot) (vars : Variables)
    (hosts : list walked) : list pendingHost :=
  let held := (render_all loadIndicator sortByLoad snap vars hosts).2 in
  if sortByLoad && HasData snap then sortPendingByLoad held else held.

(** ** Rendering *)

Lemma remark_agree li sl snap id t v v' :
  agree (skipn 2 per_host) v v' ->
  remark li sl snap id t v = remark li sl snap id t v'.
Proof.
  intros Ha. assert (forall e p l, SetLoad e p l v = SetLoad e p l v') as E.
  { intros e p l. by apply agree_nil, SetLoad_agree. }
  unfold remark. rewrite E. destruct (_ && _); [done|]. destruct (For snap id) as [hl|]; [|done].
  destruct (Known hl); [|done]. by rewrite E.
Qed.

Lemma remark_keeps li sl snap id t v : agree per_host (remark li sl snap id t v).1.1.1 v.
Proof.
  unfold remark. destruct (_ && _); [apply SetLoad_keeps|].
  destruct (For snap id) as [hl|]; [destruct (Known hl)|]; apply SetLoad_keeps.
Qed.

Lemma render_agree li sl snap v v' h :
  agree per_host v v' -> render li sl snap v h = render li sl snap v' h.
Proof.
  intros Ha. unfold render. cbv zeta.
  rewrite (remark_agree li sl snap _ _ _ (<["TRANSPORT"%string := wk_network h]>
    (<["PROTOCOL"%string := wk_protocol h]> v'))); [done|].
  do 2 apply agree_insert. eapply agree_perm; [|exact Ha]. unfold per_host. simpl. set_solver.
Qed.

Lemma render_keeps li sl snap v h : agree per_host (render li sl snap v h).1 v.
Proof.
  unfold render. cbv zeta. set (v1 := <["TRANSPORT"%string := _]> _).
  pose proof (remark_keeps li sl snap (wk_id h) (wk_remark h) v1) as Hk.
  destruct (remark li sl snap (wk_id h) (wk_remark h) v1) as [[[v2 rem] key] able]. simpl in *.
  eapply agree_trans; [exact Hk|]. subst v1.
  do 2 (eapply agree_trans; [apply agree_set; unfold per_host; set_solver|]). done.
Qed.

(** Every host reads as if it had the user's variables to itself: although all the
    hosts of a request share one map, nothing of a host leaks into a later one. *)
Theorem no_variable_leaks li sl snap vars hosts :
  (render_all li sl snap vars hosts).2 = map (fun h => (render li sl snap vars h).2) hosts.
Proof.
  assert (agree per_host (render_all li sl snap vars hosts).1 vars /\
    (render_all li sl snap vars hosts).2 = map (fun h => (render li sl snap vars h).2) hosts) as [_ H]; [|done].
  unfold render_all. induction hosts as [|h hosts [IHa IHm]] using rev_ind; [done|].
  rewrite foldl_app, map_app. simpl. destruct (foldl _ _ hosts) as [v out]. simpl in IHa, IHm.
  rewrite (render_agree li sl snap _ _ h IHa). pose proof (render_keeps li sl snap vars h) as Hk.
  destruct (render li sl snap vars h) as [v' p]. simpl in *. by rewrite IHm.
Qed.

(** ** Order *)

Definition of_key (k : Z) (p : pendingHost) : bool := sortKey p =? k.

(** The host at each place: the next of [moved] where the host is sortable, itself
    where it is not. *)
Fixpoint refill (items moved : list pendingHost) : list pendingHost :=
  match items with
  | [] => []
  | it :: items =>
      if sortable it then
        match moved with
        | x :: moved => x :: refill items moved
        | [] => it :: refill items []
        end
      else it :: refill items moved
  end.

Lemma slots_from_shift i items : slots_from (S i) items = map S (slots_from i items).
Proof.
  revert i. induction items as [|it items IH]; intros i; simpl; [done|].
  destruct (sortable it); simpl; by rewrite IH.
Qed.

Lemma put_shift it items slots moved : put (it :: items) (map S slots) moved = it :: put items slots moved.
Proof.
  revert items moved. induction slots as [|i slots IH]; intros items [|x moved]; try done.
  unfold put in *. simpl. by rewrite IH.
Qed.

Lemma put_refill items moved :
  length moved = length (List.filter sortable items) ->
  put items (slots_from 0 items) moved = refill items moved.
Proof.
  revert moved. induction items as [|it items IH]; intros moved; simpl.
  - by destruct moved.
  - rewrite slots_from_shift. destruct (sortable it) eqn:Hs; simpl.
    + destruct moved as [|x moved]; [done|]. intros [= Hl]. unfold put. simpl.
      change (put (x :: items) (map S (slots_from 0 items)) moved = x :: refill items moved).
      by rewrite put_shift, IH.
    + intros Hl. by rewrite put_shift, IH.
Qed.

Lemma slots_items items : omap (fun i => items !! i) (slots_from 0 items) = List.filter sortable items.
Proof.
  induction items as [|it items IH]; simpl; [done|]. rewrite slots_from_shift.
  assert (omap (fun i => (it :: items) !! i) (map S (slots_from 0 items)) = List.filter sortable items) as E.
  { rewrite <- IH. generalize (slots_from 0 items). induction l as [|i l IHl]; simpl; [done|].
    destruct (items !! i); [f_equal|]; exact IHl. }
  destruct (sortable it); simpl; [f_equal|]; exact E.
Qed.

Lemma insert_perm x l : insert_by_key x l ≡ₚ x :: l.
Proof.
  induction l as [|y l IH]; simpl; [done|]. destruct (_ <=? _); [done|]. rewrite IH. constructor.
Qed.

Lemma stable_sort_perm l : stable_sort l ≡ₚ l.
Proof. induction l as [|x l IH]; simpl; [done|]. by rewrite insert_perm, IH. Qed.

Lemma insert_sorted x l :
  StronglySorted (fun a b => sortKey a <= sortKey b) l ->
  StronglySorted (fun a b => sortKey a <= sortKey b) (insert_by_key x l).
Proof.
  induction 1 as [|y l Hl IH Hy]; simpl; [by repeat constructor|].
  destruct (Z.leb_spec (sortKey x) (sortKey y)) as [Hle|Hlt].
  - constructor; [by constructor|]. constructor; [done|]. eapply Forall_impl; [exact Hy|]. simpl. lia.
  - constructor; [done|]. rewrite insert_perm. constructor; [lia|done].
Qed.

Lemma stable_sort_sorted l : StronglySorted (fun a b => sortKey a <= sortKey b) (stable_sort l).
Proof. induction l as [|x l IH]; simpl; [constructor|]. by apply insert_sorted. Qed.

Lemma insert_stable k x l :
  StronglySorted (fun a b => sortKey a <= sortKey b) l ->
  List.filter (of_key k) (insert_by_key x l) = List.filter (of_key k) (x :: l).
Proof.
  induction 1 as [|y l Hl IH Hy]; [done|]. cbn [insert_by_key].
  destruct (Z.leb_spec (sortKey x) (sortKey y)) as [Hle|Hlt]; [done|].
  cbn [List.filter] in *. rewrite IH. unfold of_key.
  destruct (Z.eqb_spec (sortKey x) k), (Z.eqb_spec (sortKey y) k); try done. lia.
Qed.

Lemma stable_sort_stable k l : List.filter (of_key k) (stable_sort l) = List.filter (of_key k) l.
Proof.
  induction l as [|x l IH]; [done|]. cbn [stable_sort foldr]. fold (stable_sort l).
  rewrite insert_stable by apply stable_sort_sorted. cbn [List.filter]. by rewrite IH.
Qed.

Lemma refill_filter items moved :
  length moved = length (List.filter sortable items) -> Forall (fun x => sortable x = true) moved ->
  List.filter sortable (refill items moved) = moved /\
  (forall i it, items !! i = Some it -> sortable it = false -> refill items moved !! i = Some it).
Proof.
  revert moved. induction items as [|it items IH]; intros moved; simpl.
  { destruct moved; [|done]. intros _ _. split; [done|]. intros i x Hx. by rewrite lookup_nil in Hx. }
  destruct (sortable it) eqn:Hs; simpl.
  - destruct moved as [|x moved]; [done|]. intros [= Hl] [Hx Hm]%Forall_cons.
    destruct (IH _ Hl Hm) as [H1 H2]. simpl. rewrite Hx, H1. split; [done|].
    intros [|i] y; simpl; [|by apply H2]. intros [= <-]. congruence.
  - intros Hl Hm. destruct (IH _ Hl Hm) as [H1 H2]. rewrite Hs. split; [done|].
    intros [|i] y; simpl; [done|]. by apply H2.
Qed.

Lemma refill_id items : refill items (List.filter sortable items) = items.
Proof.
  induction items as [|it items IH]; simpl; [done|]. destruct (sortable it) eqn:Hs; simpl; by rewrite ?Hs, IH.
Qed.

Lemma sort_short l : (length l < 2)%nat -> stable_sort l = l.
Proof. destruct l as [|x [|y l]]; simpl; [done|done|lia]. Qed.

Lemma sortPending_refill items : sortPendingByLoad items = refill items (stable_sort (List.filter sortable items)).
Proof.
  unfold sortPendingByLoad. cbv zeta. rewrite slots_items.
  assert (length (slots_from 0 items) = length (List.filter sortable items)) as Hl.
  { induction items as [|it items IH]; simpl; [done|]. rewrite slots_from_shift.
    destruct (sortable it); simpl; by rewrite length_map, IH. }
  destruct (Nat.ltb_spec (length (slots_from 0 items)) 2).
  - by rewrite sort_short, refill_id by lia.
  - apply put_refill. by rewrite (Permutation_length (stable_sort_perm _)).
Qed.

Lemma refill_perm items : forall moved, length moved = length (List.filter sortable items) ->
  refill items moved ≡ₚ List.filter (fun x => negb (sortable x)) items ++ moved.
Proof.
  induction items as [|it items IH]; intros moved Hl; cbn [List.filter refill] in *; [by destruct moved|].
  destruct (sortable it); cbn [negb] in *; [|by rewrite IH].
  destruct moved as [|x moved]; [done|]. injection Hl as Hl. rewrite (IH _ Hl). apply Permutation_middle.
Qed.

Lemma sortPending_perm items : sortPendingByLoad items ≡ₚ items.
Proof.
  rewrite sortPending_refill, refill_perm by by rewrite (Permutation_length (stable_sort_perm _)).
  rewrite stable_sort_perm. rewrite <- refill_perm by done. by rewrite refill_id.
Qed.

(** Every local host is rendered once. *)
Lemma local_hosts_perm li sl snap vars hosts : local_hosts li sl snap vars hosts ≡ₚ map (fun h => (render li sl snap vars h).2) hosts.
Proof. unfold local_hosts. rewrite no_variable_leaks. destruct (_ && _); [apply sortPending_perm|done]. Qed.

(** The order by load moves only the sortable hosts, and only among their own
    places: there they ascend by load, hosts of the same load keep the order they
    came in, and none is lost or doubled. *)
Theorem order_by_load items :
  let out := sortPendingByLoad items in
  let mine := List.filter sortable out in
  (forall i it, items !! i = Some it -> sortable it = false -> out !! i = Some it) /\
  mine ≡ₚ List.filter sortable items /\
  StronglySorted (fun a b => sortKey a <= sortKey b) mine /\
  (forall k, List.filter (of_key k) mine = List.filter (of_key k) (List.filter sortable items)).
Proof.
  cbv zeta. rewrite sortPending_refill.
  destruct (refill_filter items (stable_sort (List.filter sortable items))) as [H1 H2].
  - by rewrite (Permutation_length (stable_sort_perm _)).
  - rewrite stable_sort_perm. apply Forall_forall. intros x Hx%list_elem_of_In. by apply filter_In in Hx as [_ Hx].
  - rewrite H1. split_and!; [done|apply stable_sort_perm|apply stable_sort_sorted|].
    intros k. apply stable_sort_stable.
Qed.

Definition demo_eff : Effective.EffectiveInbound :=
  Effective.mkEffective "de" "vless" "ws" "" 443 "" "" "" "" "none" "" "" false "" "" false "" "" false "" 0 0 "" false "" "".

Example order_example :
  let p n k b := mkPending (mkWalked "vless" (ProxySettings.VLESSSettings "x" "") n "" "" demo_eff) "" "" k b in
  map (fun x => wk_id (ph_host x)) (sortPendingByLoad [p 1 90 true; p 2 0 false; p 3 10 true; p 4 10 true])
  = [3; 2; 4; 1].
Proof. vm_compute. reflexivity. Qed.
End HostOrder.

(** ** Client formats *)

Module Negotiate.

Record SubscriptionFormatFlags := mkFlags {
  Default : bool; V2RayN : bool; V2RayNG : bool; Streisand : bool; Happ : bool; NPVTunnel : bool;
}.

(** [av, _ := strconv.Atoi(...)] on a run of digits: cut at the largest int. *)
Definition segment (s : string) : Z := match parse_nat s with Some n => Z.min n (2 ^ 63 - 1) | None => 0 end.

(** The comparison from some segment on; a missing one counts 0. *)
Fixpoint at_least (as_ bs : list string) : bool :=
  match as_, bs with
  | [], [] => true
  | a :: as_, [] => if segment a =? 0 then at_least as_ [] else 0 <? segment a
  | [], _ => forallb (fun b => segment b =? 0) bs
  | a :: as_, b :: bs => if segment a =? segment b then at_least as_ bs else segment b <? segment a
  end.

Definition versionAtLeast (a b : string) : bool := at_least (split_at "." a) (split_at "." b).

(** [\d+\.\d+...] with [n] dots, at the head of a string: the longest match. *)
Fixpoint version_head (dots : nat) (s : string) : option string :=
  let '(d, rest) := span is_digit s in
  if String.eqb d "" then None
  else match dots with
  | O => Some d
  | S dots =>
      match rest with
      | String "." rest => v ← version_head dots rest; Some (d ++ "." ++ v)%string
      | _ => None
      end
  end.

Definition version_after (name : string) (dots : nat) (userAgent : string) : option string :=
  rest ← strip_prefix name userAgent; version_head dots rest.

Definition hasAnyPrefix (s : string) (prefixes : list string) : bool := existsb (HasPrefix s) prefixes.

Definition detectSubscriptionFormat (userAgent : string) (flags : SubscriptionFormatFlags) : string :=
  let lower := ToLower userAgent in
  if hasAnyPrefix lower ["clash-verge"; "clash-meta"; "clash.meta"; "flclash"; "mihomo"] then "clash-meta"
  else if hasAnyPrefix lower ["clash"; "stash"] then "clash"
  else if hasAnyPrefix lower ["sfa"; "sfi"; "sfm"; "sft"; "karing"; "hiddifynext"] ||
          Contains lower "singbox" || Contains lower "sing-box" then "sing-box"
  else if hasAnyPrefix lower ["ss"; "ssr"; "ssd"; "sss"; "outline"; "shadowsocks"; "ssconf"] then "outline"
  else match version_after "v2rayN/" 1 userAgent with
  | Some v => if (Default flags || V2RayN flags) && versionAtLeast v "6.40" then "v2ray-json" else "v2ray"
  | None =>
  match version_after "v2rayNG/" 2 userAgent with
  | Some v => if (Default flags || V2RayNG flags) && versionAtLeast v "1.8.18" then "v2ray-json" else "v2ray"
  | None =>
  if HasPrefix lower "streisand" then
    if Default flags || Streisand flags then "v2ray-json" else "v2ray"
  else match version_after "Happ/" 2 userAgent with
  | Some v => if (Default flags || Happ flags) && versionAtLeast v "1.11.0" then "v2ray-json" else "v2ray"
  | None =>
  if (Default flags || NPVTunnel flags) && Contains userAgent "ktor-client" then "v2ray-json" else "v2ray"
  end end end.

Definition validSubscriptionFormats : list string :=
  ["v2ray"; "sing-box"; "clash"; "clash-meta"; "outline"; "v2ray-json"].

(** ** Versions *)

(** The [i]-th segment, 0 past the end. *)
Definition seg (l : list string) (i : nat) : Z := match l !! i with Some s => segment s | None => 0 end.

Lemma segment_nonneg s : 0 <= segment s.
Proof.
  unfold segment. assert (forall s acc n, 0 <= acc -> parse_digits acc s = Some n -> 0 <= n) as Hp.
  { clear s. induction s as [|c s IH]; simpl; intros acc n Ha; [by intros [= <-]|].
    destruct (is_digit c) eqn:Hc; [|done]. apply IH. unfold is_digit, between in Hc.
    apply andb_true_iff in Hc as [Hc%Z.leb_le _]. lia. }
  unfold parse_nat. destruct s; [lia|]. destruct (parse_digits 0 _) as [n|] eqn:E; [|lia].
  apply Hp in E; lia.
Qed.

Lemma seg_tail l i : seg l (S i) = seg (tail l) i.
Proof. by destruct l. Qed.

Lemma at_least_step a b :
  at_least a b = if seg a 0 =? seg b 0 then at_least (tail a) (tail b) else seg b 0 <? seg a 0.
Proof.
  destruct a as [|x a], b as [|y b]; try done. unfold seg. cbn [at_least forallb lookup list_lookup tail].
  pose proof (segment_nonneg y). rewrite (Z.eqb_sym 0). destruct (Z.eqb_spec (segment y) 0); cbn [andb].
  - by destruct b.
  - symmetry. apply Z.ltb_ge. lia.
Qed.

(** A version is at least another exactly when all their segments agree or the first
    that differs is larger, a missing segment counting 0. *)
Lemma at_least_spec a b :
  at_least a b = true <->
  (forall i, seg a i = seg b i) \/
  exists i, (forall j, (j < i)%nat -> seg a j = seg b j) /\ seg b i < seg a i.
Proof.
  remember (length a + length b)%nat as n eqn:Hn. assert (length a + length b <= n)%nat as Hle by lia.
  clear Hn. revert a b Hle. induction n as [|n IH]; intros a b Hle.
  { destruct a, b; simpl in Hle; try lia. split; [by left|done]. }
  destruct (decide (a = [] /\ b = [])) as [[-> ->]|Hne]; [split; [by left|done]|].
  rewrite at_least_step. destruct (Z.eqb_spec (seg a 0) (seg b 0)) as [E|E].
  - rewrite IH.
    2:{ destruct a, b; simpl in *; lia. }
    split; (intros [Hall|(i & Hj & Hi)]; [left|right]).
    + intros [|i]; [done|]. rewrite !seg_tail. apply Hall.
    + exists (S i). rewrite !seg_tail. split; [|done]. intros [|j] Hlt; [done|]. rewrite !seg_tail.
      apply Hj. lia.
    + intros i. rewrite <- !seg_tail. apply Hall.
    + destruct i as [|i]; [lia|]. exists i. rewrite <- !seg_tail. split; [|done]. intros j Hlt.
      rewrite <- !seg_tail. apply Hj. lia.
  - rewrite Z.ltb_lt. split; [intros Hlt; right; exists 0%nat; split; [lia|done]|].
    intros [Hall|([|i] & Hj & Hi)]; [by destruct (E (Hall 0%nat))|done|]. exfalso. apply E, Hj. lia.
Qed.

(** The format is one the explicit route also serves, and full Xray JSON is only ever
    sent with the blanket flag or the client's own one on and, for the three clients
    that report it, a version not under the floor. *)
Theorem format_choice ua flags :
  In (detectSubscriptionFormat ua flags) validSubscriptionFormats /\
  (detectSubscriptionFormat ua flags = "v2ray-json"%string ->
     (exists v, version_after "v2rayN/" 1 ua = Some v /\ versionAtLeast v "6.40" = true /\
        Default flags || V2RayN flags = true) \/
     (exists v, version_after "v2rayNG/" 2 ua = Some v /\ versionAtLeast v "1.8.18" = true /\
        Default flags || V2RayNG flags = true) \/
     (exists v, version_after "Happ/" 2 ua = Some v /\ versionAtLeast v "1.11.0" = true /\
        Default flags || Happ flags = true) \/
     (HasPrefix (ToLower ua) "streisand" = true /\ Default flags || Streisand flags = true) \/
     (Contains ua "ktor-client" = true /\ Default flags || NPVTunnel flags = true)).
Proof.
  unfold detectSubscriptionFormat. cbv zeta.
  repeat match goal with
         | |- context [if ?b then _ else _] => destruct b eqn:?
         | |- context [match version_after ?n ?d ua with _ => _ end] => destruct (version_after n d ua) eqn:?
         end; (split; [by simpl; tauto|]); intros Heq; try discriminate Heq;
    repeat match goal with H : _ && _ = true |- _ => apply andb_true_iff in H as [? ?] end; eauto 10.
Qed.

Example version_order : versionAtLeast "1.9" "1.8.29" = true /\ versionAtLeast "6.39" "6.40" = false.
Proof. vm_compute. auto. Qed.
End Negotiate.
