(* ===== verification/NodeConfigCache.v ===== *)
(** * NodeConfigCache: answering every node's poll — [nodeconfigcache.go]

    Nodes poll their configuration every few seconds. A trigger counts every change of
    the tables it is computed from; a poll reads that count first, and is answered from
    memory when a payload of its profile is held for exactly that count. Otherwise one
    build is started, however many polls ask for it, and all of them get its result.

    Here a poll and each build in flight take one step at a time — one statement, one
    critical section of the cache's mutex, one entry into a singleflight group — and the
    steps of all of them, the changes of the tables and the clock interleave freely. *)

From S2P Require Import Prelude GoStrings Base64 GoJson ProxySettings Store CoreDto CoreConfig NodeAdmin NodeConfig NodeConfigProps.
Import Rules NodeConfig Profile Render NodeConfigProps.

#[local] Open Scope string_scope.
#[local] Open Scope Z_scope.

(** ** The weight of a map's values *)

Definition total {Key A} `{Countable Key} (w : A -> nat) (m : gmap Key A) : nat := map_fold (fun _ a acc => (w a + acc)%nat) 0%nat m.

Section total.
Context {Key : Type} `{Countable Key} {A : Type} (w : A -> nat).
Implicit Types m : gmap Key A.

Lemma total_new m k a : m !! k = None -> total w (<[k := a]> m) = (w a + total w m)%nat.
Proof. intros Hk. unfold total. rewrite map_fold_insert_L; [done|intros; lia|done]. Qed.

Lemma total_delete m k a : m !! k = Some a -> (total w (delete k m) + w a = total w m)%nat.
Proof. intros Hk. rewrite <- (insert_delete_id m k a Hk) at 2. rewrite total_new by apply lookup_delete_eq. lia. Qed.

Lemma total_insert m k a b : m !! k = Some a -> (total w (<[k := b]> m) + w a = w b + total w m)%nat.
Proof.
  intros Hk. rewrite <- insert_delete_eq, total_new by apply lookup_delete_eq. pose proof (total_delete m k a Hk). lia.
Qed.

Lemma total_insert_le m k b : (total w (<[k := b]> m) <= w b + total w m)%nat.
Proof.
  destruct (m !! k) as [a|] eqn:E; [pose proof (total_insert m k a b E); lia|]. by rewrite total_new.
Qed.

Lemma total_imap_le (f : Key -> A -> option A) m : (forall k a b, f k a = Some b -> w b <= w a)%nat ->
  (total w (map_imap f m) <= total w m)%nat.
Proof.
  intros Hf. induction m as [|k a m Hk IH] using map_ind; [by rewrite map_imap_empty|].
  rewrite total_new by done. destruct (f k a) as [b|] eqn:E.
  - rewrite (map_imap_insert_Some f _ _ _ b) by done. rewrite total_new by (rewrite map_lookup_imap, Hk; done).
    specialize (Hf k a b E). lia.
  - rewrite map_imap_insert_None by done. rewrite delete_id by (rewrite map_lookup_imap, Hk; done). lia.
Qed.

Lemma total_fmap_le (f : A -> A) m : (forall a, w (f a) <= w a)%nat -> (total w (f <$> m) <= total w m)%nat.
Proof.
  intros Hf. induction m as [|k a m Hk IH] using map_ind; [by rewrite fmap_empty|].
  rewrite fmap_insert, !total_new by (rewrite ?lookup_fmap, ?Hk; done). specialize (Hf a). lia.
Qed.
End total.

Module ConfigCache.

(** The tables a configuration is computed from. *)
Record Tables := mkTables { t_inbounds : list InboundRow; t_hosts : list HostRow; t_db : Store.Db; t_core : coreConfigDTO }.

Definition nodeConfigSafetyTTL : Z := 60 * 1000000.

(** [nodeConfigEntry] *)
Record entry := mkEntry { version : Z; builtAt : Z; etag : string; e_body : string }.

(** How far [loadNodeConfigSnapshot] has come: its three queries run one after another,
    outside any transaction. *)
Inductive load := NothingRead | InboundsRead (rows : list AutoSyncRow) | ProxiesRead (rows : list AutoSyncRow) (proxies : list ProxyRow).

(** A build started through [entryFlight], by where it stands. *)
Inductive stage :=
  | Recheck                    (* the second [lookup], inside the flight *)
  | WantSnapshot               (* [snapshotFor]: [lookupSnapshot] *)
  | JoinSnapshot               (* it missed: into [snapFlight] *)
  | AwaitSnapshot
  | Rendering (s : snapshot)
  | Storing (e : entry)
  | Broken.

Record entryFlight := mkFlight { f_profile : nodeProfile; f_stage : stage }.

(** A load started through [snapFlight]. *)
Inductive snapFlight := SnapRecheck | SnapLoading (l : load) | SnapStoring (s : snapshot).

(** A poll; [Waiting] is inside [entryFlight.Do]. *)
Inductive poll :=
  | Asked (p : nodeProfile)
  | Versioned (p : nodeProfile) (v : Z)
  | Missed (p : nodeProfile) (v : Z)
  | Waiting (p : nodeProfile) (v : Z)
  | Uncached (p : nodeProfile) (l : load)
  | Answered (p : nodeProfile) (e : entry)
  | Refused.

(** The tables and the count ([data_versions]) over time, the newest last; the clock; the
    cache; the flights, by profile key and version; the polls by number, and the count
    when each arrived, which only the theorems look at. *)
Record St := mkSt {
  past : list (Z * Tables); current : Z * Tables; now : Z;
  snap : option snapshot; entries : gmap string entry;
  flights : gmap (string * Z) entryFlight; snapFlights : gmap Z snapFlight;
  polls : gmap nat poll; arrived : gmap nat Z
}.

Definition set_polls (ps : gmap nat poll) (s : St) : St :=
  mkSt (past s) (current s) (now s) (snap s) (entries s) (flights s) (snapFlights s) ps (arrived s).
Definition set_flights (fs : gmap (string * Z) entryFlight) (s : St) : St :=
  mkSt (past s) (current s) (now s) (snap s) (entries s) fs (snapFlights s) (polls s) (arrived s).
Definition set_snapFlights (fs : gmap Z snapFlight) (s : St) : St :=
  mkSt (past s) (current s) (now s) (snap s) (entries s) (flights s) fs (polls s) (arrived s).

(** A process that has just started. *)
Definition start (t : Z * Tables) (clock : Z) : St := mkSt [] t clock None ∅ ∅ ∅ ∅ ∅.

(** [bump_data_version]; [clock] is the database's, in microseconds. *)
Definition bump_data_version (d clock : Z) : Z := Z.max (d + 1) clock.

(** ** The cache's critical sections *)

Definition expired (s : St) (t : Z) : bool := nodeConfigSafetyTTL <=? now s - t.

Definition lookup_entry (s : St) (key : string) (v : Z) : option entry :=
  e ← entries s !! key;
  if negb (version e =? v) || expired s (builtAt e) then None else Some e.

Definition store (key : string) (e : entry) (s : St) : St :=
  let kept := filter (fun kv : string * entry => negb ((version kv.2 <? version e) || expired s (builtAt kv.2)) = true) (entries s) in
  mkSt (past s) (current s) (now s) (snap s) (<[key := e]> kept) (flights s) (snapFlights s) (polls s) (arrived s).

Definition lookupSnapshot (s : St) (v : Z) : option snapshot :=
  match snap s with
  | Some sn => if (sn_version sn =? v) && negb (expired s (sn_builtAt sn)) then Some sn else None
  | None => None
  end.

Definition storeSnapshot (sn : snapshot) (s : St) : St :=
  mkSt (past s) (current s) (now s) (Some sn) (entries s) (flights s) (snapFlights s) (polls s) (arrived s).

(** ** One statement of [loadNodeConfigSnapshot] *)

Section Model.
Context `{ProxySettings.Random} (sha256 : string -> string) (rfc3339 : Z -> string).

(** [n] counts the identifiers drawn so far for stored credentials that lack one. *)
Definition load_step (v : Z) (n : nat) (s : St) (l : load) : load + snapshot :=
  let t := (current s).2 in
  match l with
  | NothingRead => inl (InboundsRead (ListAutoSyncInbounds (t_inbounds t) (t_hosts t)))
  | InboundsRead rows => inl (ProxiesRead rows (ListActiveUserProxiesForNodeConfig (t_db t)))
  | ProxiesRead rows proxies => inr (loadNodeConfigSnapshot v (now s) rows proxies (t_core t) n)
  end.

Definition renderNodeConfigEntry (s : St) (sn : snapshot) (p : nodeProfile) : entry :=
  mkEntry (sn_version sn) (now s)
    (String quote_byte (Version (render sha256 rfc3339 sn p).1 ++ String quote_byte "")) (body sha256 rfc3339 sn p).

Definition key_of (p : nodeProfile) : string := key sha256 p.

(** What [Do] returns, to everyone inside it. *)
Definition finish (k : string * Z) (answer : nodeProfile -> poll) (s : St) : St :=
  set_flights (delete k (flights s))
    (set_polls ((fun q => match q with
       | Waiting p v => if bool_decide ((key_of p, v) = k) then answer p else q
       | _ => q
       end) <$> polls s) s).

Definition finish_snapshot (v : Z) (result : stage) (s : St) : St :=
  set_snapFlights (delete v (snapFlights s))
    (set_flights (map_imap (fun k f => Some
       (match f_stage f with
        | AwaitSnapshot => if k.2 =? v then mkFlight (f_profile f) result else f
        | _ => f
        end)) (flights s)) s).

Definition at_stage (k : string * Z) (f : entryFlight) (g : stage) (s : St) : St :=
  set_flights (<[k := mkFlight (f_profile f) g]> (flights s)) s.

Inductive event :=
  | Change (clock : Z) (t : Tables)     (* a transaction commits; its trigger counts it *)
  | Wait (d : Z)
  | Arrive (c : nat) (p : nodeProfile)
  | Step (c : nat) (n : nat)            (* the poll goes on *)
  | Failure (c : nat)                      (* its statement fails *)
  | FlightStep (k : string * Z)
  | SnapStep (v : Z) (n : nat)
  | SnapFailure (v : Z).                   (* a statement of a load fails *)

(** [cachedNodeConfig], from one point to the next. *)
Definition poll_step (c : nat) (n : nat) (q : poll) (s : St) : option St :=
  let become q := Some (set_polls (<[c := q]> (polls s)) s) in
  match q with
  | Asked p => become (Versioned p (current s).1)
  | Versioned p v =>
      match lookup_entry s (key_of p) v with Some e => become (Answered p e) | None => become (Missed p v) end
  | Missed p v =>
      let joined := set_polls (<[c := Waiting p v]> (polls s)) s in
      match flights s !! (key_of p, v) with
      | Some _ => Some joined
      | None => Some (set_flights (<[(key_of p, v) := mkFlight p Recheck]> (flights s)) joined)
      end
  | Uncached p l =>
      match load_step 0 n s l with
      | inl l => become (Uncached p l)
      | inr sn => become (Answered p (renderNodeConfigEntry s sn p))
      end
  | Waiting _ _ | Answered _ _ | Refused => None
  end.

(** A failure of [GetDataVersion] leads to a build that is not kept. *)
Definition poll_failure (c : nat) (q : poll) (s : St) : option St :=
  match q with
  | Asked p => Some (set_polls (<[c := Uncached p NothingRead]> (polls s)) s)
  | Uncached p _ => Some (set_polls (<[c := Refused]> (polls s)) s)
  | _ => None
  end.

(** The function inside [entryFlight.Do], with [snapshotFor]. *)
Definition flight_step (k : string * Z) (f : entryFlight) (s : St) : option St :=
  match f_stage f with
  | Recheck =>
      match lookup_entry s k.1 k.2 with
      | Some e => Some (finish k (fun p => Answered p e) s)
      | None => Some (at_stage k f WantSnapshot s)
      end
  | WantSnapshot =>
      Some (at_stage k f (match lookupSnapshot s k.2 with Some sn => Rendering sn | None => JoinSnapshot end) s)
  | JoinSnapshot =>
      let s := at_stage k f AwaitSnapshot s in
      match snapFlights s !! k.2 with
      | Some _ => Some s
      | None => Some (set_snapFlights (<[k.2 := SnapRecheck]> (snapFlights s)) s)
      end
  | AwaitSnapshot => None
  | Rendering sn => Some (at_stage k f (Storing (renderNodeConfigEntry s sn (f_profile f))) s)
  | Storing e => Some (finish k (fun p => Answered p e) (store k.1 e s))
  | Broken => Some (finish k (fun _ => Refused) s)
  end.

(** The function inside [snapFlight.Do]. *)
Definition snap_step (v : Z) (n : nat) (g : snapFlight) (s : St) : St :=
  match g with
  | SnapRecheck =>
      match lookupSnapshot s v with
      | Some sn => finish_snapshot v (Rendering sn) s
      | None => set_snapFlights (<[v := SnapLoading NothingRead]> (snapFlights s)) s
      end
  | SnapLoading l =>
      set_snapFlights (<[v := match load_step v n s l with inl l => SnapLoading l | inr sn => SnapStoring sn end]> (snapFlights s)) s
  | SnapStoring sn => finish_snapshot v (Rendering sn) (storeSnapshot sn s)
  end.

Definition step (e : event) (s : St) : option St :=
  match e with
  | Change clock t =>
      Some (mkSt (past s ++ [current s]) (bump_data_version (current s).1 clock, t) (now s) (snap s) (entries s)
              (flights s) (snapFlights s) (polls s) (arrived s))
  | Wait d =>
      if 0 <=? d then
        Some (mkSt (past s) (current s) (now s + d) (snap s) (entries s) (flights s) (snapFlights s) (polls s) (arrived s))
      else None
  | Arrive c p =>
      match polls s !! c with
      | Some _ => None
      | None => Some (mkSt (past s) (current s) (now s) (snap s) (entries s) (flights s) (snapFlights s)
                        (<[c := Asked p]> (polls s)) (<[c := (current s).1]> (arrived s)))
      end
  | Step c n => q ← polls s !! c; poll_step c n q s
  | Failure c => q ← polls s !! c; poll_failure c q s
  | FlightStep k => f ← flights s !! k; flight_step k f s
  | SnapStep v n => g ← snapFlights s !! v; Some (snap_step v n g s)
  | SnapFailure v =>
      match snapFlights s !! v with
      | Some (SnapLoading _) => Some (finish_snapshot v Broken s)
      | _ => None
      end
  end.

Fixpoint run (es : list event) (s : St) : option St :=
  match es with
  | [] => Some s
  | e :: es => s ← step e s; run es s
  end.
End Model.

(** ** The answer — [handleGetNodeConfig] *)

Definition profileFromNode (n : NodeAdmin.NodeRow) : result string nodeProfile :=
  ov ← parseCoreOverrides (NodeAdmin.n_CoreOverrides n);
  Ok (mkProfile (NodeAdmin.n_InboundTags n) (NodeAdmin.n_ListenPorts n) ov).

(** [etagMatches] *)
Definition etagMatches (header etag : string) : bool :=
  existsb (fun part => let part := TrimSpace part in String.eqb part "*" || String.eqb (TrimPrefix part "W/") etag)
    (split_at "," header).

Inductive answer := NotModified (etag : string) | Config (etag body : string) | ServerError (detail : string).

Definition respond (ifNoneMatch : string) (e : entry) : answer :=
  if etagMatches ifNoneMatch (etag e) then NotModified (etag e) else Config (etag e) (e_body e).

(** The handler around [cachedNodeConfig], whose answer for a profile is [cached]: a row
    whose overrides cannot be read is refused, never answered with the default. *)
Definition handleGetNodeConfig (node : NodeAdmin.NodeRow) (ifNoneMatch : string) (cached : nodeProfile -> option entry) : answer :=
  match profileFromNode node with
  | Err msg => ServerError ("Node profile is invalid: " ++ msg)
  | Ok profile =>
      match cached profile with
      | Some e => respond ifNoneMatch e
      | None => ServerError "Could not build node config"
      end
  end.

(** ** The invariant *)

Section proofs.
Context `{ProxySettings.Random} (sha256 : string -> string) (rfc3339 : Z -> string).
#[local] Abbreviation key_of := (key_of sha256).
(** The profiles that were ever asked for. *)
Context (K : nodeProfile -> Prop).

Definition seen (s : St) : list (Z * Tables) := (past s ++ [current s])%list.

(** [sn] shows, for each of the three queries, the tables at some moment the count had
    reached [lo]. *)
Definition built_from (Hs : list (Z * Tables)) (lo : Z) (sn : snapshot) : Prop :=
  exists r1 r2 r3 n, In r1 Hs /\ In r2 Hs /\ In r3 Hs /\ lo <= r1.1 /\ lo <= r2.1 /\ lo <= r3.1 /\
    sn = loadNodeConfigSnapshot (sn_version sn) (sn_builtAt sn) (ListAutoSyncInbounds (t_inbounds r1.2) (t_hosts r1.2))
           (ListActiveUserProxiesForNodeConfig (t_db r2.2)) (t_core r3.2) n.

Definition load_ok (Hs : list (Z * Tables)) (lo : Z) (l : load) : Prop :=
  match l with
  | NothingRead => True
  | InboundsRead rows => exists r, In r Hs /\ lo <= r.1 /\ rows = ListAutoSyncInbounds (t_inbounds r.2) (t_hosts r.2)
  | ProxiesRead rows proxies =>
      (exists r, In r Hs /\ lo <= r.1 /\ rows = ListAutoSyncInbounds (t_inbounds r.2) (t_hosts r.2)) /\
      exists r, In r Hs /\ lo <= r.1 /\ proxies = ListActiveUserProxiesForNodeConfig (t_db r.2)
  end.

Definition payload_ok (Hs : list (Z * Tables)) (lo : Z) (key : string) (e : entry) : Prop :=
  exists sn p, key_of p = key /\ K p /\ built_from Hs lo sn /\ e_body e = body sha256 rfc3339 sn p /\
    etag e = String quote_byte (Version (render sha256 rfc3339 sn p).1 ++ String quote_byte "").

Definition poll_ok (s : St) (lo : Z) (q : poll) : Prop :=
  match q with
  | Asked p => K p
  | Versioned p v | Missed p v => K p /\ lo <= v <= (current s).1
  | Waiting p v => K p /\ lo <= v <= (current s).1 /\ is_Some (flights s !! (key_of p, v))
  | Uncached p l => K p /\ load_ok (seen s) lo l
  | Answered p e => K p /\ payload_ok (seen s) lo (key_of p) e
  | Refused => True
  end.

Definition stage_ok (s : St) (k : string * Z) (g : stage) : Prop :=
  match g with
  | Rendering sn => sn_version sn = k.2 /\ built_from (seen s) k.2 sn
  | Storing e => version e = k.2 /\ payload_ok (seen s) k.2 k.1 e
  | AwaitSnapshot => is_Some (snapFlights s !! k.2)
  | _ => True
  end.

Definition flight_ok (s : St) (k : string * Z) (f : entryFlight) : Prop :=
  key_of (f_profile f) = k.1 /\ K (f_profile f) /\ k.2 <= (current s).1 /\ stage_ok s k (f_stage f).

Definition snapFlight_ok (s : St) (v : Z) (g : snapFlight) : Prop :=
  v <= (current s).1 /\
  match g with
  | SnapRecheck => True
  | SnapLoading l => load_ok (seen s) v l
  | SnapStoring sn => sn_version sn = v /\ built_from (seen s) v sn
  end.

Record inv (s : St) : Prop := mkInv {
  inv_past : forall r, In r (past s) -> r.1 < (current s).1;
  inv_polls : forall c q, polls s !! c = Some q -> exists lo, arrived s !! c = Some lo /\ lo <= (current s).1 /\ poll_ok s lo q;
  inv_snap : forall sn, snap s = Some sn -> built_from (seen s) (sn_version sn) sn;
  inv_entries : forall k e, entries s !! k = Some e -> payload_ok (seen s) (version e) k e;
  inv_flights : forall k f, flights s !! k = Some f -> flight_ok s k f;
  inv_snapFlights : forall v g, snapFlights s !! v = Some g -> snapFlight_ok s v g
}.

Lemma start_inv t clock : inv (start t clock).
Proof. split; try done. Qed.

(** *** What was read stays read *)

Lemma built_mono Hs H2s lo lo' sn : incl Hs H2s -> lo' <= lo -> built_from Hs lo sn -> built_from H2s lo' sn.
Proof. intros Hi Hl (r1 & r2 & r3 & n & H1 & H2 & H3 & L1 & L2 & L3 & E). exists r1, r2, r3, n. split_and!; auto; lia. Qed.

Lemma load_mono Hs H2s lo l : incl Hs H2s -> load_ok Hs lo l -> load_ok H2s lo l.
Proof. intros Hi. destruct l; cbn; [done| |]; intros; destruct_and?; naive_solver. Qed.

Lemma payload_mono Hs H2s lo lo' k e : incl Hs H2s -> lo' <= lo -> payload_ok Hs lo k e -> payload_ok H2s lo' k e.
Proof. intros Hi Hl (sn & p & H1 & H2 & H3 & H4 & H5). exists sn, p. split_and!; [done|done|by eapply built_mono|done|done]. Qed.

(** *** The pieces of a step *)

Lemma current_seen s : In (current s) (seen s).
Proof. apply in_or_app. right. by left. Qed.

Lemma load_step_ok s v lo n l : lo <= (current s).1 -> load_ok (seen s) lo l ->
  match load_step v n s l with
  | inl l => load_ok (seen s) lo l
  | inr sn => sn_version sn = v /\ built_from (seen s) lo sn
  end.
Proof.
  intros Hlo Hl. pose proof (current_seen s) as Hc. destruct l; cbn in *.
  - by exists (current s).
  - split; [done|]. by exists (current s).
  - destruct Hl as [(r1 & H1 & L1 & ->) (r2 & H2 & L2 & ->)]. split; [done|]. by exists r1, r2, (current s), n.
Qed.

Lemma render_ok s lo sn p : K p -> built_from (seen s) lo sn ->
  payload_ok (seen s) lo (key_of p) (renderNodeConfigEntry sha256 rfc3339 s sn p).
Proof. intros Hp Hs. by exists sn, p. Qed.

Lemma lookup_entry_ok s k v e : inv s -> lookup_entry s k v = Some e -> version e = v /\ payload_ok (seen s) v k e.
Proof.
  intros Hi. unfold lookup_entry. destruct (entries s !! k) as [e'|] eqn:E; [|done]. cbn.
  destruct (Z.eqb_spec (version e') v) as [<-|]; cbn; [|done]. destruct (expired _ _); [done|]. intros [= <-].
  split; [done|]. by eapply inv_entries.
Qed.

Lemma lookupSnapshot_ok s v sn : inv s -> lookupSnapshot s v = Some sn -> sn_version sn = v /\ built_from (seen s) v sn.
Proof.
  intros Hi. unfold lookupSnapshot. destruct (snap s) as [sn'|] eqn:E; [|done].
  destruct (Z.eqb_spec (sn_version sn') v) as [<-|]; cbn; [|done]. destruct (expired _ _); [done|]. intros [= <-].
  split; [done|]. by eapply inv_snap.
Qed.

Lemma inv_set_poll s c q : inv s -> (forall lo, arrived s !! c = Some lo -> lo <= (current s).1 -> poll_ok s lo q) ->
  is_Some (polls s !! c) -> inv (set_polls (<[c := q]> (polls s)) s).
Proof.
  intros [] Hq [q0 Hc]. split; try done. cbn. intros c' q' [[<- <-]|[_ Hq']]%lookup_insert_Some; [|by apply inv_polls0].
  destruct (inv_polls0 c q0 Hc) as (lo & Ha & Hlo & _). exists lo. split_and!; try done. by apply Hq.
Qed.

Lemma inv_set_snapFlight s v g : inv s -> snapFlight_ok s v g -> inv (set_snapFlights (<[v := g]> (snapFlights s)) s).
Proof.
  intros [] Hg. split; try done.
  - intros k f Hf. destruct (inv_flights0 k f Hf) as (H1 & H2 & H3 & H4). split_and!; try done.
    destruct (f_stage f); try exact H4. cbn in *. destruct (decide (k.2 = v)) as [<-|].
    + rewrite lookup_insert_eq. eauto.
    + by rewrite lookup_insert_ne.
  - cbn. intros v' g' [[<- <-]|[_ Hg']]%lookup_insert_Some; [done|by apply inv_snapFlights0].
Qed.

Lemma finish_inv s k answer : inv s ->
  (forall p lo, key_of p = k.1 -> lo <= k.2 -> K p -> poll_ok s lo (answer p)) ->
  (forall p q v, answer p <> Waiting q v) ->
  inv (finish sha256 k answer s).
Proof.
  intros [] Ha Hw. split; try done.
  - cbn. intros c q' Hq'. rewrite lookup_fmap in Hq'. destruct (polls s !! c) as [q|] eqn:Hc; [|done]. injection Hq' as <-.
    destruct (inv_polls0 c q Hc) as (lo & Har & Hlo & Hq). exists lo. split_and!; [done|done|].
    destruct q as [p|p v|p v|p v|p l|p e|]; try exact Hq. destruct Hq as (H1 & H2 & H3). case_bool_decide as Hk.
    + pose proof (Ha p lo) as Hans. rewrite <- Hk in Hans. specialize (Hans eq_refl (proj1 H2) H1).
      pose proof (Hw p) as Hwp. destruct (answer p); try exact Hans. by destruct (Hwp p0 v0).
    + split_and!; [done|apply H2|apply H2|]. cbn. by rewrite lookup_delete_ne.
  - cbn. intros k' f [_ Hf]%lookup_delete_Some. by apply inv_flights0.
Qed.

Lemma finish_snapshot_inv s v result : inv s -> (forall k, k.2 = v -> stage_ok s k result) ->
  (result <> AwaitSnapshot) -> inv (finish_snapshot v result s).
Proof.
  intros [] Hr Hw. split; try done.
  - cbn. intros c q Hc. destruct (inv_polls0 c q Hc) as (lo & Har & Hlo & Hq). exists lo. split_and!; [done|done|].
    destruct q; try exact Hq. destruct Hq as (H1 & H2 & [f H3]). split_and!; [done|apply H2|apply H2|].
    cbn. rewrite map_lookup_imap, H3. cbn. eauto.
  - cbn. intros k f'. rewrite map_lookup_imap. intros (f & Hf & [= <-])%bind_Some.
    destruct (inv_flights0 k f Hf) as (H1 & H2 & H3 & H4).
    destruct (f_stage f) eqn:Eg; try by (split_and!; try done; rewrite Eg).
    destruct (Z.eqb_spec k.2 v) as [E|E].
    + split_and!; try done. cbn. specialize (Hr k E). destruct result; try exact Hr. done.
    + split_and!; try done. rewrite Eg. cbn in *. by rewrite lookup_delete_ne.
  - cbn. intros v' g [_ Hg]%lookup_delete_Some. by apply inv_snapFlights0.
Qed.

Lemma store_inv s k e : inv s -> payload_ok (seen s) (version e) k e -> inv (store k e s).
Proof.
  intros [] He. split; try done. cbn. intros k' e' [[<- <-]|[_ Hk]]%lookup_insert_Some; [done|].
  apply map_lookup_filter_Some in Hk as [Hk _]. by apply inv_entries0.
Qed.

Lemma storeSnapshot_inv s sn : inv s -> built_from (seen s) (sn_version sn) sn -> inv (storeSnapshot sn s).
Proof. intros [] Hs. split; try done. cbn. by intros ? [= <-]. Qed.

(** *** Every step *)

Definition fair_event (e : event) : Prop := match e with Arrive _ p => K p | _ => True end.

Lemma change_inv s clock t : inv s -> inv (mkSt (past s ++ [current s]) (bump_data_version (current s).1 clock, t) (now s)
  (snap s) (entries s) (flights s) (snapFlights s) (polls s) (arrived s)).
Proof.
  intros []. set (s' := mkSt _ _ _ _ _ _ _ _ _).
  assert ((current s).1 < bump_data_version (current s).1 clock) as Hv by (unfold bump_data_version; lia).
  assert (incl (seen s) (seen s')) as Hi by (intros r Hr; apply in_or_app; by left).
  split.
  - intros r [Hr|[<-|[]]]%in_app_or; [|done]. specialize (inv_past0 r Hr). cbn. lia.
  - intros c q Hc. destruct (inv_polls0 c q Hc) as (lo & Har & Hlo & Hq). exists lo. split_and!; [done|cbn; lia|].
    destruct q; first [exact Hq | destruct Hq as [Hp Hq]; split; [exact Hp|]].
    + cbn in Hq |- *. lia.
    + cbn in Hq |- *. lia.
    + destruct Hq as [Hq Hf]. split; [cbn in Hq |- *; lia|exact Hf].
    + by eapply load_mono.
    + eapply payload_mono; [exact Hi|reflexivity|exact Hq].
  - intros sn Hs. eapply built_mono; [exact Hi| |by apply inv_snap0]. lia.
  - intros k e He. eapply payload_mono; [exact Hi| |by apply inv_entries0]. lia.
  - intros k f Hf. destruct (inv_flights0 k f Hf) as (H1 & H2 & H3 & H4). split_and!; [done|done|cbn in *; lia|].
    destruct (f_stage f); try exact H4; destruct H4 as [H4 H5]; (split; [done|]).
    + eapply built_mono; [exact Hi|reflexivity|exact H5].
    + eapply payload_mono; [exact Hi|reflexivity|exact H5].
  - intros v g Hg. destruct (inv_snapFlights0 v g Hg) as [H1 H2]. split; [cbn in *; lia|].
    destruct g; try done; [by eapply load_mono|]. destruct H2 as [H2 H3]. split; [done|].
    eapply built_mono; [exact Hi|reflexivity|exact H3].
Qed.

Lemma inv_new_flight s k f : inv s -> flight_ok s k f -> inv (set_flights (<[k := f]> (flights s)) s).
Proof.
  intros [] Hf. split; try done.
  - intros c q Hc. destruct (inv_polls0 c q Hc) as (lo & Ha & Hlo & Hq). exists lo. split_and!; [done|done|].
    destruct q; try exact Hq. destruct Hq as (H1 & H2 & H3). split_and!; [done|apply H2|apply H2|]. cbn.
    destruct (decide (k = (key_of p, v))) as [->|]; [rewrite lookup_insert_eq; eauto|by rewrite lookup_insert_ne].
  - cbn. intros k' f' [[<- <-]|[_ Hf']]%lookup_insert_Some; [done|by apply inv_flights0].
Qed.

Lemma inv_at_stage s k f g : inv s -> flights s !! k = Some f -> stage_ok s k g -> inv (at_stage k f g s).
Proof.
  intros Hi Hf Hg. apply inv_new_flight; [done|]. by destruct (inv_flights s Hi k f Hf) as (H1 & H2 & H3 & _).
Qed.

Lemma poll_step_inv s c n q s' : inv s -> polls s !! c = Some q -> poll_step sha256 rfc3339 c n q s = Some s' -> inv s'.
Proof.
  intros Hi Hc Hs. destruct (inv_polls s Hi c q Hc) as (lo & Har & Hlo & Hq).
  assert (forall q', poll_ok s lo q' -> inv (set_polls (<[c := q']> (polls s)) s)) as Hb.
  { intros q' Hq'. apply inv_set_poll; [done| |eauto]. intros lo' Har'. congruence. }
  destruct q as [p|p v|p v|p v|p l|p e|]; cbn in Hs, Hq; try done.
  - injection Hs as <-. apply Hb. cbn. split; [done|lia].
  - destruct (lookup_entry _ _ _) as [e|] eqn:E; injection Hs as <-; apply Hb; [|exact Hq].
    apply lookup_entry_ok in E as [_ E]; [|done]. split; [apply Hq|]. eapply payload_mono; [apply incl_refl| |exact E]. apply Hq.
  - destruct (flights s !! _) as [f|] eqn:Ef.
    + injection Hs as <-. apply Hb. cbn. rewrite Ef. naive_solver.
    + injection Hs as <-. assert (flight_ok s (key_of p, v) (mkFlight p Recheck)) as Hf.
      { split; [done|]. split; [apply Hq|]. split; [apply Hq|done]. }
      apply (inv_set_poll _ c (Waiting p v) (inv_new_flight s (key_of p, v) (mkFlight p Recheck) Hi Hf)); [|eauto].
      intros lo' Har' _. cbn in Har'. replace lo' with lo by congruence. cbn. rewrite lookup_insert_eq. naive_solver.
  - pose proof (load_step_ok s 0 lo n l Hlo (proj2 Hq)) as Hl. destruct (load_step 0 n s l) as [l'|sn]; injection Hs as <-; apply Hb.
    + split; [apply Hq|done].
    + split; [apply Hq|]. apply render_ok; [apply Hq|apply Hl].
Qed.

Lemma poll_failure_inv s c q s' : inv s -> polls s !! c = Some q -> poll_failure c q s = Some s' -> inv s'.
Proof.
  intros Hi Hc Hs. destruct (inv_polls s Hi c q Hc) as (lo & _ & _ & Hq).
  destruct q; cbn in Hs, Hq; try done; injection Hs as <-; (apply inv_set_poll; [done| |eauto]); intros; [by split|done].
Qed.

Lemma flight_step_inv s k f s' : inv s -> flights s !! k = Some f -> flight_step sha256 rfc3339 k f s = Some s' -> inv s'.
Proof.
  intros Hi Hf Hs. destruct (inv_flights s Hi k f Hf) as (H1 & H2 & H3 & H4). unfold flight_step in Hs.
  destruct (f_stage f) as [| | | |sn|e|] eqn:Eg; cbn in Hs, H4; try done.
  - destruct (lookup_entry _ _ _) as [e|] eqn:E; injection Hs as <-; [|by apply inv_at_stage].
    apply lookup_entry_ok in E as [_ E]; [|done]. apply finish_inv; [done| |done]. intros p lo Hp Hlo Hst.
    split; [done|]. rewrite Hp. eapply payload_mono; [apply incl_refl|exact Hlo|exact E].
  - injection Hs as <-. apply inv_at_stage; [done|done|]. destruct (lookupSnapshot _ _) as [sn|] eqn:E; [|done].
    by apply lookupSnapshot_ok in E.
  - assert (snapFlight_ok s k.2 SnapRecheck) as Hok by done.
    destruct (snapFlights s !! k.2) as [g|] eqn:Eg'; injection Hs as <-.
    + apply inv_at_stage; [done|done|]. cbn. rewrite Eg'. eauto.
    + pose proof (inv_set_snapFlight s k.2 SnapRecheck Hi Hok) as Hi'.
      apply inv_at_stage with (k := k) (f := f) (g := AwaitSnapshot) in Hi'; [exact Hi'|done|]. cbn. rewrite lookup_insert_eq. eauto.
  - injection Hs as <-. apply inv_at_stage; [done|done|]. destruct H4 as [H4 H5]. split; [done|].
    rewrite <- H1. by apply render_ok.
  - injection Hs as <-. destruct H4 as [H4 H5]. apply finish_inv; [apply store_inv; [done|by rewrite H4]| |done].
    intros p lo Hp Hlo Hst. split; [done|]. rewrite Hp. eapply payload_mono; [apply incl_refl|exact Hlo|exact H5].
  - injection Hs as <-. by apply finish_inv.
Qed.

Lemma snap_step_inv s v n g : inv s -> snapFlights s !! v = Some g -> inv (snap_step v n g s).
Proof.
  intros Hi Hg. destruct (inv_snapFlights s Hi v g Hg) as [H1 H2]. destruct g as [|l|sn]; cbn.
  - destruct (lookupSnapshot s v) as [sn|] eqn:E; [|by apply inv_set_snapFlight].
    apply lookupSnapshot_ok in E; [|done]. apply finish_snapshot_inv; [done| |done]. by intros k <-.
  - apply inv_set_snapFlight; [done|]. split; [done|]. pose proof (load_step_ok s v v n l H1 H2). by destruct (load_step _ _ _ _).
  - destruct H2 as [H2 H3]. apply finish_snapshot_inv; [apply storeSnapshot_inv; [done|by rewrite H2]| |done]. by intros k <-.
Qed.

Lemma event_inv e s s' : fair_event e -> inv s -> step sha256 rfc3339 e s = Some s' -> inv s'.
Proof.
  intros He Hi Hs. destruct e as [clock t|d|c p|c n|c|k|v n|v]; cbn in Hs, He.
  - injection Hs as <-. by apply change_inv.
  - destruct (0 <=? d); [|done]. injection Hs as <-. by destruct Hi.
  - destruct (polls s !! c) eqn:E; [done|]. injection Hs as <-. pose proof Hi as []. split; try done.
    cbn. intros c' q [[<- <-]|[Hne Hc]]%lookup_insert_Some.
    + exists (current s).1. by rewrite lookup_insert_eq.
    + rewrite lookup_insert_ne by done. by apply inv_polls0.
  - apply bind_Some in Hs as (q & Hq & Hs). by eapply poll_step_inv.
  - apply bind_Some in Hs as (q & Hq & Hs). by eapply poll_failure_inv.
  - apply bind_Some in Hs as (f & Hf & Hs). by eapply flight_step_inv.
  - apply bind_Some in Hs as (g & Hg & Hs). injection Hs as <-. by apply snap_step_inv.
  - destruct (snapFlights s !! v) as [[]|]; try done. injection Hs as <-. by apply finish_snapshot_inv.
Qed.

Lemma history_inv es s s' : Forall fair_event es -> inv s -> run sha256 rfc3339 es s = Some s' -> inv s'.
Proof.
  intros Hes. revert s. induction Hes as [|e es He _ IH]; intros s Hi; cbn; [by intros [= <-]|].
  intros (s1 & H1 & H2)%bind_Some. eapply IH; [|exact H2]. by eapply event_inv.
Qed.

(** *** Every poll ends *)

Definition load_weight (l : load) : nat := match l with NothingRead => 3 | InboundsRead _ => 2 | ProxiesRead _ _ => 1 end.
Definition snap_weight (g : snapFlight) : nat := match g with SnapRecheck => 5 | SnapLoading l => S (load_weight l) | SnapStoring _ => 1 end.
Definition flight_weight (f : entryFlight) : nat :=
  match f_stage f with
  | Recheck => 11 | WantSnapshot => 10 | JoinSnapshot => 9 | AwaitSnapshot => 3 | Rendering _ => 2 | Storing _ => 1 | Broken => 1
  end.
Definition poll_weight (q : poll) : nat :=
  match q with
  | Asked _ => 15 | Versioned _ _ => 14 | Missed _ _ => 13 | Waiting _ _ => 1 | Uncached _ l => load_weight l
  | Answered _ _ | Refused => 0
  end.

(** What is left to do at most. *)
Definition work (s : St) : nat :=
  total poll_weight (polls s) + total flight_weight (flights s) + total snap_weight (snapFlights s).

Definition internal (e : event) : bool := match e with Change _ _ | Wait _ | Arrive _ _ => false | _ => true end.

Definition finished (q : poll) : bool := match q with Answered _ _ | Refused => true | _ => false end.

Lemma finish_work k f answer s : flights s !! k = Some f -> (forall p, poll_weight (answer p) = 0%nat) ->
  (work (finish sha256 k answer s) < work s)%nat.
Proof.
  intros Hf Ha. unfold work, finish. cbn [set_flights set_polls polls flights snapFlights].
  pose proof (total_delete flight_weight (flights s) k f Hf).
  assert (0 < flight_weight f)%nat by (unfold flight_weight; destruct (f_stage f); lia).
  assert (forall q, poll_weight (match q with Waiting p v => if bool_decide ((key_of p, v) = k) then answer p else q | _ => q end)
    <= poll_weight q)%nat as Hq.
  { intros q. destruct q; try done. case_bool_decide; [|done]. rewrite Ha. cbn. lia. }
  pose proof (total_fmap_le poll_weight _ (polls s) Hq). lia.
Qed.

Lemma finish_snapshot_work v g result s : snapFlights s !! v = Some g -> (flight_weight (mkFlight (mkProfile [] [] zero) result) <= 3)%nat ->
  (work (finish_snapshot v result s) < work s)%nat.
Proof.
  intros Hg Hr. unfold work, finish_snapshot. cbn [set_snapFlights set_flights polls flights snapFlights].
  pose proof (total_delete snap_weight (snapFlights s) v g Hg). assert (0 < snap_weight g)%nat by (destruct g; cbn; lia).
  match goal with |- context [map_imap ?f _] => pose proof (total_imap_le flight_weight f (flights s)) as Hle end.
  match type of Hle with ?P -> _ => assert P as Hp; [|specialize (Hle Hp); lia] end.
  intros k f f' [= <-]. destruct (f_stage f) eqn:E; try done. destruct (k.2 =? v); [|done].
  unfold flight_weight at 2. rewrite E. exact Hr.
Qed.

Lemma at_stage_work k f g s : flights s !! k = Some f ->
  (work (at_stage k f g s) + flight_weight f = work s + flight_weight (mkFlight (f_profile f) g))%nat.
Proof.
  intros Hf. unfold work, at_stage. cbn [set_flights polls flights snapFlights].
  pose proof (total_insert flight_weight (flights s) k f (mkFlight (f_profile f) g) Hf). lia.
Qed.

Lemma set_poll_work c q q' s : polls s !! c = Some q ->
  (work (set_polls (<[c := q']> (polls s)) s) + poll_weight q = work s + poll_weight q')%nat.
Proof.
  intros Hq. unfold work. cbn [set_polls polls flights snapFlights].
  pose proof (total_insert poll_weight (polls s) c q q' Hq). lia.
Qed.

Lemma step_work e s s' : internal e = true -> step sha256 rfc3339 e s = Some s' -> (work s' < work s)%nat.
Proof.
  intros He Hs. destruct e as [| | |c n|c|k|v n|v]; try done; cbn [step] in Hs.
  - apply bind_Some in Hs as (q & Hq & Hs). pose proof (fun q' => set_poll_work c q q' s Hq) as Hw. destruct q as [p|p v|p v|p v|p l|p e|]; cbn in Hs; try done.
    + injection Hs as <-. specialize (Hw (Versioned p (current s).1)). cbn in Hw. lia.
    + destruct (lookup_entry _ _ _) as [e|]; injection Hs as <-; [specialize (Hw (Answered p e))|specialize (Hw (Missed p v))]; cbn in Hw; lia.
    + specialize (Hw (Waiting p v)). cbn in Hw. destruct (flights s !! _); injection Hs as <-; [lia|].
      set (k := (key_of p, v)). pose proof (total_insert_le flight_weight (flights s) k (mkFlight p Recheck)) as Hf.
      unfold work in *. cbn in *. lia.
    + destruct (load_step 0 n s l) as [l'|sn] eqn:E; injection Hs as <-;
        [specialize (Hw (Uncached p l'))|specialize (Hw (Answered p (renderNodeConfigEntry sha256 rfc3339 s sn p)))];
        destruct l; cbn in E, Hw; try done; injection E as <-; cbn in Hw; lia.
  - apply bind_Some in Hs as (q & Hq & Hs). pose proof (fun q' => set_poll_work c q q' s Hq) as Hw. destruct q as [p|p v|p v|p v|p l|p e|]; cbn in Hs; try done; injection Hs as <-.
    + specialize (Hw (Uncached p NothingRead)). cbn in Hw. lia.
    + specialize (Hw Refused). cbn in Hw. destruct l; cbn in Hw; lia.
  - apply bind_Some in Hs as (f & Hf & Hs). unfold flight_step in Hs. pose proof (fun g => at_stage_work k f g s Hf) as Hw.
    unfold flight_weight in Hw. cbn [f_stage] in Hw. destruct (f_stage f) as [| | | |sn|e|] eqn:Eg; try done.
    + destruct (lookup_entry _ _ _); injection Hs as <-; [by eapply finish_work|]. specialize (Hw WantSnapshot). cbn in Hw. lia.
    + injection Hs as <-. destruct (lookupSnapshot _ _) as [sn|]; [specialize (Hw (Rendering sn))|specialize (Hw JoinSnapshot)]; cbn in Hw; lia.
    + specialize (Hw AwaitSnapshot). cbn in Hw. destruct (snapFlights _ !! k.2); injection Hs as <-; [lia|].
      pose proof (total_insert_le snap_weight (snapFlights s) k.2 SnapRecheck) as Hg. unfold work in *. cbn in *. lia.
    + injection Hs as <-. specialize (Hw (Storing (renderNodeConfigEntry sha256 rfc3339 s sn (f_profile f)))). cbn in Hw. lia.
    + injection Hs as <-. change (work s) with (work (store k.1 e s)). by eapply finish_work.
    + injection Hs as <-. by eapply finish_work.
  - apply bind_Some in Hs as (g & Hg & Hs). injection Hs as <-. destruct g as [|l|sn]; cbn [snap_step].
    + destruct (lookupSnapshot s v) as [sn|]; [eapply finish_snapshot_work; [done|cbn; lia]|].
      pose proof (total_insert snap_weight (snapFlights s) v _ (SnapLoading NothingRead) Hg) as Hw. unfold work. cbn in *. lia.
    + pose proof (total_insert snap_weight (snapFlights s) v _ (match load_step v n s l with inl l => SnapLoading l | inr sn => SnapStoring sn end) Hg) as Hw.
      unfold work. cbn [set_snapFlights polls flights snapFlights]. destruct l; cbn in *; lia.
    + change (work s) with (work (storeSnapshot sn s)). eapply finish_snapshot_work; [exact Hg|cbn; lia].
  - destruct (snapFlights s !! v) as [g|] eqn:Hg; [|done]. destruct g; try done. injection Hs as <-.
    eapply finish_snapshot_work; [exact Hg|cbn; lia].
Qed.

Lemma enabled_while_open s : inv s -> (forall e, internal e = true -> step sha256 rfc3339 e s = None) ->
  forall c q, polls s !! c = Some q -> finished q = true.
Proof.
  intros Hi Hn c q Hc.
  assert (snapFlights s = ∅) as Hsf.
  { apply map_empty. intros v. destruct (snapFlights s !! v) as [g|] eqn:E; [|done]. specialize (Hn (SnapStep v 0) eq_refl). cbn in Hn.
    by rewrite E in Hn. }
  assert (flights s = ∅) as Hfl.
  { apply map_empty. intros k. destruct (flights s !! k) as [f|] eqn:E; [|done]. pose proof (inv_flights s Hi k f E) as (_ & _ & _ & Hst).
    specialize (Hn (FlightStep k) eq_refl). cbn in Hn. rewrite E in Hn. cbn in Hn. unfold flight_step in Hn.
    destruct (f_stage f); cbn in Hst; try done.
    - by destruct (lookup_entry _ _ _).
    - by destruct (snapFlights (at_stage k f AwaitSnapshot s) !! k.2).
    - rewrite Hsf, lookup_empty in Hst. by destruct Hst. }
  destruct (inv_polls s Hi c q Hc) as (lo & _ & _ & Hq). specialize (Hn (Step c 0) eq_refl). cbn in Hn. rewrite Hc in Hn. cbn in Hn.
  destruct q as [p|p v|p v|p v|p l|p e|]; cbn in Hn, Hq; try done.
  - by destruct (lookup_entry _ _ _).
  - by destruct (flights s !! _).
  - rewrite Hfl, lookup_empty in Hq. destruct Hq as (_ & _ & []). done.
  - by destruct l.
Qed.
End proofs.

(** ** What a node gets *)

Section theorems.
Context `{ProxySettings.Random} (sha256 : string -> string) (rfc3339 : Z -> string).

(** [buildNodeConfigBody] — the reference: the body for a profile straight from the
    tables, without any cache. *)
Definition buildNodeConfigBody (t : Tables) (n : nat) (p : nodeProfile) : string :=
  body sha256 rfc3339 (loadNodeConfigSnapshot 0 0 (ListAutoSyncInbounds (t_inbounds t) (t_hosts t))
    (ListActiveUserProxiesForNodeConfig (t_db t)) (t_core t) n) p.

(** Every readable row gives a profile of the kind the cache's keys are about. *)
Lemma node_profile_stored n p : Forall (fun t => ValidUTF8 t = true) (NodeAdmin.n_InboundTags n) ->
  Forall (fits 64) (NodeAdmin.n_ListenPorts n) -> profileFromNode n = Ok p -> stored_profile p.
Proof.
  intros Ht Hp. unfold profileFromNode. destruct (parseCoreOverrides _) as [ov|] eqn:E; [|done]. cbn. intros [= <-].
  split_and!; [done|done|by apply RulesProps.parse_codec_ok in E].
Qed.

(** The profiles asked for so far: stored ones, no two of which collide under the cut
    hash. *)
Definition distinct_keys (es : list event) : Prop :=
  forall c p c' q, In (Arrive c p) es -> In (Arrive c' q) es -> stored_profile p /\
    (stake 16 (sha256 (key_text q)) = stake 16 (sha256 (key_text p)) -> key_text q = key_text p).

(** C3: However polls, builds, changes of the tables, failures and the clock interleave, a
    poll's answer is the payload of its own profile, computed from tables that are at
    least as new as when the poll arrived: no change committed before is missing. If
    nothing has changed since it arrived, the answer is the body built straight from the
    tables. *)
Theorem answers_are_fresh t clock es s c p e lo : distinct_keys es ->
  run sha256 rfc3339 es (start t clock) = Some s ->
  polls s !! c = Some (Answered p e) -> arrived s !! c = Some lo ->
  exists sn, built_from (seen s) lo sn /\ e_body e = body sha256 rfc3339 sn p /\
    ((current s).1 = lo -> exists n, e_body e = buildNodeConfigBody (current s).2 n p).
Proof.
  intros Hd Hrun Hc Ha. set (K := fun q => stored_profile q /\ exists c, In (Arrive c q) es).
  assert (Forall (fair_event K) es) as Hf.
  { apply Forall_forall. intros [] Hin; cbn; try done. apply list_elem_of_In in Hin. split; [by eapply Hd|eauto]. }
  pose proof (history_inv sha256 rfc3339 K es _ s Hf (start_inv sha256 rfc3339 K t clock) Hrun) as Hi.
  destruct (inv_polls _ _ _ s Hi c _ Hc) as (lo' & Ha' & Hlo & [Hsp Hin] & sn & q & Hk & [Hsq Hinq] & Hb & He & _).
  replace lo' with lo in * by congruence. destruct Hin as [c1 H1], Hinq as [c2 H2].
  assert (e_body e = body sha256 rfc3339 sn p) as Hbody.
  { rewrite He. eapply same_key_same_body; [exact Hsq|exact Hsp| |exact Hk]. by eapply (Hd c1 p c2 q). }
  exists sn. split_and!; [done|done|]. intros Hcur. rewrite Hbody. destruct Hb as (r1 & r2 & r3 & n & I1 & I2 & I3 & L1 & L2 & L3 & ->).
  assert (forall r, In r (seen s) -> lo <= r.1 -> r = current s) as Hlast.
  { intros r [Hr|[<-|[]]]%in_app_or Hl; [|done]. pose proof (inv_past _ _ _ s Hi r Hr). lia. }
  apply Hlast in I1, I2, I3; try done. subst r1 r2 r3. by exists n.
Qed.

(** C4: Every poll ends: left to itself, whatever order the steps of polls, builds and loads
    come in and whichever of their statements fail, the system makes at most [work] more
    steps; and when no more step is possible every poll has been answered or refused,
    so none waits for a build that nobody runs. *)
Theorem every_poll_ends t clock es s : run sha256 rfc3339 es (start t clock) = Some s ->
  (forall es' s', Forall (fun e => internal e = true) es' -> run sha256 rfc3339 es' s = Some s' -> (length es' <= work s)%nat) /\
  ((forall e, internal e = true -> step sha256 rfc3339 e s = None) ->
    forall c q, polls s !! c = Some q -> finished q = true).
Proof.
  intros Hrun. split.
  - intros es' s' Hes. clear Hrun. revert s. induction Hes as [|e es' He _ IH]; intros s; [cbn; lia|]. cbn [run length].
    intros (s1 & H1 & H2)%bind_Some. apply IH in H2. pose proof (step_work sha256 rfc3339 e s s1 He H1). lia.
  - apply (enabled_while_open sha256 rfc3339 (fun _ => True)).
    apply (history_inv sha256 rfc3339 (fun _ => True) es (start t clock)); [|apply start_inv|done].
    apply Forall_forall. by intros [].
Qed.

Lemma canonical_head sn p : exists rest, (render sha256 rfc3339 sn p).2 = "{" ++ String quote_byte rest.
Proof. eexists. unfold render, canonical_json. cbn [snd]. rewrite encode_object2, (quoted_app "inbounds") by done. reflexivity. Qed.

Lemma before_quote a b x y : str_forallb (fun c => negb (Ascii.eqb c quote_byte)) a = true ->
  str_forallb (fun c => negb (Ascii.eqb c quote_byte)) b = true -> a ++ String quote_byte x = b ++ String quote_byte y -> a = b.
Proof. intros Ha Hb E%(f_equal (split_at quote_byte)). rewrite !split_at_app in E by done. congruence. Qed.

Definition etag_of (version : string) : string := String quote_byte (version ++ String quote_byte "").

Lemma etagMatches_own a b : etagMatches (etag_of (Base64.Hex a)) (etag_of (Base64.Hex b)) = true <-> a = b.
Proof.
  assert (forall f, forallb (fun k => f (Base64.hex_digit (Z.of_nat k))) (seq 0 16) = true -> f quote_byte = true ->
    str_forallb f (etag_of (Base64.Hex a)) = true) as Hall.
  { intros f Hf Hq. unfold etag_of. cbn [str_forallb]. rewrite Hq. rewrite str_forallb_app, hex_all by done. cbn. by rewrite Hq. }
  unfold etagMatches. rewrite split_at_none by by apply Hall. cbn [existsb]. rewrite TrimSpace_plain by by apply Hall.
  assert (TrimPrefix (etag_of (Base64.Hex a)) "W/" = etag_of (Base64.Hex a)) as -> by reflexivity.
  rewrite orb_false_r. cbn [String.eqb etag_of]. cbn. rewrite String.eqb_eq. split; [|by intros ->].
  intros E. apply hex_inj. apply (before_quote _ _ "" ""); [by apply hex_all..|exact E].
Qed.

(** A node that repeats the tag of the payload it runs is told that nothing is new
    exactly when the payload it would be sent is, byte for byte, the one it has — unless
    SHA-256 collides on just these two. *)
Theorem not_modified_exact s1 sn1 p1 s2 sn2 p2 :
  let e1 := renderNodeConfigEntry sha256 rfc3339 s1 sn1 p1 in
  let e2 := renderNodeConfigEntry sha256 rfc3339 s2 sn2 p2 in
  (sha256 (render sha256 rfc3339 sn1 p1).2 = sha256 (render sha256 rfc3339 sn2 p2).2 ->
    (render sha256 rfc3339 sn1 p1).2 = (render sha256 rfc3339 sn2 p2).2) ->
  respond (etag e1) e2 = NotModified (etag e2) <-> e_body e1 = e_body e2.
Proof.
  intros e1 e2 Hsha. set (c1 := (render sha256 rfc3339 sn1 p1).2) in *. set (c2 := (render sha256 rfc3339 sn2 p2).2) in *.
  assert (respond (etag e1) e2 = NotModified (etag e2) <-> sha256 c1 = sha256 c2) as ->.
  { unfold respond. change (etag e1) with (etag_of (Base64.Hex (sha256 c1))). change (etag e2) with (etag_of (Base64.Hex (sha256 c2))).
    rewrite <- etagMatches_own. by destruct (etagMatches _ _). }
  destruct (canonical_head sn1 p1) as [x1 E1]. destruct (canonical_head sn2 p2) as [x2 E2]. fold c1 in E1. fold c2 in E2.
  assert (e_body e1 = "{" ++ quoted "version" ++ ":" ++ String quote_byte (Base64.Hex (sha256 c1) ++ String quote_byte ("," ++ String quote_byte x1))) as ->.
  { change (e_body e1) with (nodeConfigBodyBytes rfc3339 (render sha256 rfc3339 sn1 p1).1 c1). rewrite E1, splice. by rewrite <- E1. }
  assert (e_body e2 = "{" ++ quoted "version" ++ ":" ++ String quote_byte (Base64.Hex (sha256 c2) ++ String quote_byte ("," ++ String quote_byte x2))) as ->.
  { change (e_body e2) with (nodeConfigBodyBytes rfc3339 (render sha256 rfc3339 sn2 p2).1 c2). rewrite E2, splice. by rewrite <- E2. }
  split.
  - intros E. rewrite E. assert (x1 = x2) as -> by (specialize (Hsha E); rewrite E1, E2 in Hsha; by injection Hsha). done.
  - intros E. apply hex_inj. rewrite (quoted_app "version") in E by done. injection E as E.
    eapply before_quote; [by apply hex_all..|exact E].
Qed.
End theorems.

(** ** Witnesses *)

#[local] Existing Instance ProxySettings.tally_random.

Definition demo_tables (network : string) : Tables :=
  mkTables [demo_inbound "a" network "none"] [mkHost 1 "a" (Some 443) None None None] demo_db demo_core_config.

Definition demo_profile : nodeProfile := two_tags "a" "b".

(** Two polls, the second joining the first one's build; the inbound changes while they
    wait, after its row was read. *)
Definition demo_polls : list event :=
  [Arrive 0 demo_profile; Arrive 1 demo_profile; Step 0 0; Step 0 0; Step 0 0; Step 1 0; Step 1 0; Step 1 0]
  ++ (let k := (key (fun s => s) demo_profile, 7) in
      [FlightStep k; FlightStep k; FlightStep k; SnapStep 7 0; SnapStep 7 0; Change 5 (demo_tables "ws"); SnapStep 7 0;
       SnapStep 7 0; SnapStep 7 0; FlightStep k; FlightStep k]).

Definition demo_end : St :=
  default (start (7, demo_tables "tcp") 0) (run (fun s => s) (fun _ => "") demo_polls (start (7, demo_tables "tcp") 0)).

Definition demo_answer : entry :=
  match polls demo_end !! 1%nat with Some (Answered _ e) => e | _ => mkEntry 0 0 "" "" end.

Lemma demo_distinct : distinct_keys (fun s => s) demo_polls.
Proof.
  intros c p c' q Hp Hq. assert (forall c p, In (Arrive c p) demo_polls -> p = demo_profile) as He.
  { intros c0 p0 Hin. cbn in Hin. repeat (destruct Hin as [[= <- <-]|Hin]; [done|]).
    repeat (destruct Hin as [Hin|Hin]; [discriminate|]). by destruct Hin. }
  rewrite (He _ _ Hp), (He _ _ Hq). split; [|done]. by apply two_tags_stored.
Qed.

Lemma answers_are_fresh_witness :
  exists sn, built_from (seen demo_end) 7 sn /\ e_body demo_answer = body (fun s => s) (fun _ => "") sn demo_profile.
Proof.
  assert (run (fun s => s) (fun _ => "") demo_polls (start (7, demo_tables "tcp") 0) = Some demo_end) as Hrun by (vm_compute; reflexivity).
  assert (polls demo_end !! 1%nat = Some (Answered demo_profile demo_answer)) as Hp by (vm_compute; reflexivity).
  assert (arrived demo_end !! 1%nat = Some 7) as Ha by (vm_compute; reflexivity).
  destruct (answers_are_fresh (fun s => s) (fun _ => "") (7, demo_tables "tcp") 0 demo_polls demo_end 1 demo_profile demo_answer 7
    demo_distinct Hrun Hp Ha) as (sn & H1 & H2 & _).
  exists sn. split; [exact H1|exact H2].
Defined.

(** Two polls that have arrived, and the steps that answer them. *)
Definition demo_mid : St :=
  default (start (7, demo_tables "tcp") 0) (run (fun s => s) (fun _ => "") (take 2 demo_polls) (start (7, demo_tables "tcp") 0)).

Definition demo_steps : list event := List.filter internal (drop 2 demo_polls).

Lemma every_poll_ends_witness : (length demo_steps <= work demo_mid)%nat.
Proof.
  assert (run (fun s => s) (fun _ => "") (take 2 demo_polls) (start (7, demo_tables "tcp") 0) = Some demo_mid) as Hrun by (vm_compute; reflexivity).
  assert (Forall (fun e => internal e = true) demo_steps) as Hin by (repeat constructor).
  set (s' := default demo_mid (run (fun s => s) (fun _ => "") demo_steps demo_mid)).
  assert (run (fun s => s) (fun _ => "") demo_steps demo_mid = Some s') as Hs by (vm_compute; reflexivity).
  exact (proj1 (every_poll_ends (fun s => s) (fun _ => "") (7, demo_tables "tcp") 0 (take 2 demo_polls) demo_mid Hrun) demo_steps s' Hin Hs).
Defined.

Definition demo_entry : entry := renderNodeConfigEntry (fun s => s) (fun _ => "") demo_end
  (loadNodeConfigSnapshot 7 0 [] (ListActiveUserProxiesForNodeConfig demo_db) demo_core_config 0) demo_profile.

Lemma not_modified_exact_witness : respond (etag demo_entry) demo_entry = NotModified (etag demo_entry).
Proof.
  set (sn := loadNodeConfigSnapshot 7 0 [] (ListActiveUserProxiesForNodeConfig demo_db) demo_core_config 0).
  exact (proj2 (not_modified_exact (fun s => s) (fun _ => "") demo_end sn demo_profile demo_end sn demo_profile (fun _ => eq_refl)) eq_refl).
Defined.
End ConfigCache.
