(* ===== verification/NodeWire.v ===== *)
(** * NodeWire: the configuration as a node reads it — [cmd/node/main.go]

    The panel and the node declare the same documents twice, each in its own program,
    and keep them in step by hand. Here are the node's declarations, with their decoders;
    [node_reads_body] says that what the panel writes ([NodeConfig.Render]) is what
    the node reads, field by field. Members a struct does not know are skipped, as
    [json.Decoder] does without [DisallowUnknownFields]. *)

From S2P Require Import Prelude GoStrings Base64 GoJson ProxySettings CoreDto CoreConfig NodeConfig NodeConfigProps.

#[local] Open Scope string_scope.
#[local] Open Scope Z_scope.

(** ** Integers of a smaller type *)

Definition sized_codec (lo hi : Z) : Codec Z := {|
  to_json := JInt;
  of_json j old := z ← of_json j old; if (lo <=? z) && (z <=? hi) then Some z else None;
  zero := 0;
  empty z := z =? 0
|}.

Definition port_codec : Codec Z := sized_codec 0 65535.
Definition int32_codec : Codec Z := sized_codec (-2147483648) 2147483647.

Lemma sized_laws lo hi : - 2 ^ 63 <= lo <= 0 -> 0 <= hi < 2 ^ 63 -> @CodecLaws Z (sized_codec lo hi).
Proof.
  intros Hlo Hhi. refine (@Build_CodecLaws Z (sized_codec lo hi) (fun z => lo <= z <= hi) _ _ _ _ _).
  - cbn. lia.
  - cbn. intros x. by rewrite Z.eqb_eq.
  - intros x Hx. apply (@codec_wf Z _ int_laws). cbn. unfold fits. lia.
  - intros x Hx. cbn [of_json sized_codec to_json zero]. change (JInt x) with (@to_json Z int_codec x).
    change 0 with (@zero Z int_codec). rewrite (@codec_roundtrip Z _ int_laws) by (cbn; unfold fits; lia).
    cbn. rewrite (proj2 (Z.leb_le lo x)), (proj2 (Z.leb_le x hi)) by lia. done.
  - intros j old x Hj Hold. cbn [of_json sized_codec]. intros (z & Hz & Hx)%bind_Some.
    destruct ((lo <=? z) && (z <=? hi)) eqn:E; [|done]. injection Hx as <-. go_bool. lia.
Defined.

Definition port_laws : @CodecLaws Z port_codec := sized_laws 0 65535 ltac:(lia) ltac:(lia).
Definition int32_laws : @CodecLaws Z int32_codec := sized_laws (-2147483648) 2147483647 ltac:(lia) ltac:(lia).

(** ** Unknown members are skipped *)

Definition only (names : list string) (j : json) : json :=
  match j with JObject ms => JObject (List.filter (fun kv => existsb (fun n => is_key n kv) names) ms) | _ => j end.

(** The decoder of a struct whose strict decoder is at hand. *)
Definition lenient {A} (names : list string) `{Codec A} : Codec A := {|
  to_json := to_json;
  of_json j old := of_json (only names j) old;
  zero := zero;
  empty := empty
|}.

Definition closed_under {A} (names : list string) `{CodecLaws A} : Prop :=
  forall x, codec_ok x -> only names (to_json x) = to_json x.

Lemma valid_only names j : valid_strings j = true -> valid_strings (only names j) = true.
Proof.
  destruct j as [| | | |l|ms|]; try done. cbn. rewrite !forallb_forall. intros Hv kv [Hin _]%filter_In. by apply Hv.
Qed.

Lemma lenient_laws {A} (names : list string) (C : Codec A) (L : @CodecLaws A C) :
  @closed_under A names C L -> @CodecLaws A (lenient names).
Proof.
  intros Hc. refine (@Build_CodecLaws A (lenient names) (@codec_ok A C L) (@codec_zero A C L) (@codec_empty A C L) (@codec_wf A C L) _ _).
  - intros x Hx. cbn [of_json lenient to_json zero]. rewrite Hc by done. by apply (@codec_roundtrip A C L).
  - intros j old x Hj Hold. cbn [of_json lenient]. apply (@codec_decoded A C L); [by apply valid_only|done].
Defined.

Lemma only_known names ms : known_fields names ms = true -> only names (JObject ms) = JObject ms.
Proof. intros Hk. cbn. f_equal. apply filter_true. unfold known_fields in Hk. rewrite forallb_forall in Hk. auto. Qed.

Definition outboundSpec_codec : Codec outboundDTO := lenient outboundDTO_names.
Definition routingRuleSpec_codec : Codec routingRuleDTO := lenient routingRuleDTO_names.
Definition dnsServerSpec_codec : Codec dnsServerDTO := lenient dnsServerDTO_names.

Definition outboundSpec_laws : @CodecLaws outboundDTO outboundSpec_codec.
Proof. eapply lenient_laws. intros x _. apply only_known. known_members. Defined.
Definition routingRuleSpec_laws : @CodecLaws routingRuleDTO routingRuleSpec_codec.
Proof. eapply lenient_laws. intros x _. apply only_known. known_members. Defined.
Definition dnsServerSpec_laws : @CodecLaws dnsServerDTO dnsServerSpec_codec.
Proof. eapply lenient_laws. intros x _. apply only_known. known_members. Defined.

(** ** The structs *)

Module NodeWire.

(** [userSpec], [realitySpec] and [transportSpec] are the panel's field by field;
    [realitySpec] holds its handshake in a struct of its own. *)
Record handshake := mkHandshake { hs_ServerName : string; hs_ServerPort : Z }.
Record realitySpec := mkReality { re_PrivateKey : string; re_ShortID : option (list string); re_Handshake : handshake }.
Record tlsSpec := mkTls { t_ServerName : string; t_Certificate : string; t_Key : string; t_Reality : option realitySpec }.
Record transportSpec := mkTransport { tr_Type : string; tr_Path : string; tr_Host : string }.
Record userSpec := mkUserSpec {
  us_Name : string; us_UUID : string; us_Password : string; us_Flow : string; us_Method : string; us_UserKey : string
}.

Record inboundSpec := mkSpec {
  in_Tag : string; in_Protocol : string; in_ListenPort : Z; in_ListenPorts : list Z; in_Users : list userSpec;
  in_TLS : option tlsSpec; in_Transport : option transportSpec; in_Hysteria2ObfsPassword : string;
  in_UpMbps : Z; in_DownMbps : Z; in_CongestionControl : string; in_ZeroRTTHandshake : bool;
  in_SnellPSK : string; in_SnellV6Mode : string
}.

Record coreSpec := mkCore {
  cs_LogLevel : string; cs_SniffEnabled : bool; cs_Outbounds : option (list outboundDTO);
  cs_RoutingRules : option (list routingRuleDTO); cs_DNSServers : option (list dnsServerDTO)
}.

Record pulledConfig := mkPulled { p_Version : string; p_Inbounds : list inboundSpec; p_Core : coreSpec }.

(** The members read by these structs, whatever else an object holds. *)
Definition read_object {A} (f : list (string * json) -> option A) (j : json) (old : A) : option A :=
  match j with JNull => Some old | JObject ms => f ms | _ => None end.

Definition never_empty {A} (_ : A) : bool := false.

#[export] Instance userSpec_codec : Codec userSpec := {|
  to_json u := JObject (emit "name" (us_Name u) ++ omitempty "uuid" (us_UUID u) ++ omitempty "password" (us_Password u) ++
    omitempty "flow" (us_Flow u) ++ omitempty "method" (us_Method u) ++ omitempty "user_key" (us_UserKey u) ++ [])%list;
  of_json j old := read_object (fun ms =>
    name ← get_from "name" (Some (us_Name old)) ms;
    uuid ← get_from "uuid" (Some (us_UUID old)) ms;
    password ← get_from "password" (Some (us_Password old)) ms;
    flow ← get_from "flow" (Some (us_Flow old)) ms;
    method_ ← get_from "method" (Some (us_Method old)) ms;
    user_key ← get_from "user_key" (Some (us_UserKey old)) ms;
    Some (mkUserSpec name uuid password flow method_ user_key)) j old;
  zero := mkUserSpec zero zero zero zero zero zero;
  empty := never_empty
|}.

#[export] Instance handshake_codec : Codec handshake := {|
  to_json h := JObject (emit "server_name" (hs_ServerName h) ++ @emit Z port_codec "server_port" (hs_ServerPort h) ++ [])%list;
  of_json j old := read_object (fun ms =>
    name ← get_from "server_name" (Some (hs_ServerName old)) ms;
    port ← @get_from Z port_codec "server_port" (Some (hs_ServerPort old)) ms;
    Some (mkHandshake name port)) j old;
  zero := mkHandshake zero (@zero Z port_codec);
  empty := never_empty
|}.

#[export] Instance realitySpec_codec : Codec realitySpec := {|
  to_json r := JObject (emit "private_key" (re_PrivateKey r) ++ emit "short_id" (re_ShortID r) ++ emit "handshake" (re_Handshake r) ++ [])%list;
  of_json j old := read_object (fun ms =>
    key ← get_from "private_key" (Some (re_PrivateKey old)) ms;
    short ← get_from "short_id" (Some (re_ShortID old)) ms;
    hs ← get_from "handshake" (Some (re_Handshake old)) ms;
    Some (mkReality key short hs)) j old;
  zero := mkReality zero zero zero;
  empty := never_empty
|}.

#[export] Instance tlsSpec_codec : Codec tlsSpec := {|
  to_json t := JObject (emit "server_name" (t_ServerName t) ++ emit "certificate" (t_Certificate t) ++ emit "key" (t_Key t) ++
    omitempty "reality" (t_Reality t) ++ [])%list;
  of_json j old := read_object (fun ms =>
    name ← get_from "server_name" (Some (t_ServerName old)) ms;
    cert ← get_from "certificate" (Some (t_Certificate old)) ms;
    key ← get_from "key" (Some (t_Key old)) ms;
    reality ← get_from "reality" (Some (t_Reality old)) ms;
    Some (mkTls name cert key reality)) j old;
  zero := mkTls zero zero zero zero;
  empty := never_empty
|}.

#[export] Instance transportSpec_codec : Codec transportSpec := {|
  to_json t := JObject (emit "type" (tr_Type t) ++ omitempty "path" (tr_Path t) ++ omitempty "host" (tr_Host t) ++ [])%list;
  of_json j old := read_object (fun ms =>
    type_ ← get_from "type" (Some (tr_Type old)) ms;
    path ← get_from "path" (Some (tr_Path old)) ms;
    host ← get_from "host" (Some (tr_Host old)) ms;
    Some (mkTransport type_ path host)) j old;
  zero := mkTransport zero zero zero;
  empty := never_empty
|}.

Definition ports_codec : Codec (list Z) := @list_codec Z port_codec.

#[export] Instance inboundSpec_codec : Codec inboundSpec := {|
  to_json s := JObject
    (emit "tag" (in_Tag s) ++ emit "protocol" (in_Protocol s) ++ @emit Z port_codec "listen_port" (in_ListenPort s) ++
     @omitempty _ ports_codec "listen_ports" (in_ListenPorts s) ++ emit "users" (in_Users s) ++
     omitempty "tls" (in_TLS s) ++ omitempty "transport" (in_Transport s) ++
     omitempty "hysteria2_obfs_password" (in_Hysteria2ObfsPassword s) ++ @omitempty Z int32_codec "up_mbps" (in_UpMbps s) ++
     @omitempty Z int32_codec "down_mbps" (in_DownMbps s) ++ omitempty "congestion_control" (in_CongestionControl s) ++
     omitempty "zero_rtt_handshake" (in_ZeroRTTHandshake s) ++ omitempty "snell_psk" (in_SnellPSK s) ++
     omitempty "snell_v6_mode" (in_SnellV6Mode s) ++ [])%list;
  of_json j old := read_object (fun ms =>
    tag ← get_from "tag" (Some (in_Tag old)) ms;
    protocol ← get_from "protocol" (Some (in_Protocol old)) ms;
    port ← @get_from Z port_codec "listen_port" (Some (in_ListenPort old)) ms;
    ports ← @get_from _ ports_codec "listen_ports" (Some (in_ListenPorts old)) ms;
    users ← get_from "users" (Some (in_Users old)) ms;
    tls ← get_from "tls" (Some (in_TLS old)) ms;
    transport ← get_from "transport" (Some (in_Transport old)) ms;
    obfs ← get_from "hysteria2_obfs_password" (Some (in_Hysteria2ObfsPassword old)) ms;
    up ← @get_from Z int32_codec "up_mbps" (Some (in_UpMbps old)) ms;
    down ← @get_from Z int32_codec "down_mbps" (Some (in_DownMbps old)) ms;
    cc ← get_from "congestion_control" (Some (in_CongestionControl old)) ms;
    zrtt ← get_from "zero_rtt_handshake" (Some (in_ZeroRTTHandshake old)) ms;
    psk ← get_from "snell_psk" (Some (in_SnellPSK old)) ms;
    mode ← get_from "snell_v6_mode" (Some (in_SnellV6Mode old)) ms;
    Some (mkSpec tag protocol port ports users tls transport obfs up down cc zrtt psk mode)) j old;
  zero := mkSpec zero zero (@zero Z port_codec) (@zero _ ports_codec) zero zero zero zero (@zero Z int32_codec) (@zero Z int32_codec) zero zero zero zero;
  empty := never_empty
|}.

Definition outbounds_codec : Codec (option (list outboundDTO)) := @pointer_codec _ (@list_codec _ outboundSpec_codec).
Definition rules_codec : Codec (option (list routingRuleDTO)) := @pointer_codec _ (@list_codec _ routingRuleSpec_codec).
Definition dns_codec : Codec (option (list dnsServerDTO)) := @pointer_codec _ (@list_codec _ dnsServerSpec_codec).

#[export] Instance coreSpec_codec : Codec coreSpec := {|
  to_json c := JObject (emit "log_level" (cs_LogLevel c) ++ emit "sniff_enabled" (cs_SniffEnabled c) ++
    @emit _ outbounds_codec "outbounds" (cs_Outbounds c) ++ @emit _ rules_codec "routing_rules" (cs_RoutingRules c) ++
    @emit _ dns_codec "dns_servers" (cs_DNSServers c) ++ [])%list;
  of_json j old := read_object (fun ms =>
    level ← get_from "log_level" (Some (cs_LogLevel old)) ms;
    sniff ← get_from "sniff_enabled" (Some (cs_SniffEnabled old)) ms;
    outbounds ← @get_from _ outbounds_codec "outbounds" (Some (cs_Outbounds old)) ms;
    rules ← @get_from _ rules_codec "routing_rules" (Some (cs_RoutingRules old)) ms;
    dns ← @get_from _ dns_codec "dns_servers" (Some (cs_DNSServers old)) ms;
    Some (mkCore level sniff outbounds rules dns)) j old;
  zero := mkCore zero zero (@zero _ outbounds_codec) (@zero _ rules_codec) (@zero _ dns_codec);
  empty := never_empty
|}.

(** [json.NewDecoder(body).Decode(&pulled)]: what follows the first value is not read. *)
Definition pulled_of_json (j : json) : option pulledConfig :=
  let old := mkPulled "" [] zero in
  read_object (fun ms =>
    version ← get_from "version" (Some (p_Version old)) ms;
    inbounds ← get_from "inbounds" (Some (p_Inbounds old)) ms;
    core ← get_from "core" (Some (p_Core old)) ms;
    Some (mkPulled version inbounds core)) j old.

Definition decode_body (body : string) : option pulledConfig :=
  '(j, _) ← decode_value body; pulled_of_json j.

(** *** What is written is read back *)

#[local] Existing Instances port_laws int32_laws outboundSpec_laws routingRuleSpec_laws dnsServerSpec_laws.

#[export] Instance ports_laws : @CodecLaws (list Z) ports_codec := @list_laws Z port_codec port_laws.

#[export] Instance userSpec_laws : CodecLaws userSpec.
Proof.
  refine {| codec_ok u := codec_ok (us_Name u) /\ codec_ok (us_UUID u) /\ codec_ok (us_Password u) /\ codec_ok (us_Flow u) /\ codec_ok (us_Method u) /\ codec_ok (us_UserKey u) |}.
  - split_and!; apply codec_zero.
  - done.
  - intros [] Hx. cbn [us_Name us_UUID us_Password us_Flow us_Method us_UserKey] in Hx. destruct_and? Hx. wf_members.
  - intros [] Hx. cbn [us_Name us_UUID us_Password us_Flow us_Method us_UserKey] in Hx. destruct_and? Hx.
    cbn [to_json of_json userSpec_codec read_object zero us_Name us_UUID us_Password us_Flow us_Method us_UserKey].
    read_fields. reflexivity.
  - intros j old x Hj Hold. destruct_and? Hold. destruct j; cbn [of_json userSpec_codec read_object]; try done; [by intros [= <-]|].
    decoded_fields.
Defined.

#[export] Instance handshake_laws : CodecLaws handshake.
Proof.
  refine {| codec_ok u := codec_ok (hs_ServerName u) /\ @codec_ok _ _ port_laws (hs_ServerPort u) |}.
  - split_and!; apply codec_zero.
  - done.
  - intros [] Hx. cbn [hs_ServerName hs_ServerPort] in Hx. destruct_and? Hx. wf_members.
  - intros [] Hx. cbn [hs_ServerName hs_ServerPort] in Hx. destruct_and? Hx.
    cbn [to_json of_json handshake_codec read_object zero hs_ServerName hs_ServerPort].
    read_fields. reflexivity.
  - intros j old x Hj Hold. destruct_and? Hold. destruct j; cbn [of_json handshake_codec read_object]; try done; [by intros [= <-]|].
    decoded_fields.
Defined.

#[export] Instance realitySpec_laws : CodecLaws realitySpec.
Proof.
  refine {| codec_ok u := codec_ok (re_PrivateKey u) /\ codec_ok (re_ShortID u) /\ codec_ok (re_Handshake u) |}.
  - split_and!; apply codec_zero.
  - done.
  - intros [] Hx. cbn [re_PrivateKey re_ShortID re_Handshake] in Hx. destruct_and? Hx. wf_members.
  - intros [] Hx. cbn [re_PrivateKey re_ShortID re_Handshake] in Hx. destruct_and? Hx.
    cbn [to_json of_json realitySpec_codec read_object zero re_PrivateKey re_ShortID re_Handshake].
    read_fields. reflexivity.
  - intros j old x Hj Hold. destruct_and? Hold. destruct j; cbn [of_json realitySpec_codec read_object]; try done; [by intros [= <-]|].
    decoded_fields.
Defined.

#[export] Instance reality_not_null : NotNull realitySpec. Proof. done. Qed.
#[export] Instance tlsSpec_laws : CodecLaws tlsSpec.
Proof.
  refine {| codec_ok u := codec_ok (t_ServerName u) /\ codec_ok (t_Certificate u) /\ codec_ok (t_Key u) /\ codec_ok (t_Reality u) |}.
  - split_and!; apply codec_zero.
  - done.
  - intros [] Hx. cbn [t_ServerName t_Certificate t_Key t_Reality] in Hx. destruct_and? Hx. wf_members.
  - intros [] Hx. cbn [t_ServerName t_Certificate t_Key t_Reality] in Hx. destruct_and? Hx.
    cbn [to_json of_json tlsSpec_codec read_object zero t_ServerName t_Certificate t_Key t_Reality].
    read_fields. reflexivity.
  - intros j old x Hj Hold. destruct_and? Hold. destruct j; cbn [of_json tlsSpec_codec read_object]; try done; [by intros [= <-]|].
    decoded_fields.
Defined.

#[export] Instance transportSpec_laws : CodecLaws transportSpec.
Proof.
  refine {| codec_ok u := codec_ok (tr_Type u) /\ codec_ok (tr_Path u) /\ codec_ok (tr_Host u) |}.
  - split_and!; apply codec_zero.
  - done.
  - intros [] Hx. cbn [tr_Type tr_Path tr_Host] in Hx. destruct_and? Hx. wf_members.
  - intros [] Hx. cbn [tr_Type tr_Path tr_Host] in Hx. destruct_and? Hx.
    cbn [to_json of_json transportSpec_codec read_object zero tr_Type tr_Path tr_Host].
    read_fields. reflexivity.
  - intros j old x Hj Hold. destruct_and? Hold. destruct j; cbn [of_json transportSpec_codec read_object]; try done; [by intros [= <-]|].
    decoded_fields.
Defined.

#[export] Instance tls_not_null : NotNull tlsSpec. Proof. done. Qed.
#[export] Instance transport_not_null : NotNull transportSpec. Proof. done. Qed.
#[export] Instance inboundSpec_laws : CodecLaws inboundSpec.
Proof.
  refine {| codec_ok u := codec_ok (in_Tag u) /\ codec_ok (in_Protocol u) /\ @codec_ok _ _ port_laws (in_ListenPort u) /\ @codec_ok _ _ ports_laws (in_ListenPorts u) /\ codec_ok (in_Users u) /\ codec_ok (in_TLS u) /\ codec_ok (in_Transport u) /\ codec_ok (in_Hysteria2ObfsPassword u) /\ @codec_ok _ _ int32_laws (in_UpMbps u) /\ @codec_ok _ _ int32_laws (in_DownMbps u) /\ codec_ok (in_CongestionControl u) /\ codec_ok (in_ZeroRTTHandshake u) /\ codec_ok (in_SnellPSK u) /\ codec_ok (in_SnellV6Mode u) |}.
  - split_and!; apply codec_zero.
  - done.
  - intros [] Hx. cbn [in_Tag in_Protocol in_ListenPort in_ListenPorts in_Users in_TLS in_Transport in_Hysteria2ObfsPassword in_UpMbps in_DownMbps in_CongestionControl in_ZeroRTTHandshake in_SnellPSK in_SnellV6Mode] in Hx. destruct_and? Hx. wf_members.
  - intros [] Hx. cbn [in_Tag in_Protocol in_ListenPort in_ListenPorts in_Users in_TLS in_Transport in_Hysteria2ObfsPassword in_UpMbps in_DownMbps in_CongestionControl in_ZeroRTTHandshake in_SnellPSK in_SnellV6Mode] in Hx. destruct_and? Hx.
    cbn [to_json of_json inboundSpec_codec read_object zero in_Tag in_Protocol in_ListenPort in_ListenPorts in_Users in_TLS in_Transport in_Hysteria2ObfsPassword in_UpMbps in_DownMbps in_CongestionControl in_ZeroRTTHandshake in_SnellPSK in_SnellV6Mode].
    read_fields. reflexivity.
  - intros j old x Hj Hold. destruct_and? Hold. destruct j; cbn [of_json inboundSpec_codec read_object]; try done; [by intros [= <-]|].
    decoded_fields.
Defined.

#[export] Instance outbounds_laws : @CodecLaws _ outbounds_codec.
Proof. apply pointer_laws. Defined.
#[export] Instance rules_laws : @CodecLaws _ rules_codec.
Proof. apply pointer_laws. Defined.
#[export] Instance dns_laws : @CodecLaws _ dns_codec.
Proof. apply pointer_laws. Defined.

#[export] Instance coreSpec_laws : CodecLaws coreSpec.
Proof.
  refine {| codec_ok u := codec_ok (cs_LogLevel u) /\ codec_ok (cs_SniffEnabled u) /\ @codec_ok _ _ outbounds_laws (cs_Outbounds u) /\ @codec_ok _ _ rules_laws (cs_RoutingRules u) /\ @codec_ok _ _ dns_laws (cs_DNSServers u) |}.
  - split_and!; apply codec_zero.
  - done.
  - intros [] Hx. cbn [cs_LogLevel cs_SniffEnabled cs_Outbounds cs_RoutingRules cs_DNSServers] in Hx. destruct_and? Hx. wf_members.
  - intros [] Hx. cbn [cs_LogLevel cs_SniffEnabled cs_Outbounds cs_RoutingRules cs_DNSServers] in Hx. destruct_and? Hx.
    cbn [to_json of_json coreSpec_codec read_object zero cs_LogLevel cs_SniffEnabled cs_Outbounds cs_RoutingRules cs_DNSServers].
    read_fields. reflexivity.
  - intros j old x Hj Hold. destruct_and? Hold. destruct j; cbn [of_json coreSpec_codec read_object]; try done; [by intros [= <-]|].
    decoded_fields.
Defined.

(** ** What the panel writes is what the node reads *)

Definition user_of (u : NodeConfig.userSpec) : userSpec :=
  mkUserSpec (NodeConfig.us_Name u) (NodeConfig.us_UUID u) (NodeConfig.us_Password u) (NodeConfig.us_Flow u)
    (NodeConfig.us_Method u) (NodeConfig.us_UserKey u).
Definition reality_of (r : NodeConfig.realitySpec) : realitySpec :=
  mkReality (NodeConfig.re_PrivateKey r) (NodeConfig.re_ShortID r)
    (mkHandshake (NodeConfig.re_ServerName r) (NodeConfig.re_ServerPort r)).
Definition tls_of (t : NodeConfig.tlsSpec) : tlsSpec :=
  mkTls (NodeConfig.t_ServerName t) (NodeConfig.t_Certificate t) (NodeConfig.t_Key t) (reality_of <$> NodeConfig.t_Reality t).
Definition transport_of (t : NodeConfig.transportSpec) : transportSpec :=
  mkTransport (NodeConfig.tr_Type t) (NodeConfig.tr_Path t) (NodeConfig.tr_Host t).
Definition inbound_of (s : NodeConfig.inboundSpec) : inboundSpec :=
  mkSpec (NodeConfig.in_Tag s) (NodeConfig.in_Protocol s) (NodeConfig.in_ListenPort s) (NodeConfig.in_ListenPorts s)
    (map user_of (NodeConfig.in_Users s)) (tls_of <$> NodeConfig.in_TLS s) (transport_of <$> NodeConfig.in_Transport s)
    (NodeConfig.in_Hysteria2ObfsPassword s) (NodeConfig.in_UpMbps s) (NodeConfig.in_DownMbps s)
    (NodeConfig.in_CongestionControl s) (NodeConfig.in_ZeroRTTHandshake s) (NodeConfig.in_SnellPSK s) (NodeConfig.in_SnellV6Mode s).
Definition core_of (c : Rules.coreConfigDTO) : coreSpec :=
  mkCore (Rules.LogLevel c) (Rules.SniffEnabled c) (Rules.Outbounds c) (Rules.RoutingRules c) (Rules.DNSServers c).
Definition pulled_of (r : Render.response) : pulledConfig :=
  mkPulled (Render.Version r) (map inbound_of (Render.Inbounds r)) (core_of (Render.Core r)).

Lemma user_json u : NodeConfig.user_json u = to_json (user_of u).
Proof. unfold NodeConfig.user_json. cbn [to_json userSpec_codec]. by rewrite app_nil_r. Qed.

Lemma tls_json t : NodeConfig.tls_json t = to_json (tls_of t).
Proof. destruct t as [name cert key [r|]]; [|done]. by destruct r. Qed.

Lemma transport_json t : NodeConfig.transport_json t = to_json (transport_of t).
Proof. unfold NodeConfig.transport_json. cbn [to_json transportSpec_codec]. by rewrite app_nil_r. Qed.

Lemma inbound_json s : NodeConfig.spec_json s = to_json (inbound_of s).
Proof.
  unfold NodeConfig.spec_json. cbn [to_json inboundSpec_codec]. rewrite app_nil_r.
  assert (NodeConfig.users_json (NodeConfig.in_Users s) = to_json (map user_of (NodeConfig.in_Users s))) as ->.
  { unfold NodeConfig.users_json. cbn. f_equal. rewrite map_map. apply map_ext, user_json. }
  assert (NodeConfig.optional "tls" NodeConfig.tls_json (NodeConfig.in_TLS s) = omitempty "tls" (tls_of <$> NodeConfig.in_TLS s)) as ->.
  { destruct (NodeConfig.in_TLS s) as [t|]; [|done]. cbn [NodeConfig.optional]. by rewrite tls_json. }
  assert (NodeConfig.optional "transport" NodeConfig.transport_json (NodeConfig.in_Transport s) =
    omitempty "transport" (transport_of <$> NodeConfig.in_Transport s)) as ->.
  { destruct (NodeConfig.in_Transport s) as [t|]; [|done]. cbn [NodeConfig.optional]. by rewrite transport_json. }
  done.
Qed.

(** A member no field is called by. *)
Lemma get_foreign {A} {C : Codec A} name n v (acc : option A) :
  String.eqb (FoldKey n) name = false -> get_from name acc [(n, v)] = acc.
Proof. intros Hn. unfold get_from. cbn. unfold is_key. cbn. rewrite Hn. by destruct acc. Qed.

Lemma get_app {A} {C : Codec A} name acc a b : @get_from A C name acc (a ++ b)%list = get_from name (get_from name acc a) b.
Proof. unfold get_from. by rewrite foldl_app. Qed.

Lemma core_reads rfc3339 c : codec_ok (core_of c) -> of_json (Render.core_json rfc3339 c) zero = Some (core_of c).
Proof.
  intros Hc. pose proof (codec_roundtrip (core_of c) Hc) as Hr. unfold Render.core_json.
  set (tail := NodeConfig.optional _ _ _).
  set (ms := (emit "log_level" (Rules.LogLevel c) ++ emit "sniff_enabled" (Rules.SniffEnabled c) ++ emit "outbounds" (Rules.Outbounds c) ++
    emit "routing_rules" (Rules.RoutingRules c) ++ emit "dns_servers" (Rules.DNSServers c))%list).
  assert (forall A (C : Codec A) name acc, String.eqb "updated_at" name = false -> @get_from A C name acc (ms ++ tail) = get_from name acc ms) as Ht.
  { intros A C name acc Hn. rewrite get_app. subst tail. destruct (Rules.UpdatedAt c); [|done]. cbn [NodeConfig.optional]. by apply get_foreign. }
  change (to_json (core_of c)) with (JObject (ms ++ [])) in Hr. rewrite app_nil_r in Hr.
  rewrite <- Hr. change (JObject _) with (JObject (ms ++ tail)) at 1.
  cbn [of_json coreSpec_codec read_object]. by rewrite !Ht.
Qed.

(** Everything in a payload is UTF-8 and fits its integer type. *)
Definition sendable (r : Render.response) : Prop :=
  ValidUTF8 (Render.Version r) = true /\ Forall (fun s => codec_ok (inbound_of s)) (Render.Inbounds r) /\
  codec_ok (core_of (Render.Core r)).

Lemma get_cons_skip {A} {C : Codec A} name n v (acc : option A) rest :
  String.eqb (FoldKey n) name = false -> get_from name acc ((n, v) :: rest) = get_from name acc rest.
Proof. intros Hn. change ((n, v) :: rest) with ([(n, v)] ++ rest)%list. by rewrite get_app, get_foreign. Qed.

Lemma get_cons_hit {A} {C : Codec A} name v (x y : A) rest :
  String.eqb (FoldKey name) name = true -> of_json v x = Some y -> get_from name (Some x) ((name, v) :: rest) = get_from name (Some y) rest.
Proof. intros Hn Hv. unfold get_from, is_key. cbn. by rewrite Hn, Hv. Qed.

Lemma pulled_reads rfc3339 r : sendable r -> pulled_of_json (Render.response_json rfc3339 r) = Some (pulled_of r).
Proof.
  intros (Hv & Hi & Hc). unfold Render.response_json, pulled_of_json. cbn [read_object p_Version p_Inbounds p_Core].
  assert (codec_ok (map inbound_of (Render.Inbounds r))) as Hl by (by apply Forall_map).
  assert (of_json (JArray (map NodeConfig.spec_json (Render.Inbounds r))) [] = Some (map inbound_of (Render.Inbounds r))) as Hr.
  { rewrite <- (codec_roundtrip _ Hl). cbn [to_json list_codec]. rewrite map_map. do 2 f_equal. apply map_ext, inbound_json. }
  unfold emit. cbn [app]. eapply bind_some.
  { rewrite (get_cons_hit "version" _ _ (Render.Version r)) by done. do 2 (rewrite get_cons_skip; [|done]). done. }
  eapply bind_some.
  { rewrite get_cons_skip by done. rewrite (get_cons_hit "inbounds" _ _ _ _ eq_refl Hr). by rewrite get_cons_skip. }
  eapply bind_some; [|done]. do 2 (rewrite get_cons_skip; [|done]). by rewrite (get_cons_hit "core" _ _ _ _ eq_refl (core_reads rfc3339 _ Hc)).
Qed.

Lemma wf_cons name v rest : ValidUTF8 name = true -> wf_json v = true -> wf_json (JObject rest) = true ->
  wf_json (JObject ((name, v) :: rest)) = true.
Proof. intros Hn Hv Hr. cbn [wf_json forallb]. by rewrite Hn, Hv. Qed.

Lemma wf_app a b : wf_json (JObject a) = true -> wf_json (JObject b) = true -> wf_json (JObject (a ++ b)%list) = true.
Proof. intros Ha Hb. cbn [wf_json] in *. by rewrite forallb_app, Ha. Qed.

Lemma core_wf rfc3339 c : codec_ok (core_of c) -> (forall t, ValidUTF8 (rfc3339 t) = true) -> wf_json (Render.core_json rfc3339 c) = true.
Proof.
  intros Hc Ht. pose proof (codec_wf (core_of c) Hc) as Hw. unfold Render.core_json. rewrite !(app_assoc (A := string * json)).
  apply wf_app.
  - cbn [to_json coreSpec_codec] in Hw. rewrite !(app_assoc (A := string * json)), app_nil_r in Hw. exact Hw.
  - destruct (Rules.UpdatedAt c); [|done]. cbn [NodeConfig.optional]. apply wf_cons; [done|apply Ht|done].
Qed.

Lemma response_wf rfc3339 r : sendable r -> (forall t, ValidUTF8 (rfc3339 t) = true) -> wf_json (Render.response_json rfc3339 r) = true.
Proof.
  intros (Hv & Hi & Hc) Ht. unfold Render.response_json, emit. cbn [app]. apply wf_cons; [done|exact Hv|].
  apply wf_cons; [done| |by apply wf_cons; [|apply core_wf|]].
  cbn [wf_json]. apply forallb_forall. intros j (s & <- & Hs)%in_map_iff. rewrite inbound_json.
  apply codec_wf. rewrite Forall_forall in Hi. by apply Hi, list_elem_of_In.
Qed.

(** ** Narrowing keeps a payload sendable *)

Lemma narrow_within ports in_ o : Profile.narrow ports in_ = Some o ->
  incl (NodeConfig.in_ListenPort o :: NodeConfig.in_ListenPorts o) (NodeConfig.in_ListenPort in_ :: NodeConfig.in_ListenPorts in_).
Proof.
  unfold Profile.narrow. destruct (List.filter _ _) as [|first rest] eqn:E; [done|].
  destruct (_ =? _)%nat; [intros [= <-]; apply incl_refl|]. intros [= <-]. cbn [Profile.with_ports NodeConfig.in_ListenPort NodeConfig.in_ListenPorts].
  assert (incl (first :: rest) (NodeConfig.in_ListenPort in_ :: NodeConfig.in_ListenPorts in_)) as Hi.
  { rewrite <- E. intros q [Hq _]%filter_In. unfold Profile.specPorts in Hq. destruct (NodeConfig.in_ListenPorts in_); [|by right].
    destruct Hq as [<-|[]]. by left. }
  apply incl_cons.
  - match goal with |- context [if ?b then _ else _] => destruct b end; [by left|]. apply Hi. by left.
  - destruct (1 <? _)%nat; [exact Hi|]. intros q [].
Qed.

Lemma with_ports_ok port ports in_ : codec_ok (inbound_of in_) ->
  incl (port :: ports) (NodeConfig.in_ListenPort in_ :: NodeConfig.in_ListenPorts in_) ->
  codec_ok (inbound_of (Profile.with_ports port ports in_)).
Proof.
  intros Hok Hi. destruct in_. cbn in Hok, Hi |- *. destruct Hok as (H1 & H2 & H3 & H4 & Hok).
  assert (forall q, In q (port :: ports) -> 0 <= q <= 65535) as Hq.
  { intros q [<-|Hq]%Hi; [exact H3|]. rewrite Forall_forall in H4. by apply H4, list_elem_of_In. }
  split; [done|]. split; [done|]. split; [apply Hq; by left|]. split; [|exact Hok]. apply Forall_forall. intros q Hin. apply Hq. right. by apply list_elem_of_In.
Qed.

Lemma filter_sendable p fleet : Forall (fun s => codec_ok (inbound_of s)) fleet ->
  Forall (fun s => codec_ok (inbound_of s)) (Profile.filterInbounds p fleet).
Proof.
  intros Hf. rewrite NodeConfigProps.filter_restrict. apply Forall_forall. intros o (in_ & Hin & Ho)%list_elem_of_omap.
  rewrite Forall_forall in Hf. specialize (Hf in_ Hin). unfold NodeConfigProps.restrict in Ho.
  set (b := match Profile.InboundTags p with [] => false | _ => _ end) in Ho. destruct b; [done|].
  destruct (Profile.ListenPorts p) as [|q qs]; [by injection Ho as <-|]. pose proof (narrow_within _ _ _ Ho) as Hi.
  apply NodeConfigProps.narrow_same in Ho as (port & ports & ->). by apply with_ports_ok.
Qed.

Lemma valid_ascii s : str_forallb (between 0 127) s = true -> ValidUTF8 s = true.
Proof.
  induction s as [|c s IH]; [done|]. cbn [str_forallb]. intros [Hc Hs]%andb_true_iff.
  assert (utf8_width (String c "") = 1%nat) as Hw by (unfold utf8_width; by rewrite Hc).
  change (String c s) with (stake 1 (String c "") ++ s). rewrite <- Hw, valid_rune by (rewrite Hw; done). by apply IH.
Qed.

Lemma decode_payload rfc3339 r : sendable r -> (forall t, ValidUTF8 (rfc3339 t) = true) ->
  decode_body (encode (Render.response_json rfc3339 r)) = Some (pulled_of r).
Proof. intros Hr Ht. unfold decode_body. rewrite decode_encode by by apply response_wf. by apply pulled_reads. Qed.

(** What a node reads from the body it is sent is, field by field, the payload the panel
    computed for its profile: the two programs' declarations of it agree, for every
    database state whose strings are UTF-8 and whose numbers fit their columns. *)
Theorem node_reads_body `{ProxySettings.Random} sha256 rfc3339 version builtAt rows proxies core n p :
  let s := NodeConfig.loadNodeConfigSnapshot version builtAt rows proxies core n in
  Forall (fun i => codec_ok (inbound_of i)) (NodeConfig.sn_inbounds s) ->
  codec_ok (core_of (Rules.apply (Profile.CoreOverrides p) core)) -> (forall t, ValidUTF8 (rfc3339 t) = true) ->
  decode_body (Render.body sha256 rfc3339 s p) = Some (pulled_of (Render.render sha256 rfc3339 s p).1).
Proof.
  intros s Hi Hc Ht. subst s. rewrite NodeConfigProps.body_is_marshalled. set (r := (Render.render _ _ _ p).1).
  assert (sendable r) as Hr.
  { split_and!; [|by apply filter_sendable|exact Hc]. apply valid_ascii. by apply NodeConfigProps.hex_all. }
  by apply decode_payload.
Qed.

#[local] Existing Instance ProxySettings.tally_random.

Definition demo_snapshot : NodeConfig.snapshot :=
  NodeConfig.loadNodeConfigSnapshot 1 0
    (NodeConfig.ListAutoSyncInbounds [NodeConfigProps.demo_inbound "a" "tcp" "reality"; NodeConfigProps.demo_inbound "b" "ws" "none"]
       [NodeConfig.mkHost 1 "a" (Some 443) None None None; NodeConfig.mkHost 2 "b" (Some 8080) None None None])
    (NodeConfig.ListActiveUserProxiesForNodeConfig NodeConfigProps.demo_db) NodeConfigProps.demo_core_config 0.

Lemma demo_sendable : Forall (fun i => codec_ok (inbound_of i)) (NodeConfig.sn_inbounds demo_snapshot).
Proof.
  set (l := NodeConfig.sn_inbounds demo_snapshot). vm_compute in l. subst l.
  repeat (apply Forall_cons; split); [..|apply Forall_nil; exact I].
  all: cbn; repeat first [reflexivity | lia | exact I | split | constructor].
Qed.

Lemma node_reads_body_witness : length (NodeConfig.sn_inbounds demo_snapshot) = 2%nat /\
  decode_body (Render.body (fun s => s) (fun _ => "") demo_snapshot (Profile.mkProfile [] [] Rules.noOverrides)) =
    Some (pulled_of (Render.render (fun s => s) (fun _ => "") demo_snapshot (Profile.mkProfile [] [] Rules.noOverrides)).1).
Proof.
  split; [vm_compute; reflexivity|].
  refine (node_reads_body (fun s => s) (fun _ => "") 1 0 _ _ NodeConfigProps.demo_core_config 0 (Profile.mkProfile [] [] Rules.noOverrides) _ _ _).
  - exact demo_sendable.
  - cbn. repeat constructor.
  - intros t. reflexivity.
Defined.
End NodeWire.
