(* ===== verification/NodePlan.v ===== *)
(** * NodePlan: from a configuration to the options of a core — [cmd/node/main.go]

    [buildOptionsPlan] turns what a node pulled into the options sing-box is started
    with: a listener for every port of every inbound, the outbounds with their fallback
    pairs, the routing rules over listener tags, the DNS servers. The option structs are
    sing-box's; here are the fields the code fills. Where the code formats a message
    around a quoted name the message is given without it. *)

From S2P Require Import Prelude GoStrings CoreDto CoreConfig NodeWire.
Import NodeWire.

#[local] Open Scope string_scope.
#[local] Open Scope Z_scope.

Module NodePlan.

(** ** The options *)

Inductive user :=
  | VLESSUser (name uuid flow : string) | VMessUser (name uuid : string) | TrojanUser (name password : string)
  | ShadowsocksUser (name password : string) | Hysteria2User (name password : string)
  | TUICUser (name uuid password : string) | SnellUser (name key : string) | AnyTLSUser (name password : string).

Record InboundReality := mkInboundReality { ir_PrivateKey : string; ir_ShortID : list string; ir_Server : string; ir_ServerPort : Z }.
Record InboundTLS := mkInboundTLS { it_ServerName : string; it_Certificate : list string; it_Key : list string; it_Reality : option InboundReality }.
Inductive Transport := WebSocket (path : string) | HTTPUpgrade (path host : string).

(** What is particular to one protocol. *)
Inductive particular :=
  | Plain
  | Method (method : string)
  | Hysteria2 (up down : Z) (obfs : option string)
  | TUIC (congestion : string) (zeroRTT : bool)
  | Snell (psk mode : string).

(** A listener; [ib_Type] is its protocol. Its address is [0.0.0.0]. *)
Record Inbound := mkInbound {
  ib_Type : string; ib_Tag : string; ib_Port : Z; ib_Users : list user; ib_TLS : option InboundTLS;
  ib_Transport : option Transport; ib_Particular : particular
}.

Record OutboundTLS := mkOutboundTLS { ot_ServerName : string; ot_Insecure : bool }.
Record Server := mkServer { sv_Server : string; sv_Port : Z }.

Inductive outboundOptions :=
  | Stub
  | Direct (bind : string)
  | SOCKS (bind : string) (server : Server) (username password : string)
  | HTTP (bind : string) (server : Server) (username password : string)
  | Shadowsocks (bind : string) (server : Server) (method password : string)
  | VMess (bind : string) (server : Server) (uuid security : string) (tls : option OutboundTLS)
  | Trojan (bind : string) (server : Server) (password : string) (tls : option OutboundTLS)
  | VLESS (bind : string) (server : Server) (uuid flow : string) (tls : option OutboundTLS)
  | Hysteria2Out (bind : string) (server : Server) (password : string) (tls : option OutboundTLS)
  | TUICOut (bind : string) (server : Server) (uuid password congestion : string) (tls : option OutboundTLS)
  | AnyTLSOut (bind : string) (server : Server) (password : string) (tls : option OutboundTLS)
  | Hysteria (bind : string) (server : Server) (obfs auth : string) (up down : Z) (tls : option OutboundTLS)
  | ShadowTLS (bind : string) (server : Server) (version : Z) (password : string) (tls : option OutboundTLS)
  | SnellOut (bind : string) (server : Server) (psk obfsMode obfsHost : string)
  | SSH (bind : string) (server : Server) (user password : string)
  | Tor (bind executable data : string)
  | Selector (outbounds : list string) (default_ : string) (interrupt : bool)
  | URLTest (outbounds : list string).

Record Outbound := mkOutbound { o_Type : string; o_Tag : string; o_Options : outboundOptions }.

Inductive Rule :=
  | Sniff
  | Route (inbound domain domainSuffix domainKeyword ipCIDR : list string) (ipIsPrivate : bool)
      (port : list Z) (portRange network protocol : list string) (outbound : string).

Inductive DNSServer :=
  | LocalDNS (tag : string)
  | RemoteDNS (type tag server : string) (port : Z)
  | TLSDNS (tag server : string) (port : Z)
  | HTTPSDNS (tag server : string) (port : Z) (path : string).

(** [route.Final] is always [direct-out]. *)
Record Options := mkOptions {
  op_LogLevel : string; op_DNS : option (list DNSServer); op_Inbounds : list Inbound; op_Outbounds : list Outbound;
  op_Final : string; op_Rules : list Rule
}.

Record FallbackGroup := mkGroup { g_Group : string; g_Primary : string; g_Fallback : string; g_Interface : string }.

Record nodePlan := mkPlan {
  derivedTags : gmap string (list string); shadowsocksMethods : gmap string string; fallbacks : list FallbackGroup
}.

Definition listenerTags (p : nodePlan) (tag : string) : list string := default [tag] (derivedTags p !! tag).
Definition watchedInterfaces (p : nodePlan) : list string := map g_Interface (fallbacks p).

(** ** Inbounds *)

Definition ports (in_ : inboundSpec) : list Z := match in_ListenPorts in_ with [] => [in_ListenPort in_] | ps => ps end.

Definition derivedInboundTag (tag : string) (port : Z) : string := tag ++ "#" ++ Itoa port.

(** [UpdateUsers] of [nodecore] converts alike, through [nodecore.User]. *)
Definition user_option (protocol : string) (u : userSpec) : option user :=
  if String.eqb protocol "vless" then Some (VLESSUser (us_Name u) (us_UUID u) (us_Flow u))
  else if String.eqb protocol "vmess" then Some (VMessUser (us_Name u) (us_UUID u))
  else if String.eqb protocol "trojan" then Some (TrojanUser (us_Name u) (us_Password u))
  else if String.eqb protocol "shadowsocks" then Some (ShadowsocksUser (us_Name u) (us_Password u))
  else if String.eqb protocol "hysteria2" then Some (Hysteria2User (us_Name u) (us_Password u))
  else if String.eqb protocol "tuic" then Some (TUICUser (us_Name u) (us_UUID u) (us_Password u))
  else if String.eqb protocol "snell" then Some (SnellUser (us_Name u) (us_UserKey u))
  else if String.eqb protocol "anytls" then Some (AnyTLSUser (us_Name u) (us_Password u))
  else None.

Definition user_options (protocol : string) (us : list userSpec) : list user := omap (user_option protocol) us.

Definition defaultShadowsocksMethod : string := "chacha20-ietf-poly1305".

Definition shadowsocksMethod (users : list userSpec) : string :=
  match List.find (fun u => negb (String.eqb (us_Method u) "")) users with
  | Some u => us_Method u
  | None => defaultShadowsocksMethod
  end.

Definition hotUpdatableProtocol (protocol : string) : bool :=
  str_mem protocol ["vless"; "vmess"; "trojan"; "shadowsocks"; "hysteria2"; "tuic"; "snell"; "anytls"].

Definition buildInboundTLS (in_ : inboundSpec) : option InboundTLS :=
  t ← in_TLS in_;
  Some (mkInboundTLS (t_ServerName t) [t_Certificate t] [t_Key t]
    (r ← t_Reality t;
     Some (mkInboundReality (re_PrivateKey r) (default [] (re_ShortID r))
             (hs_ServerName (re_Handshake r)) (hs_ServerPort (re_Handshake r))))).

Definition buildInboundTransport (in_ : inboundSpec) : result string (option Transport) :=
  match in_Transport in_ with
  | None => Ok None
  | Some t =>
      if String.eqb (tr_Type t) "ws" then Ok (Some (WebSocket (tr_Path t)))
      else if String.eqb (tr_Type t) "httpupgrade" then Ok (Some (HTTPUpgrade (tr_Path t) (tr_Host t)))
      else Err "unsupported transport"
  end.

Section Plan.
(** The ciphers of the Shadowsocks library, classic and 2022. *)
Context (shadowaead shadowaead_2022 : list string).

Definition checkShadowsocksMethod (method : string) : result string unit :=
  if str_mem method shadowaead_2022 then Err "2022 cipher"
  else if negb (str_mem method shadowaead) then Err "unsupported method" else Ok tt.

(** The listener for one port; [None] when no case of the switch is its protocol's. *)
Definition listener (in_ : inboundSpec) (tag : string) (port : Z) : result string (option Inbound) :=
  let tls := buildInboundTLS in_ in
  transport ← buildInboundTransport in_;
  let protocol := in_Protocol in_ in
  let make tls transport extra := Ok (Some (mkInbound protocol tag port (user_options protocol (in_Users in_)) tls transport extra)) in
  if str_mem protocol ["vless"; "vmess"; "trojan"] then make tls transport Plain
  else if String.eqb protocol "shadowsocks" then
    let method := shadowsocksMethod (in_Users in_) in
    _ ← checkShadowsocksMethod method; make None None (Method method)
  else if String.eqb protocol "hysteria2" then
    make tls None (Hysteria2 (in_UpMbps in_) (in_DownMbps in_)
      (if String.eqb (in_Hysteria2ObfsPassword in_) "" then None else Some (in_Hysteria2ObfsPassword in_)))
  else if String.eqb protocol "tuic" then make tls None (TUIC (in_CongestionControl in_) (in_ZeroRTTHandshake in_))
  else if String.eqb protocol "snell" then make None None (Snell (in_SnellPSK in_) (in_SnellV6Mode in_))
  else if String.eqb protocol "anytls" then make tls None Plain
  else Ok None.

Definition cons_option {A} (o : option A) (l : list A) : list A := match o with Some x => x :: l | None => l end.

Fixpoint listeners (in_ : inboundSpec) (name : Z -> string) (ps : list Z) : result string (list Inbound) :=
  match ps with
  | [] => Ok []
  | port :: ps => l ← listener in_ (name port) port; rest ← listeners in_ name ps; Ok (cons_option l rest)
  end.

Definition multi (in_ : inboundSpec) : bool := (1 <? length (ports in_))%nat.

Definition listener_name (in_ : inboundSpec) (port : Z) : string :=
  if multi in_ then derivedInboundTag (in_Tag in_) port else in_Tag in_.

(** The inbounds part of [buildOptionsPlan]: the listeners, and the three maps by the
    inbounds' own tags, to which a tag that comes twice adds. *)
Fixpoint build_inbounds (ins : list inboundSpec) (derived : gmap string (list string)) (methods : gmap string string)
    (portsByTag : gmap string (list Z)) :
    result string (list Inbound * gmap string (list string) * gmap string string * gmap string (list Z)) :=
  match ins with
  | [] => Ok ([], derived, methods, portsByTag)
  | in_ :: ins =>
      let tag := in_Tag in_ in
      ls ← listeners in_ (listener_name in_) (ports in_);
      let derived := if multi in_ then <[tag := (default [] (derived !! tag) ++ map (derivedInboundTag tag) (ports in_))%list]> derived
                     else derived in
      let methods := if String.eqb (in_Protocol in_) "shadowsocks" then <[tag := shadowsocksMethod (in_Users in_)]> methods else methods in
      '(rest, derived, methods, portsByTag) ← build_inbounds ins derived methods (<[tag := ports in_]> portsByTag);
      Ok ((ls ++ rest)%list, derived, methods, portsByTag)
  end.

(** ** Outbounds and routing — [buildCoreOptions] *)

Definition implicitOutboundTagDirect : string := "direct-out".
Definition implicitOutboundTagBlock : string := "block-out".

Definition resolveOutboundTag (tag : string) : string :=
  if String.eqb tag "direct" then implicitOutboundTagDirect
  else if String.eqb tag "block" then implicitOutboundTagBlock else tag.

Definition buildOutboundTLS (ob : outboundDTO) (forceEnabled : bool) : option OutboundTLS :=
  if negb forceEnabled && negb (ob_TLSEnabled ob) then None
  else Some (mkOutboundTLS (ob_TLSServerName ob) (ob_TLSInsecure ob)).

Definition uint16 (z : Z) : Z := z mod 65536.

Definition leafOutboundOptions (ob : outboundDTO) (bind : string) : result string outboundOptions :=
  let server := mkServer (ob_Server ob) (uint16 (ob_ServerPort ob)) in
  let kind t := String.eqb (ob_Type ob) t in
  let pw := ob_Password ob in
  if kind "direct" then Ok (Direct bind)
  else if kind "socks" then Ok (SOCKS bind server (ob_Username ob) pw)
  else if kind "http" then Ok (HTTP bind server (ob_Username ob) pw)
  else if kind "shadowsocks" then Ok (Shadowsocks bind server (ob_Method ob) pw)
  else if kind "vmess" then Ok (VMess bind server (ob_UUID ob) (ob_Security ob) (buildOutboundTLS ob false))
  else if kind "trojan" then Ok (Trojan bind server pw (buildOutboundTLS ob false))
  else if kind "vless" then Ok (VLESS bind server (ob_UUID ob) (ob_Flow ob) (buildOutboundTLS ob false))
  else if kind "hysteria2" then Ok (Hysteria2Out bind server pw (buildOutboundTLS ob true))
  else if kind "tuic" then Ok (TUICOut bind server (ob_UUID ob) pw (ob_CongestionControl ob) (buildOutboundTLS ob true))
  else if kind "anytls" then Ok (AnyTLSOut bind server pw (buildOutboundTLS ob true))
  else if kind "hysteria" then Ok (Hysteria bind server (ob_Obfs ob) pw (ob_UpMbps ob) (ob_DownMbps ob) (buildOutboundTLS ob true))
  else if kind "shadowtls" then Ok (ShadowTLS bind server (ob_Version ob) pw (buildOutboundTLS ob true))
  else if kind "snell" then Ok (SnellOut bind server (ob_PSK ob) (ob_ObfsMode ob) (ob_ObfsHost ob))
  else if kind "ssh" then Ok (SSH bind server (ob_Username ob) pw)
  else if kind "tor" then Ok (Tor bind (ob_ExecutablePath ob) (ob_DataDirectory ob))
  else Err ("unknown outbound type: " ++ ob_Type ob).

Definition fallbackPrimarySuffix : string := "~wg".
Definition fallbackFallbackSuffix : string := "~direct".

(** The outbounds of one entry and, for one that falls back, its group. *)
Definition build_outbound (ob : outboundDTO) : result string (list Outbound * list FallbackGroup) :=
  let tag := ob_Tag ob in
  let one opts := [mkOutbound (ob_Type ob) tag opts] in
  if String.eqb (ob_Type ob) "block" then Ok (one Stub, [])
  else if String.eqb (ob_Type ob) "selector" then Ok (one (Selector (map resolveOutboundTag (ob_Outbounds ob)) "" false), [])
  else if String.eqb (ob_Type ob) "urltest" then Ok (one (URLTest (map resolveOutboundTag (ob_Outbounds ob))), [])
  else
    opts ← leafOutboundOptions ob (ob_BindInterface ob);
    if negb (ob_DirectFallback ob) || String.eqb (ob_BindInterface ob) "" then Ok (one opts, [])
    else
      plainOpts ← leafOutboundOptions ob "";
      let primary := tag ++ fallbackPrimarySuffix in
      let fallback := tag ++ fallbackFallbackSuffix in
      Ok ([mkOutbound (ob_Type ob) primary opts; mkOutbound (ob_Type ob) fallback plainOpts;
           mkOutbound "selector" tag (Selector [primary; fallback] primary true)],
          [mkGroup tag primary fallback (ob_BindInterface ob)]).

Fixpoint build_outbounds (obs : list outboundDTO) : result string (list Outbound * list FallbackGroup) :=
  match obs with
  | [] => Ok ([], [])
  | ob :: obs =>
      '(os, gs) ← build_outbound ob;
      '(os', gs') ← build_outbounds obs;
      Ok ((os ++ os')%list, (gs ++ gs')%list)
  end.

Definition allowed (ps : list Z) (p : Z) : bool := match ps with [] => true | _ => existsb (Z.eqb p) ps end.

(** The listener tags one inbound tag stands for under a port restriction. *)
Definition match_tags (ps : list Z) (portsByTag : gmap string (list Z)) (tag : string) : list string :=
  match portsByTag !! tag with
  | None => [tag]
  | Some [] => [tag]
  | Some [p] => if allowed ps p then [tag] else []
  | Some listenPorts => map (derivedInboundTag tag) (List.filter (allowed ps) listenPorts)
  end.

Definition inboundMatchTags (inbound : list string) (ps : list Z) (portsByTag : gmap string (list Z)) : list string :=
  flat_map (match_tags ps portsByTag) inbound.

Definition build_rule (portsByTag : gmap string (list Z)) (r : routingRuleDTO) : option Rule :=
  let route tags := Some (Route tags (ru_Domain r) (ru_DomainSuffix r) (ru_DomainKeyword r) (ru_IPCIDR r) (ru_IPIsPrivate r)
                            (map uint16 (ru_Port r)) (ru_PortRange r) (ru_Network r) (ru_Protocol r)
                            (resolveOutboundTag (ru_OutboundTag r))) in
  match ru_Inbound r with
  | [] => route []
  | inbound =>
      match inboundMatchTags inbound (ru_InboundPort r) portsByTag with
      | [] => None
      | tags => route tags
      end
  end.

Definition build_dns (s : dnsServerDTO) : result string DNSServer :=
  let kind t := String.eqb (dns_Type s) t in
  let port := uint16 (dns_Port s) in
  if kind "local" then Ok (LocalDNS (dns_Tag s))
  else if kind "udp" || kind "tcp" then Ok (RemoteDNS (dns_Type s) (dns_Tag s) (dns_Address s) port)
  else if kind "tls" then Ok (TLSDNS (dns_Tag s) (dns_Address s) port)
  else if kind "https" then Ok (HTTPSDNS (dns_Tag s) (dns_Address s) port (dns_Path s))
  else Err ("unknown dns server type: " ++ dns_Type s).

Fixpoint traverse {A B} (f : A -> result string B) (l : list A) : result string (list B) :=
  match l with [] => Ok [] | x :: l => y ← f x; ys ← traverse f l; Ok (y :: ys) end.

Definition implicit_outbounds : list Outbound :=
  [mkOutbound "direct" implicitOutboundTagDirect (Direct ""); mkOutbound "block" implicitOutboundTagBlock Stub].

Record coreOptions := mkCoreOptions {
  co_Outbounds : list Outbound; co_Rules : list Rule; co_DNS : option (list DNSServer); co_Level : string; co_Fallbacks : list FallbackGroup
}.

Definition buildCoreOptions (core : option coreSpec) (portsByTag : gmap string (list Z)) : result string coreOptions :=
  match core with
  | None => Ok (mkCoreOptions implicit_outbounds [] None "" [])
  | Some core =>
      '(os, gs) ← build_outbounds (default [] (cs_Outbounds core));
      let rules := ((if cs_SniffEnabled core then [Sniff] else []) ++
                    omap (build_rule portsByTag) (default [] (cs_RoutingRules core)))%list in
      dns ← match default [] (cs_DNSServers core) with
            | [] => Ok None
            | servers => ds ← traverse build_dns servers; Ok (Some ds)
            end;
      Ok (mkCoreOptions (implicit_outbounds ++ os)%list rules dns (cs_LogLevel core) gs)
  end.

Record startRequest := mkStart { s_Inbounds : list inboundSpec; s_Core : option coreSpec }.

Definition buildOptionsPlan (req : startRequest) : result string (Options * nodePlan) :=
  '(inbounds, derived, methods, portsByTag) ← build_inbounds (s_Inbounds req) ∅ ∅ ∅;
  core ← buildCoreOptions (s_Core req) portsByTag;
  Ok (mkOptions (co_Level core) (co_DNS core) inbounds (co_Outbounds core) implicitOutboundTagDirect (co_Rules core),
      mkPlan derived methods (co_Fallbacks core)).
End Plan.
End NodePlan.
