(* ===== verification/NodePlanProps.v ===== *)
(** * NodePlanProps: the options a node starts are the configuration it pulled

    [core_builds]: a core configuration the panel accepts can be built, and every outbound
    the options refer to is among them. [rules_match]: a routing rule that names inbounds
    matches exactly their listeners on the allowed ports and never widens. *)

From S2P Require Import Prelude GoStrings CoreDto CoreConfig NodeWire NodePlan.
Import NodeWire NodePlan.

#[local] Open Scope string_scope.
#[local] Open Scope Z_scope.

Module NodePlanProps.

(** ** What [build_inbounds] gives for a tag *)

Definition find_tag (t : string) (ins : list inboundSpec) : option inboundSpec := List.find (fun i => String.eqb (in_Tag i) t) ins.

Lemma find_tag_None t ins : find_tag t ins = None <-> ~ In t (map in_Tag ins).
Proof.
  unfold find_tag. induction ins as [|i ins IH]; [by split; [intros _ []|]|]. cbn [List.find map In].
  destruct (String.eqb_spec (in_Tag i) t) as [Ht|Hne]; [|rewrite IH; naive_solver]. split; [done|]. intros H. destruct H. by left.
Qed.

Lemma find_tag_Some t ins i : find_tag t ins = Some i -> In i ins /\ in_Tag i = t.
Proof. intros [Hi Ht]%find_some. by apply String.eqb_eq in Ht. Qed.

Lemma find_tag_In ins i : NoDup (map in_Tag ins) -> In i ins -> find_tag (in_Tag i) ins = Some i.
Proof.
  intros Hn Hi. induction ins as [|j ins IH]; [done|]. cbn in *. apply NoDup_cons in Hn as [Hj Hn].
  destruct Hi as [->|Hi]; [by rewrite String.eqb_refl|]. destruct (String.eqb_spec (in_Tag j) (in_Tag i)) as [E|_]; [|by apply IH].
  destruct Hj. rewrite E, list_elem_of_In. by apply in_map.
Qed.

Lemma find_tag_cons t i ins : find_tag t (i :: ins) = if String.eqb (in_Tag i) t then Some i else find_tag t ins.
Proof. done. Qed.

Lemma if_insert_ne {A} (b : bool) k t (x : A) (m : gmap string A) : k <> t -> (if b then <[k := x]> m else m) !! t = m !! t.
Proof. intros Hne. destruct b; [by rewrite lookup_insert_ne|done]. Qed.

Section Plan.
Context (shadowaead shadowaead_2022 : list string).
#[local] Abbreviation listeners := (listeners shadowaead shadowaead_2022).
#[local] Abbreviation build_inbounds := (build_inbounds shadowaead shadowaead_2022).
#[local] Abbreviation buildOptionsPlan := (buildOptionsPlan shadowaead shadowaead_2022).

(** What the three maps hold at [t]. *)
Record maps_ok (ins : list inboundSpec) (d d' : gmap string (list string)) (m m' : gmap string string)
    (pb pb' : gmap string (list Z)) (t : string) : Prop := {
  mk_derived : d' !! t = match find_tag t ins with
    | Some i => if multi i then Some (default [] (d !! t) ++ map (derivedInboundTag t) (ports i))%list else d !! t
    | None => d !! t end;
  mk_methods : m' !! t = match find_tag t ins with
    | Some i => if String.eqb (in_Protocol i) "shadowsocks" then Some (shadowsocksMethod (in_Users i)) else m !! t
    | None => m !! t end;
  mk_ports : pb' !! t = match find_tag t ins with Some i => Some (ports i) | None => pb !! t end
}.

Lemma build_inbounds_ok ins d m pb ls d' m' pb' : build_inbounds ins d m pb = Ok (ls, d', m', pb') -> NoDup (map in_Tag ins) ->
  (exists lss, Forall2 (fun i l => listeners i (listener_name i) (ports i) = Ok l) ins lss /\ ls = concat lss) /\
  forall t, maps_ok ins d d' m m' pb pb' t.
Proof.
  revert d m pb ls d' m' pb'. induction ins as [|i ins IH]; intros d m pb ls d' m' pb'; cbn [NodePlan.build_inbounds].
  { intros [= <- <- <- <-] _. split; [by exists []|]. intros t. by split. }
  intros (l & Hl & Hr)%result_bind_ok Hn. apply NoDup_cons in Hn as [Hi Hn]. rewrite list_elem_of_In in Hi.
  apply result_bind_ok in Hr as ([[[rest d1] m1] pb1] & Hr & [= <- <- <- <-]). destruct (IH _ _ _ _ _ _ _ Hr Hn) as [(lss & Hf & ->) Hm].
  split; [exists (l :: lss); split; [by constructor|done]|]. intros t. destruct (Hm t) as [H1 H2 H3].
  split; rewrite find_tag_cons; destruct (String.eqb_spec (in_Tag i) t) as [<-|Hne].
  - rewrite H1, (proj2 (find_tag_None _ _) Hi). destruct (multi i); [|done]. by rewrite lookup_insert_eq.
  - rewrite H1, if_insert_ne; done.
  - rewrite H2, (proj2 (find_tag_None _ _) Hi). destruct (String.eqb _ _); [|done]. by rewrite lookup_insert_eq.
  - rewrite H2, if_insert_ne; done.
  - rewrite H3, (proj2 (find_tag_None _ _) Hi). by rewrite lookup_insert_eq.
  - by rewrite H3, lookup_insert_ne.
Qed.
(** ** A rule that names inbounds matches their listeners *)

(** A tag of a configuration without the byte the listener tags are built with. *)
Definition plain_tag (t : string) : bool := str_forallb (fun c => negb (Ascii.eqb c "#"%char)) t.

Lemma derived_split t p : plain_tag t = true -> split_at "#" (derivedInboundTag t p) = t :: split_at "#" (Itoa p).
Proof. intros Ht. unfold derivedInboundTag. change ("#" ++ Itoa p) with (String "#" (Itoa p)). by apply split_at_app. Qed.

Lemma derived_not_plain t p : plain_tag t = true -> plain_tag (derivedInboundTag t p) = false.
Proof. intros Ht. unfold plain_tag, derivedInboundTag. by rewrite str_forallb_app, andb_comm. Qed.

Lemma derived_inj t p t' p' : plain_tag t = true -> plain_tag t' = true -> fits 64 p -> fits 64 p' ->
  derivedInboundTag t p = derivedInboundTag t' p' -> t = t' /\ p = p'.
Proof.
  intros Ht Ht' Hp Hp' E. assert (t = t') as <-.
  { pose proof (f_equal (split_at "#") E) as Es. rewrite !derived_split in Es by done. by injection Es. }
  split; [done|]. unfold derivedInboundTag in E. assert (Itoa p = Itoa p') as Ei.
  { apply (f_equal (sdrop (String.length t))) in E. rewrite !sdrop_app in E. by injection E. }
  apply (f_equal ParseInt) in Ei. rewrite !ParseInt_Itoa_int64 in Ei by done. by injection Ei.
Qed.

(** What sing-box makes of a rule's inbounds: none means any. *)
Definition reaches (r : option Rule) (listener : string) : bool :=
  match r with
  | Some (Route [] _ _ _ _ _ _ _ _ _ _) => true
  | Some (Route tags _ _ _ _ _ _ _ _ _ _) => str_mem listener tags
  | Some Sniff => true
  | None => false
  end.

(** What the rule says: the inbounds it names, on the ports it allows. *)
Definition meant (r : routingRuleDTO) (i : inboundSpec) (port : Z) : bool :=
  match ru_Inbound r with [] => true | named => str_mem (in_Tag i) named && allowed (ru_InboundPort r) port end.

Lemma reaches_build pb r l : reaches (build_rule pb r) l =
  match ru_Inbound r with [] => true | named => str_mem l (inboundMatchTags named (ru_InboundPort r) pb) end.
Proof. unfold build_rule. destruct (ru_Inbound r) as [|t ts]; [done|]. by destruct (inboundMatchTags (t :: ts) (ru_InboundPort r) pb). Qed.

Record proper_inbounds (ins : list inboundSpec) : Prop := {
  tags_distinct : NoDup (map in_Tag ins);
  tags_plain i : In i ins -> plain_tag (in_Tag i) = true;
  ports_fit i p : In i ins -> In p (ports i) -> fits 64 p
}.

Lemma ports_some i : ports i <> [].
Proof. unfold ports. by destruct (in_ListenPorts i). Qed.

(** The listener of one port of an inbound among the tags one name of a rule stands for. *)
Lemma match_tags_in ins (pb : gmap string (list Z)) ps t i port : proper_inbounds ins -> In i ins -> In port (ports i) ->
  (forall t, pb !! t = ports <$> find_tag t ins) -> plain_tag t = true ->
  In (listener_name i port) (match_tags ps pb t) <-> in_Tag i = t /\ allowed ps port = true.
Proof.
  intros [Hn Hp Hf] Hi Hport Hpb Ht. pose proof (Hp i Hi) as Hpi. unfold match_tags. rewrite Hpb.
  destruct (String.eqb_spec (in_Tag i) t) as [<-|Hne].
  - rewrite find_tag_In by done. cbn [fmap option_fmap option_map]. unfold listener_name, multi.
    destruct (ports i) as [|p [|q qs]] eqn:E; [by destruct (ports_some i)|..].
    + destruct Hport as [<-|[]]. cbn [length Nat.ltb Nat.leb]. destruct (allowed ps p); cbn; naive_solver.
    + change (1 <? length (p :: q :: qs))%nat with true. cbv iota. rewrite in_map_iff. split.
      * intros (x & Ex & Hx). apply filter_In in Hx as [Hx Ha].
        apply derived_inj in Ex as [_ ->]; try done; eapply Hf; rewrite ?E; eauto.
      * intros [_ Ha]. exists port. split; [done|]. by apply filter_In.
  - assert (forall q, listener_name i port <> t /\ (listener_name i port = derivedInboundTag t q -> fits 64 q -> False)) as Hno.
    { intros q. unfold listener_name. destruct (multi i); split; intros E.
      - apply (f_equal plain_tag) in E. rewrite derived_not_plain in E by done. congruence.
      - intros Hq. apply derived_inj in E as [E _]; try done. by eapply Hf.
      - done.
      - apply (f_equal plain_tag) in E. rewrite derived_not_plain in E by done. congruence. }
    split; [|by intros [? _]]. intros Hin. exfalso. destruct (find_tag t ins) as [j|] eqn:Ej; cbn in Hin.
    + apply find_tag_Some in Ej as [Hj Hjt]. destruct (ports j) as [|p [|q qs]] eqn:E.
      * destruct Hin as [E'|[]]. by destruct (Hno 0).
      * destruct (allowed ps p); [|done]. destruct Hin as [E'|[]]. by destruct (Hno 0).
      * apply in_map_iff in Hin as (x & Ex & [Hx _]%filter_In). destruct (Hno x) as [_ H]. apply H; [done|].
        eapply Hf; [exact Hj|]. by rewrite E.
    + destruct Hin as [E'|[]]. by destruct (Hno 0).
Qed.

(** a routing rule of the configuration a node builds decides on the listeners as the
    rule is meant: one that names no inbound on every listener, one that names some on
    exactly their listeners, on the ports it allows — also when those are none, where a
    rule without inbounds would match everything and the code drops it instead. The
    rules keep their order, after the sniffing one. *)
Theorem rules_match req opts plan core : buildOptionsPlan req = Ok (opts, plan) -> s_Core req = Some core ->
  proper_inbounds (s_Inbounds req) ->
  (forall r t, In r (default [] (cs_RoutingRules core)) -> In t (ru_Inbound r) -> plain_tag t = true) ->
  exists built, op_Rules opts = ((if cs_SniffEnabled core then [Sniff] else []) ++ omap id built)%list /\
    Forall2 (fun r o => forall i port, In i (s_Inbounds req) -> In port (ports i) ->
      reaches o (listener_name i port) = meant r i port) (default [] (cs_RoutingRules core)) built.
Proof.
  intros Hb Hc Hp Hr. unfold NodePlan.buildOptionsPlan in Hb.
  apply result_bind_ok in Hb as ([[[ls d] m] pb] & Hi & Hb). apply result_bind_ok in Hb as (co & Hco & [= <- <-]).
  apply build_inbounds_ok in Hi as [_ Hm]; [|apply Hp]. rewrite Hc in Hco. unfold buildCoreOptions in Hco.
  apply result_bind_ok in Hco as ([os gs] & _ & Hco). apply result_bind_ok in Hco as (dns & _ & [= <-]). cbn [op_Rules co_Rules].
  set (rs := default [] (cs_RoutingRules core)) in *. exists (map (build_rule pb) rs). split.
  { f_equal. clear. induction rs as [|r rs IH]; [done|]. cbn. destruct (build_rule pb r); [by f_equal|done]. }
  assert (forall t, pb !! t = ports <$> find_tag t (s_Inbounds req)) as Hpb.
  { intros t. rewrite (mk_ports _ _ _ _ _ _ _ _ (Hm t)). by destruct (find_tag t _). }
  apply Forall2_fmap_r, Forall_Forall2_diag, Forall_forall. intros r Hin%list_elem_of_In i port Hi Hport.
  rewrite reaches_build. unfold meant. destruct (ru_Inbound r) as [|t ts] eqn:E; [done|]. rewrite <- E.
  apply eq_bool_prop_intro. rewrite !Is_true_true, andb_true_iff, !str_mem_spec. unfold inboundMatchTags. rewrite in_flat_map. split.
  - intros (x & Hx & Hl). apply match_tags_in with (ins := s_Inbounds req) in Hl as [<- Ha]; try done. eapply Hr; eauto.
  - intros [Hx Ha]. exists (in_Tag i). split; [done|]. eapply match_tags_in; eauto.
Qed.
(** ** A configuration the panel accepts can be built *)

Import CoreConfig.Rules RulesProps.

(** The outbounds an outbound hands connections to. *)
Definition members (o : Outbound) : list string :=
  match o_Options o with Selector os _ _ | URLTest os => os | _ => [] end.

Lemma leaf_ok ob bind : In (ob_Type ob) validOutboundTypes ->
  str_mem (ob_Type ob) ["block"; "selector"; "urltest"] = false ->
  exists opts, leafOutboundOptions ob bind = Ok opts /\ forall type tag, members (mkOutbound type tag opts) = [].
Proof.
  intros Hin Hg. unfold leafOutboundOptions. set (kind := String.eqb (ob_Type ob)).
  assert (existsb kind validOutboundTypes = true) as Hk by (apply existsb_exists; exists (ob_Type ob); split; [done|apply String.eqb_refl]).
  unfold str_mem in Hg. fold kind in Hg. cbn in Hk, Hg. rewrite !orb_false_r in Hg, Hk.
  apply orb_false_iff in Hg as [Hb Hg]. apply orb_false_iff in Hg as [Hs Hu]. rewrite Hb, Hs, Hu in Hk. cbn in Hk.
  repeat match goal with |- exists _, (if kind ?t then _ else _) = _ /\ _ => destruct (kind t); [by eexists|] end. done.
Qed.

(** The tags an entry is built as: its own last. *)
Definition falls_back (ob : outboundDTO) : bool :=
  negb (str_mem (ob_Type ob) ["block"; "selector"; "urltest"]) && ob_DirectFallback ob && negb (String.eqb (ob_BindInterface ob) "").

Definition built_tags (ob : outboundDTO) : list string :=
  if falls_back ob then [ob_Tag ob ++ fallbackPrimarySuffix; ob_Tag ob ++ fallbackFallbackSuffix; ob_Tag ob] else [ob_Tag ob].

Lemma build_outbound_ok ob : In (ob_Type ob) validOutboundTypes -> exists os gs, build_outbound ob = Ok (os, gs) /\
  map o_Tag os = built_tags ob /\
  (forall o m, In o os -> In m (members o) -> In m (map resolveOutboundTag (ob_Outbounds ob)) \/ In m (built_tags ob)) /\
  gs = if falls_back ob then [mkGroup (ob_Tag ob) (ob_Tag ob ++ fallbackPrimarySuffix) (ob_Tag ob ++ fallbackFallbackSuffix) (ob_BindInterface ob)] else [].
Proof.
  intros Ht. unfold build_outbound, built_tags, falls_back, str_mem. cbn [existsb].
  destruct (String.eqb (ob_Type ob) "block") eqn:Eb; cbn [orb negb andb].
  { eexists _, _; split; [reflexivity|]; split; [done|]; split; [|done]. intros o m [<-|[]] []. }
  destruct (String.eqb (ob_Type ob) "selector") eqn:Es; cbn [orb negb andb].
  { eexists _, _; split; [reflexivity|]; split; [done|]; split; [|done]. intros o m [<-|[]] Hm. by left. }
  destruct (String.eqb (ob_Type ob) "urltest") eqn:Eu; cbn [orb negb andb].
  { eexists _, _; split; [reflexivity|]; split; [done|]; split; [|done]. intros o m [<-|[]] Hm. by left. }
  assert (str_mem (ob_Type ob) ["block"; "selector"; "urltest"] = false) as Hg by (unfold str_mem; cbn; by rewrite Eb, Es, Eu).
  destruct (leaf_ok ob (ob_BindInterface ob) Ht Hg) as (opts & Ho & Hm). destruct (leaf_ok ob "" Ht Hg) as (plain & Hp & Hm').
  rewrite Ho. cbn [mbind result_bind].
  destruct (ob_DirectFallback ob && negb (String.eqb (ob_BindInterface ob) "")) eqn:Ef.
  - apply andb_true_iff in Ef as [-> Ef]. apply negb_true_iff in Ef. rewrite Ef, Hp. cbn [mbind result_bind negb orb].
    eexists _, _; split; [reflexivity|]; split; [done|]; split; [|done].
    intros o m [<-|[<-|[<-|[]]]]; rewrite ?Hm, ?Hm'; [intros []..|]. cbn. intros Hin. right. tauto.
  - assert (negb (ob_DirectFallback ob) || String.eqb (ob_BindInterface ob) "" = true) as -> 
      by (revert Ef; destruct (ob_DirectFallback ob), (String.eqb (ob_BindInterface ob) ""); done).
    eexists _, _; split; [reflexivity|]; split; [done|]; split; [|done]. intros o m [<-|[]]. rewrite Hm. intros [].
Qed.

Definition groups_of (ob : outboundDTO) : list FallbackGroup :=
  if falls_back ob then [mkGroup (ob_Tag ob) (ob_Tag ob ++ fallbackPrimarySuffix) (ob_Tag ob ++ fallbackFallbackSuffix) (ob_BindInterface ob)] else [].

Lemma build_outbounds_ok obs : Forall (fun ob => In (ob_Type ob) validOutboundTypes) obs -> exists os,
  build_outbounds obs = Ok (os, flat_map groups_of obs) /\ map o_Tag os = flat_map built_tags obs /\
  (forall o m, In o os -> In m (members o) ->
    In m (map resolveOutboundTag (flat_map ob_Outbounds obs)) \/ In m (flat_map built_tags obs)).
Proof.
  induction 1 as [|ob obs Ht _ (os' & Hb' & Ht' & Hm')]; [by exists []|]. destruct (build_outbound_ok ob Ht) as (os & gs & Hb & Htg & Hm & ->).
  exists (os ++ os')%list. cbn [build_outbounds flat_map]. rewrite Hb, Hb', !map_app, Htg, Ht'. split_and!; [done..|].
  intros o m [Ho|Ho]%in_app_iff Hin; rewrite !in_app_iff; [destruct (Hm _ _ Ho Hin)|destruct (Hm' _ _ Ho Hin)]; tauto.
Qed.

Lemma build_dns_ok servers : Forall (fun s => In (dns_Type s) validDNSTypes) servers -> exists ds, traverse build_dns servers = Ok ds.
Proof.
  induction 1 as [|s servers Hs _ [ds IH]]; [by exists []|]. cbn [traverse]. rewrite IH.
  assert (exists d, build_dns s = Ok d) as [d ->]; [|by exists (d :: ds)]. unfold build_dns. cbn in Hs.
  repeat destruct Hs as [Hs|Hs]; rewrite <- ?Hs; [by eexists..|done].
Qed.

Lemma check_dns_types tags servers : check_dns tags servers = Ok tt -> Forall (fun s => In (dns_Type s) validDNSTypes) servers.
Proof.
  revert tags. induction servers as [|s servers IH]; intros tags; cbn [check_dns]; [constructor|].
  rewrite !bind_tt, !rule_ensure_ok. intros (_ & _ & Ht & _ & H). constructor; [by apply str_mem_spec|by eapply IH].
Qed.

(** The tags an administrator gave leave alone those the builder makes up. *)
Definition no_clash (obs : list outboundDTO) : Prop := forall ob, In ob obs ->
  ~ In (ob_Tag ob) [implicitOutboundTagDirect; implicitOutboundTagBlock] /\
  forall ob', In ob' obs -> falls_back ob' = true ->
    ob_Tag ob <> ob_Tag ob' ++ fallbackPrimarySuffix /\ ob_Tag ob <> ob_Tag ob' ++ fallbackFallbackSuffix.

Lemma built_tags_inv ob t : In t (built_tags ob) -> t = ob_Tag ob \/
  falls_back ob = true /\ (t = ob_Tag ob ++ fallbackPrimarySuffix \/ t = ob_Tag ob ++ fallbackFallbackSuffix).
Proof. unfold built_tags. destruct (falls_back ob); cbn; naive_solver. Qed.

Lemma suffix_inj a b p : a ++ p = b ++ p -> a = b.
Proof.
  intros E. assert (String.length a = String.length b) as Hl by (apply (f_equal String.length) in E; rewrite !str_length_app in E; lia).
  apply (f_equal (stake (String.length a))) in E. rewrite stake_app, Hl, stake_app in E. done.
Qed.

Lemma suffixes_differ a b : a ++ fallbackPrimarySuffix <> b ++ fallbackFallbackSuffix.
Proof.
  intros E. change fallbackPrimarySuffix with ("~w" ++ "g") in E. change fallbackFallbackSuffix with ("~direc" ++ "t") in E.
  rewrite !str_app_assoc in E. by apply str_snoc_inj in E as [_ E].
Qed.

Lemma built_shared obs ob ob' t : no_clash obs -> In ob obs -> In ob' obs -> In t (built_tags ob) -> In t (built_tags ob') ->
  ob_Tag ob = ob_Tag ob'.
Proof.
  intros Hc H1 H2 [->|[F1 T1]]%built_tags_inv [E|[F2 T2]]%built_tags_inv; [done|..].
  - destruct (Hc ob H1) as [_ H]. destruct (H ob' H2 F2) as [Ha Hb]. by destruct T2.
  - destruct (Hc ob' H2) as [_ H]. destruct (H ob H1 F1) as [Ha Hb]. subst t. by destruct T1.
  - destruct T1 as [->| ->], T2 as [E|E].
    + by apply suffix_inj in E.
    + by apply suffixes_differ in E.
    + symmetry in E. by apply suffixes_differ in E.
    + by apply suffix_inj in E.
Qed.

Lemma built_one ob : NoDup (built_tags ob).
Proof.
  unfold built_tags. destruct (falls_back ob); [|apply NoDup_singleton].
  assert (forall p, p <> "" -> ob_Tag ob ++ p <> ob_Tag ob) as Hne.
  { intros p Hp E. apply (f_equal String.length) in E. rewrite str_length_app in E. destruct p; [done|cbn in E; lia]. }
  rewrite !NoDup_cons, !not_elem_of_cons. split_and!; try apply NoDup_nil_2; try apply not_elem_of_nil.
  - apply suffixes_differ.
  - by apply Hne.
  - by apply Hne.
Qed.

Lemma built_NoDup obs : no_clash obs -> NoDup (map ob_Tag obs) -> NoDup (flat_map built_tags obs).
Proof.
  intros Hc Hn. assert (forall o, incl o obs -> NoDup (map ob_Tag o) -> NoDup (flat_map built_tags o)) as H; [|by apply H; [apply incl_refl|]].
  clear Hn. intros o. induction o as [|ob o IH]; intros Hi Hn; [constructor|]. cbn in Hn |- *. apply NoDup_cons in Hn as [Hin Hn].
  apply NoDup_app. split_and!; [apply built_one| |apply IH; [|done]; intros x Hx; apply Hi; by right].
  intros t Ht Ht'. apply list_elem_of_In in Ht, Ht'. apply in_flat_map in Ht' as (ob' & Hob' & Ht').
  apply Hin, list_elem_of_In, in_map_iff. exists ob'. split; [|done]. symmetry.
  eapply built_shared; [exact Hc|apply Hi; by left|apply Hi; by right|done|done].
Qed.

Lemma resolved_built obs t : In t (implicitOutboundTags ++ map ob_Tag obs) ->
  In (resolveOutboundTag t) (map o_Tag implicit_outbounds ++ flat_map built_tags obs).
Proof.
  unfold resolveOutboundTag. destruct (String.eqb_spec t "direct"); [by left|]. destruct (String.eqb_spec t "block"); [by right; left|].
  rewrite !in_app_iff. intros [[<-|[<-|[]]]|(ob & <- & Hob)%in_map_iff]; [done..|]. right. apply in_flat_map. exists ob. split; [done|].
  unfold built_tags. destruct (falls_back ob); cbn; tauto.
Qed.

Lemma all_NoDup obs : no_clash obs -> NoDup (map ob_Tag obs) -> NoDup (map o_Tag implicit_outbounds ++ flat_map built_tags obs).
Proof.
  intros Hc Hn. apply NoDup_app. split_and!; [|intros t Ht Hin|by apply built_NoDup].
  { apply NoDup_ListNoDup. repeat constructor; cbn; naive_solver. }
  apply list_elem_of_In, in_flat_map in Hin as (ob & Hob & [->|[_ E]]%built_tags_inv).
  { apply list_elem_of_In in Ht. by destruct (Hc ob Hob) as [H _]. }
  assert (forall p, t = ob_Tag ob ++ p -> HasSuffix t p = true) as Hs by (intros p ->; apply HasSuffix_app).
  apply list_elem_of_In in Ht. destruct Ht as [<-|[<-|[]]], E as [E|E]; by apply Hs in E.
Qed.

(** C29: a core configuration the panel's validation accepts is one a node can build, for
    any inbounds: every member of a group and every rule names an outbound that is built,
    as does the final route, and every fallback group's three outbounds are built. The
    tags are distinct unless an administrator's own tag is one the builder makes up. *)
Theorem core_builds c pb : validateCoreConfig c = Ok tt -> exists co, buildCoreOptions (Some (core_of c)) pb = Ok co /\
  let tags := map o_Tag (co_Outbounds co) in
  In implicitOutboundTagDirect tags /\
  (forall o m, In o (co_Outbounds co) -> In m (members o) -> In m tags) /\
  (forall inb d ds dk ip pr po ra ne prot out, In (Route inb d ds dk ip pr po ra ne prot out) (co_Rules co) -> In out tags) /\
  (forall g, In g (co_Fallbacks co) -> incl [g_Group g; g_Primary g; g_Fallback g] tags) /\
  (no_clash (elems (Outbounds c)) -> NoDup tags).
Proof.
  intros Hv. pose proof (validate_consistent c Hv) as Hc. set (obs := elems (Outbounds c)).
  destruct (build_outbounds_ok obs) as (os & Hb & Ht & Hm); [apply Forall_forall; intros ob Hob%list_elem_of_In; by apply Hc|].
  destruct (build_dns_ok (elems (DNSServers c))) as (ds & Hd).
  { unfold validateCoreConfig in Hv. rewrite bind_tt in Hv. destruct Hv as [_ Hv]. apply result_bind_ok in Hv as (tags & _ & Hv).
    rewrite !bind_tt in Hv. destruct Hv as (_ & _ & Hv). by eapply check_dns_types. }
  unfold buildCoreOptions. cbn [core_of cs_Outbounds cs_DNSServers cs_SniffEnabled cs_RoutingRules cs_LogLevel].
  change (default [] (Outbounds c)) with obs. rewrite Hb. cbn [mbind result_bind].
  set (dns := match default [] (DNSServers c) with [] => _ | _ => _ end). assert (exists x, dns = Ok x) as [x Hx].
  { subst dns. change (default [] (DNSServers c)) with (elems (DNSServers c)).
    destruct (elems (DNSServers c)); [by eexists|]. rewrite Hd. by eexists. }
  rewrite Hx. cbn [mbind result_bind]. eexists. split; [done|]. cbn [co_Outbounds co_Rules co_Fallbacks]. rewrite map_app, Ht.
  set (tags := (map o_Tag implicit_outbounds ++ flat_map built_tags obs)%list).
  assert (forall t, In t (implicitOutboundTags ++ map ob_Tag obs) -> In (resolveOutboundTag t) tags) as Hres.
  { intros t Hin. apply resolved_built. exact Hin. }
  split_and!; [by left|..].
  - intros o m [Ho|Ho]%in_app_iff Hin; [by destruct Ho as [<-|[<-|[]]]|].
    destruct (Hm _ _ Ho Hin) as [H|H]; [|by apply in_app_iff; right].
    apply in_map_iff in H as (m' & <- & Hm'). apply in_flat_map in Hm' as (ob & Hob & Hm'). apply Hres. by eapply members_exist.
  - intros * [Hin|Hin]%in_app_iff; [by destruct (SniffEnabled c); [destruct Hin as [[=]|[]]|]|].
    apply list_elem_of_In, list_elem_of_omap in Hin as (r & Hr & Hbr). apply list_elem_of_In in Hr. 
    assert (out = resolveOutboundTag (ru_OutboundTag r)) as ->.
    { revert Hbr. unfold build_rule. destruct (ru_Inbound r) as [|t ts]; [by intros [= ]|].
      destruct (inboundMatchTags _ _ _); [done|by intros [= ]]. }
    apply Hres. by eapply targets_exist.
  - intros g (ob & Hob & Hg)%in_flat_map. unfold groups_of in Hg. destruct (falls_back ob) eqn:Ef; [|done]. destruct Hg as [<-|[]].
    cbn [g_Group g_Primary g_Fallback]. intros t Hin. apply in_app_iff. right. apply in_flat_map. exists ob. split; [done|].
    unfold built_tags. rewrite Ef. cbn in *. tauto.
  - intros Hn. apply all_NoDup; [done|]. apply Hc.
Qed.
End Plan.

(** ** Concrete inputs *)

Import CoreConfig.Rules.

Definition demo_ciphers : list string := ["aes-128-gcm"; "aes-256-gcm"; "chacha20-ietf-poly1305"].

Definition demo_spec (tag protocol : string) (ports : list Z) (users : list userSpec) : inboundSpec :=
  mkSpec tag protocol (hd 0 ports) (match ports with [_] => [] | _ => ports end) users None None "" 0 0 "" false "" "".

Definition demo_out (tag type bind : string) (fallback : bool) (members : list string) : outboundDTO :=
  CoreDto.mkOutbound tag type "" 0 "" "" members "" "" "" "" "" 0 "" "" "" "" 0 0 "" "" false "" false bind fallback.

Definition demo_rule (inbound : list string) (ports : list Z) (target : string) : routingRuleDTO :=
  mkRule inbound ports [] [] [] [] false [] [] [] [] target.

Definition demo_ins : list inboundSpec := [demo_spec "web" "vless" [443; 8443] []; demo_spec "ss" "shadowsocks" [8388] []].

(** Three rules: one for a port of the first inbound, one for a port no inbound has, one for all. *)
Definition demo_core : coreConfigDTO :=
  mkCore "warn" true (Some [demo_out "wg" "direct" "wg0" true []; demo_out "pick" "selector" "" false ["wg"; "direct"]])
    (Some [demo_rule ["web"] [8443] "wg"; demo_rule ["ss"; "web"] [9999] "block"; demo_rule [] [] "pick"]) None None.

Definition demo_request : startRequest := mkStart demo_ins (Some (core_of demo_core)).

Example demo_rules : exists opts plan, buildOptionsPlan demo_ciphers [] demo_request = Ok (opts, plan) /\
  map ib_Tag (op_Inbounds opts) = ["web#443"; "web#8443"; "ss"] /\
  map o_Tag (op_Outbounds opts) = ["direct-out"; "block-out"; "wg~wg"; "wg~direct"; "wg"; "pick"] /\
  op_Rules opts = [Sniff; Route ["web#8443"] [] [] [] [] false [] [] [] [] "wg"; Route [] [] [] [] [] false [] [] [] [] "pick"].
Proof. by do 2 eexists. Qed.

Lemma demo_proper : proper_inbounds demo_ins.
Proof.
  split.
  - apply NoDup_ListNoDup. repeat constructor; cbn; naive_solver.
  - intros i [<-|[<-|[]]]; reflexivity.
  - intros i p [<-|[<-|[]]]; cbn; intros H; destruct_or?; subst; try done; by apply bool_decide_unpack.
Qed.

(** The theorem at that request. *)
Lemma rules_match_witness : exists opts plan built, buildOptionsPlan demo_ciphers [] demo_request = Ok (opts, plan) /\
  op_Rules opts = ([Sniff] ++ omap id built)%list /\
  Forall2 (fun r o => forall i port, In i demo_ins -> In port (ports i) -> reaches o (listener_name i port) = meant r i port)
    (default [] (cs_RoutingRules (core_of demo_core))) built.
Proof.
  refine (ex_intro _ _ (ex_intro _ _ _)).
  refine (match rules_match demo_ciphers [] demo_request _ _ (core_of demo_core) eq_refl eq_refl demo_proper _ with
    | ex_intro _ built (conj H1 H2) => ex_intro _ built (conj eq_refl (conj H1 H2)) end).
  intros r t [<-|[<-|[<-|[]]]] Ht; cbn in Ht; destruct_or?; subst; done.
Defined.

Lemma core_builds_witness : validateCoreConfig demo_core = Ok tt /\ exists co,
  buildCoreOptions (Some (core_of demo_core)) ∅ = Ok co /\ In implicitOutboundTagDirect (map o_Tag (co_Outbounds co)).
Proof.
  split; [reflexivity|].
  exact (match core_builds demo_core ∅ eq_refl with ex_intro _ co (conj H1 (conj H2 _)) => ex_intro _ co (conj H1 H2) end).
Defined.

(** A tag the builder makes up can be an administrator's: the panel accepts the
    configuration, and the node builds two outbounds of one tag. *)
Example outbound_tags_collide :
  let c := mkCore "" false (Some [demo_out "x" "direct" "wg0" true []; demo_out "x~wg" "direct" "" false []; demo_out "direct-out" "block" "" false []])
             None None None in
  validateCoreConfig c = Ok tt /\
  exists co, buildCoreOptions (Some (core_of c)) ∅ = Ok co /\
    map o_Tag (co_Outbounds co) = ["direct-out"; "block-out"; "x~wg"; "x~direct"; "x"; "x~wg"; "direct-out"].
Proof. split; [done|]. by eexists. Qed.

(** So can the tag of a listener: nothing keeps [#] out of an inbound's tag. *)
Example listener_tags_collide : exists opts plan,
  buildOptionsPlan demo_ciphers [] (mkStart [demo_spec "a" "vless" [443; 8443] []; demo_spec "a#443" "vmess" [80] []] None) = Ok (opts, plan) /\
  map ib_Tag (op_Inbounds opts) = ["a#443"; "a#8443"; "a#443"].
Proof. by do 2 eexists. Qed.
End NodePlanProps.
