(* ===== verification/NodeSync.v ===== *)
(** * NodeSync: the node program's control of its core — [cmd/node/main.go]

    The server holds at most one running core. It is driven by the panel's calls
    ([handleStart], [handleStop], [handleUpdateUsers]) and by the sync loop, which pushes
    the bytes counted ([pushOnce]) and pulls the configuration ([pullOnce]), applying a
    change of users on the running listeners and anything else by a restart
    ([diffPulledConfig]). Every critical section under [server.mu] is one function here;
    [pullOnce] has two, around its request. What sing-box does is an argument: whether a
    core starts and closes cleanly, and which user lists its services take.

    A core is the options it was started with and the user lists given to its listeners
    since. A nil and an empty slice are one list here. *)

From S2P Require Import Prelude GoStrings GoJson CoreDto CoreConfig NodeWire NodePlan NodeConfigCache Traffic.
Import NodeWire NodePlan.

#[local] Open Scope string_scope.
#[local] Open Scope Z_scope.

#[export] Instance outboundDTO_eq : EqDecision outboundDTO := ltac:(solve_decision).
#[export] Instance routingRuleDTO_eq : EqDecision routingRuleDTO := ltac:(solve_decision).
#[export] Instance dnsServerDTO_eq : EqDecision dnsServerDTO := ltac:(solve_decision).
#[export] Instance coreSpec_eq : EqDecision coreSpec := ltac:(solve_decision).
#[export] Instance userSpec_eq : EqDecision userSpec := ltac:(solve_decision).
#[export] Instance handshake_eq : EqDecision handshake := ltac:(solve_decision).
#[export] Instance realitySpec_eq : EqDecision realitySpec := ltac:(solve_decision).
#[export] Instance tlsSpec_eq : EqDecision tlsSpec := ltac:(solve_decision).
#[export] Instance transportSpec_eq : EqDecision transportSpec := ltac:(solve_decision).
#[export] Instance inboundSpec_eq : EqDecision inboundSpec := ltac:(solve_decision).

(** ** [internal/nodecore] *)

Module Core.

Record User := mkUser { Name : string; UUID : string; Password : string; Flow : string; UserKey : string }.

Record Node := mkNode { n_Options : Options; n_users : gmap string (list user) }.

Definition New (opts : Options) : Node := mkNode opts ∅.

(** The conversions of [UpdateUsers], one per case of its switch. *)
Definition convert (protocol : string) (u : User) : option user :=
  if String.eqb protocol "vless" then Some (VLESSUser (Name u) (UUID u) (Flow u))
  else if String.eqb protocol "vmess" then Some (VMessUser (Name u) (UUID u))
  else if String.eqb protocol "trojan" then Some (TrojanUser (Name u) (Password u))
  else if String.eqb protocol "shadowsocks" then Some (ShadowsocksUser (Name u) (Password u))
  else if String.eqb protocol "hysteria2" then Some (Hysteria2User (Name u) (Password u))
  else if String.eqb protocol "tuic" then Some (TUICUser (Name u) (UUID u) (Password u))
  else if String.eqb protocol "snell" then Some (SnellUser (Name u) (UserKey u))
  else if String.eqb protocol "anytls" then Some (AnyTLSUser (Name u) (Password u))
  else None.

Definition mapUsers (protocol : string) (us : list User) : list user := omap (convert protocol) us.

Section Services.
(** [uuid.FromString] succeeds; the protocol's service takes a user list. *)
Context (uuid_ok : string -> bool) (service : string -> list user -> bool).

Fixpoint tuic_users (us : list user) : result string unit :=
  match us with
  | [] => Ok tt
  | TUICUser _ uuid _ :: us =>
      if String.eqb uuid "" then Err "missing uuid" else if negb (uuid_ok uuid) then Err "invalid uuid" else tuic_users us
  | _ :: us => tuic_users us
  end.

Fixpoint snell_users (us : list user) : result string unit :=
  match us with
  | [] => Ok tt
  | SnellUser _ key :: us => if String.eqb key "" then Err "snell: missing userkey" else snell_users us
  | _ :: us => snell_users us
  end.

(** [UpdateUsers] of the forked inbounds. VLESS, Hysteria2 and AnyTLS take any list; Snell
    stands in a key nobody has for an empty one. *)
Definition inbound_UpdateUsers (protocol : string) (us : list user) : result string unit :=
  let taken := if service protocol us then Ok tt else Err "refused by the service" in
  if str_mem protocol ["vless"; "hysteria2"; "anytls"] then Ok tt
  else if String.eqb protocol "tuic" then tuic_users us
  else if String.eqb protocol "snell" then _ ← snell_users us; taken
  else taken.

Definition Inbound_Get (n : Node) (tag : string) : option Inbound :=
  List.find (fun ib => String.eqb (ib_Tag ib) tag) (op_Inbounds (n_Options n)).

Definition UpdateUsers (tag protocol : string) (users : list User) (n : Node) : result string Node :=
  if negb (str_mem protocol ["vless"; "vmess"; "trojan"; "shadowsocks"; "hysteria2"; "tuic"; "snell"; "anytls"])
  then Err ("nodecore: unsupported protocol " ++ protocol)
  else match Inbound_Get n tag with
       | None => Err ("nodecore: no running inbound tagged " ++ tag)
       | Some ib =>
           if negb (String.eqb (ib_Type ib) protocol) then Err ("nodecore: inbound " ++ tag ++ " is not a " ++ protocol ++ " inbound")
           else _ ← inbound_UpdateUsers protocol (mapUsers protocol users);
                Ok (mkNode (n_Options n) (<[tag := mapUsers protocol users]> (n_users n)))
       end.
End Services.

(** What is running: each listener with the users it has now. *)
Definition with_users (ib : Inbound) (us : list user) : Inbound :=
  mkInbound (ib_Type ib) (ib_Tag ib) (ib_Port ib) us (ib_TLS ib) (ib_Transport ib) (ib_Particular ib).

Definition serving (n : Node) : list Inbound :=
  map (fun ib => with_users ib (default (ib_Users ib) (n_users n !! ib_Tag ib))) (op_Inbounds (n_Options n)).
End Core.

(** ** The server *)

Module Sync.
Import Core.

(** [s_watched] is what the tunnel monitor was told to watch, [s_supervised] the groups of
    the running fallback supervisor, which is cleared with its cancel function. *)
Record server := mkServer {
  s_node : option Node; s_plan : nodePlan; s_lastPulled : option pulledConfig;
  s_watched : list string; s_supervised : option (list FallbackGroup);
  s_traffic : Usage.Manager; s_presence : Presence.Manager
}.

Definition no_plan : nodePlan := mkPlan ∅ ∅ [].

Definition boot : server := mkServer None no_plan None [] None Usage.NewManager Presence.NewManager.

Definition set_node (n : option Node) (s : server) : server :=
  mkServer n (s_plan s) (s_lastPulled s) (s_watched s) (s_supervised s) (s_traffic s) (s_presence s).
Definition set_lastPulled (c : option pulledConfig) (s : server) : server :=
  mkServer (s_node s) (s_plan s) c (s_watched s) (s_supervised s) (s_traffic s) (s_presence s).

(** [close_err]: closing the box reports an error. *)
Definition stopNodeLocked (close_err : bool) (s : server) : server * bool :=
  match s_node s with
  | None => (mkServer None no_plan (s_lastPulled s) [] None (s_traffic s) (s_presence s), false)
  | Some _ => (mkServer None no_plan (s_lastPulled s) [] None (s_traffic s) (Presence.ResetPresence (s_presence s)), close_err)
  end.

Definition startSupervisorLocked (plan : nodePlan) (s : server) : server :=
  mkServer (s_node s) (s_plan s) (s_lastPulled s) (watchedInterfaces plan)
    (match fallbacks plan with [] => s_supervised s | gs => Some gs end) (s_traffic s) (s_presence s).

Section Server.
Context (shadowaead shadowaead_2022 : list string) (uuid_ok : string -> bool) (service : string -> list user -> bool).
#[local] Abbreviation buildOptionsPlan := (buildOptionsPlan shadowaead shadowaead_2022).
#[local] Abbreviation UpdateUsers := (UpdateUsers uuid_ok service).

(** [starts]: sing-box builds and starts these options now. *)
Definition startNodeLocked (starts : Options -> bool) (req : startRequest) (s : server) : result string server :=
  '(opts, plan) ← buildOptionsPlan req;
  if negb (starts opts) then Err "nodecore: does not start"
  else Ok (startSupervisorLocked plan
         (mkServer (Some (New opts)) plan (s_lastPulled s) (s_watched s) (s_supervised s) (s_traffic s) (s_presence s))).

Definition pointer_core : Codec (option coreSpec) := pointer_codec.

Definition start_of_json (j : json) : option startRequest :=
  read_object (fun ms =>
    inbounds ← get_from "inbounds" (Some []) ms;
    core ← @get_from _ pointer_core "core" (Some None) ms;
    Some (mkStart inbounds core)) j (mkStart [] None).

Record updateUsersRequest := mkUpdate { u_Protocol : string; u_Users : list userSpec }.

Definition update_of_json (j : json) : option updateUsersRequest :=
  read_object (fun ms =>
    protocol ← get_from "protocol" (Some "") ms;
    users ← get_from "users" (Some []) ms;
    Some (mkUpdate protocol users)) j (mkUpdate "" []).

Definition decoded {A} (f : json -> option A) (body : string) : option A := '(j, _) ← decode_value body; f j.

(** The handlers answer a status. *)
Definition handleStart (starts : Options -> bool) (body : string) (s : server) : Z * server :=
  match decoded start_of_json body with
  | None => (422, s)
  | Some req =>
      if negb (is_ok (buildOptionsPlan req)) then (422, s)
      else match s_node s with
           | Some _ => (409, s)
           | None => match startNodeLocked starts req s with Ok s' => (200, s') | Err _ => (500, s) end
           end
  end.

Definition handleStop (close_err : bool) (s : server) : Z * server :=
  match s_node s with
  | None => (200, s)
  | Some _ => let '(s, failed) := stopNodeLocked close_err s in (if failed then 500 else 200, s)
  end.

Definition nodeUser (u : userSpec) : User := mkUser (us_Name u) (us_UUID u) (us_Password u) (us_Flow u) (us_UserKey u).
Definition nodeUsers (us : list userSpec) : list User := map nodeUser us.

(** Stops at the first listener that fails; those before it are updated. *)
Fixpoint update_until (listeners : list string) (protocol : string) (users : list User) (n : Node) : Node * bool :=
  match listeners with
  | [] => (n, true)
  | l :: ls => match UpdateUsers l protocol users n with Ok n => update_until ls protocol users n | Err _ => (n, false) end
  end.

Definition handleUpdateUsers (tag body : string) (s : server) : Z * server :=
  match decoded update_of_json body with
  | None => (422, s)
  | Some req =>
      match s_node s with
      | None => (409, s)
      | Some n =>
          if negb (hotUpdatableProtocol (u_Protocol req)) then (422, s)
          else if String.eqb (u_Protocol req) "shadowsocks" && negb (bool_decide (u_Users req = [])) &&
                  match shadowsocksMethods (s_plan s) !! tag with
                  | Some running => negb (String.eqb (shadowsocksMethod (u_Users req)) running)
                  | None => false
                  end then (409, s)
          else let '(n, ok) := update_until (listenerTags (s_plan s) tag) (u_Protocol req) (nodeUsers (u_Users req)) n in
               (if ok then 200 else 422, set_node (Some n) s)
      end
  end.

(** ** The pull *)

Definition clear_users (in_ : inboundSpec) : inboundSpec :=
  mkSpec (in_Tag in_) (in_Protocol in_) (in_ListenPort in_) (in_ListenPorts in_) [] (in_TLS in_) (in_Transport in_)
    (in_Hysteria2ObfsPassword in_) (in_UpMbps in_) (in_DownMbps in_) (in_CongestionControl in_) (in_ZeroRTTHandshake in_)
    (in_SnellPSK in_) (in_SnellV6Mode in_).

Record userUpdate := mkUpd { up_Tag : string; up_Protocol : string }.

(** [map[string]inboundSpec] filled in order: of one tag the last stays. *)
Definition by_tag (ins : list inboundSpec) : gmap string inboundSpec := foldl (fun m in_ => <[in_Tag in_ := in_]> m) ∅ ins.

(** The loop of [diffPulledConfig]; [None] asks for a restart. *)
Fixpoint diff_inbounds (oldByTag : gmap string inboundSpec) (ins : list inboundSpec) : option (list userUpdate) :=
  match ins with
  | [] => Some []
  | in_ :: ins =>
      oldIn ← oldByTag !! in_Tag in_;
      if negb (bool_decide (clear_users oldIn = clear_users in_)) then None
      else if bool_decide (in_Users oldIn = in_Users in_) then diff_inbounds oldByTag ins
      else if negb (hotUpdatableProtocol (in_Protocol in_)) then None
      else if String.eqb (in_Protocol in_) "shadowsocks" &&
              negb (String.eqb (shadowsocksMethod (in_Users oldIn)) (shadowsocksMethod (in_Users in_))) then None
      else hot ← diff_inbounds oldByTag ins; Some (mkUpd (in_Tag in_) (in_Protocol in_) :: hot)
  end.

(** [None] is [needsRestart]. *)
Definition diffPulledConfig (old : option pulledConfig) (next : pulledConfig) : option (list userUpdate) :=
  old ← old;
  if negb (bool_decide (p_Core old = p_Core next)) then None
  else let oldByTag := by_tag (p_Inbounds old) in
       if negb (size oldByTag =? length (p_Inbounds next))%nat then None else diff_inbounds oldByTag (p_Inbounds next).

Definition no_inbounds (c : pulledConfig) : bool := bool_decide (p_Inbounds c = []).

Definition runningLastPulledLocked (s : server) : option pulledConfig :=
  c ← s_lastPulled s; if bool_decide (is_Some (s_node s)) || no_inbounds c then Some c else None.

(** The first critical section: the value of [If-None-Match]. *)
Definition quote (v : string) : string := String quote_byte (v ++ String quote_byte "").
Definition pull_header (s : server) : string :=
  match runningLastPulledLocked s with Some c => quote (p_Version c) | None => "" end.

Definition request_of (c : pulledConfig) : startRequest := mkStart (p_Inbounds c) (Some (p_Core c)).

Definition applyFullLocked (starts : Options -> bool) (close_err : bool) (pulled : pulledConfig) (s : server) : server :=
  let s := (stopNodeLocked close_err s).1 in
  match startNodeLocked starts (request_of pulled) s with
  | Ok s => set_lastPulled (Some pulled) s
  | Err _ => s
  end.

(** One inbound's listeners: every one is tried. *)
Fixpoint update_all (listeners : list string) (protocol : string) (users : list User) (n : Node) : Node * bool :=
  match listeners with
  | [] => (n, true)
  | l :: ls =>
      match UpdateUsers l protocol users n with
      | Ok n => update_all ls protocol users n
      | Err _ => ((update_all ls protocol users n).1, false)
      end
  end.

Fixpoint apply_hot (plan : nodePlan) (byTag : gmap string inboundSpec) (hot : list userUpdate) (n : Node) : Node * bool :=
  match hot with
  | [] => (n, true)
  | u :: hot =>
      let users := nodeUsers (default [] (in_Users <$> byTag !! up_Tag u)) in
      let '(n, applied) := update_all (listenerTags plan (up_Tag u)) (up_Protocol u) users n in
      let '(n, rest) := apply_hot plan byTag hot n in (n, applied && rest)
  end.

(** The second critical section, with what was pulled. *)
Definition apply_change (starts : Options -> bool) (close_err : bool) (pulled : pulledConfig) (s : server) : server :=
  match s_node s with
  | None => if no_inbounds pulled then set_lastPulled (Some pulled) s else applyFullLocked starts close_err pulled s
  | Some n =>
      match diffPulledConfig (s_lastPulled s) pulled with
      | None => applyFullLocked starts close_err pulled s
      | Some hot =>
          let '(n, ok) := apply_hot (s_plan s) (by_tag (p_Inbounds pulled)) hot n in
          let s := set_node (Some n) s in
          if ok then set_lastPulled (Some pulled) s else s
      end
  end.

Definition pull_apply (starts : Options -> bool) (close_err : bool) (pulled : pulledConfig) (s : server) : server :=
  match runningLastPulledLocked s with
  | Some c => if String.eqb (p_Version c) (p_Version pulled) then s else apply_change starts close_err pulled s
  | None => apply_change starts close_err pulled s
  end.

(** [pullOnce] from its answer on; [None] when there is none, or one of another status. *)
Definition pull_answer (starts : Options -> bool) (close_err : bool) (a : option ConfigCache.answer) (s : server) : server :=
  match a with
  | Some (ConfigCache.Config _ body) =>
      match decode_body body with Some pulled => pull_apply starts close_err pulled s | None => s end
  | _ => s
  end.
End Server.
End Sync.
