(* ===== verification/NodeSyncProps.v ===== *)
(** * NodeSyncProps: a hot update is a restart, and the node follows the panel

    [hot_update_is_restart]: when a pulled configuration differs in users only, the
    running listeners end with the users a restart would have given them.
    [node_follows_panel]: whatever pulls came before, answered, lost or failed in
    starting, a pull the panel answers leaves the node running the panel's configuration. *)

From S2P Require Import Prelude GoStrings Base64 GoJson CoreDto CoreConfig NodeWire NodePlan NodePlanProps NodeConfigCache Traffic NodeSync.
Import NodeWire NodePlan NodePlanProps Core Sync.

#[local] Open Scope string_scope.
#[local] Open Scope Z_scope.

Module NodeSyncProps.

(** ** Inbounds that differ in users *)

Definition same_shape (i j : inboundSpec) : Prop := clear_users i = clear_users j.

Lemma same_shape_fields i j : same_shape i j -> in_Tag i = in_Tag j /\ in_Protocol i = in_Protocol j /\ ports i = ports j /\
  (forall p, listener_name i p = listener_name j p) /\ multi i = multi j.
Proof.
  destruct i, j. intros E. injection E; intros; subst. split_and!; done.
Qed.

Definition method_kept (i j : inboundSpec) : Prop :=
  in_Protocol i = "shadowsocks" -> shadowsocksMethod (in_Users i) = shadowsocksMethod (in_Users j).

Definition by_tag_from (m : gmap string inboundSpec) (ins : list inboundSpec) : gmap string inboundSpec :=
  foldl (fun m in_ => <[in_Tag in_ := in_]> m) m ins.

Lemma by_tag_lookup m ins t : NoDup (map in_Tag ins) ->
  by_tag_from m ins !! t = match find_tag t ins with Some i => Some i | None => m !! t end.
Proof.
  revert m. induction ins as [|i ins IH]; intros m Hn; [done|]. cbn [map] in Hn. apply NoDup_cons in Hn as [Hi Hn].
  cbn [by_tag_from foldl]. fold (by_tag_from (<[in_Tag i := i]> m) ins). rewrite IH, find_tag_cons by done.
  destruct (String.eqb_spec (in_Tag i) t) as [<-|Hne]; [|by rewrite lookup_insert_ne].
  rewrite (proj2 (find_tag_None _ _)); [apply lookup_insert_eq|by rewrite <- list_elem_of_In].
Qed.

Lemma by_tag_spec ins t : NoDup (map in_Tag ins) -> by_tag ins !! t = find_tag t ins.
Proof. intros Hn. unfold by_tag. fold (by_tag_from ∅ ins). rewrite by_tag_lookup by done. by destruct (find_tag t ins). Qed.

Lemma by_tag_size ins : NoDup (map in_Tag ins) -> size (by_tag ins) = length ins.
Proof.
  intros Hn. rewrite <- size_dom. assert (dom (by_tag ins) = list_to_set (map in_Tag ins) :> gset string) as ->.
  { apply set_eq. intros t. rewrite elem_of_dom, elem_of_list_to_set, by_tag_spec by done.
    destruct (find_tag t ins) as [i|] eqn:E.
    - apply find_tag_Some in E as [Hi <-]. rewrite list_elem_of_In. split; [intros _; by apply in_map|by eexists].
    - apply find_tag_None in E. rewrite list_elem_of_In. split; [by intros []|done]. }
  by rewrite size_list_to_set, length_map.
Qed.

Section Listeners.
Context (shadowaead shadowaead_2022 : list string).
#[local] Abbreviation listener := (listener shadowaead shadowaead_2022).
#[local] Abbreviation listeners := (listeners shadowaead shadowaead_2022).
#[local] Abbreviation build_inbounds := (build_inbounds shadowaead shadowaead_2022).
#[local] Abbreviation buildOptionsPlan := (buildOptionsPlan shadowaead shadowaead_2022).

(** The listeners of an inbound. *)
Definition listeners_of (i : inboundSpec) : result string (list Inbound) := listeners i (listener_name i) (ports i).
Definition its_listeners (i : inboundSpec) : list Inbound := match listeners_of i with Ok l => l | Err _ => [] end.

Definition give (j : inboundSpec) (ib : Inbound) : Inbound := with_users ib (user_options (in_Protocol j) (in_Users j)).

Lemma listener_reuse i j name p : same_shape i j -> method_kept i j ->
  listener j name p = (option_map (give j)) <$> listener i name p.
Proof.
  destruct i as [tag protocol], j as [tag' protocol']. intros E Hm. injection E; intros; subst tag' protocol'. subst.
  unfold method_kept in Hm. cbn [in_Protocol in_Users] in Hm. unfold NodePlan.listener, buildInboundTLS, buildInboundTransport, give.
  cbn [in_Protocol in_Users in_TLS in_Transport in_UpMbps in_DownMbps in_Hysteria2ObfsPassword in_CongestionControl in_ZeroRTTHandshake in_SnellPSK in_SnellV6Mode].
  match goal with |- context [match ?x with Some t => if String.eqb (tr_Type t) "ws" then _ else _ | None => _ end] =>
    destruct (match x with Some t => if String.eqb (tr_Type t) "ws" then _ else _ | None => _ end) as [tr|err] end; [|done].
  cbn [mbind result_bind]. destruct (str_mem protocol _); [done|].
  destruct (String.eqb_spec protocol "shadowsocks") as [Es|_].
  { rewrite <- (Hm Es). destruct (checkShadowsocksMethod _ _ _); done. }
  repeat (match goal with |- context [if String.eqb protocol ?t then _ else _] => destruct (String.eqb protocol t); [done|] end). done.
Qed.

Lemma listeners_reuse i j name ps : same_shape i j -> method_kept i j ->
  listeners j name ps = map (give j) <$> listeners i name ps.
Proof.
  intros Hs Hm. induction ps as [|p ps IH]; [done|]. cbn [NodePlan.listeners]. rewrite IH, (listener_reuse i j) by done.
  destruct (listener i (name p) p) as [o|err]; [|done]. cbn [mbind result_bind fmap result_fmap].
  destruct (listeners i name ps) as [l|err]; [|done]. cbn. by destruct o.
Qed.

Lemma listeners_name_ext i f g ps : (forall p, f p = g p) -> listeners i f ps = listeners i g ps.
Proof. intros H. induction ps as [|p ps IH]; [done|]. cbn [NodePlan.listeners]. by rewrite H, IH. Qed.

Lemma listeners_of_reuse i j : same_shape i j -> method_kept i j -> listeners_of j = map (give j) <$> listeners_of i.
Proof.
  intros Hs Hm. unfold listeners_of. destruct (same_shape_fields i j Hs) as (_ & _ & -> & Hn & _).
  rewrite (listeners_name_ext i (listener_name i) (listener_name j)) by done. by apply listeners_reuse.
Qed.

Lemma listener_fields i name p ib : listener i name p = Ok (Some ib) ->
  ib_Type ib = in_Protocol i /\ ib_Tag ib = name /\ ib_Users ib = user_options (in_Protocol i) (in_Users i).
Proof.
  unfold NodePlan.listener. intros (tr & _ & H)%result_bind_ok; revert H.
  destruct (str_mem _ _); [by intros [= <-]|]. destruct (String.eqb _ "shadowsocks"); [by intros (m & _ & [= <-])%result_bind_ok|].
  repeat (match goal with |- context [if String.eqb ?x ?t then _ else _] => destruct (String.eqb x t); [by intros [= <-]|] end). done.
Qed.

Lemma its_listeners_in i ib : In ib (its_listeners i) ->
  ib_Type ib = in_Protocol i /\ ib_Users ib = user_options (in_Protocol i) (in_Users i) /\ exists p, In p (ports i) /\ ib_Tag ib = listener_name i p.
Proof.
  unfold its_listeners, listeners_of. destruct (listeners i (listener_name i) (ports i)) as [l|] eqn:E; [|done].
  revert l E. generalize (ports i) as ps. intros ps. induction ps as [|p ps IH]; cbn [NodePlan.listeners]; [by intros l [= <-]|].
  intros l (o & Ho & H)%result_bind_ok. apply result_bind_ok in H as (rest & Hr & [= <-]). intros Hin.
  assert (In ib rest \/ o = Some ib) as [Hin'| ->] by (destruct o; cbn in Hin; naive_solver).
  - destruct (IH _ Hr Hin') as (H1 & H2 & q & Hq & H3). split_and!; [done..|]. exists q. split; [by right|done].
  - destruct (listener_fields _ _ _ _ Ho) as (H1 & H2 & H3). split_and!; [done..|]. exists p. split; [by left|done].
Qed.

Lemma listener_known i name p o : hotUpdatableProtocol (in_Protocol i) = true -> listener i name p = Ok o -> is_Some o.
Proof.
  unfold hotUpdatableProtocol, NodePlan.listener. intros Hp (tr & _ & H)%result_bind_ok. revert H Hp. unfold str_mem. cbn [existsb].
  repeat (match goal with |- context [String.eqb ?x ?t] => destruct (String.eqb x t) end; cbn [orb andb]);
    intros H; try (apply result_bind_ok in H as (m & _ & H)); try (by injection H as <-); done.
Qed.

Lemma its_listeners_all i l p : hotUpdatableProtocol (in_Protocol i) = true -> listeners_of i = Ok l -> In p (ports i) ->
  exists ib, In ib l /\ ib_Tag ib = listener_name i p.
Proof.
  intros Hp. unfold listeners_of. revert l. generalize (ports i) as ps. intros ps. induction ps as [|q ps IH]; [done|].
  cbn [NodePlan.listeners]. intros l (o & Ho & H)%result_bind_ok Hin. apply result_bind_ok in H as (rest & Hr & [= <-]).
  destruct (listener_known _ _ _ _ Hp Ho) as [ib ->]. cbn [cons_option]. destruct Hin as [->|Hin].
  - exists ib. split; [by left|]. by apply listener_fields in Ho as (_ & -> & _).
  - destruct (IH _ Hr Hin) as (ib' & Hib & Ht). exists ib'. split; [by right|done].
Qed.

(** ** What is built, by inbound *)

Lemma build_total ins d m pb : Forall (fun i => is_ok (listeners_of i) = true) ins ->
  exists r, build_inbounds ins d m pb = Ok r.
Proof.
  intros Hf. revert d m pb. induction Hf as [|i ins Hi _ IH]; intros d m pb; [by eexists|]. cbn [NodePlan.build_inbounds].
  unfold listeners_of in Hi. destruct (listeners i (listener_name i) (ports i)) as [l|]; [|done]. cbn [mbind result_bind].
  match goal with |- context [build_inbounds ins ?d ?m ?pb] => destruct (IH d m pb) as [[[[rest d'] m'] pb'] ->] end. by eexists.
Qed.

Lemma build_flat ins ls d m pb : build_inbounds ins ∅ ∅ ∅ = Ok (ls, d, m, pb) -> NoDup (map in_Tag ins) ->
  ls = flat_map its_listeners ins /\ Forall (fun i => is_ok (listeners_of i) = true) ins /\
  forall t, maps_ok ins ∅ d ∅ m ∅ pb t.
Proof.
  intros Hb Hn. destruct (build_inbounds_ok _ _ _ _ _ _ _ _ _ _ Hb Hn) as [(lss & Hf & ->) Hm]. split_and!; [..|done].
  - clear -Hf. induction Hf as [|i l ins lss Hi _ IH]; [done|]. cbn. rewrite IH. unfold its_listeners, listeners_of. by rewrite Hi.
  - clear -Hf. induction Hf as [|i l ins lss Hi _ IH]; constructor; [|done]. unfold listeners_of. by rewrite Hi.
Qed.

(** A configuration whose inbounds are an old one's up to order and users. *)
Record only_users (old next : list inboundSpec) : Prop := {
  ou_length : length old = length next;
  ou_each : Forall (fun j => exists i, find_tag (in_Tag j) old = Some i /\ same_shape i j /\ method_kept i j) next
}.

Definition before (old : list inboundSpec) (j : inboundSpec) : inboundSpec := default j (find_tag (in_Tag j) old).

Lemma before_spec old next j : only_users old next -> In j next ->
  find_tag (in_Tag j) old = Some (before old j) /\ same_shape (before old j) j /\ method_kept (before old j) j.
Proof.
  intros [_ Hf] Hj. rewrite Forall_forall in Hf. destruct (Hf j) as (i & Hi & H1 & H2); [by apply list_elem_of_In|].
  unfold before. by rewrite Hi.
Qed.

Lemma before_perm old next : NoDup (map in_Tag old) -> NoDup (map in_Tag next) -> only_users old next -> old ≡ₚ map (before old) next.
Proof.
  intros Hn Hn' Ho. symmetry. apply NoDup_Permutation_bis.
  - apply NoDup_ListNoDup. apply (NoDup_fmap_1 in_Tag). change (in_Tag <$> map (before old) next) with (map in_Tag (map (before old) next)).
    rewrite map_map. erewrite map_ext_in; [exact Hn'|]. intros j Hj. destruct (before_spec old next j Ho Hj) as (Hi & _ & _).
    by apply find_tag_Some in Hi as [_ Hi].
  - rewrite length_map, (ou_length _ _ Ho). lia.
  - intros i (j & <- & Hj)%in_map_iff. destruct (before_spec old next j Ho Hj) as (Hi & _ & _). by apply find_tag_Some in Hi as [Hi _].
Qed.

Lemma find_tag_before old next t : NoDup (map in_Tag old) -> NoDup (map in_Tag next) -> only_users old next ->
  find_tag t old = before old <$> find_tag t next.
Proof.
  intros Hn Hn' Ho. destruct (find_tag t next) as [j|] eqn:E.
  - apply find_tag_Some in E as [Hj <-]. by apply (before_spec old next).
  - apply find_tag_None in E. cbn. apply find_tag_None. intros (i & <- & Hi)%in_map_iff. apply E.
    rewrite (before_perm old next Hn Hn' Ho) in Hi. apply in_map_iff in Hi as (j & <- & Hj).
    destruct (before_spec old next j Ho Hj) as (_ & Hs & _). apply same_shape_fields in Hs as (-> & _). by apply in_map.
Qed.

(** Such a configuration builds to the same options, up to the listeners and their users. *)
Lemma rebuild_reuse old next core opts plan :
  NoDup (map in_Tag old) -> NoDup (map in_Tag next) -> only_users old next ->
  buildOptionsPlan (mkStart old core) = Ok (opts, plan) ->
  buildOptionsPlan (mkStart next core) =
    Ok (mkOptions (op_LogLevel opts) (op_DNS opts) (flat_map its_listeners next) (op_Outbounds opts) (op_Final opts) (op_Rules opts), plan) /\
  op_Inbounds opts = flat_map its_listeners old.
Proof.
  intros Hn Hn' Ho Hb. unfold NodePlan.buildOptionsPlan in Hb. cbn [s_Inbounds s_Core] in Hb.
  apply result_bind_ok in Hb as ([[[ls d] m] pb] & Hi & Hb). apply result_bind_ok in Hb as (co & Hco & [= <- <-]).
  cbn [op_LogLevel op_DNS op_Outbounds op_Final op_Rules op_Inbounds].
  destruct (build_flat _ _ _ _ _ Hi Hn) as (-> & Hok & Hm). split; [|done].
  assert (Forall (fun j => is_ok (listeners_of j) = true) next) as Hok'.
  { apply Forall_forall. intros j Hj%list_elem_of_In. destruct (before_spec old next j Ho Hj) as (Hf & Hs & Hk).
    rewrite (listeners_of_reuse _ j Hs Hk). rewrite Forall_forall in Hok. apply find_tag_Some in Hf as [Hf _].
    specialize (Hok (before old j)). destruct (listeners_of (before old j)); [done|]. apply Hok. by apply list_elem_of_In. }
  destruct (build_total next ∅ ∅ ∅ Hok') as ([[[ls' d'] m'] pb'] & Hb'). destruct (build_flat _ _ _ _ _ Hb' Hn') as (-> & _ & Hm').
  assert (forall t, d' !! t = d !! t /\ m' !! t = m !! t /\ pb' !! t = pb !! t) as Hsame.
  { intros t. destruct (Hm t) as [-> -> ->], (Hm' t) as [-> -> ->]. rewrite (find_tag_before old next t Hn Hn' Ho).
    destruct (find_tag t next) as [j|] eqn:E; [|done]. cbn [fmap option_fmap option_map]. apply find_tag_Some in E as [Hj <-].
    destruct (before_spec old next j Ho Hj) as (_ & Hs & Hk). apply same_shape_fields in Hs as (_ & Hp & Hpo & _ & Hmu).
    rewrite Hp, Hpo, Hmu. split_and!; [done| |done]. destruct (String.eqb_spec (in_Protocol j) "shadowsocks") as [E|]; [|done].
    by rewrite Hk by congruence. }
  assert (d' = d) as -> by (apply map_eq; intros t; apply Hsame). assert (m' = m) as -> by (apply map_eq; intros t; apply Hsame).
  assert (pb' = pb) as -> by (apply map_eq; intros t; apply Hsame).
  unfold NodePlan.buildOptionsPlan. cbn [s_Inbounds s_Core]. rewrite Hb'. cbn [mbind result_bind]. by rewrite Hco.
Qed.

(** ** What [diffPulledConfig] finds *)

(** A hot list names every inbound whose users changed, each with its protocol. *)
Record hot_for (old next : list inboundSpec) (hot : list userUpdate) : Prop := {
  hf_changed j : In j next -> in_Users (before old j) = in_Users j \/
    hotUpdatableProtocol (in_Protocol j) = true /\ In (mkUpd (in_Tag j) (in_Protocol j)) hot;
  hf_named u : In u hot -> exists j, In j next /\ u = mkUpd (in_Tag j) (in_Protocol j) /\ hotUpdatableProtocol (in_Protocol j) = true
}.

Lemma diff_inbounds_ok old ins hot : NoDup (map in_Tag old) -> diff_inbounds (by_tag old) ins = Some hot ->
  Forall (fun j => exists i, find_tag (in_Tag j) old = Some i /\ same_shape i j /\ method_kept i j) ins /\ hot_for old ins hot.
Proof.
  intros Hn. revert hot. induction ins as [|j ins IH]; intros hot; cbn [diff_inbounds].
  { intros [= <-]. split; [constructor|]. by split. }
  intros (i & Hi & H)%bind_Some. rewrite by_tag_spec in Hi by done.
  assert (before old j = i) as Hbe by (unfold before; by rewrite Hi).
  destruct (bool_decide (clear_users i = clear_users j)) eqn:Es; [|done]. apply bool_decide_eq_true in Es. cbn [negb] in H.
  assert (forall hot', hot_for old ins hot' -> incl hot' hot -> (in_Users i = in_Users j \/
    hotUpdatableProtocol (in_Protocol j) = true /\ In (mkUpd (in_Tag j) (in_Protocol j)) hot) ->
    (forall u, In u hot -> In u hot' \/ u = mkUpd (in_Tag j) (in_Protocol j) /\ hotUpdatableProtocol (in_Protocol j) = true) -> hot_for old (j :: ins) hot) as Hcons.
  { intros hot' [Hc Hna] Hi' Hj Hu. split.
    - intros k [<-|Hk]; [by rewrite Hbe|]. destruct (Hc k Hk) as [?|[? ?]]; [by left|right; split; [done|by apply Hi']].
    - intros u [Hin|[-> Hp]]%Hu; [|exists j; by split; [left|]]. destruct (Hna u Hin) as (k & Hk & -> & Hp). exists k. by split; [right|]. }
  destruct (bool_decide (in_Users i = in_Users j)) eqn:Eu.
  - apply bool_decide_eq_true in Eu. destruct (IH _ H) as [Hf Hh]. split.
    + constructor; [|done]. exists i. split_and!; [done..|]. intros _. by rewrite Eu.
    + apply (Hcons hot Hh); [apply incl_refl|by left|by left].
  - destruct (hotUpdatableProtocol (in_Protocol j)) eqn:Ep; [|done]. cbn [negb] in H.
    destruct (String.eqb (in_Protocol j) "shadowsocks" && _) eqn:Em in H; [done|].
    apply bind_Some in H as (hot' & H & [= <-]). destruct (IH _ H) as [Hf Hh]. split.
    + constructor; [|done]. exists i. split_and!; [done..|]. intros Hp. apply same_shape_fields in Es as (_ & Epr & _).
      rewrite Epr in Hp. rewrite Hp in Em. cbn in Em. by apply negb_false_iff, String.eqb_eq in Em.
    + apply (Hcons hot' Hh); [by right|by right; split; [|left]|]. intros u [<-|Hu]; [by right|by left].
Qed.

Lemma diff_ok old next hot : NoDup (map in_Tag (p_Inbounds old)) -> diffPulledConfig (Some old) next = Some hot ->
  p_Core old = p_Core next /\ only_users (p_Inbounds old) (p_Inbounds next) /\ hot_for (p_Inbounds old) (p_Inbounds next) hot.
Proof.
  intros Hn. unfold diffPulledConfig. cbn [mbind option_bind]. destruct (bool_decide (p_Core old = p_Core next)) eqn:Ec; [|done].
  apply bool_decide_eq_true in Ec. cbn [negb]. rewrite by_tag_size by done.
  destruct (length (p_Inbounds old) =? length (p_Inbounds next))%nat eqn:El; [|done]. apply Nat.eqb_eq in El. cbn [negb].
  intros [Hf Hh]%diff_inbounds_ok; [|done]. by split_and!.
Qed.
End Listeners.

(** ** Replacing users on running listeners *)

Definition touch (tags : list string) (us : list user) (ib : Inbound) : Inbound :=
  if str_mem (ib_Tag ib) tags then with_users ib us else ib.

Lemma touch_tag tags us ib : ib_Tag (touch tags us ib) = ib_Tag ib.
Proof. unfold touch. by destruct (str_mem _ _). Qed.
Lemma touch_type tags us ib : ib_Type (touch tags us ib) = ib_Type ib.
Proof. unfold touch. by destruct (str_mem _ _). Qed.

Lemma convert_same protocol us : mapUsers protocol (nodeUsers us) = user_options protocol us.
Proof.
  unfold mapUsers, nodeUsers, user_options. induction us as [|u us IH]; [done|]. cbn [map omap list_omap].
  assert (convert protocol (nodeUser u) = user_option protocol u) as -> by done.
  destruct (user_option protocol u); [by f_equal|done].
Qed.

Section Update.
Context (uuid_ok : string -> bool) (service : string -> list user -> bool).
#[local] Abbreviation UpdateUsers := (UpdateUsers uuid_ok service).
#[local] Abbreviation inbound_UpdateUsers := (inbound_UpdateUsers uuid_ok service).
#[local] Abbreviation update_all := (update_all uuid_ok service).
#[local] Abbreviation apply_hot := (apply_hot uuid_ok service).

(** A listener of this tag runs, and whatever runs under it is of this protocol. *)
Definition runs_as (n : Node) (tag protocol : string) : Prop :=
  (exists ib, In ib (serving n) /\ ib_Tag ib = tag) /\ forall ib, In ib (serving n) -> ib_Tag ib = tag -> ib_Type ib = protocol.

Lemma serving_tags n ib : In ib (op_Inbounds (n_Options n)) -> exists ib', In ib' (serving n) /\ ib_Tag ib' = ib_Tag ib /\ ib_Type ib' = ib_Type ib.
Proof. intros Hi. eexists. split; [by apply in_map|done]. Qed.

Lemma UpdateUsers_done n tag protocol users : hotUpdatableProtocol protocol = true -> runs_as n tag protocol ->
  inbound_UpdateUsers protocol (mapUsers protocol users) = Ok tt ->
  exists n', UpdateUsers tag protocol users n = Ok n' /\ n_Options n' = n_Options n /\
    serving n' = map (touch [tag] (mapUsers protocol users)) (serving n).
Proof.
  intros Hp [(ib & Hib & Ht) Hty] Hu. unfold Core.UpdateUsers. unfold hotUpdatableProtocol in Hp. rewrite Hp. cbn [negb].
  unfold Inbound_Get. destruct (List.find _ _) as [ib0|] eqn:E.
  - apply find_some in E as [Hi E]. apply String.eqb_eq in E. destruct (serving_tags n ib0 Hi) as (ib1 & H1 & H2 & H3).
    assert (ib_Type ib0 = protocol) as Ety by (rewrite <- H3; apply Hty; [done|by rewrite H2]).
    rewrite Ety, String.eqb_refl, Hu. cbn [negb mbind result_bind]. eexists. split_and!; [done..|]. unfold serving at 1. cbn [n_Options n_users].
    unfold serving. rewrite map_map. apply map_ext. intros ib'. unfold touch, str_mem. cbn [existsb ib_Tag with_users].
    rewrite orb_false_r. destruct (String.eqb_spec (ib_Tag ib') tag) as [->|Hne]; [by rewrite lookup_insert_eq|by rewrite lookup_insert_ne].
  - unfold serving in Hib. apply in_map_iff in Hib as (ib0 & <- & Hi). apply (find_none _ _ E) in Hi. cbn in Ht. rewrite Ht, String.eqb_refl in Hi. done.
Qed.

Lemma runs_as_touch n n' tags us t protocol : serving n' = map (touch tags us) (serving n) -> runs_as n t protocol -> runs_as n' t protocol.
Proof.
  intros E [(ib & Hi & Ht) Hty]. split; rewrite E.
  - exists (touch tags us ib). split; [by apply in_map|by rewrite touch_tag].
  - intros ib' (ib0 & <- & H0)%in_map_iff. rewrite touch_tag, touch_type. by apply Hty.
Qed.

Lemma touch_touch a b us ib : touch b us (touch a us ib) = touch (a ++ b) us ib.
Proof. unfold touch at 1 3. rewrite touch_tag. unfold touch, str_mem. rewrite existsb_app. destruct (existsb _ a), (existsb _ b); done. Qed.

Lemma update_all_done tags protocol users n : hotUpdatableProtocol protocol = true ->
  inbound_UpdateUsers protocol (mapUsers protocol users) = Ok tt -> (forall t, In t tags -> runs_as n t protocol) ->
  exists n', update_all tags protocol users n = (n', true) /\ n_Options n' = n_Options n /\
    serving n' = map (touch tags (mapUsers protocol users)) (serving n).
Proof.
  intros Hp Hu. revert n. induction tags as [|t tags IH]; intros n Hr.
  { exists n. split_and!; [done..|]. unfold touch. cbn. by rewrite map_id. }
  cbn [Sync.update_all]. destruct (UpdateUsers_done n t protocol users Hp (Hr t ltac:(by left)) Hu) as (n1 & -> & Ho & Hs).
  destruct (IH n1) as (n2 & H2 & Ho2 & Hs2).
  { intros t' Ht'. eapply runs_as_touch; [exact Hs|]. apply Hr. by right. }
  exists n2. split_and!; [done|congruence|]. rewrite Hs2, Hs, map_map. apply map_ext. intros ib. by rewrite touch_touch.
Qed.

(** The updates of a hot list, one listener at a time. *)
Definition hot_touch (plan : nodePlan) (byTag : gmap string inboundSpec) (ib : Inbound) (u : userUpdate) : Inbound :=
  touch (listenerTags plan (up_Tag u)) (user_options (up_Protocol u) (default [] (in_Users <$> byTag !! up_Tag u))) ib.

Lemma apply_hot_done plan byTag hot n :
  (forall u, In u hot -> hotUpdatableProtocol (up_Protocol u) = true /\
     inbound_UpdateUsers (up_Protocol u) (user_options (up_Protocol u) (default [] (in_Users <$> byTag !! up_Tag u))) = Ok tt /\
     forall t, In t (listenerTags plan (up_Tag u)) -> runs_as n t (up_Protocol u)) ->
  exists n', apply_hot plan byTag hot n = (n', true) /\ n_Options n' = n_Options n /\
    serving n' = map (fun ib => foldl (hot_touch plan byTag) ib hot) (serving n).
Proof.
  revert n. induction hot as [|u hot IH]; intros n Hh.
  { exists n. split_and!; [done..|]. cbn. by rewrite map_id. }
  destruct (Hh u ltac:(by left)) as (Hp & Hu & Hr). cbn [Sync.apply_hot].
  rewrite <- convert_same in Hu. destruct (update_all_done _ _ _ n Hp Hu Hr) as (n1 & -> & Ho & Hs).
  destruct (IH n1) as (n2 & -> & Ho2 & Hs2).
  { intros v Hv. destruct (Hh v ltac:(by right)) as (Hp' & Hu' & Hr'). split_and!; [done..|]. intros t Ht.
    eapply runs_as_touch; [exact Hs|by apply Hr']. }
  exists n2. split_and!; [done|congruence|]. rewrite Hs2, Hs, map_map. apply map_ext. intros ib. cbn [foldl].
  unfold hot_touch at 3. by rewrite convert_same.
Qed.

Lemma hot_touch_tag plan byTag ib u : ib_Tag (hot_touch plan byTag ib u) = ib_Tag ib.
Proof. apply touch_tag. Qed.

(** Every update that concerns a listener gives it these users. *)
Lemma hot_fold plan byTag hot ib us :
  (forall u, In u hot -> In (ib_Tag ib) (listenerTags plan (up_Tag u)) ->
     user_options (up_Protocol u) (default [] (in_Users <$> byTag !! up_Tag u)) = us) ->
  ((exists u, In u hot /\ In (ib_Tag ib) (listenerTags plan (up_Tag u))) \/ ib_Users ib = us) ->
  foldl (hot_touch plan byTag) ib hot = with_users ib us.
Proof.
  revert ib. induction hot as [|u hot IH]; intros ib Hu [He|He].
  - by destruct He as (u & [] & _).
  - subst us. by destruct ib.
  - cbn [foldl]. destruct (str_mem (ib_Tag ib) (listenerTags plan (up_Tag u))) eqn:E.
    + rewrite IH; unfold hot_touch, touch; rewrite E, (Hu u ltac:(by left) (proj1 (str_mem_spec _ _) E)); cbn [ib_Tag with_users ib_Users]; [done| |by right].
      intros v Hv. apply Hu. by right.
    + assert (hot_touch plan byTag ib u = ib) as -> by (unfold hot_touch, touch; by rewrite E).
      apply IH; [intros v Hv; apply Hu; by right|]. left. destruct He as (v & [<-|Hv] & Hin); [|by exists v].
      apply str_mem_spec in Hin. congruence.
  - cbn [foldl]. rewrite IH.
    + subst us. unfold hot_touch, touch. destruct (str_mem _ _) eqn:E; [|by destruct ib].
      by rewrite (Hu u ltac:(by left) (proj1 (str_mem_spec _ _) E)).
    + intros v Hv. rewrite hot_touch_tag. apply Hu. by right.
    + right. unfold hot_touch, touch. destruct (str_mem _ _) eqn:E; [|done]. cbn. by rewrite (Hu u ltac:(by left) (proj1 (str_mem_spec _ _) E)).
Qed.
End Update.

(** ** A hot update and a restart *)

Section Hot.
Context (shadowaead shadowaead_2022 : list string) (uuid_ok : string -> bool) (service : string -> list user -> bool).
#[local] Abbreviation buildOptionsPlan := (buildOptionsPlan shadowaead shadowaead_2022).
#[local] Abbreviation its_listeners := (its_listeners shadowaead shadowaead_2022).
#[local] Abbreviation apply_hot := (apply_hot uuid_ok service).

Definition rest_of (o : Options) : string * option (list DNSServer) * list Outbound * string * list Rule :=
  (op_LogLevel o, op_DNS o, op_Outbounds o, op_Final o, op_Rules o).

(** The core is what a start from this configuration builds, whatever was updated since. *)
Definition runs (n : Node) (plan : nodePlan) (c : pulledConfig) : Prop :=
  exists opts, buildOptionsPlan (request_of c) = Ok (opts, plan) /\ serving n ≡ₚ op_Inbounds opts /\ rest_of (n_Options n) = rest_of opts.

(** The protocols' services take the user lists of a configuration. *)
Definition services_take (c : pulledConfig) : Prop :=
  Forall (fun i => inbound_UpdateUsers uuid_ok service (in_Protocol i) (user_options (in_Protocol i) (in_Users i)) = Ok tt) (p_Inbounds c).

Lemma New_serving opts : serving (New opts) = op_Inbounds opts.
Proof.
  unfold serving, New. cbn [n_Options n_users]. rewrite <- map_id. apply map_ext. intros ib. rewrite lookup_empty. by destruct ib.
Qed.

Lemma started_runs c opts plan : buildOptionsPlan (request_of c) = Ok (opts, plan) -> runs (New opts) plan c.
Proof. intros Hb. exists opts. by rewrite New_serving. Qed.

Lemma shared_listener ins i j p : proper_inbounds ins -> In i ins -> In j ins -> In p (ports i) ->
  In (listener_name i p) (map (listener_name j) (ports j)) -> i = j.
Proof.
  intros Hp Hi Hj Hpi Hin. assert (in_Tag i = in_Tag j) as E.
  { apply (match_tags_in ins (ports <$> by_tag ins) [] (in_Tag j) i p); try done.
    - intros t. rewrite lookup_fmap, by_tag_spec by apply Hp. done.
    - by eapply tags_plain.
    - unfold match_tags. rewrite lookup_fmap, by_tag_spec, find_tag_In by (done || apply Hp). cbn [fmap option_fmap option_map].
      unfold listener_name, multi in Hin |- *. destruct (ports j) as [|q [|q' qs]] eqn:Eq; [done|done|].
      assert (List.filter (allowed []) (q :: q' :: qs) = q :: q' :: qs) as -> by by apply filter_true. exact Hin. }
  assert (Some i = Some j) as [= <-]; [|done]. rewrite <- !(find_tag_In ins) by (done || apply Hp). by rewrite E.
Qed.

Lemma plan_listenerTags ins core opts plan i : NoDup (map in_Tag ins) -> buildOptionsPlan (mkStart ins core) = Ok (opts, plan) -> In i ins ->
  listenerTags plan (in_Tag i) = map (listener_name i) (ports i).
Proof.
  intros Hn Hb Hi. unfold NodePlan.buildOptionsPlan in Hb. cbn [s_Inbounds s_Core] in Hb.
  apply result_bind_ok in Hb as ([[[ls d] m] pb] & Hb & H). apply result_bind_ok in H as (co & _ & [= _ <-]).
  destruct (build_flat _ _ _ _ _ _ _ Hb Hn) as (_ & _ & Hm). destruct (Hm (in_Tag i)) as [Hd _ _].
  unfold listenerTags. cbn [derivedTags]. rewrite Hd, find_tag_In by done. unfold listener_name, multi.
  destruct (ports i) as [|p [|q qs]] eqn:E; [by destruct (ports_some i)|..]; cbn [length Nat.ltb Nat.leb]; by rewrite lookup_empty.
Qed.

Section Step.
Context (n : Node) (plan : nodePlan) (old next : pulledConfig) (hot : list userUpdate) (opts : Options).
Context (Hold : proper_inbounds (p_Inbounds old)) (Hnext : proper_inbounds (p_Inbounds next)).
Context (Hb : buildOptionsPlan (request_of old) = Ok (opts, plan)) (Hserve : serving n ≡ₚ flat_map its_listeners (p_Inbounds old)).
Context (Ho : only_users (p_Inbounds old) (p_Inbounds next)) (Hh : hot_for (p_Inbounds old) (p_Inbounds next) hot).

#[local] Abbreviation prev := (before (p_Inbounds old)).

Lemma prev_in j : In j (p_Inbounds next) -> In (prev j) (p_Inbounds old) /\ in_Tag (prev j) = in_Tag j /\ same_shape (prev j) j /\ method_kept (prev j) j.
Proof. intros Hj. destruct (before_spec _ _ j Ho Hj) as (Hf & H1 & H2). apply find_tag_Some in Hf as [H3 H4]. by split_and!. Qed.

Lemma next_listenerTags j : In j (p_Inbounds next) -> listenerTags plan (in_Tag j) = map (listener_name (prev j)) (ports (prev j)).
Proof. intros Hj. destruct (prev_in j Hj) as (Hin & <- & _). eapply plan_listenerTags; [apply Hold|exact Hb|done]. Qed.

(** The listeners an update of [j] reaches are those of the inbound [j] was. *)
Lemma reached i j ib : In i (p_Inbounds old) -> In j (p_Inbounds next) -> In ib (its_listeners i) ->
  In (ib_Tag ib) (listenerTags plan (in_Tag j)) <-> i = prev j.
Proof.
  intros Hi Hj Hib. rewrite next_listenerTags by done. apply its_listeners_in in Hib as (_ & _ & p & Hp & ->). split.
  - intros Hin. eapply shared_listener; [exact Hold|done|by apply prev_in|done|done].
  - intros ->. by apply in_map.
Qed.

Lemma hot_runs_as j t : In j (p_Inbounds next) -> hotUpdatableProtocol (in_Protocol j) = true -> In t (listenerTags plan (in_Tag j)) ->
  runs_as n t (in_Protocol j).
Proof.
  intros Hj Hp Ht. destruct (prev_in j Hj) as (Hin & Htag & Hs & _). apply same_shape_fields in Hs as (_ & Hpr & _). split.
  - rewrite next_listenerTags in Ht by done. apply in_map_iff in Ht as (p & <- & Hport). rewrite <- Hpr in Hp.
    destruct (listeners_of shadowaead shadowaead_2022 (prev j)) as [l|err] eqn:E.
    + destruct (its_listeners_all _ _ _ _ p Hp E Hport) as (ib & Hib & Ht). exists ib. split; [|done]. rewrite Hserve. apply in_flat_map.
      exists (prev j). split; [done|]. unfold NodeSyncProps.its_listeners. by rewrite E.
    + exfalso. unfold NodePlan.buildOptionsPlan in Hb. cbn [request_of s_Inbounds s_Core] in Hb.
      apply result_bind_ok in Hb as ([[[ls d] m] pb] & Hbi & _). destruct (build_flat _ _ _ _ _ _ _ Hbi (tags_distinct _ Hold)) as (_ & Hok & _).
      rewrite Forall_forall in Hok. specialize (Hok (prev j) ltac:(by apply list_elem_of_In)). by rewrite E in Hok.
  - intros ib Hib E. rewrite Hserve in Hib. apply in_flat_map in Hib as (i & Hi & Hib). rewrite <- E in Ht.
    apply (reached i j) in Ht; [|done..]. apply its_listeners_in in Hib as (-> & _). by rewrite Ht.
Qed.

(** After the updates a listener has the users of the inbound it is now. *)
Lemma hot_gives j ib : In j (p_Inbounds next) -> In ib (its_listeners (prev j)) ->
  foldl (hot_touch plan (by_tag (p_Inbounds next))) ib hot = give j ib.
Proof.
  intros Hj Hib. destruct (prev_in j Hj) as (Hin & Htag & Hs & _). apply same_shape_fields in Hs as (_ & Hpr & _). unfold give. apply hot_fold.
  - intros u Hu Ht. destruct (hf_named _ _ _ Hh u Hu) as (k & Hk & -> & _). cbn [up_Tag up_Protocol] in *.
    apply (reached (prev j) k) in Ht; [|done..]. assert (in_Tag j = in_Tag k) as E.
    { rewrite <- Htag, Ht. by apply prev_in. }
    assert (Some j = Some k) as [= <-] by (rewrite <- !(find_tag_In (p_Inbounds next)) by (done || apply Hnext); by rewrite E).
    rewrite by_tag_spec, find_tag_In by (done || apply Hnext). done.
  - destruct (hf_changed _ _ _ Hh j Hj) as [E|[_ Hu]].
    + right. apply its_listeners_in in Hib as (_ & -> & _). by rewrite Hpr, E.
    + left. eexists. split; [exact Hu|]. by apply (reached (prev j) j).
Qed.

Lemma hot_serving : map (fun ib => foldl (hot_touch plan (by_tag (p_Inbounds next))) ib hot) (serving n) ≡ₚ flat_map its_listeners (p_Inbounds next).
Proof.
  rewrite Hserve, (before_perm _ _ (tags_distinct _ Hold) (tags_distinct _ Hnext) Ho) at 1.
  rewrite !flat_map_concat_map, concat_map, !map_map. apply Permutation_refl'. f_equal. apply map_ext_in. intros j Hj.
  destruct (prev_in j Hj) as (_ & _ & Hs & Hk). unfold NodeSyncProps.its_listeners at 2. rewrite (listeners_of_reuse _ _ (prev j) j Hs Hk).
  transitivity (map (give j) (its_listeners (prev j))); [apply map_ext_in; intros ib Hib; by apply hot_gives|].
  unfold NodeSyncProps.its_listeners. by destruct (listeners_of _ _ (prev j)).
Qed.
End Step.

Lemma hot_update n plan old next hot :
  proper_inbounds (p_Inbounds old) -> proper_inbounds (p_Inbounds next) -> services_take next ->
  runs n plan old -> diffPulledConfig (Some old) next = Some hot ->
  exists n', apply_hot plan (by_tag (p_Inbounds next)) hot n = (n', true) /\ runs n' plan next.
Proof.
  intros Hold Hnext Ht (opts & Hb & Hs & Hr) Hd. apply diff_ok in Hd as (Hc & Ho & Hh); [|apply Hold].
  destruct (rebuild_reuse _ _ _ (p_Inbounds next) (Some (p_Core old)) _ _ (tags_distinct _ Hold) (tags_distinct _ Hnext) Ho Hb) as [Hb' Hi].
  rewrite Hi in Hs. destruct (apply_hot_done uuid_ok service plan (by_tag (p_Inbounds next)) hot n) as (n' & Hn & Hopt & Hs').
  - intros u Hu. destruct (hf_named _ _ _ Hh u Hu) as (j & Hj & -> & Hp). cbn [up_Tag up_Protocol]. split_and!; [done|..].
    + rewrite by_tag_spec, find_tag_In by (done || apply Hnext). cbn. unfold services_take in Ht. rewrite Forall_forall in Ht.
      by apply Ht, list_elem_of_In.
    + intros t Hin. by apply (hot_runs_as n plan old next opts).
  - exists n'. split; [done|]. unfold runs, request_of. rewrite <- Hc. eexists. split; [exact Hb'|]. split.
    + rewrite Hs'. by apply (hot_serving n plan old next hot opts).
    + rewrite Hopt, Hr. done.
Qed.
End Hot.

(** ** Following the panel *)

Section Follow.
Context (shadowaead shadowaead_2022 : list string) (uuid_ok : string -> bool) (service : string -> list user -> bool).
#[local] Abbreviation buildOptionsPlan := (buildOptionsPlan shadowaead shadowaead_2022).
#[local] Abbreviation runs := (runs shadowaead shadowaead_2022).
#[local] Abbreviation services_take := (services_take uuid_ok service).
#[local] Abbreviation pull_apply := (pull_apply shadowaead shadowaead_2022 uuid_ok service).
#[local] Abbreviation pull_answer := (pull_answer shadowaead shadowaead_2022 uuid_ok service).
#[local] Abbreviation applyFullLocked := (applyFullLocked shadowaead shadowaead_2022).
#[local] Abbreviation apply_change := (apply_change shadowaead shadowaead_2022 uuid_ok service).

(** The configurations a panel may hand out over time: well formed, with users the
    protocols take, and identified by their version, a digest. *)
Record panel_ok (served : pulledConfig -> Prop) : Prop := {
  versions_hex c : served c -> exists h, p_Version c = Base64.Hex h;
  versions_identify c d : served c -> served d -> p_Version c = p_Version d -> c = d;
  served_proper c : served c -> proper_inbounds (p_Inbounds c);
  served_taken c : served c -> services_take c
}.

(** The cache entry a panel answers from while [c] is what it wants. *)
Definition offers (e : ConfigCache.entry) (c : pulledConfig) : Prop :=
  ConfigCache.etag e = quote (p_Version c) /\ decode_body (ConfigCache.e_body e) = Some c.

Section History.
Context (served : pulledConfig -> Prop) (Hpanel : panel_ok served).

(** What happens to a node that only its sync loop drives: pulls, answered from whatever
    the panel wants at the time, refused or lost, whose restart may fail; and traffic. *)
Inductive history : server -> Prop :=
  | h_boot : history boot
  | h_answered s c e starts close_err : history s -> served c -> offers e c ->
      history (pull_answer starts close_err (Some (ConfigCache.respond (pull_header s) e)) s)
  | h_refused s m starts close_err : history s -> history (pull_answer starts close_err (Some (ConfigCache.ServerError m)) s)
  | h_lost s starts close_err : history s -> history (pull_answer starts close_err None s)
  | h_traffic s t p : history s ->
      history (mkServer (s_node s) (s_plan s) (s_lastPulled s) (s_watched s) (s_supervised s) t p).

Definition supervised_by (plan : nodePlan) : option (list FallbackGroup) := match fallbacks plan with [] => None | gs => Some gs end.

(** The tunnels watched and the groups supervised are the plan's. *)
Definition supervises (s : server) : Prop :=
  s_watched s = watchedInterfaces (s_plan s) /\ s_supervised s = supervised_by (s_plan s).

(** The node has [c]: a core running it, or none for a configuration without inbounds. *)
Definition follows (s : server) (c : pulledConfig) : Prop :=
  s_lastPulled s = Some c /\ supervises s /\
  match s_node s with Some n => runs n (s_plan s) c | None => p_Inbounds c = [] end.

Record sync_inv (s : server) : Prop := {
  si_last c : s_lastPulled s = Some c -> served c;
  si_never : s_lastPulled s = None -> s_node s = None;
  si_runs n c : s_node s = Some n -> s_lastPulled s = Some c -> runs n (s_plan s) c;
  si_watch : supervises s
}.

Lemma etag_quote v : quote v = ConfigCache.etag_of v.
Proof. done. Qed.

Lemma respond_cases s c e : sync_inv s -> served c -> offers e c ->
  (ConfigCache.respond (pull_header s) e = ConfigCache.Config (ConfigCache.etag e) (ConfigCache.e_body e)) \/
  (ConfigCache.respond (pull_header s) e = ConfigCache.NotModified (ConfigCache.etag e) /\ runningLastPulledLocked s = Some c).
Proof.
  intros Hi Hc [He _]. unfold ConfigCache.respond. destruct (ConfigCache.etagMatches _ _) eqn:E; [right|by left]. split; [done|].
  unfold pull_header in E. rewrite He in E. destruct (versions_hex _ Hpanel c Hc) as [h Hh].
  destruct (runningLastPulledLocked s) as [d|] eqn:Er; [|by rewrite Hh in E; revert E; clear; destruct h].
  assert (s_lastPulled s = Some d) as Hd.
  { unfold runningLastPulledLocked in Er. destruct (s_lastPulled s) as [d'|]; [|done]. cbn in Er.
    destruct (bool_decide (is_Some (s_node s)) || no_inbounds d'); [exact Er|done]. }
  assert (served d) as Hsd by by eapply si_last. destruct (versions_hex _ Hpanel d Hsd) as [h' Hh'].
  f_equal. apply (versions_identify _ Hpanel); [done..|]. rewrite Hh, Hh' in *. rewrite !etag_quote in E.
  apply ConfigCache.etagMatches_own in E. by rewrite E.
Qed.

Lemma running_last s c : runningLastPulledLocked s = Some c ->
  s_lastPulled s = Some c /\ (s_node s = None -> p_Inbounds c = []).
Proof.
  unfold runningLastPulledLocked. destruct (s_lastPulled s) as [d|]; [|done]. cbn. unfold no_inbounds.
  destruct (s_node s); cbn; [by intros [= ->]|]. destruct (bool_decide (p_Inbounds d = [])) eqn:E; [|done].
  apply bool_decide_eq_true in E. by intros [= <-].
Qed.

Lemma running_follows s c : sync_inv s -> runningLastPulledLocked s = Some c -> follows s c.
Proof.
  intros Hi [Hl Hn]%running_last. split; [done|]. split; [apply Hi|]. destruct (s_node s) eqn:E; [|by apply Hn]. by eapply si_runs.
Qed.

(** A restart leaves the new configuration running, or nothing. *)
Lemma applyFull_inv starts close_err c s : sync_inv s -> served c -> sync_inv (applyFullLocked starts close_err c s).
Proof.
  intros [Hl _ _ _] Hc. unfold Sync.applyFullLocked. assert (exists p, (stopNodeLocked close_err s).1 = mkServer None no_plan (s_lastPulled s) [] None (s_traffic s) p) as [p ->]
    by (unfold stopNodeLocked; destruct (s_node s); by eexists).
  destruct (startNodeLocked _ _ _ _ _) as [s'|] eqn:E; [|by split].
  unfold startNodeLocked in E. apply result_bind_ok in E as ([opts plan] & Hb & E). destruct (negb (starts opts)); [done|]. injection E as <-.
  split; cbn; [by intros _ [= <-]|done| |].
  - intros n d [= <-] [= <-]. by apply started_runs.
  - split; [done|]. cbn. unfold supervised_by. by destruct (fallbacks plan).
Qed.

Lemma applyFull_follows starts close_err c s opts plan : buildOptionsPlan (request_of c) = Ok (opts, plan) -> starts opts = true ->
  follows (applyFullLocked starts close_err c s) c.
Proof.
  intros Hb Hs. unfold Sync.applyFullLocked, startNodeLocked. rewrite Hb. cbn [mbind result_bind]. rewrite Hs. cbn [negb].
  assert (exists p, (stopNodeLocked close_err s).1 = mkServer None no_plan (s_lastPulled s) [] None (s_traffic s) p) as [p ->]
    by (unfold stopNodeLocked; destruct (s_node s); by eexists).
  split; [done|]. split; [|by apply started_runs]. split; [done|]. cbn. unfold supervised_by. by destruct (fallbacks plan).
Qed.

Lemma change_hot starts close_err c s n hot : sync_inv s -> served c -> s_node s = Some n ->
  diffPulledConfig (s_lastPulled s) c = Some hot -> follows (apply_change starts close_err c s) c.
Proof.
  intros Hi Hc Hn Hd. unfold Sync.apply_change. rewrite Hn, Hd. destruct (s_lastPulled s) as [d|] eqn:El; [|done].
  assert (served d) as Hsd by by eapply si_last.
  destruct (hot_update shadowaead shadowaead_2022 uuid_ok service n (s_plan s) d c hot) as (n' & -> & Hr).
  - by eapply served_proper.
  - by eapply served_proper.
  - by eapply served_taken.
  - by eapply si_runs.
  - exact Hd.
  - cbn. split; [done|]. split; [apply Hi|done].
Qed.

Lemma follows_inv s c : served c -> follows s c -> sync_inv s.
Proof.
  intros Hc (Hl & Hw & Hn). split; [intros d; rewrite Hl; by intros [= <-]|by rewrite Hl| |done].
  intros n d E. rewrite Hl. intros [= <-]. by rewrite E in Hn.
Qed.

Lemma sync_change_inv starts close_err c s : sync_inv s -> served c -> sync_inv (apply_change starts close_err c s).
Proof.
  intros Hi Hc. destruct (s_node s) as [n|] eqn:En.
  - destruct (diffPulledConfig (s_lastPulled s) c) as [hot|] eqn:Ed; [eapply follows_inv; [exact Hc|by eapply change_hot]|].
    unfold Sync.apply_change. rewrite En, Ed. by apply applyFull_inv.
  - unfold Sync.apply_change. rewrite En. destruct (no_inbounds c) eqn:E0; [|by apply applyFull_inv].
    split; cbn; [by intros d [= <-]|done|by rewrite En|apply Hi].
Qed.

Lemma pull_apply_inv starts close_err c s : sync_inv s -> served c -> sync_inv (pull_apply starts close_err c s).
Proof.
  intros Hi Hc. unfold Sync.pull_apply. destruct (runningLastPulledLocked s) as [d|]; [destruct (String.eqb _ _); [done|]|]; by apply sync_change_inv.
Qed.

Lemma history_sync_inv s : history s -> sync_inv s.
Proof.
  induction 1 as [|s c e starts close_err _ IH Hc He|s m starts close_err _ IH|s starts close_err _ IH|s t p _ IH].
  - by split.
  - destruct (respond_cases s c e IH Hc He) as [-> |[-> _]]; unfold Sync.pull_answer; [|done]. destruct He as [_ ->]. by apply pull_apply_inv.
  - done.
  - done.
  - destruct IH as [H1 H2 H3 H4]. by split.
Qed.

(** C13: Whatever was pulled before, answered, refused or lost, applied hot, by a restart or
    by a restart that failed: when the panel answers a pull while [c] is what it wants,
    and the core starts if it has to, the node runs [c] — the listeners and users,
    outbounds, rules and DNS a fresh start from [c] has — watches its tunnels, and
    remembers that it does. *)
Theorem node_follows_panel s c e opts plan starts close_err :
  history s -> served c -> offers e c -> buildOptionsPlan (request_of c) = Ok (opts, plan) -> starts opts = true ->
  follows (pull_answer starts close_err (Some (ConfigCache.respond (pull_header s) e)) s) c.
Proof.
  intros Hh Hc He Hb Hs. apply history_sync_inv in Hh as Hi. destruct (respond_cases s c e Hi Hc He) as [-> |[-> Hr]]; unfold Sync.pull_answer; [|by apply running_follows].
  destruct He as [_ ->]. unfold Sync.pull_apply. assert (follows (apply_change starts close_err c s) c) as Hf.
  { destruct (s_node s) as [n|] eqn:En.
    - destruct (diffPulledConfig (s_lastPulled s) c) as [hot|] eqn:Ed; [by eapply change_hot|].
      unfold Sync.apply_change. rewrite En, Ed. by eapply applyFull_follows.
    - unfold Sync.apply_change. rewrite En. unfold no_inbounds. destruct (bool_decide (p_Inbounds c = [])) eqn:E0; [|by eapply applyFull_follows].
      apply bool_decide_eq_true in E0. split; [done|]. split; [apply Hi|]. cbn. by rewrite En. }
  destruct (runningLastPulledLocked s) as [d|] eqn:Er; [|done]. destruct (String.eqb_spec (p_Version d) (p_Version c)) as [E|_]; [|done].
  assert (d = c) as ->; [|by apply running_follows]. apply (versions_identify _ Hpanel); [|done|done].
  apply running_last in Er as [Hl _]. by eapply si_last.
Qed.
End History.

(** C28: What a restart from a configuration would run; a hot update runs the same on the core
    that is up: no listener is opened or closed, and the connections counted go on. *)
Theorem hot_update_is_restart starts close_err s n old next hot :
  proper_inbounds (p_Inbounds old) -> proper_inbounds (p_Inbounds next) -> services_take next ->
  s_node s = Some n -> runs n (s_plan s) old -> s_lastPulled s = Some old ->
  p_Version old <> p_Version next -> diffPulledConfig (Some old) next = Some hot ->
  let s' := pull_apply starts close_err next s in
  exists n' opts, s_node s' = Some n' /\ buildOptionsPlan (request_of next) = Ok (opts, s_plan s') /\
    serving n' ≡ₚ serving (New opts) /\ rest_of (n_Options n') = rest_of opts /\
    s_presence s' = s_presence s /\ s_traffic s' = s_traffic s /\ s_lastPulled s' = Some next.
Proof.
  intros Hold Hnext Ht Hn Hr Hl Hv Hd s'.
  destruct (hot_update shadowaead shadowaead_2022 uuid_ok service n (s_plan s) old next hot) as (n' & Ha & opts & Hb & Hs & Hre); [done..|].
  exists n', opts. assert (s' = set_lastPulled (Some next) (set_node (Some n') s)) as ->.
  { subst s'. unfold Sync.pull_apply, runningLastPulledLocked. rewrite Hl, Hn. cbn [mbind option_bind].
    change (bool_decide (is_Some (Some n))) with true. cbn [orb]. rewrite (proj2 (String.eqb_neq _ _) Hv).
    unfold Sync.apply_change. rewrite Hn, Hl, Hd, Ha. done. }
  cbn. rewrite New_serving. by split_and!.
Qed.
End Follow.

(** ** A panel and two configurations *)

Definition demo_user (name uuid : string) : userSpec := mkUserSpec name uuid "" "" "" "".

Definition demo_config (version : string) (users : list userSpec) : pulledConfig :=
  mkPulled (Base64.Hex version) [demo_spec "web" "vless" [443; 8443] users; demo_spec "ss" "shadowsocks" [8388] []] (core_of demo_core).

Definition demo_before : pulledConfig := demo_config "a" [demo_user "ali" "u1"].
Definition demo_after : pulledConfig := demo_config "b" [demo_user "ali" "u1"; demo_user "sara" "u2"].

Definition demo_served (c : pulledConfig) : Prop := c = demo_before \/ c = demo_after.

Definition config_json (c : pulledConfig) : json :=
  JObject (emit "version" (p_Version c) ++ emit "inbounds" (p_Inbounds c) ++ emit "core" (p_Core c))%list.

Definition demo_offer (c : pulledConfig) : ConfigCache.entry :=
  ConfigCache.mkEntry 1 0 (quote (p_Version c)) (encode (config_json c)).

Lemma demo_config_proper v us : proper_inbounds (p_Inbounds (demo_config v us)).
Proof.
  split.
  - apply NoDup_ListNoDup. repeat constructor; cbn; naive_solver.
  - intros i [<-|[<-|[]]]; reflexivity.
  - intros i p [<-|[<-|[]]]; cbn; intros H; destruct_or?; subst; try done; by apply bool_decide_unpack.
Qed.

Definition any_uuid (_ : string) : bool := true.
Definition any_list (_ : string) (_ : list user) : bool := true.

Lemma demo_panel : panel_ok any_uuid any_list demo_served.
Proof.
  split.
  - intros c [-> | ->]; by eexists.
  - intros c d [-> | ->] [-> | ->]; done.
  - intros c [-> | ->]; apply demo_config_proper.
  - intros c [-> | ->]; by repeat constructor.
Qed.

Lemma demo_offers c : demo_served c -> offers (demo_offer c) c.
Proof. intros [-> | ->]; split; [done|vm_compute; reflexivity|done|vm_compute; reflexivity]. Qed.

Definition demo_plan : Options * nodePlan :=
  match buildOptionsPlan demo_ciphers [] (request_of demo_after) with Ok r => r | Err _ => (mkOptions "" None [] [] "" [], no_plan) end.

Definition demo_pull (c : pulledConfig) (s : server) : server :=
  pull_answer demo_ciphers [] any_uuid any_list (fun _ => true) false (Some (ConfigCache.respond (pull_header s) (demo_offer c))) s.

Lemma node_follows_panel_witness :
  follows demo_ciphers [] (demo_pull demo_after (demo_pull demo_before boot)) demo_after.
Proof.
  refine (node_follows_panel demo_ciphers [] any_uuid any_list demo_served demo_panel (demo_pull demo_before boot) demo_after (demo_offer demo_after)
    demo_plan.1 demo_plan.2 (fun _ => true) false _ (or_intror eq_refl) (demo_offers _ (or_intror eq_refl)) eq_refl eq_refl).
  exact (h_answered _ _ _ _ _ boot demo_before (demo_offer demo_before) (fun _ => true) false (h_boot _ _ _ _ _) (or_introl eq_refl) (demo_offers _ (or_introl eq_refl))).
Defined.

Definition demo_running : Options * nodePlan :=
  match buildOptionsPlan demo_ciphers [] (request_of demo_before) with Ok r => r | Err _ => (mkOptions "" None [] [] "" [], no_plan) end.

Definition demo_server : server :=
  mkServer (Some (New demo_running.1)) demo_running.2 (Some demo_before) ["wg0"] (Some (fallbacks demo_running.2)) Usage.NewManager Presence.NewManager.

Lemma hot_update_is_restart_witness :
  diffPulledConfig (Some demo_before) demo_after = Some [mkUpd "web" "vless"] /\
  exists n' opts, s_node (pull_apply demo_ciphers [] any_uuid any_list (fun _ => true) false demo_after demo_server) = Some n' /\
    buildOptionsPlan demo_ciphers [] (request_of demo_after) = Ok (opts, demo_running.2) /\ serving n' ≡ₚ serving (New opts).
Proof.
  assert (diffPulledConfig (Some demo_before) demo_after = Some [mkUpd "web" "vless"]) as Hd by reflexivity. split; [exact Hd|].
  destruct (hot_update_is_restart demo_ciphers [] any_uuid any_list (fun _ => true) false demo_server (New demo_running.1) demo_before demo_after
    [mkUpd "web" "vless"] (demo_config_proper _ _) (demo_config_proper _ _) (served_taken _ _ _ demo_panel _ (or_intror eq_refl))
    eq_refl (started_runs demo_ciphers [] demo_before demo_running.1 demo_running.2 eq_refl) eq_refl ltac:(discriminate) Hd) as (n' & opts & H1 & H2 & H3 & _).
  exists n', opts. split; [exact H1|]. split; [exact H2|exact H3].
Defined.

(** ** Where the node does not follow *)

(** A service that refuses a list, as Trojan's does when two users share a password. *)
Definition picky (_ : string) (us : list user) : bool := negb (bool_decide (length us = 2%nat)).

Definition two_inbounds (version : string) (first second : list userSpec) : pulledConfig :=
  mkPulled (Base64.Hex version) [demo_spec "a" "vless" [443] first; demo_spec "b" "trojan" [444] second] (core_of demo_core).

Definition picky_pull (c : pulledConfig) (s : server) : server :=
  pull_answer demo_ciphers [] any_uuid picky (fun _ => true) false (Some (ConfigCache.respond (pull_header s) (demo_offer c))) s.

Definition users_running (s : server) : list (string * nat) :=
  match s_node s with Some n => map (fun ib => (ib_Tag ib, length (ib_Users ib))) (serving n) | None => [] end.

(** A hot update applied on one inbound and refused by another keeps the old version, so
    a panel that goes back to it is answered 304: the user the first inbound was given
    stays on the node, though no configuration of the panel has it any more. *)
Example half_applied_stays :
  let ali := demo_user "ali" "u1" in let sara := demo_user "sara" "u2" in
  let old := two_inbounds "a" [ali] [ali] in
  let s := picky_pull (two_inbounds "b" [ali; sara] [sara; sara]) (picky_pull old boot) in
  users_running s = [("a", 2%nat); ("b", 1%nat)] /\
  ConfigCache.respond (pull_header s) (demo_offer old) = ConfigCache.NotModified (quote (p_Version old)) /\
  users_running (picky_pull old s) = [("a", 2%nat); ("b", 1%nat)].
Proof. vm_compute. by split_and!. Qed.

(** A core stopped and started by hand is taken for the one last pulled. *)
Example manual_start_believed :
  let s := demo_pull demo_before boot in
  let s := (handleStop false s).2 in
  let '(status, s) := handleStart demo_ciphers [] (fun _ => true) (encode (JObject [("inbounds", JArray [])])) s in
  status = 200 /\ users_running s = [] /\
  ConfigCache.respond (pull_header s) (demo_offer demo_before) = ConfigCache.NotModified (quote (p_Version demo_before)) /\
  demo_pull demo_before s = s.
Proof. vm_compute. by split_and!. Qed.
End NodeSyncProps.
