(* ===== verification/NodePush.v ===== *)
(** * NodePush: the bytes a node counts and the bytes its panel is told — [pushOnce]

    Every tick the sync loop drains the counters into a report and posts it. The report
    is gone from the node once drained: [usage_told] says the panel is told everything
    that was counted except what was in the reports that did not reach it. *)

From S2P Require Import Prelude GoStrings NodePlan NodeSync Traffic Accounting.
Import Sync.

#[local] Open Scope string_scope.
#[local] Open Scope Z_scope.

Module NodePush.

Definition set_traffic (m : Usage.Manager) (s : server) : server :=
  mkServer (s_node s) (s_plan s) (s_lastPulled s) (s_watched s) (s_supervised s) m (s_presence s).

(** [pushOnce] up to the request; the users of the report in the map's order, as the
    panel's type for the same JSON. What becomes of the request changes nothing here. *)
Definition pushOnce (s : server) : server * list NodeReport.nodeReportUserUsage :=
  let '(m, usage) := Usage.Drain (s_traffic s) in
  (set_traffic m s, map (fun '(name, u) => NodeReport.mkUsage name (Usage.Up u) (Usage.Down u)) (map_to_list usage)).

(** Between two ticks connections move bytes; then a report, which arrives or not. *)
Record tick := mkTick { t_adds : list (string * (Z * Z)); t_arrives : bool }.

Definition do_tick (t : tick) (s : server) : server * list NodeReport.nodeReportUserUsage :=
  pushOnce (set_traffic (Usage.add_all (t_adds t) (s_traffic s)) s).

Fixpoint ticks (ts : list tick) (s : server) : server * list (list NodeReport.nodeReportUserUsage * bool) :=
  match ts with
  | [] => (s, [])
  | t :: ts => let '(s, r) := do_tick t s in let '(s, rs) := ticks ts s in (s, (r, t_arrives t) :: rs)
  end.

(** The bytes of a user in a report, as the panel reads it. *)
Definition told (user : string) (r : list NodeReport.nodeReportUserUsage) : Z * Z :=
  match NodeReport.byUsername r user with Some u => (NodeReport.Uplink u, NodeReport.Downlink u) | None => (0, 0) end.

Definition sum_of {A} (f : A -> Z) (l : list A) : Z := foldr (fun x acc => f x + acc) 0 l.

Definition moved (f : Z * Z -> Z) (user : string) (t : tick) : Z := Usage.sum_for user f (t_adds t).

(** The bytes of one tick are counts that fit. *)
Definition countable (user : string) (t : tick) : Prop := 0 <= moved fst user t < 2 ^ 63 /\ 0 <= moved snd user t < 2 ^ 63.

Lemma find_usage (m : gmap string Usage.Usage) user :
  NodeReport.byUsername (map (fun '(name, u) => NodeReport.mkUsage name (Usage.Up u) (Usage.Down u)) (map_to_list m)) user =
  (fun u => NodeReport.mkUsage user (Usage.Up u) (Usage.Down u)) <$> m !! user.
Proof.
  unfold NodeReport.byUsername. rewrite <- map_rev. set (f := fun '(name, u) => _). destruct (m !! user) as [u|] eqn:E.
  - destruct (List.find _ _) as [r|] eqn:Ef.
    + apply find_some in Ef as [Hr Hn]. apply in_map_iff in Hr as ([name u'] & <- & Hin). apply String.eqb_eq in Hn. cbn in Hn. subst name.
      apply in_rev, list_elem_of_In, elem_of_map_to_list in Hin. cbn. congruence.
    + exfalso. assert (In (f (user, u)) (map f (rev (map_to_list m)))) as Hin.
      { apply in_map, in_rev. rewrite rev_involutive. by apply list_elem_of_In, elem_of_map_to_list. }
      apply (find_none _ _ Ef) in Hin. cbn in Hin. by rewrite String.eqb_refl in Hin.
  - destruct (List.find _ _) as [r|] eqn:Ef; [|done]. apply find_some in Ef as [Hr Hn].
    apply in_map_iff in Hr as ([name u'] & <- & Hin). apply String.eqb_eq in Hn. cbn in Hn. subst name.
    apply in_rev, list_elem_of_In, elem_of_map_to_list in Hin. congruence.
Qed.

Lemma Drain_told user s : told user (pushOnce s).2 = Usage.counter user (s_traffic s) /\
  Usage.counter user (s_traffic (pushOnce s).1) = (0, 0).
Proof.
  unfold pushOnce, Usage.Drain. cbn [fst snd s_traffic set_traffic]. unfold told. rewrite find_usage, lookup_omap.
  unfold Usage.counter. rewrite lookup_fmap. destruct (s_traffic s !! user) as [c|]; [|done]. cbn. split; [|done].
  destruct (Z.eqb_spec (Usage.up c) 0) as [E|E], (Z.eqb_spec (Usage.down c) 0) as [E'|E']; cbn; congruence.
Qed.

Lemma tick_told user t s : countable user t -> Usage.counter user (s_traffic s) = (0, 0) ->
  told user (do_tick t s).2 = (moved fst user t, moved snd user t) /\ Usage.counter user (s_traffic (do_tick t s).1) = (0, 0).
Proof.
  intros [Hu Hd] H0. unfold do_tick. destruct (Drain_told user (set_traffic (Usage.add_all (t_adds t) (s_traffic s)) s)) as [H1 H2].
  split; [|done]. rewrite H1. cbn [s_traffic set_traffic]. rewrite Usage.add_all_counter by (by rewrite H0).
  rewrite H0. cbn [fst snd]. rewrite !Z.add_0_l. unfold moved in *. unfold int64. rewrite !wrap_id by (unfold fits; lia). done.
Qed.

(** Of each user's bytes, counted between any ticks, the panel is told exactly what the
    reports that arrived hold: all of them when none is lost — and those of a lost
    report never, for the next one starts from zero. *)
Theorem usage_told user ts s s' rs : ticks ts s = (s', rs) -> Usage.counter user (s_traffic s) = (0, 0) ->
  Forall (countable user) ts ->
  sum_of (fun r => (told user r.1).1) (List.filter snd rs) = sum_of (moved fst user) (List.filter t_arrives ts) /\
  sum_of (fun r => (told user r.1).2) (List.filter snd rs) = sum_of (moved snd user) (List.filter t_arrives ts) /\
  Usage.counter user (s_traffic s') = (0, 0).
Proof.
  intros Ht H0 Hc. revert s s' rs Ht H0. induction Hc as [|t ts Hct _ IH]; intros s s' rs; cbn [ticks]; [by intros [= <- <-]|].
  destruct (do_tick t s) as [s1 r] eqn:E. destruct (ticks ts s1) as [s2 rs'] eqn:Es. intros [= <- <-] H0.
  destruct (tick_told user t s Hct H0) as [H1 H2]. rewrite E in H1, H2. destruct (IH _ _ _ Es H2) as (I1 & I2 & I3).
  cbn [List.filter snd]. destruct (t_arrives t); cbn [sum_of foldr fst]; [|done]. unfold sum_of in *. rewrite I1, I2. cbn [snd fst] in *.
  by rewrite H1.
Qed.

Lemma usage_told_witness :
  let ts := [mkTick [("ali", (5, 7))] true; mkTick [("ali", (100, 0))] false; mkTick [("ali", (1, 1))] true] in
  sum_of (fun r => (told "ali" r.1).1) (List.filter snd (ticks ts boot).2) = 6.
Proof.
  set (ts := [_; _; _]). assert (Forall (countable "ali") ts) as Hc by (by repeat constructor).
  exact (proj1 (usage_told "ali" ts boot (ticks ts boot).1 (ticks ts boot).2 ltac:(reflexivity) eq_refl Hc)).
Defined.
End NodePush.
