(* ===== verification/NodeLive.v ===== *)
(** * NodeLive: the live channel — [cmd/node/live.go], [internal/httpapi/nodelive.go]

    Every few seconds a node posts who is connected, how many connections each port
    holds and, while somebody watches its log in the panel, its newest log lines; the
    panel keeps these in Redis and answers whether to send lines and from where on.
    [LiveReporter] is the node's loop, [NodeLive] the panel's handler; the bodies are the
    JSON texts both sides write and read. Compression, the rendering of a time and what
    a number literal is to [strconv.ParseFloat] come from the standard library. *)

From stdpp Require Import sorting.
From S2P Require Import Prelude GoStrings GoFloat GoUrl GoJson Redis RingBuf NodeLog LogStream Traffic MySQLDump.

#[local] Open Scope string_scope.
#[local] Open Scope Z_scope.

(** ** [sort.SliceStable] by a number *)

Section sort_by.
Context {A : Type} (key : A -> Z).

Fixpoint insert_by (x : A) (l : list A) : list A :=
  match l with
  | [] => [x]
  | y :: l => if key x <=? key y then x :: y :: l else y :: insert_by x l
  end.

Definition sort_by (l : list A) : list A := foldr insert_by [] l.

Lemma insert_by_perm x l : insert_by x l ≡ₚ x :: l.
Proof. induction l as [|y l IH]; cbn; [done|]. case_match; [done|]. rewrite IH. apply Permutation_swap. Qed.

Lemma sort_by_perm l : sort_by l ≡ₚ l.
Proof. induction l as [|x l IH]; cbn; [done|]. by rewrite insert_by_perm, IH. Qed.

Lemma insert_by_sorted x l : StronglySorted (fun a b => key a <= key b) l -> StronglySorted (fun a b => key a <= key b) (insert_by x l).
Proof.
  induction 1 as [|y l Hl IH Hy]; cbn; [repeat constructor|]. destruct (Z.leb_spec (key x) (key y)) as [Hle|Hlt].
  - constructor; [by constructor|]. constructor; [done|]. eapply Forall_impl; [exact Hy|]. cbn. lia.
  - constructor; [done|]. rewrite insert_by_perm. constructor; [lia|done].
Qed.

Lemma sort_by_sorted l : StronglySorted (fun a b => key a <= key b) (sort_by l).
Proof. induction l as [|x l IH]; cbn; [constructor|]. by apply insert_by_sorted. Qed.

(** What is in order already stays as it is. *)
Lemma sort_by_id l : StronglySorted (fun a b => key a <= key b) l -> sort_by l = l.
Proof.
  induction 1 as [|x l Hl IH Hx]; cbn; [done|]. fold (sort_by l). rewrite IH. destruct l as [|y l]; [done|]. cbn.
  apply Forall_cons in Hx as [Hx _]. by rewrite (proj2 (Z.leb_le _ _) Hx).
Qed.
End sort_by.

(** The entries of a map in the order of their keys. *)
Definition name_le {A} (a b : string * A) : Prop := str_ltb b.1 a.1 = false.
#[export] Instance name_le_dec {A} : RelDecision (@name_le A). Proof. intros a b. unfold name_le. apply _. Defined.

Definition by_name {A} (m : gmap string A) : list (string * A) := merge_sort name_le (map_to_list m).

(** ** Members the bodies use *)

(** A member of a map, decoded onto what the members before it left. *)
Definition count_member (acc : option (gmap string Z)) (kv : string * json) : option (gmap string Z) :=
  m ← acc; n ← of_json kv.2 0; Some (<[kv.1 := n]> m).

(** A [map[string]int64]: keys are written in order; on reading, a later member of the
    same name replaces an earlier one and null is the zero value. *)
#[export] Instance counts_codec : Codec (gmap string Z) := {|
  to_json m := JObject (map (fun kv => (kv.1, JInt kv.2)) (by_name m));
  of_json j old :=
    match j with
    | JNull => Some ∅
    | JObject ms => foldl count_member (Some old) ms
    | _ => None
    end;
  zero := ∅;
  empty m := bool_decide (m = ∅)
|}.

(** [any]: numbers must be doubles. *)
Fixpoint any_ok (j : json) : bool :=
  match j with
  | JNumber n => match MySQLDump.ParseFloat n with Some _ => true | None => false end
  | JArray l => forallb any_ok l
  | JObject fs => forallb (fun kv => match kv with (_, v) => any_ok v end) fs
  | _ => true
  end.

#[export] Instance any_codec : Codec json := {|
  to_json j := j;
  of_json j _ := if any_ok j then Some j else None;
  zero := JNull;
  empty j := match j with JNull => true | _ => false end
|}.

(** [liveLog] on the node and [nodeLiveLog] on the panel. *)
Record liveLog := mkLog { l_ID : Z; l_TS : string; l_Level : string; l_Line : string }.

#[export] Instance liveLog_codec : Codec liveLog := {|
  to_json l := JObject (emit "id" (l_ID l) ++ emit "ts" (l_TS l) ++ emit "level" (l_Level l) ++ emit "line" (l_Line l) ++ [])%list;
  of_json j old := match j with
    | JNull => Some old
    | JObject ms =>
        id ← get_from "id" (Some (l_ID old)) ms;
        ts ← get_from "ts" (Some (l_TS old)) ms;
        level ← get_from "level" (Some (l_Level old)) ms;
        line ← get_from "line" (Some (l_Line old)) ms;
        Some (mkLog id ts level line)
    | _ => None
    end;
  zero := mkLog 0 "" "" "";
  empty _ := false
|}.

(** [liveResponse], [nodeLiveResponse] *)
Record liveResponse := mkResponse { LogStream : bool; LogAfter : Z; IntervalMS : Z }.

#[export] Instance liveResponse_codec : Codec liveResponse := {|
  to_json r := JObject (emit "log_stream" (LogStream r) ++ emit "log_after" (LogAfter r) ++ emit "interval_ms" (IntervalMS r) ++ [])%list;
  of_json j old := match j with
    | JNull => Some old
    | JObject ms =>
        stream ← get_from "log_stream" (Some (LogStream old)) ms;
        after ← get_from "log_after" (Some (LogAfter old)) ms;
        interval ← get_from "interval_ms" (Some (IntervalMS old)) ms;
        Some (mkResponse stream after interval)
    | _ => None
    end;
  zero := mkResponse false 0 0;
  empty _ := false
|}.

(** [compress/gzip]: what the node's writer makes of a body, and what the panel's
    reader finds in the bytes it is given: an error at the header, or the bytes it read
    until the end or until an error. [overrun] says that the reader ran into the limit
    on the bytes of the request. *)
Class Gzip := {
  gzipBytes : string -> option string;
  gunzip : string -> bool -> option (string * option bool)
}.

(** What is compressed is read back; a reader that ran into the limit says so. *)
Class GzipLaws `{Gzip} := {
  gzip_reads : forall b z, gzipBytes b = Some z -> gunzip z false = Some (b, None);
  gzip_overrun : forall b out, gunzip b true <> Some (out, None)
}.

(** [time.Format] of an instant in microseconds: with the node's layout and as
    RFC3339Nano. *)
Class Clock := { Format_ms : Z -> string; Format_nano : Z -> string }.

Module LiveReporter.

Definition second : Z := 1000000000.
Definition liveInterval : Z := 5 * second.
Definition liveStreamInterval : Z := second.
Definition liveRetryAfter404 : Z := 30 * second.
Definition liveWarnEvery : Z := 60 * second.
Definition liveGzipOver : nat := 1024.
Definition liveLogsMax : Z := 500.
Definition liveLogsFirst : Z := 200.
Definition liveMinWait : Z := second / 4.
Definition liveMaxWait : Z := 60 * second.

Record liveRequest := mkRequest {
  ConnsTotal : Z; PortConns : gmap string Z; Online : list (string * Z); Suppressed : gmap string Z; Logs : list liveLog
}.

(** A row of [Online]: the name and the number of connections. *)
Definition online_row (p : string * Z) : list json := [JString p.1; JInt p.2].

(** [json.Marshal] *)
Definition request_json (r : liveRequest) : json :=
  JObject (emit "conns_total" (ConnsTotal r) ++ emit "port_conns" (PortConns r) ++
    emit "online" (map online_row (Online r)) ++
    emit "suppressed" (Suppressed r) ++ omitempty "logs" (Logs r) ++ [])%list.

(** What the loop keeps: the panel's last answer and the time of the last complaint
    (nanoseconds). *)
Record liveReporter := mkReporter { logStream : bool; logAfter : Z; lastWarn : option Z }.

Definition newLiveReporter : liveReporter := mkReporter false 0 None.

(** The parts of the process a report reads; each may be missing. The users of
    a snapshot come sorted by name. *)
Record server := mkServer {
  traffic : option Presence.PresenceSnapshot;
  suppressed : option Noise.Aggregator;
  ring : option (Ring NodeRing.Entry)
}.

Definition selectLiveLogs (r : Ring NodeRing.Entry) (after : Z) : list NodeRing.Entry :=
  if (after <=? 0) || (after <? NodeRing.OldestID r) then NodeRing.Newest liveLogsFirst r
  else NodeRing.Since after liveLogsMax r.

Section program.
Context `{Clock, Gzip}.

Definition log_of (e : NodeRing.Entry) : liveLog :=
  mkLog (NodeRing.ID e) (Format_ms (NodeRing.ID e)) (NodeRing.Level e) (NodeRing.Text e).

Definition buildLiveRequest (s : server) (stream : bool) (after : Z) : liveRequest :=
  mkRequest
    (match traffic s with Some snap => Presence.Total snap | None => 0 end)
    (match traffic s with Some snap => kmap (M2 := gmap string) Itoa (Presence.Ports snap) | None => ∅ end)
    (match traffic s with Some snap => by_name (Presence.Users snap) | None => [] end)
    (match suppressed s with Some a => Noise.Totals a | None => ∅ end)
    (match ring s with Some r => if stream then map log_of (selectLiveLogs r after) else [] | None => [] end).

Definition failed (l : liveReporter) : liveReporter := mkReporter false (logAfter l) (lastWarn l).

Definition nextWait (out : liveResponse) : Z :=
  if 0 <? IntervalMS out then Z.min (Z.max (int64 (IntervalMS out * 1000000)) liveMinWait) liveMaxWait
  else if LogStream out then liveStreamInterval else liveInterval.

(** [warn]: whether a line is logged. *)
Definition warn (now : Z) (l : liveReporter) : liveReporter * bool :=
  if match lastWarn l with None => true | Some w => liveWarnEvery <=? now - w end
  then (mkReporter (logStream l) (logAfter l) (Some now), true) else (l, false).

(** The body posted and whether it is compressed. *)
Definition body_of (req : liveRequest) : string * bool :=
  let body := encode (request_json req) in
  if (liveGzipOver <? String.length body)%nat then
    match gzipBytes body with Some z => (z, true) | None => (body, false) end
  else (body, false).

(** What came of the request: no answer (or the process is stopping), or a status and a
    body. *)
Inductive answer := NoAnswer (cancelled : bool) | Answer (status : Z) (body : string).

(** The rest of [tick], from the answer on: the state, the wait before the next report,
    and whether a warning was logged. *)
Definition finish (now : Z) (a : answer) (l : liveReporter) : liveReporter * Z * bool :=
  let complain wait := let '(l', w) := warn now (failed l) in (l', wait, w) in
  match a with
  | NoAnswer true => (l, liveInterval, false)
  | NoAnswer false => complain liveInterval
  | Answer status body =>
      if status =? 404 then complain liveRetryAfter404
      else if negb (status =? 200) then complain liveInterval
      else match (p ← decode_value body; of_json p.1 zero) with
           | None => complain liveInterval
           | Some out => (mkReporter (LogStream out) (LogAfter out) (lastWarn l), nextWait out, false)
           end
  end.

(** [tick]: the request is built from what the last answer said; [post] is what the
    panel and the network make of the body. *)
Definition tick (s : server) (now : Z) (post : string * bool -> answer) (l : liveReporter) : liveReporter * Z * bool :=
  finish now (post (body_of (buildLiveRequest s (logStream l) (logAfter l)))) l.

(** [liveSnapshot], what [status] reads. *)
Record liveSnapshot := mkSnapshot { At : Z; sn_ConnsTotal : Z; UsersOnline : Z; sn_PortConns : gmap string Z }.

Definition live_state (now : Z) (req : liveRequest) : liveSnapshot :=
  mkSnapshot now (ConnsTotal req) (Z.of_nat (length (Online req))) (PortConns req).
End program.
End LiveReporter.

Module NodeLive.
Import Redis.

Definition nodeLiveMaxBody : N := 4 * 2 ^ 20.
Definition nodeLiveIdleIntervalMS : Z := 5000.
Definition nodeLiveStreamIntervalMS : Z := 1000.
Definition presenceZAddChunk : nat := 1000.
Definition logPushChunk : nat := 500.

(** Lifetimes in milliseconds. *)
Definition presenceKeyTTL : Z := 20 * 1000.
Definition nodeLogTTL : Z := 7 * 24 * 3600 * 1000.

Definition presenceUsersKey := "presence:users".
Definition presenceLiveKey := "presence:live".
Definition presenceNodePortsKey (nodeID : Z) : string := "presence:node:" ++ Itoa nodeID ++ ":ports".
Definition presenceNodeTotalKey (nodeID : Z) : string := "presence:node:" ++ Itoa nodeID ++ ":total".
Definition Key (source : string) : string := "logs:" ++ source.
Definition NodeSource (nodeID : Z) : string := "node:" ++ Itoa nodeID.
Definition NodeSeqKey (nodeID : Z) : string := "logs:nodeseq:" ++ Itoa nodeID.
Definition WatchKey (nodeID : Z) : string := "logs:watch:node:" ++ Itoa nodeID.

(** [Entry.Encode] and [Decode]: the element of a Redis list. *)
Definition Encode (e : LogStream.Entry) : string :=
  encode (to_json (mkLog (LogStream.ID e) (LogStream.TS e) (LogStream.Level e) (LogStream.Line e))).

Definition Decode (raw : string) : option LogStream.Entry :=
  j ← parse raw; l ← of_json j (@zero liveLog _);
  if l_ID l <=? 0 then None else Some (LogStream.mkEntry (l_ID l) (l_TS l) (l_Level l) (l_Line l)).

Record nodeLiveRequest := mkRequest {
  ConnsTotal : Z; PortConns : gmap string Z; Online : list (list json); Logs : list liveLog
}.

Definition request_of_json (j : json) : option nodeLiveRequest :=
  match j with
  | JNull => Some (mkRequest 0 ∅ [] [])
  | JObject ms =>
      total ← get_from "conns_total" (Some 0) ms;
      ports ← get_from "port_conns" (Some ∅) ms;
      online ← get_from "online" (Some []) ms;
      logs ← get_from "logs" (Some []) ms;
      Some (mkRequest total ports online logs)
  | _ => None
  end.

Inductive refusal :=
  | BadGzip | TooLarge | BadRead | BadJSON
  | EmptyRow (i : Z) | NotAName (i : Z) | NotANumber (i : Z)
  | StoreDown.

Definition status_of (r : refusal) : Z :=
  match r with TooLarge => 413 | StoreDown => 503 | _ => 422 end.

Fixpoint empty_row (i : Z) (rows : list (list json)) : option Z :=
  match rows with [] => None | [] :: _ => Some i | _ :: rows => empty_row (i + 1) rows end.

(** The users connected right now: a row without a count is, a count that is not
    positive and an empty name are skipped. *)
Fixpoint online_names (i : Z) (rows : list (list json)) : result refusal (list string) :=
  match rows with
  | [] => Ok []
  | (JString name :: counts) :: rows =>
      connected ← match counts with
                  | [] => Ok true
                  | JNumber n :: _ =>
                      match MySQLDump.ParseFloat n with
                      | Some (MySQLDump.Finite x) => Ok (0 <? GoFloat.num x)
                      | _ => Err (NotANumber i)
                      end
                  | _ => Err (NotANumber i)
                  end;
      names ← online_names (i + 1) rows;
      Ok (if connected && negb (String.eqb name "") then name :: names else names)
  | _ => Err (NotAName i)
  end.

(** A port with at least one connection. *)
Definition port_ok (kv : string * Z) : bool :=
  match ParseInt kv.1 with Some p => (1 <=? p) && (p <=? 65535) && (1 <=? kv.2) | None => false end.

Definition live_ports (m : gmap string Z) : list (string * Z) := List.filter port_ok (map_to_list m).

Definition live_total (req : nodeLiveRequest) : Z :=
  let portSum := int64 (foldr (fun kv acc => kv.2 + acc) 0 (live_ports (PortConns req))) in
  if ConnsTotal req <=? 0 then portSum else ConnsTotal req.

(** Pieces of at most [n]. *)
Fixpoint pieces {A} (fuel n : nat) (l : list A) : list (list A) :=
  match fuel, l with S fuel, _ :: _ => take n l :: pieces fuel n (drop n l) | _, _ => [] end.

Section panel.
Context `{Clock, Gzip}.

(** The line as stored: cut, with a time and a level the panel knows. *)
Definition stored_entry (l : liveLog) : LogStream.Entry :=
  LogStream.mkEntry (l_ID l) (if String.eqb (l_TS l) "" then Format_nano (l_ID l) else l_TS l)
    (LogStream.NormalizeLevel (l_Level l)) (LogStream.cut_line LogStream.MaxLineBytes (l_Line l)).

(** The first of every run of equal ids. *)
Fixpoint dedup (last : option Z) (l : list LogStream.Entry) : list LogStream.Entry :=
  match l with
  | [] => []
  | e :: l => if bool_decide (last = Some (LogStream.ID e)) then dedup last l else e :: dedup (Some (LogStream.ID e)) l
  end.

Definition prepareNodeLogs (logs : list liveLog) (stored : Z) : list LogStream.Entry :=
  let out := map stored_entry (List.filter (fun l => negb ((l_ID l <=? stored) || (l_ID l <=? 0))) logs) in
  lastn LogStream.RingSize (dedup None (sort_by LogStream.ID out)).

(** The bytes of the body, decompressed. *)
Definition raw_body (max : N) (encoding body : string) : result refusal string :=
  let overrun := (max <? N.of_nat (String.length body))%N in
  if String.eqb (map_bytes lower_byte (TrimSpace encoding)) "gzip" then
    match gunzip (if overrun then stake (N.to_nat max) body else body) overrun with
    | None => Err BadGzip
    | Some (out, err) =>
        if (max <? N.of_nat (String.length out))%N then Err TooLarge
        else match err with Some true => Err TooLarge | Some false => Err BadRead | None => Ok out end
    end
  else if overrun then Err TooLarge else Ok body.

Definition read_capped (max : N) (encoding body : string) : result refusal nodeLiveRequest :=
  raw ← raw_body max encoding body;
  req ← match parse raw ≫= request_of_json with Some req => Ok req | None => Err BadJSON end;
  match empty_row 0 (Online req) with Some i => Err (EmptyRow i) | None => Ok req end.

Definition readNodeLiveRequest : string -> string -> result refusal nodeLiveRequest := read_capped nodeLiveMaxBody.

(** The transaction of one report. *)
Definition live_commands (nodeID nowMS : Z) (names : list string) (req : nodeLiveRequest) (newLogs : list LogStream.Entry) :
  list command :=
  let portsKey := presenceNodePortsKey nodeID in
  let listKey := Key (NodeSource nodeID) in
  let ports := live_ports (PortConns req) in
  (map (ZAdd presenceUsersKey) (pieces (length names) presenceZAddChunk (map (fun n => (n, nowMS)) names)) ++
   [Del portsKey] ++
   (match ports with
    | [] => []
    | _ => [HSet portsKey (map (fun kv => (kv.1, Itoa kv.2)) ports); Expire portsKey presenceKeyTTL]
    end) ++
   [SetEx (presenceNodeTotalKey nodeID) (Itoa (live_total req)) presenceKeyTTL; SetEx presenceLiveKey "1" presenceKeyTTL] ++
   (match newLogs with
    | [] => []
    | e :: es =>
        map (RPush listKey) (pieces (length newLogs) logPushChunk (map Encode newLogs)) ++
        [LTrimLast listKey LogStream.RingSize; Expire listKey nodeLogTTL;
         SetEx (NodeSeqKey nodeID) (Itoa (LogStream.ID (List.last es e))) nodeLogTTL]
    end) ++
   [Get (NodeSeqKey nodeID); Exists (WatchKey nodeID)])%list.

Definition is_wrong (r : reply) : bool := match r with WrongType => true | _ => false end.

(** What the last two answers of the transaction say. *)
Definition live_response (replies : list reply) : liveResponse :=
  let seq := match List.nth (length replies - 2) replies Status with Bulk (Some s) => s | _ => "" end in
  let watched := match List.nth (length replies - 1) replies Status with Int n => n | _ => 0 end in
  mkResponse (0 <? watched) (default 0 (ParseInt seq))
    (if 0 <? watched then nodeLiveStreamIntervalMS else nodeLiveIdleIntervalMS).

(** The stored cursor, asked for only when the report carries lines. *)
Definition stored_seq (nodeID : Z) (tr : trip) (d : db) : result refusal Z :=
  match send tr [Get (NodeSeqKey nodeID)] d with
  | (_, Some [Bulk None]) => Ok 0
  | (_, Some [Bulk (Some s)]) => match ParseInt s with Some z => Ok z | None => Err StoreDown end
  | _ => Err StoreDown
  end.

(** The transaction and the answer. *)
Definition commit (nodeID nowMS : Z) (tr : trip) (names : list string) (req : nodeLiveRequest) (newLogs : list LogStream.Entry)
  (d : db) : db * result refusal liveResponse :=
  match send tr (live_commands nodeID nowMS names req newLogs) d with
  | (d, Some replies) => (d, if existsb is_wrong replies then Err StoreDown else Ok (live_response replies))
  | (d, None) => (d, Err StoreDown)
  end.

(** [handleNodeLive]: [tr1] is the round trip for the cursor, [tr2] the transaction. *)
Definition handleNodeLive (nodeID nowMS : Z) (tr1 tr2 : trip) (encoding body : string) (d : db) :
  db * result refusal liveResponse :=
  match readNodeLiveRequest encoding body with
  | Err e => (d, Err e)
  | Ok req =>
      match online_names 0 (Online req) with
      | Err e => (d, Err e)
      | Ok names =>
          match (match Logs req with [] => Ok [] | logs => s ← stored_seq nodeID tr1 d; Ok (prepareNodeLogs logs s) end) with
          | Err e => (d, Err e)
          | Ok newLogs => commit nodeID nowMS tr2 names req newLogs d
          end
      end
  end.

(** The answer on the wire. *)
Definition answer_of (r : result refusal liveResponse) : Z * string :=
  match r with Ok resp => (200, encode (to_json resp)) | Err e => (status_of e, "") end.
End panel.
End NodeLive.
