(* ===== verification/OnlineView.v ===== *)
(** * OnlineView: reading what the live channel left — [presence.go], [logs.go]

    [Online] answers who is online, from the presence keys of Redis while every connected
    node reports and from [users.online_at] otherwise, with the count of
    [GET /api/system] cached for a second. [Logs] serves [GET /api/logs]: a page of a
    source's list, after a cursor and through a filter. Instants are microseconds. *)

From stdpp Require Import sorting.
From S2P Require Import Prelude GoStrings GoUrl GoJson Redis RingBuf LogStream Store NodeLive.
Import Redis NodeLive.

#[local] Open Scope string_scope.
#[local] Open Scope Z_scope.

Module Online.

Definition second : Z := 1000000.
Definition presenceOnlineWindow : Z := 15 * second.
Definition presenceRetention : Z := 6 * 3600 * second.
Definition onlineWindow : Z := 180 * second.
Definition onlineCountTTL : Z := second.
Definition connectedNodesTTL : Z := 5 * second.

Definition UnixMilli (t : Z) : Z := t / 1000.

(** [connectedNodesCache]: [None] until the first read. *)
Record connectedNodesCache := mkNodesCache { ids : list Z; nc_at : option Z }.

(** [connectedNodeIDs]: [listed] is what [ListNodes] answers, the ids with their
    status. *)
Definition connectedNodeIDs (now : Z) (listed : option (list (Z * string))) (c : connectedNodesCache) :
  connectedNodesCache * list Z :=
  if match nc_at c with Some at_ => now - at_ <? connectedNodesTTL | None => false end then (c, ids c)
  else match listed with
       | None => (c, ids c)
       | Some nodes =>
           let l := map fst (List.filter (fun n => String.eqb n.2 "connected") nodes) in (mkNodesCache l (Some now), l)
       end.

(** [queuePresenceLive] and [authoritative] *)
Definition presenceLive (nodeIDs : list Z) : list command :=
  Exists presenceLiveKey :: map (fun id => Exists (presenceNodeTotalKey id)) nodeIDs.

Definition yes (r : reply) : bool := match r with Int n => negb (n =? 0) | _ => false end.

Definition authoritative (nodeIDs : list Z) (replies : list reply) : bool := forallb yes (take (S (length nodeIDs)) replies).

Record presenceView := mkView { live : bool; seen : gmap string Z }.
Definition no_view : presenceView := mkView false ∅.

Definition set_seen (p : string * option Z) (m : gmap string Z) : gmap string Z :=
  match p with
  | (name, Some score) => if score <=? 0 then m else <[name := score * 1000]> m
  | (_, None) => m
  end.

(** [loadPresence]: a pipeline in which a command fails is an error. *)
Definition loadPresence (tr : trip) (nodeIDs : list Z) (usernames : list string) (d : db) : presenceView :=
  match usernames with
  | [] => no_view
  | _ =>
      match (send tr (presenceLive nodeIDs ++ [ZMScore presenceUsersKey usernames])%list d).2 with
      | Some replies =>
          if existsb is_wrong replies then no_view
          else match List.last replies Status with
               | Scores scores =>
                   mkView (authoritative nodeIDs replies) (foldl (fun m p => set_seen p m) ∅ (zip usernames scores))
               | _ => no_view
               end
      | None => no_view
      end
  end.

Definition userStatus (v : presenceView) (username : string) (dbOnlineAt : option Z) (now : Z) : bool * option Z :=
  let seenAt := seen v !! username in
  let onlineAt := match seenAt, dbOnlineAt with
                  | Some s, None => Some s
                  | Some s, Some o => if o <? s then Some s else Some o
                  | None, o => o
                  end in
  if live v then (match seenAt with Some s => now - presenceOnlineWindow <=? s | None => false end, onlineAt)
  else (match dbOnlineAt with Some o => now - onlineWindow <=? o | None => false end, onlineAt).

(** ** The count of [GET /api/system] *)

(** [onlineCountCache]: the count by scope with its time. *)
Abbreviation counts := (gmap Z (Z * Z)).

Definition cached (scope now : Z) (c : counts) : option Z :=
  match c !! scope with
  | Some (n, at_) => if (onlineCountTTL <=? now - at_) || (now <? at_) then None else Some n
  | None => None
  end.

(** The two statements. *)
Definition count_users (p : Store.User -> bool) (s : Store.Db) : Z :=
  Z.of_nat (length (List.filter p (map snd (map_to_list (Store.users s))))).

Definition CountOnlineUsersSince (cutoff : Z) (admin : option Z) (s : Store.Db) : Z :=
  count_users (fun u => match Store.OnlineAt u with Some o => cutoff <=? o | None => false end &&
                        bool_decide (admin = None \/ Store.AdminID u = admin)) s.

Definition CountAdminUsersByUsernames (names : list string) (admin : Z) (s : Store.Db) : Z :=
  count_users (fun u => str_mem (Store.Username u) names && bool_decide (Store.AdminID u = Some admin)) s.

Inductive counted := NotLive | Counted (n : Z) | DbError.

(** [presenceOnlineCount]; [s] is the database, [None] when it does not answer. *)
Definition presenceOnlineCount (tr : trip) (nodeIDs : list Z) (scope : option Z) (now : Z) (s : option Store.Db) (d : db) : counted :=
  let cutoff := UnixMilli (now - presenceOnlineWindow) in
  let last_cmd := match scope with None => ZCount presenceUsersKey cutoff | Some _ => ZRangeByScore presenceUsersKey cutoff end in
  match (send tr (presenceLive nodeIDs ++ [last_cmd])%list d).2 with
  | None => NotLive
  | Some replies =>
      if existsb is_wrong replies || negb (authoritative nodeIDs replies) then NotLive
      else match scope, List.last replies Status with
           | None, Int n => Counted n
           | Some _, Bulks [] => Counted 0
           | Some admin, Bulks names => match s with Some s => Counted (CountAdminUsersByUsernames names admin s) | None => DbError end
           | _, _ => NotLive
           end
  end.

(** [onlineUsersCount]; [later] is the clock when the count is stored. *)
Definition onlineUsersCount (tr : trip) (nodeIDs : list Z) (scope : option Z) (now later : Z) (s : option Store.Db) (d : db) (c : counts) :
  counts * option Z :=
  let key := default 0 scope in
  match cached key now c with
  | Some n => (c, Some n)
  | None =>
      match match presenceOnlineCount tr nodeIDs scope now s d with
            | Counted n => Some n
            | DbError => None
            | NotLive => CountOnlineUsersSince (now - onlineWindow) scope <$> s
            end with
      | Some n => (<[key := (n, later)]> c, Some n)
      | None => (c, None)
      end
  end.

(** A round of [RunPresenceTrim]. *)
Definition trim (tr : trip) (now : Z) (d : db) : db :=
  (send tr [ZRemBelow presenceUsersKey (UnixMilli (now - presenceRetention))] d).1.
End Online.

Module Logs.

Definition defaultLogLimit : Z := 300.
Definition maxLogLimit : Z := 1000.
Definition logWatchTTL : Z := 20 * 1000.

Definition quietWhenOK (path : string) : bool := str_mem path ["/api/logs"; "/api/logs/sources"; "/api/internal/node-live"].

(** [handleLogSources]: id, label, kind and, for a node, its status. *)
Definition handleLogSources (listed : option (list (Z * string * string))) : option (list (string * string * string * string)) :=
  nodes ← listed;
  Some (("panel", "Panel API", "panel", "") :: ("backend", "Backend jobs", "backend", "") ::
        map (fun '(id, name, status) => (NodeSource id, name, "node", status)) nodes).

Section logs.
(** [strings.ToLower] of a whole line; the clock's renderings are those of the
    entries. *)
Context (lower : string -> string).

Definition pickLogPage (all : list LogStream.Entry) (after limit minRank : Z) (needle : string) : list LogStream.Entry :=
  let out := List.filter (fun e => (after <? LogStream.ID e) && LogStream.Matches lower minRank needle e) all in
  if limit <? Z.of_nat (length out) then
    if after =? 0 then lastn (Z.to_nat limit) out else take (Z.to_nat limit) out
  else out.

Definition nextLogID (entries : list LogStream.Entry) (after : Z) : Z :=
  match List.rev entries with e :: _ => LogStream.ID e | [] => after end.

(** One reading of the end of a list: how many elements there were, and the entries
    among them in id order. *)
Definition read_tail (tr : trip) (key : string) (n : nat) (d : db) : option (nat * list LogStream.Entry) :=
  match (send tr [LRangeLast key n] d).2 with
  | Some [Bulks raw] => Some (length raw, sort_by LogStream.ID (omap Decode raw))
  | _ => None
  end.

(** [readLogEntries]: [reads k] is the state of the store and the round trip of the
    [k]-th reading; the number read doubles. *)
Fixpoint read_loop (fuel k : nat) (reads : nat -> trip * db) (key : string) (after : Z) (n : nat) : option (list LogStream.Entry) :=
  match fuel with
  | O => None
  | S fuel =>
      match read_tail (reads k).1 key n (reads k).2 with
      | None => None
      | Some (got, entries) =>
          let everything := (got <? n)%nat || (LogStream.RingSize <=? n)%nat in
          let covered := (after =? 0) || match entries with e :: _ => LogStream.ID e <=? after | [] => false end in
          if everything || covered then Some entries
          else read_loop fuel (S k) reads key after (Nat.min (n * 2) LogStream.RingSize)
      end
  end.

(** Doubling from 1 passes [RingSize] in 11 rounds. *)
Definition readLogEntries (reads : nat -> trip * db) (source : string) (after : Z) (limit : Z) (filtered : bool) : option (list LogStream.Entry) :=
  read_loop 12 0 reads (Key source) after (if filtered then LogStream.RingSize else Z.to_nat limit).

Inductive answer :=
  | Page (entries : list LogStream.Entry) (next : Z) (streaming : bool)
  | Refused (status : Z).

(** The query parameters, as the URL has them. *)
Record query := mkQuery { q_source : string; q_after : string; q_limit : string; q_level : string; q_q : string }.

Definition read_after (v : string) : result Z Z :=
  if String.eqb v "" then Ok 0
  else match ParseInt v with Some n => if n <? 0 then Err 422 else Ok n | None => Err 422 end.

Definition read_limit (v : string) : result Z Z :=
  if String.eqb v "" then Ok defaultLogLimit
  else match ParseInt v with Some n => Ok (if 0 <? n then Z.min n maxLogLimit else defaultLogLimit) | None => Err 422 end.

Definition read_rank (v : string) : result Z Z :=
  let v := TrimSpace v in
  if String.eqb v "" || String.eqb (map_bytes lower_byte v) "all" then Ok 0
  else match LogStream.LevelRank v with Some r => Ok r | None => Err 422 end.

(** The source: a process of the panel, or a node that exists. [node] is what
    [GetNodeByID] says: whether there is one, or an error. *)
Definition read_source (node : Z -> result Z bool) (source : string) : result Z (option Z) :=
  if String.eqb source "panel" || String.eqb source "backend" then Ok None
  else match strip_prefix "node:" source with
       | Some id =>
           match ParseInt id with
           | Some id =>
               if (id <? 1) || (2147483647 <? id) then Err 404
               else known ← node id; if (known : bool) then Ok (Some id) else Err 404
           | None => Err 404
           end
       | None => Err 404
       end.

(** [handleGetLogs]: [watch] is the round trip that marks a node as watched, [own] the
    source this process publishes and [ring] what it printed. *)
Definition handleGetLogs (node : Z -> result Z bool) (watch : trip) (reads : nat -> trip * db) (own : string)
  (ring : Ring LogStream.Entry) (q : query) (d : db) : db * answer :=
  let source := q_source q in
  let parsed : result Z (Z * Z * Z * option Z) :=
    if String.eqb source "" then Err 422
    else after ← read_after (q_after q);
         limit ← read_limit (q_limit q);
         rank ← read_rank (q_level q);
         nodeID ← read_source node source;
         Ok (after, limit, rank, nodeID) in
  match parsed with
  | Err status => (d, Refused status)
  | Ok (after, limit, minRank, nodeID) =>
      let needle := lower (q_q q) in
      let filtered := (0 <? minRank) || negb (String.eqb needle "") in
      let '(d, streaming) :=
        match nodeID with
        | None => (d, Some true)
        | Some id =>
            let '(d, r) := send watch [SetEx (WatchKey id) "1" logWatchTTL; Exists (presenceNodeTotalKey id)] d in
            (d, match r with Some [_; Int n] => Some (0 <? n) | _ => None end)
        end in
      match streaming with
      | None => (d, Refused 503)
      | Some streaming =>
          match readLogEntries reads source after limit filtered with
          | Some entries =>
              let page := pickLogPage entries after limit minRank needle in (d, Page page (nextLogID page after) streaming)
          | None =>
              if String.eqb source own && bool_decide (nodeID = None) then
                let all := if 0 <? after then LogStream.After after 0 ring else LogStream.Tail 0 ring in
                let page := pickLogPage all after limit minRank needle in (d, Page page (nextLogID page after) true)
              else (d, Refused 503)
          end
      end
  end.
End logs.
End Logs.
