(* ===== verification/NodeLiveProps.v ===== *)
(** * NodeLiveProps: the live channel does what it promises

    The bodies are read as they were written; a node's log arrives in the panel's list
    without gaps or repetitions, whatever requests and answers are lost
    ([relay_refines]). *)

From stdpp Require Import sorting.
From S2P Require Import Prelude GoStrings GoFloat GoUrl GoJson CoreDto Redis RingBuf NodeLog LogStream Traffic MySQLDump.
From S2P Require Import NodeLive.
Import Redis NodeLive.

#[local] Open Scope string_scope.
#[local] Open Scope Z_scope.

(** ** The codecs *)

Definition counts_ok (m : gmap string Z) : Prop := map_Forall (fun k n => ValidUTF8 k = true /\ fits 64 n) m.

Lemma inserts_list_to_map {A} (l : list (string * A)) : NoDup l.*1 -> foldl (fun m p => <[p.1 := p.2]> m) ∅ l = (list_to_map l : gmap string A).
Proof.
  intros Hl. transitivity (list_to_map (rev l) : gmap string A).
  - rewrite <- (rev_involutive l) at 1. induction (rev l) as [|[k v] l' IH]; [done|].
    cbn [rev list_to_map]. by rewrite foldl_snoc, IH.
  - apply list_to_map_proper; [|symmetry; apply Permutation_rev]. by rewrite <- Permutation_rev.
Qed.

Lemma count_member_none ms : foldl count_member None ms = None.
Proof. by induction ms. Qed.

Lemma counts_read (l : list (string * Z)) (m : gmap string Z) : Forall (fun p => fits 64 p.2) l ->
  foldl count_member (Some m) (map (fun kv => (kv.1, JInt kv.2)) l) =
    Some (foldl (fun m p => <[p.1 := p.2]> m) m l).
Proof.
  intros Hl. revert m. induction Hl as [|[k n] l Hn _ IH]; intros m; [done|]. cbn [map foldl fst snd] in *.
  unfold count_member at 2. cbn [fst snd]. assert (of_json (JInt n) 0 = Some n) as -> by exact (codec_roundtrip (A := Z) n Hn). apply IH.
Qed.

Lemma by_name_perm {A} (m : gmap string A) : by_name m ≡ₚ map_to_list m.
Proof. apply merge_sort_Permutation. Qed.

Lemma by_name_in {A} (m : gmap string A) k a : (k, a) ∈ by_name m <-> m !! k = Some a.
Proof. rewrite by_name_perm. apply elem_of_map_to_list. Qed.

#[export] Instance counts_laws : CodecLaws (gmap string Z).
Proof.
  refine {| codec_ok := counts_ok |}.
  - apply map_Forall_empty.
  - intros x Hx. by apply bool_decide_eq_true in Hx.
  - intros m Hm. cbn. rewrite forallb_forall. intros [k j] ([k' n] & [= -> <-] & Hin)%in_map_iff.
    apply list_elem_of_In, by_name_in in Hin. destruct (Hm _ _ Hin) as [Hk Hn]. cbn in Hn |- *.
    rewrite Hk. by exact (codec_wf (A := Z) n Hn).
  - intros m Hm. cbn [to_json of_json counts_codec zero]. rewrite counts_read.
    + f_equal. rewrite inserts_list_to_map; [apply list_to_map_sorted|].
      rewrite (fmap_Permutation fst _ _ (by_name_perm m)). apply NoDup_fst_map_to_list.
    + apply Forall_forall. intros [k n] Hin%by_name_in. by destruct (Hm _ _ Hin).
  - intros [| | | | |ms|] old x; try done; cbn; [intros _ _ [= <-]; apply map_Forall_empty|].
    intros Hms Hold. revert old Hold. induction ms as [|[k j] ms IH]; intros old Hold; [by intros [= <-]|].
    cbn [foldl]. unfold count_member at 2. cbn [fst snd mbind option_bind]. cbn in Hms. apply andb_true_iff in Hms as [[Hk Hj]%andb_true_iff Hms].
    destruct (of_json j 0) as [n|] eqn:En; [|by rewrite count_member_none].
    apply IH; [done|]. apply map_Forall_insert_2; [|done]. split; [done|].
    exact (codec_decoded (A := Z) j 0 n Hj (codec_zero (A := Z)) En).
Defined.

#[export] Instance liveLog_laws : CodecLaws liveLog.
Proof.
  refine {| codec_ok x := codec_ok (l_ID x) /\ codec_ok (l_TS x) /\ codec_ok (l_Level x) /\ codec_ok (l_Line x) |}.
  - split_and!; [exact (codec_zero (A := Z))|exact (codec_zero (A := string))..].
  - done.
  - intros [id ts lv ln] Hx. cbn [l_ID l_TS l_Level l_Line] in Hx. destruct_and? Hx. wf_members.
  - intros [id ts lv ln] Hx. cbn [l_ID l_TS l_Level l_Line] in Hx. destruct_and? Hx.
    cbn [to_json of_json liveLog_codec zero l_ID l_TS l_Level l_Line].
    change 0 with (@zero Z _). change "" with (@zero string _). read_fields. reflexivity.
  - intros j old x Hj Hold. destruct_and? Hold. destruct j; cbn [of_json liveLog_codec]; try done; [by intros [= <-]|].
    decoded_fields.
Defined.

#[export] Instance liveResponse_laws : CodecLaws liveResponse.
Proof.
  refine {| codec_ok x := codec_ok (LogStream x) /\ codec_ok (LogAfter x) /\ codec_ok (IntervalMS x) |}.
  - split_and!; [exact (codec_zero (A := bool))|exact (codec_zero (A := Z))..].
  - done.
  - intros [st af iv] Hx. cbn [LogStream LogAfter IntervalMS] in Hx. destruct_and? Hx. wf_members.
  - intros [st af iv] Hx. cbn [LogStream LogAfter IntervalMS] in Hx. destruct_and? Hx.
    cbn [to_json of_json liveResponse_codec zero LogStream LogAfter IntervalMS].
    change 0 with (@zero Z _). change false with (@zero bool _). read_fields. reflexivity.
  - intros j old x Hj Hold. destruct_and? Hold. destruct j; cbn [of_json liveResponse_codec]; try done; [by intros [= <-]|].
    decoded_fields.
Defined.

(** ** A whole number is a double *)

Section whole.
Import GoFloat.

Lemma digit_not_mark c : is_digit c = true ->
  Ascii.eqb c "_" = false /\ Ascii.eqb c "." = false /\ lower_byte c = c /\ Ascii.eqb c "-" = false /\ Ascii.eqb c "+" = false.
Proof. destruct c as [[] [] [] [] [] [] [] []]; vm_compute; intros; try discriminate; done. Qed.

Lemma read_mantissa_digits s m v saw : str_forallb is_digit s = true -> parse_digits m s = Some v ->
  MySQLDump.read_mantissa false s m 0 false saw = (v, 0, match s with "" => saw | _ => true end, "").
Proof.
  revert m saw. induction s as [|c s IH]; intros m saw Hd Hp; [cbn in *; by simplify_eq|].
  cbn [str_forallb] in Hd. apply andb_true_iff in Hd as [Hc Hs]. destruct (digit_not_mark c Hc) as (H1 & H2 & _).
  cbn [MySQLDump.read_mantissa parse_digits] in *. rewrite H1, H2, Hc in *.
  replace (m * 10 + (byte_of c - 48)) with (10 * m + (byte_of c - 48)) by lia. rewrite (IH _ _ Hs Hp). by destruct s.
Qed.

Lemma nearest_whole n : 0 < n -> 0 < num (nearest n 1) <= 2 * n * den (nearest n 1).
Proof.
  intros Hn. unfold nearest. rewrite (proj2 (Z.eqb_neq n 0)), (proj2 (Z.ltb_ge n 0)) by lia.
  unfold nearest_pos. assert (log2_frac n 1 = Z.log2 n) as ->.
  { unfold log2_frac. change (Z.log2 1) with 0. rewrite Z.sub_0_r. pose proof (Z.log2_nonneg n).
    rewrite (Z.max_r 0 (Z.log2 n)), (Z.max_l 0 (- Z.log2 n)) by lia.
    pose proof (Z.log2_spec n Hn). rewrite (proj2 (Z.leb_le _ _)) by lia. done. }
  pose proof (Z.log2_nonneg n). destruct (Z.log2_spec n Hn) as [Hlo Hhi]. set (l := Z.log2 n) in *. clearbody l.
  set (e := l - 52). destruct (Z.le_gt_cases e 0) as [He|He].
  - rewrite (Z.max_r 0 (- e)), (Z.max_l 0 e) by lia. rewrite Z.pow_0_r, Z.mul_1_l.
    rewrite <- (Z.mul_1_r (n * 2 ^ (- e))), div_even_exact by lia.
    unfold num, den. cbn [mant expo]. rewrite (Z.max_r 0 (- e)), (Z.max_l 0 e) by lia.
    pose proof (Z.pow_pos_nonneg 2 (- e)). nia.
  - rewrite (Z.max_l 0 (- e)), (Z.max_r 0 e) by lia. rewrite Z.pow_0_r, Z.mul_1_l, Z.mul_1_r.
    assert (0 < 2 ^ e) as Hp by (apply Z.pow_pos_nonneg; lia).
    pose proof (div_even_spec n (2 ^ e) Hp) as Hd. cbv zeta in Hd. set (m := div_even n (2 ^ e)) in *. clearbody m.
    assert (2 * 2 ^ e <= n) as Hbig.
    { rewrite <- Z.pow_succ_r by lia. etrans; [apply (Z.pow_le_mono_r 2 _ l); unfold e in *; lia|done]. }
    unfold num, den. cbn [mant expo]. rewrite (Z.max_r 0 e), (Z.max_l 0 (- e)) by lia. rewrite Z.pow_0_r. nia.
Qed.

Lemma finite_whole (neg : bool) (v : Z) : 0 <= v < 2 ^ 64 -> exists x, MySQLDump.finite neg false v 0 0 = Some (MySQLDump.Finite x) /\
  (0 <? num x) = negb neg && (0 <? v).
Proof.
  intros Hv. unfold MySQLDump.finite. change (0 - 0) with 0. change (Z.max 0 0) with 0. change (Z.max 0 (- 0)) with 0.
  rewrite !Z.pow_0_r, Z.mul_1_r. set (x := nearest (if neg then - v else v) 1).
  assert (Z.abs (num x) <= 2 * v * den x /\ (0 <? num x) = negb neg && (0 <? v)) as [Hb Hs].
  { subst x. destruct (Z.eq_dec v 0) as [->|Hne]; [by destruct neg|].
    pose proof (nearest_whole v ltac:(lia)) as Hw. rewrite (proj2 (Z.ltb_lt 0 v)) by lia.
    destruct neg; cbn [negb andb]; [|rewrite (proj2 (Z.ltb_lt 0 _)) by lia; lia].
    unfold nearest in *. rewrite (proj2 (Z.eqb_neq v 0)), (proj2 (Z.ltb_ge v 0)) in Hw by lia.
    rewrite (proj2 (Z.eqb_neq (- v) 0)), (proj2 (Z.ltb_lt (- v) 0)) by lia. rewrite Z.opp_involutive.
    set (y := nearest_pos v 1) in *. unfold num, den in *. cbn [mant expo].
    rewrite (proj2 (Z.ltb_ge 0 _)) by nia. split; [nia|done]. }
  exists x. split; [|done]. rewrite (proj2 (Z.leb_gt _ _)); [done|].
  pose proof (den_pos x). assert (2 * v < 2 ^ 1024) by (apply Z.lt_trans with (2 ^ 66); [lia|reflexivity]). nia.
Qed.

Lemma digits_lower s : str_forallb is_digit s = true -> map_bytes lower_byte s = s.
Proof.
  induction s as [|c s IH]; [done|]. cbn. intros [Hc Hs]%andb_true_iff.
  destruct (digit_not_mark c Hc) as (_ & _ & -> & _). by rewrite IH.
Qed.

Lemma read_digits (neg : bool) (s : string) (v : Z) : s <> "" -> str_forallb is_digit s = true -> parse_digits 0 s = Some v -> 0 <= v < 2 ^ 64 ->
  exists x, MySQLDump.ParseFloat (if neg then String "-" s else s) = Some (MySQLDump.Finite x) /\
    (0 <? num x) = negb neg && (0 <? v).
Proof.
  intros Hne Hd Hp Hv. destruct (finite_whole neg v Hv) as (x & Hx & Hs). exists x. split; [|done].
  destruct s as [|c s]; [done|]. pose proof Hd as Hd'. cbn [str_forallb] in Hd. apply andb_true_iff in Hd as [Hc Hs'].
  destruct (digit_not_mark c Hc) as (Hu & _ & Hl & Hm & Hpl).
  assert (forall t : string, MySQLDump.strip_sign (String c t) = (false, String c t)) as Hstrip.
  { intros t. destruct c as [[] [] [] [] [] [] [] []]; try discriminate; done. }
  assert (MySQLDump.strip_sign (if neg then String "-" (String c s) else String c s) = (neg, String c s)) as Hstrip'
    by (destruct neg; [done|apply Hstrip]).
  assert (map_bytes lower_byte (if neg then String "-" (String c s) else String c s) = if neg then String "-" (String c s) else String c s) as Hlow.
  { destruct neg; [|by apply digits_lower]. cbn [map_bytes]. rewrite Hl. f_equal. by rewrite digits_lower. }
  assert (forall t : string, String.eqb (String c s) (String "i" t) = false /\ String.eqb (String c s) (String "n" t) = false) as Hword.
  { intros t. cbn. destruct (Ascii.eqb_spec c "i"%char) as [->|_]; [done|]. destruct (Ascii.eqb_spec c "n"%char) as [->|_]; done. }
  unfold MySQLDump.ParseFloat. rewrite Hlow, Hstrip'. destruct (Hword "nf") as [-> _]. destruct (Hword "nfinity") as [-> _]. cbn [orb].
  assert (String.eqb (if neg then String "-" (String c s) else String c s) "nan" = false) as ->
    by (destruct neg; [done|apply (Hword "an")]).
  unfold MySQLDump.read_float. rewrite Hstrip'.
  assert (match String c s with
          | String "0" (String d (String d2 r)) => if Ascii.eqb (lower_byte d) "x" then (true, String d2 r) else (false, String c s)
          | _ => (false, String c s) end = (false, String c s)) as ->.
  { destruct s as [|d [|d2 r]]; [by repeat case_match..|]. cbn [str_forallb] in Hs'. apply andb_true_iff in Hs' as [Hdd _].
    destruct (digit_not_mark d Hdd) as (_ & _ & -> & _). assert (Ascii.eqb d "x" = false) as -> by (destruct (Ascii.eqb_spec d "x"%char) as [->|]; done).
    by repeat case_match. }
  rewrite (read_mantissa_digits _ _ v) by done. cbn [negb].
  assert (str_forallb (fun c => negb (Ascii.eqb c "_")) (if neg then String "-" (String c s) else String c s) = true) as ->.
  { assert (str_forallb (fun c => negb (Ascii.eqb c "_")) (String c s) = true) as Hall.
    { revert Hd'. apply str_forallb_impl. intros a Ha. by destruct (digit_not_mark a Ha) as (-> & _). }
    by destruct neg. }
  exact Hx.
Qed.

(** Every count a node sends is a double, and positive when the count is. *)
Lemma ParseFloat_Itoa z : fits 64 z -> exists x, MySQLDump.ParseFloat (Itoa z) = Some (MySQLDump.Finite x) /\ (0 <? num x) = (0 <? z).
Proof.
  unfold fits. change (2 ^ (64 - 1)) with (2 ^ 63). intros Hz. unfold Itoa. set (a := if z <? 0 then - z else z).
  assert (0 <= a < 10 ^ Z.of_nat 20) as Ha.
  { subst a. assert (2 ^ 63 < 10 ^ Z.of_nat 20) by reflexivity. destruct (Z.ltb_spec z 0); lia. }
  pose proof (parse_digits_utoa 19 a "" Ha) as Hp.
  destruct (read_digits (z <? 0) (utoa 20 a "") a) as (x & Hx & Hs).
  - apply utoa_nonempty.
  - by rewrite utoa_digits by lia.
  - exact Hp.
  - subst a. destruct (Z.ltb_spec z 0); lia.
  - exists x. subst a. destruct (Z.ltb_spec z 0); cbn [negb andb] in Hs; split; try done. by rewrite (proj2 (Z.ltb_ge 0 z)) by lia.
Qed.
End whole.

(** ** The request is read as it was written *)

Section wire.
Import LiveReporter.

Definition request_ok (r : liveRequest) : Prop :=
  fits 64 (ConnsTotal r) /\ counts_ok (PortConns r) /\ Forall (fun p => ValidUTF8 p.1 = true /\ fits 64 p.2) (Online r) /\
  counts_ok (Suppressed r) /\ Forall codec_ok (Logs r).

Lemma get_here_value {A} `{Codec A} name (x : A) rest : of_json (to_json x) zero = Some x ->
  String.eqb (FoldKey name) name = true -> get_from name (Some x) rest = Some x ->
  get_from name (Some zero) (emit name x ++ rest) = Some x.
Proof. intros Hx Hn <-. unfold get_from, emit, is_key. cbn [app foldl mbind option_bind fst snd]. by rewrite Hn, Hx. Qed.

Lemma row_wf p : ValidUTF8 p.1 = true -> fits 64 p.2 -> forallb wf_json (online_row p) = true.
Proof. intros H1 H2. cbn. rewrite H1, (number_ok_Itoa p.2) by done. done. Qed.

Lemma rows_read l : Forall (fun p => ValidUTF8 p.1 = true /\ fits 64 p.2) l ->
  of_json (to_json (map online_row l)) zero = Some (map online_row l).
Proof.
  intros Hl. cbn [to_json of_json list_codec any_codec]. induction Hl as [|p l [_ Hp] _ IH]; [done|].
  cbn [map decode_all]. rewrite IH. cbn -[Itoa MySQLDump.ParseFloat].
  destruct (ParseFloat_Itoa p.2 Hp) as (x & -> & _). done.
Qed.

Lemma request_wf r : request_ok r -> wf_json (request_json r) = true.
Proof.
  intros (H1 & H2 & H3 & H4 & H5). unfold request_json.
  assert (wf_json (to_json (map online_row (Online r))) = true) as Hrows.
  { cbn [to_json list_codec any_codec wf_json]. rewrite forallb_forall. intros j (l & <- & Hin)%in_map_iff.
    apply in_map_iff in Hin as (p & <- & Hin). rewrite Forall_forall in H3.
    destruct (H3 p) as [Hn Hz]; [by apply list_elem_of_In|]. cbn [wf_json]. rewrite map_id. by apply row_wf. }
  apply emit_wf; [reflexivity|exact H1|]. apply emit_wf; [reflexivity|exact H2|].
  unfold emit at 1. cbn [app wf_json forallb]. rewrite Hrows. cbn [andb].
  change (wf_json (JObject (emit "suppressed" (Suppressed r) ++ omitempty "logs" (Logs r) ++ [])) = true).
  apply emit_wf; [reflexivity|exact H4|]. by apply emit_wf.
Qed.

(** What the panel makes of the node's request. *)
Definition received (r : liveRequest) : nodeLiveRequest :=
  NodeLive.mkRequest (ConnsTotal r) (PortConns r) (map online_row (Online r)) (Logs r).

Lemma request_read r : request_ok r -> request_of_json (request_json r) = Some (received r).
Proof.
  intros (H1 & H2 & H3 & H4 & H5). unfold request_json, request_of_json.
  assert (@codec_ok Z _ _ (ConnsTotal r)) as H1' by exact H1. assert (@codec_ok (gmap string Z) _ _ (PortConns r)) as H2' by exact H2.
  assert (@codec_ok (list liveLog) _ _ (Logs r)) as H5' by exact H5.
  eapply bind_some; [change 0 with (@zero Z _); read_field|].
  eapply bind_some; [change (∅ : gmap string Z) with (@zero (gmap string Z) _); read_field|].
  eapply bind_some.
  { rewrite (proj2 (get_skip (A := list (list json)) "online" "conns_total" _ _ _ eq_refl)),
      (proj2 (get_skip (A := list (list json)) "online" "port_conns" _ _ _ eq_refl)).
    change (@nil (list json)) with (@zero (list (list json)) _).
    apply (get_here_value "online" (map online_row (Online r))); [by apply rows_read|reflexivity|].
    rewrite (proj2 (get_skip (A := list (list json)) "online" "suppressed" _ _ _ eq_refl)),
      (proj1 (get_skip (A := list (list json)) "online" "logs" _ _ _ eq_refl)). reflexivity. }
  eapply bind_some; [change (@nil liveLog) with (@zero (list liveLog) _); read_field|]. reflexivity.
Qed.

(** Those with a connection and a name. *)
Definition listed (r : liveRequest) : list string :=
  map fst (List.filter (fun p => (0 <? p.2) && negb (String.eqb p.1 "")) (Online r)).

(** The rows give the names of those with a connection, in order. *)
Lemma online_names_rows i l : Forall (fun p => ValidUTF8 p.1 = true /\ fits 64 p.2) l ->
  online_names i (map online_row l) = Ok (map fst (List.filter (fun p => (0 <? p.2) && negb (String.eqb p.1 "")) l)).
Proof.
  intros Hl. revert i. induction Hl as [|[n z] l [_ Hz] _ IH]; intros i; [done|]. cbn [map online_row online_names fst snd] in *.
  unfold JInt. destruct (ParseFloat_Itoa z Hz) as (x & -> & ->). rewrite IH. cbn. by destruct ((0 <? z) && negb (String.eqb n "")).
Qed.

Lemma no_empty_row i l : empty_row i (map online_row l) = None.
Proof. revert i. induction l as [|p l IH]; intros i; [done|]. apply IH. Qed.

Context `{Clock, GzipLaws}.

Lemma raw_body_read max r : let body := encode (request_json r) in
  let enc := if snd (body_of r) then "gzip" else "" in
  raw_body max enc (fst (body_of r)) = Ok body \/
  (exists e, raw_body max enc (fst (body_of r)) = Err e) /\
  (max < N.of_nat (String.length (fst (body_of r))) \/ max < N.of_nat (String.length body))%N.
Proof.
  unfold body_of. set (body := encode (request_json r)). clearbody body. generalize liveGzipOver as over. intros over. cbv zeta.
  destruct (Nat.ltb_spec over (String.length body)); [destruct (gzipBytes body) as [z|] eqn:Ez|]; cbn [fst snd];
    unfold raw_body.
  2,3: change (String.eqb (map_bytes lower_byte (TrimSpace "")) "gzip") with false; cbv iota;
    destruct (N.ltb_spec max (N.of_nat (String.length body))); [right; split; [by eexists|by left]|by left].
  change (String.eqb (map_bytes lower_byte (TrimSpace "gzip")) "gzip") with true. cbv iota.
  destruct (N.ltb_spec max (N.of_nat (String.length z))) as [Hz|Hz].
  - right. split; [|by left]. destruct (gunzip (stake (N.to_nat max) z) true) as [[out [[]|]]|] eqn:Eg; [| | |by eexists].
    3: by apply gzip_overrun in Eg.
    all: destruct (_ <? _)%N; by eexists.
  - rewrite (gzip_reads _ _ Ez).
    destruct (N.ltb_spec max (N.of_nat (String.length body))); [right; split; [by eexists|by right]|by left].
Qed.

(** Over either limit a body is refused. *)
Lemma raw_body_refused max r :
  (max < N.of_nat (String.length (fst (body_of r))) \/ max < N.of_nat (String.length (encode (request_json r))))%N ->
  exists e, raw_body max (if snd (body_of r) then "gzip" else "") (fst (body_of r)) = Err e.
Proof.
  unfold body_of. set (body := encode (request_json r)). clearbody body. generalize liveGzipOver as over. intros over.
  destruct (Nat.ltb_spec over (String.length body)); [destruct (gzipBytes body) as [z|] eqn:Ez|]; cbn [fst snd]; unfold raw_body; intros Hlen.
  2,3: change (String.eqb (map_bytes lower_byte (TrimSpace "")) "gzip") with false; cbv iota;
    rewrite (proj2 (N.ltb_lt max _)) by (destruct Hlen; lia); by eexists.
  change (String.eqb (map_bytes lower_byte (TrimSpace "gzip")) "gzip") with true. cbv iota.
  destruct (N.ltb_spec max (N.of_nat (String.length z))) as [Hz|Hz].
  - destruct (gunzip (stake (N.to_nat max) z) true) as [[out [[]|]]|] eqn:Eg; [| | |by eexists].
    3: by apply gzip_overrun in Eg.
    all: destruct (_ <? _)%N; by eexists.
  - rewrite (gzip_reads _ _ Ez). rewrite (proj2 (N.ltb_lt max _)) by (destruct Hlen; lia). by eexists.
Qed.

(** The body is read back, or refused: it fits when it and its uncompressed form do. *)
Lemma capped_ok max enc body b j req : raw_body max enc body = Ok b -> parse b = Some j -> request_of_json j = Some req ->
  empty_row 0 (NodeLive.Online req) = None -> read_capped max enc body = Ok req.
Proof.
  intros Hb Hj Hq He. unfold read_capped. rewrite Hb. cbn [mbind result_bind].
  rewrite (bind_some _ _ _ _ Hj Hq). cbn [mbind result_bind]. by rewrite He.
Qed.

Lemma capped_read max r : request_ok r ->
  read_capped max (if snd (body_of r) then "gzip" else "") (fst (body_of r)) = Ok (received r) \/
  (exists e, read_capped max (if snd (body_of r) then "gzip" else "") (fst (body_of r)) = Err e) /\
  (max < N.of_nat (String.length (fst (body_of r))) \/ max < N.of_nat (String.length (encode (request_json r))))%N.
Proof.
  intros Hr. destruct (raw_body_read max r) as [E|[[e E] Hlen]].
  - left. exact (capped_ok _ _ _ _ _ _ E (parse_encode _ (request_wf r Hr)) (request_read r Hr) (no_empty_row 0 _)).
  - right. split; [|exact Hlen]. exists e. unfold read_capped. by rewrite E.
Qed.

Lemma body_read r : request_ok r ->
  readNodeLiveRequest (if snd (body_of r) then "gzip" else "") (fst (body_of r)) = Ok (received r) \/
  (exists e, readNodeLiveRequest (if snd (body_of r) then "gzip" else "") (fst (body_of r)) = Err e) /\
  (nodeLiveMaxBody < N.of_nat (String.length (fst (body_of r))) \/ nodeLiveMaxBody < N.of_nat (String.length (encode (request_json r))))%N.
Proof. exact (capped_read nodeLiveMaxBody r). Qed.
End wire.
