(* ===== verification/LogRelay.v ===== *)
(** * LogRelay: a node's log reaches the panel's list

    The node's ring, its live loop, the network, the panel's handler and the store
    together, while requests and answers get lost, the store fails before or after a
    transaction, the node restarts and keys expire. What the panel's list holds is a run
    of the node's lines, in order and each once ([relay_refines]); a step adds the next
    lines without a gap, except that a panel which is behind what the ring still holds
    starts again from the newest lines. *)

From stdpp Require Import sorting.
From S2P Require Import Prelude GoStrings GoFloat GoUrl GoJson CoreDto Redis RingBuf NodeLog LogStream Traffic MySQLDump.
From S2P Require Import NodeLive NodeLiveProps.
Import Redis NodeLive.

#[local] Open Scope string_scope.
#[local] Open Scope Z_scope.

#[local] Existing Instance NodeRing.Entry_inhabited.

(** ** Stored entries *)

(** What the clock writes. *)
Class ClockLaws `{Clock} := {
  ms_valid t : ValidUTF8 (Format_ms t) = true;
  ms_nonempty t : Format_ms t <> "";
  nano_valid t : ValidUTF8 (Format_nano t) = true
}.

Lemma to_valid_valid fuel s t : ValidUTF8 (to_valid fuel s ++ t) = ValidUTF8 t.
Proof.
  revert s. induction fuel as [|fuel IH]; intros s; [done|]. cbn [to_valid].
  destruct s as [|c s]; [done|]. destruct (utf8_width (String c s)) as [|w] eqn:E; [apply IH|].
  rewrite <- str_app_assoc. rewrite <- E at 1. rewrite valid_rune by by rewrite E. apply IH.
Qed.

Lemma cut_valid limit s : ValidUTF8 s = true -> ValidUTF8 (LogStream.cut_line limit s) = true.
Proof.
  intros Hs. unfold LogStream.cut_line. destruct (_ <? _)%nat; [|done]. unfold ToValidUTF8. by rewrite to_valid_valid.
Qed.

Definition entry_ok (e : LogStream.Entry) : Prop :=
  0 < LogStream.ID e /\ fits 64 (LogStream.ID e) /\ ValidUTF8 (LogStream.TS e) = true /\
  ValidUTF8 (LogStream.Level e) = true /\ ValidUTF8 (LogStream.Line e) = true.

(** An element of the list is read back as the entry it was written from. *)
Lemma Decode_Entry e : entry_ok e -> Decode (Encode e) = Some e.
Proof.
  destruct e as [id ts lv ln]. intros (Hpos & Hid & Hts & Hlv & Hln). cbn [LogStream.ID LogStream.TS LogStream.Level LogStream.Line] in *.
  unfold Decode, Encode. cbn [LogStream.ID LogStream.TS LogStream.Level LogStream.Line].
  set (l := mkLog id ts lv ln). assert (codec_ok l) as Hl by done.
  eapply bind_some; [apply parse_encode; by apply codec_wf|]. eapply bind_some; [by apply codec_roundtrip|].
  subst l. cbn [l_ID l_TS l_Level l_Line]. by rewrite (proj2 (Z.leb_gt id 0)).
Qed.

(** A line the ring holds, as the loggers of a node write it. *)
Definition line_ok (e : NodeRing.Entry) : Prop :=
  0 < NodeRing.ID e /\ fits 64 (NodeRing.ID e) /\ ValidUTF8 (NodeRing.Level e) = true /\ ValidUTF8 (NodeRing.Text e) = true.

Section stored.
Context `{ClockLaws}.

(** The line as the panel stores it. *)
Definition stored (e : NodeRing.Entry) : LogStream.Entry := stored_entry (LiveReporter.log_of e).

Lemma stored_id e : LogStream.ID (stored e) = NodeRing.ID e.
Proof. done. Qed.

Lemma stored_ok e : line_ok e -> entry_ok (stored e).
Proof.
  intros (Hp & Hf & Hl & Ht). unfold stored, stored_entry, LiveReporter.log_of, entry_ok.
  cbn [LogStream.ID LogStream.TS LogStream.Level LogStream.Line l_ID l_TS l_Level l_Line]. split_and!; try done.
  - destruct (String.eqb _ _); [apply nano_valid|apply ms_valid].
  - unfold LogStream.NormalizeLevel. repeat case_match; done.
  - by apply cut_valid.
Qed.

Lemma log_ok e : line_ok e -> codec_ok (LiveReporter.log_of e).
Proof. intros (_ & Hf & Hl & Ht). split_and!; try done. apply ms_valid. Qed.

(** ** What one report adds *)

Lemma increasing_sorted {A} (key : A -> Z) (l : list A) : ids_increasing key l -> StronglySorted (fun a b => key a < key b) l.
Proof.
  induction l as [|x l IH]; intros Hl; constructor.
  - apply IH. by apply (ids_increasing_app_r key [x]).
  - apply Forall_forall. intros y Hy. eapply ids_increasing_head; [exact Hl|by apply list_elem_of_In].
Qed.

Lemma dedup_increasing last l : StronglySorted (fun a b => LogStream.ID a < LogStream.ID b) l ->
  match last with Some i => Forall (fun e => i < LogStream.ID e) l | None => True end -> dedup last l = l.
Proof.
  intros Hl. revert last. induction Hl as [|e l Hl IH He]; intros last Hlast; [done|]. cbn [dedup].
  rewrite bool_decide_eq_false_2.
  - f_equal. by apply IH.
  - intros ->. apply Forall_cons in Hlast as [Hlast _]. lia.
Qed.

(** A batch newer than the cursor is stored line by line. *)
Lemma prepare_batch (batch : list NodeRing.Entry) (cursor : Z) : ids_increasing NodeRing.ID batch ->
  (forall e, In e batch -> 0 < NodeRing.ID e /\ cursor < NodeRing.ID e) -> (length batch <= LogStream.RingSize)%nat ->
  prepareNodeLogs (map LiveReporter.log_of batch) cursor = map stored batch.
Proof.
  intros Hinc Hnew Hlen. unfold prepareNodeLogs.
  assert (List.filter (fun l => negb ((l_ID l <=? cursor) || (l_ID l <=? 0))) (map LiveReporter.log_of batch) = map LiveReporter.log_of batch) as ->.
  { apply filter_true. intros l (e & <- & He)%in_map_iff. cbn [LiveReporter.log_of l_ID]. destruct (Hnew e He).
    by rewrite (proj2 (Z.leb_gt _ cursor)), (proj2 (Z.leb_gt _ 0)). }
  rewrite map_map. change (fun x => stored_entry (LiveReporter.log_of x)) with stored.
  assert (StronglySorted (fun a b => LogStream.ID a < LogStream.ID b) (map stored batch)) as Hs.
  { apply increasing_sorted in Hinc. clear -Hinc. induction Hinc as [|e l _ IH He]; constructor; [exact IH|].
    apply Forall_fmap. eapply Forall_impl; [exact He|done]. }
  assert (StronglySorted (fun a b => LogStream.ID a <= LogStream.ID b) (map stored batch)) as Hle.
  { clear -Hs. induction Hs as [|e l _ IH He]; constructor; [done|]. eapply Forall_impl; [exact He|]. cbn. lia. }
  rewrite sort_by_id, dedup_increasing by done.
  apply lastn_all. by rewrite length_map.
Qed.
End stored.

(** ** The batch of a report *)

(** What [selectLiveLogs] picks is a run of what the ring holds: the lines right after
    the cursor, or the newest ones when the cursor is older than them all. *)
Inductive batch_of (lines : list NodeRing.Entry) (after : Z) (batch : list NodeRing.Entry) : Prop :=
  | batch_next old rest : lines = (old ++ batch ++ rest)%list ->
      (forall y, In y old -> NodeRing.ID y <= after) -> (forall y, In y (batch ++ rest) -> after < NodeRing.ID y) ->
      (batch = [] -> rest = []) -> batch_of lines after batch
  | batch_newest old : lines = (old ++ batch)%list -> length batch = Nat.min 200 (length lines) ->
      (0 < after -> forall y, In y lines -> after < NodeRing.ID y) -> batch_of lines after batch.

Lemma older_bound {A} (key : A -> Z) after l old : ids_increasing key l -> l = (old ++ newer key after l)%list ->
  forall y, In y old -> key y <= after.
Proof.
  intros Hl Ho y Hy. destruct (Z.le_gt_cases (key y) after) as [|Hgt]; [done|]. exfalso.
  assert (In y (newer key after l)) as Hn.
  { unfold newer. apply filter_In. split; [rewrite Ho; apply in_or_app; by left|by apply Z.ltb_lt]. }
  rewrite Ho in Hl. apply list_elem_of_In, list_elem_of_lookup in Hy as [i Hi]. apply list_elem_of_In, list_elem_of_lookup in Hn as [j Hj].
  pose proof (lookup_lt_Some _ _ _ Hi).
  assert (key y < key y) by (apply (Hl i (length old + j)%nat y y); [lia|by rewrite lookup_app_l by lia|by rewrite lookup_app_r, Nat.add_sub_swap, Nat.sub_diag by lia]).
  lia.
Qed.

Lemma select_batch r after : ring_inv NodeRing.ID r ->
  batch_of (contents r) after (LiveReporter.selectLiveLogs r after) /\ (length (LiveReporter.selectLiveLogs r after) <= 500)%nat.
Proof.
  intros Hr. pose proof (inv_sorted _ r Hr) as Hinc. unfold LiveReporter.selectLiveLogs.
  destruct ((after <=? 0) || (after <? NodeRing.OldestID r)) eqn:Hcase.
  - rewrite NodeRing.Newest_spec by done. change (Z.to_nat LiveReporter.liveLogsFirst) with 200%nat. split.
    + destruct (lastn_suffix 200 (contents r)) as [old Ho]. apply batch_newest with old; [done|apply length_lastn|].
      intros Hpos y Hy. go_bool. destruct Hcase as [?|Hold]; go_bool; [lia|]. unfold NodeRing.OldestID in Hold.
      destruct (Nat.eqb_spec (RingBuf.held r) 0) as [E|E]; [lia|].
      apply list_elem_of_In, list_elem_of_lookup in Hy as [i Hi]. pose proof (lookup_contents r 0 ltac:(lia)) as H0.
      destruct (decide (i = 0%nat)) as [->|]; [congruence|].
      specialize (Hinc 0%nat i _ _ ltac:(lia) H0 Hi). lia.
    + rewrite length_lastn. lia.
  - rewrite NodeRing.Since_spec by done. cbv zeta. change (LiveReporter.liveLogsMax <? 0) with false. cbv iota.
    change (Z.to_nat LiveReporter.liveLogsMax) with 500%nat. split; [|rewrite length_take; lia].
    destruct (newer_suffix NodeRing.ID after (contents r) Hinc) as [old Ho].
    apply batch_next with old (drop 500 (newer NodeRing.ID after (contents r))).
    + by rewrite take_drop.
    + by apply (older_bound NodeRing.ID after (contents r)).
    + intros y. rewrite take_drop. unfold newer. rewrite filter_In, Z.ltb_lt. tauto.
    + destruct (newer _ _ _); [done|]. discriminate.
Qed.

Lemma batch_new lines after batch : batch_of lines after batch -> 0 < after -> forall y, In y batch -> after < NodeRing.ID y.
Proof.
  intros [old rest Hl _ Hnew _|old Hl _ Hnew] Hpos y Hy.
  - apply Hnew, in_or_app. by left.
  - apply Hnew; [done|]. rewrite Hl. apply in_or_app. by right.
Qed.

Lemma batch_in lines after batch : batch_of lines after batch -> incl batch lines.
Proof. intros [old rest Hl _ _ _|old Hl _ _] y Hy; rewrite Hl; apply in_or_app; right; [apply in_or_app; by left|done]. Qed.

Lemma batch_run lines after batch : batch_of lines after batch -> exists old rest, lines = (old ++ batch ++ rest)%list.
Proof. intros [old rest Hl _ _ _|old Hl _ _]; [by exists old, rest|]. exists old, []. by rewrite app_nil_r. Qed.

Lemma ids_increasing_app_l {A} (key : A -> Z) l1 l2 : ids_increasing key (l1 ++ l2) -> ids_increasing key l1.
Proof.
  intros Hl i j x y Hij Hx Hy. apply (Hl i j); [done|..]; apply lookup_app_l_Some; done.
Qed.

Lemma batch_increasing lines after batch : ids_increasing NodeRing.ID lines -> batch_of lines after batch -> ids_increasing NodeRing.ID batch.
Proof.
  intros Hl (old & rest & ->)%batch_run. eapply ids_increasing_app_l, ids_increasing_app_r, Hl.
Qed.

(** ** What the transaction does to the log keys *)

Create HintDb live_keys.
#[export] Hint Unfold Key NodeSource NodeSeqKey WatchKey presenceUsersKey presenceLiveKey presenceNodePortsKey presenceNodeTotalKey : live_keys.

(** Two keys that differ in a letter. *)
Ltac other_key := autounfold with live_keys; cbn [String.append key_of]; let E := fresh in intros E; inversion E.

Section transaction.
Context `{Clock} (nodeID : Z).

Definition listKey : string := Key (NodeSource nodeID).
Definition seqKey : string := NodeSeqKey nodeID.

#[local] Hint Unfold listKey seqKey : live_keys.

Lemma list_seq : listKey <> seqKey.
Proof. other_key. Qed.

Lemma pieces_concat {A} fuel n (l : list A) : (0 < n)%nat -> (length l <= fuel)%nat -> concat (pieces fuel n l) = l.
Proof.
  intros Hn. revert l. induction fuel as [|fuel IH]; intros l Hl; [destruct l; [done|cbn in Hl; lia]|].
  destruct l as [|x l]; [done|]. cbn [pieces concat]. rewrite IH; [by rewrite take_drop|].
  rewrite length_drop. cbn [length] in *. lia.
Qed.

Lemma pieces_nonempty {A} fuel n (l : list A) : (0 < n)%nat -> Forall (fun p => p <> []) (pieces fuel n l).
Proof.
  intros Hn. revert l. induction fuel as [|fuel IH]; intros l; [constructor|]. destruct l as [|x l]; [constructor|].
  cbn [pieces]. constructor; [|apply IH]. destruct n; [lia|]. done.
Qed.

(** Pushing the pieces appends the whole. *)
Lemma run_pushes t k ps old d : Forall (fun p => p <> []) ps -> list_of (get t k d) = Some old ->
  list_of (get t k (run t (map (RPush k) ps) d).1) = Some (old ++ concat ps)%list.
Proof.
  intros Hps. revert old d. induction Hps as [|p ps Hp _ IH]; intros old d Hd; [by rewrite app_nil_r|].
  cbn [map run effect concat]. rewrite Hd. specialize (IH (old ++ p)%list (put t k (VList (old ++ p)) d)).
  destruct (run t (map (RPush k) ps) _) as [d' rs] eqn:E. cbn [fst] in *. rewrite app_assoc. apply IH.
  rewrite get_put; [done|]. cbn. apply bool_decide_eq_false_2. by destruct old, p.
Qed.

Definition log_commands (newLogs : list LogStream.Entry) : list command :=
  match newLogs with
  | [] => []
  | e :: es =>
      (map (RPush listKey) (pieces (length newLogs) logPushChunk (map Encode newLogs)) ++
      [LTrimLast listKey LogStream.RingSize; Expire listKey nodeLogTTL;
       SetEx seqKey (Itoa (LogStream.ID (List.last es e))) nodeLogTTL])%list
  end.

Lemma last_of_snoc {A} (x : A) l init e : x :: l = (init ++ [e])%list -> List.last l x = e.
Proof.
  intros E. replace (List.last l x) with (List.last (x :: l) x) by (by destruct l). rewrite E. apply last_last.
Qed.

Lemma log_commands_effect t init e old d : list_of (get t listKey d) = Some old ->
  let newLogs := (init ++ [e])%list in
  let d' := (run t (log_commands newLogs) d).1 in
  d' !! listKey = Some (mkCell (VList (lastn LogStream.RingSize (old ++ map Encode newLogs))) (Some (t + nodeLogTTL))) /\
  d' !! seqKey = Some (mkCell (VString (Itoa (LogStream.ID e))) (Some (t + nodeLogTTL))).
Proof.
  intros Hold. cbv zeta. destruct (init ++ [e])%list as [|x l] eqn:E; [by destruct init|].
  pose proof (last_of_snoc _ _ _ _ (eq_sym E)) as Hlast. clear E. cbn [log_commands]. rewrite run_app_db.
  set (ps := pieces _ _ _). assert (concat ps = map Encode (x :: l)) as Hps.
  { subst ps. apply pieces_concat; [unfold logPushChunk; lia|by rewrite length_map]. }
  assert (list_of (get t listKey (run t (map (RPush listKey) ps) d).1) = Some (old ++ map Encode (x :: l))%list) as Hpush.
  { rewrite <- Hps. apply run_pushes; [apply pieces_nonempty; unfold logPushChunk; lia|done]. }
  set (d1 := (run t (map (RPush listKey) ps) d).1) in *. clearbody d1.
  set (all := (old ++ map Encode (x :: l))%list) in *. assert (all <> []) as Hall by (subst all; by destruct old).
  cbn [run effect]. rewrite Hpush. assert (is_empty (VList (lastn LogStream.RingSize all)) = false) as Hemp.
  { cbn [is_empty]. apply bool_decide_eq_false_2. intros Hnil%(f_equal length). rewrite length_lastn in Hnil. cbn in Hnil.
    destruct all; [done|]. cbn in Hnil. unfold LogStream.RingSize in Hnil. lia. }
  rewrite (cell_at_put t listKey _ d1 Hemp), Hlast. cbn [fst held]. split.
  - rewrite lookup_insert_ne by (symmetry; apply list_seq). by rewrite lookup_insert_eq.
  - by rewrite lookup_insert_eq.
Qed.

(** The other commands of a report leave the log keys alone; its last two answers are
    about the cursor and the watchers. *)
Definition other_commands (nowMS : Z) (names : list string) (req : nodeLiveRequest) : list command :=
  (map (ZAdd presenceUsersKey) (pieces (length names) presenceZAddChunk (map (fun n => (n, nowMS)) names)) ++
   [Del (presenceNodePortsKey nodeID)] ++
   (match live_ports (PortConns req) with
    | [] => []
    | _ => [HSet (presenceNodePortsKey nodeID) (map (fun kv => (kv.1, Itoa kv.2)) (live_ports (PortConns req))); Expire (presenceNodePortsKey nodeID) presenceKeyTTL]
    end) ++
   [SetEx (presenceNodeTotalKey nodeID) (Itoa (live_total req)) presenceKeyTTL; SetEx presenceLiveKey "1" presenceKeyTTL])%list.

Lemma live_commands_split nowMS names req newLogs :
  live_commands nodeID nowMS names req newLogs =
    (other_commands nowMS names req ++ log_commands newLogs ++ [Get seqKey; Exists (WatchKey nodeID)])%list.
Proof. unfold live_commands, other_commands. by rewrite <- !app_assoc. Qed.

Lemma other_keys nowMS names req k : k = listKey \/ k = seqKey -> Forall (fun c => key_of c <> k) (other_commands nowMS names req).
Proof.
  intros Hk. unfold other_commands. rewrite !Forall_app. split_and!.
  - apply Forall_forall. intros c (p & -> & _)%list_elem_of_fmap. destruct Hk as [->| ->]; other_key.
  - repeat constructor. destruct Hk as [->| ->]; other_key.
  - destruct (live_ports _); repeat constructor; destruct Hk as [->| ->]; other_key.
  - repeat constructor; destruct Hk as [->| ->]; other_key.
Qed.

Lemma run_reads t k1 k2 d : (run t [Get k1; Exists k2] d).1 = d.
Proof. cbn. by destruct (get t k1 d) as [[| | |]|]. Qed.

Lemma report_keeps t nowMS names req d k : k = listKey \/ k = seqKey ->
  (run t (live_commands nodeID nowMS names req []) d).1 !! k = d !! k.
Proof. intros Hk. rewrite live_commands_split, !run_app_db, run_reads. change (log_commands []) with (@nil command). cbn [run fst]. apply run_frame. by apply other_keys. Qed.

Lemma report_stores t nowMS names req init e old d : list_of (get t listKey d) = Some old ->
  let newLogs := (init ++ [e])%list in
  let d' := (run t (live_commands nodeID nowMS names req newLogs) d).1 in
  d' !! listKey = Some (mkCell (VList (lastn LogStream.RingSize (old ++ map Encode newLogs))) (Some (t + nodeLogTTL))) /\
  d' !! seqKey = Some (mkCell (VString (Itoa (LogStream.ID e))) (Some (t + nodeLogTTL))).
Proof.
  intros Hold. cbv zeta. rewrite live_commands_split, !run_app_db, run_reads. apply log_commands_effect.
  rewrite <- Hold. f_equal. apply get_ext, run_frame, other_keys. by left.
Qed.

(** The answer says what the cursor is now. *)
Lemma response_after t nowMS names req newLogs d : let '(d', replies) := run t (live_commands nodeID nowMS names req newLogs) d in
  LogAfter (live_response replies) =
    match get t seqKey d' with Some (VString s) => default 0 (ParseInt s) | _ => 0 end.
Proof.
  rewrite live_commands_split, app_assoc. set (cs := (other_commands nowMS names req ++ log_commands newLogs)%list). pose proof (run_app_replies t cs [Get seqKey; Exists (WatchKey nodeID)] d) as Hr.
  pose proof (run_app_db t cs [Get seqKey; Exists (WatchKey nodeID)] d) as Hd. rewrite run_reads in Hd.
  destruct (run t (cs ++ _) d) as [d' rs]. cbn [fst snd] in *. subst d'. set (d1 := (run t cs d).1) in *. clearbody d1.
  set (r1 := (run t cs d).2) in *. clearbody r1. cbn [run] in Hr.
  assert (exists r, effect t (Get seqKey) d1 = (d1, r)) as [r Hg] by (cbn; repeat case_match; by eexists).
  rewrite Hg in Hr. assert (exists n, effect t (Exists (WatchKey nodeID)) d1 = (d1, Int n)) as [n Hw] by by eexists.
  rewrite Hw in Hr. cbn [snd] in Hr. subst rs. unfold live_response. rewrite length_app. cbn [length].
  replace (length r1 + 2 - 2)%nat with (length r1) by lia. cbn [LogAfter]. rewrite app_nth2, Nat.sub_diag by lia. cbn [List.nth].
  cbn [effect] in Hg. destruct (get t seqKey d1) as [[s|m|m|l]|]; by simplify_eq.
Qed.
End transaction.

#[export] Hint Unfold listKey seqKey : live_keys.

(** ** The promise *)

Module Relay.
Import LiveReporter.

(** The lines the node holds, and those it has given the panel since the panel last
    knew none. *)
Record Spec := mkSpec { lines : list NodeRing.Entry; relayed : list NodeRing.Entry }.

Inductive spec_step (capacity : nat) : Spec -> Spec -> Prop :=
  | sp_line e ls log : spec_step capacity (mkSpec ls log) (mkSpec (lastn capacity (ls ++ [e])) log)
  | sp_restart ls log : spec_step capacity (mkSpec ls log) (mkSpec [] log)
  | sp_forget ls log : spec_step capacity (mkSpec ls log) (mkSpec ls [])
  (* the lines after the last one given, none left out *)
  | sp_next old mid rest log x :
      (forall y, In y old -> NodeRing.ID y <= NodeRing.ID x) -> (forall y, In y (mid ++ rest) -> NodeRing.ID x < NodeRing.ID y) ->
      spec_step capacity (mkSpec (old ++ mid ++ rest) (log ++ [x])) (mkSpec (old ++ mid ++ rest) ((log ++ [x]) ++ mid))
  (* the last one given is gone from the ring: the newest lines *)
  | sp_jump old mid log x :
      (forall y, In y (old ++ mid) -> NodeRing.ID x < NodeRing.ID y) -> length mid = Nat.min 200 (length (old ++ mid)) ->
      spec_step capacity (mkSpec (old ++ mid) (log ++ [x])) (mkSpec (old ++ mid) ((log ++ [x]) ++ mid))
  (* a first run of lines *)
  | sp_first old mid rest : spec_step capacity (mkSpec (old ++ mid ++ rest) []) (mkSpec (old ++ mid ++ rest) mid).

(** ** The system *)

(** The store's clock and database, the node's ring and its live loop. *)
Record St := mkSt { clock : Z; store : db; nring : Ring NodeRing.Entry; rep : liveReporter }.

(** What becomes of a request: it gets nowhere (or something on the way answers with a
    failure), or the panel handles it over two round trips to the store and the answer
    arrives or is lost. *)
Inductive outcome := Nowhere (a : answer) | Handled (tr1 tr2 : trip) (answered : bool).

Definition within (lo hi : Z) (tr : trip) : Prop :=
  match tr with Answered t | Lost t => lo <= t <= hi | Unreached => True end.

Definition outcome_ok (t t' : Z) (o : outcome) : Prop :=
  match o with
  | Nowhere (Answer status _) => status <> 200
  | Nowhere (NoAnswer cancelled) => cancelled = false
  | Handled tr1 tr2 _ => exists m, t <= m <= t' /\ within t m tr1 /\ within m t' tr2
  end.

Section system.
Context {TC : Clock} {TL : ClockLaws} {GZ : Gzip} {GL : GzipLaws} (nodeID : Z) (capacity : Z).

Definition post (nowMS : Z) (o : outcome) (b : string * bool) (d : db) : db * answer :=
  match o with
  | Nowhere a => (d, a)
  | Handled tr1 tr2 answered =>
      let '(d, r) := handleNodeLive nodeID nowMS tr1 tr2 (if b.2 then "gzip" else "") b.1 d in
      (d, if answered then let '(status, body) := answer_of r in Answer status body else NoAnswer false)
  end.

(** What else the request carries. *)
Definition snapshot_ok (srv : server) : Prop :=
  (forall snap, traffic srv = Some snap -> fits 64 (Presence.Total snap) /\
     map_Forall (fun p n => 0 <= p /\ fits 64 n) (Presence.Ports snap) /\ counts_ok (Presence.Users snap)) /\
  (forall a, suppressed srv = Some a -> counts_ok (Noise.Totals a)).

Inductive step : St -> St -> Prop :=
  | s_line now level text t d r l : line_ok (NodeRing.Add now level text r).2 ->
      step (mkSt t d r l) (mkSt t d (NodeRing.Add now level text r).1 l)
  | s_restart t d r l : step (mkSt t d r l) (mkSt t d (NodeRing.NewRing capacity) newLiveReporter)
  (* time passes, and anybody else uses the store *)
  | s_time t d r l t' d' : t <= t' -> d' !! listKey nodeID = d !! listKey nodeID -> d' !! seqKey nodeID = d !! seqKey nodeID ->
      step (mkSt t d r l) (mkSt t' d' r l)
  | s_tick t d r l t' o nowMS now snap supp d' a : t <= t' -> outcome_ok t t' o ->
      snapshot_ok (mkServer snap supp (Some r)) ->
      post nowMS o (body_of (buildLiveRequest (mkServer snap supp (Some r)) (logStream l) (logAfter l))) d = (d', a) ->
      step (mkSt t d r l) (mkSt t' d' r (finish now a l).1.1).

(** A node and a panel that know nothing of each other yet. *)
Definition start (t : Z) (d : db) : St := mkSt t d (NodeRing.NewRing capacity) newLiveReporter.

(** What a reader of the list gets. *)
Definition panel_list (s : St) : list LogStream.Entry :=
  match get (clock s) (listKey nodeID) (store s) with Some (VList raw) => omap Decode raw | _ => [] end.

(** ** The store between two reports *)

Definition store_is (t : Z) (d : db) (log : list NodeRing.Entry) : Prop :=
  log = [] /\ cell_at t (listKey nodeID) d = None /\ cell_at t (seqKey nodeID) d = None \/
  exists log0 x ex, log = (log0 ++ [x])%list /\ t < ex /\
    d !! listKey nodeID = Some (mkCell (VList (map Encode (map stored (lastn LogStream.RingSize log)))) (Some ex)) /\
    d !! seqKey nodeID = Some (mkCell (VString (Itoa (NodeRing.ID x))) (Some ex)).

Lemma store_time t d log t' d' : store_is t d log -> t <= t' ->
  d' !! listKey nodeID = d !! listKey nodeID -> d' !! seqKey nodeID = d !! seqKey nodeID ->
  exists log', (log' = log \/ log' = []) /\ store_is t' d' log'.
Proof.
  intros [(-> & H1 & H2)|(log0 & x & ex & -> & Hex & H1 & H2)] Ht Hl Hs.
  - exists []. split; [by left|]. left. split; [done|].
    rewrite (cell_at_ext t' _ d' d Hl), (cell_at_ext t' _ d' d Hs). split; by eapply cell_at_later.
  - destruct (Z.lt_ge_cases t' ex) as [Hlt|Hge].
    + exists (log0 ++ [x])%list. split; [by left|]. right. exists log0, x, ex. by rewrite Hl, Hs.
    + exists []. split; [by right|]. left. split; [done|]. unfold cell_at, alive. rewrite Hl, Hs, H1, H2. cbn.
      by rewrite (proj2 (Z.ltb_ge t' ex)).
Qed.

Lemma store_list t d log : store_is t d log ->
  list_of (get t (listKey nodeID) d) = Some (map Encode (map stored (lastn LogStream.RingSize log))).
Proof.
  intros [(-> & H1 & _)|(log0 & x & ex & -> & Hex & H1 & _)]; unfold get; [by rewrite H1|].
  unfold cell_at, alive. rewrite H1. cbn. by rewrite (proj2 (Z.ltb_lt t ex)).
Qed.

Lemma store_seq t d log : store_is t d log ->
  get t (seqKey nodeID) d = match List.rev log with x :: _ => Some (VString (Itoa (NodeRing.ID x))) | [] => None end.
Proof.
  intros [(-> & _ & H2)|(log0 & x & ex & -> & Hex & _ & H2)]; unfold get; [by rewrite H2|].
  rewrite rev_unit. unfold cell_at, alive. rewrite H2. cbn. by rewrite (proj2 (Z.ltb_lt t ex)).
Qed.

Lemma lastn_app_lastn {A} n (a b : list A) : lastn n (lastn n a ++ b) = lastn n (a ++ b).
Proof.
  unfold lastn at 1 3. rewrite !length_app, length_lastn. unfold lastn. destruct (Nat.le_ge_cases n (length b)) as [Hn|Hn].
  - rewrite !drop_app_ge by (rewrite ?length_drop; lia). f_equal. rewrite length_drop. lia.
  - rewrite !drop_app_le by (rewrite ?length_drop; lia). f_equal. rewrite drop_drop. f_equal. lia.
Qed.

Lemma lastn_map {A B} (f : A -> B) n l : lastn n (map f l) = map f (lastn n l).
Proof. unfold lastn. rewrite length_map. apply skipn_map. Qed.

Lemma last_or_nil {A} (l : list A) : l = [] \/ exists init e, l = (init ++ [e])%list.
Proof. destruct l as [|x l] using rev_ind; [by left|right; by eexists _, _]. Qed.

(** A report adds its batch. *)
Lemma store_report t nowMS names req batch d log : store_is t d log ->
  store_is t (run t (live_commands nodeID nowMS names req (map stored batch)) d).1 (log ++ batch).
Proof.
  intros Hs. pose proof (store_list t d log Hs) as Hlist. destruct (last_or_nil batch) as [->|(init & e & ->)].
  - rewrite app_nil_r. cbn [map]. unfold store_is, cell_at in *.
    rewrite !report_keeps by (by left + by right). exact Hs.
  - right. exists (log ++ init)%list, e, (t + nodeLogTTL). rewrite app_assoc. split_and!; [done|unfold nodeLogTTL; lia|..].
    all: rewrite map_app; cbn [map].
    all: destruct (report_stores nodeID t nowMS names req (map stored init) (stored e) _ d Hlist) as [HL HS].
    + rewrite HL, <- app_assoc. do 3 f_equal. by rewrite <- !lastn_map, lastn_app_lastn, !map_app.
    + exact HS.
Qed.
(** ** One report *)

(** The cursor as the handler reads it. *)
Lemma stored_cursor tr t d log : tr = Answered t -> store_is t d log -> (forall x, In x log -> line_ok x) ->
  stored_seq nodeID tr d = Ok (match List.rev log with x :: _ => NodeRing.ID x | [] => 0 end).
Proof.
  intros -> Hs Hok. unfold stored_seq, send. cbn [run effect]. fold (seqKey nodeID). rewrite (store_seq t d log Hs).
  destruct (List.rev log) as [|x l] eqn:E; [done|]. cbn. rewrite ParseInt_Itoa_int64; [done|].
  apply Hok. apply in_rev. rewrite E. by left.
Qed.

(** The size of a report, on the wire and uncompressed. *)
Definition body_fits (r : liveRequest) : Prop :=
  (N.of_nat (String.length (fst (body_of r))) <= nodeLiveMaxBody)%N /\
  (N.of_nat (String.length (encode (request_json r))) <= nodeLiveMaxBody)%N.

(** What the handler does with a body the node wrote: nothing, or a transaction with
    the lines newer than the cursor. *)
Lemma handle_report nowMS tr1 tr2 req d d' res : request_ok req ->
  handleNodeLive nodeID nowMS tr1 tr2 (if snd (body_of req) then "gzip" else "") (fst (body_of req)) d = (d', res) ->
  (d' = d /\ (exists e, res = Err e) /\ (body_fits req -> exists e, stored_seq nodeID tr1 d = Err e)) \/
  exists newLogs, commit nodeID nowMS tr2 (listed req) (received req) newLogs d = (d', res) /\
    (Logs req = [] /\ newLogs = [] \/
     exists c, stored_seq nodeID tr1 d = Ok c /\ newLogs = prepareNodeLogs (Logs req) c).
Proof.
  intros Hreq. unfold handleNodeLive. destruct (body_read req Hreq) as [->|[[e ->] Hlen]];
    [|intros [= <- <-]; left; split_and!; [done|eauto|intros [Hf1 Hf2]; exfalso; destruct Hlen; lia]].
  cbn [received NodeLive.Online NodeLive.Logs]. destruct Hreq as (_ & _ & Hon & _ & _). rewrite (online_names_rows 0 _ Hon).
  destruct (Logs req) as [|l ls] eqn:El.
  - intros Hc. right. exists []. split; [exact Hc|]. by left.
  - destruct (stored_seq nodeID tr1 d) as [c|e] eqn:Es; cbn [mbind result_bind]; [|intros [= <- <-]; left; eauto 10].
    intros Hc. right. eexists _. split; [exact Hc|]. right. by exists c.
Qed.

Lemma response_ok rs : codec_ok (live_response rs).
Proof.
  split_and!; [done| |].
  - cbn. destruct (ParseInt _) as [z|] eqn:E; [by apply ParseInt_fits in E|done].
  - cbn. by destruct (0 <? _).
Qed.

(** A transaction adds its batch or nothing, and an answer tells the cursor. *)
Lemma commit_report t t' nowMS tr names req batch d d' res log : within t t' tr ->
  (forall u, t <= u <= t' -> store_is u d log \/ store_is u d []) ->
  commit nodeID nowMS tr names req (map stored batch) d = (d', res) ->
  tr = Unreached /\ d' = d /\ (exists e, res = Err e) \/
  exists u log0, t <= u <= t' /\ (log0 = log \/ log0 = []) /\ store_is u d' (log0 ++ batch) /\
    (forall resp, res = Ok resp -> codec_ok resp /\
       LogAfter resp = match get u (seqKey nodeID) d' with Some (VString s) => default 0 (ParseInt s) | _ => 0 end).
Proof.
  intros Htr Hall. unfold commit, send. destruct tr as [u|u|]; cbn [within] in Htr.
  - pose proof (response_after nodeID u nowMS names req (map stored batch) d) as Hresp.
    destruct (run u (live_commands nodeID nowMS names req (map stored batch)) d) as [d1 rs] eqn:E.
    intros [= <- <-]. right. pose proof Htr as [Hlo Hhi]. destruct (Hall u Htr) as [Hs|Hs]; apply (store_report u nowMS names req batch) in Hs; rewrite E in Hs;
      exists u; [exists log|exists []]; split_and!; try done; try (by left); try (by right);
      intros resp; destruct (existsb is_wrong rs); intros [= <-]; (split; [apply response_ok|exact Hresp]).
  - intros [= <- <-]. right. pose proof Htr as [Hlo Hhi]. destruct (Hall u Htr) as [Hs|Hs]; apply (store_report u nowMS names req batch) in Hs;
      exists u; [exists log|exists []]; split_and!; try done; try (by left); by right.
  - intros [= <- <-]. left. eauto.
Qed.

(** ** The invariant *)

Record inv (s : St) (log : list NodeRing.Entry) : Prop := {
  inv_ring : ring_inv NodeRing.ID (nring s);
  inv_cap : ring_cap (nring s) = ring_cap (NodeRing.NewRing capacity);
  inv_lines : forall x, In x (contents (nring s)) -> line_ok x;
  inv_log : forall x, In x log -> line_ok x;
  inv_order : ids_increasing NodeRing.ID log;
  inv_store : store_is (clock s) (store s) log;
  inv_rep : logStream (rep s) = true -> forall log0 x, log = (log0 ++ [x])%list -> logAfter (rep s) = NodeRing.ID x
}.

Lemma link_start_inv t d : cell_at t (listKey nodeID) d = None -> cell_at t (seqKey nodeID) d = None -> inv (start t d) [].
Proof.
  intros H1 H2. split; try done.
  - apply NodeRing.NewRing_inv.
  - by left.
Qed.

(** The panel's list, as the log tells it. *)
Lemma panel_log s log : store_is (clock s) (store s) log -> (forall x, In x log -> line_ok x) ->
  panel_list s = map stored (lastn LogStream.RingSize log).
Proof.
  intros Hs Hlog. pose proof (store_list _ _ _ Hs) as Hl. unfold panel_list.
  assert (omap Decode (map Encode (map stored (lastn LogStream.RingSize log))) = map stored (lastn LogStream.RingSize log)) as Hd.
  { assert (forall x, In x (lastn LogStream.RingSize log) -> line_ok x) as Hok by (intros x Hx%lastn_sub; by apply Hlog).
    clear Hl. induction (lastn LogStream.RingSize log) as [|x l IH]; [done|]. cbn [map omap list_omap].
    rewrite Decode_Entry by (apply stored_ok, Hok; by left). f_equal. apply IH. intros y Hy. apply Hok. by right. }
  destruct (get _ _ _) as [[ | | |raw]|]; cbn in Hl; try discriminate; [by simplify_eq|].
  injection Hl as Hl. destruct (lastn LogStream.RingSize log); [done|discriminate].
Qed.

(** Forgetting is the only thing time does to the log. *)
Lemma log_later t d log t' d' : store_is t d log -> t <= t' ->
  d' !! listKey nodeID = d !! listKey nodeID -> d' !! seqKey nodeID = d !! seqKey nodeID ->
  exists log', store_is t' d' log' /\ (log' = log \/ log' = []).
Proof. intros Hs Ht Hl Hq. destruct (store_time t d log t' d' Hs Ht Hl Hq) as (log' & Hc & Hs'). eauto. Qed.

(** *** What the loop knows after an answer *)

Lemma finish_failed now a l : match a with Answer status _ => status <> 200 | NoAnswer c => c = false end ->
  logStream (finish now a l).1.1 = false.
Proof.
  assert (forall w, logStream (let '(l', b) := warn now (failed l) in (l', w : Z, b : bool)).1.1 = false) as Hc.
  { intros w. unfold warn. by destruct (lastWarn (failed l)) as [x|]; [destruct (_ <=? _)|]. }
  destruct a as [c|status body]; cbn [finish]; [intros ->; apply Hc|]. intros Hs.
  destruct (status =? 404); [apply Hc|]. rewrite (proj2 (Z.eqb_neq status 200)) by done. apply Hc.
Qed.

Lemma finish_answer now resp l : codec_ok resp ->
  (finish now (Answer 200 (encode (to_json resp))) l).1.1 = mkReporter (LogStream resp) (LogAfter resp) (lastWarn l).
Proof.
  intros Hr. cbn [finish Z.eqb negb]. change (200 =? 404) with false. change (200 =? 200) with true. cbn [negb].
  pose proof (decode_encode _ (codec_wf resp Hr)) as Hd. pose proof (codec_roundtrip resp Hr) as Ho.
  by rewrite (bind_some _ (fun p => of_json p.1 zero) _ _ Hd Ho).
Qed.

(** *** A tick *)

Definition batch_sent (l : liveReporter) (r : Ring NodeRing.Entry) : list NodeRing.Entry :=
  if logStream l then selectLiveLogs r (logAfter l) else [].

Lemma request_logs srv r l : ring srv = Some r ->
  Logs (buildLiveRequest srv (logStream l) (logAfter l)) = map log_of (batch_sent l r).
Proof. intros E. unfold buildLiveRequest, batch_sent. cbn [Logs]. rewrite E. by destruct (logStream l). Qed.

Lemma batch_sent_run l r : ring_inv NodeRing.ID r -> (length (batch_sent l r) <= 500)%nat /\ (batch_sent l r = [] \/ logStream l = true /\ batch_of (contents r) (logAfter l) (batch_sent l r)).
Proof.
  intros Hr. unfold batch_sent. destruct (logStream l); [|split; [cbn; lia|by left]].
  destruct (select_batch r (logAfter l) Hr). split; [done|]. by right.
Qed.

Lemma ports_ok (m : gmap Z Z) : map_Forall (fun p n => 0 <= p /\ fits 64 n) m -> counts_ok (kmap (M2 := gmap string) Itoa m).
Proof.
  intros Hm k n Hk. unfold kmap in Hk. apply elem_of_list_to_map_2, list_elem_of_fmap in Hk as ([p z] & [= -> ->] & Hp%elem_of_map_to_list).
  destruct (Hm _ _ Hp) as [Hpos Hn]. split; [|done]. apply ascii_valid. eapply str_forallb_impl; [|by apply Itoa_digits].
  intros c. destruct c as [[] [] [] [] [] [] [] []]; done.
Qed.

Lemma request_sound srv r l : ring srv = Some r -> snapshot_ok srv -> ring_inv NodeRing.ID r ->
  (forall x, In x (contents r) -> line_ok x) -> request_ok (buildLiveRequest srv (logStream l) (logAfter l)).
Proof.
  intros Er [Ht Hs] Hr Hlines. unfold request_ok. rewrite (request_logs srv r l Er). unfold buildLiveRequest.
  cbn [ConnsTotal PortConns Online Suppressed]. split_and!.
  - destruct (traffic srv) as [snap|]; [apply (Ht _ eq_refl)|done].
  - destruct (traffic srv) as [snap|]; [apply ports_ok, (Ht _ eq_refl)|apply map_Forall_empty].
  - destruct (traffic srv) as [snap|]; [|constructor]. apply Forall_forall. intros [n z] Hin%by_name_in.
    by apply (Ht _ eq_refl) in Hin.
  - destruct (suppressed srv) as [a|]; [by apply (Hs _ eq_refl)|apply map_Forall_empty].
  - apply Forall_forall. intros j Hj%list_elem_of_In. apply in_map_iff in Hj as (e & <- & He). apply log_ok, Hlines.
    destruct (batch_sent_run l r Hr) as [_ [E|[_ Hb]]]; [by rewrite E in He|]. by eapply batch_in.
Qed.

(** The cursor a handler reads is older than everything in the batch. *)
Lemma cursor_older t m tr d log l r c : store_is t d log -> t <= m -> within t m tr -> (forall x, In x log -> line_ok x) ->
  (logStream l = true -> forall log0 x, log = (log0 ++ [x])%list -> logAfter l = NodeRing.ID x) ->
  ring_inv NodeRing.ID r -> (forall x, In x (contents r) -> line_ok x) ->
  stored_seq nodeID tr d = Ok c -> prepareNodeLogs (map log_of (batch_sent l r)) c = map stored (batch_sent l r).
Proof.
  intros Hs Htm Htr Hlog Hrep Hr Hlines Hc. destruct (batch_sent_run l r Hr) as [Hlen Hb].
  pose proof (inv_sorted _ r Hr) as Hinc.
  assert (forall x, In x (batch_sent l r) -> 0 < NodeRing.ID x) as Hpos.
  { intros x Hx. destruct Hb as [E|[_ Hb]]; [by rewrite E in Hx|]. by apply Hlines, (batch_in _ _ _ Hb). }
  apply prepare_batch; [| |unfold LogStream.RingSize; lia].
  { destruct Hb as [E|[_ Hb]]; [rewrite E; intros i j x y _ Hx; by rewrite lookup_nil in Hx|by eapply batch_increasing]. }
  intros x Hx. split; [by apply Hpos|]. destruct tr as [u|u|]; [|done..]. cbn [within] in Htr.
  destruct (log_later t d log u d Hs ltac:(lia) eq_refl eq_refl) as (log1 & Hs1 & Hl1).
  assert (forall x, In x log1 -> line_ok x) as Hlog1 by (destruct Hl1 as [->| ->]; [done|by intros ? []]).
  pose proof (stored_cursor (Answered u) u d log1 eq_refl Hs1 Hlog1) as Hc'. rewrite Hc in Hc'. injection Hc' as ->.
  destruct (last_or_nil log1) as [->|(log0 & z & ->)]; [by apply Hpos|]. rewrite rev_unit.
  destruct Hl1 as [Hl1|Hl1]; [|by destruct log0]. destruct Hb as [E|[Hst Hb]]; [by rewrite E in Hx|].
  rewrite (Hrep Hst log0 z (eq_sym Hl1)) in Hb. eapply batch_new; [exact Hb| |done]. apply Hlog1, in_or_app. right. by left.
Qed.

(** A batch the panel adds is a step of the promise. *)
Lemma batch_step cap log log0 l r : (log0 = log \/ log0 = []) ->
  (logStream l = true -> forall log1 x, log = (log1 ++ [x])%list -> logAfter l = NodeRing.ID x) ->
  ring_inv NodeRing.ID r -> (forall x, In x log -> line_ok x) ->
  rtc (spec_step cap) (mkSpec (contents r) log) (mkSpec (contents r) (log0 ++ batch_sent l r)).
Proof.
  intros Hl Hrep Hr Hok. destruct (batch_sent_run l r Hr) as [_ Hb].
  assert (rtc (spec_step cap) (mkSpec (contents r) log) (mkSpec (contents r) log0)) as Hto.
  { destruct Hl as [->| ->]; [done|]. apply rtc_once. constructor. }
  etrans; [exact Hto|]. destruct Hb as [->|[Hst Hb]]; [by rewrite app_nil_r|].
  destruct (last_or_nil log0) as [->|(log1 & x & ->)].
  - destruct (batch_run _ _ _ Hb) as (old & rest & ->). apply rtc_once. constructor.
  - destruct Hl as [Hl|Hl]; [|by destruct log1]. rewrite (Hrep Hst log1 x (eq_sym Hl)) in Hb.
    apply rtc_once. destruct Hb as [old rest -> Ho Hn _|old -> Hlen Hn].
    + by constructor.
    + constructor; [|done]. apply Hn. apply Hok. rewrite <- Hl. apply in_or_app. right. by left.
Qed.

Lemma batch_extends log log0 l r : (log0 = log \/ log0 = []) ->
  (logStream l = true -> forall log1 x, log = (log1 ++ [x])%list -> logAfter l = NodeRing.ID x) ->
  ring_inv NodeRing.ID r -> (forall x, In x log -> line_ok x) -> ids_increasing NodeRing.ID log ->
  ids_increasing NodeRing.ID (log0 ++ batch_sent l r).
Proof.
  intros Hl Hrep Hr Hok Hinc. destruct (batch_sent_run l r Hr) as [_ Hb].
  assert (ids_increasing NodeRing.ID log0) as H0.
  { destruct Hl as [->| ->]; [done|]. intros i j x y _ Hx. by rewrite lookup_nil in Hx. }
  destruct Hb as [->|[Hst Hb]]; [by rewrite app_nil_r|]. pose proof (inv_sorted _ r Hr) as Hs.
  apply ids_increasing_app; [done|by eapply batch_increasing|]. intros x y Hx Hy.
  destruct (last_or_nil log0) as [->|(log1 & z & ->)]; [done|]. destruct Hl as [Hl|Hl]; [|by destruct log1].
  rewrite (Hrep Hst log1 z (eq_sym Hl)) in Hb.
  assert (NodeRing.ID z < NodeRing.ID y).
  { eapply batch_new; [exact Hb| |done]. apply Hok. rewrite <- Hl. apply in_or_app. right. by left. }
  apply in_app_or in Hx as [Hx|[<-|[]]]; [|done].
  apply list_elem_of_In, list_elem_of_lookup in Hx as [i Hx]. pose proof (lookup_lt_Some _ _ _ Hx).
  assert (NodeRing.ID x < NodeRing.ID z); [|lia].
  apply (H0 i (length log1)); [done|by rewrite lookup_app_l|by rewrite lookup_app_r, Nat.sub_diag by lia].
Qed.

(** What is left to say when a report ended at [u] with the log [log1]. *)
Lemma settle u t' d' r l' log1 cap ls : u <= t' -> inv (mkSt u d' r l') log1 ->
  exists log', rtc (spec_step cap) (mkSpec ls log1) (mkSpec ls log') /\ inv (mkSt t' d' r l') log'.
Proof.
  intros Hu [H1 H2 H3 H4 H5 H6 H7]. destruct (log_later u d' log1 t' d' H6 Hu eq_refl eq_refl) as (log' & Hs & Hl).
  exists log'. destruct Hl as [->| ->].
  - split; [done|]. by split.
  - split; [apply rtc_once; constructor|]. split; try done. intros _ log0 x E. by destruct log0.
Qed.

Lemma tick_refines t d r l log t' o nowMS now snap supp d' a : inv (mkSt t d r l) log ->
  t <= t' -> outcome_ok t t' o -> snapshot_ok (mkServer snap supp (Some r)) ->
  post nowMS o (body_of (buildLiveRequest (mkServer snap supp (Some r)) (logStream l) (logAfter l))) d = (d', a) ->
  exists log', rtc (spec_step (ring_cap (NodeRing.NewRing capacity))) (mkSpec (contents r) log) (mkSpec (contents r) log') /\
    inv (mkSt t' d' r (finish now a l).1.1) log'.
Proof.
  intros Hinv Ht Ho Hsnap Hpost. pose proof Hinv as [Hr Hcap Hlines Hlog Hord Hst Hrep]. cbn [nring clock store rep] in *.
  set (srv := mkServer snap supp (Some r)) in *.
  pose proof (request_sound srv r l eq_refl Hsnap Hr Hlines) as Hreq. pose proof (request_logs srv r l eq_refl) as Hlogs.
  set (req := buildLiveRequest srv (logStream l) (logAfter l)) in *. clearbody req.
  assert (forall d1, d' = d1 -> d1 = d -> logStream (finish now a l).1.1 = false ->
    exists log', rtc (spec_step (ring_cap (NodeRing.NewRing capacity))) (mkSpec (contents r) log) (mkSpec (contents r) log') /\
      inv (mkSt t' d' r (finish now a l).1.1) log') as Hnothing.
  { intros d1 -> -> Hf. apply (settle t); [done|]. split; try done. cbn [rep]. by rewrite Hf. }
  destruct o as [a0|tr1 tr2 answered]; cbn [post outcome_ok] in *.
  { injection Hpost as <- <-. apply (Hnothing d eq_refl eq_refl). apply finish_failed. by destruct a0. }
  destruct Ho as (m & Hm & Htr1 & Htr2).
  destruct (handleNodeLive nodeID nowMS tr1 tr2 (if (body_of req).2 then "gzip" else "") (body_of req).1 d) as [d1 res] eqn:Eh.
  injection Hpost as <- Ha.
  assert (forall e, res = Err e -> logStream (finish now a l).1.1 = false) as Herr.
  { intros e ->. apply finish_failed. subst a. destruct answered; [|done]. by destruct e. }
  destruct (handle_report nowMS tr1 tr2 req d d1 res Hreq Eh) as [(-> & [e He] & _)|(newLogs & Hc & Hnew)].
  { apply (Hnothing d eq_refl eq_refl). by apply (Herr e). }
  assert (newLogs = map stored (batch_sent l r)) as ->.
  { rewrite Hlogs in Hnew. destruct Hnew as [[E ->]|(c & Hcur & ->)].
    - by destruct (batch_sent l r).
    - exact (cursor_older t m tr1 d log l r c Hst (proj1 Hm) Htr1 Hlog Hrep Hr Hlines Hcur). }
  assert (forall u, m <= u <= t' -> store_is u d log \/ store_is u d []) as Hall.
  { intros u Hu. destruct (log_later t d log u d Hst ltac:(lia) eq_refl eq_refl) as (log1 & Hs1 & [->| ->]); auto. }
  destruct (commit_report m t' nowMS tr2 (listed req) _ _ d d1 res log Htr2 Hall Hc) as [(_ & -> & [e He])|(u & log0 & Hu & Hl0 & Hs & Hresp)].
  { apply (Hnothing d eq_refl eq_refl). by apply (Herr e). }
  assert (inv (mkSt u d1 r (finish now a l).1.1) (log0 ++ batch_sent l r)) as Hinv'.
  { split; try done; cbn [rep].
    - intros x [Hx|Hx]%in_app_or; [destruct Hl0 as [->| ->]; [by apply Hlog|done]|].
      apply Hlines. destruct (batch_sent_run l r Hr) as [_ [E|[_ Hb]]]; [by rewrite E in Hx|]. by eapply batch_in.
    - by eapply batch_extends.
    - destruct res as [resp|e]; [|by rewrite (Herr e eq_refl)]. destruct answered; [|subst a; by rewrite finish_failed].
      destruct (Hresp resp eq_refl) as [Hok Hafter]. subst a. cbn [answer_of]. rewrite finish_answer by done. cbn [logStream logAfter].
      intros _ log2 x E. rewrite Hafter, (store_seq u d1 _ Hs), E, rev_unit. rewrite ParseInt_Itoa_int64; [done|].
      assert (In x (log0 ++ batch_sent l r)) as Hx by (rewrite E; apply in_or_app; right; by left).
      apply in_app_or in Hx as [Hx|Hx]; [destruct Hl0 as [->| ->]; [by apply Hlog|done]|].
      apply Hlines. destruct (batch_sent_run l r Hr) as [_ [E'|[_ Hb]]]; [by rewrite E' in Hx|]. by eapply batch_in. }
  destruct (settle u t' d1 r _ _ (ring_cap (NodeRing.NewRing capacity)) (contents r) ltac:(lia) Hinv') as (log' & Hsteps & Hend).
  exists log'. split; [|done]. etrans; [|exact Hsteps]. by eapply batch_step.
Qed.

(** ** Theorems *)

Lemma step_refines s s' log : step s s' -> inv s log ->
  exists log', rtc (spec_step (ring_cap (NodeRing.NewRing capacity))) (mkSpec (contents (nring s)) log) (mkSpec (contents (nring s')) log') /\
    inv s' log'.
Proof.
  intros Hstep Hinv. destruct Hstep as [now level text t d r l Hok|t d r l|t d r l t' d' Ht Hl Hq|t d r l t' o nowMS now snap supp d' a Ht Ho Hsn Hp].
  - destruct Hinv as [Hr Hcap Hlines Hlog Hord Hst Hrep]. cbn [nring clock store rep] in *. exists log.
    pose proof (next_id_fresh r now) as Hid. unfold NodeRing.Add in *. cbn [fst snd] in *. set (e := NodeRing.mkEntry _ _ _) in *.
    split.
    + rewrite (contents_store NodeRing.ID r e Hr), <- Hcap. apply rtc_once. constructor.
    + split; cbn [nring clock store rep]; try done.
      * by apply ring_store_inv.
      * by rewrite ring_cap_store.
      * intros x. rewrite (contents_store NodeRing.ID r e Hr). intros [Hx|[<-|[]]]%lastn_sub%in_app_or; [by apply Hlines|exact Hok].
  - exists log. destruct Hinv as [Hr Hcap Hlines Hlog Hord Hst Hrep]. cbn [nring clock store rep] in *.
    assert (contents (NodeRing.NewRing capacity) = []) as -> by apply contents_make. split; [apply rtc_once; constructor|].
    split; cbn [nring clock store rep]; try done.
    apply NodeRing.NewRing_inv.
  - destruct Hinv as [Hr Hcap Hlines Hlog Hord Hst Hrep]. cbn [nring clock store rep] in *.
    destruct (log_later t d log t' d' Hst Ht Hl Hq) as (log' & Hs & Hc). exists log'.
    split; [destruct Hc as [->| ->]; [done|apply rtc_once; constructor]|].
    split; cbn [nring clock store rep]; try done.
    + destruct Hc as [->| ->]; [done|by intros x []].
    + destruct Hc as [->| ->]; [done|]. intros i j x y _ Hx. by rewrite lookup_nil in Hx.
    + destruct Hc as [->| ->]; [done|]. intros _ log0 x E. by destruct log0.
  - by eapply tick_refines.
Qed.

Lemma steps_refine s s' log : rtc step s s' -> inv s log ->
  exists log', rtc (spec_step (ring_cap (NodeRing.NewRing capacity))) (mkSpec (contents (nring s)) log) (mkSpec (contents (nring s')) log') /\
    inv s' log'.
Proof.
  intros Hsteps. revert log. induction Hsteps as [s|s s1 s2 H1 _ IH]; intros log Hinv; [by exists log|].
  destruct (step_refines s s1 log H1 Hinv) as (log1 & Hr1 & Hi1). destruct (IH log1 Hi1) as (log2 & Hr2 & Hi2).
  exists log2. split; [by etrans|done].
Qed.

(** C20: Whatever happens on the way - lines printed by the node, reports that get lost,
    answers that get lost, a store that fails before or after a transaction, restarts
    of the node, keys that expire, others at work in the store - the list the panel
    shows is the newest part of a log that grew by the promised steps: the lines after
    the last one, none left out, or the newest lines when the last one is gone. It is
    in order and holds no line twice. *)
Theorem relay_refines t d s :
  cell_at t (listKey nodeID) d = None -> cell_at t (seqKey nodeID) d = None -> rtc step (start t d) s ->
  exists log,
    rtc (spec_step (ring_cap (NodeRing.NewRing capacity))) (mkSpec [] []) (mkSpec (contents (nring s)) log) /\
    panel_list s = map stored (lastn LogStream.RingSize log) /\ ids_increasing NodeRing.ID log.
Proof.
  intros H1 H2 Hs. destruct (steps_refine _ _ _ Hs (link_start_inv t d H1 H2)) as (log & Hlog & Hinv).
  exists log. change (nring (start t d)) with (NodeRing.NewRing capacity) in Hlog.
  assert (contents (NodeRing.NewRing capacity) = []) as E by apply contents_make. rewrite E in Hlog.
  split_and!; [done|apply panel_log; [apply (inv_store _ _ Hinv)|apply (inv_log _ _ Hinv)]|apply (inv_order _ _ Hinv)].
Qed.

Lemma snoc_suffix {A} (l old new : list A) pre e : l = (pre ++ [e])%list -> l = (old ++ new)%list -> new <> [] ->
  exists init, new = (init ++ [e])%list.
Proof.
  intros -> E Hn. destruct (last_or_nil new) as [->|(init & x & ->)]; [done|]. exists init.
  rewrite app_assoc in E. by apply app_inj_tail in E as [_ ->].
Qed.

(** The newest line is in the batch when no more than a report's worth is waiting. *)
Lemma batch_newest_line r after pre e : ring_inv NodeRing.ID r -> contents r = (pre ++ [e])%list -> after < NodeRing.ID e ->
  (length (newer NodeRing.ID after (contents r)) <= 500)%nat ->
  exists init, selectLiveLogs r after = (init ++ [e])%list.
Proof.
  intros Hr He Hafter Hlen. unfold selectLiveLogs. destruct ((after <=? 0) || (after <? NodeRing.OldestID r)).
  - rewrite NodeRing.Newest_spec by done. destruct (lastn_suffix (Z.to_nat liveLogsFirst) (contents r)) as [old Ho].
    eapply snoc_suffix; [exact He|exact Ho|]. intros E%(f_equal length). rewrite length_lastn, He, length_app in E. cbn in E.
    change (Z.to_nat liveLogsFirst) with 200%nat in E. lia.
  - rewrite NodeRing.Since_spec by done. cbv zeta. change (liveLogsMax <? 0) with false. cbv iota.
    change (Z.to_nat liveLogsMax) with 500%nat. rewrite take_ge by done.
    destruct (newer_suffix NodeRing.ID after (contents r) (inv_sorted _ r Hr)) as [old Ho].
    eapply snoc_suffix; [exact He|exact Ho|]. intros E. assert (In e (newer NodeRing.ID after (contents r))) as Hin; [|by rewrite E in Hin].
    unfold newer. apply filter_In. split; [rewrite He; apply in_or_app; right; by left|by apply Z.ltb_lt].
Qed.

(** One report of a streaming node that reaches the panel and its store, and fits, puts
    the node's newest line at the end of the panel's list, when no more than a report's
    worth of lines was waiting. *)
Theorem one_report_catches_up t d s t1 t2 answered nowMS now snap supp d' a pre e :
  cell_at t (listKey nodeID) d = None -> cell_at t (seqKey nodeID) d = None -> rtc step (start t d) s ->
  contents (nring s) = (pre ++ [e])%list -> logAfter (rep s) < NodeRing.ID e ->
  (length (newer NodeRing.ID (logAfter (rep s)) (contents (nring s))) <= 500)%nat ->
  let srv := mkServer snap supp (Some (nring s)) in
  let req := buildLiveRequest srv (logStream (rep s)) (logAfter (rep s)) in
  logStream (rep s) = true -> clock s <= t1 <= t2 -> snapshot_ok srv -> body_fits req ->
  post nowMS (Handled (Answered t1) (Answered t2) answered) (body_of req) (store s) = (d', a) ->
  exists older, panel_list (mkSt t2 d' (nring s) (finish now a (rep s)).1.1) = (older ++ [stored e])%list.
Proof.
  intros Hd1 Hd2 Hs He Hafter Hwait. cbv zeta. destruct (steps_refine _ _ _ Hs (link_start_inv t d Hd1 Hd2)) as (log & _ & Hinv).
  pose proof Hinv as [Hr Hcap Hlines Hlog Hord Hst Hrep]. intros Hstream Ht Hsnap Hfits Hpost.
  pose proof (request_sound (mkServer snap supp (Some (nring s))) (nring s) (rep s) eq_refl Hsnap Hr Hlines) as Hreq.
  pose proof (request_logs (mkServer snap supp (Some (nring s))) (nring s) (rep s) eq_refl) as Hlogs.
  set (req := buildLiveRequest _ _ _) in *. clearbody req. cbn [post] in Hpost.
  destruct (handleNodeLive _ _ _ _ _ _ _) as [d1 res] eqn:Eh. injection Hpost as <- _.
  destruct (log_later (clock s) (store s) log t1 (store s) Hst (proj1 Ht) eq_refl eq_refl) as (log1 & Hs1 & Hl1).
  assert (forall x, In x log1 -> line_ok x) as Hlog1 by (destruct Hl1 as [->| ->]; [done|by intros ? []]).
  destruct (handle_report nowMS _ _ req (store s) d1 res Hreq Eh) as [(_ & _ & Hbad)|(newLogs & Hc & Hnew)].
  { destruct (Hbad Hfits) as [e' He']. by rewrite (stored_cursor (Answered t1) t1 _ log1 eq_refl Hs1 Hlog1) in He'. }
  assert (newLogs = map stored (batch_sent (rep s) (nring s))) as ->.
  { rewrite Hlogs in Hnew. destruct Hnew as [[E ->]|(c & Hcur & ->)]; [by destruct (batch_sent (rep s) (nring s))|].
    exact (cursor_older (clock s) t1 (Answered t1) (store s) log (rep s) (nring s) c Hst (proj1 Ht) (conj (proj1 Ht) (Z.le_refl t1)) Hlog Hrep Hr Hlines Hcur). }
  assert (forall u, t2 <= u <= t2 -> store_is u (store s) log \/ store_is u (store s) []) as Hall.
  { intros u Hu. destruct (log_later (clock s) (store s) log u (store s) Hst ltac:(lia) eq_refl eq_refl) as (log2 & Hs2 & [->| ->]); auto. }
  destruct (commit_report t2 t2 nowMS (Answered t2) (listed req) _ _ _ d1 res log (conj (Z.le_refl t2) (Z.le_refl t2)) Hall Hc) as [(? & _)|(u & log0 & Hu & Hl0 & Hs2 & _)]; [done|].
  assert (u = t2) as -> by lia.
  unfold batch_sent in Hs2. rewrite Hstream in Hs2. destruct (batch_newest_line (nring s) _ pre e Hr He Hafter Hwait) as [init Hi].
  rewrite Hi in Hs2. assert (forall x, In x (log0 ++ init ++ [e])%list -> line_ok x) as Hok.
  { intros x [Hx|Hx]%in_app_or; [destruct Hl0 as [->| ->]; [by apply Hlog|done]|]. apply Hlines.
    rewrite <- Hi in Hx. destruct (select_batch (nring s) (logAfter (rep s)) Hr) as [Hb _]. by eapply batch_in. }
  exists (map stored (lastn 1999 (log0 ++ init))). rewrite (panel_log (mkSt t2 d1 _ _) (log0 ++ init ++ [e]) Hs2 Hok).
  rewrite app_assoc. change LogStream.RingSize with (S 1999). by rewrite lastn_snoc, map_app.
Qed.

(** A report that is too large is refused whole, and the loop is left to build the same
    report again. *)
Lemma oversized_report_repeats nowMS tr1 tr2 answered req d d' a now l : ~ body_fits req ->
  post nowMS (Handled tr1 tr2 answered) (body_of req) d = (d', a) ->
  d' = d /\ logAfter (finish now a l).1.1 = logAfter l.
Proof.
  intros Hbig. assert (exists e, readNodeLiveRequest (if (body_of req).2 then "gzip" else "") (body_of req).1 = Err e) as [e He].
  { destruct (raw_body_refused nodeLiveMaxBody req) as [e He].
    - unfold body_fits in Hbig. lia.
    - exists e. unfold readNodeLiveRequest, read_capped. by rewrite He. }
  cbn [post]. unfold handleNodeLive. rewrite He. intros [= <- <-]. split; [done|].
  assert (forall w, logAfter (let '(l', b) := warn now (failed l) in (l', w : Z, b : bool)).1.1 = logAfter l) as Hc.
  { intros w. unfold warn. by destruct (lastWarn (failed l)) as [x|]; [destruct (_ <=? _)|]. }
  destruct answered; [|apply Hc]. destruct e; apply Hc.
Qed.

(** The state after a report made at [t1] and stored at [t2]. *)
Definition report_made (t1 t2 : Z) (answered : bool) (s : St) : St :=
  let srv := mkServer None None (Some (nring s)) in
  let '(d, a) := post t2 (Handled (Answered t1) (Answered t2) answered)
                   (body_of (buildLiveRequest srv (logStream (rep s)) (logAfter (rep s)))) (store s) in
  mkSt t2 d (nring s) (finish t2 a (rep s)).1.1.

Lemma report_made_step t1 t2 answered s : clock s <= t1 <= t2 -> step s (report_made t1 t2 answered s).
Proof.
  intros Ht. unfold report_made. destruct (post _ _ _ _) as [d a] eqn:E. destruct s as [t d0 r l].
  eapply s_tick; [| | |exact E]; cbn in *; [lia| |by split].
  exists t1. split_and!; cbn; lia.
Qed.

Definition printed (now : Z) (text : string) (s : St) : St :=
  mkSt (clock s) (store s) (NodeRing.Add now "info" text (nring s)).1 (rep s).

Lemma printed_step now text s : line_ok (NodeRing.Add now "info" text (nring s)).2 -> step s (printed now text s).
Proof. destruct s. apply s_line. Qed.
End system.

(** ** A run *)

#[local] Instance demo_clock : Clock := {| Format_ms t := "2024-05-01T00:00:00.000Z"; Format_nano t := "2024-05-01T00:00:00Z" |}.
#[local] Instance demo_clock_laws : ClockLaws.
Proof. by split. Qed.
#[local] Instance demo_gzip : Gzip := {| gzipBytes b := Some b; gunzip z overrun := if overrun then None else Some (z, None) |}.
#[local] Instance demo_gzip_laws : GzipLaws.
Proof. split; cbn; intros; by simplify_eq. Qed.

(** Somebody watches node 7. *)
Definition watched : db := {[ WatchKey 7 := mkCell (VString "1") None ]}.

(** The node prints two lines, asks, streams them, loses an answer, asks again, prints a
    third and streams it. *)
Definition demo_asked : St := report_made 7 10 11 true (printed 6 "b" (printed 5 "a" (start 3 0 watched))).
Definition demo_waiting : St := printed 9 "c" (report_made 7 40 41 true (report_made 7 20 21 false demo_asked)).
Definition demo : St := report_made 7 50 51 true demo_waiting.

Ltac demo_steps :=
  repeat match goal with
  | |- rtc _ ?s ?s => apply rtc_refl
  | |- rtc _ _ (report_made _ _ _ _ _) => eapply rtc_r; [|apply report_made_step; vm_compute; split; discriminate]
  | |- rtc _ _ (printed _ _ _) => eapply rtc_r; [|apply printed_step; vm_compute; split_and!; (discriminate || reflexivity)]
  end.

Lemma demo_waiting_reached : rtc (step 7 3) (start 3 0 watched) demo_waiting.
Proof. unfold demo_waiting, demo_asked. demo_steps. Qed.

Lemma demo_reached : rtc (step 7 3) (start 3 0 watched) demo.
Proof. unfold demo, demo_waiting, demo_asked. demo_steps. Qed.

Example demo_list : map LogStream.Line (panel_list 7 demo) = ["a"; "b"; "c"].
Proof. vm_compute. reflexivity. Qed.

(** Two reports whose handling overlaps: the first was given up on by the node, whose
    second sends the same line; both read the cursor before either stored. *)
Example overlapping_reports :
  let req := NodeLive.mkRequest 0 ∅ [] [mkLog 5 "t" "info" "a"] in
  let newLogs := prepareNodeLogs (NodeLive.Logs req) 0 in
  let d1 := (commit 7 10 (Answered 10) [] req newLogs ∅).1 in
  let d2 := (commit 7 11 (Answered 11) [] req newLogs d1).1 in
  (stored_seq 7 (Answered 9) ∅, map LogStream.ID (panel_list 7 (mkSt 11 d2 (NodeRing.NewRing 3) newLiveReporter))) = (Ok 0, [5; 5]).
Proof. vm_compute. reflexivity. Qed.

Lemma relay_refines_witness :
  exists log, rtc (spec_step (ring_cap (NodeRing.NewRing 3))) (mkSpec [] []) (mkSpec (contents (nring demo)) log) /\
    panel_list 7 demo = map stored (lastn LogStream.RingSize log) /\ ids_increasing NodeRing.ID log.
Proof. apply (relay_refines 7 3 0 watched demo); [reflexivity|reflexivity|exact demo_reached]. Defined.

Lemma one_report_catches_up_witness :
  exists older, panel_list 7 (mkSt 51
      (post 7 51 (Handled (Answered 50) (Answered 51) true)
         (body_of (buildLiveRequest (mkServer None None (Some (nring demo_waiting))) true 6)) (store demo_waiting)).1
      (nring demo_waiting)
      (finish 51 (post 7 51 (Handled (Answered 50) (Answered 51) true)
         (body_of (buildLiveRequest (mkServer None None (Some (nring demo_waiting))) true 6)) (store demo_waiting)).2 (rep demo_waiting)).1.1)
    = (older ++ [stored (NodeRing.mkEntry 9 "info" "c")])%list.
Proof.
  eapply (one_report_catches_up 7 3 0 watched demo_waiting 50 51 true 51 51 None None _ _ [NodeRing.mkEntry 5 "info" "a"; NodeRing.mkEntry 6 "info" "b"]).
  - reflexivity.
  - reflexivity.
  - exact demo_waiting_reached.
  - vm_compute. reflexivity.
  - vm_compute. reflexivity.
  - vm_compute. repeat constructor.
  - vm_compute. reflexivity.
  - vm_compute. split; discriminate.
  - by split.
  - vm_compute. split; discriminate.
  - apply surjective_pairing.
Defined.
End Relay.
