(* ===== verification/OnlineProps.v ===== *)
(** * OnlineProps: who is shown online, and the pages of a log

    A history of stored reports decides what the panel shows: presence counts exactly
    when every connected node has reported, and then a user is online exactly when some
    node listed them in the last 15 seconds ([online_exact]), and the count is the number
    of these users ([fleet_count_exact]). A page of [GET /api/logs] is the page of the
    whole list, however little of it was read ([page_exact]). *)

From stdpp Require Import sorting.
From S2P Require Import Prelude GoStrings GoUrl GoJson Redis RingBuf NodeLog LogStream Traffic.
From S2P Require Import NodeLive OnlineView NodeLiveProps LogRelay.
Import Redis NodeLive.

#[local] Open Scope string_scope.
#[local] Open Scope Z_scope.

(** ** Keys *)

Lemma str_app_cancel a b s : a ++ s = b ++ s -> a = b.
Proof.
  intros E. pose proof (f_equal String.length E) as Hl. rewrite !str_length_app in Hl.
  rewrite <- (stake_app a s), <- (stake_app b s), E. f_equal. lia.
Qed.

Lemma str_prefix_cancel p a b : p ++ a = p ++ b -> a = b.
Proof. induction p as [|c p IH]; [done|]. cbn. intros E. injection E as E. auto. Qed.

Lemma total_key_inj a b : fits 64 a -> fits 64 b -> presenceNodeTotalKey a = presenceNodeTotalKey b -> a = b.
Proof.
  intros Ha Hb. unfold presenceNodeTotalKey. intros E%str_prefix_cancel%str_app_cancel.
  apply (f_equal ParseInt) in E. rewrite !ParseInt_Itoa_int64 in E by done. by injection E.
Qed.

Lemma ports_not_total a b : presenceNodePortsKey a <> presenceNodeTotalKey b.
Proof.
  unfold presenceNodePortsKey, presenceNodeTotalKey. intros E%str_prefix_cancel.
  change ":ports" with (":port" ++ "s") in E. change ":total" with (":tota" ++ "l") in E.
  rewrite !str_app_assoc in E. by apply str_snoc_inj in E as [_ E].
Qed.

Module OnlineExact.
Import Online LiveReporter.

(** The lifetime of a presence key and the retention of the trim, in milliseconds. *)
Definition retention : Z := 6 * 3600 * 1000.

(** A report of a node as the panel stored it: the node, the store's clock and the
    panel's, and what the node sent. *)
Record report := mkReport { r_node : Z; r_at : Z; r_now : Z; r_req : liveRequest }.

Section history.
Context `{Clock}.

(** What the reports and the trims before [t] (the store's clock) and [m] (the panels')
    made of the store; the newest report first. *)
Inductive history : Z -> Z -> list report -> db -> Prop :=
  | h_start t m : history t m [] ∅
  | h_wait t m rs d t' m' : history t m rs d -> t <= t' -> m <= m' -> history t' m' rs d
  | h_report t m rs d nodeID req logs : history t m rs d -> 0 < m -> fits 64 nodeID ->
      history t m (mkReport nodeID t m req :: rs)
        (run t (live_commands nodeID m (listed req) (received req) logs) d).1
  | h_trim t m rs d now : history t m rs d -> m <= UnixMilli now -> history t (UnixMilli now) rs (trim (Answered t) now d).

Definition lists (u : string) (r : report) : Prop := In u (listed (r_req r)).

(** The scores of the presence set. *)
Definition scores (d : db) : gmap string Z :=
  match d !! presenceUsersKey with Some (mkCell (VZset m) _) => m | _ => ∅ end.

Record exact (t m : Z) (rs : list report) (d : db) : Prop := {
  ex_typed : d !! presenceUsersKey = None \/ exists z, d !! presenceUsersKey = Some (mkCell (VZset z) None);
  ex_past r : In r rs -> r_at r <= t /\ 0 < r_now r <= m /\ fits 64 (r_node r);
  ex_seen u s : scores d !! u = Some s -> exists r, In r rs /\ lists u r /\ r_now r = s;
  ex_kept u r : In r rs -> lists u r -> m - retention <= r_now r -> exists s, scores d !! u = Some s /\ r_now r <= s;
  ex_live : match rs with
            | [] => d !! presenceLiveKey = None
            | r :: _ => d !! presenceLiveKey = Some (mkCell (VString "1") (Some (r_at r + presenceKeyTTL)))
            end;
  ex_total id : fits 64 id -> match List.find (fun r => r_node r =? id) rs with
            | None => d !! presenceNodeTotalKey id = None
            | Some r => exists v, d !! presenceNodeTotalKey id = Some (mkCell (VString v) (Some (r_at r + presenceKeyTTL)))
            end;
  ex_order : StronglySorted (fun a b => r_at b <= r_at a) rs
}.

(** ** What a report does to the presence keys *)

Lemma zset_get t d : (d !! presenceUsersKey = None \/ exists z, d !! presenceUsersKey = Some (mkCell (VZset z) None)) ->
  zset_of (get t presenceUsersKey d) = Some (scores d).
Proof. unfold get, cell_at, scores. intros [->|[z ->]]; done. Qed.

Lemma zadd_pieces t ps d z : zset_of (get t presenceUsersKey d) = Some z -> Forall (fun p => p <> []) ps ->
  (d !! presenceUsersKey = None \/ exists z, d !! presenceUsersKey = Some (mkCell (VZset z) None)) ->
  let d' := (run t (map (ZAdd presenceUsersKey) ps) d).1 in
  (d' !! presenceUsersKey = None \/ exists z, d' !! presenceUsersKey = Some (mkCell (VZset z) None)) /\
  scores d' = foldl (fun m p => <[p.1 := p.2]> m) z (concat ps).
Proof.
  intros Hz Hps. revert d z Hz. induction Hps as [|p ps Hp _ IH]; intros d z Hz Ht; cbv zeta.
  { split; [done|]. rewrite (zset_get t d Ht) in Hz. by injection Hz. }
  cbn [map run effect]. rewrite Hz. set (z' := foldl _ z p).
  assert (is_empty (VZset z') = false) as Hne.
  { cbn. apply bool_decide_eq_false_2. subst z'. destruct (Relay.last_or_nil p) as [->|(init & [k v] & ->)]; [done|].
    rewrite foldl_snoc. apply insert_non_empty. }
  assert (put t presenceUsersKey (VZset z') d !! presenceUsersKey = Some (mkCell (VZset z') None)) as Hput.
  { unfold put. rewrite Hne, lookup_insert_eq. do 2 f_equal. unfold cell_at. by destruct Ht as [->|[z0 ->]]. }
  destruct (IH (put t presenceUsersKey (VZset z') d) z') as [IH1 IH2].
  - unfold get, cell_at. by rewrite Hput.
  - right. by exists z'.
  - destruct (run t (map (ZAdd presenceUsersKey) ps) (put t presenceUsersKey (VZset z') d)) as [d' rs] eqn:E. cbn [fst] in *.
    split; [done|]. rewrite IH2. cbn [concat]. by rewrite foldl_app.
Qed.

Lemma scores_listed names m z u :
  foldl (fun m p => <[p.1 := p.2]> m) z (map (fun n => (n, m)) names) !! u =
    if str_mem u names then Some m else (z : gmap string Z) !! u.
Proof.
  induction names as [|n names IH] using rev_ind; [done|]. rewrite map_app, foldl_app. cbn [map foldl fst snd].
  rewrite lookup_insert. destruct (decide (n = u)) as [->|Hne].
  - by rewrite (proj2 (str_mem_spec _ _)) by (apply in_or_app; right; by left).
  - rewrite IH. destruct (str_mem u names) eqn:E1, (str_mem u (names ++ [n])) eqn:E2; try done.
    + apply str_mem_spec in E1. assert (str_mem u (names ++ [n]) = true); [|congruence]. apply str_mem_spec, in_or_app. by left.
    + apply str_mem_spec in E2. assert (str_mem u names = true); [|congruence]. apply str_mem_spec.
      apply in_app_or in E2 as [?|[?|[]]]; done.
Qed.

Definition plain_commands (nodeID : Z) (req : nodeLiveRequest) : list command :=
  ([Del (presenceNodePortsKey nodeID)] ++
   (match live_ports (NodeLive.PortConns req) with
    | [] => []
    | _ => [HSet (presenceNodePortsKey nodeID) (map (fun kv => (kv.1, Itoa kv.2)) (live_ports (NodeLive.PortConns req))); Expire (presenceNodePortsKey nodeID) presenceKeyTTL]
    end))%list.

Lemma commands_by_key nodeID m names req logs : live_commands nodeID m names req logs =
  (map (ZAdd presenceUsersKey) (pieces (length names) presenceZAddChunk (map (fun n => (n, m)) names)) ++
   plain_commands nodeID req ++
   [SetEx (presenceNodeTotalKey nodeID) (Itoa (live_total req)) presenceKeyTTL; SetEx presenceLiveKey "1" presenceKeyTTL] ++
   (log_commands nodeID logs ++ [Get (seqKey nodeID); Exists (WatchKey nodeID)]))%list.
Proof. unfold live_commands, plain_commands. by rewrite <- !app_assoc. Qed.

Lemma plain_frame nodeID req k : k <> presenceNodePortsKey nodeID -> Forall (fun c => key_of c <> k) (plain_commands nodeID req).
Proof. intros Hk. unfold plain_commands. destruct (live_ports _); cbn [app]; repeat (constructor; [cbn [key_of]; congruence|]); constructor. Qed.

Lemma rest_frame nodeID logs k : k <> listKey nodeID -> k <> seqKey nodeID -> k <> WatchKey nodeID ->
  Forall (fun c => key_of c <> k) (log_commands nodeID logs ++ [Get (seqKey nodeID); Exists (WatchKey nodeID)]).
Proof.
  intros H1 H2 H3. rewrite Forall_app. split; [|repeat (constructor; [cbn [key_of]; congruence|]); constructor].
  destruct logs as [|e es]; [constructor|]. cbn [log_commands]. rewrite Forall_app. split; [|repeat (constructor; [cbn [key_of]; congruence|]); constructor].
  apply Forall_forall. intros c (p & -> & _)%list_elem_of_fmap. cbn [key_of]. congruence.
Qed.

Lemma zadds_frame ps k : k <> presenceUsersKey -> Forall (fun c => key_of c <> k) (map (ZAdd presenceUsersKey) ps).
Proof. intros Hk. apply Forall_forall. intros c (p & -> & _)%list_elem_of_fmap. cbn [key_of]. congruence. Qed.

Lemma report_users t nodeID m names req logs d :
  (d !! presenceUsersKey = None \/ exists z, d !! presenceUsersKey = Some (mkCell (VZset z) None)) ->
  let d' := (run t (live_commands nodeID m names req logs) d).1 in
  (d' !! presenceUsersKey = None \/ exists z, d' !! presenceUsersKey = Some (mkCell (VZset z) None)) /\
  forall u, scores d' !! u = if str_mem u names then Some m else scores d !! u.
Proof.
  intros Ht. cbv zeta. rewrite commands_by_key, run_app_db. set (ps := pieces _ _ _).
  assert (concat ps = map (fun n => (n, m)) names) as Hps by (subst ps; apply pieces_concat; [unfold presenceZAddChunk; lia|by rewrite length_map]).
  destruct (zadd_pieces t ps d (scores d) (zset_get t d Ht)) as [H1 H2]; [subst ps; apply pieces_nonempty; unfold presenceZAddChunk; lia|done|].
  set (d1 := (run t (map (ZAdd presenceUsersKey) ps) d).1) in *. clearbody d1.
  match goal with |- context [run t ?cs d1] => assert ((run t cs d1).1 !! presenceUsersKey = d1 !! presenceUsersKey) as E end.
  { apply run_frame, Forall_app_2; [apply plain_frame; other_key|]. apply Forall_app_2; [repeat constructor; other_key|].
    apply rest_frame; other_key. }
  rewrite E. split; [done|]. intros u. unfold scores at 1. rewrite E. fold (scores d1). by rewrite H2, Hps, scores_listed.
Qed.

Lemma report_live t nodeID m names req logs d : let d' := (run t (live_commands nodeID m names req logs) d).1 in
  d' !! presenceLiveKey = Some (mkCell (VString "1") (Some (t + presenceKeyTTL))) /\
  d' !! presenceNodeTotalKey nodeID = Some (mkCell (VString (Itoa (live_total req))) (Some (t + presenceKeyTTL))) /\
  forall id, fits 64 id -> fits 64 nodeID -> id <> nodeID -> d' !! presenceNodeTotalKey id = d !! presenceNodeTotalKey id.
Proof.
  cbv zeta. rewrite commands_by_key, !run_app_db.
  set (d1 := (run t (plain_commands nodeID req) _).1).
  assert (forall id, d1 !! presenceNodeTotalKey id = d !! presenceNodeTotalKey id) as Hd1.
  { intros id. subst d1. rewrite run_frame by (apply plain_frame; intros E; by apply (ports_not_total nodeID id)).
    rewrite run_frame by (apply zadds_frame; other_key). done. }
  clearbody d1. cbn [run effect fst]. set (d2 := <[presenceLiveKey := _]> _).
  assert (forall k, k <> listKey nodeID -> k <> seqKey nodeID -> k <> WatchKey nodeID ->
    (run t [Get (seqKey nodeID); Exists (WatchKey nodeID)] (run t (log_commands nodeID logs) d2).1).1 !! k = d2 !! k) as Hrest.
  { intros k H1 H2 H3. rewrite <- run_app_db. by apply run_frame, rest_frame. }
  split_and!; [| |intros id Hid Hn Hne]; rewrite Hrest by other_key; subst d2.
  - by rewrite lookup_insert_eq.
  - rewrite lookup_insert_ne by other_key. by rewrite lookup_insert_eq.
  - rewrite lookup_insert_ne by other_key. rewrite lookup_insert_ne; [apply Hd1|]. intros E. apply Hne. symmetry. by apply total_key_inj.
Qed.

Lemma history_exact t m rs d : history t m rs d -> exact t m rs d.
Proof.
  induction 1 as [t m|t m rs d t' m' _ IH Ht Hm|t m rs d nodeID req logs _ IH Hpos Hid|t m rs d now _ IH Hnow].
  - split; try done; try (by left); constructor.
  - destruct IH as [H1 H2 H3 H4 H5 H6 H7]. split; try done.
    + intros r Hr. destruct (H2 r Hr) as (? & ? & ?). split_and!; try done; lia.
    + intros u r Hr Hl Hk. apply (H4 u r Hr Hl). lia.
  - destruct IH as [H1 H2 H3 H4 H5 H6 H7]. destruct (report_users t nodeID m (listed req) (received req) logs d H1) as [R1 R2].
    destruct (report_live t nodeID m (listed req) (received req) logs d) as (L1 & L2 & L3).
    set (d' := (run t _ d).1) in *. clearbody d'. split; try done.
    + intros r [<-|Hr]; [cbn; split_and!; try done; lia|]. by apply H2.
    + intros u s. rewrite R2. destruct (str_mem u (listed req)) eqn:E.
      * intros [= <-]. eexists. split; [by left|]. split; [by apply str_mem_spec|done].
      * intros (r & Hr & Hl)%H3. exists r. split; [by right|done].
    + intros u r Hr Hl Hk. rewrite R2. destruct (str_mem u (listed req)) eqn:E.
      * exists m. split; [done|]. destruct Hr as [<-|Hr]; [done|]. destruct (H2 r Hr) as (_ & ? & _). lia.
      * destruct Hr as [<-|Hr]; [|by apply (H4 u r)]. apply str_mem_spec in Hl. cbn in Hl. congruence.
    + intros id Hf. cbn [List.find r_node]. destruct (Z.eqb_spec nodeID id) as [->|Hne]; [by eexists|].
      rewrite L3 by done. by apply H6.
    + constructor; [done|]. apply Forall_forall. intros r Hr%list_elem_of_In. by destruct (H2 r Hr).
  - destruct IH as [H1 H2 H3 H4 H5 H6 H7]. unfold trim, send. cbn [run effect]. rewrite (zset_get t d H1). cbn [fst].
    set (kept := at_least_score _ _). assert (forall u s, kept !! u = Some s <-> scores d !! u = Some s /\ UnixMilli now - retention <= s) as Hkept.
    { intros u s. subst kept. unfold at_least_score. rewrite map_lookup_filter_Some. unfold UnixMilli, retention.
      replace ((now - presenceRetention) / 1000) with (now / 1000 - 6 * 3600 * 1000); [done|].
      unfold presenceRetention, Online.second. replace (now - 6 * 3600 * 1000000) with (now + (- (6 * 3600 * 1000)) * 1000) by lia.
      rewrite Z.div_add by lia. lia. }
    assert (scores (put t presenceUsersKey (VZset kept) d) = kept /\
      (put t presenceUsersKey (VZset kept) d !! presenceUsersKey = None \/
       exists z, put t presenceUsersKey (VZset kept) d !! presenceUsersKey = Some (mkCell (VZset z) None))) as [Hs Ht].
    { unfold scores, put. cbn [is_empty]. destruct (bool_decide (kept = ∅)) eqn:E.
      - apply bool_decide_eq_true in E. rewrite lookup_delete_eq. by split; [|left].
      - rewrite lookup_insert_eq. assert ((c ← cell_at t presenceUsersKey d; expires c) = None) as ->
          by (unfold cell_at; by destruct H1 as [->|[z ->]]). split; [done|]. right. by exists kept. }
    assert (forall k, k <> presenceUsersKey -> put t presenceUsersKey (VZset kept) d !! k = d !! k) as Hput
      by (intros k Hk; apply lookup_put_ne; congruence).
    set (d' := put _ _ _ _) in *. clearbody d'. split; try done.
    + intros r Hr. destruct (H2 r Hr) as (? & ? & ?). split_and!; try done; lia.
    + intros u s. rewrite Hs. intros [Hu _]%Hkept. by apply H3.
    + intros u r Hr Hl Hk. destruct (H4 u r Hr Hl ltac:(lia)) as (s & Hu & Hle). exists s. rewrite Hs. split; [|done].
      apply Hkept. split; [done|lia].
    + destruct rs; rewrite Hput by other_key; done.
    + intros id Hf. rewrite Hput by other_key. by apply H6.
Qed.

(** ** What is shown *)

(** A report of the last 20 seconds, on the store's clock. *)
Definition fresh (t : Z) (r : report) : Prop := t < r_at r + presenceKeyTTL.

(** A node listed the user in the window before [now]. *)
Definition listed_since (from : Z) (u : string) (rs : list report) : Prop := exists r, In r rs /\ lists u r /\ from <= r_now r * 1000.

Lemma exists_reply t k d r : effect t (Exists k) d = (d, r) -> yes r = bool_decide (is_Some (get t k d)).
Proof. cbn. intros [= <-]. by case_bool_decide. Qed.

Lemma run_exists t ks d : run t (map Exists ks) d = (d, map (fun k => Int (if bool_decide (is_Some (get t k d)) then 1 else 0)) ks).
Proof. induction ks as [|k ks IH]; [done|]. cbn [map run effect]. by rewrite IH. Qed.

Lemma alive_fresh t k v d at_ : d !! k = Some (mkCell v (Some at_)) -> is_Some (get t k d) <-> t < at_.
Proof.
  intros E. unfold get, cell_at, alive. rewrite E. cbn. destruct (Z.ltb_spec t at_); cbn; split; [done|intros _; by eexists|by intros []|lia].
Qed.

(** Presence counts exactly when there is a fresh report, and one of every connected
    node. *)
Lemma live_exact t m rs d ids : exact t m rs d -> Forall (fits 64) ids ->
  forallb yes (run t (presenceLive ids) d).2 = true <->
    (exists r, In r rs /\ fresh t r) /\ forall id, In id ids -> exists r, In r rs /\ r_node r = id /\ fresh t r.
Proof.
  intros He Hids. unfold presenceLive.
  change (Exists presenceLiveKey :: map (fun id => Exists (presenceNodeTotalKey id)) ids)
    with (map Exists [presenceLiveKey] ++ map (fun id => Exists (presenceNodeTotalKey id)) ids)%list.
  rewrite <- (map_map presenceNodeTotalKey Exists), <- map_app, run_exists. cbn [snd app map forallb yes].
  assert (forall b : bool, negb ((if b then 1 else 0) =? 0) = b) as Hb by by intros [].
  rewrite Hb, andb_true_iff, bool_decide_eq_true, forallb_forall.
  assert (forall r0 rest r, rs = r0 :: rest -> In r rs -> r_at r <= r_at r0) as Hfirst.
  { intros r0 rest r -> [<-|Hr]; [lia|]. pose proof (ex_order _ _ _ _ He) as Ho. inversion Ho as [|? ? _ Hall]; subst.
    rewrite Forall_forall in Hall. by apply Hall, list_elem_of_In. }
  assert (is_Some (get t presenceLiveKey d) <-> exists r, In r rs /\ fresh t r) as ->.
  { pose proof (ex_live _ _ _ _ He) as Hl. destruct rs as [|r0 rest].
    - unfold get, cell_at. rewrite Hl. split; [by intros []|by intros (? & [] & _)].
    - rewrite (alive_fresh t _ _ d _ Hl). split; [intros Hf; exists r0; split; [by left|done]|].
      intros (r & Hr & Hf). pose proof (Hfirst r0 rest r eq_refl Hr). unfold fresh in Hf. lia. }
  apply and_iff_compat_l. split.
  - intros Hall id Hin. specialize (Hall (Int (if bool_decide (is_Some (get t (presenceNodeTotalKey id) d)) then 1 else 0))).
    cbn [yes] in Hall. rewrite Hb, bool_decide_eq_true in Hall.
    assert (is_Some (get t (presenceNodeTotalKey id) d)) as Hs.
    { apply Hall. apply in_map_iff. eexists. split; [done|]. by apply in_map. }
    rewrite Forall_forall in Hids. pose proof (ex_total _ _ _ _ He id (Hids id ltac:(by apply list_elem_of_In))) as Ht.
    destruct (List.find _ rs) as [r|] eqn:Ef; [|unfold get, cell_at in Hs; rewrite Ht in Hs; by destruct Hs].
    destruct Ht as [v Hv]. rewrite (alive_fresh t _ _ d _ Hv) in Hs. apply find_some in Ef as [Hr Hid%Z.eqb_eq]. by exists r.
  - intros Hall x. rewrite in_map_iff. intros (k & <- & Hk). apply in_map_iff in Hk as (id & <- & Hin). cbn [yes]. rewrite Hb, bool_decide_eq_true.
    rewrite Forall_forall in Hids. pose proof (ex_total _ _ _ _ He id (Hids id ltac:(by apply list_elem_of_In))) as Ht.
    destruct (Hall id Hin) as (r & Hr & Hn & Hf). destruct (List.find _ rs) as [r1|] eqn:Ef.
    + destruct Ht as [v Hv]. rewrite (alive_fresh t _ _ d _ Hv).
      assert (r_at r <= r_at r1); [|unfold fresh in Hf; lia]. pose proof (ex_order _ _ _ _ He) as Ho. clear -Hr Hn Ef Ho.
      induction Ho as [|r2 rest _ IH Hall]; [done|]. cbn [List.find] in Ef. destruct (Z.eqb_spec (r_node r2) id) as [E|E].
      * injection Ef as ->. destruct Hr as [->|Hr]; [lia|]. rewrite Forall_forall in Hall. by apply Hall, list_elem_of_In.
      * destruct Hr as [->|Hr]; [done|]. by apply IH.
    + exfalso. apply (find_none _ _ Ef) in Hr. rewrite Hn in Hr. by rewrite Z.eqb_refl in Hr.
Qed.

(** The page's users, as the scores tell them. *)
Lemma seen_scores names (z : gmap string Z) u : In u names ->
  foldl (fun m p => set_seen p m) ∅ (zip names (map (fun n => z !! n) names)) !! u =
    match z !! u with Some s => if s <=? 0 then None else Some (s * 1000) | None => None end.
Proof.
  intros Hu. rewrite <- (rev_involutive (zip _ _)). 
  assert (forall l : list (string * option Z), (forall n o, In (n, o) l -> o = z !! n) ->
    foldl (fun m p => set_seen p m) ∅ (rev l) !! u =
      if existsb (fun p => String.eqb p.1 u) l then match z !! u with Some s => if s <=? 0 then None else Some (s * 1000) | None => None end else None) as Hfold.
  { induction l as [|[n o] l IH]; intros Hl; [done|]. cbn [rev existsb]. rewrite foldl_snoc.
    rewrite (Hl n o) by by left. assert (forall n o, In (n, o) l -> o = z !! n) as Hl' by (intros; apply Hl; by right). specialize (IH Hl').
    cbn [set_seen fst]. destruct (String.eqb_spec n u) as [->|Hne]; cbn [orb].
    - destruct (z !! u) as [s|]; [destruct (s <=? 0)|]; [|by rewrite lookup_insert_eq|]; rewrite IH; by destruct (existsb _ l).
    - destruct (z !! n) as [s|]; [destruct (s <=? 0)|]; rewrite ?lookup_insert_ne by done; exact IH. }
  rewrite Hfold.
  - assert (existsb (fun p : string * option Z => String.eqb p.1 u) (rev (zip names (map (fun n => z !! n) names))) = true) as ->; [|done].
    apply existsb_exists. exists (u, z !! u). split; [|by rewrite String.eqb_refl]. apply in_rev. rewrite rev_involutive.
    clear -Hu. induction names as [|n names IH]; [done|]. cbn. destruct Hu as [->|Hu]; [by left|right; auto].
  - intros n o Hin. apply in_rev in Hin. clear -Hin. induction names as [|n' names IH]; [done|]. cbn in Hin.
    destruct Hin as [[= -> ->]|Hin]; auto.
Qed.

(** C21: The panel says of a user exactly what the nodes reported: presence is used exactly
    when the store holds a fresh report, and one of every connected node; then the user
    is online exactly when some stored report of the last 15 seconds listed them as
    connected. *)
Theorem online_exact t m rs d ids names u dbOnlineAt now :
  history t m rs d -> m <= UnixMilli now -> Forall (fits 64) ids -> In u names ->
  let v := loadPresence (Answered t) ids names d in
  (live v = true <->
    (exists r, In r rs /\ fresh t r) /\ forall id, In id ids -> exists r, In r rs /\ r_node r = id /\ fresh t r) /\
  (live v = true -> ((userStatus v u dbOnlineAt now).1 = true <-> listed_since (now - presenceOnlineWindow) u rs)).
Proof.
  intros Hh Hm Hids Hu. apply history_exact in Hh as He. cbv zeta.
  pose proof (live_exact t m rs d ids He Hids) as Hlive.
  unfold loadPresence. destruct names as [|n0 names']; [done|]. set (names := n0 :: names') in *. unfold send.
  assert ((run t (presenceLive ids) d).1 = d) as Hd by (unfold presenceLive;
    change (Exists presenceLiveKey :: map (fun id => Exists (presenceNodeTotalKey id)) ids)
      with (map Exists [presenceLiveKey] ++ map (fun id => Exists (presenceNodeTotalKey id)) ids)%list;
    by rewrite <- (map_map presenceNodeTotalKey Exists), <- map_app, run_exists).
  assert (existsb is_wrong (run t (presenceLive ids) d).2 = false) as Hw.
  { unfold presenceLive. change (Exists presenceLiveKey :: map (fun id => Exists (presenceNodeTotalKey id)) ids)
      with (map Exists [presenceLiveKey] ++ map (fun id => Exists (presenceNodeTotalKey id)) ids)%list.
    rewrite <- (map_map presenceNodeTotalKey Exists), <- map_app, run_exists. cbn [snd]. by induction (_ ++ _)%list. }
  assert (length (run t (presenceLive ids) d).2 = S (length ids)) as Hlen by (rewrite run_length; unfold presenceLive; cbn; by rewrite length_map).
  rewrite run_app. destruct (run t (presenceLive ids) d) as [d1 rs1]. cbn [fst snd] in *. subst d1. cbn [run effect].
  rewrite (zset_get t d (ex_typed _ _ _ _ He)). cbn [fst snd]. rewrite existsb_app, Hw. cbn [existsb is_wrong orb].
  rewrite last_last. unfold authoritative. rewrite <- Hlen, take_app_length. cbn [live]. split; [exact Hlive|].
  intros Hl. unfold userStatus. cbn [live seen]. rewrite Hl. cbn [fst]. rewrite (seen_scores names (scores d) u Hu).
  assert (now / 1000 * 1000 <= now) as Hfloor by (pose proof (Z.div_mod now 1000); pose proof (Z.mod_pos_bound now 1000); lia).
  unfold UnixMilli in Hm. split.
  - destruct (scores d !! u) as [s|] eqn:Es; [|done]. destruct (s <=? 0) eqn:Ep; [done|]. intros Hs%Z.leb_le.
    destruct (ex_seen _ _ _ _ He u s Es) as (r & Hr & Hlist & <-). by exists r.
  - intros (r & Hr & Hlist & Hfrom). destruct (ex_past _ _ _ _ He r Hr) as (_ & Hpos & _).
    destruct (ex_kept _ _ _ _ He u r Hr Hlist) as (s & -> & Hs).
    { unfold retention. unfold presenceOnlineWindow, Online.second in Hfrom. 
      assert (now < (now / 1000 + 1) * 1000) by (pose proof (Z.div_mod now 1000); pose proof (Z.mod_pos_bound now 1000); lia). lia. }
    rewrite (proj2 (Z.leb_gt s 0)) by lia. apply Z.leb_le. lia.
Qed.

(** The fleet's count is the number of users the nodes listed in the window, each
    counted once however many nodes list them. *)
Theorem fleet_count_exact t m rs d ids now s n : history t m rs d -> m <= UnixMilli now -> Forall (fits 64) ids ->
  presenceOnlineCount (Answered t) ids None now s d = Counted n ->
  exists online : gset string, n = Z.of_nat (size online) /\
    forall u, u ∈ online <-> exists r, In r rs /\ lists u r /\ UnixMilli (now - presenceOnlineWindow) <= r_now r.
Proof.
  intros Hh Hm Hids. apply history_exact in Hh as He. unfold presenceOnlineCount, send.
  rewrite run_app. assert ((run t (presenceLive ids) d).1 = d) as Hd by (unfold presenceLive;
    change (Exists presenceLiveKey :: map (fun id => Exists (presenceNodeTotalKey id)) ids)
      with (map Exists [presenceLiveKey] ++ map (fun id => Exists (presenceNodeTotalKey id)) ids)%list;
    by rewrite <- (map_map presenceNodeTotalKey Exists), <- map_app, run_exists).
  destruct (run t (presenceLive ids) d) as [d1 rs1]. cbn [fst] in Hd. subst d1. cbn [run effect].
  rewrite (zset_get t d (ex_typed _ _ _ _ He)). cbn [snd]. destruct (_ || _); [done|]. rewrite last_last. intros [= <-].
  set (cutoff := UnixMilli _). exists (dom (at_least_score cutoff (scores d))). split; [by rewrite size_dom|].
  intros u. rewrite elem_of_dom. unfold at_least_score. split.
  - intros [z Hz]. apply map_lookup_filter_Some in Hz as [Hz Hc]. destruct (ex_seen _ _ _ _ He u z Hz) as (r & Hr & Hl & <-). eauto.
  - intros (r & Hr & Hl & Hc). destruct (ex_kept _ _ _ _ He u r Hr Hl) as (z & Hz & Hle).
    + assert (now / 1000 - 15000 = cutoff) as <-.
      { subst cutoff. unfold UnixMilli, presenceOnlineWindow, Online.second. replace (now - 15 * 1000000) with (now + (-15000) * 1000) by lia.
        rewrite Z.div_add by lia. lia. }
      unfold UnixMilli, retention in *. lia.
    + exists z. apply map_lookup_filter_Some. split; [done|]. lia.
Qed.
End history.

(** ** A node that reports, and its user *)

#[local] Existing Instance Relay.demo_clock.

Definition demo_request : liveRequest := LiveReporter.mkRequest 2 ∅ [("ali", 2); ("sara", 0)] ∅ [].
Definition demo_reports : list report := [mkReport 7 1000 1000 demo_request].
Definition demo_store : db := (run 1000 (live_commands 7 1000 (listed demo_request) (received demo_request) []) ∅).1.

Lemma demo_history : history 1004 1004 demo_reports demo_store.
Proof.
  apply h_wait with 1000 1000; [|lia..]. apply (h_report 1000 1000 [] ∅ 7 demo_request []); [constructor|lia|]. unfold fits. lia.
Qed.

Example demo_online :
  map (fun u => (userStatus (loadPresence (Answered 1004) [7] ["ali"; "sara"] demo_store) u None 1005000).1) ["ali"; "sara"] = [true; false] /\
  presenceOnlineCount (Answered 1004) [7] None 1005000 None demo_store = Counted 1 /\
  presenceOnlineCount (Answered 1004) [7; 8] None 1005000 None demo_store = NotLive.
Proof. vm_compute. done. Qed.

Lemma online_exact_witness :
  let v := loadPresence (Answered 1004) [7] ["ali"] demo_store in
  (live v = true <->
    (exists r, In r demo_reports /\ fresh 1004 r) /\ forall id, In id [7] -> exists r, In r demo_reports /\ r_node r = id /\ fresh 1004 r) /\
  (live v = true -> ((userStatus v "ali" None 1005000).1 = true <-> listed_since (1005000 - presenceOnlineWindow) "ali" demo_reports)).
Proof.
  apply (online_exact 1004 1004 demo_reports demo_store [7] ["ali"] "ali" None 1005000 demo_history).
  - vm_compute. discriminate.
  - repeat constructor; unfold fits; lia.
  - by left.
Defined.

Lemma fleet_count_exact_witness :
  exists online : gset string, 1 = Z.of_nat (size online) /\
    forall u, u ∈ online <-> exists r, In r demo_reports /\ lists u r /\ UnixMilli (1005000 - presenceOnlineWindow) <= r_now r.
Proof.
  apply (fleet_count_exact 1004 1004 demo_reports demo_store [7] 1005000 None 1 demo_history).
  - vm_compute. discriminate.
  - repeat constructor; unfold fits; lia.
  - vm_compute. reflexivity.
Defined.
End OnlineExact.

Module PageExact.
Import Logs.

Section page.
Context (lower : string -> string).

(** What the store holds under the source's key. *)
Definition holds (t : Z) (d : db) (source : string) (all : list LogStream.Entry) : Prop :=
  list_of (get t (Key source) d) = Some (map Encode all) /\ Forall entry_ok all /\
  ids_increasing LogStream.ID all /\ (length all <= LogStream.RingSize)%nat.

Lemma decoded all : Forall entry_ok all -> omap Decode (map Encode all) = all.
Proof. induction 1 as [|e l He _ IH]; [done|]. cbn [map omap list_omap]. by rewrite Decode_Entry, IH. Qed.

Lemma read_tail_exact t d source all n : holds t d source all ->
  read_tail (Answered t) (Key source) n d = Some (length (lastn n all), lastn n all).
Proof.
  intros (Hl & Hok & Hinc & _). unfold read_tail, send. cbn [run effect]. rewrite Hl. cbn [snd].
  assert (lastn n (map Encode all) = map Encode (lastn n all)) as -> by (unfold lastn; rewrite length_map; apply skipn_map).
  assert (Forall entry_ok (lastn n all)) as Hok' by (apply Forall_drop; exact Hok).
  rewrite length_map, decoded by done. do 2 f_equal. apply sort_by_id.
  assert (StronglySorted (fun a b => LogStream.ID a < LogStream.ID b) (lastn n all)) as Hs.
  { apply increasing_sorted, ids_increasing_lastn, Hinc. }
  clear -Hs. induction Hs as [|e l _ IH He]; constructor; [done|]. eapply Forall_impl; [exact He|]. cbn. lia.
Qed.

Definition wanted (after minRank : Z) (needle : string) (e : LogStream.Entry) : bool :=
  (after <? LogStream.ID e) && LogStream.Matches lower minRank needle e.

(** Lines at or before the cursor are of no account. *)
Lemma wanted_tail after minRank needle n all : ids_increasing LogStream.ID all ->
  match lastn n all with e :: _ => LogStream.ID e <= after | [] => False end ->
  List.filter (wanted after minRank needle) (lastn n all) = List.filter (wanted after minRank needle) all.
Proof.
  intros Hinc Hcov. destruct (lastn_suffix n all) as [pre Hall]. destruct (lastn n all) as [|e tail]; [done|].
  rewrite Hall, List.filter_app. assert (List.filter (wanted after minRank needle) pre = []) as ->; [|done].
  assert (forall x, In x pre -> LogStream.ID x <= after) as Hpre.
  { intros x Hx. rewrite Hall in Hinc. apply list_elem_of_In, list_elem_of_lookup in Hx as [i Hx].
    pose proof (lookup_lt_Some _ _ _ Hx). assert (LogStream.ID x < LogStream.ID e); [|lia].
    apply (Hinc i (length pre)); [done|by rewrite lookup_app_l|by rewrite lookup_app_r, Nat.sub_diag by lia]. }
  clear -Hpre. induction pre as [|x pre IH]; [done|]. cbn [List.filter]. unfold wanted at 1.
  rewrite (proj2 (Z.ltb_ge after (LogStream.ID x))) by (apply Hpre; by left). apply IH. intros y Hy. apply Hpre. by right.
Qed.

Lemma pick_wanted all all' after limit minRank needle :
  List.filter (wanted after minRank needle) all = List.filter (wanted after minRank needle) all' ->
  pickLogPage lower all after limit minRank needle = pickLogPage lower all' after limit minRank needle.
Proof. unfold pickLogPage, wanted. by intros ->. Qed.

Lemma lastn_whole {A} n (l : list A) : (length (lastn n l) < n)%nat -> lastn n l = l.
Proof. rewrite length_lastn. intros Hn. apply lastn_all. lia. Qed.

Lemma read_loop_step fuel k reads key after n : read_loop (S fuel) k reads key after n =
  match read_tail (reads k).1 key n (reads k).2 with
  | None => None
  | Some (got, entries) =>
      if ((got <? n)%nat || (LogStream.RingSize <=? n)%nat) || ((after =? 0) || match entries with e :: _ => LogStream.ID e <=? after | [] => false end)
      then Some entries else read_loop fuel (S k) reads key after (Nat.min (n * 2) LogStream.RingSize)
  end.
Proof. done. Qed.

(** The loop ends: the number read doubles up to the size of the list. *)
Lemma loop_reads t d source all after fuel k n : holds t d source all -> 0 < after -> (1 <= n)%nat -> (LogStream.RingSize <= n * 2 ^ fuel)%nat ->
  exists entries, read_loop (S fuel) k (fun _ => (Answered t, d)) (Key source) after n = Some entries /\
    forall minRank needle, List.filter (wanted after minRank needle) entries = List.filter (wanted after minRank needle) all.
Proof.
  intros Hh Hafter. revert k n. induction fuel as [|fuel IH]; intros k n Hn Hbig; rewrite read_loop_step; cbn [fst snd];
    rewrite (read_tail_exact t d source all n Hh); pose proof Hh as (_ & _ & Hinc & Hlen);
    rewrite (proj2 (Z.eqb_neq after 0)) by lia; cbn [orb].
  - rewrite Nat.mul_1_r in Hbig. rewrite (proj2 (Nat.leb_le _ n) Hbig), orb_true_r. cbn [orb]. exists (lastn n all).
    split; [done|]. intros. by rewrite lastn_all by lia.
  - destruct ((length (lastn n all) <? n)%nat) eqn:E1; cbn [orb].
    { apply Nat.ltb_lt, lastn_whole in E1. exists (lastn n all). split; [done|]. intros. by rewrite E1. }
    destruct ((LogStream.RingSize <=? n)%nat) eqn:E2; cbn [orb].
    { apply Nat.leb_le in E2. exists (lastn n all). split; [done|]. intros. by rewrite lastn_all by lia. }
    destruct (match lastn n all with e :: _ => LogStream.ID e <=? after | [] => false end) eqn:E3.
    { exists (lastn n all). split; [done|]. intros. apply wanted_tail; [done|]. destruct (lastn n all); [done|by apply Z.leb_le]. }
    apply IH.
    + unfold LogStream.RingSize. lia.
    + apply Nat.leb_gt in E2. destruct (Nat.le_ge_cases (n * 2) LogStream.RingSize) as [Hm|Hm].
      * rewrite Nat.min_l by done. rewrite Nat.pow_succ_r' in Hbig. lia.
      * rewrite Nat.min_r by done. pose proof (Nat.pow_nonzero 2 fuel). nia.
Qed.

(** A page is what the whole list would give: reading only the end of it, a little at
    first and then twice as much, changes nothing. *)
Theorem page_exact t d source all after limit minRank needle : holds t d source all -> 0 <= after -> 0 < limit <= maxLogLimit -> 0 <= minRank ->
  let filtered := (0 <? minRank) || negb (String.eqb needle "") in
  exists entries, readLogEntries (fun _ => (Answered t, d)) source after limit filtered = Some entries /\
    pickLogPage lower entries after limit minRank needle = pickLogPage lower all after limit minRank needle.
Proof.
  intros Hh Hafter Hlimit Hrank. cbv zeta. pose proof Hh as (_ & Hok & Hinc & Hlen). unfold readLogEntries.
  set (n := if _ || _ then _ else _). assert (1 <= n)%nat as Hn by (subst n; destruct (_ || _); unfold LogStream.RingSize; lia).
  destruct (Z.eq_dec after 0) as [->|Hne].
  - rewrite read_loop_step. cbn [fst snd]. rewrite (read_tail_exact t d source all n Hh), Z.eqb_refl. cbn [orb]. rewrite orb_true_r.
    exists (lastn n all). split; [done|]. subst n. destruct ((0 <? minRank) || negb (String.eqb needle "")) eqn:Ef.
    { by rewrite lastn_all. }
    apply orb_false_iff in Ef as [Hr%Z.ltb_ge Hnd%negb_false_iff]. apply String.eqb_eq in Hnd as ->. assert (minRank = 0) as -> by lia.
    assert (forall l, Forall entry_ok l -> List.filter (wanted 0 0 "") l = l) as Hall.
    { intros l Hl. apply filter_true. intros e He%list_elem_of_In. rewrite Forall_forall in Hl. destruct (Hl e He) as (Hp & _).
      unfold wanted, LogStream.Matches. cbn [Z.ltb String.eqb orb andb Z.compare]. by rewrite (proj2 (Z.ltb_lt _ _) Hp). }
    unfold pickLogPage. fold (wanted 0 0 ""). change (fun e => (0 <? LogStream.ID e) && LogStream.Matches lower 0 "" e) with (wanted 0 0 "").
    rewrite (Hall all Hok), Hall by by apply Forall_drop. rewrite length_lastn, Z.eqb_refl.
    rewrite (proj2 (Z.ltb_ge limit _)) by lia. destruct (Z.ltb_spec limit (Z.of_nat (length all))); [done|]. apply lastn_all. lia.
  - destruct (loop_reads t d source all after 11 0 n Hh ltac:(lia) Hn) as (entries & He & Hw).
    { change (2 ^ 11)%nat with 2048%nat. unfold LogStream.RingSize. lia. }
    exists entries. split; [exact He|]. by apply pick_wanted.
Qed.
End page.

Definition demo_line (id : Z) (level line : string) : LogStream.Entry := LogStream.mkEntry id "2024-05-01T00:00:00Z" level line.
Definition demo_all : list LogStream.Entry := [demo_line 10 "info" "up"; demo_line 20 "error" "no route"; demo_line 30 "info" "down"].
Definition panel_db (all : list LogStream.Entry) : db := {[ Key "panel" := mkCell (VList (map Encode all)) None ]}.

Lemma demo_holds : holds 5 (panel_db demo_all) "panel" demo_all.
Proof.
  split; [reflexivity|]. split; [repeat constructor; vm_compute; congruence|]. split; [|unfold LogStream.RingSize; cbn; lia].
  intros i j x y Hij Hx Hy. destruct i as [|[|[|i]]], j as [|[|[|j]]]; try lia; cbn in *; simplify_eq; cbn; try lia;
    by rewrite ?lookup_nil in *.
Qed.

Lemma page_exact_witness :
  exists entries, readLogEntries (fun _ => (Answered 5, panel_db demo_all)) "panel" 10 1 ((0 <? 0) || negb (String.eqb "" "")) = Some entries /\
    pickLogPage ToLower entries 10 1 0 "" = pickLogPage ToLower demo_all 10 1 0 "".
Proof. apply (page_exact ToLower 5 (panel_db demo_all) "panel" demo_all 10 1 0 ""); [exact demo_holds|unfold maxLogLimit; lia..]. Defined.

(** Two panel processes share a list, and one pushed an older line after a newer one: a
    reader at 80 that asks for one line stops at the last element and is told there is
    nothing new. *)
Example interleaved_list_hides :
  let all := [demo_line 90 "info" "a"; demo_line 50 "info" "b"] in
  (map LogStream.ID (pickLogPage ToLower (default [] (readLogEntries (fun _ => (Answered 5, panel_db all)) "panel" 80 1 false)) 80 1 0 ""),
   map LogStream.ID (pickLogPage ToLower (sort_by LogStream.ID all) 80 1 0 "")) = ([], [90]).
Proof. vm_compute. reflexivity. Qed.
End PageExact.
