(* ===== verification/GoTime.v ===== *)
(** * GoTime: reading times with [time.Parse]

    The instants of the proleptic Gregorian calendar as nanoseconds since the epoch, and
    [time.Parse] for layouts made of the elements the panel's importers use: numeric
    dates, clock times and zone offsets. As in Go a fraction after the seconds is read
    though the layout has none. *)

From S2P Require Import Prelude GoStrings.

#[local] Open Scope string_scope.
#[local] Open Scope Z_scope.

Module GoTime.

Definition is_leap (y : Z) : bool := (y mod 4 =? 0) && (negb (y mod 100 =? 0) || (y mod 400 =? 0)).

(** [daysIn] *)
Definition daysIn (m y : Z) : Z :=
  if m =? 2 then if is_leap y then 29 else 28
  else if (m =? 4) || (m =? 6) || (m =? 9) || (m =? 11) then 30 else 31.

(** Days from 1970-01-01 to a date; the year is counted from March. *)
Definition days_from_civil (y m d : Z) : Z :=
  let y := if m <=? 2 then y - 1 else y in
  let doy := (153 * (m + (if m <=? 2 then 9 else -3)) + 2) / 5 + d - 1 in
  (y / 400) * 146097 + (y mod 400 * 365 + y mod 400 / 4 - y mod 400 / 100 + doy) - 719468.

(** The date of a day counted from 1970. *)
Definition civil_from_days (z : Z) : Z * Z * Z :=
  let z := z + 719468 in
  let doe := z mod 146097 in
  let yoe := (doe - doe / 1460 + doe / 36524 - doe / 146096) / 365 in
  let doy := doe - (365 * yoe + yoe / 4 - yoe / 100) in
  let mp := (5 * doy + 2) / 153 in
  let m := if mp <? 10 then mp + 3 else mp - 9 in
  (yoe + (z / 146097) * 400 + (if m <=? 2 then 1 else 0), m, doy - (153 * mp + 2) / 5 + 1).

Definition second : Z := 1000000000.

(** The instant of a clock reading in UTC. *)
Definition Date (y m d h mi s ns : Z) : Z := ((days_from_civil y m d * 24 + h) * 60 + mi) * 60 * second + s * second + ns.

Definition Unix (t : Z) : Z := t / second.

(** ** Layouts *)

Inductive zone := Short | Colon | ColonSeconds.

Inductive elem := Lit (c : ascii) | Year4 | Month2 | Day2 | Hour2 | Minute2 | Second2 | Offset (z : zone).

Record fields := mkFields { f_year : Z; f_month : Z; f_day : Z; f_hour : Z; f_min : Z; f_sec : Z; f_nsec : Z; f_offset : option Z }.

Definition no_fields : fields := mkFields 0 1 1 0 0 0 0 None.

Definition digit_of (c : ascii) : option Z := if is_digit c then Some (byte_of c - 48) else None.

(** [getnum]: two digits, or one where [fixed] does not ask for both. *)
Definition getnum (fixed : bool) (s : string) : option (Z * string) :=
  match s with
  | String a r =>
      x ← digit_of a;
      match r with
      | String b r' => match digit_of b with Some y => Some (x * 10 + y, r') | None => if fixed then None else Some (x, r) end
      | EmptyString => if fixed then None else Some (x, EmptyString)
      end
  | EmptyString => None
  end.

Definition in_range (lo hi : Z) (r : option (Z * string)) : option (Z * string) :=
  '(v, s) ← r; if (lo <=? v) && (v <? hi) then Some (v, s) else None.

(** [skip], for one byte of the layout. *)
Fixpoint cut_space (s : string) : string :=
  match s with String c r => if Ascii.eqb c " " then cut_space r else s | EmptyString => EmptyString end.

Definition skip (c : ascii) (s : string) : option string :=
  if Ascii.eqb c " " then
    match s with
    | String d _ => if Ascii.eqb d " " then Some (cut_space s) else None
    | EmptyString => Some EmptyString
    end
  else match s with String d r => if Ascii.eqb d c then Some r else None | EmptyString => None end.

Definition four_digits (s : string) : option (Z * string) :=
  match s with
  | String a (String b (String c (String d r))) =>
      w ← digit_of a; x ← digit_of b; y ← digit_of c; z ← digit_of d; Some (w * 1000 + x * 100 + y * 10 + z, r)
  | _ => None
  end.

(** The fraction after the seconds: of the digits at most nine count. *)
Fixpoint fraction (n : nat) (acc : Z) (s : string) : Z :=
  match n, s with
  | S n, String c r => match digit_of c with Some d => fraction n (acc * 10 + d) r | None => acc * 10 ^ Z.of_nat (S n) end
  | _, _ => acc * 10 ^ Z.of_nat n
  end.

Fixpoint skip_digits (s : string) : string :=
  match s with String c r => if is_digit c then skip_digits r else s | EmptyString => EmptyString end.

Definition read_fraction (s : string) : Z * string :=
  match s with
  | String p (String d r) =>
      if (Ascii.eqb p "." || Ascii.eqb p ",") && is_digit d then (fraction 9 0 (String d r), skip_digits (String d r)) else (0, s)
  | _ => (0, s)
  end.

(** [hh], [hh:mm] or [hh:mm:ss] after a sign; [None] for a text too short or without its colons. *)
Definition split_offset (z : zone) (s : string) : option (string * string * string * string) :=
  let colon c := Ascii.eqb c ":" in
  match z, s with
  | Short, String a (String b r) => Some (String a (String b ""), "00", "00", r)
  | Colon, String a (String b (String p (String c (String d r)))) =>
      if colon p then Some (String a (String b ""), String c (String d ""), "00", r) else None
  | ColonSeconds, String a (String b (String p (String c (String d (String q (String e (String f r))))))) =>
      if colon p && colon q then Some (String a (String b ""), String c (String d ""), String e (String f ""), r) else None
  | _, _ => None
  end.

Definition read_offset (z : zone) (s : string) : option (Z * string) :=
  match s with
  | String sign r =>
      '(h, m, ss, r) ← split_offset z r;
      '(hr, _) ← getnum true h; '(mm, _) ← getnum true m; '(sec, _) ← getnum true ss;
      if (24 <? hr) || (60 <? mm) || (60 <? sec) then None
      else let off := (hr * 60 + mm) * 60 + sec in
           if Ascii.eqb sign "+" then Some (off, r) else if Ascii.eqb sign "-" then Some (- off, r) else None
  | EmptyString => None
  end.

Definition read_elem (e : elem) (s : string) (f : fields) : option (fields * string) :=
  match e with
  | Lit c => r ← skip c s; Some (f, r)
  | Year4 => '(v, r) ← four_digits s; Some (mkFields v (f_month f) (f_day f) (f_hour f) (f_min f) (f_sec f) (f_nsec f) (f_offset f), r)
  | Month2 => '(v, r) ← in_range 1 13 (getnum true s); Some (mkFields (f_year f) v (f_day f) (f_hour f) (f_min f) (f_sec f) (f_nsec f) (f_offset f), r)
  | Day2 => '(v, r) ← getnum true s; Some (mkFields (f_year f) (f_month f) v (f_hour f) (f_min f) (f_sec f) (f_nsec f) (f_offset f), r)
  | Hour2 => '(v, r) ← in_range 0 24 (getnum false s); Some (mkFields (f_year f) (f_month f) (f_day f) v (f_min f) (f_sec f) (f_nsec f) (f_offset f), r)
  | Minute2 => '(v, r) ← in_range 0 60 (getnum true s); Some (mkFields (f_year f) (f_month f) (f_day f) (f_hour f) v (f_sec f) (f_nsec f) (f_offset f), r)
  | Second2 =>
      '(v, r) ← in_range 0 60 (getnum true s);
      let '(ns, r) := read_fraction r in
      Some (mkFields (f_year f) (f_month f) (f_day f) (f_hour f) (f_min f) v ns (f_offset f), r)
  | Offset z => '(v, r) ← read_offset z s; Some (mkFields (f_year f) (f_month f) (f_day f) (f_hour f) (f_min f) (f_sec f) (f_nsec f) (Some v), r)
  end.

Fixpoint read_layout (layout : list elem) (s : string) (f : fields) : option (fields * string) :=
  match layout with
  | [] => Some (f, s)
  | e :: layout => '(f, s) ← read_elem e s f; read_layout layout s f
  end.

(** [time.Parse]. An offset of minus one second is the sentinel for none. *)
Definition Parse (layout : list elem) (s : string) : option Z :=
  '(f, rest) ← read_layout layout s no_fields;
  if negb (String.eqb rest "") then None
  else if (f_day f <? 1) || (daysIn (f_month f) (f_year f) <? f_day f) then None
  else let t := Date (f_year f) (f_month f) (f_day f) (f_hour f) (f_min f) (f_sec f) (f_nsec f) in
       Some match f_offset f with
            | Some off => if off =? -1 then t else t - off * second
            | None => t
            end.

Definition date_time : list elem :=
  [Year4; Lit "-"; Month2; Lit "-"; Day2; Lit " "; Hour2; Lit ":"; Minute2; Lit ":"; Second2].

Definition date_only : list elem := [Year4; Lit "-"; Month2; Lit "-"; Day2].

Example parse_mysql : Parse date_time "2024-02-29 13:05:09" = Some (1709211909 * second).
Proof. reflexivity. Qed.
Example parse_fraction : Parse date_time "1970-01-01 00:00:01.25" = Some 1250000000.
Proof. reflexivity. Qed.
Example parse_offset : Parse (date_time ++ [Offset Colon])%list "1970-01-01 03:30:00+03:30" = Some 0.
Proof. reflexivity. Qed.
Example parse_bad_day : Parse date_time "2023-02-29 00:00:00" = None.
Proof. reflexivity. Qed.
Example parse_trailing : Parse date_time "2023-02-28 00:00:00+00" = None.
Proof. reflexivity. Qed.

(** ** Writing a date and reading it back *)

Definition two (z : Z) : string := String (digit_ascii (z / 10)) (String (digit_ascii (z mod 10)) "").
Definition four (z : Z) : string := two (z / 100) ++ two (z mod 100).

(** The text databases write. *)
Definition date_text (y m d h mi s : Z) : string :=
  four y ++ "-" ++ two m ++ "-" ++ two d ++ " " ++ two h ++ ":" ++ two mi ++ ":" ++ two s.

Lemma digit_of_digit d : 0 <= d < 10 -> digit_of (digit_ascii d) = Some d.
Proof. intros Hd. unfold digit_of. rewrite digit_ascii_digit, digit_ascii_byte by lia. f_equal. lia. Qed.

Lemma digits_bound z k : 0 <= z < 10 * k -> 0 < k -> 0 <= z / k < 10.
Proof. intros Hz Hk. split; [apply Z.div_pos; lia|apply Z.div_lt_upper_bound; lia]. Qed.

Lemma getnum_two fixed z r : 0 <= z < 100 -> getnum fixed (two z ++ r) = Some (z, r).
Proof.
  intros Hz. unfold two. cbn [String.append getnum]. pose proof (digits_bound z 10 ltac:(lia) ltac:(lia)). pose proof (Z.mod_pos_bound z 10 ltac:(lia)).
  rewrite !digit_of_digit by lia. cbn. do 2 f_equal. pose proof (Z.div_mod z 10). lia.
Qed.

Lemma four_digits_four z r : 0 <= z < 10000 -> four_digits (four z ++ r) = Some (z, r).
Proof.
  intros Hz. unfold four, two. cbn [String.append four_digits].
  assert (0 <= z / 100 < 100) as H1 by (split; [apply Z.div_pos; lia|apply Z.div_lt_upper_bound; lia]).
  pose proof (Z.mod_pos_bound z 100 ltac:(lia)) as H2.
  pose proof (digits_bound (z / 100) 10 ltac:(lia) ltac:(lia)). pose proof (Z.mod_pos_bound (z / 100) 10 ltac:(lia)).
  pose proof (digits_bound (z mod 100) 10 ltac:(lia) ltac:(lia)). pose proof (Z.mod_pos_bound (z mod 100) 10 ltac:(lia)).
  rewrite !digit_of_digit by lia. cbn. do 2 f_equal.
  pose proof (Z.div_mod z 100). pose proof (Z.div_mod (z / 100) 10). pose proof (Z.div_mod (z mod 100) 10). lia.
Qed.

Lemma skip_dash s : skip "-" ("-" ++ s) = Some s. Proof. done. Qed.
Lemma skip_colon s : skip ":" (":" ++ s) = Some s. Proof. done. Qed.

Lemma skip_space_two z s : 0 <= z < 100 -> skip " " (" " ++ two z ++ s) = Some (two z ++ s).
Proof.
  intros Hz. unfold two. cbn [String.append skip Ascii.eqb Bool.eqb cut_space].
  destruct (Ascii.eqb_spec (digit_ascii (z / 10)) " ") as [E|_]; [|done].
  pose proof (digit_ascii_digit (z / 10) (digits_bound z 10 ltac:(lia) ltac:(lia))) as Hd. by rewrite E in Hd.
Qed.

Lemma in_range_some lo hi z (r : string) : lo <= z < hi -> in_range lo hi (Some (z, r)) = Some (z, r).
Proof. intros Hz. unfold in_range. cbn. by rewrite (proj2 (Z.leb_le lo z)), (proj2 (Z.ltb_lt z hi)) by lia. Qed.

(** A date written by a database is read as the instant it names. *)
Lemma Parse_date_text y m d h mi s :
  0 <= y < 10000 -> 1 <= m <= 12 -> 1 <= d <= daysIn m y -> 0 <= h < 24 -> 0 <= mi < 60 -> 0 <= s < 60 ->
  Parse date_time (date_text y m d h mi s) = Some (Date y m d h mi s 0).
Proof.
  intros Hy Hm Hd Hh Hmi Hs. assert (d <= 31) as Hd31 by (unfold daysIn in Hd; repeat match type of Hd with context [if ?b then _ else _] => destruct b end; lia).
  unfold Parse. assert (read_layout date_time (date_text y m d h mi s) no_fields = Some (mkFields y m d h mi s 0 None, "")) as ->.
  { unfold date_text, date_time. cbn [read_layout read_elem].
    rewrite four_digits_four by done. cbn [mbind option_bind].
    rewrite skip_dash. cbn [mbind option_bind]. rewrite getnum_two, in_range_some by lia. cbn [mbind option_bind].
    rewrite skip_dash. cbn [mbind option_bind]. rewrite getnum_two by lia. cbn [mbind option_bind].
    rewrite skip_space_two by lia. cbn [mbind option_bind]. rewrite getnum_two, in_range_some by lia. cbn [mbind option_bind].
    rewrite skip_colon. cbn [mbind option_bind]. rewrite getnum_two, in_range_some by lia. cbn [mbind option_bind].
    rewrite skip_colon. cbn [mbind option_bind]. rewrite <- (str_app_nil_r (two s)), getnum_two, in_range_some by lia. done. }
  cbn [mbind option_bind f_day f_month f_year f_hour f_min f_sec f_nsec f_offset String.eqb negb].
  rewrite (proj2 (Z.ltb_ge d 1)), (proj2 (Z.ltb_ge (daysIn m y) d)) by lia. done.
Qed.
End GoTime.
