(* ===== verification/LegacyImport.v ===== *)
(** * LegacyImport: other panels' data as this panel's — [internal/legacyimport]

    [FromMarzbanMySQLDump] and [FromPasarGuard] interpret a dump that was read
    ([MySQLDump], [Dump]) as [ImportedData], which [ImportLoad] writes. A row that cannot
    be carried over becomes a warning; the warnings are values here, without their text.
    The import time is one instant. *)

From stdpp Require Import sorting.
From S2P Require Import Prelude GoStrings GoFloat GoTime GoJson ProxySettings Dump MySQLDump NodeConfig.

#[local] Open Scope string_scope.
#[local] Open Scope Z_scope.

(** ** [types.go] *)

Module Data.

Record Admin := mkAdmin {
  a_SourceID : Z; a_Username : string; a_HashedPassword : string; a_CreatedAt : Z; a_IsSudo : bool; a_IsOwner : bool;
  a_PasswordResetAt : option Z; a_TelegramID : option Z; a_DiscordWebhook : option string; a_UsersUsage : Z
}.

Record Proxy := mkProxy { p_Type : string; p_Settings : string; p_ExcludedInbounds : list string }.

Record User := mkUser {
  SourceID : Z; SourceAdminID : option Z; Username : string; Status : string; UsedTraffic : Z; DataLimit : option Z;
  DataLimitResetStrategy : string; Expire : option Z; CreatedAt : Z; Note : option string; SubRevokedAt : option Z;
  SubUpdatedAt : option Z; SubLastUserAgent : option string; OnlineAt : option Z; EditAt : option Z; OnHoldTimeout : option Z;
  OnHoldExpireDuration : option Z; AutoDeleteInDays : option Z; LastStatusChange : option Z; Proxies : list Proxy
}.

Record UserTemplate := mkTemplate {
  t_Name : string; t_DataLimit : option Z; t_ExpireDuration : option Z; t_UsernamePrefix : option string;
  t_UsernameSuffix : option string; t_InboundTags : list string
}.

Record Host := mkHost {
  h_Remark : string; h_Address : string; h_Port : option Z; h_InboundTag : string; h_SNI : option string; h_HostHeader : option string;
  h_Security : string; h_ALPN : string; h_Fingerprint : string; h_AllowInsecure : option bool; h_IsDisabled : option bool;
  h_Path : option string; h_MuxEnable : bool; h_FragmentSetting : option string; h_RandomUserAgent : bool;
  h_NoiseSetting : option string; h_UseSNIAsHost : bool
}.

Record NextPlan := mkPlan { n_SourceUserID : Z; n_DataLimit : Z; n_Expire : option Z; n_AddRemainingTraffic : bool; n_FireOnEither : bool }.

Inductive warning :=
  | MissingTime (table : string) (id : Z) (col : string)
  | UnknownExclusion (proxy : Z) (tag : string)
  | UnknownProxyType (proxy : Z) (type : string)
  | UnknownOwner (username : string) (admin : Z)
  | UnknownHostInbound (remark tag : string)
  | PlaceholderInbounds (n : nat)
  | KeyNotHex
  | NoKey
  | RoleWithoutEquivalent (username role : string)
  | DisabledAdmin (username : string)
  | AdminSubDomain (username domain : string)
  | AdminTrafficCap (username : string)
  | BadCoreConfig (name : string)
  | InboundTwice (tag first second : string)
  | UserIDNotKept (username id : string)
  | UnknownStatus (username status : string)
  | UnknownStrategy (username strategy : string)
  | ExpiryOutOfRange (username : string) (at_ : Z)
  | BadProxySettings (username : string)
  | PlanFromTemplate (user : Z)
  | DisabledGroup (name : string) (members : nat)
  | UsersWithoutAccess (n : nat)
  | GeneratedSecrets (n : nat)
  | UnsupportedProtocol (protocol : string) (users : nat)
  | UndefinedInbound (tag : string)
  | InboundNotRecreated (tag protocol : string) (users : nat)
  | HostNotRecreated (remark address port tag : string)
  | TemplatesNotCarried (n : nat)
  | DeviceLimits (n : nat)
  | DevicesNotCarried (n : nat)
  | LinkPrefix (prefix : string).

(** An inbound is its tag. *)
Record ImportedData := mkData {
  Admins : list Admin; Users : list User; UserTemplates : list UserTemplate; Hosts : list Host; Inbounds : list string;
  NextPlans : list NextPlan; SubscriptionSecret : string; KeepUserIDs : bool; UsersOnly : bool; Warnings : list warning
}.
End Data.

(** Rows handed over one by one: what each yields, and the warnings so far. *)
Fixpoint collect {A B W} (f : A -> option B * list W) (rows : list A) : list B * list W :=
  match rows with
  | [] => ([], [])
  | r :: rows =>
      let '(x, ws) := f r in let '(xs, ws') := collect f rows in
      ((match x with Some x => x :: xs | None => xs end), (ws ++ ws')%list)
  end.

(** [m[k] = append(m[k], v)] *)
Definition add_to {K A} `{Countable K} (k : K) (v : A) (m : gmap K (list A)) : gmap K (list A) := <[k := (default [] (m !! k) ++ [v])%list]> m.

Definition multimap {K A} `{Countable K} (l : list (K * A)) : gmap K (list A) := foldl (fun m kv => add_to kv.1 kv.2 m) ∅ l.

(** ** [marzban.go] *)

Module Marzban.
Import Data MySQLDump.

Abbreviation row := (gmap string value).

Section Marzban.
(** [now] is the import time; [overflow] what [int64] makes of a float that no int64 is near. *)
Context (now : Z) (overflow : float -> Z).

Definition int64_of (f : float) : Z :=
  match f with
  | Finite x => let z := Z.quot (GoFloat.num x) (GoFloat.den x) in if decide (fits 64 z) then z else overflow f
  | _ => overflow f
  end.

Definition optStringPtr (r : row) (col : string) : option string := match r !! col with Some (VString s) => Some s | _ => None end.
Definition reqString (r : row) (col : string) : string := default "" (optStringPtr r col).
Definition optInt64Ptr (r : row) (col : string) : option Z :=
  match r !! col with Some (VInt z) => Some z | Some (VFloat f) => Some (int64_of f) | _ => None end.
Definition reqInt64 (r : row) (col : string) : Z := default 0 (optInt64Ptr r col).
Definition optInt32Ptr (r : row) (col : string) : option Z := int32 <$> optInt64Ptr r col.
Definition optBoolPtr (r : row) (col : string) : option bool := (fun z => negb (z =? 0)) <$> optInt64Ptr r col.
Definition reqBool (r : row) (col : string) : bool := negb (reqInt64 r col =? 0).
Definition optTimePtr (r : row) (col : string) : option Z :=
  match optStringPtr r col with
  | Some s => if String.eqb s "" then None else GoTime.Parse GoTime.date_time s
  | None => None
  end.
Definition optTime (r : row) (col table : string) (id : Z) : Z * list warning :=
  match optTimePtr r col with Some t => (t, []) | None => (now, [MissingTime table id col]) end.

(** The rows of a table; none when the dump has no such table. *)
Definition rows (dump : MySQLDump) (table : string) : list row := default [] (Row table dump).

Definition marzbanProxyTypeMap (t : string) : option string :=
  if String.eqb t "VMess" then Some "vmess" else if String.eqb t "VLESS" then Some "vless"
  else if String.eqb t "Trojan" then Some "trojan" else if String.eqb t "Shadowsocks" then Some "shadowsocks" else None.

Definition secret_of (dump : MySQLDump) : string :=
  default "" (List.find (fun s => negb (String.eqb s "")) (omap (fun r => optStringPtr r "secret_key") (rows dump "jwt"))).

Definition admin_of (r : row) : option Admin * list warning :=
  let id := reqInt64 r "id" in
  let '(created, ws) := optTime r "created_at" "admins" id in
  (Some (mkAdmin id (reqString r "username") (reqString r "hashed_password") created (reqBool r "is_sudo") false
     (optTimePtr r "password_reset_at") (optInt64Ptr r "telegram_id") (optStringPtr r "discord_webhook") (reqInt64 r "users_usage")), ws).

Definition exclusion_of (known : list string) (r : row) : option (Z * string) * list warning :=
  let tag := reqString r "inbound_tag" in
  match optInt64Ptr r "proxy_id" with
  | None => (None, [])
  | Some pid => (Some (pid, tag), if str_mem tag known then [] else [UnknownExclusion pid tag])
  end.

Definition proxy_of (excluded : gmap Z (list string)) (r : row) : option (Z * Proxy) * list warning :=
  match optInt64Ptr r "user_id" with
  | None => (None, [])
  | Some uid =>
      let pid := reqInt64 r "id" in
      match marzbanProxyTypeMap (reqString r "type") with
      | None => (None, [UnknownProxyType pid (reqString r "type")])
      | Some t => (Some (uid, mkProxy t (reqString r "settings") (default [] (excluded !! pid))), [])
      end
  end.

Definition user_of (admins : list Z) (proxies : gmap Z (list Proxy)) (r : row) : option User * list warning :=
  let id := reqInt64 r "id" in
  let '(owner, ws1) :=
    match optInt64Ptr r "admin_id" with
    | Some aid => if existsb (Z.eqb aid) admins then (Some aid, []) else (None, [UnknownOwner (reqString r "username") aid])
    | None => (None, [])
    end in
  let '(created, ws2) := optTime r "created_at" "users" id in
  (Some (mkUser id owner (reqString r "username") (reqString r "status") (reqInt64 r "used_traffic") (optInt64Ptr r "data_limit")
     (reqString r "data_limit_reset_strategy") (optInt32Ptr r "expire") created (optStringPtr r "note") (optTimePtr r "sub_revoked_at")
     (optTimePtr r "sub_updated_at") (optStringPtr r "sub_last_user_agent") (optTimePtr r "online_at") (optTimePtr r "edit_at")
     (optTimePtr r "on_hold_timeout") (optInt64Ptr r "on_hold_expire_duration") (optInt32Ptr r "auto_delete_in_days")
     (optTimePtr r "last_status_change") (default [] (proxies !! id))), (ws1 ++ ws2)%list).

Definition host_of (known : list string) (r : row) : option Host * list warning :=
  let tag := reqString r "inbound_tag" in
  (Some (mkHost (reqString r "remark") (reqString r "address") (optInt32Ptr r "port") tag (optStringPtr r "sni") (optStringPtr r "host")
     (reqString r "security") (reqString r "alpn") (reqString r "fingerprint") (optBoolPtr r "allowinsecure") (optBoolPtr r "is_disabled")
     (optStringPtr r "path") (reqBool r "mux_enable") (optStringPtr r "fragment_setting") (reqBool r "random_user_agent")
     (optStringPtr r "noise_setting") (reqBool r "use_sni_as_host")),
   if str_mem tag known then [] else [UnknownHostInbound (reqString r "remark") tag]).

Definition template_of (tags : gmap Z (list string)) (r : row) : UserTemplate :=
  mkTemplate (reqString r "name") (optInt64Ptr r "data_limit") (optInt64Ptr r "expire_duration") (optStringPtr r "username_prefix")
    (optStringPtr r "username_suffix") (default [] (tags !! reqInt64 r "id")).

Definition plan_of (r : row) : option NextPlan :=
  uid ← optInt64Ptr r "user_id";
  Some (mkPlan uid (reqInt64 r "data_limit") (optInt32Ptr r "expire") (reqBool r "add_remaining_traffic") (reqBool r "fire_on_either")).

Definition FromMarzbanMySQLDump (dump : MySQLDump) : ImportedData :=
  let '(admins, w1) := collect admin_of (rows dump "admins") in
  let tags := map (fun r => reqString r "tag") (rows dump "inbounds") in
  let '(exclusions, w2) := collect (exclusion_of tags) (rows dump "exclude_inbounds_association") in
  let '(proxies, w3) := collect (proxy_of (multimap exclusions)) (rows dump "proxies") in
  let '(users, w4) := collect (user_of (map a_SourceID admins) (multimap proxies)) (rows dump "users") in
  let '(hosts, w5) := collect (host_of tags) (rows dump "hosts") in
  let w6 := match tags with [] => [] | _ => [PlaceholderInbounds (length tags)] end in
  let templateTags := multimap (omap (fun r => tid ← optInt64Ptr r "user_template_id"; Some (tid, reqString r "inbound_tag"))
                                 (rows dump "template_inbounds_association")) in
  mkData admins users (map (template_of templateTags) (rows dump "user_templates")) hosts tags (omap plan_of (rows dump "next_plans"))
    (secret_of dump) false false (w1 ++ w2 ++ w3 ++ w4 ++ w5 ++ w6)%list.
End Marzban.
End Marzban.
