(* ===== verification/PasarGuard.v ===== *)
(** * PasarGuard: a PasarGuard dump as this panel's data — [internal/legacyimport/pasarguard.go]

    [FromPasarGuard] reads the tables of a parsed pg_dump ([Dump.PgDump]). Users keep their
    ids; what they may use is found through their groups. A missing secret is drawn from
    the supply of [ProxySettings.Random]. Maps the code iterates over only to count are
    counted here in the order of their keys. *)

From stdpp Require Import sorting.
From S2P Require Import Prelude GoStrings GoTime GoJson ProxySettings Dump MySQLDump NodeConfig LegacyImport.

#[local] Open Scope string_scope.
#[local] Open Scope Z_scope.

Module PasarGuard.
Import Data ProxySettings Profile GoJson.

Definition pasarGuardSignature : list string :=
  ["alembic_version"; "admins"; "users"; "jwt"; "core_configs"; "users_groups_association"].

Definition IsPasarGuardSchema (created : gset string) : bool := forallb (fun t => bool_decide (t ∈ created)) pasarGuardSignature.

Definition PasarGuardTables (table : string) : bool :=
  str_mem table ["admins"; "admin_roles"; "users"; "jwt"; "groups"; "users_groups_association"; "inbounds";
    "inbounds_groups_association"; "core_configs"; "user_subscription_updates"; "next_plans"; "hosts"; "user_hwids";
    "settings"; "user_templates"].

Definition pasarGuardProxyOrder : list string := ["vless"; "vmess"; "trojan"; "shadowsocks"].

(** ** [pgRow] *)

Abbreviation row := (gmap string (option string)).

Definition strPtr (r : row) (col : string) : option string := mjoin (r !! col).
Definition has (r : row) (col : string) : bool := match strPtr r col with Some _ => true | None => false end.
Definition str (r : row) (col : string) : string := default "" (strPtr r col).
Definition nonEmptyStrPtr (r : row) (col : string) : option string :=
  match strPtr r col with Some s => if String.eqb s "" then None else Some s | None => None end.
(** [int64] and [int64Ptr] *)
Definition int64Ptr (r : row) (col : string) : option Z := s ← strPtr r col; ParseInt s.
Definition int64First (r : row) (c1 c2 : string) : option Z :=
  match int64Ptr r c1 with Some n => Some n | None => int64Ptr r c2 end.
Definition int32Ptr (r : row) (col : string) : option Z := n ← int64Ptr r col; if decide (fits 32 n) then Some n else None.
Definition bool_of (r : row) (col : string) : bool := str_mem (str r col) ["t"; "true"; "1"].

Definition pgTimeLayouts : list (list GoTime.elem) :=
  [GoTime.date_time ++ [GoTime.Offset GoTime.Short]; GoTime.date_time ++ [GoTime.Offset GoTime.Colon];
   GoTime.date_time ++ [GoTime.Offset GoTime.ColonSeconds]; GoTime.date_time]%list.

Fixpoint first_layout (layouts : list (list GoTime.elem)) (s : string) : option Z :=
  match layouts with
  | [] => None
  | l :: layouts => match GoTime.Parse l s with Some t => Some t | None => first_layout layouts s end
  end.

Definition time (r : row) (col : string) : option Z :=
  if String.eqb (str r col) "" then None else first_layout pgTimeLayouts (str r col).

(** [requiredTime], at the import time [now]. *)
Definition requiredTime (now : Z) (r : row) (col table : string) (id : Z) : Z * list warning :=
  match time r col with Some t => (t, []) | None => (now, [MissingTime table id col]) end.

Definition sortedKeys {A} (m : gmap string A) : list string := merge_sort str_le (map fst (map_to_list m)).

(** [m[k]++] *)
Definition count1 (k : string) (m : gmap string nat) : gmap string nat := <[k := S (default 0%nat (m !! k))]> m.

(** The rows of a table; none when the dump has no such table. *)
Definition rows (d : PgDump.PgDump) (table : string) : list row := default [] (PgDump.RowsOf table d).

(** ** What a JSON column holds *)

Record xrayInbound := mkXray { x_Tag : string; x_Protocol : string }.

#[export] Instance xrayInbound_codec : Codec xrayInbound := {|
  to_json x := JObject (emit "tag" (x_Tag x) ++ emit "protocol" (x_Protocol x))%list;
  of_json j old :=
    match j with
    | JNull => Some old
    | JObject ms => t ← get_from "tag" (Some (x_Tag old)) ms; p ← get_from "protocol" (Some (x_Protocol old)) ms; Some (mkXray t p)
    | _ => None
    end;
  zero := mkXray "" "";
  empty _ := false
|}.

(** One field of a struct read from [text]. *)
Definition field_of {A} `{Codec A} (name text : string) : option A :=
  j ← parse text;
  match j with
  | JNull => Some zero
  | JObject ms => get_from name (Some zero) ms
  | _ => None
  end.

(** The inbounds of one core config: the first config that names a tag decides its protocol. *)
Fixpoint config_inbounds (l : list xrayInbound) (out : gmap string string) : gmap string string * list warning :=
  match l with
  | [] => (out, [])
  | i :: l =>
      if String.eqb (x_Tag i) "" then config_inbounds l out
      else
        let p := ToLower (x_Protocol i) in
        match out !! x_Tag i with
        | Some prev =>
            if String.eqb prev p then config_inbounds l out
            else let '(out, ws) := config_inbounds l out in (out, InboundTwice (x_Tag i) prev p :: ws)
        | None => config_inbounds l (<[x_Tag i := p]> out)
        end
  end.

Fixpoint configs_loop (l : list row) (out : gmap string string) : gmap string string * list warning :=
  match l with
  | [] => (out, [])
  | r :: l =>
      if negb (String.eqb (str r "type") "") && negb (String.eqb (str r "type") "xray") then configs_loop l out
      else
        match field_of "inbounds" (str r "config") with
        | None => let '(out, ws) := configs_loop l out in (out, BadCoreConfig (str r "name") :: ws)
        | Some ibs =>
            let '(out, ws) := config_inbounds ibs out in
            let '(out, ws') := configs_loop l out in (out, (ws ++ ws')%list)
        end
  end.

Definition pasarGuardInboundProtocols (d : PgDump.PgDump) : gmap string string * list warning :=
  configs_loop (rows d "core_configs") ∅.

Definition pasarGuardDefaultSSMethod (d : PgDump.PgDump) : string :=
  match rows d "settings" with
  | r :: _ =>
      match field_of "default_method" (str r "general") with
      | Some m => if String.eqb m "" then "chacha20-ietf-poly1305" else m
      | None => "chacha20-ietf-poly1305"
      end
  | [] => "chacha20-ietf-poly1305"
  end.

Definition pasarGuardSubURLPrefix (d : PgDump.PgDump) : string :=
  match rows d "settings" with
  | r :: _ => default "" (trim_right_byte "/" <$> field_of "url_prefix" (str r "subscription"))
  | [] => ""
  end.

(** [proxy_settings] as [map[string]map[string]any]. Of members of one name the last
    counts; a value of another shape is a nil map, and a number no float64 holds is
    an error too. *)
Fixpoint numbers_ok (j : json) : bool :=
  match j with
  | JNumber n => match MySQLDump.ParseFloat n with Some _ => true | None => false end
  | JArray l => forallb numbers_ok l
  | JObject fs => forallb (fun kv => match kv with (_, v) => numbers_ok v end) fs
  | _ => true
  end.

Definition last_member {A} (k : string) (ms : list (string * A)) : option A :=
  foldl (fun acc kv => if String.eqb kv.1 k then Some kv.2 else acc) None ms.

Definition members_of (j : json) : list (string * json) := match j with JObject ms => ms | _ => [] end.

Definition settings_ok (j : json) : bool :=
  match j with
  | JNull => true
  | JObject ms => forallb (fun kv => match kv.2 with JObject _ => numbers_ok kv.2 | JNull => true | _ => false end) ms
  | _ => false
  end.

(** The settings of each protocol, and whether the column was read without an error. *)
Definition proxySettings (text : string) : (string -> list (string * json)) * bool :=
  if String.eqb text "" then (fun _ => [], true)
  else match parse text with
       | None => (fun _ => [], false)
       | Some j => (fun p => default [] (members_of <$> last_member p (members_of j)), settings_ok j)
       end.

Section PasarGuard.
(** [now] is the import time. *)
Context `{Random} (now : Z).

(** [str(k)] of a protocol's settings; the secret drawn in its place when it is empty. *)
Definition text_of (k : string) (src : list (string * json)) : string :=
  match last_member k src with Some (JString s) => s | _ => "" end.

Definition secret_of (k : string) (src : list (string * json)) (n : nat) : string * nat := fill newUUID (text_of k src) n.

(** The result says how many secrets have been drawn; of a map [json.Marshal] sorts the keys. *)
Definition pasarGuardProxy (protocol : string) (src : list (string * json)) (defaultMethod : string) (n : nat) : Proxy * nat :=
  let '(settings, n) :=
    if String.eqb protocol "vless" then
      let '(id, n) := secret_of "id" src n in (JObject [("flow", JString (text_of "flow" src)); ("id", JString id)], n)
    else if String.eqb protocol "vmess" then
      let '(id, n) := secret_of "id" src n in (JObject [("id", JString id)], n)
    else if String.eqb protocol "trojan" then
      let '(pw, n) := secret_of "password" src n in (JObject [("flow", JString ""); ("password", JString pw)], n)
    else if String.eqb protocol "shadowsocks" then
      let '(pw, n) := secret_of "password" src n in
      let m := text_of "method" src in
      (JObject [("method", JString (if String.eqb m "" then defaultMethod else m)); ("password", JString pw)], n)
    else (JNull, n) in
  (mkProxy protocol (encode settings) [], n).

(** ** Admins *)

Definition lowerHexSecret (s : string) : bool :=
  (String.length s =? 64)%nat && str_forallb (fun c => is_digit c || between 97 102 c) s.

Definition signing_key (d : PgDump.PgDump) : string * list warning :=
  match rows d "jwt" with
  | r :: _ => if lowerHexSecret (str r "secret_key") then (str r "secret_key", []) else ("", [KeyNotHex])
  | [] => ("", [NoKey])
  end.

Definition roles_of (d : PgDump.PgDump) : gmap Z row :=
  foldl (fun m r => match int64Ptr r "id" with Some id => <[id := r]> m | None => m end) ∅ (rows d "admin_roles").

(** Whether an admin is sudo, and an owner. *)
Definition rights (roles : gmap Z row) (r : row) : (bool * bool) * list warning :=
  if bool_decide (is_Some (r !! "is_sudo")) then ((bool_of r "is_sudo", false), [])
  else match int64Ptr r "role_id" with
       | Some rid =>
           match roles !! rid with
           | Some role =>
               if bool_of role "is_owner" then ((true, true), [])
               else if String.eqb (str role "name") "administrator" then ((true, false), [])
               else if negb (String.eqb (str role "name") "operator")
                    then ((false, false), [RoleWithoutEquivalent (str r "username") (str role "name")])
               else ((false, false), [])
           | None => ((false, false), [])
           end
       | None => ((false, false), [])
       end.

Definition admin_of (roles : gmap Z row) (r : row) : option Admin * list warning :=
  let id := default 0 (int64Ptr r "id") in
  let name := str r "username" in
  let '(created, w1) := requiredTime now r "created_at" "admins" id in
  let '((sudo, owner), w2) := rights roles r in
  let w3 := if String.eqb (str r "status") "disabled" then [DisabledAdmin name] else [] in
  let w4 := if String.eqb (str r "sub_domain") "" then [] else [AdminSubDomain name (str r "sub_domain")] in
  let w5 := if has r "data_limit" then [AdminTrafficCap name] else [] in
  (Some (mkAdmin id name (str r "hashed_password") created sudo owner (time r "password_reset_at") (int64Ptr r "telegram_id")
     (nonEmptyStrPtr r "discord_webhook") (default 0 (int64Ptr r "used_traffic"))), w1 ++ w2 ++ w3 ++ w4 ++ w5)%list.

(** ** What each group grants *)

Record Groups := mkGroups {
  g_name : gmap Z string; g_disabled : gmap Z bool; g_tags : gmap Z (list string); g_of_user : gmap Z (list Z)
}.

Definition tagByInboundID (d : PgDump.PgDump) : gmap Z string :=
  foldl (fun m r => match int64Ptr r "id" with Some id => <[id := str r "tag"]> m | None => m end) ∅ (rows d "inbounds").

Definition groups_of (d : PgDump.PgDump) : Groups :=
  let tags := tagByInboundID d in
  mkGroups
    (foldl (fun m r => match int64Ptr r "id" with Some id => <[id := str r "name"]> m | None => m end) ∅ (rows d "groups"))
    (foldl (fun m r => match int64Ptr r "id" with Some id => <[id := bool_of r "is_disabled"]> m | None => m end) ∅ (rows d "groups"))
    (multimap (omap (fun r =>
       i ← int64Ptr r "inbound_id"; g ← int64First r "group_id" "groups_id";
       let tag := default "" (tags !! i) in if String.eqb tag "" then None else Some (g, tag))
       (rows d "inbounds_groups_association")))
    (multimap (omap (fun r => u ← int64Ptr r "user_id"; g ← int64First r "groups_id" "group_id"; Some (u, g))
       (rows d "users_groups_association"))).

Definition disabled (gs : Groups) (g : Z) : bool := default false (g_disabled gs !! g).

(** The last subscription fetch of each user: of two at one time the first row. *)
Definition lastFetch (d : PgDump.PgDump) : gmap Z (Z * string) :=
  foldl (fun m r =>
    match int64Ptr r "user_id", time r "created_at" with
    | Some u, Some at_ =>
        match m !! u with
        | Some (prev, _) => if prev <? at_ then <[u := (at_, str r "user_agent")]> m else m
        | None => <[u := (at_, str r "user_agent")]> m
        end
    | _, _ => m
    end) ∅ (rows d "user_subscription_updates").

(** The tags a user reaches through enabled groups, in the order of the walk. *)
Definition walk (gs : Groups) (id : Z) : list string :=
  concat (map (fun g => if disabled gs g then [] else default [] (g_tags gs !! g)) (default [] (g_of_user gs !! id))).

(** ** Users *)

Record Tally := mkTally {
  noAccess : nat; hwidLimited : nat; unsupported : gmap string nat; unknownTags : gset string; tagUsers : gmap string nat
}.

Definition in_int32 (id : Z) : bool := (1 <=? id) && (id <=? 2147483647).

Fixpoint proxies_of (protos : gset string) (settings : string -> list (string * json)) (method : string)
    (order : list string) (n : nat) : list Proxy * nat :=
  match order with
  | [] => ([], n)
  | p :: order =>
      if bool_decide (p ∈ protos) then
        let '(x, n) := pasarGuardProxy p (settings p) method n in
        let '(xs, n) := proxies_of protos settings method order n in (x :: xs, n)
      else proxies_of protos settings method order n
  end.

Definition status_of (r : row) : string * list warning :=
  let s := str r "status" in
  if str_mem s ["active"; "disabled"; "limited"; "expired"; "on_hold"] then (s, [])
  else ("disabled", [UnknownStatus (str r "username") s]).

Definition strategy_of (r : row) : string * list warning :=
  let s := str r "data_limit_reset_strategy" in
  if str_mem s ["no_reset"; "day"; "week"; "month"; "year"] then (s, [])
  else ("no_reset", [UnknownStrategy (str r "username") s]).

Definition expire_of (r : row) : option Z * list warning :=
  match time r "expire" with
  | Some t =>
      if (0 <? GoTime.Unix t) && (GoTime.Unix t <=? 2147483647) then (Some (GoTime.Unix t), [])
      else (None, [ExpiryOutOfRange (str r "username") t])
  | None => (None, [])
  end.

Section users.
Context (protoByTag : gmap string string) (gs : Groups) (fetch : gmap Z (Z * string)) (method : string).

(** The tags of a user's groups that a core config defines, each once; the protocols
    behind them; the tags no config defines. *)
Definition reached_of (id : Z) : gset string := list_to_set (List.filter (fun t => bool_decide (is_Some (protoByTag !! t))) (walk gs id)).
Definition protos_of (id : Z) : gset string := list_to_set (omap (fun t => protoByTag !! t) (walk gs id)).
Definition unknown_of (id : Z) : gset string := list_to_set (List.filter (fun t => negb (bool_decide (is_Some (protoByTag !! t)))) (walk gs id)).

Definition count_all (ks : gset string) (m : gmap string nat) : gmap string nat := foldr count1 m (base.elements ks).

Definition user_of (r : row) (id : Z) (n : nat) (t : Tally) : User * list warning * nat * Tally :=
  let name := str r "username" in
  let '(created, w1) := requiredTime now r "created_at" "users" id in
  let '(status, w2) := status_of r in
  let '(strategy, w3) := strategy_of r in
  let '(expire, w4) := expire_of r in
  let '(settings, read) := proxySettings (str r "proxy_settings") in
  let w5 := if read then [] else [BadProxySettings name] in
  let '(proxies, n) := proxies_of (protos_of id) settings method pasarGuardProxyOrder n in
  let updated := fst <$> fetch !! id in
  let agent := match fetch !! id with Some (_, ua) => if String.eqb ua "" then None else Some ua | None => None end in
  (mkUser id (int64Ptr r "admin_id") name status (default 0 (int64Ptr r "used_traffic")) (int64Ptr r "data_limit") strategy expire
     created (strPtr r "note") (time r "sub_revoked_at") updated agent (time r "online_at") (time r "edit_at")
     (time r "on_hold_timeout") (int64Ptr r "on_hold_expire_duration") (int32Ptr r "auto_delete_in_days")
     (time r "last_status_change") proxies,
   (w1 ++ w2 ++ w3 ++ w4 ++ w5)%list, n,
   mkTally (match proxies with [] => S (noAccess t) | _ => noAccess t end)
     (if has r "hwid_limit" then S (hwidLimited t) else hwidLimited t)
     (count_all (filter (fun p => negb (str_mem p pasarGuardProxyOrder)) (protos_of id)) (unsupported t))
     (unknown_of id ∪ unknownTags t) (count_all (reached_of id) (tagUsers t))).

Fixpoint users_loop (l : list row) (n : nat) (t : Tally) : list User * list warning * nat * Tally :=
  match l with
  | [] => ([], [], n, t)
  | r :: l =>
      let skipped (_ : unit) :=
        let '(us, ws, n, t) := users_loop l n t in (us, UserIDNotKept (str r "username") (str r "id") :: ws, n, t) in
      match int64Ptr r "id" with
      | Some id =>
          if in_int32 id then
            let '(u, w, n, t) := user_of r id n t in
            let '(us, ws, n, t) := users_loop l n t in (u :: us, (w ++ ws)%list, n, t)
          else skipped tt
      | None => skipped tt
      end
  end.
End users.

Definition plan_of (r : row) : option NextPlan * list warning :=
  match int64Ptr r "user_id" with
  | None => (None, [])
  | Some u =>
      (Some (mkPlan u (default 0 (int64Ptr r "data_limit")) (int32Ptr r "expire") (bool_of r "add_remaining_traffic") true),
       if has r "user_template_id" then [PlanFromTemplate u] else [])
  end.

Definition disabledMembers (gs : Groups) : gmap string nat :=
  foldr count1 ∅ (map (fun g => default "" (g_name gs !! g))
    (List.filter (disabled gs) (concat (map snd (map_to_list (g_of_user gs)))))).

Definition some_left (n : nat) (w : nat -> warning) : list warning := match n with O => [] | _ => [w n] end.

Definition left_behind (d : PgDump.PgDump) (gs : Groups) (protoByTag : gmap string string) (drawn : nat) (t : Tally) : list warning :=
  let at0 (m : gmap string nat) (k : string) := default 0%nat (m !! k) in
  (map (fun g => DisabledGroup g (at0 (disabledMembers gs) g)) (sortedKeys (disabledMembers gs)) ++
   some_left (noAccess t) UsersWithoutAccess ++
   some_left drawn GeneratedSecrets ++
   map (fun p => UnsupportedProtocol p (at0 (unsupported t) p)) (sortedKeys (unsupported t)) ++
   map UndefinedInbound (merge_sort str_le (base.elements (unknownTags t))) ++
   map (fun tag => InboundNotRecreated tag (default "" (protoByTag !! tag)) (at0 (tagUsers t) tag)) (sortedKeys (tagUsers t)) ++
   omap (fun r => if bool_of r "is_disabled" then None
                  else Some (HostNotRecreated (str r "remark") (str r "address") (str r "port") (str r "inbound_tag"))) (rows d "hosts") ++
   some_left (length (rows d "user_templates")) TemplatesNotCarried ++
   some_left (hwidLimited t) DeviceLimits ++
   some_left (length (rows d "user_hwids")) DevicesNotCarried ++
   (let p := pasarGuardSubURLPrefix d in if String.eqb p "" then [] else [LinkPrefix p]))%list.

(** [None]: the dump has no users. [n] secrets were drawn before. *)
Definition FromPasarGuard (d : PgDump.PgDump) (n : nat) : option (ImportedData * nat) :=
  match PgDump.RowsOf "users" d with
  | None => None
  | Some userRows =>
      let '(secret, w1) := signing_key d in
      let '(admins, w2) := collect (admin_of (roles_of d)) (rows d "admins") in
      let '(protoByTag, w3) := pasarGuardInboundProtocols d in
      let gs := groups_of d in
      let '(users, w4, n', t) :=
        users_loop protoByTag gs (lastFetch d) (pasarGuardDefaultSSMethod d) userRows n (mkTally 0 0 ∅ ∅ ∅) in
      let '(plans, w5) := collect plan_of (rows d "next_plans") in
      Some (mkData admins users [] [] [] plans secret true true
              (w1 ++ w2 ++ w3 ++ w4 ++ w5 ++ left_behind d gs protoByTag (n' - n) t)%list, n')
  end.
End PasarGuard.
End PasarGuard.
