(* ===== verification/ImportLoad.v ===== *)
(** * ImportLoad: an import written to the database — [internal/httpapi/legacyimport.go]

    [loadLegacyImport] replaces the tables an import fills, row by row: a row the database
    refuses is a warning and is skipped. The statements of [queries/legacyimport.sql] and
    the ones of [Store] it shares run on [Load], the database with the tables only an import
    writes, the faults to come and the warnings so far. Times are stored in microseconds. *)

From S2P Require Import Prelude GoStrings Base64 GoJson ProxySettings Effect Store LegacyImport.

#[local] Open Scope string_scope.
#[local] Open Scope Z_scope.

Module ImportLoad.
Import Data Base64.
Module S := Store.Store.

(** ** [hex.DecodeString] *)

Fixpoint hex_decode (s : string) : option string :=
  match s with
  | EmptyString => Some ""
  | String a (String b s) =>
      x ← GoJson.hex_value a; y ← GoJson.hex_value b; r ← hex_decode s; Some (String (chr (x * 16 + y)) r)
  | _ => None
  end.

(** A text that [ensureJWTSecret] decodes, and encodes to itself. *)
Definition adoptable (s : string) : bool :=
  match hex_decode s with
  | Some raw => negb (String.eqb raw "") && String.eqb (Hex raw) s
  | None => false
  end.

(** ** Tables *)

Record AdminCols := mkAdminCols {
  ac_Hashed : string; ac_CreatedAt : Z; ac_IsSudo : bool; ac_IsOwner : bool; ac_ResetAt : option Z; ac_TelegramID : option Z;
  ac_Discord : option string
}.

(** [sub_cols]: [sub_updated_at] and [sub_last_user_agent]; a host with its priority; a
    template with its inbounds. *)
Record Extra := mkExtra {
  jwt_secret : string; admin_cols : gmap Z AdminCols; sub_cols : gmap Z (option Z * option string); hosts : list (Host * Z);
  templates : gmap Z UserTemplate; maintenance : bool
}.

Inductive problem :=
  | FromSource (w : warning)
  | KeyRefused
  | KeyNotAdopted (e : S.dberror)
  | KeyAdopted
  | AdminFailed (name : string) (e : S.dberror)
  | InboundFailed (tag : string) (e : S.dberror)
  | UserFailed (name : string) (e : S.dberror)
  | ProxyInvalid (name type : string)
  | ProxyFailed (name type : string) (e : S.dberror)
  | ExclusionsFailed (name : string) (e : S.dberror)
  | SequenceFailed (e : S.dberror)
  | HostFailed (remark : string) (e : S.dberror)
  | TemplateFailed (name : string) (e : S.dberror)
  | TemplateInboundsFailed (name : string) (e : S.dberror)
  | PlanWithoutUser (user : Z)
  | PlanFailed (user : Z) (e : S.dberror)
  | NotFlushed.

Record Load := mkLoad { l_db : S.Db; l_extra : Extra; l_faults : list bool; l_warned : list problem }.

Definition warn {E} (p : problem) : eff Load E unit :=
  fun s => (mkLoad (l_db s) (l_extra s) (l_faults s) (l_warned s ++ [p]), Ok tt).

(** The outcome as a value. *)
Definition attempt {E E' A} (m : eff Load E A) : eff Load E' (result E A) := fun s => let '(s, r) := m s in (s, Ok r).

(** A call that can fail before it does anything. *)
Definition call {A} (q : S.Db -> Extra -> result S.dberror (S.Db * Extra * A)) : eff Load S.dberror A := fun s =>
  match l_faults s with
  | true :: fs => (mkLoad (l_db s) (l_extra s) fs (l_warned s), Err S.Unavailable)
  | fs =>
      match q (l_db s) (l_extra s) with
      | Ok (d, x, a) => (mkLoad d x (tail fs) (l_warned s), Ok a)
      | Err e => (mkLoad (l_db s) (l_extra s) (tail fs) (l_warned s), Err e)
      end
  end.

(** A statement of [Store]. *)
Definition stmt {A} (q : S.Db -> result S.dberror (S.Db * A)) : eff Load S.dberror A :=
  call (fun d x => match q d with Ok (d, a) => Ok (d, x, a) | Err e => Err e end).

Definition set_jwt k x := mkExtra k (admin_cols x) (sub_cols x) (hosts x) (templates x) (maintenance x).
Definition set_admin_cols m x := mkExtra (jwt_secret x) m (sub_cols x) (hosts x) (templates x) (maintenance x).
Definition set_sub_cols m x := mkExtra (jwt_secret x) (admin_cols x) m (hosts x) (templates x) (maintenance x).
Definition set_hosts l x := mkExtra (jwt_secret x) (admin_cols x) (sub_cols x) l (templates x) (maintenance x).
Definition set_templates m x := mkExtra (jwt_secret x) (admin_cols x) (sub_cols x) (hosts x) m (maintenance x).
Definition set_maintenance b x := mkExtra (jwt_secret x) (admin_cols x) (sub_cols x) (hosts x) (templates x) b.
Definition set_inbounds l (d : S.Db) := S.mkDb (S.users d) (S.next_plans d) (S.proxies d) (S.exclude_inbounds d)
  (S.user_usage_logs d) (S.node_user_usages d) (S.node_usages d) (S.nodes d) (S.system d) (S.admins d) (S.usage_queue d) l (S.next_id d).

(** ** Statements *)

Definition at_most (n : nat) (s : string) : bool := (char_count s <=? n)%nat.
Definition opt_at_most (n : nat) (s : option string) : bool := match s with Some s => at_most n s | None => true end.
Definition micro (t : Z) : Z := t / 1000.

Definition SetMaintenanceMode (on : bool) : eff Load S.dberror unit := call (fun d x => Ok (d, set_maintenance on x, tt)).
(** [pg_dump], and [FLUSHALL] of the cache: nothing the model keeps changes. *)
Definition createBackupNow : eff Load S.dberror unit := call (fun d x => Ok (d, x, tt)).
Definition FlushAll : eff Load S.dberror unit := call (fun d x => Ok (d, x, tt)).

(** TRUNCATE ... CASCADE empties every table with a foreign key to a truncated one: usage
    by user and the reseller queue go with the users and admins. *)
Definition truncated (inbounds : list (string * string)) (d : S.Db) : S.Db :=
  S.mkDb ∅ ∅ ∅ ∅ [] ∅ (S.node_usages d) (S.nodes d) (S.system d) ∅ ∅ inbounds 1.

Definition TruncateForLegacyImport : eff Load S.dberror unit :=
  call (fun d x => Ok (truncated [] d, set_templates ∅ (set_hosts [] (set_sub_cols ∅ (set_admin_cols ∅ x))), tt)).

Definition TruncateUsersForLegacyImport : eff Load S.dberror unit :=
  call (fun d x => Ok (truncated (S.inbounds d) d, set_sub_cols ∅ (set_admin_cols ∅ x), tt)).

Definition ReplaceJWTSecret (k : string) : eff Load S.dberror unit := call (fun d x => Ok (d, set_jwt k x, tt)).

Definition admin_named (name : string) (d : S.Db) : bool :=
  existsb (fun a => String.eqb (S.a_Username a) name) (map snd (map_to_list (S.admins d))).

Definition ImportAdmin (a : Admin) : eff Load S.dberror Z := call (fun d x =>
  if negb (at_most 34 (a_Username a) && at_most 128 (a_HashedPassword a) && opt_at_most 1024 (a_DiscordWebhook a)) then Err S.OutOfRange
  else if admin_named (a_Username a) d then Err S.UniqueViolation
  else let id := S.next_id d in
       Ok (S.set_next_id (id + 1) (S.set_admins (<[id := S.mkAdmin id (a_Username a) (a_UsersUsage a)]> (S.admins d)) (S.usage_queue d) d),
           set_admin_cols (<[id := mkAdminCols (a_HashedPassword a) (micro (a_CreatedAt a)) (a_IsSudo a) (a_IsOwner a)
                                     (micro <$> a_PasswordResetAt a) (a_TelegramID a) (a_DiscordWebhook a)]> (admin_cols x)) x, id)).

(** [UpsertInbound] with the placeholder's columns. *)
Definition UpsertInbound (tag : string) : eff Load S.dberror unit := call (fun d x =>
  if negb (at_most 256 tag) then Err S.OutOfRange
  else Ok (set_inbounds (if str_mem tag (map fst (S.inbounds d))
                         then map (fun i => if String.eqb i.1 tag then (tag, "vless") else i) (S.inbounds d)
                         else (S.inbounds d ++ [(tag, "vless")])%list) d, x, tt)).

(** The row of a user, with the owner's new id. *)
Definition user_row (id : Z) (owner : option Z) (u : User) : S.User :=
  S.mkUser id (Username u)
    (S.mkCore (Status u) (DataLimit u) (DataLimitResetStrategy u) (Expire u) (Note u) (OnHoldExpireDuration u)
       (micro <$> OnHoldTimeout u) (AutoDeleteInDays u))
    (UsedTraffic u) owner None (micro (CreatedAt u)) (micro <$> EditAt u) (micro <$> OnlineAt u) (micro <$> SubRevokedAt u)
    (micro <$> LastStatusChange u).

Definition user_fits (u : User) : bool :=
  S.core_ok (S.core (user_row 0 None u)) && at_most 34 (Username u) && opt_at_most 512 (SubLastUserAgent u).

Definition username_taken (name : string) (d : S.Db) : bool := match S.find_user name d with Some _ => true | None => false end.

Definition insert_user (id : Z) (owner : option Z) (u : User) (d : S.Db) (x : Extra) : S.Db * Extra * Z :=
  (S.set_users (<[id := user_row id owner u]> (S.users d)) d,
   set_sub_cols (<[id := (micro <$> SubUpdatedAt u, SubLastUserAgent u)]> (sub_cols x)) x, id).

Definition ImportUser (owner : option Z) (u : User) : eff Load S.dberror Z := call (fun d x =>
  if negb (user_fits u) then Err S.CheckViolation
  else if username_taken (Username u) d then Err S.UniqueViolation
  else let '(d', x, id) := insert_user (S.next_id d) owner u d x in Ok (S.set_next_id (id + 1) d', x, id)).

Definition ImportUserWithID (id : Z) (owner : option Z) (u : User) : eff Load S.dberror Z := call (fun d x =>
  if negb (user_fits u) then Err S.CheckViolation
  else if bool_decide (is_Some (S.users d !! id)) || username_taken (Username u) d then Err S.UniqueViolation
  else Ok (insert_user id owner u d x)).

(** [next_id] stands for every sequence, so it only moves up. *)
Definition SyncUsersIDSequence : eff Load S.dberror unit := call (fun d x =>
  Ok (S.set_next_id (foldr Z.max (S.next_id d) (map (fun kv => kv.1 + 1) (map_to_list (S.users d)))) d, x, tt)).

Definition host_fits (h : Host) : bool :=
  at_most 256 (h_Remark h) && at_most 256 (h_Address h) && opt_at_most 256 (h_Path h) && opt_at_most 1000 (h_SNI h) &&
  opt_at_most 1000 (h_HostHeader h) && opt_at_most 100 (h_FragmentSetting h) && opt_at_most 2000 (h_NoiseSetting h) &&
  str_mem (h_Security h) ["inbound_default"; "none"; "tls"] &&
  str_mem (h_ALPN h) ["none"; "h3"; "h2"; "http/1.1"; "h3,h2,http/1.1"; "h3,h2"; "h2,http/1.1"] &&
  str_mem (h_Fingerprint h) ["none"; "chrome"; "firefox"; "safari"; "ios"; "android"; "edge"; "360"; "qq"; "random"; "randomized"].

Definition CreateHost (h : Host) (priority : Z) : eff Load S.dberror unit := call (fun d x =>
  if negb (host_fits h) then Err S.CheckViolation
  else if negb (str_mem (h_InboundTag h) (map fst (S.inbounds d))) then Err S.ForeignKey
  else Ok (d, set_hosts (hosts x ++ [(h, priority)])%list x, tt)).

Definition without_tags (t : UserTemplate) : UserTemplate :=
  mkTemplate (t_Name t) (t_DataLimit t) (t_ExpireDuration t) (t_UsernamePrefix t) (t_UsernameSuffix t) [].

(** The sequence of [user_templates] is only restarted with its table. *)
Definition next_template (x : Extra) : Z := foldr Z.max 0 (map fst (map_to_list (templates x))) + 1.

Definition CreateUserTemplate (t : UserTemplate) : eff Load S.dberror Z := call (fun d x =>
  if negb (at_most 64 (t_Name t) && opt_at_most 20 (t_UsernamePrefix t) && opt_at_most 20 (t_UsernameSuffix t)) then Err S.OutOfRange
  else if existsb (fun u => String.eqb (t_Name u) (t_Name t)) (map snd (map_to_list (templates x))) then Err S.UniqueViolation
  else let id := next_template x in Ok (d, set_templates (<[id := without_tags t]> (templates x)) x, id)).

Definition ReplaceTemplateInbounds (id : Z) (tags : list string) : eff Load S.dberror unit := call (fun d x =>
  match templates x !! id with
  | None => Err S.ForeignKey
  | Some t =>
      if negb (forallb (fun g => str_mem g (map fst (S.inbounds d))) tags) then Err S.ForeignKey
      else if bool_decide (NoDup (t_InboundTags t ++ tags)%list) then
        Ok (d, set_templates (<[id := mkTemplate (t_Name t) (t_DataLimit t) (t_ExpireDuration t) (t_UsernamePrefix t)
                                        (t_UsernameSuffix t) (t_InboundTags t ++ tags)%list]> (templates x)) x, tt)
      else Err S.UniqueViolation
  end).

(** ** [loadLegacyImport] *)

(** The text of a settings column as [ProxySettings] looks at it. *)
Definition shallow (j : json) : ProxySettings.json :=
  match j with JNull => ProxySettings.JNull | JString s => ProxySettings.JString s | _ => ProxySettings.JOther end.

Definition payload_of (text : string) : ProxySettings.payload :=
  if String.eqb (TrimSpace text) "" then ProxySettings.NoPayload
  else if String.eqb (TrimSpace text) "[]" then ProxySettings.Brackets
  else match GoJson.parse text with
       | Some JNull => ProxySettings.PNull
       | Some (JObject ms) => ProxySettings.PObject (map (fun kv => (kv.1, shallow kv.2)) ms)
       | _ => ProxySettings.POther
       end.

Fixpoint fold_m {E A B} (f : B -> A -> eff Load E B) (b : B) (l : list A) : eff Load E B :=
  match l with
  | [] => mret b
  | x :: l => b ← f b x; fold_m f b l
  end.

Inductive load_error := NoMaintenance (e : S.dberror) | NoBackup (e : S.dberror) | NotTruncated (e : S.dberror).

Definition adopt_secret {E} (secret : string) : eff Load E unit :=
  if String.eqb secret "" then mret tt
  else if negb (adoptable secret) then warn KeyRefused
  else r ← attempt (ReplaceJWTSecret secret);
       match r with Err e => warn (KeyNotAdopted e) | Ok _ => warn KeyAdopted end.

Definition import_admin {E} (ids : gmap Z Z) (a : Admin) : eff Load E (gmap Z Z) :=
  r ← attempt (ImportAdmin a);
  match r with
  | Ok id => mret (<[a_SourceID a := id]> ids)
  | Err e => _ ← warn (AdminFailed (a_Username a) e); mret ids
  end.

Definition import_inbound {E} (n : nat) (tag : string) : eff Load E nat :=
  r ← attempt (UpsertInbound tag);
  match r with
  | Ok _ => mret (S n)
  | Err e => _ ← warn (InboundFailed tag e); mret n
  end.

Section load.
Context `{ProxySettings.Random}.

(** A blank column is refused as JSON. [n] identifiers were drawn before; the ones drawn
    for a stored secret that is missing are drawn again whenever the row is read. *)
Definition import_proxy {E} (name : string) (id : Z) (n : nat) (p : Proxy) : eff Load E nat :=
  match ProxySettings.FromStored (p_Type p) (payload_of (p_Settings p)) n with
  | Err _ => _ ← warn (ProxyInvalid name (p_Type p)); mret n
  | Ok (settings, n) =>
      r ← attempt (if String.eqb (TrimSpace (p_Settings p)) "" then throw S.CheckViolation
                   else stmt (S.CreateProxy id (p_Type p) settings));
      match r with
      | Err e => _ ← warn (ProxyFailed name (p_Type p) e); mret n
      | Ok created =>
          match p_ExcludedInbounds p with
          | [] => mret n
          | tags =>
              r ← attempt (stmt (S.ReplaceExcludedInbounds (S.p_ID created) tags));
              match r with Err e => _ ← warn (ExclusionsFailed name e); mret n | Ok _ => mret n end
          end
      end
  end.

Definition new_owner (ids : gmap Z Z) (u : User) : option Z := a ← SourceAdminID u; ids !! a.

Definition import_user {E} (keep : bool) (admins : gmap Z Z) (acc : gmap Z Z * nat) (u : User) : eff Load E (gmap Z Z * nat) :=
  let '(ids, n) := acc in
  r ← attempt (if keep then ImportUserWithID (int32 (SourceID u)) (new_owner admins u) u else ImportUser (new_owner admins u) u);
  match r with
  | Err e => _ ← warn (UserFailed (Username u) e); mret (ids, n)
  | Ok id => n ← fold_m (import_proxy (Username u) id) n (Proxies u); mret (<[SourceID u := id]> ids, n)
  end.

Definition import_host {E} (acc : nat * nat) (h : Host) : eff Load E (nat * nat) :=
  let '(i, n) := acc in
  r ← attempt (CreateHost h (Z.of_nat i));
  match r with
  | Ok _ => mret (S i, S n)
  | Err e => _ ← warn (HostFailed (h_Remark h) e); mret (S i, n)
  end.

Definition import_template {E} (t : UserTemplate) : eff Load E unit :=
  r ← attempt (CreateUserTemplate t);
  match r with
  | Err e => warn (TemplateFailed (t_Name t) e)
  | Ok id =>
      match t_InboundTags t with
      | [] => mret tt
      | tags =>
          r ← attempt (ReplaceTemplateInbounds id tags);
          match r with Err e => warn (TemplateInboundsFailed (t_Name t) e) | Ok _ => mret tt end
      end
  end.

Definition import_plan {E} (ids : gmap Z Z) (p : NextPlan) : eff Load E unit :=
  match ids !! n_SourceUserID p with
  | None => warn (PlanWithoutUser (n_SourceUserID p))
  | Some id =>
      r ← attempt (stmt (S.UpsertNextPlan id (S.mkPlan (n_DataLimit p) (n_Expire p) (n_AddRemainingTraffic p) (n_FireOnEither p))));
      match r with Err e => warn (PlanFailed id e) | Ok _ => mret tt end
  end.

(** How many rows of each kind were imported. *)
Record legacyImportResult := mkResult { AdminsImported : nat; UsersImported : nat; HostsImported : nat; InboundsImported : nat }.

(** The rows, once the old ones are gone. *)
Definition load_rows (data : ImportedData) (n : nat) : eff Load load_error legacyImportResult :=
  _ ← adopt_secret (SubscriptionSecret data);
  admins ← fold_m import_admin ∅ (Admins data);
  inbounds ← fold_m import_inbound 0%nat (Inbounds data);
  users ← fold_m (import_user (KeepUserIDs data) admins) (∅, n) (Users data);
  r ← (if KeepUserIDs data then attempt SyncUsersIDSequence else mret (Ok tt));
  _ ← match r with Err e => warn (SequenceFailed e) | Ok _ => mret tt end;
  hosts ← fold_m import_host (0%nat, 0%nat) (Hosts data);
  _ ← fold_m (fun _ => import_template) tt (UserTemplates data);
  _ ← fold_m (fun _ => import_plan users.1) tt (NextPlans data);
  r ← attempt FlushAll;
  _ ← match r with Err _ => warn NotFlushed | Ok _ => mret tt end;
  mret (mkResult (size admins) (size users.1) hosts.2 inbounds).

Definition body (data : ImportedData) (n : nat) : eff Load load_error legacyImportResult :=
  _ ← catch createBackupNow NoBackup;
  _ ← catch (if UsersOnly data then TruncateUsersForLegacyImport else TruncateForLegacyImport) NotTruncated;
  _ ← fold_m (fun _ w => warn (FromSource w)) tt (Warnings data);
  load_rows data n.

(** [defer SetMaintenanceMode(false)] *)
Definition then_resume {E A} (m : eff Load E A) : eff Load E A :=
  fun s => let '(s, r) := m s in ((SetMaintenanceMode false s).1, r).

Definition loadLegacyImport (data : ImportedData) (n : nat) : eff Load load_error legacyImportResult :=
  _ ← catch (SetMaintenanceMode true) NoMaintenance;
  then_resume (body data n).
End load.
End ImportLoad.
