(* ===== verification/ImportProps.v ===== *)
(** * ImportProps: what an import brings over

    A PasarGuard user whose row stands alone with its id and name arrives with that id, and
    the link it was given opens it ([pasarguard_links_survive]); its proxies authenticate
    with the secrets the dump had ([pasarguard_credentials_survive]). *)

From S2P Require Import Prelude GoStrings GoTime Base64 GoJson ProxySettings LoadMap Dump Effect Store Subscription LegacyImport PasarGuard ImportLoad.

#[local] Open Scope string_scope.
#[local] Open Scope Z_scope.

Module LoadProps.
Import Data ImportLoad.

(** ** What a load keeps when no call fails *)

Definition inv (Q : S.Db -> Extra -> Prop) (s : Load) : Prop := Q (l_db s) (l_extra s) /\ l_faults s = [].

Definition keeps {E A} (Q : S.Db -> Extra -> Prop) (m : eff Load E A) : Prop := triple (inv Q) m (fun _ => inv Q) (inv Q).

Lemma triple_a_call {A} Q Q' (q : S.Db -> Extra -> result S.dberror (S.Db * Extra * A)) :
  (forall d x d' x' a, Q d x -> q d x = Ok (d', x', a) -> Q' a d' x') -> triple (inv Q) (call q) (fun a => inv (Q' a)) (inv Q).
Proof.
  intros H s [HQ Hf]. unfold call. rewrite Hf. destruct (q (l_db s) (l_extra s)) as [[[d x] a]|e] eqn:Hq.
  - split; [by eapply H|done].
  - by split.
Qed.

Lemma keeps_call {A} Q (q : S.Db -> Extra -> result S.dberror (S.Db * Extra * A)) :
  (forall d x d' x' a, Q d x -> q d x = Ok (d', x', a) -> Q d' x') -> keeps Q (call q).
Proof. intros H. apply triple_a_call. intros. by eapply H. Qed.

Lemma keeps_throw {E A} Q (e : E) : keeps (A := A) Q (throw e).
Proof. by apply triple_throw. Qed.

(** The steps of the import itself never fail. *)
Definition runs {E A} (Q : S.Db -> Extra -> Prop) (m : eff Load E A) : Prop := triple (inv Q) m (fun _ => inv Q) (fun _ => False).

Lemma runs_ret {E A} Q (a : A) : runs (E := E) Q (mret a).
Proof. by apply triple_ret. Qed.

Lemma runs_bind {E A B} Q (m : eff Load E A) (f : A -> eff Load E B) : runs Q m -> (forall a, runs Q (f a)) -> runs Q (m ≫= f).
Proof. intros Hm Hf. by eapply triple_bind. Qed.

Lemma runs_warn {E} Q p : runs (E := E) Q (warn p).
Proof. by intros s Hs. Qed.

Lemma triple_attempt {E E' A} P (m : eff Load E A) (Q : A -> Load -> Prop) R R' :
  triple P m Q R -> triple (E := E') P (attempt m) (fun r => match r with Ok a => Q a | Err _ => R end) R'.
Proof. intros H s Hs. specialize (H s Hs). unfold attempt. by destruct (m s) as [s' []]. Qed.

Lemma runs_attempt {E E' A} Q (m : eff Load E A) : keeps Q m -> runs (E := E') Q (attempt m).
Proof. intros H s Hs. specialize (H s Hs). unfold attempt. by destruct (m s) as [s' []]. Qed.

Lemma runs_fold {E A B} Q (f : B -> A -> eff Load E B) l : (forall b x, In x l -> runs Q (f b x)) -> forall b, runs Q (fold_m f b l).
Proof.
  induction l as [|x l IH]; intros H b; [apply runs_ret|]. apply runs_bind; [apply H; by left|].
  intros b'. apply IH. intros ? ? ?. apply H. by right.
Qed.

Lemma triple_fact {E A} (F : Prop) P (m : eff Load E A) Q R : (F -> triple P m Q R) -> triple (fun s => F /\ P s) m Q R.
Proof. intros H s [HF Hs]. by apply H. Qed.

(** One step of a fold among others. *)
Lemma triple_fold_at {E A B} P Q R (f : B -> A -> eff Load E B) pre x post b :
  (forall b y, In y pre -> triple P (f b y) (fun _ => P) R) -> (forall b, triple P (f b x) (fun _ => Q) R) ->
  (forall b y, In y post -> triple Q (f b y) (fun _ => Q) R) -> triple P (fold_m f b (pre ++ x :: post)) (fun _ => Q) R.
Proof.
  intros Hpre Hx Hpost. revert b. induction pre as [|y pre IH]; intros b.
  - apply triple_bind with (Q := fun _ => Q); [apply Hx|]. clear b. induction post as [|y post IH]; intros b; [by apply triple_ret|].
    apply triple_bind with (Q := fun _ => Q); [apply Hpost; by left|]. apply IH. intros. apply Hpost. by right.
  - apply triple_bind with (Q := fun _ => P); [apply Hpre; by left|]. apply IH. intros. apply Hpre. by right.
Qed.

Create HintDb load.
#[export] Hint Resolve runs_ret runs_warn keeps_throw : load.

(** ** One user's rows *)

Section user.
Context `{ProxySettings.Random} (key : string) (id0 : Z) (name0 : string).

(** The signing key is [key]; the row of the user [id0] is [row], and no user has its name
    before that; its proxies hold [X]; the next id is past every proxy. *)
Record rows_are (row : option S.User) (X : list (string * ProxySettings.Settings)) (d : S.Db) (x : Extra) : Prop := {
  ra_key : jwt_secret x = key;
  ra_row : S.users d !! id0 = row;
  ra_name : row = None -> forall i u, S.users d !! i = Some u -> S.Username u <> name0;
  ra_next : forall k q, S.proxies d !! k = Some q -> k < S.next_id d;
  ra_proxies : forall t st, (exists k q, S.proxies d !! k = Some q /\ S.p_UserID q = id0 /\ S.p_Type q = t /\ S.p_Settings q = st) <-> In (t, st) X
}.

Lemma rows_same row X d x d' x' : rows_are row X d x -> jwt_secret x' = jwt_secret x -> S.users d' = S.users d ->
  S.proxies d' = S.proxies d -> S.next_id d <= S.next_id d' -> rows_are row X d' x'.
Proof.
  intros [Hk Hr Hn Hx Hp] Ek Eu Ep En. constructor; rewrite ?Ek, ?Eu, ?Ep; try done.
  intros k q Hq. specialize (Hx _ _ Hq). lia.
Qed.

Ltac keeps_same := apply keeps_call; intros ? ? ? ? ? HQ Hq; repeat case_match; try done;
  injection Hq as <- <- _; eapply rows_same; [exact HQ|try done..]; cbn; lia.

Context (row : option S.User) (X : list (string * ProxySettings.Settings)).
Abbreviation Q := (rows_are row X).

Lemma admin_keeps a : keeps Q (ImportAdmin a). Proof. keeps_same. Qed.
Lemma inbound_keeps tag : keeps Q (UpsertInbound tag). Proof. keeps_same. Qed.
Lemma host_keeps h p : keeps Q (CreateHost h p). Proof. keeps_same. Qed.
Lemma template_keeps t : keeps Q (CreateUserTemplate t). Proof. keeps_same. Qed.
Lemma tags_keeps i t : keeps Q (ReplaceTemplateInbounds i t). Proof. keeps_same. Qed.
Lemma flush_keeps : keeps Q FlushAll. Proof. keeps_same. Qed.
Lemma maintenance_keeps b : keeps Q (SetMaintenanceMode b). Proof. keeps_same. Qed.
Lemma plan_keeps i p : keeps Q (stmt (S.UpsertNextPlan i p)).
Proof. apply keeps_call. intros d x d' x' a HQ Hq. unfold S.UpsertNextPlan in Hq. repeat case_match; try done. simplify_eq. by eapply rows_same. Qed.
Lemma excluded_keeps i ts : keeps Q (stmt (S.ReplaceExcludedInbounds i ts)).
Proof. apply keeps_call. intros d x d' x' a HQ Hq. unfold S.ReplaceExcludedInbounds in Hq. repeat case_match; try done; simplify_eq; by eapply rows_same. Qed.

Lemma sequence_keeps : keeps Q SyncUsersIDSequence.
Proof.
  apply keeps_call. intros d x d' x' a HQ [= <- <- _]. eapply rows_same; [exact HQ|done..|]. cbn.
  induction (map _ (map_to_list (S.users d))) as [|z l IH]; cbn; lia.
Qed.

#[local] Hint Resolve admin_keeps inbound_keeps host_keeps template_keeps tags_keeps flush_keeps plan_keeps sequence_keeps excluded_keeps : load.

Ltac runs_all := repeat first [ apply runs_bind; [|intros ?] | apply runs_attempt | apply runs_fold; intros ? ? _ | case_match | progress eauto with load ].

Lemma import_admin_runs {E} ids a : runs Q (import_admin (E := E) ids a). Proof. unfold import_admin. runs_all. Qed.
Lemma import_inbound_runs {E} n t : runs Q (import_inbound (E := E) n t). Proof. unfold import_inbound. runs_all. Qed.
Lemma import_host_runs {E} acc h : runs Q (import_host (E := E) acc h). Proof. unfold import_host. runs_all. Qed.
Lemma import_template_runs {E} t : runs Q (import_template (E := E) t). Proof. unfold import_template. runs_all. Qed.
Lemma import_plan_runs {E} ids p : runs Q (import_plan (E := E) ids p). Proof. unfold import_plan. runs_all. Qed.

(** A proxy of another user. *)
Lemma other_proxy_keeps i t st : i <> id0 -> keeps Q (stmt (S.CreateProxy i t st)).
Proof.
  intros Hi. apply keeps_call. intros d x d' x' a [Hk Hr Hn Hx Hp] Hq. unfold S.CreateProxy in Hq. repeat case_match; try done.
  simplify_eq. constructor; try done; cbn.
  - intros k q. rewrite lookup_insert_Some. intros [[<- <-]|[Hne Hq]]; [lia|]. specialize (Hx _ _ Hq). lia.
  - intros t' st'. rewrite <- Hp. split.
    + intros (k & q & Hq & Hid & ? & ?). apply lookup_insert_Some in Hq as [[<- <-]|[Hne Hq]]; [by cbn in Hid|]. eauto 10.
    + intros (k & q & Hq & Hid & ? & ?). exists k, q. rewrite lookup_insert_ne; [done|]. specialize (Hx _ _ Hq). lia.
Qed.

Lemma import_proxy_runs {E} name i n p : i <> id0 -> runs Q (import_proxy (E := E) name i n p).
Proof. intros Hi. pose proof (other_proxy_keeps i). unfold import_proxy. runs_all. Qed.

(** Another user. *)
Lemma other_user_keeps i owner u : i <> id0 -> Username u <> name0 ->
  triple (inv Q) (ImportUserWithID i owner u) (fun a s => a = i /\ inv Q s) (inv Q).
Proof.
  intros Hi Hu. eapply triple_conseq with (Q' := fun a => inv (fun d x => Q d x /\ a = i)); [|done|intros a s [[HQ ?] Hf]; do 2 (split; [done|]); done|done].
  apply triple_a_call. intros d x d' x' a [Hk Hr Hn Hx Hp] Hq. repeat case_match; try done.
  injection Hq as <- <- <-. split; [|done]. constructor; try done; cbn.
  - by rewrite lookup_insert_ne.
  - intros Hrow j v [[<- <-]|[Hne Hv]]%lookup_insert_Some; [done|by eapply Hn].
Qed.

Lemma other_import_runs {E} admins acc u : int32 (SourceID u) <> id0 -> Username u <> name0 ->
  runs Q (import_user (E := E) true admins acc u).
Proof.
  intros Hi Hu. unfold import_user. destruct acc as [ids n]. eapply triple_bind.
  { apply triple_attempt, other_user_keeps; done. }
  intros [a|e]; [|apply runs_bind; eauto with load].
  apply triple_fact. intros ->.
  apply runs_bind; [|intros; apply runs_ret]. apply runs_fold. intros. by apply import_proxy_runs.
Qed.
End user.

(** ** The user itself *)

Section arrival.
Context `{ProxySettings.Random} (key : string) (id0 : Z) (name0 : string).
Abbreviation rows_are := (rows_are key id0 name0).

(** What is stored of a proxy, and the supply after it. *)
Definition arrived (n : nat) (p : Proxy) : list (string * ProxySettings.Settings) * nat :=
  match ProxySettings.FromStored (p_Type p) (payload_of (p_Settings p)) n with
  | Ok (st, n) => (if String.eqb (TrimSpace (p_Settings p)) "" then [] else [(p_Type p, st)], n)
  | Err _ => ([], n)
  end.

Fixpoint arrived_all (n : nat) (ps : list Proxy) : list (string * ProxySettings.Settings) :=
  match ps with
  | [] => []
  | p :: ps => ((arrived n p).1 ++ arrived_all (arrived n p).2 ps)%list
  end.

Lemma own_proxy u X t st : triple (inv (rows_are (Some u) X)) (stmt (S.CreateProxy id0 t st))
  (fun _ => inv (rows_are (Some u) (X ++ [(t, st)]))) (fun _ => False).
Proof.
  intros s [[Hk Hr Hn Hx Hp] Hf]. unfold stmt, call. rewrite Hf. unfold S.CreateProxy. rewrite Hr. split; [|done]. constructor; try done; cbn.
  - intros k q. rewrite lookup_insert_Some. intros [[<- <-]|[Hne Hq]]; [lia|]. specialize (Hx _ _ Hq). lia.
  - intros t' st'. rewrite in_app_iff, <- Hp. split.
    + intros (k & q & Hq & Hid & ? & ?). apply lookup_insert_Some in Hq as [[<- <-]|[Hne Hq]].
      * right. left. cbn in *. congruence.
      * left. eauto 10.
    + intros [(k & q & Hq & Hid & ? & ?)|[[= <- <-]|[]]].
      * exists k, q. rewrite lookup_insert_ne; [done|]. specialize (Hx _ _ Hq). lia.
      * eexists _, _. by rewrite lookup_insert_eq.
Qed.

Lemma own_import_proxy {E} u X name n p : triple (inv (rows_are (Some u) X)) (import_proxy (E := E) name id0 n p)
  (fun n' s => inv (rows_are (Some u) (X ++ (arrived n p).1)) s /\ n' = (arrived n p).2) (fun _ => False).
Proof.
  unfold import_proxy, arrived. destruct (ProxySettings.FromStored _ _ n) as [[st n']|e].
  2: { intros s Hs. cbn. by rewrite app_nil_r. }
  destruct (String.eqb (TrimSpace (p_Settings p)) ""); cbn [fst snd].
  { intros s Hs. cbn. by rewrite app_nil_r. }
  eapply triple_bind; [apply triple_attempt, own_proxy|]. intros [q|e]; [|by intros s []].
  destruct (p_ExcludedInbounds p) as [|t ts]; [by apply triple_ret|].
  eapply triple_bind; [apply triple_attempt; exact (excluded_keeps key id0 name0 _ _ _ _)|].
  intros [?|?]; [by apply triple_ret|].
  eapply triple_bind; [apply runs_warn|]. intros. by apply triple_ret.
Qed.

Lemma own_proxies {E} u name ps : forall X n, triple (inv (rows_are (Some u) X)) (fold_m (import_proxy (E := E) name id0) n ps)
  (fun _ => inv (rows_are (Some u) (X ++ arrived_all n ps))) (fun _ => False).
Proof.
  induction ps as [|p ps IH]; intros X n; cbn [fold_m arrived_all].
  { apply triple_ret. intros s. by rewrite app_nil_r. }
  eapply triple_bind; [apply own_import_proxy|]. intros n' s [Hs ->]. specialize (IH _ (arrived n p).2 s Hs).
  by rewrite <- app_assoc in IH.
Qed.

Lemma own_import {E} admins acc u : int32 (SourceID u) = id0 -> Username u = name0 -> user_fits u = true ->
  triple (inv (rows_are None [])) (import_user (E := E) true admins acc u)
    (fun _ => inv (fun d x => exists owner, rows_are (Some (user_row id0 owner u)) (arrived_all acc.2 (Proxies u)) d x)) (fun _ => False).
Proof.
  intros Hi Hu Hfit. unfold import_user. destruct acc as [ids n]. rewrite Hi. set (owner := new_owner admins u).
  eapply triple_bind with (Q := fun r s => r = Ok id0 /\ inv (rows_are (Some (user_row id0 owner u)) []) s).
  { intros s [[Hk Hr Hn Hx Hp] Hf]. unfold attempt, ImportUserWithID, call. rewrite Hf, Hfit, Hr. cbn [negb].
    assert (username_taken (Username u) (l_db s) = false) as ->.
    { unfold username_taken. destruct (S.find_user _ _) as [v|] eqn:Hv; [|done]. exfalso.
      unfold S.find_user in Hv. apply find_some in Hv as [Hin Hv%String.eqb_eq]. apply in_map_iff in Hin as ([j v'] & <- & Hin).
      apply list_elem_of_In, elem_of_map_to_list in Hin. apply (Hn eq_refl _ _ Hin). cbn in Hv. congruence. }
    rewrite bool_decide_false by (by intros [? ?]). cbn [orb]. split; [done|]. split; [|done].
    constructor; try done; cbn. by rewrite lookup_insert_eq. }
  intros r. apply triple_fact. intros ->.
  eapply triple_bind; [apply own_proxies|]. intros n'. apply triple_ret. intros s [HQ Hf]. split; [|done]. by exists owner.
Qed.

(** The rows of an import that holds the user among others. *)
Definition arrives (u : User) (d : S.Db) (x : Extra) : Prop :=
  exists owner n, rows_are (Some (user_row id0 owner u)) (arrived_all n (Proxies u)) d x.

Lemma arrives_keeps {E A} u (m : eff Load E A) : (forall row X, keeps (rows_are row X) m) -> keeps (arrives u) m.
Proof.
  intros Hm s [(owner & n & HQ) Hf]. specialize (Hm _ _ s (conj HQ Hf)).
  destruct (m s) as [s' []]; destruct Hm; (split; [by eexists _, _|done]).
Qed.

Lemma arrives_runs {E A} u (m : eff Load E A) : (forall row X, runs (rows_are row X) m) -> runs (arrives u) m.
Proof.
  intros Hm s [(owner & n & HQ) Hf]. specialize (Hm _ _ s (conj HQ Hf)).
  destruct (m s) as [s' []]; destruct Hm. split; [by eexists _, _|done].
Qed.

Lemma adopt_arrives {E} k : adoptable key = true ->
  triple (inv (LoadProps.rows_are k id0 name0 None [])) (adopt_secret (E := E) key) (fun _ => inv (rows_are None [])) (fun _ => False).
Proof.
  intros Ha. unfold adopt_secret. rewrite Ha. assert (String.eqb key "" = false) as ->.
  { destruct (String.eqb_spec key "") as [->|]; [|done]. done. }
  cbn [negb]. eapply triple_bind with (Q := fun _ => inv (rows_are None [])).
  { intros s [[Hk Hr Hn Hx Hp] Hf]. unfold attempt, ReplaceJWTSecret, call. rewrite Hf. split; [|done]. by constructor. }
  intros [?|?]; apply runs_warn.
Qed.

Context (u : User) (pre post : list User).
Hypotheses (Hid : int32 (SourceID u) = id0) (Hname : Username u = name0) (Hfit : user_fits u = true)
  (Halone : forall v, In v (pre ++ post)%list -> int32 (SourceID v) <> id0 /\ Username v <> name0).

Lemma users_arrive {E} admins acc : triple (inv (rows_are None []))
  (fold_m (import_user (E := E) true admins) acc (pre ++ u :: post)) (fun _ => inv (arrives u)) (fun _ => False).
Proof.
  apply triple_fold_at.
  - intros b y Hy. destruct (Halone y) as [H1 H2]; [apply in_app_iff; by left|]. by apply other_import_runs.
  - intros b. eapply triple_conseq; [by apply own_import|done| |done].
    intros _ s [[owner HQ] Hf]. split; [|done]. by exists owner, b.2.
  - intros b y Hy. destruct (Halone y) as [H1 H2]; [apply in_app_iff; by right|].
    apply arrives_runs. intros. by apply other_import_runs.
Qed.

Context (data : ImportedData).
Hypotheses (Hkeep : KeepUserIDs data = true) (Honly : UsersOnly data = true) (Husers : Users data = (pre ++ u :: post)%list)
  (Hkey : SubscriptionSecret data = key) (Hadopt : adoptable key = true).

Lemma rows_arrive k n : triple (inv (LoadProps.rows_are k id0 name0 None [])) (load_rows data n) (fun _ => inv (arrives u)) (fun _ => False).
Proof.
  unfold load_rows. rewrite Hkey, Hkeep, Husers.
  eapply triple_bind; [by apply adopt_arrives|]. intros ?.
  eapply triple_bind; [apply runs_fold; intros; apply import_admin_runs|]. intros admins.
  eapply triple_bind; [apply runs_fold; intros; apply import_inbound_runs|]. intros inbounds.
  eapply triple_bind; [apply users_arrive|]. intros users.
  apply runs_bind; [apply runs_attempt, arrives_keeps; intros; apply sequence_keeps|]. intros r.
  apply runs_bind; [destruct r; eauto with load|]. intros ?.
  apply runs_bind; [apply runs_fold; intros; apply arrives_runs; intros; apply import_host_runs|]. intros hosts.
  apply runs_bind; [apply runs_fold; intros; apply arrives_runs; intros; apply import_template_runs|]. intros ?.
  apply runs_bind; [apply runs_fold; intros; apply arrives_runs; intros; apply import_plan_runs|]. intros ?.
  apply runs_bind; [apply runs_attempt, arrives_keeps; intros; apply flush_keeps|]. intros r'.
  apply runs_bind; [destruct r'; eauto with load|]. intros ?. apply runs_ret.
Qed.

Lemma load_arrives n s0 : l_faults s0 = [] ->
  exists s res, loadLegacyImport data n s0 = (s, Ok res) /\ arrives u (l_db s) (l_extra s) /\ maintenance (l_extra s) = false.
Proof.
  intros Hf0. unfold loadLegacyImport, SetMaintenanceMode, catch, call, mbind, eff_bind. rewrite Hf0. cbn [tail].
  set (s1 := mkLoad _ _ _ _). unfold then_resume.
  assert (triple (fun s => s = s1) (body data n) (fun _ => inv (arrives u)) (fun _ => False)) as Hb.
  { unfold body. rewrite Honly.
    eapply triple_bind with (Q := fun _ s => s = s1); [by intros ? ->|]. intros ?.
    eapply triple_bind with (Q := fun _ => inv (LoadProps.rows_are (jwt_secret (l_extra s0)) id0 name0 None [])).
    { intros ? ->. split; [|done]. constructor; try done. cbn. intros t st. split; [by intros (? & ? & ? & _)|done]. }
    intros ?. eapply triple_bind; [apply runs_fold; intros; apply runs_warn|]. intros ?. apply rows_arrive. }
  specialize (Hb s1 eq_refl). destruct (body data n s1) as [s2 [res|e]]; [|done]. destruct Hb as [Ha Hf2].
  eexists _, _. split; [done|]. unfold SetMaintenanceMode, call. rewrite Hf2. split; [|done].
  destruct Ha as (owner & m & HQ). exists owner, m. by eapply rows_same.
Qed.
End arrival.

(** A proxy that excludes a tag the source had no inbound for is warned about and keeps its
    exclusions in the data, but the database refuses them all, the known one too. *)
Definition demo_excluding : ImportedData :=
  mkData [] [mkUser 5 None "ali" "active" 0 None "no_reset" None 0 None None None None None None None None None None
               [mkProxy "trojan" (encode (JObject [("password", JString "pw")])) ["A"; "gone"]]]
    [] [] ["A"] [] "" false false [UnknownExclusion 1 "gone"].

Example unknown_exclusion_loses_all :
  let s := (loadLegacyImport (H := ProxySettings.tally_random) demo_excluding 0
              (mkLoad (S.mkDb ∅ ∅ ∅ ∅ [] ∅ ∅ ∅ (0, 0) ∅ ∅ [] 1) (mkExtra "" ∅ ∅ [] ∅ false) [] [])).1 in
  map (fun kv => kv.2) (map_to_list (S.exclude_inbounds (l_db s))) = [] /\ length (map_to_list (S.proxies (l_db s))) = 1%nat /\
  l_warned s = [FromSource (UnknownExclusion 1 "gone"); ExclusionsFailed "ali" S.ForeignKey].
Proof. vm_compute. repeat split. Qed.
End LoadProps.

Module PasarGuardProps.
Import Data PasarGuard Base64 ImportLoad.

(** ** The signing key *)

Definition hex_lower (c : ascii) : bool := is_digit c || between 97 102 c.

Lemma hex_lower_value c : hex_lower c = true -> exists x, GoJson.hex_value c = Some x /\ 0 <= x < 16 /\ Base64.hex_digit x = c.
Proof. destruct c as [[] [] [] [] [] [] [] []]; vm_compute; try done; intros _; eexists; (split; [reflexivity|]); (split; [split; done|done]). Qed.

Lemma hex_decode_lower k : forall s, String.length s = (2 * k)%nat -> str_forallb hex_lower s = true ->
  exists raw, hex_decode s = Some raw /\ Hex raw = s.
Proof.
  induction k as [|k IH]; intros s Hl Hs.
  - destruct s; [|done]. by exists "".
  - destruct s as [|a [|b s]]; [done|cbn in Hl; lia|]. cbn in Hs. apply andb_true_iff in Hs as [Ha Hs]. apply andb_true_iff in Hs as [Hb Hs].
    destruct (hex_lower_value a Ha) as (x & Hx & Hxb & Ea). destruct (hex_lower_value b Hb) as (y & Hy & Hyb & Eb).
    destruct (IH s) as (raw & Hraw & Er); [cbn in Hl; lia|done|].
    exists (String (chr (x * 16 + y)) raw). cbn [hex_decode]. rewrite Hx, Hy, Hraw. split; [done|].
    unfold Hex, bytes_of in *. cbn [String.list_ascii_of_string map flat_map app String.string_of_list_ascii].
    rewrite Er, chr_byte by lia.
    replace ((x * 16 + y) / 16) with x by (rewrite Z.div_add_l by lia; rewrite Z.div_small by lia; lia).
    replace ((x * 16 + y) mod 16) with y by (rewrite Z.add_comm, Z.mod_add by lia; by rewrite Z.mod_small).
    by rewrite Ea, Eb.
Qed.

Lemma lower_hex_adoptable s : lowerHexSecret s = true -> adoptable s = true /\ exists raw, hex_decode s = Some raw /\ Hex raw = s.
Proof.
  unfold lowerHexSecret. intros [Hl%Nat.eqb_eq Hs]%andb_true_iff.
  destruct (hex_decode_lower 32 s) as (raw & Hraw & He); [lia|done|]. split; [|eauto].
  unfold adoptable. rewrite Hraw, He, String.eqb_refl. destruct (String.eqb_spec raw "") as [->|]; [|done].
  cbn in He. by subst s.
Qed.

(** ** The rows of the users table *)

Section users.
Context `{ProxySettings.Random} (now : Z) (protoByTag : gmap string string) (gs : Groups) (fetch : gmap Z (Z * string)) (method : string).
Abbreviation loop := (users_loop now protoByTag gs fetch method).
Abbreviation user_of := (user_of now protoByTag gs fetch method).

Lemma user_of_id r id n t : SourceID (user_of r id n t).1.1.1 = id /\ Username (user_of r id n t).1.1.1 = str r "username".
Proof.
  unfold user_of. destruct (requiredTime _ _ _ _ _), (status_of r), (strategy_of r), (expire_of r), (proxySettings _), (proxies_of _ _ _ _ _).
  done.
Qed.

Lemma loop_app l l' n t :
  let '(us, ws, n', t') := loop l n t in
  let '(us', ws', n'', t'') := loop l' n' t' in
  loop (l ++ l') n t = ((us ++ us')%list, (ws ++ ws')%list, n'', t'').
Proof.
  revert n t. induction l as [|r l IH]; intros n t; cbn [app users_loop]; [by destruct (loop l' n t) as [[[? ?] ?] ?]|].
  assert (forall u w n1 t1, let '(us, ws, n', t') := (let '(us, ws, n, t) := loop l n1 t1 in (u ++ us, w ++ ws, n, t)%list) in
    let '(us', ws', n'', t'') := loop l' n' t' in
    (let '(us, ws, n, t) := loop (l ++ l') n1 t1 in (u ++ us, w ++ ws, n, t)%list) = ((us ++ us')%list, (ws ++ ws')%list, n'', t'')) as Hstep.
  { intros u w n1 t1. specialize (IH n1 t1). destruct (loop l n1 t1) as [[[us ws] n'] t'].
    destruct (loop l' n' t') as [[[us' ws'] n''] t'']. rewrite IH. by rewrite !app_assoc. }
  destruct (int64Ptr r "id") as [id|]; [|exact (Hstep [] [_] n t)].
  destruct (in_int32 id); [|exact (Hstep [] [_] n t)].
  destruct (user_of r id n t) as [[[u w] n1] t1]. exact (Hstep [u] w n1 t1).
Qed.

(** Each user is of a row with its id and name. *)
Lemma loop_rows l n t v : In v (loop l n t).1.1.1 -> exists r, In r l /\ int64Ptr r "id" = Some (SourceID v) /\
  in_int32 (SourceID v) = true /\ Username v = str r "username".
Proof.
  revert n t. induction l as [|r l IH]; intros n t; cbn [users_loop]; [done|].
  assert (forall n t, In v (loop l n t).1.1.1 -> exists r', In r' (r :: l) /\ int64Ptr r' "id" = Some (SourceID v) /\
    in_int32 (SourceID v) = true /\ Username v = str r' "username") as Hl.
  { intros n' t' (r' & ? & ?)%IH. exists r'. split; [by right|done]. }
  assert (forall w, In v (let '(us, ws, n', t') := loop l n t in (us, w :: ws, n', t')).1.1.1 -> In v (loop l n t).1.1.1) as Hskip.
  { intros w. by destruct (loop l n t) as [[[us ws] n'] t']. }
  destruct (int64Ptr r "id") as [id|] eqn:Hid; [|intros Hin; by eapply Hl, Hskip].
  destruct (in_int32 id) eqn:Hi; [|intros Hin; by eapply Hl, Hskip].
  destruct (user_of_id r id n t) as [Es En]. destruct (user_of r id n t) as [[[u w] n1] t1].
  specialize (Hl n1 t1). destruct (loop l n1 t1) as [[[us ws] n'] t']. cbn [fst snd] in *. intros [<-|Hin]; [|by apply Hl].
  exists r. rewrite Es. split; [by left|]. done.
Qed.

Lemma loop_at pre r post n t id : int64Ptr r "id" = Some id -> in_int32 id = true ->
  exists us us' n1 t1, (loop (pre ++ r :: post) n t).1.1.1 = (us ++ (user_of r id n1 t1).1.1.1 :: us')%list /\
    forall v, In v (us ++ us')%list -> exists r', In r' (pre ++ post)%list /\ int64Ptr r' "id" = Some (SourceID v) /\
      in_int32 (SourceID v) = true /\ Username v = str r' "username".
Proof.
  intros Hid Hi. pose proof (loop_app pre (r :: post) n t) as Happ. pose proof (loop_rows pre n t) as Hpre.
  destruct (loop pre n t) as [[[us ws] n1] t1]. cbn [users_loop] in Happ. rewrite Hid, Hi in Happ.
  destruct (user_of r id n1 t1) as [[[u w] n2] t2] eqn:Hu. pose proof (loop_rows post n2 t2) as Hpost.
  destruct (loop post n2 t2) as [[[us' ws'] n3] t3]. rewrite Happ. cbn [fst snd] in *.
  exists us, us', n1, t1. rewrite Hu. split; [done|].
  intros v [Hv|Hv]%in_app_iff; [apply Hpre in Hv|apply Hpost in Hv]; destruct Hv as (r' & Hin & ?); exists r'; rewrite in_app_iff; tauto.
Qed.
End users.

(** ** What the columns of a row hold *)

Lemma int64_opt_fits r col : S.opt_fits 64 (int64Ptr r col) = true.
Proof.
  unfold int64Ptr. destruct (strPtr r col) as [s|]; cbn; [|done]. destruct (ParseInt s) as [z|] eqn:E; [|done].
  apply bool_decide_true. by eapply ParseInt_fits.
Qed.

Lemma int32_opt_fits r col : S.opt_fits 32 (int32Ptr r col) = true.
Proof.
  unfold int32Ptr. destruct (int64Ptr r col) as [z|]; cbn; [|done]. destruct (decide _); [|done]. by apply bool_decide_true.
Qed.

Lemma status_ok r : str_mem (status_of r).1 S.all_statuses = true.
Proof. unfold status_of. by destruct (str_mem (str r "status") _) eqn:E. Qed.

Lemma strategy_ok r : str_mem (strategy_of r).1 S.all_strategies = true.
Proof. unfold strategy_of. by destruct (str_mem (str r "data_limit_reset_strategy") _) eqn:E. Qed.

Lemma expire_fits r : S.opt_fits 32 (expire_of r).1 = true.
Proof.
  unfold expire_of. destruct (time r "expire") as [t|]; [|done].
  destruct ((0 <? GoTime.Unix t) && _) eqn:E; [|done]. apply bool_decide_true. unfold fits. go_bool. lia.
Qed.

Lemma lastFetch_agent d u at_ ua : lastFetch d !! u = Some (at_, ua) ->
  exists f, In f (rows d "user_subscription_updates") /\ ua = str f "user_agent".
Proof.
  unfold lastFetch. set (step := fun m r => _). set (l := rows d _).
  assert (forall l' m, (forall v, m !! v = Some (at_, ua) -> exists f, In f l /\ ua = str f "user_agent") -> incl l' l ->
    foldl step m l' !! u = Some (at_, ua) -> exists f, In f l /\ ua = str f "user_agent") as Hfold.
  { induction l' as [|r l' IH]; intros m Hm Hl; cbn [foldl]; [apply Hm|]. apply IH; [|intros x Hx; apply Hl; by right].
    intros v. unfold step. repeat case_match; try apply Hm.
    all: intros [[<- [= <- <-]]|[_ Hv]]%lookup_insert_Some; [exists r; split; [apply Hl; by left|done]|by eapply Hm]. }
  intros Hl. eapply Hfold; [|apply incl_refl|exact Hl]. intros v. by rewrite lookup_empty.
Qed.

(** ** Credentials *)

Lemma last_member_in {A} k (ms : list (string * A)) v : last_member k ms = Some v -> exists k', In (k', v) ms.
Proof.
  unfold last_member. assert (forall acc, foldl (fun acc kv => if String.eqb kv.1 k then Some kv.2 else acc) acc ms = Some v ->
    acc = Some v \/ exists k', In (k', v) ms) as Hfold.
  { induction ms as [|[k' x] ms IH]; intros acc; cbn [foldl]; [by left|]. intros [He|[k2 Hin]]%IH.
    - cbn in He. destruct (String.eqb k' k); [|by left]. injection He as ->. right. exists k'. by left.
    - right. exists k2. by right. }
  intros Hl. by destruct (Hfold None Hl).
Qed.

Lemma members_valid j : valid_strings j = true -> forall k v, In (k, v) (members_of j) -> valid_strings v = true.
Proof.
  destruct j; try done. cbn. rewrite forallb_forall. intros Hv k v Hin. by apply (Hv (k, v)), andb_true_iff in Hin as [_ ?].
Qed.

Lemma parse_valid s j : parse s = Some j -> valid_strings j = true.
Proof. unfold parse. intros ([j' rest] & Hd & He)%bind_Some. case_match; [|done]. injection He as <-. by eapply decode_value_valid. Qed.

Lemma last_valid j k v : valid_strings j = true -> last_member k (members_of j) = Some v -> valid_strings v = true.
Proof. intros Hj (k' & Hin)%last_member_in. by eapply members_valid. Qed.

Lemma text_valid text p k : ValidUTF8 (text_of k ((proxySettings text).1 p)) = true.
Proof.
  unfold proxySettings. destruct (String.eqb text ""); [done|]. destruct (parse text) as [j|] eqn:Hp; [|done]. cbn [fst].
  destruct (last_member p (members_of j)) as [v|] eqn:Hv; [|done]. cbn. unfold text_of.
  destruct (last_member k (members_of v)) as [[| | |x| | |]|] eqn:Hx; try done.
  apply parse_valid in Hp. by apply (last_valid v k (JString x)); [eapply last_valid|].
Qed.

Lemma method_valid d : ValidUTF8 (pasarGuardDefaultSSMethod d) = true.
Proof.
  unfold pasarGuardDefaultSSMethod. destruct (rows d "settings") as [|r l]; [done|]. unfold field_of.
  destruct (parse (str r "general")) as [j|] eqn:Hp; [|done]. apply parse_valid in Hp. destruct j; try done. cbn [mbind option_bind].
  destruct (get_from "default_method" (Some zero) fields) as [m|] eqn:Hm; [|done]. destruct (String.eqb m ""); [done|].
  eapply (get_from_ok (A := string)) in Hm; [exact Hm|done|done].
Qed.

(** The stored settings that keep a user's secret, and which member holds it. *)
Definition secret_name (p : string) : string := if str_mem p ["vless"; "vmess"] then "id" else "password".

Definition kept_settings (p : string) (src : list (string * json)) (method : string) : ProxySettings.Settings :=
  if String.eqb p "vless" then ProxySettings.VLESSSettings (text_of "id" src) (text_of "flow" src)
  else if String.eqb p "vmess" then ProxySettings.VMessSettings (text_of "id" src)
  else if String.eqb p "trojan" then ProxySettings.TrojanSettings (text_of "password" src) ""
  else ProxySettings.ShadowsocksSettings (text_of "password" src) (if String.eqb (text_of "method" src) "" then method else text_of "method" src).

Lemma object_text ms : ms <> [] -> wf_json (JObject ms) = true ->
  String.eqb (TrimSpace (encode (JObject ms))) "" = false /\
  payload_of (encode (JObject ms)) = ProxySettings.PObject (map (fun kv => (kv.1, shallow kv.2)) ms).
Proof.
  intros Hne Hwf. unfold payload_of. rewrite (parse_encode _ Hwf).
  change (encode (JObject ms)) with (String "{" (Join (map (fun kv => match kv with (k, v) => quoted k ++ ":" ++ encode v end) ms) "," ++ String "}" "")).
  rewrite TrimSpace_id by done. done.
Qed.

Section credentials.
Context `{ProxySettings.Random}.

Lemma secret_kept k src n : text_of k src <> "" -> secret_of k src n = (text_of k src, n).
Proof. unfold secret_of, ProxySettings.fill. by intros ->%String.eqb_neq. Qed.

Lemma fill_present gen s n : String.eqb s "" = false -> ProxySettings.fill gen s n = (s, n).
Proof. unfold ProxySettings.fill. by intros ->. Qed.

Lemma stored_vless f i n : String.eqb i "" = false ->
  ProxySettings.FromStored "vless" (ProxySettings.PObject [("flow", ProxySettings.JString f); ("id", ProxySettings.JString i)]) n =
  Ok (ProxySettings.VLESSSettings i f, n).
Proof.
  intros Hi. transitivity (Ok (E := ProxySettings.error) (let '(id, n) := ProxySettings.fill ProxySettings.newUUID i n in (ProxySettings.VLESSSettings id f, n)));
    [reflexivity|]. by rewrite fill_present.
Qed.

Lemma stored_vmess i n : String.eqb i "" = false ->
  ProxySettings.FromStored "vmess" (ProxySettings.PObject [("id", ProxySettings.JString i)]) n = Ok (ProxySettings.VMessSettings i, n).
Proof.
  intros Hi. transitivity (Ok (E := ProxySettings.error) (let '(id, n) := ProxySettings.fill ProxySettings.newUUID i n in (ProxySettings.VMessSettings id, n)));
    [reflexivity|]. by rewrite fill_present.
Qed.

Lemma stored_trojan f i n : String.eqb i "" = false ->
  ProxySettings.FromStored "trojan" (ProxySettings.PObject [("flow", ProxySettings.JString f); ("password", ProxySettings.JString i)]) n =
  Ok (ProxySettings.TrojanSettings i f, n).
Proof.
  intros Hi. transitivity (Ok (E := ProxySettings.error) (let '(p, n) := ProxySettings.fill ProxySettings.randomPassword i n in (ProxySettings.TrojanSettings p f, n)));
    [reflexivity|]. by rewrite fill_present.
Qed.

Lemma stored_shadowsocks m i n : String.eqb i "" = false -> String.eqb m "" = false ->
  ProxySettings.FromStored "shadowsocks" (ProxySettings.PObject [("method", ProxySettings.JString m); ("password", ProxySettings.JString i)]) n =
  Ok (ProxySettings.ShadowsocksSettings i m, n).
Proof.
  intros Hi Hm. transitivity (Ok (E := ProxySettings.error) (let '(p, n) := ProxySettings.fill ProxySettings.randomPassword i n in
    (ProxySettings.ShadowsocksSettings p (if String.eqb m "" then ProxySettings.Chacha20Poly1305 else m), n))); [reflexivity|].
  by rewrite fill_present, Hm.
Qed.

Lemma kept_arrives p text method n m : In p pasarGuardProxyOrder -> ValidUTF8 method = true ->
  let src := (proxySettings text).1 p in text_of (secret_name p) src <> "" -> method <> "" ->
  (LoadProps.arrived n (pasarGuardProxy p src method m).1).1 = [(p, kept_settings p src method)].
Proof.
  intros Hp Hm src Hsec Hmne. pose proof (text_valid text p : forall k, ValidUTF8 (text_of k src) = true) as Hv.
  apply String.eqb_neq in Hmne, Hsec. unfold LoadProps.arrived, pasarGuardProxy, kept_settings.
  assert (forall k f, String.eqb (text_of k src) "" = false -> secret_of k src f = (text_of k src, f)) as Hsecret
    by (intros k f Hk%String.eqb_neq; by apply secret_kept).
  destruct Hp as [<-|[<-|[<-|[<-|[]]]]]; cbn [String.eqb Ascii.eqb Bool.eqb]; cbn in Hsec; rewrite Hsecret by done; cbn [p_Type p_Settings fst].
  - destruct (object_text [("flow", JString (text_of "flow" src)); ("id", JString (text_of "id" src))]) as [-> ->]; [done|cbn; by rewrite !Hv|].
    cbn [map shallow fst snd]. by rewrite stored_vless.
  - destruct (object_text [("id", JString (text_of "id" src))]) as [-> ->]; [done|cbn; by rewrite !Hv|].
    cbn [map shallow fst snd]. by rewrite stored_vmess.
  - destruct (object_text [("flow", JString ""); ("password", JString (text_of "password" src))]) as [-> ->]; [done|cbn; by rewrite !Hv|].
    cbn [map shallow fst snd]. by rewrite stored_trojan.
  - set (mt := if String.eqb (text_of "method" src) "" then method else text_of "method" src).
    assert (ValidUTF8 mt = true /\ String.eqb mt "" = false) as [Hmt Hmt0].
    { subst mt. by destruct (String.eqb (text_of "method" src) "") eqn:E. }
    destruct (object_text [("method", JString mt); ("password", JString (text_of "password" src))]) as [-> ->]; [done|cbn; by rewrite Hmt, !Hv|].
    cbn [map shallow fst snd]. by rewrite stored_shadowsocks.
Qed.

Lemma proxies_of_in protos settings method order n p : In p order -> p ∈ protos ->
  exists m, In (pasarGuardProxy p (settings p) method m).1 (proxies_of protos settings method order n).1.
Proof.
  revert n. induction order as [|q order IH]; intros n; [done|]. cbn [proxies_of]. intros Hin Hp.
  destruct Hin as [->|Hin].
  - rewrite bool_decide_true by done. exists n. destruct (pasarGuardProxy p _ _ n) as [x n1]. destruct (proxies_of _ _ _ order n1) as [xs n2]. by left.
  - destruct (bool_decide (q ∈ protos)); [|by apply IH]. destruct (pasarGuardProxy q _ _ n) as [x n1]. destruct (IH n1 Hin Hp) as [m Hm].
    exists m. destruct (proxies_of _ _ _ order n1) as [xs n2]. by right.
Qed.

Lemma proxy_type p src method n : (pasarGuardProxy p src method n).1 = mkProxy p (p_Settings (pasarGuardProxy p src method n).1) [].
Proof. unfold pasarGuardProxy. by repeat case_match. Qed.

Lemma proxies_of_types protos settings method order n x : In x (proxies_of protos settings method order n).1 -> In (p_Type x) order /\ p_Type x ∈ protos.
Proof.
  revert n. induction order as [|q order IH]; intros n; [done|]. cbn [proxies_of].
  destruct (bool_decide (q ∈ protos)) eqn:Hq; [|intros [? ?]%IH; split; [by right|done]].
  pose proof (proxy_type q (settings q) method n) as Ht. destruct (pasarGuardProxy q _ _ n) as [y n1]. specialize (IH n1).
  destruct (proxies_of _ _ _ order n1) as [xs n2]. cbn [fst] in *. rewrite Ht. intros [<-|Hin]; cbn.
  - split; [by left|]. by apply bool_decide_eq_true in Hq.
  - apply IH in Hin as [? ?]. split; [by right|done].
Qed.

Lemma arrived_in x ps : In x ps -> forall n, exists m, incl (LoadProps.arrived m x).1 (LoadProps.arrived_all n ps).
Proof.
  induction ps as [|y ps IH]; [done|]. intros [->|Hin] n; cbn [LoadProps.arrived_all].
  - exists n. apply incl_appl, incl_refl.
  - destruct (IH Hin (LoadProps.arrived n y).2) as [m Hm]. exists m. by apply incl_appr.
Qed.

Lemma arrived_types ps : forall n t st, In (t, st) (LoadProps.arrived_all n ps) -> exists x, In x ps /\ p_Type x = t.
Proof.
  induction ps as [|y ps IH]; intros n t st; cbn [LoadProps.arrived_all]; [done|]. rewrite in_app_iff. intros [Hin|Hin].
  - exists y. split; [by left|]. unfold LoadProps.arrived in Hin. destruct (ProxySettings.FromStored _ _ n) as [[? ?]|]; [|done].
    destruct (String.eqb _ ""); [done|]. by destruct Hin as [[= ? ?]|[]].
  - apply IH in Hin as (x & ? & ?). exists x. split; [by right|done].
Qed.
End credentials.

(** The user of a row of a dump. *)
Definition dump_user `{ProxySettings.Random} (now : Z) (d : PgDump.PgDump) (r : row) (id : Z) (n : nat) (t : Tally) : User :=
  (user_of now (pasarGuardInboundProtocols d).1 (groups_of d) (lastFetch d) (pasarGuardDefaultSSMethod d) r id n t).1.1.1.

Section theorems.
Context `{Token.CryptoLaws} `{LoadMap.FloatToInt} `{ProxySettings.Random}.
(** A dump [d], imported at [now]; [r] is a row of its users, [c] when it was created. *)
Context (now : Z) (d : PgDump.PgDump) (n n' : nat) (data : ImportedData) (j : row) (jwts pre post : list row) (r : row) (id : Z) (s0 : Load).
Hypotheses
  (Hdata : FromPasarGuard now d n = Some (data, n'))
  (Hjwt : rows d "jwt" = j :: jwts) (Hhex : lowerHexSecret (str j "secret_key") = true)
  (Husers : PgDump.RowsOf "users" d = Some (pre ++ r :: post)%list)
  (Hid : int64Ptr r "id" = Some id) (Hin : in_int32 id = true)
  (Halone : forall r', In r' (pre ++ post)%list -> int64Ptr r' "id" <> Some id /\ str r' "username" <> str r "username")
  (Hname : at_most 34 (str r "username") = true) (Hnote : opt_at_most 500 (strPtr r "note") = true)
  (Hagent : forall f, In f (rows d "user_subscription_updates") -> at_most 512 (str f "user_agent") = true)
  (Hfaults : l_faults s0 = []).

Abbreviation user := (dump_user now d r id).

Lemma user_is_fit m t : user_fits (user m t) = true.
Proof.
  unfold dump_user, user_of. pose proof (status_ok r) as Hs. pose proof (strategy_ok r) as Hg. pose proof (expire_fits r) as He.
  destruct (requiredTime _ _ _ _ _) as [c w], (status_of r) as [st w2], (strategy_of r) as [sg w3], (expire_of r) as [ex w4],
    (proxySettings _) as [ps ok], (proxies_of _ _ _ _ _) as [px m']. cbn [fst snd] in *.
  unfold user_fits, S.core_ok. cbn [user_row S.core S.Status S.DataLimitResetStrategy S.Note S.DataLimit S.Expire S.OnHoldExpireDuration
    S.AutoDeleteInDays Username SubLastUserAgent Status DataLimitResetStrategy Note DataLimit Expire OnHoldExpireDuration AutoDeleteInDays].
  rewrite Hs, Hg, He, !int64_opt_fits, int32_opt_fits, Hname. unfold opt_at_most, at_most in Hnote. rewrite Hnote. cbn [andb].
  destruct (lastFetch d !! id) as [[at_ ua]|] eqn:Hf; [|done]. destruct (String.eqb ua ""); [done|]. cbn.
  apply lastFetch_agent in Hf as (f & Hfin & ->). by apply Hagent.
Qed.

Lemma int32_of_id i : in_int32 i = true -> int32 i = i.
Proof. unfold in_int32. intros Hi. apply wrap_id; [lia|]. unfold fits. go_bool. lia. Qed.

Lemma pasarguard_arrives : exists s res m t,
  loadLegacyImport data n' s0 = (s, Ok res) /\
  LoadProps.arrives (str j "secret_key") id (str r "username") (user m t) (l_db s) (l_extra s).
Proof.
  unfold FromPasarGuard in Hdata. rewrite Husers in Hdata. unfold signing_key in Hdata. rewrite Hjwt, Hhex in Hdata.
  destruct (loop_at now (pasarGuardInboundProtocols d).1 (groups_of d) (lastFetch d) (pasarGuardDefaultSSMethod d) pre r post n
    (mkTally 0 0 ∅ ∅ ∅) id Hid Hin) as (us & us' & m & t & Eus & Hus).
  destruct (user_of_id now (pasarGuardInboundProtocols d).1 (groups_of d) (lastFetch d) (pasarGuardDefaultSSMethod d) r id m t) as [Es En].
  fold (dump_user now d r id m t) in Es, En, Eus. destruct (collect _ (rows d "admins")) as [admins w2].
  destruct (pasarGuardInboundProtocols d) as [protos w3]. cbn [fst] in *.
  destruct (users_loop _ _ _ _ _ _ _ _) as [[[users w4] n1] t1]. destruct (collect plan_of _) as [plans w5].
  injection Hdata as <- ->. cbn [fst snd] in Eus.
  destruct (LoadProps.load_arrives (str j "secret_key") id (str r "username") (user m t) us us') with (data := mkData admins users [] [] []
    plans (str j "secret_key") true true (([] ++ w2 ++ w3 ++ w4 ++ w5 ++ left_behind d (groups_of d) protos (n' - n) t1)%list))
    (n := n') (s0 := s0) as (s & res & Hload & Harr & _); try done.
  - rewrite Es. by apply int32_of_id.
  - apply user_is_fit.
  - intros v Hv. destruct (Hus v Hv) as (r' & Hr' & Hrid & Hrin & Hrn). destruct (Halone r' Hr') as [Hne1 Hne2].
    rewrite (int32_of_id _ Hrin), Hrn. split; [|done]. congruence.
  - by apply lower_hex_adoptable.
  - by exists s, res, m, t.
Qed.

Lemma dump_user_columns m t c : time r "created_at" = Some c ->
  CreatedAt (user m t) = c /\ SubRevokedAt (user m t) = time r "sub_revoked_at" /\ UsedTraffic (user m t) = default 0 (int64Ptr r "used_traffic") /\
  DataLimit (user m t) = int64Ptr r "data_limit" /\ Expire (user m t) = (expire_of r).1 /\ Status (user m t) = (status_of r).1.
Proof.
  intros Hc. unfold dump_user, user_of, requiredTime. rewrite Hc.
  by destruct (status_of r), (strategy_of r), (expire_of r), (proxySettings _), (proxies_of _ _ _ _ _).
Qed.

Lemma dump_user_proxies m t : exists m', Proxies (user m t) = (proxies_of (protos_of (pasarGuardInboundProtocols d).1 (groups_of d) id)
  (proxySettings (str r "proxy_settings")).1 (pasarGuardDefaultSSMethod d) pasarGuardProxyOrder m').1.
Proof.
  exists m. unfold dump_user, user_of.
  destruct (requiredTime _ _ _ _ _), (status_of r), (strategy_of r), (expire_of r), (proxySettings _). by destruct (proxies_of _ _ _ _ _).
Qed.

Lemma method_nonempty : pasarGuardDefaultSSMethod d <> "".
Proof.
  unfold pasarGuardDefaultSSMethod. destruct (rows d "settings"); [done|]. destruct (field_of _ _) as [x|]; [|done].
  by destruct (String.eqb_spec x "").
Qed.

Lemma micro_old t ts : t <= ts * 1000000000 -> (ts * 1000000000 <? micro t * 1000) = false.
Proof. intros Ht. apply Z.ltb_ge. unfold micro. pose proof (Z.mul_div_le t 1000). lia. Qed.

(** C27: A subscription link PasarGuard handed out, ["v3,<id>,<ts>"] signed with its key, opens
    the same user once the dump is imported and the panel runs with the key it then
    has: the row keeps its id and name, its traffic, limit, expiry and status. *)
Theorem pasarguard_links_survive c ts :
  time r "created_at" = Some c -> c <= ts * 1000000000 -> (forall v, time r "sub_revoked_at" = Some v -> v <= ts * 1000000000) ->
  0 <= ts < 2 ^ 62 ->
  let payload := Encode ("v3" ++ "," ++ Itoa id ++ "," ++ Itoa ts) in
  let link := payload ++ "." ++ Encode (Token.hmac_sha256 (str j "secret_key") payload) in
  exists s res secret u, loadLegacyImport data n' s0 = (s, Ok res) /\ hex_decode (jwt_secret (l_extra s)) = Some secret /\
    (Token.loadSubscriptionUser link secret (S.mkWorld (l_db s) [])).2 = Ok u /\
    S.ID u = id /\ S.Username u = str r "username" /\ S.UsedTraffic u = default 0 (int64Ptr r "used_traffic") /\
    S.DataLimit (S.core u) = int64Ptr r "data_limit" /\ S.Expire (S.core u) = (expire_of r).1 /\ S.Status (S.core u) = (status_of r).1.
Proof.
  intros Hc Hcts Hrev Hts payload link. destruct pasarguard_arrives as (s & res & m & t & Hload & owner & k & Harr).
  destruct (lower_hex_adoptable _ Hhex) as [_ (raw & Hraw & Hhx)].
  destruct (dump_user_columns m t c Hc) as (E1 & E2 & E3 & E4 & E5 & E6).
  exists s, res, raw, (user_row id owner (user m t)). split; [done|]. split; [by rewrite (LoadProps.ra_key _ _ _ _ _ _ _ Harr)|].
  assert (1 <= id <= 2147483647) as Hb by (unfold in_int32 in Hin; go_bool; lia). split.
  - destruct (Token.pasarguard_token_accepted "v3" id ts raw) as [Htok _]; [by right|lia|lia|].
    unfold Token.loadSubscriptionUser. cbv zeta in Htok. rewrite Hhx in Htok. subst link payload. rewrite Htok.
    unfold Token.lookup_claims. cbn [Token.ByID Token.UserID andb]. rewrite (proj2 (Z.leb_le 1 id)), (proj2 (Z.leb_le id 2147483647)) by lia.
    cbn [andb]. unfold mbind, S.M_bind, S.or_else, S.query, S.stmt. cbn [S.faults S.db].
    unfold Token.GetUserByID. rewrite (LoadProps.ra_row _ _ _ _ _ _ _ Harr). cbn [Token.c_CreatedAt S.CreatedAt S.SubRevokedAt user_row].
    unfold UserApi.UserApi.ensure, Token.outdated. rewrite E1, E2, micro_old by done. cbn [negb].
    destruct (time r "sub_revoked_at") as [v|] eqn:Hv; [|done]. cbn [fmap option_fmap option_map]. by rewrite micro_old by by apply Hrev.
  - cbn. rewrite E3, E4, E5, E6. repeat split; try done.
    unfold dump_user. by apply user_of_id.
Qed.

(** The user keeps its credentials, so installed clients keep authenticating: for every
    protocol its enabled groups reach and whose secret the dump has, the imported user
    has a proxy with exactly the secret (and flow or method) of the dump; and it has no
    proxy for a protocol it could not reach. *)
Theorem pasarguard_credentials_survive :
  let src := (proxySettings (str r "proxy_settings")).1 in
  let protos := protos_of (pasarGuardInboundProtocols d).1 (groups_of d) id in
  exists s res, loadLegacyImport data n' s0 = (s, Ok res) /\
    (forall p, In p pasarGuardProxyOrder -> p ∈ protos -> text_of (secret_name p) (src p) <> "" ->
      exists k q, S.proxies (l_db s) !! k = Some q /\ S.p_UserID q = id /\ S.p_Type q = p /\
        S.p_Settings q = kept_settings p (src p) (pasarGuardDefaultSSMethod d)) /\
    (forall k q, S.proxies (l_db s) !! k = Some q -> S.p_UserID q = id -> In (S.p_Type q) pasarGuardProxyOrder /\ S.p_Type q ∈ protos).
Proof.
  intros src protos. destruct pasarguard_arrives as (s & res & m & t & Hload & owner & f & Harr).
  destruct (dump_user_proxies m t) as [m' Hps]. exists s, res. split; [done|].
  pose proof (LoadProps.ra_proxies _ _ _ _ _ _ _ Harr) as Hprox. rewrite Hps in Hprox. split.
  - intros p Hp Hreach Hsec. apply Hprox. destruct (proxies_of_in protos src (pasarGuardDefaultSSMethod d) _ m' p Hp Hreach) as [m2 Hm2].
    destruct (arrived_in _ _ Hm2 f) as [m3 Hincl]. apply Hincl. subst src.
    rewrite kept_arrives; [by left|done|apply method_valid|done|apply method_nonempty].
  - intros k q Hq Hqid. assert (In (S.p_Type q, S.p_Settings q) (LoadProps.arrived_all f (proxies_of protos src (pasarGuardDefaultSSMethod d) pasarGuardProxyOrder m').1)) as Hin2
      by (apply Hprox; by exists k, q).
    apply arrived_types in Hin2 as (x & Hx & <-). by eapply proxies_of_types.
Qed.
End theorems.

(** ** A dump of two users *)

#[local] Existing Instances Token.toy_crypto Token.toy_laws LoadMap.LoadMap.wraps_like_amd64 ProxySettings.tally_random.

Definition demo_key : string := "0123456789abcdef0123456789abcdef0123456789abcdef0123456789abcdef".

Definition demo_table (name : string) (cols : list string) (vals : list (list string)) : string * PgDump.PgTable :=
  (name, PgDump.mkTable name cols (map (map Some) vals)).

Definition demo_config : string := encode (JObject [("inbounds", JArray [
  JObject [("tag", JString "TCP"); ("protocol", JString "VLESS")]; JObject [("tag", JString "SS"); ("protocol", JString "shadowsocks")]])]).

Definition demo_settings : string := encode (JObject [
  ("vless", JObject [("id", JString "6ba7b810"); ("flow", JString "xtls-rprx-vision")]); ("trojan", JObject [("password", JString "unused")]);
  ("shadowsocks", JObject [("password", JString "s3cret"); ("method", JNull)])]).

Definition demo_users_table : string * PgDump.PgTable :=
  demo_table "users" ["id"; "username"; "status"; "used_traffic"; "data_limit"; "data_limit_reset_strategy"; "expire"; "created_at"; "proxy_settings"]
    [["8"; "sara"; "expired"; "5"; "10"; "day"; "2023-01-01 00:00:00+00"; "2022-01-01 00:00:00+00"; ""];
     ["7"; "ali"; "active"; "1234"; "5000"; "month"; "2030-01-01 03:30:00+03:30"; "2023-11-14 00:00:00.25+00"; demo_settings]].

Definition demo_dump : PgDump.PgDump := PgDump.mkDump ∅ (list_to_map [
  demo_table "jwt" ["secret_key"] [[demo_key]];
  demo_users_table;
  demo_table "core_configs" ["name"; "config"] [["main"; demo_config]];
  demo_table "inbounds" ["id"; "tag"] [["1"; "TCP"]; ["2"; "SS"]];
  demo_table "groups" ["id"; "name"; "is_disabled"] [["1"; "all"; "f"]];
  demo_table "inbounds_groups_association" ["inbound_id"; "group_id"] [["1"; "1"]; ["2"; "1"]];
  demo_table "users_groups_association" ["user_id"; "groups_id"] [["7"; "1"]]]).

Definition demo_row (i : nat) : row := nth i (rows demo_dump "users") ∅.
Definition demo_jwt : row := nth 0 (rows demo_dump "jwt") ∅.

Definition demo_import : ImportedData * nat := default (mkData [] [] [] [] [] [] "" false false [], 0%nat) (FromPasarGuard 0 demo_dump 0).

Definition demo_start : Load := mkLoad (S.mkDb ∅ ∅ ∅ ∅ [] ∅ ∅ ∅ (0, 0) ∅ ∅ [] 1) (mkExtra "" ∅ ∅ [] ∅ false) [] [].

(** The user without a group keeps its row and loses nothing it had. *)
Example demo_imported : map (fun u => (SourceID u, Username u, Status u, length (Proxies u))) (Users demo_import.1) =
  [(8, "sara", "expired", 0%nat); (7, "ali", "active", 2%nat)].
Proof. vm_compute. reflexivity. Qed.

Example demo_warnings : Warnings demo_import.1 =
  [UsersWithoutAccess 1; InboundNotRecreated "SS" "shadowsocks" 1; InboundNotRecreated "TCP" "vless" 1].
Proof. vm_compute. reflexivity. Qed.

Ltac demo_alone := let Hin := fresh in intros ? Hin; repeat (destruct Hin as [<-|Hin]; [vm_compute; try split; (discriminate || reflexivity)|]); destruct Hin.

Lemma demo_read : FromPasarGuard 0 demo_dump 0 = Some (demo_import.1, demo_import.2).
Proof. vm_compute. reflexivity. Qed.

Lemma demo_rows : PgDump.RowsOf "users" demo_dump = Some ([demo_row 0] ++ demo_row 1 :: [])%list.
Proof. vm_cast_no_check (eq_refl (PgDump.RowsOf "users" demo_dump)). Qed.

Lemma pasarguard_links_survive_witness :
  let payload := Encode ("v3" ++ "," ++ Itoa 7 ++ "," ++ Itoa 1700000000) in
  let link := payload ++ "." ++ Encode (Token.hmac_sha256 demo_key payload) in
  exists s res secret u, loadLegacyImport demo_import.1 demo_import.2 demo_start = (s, Ok res) /\ hex_decode (jwt_secret (l_extra s)) = Some secret /\
    (Token.loadSubscriptionUser link secret (S.mkWorld (l_db s) [])).2 = Ok u /\
    S.ID u = 7 /\ S.Username u = "ali" /\ S.UsedTraffic u = 1234 /\ S.DataLimit (S.core u) = Some 5000 /\
    S.Expire (S.core u) = Some 1893456000 /\ S.Status (S.core u) = "active".
Proof.
  apply (pasarguard_links_survive 0 demo_dump 0 demo_import.2 demo_import.1 demo_jwt [] [demo_row 0] [] (demo_row 1) 7 demo_start)
    with (c := 1699920000250000000) (ts := 1700000000).
  1: exact demo_read.
  3: exact demo_rows.
  1-4, 6, 7, 9: vm_compute; reflexivity.
  1, 2: demo_alone.
  - vm_compute. reflexivity.
  - lia.
  - intros v Hv. vm_compute in Hv. discriminate.
  - lia.
Defined.

Lemma pasarguard_credentials_survive_witness :
  exists s res, loadLegacyImport demo_import.1 demo_import.2 demo_start = (s, Ok res) /\
    (forall p, In p pasarGuardProxyOrder -> p ∈ protos_of (pasarGuardInboundProtocols demo_dump).1 (groups_of demo_dump) 7 ->
      text_of (secret_name p) ((proxySettings demo_settings).1 p) <> "" ->
      exists k q, S.proxies (l_db s) !! k = Some q /\ S.p_UserID q = 7 /\ S.p_Type q = p /\
        S.p_Settings q = kept_settings p ((proxySettings demo_settings).1 p) (pasarGuardDefaultSSMethod demo_dump)) /\
    (forall k q, S.proxies (l_db s) !! k = Some q -> S.p_UserID q = 7 -> In (S.p_Type q) pasarGuardProxyOrder /\
      S.p_Type q ∈ protos_of (pasarGuardInboundProtocols demo_dump).1 (groups_of demo_dump) 7).
Proof.
  apply (pasarguard_credentials_survive 0 demo_dump 0 demo_import.2 demo_import.1 demo_jwt [] [demo_row 0] [] (demo_row 1) 7 demo_start).
  1: exact demo_read.
  3: exact demo_rows.
  1-4, 6, 7, 9: vm_compute; reflexivity.
  all: demo_alone.
Defined.
End PasarGuardProps.
