(* ===== verification/Gateway.v ===== *)
(** * Gateway: panels that serve each other's users — [internal/httpapi/gateway*.go], [internal/gatewayjob]

    [Settings] is a panel's own secret and its list of peers; [Sync] what a push of one
    user does to the panel that gets it, and what a panel pushes; [Status] the peers'
    hosts that a subscription is completed with, from the status each peer last gave. *)

From stdpp Require Import sorting.
From S2P Require Import Prelude GoStrings ProxySettings Effect Store UserApi.

#[local] Open Scope string_scope.
#[local] Open Scope Z_scope.

(** ** The secret and the peers: [gateway.go] *)

Module Settings.

Record GatewaySetting := mkSetting { gs_Name : string; gs_Secret : string }.
Record GatewayPeer := mkPeer { gp_ID : Z; gp_Name : string; gp_BaseUrl : string; gp_Secret : string; gp_Enabled : bool }.

(** [None]: no secret was needed yet. The peers are in the order of their ids. *)
Record St := mkSt { setting : option GatewaySetting; peers : list GatewayPeer; next_id : Z; faults : list bool }.

Inductive callerr := Unavailable | NoRows.

Definition call {A} (q : St -> result callerr (St * A)) : eff St callerr A := fun s =>
  match faults s with
  | true :: fs => (mkSt (setting s) (peers s) (next_id s) fs, Err Unavailable)
  | fs =>
      match q s with
      | Ok (s', a) => (mkSt (setting s') (peers s') (next_id s') (tail fs), Ok a)
      | Err e => (mkSt (setting s) (peers s) (next_id s) (tail fs), Err e)
      end
  end.

Definition put_setting (g : GatewaySetting) (s : St) : St := mkSt (Some g) (peers s) (next_id s) (faults s).
Definition put_peers (l : list GatewayPeer) (s : St) : St := mkSt (setting s) l (next_id s) (faults s).

Definition GetGatewaySecret : eff St callerr GatewaySetting :=
  call (fun s => match setting s with Some g => Ok (s, g) | None => Err NoRows end).
Definition CreateGatewaySecret (secret : string) : eff St callerr GatewaySetting :=
  call (fun s => let g := mkSetting "" secret in Ok (match setting s with Some _ => s | None => put_setting g s end, g)).
Definition RotateGatewaySecret (secret : string) : eff St callerr GatewaySetting :=
  call (fun s => match setting s with
                 | Some g => let g := mkSetting (gs_Name g) secret in Ok (put_setting g s, g)
                 | None => Err NoRows
                 end).
Definition SetGatewayName (name : string) : eff St callerr GatewaySetting :=
  call (fun s => match setting s with
                 | Some g => let g := mkSetting name (gs_Secret g) in Ok (put_setting g s, g)
                 | None => Err NoRows
                 end).
Definition ListGatewayPeers : eff St callerr (list GatewayPeer) := call (fun s => Ok (s, peers s)).
Definition CreateGatewayPeer (name url secret : string) (enabled : bool) : eff St callerr GatewayPeer :=
  call (fun s => let p := mkPeer (next_id s) name url secret enabled in
                 Ok (mkSt (setting s) (peers s ++ [p])%list (next_id s + 1) (faults s), p)).
Definition UpdateGatewayPeer (id : Z) (name url secret : string) (enabled : bool) : eff St callerr GatewayPeer :=
  call (fun s => let p := mkPeer id name url secret enabled in
                 if existsb (fun q => gp_ID q =? id) (peers s)
                 then Ok (put_peers (map (fun q => if gp_ID q =? id then p else q) (peers s)) s, p) else Err NoRows).
Definition DeleteGatewayPeer (id : Z) : eff St callerr unit :=
  call (fun s => Ok (put_peers (List.filter (fun q => negb (gp_ID q =? id)) (peers s)) s, tt)).

(** [fresh] is what [randomGatewaySecret] returns, [None] its failure. *)
Definition ensureGatewaySettings (fresh : option string) : eff St callerr GatewaySetting := fun s =>
  match GetGatewaySecret s with
  | (s, Ok g) => (s, Ok g)
  | (s, Err NoRows) => match fresh with Some x => CreateGatewaySecret x s | None => (s, Err Unavailable) end
  | (s, Err e) => (s, Err e)
  end.

(** Whether a call with this Authorization header goes through. *)
Definition requireGatewaySecret (fresh : option string) (header : string) : St -> St * bool := fun s =>
  match strip_prefix "Bearer " header with
  | None => (s, false)
  | Some secret =>
      let '(s, r) := ensureGatewaySettings fresh s in
      (s, match r with Ok g => negb (String.eqb secret "") && String.eqb secret (gs_Secret g) | Err _ => false end)
  end.

Definition httperr : Type := Z * string.

Definition handleGetGatewaySettings (fresh : option string) : eff St httperr GatewaySetting :=
  catch (ensureGatewaySettings fresh) (fun _ => (500, "could not load gateway settings")).

Definition handleUpdateGatewaySettings (fresh rotated : option string) (name : option string) (rotate : bool) :
  eff St httperr GatewaySetting :=
  settings ← catch (ensureGatewaySettings fresh) (fun _ => (500, "could not load gateway settings"));
  settings ← match name with
             | Some name => catch (SetGatewayName name) (fun _ => (500, "could not save the name"))
             | None => mret settings
             end;
  if rotate then
    match rotated with
    | Some x => catch (RotateGatewaySecret x) (fun _ => (500, "could not rotate the secret"))
    | None => throw (500, "could not generate a new secret")
    end
  else mret settings.

(** The three fields are required; [enabled] defaults to true. *)
Record gatewayPeerRequest := mkPeerRequest { pr_Name : string; pr_BaseURL : string; pr_Secret : string; pr_Enabled : option bool }.

Definition complete (r : gatewayPeerRequest) : bool :=
  negb (String.eqb (pr_Name r) "") && negb (String.eqb (pr_BaseURL r) "") && negb (String.eqb (pr_Secret r) "").

Definition handleCreateGatewayPeer (r : gatewayPeerRequest) : eff St httperr GatewayPeer :=
  if complete r then
    catch (CreateGatewayPeer (pr_Name r) (trim_right_byte "/" (pr_BaseURL r)) (pr_Secret r) (default true (pr_Enabled r)))
      (fun _ => (500, "the statement's error"))
  else throw (422, "a required field is missing").

Definition peer_err (e : callerr) : httperr := match e with NoRows => (404, "peer not found") | _ => (500, "the statement's error") end.

(** [id] is the path parameter; a path that is no 32-bit integer is refused with 422. *)
Definition handleUpdateGatewayPeer (id : string) (r : gatewayPeerRequest) : eff St httperr GatewayPeer :=
  match ParseInt id with
  | Some i =>
      if decide (fits 32 i) then
        if complete r then
          catch (UpdateGatewayPeer i (pr_Name r) (trim_right_byte "/" (pr_BaseURL r)) (pr_Secret r) (default true (pr_Enabled r))) peer_err
        else throw (422, "a required field is missing")
      else throw (422, "invalid peer id")
  | None => throw (422, "invalid peer id")
  end.

Definition handleDeleteGatewayPeer (id : string) : eff St httperr unit :=
  match ParseInt id with
  | Some i => if decide (fits 32 i) then catch (DeleteGatewayPeer i) peer_err else throw (422, "invalid peer id")
  | None => throw (422, "invalid peer id")
  end.
End Settings.

(** ** Users of other panels: [gateway_sync.go] *)

Module Sync.
Import Store UserApi.

(** [gatewaySyncPayload], with [Proxies] a map in some order. *)
Record gatewaySyncPayload := mkPayload {
  OriginPanelName : string; g_Username : string; Deleted : bool; g_Status : string; g_DataLimit : option Z; g_Strategy : string;
  g_Expire : option Z; g_Proxies : list (string * ProxySettings.payload)
}.

(** *** Statements *)

Definition replica_core (req : gatewaySyncPayload) (old : Core) : Core :=
  mkCore (g_Status req) (g_DataLimit req) (strOr (Some (g_Strategy req)) "no_reset") (pgInt4FromPtrInt64 (g_Expire req))
    (Note old) (OnHoldExpireDuration old) (OnHoldTimeout old) (AutoDeleteInDays old).

Definition UpdateGatewaySyncedUser (now id : Z) (req : gatewaySyncPayload) : Db -> result dberror (Db * User) :=
  update_user id (fun u => Ok (touch_edit now (with_core (replica_core req (core u)) u))).

Definition no_core : Core := mkCore "" None "" None None None None None.

Definition with_origin (origin : string) (u : User) : User :=
  mkUser (ID u) (Username u) (core u) (UsedTraffic u) (AdminID u) (Some origin) (CreatedAt u) (EditAt u) (OnlineAt u) (SubRevokedAt u)
    (LastStatusChange u).

(** [CreateUser] but for the origin. *)
Definition CreateGatewaySyncedUser (now : Z) (req : gatewaySyncPayload) (d : Db) : result dberror (Db * User) :=
  '(d, u) ← CreateUser now (g_Username req) (replica_core req no_core) None d;
  let u := with_origin (OriginPanelName req) u in
  Ok (set_users (<[ID u := u]> (users d)) d, u).

Section Sync.
Context `{ProxySettings.Random}.

Definition conflict : httperr := (409, "a real local user with this username exists here").

(** [handleGatewaySyncUser], past the secret. The user of that name, if any. *)
Definition existing_user (name : string) : M httperr (option User) :=
  r ← attempt (query (GetUserByUsername name));
  match r with
  | Ok u => mret (Some u)
  | Err NoRows => mret None
  | Err _ => fail (500, "the query's error")
  end.

Definition is_replica (u : User) : bool := is_some (SyncedFromPanelName u).

Definition remove_replica (existing : option User) : M httperr unit :=
  match existing with
  | None => mret tt
  | Some u =>
      _ ← ensure (is_replica u) conflict;
      run (stmt (DeleteUser (ID u))) "could not delete replica"
  end.

Definition update_replica (now : Z) (req : gatewaySyncPayload) (u : User) (wanted : list (string * ProxySettings.Settings)) : M httperr unit :=
  row ← run (stmt (UpdateGatewaySyncedUser now (ID u) req)) "could not update replica";
  reconcileProxies (ID row) wanted [] true.

Definition create_replica (now : Z) (req : gatewaySyncPayload) (wanted : list (string * ProxySettings.Settings)) : M httperr unit :=
  row ← or_else (stmt (CreateGatewaySyncedUser now req))
          (fun e => match e with UniqueViolation => conflict | _ => (500, "could not create replica") end);
  for_each (fun '(protocol, settings) =>
    known ← run (query (ListInboundTagsByProtocol protocol)) "the query's error";
    createProxyForUser (ID row) protocol settings known) wanted.

Definition handleGatewaySyncUser (now : Z) (n : nat) (req : gatewaySyncPayload) : M httperr unit :=
  _ ← ensure (negb (String.eqb (g_Username req) "")) (unprocessable "Username is required");
  existing ← existing_user (g_Username req);
  if Deleted req then remove_replica existing
  else
    _ ← match existing with Some u => ensure (is_replica u) conflict | None => mret tt end;
    '(wanted, _) ← resolve (g_Proxies req) n;
    match existing with
    | Some u => update_replica now req u wanted
    | None => create_replica now req wanted
    end.
End Sync.

(** *** What a panel pushes *)

(** The settings column is the text [MarshalJSON] wrote. *)
Definition proxyPayload (ps : list Proxy) : list (string * ProxySettings.payload) :=
  map_to_list (foldl (fun m p => <[p_Type p := ProxySettings.MarshalJSON (p_Settings p)]> m) (∅ : gmap string ProxySettings.payload) ps).

(** [dispatchGatewayUserSync]: the payload, before [dispatchGatewayPush] names the origin;
    nothing is pushed for a replica, nor when the proxies cannot be read. *)
Definition dispatchGatewayUserSync (u : User) : World -> World * option gatewaySyncPayload := fun w =>
  if is_replica u then (w, None)
  else match query (ListProxiesByUserID (ID u)) w with
       | (w, Ok ps) =>
           (w, Some (mkPayload "" (Username u) false (Status (core u)) (DataLimit (core u)) (DataLimitResetStrategy (core u))
                       (Expire (core u)) (proxyPayload ps)))
       | (w, Err _) => (w, None)
       end.

Definition dispatchGatewayUserDelete (u : User) : option gatewaySyncPayload :=
  if is_replica u then None else Some (mkPayload "" (Username u) true "" None "" None []).

Definition from_panel (name : string) (p : gatewaySyncPayload) : gatewaySyncPayload :=
  mkPayload name (g_Username p) (Deleted p) (g_Status p) (g_DataLimit p) (g_Strategy p) (g_Expire p) (g_Proxies p).

(** [dispatchGatewayPush]: the peers called, each in its own goroutine with the same payload,
    once and without a retry. *)
Definition dispatchGatewayPush (fresh : option string) (payload : gatewaySyncPayload) (s : Settings.St) :
  Settings.St * list (Settings.GatewayPeer * gatewaySyncPayload) :=
  match Settings.ListGatewayPeers s with
  | (s, Err _) => (s, [])
  | (s, Ok []) => (s, [])
  | (s, Ok peers) =>
      match Settings.ensureGatewaySettings fresh s with
      | (s, Err _) => (s, [])
      | (s, Ok g) => (s, map (fun p => (p, from_panel (Settings.gs_Name g) payload)) (List.filter Settings.gp_Enabled peers))
      end
  end.
End Sync.

(** ** Peers' hosts: [gateway_status.go], [gateway_subscription.go], [gatewayjob.go] *)

Module Status.

(** What [computePanelCrowdedness] reads of the latest row of every node; the panel's own row
    has no node. Times in nanoseconds. *)
Record metric := mkMetric { m_NodeID : option Z; m_CollectedAt : option Z; m_Connections : option Z }.

Definition staleAfter : Z := 120 * 1000000000.

Definition computePanelCrowdedness (now : Z) (rows : list metric) : Z :=
  foldl (fun total m =>
    match m_NodeID m, m_CollectedAt m, m_Connections m with
    | Some _, Some t, Some c => if staleAfter <? now - t then total else total + c
    | _, _, _ => total
    end) 0 rows.

Section hosts.
(** The fields of [EffectiveHost] the merge does not look at. *)
Context {host : Type}.

Record EffectiveHost := mkHost { h_Tag : string; h_Protocol : string; h_Priority : Z; h_rest : host }.
Record StatusResult := mkStatus { Crowdedness : Z; Hosts : list EffectiveHost }.
Record gatewayPeerHost := mkPeerHost { peerName : string; crowdedness : Z; ph_host : EffectiveHost }.

(** The status of each peer with the moment it lapses, in Redis; [None]: an entry that is no
    status. *)
Definition cache : Type := gmap Z (option StatusResult * Z).

Definition peerStatusTTL : Z := 10 * 60 * 1000000000.

(** [refreshOne]: an answer replaces the entry, a failed call leaves the one there is. *)
Definition refreshOne (now : Z) (peer : Z) (answer : option StatusResult) (c : cache) : cache :=
  match answer with Some st => <[peer := (Some st, now + peerStatusTTL)]> c | None => c end.

Definition lookup (now : Z) (peer : Z) (c : cache) : option StatusResult :=
  match c !! peer with
  | Some (st, lapses) => if now <? lapses then st else None
  | None => None
  end.

Definition str_leb (a b : string) : bool := negb (str_ltb b a).

(** The comparison of [sort.Slice]. *)
Definition less (a b : gatewayPeerHost) : bool :=
  if negb (crowdedness a =? crowdedness b) then crowdedness a <? crowdedness b
  else if negb (h_Priority (ph_host a) =? h_Priority (ph_host b)) then h_Priority (ph_host a) <? h_Priority (ph_host b)
  else if negb (String.eqb (peerName a) (peerName b)) then str_ltb (peerName a) (peerName b)
  else str_ltb (h_Tag (ph_host a)) (h_Tag (ph_host b)).

Definition not_after (a b : gatewayPeerHost) : Prop := less b a = false.
#[export] Instance not_after_dec : RelDecision not_after. Proof. intros a b. unfold not_after. apply _. Defined.

(** [gatherPeerHosts] before the sort, which puts hosts that compare equal in any order. *)
Definition gathered (now : Z) (protocols : list string) (peers : list Settings.GatewayPeer) (c : cache) : list gatewayPeerHost :=
  match protocols with
  | [] => []
  | _ =>
      concat (map (fun p =>
        if Settings.gp_Enabled p then
          match lookup now (Settings.gp_ID p) c with
          | Some st => map (mkPeerHost (Settings.gp_Name p) (Crowdedness st))
                         (List.filter (fun h => str_mem (h_Protocol h) protocols) (Hosts st))
          | None => []
          end
        else []) peers)
  end.

Definition gatherPeerHosts (now : Z) (protocols : list string) (peers : list Settings.GatewayPeer) (c : cache) : list gatewayPeerHost :=
  merge_sort not_after (gathered now protocols peers c).
End hosts.
End Status.
