(* ===== verification/GatewayProps.v ===== *)
(** * GatewayProps: what panels may do to each other's users

    No push, from whatever panel and with whatever content, touches a user of this panel
    ([local_users_safe]); a push that is answered ok leaves a replica that mirrors the
    user it is of ([replica_mirrors]). *)

From stdpp Require Import sorting.
From S2P Require Import Prelude GoStrings ProxySettings Store ReviewJob UserApi UserProps Gateway.

#[local] Open Scope string_scope.
#[local] Open Scope Z_scope.

Module GatewayProps.
Import Store UserApi UserProps Gateway.Sync.

(** ** Triples over the database *)

Definition hoare {E A} (P : Db -> Prop) (m : M E A) (Q : A -> Db -> Prop) (R : Db -> Prop) : Prop :=
  forall w, P (db w) -> match m w with (w', Ok a) => Q a (db w') | (w', Err _) => R (db w') end.

Section hoare.
Context {E : Type}.
Implicit Types (P R : Db -> Prop).

Lemma h_ret {A} P R (a : A) : hoare (E := E) P (mret a) (fun _ => P) R.
Proof. by intros w Hw. Qed.

Lemma h_fail {A} P (e : E) (Q : A -> Db -> Prop) : hoare P (fail e) Q P.
Proof. by intros w Hw. Qed.

Lemma h_bind {A B} P R (m : M E A) (f : A -> M E B) Q Q' : hoare P m Q R -> (forall a, hoare (Q a) (f a) Q' R) -> hoare P (m ≫= f) Q' R.
Proof.
  intros Hm Hf w Hw. specialize (Hm w Hw). unfold mbind, M_bind. destruct (m w) as [w' [a|e]]; [|done]. by apply Hf.
Qed.

Lemma h_or_else {E' A} P R (m : M E' A) (f : E' -> E) Q : hoare P m Q R -> hoare P (or_else m f) Q R.
Proof. intros Hm w Hw. specialize (Hm w Hw). unfold or_else. by destruct (m w) as [w' []]. Qed.

Lemma h_for_each {A} P (f : A -> M E unit) l : (forall x, In x l -> hoare P (f x) (fun _ => P) P) -> hoare P (for_each f l) (fun _ => P) P.
Proof.
  induction l as [|x l IH]; intros Hf; [by intros w Hw|]. apply (h_bind _ _ _ _ (fun _ => P)); [apply Hf; by left|].
  intros _. apply IH. intros y Hy. apply Hf. by right.
Qed.

Lemma h_conseq {A} (P P' : Db -> Prop) (m : M E A) (Q Q' : A -> Db -> Prop) (R R' : Db -> Prop) :
  hoare P' m Q' R' -> (forall d, P d -> P' d) -> (forall a d, Q' a d -> Q a d) -> (forall d, R' d -> R d) -> hoare P m Q R.
Proof. intros Hm HP HQ HR w Hw. specialize (Hm w (HP _ Hw)). destruct (m w) as [w' []]; auto. Qed.

Lemma h_fact {A} (F : Prop) P R (m : M E A) Q : (F -> hoare P m Q R) -> hoare (fun d => P d /\ F) m Q R.
Proof. intros Hm w [Hw HF]. by apply Hm. Qed.
End hoare.

Lemma h_stmt {A} P (q : Db -> result dberror (Db * A)) (Q : A -> Db -> Prop) :
  (forall d d' a, P d -> q d = Ok (d', a) -> Q a d') -> hoare P (stmt q) Q P.
Proof.
  intros Hq w Hw. unfold stmt. destruct (faults w) as [|[] fs]; [|done|]; (destruct (q (db w)) as [[d a]|e] eqn:He; [by eapply Hq|done]).
Qed.

Lemma h_query {A} P (q : Db -> result dberror A) : hoare P (query q) (fun a d => P d /\ q d = Ok a) P.
Proof.
  intros w Hw. pose proof (query_db q w) as Hdb. destruct (query q w) as [w' [a|e]] eqn:He; cbn in *; [|by rewrite Hdb].
  apply query_ok in He as [He _]. by rewrite Hdb.
Qed.

Lemma h_reads {E A} P (m : M E A) : reads m -> hoare P m (fun _ => P) P.
Proof. intros Hm w Hw. specialize (Hm w). destruct (m w) as [w' []]; cbn in *; by rewrite Hm. Qed.

(** ** A user of this panel *)

Section safe.
Context `{ProxySettings.Random} (i : Z) (d0 : Db).

(** The rows of user [i] are as they were. *)
Record untouched (d : Db) : Prop := {
  un_wf : wf d;
  un_user : users d !! i = users d0 !! i;
  un_plan : next_plans d !! i = next_plans d0 !! i;
  un_proxies : forall k q, p_UserID q = i -> proxies d !! k = Some q <-> proxies d0 !! k = Some q;
  un_excluded : forall k q, proxies d0 !! k = Some q -> p_UserID q = i -> exclude_inbounds d !! k = exclude_inbounds d0 !! k;
  un_usage : forall h n, node_user_usages d !! (h, i, n) = node_user_usages d0 !! (h, i, n);
  un_logs : forall x, In (i, x) (user_usage_logs d) <-> In (i, x) (user_usage_logs d0)
}.

(** So they are, and the proxies [ks] are not among them. *)
Definition apart (ks : list Z) (d : Db) : Prop :=
  untouched d /\ forall k q, In k ks -> proxies d !! k = Some q -> p_UserID q <> i.

Definition same_users (d d' : Db) : Prop :=
  users d' = users d /\ next_plans d' = next_plans d /\ node_user_usages d' = node_user_usages d /\ user_usage_logs d' = user_usage_logs d.

Lemma apart_proxies ks d d' : apart ks d -> wf d' -> same_users d d' ->
  (forall k q, p_UserID q = i -> proxies d' !! k = Some q <-> proxies d !! k = Some q) ->
  (forall k q, proxies d !! k = Some q -> p_UserID q = i -> exclude_inbounds d' !! k = exclude_inbounds d !! k) ->
  (forall k q, In k ks -> proxies d' !! k = Some q -> p_UserID q <> i) -> apart ks d'.
Proof.
  intros [[Hw Hu Hp Hx He Hn Hl] Hk] Hw' (E1 & E2 & E3 & E4) Hpx Hex Hks. split; [|done]. constructor; rewrite ?E1, ?E2, ?E4; try done.
  - intros k q Hq. rewrite Hpx by done. by apply Hx.
  - intros k q Hq Hi. rewrite (Hex k q); [by apply (He k q)| |done]. by apply Hx.
  - intros h n. by rewrite E3.
Qed.

Lemma CreateProxy_apart ks uid t s : uid <> i -> hoare (apart ks) (stmt (CreateProxy uid t s)) (fun p => apart (p_ID p :: ks)) (apart ks).
Proof.
  intros Hne. apply h_stmt. intros d d' p Hd Hq. assert (wf d') as Hw' by by eapply CreateProxy_keeps; [apply Hd|].
  unfold CreateProxy in Hq. destruct (users d !! uid); [|done]. injection Hq as <- <-. cbn [p_ID].
  assert (proxies d !! next_id d = None) as Hfresh.
  { apply not_elem_of_dom. by apply (wf_next d (un_wf d (proj1 Hd))). }
  destruct Hd as [Hun Hks].
  assert (apart ks (set_next_id (next_id d + 1) (set_proxies (<[next_id d := mkProxy (next_id d) uid t s]> (proxies d)) d))) as [Hun' Hks'].
  { apply (apart_proxies ks d); [done|done|done| |done|]; cbn.
    - intros k q Hi. rewrite lookup_insert_Some. split; [intros [[<- <-]|[_ ?]]; done|]. intros Hk. right. split; [|done]. intros <-. congruence.
    - intros k q Hk [[<- <-]|[_ Hq]]%lookup_insert_Some; [done|by apply (Hks k)]. }
  split; [done|]. intros k q [<-|Hk]; [|by apply Hks']. cbn. rewrite lookup_insert_eq. by intros [= <-].
Qed.

Lemma UpdateProxySettings_apart ks k s : In k ks -> hoare (apart ks) (stmt (UpdateProxySettings k s)) (fun _ => apart ks) (apart ks).
Proof.
  intros Hin. apply h_stmt. intros d d' [] Hd Hq. assert (wf d') as Hw' by by eapply UpdateProxySettings_keeps; [apply Hd|].
  unfold UpdateProxySettings in Hq. destruct (proxies d !! k) as [p|] eqn:Hp; [|done]. injection Hq as <-.
  pose proof (proj2 Hd k p Hin Hp) as Hne.
  apply (apart_proxies ks d); [done|done|done| |done|]; cbn.
  - intros j q Hi. rewrite lookup_insert_Some. split; [intros [[<- <-]|[_ ?]]; done|]. intros Hj. right. split; [|done]. intros <-. congruence.
  - intros j q Hj [[<- <-]|[_ Hq]]%lookup_insert_Some; [done|by apply (proj2 Hd j)].
Qed.

Lemma DeleteProxyByID_apart ks k : In k ks -> hoare (apart ks) (stmt (DeleteProxyByID k)) (fun _ => apart ks) (apart ks).
Proof.
  intros Hin. apply h_stmt. intros d d' [] Hd Hq. assert (wf d') as Hw' by by eapply DeleteProxyByID_keeps; [apply Hd|].
  injection Hq as <-. apply (apart_proxies ks d); [done|done|done| | |]; cbn.
  - intros j q Hi. rewrite lookup_delete_Some. split; [by intros [_ ?]|]. intros Hj. split; [|done]. intros <-. by apply (proj2 Hd k q).
  - intros j q Hj Hi. rewrite lookup_delete_ne; [done|]. intros <-. by apply (proj2 Hd k q).
  - intros j q Hj [_ Hq]%lookup_delete_Some. by apply (proj2 Hd j).
Qed.

Lemma ReplaceExcluded_apart ks k tags : In k ks -> hoare (apart ks) (stmt (ReplaceExcludedInbounds k tags)) (fun _ => apart ks) (apart ks).
Proof.
  intros Hin. apply h_stmt. intros d d' [] Hd Hq. assert (wf d') as Hw' by by eapply ReplaceExcludedInbounds_keeps; [apply Hd|].
  unfold ReplaceExcludedInbounds in Hq. destruct (negb _); [done|]. destruct (bool_decide _); [|done]. injection Hq as <-.
  apply (apart_proxies ks d); [done|done|done|done| |apply Hd]; cbn.
  intros j q Hj Hi. rewrite lookup_insert_ne; [done|]. intros <-. by apply (proj2 Hd k q).
Qed.

Lemma createProxyForUser_apart uid p s tags : uid <> i -> hoare untouched (createProxyForUser uid p s tags) (fun _ => untouched) untouched.
Proof.
  intros Hne. eapply h_conseq with (P' := apart []) (Q' := fun _ => untouched) (R' := untouched); [|by split|done|done].
  unfold createProxyForUser, run. apply h_bind with (Q := fun p => apart [p_ID p]).
  { apply h_or_else. eapply h_conseq; [by apply CreateProxy_apart|done|done|]. by intros d []. }
  intros q. apply h_bind with (Q := fun _ => apart [p_ID q]).
  { apply h_or_else. eapply h_conseq; [apply h_query|done|by intros ? ? []|by intros ? []]. }
  intros known. destruct (subtractTags known tags); [intros w []; done|]. apply h_or_else.
  eapply h_conseq; [apply (ReplaceExcluded_apart [p_ID q]); by left|done|by intros ? ? []|by intros ? []].
Qed.

Lemma reconcile_apart uid wanted remove b : uid <> i -> hoare untouched (reconcileProxies uid wanted remove b) (fun _ => untouched) untouched.
Proof.
  intros Hne. unfold reconcileProxies, run. apply h_bind with (Q := fun l => apart (map p_ID l)).
  { apply h_or_else. eapply h_conseq; [apply h_query|done| |done]. intros l d [Hd Hl]. split; [done|].
    intros k q (p & <- & Hp)%in_map_iff Hq. pose proof (proj1 (ListProxies_elem uid d l p (un_wf d Hd) Hl) Hp) as [Hp' Hu]. congruence. }
  intros l. eapply h_conseq with (P' := apart (map p_ID l)) (Q' := fun _ => apart (map p_ID l)) (R' := apart (map p_ID l));
    [|done|by intros ? ? []|by intros ? []].
  apply h_bind with (Q := fun _ => apart (map p_ID l)).
  - apply h_for_each. intros [t s] _. destruct (proxy_of l t) as [q|] eqn:Hq.
    + apply h_or_else, UpdateProxySettings_apart. apply proxy_of_spec in Hq as [Hq _]. by apply in_map.
    + apply h_bind with (Q := fun _ => apart (map p_ID l)); [|intros; apply h_ret]. apply h_or_else.
      eapply h_conseq; [by apply CreateProxy_apart|done| |done]. intros p d [Hd Hk]. split; [done|]. intros. by eapply Hk; [right|].
  - intros _. apply h_for_each. intros p Hp. destruct (str_mem _ _); [apply h_ret|]. destruct (_ || b); [|apply h_ret].
    apply h_or_else, DeleteProxyByID_apart. by apply in_map.
Qed.

Lemma update_user_untouched j f : j <> i -> keeps (update_user j f) -> hoare untouched (stmt (update_user j f)) (fun u d => untouched d) untouched.
Proof.
  intros Hne Hk. apply h_stmt. intros d d' u Hd Hq. assert (wf d') as Hw' by by eapply Hk; [apply Hd|].
  apply update_user_ok in Hq as (v & Hv & _ & ->). destruct Hd. constructor; try done; cbn. by rewrite lookup_insert_ne.
Qed.

Lemma DeleteUser_untouched j : j <> i -> hoare untouched (stmt (DeleteUser j)) (fun _ => untouched) untouched.
Proof.
  intros Hne. apply h_stmt. intros d d' ? Hd Hq. assert (wf d') as Hw' by by eapply DeleteUser_keeps; [apply Hd|].
  injection Hq as <-. destruct Hd as [Hw Hu Hp Hx He Hn Hl].
  assert (forall X : gset Z, X = list_to_set [j] -> (i ∈ X <-> False)) as Hni by (intros X ->; set_solver).
  constructor; try done; cbn.
  - rewrite <- Hu. apply option_eq. intros u. rewrite map_lookup_filter_Some. set_solver.
  - rewrite <- Hp. apply option_eq. intros u. rewrite map_lookup_filter_Some. set_solver.
  - intros k q Hq. rewrite <- Hx by done. rewrite map_lookup_filter_Some. split; [by intros [? _]|]. intros Hk. split; [done|]. set_solver.
  - intros k q Hq Hi. rewrite <- (He k q Hq Hi). apply option_eq. intros ts. rewrite map_lookup_filter_Some.
    split; [by intros [? _]|]. intros Hk. split; [done|]. rewrite elem_of_dom. intros [q' [Hq' Hin]%map_lookup_filter_Some].
    apply Hx in Hq; [|done]. rewrite Hq in Hq'. injection Hq' as <-. set_solver.
  - intros h n. rewrite <- Hn. apply option_eq. intros u. rewrite map_lookup_filter_Some. set_solver.
  - intros x. rewrite <- Hl, filter_In. split; [by intros [? _]|]. intros Hin. split; [done|]. apply bool_decide_true. set_solver.
Qed.

Lemma CreateUser_effect now name c a d d' u : CreateUser now name c a d = Ok (d', u) ->
  u = mkUser (next_id d) name c 0 a None now None None None (Some now) /\ find_user name d = None /\
  d' = set_next_id (next_id d + 1) (set_users (<[next_id d := u]> (users d)) d).
Proof.
  intros Hc. destruct (CreateUser_row _ _ _ _ _ _ _ Hc) as [-> Hf]. split; [done|]. split; [done|].
  unfold CreateUser in Hc. repeat case_match; try done. by injection Hc as <-.
Qed.

Lemma CreateGatewaySyncedUser_keeps now req : keeps (CreateGatewaySyncedUser now req).
Proof.
  intros d d' u Hd. unfold CreateGatewaySyncedUser. intros ([d1 u1] & H1 & [= <- <-])%result_bind_ok.
  assert (users d1 !! ID u1 = Some u1) as Hu1.
  { apply CreateUser_effect in H1 as (Eu & _ & Ed). rewrite Ed, Eu. cbn. by rewrite lookup_insert_eq. }
  assert (wf d1) as Hd1 by by eapply CreateUser_keeps. apply set_users_wf; [done| |].
  - rewrite dom_insert_L. assert (ID u1 ∈ dom (users d1)) by (by eapply elem_of_dom_2). set_solver.
  - intros j v [[<- <-]|[_ Hv]]%lookup_insert_Some; [|by exists v; split; [|by eapply row_ok_refl]].
    exists u1. split; [done|]. split_and!; try done; [exact (wf_core _ Hd1 _ _ Hu1)|exact (wf_used _ Hd1 _ _ Hu1)].
Qed.

Lemma CreateGatewaySyncedUser_untouched now req : users d0 !! i <> None -> hoare untouched (stmt (CreateGatewaySyncedUser now req))
  (fun u d => untouched d /\ ID u <> i) untouched.
Proof.
  intros Hsome. apply h_stmt. intros d d' u Hd Hq. assert (wf d') as Hw' by by eapply CreateGatewaySyncedUser_keeps; [apply Hd|].
  unfold CreateGatewaySyncedUser in Hq. apply result_bind_ok in Hq as ([d1 u1] & H1 & [= <- <-]).
  apply CreateUser_effect in H1 as (Eu & _ & ->); subst. assert (next_id d <> i) as Hne.
  { intros E. destruct (wf_next d (un_wf d Hd) (next_id d)) as [Hnu _]; [lia|]. apply not_elem_of_dom in Hnu. apply Hsome.
    by rewrite <- (un_user d Hd), <- E. }
  split; [|done]. destruct Hd. constructor; try done; cbn. by rewrite !lookup_insert_ne.
Qed.
End safe.

Section theorems.
Context `{ProxySettings.Random}.

Lemma safe_push now n req d0 u : wf d0 -> users d0 !! ID u = Some u -> SyncedFromPanelName u = None ->
  hoare (untouched (ID u) d0) (handleGatewaySyncUser now n req) (fun _ => untouched (ID u) d0) (untouched (ID u) d0).
Proof.
  intros Hw0 Hu Hloc. unfold handleGatewaySyncUser. apply h_bind with (Q := fun _ => untouched (ID u) d0); [apply h_reads, reads_ensure|]. intros _.
  apply h_bind with (Q := fun e d => untouched (ID u) d0 d /\ match e with Some v => is_replica v = true -> ID v <> ID u | None => True end).
  { unfold existing_user. intros w Hun. unfold mbind, M_bind. destruct (attempt _ w) as [w1 r] eqn:Hr.
    assert (db w1 = db w /\ (r = Ok (GetUserByUsername (g_Username req) (db w)) \/ exists e, r = Ok (Err e))) as [Hdb Hres].
    { destruct r as [r|e]; [|by unfold attempt in Hr; destruct (query _ w)]. apply attempt_query_ok in Hr as [Hdb [->| ->]]; eauto. }
    destruct Hres as [->|[e ->]].
    - unfold GetUserByUsername. destruct (find_user (g_Username req) (db w)) as [v|] eqn:Hv; cbn; rewrite Hdb; [|done]. split; [done|].
      intros Hrep Heq. unfold find_user in Hv. apply find_some in Hv as [Hin _].
      apply in_map_iff in Hin as ([j v'] & <- & Hin). apply list_elem_of_In, elem_of_map_to_list in Hin. cbn in *.
      pose proof (wf_id _ (un_wf _ _ _ Hun) j v' Hin) as Hj. rewrite <- Hj, Heq, (un_user _ _ _ Hun), Hu in Hin. injection Hin as <-.
      unfold is_replica in Hrep. by rewrite Hloc in Hrep.
    - destruct e; cbn; by rewrite Hdb. }
  intros existing. destruct (Deleted req).
  - unfold remove_replica. destruct existing as [v|]; [|intros w []; done].
    apply h_bind with (Q := fun _ d => untouched (ID u) d0 d /\ ID v <> ID u).
    { intros w [Hun Hrep]. unfold ensure. destruct (is_replica v); cbn; auto. }
    intros _. apply h_fact. intros Hne. apply h_or_else, DeleteUser_untouched. done.
  - apply h_bind with (Q := fun _ d => untouched (ID u) d0 d /\ match existing with Some v => ID v <> ID u | None => True end).
    { intros w [Hun Hrep]. destruct existing as [v|]; [|done]. unfold ensure. destruct (is_replica v); cbn; auto. }
    intros _. apply h_bind with (Q := fun _ d => untouched (ID u) d0 d /\ match existing with Some v => ID v <> ID u | None => True end).
    { intros w [Hun Hne]. pose proof (resolve_reads (g_Proxies req) n w) as Hr. destruct (resolve _ _ w) as [w' []]; cbn in *; by rewrite Hr. }
    intros [wanted rm]. destruct existing as [v|].
    + apply h_fact. intros Hne. unfold update_replica. apply h_bind with (Q := fun row d => untouched (ID u) d0 d /\ ID row <> ID u).
      { apply h_or_else, h_stmt. intros d d' row Hd Hq. pose proof Hq as Hq'. apply update_user_ok in Hq as (x & Hx & [= <-] & ->).
        pose proof (wf_id _ (un_wf _ _ _ Hd) _ _ Hx) as Hid. split; [|cbn; by rewrite Hid].
        assert (wf (set_users (<[ID v:=touch_edit now (with_core (replica_core req (core x)) x)]> (users d)) d)) as Hw'.
        { eapply (update_user_keeps (ID v)); [|exact (un_wf _ _ _ Hd)|exact Hq']. by intros ? ? ? [= <-]. }
        destruct Hd. constructor; try done; cbn. by rewrite lookup_insert_ne. }
      intros row. apply h_fact. intros Hrow. by apply reconcile_apart.
    + apply h_fact. intros _. unfold create_replica. apply h_bind with (Q := fun row d => untouched (ID u) d0 d /\ ID row <> ID u).
      { apply h_or_else, CreateGatewaySyncedUser_untouched. by rewrite Hu. }
      intros row. apply h_fact. intros Hrow. apply h_for_each. intros [p st] _.
      apply h_bind with (Q := fun _ => untouched (ID u) d0); [apply h_reads, reads_run, reads_query|]. intros known. by apply createProxyForUser_apart.
Qed.

Lemma untouched_self i d : wf d -> untouched i d d. Proof. by constructor. Qed.

(** The pushes of any panels, one after the other, whatever fails. *)
Definition pushes (l : list (Z * nat * gatewaySyncPayload)) (w : World) : World :=
  foldl (fun w r => (handleGatewaySyncUser r.1.1 r.1.2 r.2 w).1) w l.

(** C25: Whatever other panels push - any names, contents, deletions, in any order, whatever
    statements fail - a user of this panel keeps its row, its proxies with their secrets
    and exclusions, its next plan, its usage and its history. *)
Theorem local_users_safe l w u :
  wf (db w) -> users (db w) !! ID u = Some u -> SyncedFromPanelName u = None -> untouched (ID u) (db w) (db (pushes l w)).
Proof.
  intros Hw Hu Hloc. unfold pushes. enough (forall w', untouched (ID u) (db w) (db w') ->
    untouched (ID u) (db w) (db (foldl (fun w r => (handleGatewaySyncUser r.1.1 r.1.2 r.2 w).1) w' l))) as Hall by by apply Hall, untouched_self.
  induction l as [|[[now n] req] l IH]; intros w' Hun; [done|]. apply IH. cbn.
  pose proof (safe_push now n req (db w) u Hw Hu Hloc w' Hun) as Hs. by destruct (handleGatewaySyncUser now n req w') as [w2 []].
Qed.
End theorems.

(** ** The replica *)

Section replica.
Context `{ProxySettings.Random}.

(** The user [uid] has a proxy of type [t] with settings [s]. *)
Definition has_proxy (d : Db) (uid : Z) (t : string) (s : ProxySettings.Settings) : Prop :=
  exists k q, proxies d !! k = Some q /\ p_UserID q = uid /\ p_Type q = t /\ p_Settings q = s.

(** The proxies of a user whose type satisfies [T] are the same rows. *)
Definition same_proxies (uid : Z) (T : string -> Prop) (d d' : Db) : Prop :=
  forall k q, p_UserID q = uid -> T (p_Type q) -> proxies d' !! k = Some q <-> proxies d !! k = Some q.

(** At most one proxy of each type. *)
Definition one_each (uid : Z) (d : Db) : Prop := forall k k' q q', proxies d !! k = Some q -> proxies d !! k' = Some q' ->
  p_UserID q = uid -> p_UserID q' = uid -> p_Type q = p_Type q' -> k = k'.

(** [l] lists the proxy of type [t], if there is one. *)
Definition listed (uid : Z) (l : list Proxy) (d : Db) (t : string) : Prop :=
  match proxy_of l t with
  | Some p => p_UserID p = uid /\ p_Type p = t /\ forall k q, p_UserID q = uid -> p_Type q = t -> proxies d !! k = Some q <-> k = p_ID p /\ q = p
  | None => forall k q, proxies d !! k = Some q -> p_UserID q = uid -> p_Type q <> t
  end.

Lemma listed_query uid d l t : wf d -> ListProxiesByUserID uid d = Ok l -> one_each uid d -> listed uid l d t.
Proof.
  intros Hd Hl Hone. unfold listed. pose proof (fun q => ListProxies_elem uid d l q Hd Hl) as Hin. destruct (proxy_of l t) as [p|] eqn:Hp.
  - apply proxy_of_spec in Hp as [Hpl Hpt]. apply Hin in Hpl as [Hpl Hpu]. split; [done|]. split; [done|]. intros k q Hq Ht. split.
    + intros Hk. assert (k = p_ID p) as -> by (eapply Hone; [exact Hk|exact Hpl|done|done|congruence]). split; [done|]. congruence.
    + by intros [-> ->].
  - intros k q Hk Hq Ht. destruct (wf_proxies d Hd k q Hk) as [Hid _].
    assert (In q l) as Hql by (apply Hin; by rewrite Hid).
    unfold proxy_of in Hp. apply in_rev in Hql. apply (find_none _ _ Hp) in Hql. by rewrite Ht, String.eqb_refl in Hql.
Qed.

Lemma listed_same uid l d d' t : same_proxies uid (fun x => x = t) d d' -> listed uid l d t -> listed uid l d' t.
Proof.
  intros Hs. unfold listed. destruct (proxy_of l t) as [p|].
  - intros (E1 & E2 & Hp). split; [done|]. split; [done|]. intros k q Hq Ht. rewrite (Hs k q Hq Ht). by apply Hp.
  - intros Hn k q Hk Hq Ht. rewrite (Hs k q Hq Ht) in Hk. by apply (Hn k q).
Qed.

(** Writing one protocol. *)
Definition write_one (uid : Z) (l : list Proxy) (t : string) (s : ProxySettings.Settings) : M httperr unit :=
  match proxy_of l t with
  | Some p => run (stmt (UpdateProxySettings (p_ID p) s)) ("could not update " ++ t ++ " proxy")
  | None => _ ← run (stmt (CreateProxy uid t s)) ("could not create " ++ t ++ " proxy"); mret tt
  end.

Lemma create_one uid t s d d' q0 : wf d -> CreateProxy uid t s d = Ok (d', q0) ->
  wf d' /\ q0 = mkProxy (next_id d) uid t s /\ proxies d' = <[next_id d := q0]> (proxies d) /\ proxies d !! next_id d = None.
Proof.
  intros Hd Hc. split; [by eapply CreateProxy_keeps|]. assert (proxies d !! next_id d = None) as Hf.
  { apply not_elem_of_dom. by apply (wf_next d Hd). }
  unfold CreateProxy in Hc. destruct (users d !! uid); [|done]. by injection Hc as <- <-.
Qed.

Lemma write_one_ok uid l t s w w' : wf (db w) -> listed uid l (db w) t -> write_one uid l t s w = (w', Ok tt) ->
  wf (db w') /\ users (db w') = users (db w) /\ (forall x, has_proxy (db w') uid t x <-> x = s) /\ same_proxies uid (fun x => x <> t) (db w) (db w').
Proof.
  intros Hw Hl Hr. unfold write_one, listed in *. destruct (proxy_of l t) as [p|].
  - destruct Hl as (Epu & Ept & Hl). apply run_ok, stmt_ok in Hr. assert (wf (db w')) as Hw' by by eapply UpdateProxySettings_keeps.
    assert (proxies (db w) !! p_ID p = Some p) as Hp by by apply (Hl (p_ID p) p).
    unfold UpdateProxySettings in Hr. rewrite Hp in Hr. injection Hr as Ed. rewrite <- Ed. split; [by rewrite Ed|]. split; [done|]. split.
    + intros x. split.
      * intros (k & q & Hq & Hu & Ht & <-). cbn in Hq. apply lookup_insert_Some in Hq as [[<- <-]|[Hne Hq]]; [done|].
        apply (Hl k q Hu Ht) in Hq as [-> _]. done.
      * intros ->. exists (p_ID p), (mkProxy (p_ID p) (p_UserID p) (p_Type p) s). cbn. by rewrite lookup_insert_eq.
    + intros k q Hu Ht. cbn. rewrite lookup_insert_Some. split.
      * intros [[<- <-]|[_ ?]]; [by cbn in Ht|done].
      * intros Hq. right. split; [|done]. intros <-. rewrite Hp in Hq. congruence.
  - apply bind_ok in Hr as (w1 & q0 & Hr%run_ok%stmt_ok & [= <-]). destruct (create_one _ _ _ _ _ _ Hw Hr) as (Hw' & -> & Ep & Hf).
    split; [done|]. split.
    { unfold CreateProxy in Hr. destruct (users (db w) !! uid); [|done]. by injection Hr as <-. } split.
    + intros x. split.
      * intros (k & q & Hq & Hu & Ht & <-). rewrite Ep in Hq. apply lookup_insert_Some in Hq as [[<- <-]|[Hne Hq]]; [done|]. by apply Hl in Hq.
      * intros ->. exists (next_id (db w)), (mkProxy (next_id (db w)) uid t s). by rewrite Ep, lookup_insert_eq.
    + intros k q Hu Ht. rewrite Ep, lookup_insert_Some. split.
      * intros [[<- <-]|[_ ?]]; [by cbn in Ht|done].
      * intros Hq. right. split; [|done]. intros <-. congruence.
Qed.

Lemma has_proxy_same uid (T : string -> Prop) d d' t s : same_proxies uid T d d' -> T t -> has_proxy d' uid t s <-> has_proxy d uid t s.
Proof. intros Hs Ht. unfold has_proxy. split; intros (k & q & Hq & Hu & <- & Hx); exists k, q; (split; [by apply (Hs k q)|done]). Qed.

Lemma write_all uid l wanted : NoDup (map fst wanted) -> forall w w', wf (db w) ->
  (forall t, In t (map fst wanted) -> listed uid l (db w) t) ->
  for_each (fun '(t, s) => write_one uid l t s) wanted w = (w', Ok tt) ->
  wf (db w') /\ users (db w') = users (db w) /\ (forall t s, In t (map fst wanted) -> has_proxy (db w') uid t s <-> In (t, s) wanted) /\
  same_proxies uid (fun t => ~ In t (map fst wanted)) (db w) (db w').
Proof.
  induction wanted as [|[t s] wanted IH]; intros Hnd w w' Hw Hl Hr.
  { injection Hr as <-. split; [done|]. split; [done|]. split; [done|]. by intros k q. }
  cbn [map fst] in Hnd. apply NoDup_cons in Hnd as [Hni Hnd]. rewrite list_elem_of_In in Hni.
  apply bind_ok in Hr as (w1 & [] & H1 & Hr).
  destruct (write_one_ok uid l t s w w1) as (Hw1 & Eu1 & Ht1 & Hs1); [done|apply Hl; by left|done|].
  destruct (IH Hnd w1 w') as (Hw' & Eu & Ht & Hs); [done| |done|].
  { intros t' Ht'. eapply listed_same; [|apply Hl; by right]. intros k q Hq Hx. apply Hs1; [done|]. rewrite Hx. by intros ->. }
  split; [done|]. split; [by rewrite Eu|]. split.
  - intros t' x [<-|Hin]; cbn [fst].
    + rewrite (has_proxy_same uid _ _ _ t x Hs) by done. rewrite Ht1. split; [intros ->; by left|].
      intros [[= <-]|Hin]; [done|]. apply (in_map fst) in Hin. done.
    + rewrite Ht by done. split; [by right|]. intros [[= <- <-]|?]; done.
  - intros k q Hq Hn. cbn in Hn. rewrite (Hs k q) by tauto. apply Hs1; [done|]. intros E. apply Hn. by left.
Qed.

Lemma reconcile_exact uid wanted w w' : wf (db w) -> one_each uid (db w) -> NoDup (map fst wanted) ->
  reconcileProxies uid wanted [] true w = (w', Ok tt) ->
  users (db w') = users (db w) /\ forall t s, has_proxy (db w') uid t s <-> In (t, s) wanted.
Proof.
  intros Hw Hone Hnd Hrun. pose proof (fun p => reconcileProxies_spec uid wanted [] true w w' p Hw Hrun) as Hgone.
  unfold reconcileProxies in Hrun. apply bind_ok in Hrun as (w1 & l & Hl%run_ok & Hrun). apply query_ok in Hl as [Hl Hdb].
  apply bind_ok in Hrun as (w2 & [] & Hwr & Hdel).
  pose proof (fun q => ListProxies_elem uid (db w) l q Hw Hl) as Hin.
  destruct (write_all uid l wanted Hnd w1 w2) as (Hw2 & Eu2 & Ht2 & Hs2); [by rewrite Hdb| |done|].
  { intros t _. rewrite Hdb. by eapply listed_query. }
  rewrite Hdb in Eu2, Hs2. set (here := fun t => In t (map fst wanted)).
  assert (users (db w') = users (db w) /\ same_proxies uid here (db w2) (db w') /\ (forall k q, proxies (db w') !! k = Some q -> proxies (db w2) !! k = Some q)) as (Eu & Hs & Hsub).
  { revert Hdel. apply (for_each_inv (fun w3 => users (db w3) = users (db w) /\ same_proxies uid here (db w2) (db w3) /\ (forall k q, proxies (db w3) !! k = Some q -> proxies (db w2) !! k = Some q))); [|by repeat split].
    intros p w3 w4 Hp (Eu3 & Hs3 & Hsub3) Hst. destruct (str_mem (p_Type p) (map fst wanted)) eqn:Hm; [by injection Hst as <-|].
    rewrite orb_true_r in Hst. apply run_ok, stmt_ok in Hst. injection Hst as <-. cbn. split; [done|].
    assert (~ here (p_Type p)) as Hn by (intros Hh; apply str_mem_spec in Hh; congruence).
    apply Hin in Hp as [Hp Hpu]. split.
    - intros k q Hq Hh. cbn. rewrite lookup_delete_Some. rewrite <- (Hs3 k q) by done. split; [by intros [_ ?]|]. intros Hk. split; [|done]. intros <-.
      apply Hsub3 in Hk. apply (proj2 (Hs2 (p_ID p) p Hpu Hn)) in Hp. rewrite Hp in Hk. congruence.
    - intros k q [_ Hk]%lookup_delete_Some. by apply Hsub3. }
  split; [done|]. intros t s. destruct (in_dec String.string_dec t (map fst wanted)) as [Hh|Hn].
  - rewrite (has_proxy_same uid here _ _ t s Hs Hh). by apply Ht2.
  - split; [|intros Hx; by apply (in_map fst) in Hx].
    intros (k & q & Hq & Hu & <- & _). exfalso. apply Hsub in Hq as Hq2. apply (Hs2 k q Hu Hn) in Hq2.
    destruct (wf_proxies _ Hw k q Hq2) as [<- _]. specialize (Hgone q Hq2 Hu Hn). rewrite orb_true_r in Hgone. congruence.
Qed.

Lemma createProxyForUser_ok uid t s tags w w' : wf (db w) -> createProxyForUser uid t s tags w = (w', Ok tt) ->
  wf (db w') /\ users (db w') = users (db w) /\ forall t' x, has_proxy (db w') uid t' x <-> has_proxy (db w) uid t' x \/ (t', x) = (t, s).
Proof.
  intros Hw Hr. unfold createProxyForUser in Hr. apply bind_ok in Hr as (w1 & q0 & H1%run_ok%stmt_ok & Hr).
  destruct (create_one _ _ _ _ _ _ Hw H1) as (Hw1 & -> & Ep & Hf).
  assert (users (db w1) = users (db w)) as Eu by (unfold CreateProxy in H1; destruct (users (db w) !! uid); [by injection H1 as <-|done]).
  apply bind_ok in Hr as (w2 & known & H2%run_ok & Hr). apply query_ok in H2 as [_ Hdb].
  assert (wf (db w') /\ users (db w') = users (db w1) /\ proxies (db w') = proxies (db w1)) as (Hw' & Eu' & Ep').
  { destruct (subtractTags known tags); [injection Hr as <-; by rewrite Hdb|]. apply run_ok, stmt_ok in Hr. split.
    - eapply ReplaceExcludedInbounds_keeps; [|exact Hr]. by rewrite Hdb.
    - unfold ReplaceExcludedInbounds in Hr. repeat case_match; try done. injection Hr as <-. cbn. by rewrite Hdb. }
  split; [done|]. split; [by rewrite Eu'|]. intros t' x. unfold has_proxy. rewrite Ep', Ep. split.
  - intros (k & q & Hq & Hu & <- & <-). apply lookup_insert_Some in Hq as [[<- <-]|[_ Hq]]; [by right|]. left. by exists k, q.
  - intros [(k & q & Hq & Hu & Ht & Hx)|[= -> ->]].
    + exists k, q. rewrite lookup_insert_ne; [done|]. intros <-. congruence.
    + eexists _, _. by rewrite lookup_insert_eq.
Qed.

Lemma create_all uid wanted : forall w w', wf (db w) ->
  for_each (fun '(protocol, settings) => known ← run (query (ListInboundTagsByProtocol protocol)) "the query's error";
    createProxyForUser uid protocol settings known) wanted w = (w', Ok tt) ->
  wf (db w') /\ users (db w') = users (db w) /\ forall t s, has_proxy (db w') uid t s <-> has_proxy (db w) uid t s \/ In (t, s) wanted.
Proof.
  induction wanted as [|[t s] wanted IH]; intros w w' Hw Hr; [injection Hr as <-; split; [done|]; split; [done|]; cbn; tauto|].
  apply bind_ok in Hr as (w1 & [] & H1 & Hr). apply bind_ok in H1 as (w2 & known & H2%run_ok & H1). apply query_ok in H2 as [_ Hdb].
  destruct (createProxyForUser_ok uid t s known w2 w1) as (Hw1 & Eu1 & Hp1); [by rewrite Hdb|done|].
  destruct (IH w1 w' Hw1 Hr) as (Hw' & Eu & Hp). split; [done|]. split; [by rewrite Eu, Eu1, Hdb|].
  intros t' x. rewrite Hp, Hp1, Hdb. cbn [In]. split; [intros [[?|E]|?]; auto; by left; right; rewrite E in *|]; try tauto.
  - intros [?|[E|?]]; [by left; left|left; right; by rewrite E|by right].
Qed.

(** A push that is answered ok leaves exactly the credentials it names. *)
Lemma push_ok now n req w w' wanted n' : wf (db w) -> Deleted req = false ->
  (forall u, find_user (g_Username req) (db w) = Some u -> one_each (ID u) (db w)) ->
  resolveProxySettings (g_Proxies req) n = Ok (wanted, [], n') -> NoDup (map fst wanted) ->
  handleGatewaySyncUser now n req w = (w', Ok tt) ->
  exists u old, users (db w') !! ID u = Some u /\ Username u = g_Username req /\ is_replica u = true /\ core u = replica_core req old /\
    forall t s, has_proxy (db w') (ID u) t s <-> In (t, s) wanted.
Proof.
  intros Hw Hdel Hone Hres Hnd Hr. unfold handleGatewaySyncUser in Hr. rewrite Hdel in Hr.
  apply bind_ok in Hr as (w1 & [] & [_ ->]%ensure_ok & Hr). apply bind_ok in Hr as (w1 & e & He & Hr).
  assert (db w1 = db w /\ e = find_user (g_Username req) (db w)) as [Hdb ->].
  { unfold existing_user in He. apply bind_ok in He as (w2 & r & Hq & He). apply attempt_query_ok in Hq as [Hdb [-> | ->]].
    - unfold GetUserByUsername in He. destruct (find_user _ _); by injection He as <- <-.
    - done. }
  apply bind_ok in Hr as (w2 & [] & Hchk & Hr). apply bind_ok in Hr as (w3 & [wanted' rm] & Hwr & Hr).
  unfold resolve in Hwr. rewrite Hres in Hwr. injection Hwr as <- <- <-.
  destruct (find_user (g_Username req) (db w)) as [v|] eqn:Hv.
  - apply ensure_ok in Hchk as [Hrep ->]. unfold update_replica in Hr. apply bind_ok in Hr as (w3 & row & Hup%run_ok%stmt_ok & Hr).
    pose proof Hup as Hup'. apply update_user_ok in Hup as (x & Hx & [= <-] & Ed). rewrite Hdb in Hx, Hup'.
    assert (wf (db w3)) as Hw3 by (eapply (update_user_keeps (ID v)); [|exact Hw|exact Hup']; by intros ? ? ? [= <-]).
    assert (In v (map snd (map_to_list (users (db w)))) /\ Username v = g_Username req) as [Hin Hname].
    { unfold find_user in Hv. apply find_some in Hv as [? ?%String.eqb_eq]. done. }
    apply in_map_iff in Hin as ([j v'] & Ev & Hin). cbn in Ev. subst v'. apply list_elem_of_In, elem_of_map_to_list in Hin.
    pose proof (wf_id _ Hw j v Hin) as Hj. rewrite <- Hj, Hx in Hin. injection Hin as ->.
    destruct (reconcile_exact (ID v) wanted w3 w') as (Eu & Hp); [done| |done|exact Hr|].
    { rewrite Ed. cbn. rewrite Hdb. by apply Hone. }
    exists (touch_edit now (with_core (replica_core req (core v)) v)), (core v). split; [|done].
    rewrite Eu, Ed. cbn. by rewrite lookup_insert_eq.
  - injection Hchk as <-. unfold create_replica in Hr. apply bind_ok in Hr as (w3 & row & Hc & Hr).
    apply or_else_ok, stmt_ok in Hc. rewrite Hdb in Hc. pose proof (CreateGatewaySyncedUser_keeps now req _ _ _ Hw Hc) as Hw3.
    unfold CreateGatewaySyncedUser in Hc. apply result_bind_ok in Hc as ([d1 u1] & H1 & [= Ed <-]).
    apply CreateUser_effect in H1 as (Eu1 & _ & Ed1). destruct (create_all _ wanted w3 w' Hw3 Hr) as (Hw' & Eu & Hp).
    exists (with_origin (OriginPanelName req) u1), no_core. split; [|split; [by rewrite Eu1|split; [done|split; [by rewrite Eu1|]]]].
    + rewrite Eu, <- Ed. cbn. by rewrite lookup_insert_eq.
    + intros t s. rewrite Hp. split; [|by right]. intros [(k & q & Hq & Hu & _)|?]; [|done]. exfalso.
      rewrite <- Ed, Ed1, Eu1 in Hq. cbn in Hq. destruct (wf_proxies _ Hw k q Hq) as [_ Hdom].
      rewrite Hu, Eu1 in Hdom. cbn in Hdom. by destruct (wf_next _ Hw (next_id (db w))) as [? _]; [lia|].
Qed.

(** *** What arrives of a stored proxy *)

(** The receiver decodes with [FromWire], which turns an empty VLESS flow into Vision. *)
Definition with_vision (s : ProxySettings.Settings) : ProxySettings.Settings :=
  match s with
  | ProxySettings.VLESSSettings id flow => ProxySettings.VLESSSettings id (if String.eqb flow "" then ProxySettings.FlowVision else flow)
  | _ => s
  end.

Abbreviation name_of s := (ProxySettings.type_name (ProxySettings.type_of s)).

Lemma FromWire_MarshalJSON s n : ProxySettings.complete s ->
  ProxySettings.FromWire (name_of s) (ProxySettings.MarshalJSON s) n = Ok (with_vision s, n).
Proof.
  intros [Hs Hm]. unfold ProxySettings.FromWire, ProxySettings.parse_type. rewrite ProxySettings.Valid_name.
  destruct s as [| | |p [|c m]| | | |]; simpl in Hs; decompose_Forall_hyps;
    try (by destruct Hm); cbv -[ProxySettings.fill ProxySettings.newUUID ProxySettings.randomPassword];
    by rewrite !ProxySettings.fill_kept by done.
Qed.

Lemma resolve_stored ss n : Forall ProxySettings.complete ss ->
  resolveProxySettings (map (fun s => (name_of s, ProxySettings.MarshalJSON s)) ss) n = Ok (map (fun s => (name_of s, with_vision s)) ss, [], n).
Proof.
  induction 1 as [|s ss Hs _ IH]; [done|]. cbn [map resolveProxySettings]. rewrite ProxySettings.Valid_name, (FromWire_MarshalJSON s n Hs), IH.
  by destruct s.
Qed.

Lemma MarshalJSON_inj s s' : name_of s = name_of s' -> ProxySettings.MarshalJSON s = ProxySettings.MarshalJSON s' -> s = s'.
Proof. destruct s, s'; cbn; try done; intros _ Hm; by injection Hm; intros; subst. Qed.

Lemma last_payload ps : forall (m : gmap string ProxySettings.payload) t pl,
  foldl (fun m p => <[p_Type p := ProxySettings.MarshalJSON (p_Settings p)]> m) m ps !! t = Some pl ->
  m !! t = Some pl \/ exists p, In p ps /\ p_Type p = t /\ pl = ProxySettings.MarshalJSON (p_Settings p).
Proof.
  induction ps as [|p ps IH]; intros m t pl; cbn [foldl]; [by left|]. intros [Hm|(p' & ? & ?)]%IH; [|right; exists p'; split; [by right|done]].
  apply lookup_insert_Some in Hm as [[Ht <-]|[_ Hm]]; [|by left]. right. exists p. split; [by left|done].
Qed.

Lemma payload_of ps p : NoDup (map p_Type ps) -> In p ps ->
  forall m : gmap string ProxySettings.payload, foldl (fun m p => <[p_Type p := ProxySettings.MarshalJSON (p_Settings p)]> m) m ps !! p_Type p = Some (ProxySettings.MarshalJSON (p_Settings p)).
Proof.
  induction ps as [|q ps IH]; intros Hnd Hin m; [done|]. cbn [map] in Hnd. apply NoDup_cons in Hnd as [Hni Hnd]. cbn [foldl].
  destruct Hin as [->|Hin]; [|by apply IH]. destruct (foldl _ _ ps !! p_Type p) as [pl|] eqn:Hf.
  - apply last_payload in Hf as [Hf|(p' & Hin & Ht & _)]; [by rewrite lookup_insert_eq in Hf|].
    exfalso. apply Hni, list_elem_of_In. rewrite <- Ht. by apply in_map.
  - assert (forall ps (m : gmap string ProxySettings.payload) t, is_Some (m !! t) -> is_Some (foldl (fun m p => <[p_Type p := ProxySettings.MarshalJSON (p_Settings p)]> m) m ps !! t)) as Hkeep.
    { clear. induction ps as [|q ps IH]; intros m t Hm; [done|]. apply IH. destruct (decide (p_Type q = t)) as [<-|Hne];
        [rewrite lookup_insert_eq; eauto|by rewrite lookup_insert_ne]. }
    destruct (Hkeep ps (<[p_Type p := ProxySettings.MarshalJSON (p_Settings p)]> m) (p_Type p)) as [x Hx]; [rewrite lookup_insert_eq; eauto|]. congruence.
Qed.

Lemma proxyPayload_settings ps : NoDup (map p_Type ps) -> (forall p, In p ps -> p_Type p = name_of (p_Settings p)) ->
  exists ss, proxyPayload ps = map (fun s => (name_of s, ProxySettings.MarshalJSON s)) ss /\ NoDup (map (fun s => name_of s) ss) /\
    forall s, In s ss <-> exists p, In p ps /\ p_Settings p = s.
Proof.
  intros Hnd Hty. unfold proxyPayload. set (m := foldl _ _ ps).
  assert (forall l, (forall kv, In kv l -> m !! kv.1 = Some kv.2) ->
    exists ss, l = map (fun s => (name_of s, ProxySettings.MarshalJSON s)) ss /\ forall s, In s ss -> exists p, In p ps /\ p_Settings p = s) as Hlist.
  { induction l as [|[t pl] l IH]; intros Hl; [by exists []|]. destruct IH as (ss & -> & Hss); [intros; apply Hl; by right|].
    pose proof (Hl (t, pl) (or_introl eq_refl)) as Hpl. cbn in Hpl. apply last_payload in Hpl as [Hpl|(p & Hp & <- & ->)]; [by rewrite lookup_empty in Hpl|].
    exists (p_Settings p :: ss). cbn. rewrite (Hty p Hp). split; [done|]. intros s [<-|Hs]; [by exists p|by apply Hss]. }
  destruct (Hlist (map_to_list m)) as (ss & Ess & Hss).
  { intros [k v] Hin. apply list_elem_of_In, elem_of_map_to_list in Hin. done. }
  exists ss. split; [done|]. split.
  - pose proof (NoDup_fst_map_to_list m) as Hn. unfold fmap in Hn. change (list_fmap _ _ fst (map_to_list m)) with (map fst (map_to_list m)) in Hn.
    rewrite Ess, map_map in Hn. exact Hn.
  - intros s. split; [apply Hss|]. intros (p & Hp & <-). pose proof (payload_of ps p Hnd Hp ∅) as Hl. fold m in Hl.
    apply elem_of_map_to_list, list_elem_of_In in Hl. rewrite Ess in Hl. apply in_map_iff in Hl as (s & Es & Hs). pose proof (f_equal fst Es) as E1. pose proof (f_equal snd Es) as E2.
    cbn [fst] in E1. rewrite (Hty p Hp) in E1. by rewrite (MarshalJSON_inj _ _ E1 E2) in Hs.
Qed.

(** C26: A push of a user of one panel that a peer answers with ok leaves the peer with a
    replica of the same name, status, limit, strategy and expiry whose credentials are
    exactly the user's - whatever the replica held before - but that an empty VLESS flow
    has become Vision. *)
Theorem replica_mirrors now n name wo wo' u ps p wp wp' :
  wf (db wo) -> users (db wo) !! ID u = Some u -> Expire (core u) = None \/ (exists e, Expire (core u) = Some e /\ fits 32 e) ->
  ListProxiesByUserID (ID u) (db wo) = Ok ps -> NoDup (map p_Type ps) ->
  (forall q, In q ps -> p_Type q = name_of (p_Settings q) /\ ProxySettings.complete (p_Settings q)) ->
  dispatchGatewayUserSync u wo = (wo', Some p) ->
  wf (db wp) -> (forall v, find_user (Username u) (db wp) = Some v -> one_each (ID v) (db wp)) ->
  handleGatewaySyncUser now n (from_panel name p) wp = (wp', Ok tt) ->
  exists r, users (db wp') !! ID r = Some r /\ Username r = Username u /\ is_replica r = true /\
    Status (core r) = Status (core u) /\ DataLimit (core r) = DataLimit (core u) /\
    DataLimitResetStrategy (core r) = DataLimitResetStrategy (core u) /\ Expire (core r) = Expire (core u) /\
    forall t s, has_proxy (db wp') (ID r) t s <-> exists q, In q ps /\ p_Type q = t /\ s = with_vision (p_Settings q).
Proof.
  intros Hwo Hu Hexp Hps Hnd Hty Hd Hwp Hone Hr. unfold dispatchGatewayUserSync in Hd. destruct (is_replica u); [done|].
  destruct (query (ListProxiesByUserID (ID u)) wo) as [w1 [ps'|e]] eqn:Hq; [|done]. apply query_ok in Hq as [Hq _]. rewrite Hps in Hq.
  injection Hq as <-. injection Hd as <- <-.
  destruct (proxyPayload_settings ps Hnd (fun q Hq => proj1 (Hty q Hq))) as (ss & Ess & Hnn & Hss).
  destruct (push_ok now n (from_panel name (mkPayload "" (Username u) false (Status (core u)) (DataLimit (core u))
    (DataLimitResetStrategy (core u)) (Expire (core u)) (proxyPayload ps))) wp wp' (map (fun s => (name_of s, with_vision s)) ss) n Hwp eq_refl Hone) as (r & old & Hr1 & Hr2 & Hr3 & Hr4 & Hp); [| |exact Hr|].
  - cbn. rewrite Ess. apply resolve_stored, Forall_forall. intros s Hs. apply list_elem_of_In, Hss in Hs as (q & Hq & <-). by apply Hty.
  - rewrite map_map. exact Hnn.
  - exists r. split; [done|]. split; [done|]. split; [done|]. rewrite Hr4. cbn. split; [done|]. split; [done|]. split; [|split].
    + unfold strOr. pose proof (wf_core _ Hwo _ _ Hu) as Hc. unfold core_ok in Hc. go_bool.
      destruct (String.eqb_spec (DataLimitResetStrategy (core u)) "") as [E|]; [|done]. by rewrite E in *.
    + unfold pgInt4FromPtrInt64. destruct Hexp as [-> |(e & -> & He)]; [done|]. cbn. f_equal. by apply (wrap_id 32).
    + intros t s. rewrite Hp, in_map_iff. split.
      * intros (x & [= <- <-] & Hx). apply Hss in Hx as (q & Hq & <-). exists q. split; [done|]. split; [by apply Hty|done].
      * intros (q & Hq & <- & ->). exists (p_Settings q). rewrite (proj1 (Hty q Hq)). split; [done|]. apply Hss. by exists q.
Qed.
End replica.

(** ** A concrete pair of panels *)

Import ReviewJob.
#[local] Existing Instance ProxySettings.tally_random.

Definition stolen : gatewaySyncPayload := mkPayload "far" "ali" true "" None "" None [].
Definition shadow : gatewaySyncPayload :=
  mkPayload "far" "shadow" false "active" (Some 7) "" None [("vless", ProxySettings.PObject [("id", ProxySettings.JString "x")])].
Definition from_another : gatewaySyncPayload := mkPayload "third" "shadow" true "" None "" None [].

Lemma local_users_safe_witness :
  untouched 1 demo_db (db (pushes [(noon, 0%nat, stolen); (noon, 0%nat, shadow); (noon, 0%nat, from_another)] w0)).
Proof.
  apply (local_users_safe [(noon, 0%nat, stolen); (noon, 0%nat, shadow); (noon, 0%nat, from_another)] w0
    (demo_user 1 "ali" "active" 100 (Some 100) None None None)); [apply demo_wf|reflexivity|reflexivity].
Defined.

Definition kaveh_push : gatewaySyncPayload :=
  match (dispatchGatewayUserSync created_user created).2 with Some p => p | None => stolen end.

Definition peer_after : World := (handleGatewaySyncUser noon 0 (from_panel "home" kaveh_push) w0).1.

Lemma replica_mirrors_witness : exists r, users (db peer_after) !! ID r = Some r /\ Username r = "kaveh" /\ Expire (core r) = Some 1900000000.
Proof.
  destruct (replica_mirrors noon 0 "home" created (dispatchGatewayUserSync created_user created).1 created_user
    [mkProxy 5 4 "vless" (ProxySettings.VLESSSettings (ProxySettings.newUUID 0) "xtls-rprx-vision")] kaveh_push w0 peer_after)
    as (r & Hr & Hn & _ & _ & _ & _ & He & _).
  - exact created_wf.
  - vm_compute. reflexivity.
  - right. exists 1900000000. split; [reflexivity|]. split; vm_compute; congruence.
  - vm_compute. reflexivity.
  - repeat constructor. set_solver.
  - intros q [<-|[]]. split; [reflexivity|]. vm_compute. split; [repeat constructor; discriminate|done].
  - vm_compute. reflexivity.
  - exact demo_wf.
  - intros v Hv. vm_compute in Hv. discriminate.
  - vm_compute. reflexivity.
  - exists r. split; [exact Hr|]. split; [exact Hn|exact He].
Defined.

(** A panel that knows the secret may remove the replica of a user another panel owns: the
    origin is stored and never compared. *)
Example any_panel_removes :
  (exists u, find_user "shadow" (db (pushes [(noon, 0%nat, shadow)] w0)) = Some u /\ SyncedFromPanelName u = Some "far") /\
  find_user "shadow" (db (pushes [(noon, 0%nat, shadow); (noon, 0%nat, from_another)] w0)) = None.
Proof. vm_compute. eauto. Qed.

(** The period of a held user is not pushed: when the replica's user first connects through
    the peer, the hold ends there and the account never expires. *)
Definition held_push : gatewaySyncPayload := mkPayload "far" "late" false "on_hold" None "" None [].

Example hold_has_no_period :
  match stmt (BulkIncrementUserUsage (noon + 5000000) [(4, 1)]) (handleGatewaySyncUser noon 0 held_push w0).1 with
  | (w, Ok tt) => (fun u => (Status (core u), Expire (core u))) <$> users (db (review (noon + 9000000) (noon + 9000000) w).1) !! 4
  | _ => None
  end = Some ("active", None).
Proof. vm_compute. reflexivity. Qed.

(** A stored VLESS proxy without a flow gets one on the peer. *)
Definition flowless_push : gatewaySyncPayload :=
  mkPayload "far" "plain" false "active" None "" None (proxyPayload [mkProxy 9 9 "vless" (ProxySettings.VLESSSettings "x" "")]).

Example vision_is_forced :
  let d := db (handleGatewaySyncUser noon 0 flowless_push w0).1 in
  map (fun kv => p_Settings kv.2) (map_to_list (proxies d)) = [ProxySettings.VLESSSettings "x" ProxySettings.FlowVision].
Proof. vm_compute. reflexivity. Qed.
End GatewayProps.
