(* ===== verification/SubBody.v ===== *)
(** * SubBody: what a subscription request is answered with

    [UserVars] is the variables of a user ([internal/subscription/vars.go]); [Body] the walk
    over a user's hosts and the document in the client's format
    ([internal/httpapi/subscription.go]). *)

From stdpp Require Import sorting.
From S2P Require Import Prelude GoStrings GoFloat GoTime Base64 GoUrl GoJson ProxySettings Store UserApi LoadMap NodeConfig Share Subscription ClientDocs Gateway.

#[local] Open Scope string_scope.
#[local] Open Scope Z_scope.

(** ** The variables of a user: [vars.go] *)

Module UserVars.
Import GoFloat GoTime.

(** [fmt.Sprintf("%.2f", x)] *)
Definition fixed2 (x : float64) : string :=
  let n := div_even (Z.abs (num x) * 100) (den x) in
  (if num x <? 0 then "-" else "") ++ Itoa (n / 100) ++ "." ++ two (n mod 100).

Fixpoint readable (units : list string) (size : float64) : string :=
  match units with
  | [] => fixed2 size ++ " YB"
  | unit :: units => if flt size (of_int 1024) then fixed2 size ++ " " ++ unit else readable units (fdiv size (of_int 1024))
  end.

Definition ReadableSize (bytes : Z) : string := readable ["B"; "KB"; "MB"; "GB"; "TB"; "PB"; "EB"; "ZB"; "YB"] (of_int bytes).

Record UserInfo := mkInfo {
  Username : string; Status : string; UsedTraffic : Z; DataLimit : option Z; Expire : option Z; OnHold : bool; OnHoldDuration : option Z
}.

Definition statusEmoji (status : string) : string :=
  if String.eqb status "active" then "✅"
  else if String.eqb status "on_hold" then "🔌"
  else if String.eqb status "limited" then "🪫"
  else if String.eqb status "expired" then "⌛️"
  else if String.eqb status "disabled" then "❌"
  else "❓".

Definition daysFromSeconds (seconds : option Z) : string :=
  match seconds with
  | Some s => if s =? 0 then "∞" else Itoa (Z.quot s 86400)
  | None => "∞"
  end.

Definition Hour : Z := 3600 * 1000000000.

(** [Duration.Hours]. *)
Definition Hours (d : Z) : float64 :=
  fadd (of_int (Z.quot d Hour)) (fdiv (of_int (Z.rem d Hour)) (of_int Hour)).

Definition formatTimeLeft (d : Z) : string :=
  let totalHours := Trunc (Hours d) in
  let months := Z.quot totalHours (24 * 30) in
  let totalHours := totalHours - months * 24 * 30 in
  let days := Z.quot totalHours 24 in
  let hours := totalHours - days * 24 in
  (if 0 <? months then Itoa months ++ "m " else "") ++
  (if (0 <? days) || (0 <? months) then Itoa days ++ "d " else "") ++ Itoa hours ++ "h".

(** [Format("2006-01-02")] of a second, for the years of four digits. *)
Definition date_of (seconds : Z) : string :=
  let '(y, m, d) := civil_from_days (seconds / 86400) in four y ++ "-" ++ two m ++ "-" ++ two d.

(** [time.Until], in nanoseconds. *)
Definition Until (now at_ : Z) : Z := Z.max (- 2 ^ 63) (Z.min (2 ^ 63 - 1) (at_ - now)).

Definition fmin (x y : float64) : float64 := if flt y x then y else x.

Definition limit_vars (u : UserInfo) (v : Vars.Variables) : Vars.Variables :=
  match DataLimit u with
  | Some limit =>
      if 0 <? limit then
        let left := Z.max 0 (int64 (limit - UsedTraffic u)) in
        <["USAGE_PERCENTAGE" := fixed2 (fmin (of_int 100) (fdiv (fmul (of_int (UsedTraffic u)) (of_int 100)) (of_int limit)))]>
          (<["DATA_LEFT" := ReadableSize left]> (<["DATA_LIMIT" := ReadableSize limit]> v))
      else <["USAGE_PERCENTAGE" := "∞"]> (<["DATA_LEFT" := "∞"]> (<["DATA_LIMIT" := "∞"]> v))
  | None => <["USAGE_PERCENTAGE" := "∞"]> (<["DATA_LEFT" := "∞"]> (<["DATA_LIMIT" := "∞"]> v))
  end.

Definition expiry_vars (now : Z) (u : UserInfo) (v : Vars.Variables) : Vars.Variables :=
  if OnHold u then
    <["TIME_LEFT" := "∞"]> (<["EXPIRE_DATE" := "-"]> (<["DAYS_LEFT" := daysFromSeconds (OnHoldDuration u)]> v))
  else match default 0 (Expire u) with
       | 0 => <["TIME_LEFT" := "∞"]> (<["EXPIRE_DATE" := "∞"]> (<["DAYS_LEFT" := "∞"]> v))
       | e =>
           let remaining := Until now (e * 1000000000) in
           let v := if remaining <? 0 then <["TIME_LEFT" := "0"]> (<["DAYS_LEFT" := "0"]> v)
                    else <["TIME_LEFT" := formatTimeLeft remaining]>
                           (<["DAYS_LEFT" := Itoa (Trunc (fdiv (Hours remaining) (of_int 24)))]> v) in
           <["EXPIRE_DATE" := date_of e]> v
       end.

(** [BuildVariables] at the time [now], in nanoseconds. *)
Definition BuildVariables (now : Z) (u : UserInfo) (serverIP : string) : Vars.Variables :=
  let v : Vars.Variables := list_to_map [("SERVER_IP", serverIP); ("USERNAME", Username u); ("DATA_USAGE", ReadableSize (UsedTraffic u))] in
  <["STATUS_TEXT" := Status u]> (<["STATUS_EMOJI" := statusEmoji (Status u)]> (expiry_vars now u (limit_vars u v))).

(** [toSubUserInfo]. *)
Definition toSubUserInfo (u : Store.User) : UserInfo :=
  let c := Store.core u in
  let held := String.eqb (Store.Status c) "on_hold" in
  mkInfo (Store.Username u) (Store.Status c) (Store.UsedTraffic u) (Store.DataLimit c) (Store.Expire c)
    held (if held then Store.OnHoldExpireDuration c else None).

Example sizes : map ReadableSize [0; 1023; 1536; 10995116277760] = ["0.00 B"; "1023.00 B"; "1.50 KB"; "10.00 TB"].
Proof. vm_compute. reflexivity. Qed.

Example dates : map date_of [0; 1709164800; -1; 2147483647] = ["1970-01-01"; "2024-02-29"; "1969-12-31"; "2038-01-19"].
Proof. vm_compute. reflexivity. Qed.

Example time_left : formatTimeLeft (((2 * 30 + 5) * 24 + 3) * Hour + 5) = "2m 5d 3h".
Proof. vm_compute. reflexivity. Qed.
End UserVars.

(** ** The answer: [subscription.go] *)

Module Body.
Import Store NodeConfig Effective Links ClientDocs Vars HostOrder.

(** What a peer's status says of a host besides what the merge sorts by. *)
Abbreviation peer_host := (string * EffectiveInbound)%type.

(** The tables and settings a subscription is built from, other than the users. *)
Record Panel := mkPanel {
  catalog : list InboundRow; host_rows : list Host; peers : list Settings.GatewayPeer; peer_cache : @Status.cache peer_host;
  publicIP : string; loadIndicator : bool; sortByLoad : bool; snap : option LoadMap.Snapshot;
  clash_template : option doc; v2ray_template : option doc
}.

(** *** Statements *)

Definition enabled (h : Host) : bool := negb (default false (hs_IsDisabled h)).

Definition by_priority (a b : Host) : Prop := hs_Priority a < hs_Priority b \/ (hs_Priority a = hs_Priority b /\ hs_ID a <= hs_ID b).
#[export] Instance by_priority_dec : RelDecision by_priority. Proof. intros a b. unfold by_priority. apply _. Defined.

Definition ListHostsByInboundTags (P : Panel) (tags : list string) : list Host :=
  merge_sort by_priority (List.filter (fun h => str_mem (hs_InboundTag h) tags && enabled h) (host_rows P)).

Definition ListInboundsByTags (P : Panel) (tags : list string) : list InboundRow :=
  List.filter (fun i => str_mem (i_Tag i) tags) (catalog P).

Definition ListExcludedInboundTags (proxy : Z) (d : Db) : result dberror (list string) := Ok (default [] (exclude_inbounds d !! proxy)).

Section Body.
Context `{ProxySettings.Random} `{Token.Crypto} `{LoadMap.FloatToInt}.

(** *** The walk: [forEachUserHost] *)

(** One host of the loop; a host of an inbound that is gone is passed over. *)
Definition walk_host (inboundByTag : gmap string InboundRow) (p : Proxy) (s : ProxySettings.Settings) (h : Host) : option walked :=
  i ← inboundByTag !! hs_InboundTag h;
  Some (mkWalked (p_Type p) s (hs_ID h) (hs_Remark h) (hs_Address h) (BuildEffectiveInbound i h)).

(** Whatever cannot be read of a proxy passes its hosts over. *)
Definition walk_proxy (P : Panel) (p : Proxy) (s : ProxySettings.Settings) : M UserApi.httperr (list walked) :=
  known ← attempt (query (ListInboundTagsByProtocol (p_Type p)));
  match known with
  | Err _ => mret []
  | Ok known =>
      excluded ← attempt (query (ListExcludedInboundTags (p_ID p)));
      match excluded with
      | Err _ => mret []
      | Ok excluded =>
          match UserApi.subtractTags known excluded with
          | [] => mret []
          | includedTags =>
              allHosts ← attempt (query (fun _ => Ok (ListHostsByInboundTags P includedTags)));
              match allHosts with
              | Err _ => mret []
              | Ok allHosts =>
                  inbounds ← attempt (query (fun _ => Ok (ListInboundsByTags P includedTags)));
                  match inbounds with
                  | Err _ => mret []
                  | Ok inbounds =>
                      mret (omap (walk_host (foldl (fun m i => <[i_Tag i := i]> m) ∅ inbounds) p s) allHosts)
                  end
              end
          end
      end
  end.

(** The loop over the proxies; [n] counts the identifiers drawn for stored blanks. *)
Fixpoint walk (P : Panel) (ps : list Proxy) (byProtocol : gmap string ProxySettings.Settings) (n : nat) :
  M UserApi.httperr (gmap string ProxySettings.Settings * list walked) :=
  match ps with
  | [] => mret (byProtocol, [])
  | p :: ps =>
      match ProxySettings.FromStored (p_Type p) (ProxySettings.MarshalJSON (p_Settings p)) n with
      | Err _ => walk P ps byProtocol n
      | Ok (s, n) =>
          l ← walk_proxy P p s;
          '(byProtocol, l') ← walk P ps (<[p_Type p := s]> byProtocol) n;
          mret (byProtocol, (l ++ l')%list)
      end
  end.

(** A call of [fn]. *)
Record entry := mkEntry { en_settings : ProxySettings.Settings; en_remark : string; en_address : string; en_eff : EffectiveInbound }.

Definition local_entry (p : pendingHost) : entry :=
  mkEntry (wk_settings (HostOrder.ph_host p)) (ph_remark p) (ph_address p) (wk_eff (HostOrder.ph_host p)).

(** The peers' hosts, over the map of variables the local hosts left. *)
Definition peer_entry (byProtocol : gmap string ProxySettings.Settings) (acc : Variables * list entry) (ph : @Status.gatewayPeerHost peer_host) :
  Variables * list entry :=
  let '(vars, out) := acc in
  let h := Status.ph_host ph in
  let '(template, eff) := Status.h_rest h in
  match byProtocol !! Status.h_Protocol h with
  | None => acc
  | Some s =>
      let vars := <["TRANSPORT" := Network eff]> (<["PROTOCOL" := Status.h_Protocol h]> vars) in
      let '(vars, remark) := peerRemark (Status.peerName ph) template vars in
      (vars, (out ++ [mkEntry s remark (Format vars (Address eff)) eff])%list)
  end.

Definition forEachUserHost (P : Panel) (now : Z) (n : nat) (user : User) : M UserApi.httperr (list entry) :=
  proxies ← or_else (query (ListProxiesByUserID (ID user))) (fun _ => (500, "Could not read proxies"));
  '(byProtocol, hosts) ← walk P proxies ∅ n;
  let vars := UserVars.BuildVariables now (UserVars.toSubUserInfo user) (publicIP P) in
  let local := local_hosts (loadIndicator P) (sortByLoad P) (snap P) vars hosts in
  let vars := (render_all (loadIndicator P) (sortByLoad P) (snap P) vars hosts).1 in
  let ph := Status.gatherPeerHosts now (map fst (map_to_list byProtocol)) (peers P) (peer_cache P) in
  mret (map local_entry local ++ (foldl (peer_entry byProtocol) (vars, []) ph).2)%list.

(** *** The document *)

Inductive body := JsonBody (j : json) | YamlBody (d : doc) | TextBody (text : string).

Definition entry_link (e : entry) : option string := BuildLink (en_remark e) (en_address e) (en_eff e) (en_settings e).

Definition singBoxOutbounds (l : list entry) : list doc := omap (fun e => SingBoxOutbound (en_remark e) (en_address e) (en_eff e) (en_settings e)) l.

Definition clashProxies (isMeta : bool) (l : list entry) : list doc :=
  omap (fun e => ClashProxy (en_remark e) (en_address e) (en_eff e) (en_settings e) isMeta) l.

Fixpoint outlineServers (index : nat) (l : list entry) : list json :=
  match l with
  | [] => []
  | e :: l =>
      match OutlineServer (OutlineServerID index) (en_remark e) (en_address e) (en_eff e) (en_settings e) with
      | Some j => j :: outlineServers (S index) l
      | None => outlineServers index l
      end
  end.

Definition v2rayConfigs (template : option doc) (l : list entry) : list doc :=
  omap (fun e => V2rayJSONConfig (en_remark e) (en_address e) (en_eff e) (en_settings e) template) l.

(** [strings.Join(links, "\n")] *)
Definition newline : string := String "010" "".
Definition links_text (l : list entry) : string := Join (omap entry_link l) newline.

Definition document (P : Panel) (format : string) (l : list entry) : body :=
  if String.eqb format "sing-box" then JsonBody (SingBoxConfig (singBoxOutbounds l))
  else if str_mem format ["clash"; "clash-meta"] then YamlBody (ClashConfig (clashProxies (String.eqb format "clash-meta") l) (clash_template P))
  else if String.eqb format "outline" then JsonBody (OutlineConfig (outlineServers 0 l))
  else if String.eqb format "v2ray-json" then JsonBody (V2rayJSONArray (v2rayConfigs (v2ray_template P) l))
  else TextBody (Base64.StdEncode (links_text l)).

Definition contentType (format : string) : string :=
  if str_mem format ["sing-box"; "outline"; "v2ray-json"] then "application/json"
  else if str_mem format ["clash"; "clash-meta"] then "text/yaml"
  else "text/plain; charset=utf-8".

(** *** Headers *)

(** Branding and the request as far as the headers show them. *)
Record Request := mkReq {
  rq_Accept : string; rq_UserAgent : string; rq_Host : string; rq_URI : string; rq_TLS : bool; rq_ForwardedProto : string
}.
Record Branding := mkBranding { UpdateInterval : string; SupportURL : string; subURLPrefix : string }.

Definition subscriptionRequestURL (b : Branding) (r : Request) : string :=
  if negb (String.eqb (subURLPrefix b) "") then trim_right_byte "/" (subURLPrefix b) ++ rq_URI r
  else (if negb (rq_TLS r) && negb (String.eqb (rq_ForwardedProto r) "https") then "http" else "https") ++ "://" ++ rq_Host r ++ rq_URI r.

Definition setSubscriptionHeaders (b : Branding) (r : Request) (u : User) : list (string * string) :=
  [("Content-Disposition", "attachment; filename=" ++ String quote_byte (Username u ++ String quote_byte ""));
   ("Profile-Title", "base64:" ++ Base64.StdEncode (Username u));
   ("Profile-Update-Interval", UpdateInterval b);
   ("Subscription-Userinfo", "upload=0; download=" ++ Itoa (UsedTraffic u) ++ "; total=" ++ Itoa (default 0 (DataLimit (core u))) ++
      "; expire=" ++ Itoa (default 0 (Expire (core u))));
   ("Support-Url", SupportURL b);
   ("Profile-Web-Page-Url", subscriptionRequestURL b r)].

(** The customer page is not modelled. *)
Inductive reply := Page (u : User) | Answer (contentType : string) (headers : list (string * string)) (content : body).

Definition writeSubscription (P : Panel) (b : Branding) (r : Request) (now : Z) (n : nat) (user : User) (format : string) (recordUserAgent : bool) :
  M UserApi.httperr reply :=
  entries ← forEachUserHost P now n user;
  (* [recordSubUserAgent] writes two columns nothing reads back; its failure is logged. *)
  _ ← (if recordUserAgent then _ ← attempt (query (fun _ => Ok tt)); mret tt else mret tt);
  mret (Answer (contentType format) (setSubscriptionHeaders b r user) (document P format entries)).

Definition handleGetSubscription (P : Panel) (b : Branding) (flags : Negotiate.SubscriptionFormatFlags) (r : Request) (now : Z) (n : nat) (token secret : string) :
  M UserApi.httperr reply :=
  user ← Token.loadSubscriptionUser token secret;
  if Contains (rq_Accept r) "text/html" then mret (Page user)
  else writeSubscription P b r now n user (Negotiate.detectSubscriptionFormat (rq_UserAgent r) flags) true.

Definition handleGetSubscriptionFormat (P : Panel) (b : Branding) (r : Request) (now : Z) (n : nat) (token secret format : string) :
  M UserApi.httperr reply :=
  user ← Token.loadSubscriptionUser token secret;
  if str_mem format Negotiate.validSubscriptionFormats then writeSubscription P b r now n user format false
  else fail (404, "Not Found").

(** *** What a panel tells its peers: [handleGatewayStatus] *)

Definition status_host (P : Panel) (h : Host) : option (@Status.EffectiveHost peer_host) :=
  i ← List.find (fun i => String.eqb (i_Tag i) (hs_InboundTag h)) (catalog P);
  let eff := BuildEffectiveInbound i h in
  Some (Status.mkHost (Tag eff) (Protocol eff) (hs_Priority h) (hs_Remark h, eff)).

Definition handleGatewayStatus (P : Panel) (now : Z) (rows : list Status.metric) : @Status.StatusResult peer_host :=
  Status.mkStatus (Status.computePanelCrowdedness now rows)
    (omap (status_host P) (List.filter enabled (merge_sort by_priority (host_rows P)))).
End Body.
End Body.
