(* ===== verification/SubBodyProps.v ===== *)
(** * SubBodyProps: a subscription lists what its user may use, and the nodes serve it

    Every local entry is an enabled host of an inbound of one of the user's protocols that
    is not excluded for that proxy, and without failures all of them are there
    ([subscription_exact]); what an entry tells a client is what the node expects of that
    user ([entries_are_served]). *)

From stdpp Require Import sorting.
From S2P Require Import Prelude GoStrings Base64 GoUrl GoJson ProxySettings Store ReviewJob UserApi UserProps LoadMap NodeConfig NodeConfigProps.
From S2P Require Import Share ShareProps Subscription ClientDocs ClientDocsProps Gateway SubBody.

#[local] Open Scope string_scope.
#[local] Open Scope Z_scope.

Module SubBodyProps.
Import Store NodeConfig NodeConfigProps Effective Links HostOrder Body.

(** The table of inbounds read in full and by tag and protocol is one table. *)
Definition one_table (P : Panel) (d : Db) : Prop :=
  inbounds d = map (fun i => (i_Tag i, i_Protocol i)) (catalog P) /\ NoDup (map i_Tag (catalog P)).

(** The inbounds of a proxy, and with them its hosts in the order of priority. *)
Definition included (d : Db) (p : Proxy) : list string :=
  UserApi.subtractTags (map fst (List.filter (fun '(_, q) => String.eqb q (p_Type p)) (inbounds d))) (default [] (exclude_inbounds d !! p_ID p)).

Definition reach (P : Panel) (d : Db) (p : Proxy) : list walked :=
  omap (fun h => i ← List.find (fun i => String.eqb (i_Tag i) (hs_InboundTag h)) (catalog P);
                 Some (mkWalked (p_Type p) (p_Settings p) (hs_ID h) (hs_Remark h) (hs_Address h) (BuildEffectiveInbound i h)))
    (ListHostsByInboundTags P (included d p)).

Section walk.
Context `{ProxySettings.Random} (P : Panel) (d : Db) (Hone : one_table P d).

Lemma by_tag l : NoDup (map i_Tag l) -> forall (m : gmap string InboundRow) t,
  foldl (fun m i => <[i_Tag i := i]> m) m l !! t =
  match List.find (fun i => String.eqb (i_Tag i) t) l with Some i => Some i | None => m !! t end.
Proof.
  induction l as [|i l IH]; intros Hnd m t; [done|]. cbn [map] in Hnd. apply NoDup_cons in Hnd as [Hni Hnd]. cbn [foldl List.find].
  rewrite IH by done. destruct (String.eqb_spec (i_Tag i) t) as [<-|Hne].
  - rewrite lookup_insert_eq. destruct (List.find _ l) as [j|] eqn:Hj; [|done]. apply find_some in Hj as [Hin Ej%String.eqb_eq].
    exfalso. apply Hni, list_elem_of_In. rewrite <- Ej. by apply in_map.
  - destruct (List.find _ l); [done|]. by rewrite lookup_insert_ne.
Qed.

Lemma find_included (l : list InboundRow) tags t : str_mem t tags = true ->
  List.find (fun i => String.eqb (i_Tag i) t) (List.filter (fun i => str_mem (i_Tag i) tags) l) =
  List.find (fun i => String.eqb (i_Tag i) t) l.
Proof.
  intros Ht. induction l as [|i l IH]; [done|]. cbn [List.filter List.find]. destruct (str_mem (i_Tag i) tags) eqn:Hi.
  - cbn [List.find]. by destruct (String.eqb _ _).
  - destruct (String.eqb_spec (i_Tag i) t); [congruence|done].
Qed.

Lemma omap_ext_in {A B} (f g : A -> option B) l : (forall x, In x l -> f x = g x) -> omap f l = omap g l.
Proof.
  induction l as [|x l IH]; intros Hfg; [done|]. cbn. rewrite Hfg by by left. rewrite IH by (intros; apply Hfg; by right). done.
Qed.

Lemma NoDup_tags_filter (f : InboundRow -> bool) l : NoDup (map i_Tag l) -> NoDup (map i_Tag (List.filter f l)).
Proof.
  induction l as [|i l IH]; [done|]. cbn [map List.filter]. intros [Hni Hnd]%NoDup_cons. destruct (f i); [|auto].
  cbn [map]. apply NoDup_cons. split; [|auto]. rewrite list_elem_of_In in *. intros (j & Ej & Hj%filter_In)%in_map_iff. apply Hni, in_map_iff. exists j. by destruct Hj.
Qed.

(** With the tables read, a proxy's hosts are those it reaches. *)
Lemma walk_hosts p tags :
  omap (walk_host (foldl (fun m i => <[i_Tag i := i]> m) ∅ (ListInboundsByTags P tags)) p (p_Settings p)) (ListHostsByInboundTags P tags) =
  omap (fun h => i ← List.find (fun i => String.eqb (i_Tag i) (hs_InboundTag h)) (catalog P);
                 Some (mkWalked (p_Type p) (p_Settings p) (hs_ID h) (hs_Remark h) (hs_Address h) (BuildEffectiveInbound i h)))
    (ListHostsByInboundTags P tags).
Proof.
  apply omap_ext_in. intros h Hh. unfold walk_host. assert (str_mem (hs_InboundTag h) tags = true) as Ht.
  { unfold ListHostsByInboundTags in Hh. apply list_elem_of_In in Hh. rewrite merge_sort_Permutation in Hh. apply list_elem_of_In, filter_In in Hh as [_ Hh].
    by apply andb_true_iff in Hh as [-> _]. }
  unfold ListInboundsByTags. rewrite by_tag by by apply NoDup_tags_filter, Hone. rewrite find_included by done. by destruct (List.find _ _).
Qed.

Lemma attempt_now {E A} (q : Db -> result dberror A) w : faults w = [] -> attempt (E' := E) (query q) w = (w, Ok (q (db w))).
Proof. unfold attempt, query, stmt. destruct w as [d' fs]. cbn. intros ->. by destruct (q d'). Qed.

Lemma reach_none p : included d p = [] -> reach P d p = [].
Proof.
  intros E. unfold reach, ListHostsByInboundTags. rewrite E. cbn [str_mem existsb andb].
  assert (List.filter (fun _ => false) (host_rows P) = []) as ->; [|done]. by induction (host_rows P).
Qed.

Lemma tried {E A B} (q : Db -> result dberror A) (f : result dberror A -> M E B) w w' b : (attempt (query q) ≫= f) w = (w', Ok b) ->
  exists w1 r, db w1 = db w /\ (r = q (db w) \/ r = Err Unavailable) /\ f r w1 = (w', Ok b) /\ (faults w = [] -> r = q (db w) /\ faults w1 = []).
Proof.
  intros (w1 & r & Hq & Hf)%bind_ok. exists w1, r. pose proof (attempt_query_ok q w w1 r Hq) as [Hdb Hr]. split; [done|]. split; [done|]. split; [done|].
  intros Hnf. rewrite attempt_now in Hq by done. by injection Hq as <- <-.
Qed.

Lemma walk_proxy_spec p w w' l : db w = d -> walk_proxy P p (p_Settings p) w = (w', Ok l) ->
  db w' = d /\ (l = [] \/ l = reach P d p) /\ (faults w = [] -> l = reach P d p /\ faults w' = []).
Proof.
  intros Hw Hr. unfold walk_proxy in Hr. apply tried in Hr as (w1 & r1 & D1 & R1 & Hr & F1).
  destruct r1 as [known|e1]; [|injection Hr as <- <-; split; [congruence|]; split; [by left|]; intros Hf; by destruct (F1 Hf)].
  apply tried in Hr as (w2 & r2 & D2 & R2 & Hr & F2).
  destruct r2 as [excluded|e2]; [|injection Hr as <- <-; split; [congruence|]; split; [by left|]; intros Hf; by destruct (F1 Hf) as [_ Hf1], (F2 Hf1)].
  destruct R1 as [R1|]; [|done]. destruct R2 as [R2|]; [|done]. injection R1 as ->. injection R2 as ->.
  assert (UserApi.subtractTags (map fst (List.filter (fun '(_, q) => String.eqb q (p_Type p)) (inbounds (db w)))) (default [] (exclude_inbounds (db w1) !! p_ID p)) = included d p) as Einc.
  { unfold included. by rewrite D1, Hw. }
  rewrite Einc in Hr. destruct (included d p) as [|t ts] eqn:Ei.
  { injection Hr as <- <-. split; [congruence|]. rewrite (reach_none _ Ei). split; [by left|]. intros Hf. by destruct (F1 Hf) as [_ Hf1], (F2 Hf1). }
  rewrite <- Ei in Hr. apply tried in Hr as (w3 & r3 & D3 & R3 & Hr & F3).
  destruct r3 as [hs|e3]; [|injection Hr as <- <-; split; [congruence|]; split; [by left|]; intros Hf; by destruct (F1 Hf) as [_ Hf1], (F2 Hf1) as [_ Hf2], (F3 Hf2)].
  apply tried in Hr as (w4 & r4 & D4 & R4 & Hr & F4).
  destruct r4 as [is_|e4]; [|injection Hr as <- <-; split; [congruence|]; split; [by left|]; intros Hf; by destruct (F1 Hf) as [_ Hf1], (F2 Hf1) as [_ Hf2], (F3 Hf2) as [_ Hf3], (F4 Hf3)].
  destruct R3 as [[= ->]|]; [|done]. destruct R4 as [[= ->]|]; [|done]. injection Hr as <- <-. rewrite walk_hosts. split; [congruence|]. split; [by right|].
  intros Hf. destruct (F1 Hf) as [_ Hf1], (F2 Hf1) as [_ Hf2], (F3 Hf2) as [_ Hf3], (F4 Hf3) as [_ Hf4]. done.
Qed.

Lemma stored_as_is p n : sound_proxies d -> proxies d !! p_ID p = Some p ->
  ProxySettings.FromStored (p_Type p) (ProxySettings.MarshalJSON (p_Settings p)) n = Ok (p_Settings p, n).
Proof. intros Hs Hp. destruct (Hs _ _ Hp) as [-> Hc]. by apply ProxySettings.FromStored_MarshalJSON. Qed.

Lemma walk_spec ps : sound_proxies d -> (forall p, In p ps -> proxies d !! p_ID p = Some p) -> forall m n w w' m' l,
  db w = d -> walk P ps m n w = (w', Ok (m', l)) ->
  db w' = d /\ (forall x, In x l -> exists p, In p ps /\ In x (reach P d p)) /\
  (forall t s, m' !! t = Some s -> m !! t = Some s \/ exists p, In p ps /\ p_Type p = t /\ p_Settings p = s) /\
  (faults w = [] -> l = concat (map (reach P d) ps) /\ faults w' = []).
Proof.
  intros Hs. induction ps as [|p ps IH]; intros Hps m n w w' m' l Hw Hr.
  { injection Hr as <- <- <-. split; [done|]. split; [done|]. split; [by left|]. done. }
  cbn [walk] in Hr. rewrite stored_as_is in Hr by (done || apply Hps; by left).
  apply bind_ok in Hr as (w1 & l1 & H1 & Hr). apply bind_ok in Hr as (w2 & [m2 l2] & H2 & [= <- <- <-]).
  destruct (walk_proxy_spec p w w1 l1 Hw H1) as (D1 & Hl1 & F1).
  destruct (IH (fun q Hq => Hps q (or_intror Hq)) _ _ _ _ _ _ D1 H2) as (D2 & Hl2 & Hm2 & F2). split; [done|]. split; [|split].
  - intros x [Hx|Hx]%in_app_iff.
    + exists p. split; [by left|]. destruct Hl1 as [-> | ->]; [done|exact Hx].
    + destruct (Hl2 x Hx) as (q & Hq & Hr). exists q. split; [by right|done].
  - intros t s [Hts|(q & Hq & ? & ?)]%Hm2; [|right; exists q; split; [by right|done]].
    apply lookup_insert_Some in Hts as [[<- <-]|[_ Hts]]; [right; exists p; split; [by left|done]|by left].
  - intros Hf. destruct (F1 Hf) as [-> Hf1]. destruct (F2 Hf1) as [-> Hf2]. done.
Qed.

Lemma included_spec p t : In t (included d p) <->
  (exists i, In i (catalog P) /\ i_Tag i = t /\ i_Protocol i = p_Type p) /\ ~ In t (default [] (exclude_inbounds d !! p_ID p)).
Proof.
  unfold included, UserApi.subtractTags. rewrite filter_In, negb_true_iff, <- not_true_iff_false, str_mem_spec, in_map_iff. destruct Hone as [-> _].
  split; intros [Hin Hex]; (split; [|done]).
  - destruct Hin as ([t' q] & <- & [Hin Hq%String.eqb_eq]%filter_In). apply in_map_iff in Hin as (i & [= <- <-] & Hin). by exists i.
  - destruct Hin as (i & Hin & <- & Hi). exists (i_Tag i, i_Protocol i). split; [done|]. apply filter_In. split; [by apply (in_map (fun i => (i_Tag i, i_Protocol i)))|].
    by apply String.eqb_eq.
Qed.

(** What a proxy may use: an enabled host of an inbound of its protocol not excluded for it. *)
Definition may_use (p : Proxy) (h : Host) (i : InboundRow) : Prop :=
  In h (host_rows P) /\ enabled h = true /\ In i (catalog P) /\ i_Tag i = hs_InboundTag h /\ i_Protocol i = p_Type p /\
  ~ In (i_Tag i) (default [] (exclude_inbounds d !! p_ID p)).

Lemma find_tag l i : NoDup (map i_Tag l) -> In i l -> List.find (fun j => String.eqb (i_Tag j) (i_Tag i)) l = Some i.
Proof.
  induction l as [|j l IH]; [done|]. cbn [map List.find]. intros [Hni Hnd]%NoDup_cons [->|Hin]; [by rewrite String.eqb_refl|].
  destruct (String.eqb_spec (i_Tag j) (i_Tag i)) as [E|]; [|by apply IH]. exfalso. apply Hni, list_elem_of_In. rewrite E. by apply in_map.
Qed.

Lemma reach_spec p x : In x (reach P d p) <-> exists h i, may_use p h i /\
  x = mkWalked (p_Type p) (p_Settings p) (hs_ID h) (hs_Remark h) (hs_Address h) (BuildEffectiveInbound i h).
Proof.
  unfold reach. rewrite <- list_elem_of_In, list_elem_of_omap. unfold ListHostsByInboundTags.
  setoid_rewrite merge_sort_Permutation. setoid_rewrite list_elem_of_In. setoid_rewrite filter_In. setoid_rewrite andb_true_iff. setoid_rewrite str_mem_spec.
  setoid_rewrite included_spec. split.
  - intros (h & (Hh & ((i & Hi & Ht & Hp) & Hex) & Hen) & Hx). rewrite <- Ht, (find_tag _ i) in Hx by (done || apply Hone). injection Hx as <-.
    exists h, i. split; [|done]. unfold may_use. by rewrite Ht.
  - intros (h & i & (Hh & Hen & Hi & Ht & Hp & Hex) & ->). exists h. rewrite <- Ht, (find_tag _ i) by (done || apply Hone). split; [|done].
    split; [done|]. split; [|done]. split; [|done]. by exists i.
Qed.
End walk.

(** *** Peers *)

(** A host that an enabled peer's last status, if it has not lapsed, lists for a protocol
    the user has. *)
Definition peer_offers (P : Panel) (now : Z) (protocol : string) (eff : EffectiveInbound) : Prop :=
  exists peer st h template, In peer (peers P) /\ Settings.gp_Enabled peer = true /\ Status.lookup now (Settings.gp_ID peer) (peer_cache P) = Some st /\
    In h (Status.Hosts st) /\ Status.h_Protocol h = protocol /\ Status.h_rest h = (template, eff).

Lemma peer_entries m ph : forall vars out e, In e (foldl (peer_entry m) (vars, out) ph).2 ->
  In e out \/ exists x, In x ph /\ m !! Status.h_Protocol (Status.ph_host x) = Some (en_settings e) /\ en_eff e = (Status.h_rest (Status.ph_host x)).2.
Proof.
  induction ph as [|x ph IH]; intros vars out e; [by left|]. cbn [foldl]. unfold peer_entry at 2.
  destruct (Status.h_rest (Status.ph_host x)) as [template eff] eqn:Hr. destruct (m !! Status.h_Protocol (Status.ph_host x)) as [s|] eqn:Hs.
  - destruct (peerRemark _ _ _) as [vars' remark]. intros [[He|[<-|[]]]%in_app_iff|(y & Hy & ?)]%IH; [by left| |right; exists y; split; [by right|done]].
    right. exists x. split; [by left|]. cbn. by rewrite Hr.
  - intros [He|(y & Hy & ?)]%IH; [by left|right; exists y; split; [by right|done]].
Qed.

Lemma gathered_offers P now protocols x : In x (Status.gatherPeerHosts now protocols (peers P) (peer_cache P)) ->
  peer_offers P now (Status.h_Protocol (Status.ph_host x)) (Status.h_rest (Status.ph_host x)).2.
Proof.
  unfold Status.gatherPeerHosts. rewrite <- list_elem_of_In, merge_sort_Permutation, list_elem_of_In. unfold Status.gathered.
  destruct protocols as [|pr prs]; [done|]. intros (l & (peer & <- & Hp)%in_map_iff & Hx)%in_concat.
  destruct (Settings.gp_Enabled peer) eqn:Hen; [|done]. destruct (Status.lookup _ _ _) as [st|] eqn:Hst; [|done].
  apply in_map_iff in Hx as (h & <- & [Hh _]%filter_In). cbn. destruct (Status.h_rest h) as [template eff] eqn:Hr.
  exists peer, st, h, template. cbn. done.
Qed.

Section entries.
Context `{ProxySettings.Random}.

Lemma walk_ok P d ps : (forall p, In p ps -> proxies d !! p_ID p = Some p) -> sound_proxies d -> forall m n w, faults w = [] -> db w = d ->
  exists w' r, walk P ps m n w = (w', Ok r).
Proof.
  intros Hps Hs. induction ps as [|p ps IH]; intros m n w Hf Hw; [by eexists _, _|]. cbn [walk]. rewrite (stored_as_is d) by (done || apply Hps; by left).
  assert (exists l, walk_proxy P p (p_Settings p) w = (w, Ok l)) as [l Hl].
  { unfold walk_proxy, mbind, M_bind, ListInboundTagsByProtocol, ListExcludedInboundTags.
    do 2 rewrite attempt_now by done. cbv beta iota. case_match; [by eexists|]. do 2 rewrite attempt_now by done. cbv beta iota. by eexists. }
  destruct (IH (fun q Hq => Hps q (or_intror Hq)) (<[p_Type p := p_Settings p]> m) n w Hf Hw) as (w' & [m' l'] & Hr).
  unfold mbind, M_bind in *. rewrite Hl, Hr. by eexists _, _.
Qed.

(** The local part of an answer, and the rest. *)
Lemma entries_split P now n user w w' l : wf (db w) -> sound_proxies (db w) -> one_table P (db w) ->
  forEachUserHost P now n user w = (w', Ok l) ->
  exists local peer ps, l = (local ++ peer)%list /\ ListProxiesByUserID (ID user) (db w) = Ok ps /\
    (forall e, In e local -> exists p h i, In p ps /\ may_use P (db w) p h i /\ en_settings e = p_Settings p /\ en_eff e = BuildEffectiveInbound i h) /\
    (forall e, In e peer -> exists p, In p ps /\ en_settings e = p_Settings p /\ peer_offers P now (p_Type p) (en_eff e)) /\
    (faults w = [] -> forall p h i, In p ps -> may_use P (db w) p h i ->
      exists e, In e local /\ en_settings e = p_Settings p /\ en_eff e = BuildEffectiveInbound i h).
Proof.
  intros Hwf Hs Hone Hr. unfold forEachUserHost in Hr. apply bind_ok in Hr as (w1 & ps & Hq%or_else_ok & Hr).
  pose proof Hq as Hq'. apply query_ok in Hq as [Hps Hdb]. apply bind_ok in Hr as (w2 & [m hosts] & Hwalk & [= <- <-]).
  pose proof (fun p => UserProps.ListProxies_elem (ID user) (db w) ps p Hwf Hps) as Hin.
  destruct (walk_spec P (db w) Hone ps Hs (fun p Hp => proj1 (proj1 (Hin p) Hp)) ∅ n w1 w2 m hosts Hdb Hwalk) as (_ & Hh & Hm & Hfull).
  eexists _, _, ps. split; [reflexivity|]. split; [done|]. split; [|split].
  - intros e (x & <- & Hx)%in_map_iff. rewrite <- list_elem_of_In, local_hosts_perm, list_elem_of_In in Hx. apply in_map_iff in Hx as (y & <- & Hy).
    apply Hh in Hy as (p & Hp & (h & i & Hu & ->)%reach_spec); [|done]. exists p, h, i. split; [done|]. split; [done|].
    unfold render, local_entry. by destruct (remark _ _ _ _ _ _) as [[[? ?] ?] ?].
  - intros e He. apply peer_entries in He as [[]|(x & Hx & Hs' & ->)]. apply Hm in Hs' as [?|(p & Hp & Ht & Hst)]; [done|].
    exists p. split; [done|]. split; [done|]. rewrite Ht. by apply gathered_offers in Hx.
  - intros Hf p h i Hp Hu. assert (faults w1 = []) as Hf1.
    { unfold query, stmt in Hq'. rewrite Hf in Hq'. rewrite Hps in Hq'. by injection Hq' as <-. }
    destruct (Hfull Hf1) as [-> _]. set (x := mkWalked (p_Type p) (p_Settings p) (hs_ID h) (hs_Remark h) (hs_Address h) (BuildEffectiveInbound i h)).
    assert (In x (concat (map (reach P (db w)) ps))) as Hx.
    { apply in_concat. exists (reach P (db w) p). split; [by apply in_map|]. apply reach_spec; [done|]. by exists h, i. }
    set (vars := UserVars.BuildVariables _ _ _). set (y := (render (loadIndicator P) (sortByLoad P) (snap P) vars x).2).
    exists (local_entry y). split.
    + apply in_map. rewrite <- list_elem_of_In, local_hosts_perm, list_elem_of_In. apply in_map_iff. by exists x.
    + unfold y, render, local_entry. by destruct (remark _ _ _ _ _ _) as [[[? ?] ?] ?].
Qed.
End entries.

Section theorems.
Context `{ProxySettings.Random}.

(** C23: Without failures a subscription is answered, and it offers a configuration for exactly
    the enabled hosts of the inbounds that the user's proxies may use, each with the
    settings of that proxy, followed by hosts of enabled peers for protocols the user
    has. *)
Theorem subscription_exact P now n user w : wf (db w) -> sound_proxies (db w) -> one_table P (db w) -> faults w = [] ->
  exists w' local peer, forEachUserHost P now n user w = (w', Ok (local ++ peer)%list) /\
    (forall s eff, In (s, eff) (map (fun e => (en_settings e, en_eff e)) local) <->
      exists p h i, proxies (db w) !! p_ID p = Some p /\ p_UserID p = ID user /\ may_use P (db w) p h i /\ s = p_Settings p /\ eff = BuildEffectiveInbound i h) /\
    (forall e, In e peer -> exists p, proxies (db w) !! p_ID p = Some p /\ p_UserID p = ID user /\ en_settings e = p_Settings p /\
      peer_offers P now (p_Type p) (en_eff e)).
Proof.
  intros Hwf Hs Hone Hf. assert (exists w' l, forEachUserHost P now n user w = (w', Ok l)) as (w' & l & Hr).
  { unfold forEachUserHost, mbind, M_bind, or_else, query, stmt. rewrite Hf. cbn [tail]. set (w1 := mkWorld _ _).
    destruct (walk_ok P (db w) (merge_sort by_id (List.filter (fun p => p_UserID p =? ID user) (map snd (map_to_list (proxies (db w)))))))
      with (m := ∅ : gmap string ProxySettings.Settings) (n := n) (w := w1) as (w2 & [m hosts] & Hw2); try done.
    - intros p Hp. apply (UserProps.ListProxies_elem (ID user) (db w) _ p Hwf eq_refl) in Hp. apply Hp.
    - cbn [ListProxiesByUserID]. cbv beta iota. unfold w1 in Hw2. rewrite Hw2. by eexists _, _. }
  destruct (entries_split P now n user w w' l Hwf Hs Hone Hr) as (local & peer & ps & -> & Hps & Hl & Hp & Hall).
  pose proof (fun p => UserProps.ListProxies_elem (ID user) (db w) ps p Hwf Hps) as Hin.
  exists w', local, peer. split; [done|]. split.
  - intros s eff. rewrite in_map_iff. split.
    + intros (e & [= <- <-] & He). apply Hl in He as (p & h & i & [Hpl Hpu]%Hin & Hu & -> & ->). by exists p, h, i.
    + intros (p & h & i & Hpl & Hpu & Hu & -> & ->). destruct (Hall Hf p h i) as (e & He & Es & Ee); [by apply Hin|done|].
      exists e. by rewrite Es, Ee.
  - intros e He. apply Hp in He as (p & [Hpl Hpu]%Hin & ? & ?). by exists p.
Qed.

(** C22: Whatever fails on the way, an entry for a host of this panel that an active or held
    user is handed is served: the inbound it is for expects that user, under its name and
    with the credentials of the entry - and, where the host leaves the security of its
    inbound alone, with the flow the link carries. *)
Theorem entries_are_served P now n user w w' l e : wf (db w) -> sound_proxies (db w) -> one_table P (db w) ->
  (forall i, In i (catalog P) -> str_mem (i_Security i) ["none"; "tls"; "reality"] = true) ->
  users (db w) !! ID user = Some user -> str_mem (Status (core user)) ["active"; "on_hold"] = true ->
  forEachUserHost P now n user w = (w', Ok l) -> In e l ->
  (exists i h p us, In i (catalog P) /\ In h (host_rows P) /\ enabled h = true /\ i_Tag i = hs_InboundTag h /\
    accepted (db w) i p = Some us /\ us_Name us = Username user /\ en_eff e = BuildEffectiveInbound i h /\
    without_flow us = without_flow (user_spec (Username user) (en_settings e)) /\
    (forall id flow, en_settings e = ProxySettings.VLESSSettings id flow -> security_of i h = i_Security i ->
      default "" (ShareProps.params (en_remark e) (en_address e) (en_eff e) (en_settings e) !! "flow") = us_Flow us)) \/
  exists protocol, peer_offers P now protocol (en_eff e).
Proof.
  intros Hwf Hs Hone Hsec Hu Hst Hr He. destruct (entries_split P now n user w w' l Hwf Hs Hone Hr) as (local & peer & ps & -> & Hps & Hl & Hp & _).
  apply in_app_iff in He as [He|He]; [left|right; apply Hp in He as (p & _ & _ & ?); by eexists].
  apply Hl in He as (p & h & i & Hpl & (Hh & Hen & Hi & Ht & Hpr & _) & Es & Ee).
  apply (UserProps.ListProxies_elem (ID user) (db w) ps p Hwf Hps) in Hpl as [Hpl Hpu].
  assert (accepted (db w) i p = Some ((if flowless i then without_flow else id) (user_spec (Username user) (p_Settings p)))) as Ha.
  { unfold accepted. rewrite Hpu, Hu. cbn [mbind option_bind]. rewrite Hst, Hpr, String.eqb_refl. done. }
  exists i, h, p, ((if flowless i then without_flow else id) (user_spec (Username user) (p_Settings p))).
  do 5 (split; [done|]). split; [by destruct (flowless i), (p_Settings p)|]. split; [done|]. rewrite Es. split; [by destruct (flowless i)|].
  intros id flow Hv Hov. destruct (Hs _ _ Hpl) as [Hty _]. rewrite Hv in Hty.
  pose proof (ClientDocsProps.flow_agrees_at (db w) i h p _ id flow (en_remark e) (en_address e) Ha Hv) as Hf.
  rewrite Hv in Hf. rewrite Ee, Hv. apply Hf; [by rewrite Hpr, Hty|by apply Hsec|done].
Qed.
End theorems.

(** ** A concrete panel: one host served, one excluded, one disabled *)

#[local] Existing Instance ProxySettings.tally_random.

Definition demo_db : Db :=
  let d := db UserProps.created in
  mkDb (users d) (next_plans d) (proxies d) {[5 := ["fr"]]} (user_usage_logs d) (node_user_usages d) (node_usages d) (nodes d) (system d)
    (admins d) (usage_queue d) [("de", "vless"); ("fr", "vless")] (next_id d).

Lemma panel_wf : wf demo_db.
Proof.
  pose proof UserProps.created_wf as Hw. destruct Hw. constructor; try assumption.
  change (exclude_inbounds demo_db) with ({[5 := ["fr"]]} : gmap Z (list string)). rewrite dom_singleton_L.
  intros x ->%elem_of_singleton. apply elem_of_dom. vm_compute. by eexists.
Qed.

Definition inbound_of (tag : string) : InboundRow :=
  mkInbound tag "vless" "tcp" None "tls" None None None None None None None None None None None false None None.

Definition host_of (id : Z) (tag : string) (disabled : bool) : Host :=
  mkHost id "{USERNAME} {TRANSPORT}" "{SERVER_IP}" (Some 443) None (Some "cdn.example") None "inbound_default" "h2" "chrome" tag None (Some disabled)
    false None None false false id.

Definition demo_panel : Panel :=
  mkPanel [inbound_of "de"; inbound_of "fr"] [host_of 3 "de" true; host_of 1 "de" false; host_of 2 "fr" false] [] ∅ "10.0.0.1" false false None None None.

Definition demo_w : World := mkWorld demo_db [].
Definition demo_answer := forEachUserHost demo_panel (ReviewJob.noon * 1000) 0 UserProps.created_user demo_w.
Definition demo_entries : list entry := match demo_answer.2 with Ok l => l | Err _ => [] end.

Example demo_link : omap entry_link demo_entries =
  ["vless://" ++ ProxySettings.newUUID 0 ++
   "@10.0.0.1:443?alpn=h2&flow=xtls-rprx-vision&fp=chrome&headerType=&host=&path=&security=tls&sni=cdn.example&type=tcp#kaveh%20tcp"].
Proof. vm_compute. reflexivity. Qed.

Lemma panel_sound : sound_proxies demo_db.
Proof.
  intros k q Hq. change (proxies demo_db) with (proxies (db UserProps.created)) in Hq.
  assert (proxies (db UserProps.created) = {[5 := mkProxy 5 4 "vless" (ProxySettings.VLESSSettings (ProxySettings.newUUID 0) "xtls-rprx-vision")]}) as E by (vm_compute; reflexivity).
  rewrite E in Hq. apply lookup_singleton_Some in Hq as [_ <-]. split; [reflexivity|]. split; [|done]. by repeat constructor.
Qed.

Lemma demo_one : one_table demo_panel demo_db.
Proof. split; [reflexivity|]. cbn. repeat constructor; set_solver. Qed.

Lemma subscription_exact_witness : exists w' local peer, demo_answer = (w', Ok (local ++ peer)%list) /\
  In (ProxySettings.VLESSSettings (ProxySettings.newUUID 0) "xtls-rprx-vision", BuildEffectiveInbound (inbound_of "de") (host_of 1 "de" false))
    (map (fun e => (en_settings e, en_eff e)) local).
Proof.
  destruct (subscription_exact demo_panel (ReviewJob.noon * 1000) 0 UserProps.created_user demo_w panel_wf panel_sound demo_one eq_refl) as (w' & local & peer & Hr & Hl & _).
  exists w', local, peer. split; [exact Hr|]. apply Hl.
  exists (mkProxy 5 4 "vless" (ProxySettings.VLESSSettings (ProxySettings.newUUID 0) "xtls-rprx-vision")), (host_of 1 "de" false), (inbound_of "de").
  split; [vm_compute; reflexivity|]. split; [reflexivity|]. split; [|done]. unfold may_use. cbn.
  split; [auto|]. split; [reflexivity|]. split; [auto|]. do 2 (split; [reflexivity|]). intros [E|[]]. discriminate.
Defined.

Lemma entries_are_served_witness : exists e us, In e demo_entries /\ us_Name us = "kaveh" /\
  default "" (ShareProps.params (en_remark e) (en_address e) (en_eff e) (en_settings e) !! "flow") = us_Flow us.
Proof.
  destruct demo_entries as [|e l] eqn:He; [vm_compute in He; discriminate|].
  destruct (entries_are_served demo_panel (ReviewJob.noon * 1000) 0 UserProps.created_user demo_w demo_answer.1 demo_entries e)
    as [(i & h & p & us & Hi & Hh & _ & Ht & Ha & Hn & Ee & _ & Hf)|(pr & peer & st & x & t & Hin & _)].
  - exact panel_wf.
  - exact panel_sound.
  - exact demo_one.
  - intros i [<-|[<-|[]]]; reflexivity.
  - vm_compute. reflexivity.
  - reflexivity.
  - vm_compute. reflexivity.
  - rewrite He. by left.
  - exists e, us. split; [by left|]. split; [exact Hn|]. vm_compute in He. injection He as <- _. apply (Hf _ _ eq_refl).
    destruct Hh as [<-|[<-|[<-|[]]]]; reflexivity.
  - destruct Hin.
Defined.
End SubBodyProps.
