(* ===== verification/Inventory.v ===== *)
(** * Inventory: inbounds and hosts — [internal/httpapi/inbounds.go], [hosts.go]

    What the panel offers: the inbounds, each with its transport and keys, and the hosts
    under which customers find them. [Tables] is the state and the statements, with the
    cascades of the schema; [Inbounds] the sync by tag, the default host of a new tag,
    deletion and the pruning of proxies nobody can use; [Hosts] the list of hosts and its
    replacement tag by tag.

    The users' tables are [Store]'s. The panel's own tables ([NodeAdmin]: core configuration, nodes, the change counter of
    the nodes' configuration) are part of the state, so that one list of faults covers
    every call. A row read through the cache is read from its table: every write here
    deletes the keys. Go visits a map in any order, so a map in a request is a list in
    the order it is visited. *)

From stdpp Require Import sorting.
From S2P Require Import Prelude GoStrings GoRegexp ProxySettings Store UserApi Effect CoreDto CoreConfig NodeAdmin NodeConfig Share.
Import Rules NodeConfig.

#[local] Open Scope string_scope.
#[local] Open Scope Z_scope.

Module Tables.
Export Effective.

(** [templates] is the association table of user templates: the tags of each. The users,
    their proxies and the exclusions of a proxy are those of [Store], which has the tags
    and protocols of the inbounds besides. *)
Record St := mkSt {
  inbounds : gmap string InboundRow; hosts : gmap Z Host; templates : gmap Z (list string); next_host : Z;
  db : Store.Db; panel : NodeAdmin.St
}.

(** The columns of the inbounds that [Store] reads. *)
Definition tag_protocols (xs : gmap string InboundRow) : list (string * string) :=
  map (fun kv => (kv.1, i_Protocol kv.2)) (map_to_list xs).

Definition with_tags (l : list (string * string)) (d : Store.Db) : Store.Db :=
  Store.mkDb (Store.users d) (Store.next_plans d) (Store.proxies d) (Store.exclude_inbounds d) (Store.user_usage_logs d)
    (Store.node_user_usages d) (Store.node_usages d) (Store.nodes d) (Store.system d) (Store.admins d) (Store.usage_queue d)
    l (Store.next_id d).

Definition set_db d s := mkSt (inbounds s) (hosts s) (templates s) (next_host s) d (panel s).
Definition set_inbounds xs s := mkSt xs (hosts s) (templates s) (next_host s) (with_tags (tag_protocols xs) (db s)) (panel s).
Definition set_hosts hs s := mkSt (inbounds s) hs (templates s) (next_host s) (db s) (panel s).
Definition set_templates ts s := mkSt (inbounds s) (hosts s) ts (next_host s) (db s) (panel s).
Definition set_next n s := mkSt (inbounds s) (hosts s) (templates s) n (db s) (panel s).
Definition set_panel p s := mkSt (inbounds s) (hosts s) (templates s) (next_host s) (db s) p.

Abbreviation callerr := NodeAdmin.callerr.
Abbreviation M := (eff St).

Definition call {A} (f : St -> result callerr (St * A)) : M callerr A := fun s =>
  match NodeAdmin.faults (panel s) with
  | true :: fs => (set_panel (NodeAdmin.set_faults fs (panel s)) s, Err NodeAdmin.Unavailable)
  | fs => let s := set_panel (NodeAdmin.set_faults (tail fs) (panel s)) s in
          match f s with Ok (s, a) => (s, Ok a) | Err e => (s, Err e) end
  end.

Definition query {A} (f : St -> result callerr A) : M callerr A :=
  call (fun s => match f s with Ok a => Ok (s, a) | Err e => Err e end).

(** The triggers of migration 00015. *)
Definition touch (now : Z) (s : St) : St :=
  set_panel (NodeAdmin.set_nodes (NodeAdmin.nodes (panel s)) (NodeAdmin.bump now (panel s)) (panel s)) s.

(** A step of the panel's own handlers; it reads the tags of the inbounds. *)
Definition str_lt (a b : string) : Prop := str_ltb b a = false.
#[export] Instance str_lt_dec : RelDecision str_lt. Proof. intros a b. unfold str_lt. apply _. Defined.

Definition all_tags (s : St) : list string := merge_sort str_lt (map fst (map_to_list (inbounds s))).

Definition seen_by (s : St) : NodeAdmin.St :=
  let p := panel s in
  NodeAdmin.mkSt (NodeAdmin.core_config p) (NodeAdmin.nodes p) (all_tags s) (NodeAdmin.tls p) (NodeAdmin.next_id p)
    (NodeAdmin.version p) (NodeAdmin.faults p).

Definition in_panel {E A} (m : eff NodeAdmin.St E A) : M E A := fun s =>
  let '(p, r) := m (seen_by s) in (set_panel p s, r).

(** ** Statements on [inbounds] *)

Definition inbound_protocols : list string := ["vmess"; "vless"; "trojan"; "shadowsocks"; "hysteria2"; "tuic"; "snell"; "anytls"].

Definition opt_mem (o : option string) (l : list string) : bool := match o with Some s => str_mem s l | None => true end.

(** The constraints of the table. *)
Definition inbound_fits (i : InboundRow) : bool :=
  (char_count (i_Tag i) <=? 256)%nat && str_mem (i_Protocol i) inbound_protocols &&
  str_mem (i_Security i) ["none"; "tls"; "reality"] && opt_mem (i_CongestionControl i) ["cubic"; "new_reno"; "bbr"] &&
  opt_mem (i_SnellV6Mode i) ["default"; "unshaped"; "unsafe-raw"].

Definition GetInboundByTag (tag : string) : M callerr InboundRow :=
  query (fun s => match inbounds s !! tag with Some i => Ok i | None => Err NodeAdmin.NoRows end).

Definition by_protocol (a b : InboundRow) : Prop :=
  (str_ltb (i_Protocol b) (i_Protocol a) || (String.eqb (i_Protocol a) (i_Protocol b) && str_ltb (i_Tag b) (i_Tag a))) = false.
#[export] Instance by_protocol_dec : RelDecision by_protocol. Proof. intros a b. unfold by_protocol. apply _. Defined.

Definition sorted_inbounds (s : St) : list InboundRow := merge_sort by_protocol (map snd (map_to_list (inbounds s))).

Definition ListInbounds : M callerr (list InboundRow) := query (fun s => Ok (sorted_inbounds s)).

Definition ListInboundTags : M callerr (list string) := query (fun s => Ok (all_tags s)).

(** The row and whether it is new. *)
Definition UpsertInbound (now : Z) (row : InboundRow) : M callerr (InboundRow * bool) := call (fun s =>
  if inbound_fits row then
    let inserted := match inbounds s !! i_Tag row with Some _ => false | None => true end in
    Ok (touch now (set_inbounds (<[i_Tag row := row]> (inbounds s)) s), (row, inserted))
  else Err NodeAdmin.Refused).

Definition without (tag : string) (m : gmap Z (list string)) : gmap Z (list string) :=
  List.filter (fun t => negb (String.eqb t tag)) <$> m.

(** Hosts, exclusions and template entries of the tag go with it. *)
Definition DeleteInboundByTag (now : Z) (tag : string) : M callerr unit := call (fun s =>
  let s := set_db (Store.set_excluded (without tag (Store.exclude_inbounds (db s))) (db s)) s in
  let s := set_templates (without tag (templates s)) s in
  let s := set_hosts (filter (fun kv => hs_InboundTag kv.2 <> tag) (hosts s)) s in
  Ok (touch now (set_inbounds (delete tag (inbounds s)) s), tt)).

(** ** Statements on [hosts] *)

Definition by_priority (a b : Host) : Prop := hs_Priority a < hs_Priority b \/ (hs_Priority a = hs_Priority b /\ hs_ID a <= hs_ID b).
#[export] Instance by_priority_dec : RelDecision by_priority. Proof. intros a b. unfold by_priority. apply _. Defined.

Definition sorted_hosts (s : St) : list Host := merge_sort by_priority (map snd (map_to_list (hosts s))).

Definition ListHosts : M callerr (list Host) := query (fun s => Ok (sorted_hosts s)).

(** [COALESCE(MAX(priority), -1)]: the -1 stands for no host at all. *)
Definition GetMaxHostPriority : M callerr Z := query (fun s =>
  Ok match map hs_Priority (map snd (map_to_list (hosts s))) with [] => -1 | p :: ps => foldr Z.max p ps end).

Definition DeleteHostsByInboundTag (now : Z) (tag : string) : M callerr unit := call (fun s =>
  Ok (touch now (set_hosts (filter (fun kv => hs_InboundTag kv.2 <> tag) (hosts s)) s), tt)).

Definition opt_len (n : nat) (o : option string) : bool := match o with Some s => (char_count s <=? n)%nat | None => true end.

Definition securities : list string := ["inbound_default"; "none"; "tls"].
Definition alpns : list string := ["none"; "h3"; "h2"; "http/1.1"; "h3,h2,http/1.1"; "h3,h2"; "h2,http/1.1"].
Definition fingerprints : list string :=
  ["none"; "chrome"; "firefox"; "safari"; "ios"; "android"; "edge"; "360"; "qq"; "random"; "randomized"].

Definition host_fits (h : Host) : bool :=
  (char_count (hs_Remark h) <=? 256)%nat && (char_count (hs_Address h) <=? 256)%nat && opt_len 256 (hs_Path h) &&
  opt_len 1000 (hs_Sni h) && opt_len 1000 (hs_Host h) && str_mem (hs_Security h) securities && str_mem (hs_Alpn h) alpns &&
  str_mem (hs_Fingerprint h) fingerprints && opt_len 100 (hs_FragmentSetting h) && opt_len 2000 (hs_NoiseSetting h).

(** The row with its id; a tag without an inbound breaks the foreign key. A failed
    insert uses up the id. *)
Definition CreateHost (now : Z) (row : Z -> Host) : M callerr Host := fun s =>
  match call (fun s => Ok (set_next (next_host s + 1) s, next_host s)) s with
  | (s, Err e) => (s, Err e)
  | (s, Ok id) =>
      let h := row id in
      if host_fits h && bool_decide (is_Some (inbounds s !! hs_InboundTag h))
      then (touch now (set_hosts (<[id := h]> (hosts s)) s), Ok h)
      else (s, Err NodeAdmin.Refused)
  end.

(** ** Others *)

(** Every proxy whose protocol has no inbound; its exclusions go with it. *)
Definition served (xs : gmap string InboundRow) (protocol : string) : bool :=
  str_mem protocol (map i_Protocol (map snd (map_to_list xs))).

Definition PruneOrphanedProxies (now : Z) : M callerr Z := call (fun s =>
  let kept := filter (fun kv => served (inbounds s) (Store.p_Type kv.2) = true) (Store.proxies (db s)) in
  let left := filter (fun kv => is_Some (kept !! kv.1)) (Store.exclude_inbounds (db s)) in
  Ok (touch now (set_db (Store.set_excluded left (Store.set_proxies kept (db s))) s),
      Z.of_nat (size (Store.proxies (db s))) - Z.of_nat (size kept))).

(** Deleting keys of the cache. *)
Definition InvalidateInbound : M callerr unit := query (fun _ => Ok tt).

Definition BumpDataVersion (now : Z) : M callerr unit := call (fun s => Ok (touch now s, tt)).

(** Both are tried, and a failure of either is only logged by the callers here. *)
Definition InvalidateNodeConfigPayload (now : Z) : M callerr unit := fun s =>
  let '(s, r) := BumpDataVersion now s in
  let '(s, r') := InvalidateInbound s in
  (s, match r with Ok _ => r' | Err e => Err e end).

Definition logged {E E' A} (dflt : A) (m : M E A) : M E' A := fun s =>
  let '(s, r) := m s in (s, Ok (match r with Ok a => a | Err _ => dflt end)).
End Tables.

Module Inbounds.
Import Tables.

(** What went wrong: the request, or the panel. *)
Inductive failure := Invalid (msg : string) | NotFound | Internal.

Definition httpstatus (f : failure) : Z := match f with Invalid _ => 422 | NotFound => 404 | Internal => 500 end.

(** ** Listing *)

Record proxyInboundDTO := mkListed { li_Tag : string; li_Protocol : string; li_Network : string; li_TLS : string; li_Port : Z; li_Ports : list Z }.

Definition by_id (a b : Host) : Prop := hs_ID a <= hs_ID b.
#[export] Instance by_id_dec : RelDecision by_id. Proof. intros a b. apply Z_le_dec. Defined.

Definition hosts_of (tag : string) (s : St) : list Host :=
  List.filter (fun h => String.eqb (hs_InboundTag h) tag) (map snd (map_to_list (hosts s))).

(** A row of [ListInboundsWithPort]: the port of the first host that has one, and all
    ports of hosts that are not disabled. *)
Definition listed_row (s : St) (i : InboundRow) : proxyInboundDTO :=
  mkListed (i_Tag i) (i_Protocol i) (i_Network i) (i_Security i)
    (match omap hs_Port (merge_sort by_id (hosts_of (i_Tag i) s)) with p :: _ => p | [] => 0 end)
    (validHostPorts (merge_sort Z.le (remove_dups
       (omap hs_Port (List.filter (fun h => negb (bool_decide (hs_IsDisabled h = Some true))) (hosts_of (i_Tag i) s)))))).

Definition ListInboundsWithPort : M callerr (list proxyInboundDTO) := query (fun s => Ok (map (listed_row s) (sorted_inbounds s))).

Definition add_tag (m : gmap string (list string)) (r : proxyInboundDTO) : gmap string (list string) :=
  <[li_Protocol r := (default [] (m !! li_Protocol r) ++ [li_Tag r])%list]> m.

(** [ask] is what the reseller's bot makes of the map; empty where it is off, or does
    not answer. *)
Definition handleListInbounds (sudo : bool) (ask : gmap string (list string) -> gmap string (list string)) :
  M failure (gmap string (list proxyInboundDTO)) :=
  rows ← catch ListInboundsWithPort (fun _ => Internal);
  let all := foldl add_tag ∅ rows in
  let shown := if sudo || bool_decide (ask all = ∅) then all else ask all in
  mret (map_imap (fun protocol tags => Some (map (fun tag =>
          match List.find (fun r => String.eqb (li_Tag r) tag) rows with
          | Some r => r
          | None => mkListed tag protocol "tcp" "none" 0 []
          end) tags)) shown).

(** [inboundDetailDTO] is also what the sync takes; a nil slice is [None]. *)
Record inboundDetailDTO := mkDetail {
  d_Tag : string; d_Protocol : string; d_Network : string; d_HeaderType : string; d_Security : string;
  d_RealityPrivateKey : string; d_RealityShortIDs : option (list string); d_RealityServerName : string; d_RealityServerPort : Z;
  d_TLSCertificate : string; d_TLSKey : string; d_TLSServerName : string; d_Hysteria2ObfsPassword : string;
  d_UpMbps : Z; d_DownMbps : Z; d_CongestionControl : string; d_ZeroRTTHandshake : bool; d_SnellPSK : string; d_SnellV6Mode : string
}.
Abbreviation inboundSyncEntry := inboundDetailDTO.

Definition toInboundDetailDTO (i : InboundRow) : inboundDetailDTO :=
  mkDetail (i_Tag i) (i_Protocol i) (i_Network i) (text (i_HeaderType i)) (i_Security i) (text (i_RealityPrivateKey i))
    (i_RealityShortIds i) (text (i_RealityServerName i)) (int4 (i_RealityServerPort i)) (text (i_TlsCertificate i))
    (text (i_TlsKey i)) (text (i_TlsServerName i)) (text (i_Hysteria2ObfsPassword i)) (int4 (i_UpMbps i)) (int4 (i_DownMbps i))
    (text (i_CongestionControl i)) (i_ZeroRttHandshake i) (text (i_SnellPsk i)) (text (i_SnellV6Mode i)).

Definition handleListInboundsDetailed : M failure (list inboundDetailDTO) :=
  rows ← catch ListInbounds (fun _ => Internal); mret (map toInboundDetailDTO rows).

(** ** Deleting *)

Definition deleteInboundByTag (now : Z) (tag : string) : M failure unit :=
  _ ← catch (GetInboundByTag tag) (fun e => match e with NodeAdmin.NoRows => NotFound | _ => Internal end);
  _ ← catch (DeleteInboundByTag now tag) (fun _ => Internal);
  catch InvalidateInbound (fun _ => Internal).

(** Not at all when there is no inbound. *)
Definition pruneOrphanedProxies (now : Z) : M callerr Z :=
  rows ← ListInbounds;
  match rows with [] => mret 0 | _ => PruneOrphanedProxies now end.

(** The number of proxies removed. *)
Definition handleDeleteInbound (now : Z) (tag : string) : M failure Z :=
  _ ← deleteInboundByTag now tag;
  _ ← logged tt (InvalidateNodeConfigPayload now);
  logged 0 (pruneOrphanedProxies now).

(** ** Syncing *)

Definition proxyTypeValid (protocol : string) : bool := str_mem protocol inbound_protocols.
Definition validSnellV6Modes : list string := ["default"; "unshaped"; "unsafe-raw"].
Definition realityPortToPg (port : Z) : option Z := if port =? 0 then None else Some port.
Definition pgInt4FromZero (n : Z) : option Z := if n =? 0 then None else Some n.
Definition nonempty (s : string) : option string := UserApi.normalizeZeroString (Some s).

(** The check of one entry; the quotes in its messages are left out. *)
Definition validate_entry (e : inboundSyncEntry) : result failure unit :=
  let fail_if b msg := if (b : bool) then Err (Invalid msg) else Ok tt in
  _ ← fail_if (negb (proxyTypeValid (d_Protocol e))) ("unknown protocol: " ++ d_Protocol e);
  _ ← fail_if (str_mem (d_Protocol e) ["hysteria2"; "tuic"; "anytls"] && negb (String.eqb (d_Security e) "tls"))
        ("inbound " ++ d_Tag e ++ ": security must be tls for protocol " ++ d_Protocol e);
  _ ← fail_if (String.eqb (d_Protocol e) "tuic" && negb (blank (d_CongestionControl e)) && negb (str_mem (d_CongestionControl e) validCongestionControl))
        ("inbound " ++ d_Tag e ++ ": invalid congestion_control " ++ d_CongestionControl e);
  if String.eqb (d_Protocol e) "snell" then
    _ ← fail_if ((String.length (d_SnellPSK e) <? 12)%nat || (255 <? String.length (d_SnellPSK e))%nat)
          ("inbound " ++ d_Tag e ++ ": snell_psk must be 12-255 bytes");
    fail_if (negb (blank (d_SnellV6Mode e)) && negb (str_mem (d_SnellV6Mode e) validSnellV6Modes))
      ("inbound " ++ d_Tag e ++ ": invalid snell_v6_mode " ++ d_SnellV6Mode e)
  else Ok tt.

Fixpoint validate_all (es : list inboundSyncEntry) : result failure unit :=
  match es with [] => Ok tt | e :: es => _ ← validate_entry e; validate_all es end.

Definition or_default (dflt s : string) : string := if blank s then dflt else s.

(** The row an entry asks for. *)
Definition row_of (e : inboundSyncEntry) : InboundRow :=
  mkInbound (d_Tag e) (d_Protocol e) (or_default "tcp" (d_Network e)) (nonempty (d_HeaderType e)) (or_default "none" (d_Security e))
    (nonempty (d_RealityPrivateKey e)) (d_RealityShortIDs e) (nonempty (d_RealityServerName e)) (realityPortToPg (d_RealityServerPort e))
    (nonempty (d_TLSCertificate e)) (nonempty (d_TLSKey e)) (nonempty (d_TLSServerName e)) (nonempty (d_Hysteria2ObfsPassword e))
    (pgInt4FromZero (d_UpMbps e)) (pgInt4FromZero (d_DownMbps e)) (nonempty (d_CongestionControl e)) (d_ZeroRTTHandshake e)
    (nonempty (d_SnellPSK e)) (nonempty (d_SnellV6Mode e)).

Definition default_remark := "Rapido ({USERNAME}) [{PROTOCOL} - {TRANSPORT}]".
Definition default_address := "{SERVER_IP}".

(** A host as the importers and the sync make them; an omitted column is NULL. *)
Definition plain_host (tag : string) (port : option Z) (alpn fingerprint : string) (priority id : Z) : Host :=
  mkHost id default_remark default_address port None None None "inbound_default" alpn fingerprint tag None None false None None false false priority.

Definition createDefaultHost (now : Z) (tag : string) : M callerr Host :=
  max ← GetMaxHostPriority;
  CreateHost now (plain_host tag None "none" "none" (int32 (max + 1))).

(** One entry of the second loop; whether the tag is new. *)
Definition sync_entry (now : Z) (e : inboundSyncEntry) : M failure bool :=
  _ ← catch (fun s => match GetInboundByTag (d_Tag e) s with
                      | (s, Err NodeAdmin.NoRows) => (s, Ok tt)
                      | (s, Err err) => (s, Err err)
                      | (s, Ok _) => (s, Ok tt)
                      end) (fun _ => Internal);
  '(_, inserted) ← catch (UpsertInbound now (row_of e)) (fun _ => Internal);
  _ ← catch InvalidateInbound (fun _ => Internal);
  if (inserted : bool) then _ ← catch (createDefaultHost now (d_Tag e)) (fun _ => Internal); mret true else mret false.

Fixpoint sync_all (now : Z) (created : Z) (es : list inboundSyncEntry) : M failure Z :=
  match es with
  | [] => mret created
  | e :: es => new ← sync_entry now e; sync_all now (if (new : bool) then created + 1 else created) es
  end.

(** How many tags are new. *)
Definition syncInboundEntries (now : Z) (es : list inboundSyncEntry) : M failure Z :=
  _ ← lift (validate_all es);
  created ← sync_all now 0 es;
  _ ← logged tt (InvalidateNodeConfigPayload now);
  mret created.

Definition handleSyncInbounds (now : Z) (es : list inboundSyncEntry) : M failure (Z * Z) :=
  created ← syncInboundEntries now es; mret (Z.of_nat (length es), created).
End Inbounds.

Module Hosts.
Import Tables Inbounds Regexp.

(** ** The patterns of the settings *)

Definition dash : re := chr "-".
Definition range (n : nat) : re := Alt (seqs [up_to n digit; dash; up_to n digit]) (up_to n digit).
Definition comma : re := chr ",".

Definition fragmentPattern : re :=
  seqs [range 4; comma; range 3; comma; alts [lit "tlshello"; digit; seqs [digit; dash; digit]]].

Definition noise_item : re :=
  seqs [alts [seqs [lit "rand:"; range 4]; seqs [lit "str:"; plus any]; seqs [lit "hex:"; plus any]; seqs [lit "base64:"; plus any]];
        opt (seqs [comma; range 4])].

Definition noisePattern : re := Seq noise_item (Star (Seq (chr "&") noise_item)).

(** ** One host *)

Record hostDTO := mkHostDTO {
  id : Z; remark : string; address : string; port : option Z; path : option string; sni : option string; host : option string;
  security : string; alpn : string; fingerprint : string; allowinsecure : option bool; is_disabled : option bool;
  mux_enable : bool; fragment_setting : option string; noise_setting : option string; random_user_agent : bool;
  use_sni_as_host : bool; priority : Z
}.

Definition toHostDTO (h : Host) : hostDTO :=
  mkHostDTO (hs_ID h) (hs_Remark h) (hs_Address h) (hs_Port h) (hs_Path h) (hs_Sni h) (hs_Host h) (hs_Security h) (hs_Alpn h)
    (hs_Fingerprint h) (hs_Allowinsecure h) (hs_IsDisabled h) (hs_MuxEnable h) (hs_FragmentSetting h) (hs_NoiseSetting h)
    (hs_RandomUserAgent h) (hs_UseSniAsHost h) (hs_Priority h).

(** The row a host of a request is stored as. *)
Definition stored_host (tag : string) (d : hostDTO) (newID : Z) : Host :=
  mkHost newID (remark d) (address d) (port d) (path d) (sni d) (host d) (security d) (alpn d) (fingerprint d) tag
    (allowinsecure d) (is_disabled d) (mux_enable d) (fragment_setting d) (noise_setting d) (random_user_agent d)
    (use_sni_as_host d) (priority d).

Definition with_priority (p : Z) (d : hostDTO) : hostDTO :=
  mkHostDTO (id d) (remark d) (address d) (port d) (path d) (sni d) (host d) (security d) (alpn d) (fingerprint d) (allowinsecure d)
    (is_disabled d) (mux_enable d) (fragment_setting d) (noise_setting d) (random_user_agent d) (use_sni_as_host d) p.

(** What is left out stands for the default. *)
Definition with_defaults (d : hostDTO) : hostDTO :=
  mkHostDTO (id d) (remark d) (address d) (port d) (path d) (sni d) (host d) (or_default "inbound_default" (security d))
    (or_default "none" (alpn d)) (or_default "none" (fingerprint d)) (allowinsecure d) (is_disabled d) (mux_enable d)
    (fragment_setting d) (noise_setting d) (random_user_agent d) (use_sni_as_host d) (priority d).

Fixpoint braces (depth : Z) (s : string) : bool :=
  match s with
  | "" => depth =? 0
  | String c s =>
      if Ascii.eqb c "{" then braces (depth + 1) s
      else if Ascii.eqb c "}" then if depth - 1 <? 0 then false else braces (depth - 1) s
      else braces depth s
  end.

Definition balancedBraces (s : string) : bool := braces 0 s.

Definition setting_ok (r : re) (o : option string) : bool :=
  match o with Some s => blank s || matches r s | None => true end.

Definition validateHost (d : hostDTO) : result failure unit :=
  let fail_if b msg := if (b : bool) then Err (Invalid msg) else Ok tt in
  _ ← fail_if (negb (balancedBraces (remark d))) "remark has unbalanced curly braces";
  _ ← fail_if (negb (balancedBraces (address d))) "address has unbalanced curly braces";
  _ ← fail_if (negb (blank (security d)) && negb (str_mem (security d) securities)) ("invalid security value: " ++ security d);
  _ ← fail_if (negb (blank (alpn d)) && negb (str_mem (alpn d) alpns)) ("invalid alpn value: " ++ alpn d);
  _ ← fail_if (negb (blank (fingerprint d)) && negb (str_mem (fingerprint d) fingerprints)) ("invalid fingerprint value: " ++ fingerprint d);
  _ ← fail_if (negb (setting_ok fragmentPattern (fragment_setting d))) "invalid fragment_setting format";
  _ ← fail_if (match noise_setting d with Some s => (2000 <? String.length s)%nat | None => false end)
        "noise_setting can be a maximum of 2000 characters";
  fail_if (negb (setting_ok noisePattern (noise_setting d))) "invalid noise_setting format".

(** ** The order of all hosts *)

Definition body : Type := list (string * list hostDTO).

(** A host of a request: its priority, tag and index. *)
Abbreviation ref := (Z * string * nat)%type.

Definition refs_of (b : body) : list ref :=
  flat_map (fun '(tag, hs) => imap (fun i d => (priority d, tag, i)) hs) b.

Definition ref_le (a b : ref) : Prop :=
  let '(p, t, i) := a in let '(q, u, j) := b in
  if p =? q then (if String.eqb t u then (i <= j)%nat else str_ltb u t = false) else p < q.
#[export] Instance ref_le_dec : RelDecision ref_le.
Proof. intros [[p t] i] [[q u] j]. unfold ref_le. repeat case_match; apply _. Defined.

Fixpoint position (tag : string) (i : nat) (l : list ref) : nat :=
  match l with
  | [] => 0
  | (_, t, j) :: l => if String.eqb t tag && (j =? i)%nat then 0 else S (position tag i l)
  end.

Definition normalizeHostPriorities (b : body) : body :=
  let sorted := merge_sort ref_le (refs_of b) in
  map (fun '(tag, hs) => (tag, imap (fun i d => with_priority (int32 (Z.of_nat (position tag i sorted))) d) hs)) b.

(** ** The handlers *)

Definition add_host (m : gmap string (list hostDTO)) (h : Host) : gmap string (list hostDTO) :=
  <[hs_InboundTag h := (default [] (m !! hs_InboundTag h) ++ [toHostDTO h])%list]> m.

Definition handleGetHosts : M failure (gmap string (list hostDTO)) :=
  rows ← catch ListHosts (fun _ => Internal); mret (foldl add_host ∅ rows).

Fixpoint check_hosts (hs : list hostDTO) : result failure (list hostDTO) :=
  match hs with
  | [] => Ok []
  | d :: hs => let d := with_defaults d in _ ← validateHost d; rest ← check_hosts hs; Ok (d :: rest)
  end.

(** The first loop. *)
Fixpoint check_body (b : body) : M failure body :=
  match b with
  | [] => mret []
  | (tag, hs) :: b =>
      _ ← catch (GetInboundByTag tag) (fun _ => Invalid ("Inbound " ++ tag ++ " doesn't exist"));
      hs ← lift (check_hosts hs);
      rest ← check_body b;
      mret ((tag, hs) :: rest)
  end.

Fixpoint create_hosts (now : Z) (tag : string) (hs : list hostDTO) (out : gmap string (list hostDTO)) : M failure (gmap string (list hostDTO)) :=
  match hs with
  | [] => mret out
  | d :: hs => h ← catch (CreateHost now (stored_host tag d)) (fun _ => Internal); create_hosts now tag hs (add_host out h)
  end.

(** The second loop, in the order it visits the map. *)
Fixpoint replace_hosts (now : Z) (b : body) (out : gmap string (list hostDTO)) : M failure (gmap string (list hostDTO)) :=
  match b with
  | [] => mret out
  | (tag, hs) :: b =>
      _ ← catch (DeleteHostsByInboundTag now tag) (fun _ => Internal);
      out ← create_hosts now tag hs out;
      replace_hosts now b out
  end.

(** [shuffle] reorders the body for the second loop. *)
Definition handlePutHosts (now : Z) (shuffle : body -> body) (b : body) : M failure (gmap string (list hostDTO)) :=
  b ← check_body b;
  out ← replace_hosts now (shuffle (normalizeHostPriorities b)) ∅;
  _ ← logged tt (InvalidateNodeConfigPayload now);
  mret out.
End Hosts.
