(* ===== verification/XrayConfig.v ===== *)
(** * XrayConfig: Xray core configurations — [internal/xrayimport]

    External tools read and write the panel's configuration as a document of another
    proxy core. [XrayImport] is [ParseXrayConfig] (types.go, xrayconfig.go, xrayimport.go):
    the document decoded, each inbound with several ports split into one per port, the
    rules turned to the split tags, and a warning for what could not be carried over.
    [XrayExport] is [BuildXrayJSON] (export.go). A raw message is kept as its value; a warning
    is a value, not its text. *)

From S2P Require Import Prelude GoStrings GoFloat GoJson GoIndent MySQLDump.
Import GoFloat.

#[local] Open Scope string_scope.
#[local] Open Scope Z_scope.
#[local] Set Warnings "-register-all".

Module XrayImport.

(** ** The document ([xrayconfig.go]) *)

(** [json.RawMessage]; [None] when the key is absent. *)
Record raw := Raw { message : option json }.

#[export] Instance raw_codec : Codec raw := {|
  to_json r := default JNull (message r);
  of_json j _ := Some (Raw (Some j));
  zero := Raw None;
  empty r := match message r with None => true | Some _ => false end
|}.

Record xrayCertificate := mkCertificate { c_Usage : string; c_Certificate : list string; c_Key : list string }.

#[export] Instance xrayCertificate_codec : Codec xrayCertificate := {|
  to_json c := JObject (emit "usage" (c_Usage c) ++ emit "certificate" (c_Certificate c) ++ emit "key" (c_Key c) ++ [])%list;
  of_json j old := match j with
    | JNull => Some old
    | JObject ms =>
        usage ← get_from "usage" (Some (c_Usage old)) ms;
        certificate ← get_from "certificate" (Some (c_Certificate old)) ms;
        key ← get_from "key" (Some (c_Key old)) ms;
        Some (mkCertificate usage certificate key)
    | _ => None
    end;
  zero := mkCertificate "" [] [];
  empty _ := false
|}.

Record xrayTLSSettings := mkTLS {
  t_ServerName : string; t_Fingerprint : string; t_Alpn : list string; t_MinVersion : string; t_Certificates : list xrayCertificate
}.

#[export] Instance xrayTLSSettings_codec : Codec xrayTLSSettings := {|
  to_json t := JObject (emit "serverName" (t_ServerName t) ++ emit "fingerprint" (t_Fingerprint t) ++ emit "alpn" (t_Alpn t) ++
    emit "minVersion" (t_MinVersion t) ++ emit "certificates" (t_Certificates t) ++ [])%list;
  of_json j old := match j with
    | JNull => Some old
    | JObject ms =>
        serverName ← get_from "servername" (Some (t_ServerName old)) ms;
        fingerprint ← get_from "fingerprint" (Some (t_Fingerprint old)) ms;
        alpn ← get_from "alpn" (Some (t_Alpn old)) ms;
        minVersion ← get_from "minversion" (Some (t_MinVersion old)) ms;
        certificates ← get_from "certificates" (Some (t_Certificates old)) ms;
        Some (mkTLS serverName fingerprint alpn minVersion certificates)
    | _ => None
    end;
  zero := mkTLS "" "" [] "" [];
  empty _ := false
|}.

Record xrayRealitySettings := mkReality {
  r_PrivateKey : string; r_ShortIds : option (list string); r_ServerNames : list string; r_Dest : string
}.

#[export] Instance xrayRealitySettings_codec : Codec xrayRealitySettings := {|
  to_json r := JObject (emit "privateKey" (r_PrivateKey r) ++ emit "shortIds" (r_ShortIds r) ++
    emit "serverNames" (r_ServerNames r) ++ emit "dest" (r_Dest r) ++ [])%list;
  of_json j old := match j with
    | JNull => Some old
    | JObject ms =>
        privateKey ← get_from "privatekey" (Some (r_PrivateKey old)) ms;
        shortIds ← get_from "shortids" (Some (r_ShortIds old)) ms;
        serverNames ← get_from "servernames" (Some (r_ServerNames old)) ms;
        dest ← get_from "dest" (Some (r_Dest old)) ms;
        Some (mkReality privateKey shortIds serverNames dest)
    | _ => None
    end;
  zero := mkReality "" None [] "";
  empty _ := false
|}.

(** A struct of one string: [xrayHeader], [xraySockopt], [xrayLog]. *)
Record field (name : string) := mkField { f_value : string }.
Arguments mkField {name} _.
Arguments f_value {name} _.

#[export] Instance field_codec name : Codec (field name) := {|
  to_json f := JObject (emit name (f_value f) ++ [])%list;
  of_json j old := match j with
    | JNull => Some old
    | JObject ms => v ← get_from name (Some (f_value old)) ms; Some (mkField v)
    | _ => None
    end;
  zero := mkField "";
  empty _ := false
|}.

Definition xrayHeader := field "type".
Definition xraySockopt := field "interface".
Definition xrayLog := field "loglevel".

Record xrayTCPSettings := mkTCP { tcp_Header : xrayHeader }.

#[export] Instance xrayTCPSettings_codec : Codec xrayTCPSettings := {|
  to_json t := JObject (emit (A := field "type") "header" (tcp_Header t) ++ [])%list;
  of_json j old := match j with
    | JNull => Some old
    | JObject ms => header ← get_from (A := field "type") "header" (Some (tcp_Header old)) ms; Some (mkTCP header)
    | _ => None
    end;
  zero := mkTCP (mkField "");
  empty _ := false
|}.

Record xrayStreamSettings := mkStream {
  s_Network : string; s_Security : string; s_TLSSettings : option xrayTLSSettings;
  s_RealitySettings : option xrayRealitySettings; s_TCPSettings : option xrayTCPSettings; s_Sockopt : option xraySockopt
}.

#[export] Instance xrayStreamSettings_codec : Codec xrayStreamSettings := {|
  to_json s := JObject (emit "network" (s_Network s) ++ emit "security" (s_Security s) ++ emit "tlsSettings" (s_TLSSettings s) ++
    emit "realitySettings" (s_RealitySettings s) ++ emit "tcpSettings" (s_TCPSettings s) ++
    emit (A := option (field "interface")) "sockopt" (s_Sockopt s) ++ [])%list;
  of_json j old := match j with
    | JNull => Some old
    | JObject ms =>
        network ← get_from "network" (Some (s_Network old)) ms;
        security ← get_from "security" (Some (s_Security old)) ms;
        tls ← get_from "tlssettings" (Some (s_TLSSettings old)) ms;
        reality ← get_from "realitysettings" (Some (s_RealitySettings old)) ms;
        tcp ← get_from "tcpsettings" (Some (s_TCPSettings old)) ms;
        sockopt ← get_from (A := option (field "interface")) "sockopt" (Some (s_Sockopt old)) ms;
        Some (mkStream network security tls reality tcp sockopt)
    | _ => None
    end;
  zero := mkStream "" "" None None None None;
  empty _ := false
|}.

(** [xrayInboundSettings] and [xraySniffing] are read for one field each. *)
Record xrayInbound := mkInbound {
  i_Tag : string; i_Port : raw; i_Protocol : string; i_Fallbacks : list raw; i_StreamSettings : xrayStreamSettings; i_Sniffing : bool
}.

(** A field of a nested struct. *)
Definition inner {A} `{Codec A} (name : string) (j : json) (old : A) : option A :=
  match j with JNull => Some old | JObject ms => get_from name (Some old) ms | _ => None end.

Definition get_inner {A} `{Codec A} (outer name : string) (old : A) (ms : list (string * json)) : option A :=
  foldl (fun acc kv => x ← acc; if is_key outer kv then inner name kv.2 x else Some x) (Some old) ms.

#[export] Instance xrayInbound_codec : Codec xrayInbound := {|
  to_json i := JObject (emit "tag" (i_Tag i) ++ emit "port" (i_Port i) ++ emit "protocol" (i_Protocol i) ++
    [("settings", JObject (emit "fallbacks" (i_Fallbacks i)))] ++ emit "streamSettings" (i_StreamSettings i) ++
    [("sniffing", JObject (emit "enabled" (i_Sniffing i)))])%list;
  of_json j old := match j with
    | JNull => Some old
    | JObject ms =>
        tag ← get_from "tag" (Some (i_Tag old)) ms;
        port ← get_from "port" (Some (i_Port old)) ms;
        protocol ← get_from "protocol" (Some (i_Protocol old)) ms;
        fallbacks ← get_inner "settings" "fallbacks" (i_Fallbacks old) ms;
        stream ← get_from "streamsettings" (Some (i_StreamSettings old)) ms;
        sniffing ← get_inner "sniffing" "enabled" (i_Sniffing old) ms;
        Some (mkInbound tag port protocol fallbacks stream sniffing)
    | _ => None
    end;
  zero := mkInbound "" (Raw None) "" [] zero false;
  empty _ := false
|}.

Record xrayOutbound := mkOutbound { o_Tag : string; o_Protocol : string; o_Settings : raw; o_StreamSettings : xrayStreamSettings }.

#[export] Instance xrayOutbound_codec : Codec xrayOutbound := {|
  to_json o := JObject (emit "tag" (o_Tag o) ++ emit "protocol" (o_Protocol o) ++ emit "settings" (o_Settings o) ++
    emit "streamSettings" (o_StreamSettings o) ++ [])%list;
  of_json j old := match j with
    | JNull => Some old
    | JObject ms =>
        tag ← get_from "tag" (Some (o_Tag old)) ms;
        protocol ← get_from "protocol" (Some (o_Protocol old)) ms;
        settings ← get_from "settings" (Some (o_Settings old)) ms;
        stream ← get_from "streamsettings" (Some (o_StreamSettings old)) ms;
        Some (mkOutbound tag protocol settings stream)
    | _ => None
    end;
  zero := mkOutbound "" "" (Raw None) zero;
  empty _ := false
|}.

(** The two shapes of an outbound's settings; a server has the fields of both. *)
Record xrayUser := mkUser { u_ID : string; u_Security : string; u_Flow : string }.

#[export] Instance xrayUser_codec : Codec xrayUser := {|
  to_json u := JObject (emit "id" (u_ID u) ++ emit "security" (u_Security u) ++ emit "flow" (u_Flow u) ++ [])%list;
  of_json j old := match j with
    | JNull => Some old
    | JObject ms =>
        id ← get_from "id" (Some (u_ID old)) ms;
        security ← get_from "security" (Some (u_Security old)) ms;
        flow ← get_from "flow" (Some (u_Flow old)) ms;
        Some (mkUser id security flow)
    | _ => None
    end;
  zero := mkUser "" "" "";
  empty _ := false
|}.

Record xrayVnext := mkVnext { v_Address : string; v_Port : Z; v_Users : list xrayUser }.

#[export] Instance xrayVnext_codec : Codec xrayVnext := {|
  to_json v := JObject (emit "address" (v_Address v) ++ emit "port" (v_Port v) ++ emit "users" (v_Users v) ++ [])%list;
  of_json j old := match j with
    | JNull => Some old
    | JObject ms =>
        address ← get_from "address" (Some (v_Address old)) ms;
        port ← get_from "port" (Some (v_Port old)) ms;
        users ← get_from "users" (Some (v_Users old)) ms;
        Some (mkVnext address port users)
    | _ => None
    end;
  zero := mkVnext "" 0 [];
  empty _ := false
|}.

Record xrayServer := mkServer { sv_Address : string; sv_Port : Z; sv_Password : string; sv_Method : string; sv_User : string }.

#[export] Instance xrayServer_codec : Codec xrayServer := {|
  to_json s := JObject (emit "address" (sv_Address s) ++ emit "port" (sv_Port s) ++ emit "password" (sv_Password s) ++
    emit "method" (sv_Method s) ++ emit "user" (sv_User s) ++ [])%list;
  of_json j old := match j with
    | JNull => Some old
    | JObject ms =>
        address ← get_from "address" (Some (sv_Address old)) ms;
        port ← get_from "port" (Some (sv_Port old)) ms;
        password ← get_from "password" (Some (sv_Password old)) ms;
        method ← get_from "method" (Some (sv_Method old)) ms;
        user ← get_from "user" (Some (sv_User old)) ms;
        Some (mkServer address port password method user)
    | _ => None
    end;
  zero := mkServer "" 0 "" "" "";
  empty _ := false
|}.

(** [json.Unmarshal] of the settings. *)
Definition settings_list {A} `{Codec A} (name : string) (r : raw) : option (list A) :=
  j ← message r; inner name j [].

(** [stringOrList] *)
Record stringOrList := mkTags { tags_of : list string }.

#[export] Instance stringOrList_codec : Codec stringOrList := {|
  to_json s := to_json (tags_of s);
  of_json j _ := match j with
    | JNull => Some (mkTags [])
    | JString s => Some (mkTags [s])
    | _ => l ← of_json j []; Some (mkTags l)
    end;
  zero := mkTags [];
  empty s := match tags_of s with [] => true | _ => false end
|}.

Record xrayRoutingRule := mkRule { q_Type : string; q_InboundTag : stringOrList; q_LocalPort : raw; q_OutboundTag : string }.

#[export] Instance xrayRoutingRule_codec : Codec xrayRoutingRule := {|
  to_json r := JObject (emit "type" (q_Type r) ++ emit "inboundTag" (q_InboundTag r) ++ emit "localPort" (q_LocalPort r) ++
    emit "outboundTag" (q_OutboundTag r) ++ [])%list;
  of_json j old := match j with
    | JNull => Some old
    | JObject ms =>
        type ← get_from "type" (Some (q_Type old)) ms;
        inboundTag ← get_from "inboundtag" (Some (q_InboundTag old)) ms;
        localPort ← get_from "localport" (Some (q_LocalPort old)) ms;
        outboundTag ← get_from "outboundtag" (Some (q_OutboundTag old)) ms;
        Some (mkRule type inboundTag localPort outboundTag)
    | _ => None
    end;
  zero := mkRule "" zero (Raw None) "";
  empty _ := false
|}.

Record xrayConfig := mkConfig {
  LogLevel : string; Servers : list raw; Inbounds : list xrayInbound; Outbounds : list xrayOutbound; DomainStrategy : string; Rules : list xrayRoutingRule
}.

Definition xrayConfig_of_json (j : json) : option xrayConfig :=
  match j with
  | JNull => Some (mkConfig "" [] [] [] "" [])
  | JObject ms =>
      level ← get_inner "log" "loglevel" "" ms;
      servers ← get_inner "dns" "servers" [] ms;
      inbounds ← get_from "inbounds" (Some []) ms;
      outbounds ← get_from "outbounds" (Some []) ms;
      strategy ← get_inner "routing" "domainstrategy" "" ms;
      rules ← get_inner "routing" "rules" [] ms;
      Some (mkConfig level servers inbounds outbounds strategy rules)
  | _ => None
  end.

(** ** The result ([types.go]) *)

Record Inbound := mkIn {
  Tag : string; Protocol : string; Network : string; HeaderType : string; Security : string;
  RealityPrivateKey : string; RealityShortIDs : option (list string); RealityServerName : string; RealityServerPort : Z;
  TLSCertificate : string; TLSKey : string; TLSServerName : string; HostALPN : string; HostFingerprint : string; Port : Z
}.

Record Outbound := mkOut {
  x_Tag : string; x_Type : string; x_Server : string; x_ServerPort : Z; x_Username : string; x_Password : string;
  x_Outbounds : list string; x_UUID : string; x_Flow : string; x_Method : string; x_Security : string;
  x_CongestionControl : string; x_TLSEnabled : bool; x_TLSServerName : string; x_TLSInsecure : bool; x_BindInterface : string
}.

Record RoutingRule := mkRoute {
  y_Inbound : list string; y_InboundPort : list Z; y_Domain : list string; y_DomainSuffix : list string;
  y_DomainKeyword : list string; y_IPCIDR : list string; y_IPIsPrivate : bool; y_Port : list Z; y_PortRange : list string;
  y_Network : list string; y_Protocol : list string; y_OutboundTag : string
}.

Record DNSServer := mkDNS { z_Tag : string; z_Type : string; z_Address : string; z_Port : Z; z_Path : string }.

(** Whose port field it is. *)
Inductive owner := OfInbound (tag : string) | OfRule.

Inductive warning :=
  | PortNeither (o : owner) | PortRange (o : owner) (part : string) | BadPort (o : owner) (part : string)
  | UnknownProtocol (tag protocol : string) | NoPort (tag : string) | FallbacksDropped (tag : string) (n : nat)
  | MinVersionDropped (tag : string) | MoreCertificates (tag : string) (n : nat)
  | AlpnDropped (tag alpn : string) | FingerprintDropped (tag fingerprint : string)
  | NoVnext (tag protocol : string) | NoServers (tag protocol : string) | UnsupportedOutbound (tag protocol : string)
  | ReservedTag (tag : string) | DomainStrategyDropped (strategy : string)
  | RuleType (type : string) | UnknownInbound (tag : string) | NoSuchPort (port : Z) (tag : string)
  | InRule (i : Z) (w : list warning) | StructuredDNS (i : Z).

Record Result := mkResult {
  res_Inbounds : list Inbound; res_Outbounds : list Outbound; res_RoutingRules : list RoutingRule; res_DNSServers : list DNSServer;
  res_LogLevel : string; res_SniffEnabled : bool; res_Warnings : list warning
}.

(** ** [xrayimport.go] *)

Definition validHostALPN : list string := ["none"; "h3"; "h2"; "http/1.1"; "h3,h2,http/1.1"; "h3,h2"; "h2,http/1.1"].
Definition validHostFingerprint : list string :=
  ["none"; "chrome"; "firefox"; "safari"; "ios"; "android"; "edge"; "360"; "qq"; "random"; "randomized"].
Definition validProtocols : list string := ["vmess"; "vless"; "trojan"; "shadowsocks"].

Record splitTag := mkSplit { sp_port : Z; sp_tag : string }.

Definition mapLogLevel (level : string) : string :=
  if str_mem level ["debug"; "info"; "error"] then level else "warn".

(** A JSON number as a [float64], and its integer part; what is out of range becomes
    the least integer, as on the platforms the panel runs on. *)
Definition as_number (j : json) : option float64 :=
  match j with
  | JNumber n => match MySQLDump.ParseFloat n with Some (MySQLDump.Finite x) => Some x | _ => None end
  | JNull => Some (of_int 0)
  | _ => None
  end.

Definition int_of (x : float64) : Z := if bool_decide (fits 64 (Trunc x)) then Trunc x else - 2 ^ 63.

Fixpoint port_parts (o : owner) (parts : list string) : list Z * list warning :=
  match parts with
  | [] => ([], [])
  | part :: parts =>
      let part := TrimSpace part in
      let '(ports, ws) := port_parts o parts in
      if String.eqb part "" then (ports, ws)
      else if Contains part "-" then (ports, PortRange o part :: ws)
      else match ParseInt part with
           | Some n => (n :: ports, ws)
           | None => (ports, BadPort o part :: ws)
           end
  end.

Definition parsePortList (r : raw) (o : owner) : list Z * list warning :=
  match message r with
  | None => ([], [])
  | Some j =>
      match as_number j with
      | Some x => ([int_of x], [])
      | None => match j with
                | JString s => port_parts o (split_at "," s)
                | _ => ([], [PortNeither o])
                end
      end
  end.

(** What [tlsSettings] say: certificate, key, server name, and the ALPN and fingerprint
    of the default host. *)
Definition tls_parts (tag : string) (o : option xrayTLSSettings) : string * string * string * string * string * list warning :=
  match o with
  | None => ("", "", "", "", "", [])
  | Some t =>
      let joined := Join (t_Alpn t) "," in
      let '(cert, key) := match t_Certificates t with
                          | c :: _ => (Join (c_Certificate c) (String "010" ""), Join (c_Key c) (String "010" ""))
                          | [] => ("", "")
                          end in
      (cert, key, t_ServerName t,
       match t_Alpn t with [] => "" | _ => if str_mem joined validHostALPN then joined else "" end,
       (if String.eqb (t_Fingerprint t) "" then "" else if str_mem (t_Fingerprint t) validHostFingerprint then t_Fingerprint t else ""),
       ((if String.eqb (t_MinVersion t) "" then [] else [MinVersionDropped tag]) ++
        (if (1 <? length (t_Certificates t))%nat then [MoreCertificates tag (length (t_Certificates t))] else []) ++
        (match t_Alpn t with [] => [] | _ => if str_mem joined validHostALPN then [] else [AlpnDropped tag joined] end) ++
        (if String.eqb (t_Fingerprint t) "" then [] else if str_mem (t_Fingerprint t) validHostFingerprint then []
         else [FingerprintDropped tag (t_Fingerprint t)]))%list)
  end.

(** What [realitySettings] say: key, short ids, server name, port of the target. *)
Definition reality_parts (o : option xrayRealitySettings) : string * option (list string) * string * Z :=
  match o with
  | None => ("", None, "", 0)
  | Some r =>
      (r_PrivateKey r, r_ShortIds r, match r_ServerNames r with n :: _ => n | [] => "" end,
       match after_first (r_Dest r) ":" with
       | Some port => match ParseInt port with Some p => int32 p | None => 0 end
       | None => 0
       end)
  end.

Definition split_tag (tag : string) (multi : bool) (port : Z) : string := if multi then tag ++ "-" ++ Itoa port else tag.

Definition parseInbound (i : xrayInbound) : list Inbound * list splitTag * list warning :=
  if negb (str_mem (i_Protocol i) validProtocols) then ([], [], [UnknownProtocol (i_Tag i) (i_Protocol i)])
  else
    let '(ports, ws) := parsePortList (i_Port i) (OfInbound (i_Tag i)) in
    match ports with
    | [] => ([], [], (ws ++ [NoPort (i_Tag i)])%list)
    | _ =>
        let s := i_StreamSettings i in
        let header := match s_TCPSettings s with Some t => f_value (tcp_Header t) | None => "" end in
        let '(cert, key, serverName, alpn, fingerprint, tws) := tls_parts (i_Tag i) (s_TLSSettings s) in
        let '(privateKey, shortIDs, realityName, realityPort) := reality_parts (s_RealitySettings s) in
        let multi := (1 <? length ports)%nat in
        (map (fun port => mkIn (split_tag (i_Tag i) multi port) (i_Protocol i) (s_Network s) header (s_Security s)
                privateKey shortIDs realityName realityPort cert key serverName alpn fingerprint (int32 port)) ports,
         map (fun port => mkSplit port (split_tag (i_Tag i) multi port)) ports,
         (ws ++ (match i_Fallbacks i with [] => [] | l => [FallbacksDropped (i_Tag i) (length l)] end) ++ tws)%list)
    end.

Definition applyOutboundTLS (s : xrayStreamSettings) : bool * string :=
  match s_TLSSettings s with
  | Some t => if String.eqb (s_Security s) "tls" then (true, t_ServerName t) else (false, "")
  | None => (false, "")
  end.

Definition parseOutbound (o : xrayOutbound) : option Outbound * option warning :=
  let bind := match s_Sockopt (o_StreamSettings o) with Some f => f_value f | None => "" end in
  let '(tls, name) := applyOutboundTLS (o_StreamSettings o) in
  let p := o_Protocol o in
  if String.eqb p "freedom" then (Some (mkOut (o_Tag o) "direct" "" 0 "" "" [] "" "" "" "" "" false "" false bind), None)
  else if String.eqb p "blackhole" then (Some (mkOut (o_Tag o) "block" "" 0 "" "" [] "" "" "" "" "" false "" false bind), None)
  else if str_mem p ["vmess"; "vless"] then
    match settings_list "vnext" (o_Settings o) with
    | Some (mkVnext address port (u :: _) :: _) =>
        (Some (mkOut (o_Tag o) p address port "" "" [] (u_ID u) (u_Flow u) "" (u_Security u) "" tls name false bind), None)
    | _ => (None, Some (NoVnext (o_Tag o) p))
    end
  else if str_mem p ["trojan"; "shadowsocks"; "socks"; "http"] then
    match settings_list "servers" (o_Settings o) with
    | Some (s :: _) =>
        (Some (mkOut (o_Tag o) p (sv_Address s) (sv_Port s) (sv_User s) (sv_Password s) [] "" "" (sv_Method s) "" "" tls name false bind), None)
    | _ => (None, Some (NoServers (o_Tag o) p))
    end
  else if String.eqb p "" then (None, None)
  else (None, Some (UnsupportedOutbound (o_Tag o) p)).

(** The split tags of one port, and whether the port has one. *)
Fixpoint ports_of (orig : string) (splits : list splitTag) (ports : list Z) : list string * list warning :=
  match ports with
  | [] => ([], [])
  | p :: ports =>
      let '(tags, ws) := ports_of orig splits ports in
      match List.find (fun s => sp_port s =? p) splits with
      | Some s => (sp_tag s :: tags, ws)
      | None => (tags, NoSuchPort p orig :: ws)
      end
  end.

Fixpoint resolve (splits : gmap string (list splitTag)) (ports : list Z) (origs : list string) : list string * list warning :=
  match origs with
  | [] => ([], [])
  | orig :: origs =>
      let '(tags, ws) := resolve splits ports origs in
      match splits !! orig with
      | None => (tags, UnknownInbound orig :: ws)
      | Some l => match ports with
                  | [] => ((map sp_tag l ++ tags)%list, ws)
                  | _ => let '(found, lost) := ports_of orig l ports in ((found ++ tags)%list, (lost ++ ws)%list)
                  end
      end
  end.

Definition plain_rule (tags : list string) (outboundTag : string) : RoutingRule :=
  mkRoute tags [] [] [] [] [] false [] [] [] [] outboundTag.

Definition parseRoutingRule (splits : gmap string (list splitTag)) (r : xrayRoutingRule) : option RoutingRule * list warning :=
  if negb (String.eqb (q_Type r) "") && negb (String.eqb (q_Type r) "field") then (None, [RuleType (q_Type r)])
  else match tags_of (q_InboundTag r) with
       | [] => (Some (plain_rule [] (q_OutboundTag r)), [])
       | origs =>
           let '(ports, pws) := parsePortList (q_LocalPort r) OfRule in
           let '(tags, ws) := resolve splits ports origs in
           (Some (plain_rule tags (q_OutboundTag r)), (pws ++ ws)%list)
       end.

Fixpoint parseDNSServers (i : Z) (l : list raw) : list DNSServer * list warning :=
  match l with
  | [] => ([], [])
  | r :: l =>
      let '(servers, ws) := parseDNSServers (i + 1) l in
      match message r with
      | Some (JString addr) => (mkDNS ("dns-" ++ Itoa (i + 1)) "udp" addr 0 "" :: servers, ws)
      | Some JNull => (mkDNS ("dns-" ++ Itoa (i + 1)) "udp" "" 0 "" :: servers, ws)
      | _ => (servers, StructuredDNS i :: ws)
      end
  end.

Inductive parse_error := NotJSON | Empty.

Fixpoint parse_rules (splits : gmap string (list splitTag)) (i : Z) (rs : list xrayRoutingRule) : list RoutingRule * list warning :=
  match rs with
  | [] => ([], [])
  | r :: rs =>
      let '(rule, ws) := parseRoutingRule splits r in
      let '(rules, more) := parse_rules splits (i + 1) rs in
      ((match rule with Some r => r :: rules | None => rules end), (match ws with [] => more | _ => InRule i ws :: more end))
  end.

Fixpoint parse_outbounds (os : list xrayOutbound) : list Outbound * list warning :=
  match os with
  | [] => ([], [])
  | o :: os =>
      let '(parsed, w) := parseOutbound o in
      let '(outs, ws) := parse_outbounds os in
      let ws' rest := match w with Some w => w :: rest | None => rest end in
      match parsed with
      | None => (outs, ws' ws)
      | Some p => if str_mem (x_Tag p) ["direct"; "block"] then (outs, ws' (ReservedTag (x_Tag p) :: ws)) else (p :: outs, ws' ws)
      end
  end.

(** The splits by original tag: the last inbound of a name decides. *)
Definition tag_splits (is_ : list xrayInbound) : gmap string (list splitTag) :=
  foldl (fun m i => <[i_Tag i := (parseInbound i).1.2]> m) ∅ is_.

Definition translate (c : xrayConfig) : Result :=
  let splits := tag_splits (Inbounds c) in
  let '(outs, ows) := parse_outbounds (Outbounds c) in
  let '(rules, rws) := parse_rules splits 1 (Rules c) in
  let '(servers, dws) := parseDNSServers 0 (Servers c) in
  mkResult (flat_map (fun i => (parseInbound i).1.1) (Inbounds c)) outs rules servers (mapLogLevel (LogLevel c))
    (existsb i_Sniffing (Inbounds c))
    (flat_map (fun i => (parseInbound i).2) (Inbounds c) ++ ows ++
     (if String.eqb (DomainStrategy c) "" then [] else [DomainStrategyDropped (DomainStrategy c)]) ++ rws ++ dws)%list.

Definition ParseXrayConfig (text : string) : result parse_error Result :=
  match parse text ≫= xrayConfig_of_json with
  | None => Err NotJSON
  | Some c => match Inbounds c, Outbounds c with [], [] => Err Empty | _, _ => Ok (translate c) end
  end.
End XrayImport.

Module XrayExport.
Import XrayImport.

(** ** Input *)

Record ExportClient := mkClient { k_Email : string; k_UUID : string; k_Flow : string; k_Password : string; k_Method : string }.

Record ExportInbound := mkExport {
  e_Tag : string; e_Protocol : string; e_Network : string; e_HeaderType : string; e_Security : string;
  e_RealityPrivateKey : string; e_RealityShortIDs : option (list string); e_RealityServerName : string; e_RealityServerPort : Z;
  e_TLSCertificate : string; e_TLSKey : string; e_TLSServerName : string; e_Port : Z; e_Ports : list Z; e_SNI : string; e_Host : string;
  e_Clients : list ExportClient
}.

(** ** Text helpers *)

Fixpoint itoa_digits (fuel : nat) (n : Z) (acc : string) : string :=
  match fuel with
  | O => acc
  | S fuel => if 0 <? n then itoa_digits fuel (n / 10) (String (digit_ascii (n mod 10)) acc) else acc
  end.

(** The file's own [itoa]; the buffer has 20 bytes. *)
Definition itoa (n : Z) : string :=
  if n =? 0 then "0"
  else let m := if n <? 0 then int64 (- n) else n in
       (if n <? 0 then "-" else "") ++ itoa_digits 20 m "".

Definition joinInts (ns : list Z) : string := Join (map itoa ns) ",".

(** The pieces before each line feed, and what follows the last if there is any. *)
Fixpoint pem_lines (acc s : string) : list string :=
  match s with
  | "" => if String.eqb acc "" then [] else [acc]
  | String c s => if Ascii.eqb c "010" then acc :: pem_lines "" s else pem_lines (acc ++ String c "") s
  end.

(** nil for an empty text. *)
Definition splitPEMLines (pem : string) : option (list string) :=
  if String.eqb pem "" then None else Some (pem_lines "" pem).

Definition nonNilStrings (s : option (list string)) : list string := default [] s.

Definition exportLogLevel (level : string) : string :=
  if str_mem level ["debug"; "info"; "error"] then level else "warning".

(** ** The document: maps are written in the order of their keys *)

Definition member (name : string) (j : json) : list (string * json) := [(name, j)].

Definition client_json (protocol : string) (c : ExportClient) : json :=
  JObject (emit "email" (k_Email c) ++
    (if String.eqb protocol "vmess" then emit "id" (k_UUID c)
     else if String.eqb protocol "vless" then omitempty "flow" (k_Flow c) ++ emit "id" (k_UUID c)
     else if String.eqb protocol "trojan" then emit "password" (k_Password c)
     else if String.eqb protocol "shadowsocks" then emit "method" (k_Method c) ++ emit "password" (k_Password c)
     else []))%list.

Definition inbound_settings (i : ExportInbound) : json :=
  JObject (member "clients" (JArray (map (client_json (e_Protocol i)) (e_Clients i))) ++
    (if String.eqb (e_Protocol i) "vless" then emit "decryption" "none" else []))%list.

Definition tls_json (i : ExportInbound) : json :=
  JObject (member "certificates" (JArray [JObject (emit "certificate" (splitPEMLines (e_TLSCertificate i)) ++ emit "certificateFile" "" ++
      emit "key" (splitPEMLines (e_TLSKey i)) ++ emit "keyFile" "")%list]) ++
    emit "serverName" (e_TLSServerName i))%list.

Definition reality_json (i : ExportInbound) : json :=
  let named := negb (String.eqb (e_RealityServerName i) "") in
  JObject ((if named && negb (e_RealityServerPort i =? 0)
            then emit "dest" (e_RealityServerName i ++ ":" ++ itoa (e_RealityServerPort i))%string else []) ++
    emit "privateKey" (e_RealityPrivateKey i) ++
    (if named then emit "serverNames" [e_RealityServerName i] else []) ++
    emit "shortIds" (nonNilStrings (e_RealityShortIDs i)))%list.

Definition stream_json (i : ExportInbound) : json :=
  let network := if String.eqb (e_Network i) "" then "tcp" else e_Network i in
  let tcp := if str_mem network ["tcp"; "raw"]
             then member "tcpSettings" (JObject (member "header" (JObject (emit "type" (if String.eqb (e_HeaderType i) "" then "none" else e_HeaderType i)))))
             else [] in
  JObject (emit "network" network ++
    (if String.eqb (e_Security i) "tls" then emit "security" "tls" ++ tcp ++ member "tlsSettings" (tls_json i)
     else if String.eqb (e_Security i) "reality" then member "realitySettings" (reality_json i) ++ emit "security" "reality" ++ tcp
     else emit "security" "none" ++ tcp))%list.

Definition port_json (i : ExportInbound) : json :=
  if (1 <? length (e_Ports i))%nat then JString (joinInts (e_Ports i)) else JInt (e_Port i).

Definition sniffing_json : json := JObject (emit "destOverride" ["http"; "tls"] ++ emit "enabled" true)%list.

Definition buildXrayInbound (sniffEnabled : bool) (i : ExportInbound) : json :=
  JObject (member "port" (port_json i) ++ emit "protocol" (e_Protocol i) ++ member "settings" (inbound_settings i) ++
    (if sniffEnabled then member "sniffing" sniffing_json else []) ++ member "streamSettings" (stream_json i) ++ emit "tag" (e_Tag i))%list.

Definition vnext_settings (o : Outbound) : json :=
  let user := JObject (omitempty "flow" (x_Flow o) ++ emit "id" (x_UUID o) ++ omitempty "security" (x_Security o))%list in
  JObject (member "vnext" (JArray [JObject (emit "address" (x_Server o) ++ emit "port" (x_ServerPort o) ++ member "users" (JArray [user]))%list])).

Definition server_settings (o : Outbound) : json :=
  JObject (member "servers" (JArray [JObject (emit "address" (x_Server o) ++ omitempty "method" (x_Method o) ++
    omitempty "password" (x_Password o) ++ emit "port" (x_ServerPort o) ++ omitempty "user" (x_Username o))%list])).

(** [None] for a type the other core does not have. *)
Definition outbound_head (o : Outbound) : option (list (string * json)) :=
  let t := x_Type o in
  if String.eqb t "direct" then Some (emit "protocol" "freedom")
  else if String.eqb t "block" then Some (emit "protocol" "blackhole")
  else if str_mem t ["vmess"; "vless"] then Some (emit "protocol" t ++ member "settings" (vnext_settings o))%list
  else if str_mem t ["trojan"; "shadowsocks"; "socks"; "http"] then Some (emit "protocol" t ++ member "settings" (server_settings o))%list
  else None.

Definition outbound_stream (o : Outbound) : list (string * json) :=
  let sockopt := if String.eqb (x_BindInterface o) "" then [] else member "sockopt" (JObject (emit "interface" (x_BindInterface o))) in
  if x_TLSEnabled o
  then (emit "security" "tls" ++ sockopt ++
        member "tlsSettings" (JObject (emit "allowInsecure" (x_TLSInsecure o) ++ emit "serverName" (x_TLSServerName o))%list))%list
  else sockopt.

Definition buildXrayOutbound (o : Outbound) : option json :=
  head ← outbound_head o;
  Some (JObject (head ++ (match outbound_stream o with [] => [] | stream => member "streamSettings" (JObject stream) end) ++
                 emit "tag" (x_Tag o))%list).

Definition buildXrayRoutingRule (r : RoutingRule) : json :=
  JObject (omitempty "domain" (y_DomainKeyword r ++ map (fun d => "full:" ++ d)%string (y_Domain r) ++ map (fun d => "domain:" ++ d)%string (y_DomainSuffix r))%list ++
    omitempty "inboundTag" (y_Inbound r) ++
    omitempty "ip" (y_IPCIDR r ++ (if y_IPIsPrivate r then ["geoip:private"] else []))%list ++
    (match y_InboundPort r with [] => [] | ps => emit "localPort" (joinInts ps) end) ++
    (match y_Network r with [] => [] | ns => emit "network" (Join ns ",") end) ++
    emit "outboundTag" (y_OutboundTag r) ++
    (match (map itoa (y_Port r) ++ y_PortRange r)%list with [] => [] | ps => emit "port" (Join ps ",") end) ++
    omitempty "protocol" (y_Protocol r) ++ emit "type" "field")%list.

Definition document (inbounds : list ExportInbound) (outbounds : list Outbound) (rules : list RoutingRule)
    (dnsServers : list DNSServer) (logLevel : string) (sniffEnabled : bool) : json :=
  JObject (member "dns" (JObject (emit "servers" (List.filter (fun a => negb (String.eqb a "")) (map z_Address dnsServers)))) ++
    member "inbounds" (JArray (map (buildXrayInbound sniffEnabled) inbounds)) ++
    member "log" (JObject (emit "loglevel" (exportLogLevel logLevel))) ++
    member "outbounds" (JArray (omap buildXrayOutbound outbounds)) ++
    member "routing" (JObject (emit "domainStrategy" "IPIfNonMatch" ++ member "rules" (JArray (map buildXrayRoutingRule rules)))%list))%list.

Definition BuildXrayJSON (inbounds : list ExportInbound) (outbounds : list Outbound) (rules : list RoutingRule)
    (dnsServers : list DNSServer) (logLevel : string) (sniffEnabled : bool) : string :=
  MarshalIndent (document inbounds outbounds rules dnsServers logLevel sniffEnabled).
End XrayExport.
