(* ===== verification/XrayAdmin.v ===== *)
(** * XrayAdmin: the configuration as one document — [xrayimport.go], [xrayconfig.go], [corexrayconfig.go]

    The handlers of [internal/httpapi] that read and write core configuration and
    inbounds together: the import of an Xray file ([applyParsedXrayConfig], which merges
    the core configuration rather than replacing it), the document external tools read
    ([handleGetRawXrayConfig], with every secret taken out for an admin who is not sudo)
    and write back, and the panel's own editor ([handleGetXrayConfig],
    [handleUpdateXrayConfig]), which deletes the inbounds a document leaves out. *)

From stdpp Require Import sorting.
From S2P Require Import Prelude GoStrings GoJson ProxySettings Store Effect CoreDto CoreConfig NodeAdmin NodeConfig Share XrayConfig Inventory.
Import Rules NodeConfig Tables Inbounds.

#[local] Open Scope string_scope.
#[local] Open Scope Z_scope.

Module XrayAdmin.

(** ** Importing ([xrayimport.go]) *)

Section merge.
Import XrayImport.

Definition outbound_dto (o : Outbound) : outboundDTO :=
  CoreDto.mkOutbound (x_Tag o) (x_Type o) (x_Server o) (x_ServerPort o) (x_Username o) (x_Password o) (x_Outbounds o) (x_UUID o)
    (x_Flow o) (x_Method o) (x_Security o) (x_CongestionControl o) 0 "" "" "" "" 0 0 "" "" (x_TLSEnabled o) (x_TLSServerName o)
    (x_TLSInsecure o) (x_BindInterface o) false.

(** The port of the inbound is not taken over: an import never has one. *)
Definition rule_dto (r : RoutingRule) : routingRuleDTO :=
  CoreDto.mkRule (y_Inbound r) [] (y_Domain r) (y_DomainSuffix r) (y_DomainKeyword r) (y_IPCIDR r) (y_IPIsPrivate r) (y_Port r)
    (y_PortRange r) (y_Network r) (y_Protocol r) (y_OutboundTag r).

Definition dns_dto (d : DNSServer) : dnsServerDTO := CoreDto.mkDns (z_Tag d) (z_Type d) (z_Address d) (z_Port d) (z_Path d).

(** The text of a rule is its identity. *)
Definition rule_key (r : routingRuleDTO) : string := encode (to_json r).

(** [append] of what is not there yet, by a key; a nil slice stays nil. *)
Fixpoint new_by {A} (key : A -> string) (seen : list string) (l : list A) : list A :=
  match l with
  | [] => []
  | x :: l => if str_mem (key x) seen then new_by key seen l else x :: new_by key (key x :: seen) l
  end.

Definition append_new {A} (key : A -> string) (old : option (list A)) (l : list A) : option (list A) :=
  match new_by key (map key (elems old)) l with [] => old | new => Some (elems old ++ new)%list end.

Definition appendNewRoutingRules (existing : option (list routingRuleDTO)) (imported : list RoutingRule) : option (list routingRuleDTO) :=
  append_new rule_key existing (map rule_dto imported).

Definition merge (c : coreConfigDTO) (p : Result) : coreConfigDTO :=
  mkCore (if blank (res_LogLevel p) then Rules.LogLevel c else res_LogLevel p) (SniffEnabled c || res_SniffEnabled p)
    (append_new ob_Tag (Rules.Outbounds c) (map outbound_dto (res_Outbounds p)))
    (appendNewRoutingRules (RoutingRules c) (res_RoutingRules p))
    (append_new dns_Tag (DNSServers c) (map dns_dto (res_DNSServers p))) (UpdatedAt c).

Definition mergeCoreConfigForImport (p : Result) : M callerr coreConfigDTO :=
  c ← in_panel NodeAdmin.GetCoreConfig; mret (merge c p).

Definition entry_of (i : Inbound) : inboundSyncEntry :=
  mkDetail (Tag i) (Protocol i) (Network i) (HeaderType i) (Security i) (RealityPrivateKey i) (RealityShortIDs i)
    (RealityServerName i) (RealityServerPort i) (TLSCertificate i) (TLSKey i) (TLSServerName i) "" 0 0 "" false "" "".

(** One host with the port of the inbound instead of those it had. *)
Fixpoint imported_hosts (now : Z) (next : Z) (l : list Inbound) : M callerr unit :=
  match l with
  | [] => mret tt
  | i :: l =>
      _ ← DeleteHostsByInboundTag now (Tag i);
      _ ← CreateHost now (plain_host (Tag i) (Some (int32 (Port i))) (or_default "none" (HostALPN i)) (or_default "none" (HostFingerprint i)) next);
      imported_hosts now (int32 (next + 1)) l
  end.

(** The error is whether the payload is to blame. *)
Definition applyParsedXrayConfig (now : Z) (p : Result) : M bool unit :=
  _ ← catch (syncInboundEntries now (map entry_of (res_Inbounds p))) (fun _ => false);
  max ← catch GetMaxHostPriority (fun _ => false);
  _ ← catch (imported_hosts now (int32 (max + 1)) (res_Inbounds p)) (fun _ => false);
  merged ← catch (mergeCoreConfigForImport p) (fun _ => false);
  _ ← catch (in_panel (NodeAdmin.applyCoreConfig now merged)) (fun _ => true);
  mret tt.

(** *** The requests; the error is a status *)

Definition counts : Type := nat * nat * nat * nat.

Definition counts_of (p : Result) : counts :=
  (length (res_Inbounds p), length (res_Outbounds p), length (res_RoutingRules p), length (res_DNSServers p)).

Definition parsed (status : Z) (text : string) : result Z Result :=
  match ParseXrayConfig text with Ok p => Ok p | Err _ => Err status end.

Definition handleImportXrayConfig (now : Z) (text : string) (confirm : bool) : M Z (bool * counts * list warning) :=
  p ← lift (parsed 422 text);
  _ ← (if confirm then catch (applyParsedXrayConfig now p) (fun bad => if (bad : bool) then 422 else 500) else mret tt);
  mret (confirm, counts_of p, res_Warnings p).

Definition handlePutRawXrayConfig (now : Z) (text : string) : M Z string :=
  p ← lift (parsed 400 text);
  _ ← catch (applyParsedXrayConfig now p) (fun bad => if (bad : bool) then 400 else 500);
  mret text.

(** Whether it is valid, and the warnings. *)
Definition handleValidateRawXrayConfig (text : string) : bool * list warning :=
  match ParseXrayConfig text with Ok p => (true, res_Warnings p) | Err _ => (false, []) end.
End merge.

(** ** The document for external tools ([corexrayconfig.go]) *)

Section export.
Import XrayImport XrayExport.

Definition host_row (h : Host) : HostRow :=
  NodeConfig.mkHost (hs_ID h) (hs_InboundTag h) (hs_Port h) (hs_Host h) (hs_Path h) (hs_IsDisabled h).

Definition inbound_rows (s : St) : list InboundRow := map snd (map_to_list (inbounds s)).
Definition host_rows (s : St) : list HostRow := map host_row (map snd (map_to_list (hosts s))).

Definition ListAutoSyncInbounds : M callerr (list AutoSyncRow) :=
  query (fun s => Ok (NodeConfig.ListAutoSyncInbounds (inbound_rows s) (host_rows s))).

Definition ListActiveUserProxies : M callerr (list ProxyRow) :=
  query (fun s => Ok (NodeConfig.ListActiveUserProxiesForNodeConfig (db s))).

(** The client of a stored proxy; [None] for the protocols the other core does not
    have. *)
Definition client_of (r : ProxyRow) (s : ProxySettings.Settings) : option ExportClient :=
  match s with
  | ProxySettings.VMessSettings id => Some (mkClient (pr_Username r) id "" "" "")
  | ProxySettings.VLESSSettings id flow => Some (mkClient (pr_Username r) id flow "" "")
  | ProxySettings.TrojanSettings p _ => Some (mkClient (pr_Username r) "" "" p "")
  | ProxySettings.ShadowsocksSettings p m => Some (mkClient (pr_Username r) "" "" p m)
  | _ => None
  end.

Definition exported_protocols : list string := ["vmess"; "vless"; "trojan"; "shadowsocks"].

Context `{ProxySettings.Random}.

(** [clientsByProtocol]; [n] counts the identifiers drawn for rows that lack one. *)
Fixpoint add_clients (rows : list ProxyRow) (m : gmap string (list ExportClient)) (n : nat) : gmap string (list ExportClient) :=
  match rows with
  | [] => m
  | r :: rows =>
      match ProxySettings.FromStored (pr_Type r) (pr_Settings r) n with
      | Err _ => add_clients rows m n
      | Ok (settings, n) =>
          add_clients rows
            (match client_of r settings with
             | Some c => <[pr_Type r := (default [] (m !! pr_Type r) ++ [c])%list]> m
             | None => m
             end) n
      end
  end.

Definition sni_of (s : St) (tag : string) : string :=
  match merge_sort Inbounds.by_id (List.filter (fun h => serving tag (host_row h)) (map snd (map_to_list (hosts s)))) with
  | h :: _ => text (hs_Sni h)
  | [] => ""
  end.

Definition export_inbound (s : St) (clients : gmap string (list ExportClient)) (r : AutoSyncRow) : option ExportInbound :=
  let i := r_Inbound r in
  if str_mem (NodeConfig.i_Protocol i) exported_protocols then
    Some (mkExport (NodeConfig.i_Tag i) (NodeConfig.i_Protocol i) (i_Network i) (text (i_HeaderType i)) (NodeConfig.i_Security i)
            (text (i_RealityPrivateKey i)) (i_RealityShortIds i) (text (i_RealityServerName i)) (int4 (i_RealityServerPort i))
            (text (i_TlsCertificate i)) (text (i_TlsKey i)) (text (i_TlsServerName i)) (r_Port r) (validHostPorts (r_Ports r))
            (sni_of s (NodeConfig.i_Tag i)) (text (r_Host r)) (default [] (clients !! NodeConfig.i_Protocol i)))
  else None.

(** The hosts the first statement read its columns from. *)
Definition tables : M callerr St := fun s => (s, Ok s).

Definition buildRawXrayInbounds : M callerr (list ExportInbound) :=
  inboundRows ← ListAutoSyncInbounds;
  proxyRows ← ListActiveUserProxies;
  s ← tables;
  mret (omap (export_inbound s (add_clients proxyRows ∅ 0)) inboundRows).

Definition export_outbound (o : outboundDTO) : Outbound :=
  mkOut (ob_Tag o) (ob_Type o) (ob_Server o) (ob_ServerPort o) (ob_Username o) (ob_Password o) (ob_Outbounds o) (ob_UUID o)
    (ob_Flow o) (ob_Method o) (ob_Security o) (ob_CongestionControl o) (ob_TLSEnabled o) (ob_TLSServerName o) (ob_TLSInsecure o)
    (ob_BindInterface o).
Definition coreOutboundsToExport (l : option (list outboundDTO)) : list Outbound := map export_outbound (elems l).

Definition export_rule (r : routingRuleDTO) : RoutingRule :=
  mkRoute (ru_Inbound r) (ru_InboundPort r) (ru_Domain r) (ru_DomainSuffix r) (ru_DomainKeyword r) (ru_IPCIDR r) (ru_IPIsPrivate r)
    (ru_Port r) (ru_PortRange r) (ru_Network r) (ru_Protocol r) (ru_OutboundTag r).
Definition coreRoutingRulesToExport (l : option (list routingRuleDTO)) : list RoutingRule := map export_rule (elems l).

Definition export_dns (d : dnsServerDTO) : DNSServer := mkDNS (dns_Tag d) (dns_Type d) (dns_Address d) (dns_Port d) (dns_Path d).
Definition coreDNSServersToExport (l : option (list dnsServerDTO)) : list DNSServer := map export_dns (elems l).

(** What a reseller may see of an inbound, and of the core configuration. *)
Definition redact (i : ExportInbound) : ExportInbound :=
  mkExport (e_Tag i) (e_Protocol i) (e_Network i) (e_HeaderType i) (e_Security i) "" None (e_RealityServerName i) (e_RealityServerPort i)
    "" "" (e_TLSServerName i) (e_Port i) (e_Ports i) (e_SNI i) (e_Host i) [].

Definition redact_core (c : coreConfigDTO) : coreConfigDTO := mkCore (Rules.LogLevel c) (SniffEnabled c) None None None (UpdatedAt c).

Definition raw_document (inbounds : list ExportInbound) (c : coreConfigDTO) : string :=
  BuildXrayJSON inbounds (coreOutboundsToExport (Rules.Outbounds c)) (coreRoutingRulesToExport (RoutingRules c))
    (coreDNSServersToExport (DNSServers c)) (Rules.LogLevel c) (SniffEnabled c).

Definition handleGetRawXrayConfig (sudo : bool) : M Z string :=
  is_ ← catch buildRawXrayInbounds (fun _ => 500);
  let is_ := if sudo then is_ else map redact is_ in
  c ← catch (in_panel NodeAdmin.GetCoreConfig) (fun _ => 500);
  mret (raw_document is_ (if sudo then c else redact_core c)).

(** *** Small endpoints of the same file *)

(** Whether the core counts as started. *)
Definition handleGetCoreVersion : M Z bool :=
  rows ← catch ListAutoSyncInbounds (fun _ => 500); mret (match rows with [] => false | _ => true end).

Definition handleRestartCore (now : Z) : M Z unit := catch (InvalidateNodeConfigPayload now) (fun _ => 500).

Definition handleGetNodeSettings : M Z string := t ← catch (in_panel NodeAdmin.GetTLS) (fun _ => 500); mret t.1.

Definition handleReconnectNode (now id : Z) : M Z unit :=
  _ ← catch (in_panel (NodeAdmin.GetNodeByID id)) (fun _ => 404);
  catch (InvalidateNodeConfigPayload now) (fun _ => 500).
End export.

(** ** The panel's own editor ([xrayconfig.go]) *)

Record xrayConfigDTO := mkEditor { xc_Core : coreConfigDTO; xc_Inbounds : list inboundDetailDTO }.

Definition handleGetXrayConfig : M failure xrayConfigDTO :=
  c ← catch (in_panel NodeAdmin.GetCoreConfig) (fun _ => Internal);
  rows ← catch ListInbounds (fun _ => Internal);
  mret (mkEditor c (map toInboundDetailDTO rows)).

(** The fields of an inbound the update passes on. *)
Definition passed_on (d : inboundDetailDTO) : inboundSyncEntry :=
  mkDetail (d_Tag d) (d_Protocol d) (d_Network d) (d_HeaderType d) (d_Security d) (d_RealityPrivateKey d) (d_RealityShortIDs d)
    (d_RealityServerName d) (d_RealityServerPort d) (d_TLSCertificate d) (d_TLSKey d) (d_TLSServerName d) "" 0 0 "" false "" "".

Fixpoint delete_missing (now : Z) (kept tags : list string) (removed : bool) : M failure bool :=
  match tags with
  | [] => mret removed
  | tag :: tags =>
      if str_mem tag kept then delete_missing now kept tags removed
      else _ ← catch (deleteInboundByTag now tag) (fun _ => Internal); delete_missing now kept tags true
  end.

Definition of_profile_error (e : NodeAdmin.profile_error) : failure :=
  match e with NodeAdmin.Message m => Invalid m | NodeAdmin.Internal => Internal end.

Definition handleUpdateXrayConfig (now : Z) (dto : xrayConfigDTO) : M failure xrayConfigDTO :=
  let c := xc_Core dto in
  let core := mkCore (if blank (LogLevel c) then "warn" else LogLevel c) (SniffEnabled c) (Outbounds c) (RoutingRules c) (DNSServers c) None in
  _ ← lift (match validateCoreConfig core with Ok _ => Ok tt | Err m => Err (Invalid m) end);
  previous ← catch ListInboundTags (fun _ => Internal);
  _ ← syncInboundEntries now (map passed_on (xc_Inbounds dto));
  removed ← delete_missing now (map d_Tag (xc_Inbounds dto)) previous false;
  _ ← (if (removed : bool) then _ ← logged 0 (pruneOrphanedProxies now); mret tt else mret tt);
  saved ← catch (in_panel (NodeAdmin.applyCoreConfig now core)) of_profile_error;
  rows ← catch ListInbounds (fun _ => Internal);
  mret (mkEditor saved (map toInboundDetailDTO rows)).
End XrayAdmin.
