(* ===== verification/InventoryProps.v ===== *)
(** * InventoryProps: inbounds and hosts stay consistent

    The requests on the inventory and the theorems about any sequence of them: every host
    is under an inbound and every exclusion and template names one
    ([inventory_consistent]), and what nodes are told never changes behind the counter
    they poll ([inventory_counted]). What single requests store is in [HostsProps]. *)

From stdpp Require Import sorting.
From S2P Require Import Prelude GoStrings GoRegexp ProxySettings Store ReviewJob UserApi Effect CoreDto CoreConfig NodeAdmin NodeAdminProps NodeConfig Share XrayConfig Inventory XrayAdmin.
Import Rules NodeConfig Tables Inbounds Hosts XrayAdmin.

#[local] Open Scope string_scope.
#[local] Open Scope Z_scope.

(** ** The requests *)

Module Requests.

Inductive request :=
  | SyncInbounds (es : list inboundSyncEntry)
  | DeleteInbound (tag : string)
  | PutHosts (shuffle : body -> body) (b : body)
  | ImportXray (text : string) (confirm : bool)
  | PutRawXray (text : string)
  | UpdateXray (dto : xrayConfigDTO)
  | RestartCore
  | ReconnectNode (id : Z).

Definition serve (now : Z) (r : request) (s : St) : St :=
  match r with
  | SyncInbounds es => (handleSyncInbounds now es s).1
  | DeleteInbound tag => (handleDeleteInbound now tag s).1
  | PutHosts shuffle b => (handlePutHosts now shuffle b s).1
  | ImportXray text confirm => (handleImportXrayConfig now text confirm s).1
  | PutRawXray text => (handlePutRawXrayConfig now text s).1
  | UpdateXray dto => (handleUpdateXrayConfig now dto s).1
  | RestartCore => (handleRestartCore now s).1
  | ReconnectNode id => (handleReconnectNode now id s).1
  end.

Fixpoint serve_all (rs : list (Z * request)) (s : St) : St :=
  match rs with [] => s | (now, r) :: rs => serve_all rs (serve now r s) end.

End Requests.

(** ** Relations every step respects *)

Module Steps.
Import Requests.

(** Whatever fails along the way, the state a computation leaves is related to the one
    it started in. *)
Definition keeps (R : St -> St -> Prop) {E A} (m : M E A) : Prop := forall s, R s (m s).1.

(** A relation the single statements respect; those of the tables here, and all. *)
Class TablesRespected (R : St -> St -> Prop) := {
  r_preorder :: PreOrder R;
  r_query {A} (f : St -> result callerr A) : keeps R (query f);
  r_upsert now row : keeps R (UpsertInbound now row);
  r_delete_inbound now tag : keeps R (DeleteInboundByTag now tag);
  r_delete_hosts now tag : keeps R (DeleteHostsByInboundTag now tag);
  r_create_host now row : (forall id, hs_ID (row id) = id) -> keeps R (CreateHost now row);
  r_prune now : keeps R (PruneOrphanedProxies now);
  r_bump now : keeps R (BumpDataVersion now)
}.

Class Respected (R : St -> St -> Prop) := {
  r_tables :: TablesRespected R;
  r_get_core : keeps R (in_panel NodeAdmin.GetCoreConfig);
  r_get_node id : keeps R (in_panel (NodeAdmin.GetNodeByID id));
  r_apply_core now dto : keeps R (in_panel (NodeAdmin.applyCoreConfig now dto))
}.

Create HintDb respects.

Section computations.
Context {R : St -> St -> Prop} `{!PreOrder R}.

Lemma keeps_ret {E A} (a : A) : keeps R (mret a : M E A).
Proof using Type*. by intros s. Qed.

Lemma keeps_lift {E A} (r : result E A) : keeps R (lift r).
Proof using Type*. by intros s. Qed.

Lemma keeps_bind {E A B} (m : M E A) (f : A -> M E B) : keeps R m -> (forall a, keeps R (f a)) -> keeps R (m ≫= f).
Proof using Type*.
  intros Hm Hf s. unfold mbind, eff_bind. specialize (Hm s). destruct (m s) as [s1 [a|e]]; [|done]. cbn in Hm. etrans; [exact Hm|apply Hf].
Qed.

Lemma keeps_catch {E E' A} (m : M E A) (f : E -> E') : keeps R m -> keeps R (catch m f).
Proof using Type*. intros Hm s. unfold catch. specialize (Hm s). by destruct (m s) as [s1 []]. Qed.

Lemma keeps_logged {E E' A} dflt (m : M E A) : keeps R m -> keeps R (logged (E' := E') dflt m).
Proof using Type*. intros Hm s. unfold logged. specialize (Hm s). by destruct (m s) as [s1 r]. Qed.

End computations.

Ltac steps := repeat first
  [ solve [auto 2 with respects nocore]
  | apply r_create_host; intros ?; reflexivity
  | apply keeps_bind; [|intros ?]
  | apply keeps_catch | apply keeps_logged | apply keeps_ret | apply keeps_lift
  | match goal with
    | |- keeps _ (if ?b then _ else _) => destruct b
    | |- keeps _ (match ?x with _ => _ end) => destruct x
    | |- keeps _ (let _ := _ in _) => cbv zeta
    end ].

Section tables.
Context {R : St -> St -> Prop} `{!TablesRespected R}.

#[local] Hint Resolve r_query r_upsert r_delete_inbound r_delete_hosts r_prune r_bump : respects.

Lemma keeps_invalidate now : keeps R (InvalidateNodeConfigPayload now).
Proof using Type*.
  intros s. unfold InvalidateNodeConfigPayload. pose proof (r_bump now s) as Hb. destruct (BumpDataVersion now s) as [s1 r].
  pose proof (r_query (fun _ => Ok tt) s1) as Hi. unfold InvalidateInbound. destruct (query _ s1) as [s2 r'].
  cbn in *. etrans; [exact Hb|exact Hi].
Qed.
#[local] Hint Resolve keeps_invalidate : respects.

Lemma keeps_delete now tag : keeps R (deleteInboundByTag now tag).
Proof using Type*. unfold deleteInboundByTag, GetInboundByTag, InvalidateInbound. steps. Qed.

Lemma keeps_prune now : keeps R (pruneOrphanedProxies now).
Proof using Type*. unfold pruneOrphanedProxies, ListInbounds. steps. Qed.

Lemma keeps_default_host now tag : keeps R (createDefaultHost now tag).
Proof using Type*. unfold createDefaultHost, GetMaxHostPriority. steps. Qed.
#[local] Hint Resolve keeps_delete keeps_prune keeps_default_host : respects.

Lemma keeps_sync_entry now e : keeps R (sync_entry now e).
Proof using Type*.
  unfold sync_entry, InvalidateInbound. steps.
  intros s. pose proof (r_query (fun s => match inbounds s !! d_Tag e with Some i => Ok i | None => Err NodeAdmin.NoRows end) s) as H.
  unfold GetInboundByTag. destruct (query _ s) as [s1 [i|[]]]; exact H.
Qed.
#[local] Hint Resolve keeps_sync_entry : respects.

Lemma keeps_sync_all now es : forall created, keeps R (sync_all now created es).
Proof using Type*. induction es as [|e es IH]; intros created; cbn [sync_all]; [by intros s|]. steps. Qed.
#[local] Hint Resolve keeps_sync_all : respects.

Lemma keeps_sync now es : keeps R (syncInboundEntries now es).
Proof using Type*. unfold syncInboundEntries. steps. Qed.

Lemma keeps_create_hosts now tag hs : forall out, keeps R (create_hosts now tag hs out).
Proof using Type*. induction hs as [|d hs IH]; intros out; cbn [create_hosts]; [by intros s|]. steps. Qed.
#[local] Hint Resolve keeps_sync keeps_create_hosts : respects.

Lemma keeps_replace now b : forall out, keeps R (replace_hosts now b out).
Proof using Type*. induction b as [|[tag hs] b IH]; intros out; cbn [replace_hosts]; [by intros s|]. steps. Qed.

Lemma keeps_check_body b : keeps R (check_body b).
Proof using Type*. induction b as [|[tag hs] b IH]; cbn [check_body]; [by intros s|]. unfold GetInboundByTag. steps. Qed.

Lemma keeps_imported now l : forall next, keeps R (imported_hosts now next l).
Proof using Type*. induction l as [|i l IH]; intros next; cbn [imported_hosts]; [by intros s|]. steps. Qed.

Lemma keeps_missing now kept tags : forall removed, keeps R (delete_missing now kept tags removed).
Proof using Type*. induction tags as [|t tags IH]; intros removed; cbn [delete_missing]; [by intros s|]. steps. Qed.
End tables.

Section respected.
Context {R : St -> St -> Prop} `{!Respected R}.
#[local] Hint Extern 0 (TablesRespected _) => exact r_tables : respects.
#[local] Hint Resolve r_query r_get_core r_get_node r_apply_core keeps_invalidate keeps_delete keeps_prune keeps_sync keeps_replace keeps_check_body
  keeps_imported keeps_missing : respects.

Lemma keeps_apply now p : keeps R (applyParsedXrayConfig now p).
Proof using Type*. unfold applyParsedXrayConfig, GetMaxHostPriority, mergeCoreConfigForImport. steps. Qed.

#[local] Hint Resolve keeps_apply : respects.

Lemma serve_keeps now r s : R s (serve now r s).
Proof using Type*.
  assert (forall E A (m : M E A), keeps R m -> R s (m s).1) as Hm by auto.
  destruct r as [es|tag|shuffle b|text confirm|text|dto| |id]; cbn [serve]; apply Hm.
  - unfold handleSyncInbounds. steps.
  - unfold handleDeleteInbound. steps.
  - unfold handlePutHosts. steps.
  - unfold handleImportXrayConfig. steps.
  - unfold handlePutRawXrayConfig. steps.
  - unfold handleUpdateXrayConfig, ListInboundTags, ListInbounds. steps.
  - unfold handleRestartCore. steps.
  - unfold handleReconnectNode. steps.
Qed.

Lemma serve_all_keeps rs s : R s (serve_all rs s).
Proof using Type*. revert s. induction rs as [|[now r] rs IH]; intros s; cbn; [done|]. etrans; [apply serve_keeps|apply IH]. Qed.
End respected.

(** ** Statements that are one call *)

Section call.
Context (R : St -> St -> Prop) `{!PreOrder R}.
Context (Rfaults : forall fs s, R s (set_panel (NodeAdmin.set_faults fs (panel s)) s)).

Lemma keeps_one_call {A} (f : St -> result callerr (St * A)) : (forall s s' a, f s = Ok (s', a) -> R s s') -> keeps R (call f).
Proof using Type*.
  intros Hf s. unfold call. destruct (NodeAdmin.faults (panel s)) as [|[] fs]; [|by apply Rfaults|];
    (match goal with |- context [f ?x] => destruct (f x) as [[s1 a]|e] eqn:E end; cbn; [apply Hf in E; etrans; [|exact E]|]; by apply Rfaults).
Qed.

Lemma keeps_query {A} (f : St -> result callerr A) : keeps R (query f).
Proof using Type*. apply keeps_one_call. intros s s' a. destruct (f s); [|done]. by intros [= <- <-]. Qed.
End call.

(** ** The panel's own handlers *)

Lemma bump_grows now p : NodeAdmin.version p < NodeAdmin.bump now p.
Proof. unfold NodeAdmin.bump. lia. Qed.
End Steps.

(** ** Consistency of the tables *)

Module Consistency.
Import Requests Steps.

Record wf (s : St) : Prop := {
  wf_row : forall t i, inbounds s !! t = Some i -> i_Tag i = t /\ inbound_fits i = true;
  wf_host : forall k h, hosts s !! k = Some h ->
    hs_ID h = k /\ k < next_host s /\ is_Some (inbounds s !! hs_InboundTag h) /\ host_fits h = true;
  wf_templates : forall k ts t, templates s !! k = Some ts -> In t ts -> is_Some (inbounds s !! t);
  wf_exclusions : forall k ts t, Store.exclude_inbounds (db s) !! k = Some ts -> In t ts -> is_Some (inbounds s !! t);
  wf_tags : Store.inbounds (db s) = tag_protocols (inbounds s);
  wf_users : Store.wf (db s);
  wf_panel : NodeAdminProps.inv (panel s)
}.

Definition stays (s s' : St) : Prop := wf s -> wf s'.
#[export] Instance stays_preorder : PreOrder stays. Proof. split; [by intros s ?|]. intros s1 s2 s3 H1 H2 H. by apply H2, H1. Qed.

Lemma stays_panel p s : NodeAdmin.core_config p = NodeAdmin.core_config (panel s) -> NodeAdmin.nodes p = NodeAdmin.nodes (panel s) ->
  stays s (set_panel p s).
Proof. intros Hc Hn [? ? ? ? ? ? []]. split; try done. split; cbn; rewrite ?Hc, ?Hn; done. Qed.

Lemma stays_touch now s : stays s (touch now s).
Proof. by apply stays_panel. Qed.

Abbreviation safe := (keeps stays).

Lemma stays_faults fs s : stays s (set_panel (NodeAdmin.set_faults fs (panel s)) s).
Proof. by apply stays_panel. Qed.
#[local] Hint Resolve stays_preorder stays_faults : core.

Lemma safe_call {A} (f : St -> result callerr (St * A)) : (forall s s' a, f s = Ok (s', a) -> wf s -> wf s') -> safe (call f).
Proof. intros Hf. apply keeps_one_call; auto. Qed.

Lemma store_wf_tags l d : Store.wf d -> Store.wf (with_tags l d).
Proof. intros []. by split. Qed.

Lemma safe_upsert now row : safe (UpsertInbound now row).
Proof.
  apply safe_call. intros s s' a. destruct (inbound_fits row) eqn:Hfits; [|done]. intros [= <- <-] Hw. apply stays_touch.
  assert (forall t, is_Some (inbounds s !! t) -> is_Some (<[i_Tag row := row]> (inbounds s) !! t)) as Hgrow.
  { intros t Ht. destruct (decide (t = i_Tag row)) as [->|]; [rewrite lookup_insert_eq; eauto|by rewrite lookup_insert_ne]. }
  destruct Hw. split; cbn.
  - intros t i. destruct (decide (t = i_Tag row)) as [->|]; [rewrite lookup_insert_eq; by intros [= <-]|rewrite lookup_insert_ne by done; auto].
  - intros k h Hh. apply wf_host0 in Hh as (? & ? & ? & ?). auto.
  - eauto.
  - eauto.
  - done.
  - by apply store_wf_tags.
  - done.
Qed.

Lemma without_lookup tag m k ts : without tag m !! k = Some ts -> exists ts', m !! k = Some ts' /\ ts = List.filter (fun t => negb (String.eqb t tag)) ts'.
Proof. unfold without. rewrite lookup_fmap. destruct (m !! k) as [l|]; cbn; [|done]. intros [= <-]. eauto. Qed.

Lemma without_in tag m k ts t : without tag m !! k = Some ts -> In t ts -> exists ts', m !! k = Some ts' /\ In t ts' /\ t <> tag.
Proof.
  intros (ts' & Hk & ->)%without_lookup [Ht Hne]%filter_In. exists ts'. split_and!; [done..|].
  intros ->. by rewrite String.eqb_refl in Hne.
Qed.

Lemma store_wf_excluded d ex : Store.wf d -> dom ex ⊆ dom (Store.proxies d) -> Store.wf (Store.set_excluded ex d).
Proof. intros [] Hex. by split. Qed.

Lemma safe_delete_inbound now tag : safe (DeleteInboundByTag now tag).
Proof.
  apply safe_call. intros s s' a [= <- <-] Hw. apply stays_touch.
  assert (forall t, t <> tag -> is_Some (inbounds s !! t) -> is_Some (delete tag (inbounds s) !! t)) as Hkeep.
  { intros t Hne Ht. by rewrite lookup_delete_ne. }
  destruct Hw. split; cbn.
  - intros t i [_ Hi]%lookup_delete_Some. auto.
  - intros k h [Hh Hne]%map_lookup_filter_Some. apply wf_host0 in Hh as (? & ? & ? & ?). auto.
  - intros k ts t Hk Ht. eapply without_in in Hk as (ts' & Hk & Ht' & Hne); [|exact Ht]. eauto.
  - intros k ts t Hk Ht. eapply without_in in Hk as (ts' & Hk & Ht' & Hne); [|exact Ht]. eauto.
  - done.
  - apply store_wf_tags, store_wf_excluded; [done|]. unfold without. rewrite dom_fmap. apply (Store.wf_excluded _ wf_users0).
  - done.
Qed.

Lemma safe_delete_hosts now tag : safe (DeleteHostsByInboundTag now tag).
Proof.
  apply safe_call. intros s s' a [= <- <-] []. apply stays_touch. split; try done. cbn.
  intros k h [Hh _]%map_lookup_filter_Some. auto.
Qed.

Lemma safe_create_host now row : (forall id, hs_ID (row id) = id) -> safe (CreateHost now row).
Proof.
  intros Hrow s. unfold CreateHost. pose proof (safe_call (fun s => Ok (set_next (next_host s + 1) s, next_host s))) as Hn.
  assert (forall s0 s' a, Ok (set_next (next_host s0 + 1) s0, next_host s0) = Ok (E := callerr) (s', a) -> wf s0 -> wf s') as Hstep.
  { intros s0 s' a [= <- _] []. split; try done. cbn. intros k h Hh. apply wf_host0 in Hh as (? & ? & ? & ?). split_and!; [done|lia|done..]. }
  specialize (Hn Hstep s). unfold call in *. destruct (NodeAdmin.faults (panel s)) as [|[] fs]; cbn [fst] in Hn |- *; try exact Hn.
  all: case_match eqn:Hc; [|exact Hn]; apply andb_true_iff in Hc as [Hfits Htag%bool_decide_eq_true]; intros Hw; apply stays_touch; specialize (Hn Hw);
    destruct Hn; cbn in *; split; try done; cbn; intros k h [[<- <-]|[Hne Hh]]%lookup_insert_Some; [rewrite Hrow; split_and!; [done|lia|done..]|auto].
Qed.

Lemma safe_prune_proxies now : safe (PruneOrphanedProxies now).
Proof.
  apply safe_call. intros s s' a [= <- <-] []. apply stays_touch. split; try done; cbn.
  - intros k ts t [Hk _]%map_lookup_filter_Some. eauto.
  - destruct wf_users0. split; try done; cbn.
    + intros i p [Hp _]%map_lookup_filter_Some. eauto.
    + intros k [ts Hts]%elem_of_dom. apply map_lookup_filter_Some in Hts as [_ Hk]. by apply elem_of_dom.
    + intros i Hi. destruct (wf_next i Hi) as [H1 H2]. split; [done|]. intros [p Hp]%elem_of_dom.
      apply map_lookup_filter_Some in Hp as [Hp _]. apply H2, elem_of_dom. eauto.
Qed.

Lemma safe_in_panel {E A} (m : eff NodeAdmin.St E A) :
  triple NodeAdminProps.inv m (fun _ => NodeAdminProps.inv) NodeAdminProps.inv -> safe (in_panel m).
Proof.
  intros Hm s. unfold in_panel. intros []. assert (NodeAdminProps.inv (seen_by s)) as Hs by (destruct wf_panel0; by split).
  specialize (Hm _ Hs). destruct (m (seen_by s)) as [p [a|e]]; by split.
Qed.

Lemma safe_read {A} (f : NodeAdmin.St -> result callerr A) : safe (in_panel (NodeAdmin.query f)).
Proof. apply safe_in_panel. eapply triple_conseq; [apply NodeAdminProps.triple_query, NodeAdminProps.inv_faultless|done| |done]. by intros a s []. Qed.

Lemma safe_bump now : safe (BumpDataVersion now).
Proof. apply safe_call. intros s s' a [= <- <-]. apply stays_touch. Qed.

#[export] Instance stays_tables : TablesRespected stays.
Proof.
  split; [exact stays_preorder|intros; apply keeps_query; auto|exact safe_upsert|exact safe_delete_inbound|exact safe_delete_hosts|
    exact safe_create_host|exact safe_prune_proxies|exact safe_bump].
Qed.

#[export] Instance stays_respected : Respected stays.
Proof. split; [exact stays_tables|apply safe_read|intros; apply safe_read|]. intros. apply safe_in_panel, NodeAdminProps.applyCoreConfig_triple. Qed.


End Consistency.

(** ** Every change is counted *)

Module Counting.
Import Requests Steps.

(** What nodes are told, but for the users' statuses. *)
Definition told (s : St) :=
  (inbounds s, hosts s, Store.proxies (db s), NodeAdmin.core_config (panel s), NodeAdminProps.profiles (panel s)).

Definition version (s : St) : Z := NodeAdmin.version (panel s).

(** Nothing a node is told changed, or the counter went up. *)
Definition noticed (s s' : St) : Prop := version s < version s' \/ (version s' = version s /\ told s' = told s).

#[export] Instance noticed_preorder : PreOrder noticed.
Proof.
  split; [by intros s; right|]. intros s1 s2 s3 [H1|[V1 T1]] [H2|[V2 T2]]; [left; lia|left; lia|left; lia|right].
  split; [lia|congruence].
Qed.

Lemma noticed_faults fs s : noticed s (set_panel (NodeAdmin.set_faults fs (panel s)) s).
Proof. by right. Qed.

Lemma noticed_touch now s s' : panel s' = panel s -> noticed s (touch now s').
Proof. intros E. left. unfold version, touch. cbn. rewrite E. apply bump_grows. Qed.

Lemma counts_call {A} (f : St -> result callerr (St * A)) : (forall s s' a, f s = Ok (s', a) -> noticed s s') -> keeps noticed (call f).
Proof. apply keeps_one_call; [exact _|exact noticed_faults]. Qed.

Lemma counts_in_panel {E A} (m : eff NodeAdmin.St E A) :
  (forall p, NodeAdminProps.counted p (m p).1) -> keeps noticed (in_panel m).
Proof.
  intros Hm s. unfold in_panel. specialize (Hm (seen_by s)). destruct (m (seen_by s)) as [p r]. cbn in *.
  destruct Hm as [Hv|(Hv & Hc & _ & Hp)]; [by left|right]. split; [done|]. unfold told. cbn. by rewrite Hc, Hp.
Qed.

Lemma counts_panel_read {A} (f : NodeAdmin.St -> result callerr A) : keeps noticed (in_panel (NodeAdmin.query f)).
Proof.
  apply counts_in_panel. intros p. apply NodeAdminProps.untouched_counted.
  pose proof (NodeAdminProps.triple_query (NodeAdminProps.untouched p) f (NodeAdminProps.untouched_faultless p) p (NodeAdminProps.untouched_refl p)) as H.
  destruct (NodeAdmin.query f p) as [p' []]; cbn; [apply H|exact H].
Qed.

#[export] Instance noticed_tables : TablesRespected noticed.
Proof.
  split; try exact _.
  - intros A f. apply counts_call. intros s s' a. destruct (f s); [|done]. by intros [= <- <-].
  - intros now row. apply counts_call. intros s s' a. destruct (inbound_fits row); [|done]. intros [= <- <-]. by apply noticed_touch.
  - intros now tag. apply counts_call. intros s s' a [= <- <-]. by apply noticed_touch.
  - intros now tag. apply counts_call. intros s s' a [= <- <-]. by apply noticed_touch.
  - intros now row _ s. unfold CreateHost.
    pose proof (counts_call (fun s => Ok (set_next (next_host s + 1) s, next_host s))) as Hn.
    specialize (Hn ltac:(intros s0 s' a [= <- <-]; by right) s). destruct (call _ s) as [s1 [id|e]]; [|exact Hn]. cbn in Hn.
    destruct (_ && _); [|exact Hn]. cbn. etrans; [exact Hn|by apply noticed_touch].
  - intros now. apply counts_call. intros s s' a [= <- <-]. by apply noticed_touch.
  - intros now. apply counts_call. intros s s' a [= <- <-]. by apply noticed_touch.
Qed.

#[export] Instance noticed_respected : Respected noticed.
Proof.
  split; try exact _.
  - apply counts_panel_read.
  - intros id. apply counts_panel_read.
  - intros now dto. apply counts_in_panel. intros p. pose proof (NodeAdminProps.change_is_counted now (NodeAdminProps.SaveCore dto) p) as H.
    cbn in H. unfold NodeAdmin.handleUpdateCoreConfig, catch in H. by destruct (NodeAdmin.applyCoreConfig now dto p) as [p' []].
Qed.

(** Whatever a request changes of what nodes are told makes the counter their polls
    compare go up, and nothing makes it go down. *)
Theorem inventory_counted rs s : noticed s (serve_all rs s).
Proof. exact (serve_all_keeps (R := noticed) rs s). Qed.
End Counting.

(** ** A concrete panel *)

Module Demo.
Import Requests Steps Consistency.

Definition demo_inbound (tag key : string) : InboundRow :=
  NodeConfig.mkInbound tag "vless" "tcp" None "reality" (Some key) (Some ["ab"]) (Some "example.com") (Some 443)
    None None None None None None None false None None.

Definition demo_host (id : Z) (tag : string) (priority : Z) : Host := plain_host tag (Some 443) "h2" "chrome" priority id.

(** Two inbounds, a host for each, one template, and the users of [ReviewJob]. *)
Definition panel_with (key : string) : St :=
  set_inbounds (<["de" := demo_inbound "de" key]> (<["fr" := demo_inbound "fr" key]> ∅))
    (mkSt ∅ (<[1 := demo_host 1 "de" 0]> (<[2 := demo_host 2 "fr" 1]> ∅)) {[1 := ["de"; "fr"]]} 3 ReviewJob.demo_db NodeAdminProps.demo_start).

Definition demo : St := panel_with "KEY".

Lemma demo_consistent key : wf (panel_with key).
Proof.
  split; cbn -[tag_protocols].
  - intros t i. rewrite !lookup_insert_Some, lookup_empty. naive_solver.
  - intros k h. rewrite !lookup_insert_Some, lookup_empty. intros [[<- <-]|[_ [[<- <-]|[_ ?]]]]; [| |done];
      (split_and!; [done|done|by eexists|by vm_compute]).
  - intros k ts t [<- <-]%lookup_singleton_Some [<-|[<-|[]]]; by eexists.
  - intros k ts t Hk. by rewrite lookup_empty in Hk.
  - done.
  - apply store_wf_tags, ReviewJob.demo_wf.
  - apply NodeAdminProps.installed_inv. split; [by exists (Some 5)|done].
Qed.

Definition demo_entry : inboundSyncEntry :=
  mkDetail "us" "trojan" "" "" "tls" "" None "" 0 "CERT" "KEY" "us.example" "" 0 0 "" false "" "".

(** A new inbound, an inbound deleted, and a statement that fails half way. *)
Definition demo_requests : list (Z * request) := [(10, SyncInbounds [demo_entry]); (20, DeleteInbound "de"); (30, RestartCore)].

End Demo.
