(* ===== verification/HostsProps.v ===== *)
(** * HostsProps: saving hosts and syncing inbounds do what was asked for

    Saving hosts replaces those of the tags it names and no others, numbered in the
    order asked for ([hosts_replaced]); but the numbers may be those of a host of
    another tag ([priorities_collide]). A sync stores the rows of its entries and makes
    one host for each new tag ([sync_exact]). *)

From stdpp Require Import sorting.
From S2P Require Import Prelude GoStrings Effect NodeAdmin NodeConfig Share Inventory InventoryProps.
Import NodeConfig Tables Inbounds Hosts InventoryProps.Consistency.

#[local] Open Scope string_scope.
#[local] Open Scope Z_scope.

(** ** What a statement that went through did *)

Module Statements.

(** The tables other than the users' and the panel's own. *)
Definition same_tables (s s' : St) : Prop := inbounds s' = inbounds s /\ hosts s' = hosts s /\ next_host s' = next_host s.

#[export] Instance same_tables_preorder : PreOrder same_tables.
Proof. split; [done|]. intros s1 s2 s3 (? & ? & ?) (? & ? & ?). unfold same_tables. split_and!; congruence. Qed.

Lemma tables_call_ok {A} (f : St -> result callerr (St * A)) s s' a :
  call f s = (s', Ok a) -> exists s1, same_tables s s1 /\ f s1 = Ok (s', a).
Proof.
  unfold call. destruct (NodeAdmin.faults (panel s)) as [|[] fs]; [|done|];
    (destruct (f _) as [[s2 a2]|] eqn:E; [|done]); intros [= -> ->]; (eexists; split; [|exact E]; done).
Qed.

Lemma tables_query_ok {A} (f : St -> result callerr A) s s' a : query f s = (s', Ok a) -> same_tables s s' /\ f s' = Ok a.
Proof. intros (s1 & Hs & Hf)%tables_call_ok. destruct (f s1) eqn:E; [|done]. by injection Hf as -> ->. Qed.

Lemma query_same {A} (f : St -> result callerr A) s : same_tables s (query f s).1.
Proof. unfold query, call. destruct (NodeAdmin.faults (panel s)) as [|[] fs]; [|done|]; by destruct (f _). Qed.

Lemma bump_same now s : same_tables s (BumpDataVersion now s).1.
Proof. unfold BumpDataVersion, call. by destruct (NodeAdmin.faults (panel s)) as [|[] fs]. Qed.

Lemma invalidate_ok {E} now s s' r : logged (E' := E) tt (InvalidateNodeConfigPayload now) s = (s', Ok r) -> same_tables s s'.
Proof.
  unfold logged, InvalidateNodeConfigPayload. pose proof (bump_same now s) as Hb. destruct (BumpDataVersion now s) as [s1 r1].
  pose proof (query_same (fun _ => Ok tt) s1) as Hi. unfold InvalidateInbound. destruct (query _ s1) as [s2 r2].
  intros [= <- _]. cbn in *. by etrans.
Qed.

Lemma DeleteHosts_ok now tag s s' a : DeleteHostsByInboundTag now tag s = (s', Ok a) ->
  inbounds s' = inbounds s /\ next_host s' = next_host s /\ hosts s' = filter (fun kv => hs_InboundTag kv.2 <> tag) (hosts s).
Proof. intros (s1 & (Hi & Hh & Hn) & Hf)%tables_call_ok. injection Hf as <- _. cbn. split_and!; congruence. Qed.

Lemma CreateHost_ok now row s s' h : CreateHost now row s = (s', Ok h) ->
  h = row (next_host s) /\ inbounds s' = inbounds s /\ next_host s' = next_host s + 1 /\ hosts s' = <[next_host s := h]> (hosts s) /\
  host_fits h = true /\ is_Some (inbounds s !! hs_InboundTag h).
Proof.
  unfold CreateHost. destruct (call _ s) as [s1 [id|e]] eqn:Ec; [|done]. apply tables_call_ok in Ec as (s2 & (Hi & Hh & Hn) & Hf). injection Hf as <- <-.
  cbn -[host_fits]. rewrite Hn. case_match eqn:Hc; [|done]. intros [= <- <-]. apply andb_true_iff in Hc as [Hfits Htag%bool_decide_eq_true].
  cbn -[host_fits] in *. rewrite Hi, Hh in *. by split_and!.
Qed.
End Statements.

(** ** Saving hosts *)

Module Replace.
Import Statements.

(** The hosts of a tag under the ids from [n] on. *)
Definition placed (n : Z) (tag : string) (ds : list hostDTO) (id : Z) : option Host :=
  d ← (if n <=? id then ds !! Z.to_nat (id - n) else None); Some (stored_host tag d id).

Lemma placed_nil n tag id : placed n tag [] id = None.
Proof. unfold placed. by destruct (n <=? id). Qed.

Lemma placed_cons n tag d ds id : placed n tag (d :: ds) id = if id =? n then Some (stored_host tag d id) else placed (n + 1) tag ds id.
Proof.
  unfold placed. destruct (Z.eqb_spec id n) as [->|Hne]; [by rewrite Z.leb_refl, Z.sub_diag|].
  destruct (Z.leb_spec n id), (Z.leb_spec (n + 1) id); try lia; [|done]. by replace (Z.to_nat (id - n)) with (S (Z.to_nat (id - (n + 1)))) by lia.
Qed.

Lemma placed_tag n tag ds id h : placed n tag ds id = Some h -> hs_InboundTag h = tag /\ n <= id < n + Z.of_nat (length ds).
Proof.
  unfold placed. destruct (Z.leb_spec n id); [|done]. destruct (ds !! _) eqn:E; [|done]. cbn. intros [= <-]. split; [done|].
  apply lookup_lt_Some in E. lia.
Qed.

Lemma create_hosts_ok now tag ds : forall out s s' out', create_hosts now tag ds out s = (s', Ok out') ->
  inbounds s' = inbounds s /\ next_host s' = next_host s + Z.of_nat (length ds) /\
  forall id, hosts s' !! id = match placed (next_host s) tag ds id with Some h => Some h | None => hosts s !! id end.
Proof.
  induction ds as [|d ds IH]; intros out s s' out'; cbn [create_hosts].
  - intros [= <- _]. split_and!; [done|cbn; lia|]. intros id. by rewrite placed_nil.
  - rewrite eff_bind_ok. intros (s1 & h & Hc & Hr). rewrite catch_ok in Hc. apply CreateHost_ok in Hc as (-> & Hi & Hn & Hh & _).
    apply IH in Hr as (Hi' & Hn' & Hh'). split_and!; [congruence|cbn [length]; lia|]. intros id. rewrite Hh', placed_cons, Hn, Hh.
    destruct (Z.eqb_spec id (next_host s)) as [->|Hne].
    + destruct (placed _ tag ds _) eqn:E; [apply placed_tag in E; lia|]. by rewrite lookup_insert_eq.
    + by rewrite lookup_insert_ne.
Qed.

Definition fresh (s : St) : Prop := forall id h, hosts s !! id = Some h -> id < next_host s.

Definition tags (b : body) : list string := map fst b.

Lemma replace_hosts_ok now b : forall out s s' out', replace_hosts now b out s = (s', Ok out') -> fresh s -> NoDup (tags b) ->
  (forall id h, hs_InboundTag h ∉ tags b -> hosts s' !! id = Some h <-> hosts s !! id = Some h) /\
  (forall tag ds, (tag, ds) ∈ b -> exists n, next_host s <= n /\
     forall id h, hs_InboundTag h = tag -> hosts s' !! id = Some h <-> placed n tag ds id = Some h).
Proof.
  induction b as [|[tag ds] b IH]; intros out s s' out'; cbn [replace_hosts].
  { intros [= <- _] _ _. split; [done|]. intros ? ? ?%elem_of_nil. done. }
  rewrite eff_bind_ok. intros (s1 & [] & Hd & Hr). rewrite catch_ok in Hd. apply DeleteHosts_ok in Hd as (Hi1 & Hn1 & Hh1).
  rewrite eff_bind_ok in Hr. destruct Hr as (s2 & out2 & Hc & Hr). apply create_hosts_ok in Hc as (Hi2 & Hn2 & Hh2).
  intros Hfresh [Hnot Hnd]%NoDup_cons. rewrite Hn1 in *.
  assert (forall id h, hosts s2 !! id = Some h <-> placed (next_host s) tag ds id = Some h \/ hosts s !! id = Some h /\ hs_InboundTag h <> tag) as Hs2.
  { intros id h. rewrite Hh2, Hh1, map_lookup_filter. destruct (placed _ tag ds id) as [h'|] eqn:E.
    - pose proof (placed_tag _ _ _ _ _ E) as [Ht Hid]. split; [by left|]. intros [?|[Hh _]]; [done|]. apply Hfresh in Hh. lia.
    - destruct (hosts s !! id) as [h'|] eqn:E'; cbn; [|naive_solver]. case_guard; cbn; naive_solver. }
  destruct (IH _ _ _ _ Hr) as [Hother Hthis]; [|done|].
  { intros id h [Hp|[Hh _]]%Hs2; [apply placed_tag in Hp; lia|apply Hfresh in Hh; lia]. }
  split.
  - intros id h Hin. apply not_elem_of_cons in Hin as [Hne Hin]. rewrite Hother, Hs2 by done. split; [|naive_solver].
    intros [Hp%placed_tag|[? _]]; [by destruct Hp|done].
  - intros tag' ds' [[= -> ->]|Hin]%elem_of_cons.
    + exists (next_host s). split; [lia|]. intros id h Ht. rewrite Hother by (by rewrite Ht). rewrite Hs2. naive_solver.
    + destruct (Hthis tag' ds' Hin) as (n & Hle & Hn). exists n. split; [lia|done].
Qed.

(** *** Checking *)

Lemma check_hosts_ok ds ds' : check_hosts ds = Ok ds' -> ds' = map with_defaults ds /\ Forall (fun d => validateHost d = Ok tt) ds'.
Proof.
  revert ds'. induction ds as [|d ds IH]; intros ds'; cbn [check_hosts]; [by intros [= <-]|]. rewrite result_bind_ok. intros ([] & Hv & Hr).
  rewrite result_bind_ok in Hr. destruct Hr as (rest & Hr & [= <-]). apply IH in Hr as [-> Hall]. split; [done|by constructor].
Qed.

Lemma check_body_ok b : forall s s' b', check_body b s = (s', Ok b') ->
  same_tables s s' /\ b' = map (fun '(tag, ds) => (tag, map with_defaults ds)) b.
Proof.
  induction b as [|[tag ds] b IH]; intros s s' b'; cbn [check_body]; [by intros [= <- <-]|].
  rewrite eff_bind_ok. intros (s1 & i & Hg & Hr). rewrite catch_ok in Hg. apply tables_query_ok in Hg as [Hs1 _].
  rewrite eff_bind_ok in Hr. destruct Hr as (s2 & ds' & [= -> Hc] & Hr). apply check_hosts_ok in Hc as [-> _].
  rewrite eff_bind_ok in Hr. destruct Hr as (s3 & rest & Hr & [= <- <-]). apply IH in Hr as [Hs ->]. split; [by etrans|done].
Qed.

(** *** Ranks *)

Definition before (a b : ref) : Prop :=
  let '(p, t, i) := a in let '(q, u, j) := b in
  p < q \/ p = q /\ (str_ltb t u = true \/ t = u /\ (i < j)%nat).

Lemma ref_le_iff a b : ref_le a b <-> ~ before b a.
Proof.
  destruct a as [[p t] i], b as [[q u] j]. unfold ref_le, before. destruct (Z.eqb_spec p q) as [->|]; [|lia].
  destruct (String.eqb_spec t u) as [->|Hne]; rewrite ?str_ltb_irrefl.
  - split; [intros H [?|[_ [?|[_ ?]]]]; (lia || done)|]. intros H. destruct (decide (i <= j)%nat); [done|]. exfalso. apply H. right. split; [done|]. right. split; [done|lia].
  - split; [intros H [?|[_ [?|[? _]]]]; (lia || congruence)|]. intros H. destruct (str_ltb u t) eqn:E; [|done]. exfalso. apply H. auto.
Qed.

Lemma before_trans a b c : before a b -> before b c -> before a c.
Proof.
  destruct a as [[p t] i], b as [[q u] j], c as [[r v] k]. unfold before.
  intros [?|[-> [Ht|[-> ?]]]] [?|[-> [Hu|[-> ?]]]]; try (left; lia); right; (split; [done|]); eauto using str_ltb_trans with lia.
Qed.

Lemma before_irrefl a : ~ before a a.
Proof. destruct a as [[p t] i]. unfold before. rewrite str_ltb_irrefl. intros [?|[_ [?|[_ ?]]]]; (lia || done). Qed.

Lemma before_total a b : before a b \/ a = b \/ before b a.
Proof.
  destruct a as [[p t] i], b as [[q u] j]. unfold before. destruct (Z.lt_trichotomy p q) as [?|[->|?]]; [by auto| |by auto].
  destruct (str_ltb_total t u) as [?|[->|?]]; [by auto| |by auto 6].
  destruct (Nat.lt_trichotomy i j) as [?|[->|?]]; [left|by auto|right; right]; right; auto.
Qed.

#[export] Instance ref_le_total : Total ref_le.
Proof. intros a b. rewrite !ref_le_iff. destruct (before_total a b) as [H|[->|H]]; [left|left; apply before_irrefl|right]; intros H'; eapply before_irrefl, before_trans; eauto. Qed.

#[export] Instance ref_le_trans : Transitive ref_le.
Proof.
  intros a b c. rewrite !ref_le_iff. intros H1 H2 H. destruct (before_total a b) as [Hab|[<-|Hba]]; [|done|done].
  apply H2. by eapply before_trans.
Qed.

Definition ordered (b : body) : list ref := merge_sort ref_le (refs_of b).

(** The rank of a host of a request among all hosts of the request. *)
Definition rank (b : body) (r : ref) : Z := Z.of_nat (position r.1.2 r.2 (ordered b)).

Definition name (r : ref) : string * nat := (r.1.2, r.2).

Lemma position_nth l : NoDup (map name l) -> forall k r, l !! k = Some r -> position r.1.2 r.2 l = k.
Proof.
  induction l as [|[[p t] i] l IH]; [done|]. intros [Hnot Hnd]%NoDup_cons [|k] r Hr; cbn [lookup list_lookup] in Hr; cbn [position].
  - injection Hr as <-. cbn. by rewrite String.eqb_refl, Nat.eqb_refl.
  - rewrite (IH Hnd k r Hr). destruct (String.eqb_spec t r.1.2) as [->|]; [|done]. destruct (Nat.eqb_spec i r.2) as [->|]; [|done].
    exfalso. apply Hnot. apply list_elem_of_In, in_map_iff. exists r. split; [done|]. by eapply list_elem_of_In, list_elem_of_lookup_2.
Qed.

Lemma imap_names (g : nat -> hostDTO -> ref) tag ds : (forall i d, name (g i d) = (tag, i)) ->
  map name (imap g ds) = imap (fun i _ => (tag, i)) ds.
Proof. intros Hg. change (fmap name (imap g ds) = imap (fun i _ => (tag, i)) ds). rewrite fmap_imap. apply imap_ext. intros i d _. apply Hg. Qed.

Lemma names_nodup b : NoDup (tags b) -> NoDup (map name (refs_of b)).
Proof.
  induction b as [|[tag ds] b IH]; [constructor|]. intros [Hnot Hnd]%NoDup_cons. unfold refs_of. cbn [flat_map]. rewrite map_app.
  apply NoDup_app. split_and!; [|intros [t i] H1 H2|by apply IH].
  - rewrite (imap_names _ tag) by done. apply NoDup_alt. intros i j [t n]. rewrite !list_lookup_imap.
    destruct (ds !! i), (ds !! j); cbn; intros; simplify_eq; done.
  - rewrite (imap_names _ tag) in H1 by done. apply elem_of_lookup_imap in H1 as (? & ? & [= -> ->] & _).
    apply Hnot. apply list_elem_of_In, in_map_iff in H2 as ([[p t] i'] & [= -> ->] & H2). apply in_flat_map in H2 as ([tag' ds'] & Hin & H2).
    apply list_elem_of_In, elem_of_lookup_imap in H2 as (? & ? & [= _ -> _] & _). apply list_elem_of_In. exact (in_map fst b (tag', ds') Hin).
Qed.

Section ranks.
Context (b : body) (Htags : NoDup (tags b)).

Lemma ordered_nodup : NoDup (map name (ordered b)).
Proof using Htags. unfold ordered. rewrite (fmap_Permutation name _ _ (merge_sort_Permutation ref_le (refs_of b))). by apply names_nodup. Qed.

Lemma rank_nth k r : ordered b !! k = Some r -> rank b r = Z.of_nat k.
Proof using Htags. intros Hk. unfold rank. f_equal. by apply position_nth; [apply ordered_nodup|]. Qed.

Lemma ranked r : r ∈ refs_of b -> exists k, ordered b !! k = Some r /\ rank b r = Z.of_nat k /\ (k < length (refs_of b))%nat.
Proof using Htags.
  intros Hr. rewrite <- (merge_sort_Permutation ref_le) in Hr. apply list_elem_of_lookup in Hr as [k Hk]. exists k.
  split_and!; [done|by apply rank_nth|]. apply lookup_lt_Some in Hk. by rewrite (Permutation_length (merge_sort_Permutation ref_le _)) in Hk.
Qed.

(** Ranks run from zero without a gap, in the order of the request. *)
Lemma rank_bounds r : r ∈ refs_of b -> 0 <= rank b r < Z.of_nat (length (refs_of b)).
Proof using Htags. intros (k & _ & -> & ?)%ranked. lia. Qed.

Lemma rank_before r r' : r ∈ refs_of b -> r' ∈ refs_of b -> rank b r < rank b r' <-> before r r'.
Proof using Htags.
  intros (k & Hk & -> & _)%ranked (k' & Hk' & -> & _)%ranked.
  assert (forall i j x y, ordered b !! i = Some x -> ordered b !! j = Some y -> (i < j)%nat -> before x y) as Hsorted.
  { intros i j x y Hi Hj Hij. pose proof (StronglySorted_merge_sort ref_le (refs_of b)) as Hs.
    destruct (before_total x y) as [?|[->|Hyx]]; [done| |].
    - pose proof (rank_nth _ _ Hi). pose proof (rank_nth _ _ Hj). lia.
    - exfalso. revert Hyx. apply ref_le_iff. fold (ordered b) in Hs. clear Hk Hk'. revert i j Hi Hj Hij. induction Hs as [|z l _ IH Hz]; [done|].
      intros [|i] [|j] Hi Hj Hij; [lia| |lia|apply (IH i j Hi Hj); lia]. injection Hi as ->. by eapply Forall_lookup_1. }
  split; [intros; eapply Hsorted; eauto; lia|]. intros Hb. destruct (Z.lt_trichotomy (Z.of_nat k) (Z.of_nat k')) as [?|[Hkk|?]]; [done| |].
  - replace k' with k in * by lia. rewrite Hk in Hk'. injection Hk' as ->. by apply before_irrefl in Hb.
  - exfalso. eapply before_irrefl, before_trans; [exact Hb|]. eapply Hsorted; eauto. lia.
Qed.
End ranks.

(** *** What is stored *)

(** The hosts a request asks for under a tag: what it left out filled in, and the
    priority replaced by the rank. *)
Definition asked (b : body) (tag : string) (ds : list hostDTO) : list hostDTO :=
  imap (fun i d => with_priority (rank b (priority d, tag, i)) (with_defaults d)) ds.

Definition defaulted (b : body) : body := map (fun '(tag, ds) => (tag, map with_defaults ds)) b.

Lemma refs_defaulted b : refs_of (defaulted b) = refs_of b.
Proof.
  unfold defaulted, refs_of. induction b as [|[tag ds] b IH]; [done|]. cbn. rewrite IH. f_equal.
  change (map with_defaults ds) with (with_defaults <$> ds). by rewrite imap_fmap.
Qed.

Lemma normalized b : Z.of_nat (length (refs_of b)) <= 2 ^ 31 -> NoDup (tags b) ->
  normalizeHostPriorities (defaulted b) = map (fun '(tag, ds) => (tag, asked b tag ds)) b.
Proof.
  intros Hlen Hnd. unfold normalizeHostPriorities. cbv zeta. rewrite refs_defaulted. fold (ordered b). unfold defaulted. rewrite map_map.
  apply map_ext_in. intros [tag ds] Hin. f_equal. unfold asked. change (map with_defaults ds) with (with_defaults <$> ds). rewrite imap_fmap.
  apply imap_ext. intros i d Hd. cbn. unfold rank. f_equal. apply wrap_id; [lia|].
  assert ((priority d, tag, i) ∈ refs_of b) as Hr.
  { unfold refs_of. apply list_elem_of_In, in_flat_map. exists (tag, ds). split; [done|]. apply list_elem_of_In, elem_of_lookup_imap. eauto. }
  apply (rank_bounds b Hnd) in Hr. unfold rank in Hr. cbn in Hr. unfold fits. cbn [fst snd]. lia.
Qed.

(** C17: Hosts saved under some tags replace those of these tags and no others, whatever
    order the map of the request is visited in: under each tag there are exactly the
    hosts asked for, in consecutive ids not used before, with the defaults filled in and
    numbered from zero without a gap in the order of all priorities of the request. *)
Theorem hosts_replaced now shuffle b s s' out :
  wf s -> NoDup (tags b) -> Z.of_nat (length (refs_of b)) <= 2 ^ 31 -> (forall b, shuffle b ≡ₚ b) ->
  handlePutHosts now shuffle b s = (s', Ok out) ->
  (forall id h, hs_InboundTag h ∉ tags b -> hosts s' !! id = Some h <-> hosts s !! id = Some h) /\
  (forall tag ds, (tag, ds) ∈ b -> exists n, next_host s <= n /\
     forall id h, hs_InboundTag h = tag -> hosts s' !! id = Some h <-> placed n tag (asked b tag ds) id = Some h) /\
  (forall r, r ∈ refs_of b -> 0 <= rank b r < Z.of_nat (length (refs_of b))) /\
  (forall r r', r ∈ refs_of b -> r' ∈ refs_of b -> rank b r < rank b r' <-> before r r').
Proof.
  intros Hw Hnd Hlen Hsh. unfold handlePutHosts. rewrite eff_bind_ok. intros (s1 & b1 & Hc & Hr).
  apply check_body_ok in Hc as [(Hi1 & Hh1 & Hn1) ->]. fold (defaulted b) in Hr. rewrite normalized in Hr by done.
  rewrite eff_bind_ok in Hr. destruct Hr as (s2 & o2 & Hr & Hl). rewrite eff_bind_ok in Hl. destruct Hl as (s3 & o3 & Hl & [= <- _]).
  apply invalidate_ok in Hl as (_ & Hh3 & _). set (b' := map _ b) in Hr. pose proof (Hsh b') as Hperm.
  assert (tags b' = tags b) as Ht by (unfold b', tags; rewrite map_map; by apply map_ext; intros []).
  assert (tags (shuffle b') ≡ₚ tags b) as Htp by (rewrite <- Ht; by apply Permutation_map).
  apply replace_hosts_ok in Hr as [Hother Hthis]; [|intros id h; rewrite Hh1, Hn1; intros (_ & ? & _)%(wf_host s Hw); done|by rewrite Htp].
  split_and!; [..|by apply rank_bounds|by apply rank_before].
  - intros id h Hin. rewrite Hh3, Hother, Hh1 by (by rewrite Htp). done.
  - intros tag ds Hin. destruct (Hthis tag (asked b tag ds)) as (n & Hle & Hn).
    { rewrite Hperm. apply list_elem_of_In in Hin. apply list_elem_of_In, in_map_iff. by exists (tag, ds). }
    exists n. rewrite Hh3, <- Hn1. by split.
Qed.
End Replace.

(** *** A request for both tags, and one for a single tag *)

Module ReplaceDemo.
Import InventoryProps.Demo Replace.

Definition demo_dto (p : Z) : hostDTO :=
  mkHostDTO 0 "{USERNAME}" "{SERVER_IP}" (Some 443) None None None "" "" "" None None false None None false false p.

Definition demo_body : body := [("fr", [demo_dto 5; demo_dto 1]); ("de", [demo_dto 1])].

Definition saved (b : body) : St * result failure (gmap string (list hostDTO)) := handlePutHosts 10 (@rev _) b demo.

(** The host of "de" is first, then the second of "fr", then its first. *)
Lemma hosts_replaced_witness :
  map (rank demo_body) [(1, "de", 0%nat); (5, "fr", 0%nat); (1, "fr", 1%nat)] = [0; 2; 1] /\
  exists n, 3 <= n /\ forall id h, hs_InboundTag h = "fr" ->
    hosts (saved demo_body).1 !! id = Some h <-> placed n "fr" (asked demo_body "fr" [demo_dto 5; demo_dto 1]) id = Some h.
Proof.
  split; [by vm_compute|].
  destruct (hosts_replaced 10 (@rev _) demo_body demo (saved demo_body).1
    (match (saved demo_body).2 with Ok out => out | Err _ => ∅ end)) as (_ & Hf & _).
  - apply demo_consistent.
  - vm_compute. repeat constructor; set_solver.
  - by vm_compute.
  - intros b. symmetry. apply Permutation_rev.
  - vm_compute. reflexivity.
  - apply Hf. by left.
Defined.

(** A request that leaves a tag out numbers its own hosts from zero again: two hosts of
    the table then have the same priority. *)
Example priorities_collide :
  map (fun kv => hs_Priority kv.2) (map_to_list (hosts (saved [("fr", [demo_dto 7])]).1)) = [0; 0].
Proof. vm_compute. reflexivity. Qed.
End ReplaceDemo.

(** ** Syncing inbounds *)

Module SyncExact.
Import Statements Replace.

(** The greatest priority; -1 when there is no host. *)
Definition top (hs : gmap Z Host) : Z :=
  match map hs_Priority (map snd (map_to_list hs)) with [] => -1 | p :: ps => foldr Z.max p ps end.

Lemma foldr_max p ps : (forall q, q ∈ p :: ps -> q <= foldr Z.max p ps) /\ foldr Z.max p ps ∈ p :: ps.
Proof.
  induction ps as [|q ps [IH1 IH2]]; cbn [foldr].
  - split; [|by left]. intros q [->|?%elem_of_nil]%elem_of_cons; lia || done.
  - split.
    + intros r Hr. assert (r = q \/ r ∈ p :: ps) as [->|Hr'] by set_solver; [lia|]. apply IH1 in Hr'. lia.
    + destruct (Z.max_spec q (foldr Z.max p ps)) as [[_ ->]|[_ ->]]; set_solver.
Qed.

Lemma priorities_in (hs : gmap Z Host) p : p ∈ map hs_Priority (map snd (map_to_list hs)) <-> exists k h, hs !! k = Some h /\ hs_Priority h = p.
Proof.
  rewrite list_elem_of_In, map_map, in_map_iff. split.
  - intros ([k h] & <- & Hin). apply list_elem_of_In, elem_of_map_to_list in Hin. eauto.
  - intros (k & h & Hk & <-). exists (k, h). split; [done|]. by apply list_elem_of_In, elem_of_map_to_list.
Qed.

Lemma top_bound hs k h : hs !! k = Some h -> hs_Priority h <= top hs.
Proof.
  intros Hk. assert (hs_Priority h ∈ map hs_Priority (map snd (map_to_list hs))) as Hin by (apply priorities_in; eauto).
  unfold top. destruct (map _ _) as [|p ps]; [by apply elem_of_nil in Hin|]. by apply foldr_max.
Qed.

Lemma top_reached hs : hs = ∅ /\ top hs = -1 \/ exists k h, hs !! k = Some h /\ hs_Priority h = top hs.
Proof.
  unfold top. destruct (map hs_Priority _) as [|p ps] eqn:E.
  - left. split; [|done]. apply map_eq_nil, map_eq_nil in E. by apply map_to_list_empty_iff.
  - right. apply priorities_in. rewrite E. apply foldr_max.
Qed.

Lemma top_insert (hs : gmap Z Host) k h : hs !! k = None -> hs_Priority h = top hs + 1 -> top (<[k := h]> hs) = top hs + 1.
Proof.
  intros Hk Hp. pose proof (top_bound (<[k := h]> hs) k h (lookup_insert_eq _ _ _)) as Hge.
  destruct (top_reached (<[k := h]> hs)) as [[He _]|(k' & h' & Hh' & Ht)]; [by apply insert_non_empty in He|].
  apply lookup_insert_Some in Hh' as [[_ ->]|[_ Hh']]; [lia|]. apply top_bound in Hh'. lia.
Qed.

(** ** The tags a sync adds, in the order their hosts are made *)

Fixpoint new_tags (is_ : gmap string InboundRow) (es : list inboundSyncEntry) : list string :=
  match es with
  | [] => []
  | e :: es =>
      let rest := new_tags (<[d_Tag e := row_of e]> is_) es in
      match is_ !! d_Tag e with Some _ => rest | None => d_Tag e :: rest end
  end.

(** The rows after it: the last entry of a tag decides. *)
Definition stored (is_ : gmap string InboundRow) (es : list inboundSyncEntry) : gmap string InboundRow :=
  foldl (fun m e => <[d_Tag e := row_of e]> m) is_ es.

Lemma new_tags_in is_ es t : t ∈ new_tags is_ es <-> is_ !! t = None /\ t ∈ map d_Tag es.
Proof.
  revert is_. induction es as [|e es IH]; intros is_; cbn [new_tags map]; [rewrite elem_of_nil; naive_solver|].
  destruct (is_ !! d_Tag e) eqn:E; rewrite ?elem_of_cons, IH, lookup_insert_None.
  - split; [by intros [[? _] ?]; auto|]. intros [Ht [->|Hin]]; [congruence|]. split; [|done]. split; [done|congruence].
  - split; [intros [->|[[? _] ?]]; auto|]. intros [Ht [->|Hin]]; [by left|]. destruct (decide (t = d_Tag e)) as [->|]; [by left|right]. by split.
Qed.

Lemma new_tags_nodup is_ es : NoDup (new_tags is_ es).
Proof.
  revert is_. induction es as [|e es IH]; intros is_; cbn [new_tags]; [constructor|]. destruct (is_ !! d_Tag e); [done|].
  constructor; [|done]. rewrite new_tags_in, lookup_insert_eq. by intros [].
Qed.

(** One plain host per tag, from an id and a priority on. *)
Definition defaults (n p : Z) (ts : list string) (id : Z) : option Host :=
  t ← (if n <=? id then ts !! Z.to_nat (id - n) else None); Some (plain_host t None "none" "none" (p + (id - n)) id).

Lemma defaults_cons n p t ts id :
  defaults n p (t :: ts) id = if id =? n then Some (plain_host t None "none" "none" p id) else defaults (n + 1) (p + 1) ts id.
Proof.
  unfold defaults. destruct (Z.eqb_spec id n) as [->|Hne]; [by rewrite Z.leb_refl, Z.sub_diag, Z.add_0_r|].
  destruct (Z.leb_spec n id), (Z.leb_spec (n + 1) id); try lia; [|done]. replace (Z.to_nat (id - n)) with (S (Z.to_nat (id - (n + 1)))) by lia.
  cbn. by replace (p + 1 + (id - (n + 1))) with (p + (id - n)) by lia.
Qed.

Lemma defaults_outside n p ts id : id < n -> defaults n p ts id = None.
Proof. intros H. unfold defaults. destruct (Z.leb_spec n id); [lia|done]. Qed.

(** ** The loop *)

Lemma sync_entry_ok now e s s' new : sync_entry now e s = (s', Ok new) ->
  inbound_fits (row_of e) = true /\ inbounds s' = <[d_Tag e := row_of e]> (inbounds s) /\
  match inbounds s !! d_Tag e with
  | Some _ => new = false /\ hosts s' = hosts s /\ next_host s' = next_host s
  | None => new = true /\ next_host s' = next_host s + 1 /\
      hosts s' = <[next_host s := plain_host (d_Tag e) None "none" "none" (int32 (top (hosts s) + 1)) (next_host s)]> (hosts s)
  end.
Proof.
  unfold sync_entry. rewrite eff_bind_ok. intros (s1 & [] & Hg & Hr). rewrite catch_ok in Hg.
  assert (same_tables s s1) as (Hi1 & Hh1 & Hn1).
  { pose proof (query_same (fun s => match inbounds s !! d_Tag e with Some i => Ok i | None => Err NodeAdmin.NoRows end) s) as Hs.
    unfold GetInboundByTag in Hg. destruct (query _ s) as [s2 [i|[]]]; by simplify_eq. }
  rewrite eff_bind_ok in Hr. destruct Hr as (s2 & [row ins] & Hu & Hr). rewrite catch_ok in Hu. apply tables_call_ok in Hu as (s2' & (Hi2 & Hh2 & Hn2) & Hu).
  destruct (inbound_fits (row_of e)) eqn:Hfits; [|done]. injection Hu as <- <- <-.
  rewrite eff_bind_ok in Hr. destruct Hr as (s3 & [] & Hv & Hr). rewrite catch_ok in Hv. apply tables_query_ok in Hv as [(Hi3 & Hh3 & Hn3) _].
  cbn [i_Tag row_of touch set_inbounds set_panel inbounds hosts next_host] in *. rewrite Hi2, Hi1 in *. split; [done|].
  destruct (inbounds s !! d_Tag e).
  - injection Hr as <- <-. split_and!; congruence.
  - rewrite eff_bind_ok in Hr. destruct Hr as (s4 & h & Hc & [= <- <-]). rewrite catch_ok in Hc. unfold createDefaultHost in Hc.
    rewrite eff_bind_ok in Hc. destruct Hc as (s5 & max & Hm & Hc). apply tables_query_ok in Hm as [(Hi5 & Hh5 & Hn5) [= <-]].
    apply CreateHost_ok in Hc as (-> & Hi4 & Hn4 & Hh4 & _). rewrite Hi4, Hn4, Hh4. fold (top (hosts s5)). split_and!; congruence.
Qed.

Lemma sync_all_ok now es : forall c s s' c', sync_all now c es s = (s', Ok c') -> fresh s ->
  fits 32 (top (hosts s)) -> top (hosts s) + Z.of_nat (length es) < 2 ^ 31 ->
  Forall (fun e => inbound_fits (row_of e) = true) es /\ inbounds s' = stored (inbounds s) es /\
  c' = c + Z.of_nat (length (new_tags (inbounds s) es)) /\
  forall id, hosts s' !! id = match defaults (next_host s) (top (hosts s) + 1) (new_tags (inbounds s) es) id with
                              | Some h => Some h | None => hosts s !! id end.
Proof.
  induction es as [|e es IH]; intros c s s' c'; cbn [sync_all new_tags length].
  { intros [= <- <-] _ _ _. split_and!; [done..|cbn; lia|]. intros id. unfold defaults. by destruct (next_host s <=? id). }
  rewrite eff_bind_ok. intros (s1 & new & He & Hr) Hfresh Hfit Htop. apply sync_entry_ok in He as (Hf & Hi & Hcase).
  assert (hosts s !! next_host s = None) as Hnone by (destruct (hosts s !! next_host s) eqn:E; [apply Hfresh in E; lia|done]).
  destruct (inbounds s !! d_Tag e) eqn:Et.
  - destruct Hcase as (-> & Hh & Hn). apply IH in Hr as (Hall & Hi' & -> & Hh'); [|unfold fresh; by rewrite Hh, Hn|rewrite Hh; done|rewrite Hh; lia].
    rewrite Hi in *. rewrite Hh, Hn in Hh'. split_and!; [by constructor|done..].
  - destruct Hcase as (-> & Hn & Hh). unfold fits in Hfit.
    assert (int32 (top (hosts s) + 1) = top (hosts s) + 1) as Hw by (apply wrap_id; [lia|unfold fits; lia]). rewrite Hw in Hh.
    assert (top (hosts s1) = top (hosts s) + 1) as Ht by (rewrite Hh; by apply top_insert).
    apply IH in Hr as (Hall & Hi' & -> & Hh'); [|intros id h; rewrite Hh, Hn; intros [[<- _]|[_ ?%Hfresh]]%lookup_insert_Some; lia|unfold fits; lia|lia].
    rewrite Hi in *. rewrite Hn, Ht in Hh'. split_and!; [by constructor|done|cbn [length]; lia|]. intros id. rewrite Hh', defaults_cons, Hh.
    destruct (Z.eqb_spec id (next_host s)) as [->|Hne]; [by rewrite defaults_outside, lookup_insert_eq by lia|by rewrite lookup_insert_ne].
Qed.

(** C18: A sync that is answered stored for every entry the row it asks for, the last one of a
    tag deciding, and left the other inbounds and every host as they were; each tag it
    added, and no other, got one plain host without a port, in consecutive ids not used
    before and after all hosts there were. The answer counts the entries and these tags. *)
Theorem sync_exact now es s s' n created :
  wf s -> fits 32 (top (hosts s)) -> top (hosts s) + Z.of_nat (length es) < 2 ^ 31 ->
  handleSyncInbounds now es s = (s', Ok (n, created)) ->
  inbounds s' = stored (inbounds s) es /\
  (forall id, hosts s' !! id = match defaults (next_host s) (top (hosts s) + 1) (new_tags (inbounds s) es) id with
                               | Some h => Some h | None => hosts s !! id end) /\
  (forall t, t ∈ new_tags (inbounds s) es <-> inbounds s !! t = None /\ t ∈ map d_Tag es) /\ NoDup (new_tags (inbounds s) es) /\
  n = Z.of_nat (length es) /\ created = Z.of_nat (length (new_tags (inbounds s) es)).
Proof.
  intros Hw Hfit Htop. unfold handleSyncInbounds, syncInboundEntries. rewrite eff_bind_ok. intros (s1 & c1 & Hs & [= <- <- <-]).
  rewrite eff_bind_ok in Hs. destruct Hs as (s0 & [] & [= <- _] & Hs). rewrite eff_bind_ok in Hs. destruct Hs as (s2 & c2 & Hs & Hl).
  rewrite eff_bind_ok in Hl. destruct Hl as (s3 & [] & Hl & [= <- <-]). apply invalidate_ok in Hl as (Hi3 & Hh3 & _).
  apply sync_all_ok in Hs as (_ & Hi & -> & Hh); [|intros id h (_ & ? & _)%(wf_host s Hw); done|done|done].
  split_and!; [congruence|intros id; rewrite Hh3; apply Hh|intros t; apply new_tags_in|apply new_tags_nodup|done|lia].
Qed.

(** *** Two tags, one of them there already *)

Import InventoryProps.Demo.

Definition entry_de : inboundSyncEntry :=
  mkDetail "de" "vless" "ws" "" "none" "" None "" 0 "" "" "" "" 0 0 "" false "" "".

Definition demo_sync : list inboundSyncEntry := [demo_entry; entry_de; demo_entry].

Lemma sync_exact_witness :
  let s' := (handleSyncInbounds 10 demo_sync demo).1 in
  inbounds s' = stored (inbounds demo) demo_sync /\ new_tags (inbounds demo) demo_sync = ["us"] /\
  hosts s' !! 3 = Some (plain_host "us" None "none" "none" 2 3).
Proof.
  destruct (sync_exact 10 demo_sync demo (handleSyncInbounds 10 demo_sync demo).1 3 1) as (Hi & Hh & _).
  - apply demo_consistent.
  - vm_compute. split; congruence.
  - by vm_compute.
  - by vm_compute.
  - cbv zeta. split; [exact Hi|]. split; [by vm_compute|]. rewrite Hh. by vm_compute.
Defined.
End SyncExact.
