(* ===== verification/XrayRoundtrip.v ===== *)
(** * XrayRoundtrip: the exported document is read back

    [BuildXrayJSON] writes what [ParseXrayConfig] reads ([export_reads_back]): inbounds
    with their keys and ports, outbounds, the inbounds and the target of every rule. *)

From S2P Require Import Prelude GoStrings GoFloat GoJson GoIndent MySQLDump ProxySettings CoreDto CoreConfig NodeWire XrayConfig.
Import Rules GoFloat MySQLDump XrayImport XrayExport.

#[local] Open Scope string_scope.
#[local] Open Scope Z_scope.

Module Ports.

(** ** Ports in text *)

Lemma itoa_digits_utoa fuel : forall n acc, 0 < n -> itoa_digits fuel n acc = utoa fuel n acc.
Proof.
  induction fuel as [|fuel IH]; intros n acc Hn; [done|]. cbn [itoa_digits utoa]. destruct (Z.ltb_spec 0 n); [|lia].
  destruct (Z.ltb_spec n 10) as [Hlt|Hge].
  - rewrite Z.div_small by lia. by destruct fuel.
  - apply IH. apply Z.div_str_pos. lia.
Qed.

Lemma itoa_Itoa n : 0 <= n -> itoa n = Itoa n.
Proof.
  intros Hn. unfold itoa, Itoa. destruct (Z.eqb_spec n 0) as [->|]; [done|]. destruct (Z.ltb_spec n 0); [lia|]. cbn [String.append].
  apply itoa_digits_utoa. lia.
Qed.

Lemma digit_not c d : is_digit c = true -> is_digit d = false -> Ascii.eqb c d = false.
Proof. intros Hc Hd. destruct (Ascii.eqb_spec c d); congruence. Qed.

Lemma forallb_weaken (p q : ascii -> bool) s : (forall c, p c = true -> q c = true) -> str_forallb p s = true -> str_forallb q s = true.
Proof. intros Hpq. induction s as [|c s IH]; [done|]. cbn. intros [Hc Hs]%andb_true_iff. by rewrite Hpq, IH. Qed.

Lemma mantissa_digits s : forall m v saw, parse_digits m s = Some v -> read_mantissa false s m 0 false saw = (v, 0, saw || negb (blank s), "").
Proof.
  induction s as [|c s IH]; intros m v saw; cbn [parse_digits read_mantissa]; [intros [= ->]; by rewrite orb_false_r|].
  destruct (is_digit c) eqn:Hc; [|done]. intros Hp. rewrite !digit_not by done. rewrite (IH _ v) by (rewrite <- Hp; f_equal; lia). cbn. by rewrite orb_true_r.
Qed.

Lemma lower_digits s : str_forallb is_digit s = true -> map_bytes lower_byte s = s.
Proof.
  induction s as [|c s IH]; [done|]. cbn. intros [Hc Hs]%andb_true_iff. rewrite (IH Hs). f_equal.
  revert Hc. clear. destruct c as [[] [] [] [] [] [] [] []]; vm_compute; congruence.
Qed.

Lemma parse_Itoa n : 0 <= n < 2 ^ 63 -> parse_digits 0 (Itoa n) = Some n.
Proof.
  intros Hn. pose proof (ParseInt_Itoa n Hn) as Hp. unfold ParseInt in Hp. pose proof (Itoa_digits n ltac:(lia)) as Hd. pose proof (Itoa_nonempty n) as Hne.
  destruct (Itoa n) as [|c s] eqn:E; [done|]. cbn [str_forallb] in Hd. apply andb_true_iff in Hd as [Hc _].
  assert (match String c s with String "-" s' => Z.opp <$> parse_nat s' | String "+" s' => parse_nat s' | _ => parse_nat (String c s) end
          = parse_digits 0 (String c s)) as Heq.
  { revert Hc. clear. destruct c as [[] [] [] [] [] [] [] []]; done. }
  rewrite Heq in Hp. destruct (parse_digits 0 (String c s)); [|done]. destruct (decide _); [|done]. exact Hp.
Qed.

Lemma strip_digits s : str_forallb is_digit s = true -> strip_sign s = (false, s).
Proof. destruct s as [|c s]; [done|]. cbn [str_forallb]. intros [Hc _]%andb_true_iff. revert Hc. clear. destruct c as [[] [] [] [] [] [] [] []]; done. Qed.

Lemma hex_digits (s : string) : str_forallb is_digit s = true ->
  match s with String "0" (String c (String d r)) => if Ascii.eqb (lower_byte c) "x" then (true, String d r) else (false, s) | _ => (false, s) end = (false, s).
Proof.
  intros Hs. destruct s as [|a [|c [|d r]]]; [done|by destruct a as [[] [] [] [] [] [] [] []]..|].
  cbn [str_forallb] in Hs. apply andb_true_iff in Hs as [_ [Hc _]%andb_true_iff].
  assert (Ascii.eqb (lower_byte c) "x" = false) as -> by (revert Hc; clear; destruct c as [[] [] [] [] [] [] [] []]; vm_compute; congruence).
  by destruct a as [[] [] [] [] [] [] [] []].
Qed.

Lemma read_float_Itoa n : 0 <= n < 2 ^ 53 -> read_float (Itoa n) = Some (Finite (of_int n)).
Proof.
  intros Hn. pose proof (Itoa_digits n ltac:(lia)) as Hd. unfold read_float. rewrite strip_digits, hex_digits by done.
  rewrite (mantissa_digits _ _ n) by (apply parse_Itoa; lia). assert (blank (Itoa n) = false) as -> by (destruct (Itoa n) eqn:E; [by apply Itoa_nonempty in E|done]).
  cbn [orb negb]. rewrite (forallb_weaken is_digit _ _ (fun c Hc => f_equal negb (digit_not c "_" Hc eq_refl)) Hd). cbn [orb].
  unfold finite. cbn [Z.sub Z.add Z.opp Z.max]. change (10 ^ Z.max 0 (0 - 0)) with 1. change (10 ^ Z.max 0 (- (0 - 0))) with 1. rewrite Z.mul_1_r.
  fold (of_int n). pose proof (of_int_exact n Hn) as He. pose proof (den_pos (of_int n)) as Hp. rewrite He.
  destruct (Z.leb_spec (2 ^ 1024 * den (of_int n)) (Z.abs (n * den (of_int n)))) as [Hle|]; [|done]. exfalso.
  rewrite Z.abs_eq in Hle by nia. apply Z.mul_le_mono_pos_r in Hle; [|lia]. assert (2 ^ 53 <= 2 ^ 1024) by (apply Z.pow_le_mono_r; lia). lia.
Qed.

Lemma ParseFloat_decimal n : 0 <= n < 2 ^ 53 -> ParseFloat (Itoa n) = Some (Finite (of_int n)).
Proof.
  intros Hn. pose proof (Itoa_digits n ltac:(lia)) as Hd. unfold ParseFloat. rewrite lower_digits, strip_digits by done.
  assert (forall t c r, t = String c r -> is_digit c = false -> String.eqb (Itoa n) t = false) as Hnot.
  { intros t c r -> Hc. destruct (String.eqb_spec (Itoa n) (String c r)) as [E|]; [|done]. rewrite E in Hd. cbn [str_forallb] in Hd. by rewrite Hc in Hd. }
  rewrite (Hnot "inf" "i"%char "nf"), (Hnot "infinity" "i"%char "nfinity"), (Hnot "nan" "n"%char "an") by done. cbn [orb]. by apply read_float_Itoa.
Qed.

(** A port written as a number. *)
Lemma number_port n o : 0 <= n < 2 ^ 31 -> parsePortList (Raw (Some (JInt n))) o = ([n], []).
Proof.
  intros Hn. unfold parsePortList, JInt, as_number. cbn [message]. rewrite ParseFloat_decimal by lia. unfold int_of, Trunc.
  rewrite of_int_exact by lia. pose proof (den_pos (of_int n)). rewrite Z.quot_mul by lia. rewrite bool_decide_true; [done|]. unfold fits. lia.
Qed.

(** Several ports, with commas between them. *)
Lemma port_parts_ok o ns : Forall (fun n => 0 <= n < 2 ^ 31) ns -> port_parts o (map itoa ns) = (ns, []).
Proof.
  induction 1 as [|n ns Hn _ IH]; [done|]. cbn [map port_parts]. rewrite itoa_Itoa by lia. pose proof (Itoa_digits n ltac:(lia)) as Hd.
  rewrite TrimSpace_plain by (revert Hd; apply forallb_weaken; intros c Hc; revert Hc; clear; destruct c as [[] [] [] [] [] [] [] []]; vm_compute; congruence).
  rewrite IH. destruct (String.eqb_spec (Itoa n) "") as [E|_]; [by apply Itoa_nonempty in E|].
  assert (Contains (Itoa n) "-" = false) as ->.
  { clear - Hd. unfold Contains. assert (Index (Itoa n) "-" = None) as ->; [|done]. revert Hd. generalize (Itoa n). induction s as [|c s IH]; [done|].
    cbn [str_forallb]. intros [Hc Hs]%andb_true_iff. specialize (IH Hs). unfold Index in *. cbn [String.index String.prefix].
    destruct (ascii_dec "-" c) as [<-|_]; [done|]. by rewrite IH. }
  by rewrite ParseInt_Itoa by lia.
Qed.

Lemma text_ports ns o : ns <> [] -> Forall (fun n => 0 <= n < 2 ^ 31) ns -> parsePortList (Raw (Some (JString (joinInts ns)))) o = (ns, []).
Proof.
  intros Hne Hns. unfold parsePortList, as_number. cbn [message]. unfold joinInts. rewrite (split_at_Join "," (map itoa ns)).
  - by apply port_parts_ok.
  - by destruct ns.
  - apply Forall_map. eapply Forall_impl; [exact Hns|]. intros n Hn. cbv beta in Hn. rewrite itoa_Itoa by lia.
    apply (forallb_weaken is_digit); [|apply Itoa_digits; lia]. cbv beta. intros c Hc. by rewrite digit_not.
Qed.
End Ports.

(** ** Certificates in lines *)

Module Lines.

(** The text without a line feed at its end. *)
Fixpoint chomp (s : string) : string :=
  match s with
  | "" => ""
  | String c s' => match s' with "" => if Ascii.eqb c "010" then "" else s | _ => String c (chomp s') end
  end.

Definition no_feed (s : string) : bool := str_forallb (fun c => negb (Ascii.eqb c "010")) s.

Lemma chomp_plain s : no_feed s = true -> chomp s = s.
Proof.
  unfold no_feed. induction s as [|c s IH]; [done|]. cbn [str_forallb]. intros [Hc%negb_true_iff Hs]%andb_true_iff. cbn [chomp]. destruct s; [by rewrite Hc|]. by rewrite IH.
Qed.

Lemma chomp_app a c s : chomp (a ++ String c s) = a ++ chomp (String c s).
Proof. induction a as [|x a IH]; [done|]. cbn [String.append chomp]. destruct (a ++ String c s) eqn:E; [by destruct a|]. f_equal. exact IH. Qed.

Lemma chomp_feed s : s <> "" -> chomp (String "010" s) = String "010" (chomp s).
Proof. by destruct s. Qed.

Lemma no_feed_snoc a c : no_feed a = true -> Ascii.eqb c "010" = false -> no_feed (a ++ String c "") = true.
Proof. unfold no_feed. induction a as [|x a IH]; cbn; [by intros _ ->|]. intros [-> Ha]%andb_true_iff Hc. by rewrite IH. Qed.

Lemma pem_lines_join s : forall acc, no_feed acc = true -> Join (pem_lines acc s) (String "010" "") = chomp (acc ++ s) /\ (pem_lines acc s = [] <-> acc ++ s = "").
Proof.
  induction s as [|c s IH]; intros acc Ha; cbn [pem_lines].
  - rewrite str_app_nil_r, chomp_plain by done. destruct (String.eqb_spec acc "") as [->|]; done.
  - destruct (Ascii.eqb_spec c "010") as [->|Hc].
    + split; [|split; [done|by destruct acc]]. destruct (IH "" eq_refl) as [Hj He]. cbn [String.append] in *.
      destruct (pem_lines "" s) as [|l ls] eqn:E.
      * rewrite (proj1 He eq_refl), chomp_app. cbn. by rewrite str_app_nil_r.
      * assert (s <> "") as Hs by (intros Hs; by apply He in Hs).
        rewrite chomp_app, chomp_feed by done. rewrite <- Hj. reflexivity.
    + destruct (IH (acc ++ String c "")) as [Hj He]; [apply no_feed_snoc; [done|by apply Ascii.eqb_neq]|].
      rewrite <- !str_app_assoc in *. done.
Qed.

Lemma split_join pem : Join (default [] (splitPEMLines pem)) (String "010" "") = chomp pem.
Proof. unfold splitPEMLines. destruct (String.eqb_spec pem "") as [->|]; [done|]. by apply (pem_lines_join pem ""). Qed.
End Lines.

(** ** One inbound *)

Module Document.
Import Ports Lines.

Lemma decode_strings l : decode_all (map JString l) = Some l.
Proof. induction l as [|s l IH]; [done|]. cbn. by rewrite IH. Qed.

Lemma strings_read (l : list string) old : of_json (to_json l) old = Some l.
Proof. apply decode_strings. Qed.

Lemma get_hit_as {A} {C : Codec A} name n v (x y : A) rest :
  String.eqb (FoldKey n) name = true -> of_json v x = Some y -> get_from name (Some x) ((n, v) :: rest) = get_from name (Some y) rest.
Proof. intros Hn Hv. unfold get_from, is_key. cbn. by rewrite Hn, Hv. Qed.

Lemma one_read {A} {C : Codec A} j (x : A) old : of_json j zero = Some x -> of_json (JArray [j]) old = Some [x].
Proof. intros Hj. cbn. by rewrite Hj. Qed.

Lemma pointer_read {A} {C : Codec A} ms (x : A) : of_json (JObject ms) zero = Some x -> of_json (JObject ms) (None : option A) = Some (Some x).
Proof. intros Hj. cbn. by rewrite Hj. Qed.

Create HintDb read.
#[local] Hint Resolve strings_read one_read pointer_read : read.
#[local] Hint Extern 9 (of_json _ _ = _) => reflexivity : read.

(** The members of a struct, one after the other. *)
Ltac field :=
  lazymatch goal with
  | |- @get_from ?A ?C ?n (Some ?x) ((?k, ?v) :: ?r) = _ =>
      let b := eval vm_compute in (String.eqb (FoldKey k) n) in
      lazymatch b with
      | true => etransitivity; [eapply (@get_hit_as A C n k v x _ r eq_refl); solve [eauto with read nocore]|]; field
      | false => etransitivity; [apply (@NodeWire.NodeWire.get_cons_skip A C n k v (Some x) r eq_refl)|]; field
      end
  | |- _ => reflexivity
  end.

Ltac fields :=
  repeat match goal with
  | |- (get_from _ _ _ ≫= _) = _ => eapply bind_some; [field|cbv beta]
  end.

Lemma pem_read pem old : of_json (to_json (splitPEMLines pem)) old = Some (default [] (splitPEMLines pem)).
Proof. destruct (splitPEMLines pem) as [l|]; [|done]. apply strings_read. Qed.
#[local] Hint Resolve pem_read : read.

Definition certificate_of (e : ExportInbound) : xrayCertificate :=
  mkCertificate "" (default [] (splitPEMLines (e_TLSCertificate e))) (default [] (splitPEMLines (e_TLSKey e))).

Definition tls_of (e : ExportInbound) : xrayTLSSettings := XrayImport.mkTLS (e_TLSServerName e) "" [] "" [certificate_of e].

Definition certificate_json (e : ExportInbound) : json :=
  JObject [("certificate", to_json (splitPEMLines (e_TLSCertificate e))); ("certificateFile", JString "");
           ("key", to_json (splitPEMLines (e_TLSKey e))); ("keyFile", JString "")].

Lemma certificate_reads e : of_json (certificate_json e) zero = Some (certificate_of e).
Proof. unfold certificate_json. cbn [of_json xrayCertificate_codec]. fields. reflexivity. Qed.
#[local] Hint Resolve certificate_reads : read.

Lemma tls_reads e : of_json (tls_json e) zero = Some (tls_of e).
Proof.
  change (tls_json e) with (JObject [("certificates", JArray [certificate_json e]); ("serverName", JString (e_TLSServerName e))]).
  cbn [of_json xrayTLSSettings_codec]. fields. reflexivity.
Qed.

(** The target is left out without a server name, or a port. *)
Definition reality_of (e : ExportInbound) : xrayRealitySettings :=
  let named := negb (String.eqb (e_RealityServerName e) "") in
  XrayImport.mkReality (e_RealityPrivateKey e) (Some (nonNilStrings (e_RealityShortIDs e))) (if named then [e_RealityServerName e] else [])
    (if named && negb (e_RealityServerPort e =? 0) then e_RealityServerName e ++ ":" ++ itoa (e_RealityServerPort e) else "").

Lemma some_strings_read (l : list string) : of_json (to_json l) (None : option (list string)) = Some (Some l).
Proof. cbn. by rewrite decode_strings. Qed.
#[local] Hint Resolve some_strings_read : read.

Lemma reality_reads e : of_json (reality_json e) zero = Some (reality_of e).
Proof.
  unfold reality_json, reality_of. cbv zeta. destruct (negb (String.eqb _ _)), (negb (_ =? 0)); cbn [andb];
    unfold emit; cbn [app of_json xrayRealitySettings_codec]; fields; reflexivity.
Qed.

Definition read_network (e : ExportInbound) : string := if String.eqb (e_Network e) "" then "tcp" else e_Network e.

Definition read_header (e : ExportInbound) : string := if String.eqb (e_HeaderType e) "" then "none" else e_HeaderType e.

Definition read_security (e : ExportInbound) : string := if str_mem (e_Security e) ["tls"; "reality"] then e_Security e else "none".

Definition stream_of (e : ExportInbound) : xrayStreamSettings :=
  XrayImport.mkStream (read_network e) (read_security e)
    (if String.eqb (e_Security e) "tls" then Some (tls_of e) else None)
    (if String.eqb (e_Security e) "reality" then Some (reality_of e) else None)
    (if str_mem (read_network e) ["tcp"; "raw"] then Some (mkTCP (mkField (read_header e))) else None) None.

Lemma tls_pointer e : of_json (tls_json e) (None : option xrayTLSSettings) = Some (Some (tls_of e)).
Proof. apply pointer_read. exact (tls_reads e). Qed.

Lemma reality_pointer e : of_json (reality_json e) (None : option xrayRealitySettings) = Some (Some (reality_of e)).
Proof. apply pointer_read. exact (reality_reads e). Qed.
#[local] Hint Resolve tls_pointer reality_pointer : read.

Lemma stream_reads e : of_json (stream_json e) zero = Some (stream_of e).
Proof.
  unfold stream_json, stream_of, read_network, read_security, read_header. cbv zeta. set (network := if String.eqb (e_Network e) "" then _ else _).
  assert (str_mem (e_Security e) ["tls"; "reality"] = String.eqb (e_Security e) "tls" || String.eqb (e_Security e) "reality") as ->.
  { unfold str_mem. cbn. by rewrite orb_false_r. }
  destruct (String.eqb_spec (e_Security e) "tls") as [->|Ht]; [|destruct (String.eqb_spec (e_Security e) "reality") as [->|Hr]]; cbn [orb];
    destruct (str_mem network ["tcp"; "raw"]); unfold emit, member; cbn [app of_json xrayStreamSettings_codec]; fields; reflexivity.
Qed.

#[local] Hint Extern 1 (of_json (stream_json ?e) _ = _) => exact (stream_reads e) : read.

(** *** Members of a nested struct *)

Definition inner_from {A} `{Codec A} (outer name : string) (acc : option A) (ms : list (string * json)) : option A :=
  foldl (fun acc kv => x ← acc; if is_key outer kv then inner name kv.2 x else Some x) acc ms.

Lemma inner_skip {A} {C : Codec A} outer name n v (acc : option A) rest :
  String.eqb (FoldKey n) outer = false -> inner_from outer name acc ((n, v) :: rest) = inner_from outer name acc rest.
Proof. intros Hn. unfold inner_from. cbn. unfold is_key. cbn. rewrite Hn. by destruct acc. Qed.

Lemma inner_hit {A} {C : Codec A} outer name n v (x y : A) rest :
  String.eqb (FoldKey n) outer = true -> inner name v x = Some y -> inner_from outer name (Some x) ((n, v) :: rest) = inner_from outer name (Some y) rest.
Proof. intros Hn Hv. unfold inner_from. cbn. unfold is_key. cbn. by rewrite Hn, Hv. Qed.

Ltac inner_field :=
  lazymatch goal with
  | |- @inner_from ?A ?C ?o ?n (Some ?x) ((?k, ?v) :: ?r) = _ =>
      let b := eval vm_compute in (String.eqb (FoldKey k) o) in
      lazymatch b with
      | true => etransitivity; [eapply (@inner_hit A C o n k v x _ r eq_refl); solve [eauto with read nocore | cbn [inner]; field]|]; inner_field
      | false => etransitivity; [apply (@inner_skip A C o n k v (Some x) r eq_refl)|]; inner_field
      end
  | |- _ => reflexivity
  end.

Ltac all_fields :=
  repeat match goal with
  | |- (get_from _ _ _ ≫= _) = _ => eapply bind_some; [field|cbv beta]
  | |- (@get_inner ?A ?C ?o ?n ?x ?ms ≫= _) = _ => change (@get_inner A C o n x ms) with (@inner_from A C o n (Some x) ms); eapply bind_some; [inner_field|cbv beta]
  end.

Lemma no_fallbacks e : inner "fallbacks" (inbound_settings e) (i_Fallbacks zero) = Some [].
Proof.
  unfold inbound_settings, member, emit. destruct (String.eqb _ _); cbn [app inner]; field.
Qed.
#[local] Hint Resolve no_fallbacks : read.

Definition inbound_of (sniff : bool) (e : ExportInbound) : xrayInbound :=
  XrayImport.mkInbound (e_Tag e) (Raw (Some (port_json e))) (e_Protocol e) [] (stream_of e) sniff.

Lemma sniffing_on old : inner "enabled" sniffing_json old = Some true.
Proof. reflexivity. Qed.
#[local] Hint Resolve sniffing_on : read.

Lemma inbound_reads sniff e : of_json (buildXrayInbound sniff e) zero = Some (inbound_of sniff e).
Proof.
  unfold buildXrayInbound, inbound_of, member, emit.
  destruct sniff; cbn [app of_json xrayInbound_codec]; all_fields; reflexivity.
Qed.

(** *** What is made of it *)

Definition served_ports (e : ExportInbound) : list Z := if (1 <? length (e_Ports e))%nat then e_Ports e else [e_Port e].

Definition no_colon (s : string) : bool := str_forallb (fun c => negb (Ascii.eqb c ":")) s.

(** Ports are ports, the protocol is one both cores have, and the server name of a
    REALITY inbound is a name. *)
Record exportable (e : ExportInbound) : Prop := {
  x_protocol : str_mem (e_Protocol e) validProtocols = true;
  x_ports : Forall (fun p => 0 <= p < 2 ^ 31) (served_ports e);
  x_name : no_colon (e_RealityServerName e) = true;
  x_target : 0 <= e_RealityServerPort e < 2 ^ 31
}.

Definition read_splits (e : ExportInbound) : list splitTag :=
  let multi := (1 <? length (served_ports e))%nat in
  map (fun port => mkSplit port (split_tag (e_Tag e) multi port)) (served_ports e).

(** The inbounds read back: one for each port, with the fields of its security; an
    empty network is TCP, certificates lose a line feed at their end, and a REALITY
    inbound without a server name its port. *)
Definition read_back (e : ExportInbound) : list Inbound :=
  let tls := String.eqb (e_Security e) "tls" in
  let reality := String.eqb (e_Security e) "reality" in
  let multi := (1 <? length (served_ports e))%nat in
  map (fun port => mkIn (split_tag (e_Tag e) multi port) (e_Protocol e) (read_network e)
      (if str_mem (read_network e) ["tcp"; "raw"] then read_header e else "") (read_security e)
      (if reality then e_RealityPrivateKey e else "") (if reality then Some (nonNilStrings (e_RealityShortIDs e)) else None)
      (if reality then e_RealityServerName e else "")
      (if reality && negb (String.eqb (e_RealityServerName e) "") then e_RealityServerPort e else 0)
      (if tls then chomp (e_TLSCertificate e) else "") (if tls then chomp (e_TLSKey e) else "") (if tls then e_TLSServerName e else "")
      "" "" port) (served_ports e).

Lemma ports_read e o : exportable e -> parsePortList (Raw (Some (port_json e))) o = (served_ports e, []).
Proof.
  intros [_ Hp _ _]. unfold port_json, served_ports in *. destruct (1 <? length (e_Ports e))%nat eqn:E.
  - apply text_ports; [by destruct (e_Ports e)|done].
  - apply number_port. by apply Forall_cons in Hp as [? _].
Qed.

Lemma served_some e : served_ports e <> [].
Proof. unfold served_ports. destruct (1 <? length (e_Ports e))%nat eqn:E; [|done]. by destruct (e_Ports e). Qed.

Lemma after_colon a b : no_colon a = true -> after_first (a ++ ":" ++ b) ":" = Some b.
Proof.
  intros Ha. unfold after_first. change (":" ++ b) with (String ":" ("" ++ b)). pose proof (Index_app a b ":" "" Ha) as Hi. cbn [String.append] in *. rewrite Hi.
  f_equal. cbn [String.length]. rewrite Nat.add_1_r. clear. induction a as [|c a IH]; [done|]. exact IH.
Qed.

Lemma reality_parts_of e : exportable e ->
  reality_parts (Some (reality_of e)) = (e_RealityPrivateKey e, Some (nonNilStrings (e_RealityShortIDs e)), e_RealityServerName e,
    if negb (String.eqb (e_RealityServerName e) "") then e_RealityServerPort e else 0).
Proof.
  intros [_ _ Hn Ht]. unfold reality_parts, reality_of. cbv zeta. cbn [r_PrivateKey r_ShortIds r_ServerNames r_Dest].
  destruct (String.eqb_spec (e_RealityServerName e) "") as [->|Hne]; cbn [negb andb]; [done|].
  destruct (Z.eqb_spec (e_RealityServerPort e) 0) as [->|Hp]; cbn [negb]; [done|]. rewrite after_colon by done.
  rewrite itoa_Itoa, ParseInt_Itoa by lia. do 2 f_equal. apply wrap_id; [lia|]. unfold fits. lia.
Qed.

Lemma inbound_back sniff e : exportable e -> parseInbound (inbound_of sniff e) = (read_back e, read_splits e, []).
Proof.
  intros Hx. unfold parseInbound, inbound_of. cbn [i_Protocol i_Port i_Tag i_StreamSettings i_Fallbacks]. rewrite (x_protocol e Hx). cbn [negb].
  rewrite ports_read by done. unfold read_back, read_splits. pose proof (x_ports e Hx) as Hr. destruct (served_ports e) as [|p ps] eqn:Ep; [by destruct (served_some e)|].
  rewrite <- Ep in *. clear p ps Ep. cbv zeta. set (multi := (1 <? length (served_ports e))%nat).
  assert (forall f g, (forall p, 0 <= p < 2 ^ 31 -> f p = g p) -> map (f : Z -> Inbound) (served_ports e) = map g (served_ports e)) as Hmap.
  { intros f g Hfg. apply map_ext_in. intros p Hin%list_elem_of_In. apply Hfg. by eapply Forall_forall in Hr. }
  assert (forall p, 0 <= p < 2 ^ 31 -> int32 p = p) as Hw by (intros p Hp; apply wrap_id; [lia|unfold fits; lia]).
  unfold stream_of. cbn [s_TCPSettings s_TLSSettings s_RealitySettings s_Network s_Security].
  destruct (String.eqb_spec (e_Security e) "reality") as [Hs|Hs].
  - rewrite Hs, reality_parts_of by done. cbn [String.eqb Ascii.eqb Bool.eqb tls_parts andb app].
    do 2 f_equal. apply Hmap. intros p Hp. rewrite Hw by done. by destruct (str_mem _ ["tcp"; "raw"]).
  - destruct (String.eqb_spec (e_Security e) "tls") as [Ht|Ht].
    + unfold tls_parts, tls_of, certificate_of, reality_parts. cbn [t_Alpn t_Certificates t_MinVersion t_Fingerprint t_ServerName c_Certificate c_Key].
      rewrite !split_join. cbn [app]. do 2 f_equal. apply Hmap. intros p Hp. rewrite Hw by done. by destruct (str_mem _ ["tcp"; "raw"]).
    + cbn [tls_parts reality_parts app andb]. do 2 f_equal. apply Hmap. intros p Hp. rewrite Hw by done. by destruct (str_mem _ ["tcp"; "raw"]).
Qed.

(** ** One outbound *)

Definition exit_stream (o : Outbound) : xrayStreamSettings :=
  XrayImport.mkStream "" (if x_TLSEnabled o then "tls" else "")
    (if x_TLSEnabled o then Some (XrayImport.mkTLS (x_TLSServerName o) "" [] "" []) else None) None None
    (if String.eqb (x_BindInterface o) "" then None else Some (mkField (x_BindInterface o))).

Lemma exit_stream_reads o : of_json (JObject (outbound_stream o)) zero = Some (exit_stream o).
Proof.
  unfold outbound_stream, exit_stream. cbv zeta. unfold member, emit.
  destruct (x_TLSEnabled o), (String.eqb (x_BindInterface o) ""); cbn [app of_json xrayStreamSettings_codec]; fields; reflexivity.
Qed.

Lemma int_read z old : fits 64 z -> of_json (to_json z) old = Some z.
Proof. intros Hz. cbn. rewrite ParseInt_Itoa_int64 by done. cbn. by rewrite bool_decide_true. Qed.

Definition user_of (o : Outbound) : xrayUser := mkUser (x_UUID o) (x_Security o) (x_Flow o).

Definition user_json (o : Outbound) : json :=
  JObject (omitempty "flow" (x_Flow o) ++ emit "id" (x_UUID o) ++ omitempty "security" (x_Security o))%list.

Lemma user_reads o : of_json (user_json o) zero = Some (user_of o).
Proof.
  unfold user_json, user_of, omitempty, emit. cbn [empty string_codec].
  destruct (String.eqb_spec (x_Flow o) "") as [->|], (String.eqb_spec (x_Security o) "") as [->|]; cbn [app of_json xrayUser_codec]; fields; reflexivity.
Qed.

Lemma users_read o old : of_json (JArray [user_json o]) old = Some [user_of o].
Proof. apply one_read, user_reads. Qed.
#[local] Hint Resolve users_read : read.
#[local] Hint Extern 1 (of_json (JInt _) _ = _) => apply int_read; assumption : read.

Definition vnext_json (o : Outbound) : json :=
  JObject [("address", JString (x_Server o)); ("port", JInt (x_ServerPort o)); ("users", JArray [user_json o])].

Lemma vnext_reads o : fits 64 (x_ServerPort o) ->
  settings_list "vnext" (Raw (Some (vnext_settings o))) = Some [mkVnext (x_Server o) (x_ServerPort o) [user_of o]].
Proof.
  intros Hp. assert (of_json (vnext_json o) zero = Some (mkVnext (x_Server o) (x_ServerPort o) [user_of o])) as Hv.
  { unfold vnext_json. cbn [of_json xrayVnext_codec]. fields. reflexivity. }
  unfold settings_list. cbn [message mbind option_bind inner].
  change (vnext_settings o) with (JObject [("vnext", JArray [vnext_json o])]). cbn [inner].
  etransitivity; [eapply get_hit_as; [reflexivity|by apply one_read]|]. reflexivity.
Qed.

Definition server_json (o : Outbound) : json :=
  JObject (emit "address" (x_Server o) ++ omitempty "method" (x_Method o) ++ omitempty "password" (x_Password o) ++
    emit "port" (x_ServerPort o) ++ omitempty "user" (x_Username o))%list.

Definition server_of (o : Outbound) : xrayServer :=
  mkServer (x_Server o) (x_ServerPort o) (x_Password o) (x_Method o) (x_Username o).

Lemma server_reads o : fits 64 (x_ServerPort o) -> of_json (server_json o) zero = Some (server_of o).
Proof.
  intros Hp. unfold server_json, server_of, omitempty, emit. cbn [empty string_codec]. change (to_json (x_ServerPort o)) with (JInt (x_ServerPort o)).
  destruct (String.eqb_spec (x_Method o) "") as [->|], (String.eqb_spec (x_Password o) "") as [->|], (String.eqb_spec (x_Username o) "") as [->|];
    cbn [app of_json xrayServer_codec]; fields; reflexivity.
Qed.

Lemma servers_read o : fits 64 (x_ServerPort o) -> settings_list "servers" (Raw (Some (server_settings o))) = Some [server_of o].
Proof.
  intros Hp. unfold settings_list. cbn [message mbind option_bind].
  change (server_settings o) with (JObject [("servers", JArray [server_json o])]). cbn [inner].
  etransitivity; [eapply get_hit_as; [reflexivity|by apply one_read, server_reads]|]. reflexivity.
Qed.

(** The protocol and the settings an outbound of a type is written with. *)
Definition written_as (o : Outbound) : option (string * raw) :=
  if String.eqb (x_Type o) "direct" then Some ("freedom", Raw None)
  else if String.eqb (x_Type o) "block" then Some ("blackhole", Raw None)
  else if str_mem (x_Type o) ["vmess"; "vless"] then Some (x_Type o, Raw (Some (vnext_settings o)))
  else if str_mem (x_Type o) ["trojan"; "shadowsocks"; "socks"; "http"] then Some (x_Type o, Raw (Some (server_settings o)))
  else None.

Definition outbound_of (o : Outbound) : option xrayOutbound :=
  '(p, settings) ← written_as o; Some (XrayImport.mkOutbound (x_Tag o) p settings (exit_stream o)).

#[local] Hint Extern 1 (of_json (JObject (outbound_stream ?o)) _ = _) => exact (exit_stream_reads o) : read.

Lemma no_stream o : outbound_stream o = [] -> exit_stream o = zero.
Proof.
  unfold outbound_stream, exit_stream. cbv zeta. destruct (x_TLSEnabled o); [done|]. by destruct (String.eqb (x_BindInterface o) "").
Qed.

Lemma outbound_reads o : (j ← buildXrayOutbound o; of_json j zero) = outbound_of o.
Proof.
  unfold buildXrayOutbound, outbound_of, outbound_head, written_as. cbv zeta.
  pose proof (no_stream o) as Hs. set (stream := outbound_stream o) in *.
  destruct (String.eqb (x_Type o) "direct"); [|destruct (String.eqb (x_Type o) "block"); [|destruct (str_mem (x_Type o) ["vmess"; "vless"]);
    [|destruct (str_mem (x_Type o) _); [|done]]]]; cbn [mbind option_bind]; unfold emit, member;
    (destruct stream as [|kv ms] eqn:Es; [rewrite Hs by done|rewrite <- Es; unfold stream]; cbn [app of_json xrayOutbound_codec]; fields; reflexivity).
Qed.

(** ** What is made of it *)

Definition exit_tls (o : Outbound) : bool * string := if x_TLSEnabled o then (true, x_TLSServerName o) else (false, "").

Definition outbound_back (o : Outbound) : option Outbound :=
  let '(tls, name) := exit_tls o in
  let t := x_Type o in
  if str_mem t ["direct"; "block"] then Some (mkOut (x_Tag o) t "" 0 "" "" [] "" "" "" "" "" false "" false (x_BindInterface o))
  else if str_mem t ["vmess"; "vless"] then
    Some (mkOut (x_Tag o) t (x_Server o) (x_ServerPort o) "" "" [] (x_UUID o) (x_Flow o) "" (x_Security o) "" tls name false (x_BindInterface o))
  else if str_mem t ["trojan"; "shadowsocks"; "socks"; "http"] then
    Some (mkOut (x_Tag o) t (x_Server o) (x_ServerPort o) (x_Username o) (x_Password o) [] "" "" (x_Method o) "" "" tls name false (x_BindInterface o))
  else None.

Lemma bound o : match s_Sockopt (exit_stream o) with Some f => f_value f | None => "" end = x_BindInterface o.
Proof. unfold exit_stream. cbn. by destruct (String.eqb_spec (x_BindInterface o) "") as [->|]. Qed.

Lemma tls_applied o : applyOutboundTLS (exit_stream o) = exit_tls o.
Proof. unfold applyOutboundTLS, exit_stream, exit_tls. by destruct (x_TLSEnabled o). Qed.

Lemma outbound_parsed o : fits 64 (x_ServerPort o) ->
  match outbound_of o with Some x => parseOutbound x = (outbound_back o, None) | None => outbound_back o = None end.
Proof.
  intros Hp. unfold outbound_of, written_as, outbound_back. pose proof (tls_applied o) as Ht. pose proof (bound o) as Hb.
  assert (str_mem (x_Type o) ["direct"; "block"] = String.eqb (x_Type o) "direct" || String.eqb (x_Type o) "block") as -> by (unfold str_mem; cbn; by rewrite orb_false_r).
  destruct (exit_tls o) as [tls name].
  destruct (String.eqb_spec (x_Type o) "direct") as [->|Hd]; cbn [orb].
  { cbn [mbind option_bind]. unfold parseOutbound. cbn [o_StreamSettings o_Protocol o_Tag]. rewrite Hb, Ht. reflexivity. }
  destruct (String.eqb_spec (x_Type o) "block") as [->|Hbl].
  { cbn [mbind option_bind]. unfold parseOutbound. cbn [o_StreamSettings o_Protocol o_Tag]. rewrite Hb, Ht. reflexivity. }
  destruct (str_mem (x_Type o) ["vmess"; "vless"]) eqn:Ev.
  { cbn [mbind option_bind]. unfold parseOutbound. cbn [o_StreamSettings o_Protocol o_Tag o_Settings]. rewrite Hb, Ht, Ev, vnext_reads by done.
    assert (String.eqb (x_Type o) "freedom" = false /\ String.eqb (x_Type o) "blackhole" = false) as [-> ->]; [|done].
    apply str_mem_spec in Ev as [<-|[<-|[]]]; done. }
  destruct (str_mem (x_Type o) ["trojan"; "shadowsocks"; "socks"; "http"]) eqn:Es; [|done].
  cbn [mbind option_bind]. unfold parseOutbound. cbn [o_StreamSettings o_Protocol o_Tag o_Settings]. rewrite Hb, Ht, Ev, Es, servers_read by done.
  assert (String.eqb (x_Type o) "freedom" = false /\ String.eqb (x_Type o) "blackhole" = false) as [-> ->]; [|done].
  apply str_mem_spec in Es as [<-|[<-|[<-|[<-|[]]]]]; done.
Qed.

(** ** One rule *)

Definition rule_of (r : RoutingRule) : xrayRoutingRule :=
  mkRule "field" (mkTags (y_Inbound r)) (match y_InboundPort r with [] => Raw None | ps => Raw (Some (JString (joinInts ps))) end) (y_OutboundTag r).

Lemma tags_read (l : list string) old : of_json (to_json l) (old : stringOrList) = Some (mkTags l).
Proof. cbn. by rewrite decode_strings. Qed.
#[local] Hint Resolve tags_read : read.

Lemma rule_reads r : of_json (buildXrayRoutingRule r) zero = Some (rule_of r).
Proof.
  unfold buildXrayRoutingRule, rule_of, omitempty. cbn [empty list_codec].
  set (domain := (y_DomainKeyword r ++ _)%list). set (ip := (y_IPCIDR r ++ _)%list). set (ports := (map itoa (y_Port r) ++ _)%list).
  destruct domain, (y_Inbound r), ip, (y_InboundPort r), (y_Network r), ports, (y_Protocol r);
    unfold emit; cbn [app of_json xrayRoutingRule_codec]; fields; reflexivity.
Qed.

(** The tags of an inbound a rule is for: those of the ports it names, or all. *)
Definition named_tags (e : ExportInbound) (ps : list Z) : list string :=
  map (split_tag (e_Tag e) (1 <? length (served_ports e))%nat)
    match ps with [] => served_ports e | _ => List.filter (fun p => existsb (Z.eqb p) (served_ports e)) ps end.

Definition find_tag (t : string) (is_ : list ExportInbound) : option ExportInbound := List.find (fun e => String.eqb (e_Tag e) t) is_.

(** Of a rule, the inbounds and the target are read back; its other conditions are not. *)
Definition rule_back (is_ : list ExportInbound) (r : RoutingRule) : RoutingRule :=
  plain_rule (flat_map (fun t => match find_tag t is_ with Some e => named_tags e (y_InboundPort r) | None => [] end) (y_Inbound r)) (y_OutboundTag r).

Lemma splits_found sniff is_ : Forall exportable is_ -> NoDup (map e_Tag is_) -> forall (m : gmap string (list splitTag)) t,
  foldl (fun m i => <[i_Tag i := (parseInbound i).1.2]> m) m (map (inbound_of sniff) is_) !! t =
  match find_tag t is_ with Some e => Some (read_splits e) | None => m !! t end.
Proof.
  induction 1 as [|e is_ He _ IH]; [done|]. cbn [map]. intros [Hnot Hnd]%NoDup_cons m t. cbn [foldl]. rewrite IH by done. rewrite inbound_back by done.
  unfold find_tag. cbn [List.find fst snd inbound_of i_Tag]. destruct (String.eqb_spec (e_Tag e) t) as [<-|Hne].
  - destruct (List.find _ is_) as [e'|] eqn:E; [|by rewrite lookup_insert_eq]. exfalso. apply List.find_some in E as [Hin Ht%String.eqb_eq].
    apply Hnot. rewrite <- Ht. apply list_elem_of_In. by apply in_map.
  - destruct (List.find _ is_); [done|]. by rewrite lookup_insert_ne.
Qed.

Lemma find_split (g : Z -> string) p ports :
  List.find (fun s => sp_port s =? p) (map (fun port => mkSplit port (g port)) ports) =
  if existsb (Z.eqb p) ports then Some (mkSplit p (g p)) else None.
Proof.
  induction ports as [|q ports IH]; [done|]. cbn. rewrite (Z.eqb_sym p q). destruct (Z.eqb_spec q p) as [->|]; [done|]. exact IH.
Qed.

Lemma ports_named e orig ps : (ports_of orig (read_splits e) ps).1 =
  map (split_tag (e_Tag e) (1 <? length (served_ports e))%nat) (List.filter (fun p => existsb (Z.eqb p) (served_ports e)) ps).
Proof.
  induction ps as [|p ps IH]; [done|]. cbn [ports_of List.filter]. unfold read_splits at 2. cbv zeta. rewrite find_split.
  destruct (ports_of orig (read_splits e) ps) as [tags ws]. cbn [fst] in IH. destruct (existsb _ _); cbn; by rewrite IH.
Qed.

Lemma resolved is_ (splits : gmap string (list splitTag)) ps origs :
  (forall t, splits !! t = match find_tag t is_ with Some e => Some (read_splits e) | None => None end) ->
  (resolve splits ps origs).1 = flat_map (fun t => match find_tag t is_ with Some e => named_tags e ps | None => [] end) origs.
Proof.
  intros Hs. induction origs as [|t origs IH]; [done|]. cbn [resolve flat_map]. destruct (resolve splits ps origs) as [tags ws]. cbn [fst] in IH.
  rewrite Hs. destruct (find_tag t is_) as [e|]; [|exact IH]. unfold named_tags. destruct ps as [|p ps].
  - cbn [fst]. rewrite IH. f_equal. unfold read_splits. cbv zeta. by rewrite map_map.
  - pose proof (ports_named e t (p :: ps)) as Hp. destruct (ports_of t (read_splits e) (p :: ps)) as [found lost]. cbn [fst] in *. by rewrite IH, Hp.
Qed.

Lemma rule_parsed is_ splits r :
  (forall t, splits !! t = match find_tag t is_ with Some e => Some (read_splits e) | None => None end) ->
  Forall (fun p => 0 <= p < 2 ^ 31) (y_InboundPort r) -> (parseRoutingRule splits (rule_of r)).1 = Some (rule_back is_ r).
Proof.
  intros Hs Hp. unfold parseRoutingRule, rule_of, rule_back. cbn [q_Type q_InboundTag q_LocalPort q_OutboundTag tags_of String.eqb Ascii.eqb Bool.eqb negb andb].
  destruct (y_Inbound r) as [|t ts] eqn:Ei; [done|].
  assert (parsePortList (match y_InboundPort r with [] => Raw None | ps => Raw (Some (JString (joinInts ps))) end) OfRule = (y_InboundPort r, [])) as ->.
  { destruct (y_InboundPort r) as [|p ps]; [done|]. by apply text_ports. }
  rewrite <- (resolved is_ splits) by done. by destruct (resolve splits (y_InboundPort r) (t :: ts)).
Qed.

Lemma rules_parsed is_ splits rs : (forall t, splits !! t = match find_tag t is_ with Some e => Some (read_splits e) | None => None end) ->
  Forall (fun r => Forall (fun p => 0 <= p < 2 ^ 31) (y_InboundPort r)) rs -> forall i, (parse_rules splits i (map rule_of rs)).1 = map (rule_back is_) rs.
Proof.
  intros Hs. induction 1 as [|r rs Hr _ IH]; intros i; [done|]. cbn [map parse_rules]. pose proof (rule_parsed is_ splits r Hs Hr) as Hp.
  destruct (parseRoutingRule splits (rule_of r)) as [rule ws]. cbn [fst] in Hp. subst rule. specialize (IH (i + 1)).
  destruct (parse_rules splits (i + 1) (map rule_of rs)) as [rules more]. cbn [fst] in *. by rewrite IH.
Qed.

Definition not_reserved (o : Outbound) : bool := negb (str_mem (x_Tag o) ["direct"; "block"]).

Lemma outbounds_parsed os : Forall (fun o => fits 64 (x_ServerPort o)) os ->
  (parse_outbounds (omap outbound_of os)).1 = List.filter not_reserved (omap outbound_back os).
Proof.
  induction 1 as [|o os Ho _ IH]; [done|]. cbn [omap list_omap]. pose proof (outbound_parsed o Ho) as Hp.
  destruct (outbound_of o) as [x|] eqn:Ex.
  - cbn [parse_outbounds]. rewrite Hp. destruct (parse_outbounds (omap outbound_of os)) as [outs ws]. cbn [fst] in IH. subst outs.
    destruct (outbound_back o) as [p|]; [|done]. cbn [List.filter].
    assert (not_reserved p = negb (str_mem (x_Tag p) ["direct"; "block"])) as -> by done. by destruct (str_mem (x_Tag p) _).
  - rewrite Hp. exact IH.
Qed.

(** ** The whole document *)

Lemma decode_map {A B} {C : Codec A} (f : B -> json) (g : B -> A) l : (forall x, of_json (f x) zero = Some (g x)) -> decode_all (map f l) = Some (map g l).
Proof. intros Hf. induction l as [|x l IH]; [done|]. cbn. by rewrite Hf, IH. Qed.

Lemma decode_outbounds os : decode_all (omap buildXrayOutbound os) = Some (omap outbound_of os).
Proof.
  induction os as [|o os IH]; [done|]. cbn [omap list_omap]. pose proof (outbound_reads o) as Ho.
  assert (is_Some (outbound_of o) <-> is_Some (buildXrayOutbound o)) as Hsome.
  { clear. unfold outbound_of, written_as, buildXrayOutbound, outbound_head. cbv zeta. repeat (case_match; try done); by split; intros [? ?]. }
  destruct (buildXrayOutbound o) as [j|]; cbn [mbind option_bind] in Ho.
  - destruct Hsome as [_ [x Hx]]; [by eexists|]. rewrite Hx in *. cbn [decode_all]. rewrite Ho. cbn [mbind option_bind]. by rewrite IH.
  - by rewrite <- Ho.
Qed.

Definition exported_dns (ds : list DNSServer) : list string := List.filter (fun a => negb (String.eqb a "")) (map z_Address ds).

Definition config_of (is_ : list ExportInbound) (os : list Outbound) (rs : list RoutingRule) (ds : list DNSServer) (level : string) (sniff : bool) : xrayConfig :=
  mkConfig (exportLogLevel level) (map (fun a => Raw (Some (JString a))) (exported_dns ds)) (map (inbound_of sniff) is_) (omap outbound_of os)
    "IPIfNonMatch" (map rule_of rs).

Lemma raws_read (l : list string) old : of_json (to_json l) (old : list raw) = Some (map (fun a => Raw (Some (JString a))) l).
Proof. apply (decode_map JString). done. Qed.

Lemma array_of {A} {C : Codec A} l (x : list A) old : decode_all l = Some x -> of_json (JArray l) old = Some x.
Proof. done. Qed.
#[local] Hint Resolve raws_read : read.
#[local] Hint Extern 2 (of_json (JArray (map (buildXrayInbound ?s) _)) _ = _) => apply array_of, decode_map; exact (inbound_reads s) : read.
#[local] Hint Extern 2 (of_json (JArray (map buildXrayRoutingRule _)) _ = _) => apply array_of, decode_map; exact rule_reads : read.
#[local] Hint Extern 2 (of_json (JArray (omap buildXrayOutbound _)) _ = _) => apply array_of, decode_outbounds : read.

Lemma document_reads is_ os rs ds level sniff : xrayConfig_of_json (document is_ os rs ds level sniff) = Some (config_of is_ os rs ds level sniff).
Proof.
  unfold document, config_of. fold (exported_dns ds). set (servers := exported_dns ds).
  change (JObject (member "dns" _ ++ _)%list) with (JObject [("dns", JObject [("servers", to_json servers)]);
    ("inbounds", JArray (map (buildXrayInbound sniff) is_)); ("log", JObject [("loglevel", JString (exportLogLevel level))]);
    ("outbounds", JArray (omap buildXrayOutbound os));
    ("routing", JObject [("domainStrategy", JString "IPIfNonMatch"); ("rules", JArray (map buildXrayRoutingRule rs))])]).
  cbn [xrayConfig_of_json]. all_fields. reflexivity.
Qed.

(** [dns-1], [dns-2], ... *)
Fixpoint servers_from (i : Z) (addrs : list string) : list DNSServer :=
  match addrs with [] => [] | a :: addrs => mkDNS ("dns-" ++ Itoa (i + 1)) "udp" a 0 "" :: servers_from (i + 1) addrs end.

Lemma servers_parsed addrs : forall i, (parseDNSServers i (map (fun a => Raw (Some (JString a))) addrs)).1 = servers_from i addrs.
Proof.
  induction addrs as [|a addrs IH]; intros i; [done|]. cbn [map parseDNSServers message]. specialize (IH (i + 1)).
  destruct (parseDNSServers (i + 1) _). cbn [fst servers_from] in *. by rewrite IH.
Qed.

End Document.

(** ** A concrete document *)

Module DocumentDemo.
Import Document.

Definition demo_export : list ExportInbound :=
  [mkExport "de" "vless" "" "" "reality" "PRIVATE" (Some ["ab"; "cd"]) "example.com" 443 "" "" "" 443 [443; 8443] "" ""
     [mkClient "ali" "u-1" "xtls-rprx-vision" "" ""];
   mkExport "ws" "trojan" "ws" "" "tls" "" None "" 0 (String.append "CERT" (String "010" "END")) "KEY" "cdn.example" 2053 [2053] "" "" []].

Definition demo_exits : list Outbound :=
  [mkOut "out" "vless" "1.2.3.4" 443 "" "" [] "u-9" "" "" "" "" true "sni.example" true "";
   mkOut "direct" "direct" "" 0 "" "" [] "" "" "" "" "" false "" false "eth1"; mkOut "wg" "wireguard" "" 0 "" "" [] "" "" "" "" "" false "" false ""].

Definition demo_rules : list RoutingRule := [mkRoute ["de"] [8443] ["ads.example"] [] [] [] false [] [] [] [] "out"; mkRoute ["ws"] [] [] [] [] [] false [] [] [] [] "block"].


(** A rule that names an inbound that was not imported is kept for every inbound, with
    a warning; one whose inbound was skipped for its port range, without one. *)
Example rule_widened :
  (fun '(rules, ws) => (map y_Inbound rules, ws))
    (parse_rules (tag_splits [XrayImport.mkInbound "de" (Raw (Some (JString "1000-2000"))) "vless" [] zero false]) 1
      [mkRule "field" (mkTags ["de"]) (Raw None) "out"; mkRule "field" (mkTags ["fr"]) (Raw None) "out"]) =
  ([[]; []], [InRule 2 [UnknownInbound "fr"]]).
Proof. vm_compute. reflexivity. Qed.
End DocumentDemo.
