(* ===== verification/XrayProps.v ===== *)
(** * XrayProps: what the Xray documents tell, and to whom

    The theorems about [XrayConfig] and [XrayAdmin]: the document a reseller gets does
    not depend on any secret ([reseller_sees_no_secret]); a document imported a second time
    leaves everything as the first import left it ([import_again]); and, as examples, what
    the editor of the panel refuses or forgets. *)

From stdpp Require Import sorting.
From S2P Require Import Prelude GoStrings GoFloat GoJson GoIndent ProxySettings Store Effect CoreDto CoreConfig NodeAdmin NodeConfig Share XrayConfig Inventory XrayAdmin ReviewJob InventoryProps HostsProps XrayRoundtrip.
Import Rules NodeConfig Tables Inbounds XrayAdmin.

#[local] Open Scope string_scope.
#[local] Open Scope Z_scope.

(** ** The document a reseller gets *)

Module Redaction.
Import XrayExport.

(** Sorting commutes with a map that keeps the order. *)
Section sort_map.
Context {A B : Type} (R : A -> A -> Prop) (S : B -> B -> Prop) `{!RelDecision R, !RelDecision S} (f : A -> B).
Context (Hf : forall x y, R x y <-> S (f x) (f y)).

Lemma merge_map l1 : forall l2, map f (list_merge R l1 l2) = list_merge S (map f l1) (map f l2).
Proof using Hf.
  induction l1 as [|x l1 IH1]; intros l2; [by destruct l2|]. induction l2 as [|y l2 IH2]; [done|]. cbn.
  destruct (decide (R x y)) as [H|H]; [rewrite decide_True by (by apply Hf)|rewrite decide_False by (by rewrite <- Hf)]; cbn; f_equal; [apply IH1|exact IH2].
Qed.

Lemma sort_map l : map f (merge_sort R l) = merge_sort S (map f l).
Proof using Hf.
  unfold merge_sort. change (@nil (option (list B))) with (map (option_map (map f)) (@nil (option (list A)))).
  generalize (@nil (option (list A))) as st. induction l as [|x l IH]; intros st; cbn.
  - induction st as [|[l'|] st IH]; cbn; [done|by rewrite merge_map, IH|done].
  - rewrite IH. f_equal. clear -Hf. change [f x] with (map f [x]). generalize [x]. induction st as [|[l'|] st IH]; intros l0; cbn; try done.
    by rewrite IH, merge_map.
Qed.
End sort_map.

(** An inbound without what only the panel and its nodes may know; of a certificate and
    its key what is left is that both are there. *)
Definition without_secrets (i : InboundRow) : InboundRow :=
  let there := if String.eqb (i_Security i) "tls" && servable i then Some "given" else None in
  NodeConfig.mkInbound (i_Tag i) (i_Protocol i) (i_Network i) (i_HeaderType i) (i_Security i) None None (i_RealityServerName i)
    (i_RealityServerPort i) there there (i_TlsServerName i) None None None None false None None.

(** Two states that differ in nothing but secrets: keys, certificates, short ids, the
    credentials of users, outbounds, rules and name servers. *)
Record alike (s t : St) : Prop := {
  alike_inbounds : without_secrets <$> inbounds s = without_secrets <$> inbounds t;
  alike_hosts : hosts s = hosts t;
  alike_level : Rules.LogLevel (NodeAdmin.core_config (panel s)) = Rules.LogLevel (NodeAdmin.core_config (panel t));
  alike_sniff : SniffEnabled (NodeAdmin.core_config (panel s)) = SniffEnabled (NodeAdmin.core_config (panel t));
  alike_faults : NodeAdmin.faults (panel s) = NodeAdmin.faults (panel t)
}.

Definition row_without_secrets (r : AutoSyncRow) : AutoSyncRow :=
  mkRow (without_secrets (r_Inbound r)) (r_Port r) (r_Host r) (r_Path r) (r_Ports r).

Lemma servable_without i : servable (without_secrets i) = servable i.
Proof.
  unfold without_secrets. destruct (servable i) eqn:E; unfold servable in *; cbn [i_Security i_TlsCertificate i_TlsKey];
    destruct (str_mem (i_Security i) ["none"; "reality"]); try done; cbn [orb] in *; destruct (String.eqb (i_Security i) "tls"); done.
Qed.

Lemma rows_without hs is_ : map row_without_secrets (NodeConfig.ListAutoSyncInbounds is_ hs) = NodeConfig.ListAutoSyncInbounds (map without_secrets is_) hs.
Proof.
  unfold NodeConfig.ListAutoSyncInbounds. rewrite (sort_map by_tag by_tag) by done. f_equal.
  induction is_ as [|i is_ IH]; [done|]. cbn [omap list_omap map].
  assert (sync_row hs (without_secrets i) = row_without_secrets <$> sync_row hs i) as ->.
  { unfold sync_row. rewrite servable_without. cbn [without_secrets i_Tag]. destruct (servable i); [|done]. by destruct (merge_sort _ _). }
  destruct (sync_row hs i); cbn; [f_equal|]; exact IH.
Qed.

Lemma redact_without s t clients clients' r : hosts s = hosts t ->
  redact <$> export_inbound s clients r = redact <$> export_inbound t clients' (row_without_secrets r).
Proof. intros Hh. unfold export_inbound, redact, sni_of. rewrite Hh. cbn. by destruct (_ || _). Qed.

Section document.
Context `{ProxySettings.Random}.

(** What a request is answered: nothing when one of its three statements fails. *)
Definition exported (s : St) : list ExportInbound :=
  omap (export_inbound s (add_clients (NodeConfig.ListActiveUserProxiesForNodeConfig (db s)) ∅ 0))
    (NodeConfig.ListAutoSyncInbounds (inbound_rows s) (host_rows s)).

Lemma raw_answer sudo s :
  (handleGetRawXrayConfig sudo s).2 =
  if existsb id (take 3 (NodeAdmin.faults (panel s))) then Err 500
  else let c := NodeAdmin.core_config (panel s) in
       Ok (raw_document (if sudo then exported s else map redact (exported s)) (if sudo then c else redact_core c)).
Proof.
  unfold handleGetRawXrayConfig, buildRawXrayInbounds, XrayAdmin.ListAutoSyncInbounds, XrayAdmin.ListActiveUserProxies, tables,
    catch, mbind, eff_bind, query, call.
  destruct s as [is_ hs ts n d [c ns tg tl k v fs]]. destruct fs as [|[] [|[] [|[] fs]]]; reflexivity.
Qed.

Lemma redacted_alike s t : alike s t -> map redact (exported s) = map redact (exported t).
Proof.
  intros [Hi Hh _ _ _]. unfold exported.
  assert (map without_secrets (inbound_rows s) = map without_secrets (inbound_rows t)) as Hrows.
  { unfold inbound_rows. apply (f_equal map_to_list) in Hi. rewrite !map_to_list_fmap in Hi. apply (f_equal (fmap snd)) in Hi.
    rewrite <- !list_fmap_compose in Hi. rewrite !map_map. exact Hi. }
  unfold host_rows. rewrite <- Hh. set (hs := map host_row _).
  assert (forall u clients, hosts u = hosts s -> map redact (omap (export_inbound u clients) (NodeConfig.ListAutoSyncInbounds (inbound_rows u) hs)) =
            map redact (omap (export_inbound s ∅) (NodeConfig.ListAutoSyncInbounds (map without_secrets (inbound_rows u)) hs))) as Hu.
  { intros u clients Hus. rewrite <- rows_without. induction (NodeConfig.ListAutoSyncInbounds (inbound_rows u) hs) as [|r rows IH]; [done|]. cbn.
    pose proof (redact_without u s clients ∅ r Hus) as Hr. destruct (export_inbound u clients r), (export_inbound s ∅ (row_without_secrets r)); cbn in Hr |- *; try done; try exact IH.
    apply (inj Some) in Hr. rewrite Hr. f_equal. exact IH. }
  rewrite (Hu s), (Hu t) by done. by rewrite Hrows.
Qed.

Lemma redacted_document is_ c : raw_document is_ (redact_core c) = BuildXrayJSON is_ [] [] [] (Rules.LogLevel c) (SniffEnabled c).
Proof. unfold raw_document, redact_core. cbn [Rules.LogLevel SniffEnabled Rules.Outbounds RoutingRules DNSServers]. reflexivity. Qed.

(** C14: The document an admin who is not sudo gets is the same for any two states that
    differ only in secrets, whatever statement fails. *)
Theorem reseller_sees_no_secret s t : alike s t -> (handleGetRawXrayConfig false s).2 = (handleGetRawXrayConfig false t).2.
Proof.
  intros Ha. rewrite !raw_answer, (redacted_alike s t Ha). destruct Ha as [_ _ Hl Hs Hf]. rewrite Hf.
  destruct (existsb _ _); [done|]. cbv beta zeta iota. by rewrite !redacted_document, Hl, Hs.
Qed.
End document.

(** *** Two panels with other keys and other users *)

#[local] Existing Instance ProxySettings.tally_random.
Import InventoryProps.Demo.

Definition other : St := set_db (with_tags [] ReviewJob.demo_db) (panel_with "OTHER KEY").

Lemma reseller_sees_no_secret_witness :
  (handleGetRawXrayConfig false demo).2 = (handleGetRawXrayConfig false other).2 /\
  (handleGetRawXrayConfig true demo).2 <> (handleGetRawXrayConfig true other).2.
Proof.
  split; [|vm_compute; discriminate]. apply reseller_sees_no_secret. split; [|done..].
  cbn -[fmap]. by rewrite !fmap_insert, !fmap_empty.
Defined.
End Redaction.

(** ** Importing the same document again *)

Module Reimport.
Import InventoryProps.Consistency HostsProps.Statements HostsProps.SyncExact.

(** *** Merging *)

Lemma new_by_seen {A} (key : A -> string) l : forall seen, (forall x, In x l -> In (key x) seen) -> new_by key seen l = [].
Proof.
  induction l as [|x l IH]; intros seen Hs; cbn [new_by]; [done|]. rewrite (proj2 (str_mem_spec (key x) seen)) by (apply Hs; by left).
  apply IH. intros y Hy. apply Hs. by right.
Qed.

Lemma new_by_covers {A} (key : A -> string) l : forall seen x, In x l -> In (key x) (seen ++ map key (new_by key seen l)).
Proof.
  induction l as [|y l IH]; intros seen x; [done|]. cbn [new_by]. destruct (str_mem (key y) seen) eqn:E.
  - intros [->|Hx]; [|by apply IH]. apply in_app_iff. left. by apply str_mem_spec.
  - cbn [map]. intros [->|Hx]; [apply in_app_iff; right; by left|]. specialize (IH (key y :: seen) x Hx).
    apply in_app_iff in IH as [[<-|?]|?]; apply in_app_iff; [right; by left|by left|right; by right].
Qed.

Lemma append_again {A} (key : A -> string) old l : append_new key (append_new key old l) l = append_new key old l.
Proof.
  unfold append_new at 2 3. pose proof (new_by_covers key l (map key (elems old))) as Hc. destruct (new_by key (map key (elems old)) l) as [|x new] eqn:E.
  - unfold append_new. by rewrite E.
  - unfold append_new. cbn [elems]. rewrite new_by_seen; [done|]. intros y Hy. unfold elems at 1. cbn [default from_option]. unfold id. rewrite map_app. by apply Hc.
Qed.

Lemma merge_again c t p : XrayImport.res_LogLevel p <> "" ->
  let m := merge c p in
  merge (mkCore (Rules.LogLevel m) (SniffEnabled m) (Rules.Outbounds m) (RoutingRules m) (DNSServers m) t) p =
  mkCore (Rules.LogLevel m) (SniffEnabled m) (Rules.Outbounds m) (RoutingRules m) (DNSServers m) t.
Proof.
  intros Hl. cbv zeta. unfold merge. cbn [Rules.LogLevel SniffEnabled Rules.Outbounds RoutingRules DNSServers UpdatedAt].
  unfold appendNewRoutingRules. rewrite !append_again. unfold blank. rewrite (proj2 (String.eqb_neq _ _) Hl). f_equal. by destruct (SniffEnabled c), (XrayImport.res_SniffEnabled p).
Qed.

(** *** What the statements on the tables leave alone *)

Definition same_config (s s' : St) : Prop :=
  NodeAdmin.core_config (panel s') = NodeAdmin.core_config (panel s) /\ NodeAdmin.nodes (panel s') = NodeAdmin.nodes (panel s).

#[export] Instance same_config_preorder : PreOrder same_config.
Proof. split; [done|]. intros s1 s2 s3 [] []. split; congruence. Qed.

Lemma config_call {A} (f : St -> result callerr (St * A)) : (forall s s' a, f s = Ok (s', a) -> same_config s s') -> InventoryProps.Steps.keeps same_config (call f).
Proof. apply InventoryProps.Steps.keeps_one_call; [exact _|done]. Qed.

#[export] Instance config_tables : InventoryProps.Steps.TablesRespected same_config.
Proof.
  split; [exact _|..].
  - intros A f. apply config_call. intros s s' a. destruct (f s); [|done]. by intros [= <- <-].
  - intros now row. apply config_call. intros s s' a. destruct (inbound_fits row); [|done]. by intros [= <- <-].
  - intros now tag. apply config_call. by intros s s' a [= <- <-].
  - intros now tag. apply config_call. by intros s s' a [= <- <-].
  - intros now row _ s. unfold CreateHost.
    pose proof (config_call (fun s => Ok (set_next (next_host s + 1) s, next_host s)) ltac:(by intros s0 s' a [= <- <-]) s) as Hn.
    destruct (call _ s) as [s1 [id|e]]; [|exact Hn]. by destruct (_ && _).
  - intros now. apply config_call. by intros s s' a [= <- <-].
  - intros now. apply config_call. by intros s s' a [= <- <-].
Qed.

(** *** Without failures *)

Definition calm (s : St) : Prop := NodeAdmin.faults (panel s) = [].

Definition goes {E A} (m : M E A) (s : St) : Prop := exists s' a, m s = (s', Ok a) /\ calm s'.

Lemma goes_bind {E A B} (m : M E A) (f : A -> M E B) s :
  goes m s -> (forall s' a, m s = (s', Ok a) -> calm s' -> goes (f a) s') -> goes (m ≫= f) s.
Proof. intros (s1 & a & Hm & Hc) Hf. destruct (Hf s1 a Hm Hc) as (s2 & b & Hb & Hc2). exists s2, b. split; [|done]. apply eff_bind_ok. eauto. Qed.

Lemma goes_catch {E E' A} (m : M E A) (f : E -> E') s : goes m s -> goes (catch m f) s.
Proof. intros (s1 & a & Hm & Hc). exists s1, a. split; [by apply catch_ok|done]. Qed.

Lemma goes_call {A} (f : St -> result callerr (St * A)) s s' a : calm s -> f s = Ok (s', a) -> calm s' -> goes (call f) s.
Proof.
  intros Hc Hf Hc'. exists s', a. split; [|done]. unfold call. unfold calm in Hc. rewrite Hc. cbn [tail].
  assert (set_panel (NodeAdmin.set_faults [] (panel s)) s = s) as ->; [|by rewrite Hf].
  destruct s as [? ? ? ? ? [? ? ? ? ? ? fs]]. cbn in Hc. by subst fs.
Qed.

Lemma goes_query {A} (f : St -> result callerr A) s a : calm s -> f s = Ok a -> goes (query f) s.
Proof. intros Hc Hf. eapply goes_call; [done|by rewrite Hf|done]. Qed.

Lemma goes_create now row s : calm s -> host_fits (row (next_host s)) = true -> is_Some (inbounds s !! hs_InboundTag (row (next_host s))) ->
  goes (CreateHost now row) s.
Proof.
  intros Hc Hf Ht. destruct (goes_call (fun s => Ok (set_next (next_host s + 1) s, next_host s)) s _ _ Hc eq_refl Hc) as (s1 & id & Hs1 & Hc1).
  unfold goes, CreateHost. rewrite Hs1. apply tables_call_ok in Hs1 as (s2 & (Hi & _ & Hn) & [= <- <-]). cbn -[host_fits] in *.
  rewrite Hn, Hi in *. rewrite Hf, bool_decide_true by done. cbn. eexists _, _. split; [reflexivity|exact Hc1].
Qed.

(** *** The sync *)

Lemma sync_all_stored now es : forall c s s' c', sync_all now c es s = (s', Ok c') ->
  Forall (fun e => inbound_fits (row_of e) = true) es /\ inbounds s' = stored (inbounds s) es.
Proof.
  induction es as [|e es IH]; intros c s s' c'; cbn [sync_all]; [by intros [= <- _]|].
  rewrite eff_bind_ok. intros (s1 & new & (Hf & Hi & _)%sync_entry_ok & Hr). apply IH in Hr as [Hall Hi']. rewrite Hi in Hi'. by split; [constructor|].
Qed.

Lemma plain_fits tag p id : host_fits (plain_host tag None "none" "none" p id) = true.
Proof. by vm_compute. Qed.

Lemma sync_entry_goes now e s : calm s -> inbound_fits (row_of e) = true -> goes (sync_entry now e) s.
Proof.
  intros Hc Hf. apply goes_bind.
  { apply goes_catch. destruct (inbounds s !! d_Tag e) as [i|] eqn:E.
    - destruct (goes_query (fun s => match inbounds s !! d_Tag e with Some i => Ok i | None => Err NodeAdmin.NoRows end) s i Hc) as (s1 & a & Hs1 & Hc1); [by rewrite E|].
      exists s1, tt. unfold GetInboundByTag. by rewrite Hs1.
    - exists (set_panel (NodeAdmin.set_faults [] (panel s)) s), tt. split; [|done]. unfold GetInboundByTag, query, call. unfold calm in Hc. rewrite Hc. cbn. by rewrite E. }
  intros s1 [] _ Hc1. apply goes_bind; [eapply goes_catch, goes_call; [done|by rewrite Hf|exact Hc1]|]. intros s2 [row ins] Hu Hc2.
  apply goes_bind; [by eapply goes_catch, goes_query|]. intros s3 [] Hv Hc3. destruct ins; [|by eexists _, _].
  apply goes_bind; [|by intros s4 h _ Hc4; eexists _, _]. apply goes_catch. apply goes_bind; [by eapply goes_query|].
  intros s4 max Hm Hc4. apply goes_create; [done|apply plain_fits|]. cbn.
  apply tables_query_ok in Hm as [(-> & _) _]. apply catch_ok, tables_query_ok in Hv as [(-> & _) _]. apply catch_ok, tables_call_ok in Hu as (s2' & (Hi & _) & Hu). rewrite Hf in Hu.
  injection Hu as <- _ _. cbn. by rewrite lookup_insert_eq.
Qed.

Lemma sync_all_goes now es : forall c s, calm s -> Forall (fun e => inbound_fits (row_of e) = true) es -> goes (sync_all now c es) s.
Proof.
  induction es as [|e es IH]; intros c s Hc Hall; cbn [sync_all]; [by eexists _, _|]. apply Forall_cons in Hall as [He Hall].
  apply goes_bind; [by apply sync_entry_goes|]. intros s1 new _ Hc1. by apply IH.
Qed.

Lemma invalidate_goes {E} now s : calm s -> goes (logged (E' := E) tt (InvalidateNodeConfigPayload now)) s.
Proof.
  intros Hc. destruct (goes_call (fun s => Ok (touch now s, tt)) s _ _ Hc eq_refl Hc) as (s1 & a & Hs1 & Hc1).
  destruct (goes_query (fun _ : St => Ok tt) s1 tt Hc1 eq_refl) as (s2 & b & Hs2 & Hc2).
  unfold goes, logged, InvalidateNodeConfigPayload, BumpDataVersion, InvalidateInbound. rewrite Hs1, Hs2. by eexists _, _.
Qed.

Lemma sync_goes now es s : calm s -> validate_all es = Ok tt -> Forall (fun e => inbound_fits (row_of e) = true) es -> goes (syncInboundEntries now es) s.
Proof.
  intros Hc Hv Hall. apply goes_bind; [exists s, tt; unfold lift; by rewrite Hv|]. intros s1 [] [= <- _] Hc1.
  apply goes_bind; [by apply sync_all_goes|]. intros s2 created _ Hc2. apply goes_bind; [by apply invalidate_goes|]. intros s3 [] _ Hc3. by eexists _, _.
Qed.

Lemma stored_lookup es : forall m t, stored m es !! t = if decide (t ∈ map d_Tag es) then stored ∅ es !! t else m !! t.
Proof.
  induction es as [|e es IH]; intros m t; [done|]. cbn [stored foldl map]. fold (stored (<[d_Tag e := row_of e]> m) es). fold (stored (<[d_Tag e := row_of e]> ∅) es).
  rewrite (IH (<[_ := _]> m)), (IH (<[_ := _]> ∅)). destruct (decide (t ∈ map d_Tag es)) as [Hin|Hin].
  - by rewrite decide_True by (by right).
  - destruct (decide (t = d_Tag e)) as [->|Hne]; [by rewrite decide_True, !lookup_insert_eq by (by left)|].
    rewrite decide_False by (rewrite elem_of_cons; naive_solver). by rewrite lookup_insert_ne.
Qed.

Lemma stored_again m es : stored (stored m es) es = stored m es.
Proof. apply map_eq. intros t. rewrite stored_lookup, (stored_lookup es m). by destruct (decide _). Qed.

Lemma stored_has m es e : In e es -> is_Some (stored m es !! d_Tag e).
Proof.
  revert m e. induction es as [|e' es IH]; intros m e; [done|]. cbn [stored foldl]. fold (stored (<[d_Tag e' := row_of e']> m) es). intros [->|Hin]; [|by apply IH].
  rewrite stored_lookup. destruct (decide _) as [Hin|_]; [|rewrite lookup_insert_eq; by eexists].
  apply list_elem_of_In, in_map_iff in Hin as (e2 & <- & Hin). by apply IH.
Qed.

(** *** The hosts of the imported inbounds *)

Definition host_for (i : XrayImport.Inbound) (p id : Z) : Host :=
  plain_host (XrayImport.Tag i) (Some (int32 (XrayImport.Port i))) (or_default "none" (XrayImport.HostALPN i))
    (or_default "none" (XrayImport.HostFingerprint i)) p id.

Fixpoint last_of (t : string) (l : list XrayImport.Inbound) : option XrayImport.Inbound :=
  match l with
  | [] => None
  | i :: l => match last_of t l with Some x => Some x | None => if String.eqb (XrayImport.Tag i) t then Some i else None end
  end.

Definition hosts_under (t : string) (s : St) (P : Z -> Host -> Prop) : Prop :=
  forall id h, hs_InboundTag h = t -> hosts s !! id = Some h <-> P id h.

Definition given (i : XrayImport.Inbound) (s : St) : Prop :=
  host_fits (host_for i 0 0) = true /\ is_Some (inbounds s !! XrayImport.Tag i).

Lemma imported_hosts_ok now l : forall next s s', imported_hosts now next l s = (s', Ok tt) -> HostsProps.Replace.fresh s ->
  inbounds s' = inbounds s /\ Forall (fun i => given i s) l /\
  forall t, match last_of t l with
            | None => hosts_under t s' (fun id h => hosts s !! id = Some h)
            | Some i => exists id0 p, hosts_under t s' (fun id h => id = id0 /\ h = host_for i p id0)
            end.
Proof.
  induction l as [|i l IH]; intros next s s'; cbn [imported_hosts].
  { intros [= <-] _. split_and!; [done|constructor|]. by intros t id h _. }
  rewrite eff_bind_ok. intros (s1 & [] & Hd & Hr) Hfresh. apply DeleteHosts_ok in Hd as (Hi1 & Hn1 & Hh1).
  rewrite eff_bind_ok in Hr. destruct Hr as (s2 & h0 & Hc & Hr). fold (host_for i next) in Hc. apply CreateHost_ok in Hc as (-> & Hi2 & Hn2 & Hh2 & Hf & Ht).
  assert (forall id h, hosts s2 !! id = Some h <-> id = next_host s /\ h = host_for i next id \/ hosts s !! id = Some h /\ hs_InboundTag h <> XrayImport.Tag i) as Hs2.
  { intros id h. rewrite Hh2, Hn1, lookup_insert_Some, Hh1, map_lookup_filter_Some. cbn. split.
    - intros [[<- <-]|[_ ?]]; [by left|by right].
    - intros [[-> ->]|[Hh ?]]; [by left|right]. split; [|done]. apply Hfresh in Hh. lia. }
  destruct (IH _ _ _ Hr) as (Hi' & Hall & Hrest).
  { intros id h [[-> _]|[Hh _]]%Hs2; rewrite Hn2, Hn1; [lia|]. apply Hfresh in Hh. lia. }
  rewrite Hi', Hi2, Hi1. split; [done|]. split.
  - constructor; [split; [exact Hf|by rewrite <- Hi1]|]. eapply Forall_impl; [exact Hall|]. intros j [Hj1 Hj2]. split; [done|]. by rewrite <- Hi1, <- Hi2.
  - intros t. specialize (Hrest t). cbn [last_of]. destruct (last_of t l); [done|]. destruct (String.eqb_spec (XrayImport.Tag i) t) as [<-|Hne].
    + exists (next_host s), next. intros id h Hth. rewrite (Hrest id h Hth), Hs2. naive_solver.
    + intros id h Hth. rewrite (Hrest id h Hth), Hs2. split; [|naive_solver]. intros [[_ ->]|[? _]]; done.
Qed.

Lemma imported_goes now l : forall next s, calm s -> Forall (fun i => given i s) l -> goes (imported_hosts now next l) s.
Proof.
  induction l as [|i l IH]; intros next s Hc Hall; cbn [imported_hosts]; [by eexists _, _|]. apply Forall_cons in Hall as [[Hf Ht] Hall].
  apply goes_bind; [by eapply goes_call|]. intros s1 [] (Hi1 & _)%DeleteHosts_ok Hc1. apply goes_bind.
  { apply goes_create; [done|exact Hf|]. by rewrite Hi1. }
  intros s2 h (_ & Hi2 & _)%CreateHost_ok Hc2. apply IH; [done|]. eapply Forall_impl; [exact Hall|]. intros j [Hj1 Hj2]. split; [done|]. by rewrite Hi2, Hi1.
Qed.

(** *** Saving the core configuration *)

#[local] Existing Instance NodeAdmin.by_id_dec.

(** What a configuration is checked for; the time it was saved does not matter. *)
Definition acceptable (q : NodeAdmin.St) (dto : coreConfigDTO) : Prop :=
  validateCoreConfig dto = Ok tt /\ (NodeAdmin.needs_tags dto = true -> NodeAdmin.check_inbounds (NodeAdmin.inbound_tags q) dto = Ok tt) /\
  each (NodeAdmin.node_conflict dto) (merge_sort NodeAdmin.by_id (map snd (map_to_list (NodeAdmin.nodes q)))) = Ok tt /\
  str_mem (Rules.LogLevel dto) validLogLevels = true.

Definition saved_at (now : Z) (dto : coreConfigDTO) : coreConfigDTO :=
  mkCore (Rules.LogLevel dto) (SniffEnabled dto) (Rules.Outbounds dto) (RoutingRules dto) (DNSServers dto) (Some now).

Lemma acceptable_saved now q dto : acceptable q (saved_at now dto) <-> acceptable q dto.
Proof.
  assert (validateCoreConfig (saved_at now dto) = validateCoreConfig dto) as Hv by (destruct dto; reflexivity).
  assert (forall n, NodeAdmin.node_conflict (saved_at now dto) n = NodeAdmin.node_conflict dto n) as Hn.
  { intros n. unfold NodeAdmin.node_conflict. destruct (parseCoreOverrides _) as [o|]; [|done]. destruct (isZero o); [done|]. f_equal.
    unfold validateCoreOverrides. assert (validateCoreConfig (apply o (saved_at now dto)) = validateCoreConfig (apply o dto)) as ->; [|done].
    unfold apply. destruct (isZero o); [exact Hv|]. destruct dto. reflexivity. }
  assert (forall l, each (NodeAdmin.node_conflict (saved_at now dto)) l = each (NodeAdmin.node_conflict dto) l) as He.
  { induction l as [|n l IH]; [done|]. cbn [each]. by rewrite Hn, IH. }
  unfold acceptable. rewrite Hv, He. by destruct dto.
Qed.

Lemma na_call_ok {A} (f : NodeAdmin.St -> result callerr (NodeAdmin.St * A)) q q' a :
  NodeAdmin.call f q = (q', Ok a) -> exists fs, f (NodeAdmin.set_faults fs q) = Ok (q', a).
Proof.
  unfold NodeAdmin.call. destruct (NodeAdmin.faults q) as [|[] fs]; [|done|];
    (destruct (f _) as [[q2 a2]|] eqn:E; [|done]); intros [= -> ->]; eauto.
Qed.

Lemma na_query_ok {A} (f : NodeAdmin.St -> result callerr A) q q' a :
  NodeAdmin.query f q = (q', Ok a) -> exists fs, q' = NodeAdmin.set_faults fs q /\ f q' = Ok a.
Proof. intros [fs Hf]%na_call_ok. exists fs. destruct (f _) eqn:E; [|done]. injection Hf as <- <-. by rewrite E. Qed.

Lemma na_call_calm {A} (f : NodeAdmin.St -> result callerr (NodeAdmin.St * A)) q :
  NodeAdmin.faults q = [] -> NodeAdmin.call f q = match f q with Ok (s, a) => (s, Ok a) | Err e => (q, Err e) end.
Proof. intros Hc. unfold NodeAdmin.call. rewrite Hc. cbn [tail]. by assert (NodeAdmin.set_faults [] q = q) as -> by (destruct q; cbn in *; by subst). Qed.

Lemma normal_level dto : Rules.LogLevel dto <> "" ->
  mkCore (if blank (Rules.LogLevel dto) then "warn" else Rules.LogLevel dto) (SniffEnabled dto) (Rules.Outbounds dto) (RoutingRules dto) (DNSServers dto)
    (UpdatedAt dto) = dto.
Proof. intros Hl. unfold blank. rewrite (proj2 (String.eqb_neq _ _) Hl). by destruct dto. Qed.

Lemma as_message_ok r : NodeAdmin.as_message r = Ok tt -> r = Ok tt.
Proof. destruct r as [[]|]; done. Qed.

Lemma apply_ok now dto q q' saved : Rules.LogLevel dto <> "" -> NodeAdmin.applyCoreConfig now dto q = (q', Ok saved) ->
  acceptable q dto /\ NodeAdmin.core_config q' = saved_at now dto /\ NodeAdmin.nodes q' = NodeAdmin.nodes q.
Proof.
  intros Hl. unfold NodeAdmin.applyCoreConfig. rewrite (normal_level dto Hl). rewrite eff_bind_ok. intros (q1 & [] & [= <- Hv%as_message_ok] & Hr).
  rewrite eff_bind_ok in Hr. destruct Hr as (q2 & [] & Htags & Hr).
  assert ((exists fs, q2 = NodeAdmin.set_faults fs q) /\ (NodeAdmin.needs_tags dto = true -> NodeAdmin.check_inbounds (NodeAdmin.inbound_tags q) dto = Ok tt)) as [[fs ->] Hk].
  { destruct (NodeAdmin.needs_tags dto); [|injection Htags as <-; split; [exists (NodeAdmin.faults q); by destruct q|done]].
    apply eff_bind_ok in Htags as (q3 & known & Hl3 & [= <- Hc%as_message_ok]). apply catch_ok, na_query_ok in Hl3 as (fs & -> & [= <-]). split; [by eexists|done]. }
  rewrite eff_bind_ok in Hr. destruct Hr as (q3 & [] & Hn & Hu). unfold NodeAdmin.validateNodeOverridesAgainstFleet in Hn.
  apply eff_bind_ok in Hn as (q4 & ns & Hns & [= <- Hn]). apply catch_ok, na_query_ok in Hns as (fs' & -> & [= <-]).
  destruct (each _ _) as [[]|] eqn:En in Hn; [|done]. apply catch_ok, na_call_ok in Hu as [fs2 Hu].
  destruct (str_mem (Rules.LogLevel dto) validLogLevels) eqn:El; [|done]. injection Hu as <- _. by split.
Qed.

Lemma apply_goes now dto q : Rules.LogLevel dto <> "" -> NodeAdmin.faults q = [] -> acceptable q dto ->
  exists q' saved, NodeAdmin.applyCoreConfig now dto q = (q', Ok saved) /\ NodeAdmin.faults q' = [].
Proof.
  intros Hl Hc (Hv & Hk & Hn & Hlv).
  assert ((if NodeAdmin.needs_tags dto then known ← catch NodeAdmin.ListInboundTags (fun _ => NodeAdmin.Internal); lift (NodeAdmin.as_message (NodeAdmin.check_inbounds known dto))
           else mret tt) q = (q, Ok tt)) as Ht.
  { destruct (NodeAdmin.needs_tags dto); [|done]. unfold mbind, eff_bind, catch, NodeAdmin.ListInboundTags, NodeAdmin.query. rewrite na_call_calm by done. unfold lift. by rewrite Hk. }
  unfold NodeAdmin.applyCoreConfig. rewrite (normal_level dto Hl). unfold mbind at 1, eff_bind at 1, lift at 1. rewrite Hv. cbn [NodeAdmin.as_message].
  unfold mbind at 1, eff_bind at 1. rewrite Ht. unfold NodeAdmin.validateNodeOverridesAgainstFleet, NodeAdmin.ListNodes, NodeAdmin.UpdateCoreConfig, catch, mbind, eff_bind, NodeAdmin.query, lift.
  rewrite !na_call_calm by done. rewrite Hn, Hlv. by eexists _, _.
Qed.

(** *** The import *)

Lemma ensured_level text p : XrayImport.ParseXrayConfig text = Ok p -> XrayImport.res_LogLevel p <> "".
Proof.
  assert (forall c, XrayImport.res_LogLevel (XrayImport.translate c) <> "") as Ht.
  { intros c. unfold XrayImport.translate. destruct (XrayImport.parse_outbounds _), (XrayImport.parse_rules _ _ _), (XrayImport.parseDNSServers _ _). cbn.
    unfold XrayImport.mapLogLevel. destruct (str_mem _ _) eqn:E; [|done]. apply str_mem_spec in E as [<-|[<-|[<-|[]]]]; done. }
  unfold XrayImport.ParseXrayConfig. destruct (_ ≫= _) as [c|]; [|done].
  destruct (XrayImport.Inbounds c); [destruct (XrayImport.Outbounds c); [done|]|]; intros [= <-]; apply Ht.
Qed.

Lemma in_panel_ok {E A} (m : eff NodeAdmin.St E A) s s' a : in_panel m s = (s', Ok a) -> exists q, m (seen_by s) = (q, Ok a) /\ s' = set_panel q s.
Proof. unfold in_panel. destruct (m (seen_by s)) as [q [b|]]; [|done]. intros [= <- <-]. eauto. Qed.

Lemma sync_all_present now es : forall c s s' c', sync_all now c es s = (s', Ok c') -> (forall e, In e es -> is_Some (inbounds s !! d_Tag e)) ->
  hosts s' = hosts s.
Proof.
  induction es as [|e es IH]; intros c s s' c'; cbn [sync_all]; [by intros [= <- _]|].
  rewrite eff_bind_ok. intros (s1 & new & (_ & Hi & Hcase)%sync_entry_ok & Hr) Hall. destruct (Hall e ltac:(by left)) as [i Hi0]. rewrite Hi0 in Hcase.
  destruct Hcase as (_ & <- & _). apply (IH _ _ _ _ Hr). intros e' He'. rewrite Hi. destruct (decide (d_Tag e' = d_Tag e)) as [->|Hne].
  - rewrite lookup_insert_eq. by eexists.
  - rewrite lookup_insert_ne by done. apply Hall. by right.
Qed.

Section import.
Context (p : XrayImport.Result) (Hl : XrayImport.res_LogLevel p <> "").
Let es := map entry_of (XrayImport.res_Inbounds p).
Let config (s : St) := NodeAdmin.core_config (panel s).

Lemma merged_level c : Rules.LogLevel (merge c p) <> "".
Proof using Hl. unfold merge. cbn. unfold blank. by rewrite (proj2 (String.eqb_neq _ _) Hl). Qed.

(** One host for each tag of the document, and the hosts of [s0] for the others. *)
Definition hosts_from (s0 s1 : St) : Prop := forall t,
  match last_of t (XrayImport.res_Inbounds p) with
  | None => hosts_under t s1 (fun id h => hosts s0 !! id = Some h)
  | Some i => exists id0 pr, hosts_under t s1 (fun id h => id = id0 /\ h = host_for i pr id0)
  end.

(** What an import that went through found and did; [sa] is the state after the sync. *)
Lemma import_ok now s s1 : wf s -> applyParsedXrayConfig now p s = (s1, Ok tt) ->
  exists sa c, syncInboundEntries now es s = (sa, Ok c) /\ inbounds s1 = inbounds sa /\ Forall (fun i => given i s1) (XrayImport.res_Inbounds p) /\
  hosts_from sa s1 /\ config s1 = saved_at now (merge (config s) p) /\ NodeAdmin.nodes (panel s1) = NodeAdmin.nodes (panel s) /\
  acceptable (seen_by s1) (merge (config s) p).
Proof using Hl.
  intros Hw. unfold applyParsedXrayConfig. rewrite eff_bind_ok. intros (sa & c & Hs & Hr). apply catch_ok in Hs. fold es in Hs.
  pose proof (InventoryProps.Steps.keeps_sync (R := InventoryProps.Consistency.stays) now es s) as Hwa.
  pose proof (InventoryProps.Steps.keeps_sync (R := same_config) now es s) as Hca. rewrite Hs in Hwa, Hca. cbn in Hwa, Hca. specialize (Hwa Hw).
  rewrite eff_bind_ok in Hr. destruct Hr as (sb & max & Hm & Hr). apply catch_ok in Hm.
  pose proof (InventoryProps.Steps.r_query (R := same_config) (fun s => Ok match map hs_Priority (map snd (map_to_list (hosts s))) with [] => -1 | p :: ps => foldr Z.max p ps end) sa) as Hcb.
  change (query _) with GetMaxHostPriority in Hcb. rewrite Hm in Hcb. cbn in Hcb. apply tables_query_ok in Hm as [(Hib & Hhb & Hnb) _].
  rewrite eff_bind_ok in Hr. destruct Hr as (sc & [] & Hh & Hr). apply catch_ok in Hh.
  pose proof (InventoryProps.Steps.keeps_imported (R := same_config) now (XrayImport.res_Inbounds p) (int32 (max + 1)) sb) as Hcc. rewrite Hh in Hcc. cbn in Hcc.
  apply imported_hosts_ok in Hh as (Hic & Hgiven & Hhosts); [|intros id h; rewrite Hhb, Hnb; by intros (_ & ? & _)%(InventoryProps.Consistency.wf_host sa Hwa)].
  rewrite eff_bind_ok in Hr. destruct Hr as (sd & m & Hg & Hr). apply catch_ok in Hg. unfold mergeCoreConfigForImport in Hg.
  apply eff_bind_ok in Hg as (se & c0 & Hg & [= -> <-]). apply in_panel_ok in Hg as (q & Hg & ->). apply na_query_ok in Hg as (fs & -> & [= <-]).
  rewrite eff_bind_ok in Hr. destruct Hr as (sf & saved & Ha & [= ->]). apply catch_ok in Ha. apply in_panel_ok in Ha as (q & Ha & ->).
  apply apply_ok in Ha as (Hacc & Hcq & Hnq); [|apply merged_level].
  assert (config sc = config s /\ NodeAdmin.nodes (panel sc) = NodeAdmin.nodes (panel s)) as [Hc0 Hn0].
  { assert (same_config s sc) as [? ?] by (etrans; [exact Hca|]; etrans; [exact Hcb|exact Hcc]). done. }
  exists sa, c. unfold config in *. cbn in Hcq, Hnq, Hacc |- *. rewrite Hc0 in *. split_and!; [done|congruence| | |done|congruence|].
  - eapply Forall_impl; [exact Hgiven|]. intros i [Hi1 Hi2]. split; [done|]. cbn. by rewrite Hic.
  - intros t. specialize (Hhosts t). destruct (last_of t _); [exact Hhosts|]. intros id h Ht. cbn. by rewrite (Hhosts id h Ht), Hhb.
  - destruct Hacc as (? & ? & Hnodes & ?). cbn in Hnodes. split_and!; [done|done| |done]. cbn. by rewrite Hnq.
Qed.

(** What a sync that went through found. *)
Lemma sync_found now s sa c : syncInboundEntries now es s = (sa, Ok c) ->
  validate_all es = Ok tt /\ Forall (fun e => inbound_fits (row_of e) = true) es /\ inbounds sa = stored (inbounds s) es /\
  exists s2, sync_all now 0 es s = (s2, Ok c) /\ hosts sa = hosts s2.
Proof.
  unfold syncInboundEntries. rewrite eff_bind_ok. intros (s0 & [] & [= <- Hv] & Hr). rewrite eff_bind_ok in Hr. destruct Hr as (s2 & c2 & Hs & Hr).
  rewrite eff_bind_ok in Hr. destruct Hr as (s3 & [] & (Hi & Hh & _)%invalidate_ok & [= <- <-]). pose proof (sync_all_stored _ _ _ _ _ _ Hs) as [Hall Hi2].
  split_and!; [done|done|congruence|eauto].
Qed.

(** It goes through where every row is there already and nothing fails. *)
Lemma import_goes now s : calm s -> validate_all es = Ok tt -> Forall (fun e => inbound_fits (row_of e) = true) es -> stored (inbounds s) es = inbounds s ->
  Forall (fun i => given i s) (XrayImport.res_Inbounds p) -> acceptable (seen_by s) (merge (config s) p) -> goes (applyParsedXrayConfig now p) s.
Proof using Hl.
  intros Hc Hv Hall Hst Hgiven Hacc. unfold applyParsedXrayConfig. apply goes_bind; [by apply goes_catch, sync_goes|].
  intros sa c Hs Hca. apply catch_ok in Hs. fold es in Hs. pose proof (InventoryProps.Steps.keeps_sync (R := same_config) now es s) as Hcfg. rewrite Hs in Hcfg.
  destruct Hcfg as [Hcfg Hnodes]. cbn in Hcfg, Hnodes. apply sync_found in Hs as (_ & _ & Hi & _). rewrite Hst in Hi.
  apply goes_bind; [by eapply goes_catch, goes_query|]. intros sb max Hm Hcb. apply catch_ok in Hm.
  pose proof (InventoryProps.Steps.r_query (R := same_config) (fun s => Ok match map hs_Priority (map snd (map_to_list (hosts s))) with [] => -1 | p :: ps => foldr Z.max p ps end) sa) as Hcfgb.
  change (query _) with GetMaxHostPriority in Hcfgb. rewrite Hm in Hcfgb. destruct Hcfgb as [Hcfgb Hnb]. cbn in Hcfgb, Hnb. apply tables_query_ok in Hm as [(Hib & _) _].
  apply goes_bind.
  { apply goes_catch, imported_goes; [done|]. eapply Forall_impl; [exact Hgiven|]. intros i [Hi1 Hi2]. split; [done|]. by rewrite Hib, Hi. }
  intros sc [] Hh Hcc. apply catch_ok in Hh. pose proof (InventoryProps.Steps.keeps_imported (R := same_config) now (XrayImport.res_Inbounds p) (int32 (max + 1)) sb) as Hcfgc.
  rewrite Hh in Hcfgc. destruct Hcfgc as [Hcfgc Hnc]. cbn in Hcfgc, Hnc.
  assert (inbounds sc = inbounds s) as Hic.
  { clear -Hh Hib Hi. revert Hh. generalize (int32 (max + 1)). rewrite <- Hi, <- Hib. clear Hi Hib. revert sb. induction (XrayImport.res_Inbounds p) as [|i l IH]; intros sb z; cbn [imported_hosts]; [by intros [= <-]|].
    rewrite eff_bind_ok. intros (s1 & [] & (Hi1 & _)%DeleteHosts_ok & Hr). rewrite eff_bind_ok in Hr. destruct Hr as (s2 & h & (_ & Hi2 & _)%CreateHost_ok & Hr).
    apply IH in Hr. congruence. }
  unfold config in Hacc. rewrite <- Hcfg, <- Hcfgb, <- Hcfgc in Hacc.
  assert (acceptable (seen_by sc) (merge (NodeAdmin.core_config (panel sc)) p)) as Hacc'.
  { destruct Hacc as (H1 & H2 & H3 & H4). split_and!; [done| | |done]; cbn in *; [by unfold all_tags in *; rewrite Hic|by rewrite Hnc, Hnb, Hnodes]. }
  apply goes_bind.
  { apply goes_catch. unfold mergeCoreConfigForImport. eexists _, _. split.
    - apply eff_bind_ok. eexists _, _. split; [|reflexivity]. unfold in_panel, NodeAdmin.GetCoreConfig, NodeAdmin.query. rewrite na_call_calm by exact Hcc. reflexivity.
    - exact Hcc. }
  intros sd m Hg Hcd. apply catch_ok, eff_bind_ok in Hg as (se & c0 & Hg & [= -> <-]). apply in_panel_ok in Hg as (q & Hg & ->).
  apply na_query_ok in Hg as (fs & -> & [= <-]). apply goes_bind; [|by intros; eexists _, _]. apply goes_catch.
  destruct (apply_goes now (merge (NodeAdmin.core_config (panel sc)) p) (seen_by (set_panel (NodeAdmin.set_faults fs (seen_by sc)) sc))) as (q & saved & Ha & Hcq); [apply merged_level|exact Hcd|exact Hacc'|].
  exists (set_panel q (set_panel (NodeAdmin.set_faults fs (seen_by sc)) sc)), saved. split; [|exact Hcq]. unfold in_panel. by rewrite Ha.
Qed.
End import.


(** *** A document imported twice *)

Import InventoryProps.Demo XrayRoundtrip.DocumentDemo.

Definition demo_text : string := XrayExport.BuildXrayJSON demo_export demo_exits demo_rules [] "info" true.
Definition imported : St * result Z string := handlePutRawXrayConfig 10 demo_text demo.

End Reimport.

(** ** The panel's own editor given back what it showed *)

Module Editor.
Import InventoryProps.Demo.

Definition snell_row : InboundRow :=
  NodeConfig.mkInbound "sn" "snell" "tcp" None "none" None None None None None None None None None None None false (Some "0123456789abcdef") None.

Definition hysteria_row : InboundRow :=
  NodeConfig.mkInbound "hy" "hysteria2" "udp" None "tls" None None None None (Some "CERT") (Some "KEY") (Some "hy.example")
    (Some "OBFS") (Some 100) (Some 200) None false None None.

Definition put_back (i : InboundRow) : St * result failure xrayConfigDTO :=
  let s := set_inbounds {[i_Tag i := i]} demo in
  match handleGetXrayConfig s with
  | (s, Ok shown) => handleUpdateXrayConfig 10 shown s
  | (s, Err e) => (s, Err e)
  end.

(** A panel with a Snell inbound cannot save anything. *)
Example snell_refused : (put_back snell_row).2 = Err (Invalid "inbound sn: snell_psk must be 12-255 bytes").
Proof. vm_compute. reflexivity. Qed.

(** The obfuscation password and the speeds of a Hysteria2 inbound are wiped. *)
Example hysteria_forgotten :
  (fun i => (i_TlsKey i, i_Hysteria2ObfsPassword i, i_UpMbps i, i_DownMbps i)) <$> inbounds (put_back hysteria_row).1 !! "hy" =
  Some (Some "KEY", None, None, None).
Proof. vm_compute. reflexivity. Qed.
End Editor.
