(* ===== verification/BotText.v ===== *)
(** * BotText: what the Telegram console says and reads

    [I18n] is the catalogue of texts in both languages ([internal/telegrambot/i18n.go]);
    [Format] the numbers it shows and reads ([format.go]): byte counts, percentages, days,
    amounts typed in any digit script, and the cuts that keep a message under Telegram's
    limits. *)

From S2P Require Import Prelude GoStrings GoFloat GoRegexp Dump MySQLDump.

#[local] Open Scope string_scope.
#[local] Open Scope Z_scope.

(** ** [fmt.Sprintf] with the verbs the console uses *)

Module Fmt.

(** An argument: its Go type and value. *)
Inductive arg := Int (z : Z) | Int64 (z : Z) | Str (s : string).

Definition type_of (a : arg) : string := match a with Int _ => "int" | Int64 _ => "int64" | Str _ => "string" end.
Definition plain (a : arg) : string := match a with Int z | Int64 z => Itoa z | Str s => s end.
Definition bad_verb (v : ascii) (a : arg) : string := "%!" ++ String v ("(" ++ type_of a ++ "=" ++ plain a ++ ")").

Definition verb (v : ascii) (a : arg) : string :=
  match a with
  | Int _ | Int64 _ => if Ascii.eqb v "d" then plain a else bad_verb v a
  | Str _ => if Ascii.eqb v "s" then plain a else bad_verb v a
  end.

Definition extra (l : list arg) : string :=
  match l with [] => "" | _ => "%!(EXTRA " ++ Join (map (fun a => type_of a ++ "=" ++ plain a) l) ", " ++ ")" end.

(** Verbs without flags, width or precision, as all verbs of the catalogue are. *)
Fixpoint Sprintf (s : string) (args : list arg) : string :=
  match s with
  | String "%" (String "%" s) => String "%" (Sprintf s args)
  | String "%" (String v s) =>
      match args with
      | a :: args => verb v a ++ Sprintf s args
      | [] => "%!" ++ String v "(MISSING)" ++ Sprintf s []
      end
  | String "%" EmptyString => "%!(NOVERB)" ++ extra args
  | String c s => String c (Sprintf s args)
  | EmptyString => extra args
  end.

(** The verbs of a format, in order. *)
Fixpoint verbs (s : string) : list ascii :=
  match s with
  | String "%" (String "%" s) => verbs s
  | String "%" (String v s) => v :: verbs s
  | String _ s => verbs s
  | EmptyString => []
  end.

Example sprintf_list : Sprintf "%d user(s) - %d%% of %s" [Int 3; Int64 40; Str "10 GB"] = "3 user(s) - 40% of 10 GB".
Proof. reflexivity. Qed.
Example sprintf_bad : Sprintf "%d and %s" [Str "x"] = "%!d(string=x) and %!s(MISSING)".
Proof. reflexivity. Qed.

(** [fmt.Sprintf("%.<p>f", x)]: the exact value of [x] rounded half to even. *)
Definition pad_zeros (p : nat) (s : string) : string :=
  Nat.iter (p - String.length s) (String "0") s.

Definition fixed (p : nat) (x : GoFloat.float64) : string :=
  let n := GoFloat.div_even (Z.abs (GoFloat.num x) * 10 ^ Z.of_nat p) (GoFloat.den x) in
  (if GoFloat.num x <? 0 then "-" else "") ++ Itoa (n / 10 ^ Z.of_nat p) ++
  (match p with O => "" | _ => "." ++ pad_zeros p (Itoa (n mod 10 ^ Z.of_nat p)) end).

End Fmt.

(** ** The catalogue *)

Module I18n.
Import Fmt.

Inductive lang := langFA | langEN.

#[export] Instance lang_eq_dec : EqDecision lang.
Proof. solve_decision. Defined.

Definition nl : string := String "010" EmptyString.

Definition catalog_fa : list (string * string) := [
  ("btn.home", "🏠 خانه");
  ("btn.back", "🔙 بازگشت");
  ("btn.cancel", "✖️ انصراف");
  ("btn.yes", "✅ بله");
  ("btn.refresh", "🔄 بروزرسانی");
  ("btn.custom", "✏️ دلخواه");
  ("btn.system", "📊 سیستم");
  ("btn.users", "👥 کاربران");
  ("btn.newuser", "➕ کاربر جدید");
  ("btn.nodes", "🖥 نودها");
  ("btn.backup", "💾 پشتیبان‌گیری");
  ("btn.help", "❓ راهنما");
  ("btn.lang", "🌐 English");
  ("role.sudo", "مدیر ارشد");
  ("role.admin", "ادمین");
  ("refuse", "⛔ شما اجازهٔ استفاده از این ربات را ندارید.");
  ("home.title", "🏠 <b>کنسول مدیریت Rapido</b>" ++ nl ++ "وارد شده‌اید با <code>%s</code> · %s" ++ nl ++ nl ++ "یک گزینه را انتخاب کنید یا نام کاربری را برای جستجو بفرستید.");
  ("help.body", "❓ <b>راهنما</b>" ++ nl ++ nl ++ "• نام کاربری (یا بخشی از آن) را بفرستید تا جستجو شود." ++ nl ++ "• «کاربران» فهرست کاربران را با فیلتر وضعیت نشان می‌دهد." ++ nl ++ "• «کاربر جدید» با چند قدم کاربر می‌سازد." ++ nl ++ "• روی کارت هر کاربر: فعال/غیرفعال، ریست مصرف، تمدید، افزایش حجم، QR، یادداشت، لغو لینک و حذف." ++ nl ++ "• /start منوی اصلی را باز می‌کند و /cancel کار نیمه‌کاره را لغو می‌کند.");
  ("help.sudo", "• «نودها» وضعیت سرورها و تونل‌های WireGuard را نشان می‌دهد." ++ nl ++ "• «پشتیبان‌گیری» از پایگاه‌داده نسخهٔ پشتیبان می‌سازد و همین‌جا می‌فرستد.");
  ("st.active", "فعال");
  ("st.disabled", "غیرفعال");
  ("st.limited", "حجم تمام‌شده");
  ("st.expired", "منقضی");
  ("st.on_hold", "در انتظار");
  ("ns.connected", "متصل");
  ("ns.connecting", "در حال اتصال");
  ("ns.error", "خطا");
  ("ns.disabled", "غیرفعال");
  ("err.generic", "خطایی رخ داد. دوباره تلاش کنید.");
  ("err.auth", "حساب ادمین شما دیگر معتبر نیست.");
  ("err.forbidden", "دسترسی لازم را ندارید.");
  ("err.usernotfound", "کاربر پیدا نشد.");
  ("in.num_invalid", "عدد معتبر نیست. دوباره بفرستید.");
  ("in.toolong", "پیام خیلی طولانی است.");
  ("sys.title", "📊 <b>وضعیت سیستم</b>");
  ("sys.own_only", "(فقط کاربران شما)");
  ("sys.users", "👥 کاربران: <b>%d</b>");
  ("sys.by_status", "🟢 فعال %d · 🔴 غیرفعال %d · 🟠 حجم‌تمام %d · ⌛ منقضی %d · ⏸ در انتظار %d");
  ("sys.online", "🟢 آنلاین: <b>%d</b>");
  ("sys.traffic", "📈 ترافیک کل: ↑ %s · ↓ %s");
  ("sys.speed", "⚡ سرعت: ↑ %s/s · ↓ %s/s");
  ("sys.panel", "🖥 پنل: CPU %s · RAM %s از %s");
  ("sys.nodes", "🌐 نودها: <b>%d</b> از %d متصل");
  ("sys.tunnels_ok", "🔐 WireGuard: همهٔ تونل‌ها سالم‌اند");
  ("sys.tunnels_bad", "⚠️ WireGuard: %d تونل مشکل دارد");
  ("nodes.title", "🖥 <b>نودها</b>");
  ("nodes.panel_line", "🖥 <b>پنل</b>");
  ("nodes.none", "هیچ نودی ثبت نشده است.");
  ("nodes.status", "وضعیت: %s");
  ("nodes.stale", "⚠️ گزارش قدیمی است");
  ("nodes.nometrics", "هنوز گزارشی نرسیده است");
  ("nodes.more", "… و %d نود دیگر");
  ("wg.down", "قطع");
  ("wg.missing", "وجود ندارد");
  ("users.menu", "👥 <b>کاربران</b>" ++ nl ++ "یک فیلتر انتخاب کنید، یا بخشی از نام کاربری را بفرستید تا جستجو شود.");
  ("flt.all", "همه");
  ("list.title", "👥 <b>کاربران</b> · %s");
  ("list.search_title", "🔎 <b>نتایج جستجو</b> «%s»");
  ("list.count", "%d کاربر · صفحهٔ %d از %d");
  ("list.empty", "کاربری پیدا نشد.");
  ("card.usage", "📦 مصرف: %s / %s");
  ("card.unlimited", "نامحدود");
  ("card.expire", "📅 انقضا: %s (%s)");
  ("card.expire_never", "📅 انقضا: نامحدود");
  ("card.days_left", "%d روز مانده");
  ("card.expired_ago", "%d روز پیش منقضی شد");
  ("card.onhold", "⏸ در انتظار اولین اتصال (%d روز پس از اتصال)");
  ("card.online", "🕐 آخرین اتصال: %s");
  ("card.online_never", "🕐 آخرین اتصال: هرگز");
  ("card.owner", "🧑‍💼 مالک: %s");
  ("card.owner_none", "پنل (بدون ادمین)");
  ("card.note", "📝 یادداشت: %s");
  ("card.synced", "🔁 این کاربر توسط پنل «%s» مدیریت می‌شود");
  ("card.links", "🔗 لینک اشتراک:");
  ("card.nolinks", "🔗 لینک اشتراک در دسترس نیست.");
  ("card.nolinks_short", "لینکی در دسترس نیست");
  ("ago.now", "همین حالا");
  ("ago.min", "%d دقیقه پیش");
  ("ago.hour", "%d ساعت پیش");
  ("ago.day", "%d روز پیش");
  ("act.disable", "🔴 غیرفعال‌سازی");
  ("act.enable", "🟢 فعال‌سازی");
  ("act.reset", "♻️ ریست مصرف");
  ("act.extend", "📅 تمدید");
  ("act.data", "📦 افزایش حجم");
  ("act.qr", "📷 QR");
  ("act.note", "📝 یادداشت");
  ("act.revoke", "🔗 لغو لینک");
  ("act.delete", "🗑 حذف");
  ("confirm.reset", "♻️ مصرف %s صفر شود؟");
  ("confirm.revoke", "🔗 لینک اشتراک %s لغو و لینک تازه ساخته شود؟ لینک و کانفیگ‌های فعلی از کار می‌افتند.");
  ("confirm.delete", "🗑 کاربر %s برای همیشه حذف شود؟");
  ("done.disabled", "کاربر غیرفعال شد.");
  ("done.enabled", "کاربر فعال شد.");
  ("done.reset", "مصرف صفر شد.");
  ("done.revoked", "لینک اشتراک لغو و لینک تازه ساخته شد.");
  ("done.deleted", "حذف شد.");
  ("done.deleted_user", "🗑 کاربر %s حذف شد.");
  ("done.extended", "%d روز به انقضا اضافه شد.");
  ("done.data", "%s به حجم اضافه شد.");
  ("done.note", "یادداشت ذخیره شد.");
  ("done.qr", "کد QR ارسال شد.");
  ("ext.title", "📅 <b>تمدید %s</b>" ++ nl ++ "چند روز اضافه شود؟");
  ("ext.prompt", "تعداد روزی که باید اضافه شود را بفرستید (۱ تا ۳۶۵۰).");
  ("ext.unlimited", "این کاربر تاریخ انقضا ندارد؛ چیزی برای تمدید نیست.");
  ("dat.title", "📦 <b>افزایش حجم %s</b>" ++ nl ++ "چقدر اضافه شود؟");
  ("dat.prompt", "مقدار حجم را به گیگابایت بفرستید، مثلاً 5 یا 2.5.");
  ("dat.unlimited", "این کاربر حجم نامحدود دارد؛ چیزی برای افزودن نیست.");
  ("note.prompt", "یادداشت جدید را بفرستید (حداکثر ۵۰۰ بایت). برای پاک کردن یادداشت، «-» بفرستید.");
  ("note.toolong", "یادداشت بیش از ۵۰۰ بایت است.");
  ("nu.name", "➕ <b>کاربر جدید</b>" ++ nl ++ "نام کاربری را بفرستید (۳ تا ۳۲ کاراکتر: حروف انگلیسی، عدد و _ ).");
  ("nu.name_invalid", "نام کاربری معتبر نیست: ۳ تا ۳۲ کاراکتر از حروف انگلیسی، عدد و _ .");
  ("nu.tmpl", "➕ %s" ++ nl ++ "یک قالب انتخاب کنید یا بدون قالب ادامه دهید.");
  ("nu.no_tmpl", "بدون قالب (تنظیم دستی)");
  ("nu.limit", "➕ %s" ++ nl ++ "📦 حجم را به گیگابایت انتخاب کنید یا عدد را بفرستید (∞ = نامحدود).");
  ("nu.days", "➕ %s" ++ nl ++ "📅 مدت اشتراک را به روز انتخاب کنید یا عدد را بفرستید (∞ = نامحدود).");
  ("nu.days_short", "%d روز");
  ("nu.confirm", "✅ <b>تأیید ساخت کاربر</b>");
  ("nu.summary_tmpl", "🧩 قالب: %s");
  ("nu.summary_limit", "📦 حجم: %s");
  ("nu.summary_life", "📅 مدت: %s");
  ("nu.summary_protocols", "🔌 پروتکل‌ها: %s");
  ("nu.create", "✅ ساخت کاربر");
  ("nu.created", "کاربر ساخته شد.");
  ("nu.expired", "این مرحله منقضی شد. دوباره از «کاربر جدید» شروع کنید.");
  ("nu.no_inbounds", "هنوز هیچ اینباندی روی پنل تعریف نشده است.");
  ("nu.change_name", "✏️ تغییر نام کاربری");
  ("nu.usebuttons", "برای این مرحله از دکمه‌ها استفاده کنید.");
  ("bk.confirm", "💾 از پایگاه‌داده نسخهٔ پشتیبان ساخته و برای شما ارسال شود؟");
  ("bk.create", "💾 ساخت و ارسال");
  ("bk.working", "⏳ در حال ساخت نسخهٔ پشتیبان…");
  ("bk.working_short", "در حال ساخت…");
  ("bk.done", "نسخهٔ پشتیبان ارسال شد.");
  ("bk.toolarge", "فایل پشتیبان (%s) برای ارسال از تلگرام بزرگ است؛ آن را از داشبورد دانلود کنید.");
  ("bk.fail", "ساخت نسخهٔ پشتیبان ناموفق بود: %s");
  ("bk.sendfail", "نسخهٔ پشتیبان ساخته شد ولی ارسال آن به تلگرام ناموفق بود.")
].

Definition catalog_en : list (string * string) := [
  ("btn.home", "🏠 Home");
  ("btn.back", "🔙 Back");
  ("btn.cancel", "✖️ Cancel");
  ("btn.yes", "✅ Yes");
  ("btn.refresh", "🔄 Refresh");
  ("btn.custom", "✏️ Custom");
  ("btn.system", "📊 System");
  ("btn.users", "👥 Users");
  ("btn.newuser", "➕ New user");
  ("btn.nodes", "🖥 Nodes");
  ("btn.backup", "💾 Backup");
  ("btn.help", "❓ Help");
  ("btn.lang", "🌐 فارسی");
  ("role.sudo", "sudo");
  ("role.admin", "admin");
  ("refuse", "⛔ You are not allowed to use this bot.");
  ("home.title", "🏠 <b>Rapido admin console</b>" ++ nl ++ "Signed in as <code>%s</code> · %s" ++ nl ++ nl ++ "Pick an option, or send a username to search.");
  ("help.body", "❓ <b>Help</b>" ++ nl ++ nl ++ "• Send a username (or part of one) to search." ++ nl ++ "• Users lists everyone, filtered by status." ++ nl ++ "• New user walks you through creating one." ++ nl ++ "• On a user card: enable/disable, reset usage, extend, add data, QR, note, revoke link and delete." ++ nl ++ "• /start opens the main menu and /cancel abandons whatever you were doing.");
  ("help.sudo", "• Nodes shows server status and WireGuard tunnel health." ++ nl ++ "• Backup creates a database backup and sends it here.");
  ("st.active", "Active");
  ("st.disabled", "Disabled");
  ("st.limited", "Data used up");
  ("st.expired", "Expired");
  ("st.on_hold", "On hold");
  ("ns.connected", "connected");
  ("ns.connecting", "connecting");
  ("ns.error", "error");
  ("ns.disabled", "disabled");
  ("err.generic", "Something went wrong. Please try again.");
  ("err.auth", "Your admin account is no longer valid.");
  ("err.forbidden", "You do not have access to that.");
  ("err.usernotfound", "User not found.");
  ("in.num_invalid", "That is not a valid number. Please send it again.");
  ("in.toolong", "That message is too long.");
  ("sys.title", "📊 <b>System status</b>");
  ("sys.own_only", "(your users only)");
  ("sys.users", "👥 Users: <b>%d</b>");
  ("sys.by_status", "🟢 active %d · 🔴 disabled %d · 🟠 data used up %d · ⌛ expired %d · ⏸ on hold %d");
  ("sys.online", "🟢 Online: <b>%d</b>");
  ("sys.traffic", "📈 Total traffic: ↑ %s · ↓ %s");
  ("sys.speed", "⚡ Speed: ↑ %s/s · ↓ %s/s");
  ("sys.panel", "🖥 Panel: CPU %s · RAM %s of %s");
  ("sys.nodes", "🌐 Nodes: <b>%d</b> of %d connected");
  ("sys.tunnels_ok", "🔐 WireGuard: all tunnels healthy");
  ("sys.tunnels_bad", "⚠️ WireGuard: %d tunnel(s) with a problem");
  ("nodes.title", "🖥 <b>Nodes</b>");
  ("nodes.panel_line", "🖥 <b>Panel</b>");
  ("nodes.none", "No nodes are registered.");
  ("nodes.status", "Status: %s");
  ("nodes.stale", "⚠️ report is stale");
  ("nodes.nometrics", "no report received yet");
  ("nodes.more", "… and %d more node(s)");
  ("wg.down", "down");
  ("wg.missing", "missing");
  ("users.menu", "👥 <b>Users</b>" ++ nl ++ "Pick a filter, or send part of a username to search.");
  ("flt.all", "All");
  ("list.title", "👥 <b>Users</b> · %s");
  ("list.search_title", "🔎 <b>Search results</b> “%s”");
  ("list.count", "%d user(s) · page %d of %d");
  ("list.empty", "No users found.");
  ("card.usage", "📦 Used: %s / %s");
  ("card.unlimited", "unlimited");
  ("card.expire", "📅 Expires: %s (%s)");
  ("card.expire_never", "📅 Expires: never");
  ("card.days_left", "%d days left");
  ("card.expired_ago", "expired %d days ago");
  ("card.onhold", "⏸ Waiting for first connection (%d days once connected)");
  ("card.online", "🕐 Last seen: %s");
  ("card.online_never", "🕐 Last seen: never");
  ("card.owner", "🧑‍💼 Owner: %s");
  ("card.owner_none", "panel (no admin)");
  ("card.note", "📝 Note: %s");
  ("card.synced", "🔁 Managed by panel “%s”");
  ("card.links", "🔗 Subscription link:");
  ("card.nolinks", "🔗 No subscription link is available.");
  ("card.nolinks_short", "No link available");
  ("ago.now", "just now");
  ("ago.min", "%d min ago");
  ("ago.hour", "%d h ago");
  ("ago.day", "%d d ago");
  ("act.disable", "🔴 Disable");
  ("act.enable", "🟢 Enable");
  ("act.reset", "♻️ Reset usage");
  ("act.extend", "📅 Extend");
  ("act.data", "📦 Add data");
  ("act.qr", "📷 QR");
  ("act.note", "📝 Note");
  ("act.revoke", "🔗 Revoke link");
  ("act.delete", "🗑 Delete");
  ("confirm.reset", "♻️ Reset the data usage of %s?");
  ("confirm.revoke", "🔗 Revoke the subscription link of %s and issue a new one? The current link and configs stop working.");
  ("confirm.delete", "🗑 Permanently delete user %s?");
  ("done.disabled", "User disabled.");
  ("done.enabled", "User enabled.");
  ("done.reset", "Usage reset.");
  ("done.revoked", "Subscription link revoked; a new one was issued.");
  ("done.deleted", "Deleted.");
  ("done.deleted_user", "🗑 User %s deleted.");
  ("done.extended", "Added %d days to the expiry.");
  ("done.data", "Added %s of data.");
  ("done.note", "Note saved.");
  ("done.qr", "QR code sent.");
  ("ext.title", "📅 <b>Extend %s</b>" ++ nl ++ "How many days to add?");
  ("ext.prompt", "Send the number of days to add (1 to 3650).");
  ("ext.unlimited", "This user has no expiry date, so there is nothing to extend.");
  ("dat.title", "📦 <b>Add data to %s</b>" ++ nl ++ "How much?");
  ("dat.prompt", "Send the amount of data in GB, for example 5 or 2.5.");
  ("dat.unlimited", "This user has unlimited data, so there is nothing to add.");
  ("note.prompt", "Send the new note (500 bytes at most). Send “-” to clear it.");
  ("note.toolong", "That note is longer than 500 bytes.");
  ("nu.name", "➕ <b>New user</b>" ++ nl ++ "Send the username (3 to 32 characters: letters, digits and _ ).");
  ("nu.name_invalid", "Invalid username: 3 to 32 characters of letters, digits and _ .");
  ("nu.tmpl", "➕ %s" ++ nl ++ "Pick a template, or continue without one.");
  ("nu.no_tmpl", "No template (set manually)");
  ("nu.limit", "➕ %s" ++ nl ++ "📦 Pick the data limit in GB, or send a number (∞ = unlimited).");
  ("nu.days", "➕ %s" ++ nl ++ "📅 Pick the duration in days, or send a number (∞ = unlimited).");
  ("nu.days_short", "%d days");
  ("nu.confirm", "✅ <b>Confirm the new user</b>");
  ("nu.summary_tmpl", "🧩 Template: %s");
  ("nu.summary_limit", "📦 Data: %s");
  ("nu.summary_life", "📅 Duration: %s");
  ("nu.summary_protocols", "🔌 Protocols: %s");
  ("nu.create", "✅ Create user");
  ("nu.created", "User created.");
  ("nu.expired", "That step expired. Start again from New user.");
  ("nu.no_inbounds", "No inbounds are configured on the panel yet.");
  ("nu.change_name", "✏️ Change username");
  ("nu.usebuttons", "Use the buttons for this step.");
  ("bk.confirm", "💾 Create a database backup and send it here?");
  ("bk.create", "💾 Create and send");
  ("bk.working", "⏳ Creating the backup…");
  ("bk.working_short", "Working…");
  ("bk.done", "Backup sent.");
  ("bk.toolarge", "The backup (%s) is too large for Telegram; download it from the dashboard.");
  ("bk.fail", "Backup failed: %s");
  ("bk.sendfail", "The backup was created but could not be sent to Telegram.")
].

Definition catalogs (l : lang) : list (string * string) := match l with langFA => catalog_fa | langEN => catalog_en end.

Fixpoint lookup (key : string) (c : list (string * string)) : option string :=
  match c with
  | [] => None
  | (k, v) :: c => if String.eqb k key then Some v else lookup key c
  end.

Definition entry (l : lang) (key : string) : option string :=
  match lookup key (catalogs l) with
  | Some s => Some s
  | None => lookup key (catalogs langEN)
  end.

(** [tr(l, key, args...)] *)
Definition tr (l : lang) (key : string) (args : list arg) : string :=
  match entry l key with
  | None => key
  | Some s => match args with [] => s | _ => Sprintf s args end
  end.

Definition hasKey (key : string) : bool := match lookup key (catalogs langEN) with Some _ => true | None => false end.

(** [langFromCode] *)
Definition langFromCode (code : string) : lang :=
  let code := ToLower code in
  if String.eqb code "" || HasPrefix code "fa" then langFA else langEN.

End I18n.

(** ** Numbers: [format.go] *)

Module Format.
Import GoFloat Regexp Fmt.

Definition gib : Z := 2 ^ 30.
Definition maxMessageRunes : nat := Z.to_nat 4000.

Fixpoint scale_bytes (units : list string) (last : string) (v : float64) : float64 * string :=
  match units with
  | [] => (v, last)
  | u :: units => if flt v (of_int 1024) then (v, last) else scale_bytes units u (fdiv v (of_int 1024))
  end.

Definition formatBytes (n : Z) : string :=
  let n := Z.max n 0 in
  if n <? 1024 then Itoa n ++ " B"
  else
    let '(v, u) := scale_bytes ["KB"; "MB"; "GB"; "TB"; "PB"] "" (of_int n) in
    (if negb (flt v (of_int 100)) then fixed 0 v
     else if negb (flt v (of_int 10)) then fixed 1 v
     else fixed 2 v) ++ " " ++ u.

Definition usagePercent (used limit : Z) : Z :=
  if (limit <=? 0) || (used <=? 0) then 0
  else
    let p := Round (fmul (fdiv (of_int used) (of_int limit)) (of_int 100)) in
    if 100 <? p then 100 else if p =? 0 then 1 else p.

Fixpoint Repeat (s : string) (n : nat) : string := match n with O => "" | S n => s ++ Repeat s n end.

Definition progressBar (used limit width : Z) : string :=
  if width <=? 0 then ""
  else
    let filled := Round (fmul (fdiv (of_int (usagePercent used limit)) (of_int 100)) (of_int width)) in
    let filled := if (0 <? used) && (0 <? limit) && (filled =? 0) then 1 else filled in
    let filled := if width <? filled then width else filled in
    Repeat "█" (Z.to_nat filled) ++ Repeat "░" (Z.to_nat (width - filled)).

Definition Ceil (x : float64) : Z := - ((- num x) / den x).

(** Over [now.Unix()], the clock in seconds. *)
Definition daysLeft (expire now : Z) : Z :=
  let secs := int64 (expire - now) in
  if 0 <=? secs then Ceil (fdiv (of_int secs) (of_int 86400))
  else - Ceil (fdiv (of_int (int64 (- secs))) (of_int 86400)).

(** ** Texts *)

Fixpoint escapeHTML (s : string) : string :=
  match s with
  | EmptyString => EmptyString
  | String "&" s => "&amp;" ++ escapeHTML s
  | String "<" s => "&lt;" ++ escapeHTML s
  | String ">" s => "&gt;" ++ escapeHTML s
  | String c s => String c (escapeHTML s)
  end.

Definition RuneError : string := String "239" (String "191" (String "189" EmptyString)).

(** [[]rune(s)], each rune as the bytes that encode it; a byte that starts no valid
    encoding is U+FFFD. *)
Fixpoint runes_of (fuel : nat) (s : string) : list string :=
  match fuel, s with
  | S fuel, String _ r =>
      match utf8_width s with
      | O => RuneError :: runes_of fuel r
      | w => stake w s :: runes_of fuel (sdrop w s)
      end
  | _, _ => []
  end.

Definition runes (s : string) : list string := runes_of (String.length s) s.
Definition RuneCount (s : string) : nat := length (runes s).
Definition of_runes (l : list string) : string := String.concat "" l.

Definition truncateRunes (s : string) (n : nat) : string :=
  if (RuneCount s <=? n)%nat then s else of_runes (take n (runes s)) ++ "…".

Fixpoint back_to_start (s : string) (cut : nat) : nat :=
  match cut with
  | O => O
  | S k => match String.get cut s with
           | Some c => if RuneStart c then cut else back_to_start s k
           | None => cut
           end
  end.

Definition truncateBytes (s : string) (n : nat) : string :=
  if (String.length s <=? n)%nat then s else stake (back_to_start s n) s.

Definition capMessage (s : string) (max : nat) : string :=
  if (RuneCount s <=? max)%nat then s
  else
    let cut := of_runes (take (max - 1) (runes s)) in
    let cut := match split_last "010" cut with
               | Some (EmptyString, _) | None => cut
               | Some (before, _) => before
               end in
    cut ++ I18n.nl ++ "…".

(** ** Numbers typed *)

(** A rune of a Persian or an Arabic-Indic digit, and the Persian decimal separator. *)
Definition plain_digit (r : string) : string :=
  match r with
  | String "219" (String c EmptyString) =>
      if between 176 185 c then String (digit_ascii (byte_of c - 176)) EmptyString else r
  | String "217" (String c EmptyString) =>
      if between 160 169 c then String (digit_ascii (byte_of c - 160)) EmptyString
      else if Ascii.eqb c "171" then "." else r
  | _ => r
  end.

Definition normalizeDigits (s : string) : string := of_runes (map plain_digit (runes s)).

Definition numberInput : re :=
  seqs [plus digit; opt (Seq (chr ".") (plus digit)); Star (Class is_re_space);
        opt (alts [lit "gb"; lit "gib"; lit "g"; Seq (lit "day") (opt (lit "s")); lit "d"])].

(** The first group of a match: the digits, the point and the digits after it. *)
Definition number_part (s : string) : string := fst (span (fun c => is_digit c || Ascii.eqb c ".") s).

(** What is at most half the least [float64] is zero; above that the numbers here are
    compared and multiplied only, where the lost digits of the least ones do not show. *)
Definition underflow (v : float64) : float64 := if Z.abs (num v) * 2 ^ 1075 <=? den v then mkFloat 0 0 else v.

Definition parseNumber (s : string) : option float64 :=
  let t := ToLower (TrimSpace (normalizeDigits s)) in
  if matches numberInput t then
    match MySQLDump.ParseFloat (number_part t) with
    | Some (MySQLDump.Finite v) => Some (underflow v)
    | _ => None
    end
  else None.

Definition maxDataGB : Z := 100000.
Definition maxDays : Z := 3650.

Definition parseGB (s : string) (zeroOK : bool) : option Z :=
  match parseNumber s with
  | None => None
  | Some v =>
      if flt (of_int maxDataGB) v || (num v =? 0) && negb zeroOK then None
      else Some (Round (fmul v (of_int gib)))
  end.

Definition parseDays (s : string) (zeroOK : bool) : option Z :=
  match parseNumber s with
  | None => None
  | Some v =>
      if negb (num v mod den v =? 0) || flt (of_int maxDays) v || (num v =? 0) && negb zeroOK then None
      else Some (Trunc v)
  end.

Definition usernameChars : re := plus (Class (fun c => is_lower c || is_upper c || is_digit c || Ascii.eqb c "_" || Ascii.eqb c "@" || Ascii.eqb c "." || Ascii.eqb c "-")).

Definition word_char (c : ascii) : bool := Ascii.eqb c "_" || is_lower c || is_upper c || is_digit c.

Definition validUsername (s : string) : bool :=
  matches usernameChars s &&
  let run := String.length (fst (span word_char s)) in
  (3 <=? run)%nat && (run <=? 32)%nat && (String.length s <=? 34)%nat.

End Format.
