(* ===== verification/IntegrationSettings.v ===== *)
(** * IntegrationSettings: the settings of the integrations, stored over the environment

    [internal/integrationsettings] and [internal/httpapi/settings.go]: one row overrides,
    column by column, what the process was started with; a PUT changes the columns its body
    names. What Telegram's console reads of them is a call of its programs ([BotApi]). *)

From S2P Require Import Prelude GoStrings GoJson Effect Auth.

#[local] Open Scope string_scope.
#[local] Open Scope Z_scope.

Module Integration.

(** [Values] *)
Record Values := mkValues {
  ResellerApiSecret : string;
  ResellerApiUrl : string;
  ResellerApiLicense : string;
  TelegramAPIToken : string;
  TelegramAdminIDs : list Z;
  TelegramProxyURL : string;
  TelegramLoggerChannelID : Z;
  TelegramLoggerTopicID : Z;
  TelegramDefaultVlessFlow : string;
  WebhookAddresses : list string;
  WebhookSecret : string;
  DiscordWebhookURL : string
}.

(** The row; the two JSONB columns hold a JSON value. *)
Record IntegrationSetting := mkRow {
  db_ResellerApiSecret : option string;
  db_ResellerApiUrl : option string;
  db_ResellerApiLicense : option string;
  db_TelegramAPIToken : option string;
  db_TelegramAdminIDs : option json;
  db_TelegramProxyURL : option string;
  db_TelegramLoggerChannelID : option Z;
  db_TelegramLoggerTopicID : option Z;
  db_TelegramDefaultVlessFlow : option string;
  db_WebhookAddresses : option json;
  db_WebhookSecret : option string;
  db_DiscordWebhookURL : option string;
  UpdatedAt : option Z
}.

Definition decodeInt64s (raw : option json) : list Z := default [] (raw ≫= fun j => of_json j (@zero (list Z) _)).
Definition decodeStrings (raw : option json) : list string := default [] (raw ≫= fun j => of_json j (@zero (list string) _)).

(** A text that is set and not empty wins over the environment; so does a number that is
    not 0 and a list that has elements. *)
Definition text_or (o : option string) (env : string) : string :=
  match o with Some s => if String.eqb s "" then env else s | None => env end.
Definition int_or (o : option Z) (env : Z) : Z := match o with Some z => if z =? 0 then env else z | None => env end.
Definition list_or {A} (l env : list A) : list A := match l with [] => env | _ => l end.

Definition Resolve (row : IntegrationSetting) (env : Values) : Values := mkValues
  (text_or (db_ResellerApiSecret row) (ResellerApiSecret env))
  (text_or (db_ResellerApiUrl row) (ResellerApiUrl env))
  (text_or (db_ResellerApiLicense row) (ResellerApiLicense env))
  (text_or (db_TelegramAPIToken row) (TelegramAPIToken env))
  (list_or (decodeInt64s (db_TelegramAdminIDs row)) (TelegramAdminIDs env))
  (text_or (db_TelegramProxyURL row) (TelegramProxyURL env))
  (int_or (db_TelegramLoggerChannelID row) (TelegramLoggerChannelID env))
  (int_or (db_TelegramLoggerTopicID row) (TelegramLoggerTopicID env))
  (text_or (db_TelegramDefaultVlessFlow row) (TelegramDefaultVlessFlow env))
  (list_or (decodeStrings (db_WebhookAddresses row)) (WebhookAddresses env))
  (text_or (db_WebhookSecret row) (WebhookSecret env))
  (text_or (db_DiscordWebhookURL row) (DiscordWebhookURL env)).

Fixpoint stars (n : nat) : string := match n with O => "" | S n => String "*" (stars n) end.

Definition Mask (value : string) : string :=
  if String.eqb value "" then ""
  else
    let n := String.length value in
    if (n <=? 4)%nat then stars n else stars (n - 4) ++ sdrop (n - 4) value.

(** ** What is answered *)

Definition maskedPtr (value : string) : option string := let m := Mask value in if String.eqb m "" then None else Some m.
Definition plainPtr (value : string) : option string := if String.eqb value "" then None else Some value.
Definition int64PtrOrNil (v : Z) : option Z := if v =? 0 then None else Some v.

Record integrationSettingsDTO := mkDTO {
  d_ResellerApiEnabled : bool;
  d_ResellerApiSecret : option string;
  d_ResellerApiUrl : option string;
  d_ResellerApiLicense : option string;
  d_TelegramEnabled : bool;
  d_TelegramAPIToken : option string;
  d_TelegramAdminIDs : list Z;
  d_TelegramProxyURL : option string;
  d_TelegramLoggerChannelID : option Z;
  d_TelegramLoggerTopicID : option Z;
  d_TelegramDefaultVlessFlow : option string;
  d_WebhookAddresses : list string;
  d_WebhookSecret : option string;
  d_DiscordWebhookURL : option string;
  d_UpdatedAt : option Z
}.

Definition toIntegrationSettingsDTO (vals : Values) (row : IntegrationSetting) : integrationSettingsDTO := mkDTO
  (negb (String.eqb (ResellerApiSecret vals) ""))
  (maskedPtr (ResellerApiSecret vals))
  (plainPtr (ResellerApiUrl vals))
  (maskedPtr (ResellerApiLicense vals))
  (negb (String.eqb (TelegramAPIToken vals) ""))
  (maskedPtr (TelegramAPIToken vals))
  (TelegramAdminIDs vals)
  (maskedPtr (TelegramProxyURL vals))
  (int64PtrOrNil (TelegramLoggerChannelID vals))
  (int64PtrOrNil (TelegramLoggerTopicID vals))
  (plainPtr (TelegramDefaultVlessFlow vals))
  (WebhookAddresses vals)
  (maskedPtr (WebhookSecret vals))
  (maskedPtr (DiscordWebhookURL vals))
  (UpdatedAt row).

(** ** The row and its cached copy *)

(** The row, its copy in Redis ([None] for one that does not decode) with the time it
    expires, and the calls that will fail. *)
Record St := mkSt { row : IntegrationSetting; cached : option (option IntegrationSetting * Z); faults : list bool }.

Definition set_row r (s : St) : St := mkSt r (cached s) (faults s).
Definition set_cached c (s : St) : St := mkSt (row s) c (faults s).
Definition set_faults f (s : St) : St := mkSt (row s) (cached s) f.

(** A call to Postgres or Redis: it fails with nothing done, or answers. *)
Definition call {A} (f : St -> option (St * A)) : eff St unit A := fun s =>
  match faults s with
  | true :: fs => (set_faults fs s, Err tt)
  | fs =>
      let s := set_faults (tail fs) s in
      match f s with Some (s, a) => (s, Ok a) | None => (s, Err tt) end
  end.

Definition GetIntegrationSettings : eff St unit IntegrationSetting := call (fun s => Some (s, row s)).

(** The widths of the columns. *)
Definition fits_column (n : nat) (o : option string) : bool := match o with Some s => (char_count s <=? n)%nat | None => true end.

Definition row_fits (r : IntegrationSetting) : bool :=
  fits_column 256 (db_ResellerApiSecret r) &&
  fits_column 512 (db_ResellerApiUrl r) &&
  fits_column 256 (db_ResellerApiLicense r) &&
  fits_column 256 (db_TelegramAPIToken r) &&
  fits_column 512 (db_TelegramProxyURL r) &&
  fits_column 64 (db_TelegramDefaultVlessFlow r) &&
  fits_column 256 (db_WebhookSecret r) &&
  fits_column 1024 (db_DiscordWebhookURL r).

Definition UpdateIntegrationSettings (now : Z) (r : IntegrationSetting) : eff St unit IntegrationSetting := call (fun s =>
  let r := mkRow
    (db_ResellerApiSecret r)
    (db_ResellerApiUrl r)
    (db_ResellerApiLicense r)
    (db_TelegramAPIToken r)
    (db_TelegramAdminIDs r)
    (db_TelegramProxyURL r)
    (db_TelegramLoggerChannelID r)
    (db_TelegramLoggerTopicID r)
    (db_TelegramDefaultVlessFlow r)
    (db_WebhookAddresses r)
    (db_WebhookSecret r)
    (db_DiscordWebhookURL r) (Some now) in
  if row_fits r then Some (set_row r s, r) else None).

Definition integrationSettingsCacheTTL : Z := 3600 * 1000000000.

Definition Get (now : Z) : eff St unit (option (option IntegrationSetting)) := call (fun s =>
  Some (s, match cached s with Some (v, exp) => if now <? exp then Some v else None | None => None end)).
Definition Set_ (now : Z) (r : IntegrationSetting) : eff St unit unit := call (fun s =>
  Some (set_cached (Some (Some r, now + integrationSettingsCacheTTL)) s, tt)).
Definition InvalidateIntegrationSettings : eff St unit unit := call (fun s => Some (set_cached None s, tt)).

(** [GetOrSet]: only a hit that decodes skips the query; Redis never fails the call. *)
Definition CachedGetIntegrationSettings (now : Z) : eff St unit IntegrationSetting := fun s =>
  match Get now s with
  | (s, Ok (Some (Some r))) => (s, Ok r)
  | (s, _) =>
      match GetIntegrationSettings s with
      | (s, Ok r) => ((Set_ now r s).1, Ok r)
      | (s, Err e) => (s, Err e)
      end
  end.

(** ** The routes *)

Definition httperr : Type := Z * string.
Definition M := eff St httperr.

Definition could_not (what : string) : unit -> httperr := fun _ => (500, "Could not " ++ what).

Definition handleGetIntegrationSettings (now : Z) (env : Values) : M integrationSettingsDTO :=
  r ← catch (CachedGetIntegrationSettings now) (could_not "read integration settings");
  mret (toIntegrationSettingsDTO (Resolve r env) r).

Definition set_ResellerApiSecret (v : option string) (r : IntegrationSetting) : IntegrationSetting := mkRow
  v (db_ResellerApiUrl r) (db_ResellerApiLicense r) (db_TelegramAPIToken r)
  (db_TelegramAdminIDs r) (db_TelegramProxyURL r) (db_TelegramLoggerChannelID r) (db_TelegramLoggerTopicID r)
  (db_TelegramDefaultVlessFlow r) (db_WebhookAddresses r) (db_WebhookSecret r) (db_DiscordWebhookURL r)
  (UpdatedAt r).
Definition set_ResellerApiUrl (v : option string) (r : IntegrationSetting) : IntegrationSetting := mkRow
  (db_ResellerApiSecret r) v (db_ResellerApiLicense r) (db_TelegramAPIToken r)
  (db_TelegramAdminIDs r) (db_TelegramProxyURL r) (db_TelegramLoggerChannelID r) (db_TelegramLoggerTopicID r)
  (db_TelegramDefaultVlessFlow r) (db_WebhookAddresses r) (db_WebhookSecret r) (db_DiscordWebhookURL r)
  (UpdatedAt r).
Definition set_ResellerApiLicense (v : option string) (r : IntegrationSetting) : IntegrationSetting := mkRow
  (db_ResellerApiSecret r) (db_ResellerApiUrl r) v (db_TelegramAPIToken r)
  (db_TelegramAdminIDs r) (db_TelegramProxyURL r) (db_TelegramLoggerChannelID r) (db_TelegramLoggerTopicID r)
  (db_TelegramDefaultVlessFlow r) (db_WebhookAddresses r) (db_WebhookSecret r) (db_DiscordWebhookURL r)
  (UpdatedAt r).
Definition set_TelegramAPIToken (v : option string) (r : IntegrationSetting) : IntegrationSetting := mkRow
  (db_ResellerApiSecret r) (db_ResellerApiUrl r) (db_ResellerApiLicense r) v
  (db_TelegramAdminIDs r) (db_TelegramProxyURL r) (db_TelegramLoggerChannelID r) (db_TelegramLoggerTopicID r)
  (db_TelegramDefaultVlessFlow r) (db_WebhookAddresses r) (db_WebhookSecret r) (db_DiscordWebhookURL r)
  (UpdatedAt r).
Definition set_TelegramAdminIDs (v : option json) (r : IntegrationSetting) : IntegrationSetting := mkRow
  (db_ResellerApiSecret r) (db_ResellerApiUrl r) (db_ResellerApiLicense r) (db_TelegramAPIToken r)
  v (db_TelegramProxyURL r) (db_TelegramLoggerChannelID r) (db_TelegramLoggerTopicID r)
  (db_TelegramDefaultVlessFlow r) (db_WebhookAddresses r) (db_WebhookSecret r) (db_DiscordWebhookURL r)
  (UpdatedAt r).
Definition set_TelegramProxyURL (v : option string) (r : IntegrationSetting) : IntegrationSetting := mkRow
  (db_ResellerApiSecret r) (db_ResellerApiUrl r) (db_ResellerApiLicense r) (db_TelegramAPIToken r)
  (db_TelegramAdminIDs r) v (db_TelegramLoggerChannelID r) (db_TelegramLoggerTopicID r)
  (db_TelegramDefaultVlessFlow r) (db_WebhookAddresses r) (db_WebhookSecret r) (db_DiscordWebhookURL r)
  (UpdatedAt r).
Definition set_TelegramLoggerChannelID (v : option Z) (r : IntegrationSetting) : IntegrationSetting := mkRow
  (db_ResellerApiSecret r) (db_ResellerApiUrl r) (db_ResellerApiLicense r) (db_TelegramAPIToken r)
  (db_TelegramAdminIDs r) (db_TelegramProxyURL r) v (db_TelegramLoggerTopicID r)
  (db_TelegramDefaultVlessFlow r) (db_WebhookAddresses r) (db_WebhookSecret r) (db_DiscordWebhookURL r)
  (UpdatedAt r).
Definition set_TelegramLoggerTopicID (v : option Z) (r : IntegrationSetting) : IntegrationSetting := mkRow
  (db_ResellerApiSecret r) (db_ResellerApiUrl r) (db_ResellerApiLicense r) (db_TelegramAPIToken r)
  (db_TelegramAdminIDs r) (db_TelegramProxyURL r) (db_TelegramLoggerChannelID r) v
  (db_TelegramDefaultVlessFlow r) (db_WebhookAddresses r) (db_WebhookSecret r) (db_DiscordWebhookURL r)
  (UpdatedAt r).
Definition set_TelegramDefaultVlessFlow (v : option string) (r : IntegrationSetting) : IntegrationSetting := mkRow
  (db_ResellerApiSecret r) (db_ResellerApiUrl r) (db_ResellerApiLicense r) (db_TelegramAPIToken r)
  (db_TelegramAdminIDs r) (db_TelegramProxyURL r) (db_TelegramLoggerChannelID r) (db_TelegramLoggerTopicID r)
  v (db_WebhookAddresses r) (db_WebhookSecret r) (db_DiscordWebhookURL r)
  (UpdatedAt r).
Definition set_WebhookAddresses (v : option json) (r : IntegrationSetting) : IntegrationSetting := mkRow
  (db_ResellerApiSecret r) (db_ResellerApiUrl r) (db_ResellerApiLicense r) (db_TelegramAPIToken r)
  (db_TelegramAdminIDs r) (db_TelegramProxyURL r) (db_TelegramLoggerChannelID r) (db_TelegramLoggerTopicID r)
  (db_TelegramDefaultVlessFlow r) v (db_WebhookSecret r) (db_DiscordWebhookURL r)
  (UpdatedAt r).
Definition set_WebhookSecret (v : option string) (r : IntegrationSetting) : IntegrationSetting := mkRow
  (db_ResellerApiSecret r) (db_ResellerApiUrl r) (db_ResellerApiLicense r) (db_TelegramAPIToken r)
  (db_TelegramAdminIDs r) (db_TelegramProxyURL r) (db_TelegramLoggerChannelID r) (db_TelegramLoggerTopicID r)
  (db_TelegramDefaultVlessFlow r) (db_WebhookAddresses r) v (db_DiscordWebhookURL r)
  (UpdatedAt r).
Definition set_DiscordWebhookURL (v : option string) (r : IntegrationSetting) : IntegrationSetting := mkRow
  (db_ResellerApiSecret r) (db_ResellerApiUrl r) (db_ResellerApiLicense r) (db_TelegramAPIToken r)
  (db_TelegramAdminIDs r) (db_TelegramProxyURL r) (db_TelegramLoggerChannelID r) (db_TelegramLoggerTopicID r)
  (db_TelegramDefaultVlessFlow r) (db_WebhookAddresses r) (db_WebhookSecret r) v
  (UpdatedAt r).

(** A field of the body: absent it leaves the row, otherwise it must decode. *)
Definition patch_field {A} `{Codec A} (body : gmap string json) (key : string) (set : A -> IntegrationSetting -> IntegrationSetting)
    (r : IntegrationSetting) : result httperr IntegrationSetting :=
  match body !! key with
  | None => Ok r
  | Some j => match of_json j (@zero A _) with Some v => Ok (set v r) | None => Err (422, "invalid " ++ key) end
  end.

(** An empty list, as null, gives the column back to the environment. *)
Definition column {A} `{Codec A} (l : list A) : option json := match l with [] => None | _ => Some (to_json l) end.

(** The Discord address is checked as well. *)
Definition patch_discord (body : gmap string json) (r : IntegrationSetting) : result httperr IntegrationSetting :=
  match body !! "discord_webhook_url" with
  | None => Ok r
  | Some j =>
      match of_json j (@zero (option string) _) with
      | None => Err (422, "invalid discord_webhook_url")
      | Some v => if Accounts.validateDiscordWebhook v then Ok (set_DiscordWebhookURL v r)
                  else Err (422, "Discord webhook must start with 'https://discord.com'")
      end
  end.

Definition patch (body : gmap string json) (r : IntegrationSetting) : result httperr IntegrationSetting :=
  r ← patch_field body "reseller_api_secret" set_ResellerApiSecret r;
  r ← patch_field body "reseller_api_url" set_ResellerApiUrl r;
  r ← patch_field body "reseller_api_license" set_ResellerApiLicense r;
  r ← patch_field body "telegram_api_token" set_TelegramAPIToken r;
  r ← patch_field body "telegram_admin_ids" (fun l : list Z => set_TelegramAdminIDs (column l)) r;
  r ← patch_field body "telegram_proxy_url" set_TelegramProxyURL r;
  r ← patch_field body "telegram_logger_channel_id" set_TelegramLoggerChannelID r;
  r ← patch_field body "telegram_logger_topic_id" set_TelegramLoggerTopicID r;
  r ← patch_field body "telegram_default_vless_flow" set_TelegramDefaultVlessFlow r;
  r ← patch_field body "webhook_addresses" (fun l : list string => set_WebhookAddresses (column l)) r;
  r ← patch_field body "webhook_secret" set_WebhookSecret r;
  patch_discord body r.

(** [ShouldBindJSON] into a map: the first value of the body; of several members of a name
    the last one counts. *)
Definition bind_body (text : string) : option (gmap string json) :=
  '(j, _) ← decode_value text;
  match j with
  | JObject ms => Some (foldl (fun m kv => <[kv.1 := kv.2]> m) ∅ ms)
  | JNull => Some ∅
  | _ => None
  end.

(** The text of a body that does not decode is [encoding/json]'s. *)
Definition bind_error : string := "invalid body".

Definition handleUpdateIntegrationSettings (now : Z) (env : Values) (text : string) : M integrationSettingsDTO :=
  match bind_body text with
  | None => throw (422, bind_error)
  | Some body =>
      if bool_decide (body = ∅) then throw (400, "No fields to update")
      else
        current ← catch GetIntegrationSettings (could_not "read integration settings");
        params ← lift (patch body current);
        updated ← catch (UpdateIntegrationSettings now params) (could_not "update integration settings");
        _ ← catch InvalidateIntegrationSettings (could_not "invalidate integration settings cache");
        mret (toIntegrationSettingsDTO (Resolve updated env) updated)
  end.

End Integration.

(** ** What a PUT changes *)

Module IntegrationProps.
Import Integration.

Definition text_fields : list (string * (Values -> string)) :=
  [("reseller_api_secret", ResellerApiSecret);
   ("reseller_api_url", ResellerApiUrl);
   ("reseller_api_license", ResellerApiLicense);
   ("telegram_api_token", TelegramAPIToken);
   ("telegram_proxy_url", TelegramProxyURL);
   ("telegram_default_vless_flow", TelegramDefaultVlessFlow);
   ("webhook_secret", WebhookSecret);
   ("discord_webhook_url", DiscordWebhookURL)].
Definition number_fields : list (string * (Values -> Z)) := [("telegram_logger_channel_id", TelegramLoggerChannelID); ("telegram_logger_topic_id", TelegramLoggerTopicID)].

(** The field after a patch that decodes. *)
Definition patched {A} `{Codec A} (body : gmap string json) (key : string) (set : A -> IntegrationSetting -> IntegrationSetting)
    (r : IntegrationSetting) : IntegrationSetting :=
  match body !! key ≫= fun j => of_json j (@zero A _) with Some v => set v r | None => r end.

Lemma patch_field_ok {A} `{Codec A} body key (set : A -> _) r r' :
  patch_field body key set r = Ok r' ->
  r' = patched body key set r /\ forall j, body !! key = Some j -> of_json j (@zero A _) <> None.
Proof.
  unfold patch_field, patched. destruct (body !! key) as [j|]; cbn; [|by intros [= <-]].
  destruct (of_json j zero) as [v|] eqn:E; [|done]. intros [= <-]. split; [done|]. intros j' [= <-]. by rewrite E.
Qed.

Lemma patch_discord_ok body r r' : patch_discord body r = Ok r' ->
  r' = patched body "discord_webhook_url" set_DiscordWebhookURL r /\
  forall j, body !! "discord_webhook_url" = Some j -> of_json j (@zero (option string) _) <> None.
Proof.
  unfold patch_discord, patched. destruct (body !! "discord_webhook_url") as [j|]; cbn [mbind option_bind]; [|by intros [= <-]].
  destruct (of_json j zero) as [v|] eqn:E; [|done]. destruct (Accounts.validateDiscordWebhook v); [|done].
  intros [= <-]. split; [done|]. intros j' [= <-]. by rewrite E.
Qed.

Lemma patched_other {A B} `{Codec A} (g : IntegrationSetting -> B) body key (set : A -> _) r :
  (forall v r, g (set v r) = g r) -> g (patched body key set r) = g r.
Proof. intros Hg. unfold patched. by destruct (_ ≫= _). Qed.

Lemma patched_text g body key set r env :
  (forall v r, g (set v r) = v) -> (forall j, body !! key = Some j -> of_json j (@zero (option string) _) <> None) ->
  text_or (g (patched body key set r)) env =
    match body !! key with
    | None => text_or (g r) env
    | Some (JString x) => if String.eqb x "" then env else x
    | Some _ => env
    end.
Proof.
  intros Hg Hok. unfold patched. destruct (body !! key) as [j|]; [|done]. specialize (Hok j eq_refl).
  destruct j; cbn in Hok |- *; try done; by rewrite Hg.
Qed.

Lemma patched_number g body key set r env :
  (forall v r, g (set v r) = v) -> (forall j, body !! key = Some j -> of_json j (@zero (option Z) _) <> None) ->
  int_or (g (patched body key set r)) env =
    match body !! key with
    | None => int_or (g r) env
    | Some (JNumber n) => int_or (ParseInt n) env
    | Some _ => env
    end.
Proof.
  intros Hg Hok. unfold patched. destruct (body !! key) as [j|]; [|done]. specialize (Hok j eq_refl).
  destruct j; cbn in Hok |- *; try done; [by rewrite Hg|].
  destruct (ParseInt _) as [z|]; [|done]. cbn in *. case_bool_decide; [|done]. cbn. by rewrite Hg.
Qed.

(** The list of a column, over the environment. *)
Lemma patched_list {A} `{CodecLaws A} (get : option json -> list A) (g : IntegrationSetting -> option json) body key set r env :
  (forall o, get o = default [] (o ≫= fun j => of_json j (@zero (list A) _))) ->
  (forall v r, g (set v r) = v) ->
  (forall j, body !! key = Some j -> valid_strings j = true /\ of_json j (@zero (list A) _) <> None) ->
  list_or (get (g (patched body key (fun l : list A => set (column l)) r))) env =
    match body !! key with
    | None => list_or (get (g r)) env
    | Some j => list_or (default [] (of_json j (@zero (list A) _))) env
    end.
Proof.
  intros Hget Hg Hok. unfold patched. destruct (body !! key) as [j|]; [|done]. destruct (Hok j eq_refl) as [Hv Hd]. cbn [mbind option_bind].
  destruct (of_json j zero) as [l|] eqn:E; [|done]. rewrite Hg, Hget. cbn [default from_option]. unfold column.
  assert (codec_ok l) as Hl by (eapply codec_decoded; [done|apply codec_zero|done]).
  destruct l as [|x l]; [done|]. cbn [mbind option_bind]. by rewrite (codec_roundtrip _ Hl).
Qed.

(** The names a body may give, each with what it sets. *)
Lemma patch_ok body r r' : patch body r = Ok r' ->
  r' = patched body "discord_webhook_url" set_DiscordWebhookURL (patched body "webhook_secret" set_WebhookSecret
      (patched body "webhook_addresses" (fun l : list string => set_WebhookAddresses (column l))
      (patched body "telegram_default_vless_flow" set_TelegramDefaultVlessFlow
      (patched body "telegram_logger_topic_id" set_TelegramLoggerTopicID (patched body "telegram_logger_channel_id" set_TelegramLoggerChannelID
      (patched body "telegram_proxy_url" set_TelegramProxyURL (patched body "telegram_admin_ids" (fun l : list Z => set_TelegramAdminIDs (column l))
      (patched body "telegram_api_token" set_TelegramAPIToken (patched body "reseller_api_license" set_ResellerApiLicense
      (patched body "reseller_api_url" set_ResellerApiUrl (patched body "reseller_api_secret" set_ResellerApiSecret r))))))))))) /\
  (forall key j, In key (map fst text_fields) -> body !! key = Some j -> of_json j (@zero (option string) _) <> None) /\
  (forall key j, In key (map fst number_fields) -> body !! key = Some j -> of_json j (@zero (option Z) _) <> None) /\
  (forall j, body !! "telegram_admin_ids" = Some j -> of_json j (@zero (list Z) _) <> None) /\
  (forall j, body !! "webhook_addresses" = Some j -> of_json j (@zero (list string) _) <> None).
Proof.
  unfold patch. intros Hp.
  repeat (apply result_bind_ok in Hp as (? & [-> ?]%patch_field_ok & Hp)). apply patch_discord_ok in Hp as [-> ?].
  split; [done|]. split_and!; try done; intros key j Hk; cbn in Hk; intuition (subst; eauto).
Qed.

Lemma bind_valid text body key j : bind_body text = Some body -> body !! key = Some j -> valid_strings j = true.
Proof.
  unfold bind_body. destruct (decode_value text) as [[v rest]|] eqn:E; [|done]. cbn. apply decode_value_valid in E.
  destruct v as [| | | | |ms|]; try done; [intros [= <-]; by rewrite lookup_empty|]. intros [= <-]. revert E.
  assert (forall m : gmap string json, (forall k x, m !! k = Some x -> valid_strings x = true) -> valid_strings (JObject ms) = true ->
    forall k x, foldl (fun m kv => <[kv.1 := kv.2]> m) m ms !! k = Some x -> valid_strings x = true) as Hf.
  { induction ms as [|[k v] ms IH]; intros m Hm Hv; [done|]. cbn in Hv. apply andb_true_iff in Hv as [[_ Hv]%andb_true_iff Hms].
    cbn [foldl fst snd]. apply IH; [|done]. intros k' x. destruct (decide (k = k')) as [->|Hne];
      [rewrite lookup_insert_eq; by intros [= <-]|rewrite lookup_insert_ne by done; apply Hm]. }
  intros Hv. apply (Hf ∅); [|done]. intros k x. by rewrite lookup_empty.
Qed.

(** What a successful update did. *)
Lemma update_ok now env text body s s' dto :
  bind_body text = Some body -> handleUpdateIntegrationSettings now env text s = (s', Ok dto) ->
  exists r, patch body (row s) = Ok r /\ row s' = mkRow
    (db_ResellerApiSecret r) (db_ResellerApiUrl r) (db_ResellerApiLicense r) (db_TelegramAPIToken r) (db_TelegramAdminIDs r)
    (db_TelegramProxyURL r) (db_TelegramLoggerChannelID r) (db_TelegramLoggerTopicID r) (db_TelegramDefaultVlessFlow r)
    (db_WebhookAddresses r) (db_WebhookSecret r) (db_DiscordWebhookURL r) (Some now) /\
  cached s' = None /\ dto = toIntegrationSettingsDTO (Resolve (row s') env) (row s').
Proof.
  unfold handleUpdateIntegrationSettings. intros ->. case_bool_decide; [done|]. intros H1.
  apply eff_bind_ok in H1 as (s1 & cur & H1 & H2). apply catch_ok in H1.
  apply eff_bind_ok in H2 as (s2 & r & H2 & H3). apply eff_bind_ok in H3 as (s3 & u & H3 & H4). apply catch_ok in H3.
  apply eff_bind_ok in H4 as (s4 & [] & H4 & H5). apply catch_ok in H4. injection H5 as <- <-.
  assert (cur = row s /\ row s1 = row s) as [-> Hrow].
  { unfold GetIntegrationSettings, call in H1. destruct (faults s) as [|[] ?]; cbn in H1; try done; by injection H1 as <- <-. }
  unfold lift in H2. injection H2 as -> Hr. exists r. split; [done|].
  assert (row s3 = u /\ u = mkRow
    (db_ResellerApiSecret r) (db_ResellerApiUrl r) (db_ResellerApiLicense r) (db_TelegramAPIToken r) (db_TelegramAdminIDs r)
    (db_TelegramProxyURL r) (db_TelegramLoggerChannelID r) (db_TelegramLoggerTopicID r) (db_TelegramDefaultVlessFlow r)
    (db_WebhookAddresses r) (db_WebhookSecret r) (db_DiscordWebhookURL r) (Some now)) as [<- Hu].
  { unfold UpdateIntegrationSettings, call in H3. destruct (faults s2) as [|[] ?]; cbn -[row_fits] in H3; try done;
      (destruct (row_fits _); [|done]); by injection H3 as <- <-. }
  assert (row s4 = row s3 /\ cached s4 = None) as [-> ->]; [|done].
  unfold InvalidateIntegrationSettings, call in H4. destruct (faults s3) as [|[] ?]; cbn in H4; try done; by injection H4 as <-.
Qed.

(** Looks through the fields other than [g]'s, above and below its own. *)
Ltac settle g :=
  repeat match goal with
  | |- context [g (patched ?b ?k ?set ?r)] => rewrite (patched_other g b k set r) by (intros; reflexivity)
  end.

(** One field of the result, by the lemma [fact] on fields of its type; [ok] says that
    what the body gives decodes. *)
Ltac field_set fact g ok :=
  settle g; rewrite fact; [by settle g|done|]; intros j Hj; refine (ok _ j _ Hj); cbn; tauto.

(** C9: an update that is answered with the settings set exactly the fields its body
    names: a text, a number or a list that says something is what is in force from then
    on, one that is null or empty gives the field back to the environment, and a field that
    is not named is what it was; and no cached copy of the old settings is left. *)
Theorem settings_patched now env text body s s' dto :
  bind_body text = Some body -> handleUpdateIntegrationSettings now env text s = (s', Ok dto) ->
  let v := Resolve (row s) env in
  let v' := Resolve (row s') env in
  Forall (fun '(key, get) => get v' = match body !! key with
                                       | None => get v
                                       | Some (JString x) => if String.eqb x "" then get env else x
                                       | Some _ => get env
                                       end) text_fields /\
  Forall (fun '(key, get) => get v' = match body !! key with
                                       | None => get v
                                       | Some (JNumber n) => int_or (ParseInt n) (get env)
                                       | Some _ => get env
                                       end) number_fields /\
  TelegramAdminIDs v' = match body !! "telegram_admin_ids" with
                        | None => TelegramAdminIDs v
                        | Some j => list_or (default [] (of_json j (@zero (list Z) _))) (TelegramAdminIDs env)
                        end /\
  WebhookAddresses v' = match body !! "webhook_addresses" with
                        | None => WebhookAddresses v
                        | Some j => list_or (default [] (of_json j (@zero (list string) _))) (WebhookAddresses env)
                        end /\
  cached s' = None /\ dto = toIntegrationSettingsDTO v' (row s').
Proof.
  intros Hb Hu. cbv zeta. destruct (update_ok _ _ _ _ _ _ _ Hb Hu) as (r & Hp & Hrow & Hc & Hd).
  destruct (patch_ok _ _ _ Hp) as (-> & Ht & Hn & Ha & Hw). rewrite Hd. rewrite Hrow. clear Hrow Hd Hu.
  split; [|split; [|split; [|split; [|done]]]].
  - unfold text_fields. repeat (apply List.Forall_cons_iff; split); try apply List.Forall_nil;
    cbn [Resolve ResellerApiSecret db_ResellerApiSecret ResellerApiUrl db_ResellerApiUrl ResellerApiLicense db_ResellerApiLicense TelegramAPIToken db_TelegramAPIToken TelegramProxyURL db_TelegramProxyURL TelegramDefaultVlessFlow db_TelegramDefaultVlessFlow WebhookSecret db_WebhookSecret DiscordWebhookURL db_DiscordWebhookURL].
    + field_set patched_text db_ResellerApiSecret Ht.
    + field_set patched_text db_ResellerApiUrl Ht.
    + field_set patched_text db_ResellerApiLicense Ht.
    + field_set patched_text db_TelegramAPIToken Ht.
    + field_set patched_text db_TelegramProxyURL Ht.
    + field_set patched_text db_TelegramDefaultVlessFlow Ht.
    + field_set patched_text db_WebhookSecret Ht.
    + field_set patched_text db_DiscordWebhookURL Ht.
  - unfold number_fields. repeat (apply List.Forall_cons_iff; split); try apply List.Forall_nil;
    cbn [Resolve TelegramLoggerChannelID db_TelegramLoggerChannelID TelegramLoggerTopicID db_TelegramLoggerTopicID].
    + field_set patched_number db_TelegramLoggerChannelID Hn.
    + field_set patched_number db_TelegramLoggerTopicID Hn.
  - cbn [Resolve TelegramAdminIDs db_TelegramAdminIDs]. settle (@db_TelegramAdminIDs).
    rewrite (patched_list decodeInt64s) by (done || (intros j Hj; split; [by eapply bind_valid|by apply Ha])). by settle (@db_TelegramAdminIDs).
  - cbn [Resolve WebhookAddresses db_WebhookAddresses]. settle (@db_WebhookAddresses).
    rewrite (patched_list decodeStrings) by (done || (intros j Hj; split; [by eapply bind_valid|by apply Hw])). by settle (@db_WebhookAddresses).
Qed.

Definition env : Values := mkValues "" "" "" "1:env" [7] "" 0 0 "" [] "" "".
Definition stored : IntegrationSetting := mkRow None None None (Some "2:db") None None (Some 5) None None None None None None.
Definition before : St := mkSt stored (Some (Some stored, 10)) [].
Definition text : string := encode (JObject [("telegram_api_token", JNull); ("telegram_admin_ids", JArray [JInt 42])]).
Definition named : gmap string json := <["telegram_admin_ids" := JArray [JInt 42]]> {[ "telegram_api_token" := JNull ]}.

Lemma settings_patched_witness :
  let s' := (handleUpdateIntegrationSettings 3 env text before).1 in
  TelegramAdminIDs (Resolve (row s') env) = [42] /\ cached s' = None.
Proof.
  destruct (settings_patched 3 env text named before (handleUpdateIntegrationSettings 3 env text before).1
    (toIntegrationSettingsDTO (Resolve (row (handleUpdateIntegrationSettings 3 env text before).1) env)
       (row (handleUpdateIntegrationSettings 3 env text before).1)))
    as (_ & _ & Ha & _ & Hc & _); [vm_compute; reflexivity..|]. cbv zeta. split; [|exact Hc]. rewrite Ha. vm_compute. reflexivity.
Defined.

(** A list that is stored cannot be emptied below what the environment gives. *)
Example admin_list_returns : TelegramAdminIDs (Resolve (set_TelegramAdminIDs (column ([] : list Z)) stored) env) = [7].
Proof. vm_compute. reflexivity. Qed.

Example masked_token : Mask "123456:abcd" = "*******abcd".
Proof. vm_compute. reflexivity. Qed.

End IntegrationProps.
