(* ===== verification/BotApi.v ===== *)
(** * BotApi: what the Telegram console talks to

    [Prog] is the console's programs: every call it makes (to the panel's router, to Redis,
    to the database, to Telegram) is a step whose answer the rest depends on. [Bot] is the
    client of the Bot API ([internal/telegrambot/botapi.go]), [Api] the calls into the panel
    and the answers it decodes ([api.go]), [Session] what is kept between two messages
    ([session.go]). *)

From stdpp Require Import sorting.
From S2P Require Import Prelude GoStrings GoFloat GoJson GoUrl GoTime MySQLDump Auth IntegrationSettings NodeWire NodeLive BotText.
Import GoFloat GoTime.

#[local] Open Scope string_scope.
#[local] Open Scope Z_scope.

(** ** Decoding answers

    [json.Unmarshal] into structs that are only read: a decoder works onto the value a field
    has, and null leaves it alone. *)

Module Decode.

Definition decoder (A : Type) : Type := json -> A -> option A.

Definition of_codec {A} `{Codec A} : decoder A := of_json.

(** An integer of [w] bits. *)
Definition int_of (w : Z) : decoder Z := fun j old =>
  match j with
  | JNumber n => z ← ParseInt n; if bool_decide (fits w z) then Some z else None
  | JNull => Some old
  | _ => None
  end.

Definition float : decoder float64 := fun j old =>
  match j with
  | JNumber n => match MySQLDump.ParseFloat n with Some (MySQLDump.Finite x) => Some x | _ => None end
  | JNull => Some old
  | _ => None
  end.

Definition pointer {A} (d : decoder A) (z : A) : decoder (option A) := fun j old =>
  match j with
  | JNull => Some None
  | _ => x ← d j (default z old); Some (Some x)
  end.

Fixpoint all {A} (d : decoder A) (z : A) (l : list json) : option (list A) :=
  match l with
  | [] => Some []
  | j :: l => x ← d j z; xs ← all d z l; Some (x :: xs)
  end.

Definition slice {A} (d : decoder A) (z : A) : decoder (list A) := fun j _ =>
  match j with JArray l => all d z l | JNull => Some [] | _ => None end.

Definition map_of {A} (d : decoder A) (z : A) : decoder (gmap string A) := fun j old =>
  match j with
  | JNull => Some ∅
  | JObject ms => foldl (fun acc kv => m ← acc; x ← d kv.2 z; Some (<[kv.1 := x]> m)) (Some old) ms
  | _ => None
  end.

(** A field of a struct; of several members of its name the last one decides. *)
Definition field {A} (d : decoder A) (name : string) (old : A) (ms : list (string * json)) : option A :=
  foldl (fun acc kv => x ← acc; if is_key name kv then d kv.2 x else Some x) (Some old) ms.

(** [time.Time]: the text between the quotes, read as RFC 3339. *)
Definition rfc3339 (s : string) : option Z :=
  let day := [Year4; Lit "-"; Month2; Lit "-"; Day2; Lit "T"; Hour2; Lit ":"; Minute2; Lit ":"; Second2] in
  if HasSuffix s "Z" then Parse (day ++ [Lit "Z"]) s else Parse (day ++ [Offset Colon]) s.

Definition time : decoder Z := fun j old =>
  match j with JString s => rfc3339 s | JNull => Some old | _ => None end.

Definition struct {A} (read : list (string * json) -> A -> option A) : decoder A := fun j old =>
  match j with JNull => Some old | JObject ms => read ms old | _ => None end.

(** A [json.RawMessage]: the value as it is, null included. *)
Definition raw : decoder (option json) := fun j _ => Some (Some j).

End Decode.

(** ** Programs *)

Record button := btn { b_Text : string; b_Data : string }.
Definition keyboard : Type := list (list button).

(** [principal] *)
Record principal := mkPrincipal { Username : string; IsSudo : bool }.

Record apiResult := mkResult { Status : Z; Body : string }.

(** What is posted to Telegram. *)
Inductive payload :=
  | GetUpdates (offset timeout : Z)
  | SendMessage (chat_id : Z) (text : string) (kb : keyboard)
  | EditMessageText (chat_id message_id : Z) (text : string) (kb : keyboard)
  | AnswerCallbackQuery (id text : string)
  | DeleteMessage (chat_id message_id : Z)
  | SendPhoto (chat_id : Z) (png caption : string)
  | SendDocument (chat_id : Z) (filename data caption : string).

(** The text of a transport error, inside the [url.Error] of net/http if it is one; or the
    status and the bytes read of the body, at most 8 MB. *)
Inductive reply := NoAnswer (message : string) | Answer (status : Z) (raw : string).

(** Errors of a call to Telegram. *)
Inductive boterr :=
  | Transport (message : string)
  | Unreadable (status : Z)
  | Shape
  | apiError (Code : Z) (Description : string) (RetryAfter : Z)
  | Cancelled.

(** The calls, with what they are answered. [None] is an error. *)
Inductive op : Type -> Type :=
  | Panel (who : principal) (method path : string) (body : option json) : op (option apiResult)
  | CacheGet (key : string) : op (option string)
  | CacheSet (key value : string) (ttl : Z) : op bool
  | CacheDel (key : string) : op unit
  | CacheSetNX (key value : string) (ttl : Z) : op (option bool)
  | Settings : op (option Integration.Values)
  | ListAdmins : op (option (list Accounts.Admin))
  | Post (url : string) (p : payload) : op reply
  | After (seconds : Z) : op bool
  | Now : op Z
  | Warn (message : string) (err : option boterr) : op unit.

Inductive prog (A : Type) : Type :=
  | Ret (a : A)
  | Step {X : Type} (o : op X) (k : X -> prog A).
Arguments Ret {A} a.
Arguments Step {A X} o k.

Fixpoint bind {A B} (p : prog A) (f : A -> prog B) : prog B :=
  match p with
  | Ret a => f a
  | Step o k => Step o (fun x => bind (k x) f)
  end.

#[export] Instance prog_ret : MRet prog := fun A a => Ret a.
#[export] Instance prog_bind : MBind prog := fun A B f p => bind p f.

Definition call {X} (o : op X) : prog X := Step o Ret.

(** ** [botapi.go] *)

Module Bot.

Record tgUser := mkUser { u_ID : Z; IsBot : bool; LanguageCode : string }.
Record tgChat := mkChat { c_ID : Z; Type_ : string }.
Record tgMessage := mkMessage {
  MessageID : Z; From : option tgUser; Chat : tgChat; Text : string;
  ForwardDate : Z; ForwardOrigin : option json; ViaBot : option tgUser
}.
Record tgCallback := mkCallback { cb_ID : string; cb_From : tgUser; cb_Message : option tgMessage; cb_Data : string }.
Record tgUpdate := mkUpdate { UpdateID : Z; Message : option tgMessage; CallbackQuery : option tgCallback }.

Section decoders.
Import Decode.

Definition zero_user : tgUser := mkUser 0 false "".
Definition user : decoder tgUser := struct (fun ms old =>
  i ← field (int_of 64) "id" (u_ID old) ms;
  b ← field of_codec "is_bot" (IsBot old) ms;
  l ← field of_codec "language_code" (LanguageCode old) ms;
  Some (mkUser i b l)).

Definition zero_chat : tgChat := mkChat 0 "".
Definition chat : decoder tgChat := struct (fun ms old =>
  i ← field (int_of 64) "id" (c_ID old) ms;
  t ← field of_codec "type" (Type_ old) ms;
  Some (mkChat i t)).

Definition zero_message : tgMessage := mkMessage 0 None zero_chat "" 0 None None.
Definition message : decoder tgMessage := struct (fun ms old =>
  i ← field (int_of 64) "message_id" (MessageID old) ms;
  f ← field (pointer user zero_user) "from" (From old) ms;
  c ← field chat "chat" (Chat old) ms;
  t ← field of_codec "text" (Text old) ms;
  d ← field (int_of 64) "forward_date" (ForwardDate old) ms;
  o ← field raw "forward_origin" (ForwardOrigin old) ms;
  v ← field (pointer user zero_user) "via_bot" (ViaBot old) ms;
  Some (mkMessage i f c t d o v)).

Definition zero_callback : tgCallback := mkCallback "" zero_user None "".
Definition callback : decoder tgCallback := struct (fun ms old =>
  i ← field of_codec "id" (cb_ID old) ms;
  f ← field user "from" (cb_From old) ms;
  m ← field (pointer message zero_message) "message" (cb_Message old) ms;
  d ← field of_codec "data" (cb_Data old) ms;
  Some (mkCallback i f m d)).

Definition zero_update : tgUpdate := mkUpdate 0 None None.
Definition update : decoder tgUpdate := struct (fun ms old =>
  i ← field (int_of 64) "update_id" (UpdateID old) ms;
  m ← field (pointer message zero_message) "message" (Message old) ms;
  c ← field (pointer callback zero_callback) "callback_query" (CallbackQuery old) ms;
  Some (mkUpdate i m c)).

(** [apiEnvelope] *)
Record envelope := mkEnvelope { OK : bool; Result : option json; e_Description : string; ErrorCode : Z; RetryAfter : Z }.

Definition apiEnvelope : decoder envelope := struct (fun ms old =>
  o ← field of_codec "ok" (OK old) ms;
  r ← field raw "result" (Result old) ms;
  d ← field of_codec "description" (e_Description old) ms;
  c ← field (int_of 64) "error_code" (ErrorCode old) ms;
  p ← field (struct (fun ms old => field (int_of 64) "retry_after" old ms)) "parameters" (RetryAfter old) ms;
  Some (mkEnvelope o r d c p)).
End decoders.

(** A message that came from somewhere else. *)
Definition forwarded (m : tgMessage) : bool :=
  negb (ForwardDate m =? 0) || match ForwardOrigin m with None | Some JNull => false | Some _ => true end.

Definition isNotModified (e : boterr) : bool :=
  match e with apiError _ d _ => Contains d "message is not modified" | _ => false end.

(** [strings.ReplaceAll(s, old, new)] for a nonempty [old]. *)
Fixpoint ReplaceAll (fuel : nat) (s old new : string) : string :=
  match fuel, s with
  | S fuel, String c r =>
      match strip_prefix old s with
      | Some rest => new ++ ReplaceAll fuel rest old new
      | None => String c (ReplaceAll fuel r old new)
      end
  | _, _ => EmptyString
  end.

Record botClient := mkBot { token : string; baseURL : string }.

Definition defaultBaseURL : string := "https://api.telegram.org".

(** The client of a token; its transport, with or without a proxy, is net/http's. *)
Definition newBotClient (token base : string) : botClient :=
  let base := if String.eqb base "" then defaultBaseURL else base in
  mkBot token (trim_right_byte "/" base).

Definition redact (b : botClient) (message : string) : boterr :=
  Transport (ReplaceAll (String.length message) message (token b) "<token>").

Definition endpoint (b : botClient) (method : string) : string := baseURL b ++ "/bot" ++ token b ++ "/" ++ method.

(** [do], with what an [out] is decoded by; without one nothing is. *)
Definition do_answer {A} (b : botClient) (out : option (Decode.decoder A)) (zero : A) (r : reply) : result boterr A :=
  match r with
  | NoAnswer m => Err (redact b m)
  | Answer status body =>
      match j ← parse body; apiEnvelope j (mkEnvelope false None "" 0 0) with
      | None => Err (Unreadable status)
      | Some env =>
          if negb (OK env) then
            Err (apiError (if ErrorCode env =? 0 then status else ErrorCode env) (e_Description env) (RetryAfter env))
          else
            match out, Result env with
            | Some d, Some j => match d j zero with Some a => Ok a | None => Err Shape end
            | _, _ => Ok zero
            end
      end
  end.

Definition method_of (p : payload) : string :=
  match p with
  | GetUpdates _ _ => "getUpdates"
  | SendMessage _ _ _ => "sendMessage"
  | EditMessageText _ _ _ _ => "editMessageText"
  | AnswerCallbackQuery _ _ => "answerCallbackQuery"
  | DeleteMessage _ _ => "deleteMessage"
  | SendPhoto _ _ _ => "sendPhoto"
  | SendDocument _ _ _ _ => "sendDocument"
  end.

Definition button_json (b : button) : json := JObject [("text", JString (b_Text b)); ("callback_data", JString (b_Data b))].

Definition markupFor (kb : keyboard) : list (string * json) :=
  match kb with
  | [] => []
  | _ => [("reply_markup", JObject [("inline_keyboard", JArray (map (fun row => JArray (map button_json row)) kb))])]
  end.

Definition noPreview : json := JObject [("is_disabled", JBool true)].

(** The JSON of a call; uploads are multipart forms. *)
Definition body_of (p : payload) : option json :=
  match p with
  | GetUpdates offset timeout =>
      Some (JObject [("allowed_updates", JArray [JString "message"; JString "callback_query"]); ("offset", JInt offset); ("timeout", JInt timeout)])
  | SendMessage chat text kb =>
      Some (JObject ([("chat_id", JInt chat); ("text", JString text); ("parse_mode", JString "HTML")] ++
                     markupFor kb ++ [("link_preview_options", noPreview)])%list)
  | EditMessageText chat msg text kb =>
      Some (JObject ([("chat_id", JInt chat); ("message_id", JInt msg); ("text", JString text); ("parse_mode", JString "HTML")] ++
                     markupFor kb ++ [("link_preview_options", noPreview)])%list)
  | AnswerCallbackQuery id text =>
      Some (JObject ([("callback_query_id", JString id)] ++ (if String.eqb text "" then [] else [("text", JString text)]))%list)
  | DeleteMessage chat msg => Some (JObject [("chat_id", JInt chat); ("message_id", JInt msg)])
  | SendPhoto _ _ _ | SendDocument _ _ _ _ => None
  end.

(** The text part of an upload: fields, the file's field, its name and type. *)
Definition form_of (p : payload) : option (list (string * string) * string * string * string) :=
  let captioned chat caption := (("chat_id", Itoa chat) :: (if String.eqb caption "" then [] else [("caption", caption); ("parse_mode", "HTML")]))%list in
  match p with
  | SendPhoto chat _ caption => Some (captioned chat caption, "photo", "qr.png", "image/png")
  | SendDocument chat filename _ caption => Some (captioned chat caption, "document", filename, "application/gzip")
  | _ => None
  end.

Definition callJSON {A} (b : botClient) (p : payload) (out : option (Decode.decoder A)) (zero : A) : prog (result boterr A) :=
  r ← call (Post (endpoint b (method_of p)) p);
  mret (do_answer b out zero r).

(** One more try when Telegram asks to wait a little. *)
Definition callJSONRetry {A} (b : botClient) (p : payload) (out : option (Decode.decoder A)) (zero : A) : prog (result boterr A) :=
  r ← callJSON b p out zero;
  match r with
  | Err (apiError code _ retry) =>
      if (code =? 429) && (0 <? retry) && (retry <=? 5) then
        go ← call (After retry);
        if go : bool then callJSON b p out zero else mret (Err Cancelled)
      else mret r
  | _ => mret r
  end.

Definition getUpdates (b : botClient) (offset timeout : Z) : prog (result boterr (list tgUpdate)) :=
  callJSON b (GetUpdates offset timeout) (Some (Decode.slice update zero_update)) [].

Definition sendMessage (b : botClient) (chat : Z) (text : string) (kb : keyboard) : prog (result boterr Z) :=
  r ← callJSONRetry b (SendMessage chat text kb) (Some message) zero_message;
  mret match r with Ok m => Ok (MessageID m) | Err e => Err e end.

Definition editMessage (b : botClient) (chat msg : Z) (text : string) (kb : keyboard) : prog (result boterr unit) :=
  callJSONRetry b (EditMessageText chat msg text kb) None tt.

Definition answerCallback (b : botClient) (id text : string) : prog (result boterr unit) :=
  callJSON b (AnswerCallbackQuery id text) None tt.

Definition deleteMessage (b : botClient) (chat msg : Z) : prog (result boterr unit) :=
  callJSON b (DeleteMessage chat msg) None tt.

Definition sendDocument (b : botClient) (chat : Z) (filename data caption : string) : prog (result boterr unit) :=
  callJSON b (SendDocument chat filename data caption) None tt.

Definition sendPhoto (b : botClient) (chat : Z) (png caption : string) : prog (result boterr unit) :=
  callJSON b (SendPhoto chat png caption) None tt.

End Bot.

(** ** [api.go] *)

Module Api.

Definition ok (r : apiResult) : bool := (200 <=? Status r) && (Status r <? 300).

(** What a call that gives no answer leaves of its result. *)
Definition no_result : apiResult := mkResult 0 "".

Definition decode {A} (d : Decode.decoder A) (zero : A) (r : apiResult) : option A := j ← parse (Body r); d j zero.

(** The panel writes its answers with [encoding/json], so that the text of a part is what
    the part encodes as. *)
Definition detail (r : apiResult) : string :=
  match decode (Decode.struct (fun ms old => Decode.field Decode.raw "detail" old ms)) None r with
  | Some (Some (JString s)) => Format.truncateRunes s 300
  | Some (Some JNull) => ""
  | Some (Some j) => Format.truncateRunes (encode j) 300
  | _ => ""
  end.

Record nextPlan := mkNextPlan { np_DataLimit : Z; np_Expire : Z; AddRemainingTraffic : bool; FireOnEither : bool }.

Definition nextPlan_json (p : nextPlan) : json :=
  JObject [("data_limit", JInt (np_DataLimit p)); ("expire", JInt (np_Expire p));
           ("add_remaining_traffic", JBool (AddRemainingTraffic p)); ("fire_on_either", JBool (FireOnEither p))].

Record userDTO := mkUserDTO {
  u_Username : string; u_Status : string; UsedTraffic : Z; DataLimit : option Z; Expire : option Z; Note : option string;
  OnHoldExpireDuration : option Z; OnlineAt : option Z; Admin : option string; SyncedFromPanelName : option string;
  NextPlan : option nextPlan; SubscriptionURL : string; SubscriptionURLs : list string
}.

Record usersPage := mkPage { Users : list userDTO; Total : Z }.

Record systemStats := mkStats {
  MemTotal : Z; MemUsed : Z; CPUUsage : float64; TotalUser : Z; OnlineUsers : Z; UsersActive : Z; UsersOnHold : Z;
  UsersDisabled : Z; UsersExpired : Z; UsersLimited : Z; IncomingBandwidth : Z; OutgoingBandwidth : Z;
  IncomingBandwidthSpeed : Z; OutgoingBandwidthSpeed : Z
}.

Record nodeDTO := mkNodeDTO { n_ID : Z; n_Name : string; Address : string; n_Status : string; n_Message : option string; XrayVersion : option string }.

Record tunnelDTO := mkTunnel { t_Name : string; Up : bool; Present : bool; HandshakeAgeSeconds : option float64; t_Error : string }.

Record hostDTO := mkHost {
  NodeID : option Z; h_Name : string; Reachable : bool; Stale : bool; CPUPercent : option float64; MemPercent : option float64;
  DiskPercent : option float64; RxRate : option Z; TxRate : option Z; Uptime : option float64; HasMetrics : bool; Tunnels : list tunnelDTO
}.

Record templateDTO := mkTemplate {
  tm_ID : Z; tm_Name : string; tm_DataLimit : Z; ExpireDuration : Z; UsernamePrefix : option string; UsernameSuffix : option string;
  tm_Inbounds : gmap string (list string)
}.

Record backupInfo := mkBackup { Filename : string; SizeBytes : Z }.

Section decoders.
Import Decode.

Definition int : decoder Z := int_of 64.
Definition zero_float : float64 := mkFloat 0 0.

Definition zero_plan : nextPlan := mkNextPlan 0 0 false false.
Definition plan : decoder nextPlan := struct (fun ms old =>
  d ← field int "data_limit" (np_DataLimit old) ms;
  e ← field int "expire" (np_Expire old) ms;
  a ← field of_codec "add_remaining_traffic" (AddRemainingTraffic old) ms;
  f ← field of_codec "fire_on_either" (FireOnEither old) ms;
  Some (mkNextPlan d e a f)).

(** [adminRef] *)
Definition adminRef : decoder string := struct (fun ms old => field of_codec "username" old ms).

Definition zero_dto : userDTO := mkUserDTO "" "" 0 None None None None None None None None "" [].
Definition user : decoder userDTO := struct (fun ms old =>
  un ← field of_codec "username" (u_Username old) ms;
  st ← field of_codec "status" (u_Status old) ms;
  us ← field int "used_traffic" (UsedTraffic old) ms;
  dl ← field (pointer int 0) "data_limit" (DataLimit old) ms;
  ex ← field (pointer int 0) "expire" (Expire old) ms;
  nt ← field (pointer of_codec "") "note" (Note old) ms;
  oh ← field (pointer int 0) "on_hold_expire_duration" (OnHoldExpireDuration old) ms;
  oa ← field (pointer time 0) "online_at" (OnlineAt old) ms;
  ad ← field (pointer adminRef "") "admin" (Admin old) ms;
  sy ← field (pointer of_codec "") "synced_from_panel_name" (SyncedFromPanelName old) ms;
  np ← field (pointer plan zero_plan) "next_plan" (NextPlan old) ms;
  su ← field of_codec "subscription_url" (SubscriptionURL old) ms;
  ss ← field of_codec "subscription_urls" (SubscriptionURLs old) ms;
  Some (mkUserDTO un st us dl ex nt oh oa ad sy np su ss)).

Definition page : decoder usersPage := struct (fun ms old =>
  u ← field (slice user zero_dto) "users" (Users old) ms;
  t ← field int "total" (Total old) ms;
  Some (mkPage u t)).

Definition zero_stats : systemStats := mkStats 0 0 zero_float 0 0 0 0 0 0 0 0 0 0 0.
Definition stats : decoder systemStats := struct (fun ms old =>
  mt ← field int "mem_total" (MemTotal old) ms;
  mu ← field int "mem_used" (MemUsed old) ms;
  cp ← field float "cpu_usage" (CPUUsage old) ms;
  tu ← field int "total_user" (TotalUser old) ms;
  ou ← field int "online_users" (OnlineUsers old) ms;
  ua ← field int "users_active" (UsersActive old) ms;
  uh ← field int "users_on_hold" (UsersOnHold old) ms;
  ud ← field int "users_disabled" (UsersDisabled old) ms;
  ue ← field int "users_expired" (UsersExpired old) ms;
  ul ← field int "users_limited" (UsersLimited old) ms;
  ib ← field int "incoming_bandwidth" (IncomingBandwidth old) ms;
  ob ← field int "outgoing_bandwidth" (OutgoingBandwidth old) ms;
  isp ← field int "incoming_bandwidth_speed" (IncomingBandwidthSpeed old) ms;
  osp ← field int "outgoing_bandwidth_speed" (OutgoingBandwidthSpeed old) ms;
  Some (mkStats mt mu cp tu ou ua uh ud ue ul ib ob isp osp)).

Definition zero_node : nodeDTO := mkNodeDTO 0 "" "" "" None None.
Definition node : decoder nodeDTO := struct (fun ms old =>
  i ← field (int_of 32) "id" (n_ID old) ms;
  n ← field of_codec "name" (n_Name old) ms;
  a ← field of_codec "address" (Address old) ms;
  s ← field of_codec "status" (n_Status old) ms;
  m ← field (pointer of_codec "") "message" (n_Message old) ms;
  x ← field (pointer of_codec "") "xray_version" (XrayVersion old) ms;
  Some (mkNodeDTO i n a s m x)).

Definition zero_tunnel : tunnelDTO := mkTunnel "" false false None "".
Definition tunnel : decoder tunnelDTO := struct (fun ms old =>
  n ← field of_codec "name" (t_Name old) ms;
  u ← field of_codec "up" (Up old) ms;
  p ← field of_codec "present" (Present old) ms;
  h ← field (pointer float zero_float) "handshake_age_seconds" (HandshakeAgeSeconds old) ms;
  e ← field of_codec "error" (t_Error old) ms;
  Some (mkTunnel n u p h e)).

Definition zero_host : hostDTO := mkHost None "" false false None None None None None None false [].
Definition host : decoder hostDTO := struct (fun ms old =>
  i ← field (pointer (int_of 32) 0) "node_id" (NodeID old) ms;
  n ← field of_codec "name" (h_Name old) ms;
  r ← field of_codec "reachable" (Reachable old) ms;
  s ← field of_codec "stale" (Stale old) ms;
  c ← field (pointer float zero_float) "cpu_percent" (CPUPercent old) ms;
  m ← field (pointer float zero_float) "mem_percent" (MemPercent old) ms;
  d ← field (pointer float zero_float) "disk_percent" (DiskPercent old) ms;
  rx ← field (pointer int 0) "rx_rate" (RxRate old) ms;
  tx ← field (pointer int 0) "tx_rate" (TxRate old) ms;
  up ← field (pointer float zero_float) "uptime" (Uptime old) ms;
  hm ← field of_codec "has_metrics" (HasMetrics old) ms;
  tn ← field (slice tunnel zero_tunnel) "tunnels" (Tunnels old) ms;
  Some (mkHost i n r s c m d rx tx up hm tn)).

(** [monitoringDTO] *)
Definition monitoringDTO : decoder (list hostDTO) := struct (fun ms old => field (slice host zero_host) "hosts" old ms).

Definition zero_template : templateDTO := mkTemplate 0 "" 0 0 None None ∅.
Definition template : decoder templateDTO := struct (fun ms old =>
  i ← field (int_of 32) "id" (tm_ID old) ms;
  n ← field of_codec "name" (tm_Name old) ms;
  d ← field int "data_limit" (tm_DataLimit old) ms;
  e ← field int "expire_duration" (ExpireDuration old) ms;
  p ← field (pointer of_codec "") "username_prefix" (UsernamePrefix old) ms;
  s ← field (pointer of_codec "") "username_suffix" (UsernameSuffix old) ms;
  ib ← field (map_of of_codec []) "inbounds" (tm_Inbounds old) ms;
  Some (mkTemplate i n d e p s ib)).

Definition backup : decoder backupInfo := struct (fun ms old =>
  f ← field of_codec "filename" (Filename old) ms;
  s ← field int "size_bytes" (SizeBytes old) ms;
  Some (mkBackup f s)).
End decoders.

Definition links (u : userDTO) : list string :=
  match SubscriptionURLs u with
  | [] => if String.eqb (SubscriptionURL u) "" then [] else [SubscriptionURL u]
  | l => l
  end.

(** ** Calls

    A call that did not do what was wanted: the answer, and whether there is an error
    besides. *)
Definition trouble : Type := apiResult * bool.

Definition request (who : principal) (method path : string) (body : option json) : prog (result trouble apiResult) :=
  r ← call (Panel who method path body);
  mret match r with
       | None => Err (no_result, true)
       | Some res => if ok res then Ok res else Err (res, false)
       end.

Definition decoded {A} (d : Decode.decoder A) (zero : A) (r : result trouble apiResult) : result trouble A :=
  match r with
  | Err t => Err t
  | Ok res => match decode d zero res with Some a => Ok a | None => Err (res, true) end
  end.

Definition fetch {A} (who : principal) (method path : string) (body : option json) (d : Decode.decoder A) (zero : A) :
    prog (result trouble A) :=
  r ← request who method path body;
  mret (decoded d zero r).

Definition userPath (username : string) : string := "/api/user/" ++ PathEscape username.

Definition getUser (who : principal) (username : string) : prog (result trouble userDTO) :=
  fetch who "GET" (userPath username) None user zero_dto.

Definition pageSize : Z := 8.

Definition listUsers (who : principal) (status search : string) (p : Z) : prog (result trouble usersPage) :=
  let q : gmap string string := <["sort" := "-created_at"]> (<["limit" := Itoa pageSize]> (<["offset" := Itoa (int64 (p * pageSize))]> ∅)) in
  let q := if String.eqb search "" then q else <["search" := search]> q in
  let q := if String.eqb status "" then q else <["status" := status]> q in
  fetch who "GET" ("/api/users?" ++ Encode q) None page (mkPage [] 0).

(** A [map[string]any] is written with its keys in order. *)
Definition map_json (m : gmap string json) : json := JObject (by_name m).

(** An update without a plan would remove the user's, so the one it has is sent back. *)
Definition with_plan (cur : userDTO) (fields : gmap string json) : gmap string json :=
  match NextPlan cur with Some p => <["next_plan" := nextPlan_json p]> fields | None => fields end.

Definition modifyUser (who : principal) (cur : userDTO) (fields : gmap string json) : prog (result trouble userDTO) :=
  fetch who "PUT" (userPath (u_Username cur)) (Some (map_json (with_plan cur fields))) user zero_dto.

End Api.

(** ** [session.go] *)

Module Session.
Import I18n.

Definition sessionKey (uid : Z) : string := "rapido:tgbot:sess:" ++ Itoa uid.
Definition langKey (uid : Z) : string := "rapido:tgbot:lang:" ++ Itoa uid.
Definition updateKey (id : Z) : string := "rapido:tgbot:upd:" ++ Itoa id.

(** Times to live, in seconds. *)
Definition sessionTTL : Z := 20 * 60.
Definition langTTL : Z := 400 * 24 * 3600.
Definition updateTTL : Z := 24 * 3600.

Definition modeWizard : string := "nu".
Definition modeExtend : string := "exp".
Definition modeData : string := "dat".
Definition modeNote : string := "note".

Definition stepName : string := "name".
Definition stepTmpl : string := "tmpl".
Definition stepLimit : string := "limit".
Definition stepDays : string := "days".
Definition stepConfirm : string := "confirm".

Record draft := mkDraft {
  Name : string; HasTmpl : bool; TmplID : Z; TmplName : string; Prefix : string; Suffix : string;
  LimitBytes : Z; ExpireSecs : Z; Inbounds : gmap string (list string)
}.

Record session := mkSession { Mode : string; Step : string; User : string; Msg : Z; Draft : draft }.

(** [map[string][]string] *)
Definition tags_member (acc : option (gmap string (list string))) (kv : string * json) : option (gmap string (list string)) :=
  m ← acc; l ← of_json kv.2 []; Some (<[kv.1 := l]> m).

#[export] Instance tags_codec : Codec (gmap string (list string)) := {|
  to_json m := JObject (map (fun kv => (kv.1, to_json kv.2)) (by_name m));
  of_json j old :=
    match j with
    | JNull => Some ∅
    | JObject ms => foldl tags_member (Some old) ms
    | _ => None
    end;
  zero := ∅;
  empty m := bool_decide (m = ∅)
|}.

#[export] Instance draft_codec : Codec draft := {|
  to_json d := JObject
    (omitempty "n" (Name d) ++ omitempty "ht" (HasTmpl d) ++ @omitempty Z int32_codec "ti" (TmplID d) ++ omitempty "tn" (TmplName d) ++
     omitempty "pf" (Prefix d) ++ omitempty "sf" (Suffix d) ++ omitempty "l" (LimitBytes d) ++ omitempty "e" (ExpireSecs d) ++
     omitempty "ib" (Inbounds d) ++ [])%list;
  of_json j old := match j with
    | JNull => Some old
    | JObject ms =>
        n ← get_from "n" (Some (Name old)) ms;
        ht ← get_from "ht" (Some (HasTmpl old)) ms;
        ti ← @get_from Z int32_codec "ti" (Some (TmplID old)) ms;
        tn ← get_from "tn" (Some (TmplName old)) ms;
        pf ← get_from "pf" (Some (Prefix old)) ms;
        sf ← get_from "sf" (Some (Suffix old)) ms;
        l ← get_from "l" (Some (LimitBytes old)) ms;
        e ← get_from "e" (Some (ExpireSecs old)) ms;
        ib ← get_from "ib" (Some (Inbounds old)) ms;
        Some (mkDraft n ht ti tn pf sf l e ib)
    | _ => None
    end;
  zero := mkDraft zero zero (@zero Z int32_codec) zero zero zero zero zero zero;
  empty _ := false
|}.

Definition no_draft : draft := zero.

#[export] Instance session_codec : Codec session := {|
  to_json s := JObject
    (omitempty "m" (Mode s) ++ omitempty "s" (Step s) ++ omitempty "u" (User s) ++ omitempty "g" (Msg s) ++ emit "d" (Draft s) ++ [])%list;
  of_json j old := match j with
    | JNull => Some old
    | JObject ms =>
        m ← get_from "m" (Some (Mode old)) ms;
        s ← get_from "s" (Some (Step old)) ms;
        u ← get_from "u" (Some (User old)) ms;
        g ← get_from "g" (Some (Msg old)) ms;
        d ← get_from "d" (Some (Draft old)) ms;
        Some (mkSession m s u g d)
    | _ => None
    end;
  zero := mkSession zero zero zero zero zero;
  empty _ := false
|}.

(** What a stored text is read as; without a mode it is no session. *)
Definition read (raw : string) : option session :=
  s ← (j ← parse raw; of_json j (@zero session _));
  if String.eqb (Mode s) "" then None else Some s.

Definition loadSession (uid : Z) : prog (option session) :=
  raw ← call (CacheGet (sessionKey uid));
  mret (raw ≫= read).

Definition saveSession (uid : Z) (s : session) : prog unit :=
  done ← call (CacheSet (sessionKey uid) (encode (to_json s)) sessionTTL);
  if done : bool then mret tt else call (Warn "telegram console: could not save session" None).

Definition clearSession (uid : Z) : prog unit := call (CacheDel (sessionKey uid)).

(** An update is new unless Redis says that it was seen; while Redis fails all are. *)
Definition firstDelivery (updateID : Z) : prog bool :=
  r ← call (CacheSetNX (updateKey updateID) "1" updateTTL);
  mret (default true r).

Definition loadLang (uid : Z) (code : string) : prog lang :=
  v ← call (CacheGet (langKey uid));
  mret match v with
       | Some v => if String.eqb v "fa" then langFA else if String.eqb v "en" then langEN else langFromCode code
       | None => langFromCode code
       end.

Definition saveLang (uid : Z) (l : lang) : prog unit :=
  _ ← call (CacheSet (langKey uid) (match l with langEN => "en" | langFA => "fa" end) langTTL);
  mret tt.

End Session.
