(* ===== verification/BotRequest.v ===== *)
(** * BotRequest: one interaction of an admin with the Telegram console

    [Request] is the value an interaction threads and what it shows
    ([internal/telegrambot/dispatch.go]); [Views] the screens ([views.go]); [Actions] what
    the buttons and the typed answers do, the new-user wizard included ([actions.go]);
    [Dispatch] which of them a tap or a text runs ([dispatch.go]). *)

From stdpp Require Import sorting.
From S2P Require Import Prelude GoStrings GoFloat GoJson GoUrl GoTime MySQLDump Auth IntegrationSettings NodeWire NodeLive BotText BotApi.
Import GoFloat GoTime Fmt I18n Format Bot Api Session.

#[local] Open Scope string_scope.
#[local] Open Scope Z_scope.

(** ** The request *)

Module Request.

(** [request]; the session it notes in [sess] is not read again. *)
Record req := mkReq {
  bot : botClient; uid : Z; lang_of : lang; who : principal;
  cbID : string; msgID : Z; inMsgID : Z; toast : string
}.

Definition with_lang (l : lang) (r : req) : req := mkReq (bot r) (uid r) l (who r) (cbID r) (msgID r) (inMsgID r) (toast r).
Definition with_cb (c : string) (r : req) : req := mkReq (bot r) (uid r) (lang_of r) (who r) c (msgID r) (inMsgID r) (toast r).
Definition with_msg (m : Z) (r : req) : req := mkReq (bot r) (uid r) (lang_of r) (who r) (cbID r) m (inMsgID r) (toast r).
Definition with_in (m : Z) (r : req) : req := mkReq (bot r) (uid r) (lang_of r) (who r) (cbID r) (msgID r) m (toast r).
Definition with_toast (t : string) (r : req) : req := mkReq (bot r) (uid r) (lang_of r) (who r) (cbID r) (msgID r) (inMsgID r) t.

Definition M (A : Type) : Type := req -> prog (req * A).

#[export] Instance m_ret : MRet M := fun A a r => Ret (r, a).
#[export] Instance m_bind : MBind M := fun A B f m r => bind (m r) (fun p => f p.2 p.1).

(** A program that does not touch the request. *)
Definition run {A} (p : req -> prog A) : M A := fun r => bind (p r) (fun a => Ret (r, a)).

Definition get {A} (f : req -> A) : M A := fun r => Ret (r, f r).
Definition update (f : req -> req) : M unit := fun r => Ret (f r, tt).

Record screen := mkScreen { s_Text : string; KB : keyboard }.

(** Edits the console message, or sends a new one when there is none or it cannot be edited. *)
Definition show (s : screen) : M unit :=
  let text := capMessage (s_Text s) maxMessageRunes in
  let send : M unit :=
    r ← run (fun r => sendMessage (bot r) (uid r) text (KB s));
    match r with
    | Err e => run (fun _ => call (Warn "telegram console: could not send message" (Some e)))
    | Ok id => update (with_msg id)
    end in
  m ← get msgID;
  if m =? 0 then send
  else
    r ← run (fun r => editMessage (bot r) (uid r) m text (KB s));
    match r with
    | Ok _ => mret tt
    | Err e => if isNotModified e then mret tt else send
    end.

(** The tap is acknowledged once. *)
Definition answer : M unit :=
  id ← get cbID;
  if String.eqb id "" then mret tt
  else
    _ ← run (fun r => answerCallback (bot r) id (toast r));
    update (with_cb "").

Definition answerNow (text : string) : M unit :=
  _ ← update (with_toast text);
  answer.

Definition deleteIncoming : M unit :=
  id ← get inMsgID;
  if id =? 0 then mret tt
  else
    _ ← run (fun r => deleteMessage (bot r) (uid r) id);
    update (with_in 0).

Definition saveSess (s : session) : M session :=
  m ← get msgID;
  let s := mkSession (Mode s) (Step s) (User s) m (Draft s) in
  _ ← run (fun r => saveSession (uid r) s);
  mret s.

Definition clearSess : M unit := run (fun r => clearSession (uid r)).

Definition t (key : string) (args : list arg) : M string := get (fun r => tr (lang_of r) key args).

End Request.
Import Request.

(** ** Screens: [views.go] *)

Module Views.

Definition navRow (l : lang) (back : string) : list button :=
  ((if String.eqb back "" then [] else [btn (tr l "btn.back" []) back]) ++ [btn (tr l "btn.home" []) "h"])%list.

Definition errorScreen (l : lang) (msgHTML back : string) : screen := mkScreen ("❌ " ++ msgHTML) [navRow l back].

Definition failureScreen (l : lang) (f : trouble) (back : string) (userScope : bool) : screen :=
  let '(res, err) := f in
  if err : bool then errorScreen l (tr l "err.generic" []) back
  else if Status res =? 401 then errorScreen l (tr l "err.auth" []) back
  else if userScope && ((Status res =? 404) || (Status res =? 403)) then errorScreen l (tr l "err.usernotfound" []) back
  else if Status res =? 403 then errorScreen l (tr l "err.forbidden" []) back
  else
    let d := detail res in
    if String.eqb d "" then errorScreen l (tr l "err.generic" []) back else errorScreen l (escapeHTML d) back.

(** [r.failure(...)], with its line in the log. *)
Definition failure (f : trouble) (back : string) (userScope : bool) : M screen :=
  _ ← (if f.2 then run (fun _ => call (Warn "telegram console: api call failed" None)) else mret tt);
  get (fun r => failureScreen (lang_of r) f back userScope).

Definition show_failure (f : trouble) (back : string) (userScope : bool) : M unit :=
  s ← failure f back userScope;
  show s.

Definition statusEmoji (status : string) : string :=
  if String.eqb status "active" then "🟢"
  else if String.eqb status "disabled" then "🔴"
  else if String.eqb status "limited" then "🟠"
  else if String.eqb status "expired" then "⌛"
  else if String.eqb status "on_hold" then "⏸"
  else "⚪".

Definition statusLabel (l : lang) (status : string) : string :=
  if hasKey ("st." ++ status) then tr l ("st." ++ status) [] else escapeHTML status.

Definition roleLabel (l : lang) (w : principal) : string := tr l (if IsSudo w then "role.sudo" else "role.admin") [].

(** *** Home, help, language *)

Definition home : M unit :=
  s ← get (fun r =>
    let l := lang_of r in
    let b key data := btn (tr l key []) data in
    let rows :=
      if IsSudo (who r) then [[b "btn.newuser" "nu"; b "btn.nodes" "nd"]; [b "btn.backup" "bk"; b "btn.help" "hp"]]
      else [[b "btn.newuser" "nu"; b "btn.help" "hp"]] in
    mkScreen (tr l "home.title" [Str (escapeHTML (Username (who r))); Str (roleLabel l (who r))])
      ([[b "btn.system" "sy"; b "btn.users" "us"]] ++ rows ++ [[b "btn.lang" "lg"]])%list);
  show s.

Definition help : M unit :=
  s ← get (fun r =>
    let l := lang_of r in
    mkScreen (tr l "help.body" [] ++ (if IsSudo (who r) then nl ++ tr l "help.sudo" [] else "")) [navRow l ""]);
  show s.

Definition toggleLang : M unit :=
  _ ← update (fun r => with_lang (match lang_of r with langFA => langEN | langEN => langFA end) r);
  _ ← run (fun r => saveLang (uid r) (lang_of r));
  home.

(** *** System *)

Definition listNodes (w : principal) : prog (result trouble (list nodeDTO)) :=
  fetch w "GET" "/api/nodes" None (Decode.slice node zero_node) [].

Definition monitoring (w : principal) : prog (option (list hostDTO)) :=
  r ← fetch w "GET" "/api/monitoring" None monitoringDTO [];
  mret match r with Ok m => Some m | Err _ => None end.

Definition connectedNodes (nodes : list nodeDTO) : Z :=
  Z.of_nat (length (List.filter (fun n => String.eqb (n_Status n) "connected") nodes)).

Definition tunnelsDown (hosts : list hostDTO) : Z :=
  Z.of_nat (length (List.filter (fun t => negb (Up t) || negb (Present t)) (concat (map Tunnels hosts)))).

Definition panelLine (l : lang) (s : systemStats) : string :=
  if 0 <? MemTotal s then
    nl ++ tr l "sys.panel" [Str (fixed 0 (CPUUsage s) ++ "%"); Str (formatBytes (MemUsed s)); Str (formatBytes (MemTotal s))] ++ nl
  else "".

Definition panelAndNodesSummary (s : systemStats) : M string :=
  l ← get lang_of;
  nodes ← run (fun r => listNodes (who r));
  match nodes with
  | Err _ => mret (panelLine l s)
  | Ok nodes =>
      mon ← run (fun r => monitoring (who r));
      let tunnels :=
        match mon with
        | Some hosts =>
            let down := tunnelsDown hosts in
            if 0 <? down then tr l "sys.tunnels_bad" [Int down] ++ nl
            else match hosts with [] => "" | _ => tr l "sys.tunnels_ok" [] ++ nl end
        | None => ""
        end in
      mret (panelLine l s ++ tr l "sys.nodes" [Int (connectedNodes nodes); Int (Z.of_nat (length nodes))] ++ nl ++ tunnels)
  end.

Definition system : M unit :=
  l ← get lang_of;
  s ← run (fun r => fetch (who r) "GET" "/api/system" None stats zero_stats);
  match s with
  | Err f => show_failure f "h" false
  | Ok s =>
      sudo ← get (fun r => IsSudo (who r));
      let head := tr l "sys.title" [] ++ (if sudo : bool then "" else " " ++ tr l "sys.own_only" []) ++ nl ++ nl ++
        tr l "sys.users" [Int64 (TotalUser s)] ++ nl ++
        tr l "sys.by_status" [Int64 (UsersActive s); Int64 (UsersDisabled s); Int64 (UsersLimited s); Int64 (UsersExpired s); Int64 (UsersOnHold s)] ++ nl ++
        tr l "sys.online" [Int64 (OnlineUsers s)] ++ nl in
      tail ← (if sudo : bool then
                rest ← panelAndNodesSummary s;
                mret (tr l "sys.traffic" [Str (formatBytes (IncomingBandwidth s)); Str (formatBytes (OutgoingBandwidth s))] ++ nl ++
                  (if (0 <? IncomingBandwidthSpeed s) || (0 <? OutgoingBandwidthSpeed s) then
                     tr l "sys.speed" [Str (formatBytes (IncomingBandwidthSpeed s)); Str (formatBytes (OutgoingBandwidthSpeed s))] ++ nl
                   else "") ++ rest)
              else mret "");
      show (mkScreen (trim_right_byte "010" (head ++ tail)) [[btn (tr l "btn.refresh" []) "sy"]; navRow l ""])
  end.

(** *** Nodes *)

Definition nodeEmoji (status : string) : string :=
  if String.eqb status "connected" then "🟢"
  else if String.eqb status "connecting" then "🟡"
  else if String.eqb status "error" then "🔴"
  else "⚪".

Definition nodeStatus (l : lang) (status : string) : string :=
  if hasKey ("ns." ++ status) then tr l ("ns." ++ status) [] else escapeHTML status.

Definition percentPart (name : string) (x : option float64) : list string :=
  match x with Some x => [name ++ " " ++ fixed 0 x ++ "%"] | None => [] end.

Definition hostLine (h : hostDTO) : string :=
  Join (percentPart "CPU" (CPUPercent h) ++ percentPart "RAM" (MemPercent h) ++ percentPart "Disk" (DiskPercent h) ++
        match RxRate h, TxRate h with
        | Some rx, Some tx => ["↓" +:+ formatBytes rx +:+ "/s ↑" +:+ formatBytes tx +:+ "/s"]
        | _, _ => []
        end)%list " · ".

(** [int(math.Max(seconds, 0))], for ages below the range of an [int]. *)
Definition shortAge (seconds : float64) : string :=
  let s := Z.max (Trunc seconds) 0 in
  if s <? 90 then Itoa s ++ "s"
  else if s <? 5400 then Itoa (s / 60) ++ "m"
  else if s <? 172800 then Itoa (s / 3600) ++ "h"
  else Itoa (s / 86400) ++ "d".

Definition tunnelText (l : lang) (x : tunnelDTO) : string :=
  let name := escapeHTML (truncateRunes (t_Name x) 20) in
  if negb (Present x) then "❌ " ++ name ++ " (" ++ tr l "wg.missing" [] ++ ")"
  else if negb (Up x) then "❌ " ++ name ++ " (" ++ tr l "wg.down" [] ++ ")"
  else match HandshakeAgeSeconds x with
       | Some a => "✅ " ++ name ++ " (" ++ shortAge a ++ ")"
       | None => "✅ " ++ name
       end.

Definition tunnelLine (l : lang) (tunnels : list tunnelDTO) : string :=
  match tunnels with
  | [] => ""
  | _ => "   🔐 WireGuard: " ++ Join (map (tunnelText l) tunnels) " · "
  end.

Definition line (s : string) : string := if String.eqb s "" then "" else s ++ nl.

(** The host of a node is the last reported under its id; the panel's is the last without one. *)
Definition host_of (id : option Z) (hosts : list hostDTO) : option hostDTO :=
  List.find (fun h => bool_decide (NodeID h = id)) (rev hosts).

Definition nodeBlock (l : lang) (mon : option (list hostDTO)) (n : nodeDTO) : string :=
  nl ++ nodeEmoji (n_Status n) ++ " <b>" ++ escapeHTML (truncateRunes (n_Name n) 40) ++ "</b> · <code>" ++
  escapeHTML (truncateRunes (Address n) 60) ++ "</code>" ++ nl ++
  "   " ++ tr l "nodes.status" [Str (nodeStatus l (n_Status n))] ++
  match XrayVersion n with
  | Some v => if String.eqb v "" then "" else " · xray " ++ escapeHTML (truncateRunes v 20)
  | None => ""
  end ++ nl ++
  match n_Message n with
  | Some m => if negb (String.eqb (n_Status n) "connected") && negb (String.eqb m "") then "   ⚠️ " ++ escapeHTML (truncateRunes m 120) ++ nl else ""
  | None => ""
  end ++
  match mon with
  | Some hosts =>
      match host_of (Some (n_ID n)) hosts with
      | Some h =>
          (if HasMetrics h then "   " ++ hostLine h ++ nl else "") ++
          (if Stale h then "   " ++ tr l "nodes.stale" [] ++ nl else "") ++
          line (tunnelLine l (Tunnels h))
      | None => "   " ++ tr l "nodes.nometrics" [] ++ nl
      end
  | None => ""
  end.

(** Nodes are listed while they fit in a message. *)
Fixpoint nodeBlocks (l : lang) (mon : option (list hostDTO)) (b : string) (nodes : list nodeDTO) : string :=
  match nodes with
  | [] => b
  | n :: rest =>
      let blk := nodeBlock l mon n in
      if (maxMessageRunes - 200 <? RuneCount b + RuneCount blk)%nat then b ++ nl ++ tr l "nodes.more" [Int (Z.of_nat (length nodes))]
      else nodeBlocks l mon (b ++ blk) rest
  end.

Definition nodesText (l : lang) (nodes : list nodeDTO) (mon : option (list hostDTO)) : string :=
  let head := tr l "nodes.title" [] ++ nl ++
    match mon ≫= host_of None with
    | Some h => if HasMetrics h then nl ++ tr l "nodes.panel_line" [] ++ " " ++ hostLine h ++ nl ++ line (tunnelLine l (Tunnels h)) else ""
    | None => ""
    end ++ (match nodes with [] => nl ++ tr l "nodes.none" [] | _ => "" end) in
  nodeBlocks l mon head nodes.

Definition nodes : M unit :=
  l ← get lang_of;
  ns ← run (fun r => listNodes (who r));
  match ns with
  | Err f => show_failure f "h" false
  | Ok ns =>
      mon ← run (fun r => monitoring (who r));
      show (mkScreen (trim_right_byte "010" (nodesText l ns mon)) [[btn (tr l "btn.refresh" []) "nd"]; navRow l ""])
  end.

(** *** Users: menu, list, search *)

Definition filters : list (string * string) :=
  [("*", ""); ("ac", "active"); ("di", "disabled"); ("li", "limited"); ("ex", "expired"); ("oh", "on_hold")].

Definition filterStatus (code : string) : option string := I18n.lookup code filters.

Definition filterLabel (l : lang) (code : string) : string :=
  if String.eqb code "*" then tr l "flt.all" []
  else let s := default "" (filterStatus code) in statusEmoji s ++ " " ++ tr l ("st." ++ s) [].

Definition count_of (s : systemStats) (code : string) : Z :=
  if String.eqb code "*" then TotalUser s
  else if String.eqb code "ac" then UsersActive s
  else if String.eqb code "di" then UsersDisabled s
  else if String.eqb code "li" then UsersLimited s
  else if String.eqb code "ex" then UsersExpired s
  else UsersOnHold s.

Definition usersMenu : M unit :=
  l ← get lang_of;
  s ← run (fun r => fetch (who r) "GET" "/api/system" None stats zero_stats);
  let label code :=
    filterLabel l code ++ match s with Ok s => " (" ++ Itoa (count_of s code) ++ ")" | Err _ => "" end in
  let b code := btn (label code) ("l:" ++ code ++ ":0") in
  show (mkScreen (tr l "users.menu" [])
    [[b "*"]; [b "ac"; b "di"]; [b "li"; b "ex"]; [b "oh"]; [btn (tr l "btn.newuser" []) "nu"]; navRow l ""]).

Definition searchQueryBytes : nat := 40.

Definition userRowLabel (u : userDTO) : string :=
  let limit := match DataLimit u with Some d => if 0 <? d then formatBytes d else "∞" | None => "∞" end in
  statusEmoji (u_Status u) ++ " " ++ u_Username u ++ " · " ++ formatBytes (UsedTraffic u) ++ "/" ++ limit.

Definition listButton (filter : string) (p : Z) (query : string) : string :=
  "l:" ++ filter ++ ":" ++ Itoa p ++ (if String.eqb query "" then "" else ":" ++ truncateBytes query searchQueryBytes).

Definition pagesOf (pg : usersPage) : Z := Z.quot (int64 (Total pg + pageSize - 1)) pageSize.

Definition pager (filter : string) (page pages : Z) (query : string) : keyboard :=
  if 1 <? pages then
    [((if (0 <? page)%Z then [btn "‹" (listButton filter (page - 1) query)] else []) ++
      [btn (Itoa (page + 1) +:+ "/" +:+ Itoa pages) "nop"] ++
      (if (page + 1 <? pages)%Z then [btn "›" (listButton filter (page + 1) query)] else []))%list]
  else [].

Definition listScreen (l : lang) (filter : string) (page pages : Z) (query : string) (pg : usersPage) : screen :=
  mkScreen
    ((if String.eqb query "" then tr l "list.title" [Str (filterLabel l filter)]
      else tr l "list.search_title" [Str (escapeHTML query)]) ++ nl ++
     (if Total pg =? 0 then tr l "list.empty" [] else tr l "list.count" [Int (Total pg); Int (page + 1); Int pages]))
    (map (fun u => [btn (userRowLabel u) ("u:" ++ u_Username u)]) (Users pg) ++ pager filter page pages query ++ [navRow l "us"])%list.

(** A page past the end is replaced by the last one, whose size the first answer tells. *)
Definition listPage (filter : string) (page : Z) (query : string) : M unit :=
  let '(filter, status) := match filterStatus filter with Some s => (filter, s) | None => ("*", "") end in
  l ← get lang_of;
  pg ← run (fun r => listUsers (who r) status query page);
  match pg with
  | Err f => show_failure f "us" false
  | Ok pg =>
      let pages := pagesOf pg in
      if match Users pg with [] => true | _ => false end && (0 <? page) && (0 <? pages) then
        let page := pages - 1 in
        pg ← run (fun r => listUsers (who r) status query page);
        match pg with
        | Err f => show_failure f "us" false
        | Ok pg => show (listScreen l filter page pages query pg)
        end
      else show (listScreen l filter page pages query pg)
  end.

(** [fmt.Sscanf(s, "%d", &page)] on a page of 0. *)
Definition Sscan_d (s : string) : Z :=
  let t := trim_left (String.length s) s in
  if Contains (stake (String.length s - String.length t) s) nl then 0
  else
    let '(neg, u) := MySQLDump.strip_sign t in
    match parse_nat (fst (span is_digit u)) with
    | Some n => let n := if neg : bool then - n else n in if bool_decide (fits 64 n) then n else 0
    | None => 0
    end.

Definition listFromCallback (rest : string) : M unit :=
  match cut ":" rest with
  | (_, None) => usersMenu
  | (filter, Some rest) =>
      let '(page, query) := cut ":" rest in
      listPage filter (Z.max 0 (Sscan_d page)) (default "" query)
  end.

(** *** The card of a user *)

Definition maxCardLinks : nat := 6.

Definition ago (l : lang) (now at_ : Z) : string :=
  let d := now - at_ in
  let minute := 60 * second in
  if d <? minute then tr l "ago.now" []
  else if d <? 60 * minute then tr l "ago.min" [Int (d / minute)]
  else if d <? 48 * 60 * minute then tr l "ago.hour" [Int (d / (60 * minute))]
  else tr l "ago.day" [Int (d / (24 * 60 * minute))].

(** The day of a time in seconds, [2006-01-02]. *)
Definition day_text (secs : Z) : string :=
  let '(y, m, d) := civil_from_days (secs / 86400) in
  (if (0 <=? y) && (y <=? 9999) then four y else Itoa y) ++ "-" ++ two m ++ "-" ++ two d.

Definition positive (o : option Z) : option Z := match o with Some z => if 0 <? z then Some z else None | None => None end.

Definition ceilDays (secs : Z) : Z := Ceil (fdiv (of_int secs) (of_int 86400)).

Definition usageLines (l : lang) (u : userDTO) : string :=
  match positive (DataLimit u) with
  | Some limit =>
      progressBar (UsedTraffic u) limit 12 ++ " " ++ Itoa (usagePercent (UsedTraffic u) limit) ++ "%" ++ nl ++
      tr l "card.usage" [Str (formatBytes (UsedTraffic u)); Str (formatBytes limit)] ++ nl
  | None => tr l "card.usage" [Str (formatBytes (UsedTraffic u)); Str (tr l "card.unlimited" [])] ++ nl
  end.

Definition onHold (u : userDTO) : option Z := if String.eqb (u_Status u) "on_hold" then positive (OnHoldExpireDuration u) else None.

Definition expiryLine (l : lang) (now : Z) (u : userDTO) : string :=
  match onHold u, positive (Expire u) with
  | Some d, _ => tr l "card.onhold" [Int (ceilDays d)] ++ nl
  | None, Some e =>
      let d := daysLeft e (Unix now) in
      tr l "card.expire" [Str (day_text e); Str (if 0 <=? d then tr l "card.days_left" [Int d] else tr l "card.expired_ago" [Int (- d)])] ++ nl
  | None, None => tr l "card.expire_never" [] ++ nl
  end.

Definition nonempty (o : option string) : option string := match o with Some s => if String.eqb s "" then None else Some s | None => None end.

(** [later] is the clock when the last connection is told. *)
Definition cardText (l : lang) (now later : Z) (u : userDTO) (notice : string) : string :=
  let head :=
    (if String.eqb notice "" then "" else "<i>" ++ notice ++ "</i>" ++ nl ++ nl) ++
    "👤 <b>" ++ escapeHTML (u_Username u) ++ "</b> · " ++ statusEmoji (u_Status u) ++ " " ++ statusLabel l (u_Status u) ++ nl ++
    usageLines l u ++ expiryLine l now u ++
    match OnlineAt u with Some t => tr l "card.online" [Str (ago l later t)] | None => tr l "card.online_never" [] end ++ nl ++
    tr l "card.owner" [Str match nonempty (Admin u) with
                           | Some a => "<code>" ++ escapeHTML a ++ "</code>"
                           | None => tr l "card.owner_none" []
                           end] ++ nl ++
    match nonempty (Note u) with Some n => tr l "card.note" [Str (escapeHTML (truncateRunes n 300))] ++ nl | None => "" end ++
    match nonempty (SyncedFromPanelName u) with Some p => tr l "card.synced" [Str (escapeHTML p)] ++ nl | None => "" end in
  match links u with
  | [] => head ++ nl ++ tr l "card.nolinks" []
  | ls => trim_right_byte "010" (head ++ nl ++ tr l "card.links" [] ++ nl ++
            String.concat "" (map (fun x => "<code>" ++ escapeHTML x ++ "</code>" ++ nl) (take maxCardLinks ls)))
  end.

Definition cardKeyboard (l : lang) (u : userDTO) : keyboard :=
  let n := u_Username u in
  let b key op := btn (tr l key []) (op ++ ":" ++ n) in
  [[(if String.eqb (u_Status u) "disabled" then b "act.enable" "t" else b "act.disable" "t"); b "act.reset" "rs"];
   [b "act.extend" "ex"; b "act.data" "dt"];
   [b "act.qr" "qr"; b "act.note" "nt"];
   [b "act.revoke" "rv"; b "act.delete" "dl"];
   navRow l "us"].

Definition showUser (u : userDTO) (notice : string) : M unit :=
  l ← get lang_of;
  now ← run (fun _ => call Now);
  later ← run (fun _ => match OnlineAt u with Some _ => call Now | None => Ret now end);
  show (mkScreen (cardText l now later u notice) (cardKeyboard l u)).

Definition userCard (name notice : string) : M unit :=
  u ← run (fun r => getUser (who r) name);
  match u with
  | Err f => show_failure f "us" true
  | Ok u => showUser u notice
  end.

(** A name, or a part of one. *)
Definition search (text : string) : M unit :=
  let query := truncateBytes text searchQueryBytes in
  exact ← (if validUsername query then
             u ← run (fun r => getUser (who r) query);
             mret match u with Ok u => Some u | Err _ => None end
           else mret None);
  match exact with
  | Some u => showUser u ""
  | None =>
      pg ← run (fun r => listUsers (who r) "" query 0);
      match pg with
      | Err f => show_failure f "h" false
      | Ok pg =>
          single ← match Users pg with
                   | [only] =>
                       if Total pg =? 1 then
                         u ← run (fun r => getUser (who r) (u_Username only));
                         mret match u with Ok u => Some u | Err _ => None end
                       else mret None
                   | _ => mret None
                   end;
          match single with
          | Some u => showUser u ""
          | None => listPage "*" 0 query
          end
      end
  end.

End Views.
Import Views.

(** ** What buttons and typed answers do: [actions.go] *)

Module Actions.

Definition bold (name : string) : string := "<b>" ++ escapeHTML name ++ "</b>".

Definition confirmScreen (l : lang) (key name yesData : string) : screen :=
  mkScreen (tr l key [Str (bold name)])
    [[btn (tr l "btn.yes" []) yesData; btn (tr l "btn.cancel" []) ("u:" ++ name)]; [btn (tr l "btn.home" []) "h"]].

Definition part (n : nat) (parts : list string) : string := nth n parts "".

Definition isConfirmed (parts : list string) : bool := String.eqb (part 1 parts) "y".

(** Continues with the user of a name, or says why not. *)
Definition with_user (name : string) (k : userDTO -> M unit) : M unit :=
  u ← run (fun r => getUser (who r) name);
  match u with
  | Err f => show_failure f "us" true
  | Ok u => k u
  end.

Definition toggleUser (name : string) : M unit :=
  with_user name (fun u =>
    let off := String.eqb (u_Status u) "disabled" in
    notice ← t (if off then "done.enabled" else "done.disabled") [];
    updated ← run (fun r => modifyUser (who r) u {[ "status" := JString (if off then "active" else "disabled") ]});
    match updated with
    | Err f => show_failure f ("u:" ++ name) true
    | Ok updated =>
        _ ← update (with_toast notice);
        showUser updated notice
    end).

(** A user route that answers with the updated user. *)
Definition postUser (name action notice : string) : M unit :=
  u ← run (fun r => fetch (who r) "POST" (userPath name ++ "/" ++ action) None user zero_dto);
  match u with
  | Err f => show_failure f ("u:" ++ name) true
  | Ok u =>
      _ ← update (with_toast notice);
      showUser u notice
  end.

Definition resetUsage (parts : list string) : M unit :=
  let name := part 0 parts in
  if negb (isConfirmed parts) then s ← get (fun r => confirmScreen (lang_of r) "confirm.reset" name ("rs:" ++ name ++ ":y")); show s
  else notice ← t "done.reset" []; postUser name "reset" notice.

Definition revokeSub (parts : list string) : M unit :=
  let name := part 0 parts in
  if negb (isConfirmed parts) then s ← get (fun r => confirmScreen (lang_of r) "confirm.revoke" name ("rv:" ++ name ++ ":y")); show s
  else notice ← t "done.revoked" []; postUser name "revoke_sub" notice.

Definition deleteUser (parts : list string) : M unit :=
  let name := part 0 parts in
  if negb (isConfirmed parts) then s ← get (fun r => confirmScreen (lang_of r) "confirm.delete" name ("dl:" ++ name ++ ":y")); show s
  else
    res ← run (fun r => request (who r) "DELETE" (userPath name) None);
    match res with
    | Err f => show_failure f "us" true
    | Ok _ =>
        l ← get lang_of;
        _ ← update (with_toast (tr l "done.deleted" []));
        show (mkScreen (tr l "done.deleted_user" [Str (bold name)]) [navRow l "us"])
    end.

(** *** More days, more data *)

Definition promptScreen (l : lang) (text back : string) : screen := mkScreen text [navRow l back].

Definition no_session : session := mkSession "" "" "" 0 no_draft.

(** Waits for a typed answer about a user. *)
Definition await (mode name prompt back : string) : M unit :=
  _ ← saveSess (mkSession mode "" name 0 no_draft);
  s ← get (fun r => promptScreen (lang_of r) (tr (lang_of r) prompt []) back);
  show s.

(** Refuses the typed answer and waits for another. *)
Definition again (s : session) (problem prompt back : string) : M unit :=
  _ ← saveSess s;
  scr ← get (fun r => let l := lang_of r in promptScreen l ("❌ " ++ tr l problem [] ++ nl ++ nl ++ tr l prompt []) back);
  show scr.

(** What an extension by [days] changes: the length of a hold, or the expiry, counted from
    now when it is over. *)
Definition extended (u : userDTO) (days : Z) (now : Z) : option (gmap string json) :=
  let add := days * 86400 in
  match onHold u, positive (Expire u) with
  | Some d, _ => Some {[ "on_hold_expire_duration" := JInt (int64 (d + add)) ]}
  | None, Some e => Some {[ "expire" := JInt (int64 (Z.max e now + add)) ]}
  | None, None => None
  end.

Definition applyExtend (name : string) (days : Z) : M unit :=
  with_user name (fun u =>
    l ← get lang_of;
    now ← run (fun _ => match onHold u, positive (Expire u) with
                        | None, Some _ => call Now
                        | _, _ => Ret 0
                        end);
    match extended u days (Unix now) with
    | None => showUser u (tr l "ext.unlimited" [])
    | Some fields =>
        updated ← run (fun r => modifyUser (who r) u fields);
        match updated with
        | Err f => show_failure f ("u:" ++ name) true
        | Ok updated =>
            let notice := tr l "done.extended" [Int days] in
            _ ← update (with_toast notice);
            showUser updated notice
        end
    end).

Definition extend (parts : list string) : M unit :=
  let name := part 0 parts in
  let arg := part 1 parts in
  if String.eqb arg "" then
    s ← get (fun r =>
      let l := lang_of r in
      let b n := btn ("+" ++ n) ("ex:" ++ name ++ ":" ++ n) in
      mkScreen (tr l "ext.title" [Str (bold name)])
        [[b "7"; b "30"; b "90"]; [btn (tr l "btn.custom" []) ("ex:" ++ name ++ ":c")]; navRow l ("u:" ++ name)]);
    show s
  else if String.eqb arg "c" then await modeExtend name "ext.prompt" ("ex:" ++ name)
  else match parseDays arg false with
       | None => userCard name ""
       | Some days => applyExtend name days
       end.

Definition customExtend (s : session) (text : string) : M unit :=
  match parseDays text false with
  | None => again s "in.num_invalid" "ext.prompt" ("ex:" ++ User s)
  | Some days =>
      _ ← clearSess;
      applyExtend (User s) days
  end.

Definition applyData (name : string) (add : Z) : M unit :=
  with_user name (fun u =>
    l ← get lang_of;
    match positive (DataLimit u) with
    | None => showUser u (tr l "dat.unlimited" [])
    | Some limit =>
        updated ← run (fun r => modifyUser (who r) u {[ "data_limit" := JInt (int64 (limit + add)) ]});
        match updated with
        | Err f => show_failure f ("u:" ++ name) true
        | Ok updated =>
            let notice := tr l "done.data" [Str (formatBytes add)] in
            _ ← update (with_toast notice);
            showUser updated notice
        end
    end).

Definition addData (parts : list string) : M unit :=
  let name := part 0 parts in
  let arg := part 1 parts in
  if String.eqb arg "" then
    s ← get (fun r =>
      let l := lang_of r in
      let b n := btn ("+" ++ n ++ " GB") ("dt:" ++ name ++ ":" ++ n) in
      mkScreen (tr l "dat.title" [Str (bold name)])
        [[b "5"; b "10"; b "50"]; [btn (tr l "btn.custom" []) ("dt:" ++ name ++ ":c")]; navRow l ("u:" ++ name)]);
    show s
  else if String.eqb arg "c" then await modeData name "dat.prompt" ("dt:" ++ name)
  else match parseGB arg false with
       | None => userCard name ""
       | Some add => applyData name add
       end.

Definition customData (s : session) (text : string) : M unit :=
  match parseGB text false with
  | None => again s "in.num_invalid" "dat.prompt" ("dt:" ++ User s)
  | Some add =>
      _ ← clearSess;
      applyData (User s) add
  end.

(** *** The note *)

Definition maxNoteBytes : nat := 500.

Definition askNote (name : string) : M unit := await modeNote name "note.prompt" ("u:" ++ name).

Definition setNote (s : session) (text : string) : M unit :=
  if (maxNoteBytes <? String.length text)%nat then again s "note.toolong" "note.prompt" ("u:" ++ User s)
  else
    let note := if String.eqb text "-" then "" else text in
    u ← run (fun r => getUser (who r) (User s));
    match u with
    | Err f =>
        _ ← clearSess;
        show_failure f "us" true
    | Ok u =>
        updated ← run (fun r => modifyUser (who r) u {[ "note" := JString note ]});
        _ ← clearSess;
        match updated with
        | Err f => show_failure f ("u:" ++ User s) true
        | Ok updated =>
            notice ← t "done.note" [];
            showUser updated notice
        end
    end.

(** *** The QR code of a subscription *)

(** The QR library: a picture of a text, when it fits. *)
Class Qr := qrPNG : string -> option string.

Section actions.
Context `{Qr}.

(** Sends the code of the first address, if there is one and it can be drawn and sent. *)
Definition sendQR (u : userDTO) : M bool :=
  match links u with
  | [] => mret false
  | link :: _ =>
      match qrPNG link with
      | None =>
          _ ← run (fun _ => call (Warn "telegram console: could not render QR" None));
          mret false
      | Some png =>
          sent ← run (fun r => sendPhoto (bot r) (uid r) png (bold (u_Username u)));
          match sent with
          | Err e =>
              _ ← run (fun _ => call (Warn "telegram console: could not send QR" (Some e)));
              mret false
          | Ok _ => mret true
          end
      end
  end.

Definition qr (name : string) : M unit :=
  with_user name (fun u =>
    sent ← sendQR u;
    toast ← t (if sent : bool then "done.qr" else "card.nolinks_short") [];
    update (with_toast toast)).

(** *** The new-user wizard *)

Definition with_step (step : string) (s : session) : session := mkSession (Mode s) step (User s) (Msg s) (Draft s).
Definition with_draft (d : draft) (s : session) : session := mkSession (Mode s) (Step s) (User s) (Msg s) d.

Definition set_name (n : string) (d : draft) : draft :=
  mkDraft n (HasTmpl d) (TmplID d) (TmplName d) (Prefix d) (Suffix d) (LimitBytes d) (ExpireSecs d) (Inbounds d).
Definition set_has (b : bool) (d : draft) : draft :=
  mkDraft (Name d) b (TmplID d) (TmplName d) (Prefix d) (Suffix d) (LimitBytes d) (ExpireSecs d) (Inbounds d).
Definition set_limit (l : Z) (d : draft) : draft :=
  mkDraft (Name d) (HasTmpl d) (TmplID d) (TmplName d) (Prefix d) (Suffix d) l (ExpireSecs d) (Inbounds d).
Definition set_life (e : Z) (d : draft) : draft :=
  mkDraft (Name d) (HasTmpl d) (TmplID d) (TmplName d) (Prefix d) (Suffix d) (LimitBytes d) e (Inbounds d).

(** What a template puts into the draft. *)
Definition from_template (x : templateDTO) (d : draft) : draft :=
  mkDraft (Name d) (HasTmpl d) (tm_ID x) (tm_Name x) (default "" (UsernamePrefix x)) (default "" (UsernameSuffix x))
    (tm_DataLimit x) (ExpireDuration x) (tm_Inbounds x).

Definition finalUsername (d : draft) : string := Prefix d ++ Name d ++ Suffix d.

Definition templates (w : principal) : prog (result trouble (list templateDTO)) :=
  fetch w "GET" "/api/user_template" None (Decode.slice template zero_template) [].

Definition days_up (secs : Z) : Z := Z.quot (int64 (secs + 86399)) 86400.

Definition templateLabel (l : lang) (x : templateDTO) : string :=
  truncateRunes (tm_Name x) 24 ++ " · " ++
  (if 0 <? tm_DataLimit x then formatBytes (tm_DataLimit x) else "∞") ++ " · " ++
  (if 0 <? ExpireDuration x then tr l "nu.days_short" [Int64 (days_up (ExpireDuration x))] else "∞").

Definition sortedKeys {A} (m : gmap string A) : list string := map fst (by_name m).

Definition wizardSummary (l : lang) (d : draft) : string :=
  tr l "nu.confirm" [] ++ nl ++
  "👤 <code>" ++ escapeHTML (finalUsername d) ++ "</code>" ++ nl ++
  (if TmplID d =? 0 then "" else tr l "nu.summary_tmpl" [Str (escapeHTML (truncateRunes (TmplName d) 40))] ++ nl) ++
  tr l "nu.summary_limit" [Str (if 0 <? LimitBytes d then formatBytes (LimitBytes d) else tr l "card.unlimited" [])] ++ nl ++
  tr l "nu.summary_life" [Str (if 0 <? ExpireSecs d then tr l "nu.days_short" [Int64 (days_up (ExpireSecs d))] else tr l "card.unlimited" [])] ++
  match sortedKeys (Inbounds d) with
  | [] => ""
  | ps => nl ++ tr l "nu.summary_protocols" [Str (escapeHTML (Join ps ", "))]
  end.

Definition wizardScreen (s : session) (notice : string) : M screen :=
  l ← get lang_of;
  let prefix := if String.eqb notice "" then "" else notice ++ nl ++ nl in
  let d := Draft s in
  let name := "<code>" ++ escapeHTML (Name d) ++ "</code>" in
  let b kind text n := btn text ("nu:" ++ kind ++ ":" ++ n) in
  if String.eqb (Step s) stepTmpl then
    ts ← run (fun r => templates (who r));
    match ts with
    | Err f => failure f "h" false
    | Ok ts =>
        mret (mkScreen (prefix ++ tr l "nu.tmpl" [Str name])
          (map (fun x => [b "t" (templateLabel l x) (Itoa (tm_ID x))]) (take 20 ts) ++
           [[b "t" (tr l "nu.no_tmpl" []) "0"]; navRow l "nu:b"])%list)
    end
  else if String.eqb (Step s) stepLimit then
    mret (mkScreen (prefix ++ tr l "nu.limit" [Str name])
      [[b "l" "∞" "0"; b "l" "5" "5"; b "l" "10" "10"]; [b "l" "20" "20"; b "l" "50" "50"; b "l" "100" "100"]; navRow l "nu:b"])
  else if String.eqb (Step s) stepDays then
    mret (mkScreen (prefix ++ tr l "nu.days" [Str name])
      [[b "d" "∞" "0"; b "d" "7" "7"; b "d" "30" "30"]; [b "d" "60" "60"; b "d" "90" "90"; b "d" "180" "180"]; [b "d" "365" "365"];
       navRow l "nu:b"])
  else if String.eqb (Step s) stepConfirm then
    mret (mkScreen (prefix ++ wizardSummary l d) [[btn (tr l "nu.create" []) "nu:ok"]; navRow l "nu:b"])
  else mret (mkScreen (prefix ++ tr l "nu.name" []) [navRow l ""]).

(** Keeps the session and shows its step. *)
Definition keep (s : session) (notice : string) : M unit :=
  s ← saveSess s;
  scr ← wizardScreen s notice;
  show scr.

Definition previousStep (s : session) : string :=
  if String.eqb (Step s) stepTmpl then stepName
  else if String.eqb (Step s) stepLimit then if HasTmpl (Draft s) then stepTmpl else stepName
  else if String.eqb (Step s) stepDays then stepLimit
  else if String.eqb (Step s) stepConfirm then if TmplID (Draft s) =? 0 then stepDays else stepTmpl
  else "".

(** [strconv.Atoi] of an identifier; [None] for an error or a negative number. *)
Definition template_id (arg : string) : option Z :=
  id ← ParseInt arg;
  if bool_decide (fits 64 id) && (0 <=? id) then Some id else None.

Definition wizardTemplate (s : session) (arg : string) : M unit :=
  match template_id arg with
  | None => scr ← wizardScreen s ""; show scr
  | Some id =>
      if id =? 0 then
        keep (with_step stepLimit (with_draft (set_has (HasTmpl (Draft s)) (set_name (Name (Draft s)) no_draft)) s)) ""
      else
        res ← run (fun r => call (Panel (who r) "GET" ("/api/user_template/" ++ Itoa id) None));
        match res with
        | None => show_failure (no_result, true) "nu:b" false
        | Some res =>
            match (if ok res then decode template zero_template res else None) with
            | None => show_failure (res, false) "nu:b" false
            | Some x => keep (with_step stepConfirm (with_draft (from_template x (Draft s)) s)) ""
            end
        end
  end.

(** Text typed at a step. *)
Definition wizardInput (s : session) (text : string) : M unit :=
  l ← get lang_of;
  let bad key := keep s ("❌ " ++ tr l key []) in
  if String.eqb (Step s) stepName then
    if negb (validUsername text) then bad "nu.name_invalid"
    else
      ts ← run (fun r => templates (who r));
      match ts with
      | Err f => show_failure f "h" false
      | Ok ts =>
          let has := match ts with [] => false | _ => true end in
          keep (with_step (if has then stepTmpl else stepLimit) (with_draft (set_has has (set_name text (Draft s))) s)) ""
      end
  else if String.eqb (Step s) stepLimit then
    match parseGB text true with
    | None => bad "in.num_invalid"
    | Some limit => keep (with_step stepDays (with_draft (set_limit limit (Draft s)) s)) ""
    end
  else if String.eqb (Step s) stepDays then
    match parseDays text true with
    | None => bad "in.num_invalid"
    | Some days => keep (with_step stepConfirm (with_draft (set_life (days * 86400) (Draft s)) s)) ""
    end
  else keep s (tr l "nu.usebuttons" []).

(** The protocols of a new user, or [true] when no inbound is there and [false] when they
    could not be read. *)
Definition creationProxies (w : principal) (d : draft) : prog (result bool (gmap string json)) :=
  protocols ←
    match sortedKeys (Inbounds d) with
    | [] =>
        r ← fetch w "GET" "/api/inbounds" None (Decode.map_of (Decode.slice Decode.raw None) []) ∅;
        mret match r with
             | Err _ => Err false
             | Ok m => match filter (fun kv => kv.2 <> []) (map_to_list m) with
                       | [] => Err true
                       | l => Ok (map fst l)
                       end
             end
    | ps => mret (Ok ps)
    end;
  match protocols with
  | Err e => mret (Err e)
  | Ok ps =>
      vals ← call Settings;
      let flow := match vals with Some v => Integration.TelegramDefaultVlessFlow v | None => "" end in
      let settings p := if String.eqb p "vless" && negb (String.eqb flow "") then JObject [("flow", JString flow)] else JObject [] in
      mret (Ok (list_to_map (map (fun p => (p, settings p)) ps)))
  end.

(** Keeps the session and offers another name. *)
Definition wizardFailure (l : lang) (s : screen) : screen :=
  mkScreen (s_Text s) ([btn (tr l "nu.change_name" []) "nu:n"] :: KB s).

Definition show_wizard_failure (f : trouble) : M unit :=
  s ← failure f "nu:b" false;
  l ← get lang_of;
  show (wizardFailure l s).

(** The body that creates the user of a draft. *)
Definition creation (d : draft) (proxies : gmap string json) (expire : option Z) : gmap string json :=
  let m : gmap string json := <["username" := JString (finalUsername d)]> {[ "proxies" := map_json proxies ]} in
  let m := if 0 <? LimitBytes d then <["data_limit" := JInt (LimitBytes d)]> m else m in
  let m := match expire with Some e => <["expire" := JInt e]> m | None => m end in
  if bool_decide (Inbounds d = ∅) then m else <["inbounds" := to_json (Inbounds d)]> m.

Definition wizardCreate (s : session) : M unit :=
  let d := Draft s in
  l ← get lang_of;
  if negb (validUsername (finalUsername d)) then keep (with_step stepName s) ("❌ " ++ tr l "nu.name_invalid" [])
  else
    proxies ← run (fun r => creationProxies (who r) d);
    match proxies with
    | Err true => show (wizardFailure l (errorScreen l (tr l "nu.no_inbounds" []) "nu:b"))
    | Err false => show_wizard_failure (no_result, true)
    | Ok proxies =>
        expire ← run (fun _ => if 0 <? ExpireSecs d then now ← call Now; Ret (Some (int64 (Unix now + ExpireSecs d))) else Ret None);
        u ← run (fun r => fetch (who r) "POST" "/api/user" (Some (map_json (creation d proxies expire))) user zero_dto);
        match u with
        | Err f => show_wizard_failure f
        | Ok u =>
            _ ← clearSess;
            _ ← update (with_toast (tr l "nu.created" []));
            _ ← showUser u (tr l "nu.created" []);
            _ ← sendQR u;
            mret tt
        end
    end.

Definition wizard (parts : list string) : M unit :=
  let sub := part 0 parts in
  let arg := part 1 parts in
  if String.eqb sub "" then keep (mkSession modeWizard stepName "" 0 no_draft) ""
  else
    s ← run (fun r => loadSession (uid r));
    match s with
    | None => l ← get lang_of; show (errorScreen l (tr l "nu.expired" []) "h")
    | Some s =>
        if negb (String.eqb (Mode s) modeWizard) then l ← get lang_of; show (errorScreen l (tr l "nu.expired" []) "h")
        else if String.eqb sub "t" then wizardTemplate s arg
        else if String.eqb sub "l" then
          match parseGB arg true with
          | None => keep s ""
          | Some limit => keep (with_step stepDays (with_draft (set_limit limit (Draft s)) s)) ""
          end
        else if String.eqb sub "d" then
          match parseDays arg true with
          | None => keep s ""
          | Some days => keep (with_step stepConfirm (with_draft (set_life (days * 86400) (Draft s)) s)) ""
          end
        else if String.eqb sub "n" then keep (with_step stepName s) ""
        else if String.eqb sub "b" then
          if String.eqb (previousStep s) "" then
            _ ← clearSess;
            home
          else keep (with_step (previousStep s) s) ""
        else if String.eqb sub "ok" then wizardCreate s
        else keep s ""
    end.

(** *** Backup *)

Definition maxBackupBytes : Z := 49 * 2 ^ 20.

Definition backupFailure (f : trouble) : M unit :=
  let '(res, err) := f in
  l ← get lang_of;
  let d := detail res in
  if negb err && negb (Status res =? 403) && negb (Status res =? 401) && negb (String.eqb d "") then
    show (errorScreen l (tr l "bk.fail" [Str (escapeHTML d)]) "")
  else show_failure f "" false.

Definition tooLarge (size : Z) : M unit :=
  l ← get lang_of;
  show (mkScreen ("⚠️ " ++ tr l "bk.toolarge" [Str (formatBytes size)]) [navRow l ""]).

Definition sendBackup (filename : string) (dl : apiResult) : M unit :=
  l ← get lang_of;
  let size := Z.of_nat (String.length (Body dl)) in
  if maxBackupBytes <? size then tooLarge size
  else
    let caption := "💾 <code>" ++ escapeHTML filename ++ "</code> · " ++ formatBytes size in
    sent ← run (fun r => sendDocument (bot r) (uid r) filename (Body dl) caption);
    match sent with
    | Err e =>
        _ ← run (fun _ => call (Warn "telegram console: could not send backup" (Some e)));
        show (errorScreen l (tr l "bk.sendfail" []) "")
    | Ok _ => show (mkScreen ("✅ " ++ tr l "bk.done" []) [navRow l ""])
    end.

Definition makeBackup : M unit :=
  res ← run (fun r => call (Panel (who r) "POST" "/api/settings/backup" None));
  match res with
  | None => backupFailure (no_result, true)
  | Some res =>
      match (if ok res then decode Api.backup (mkBackup "" 0) res else None) with
      | None => backupFailure (res, false)
      | Some info =>
          if String.eqb (Filename info) "" then backupFailure (res, false)
          else if maxBackupBytes <? SizeBytes info then tooLarge (SizeBytes info)
          else
            dl ← run (fun r => request (who r) "GET" ("/api/settings/backup/" ++ Filename info) None);
            match dl with
            | Err f => backupFailure f
            | Ok dl => sendBackup (Filename info) dl
            end
      end
  end.

Definition backup (confirmed : bool) : M unit :=
  l ← get lang_of;
  sudo ← get (fun r => IsSudo (who r));
  if negb sudo then show (errorScreen l (tr l "err.forbidden" []) "")
  else if negb confirmed then show (mkScreen (tr l "bk.confirm" []) [[btn (tr l "bk.create" []) "bk:y"]; navRow l ""])
  else
    _ ← answerNow (tr l "bk.working_short" []);
    _ ← show (mkScreen (tr l "bk.working" []) []);
    makeBackup.

(** ** Which of them an update runs: [dispatch.go] *)

Definition onCallback (data : string) : M unit :=
  let '(op, rest) := cut ":" data in
  let rest := default "" rest in
  let parts := split_at ":" rest in
  let op_is x := String.eqb op x in
  _ ← (if negb (op_is "nu") && negb (op_is "nop") then clearSess else mret tt);
  _ ← (if op_is "nop" then mret tt
       else if op_is "h" then home
       else if op_is "hp" then help
       else if op_is "lg" then toggleLang
       else if op_is "sy" then system
       else if op_is "nd" then nodes
       else if op_is "us" then usersMenu
       else if op_is "l" then listFromCallback rest
       else if op_is "u" then userCard rest ""
       else if op_is "t" then toggleUser rest
       else if op_is "rs" then resetUsage parts
       else if op_is "rv" then revokeSub parts
       else if op_is "dl" then deleteUser parts
       else if op_is "ex" then extend parts
       else if op_is "dt" then addData parts
       else if op_is "nt" then askNote rest
       else if op_is "qr" then qr rest
       else if op_is "nu" then wizard parts
       else if op_is "bk" then backup (String.eqb rest "y")
       else home);
  answer.

(** The first field of a text and its command, without the name of a bot. *)
Fixpoint until_space (s : string) : string :=
  match s with
  | EmptyString => EmptyString
  | String c r => if existsb (HasPrefix s) space_encodings then EmptyString else String c (until_space r)
  end.

Definition onCommand (text : string) : M unit :=
  let cmd := ToLower (fst (cut "@" (until_space text))) in
  _ ← clearSess;
  if String.eqb cmd "/help" then help else home.

Definition input (s : session) (text : string) : M unit :=
  _ ← (if String.eqb (Mode s) modeExtend then customExtend s text
       else if String.eqb (Mode s) modeData then customData s text
       else if String.eqb (Mode s) modeNote then setNote s text
       else if String.eqb (Mode s) modeWizard then wizardInput s text
       else _ ← clearSess; search text);
  deleteIncoming.

Definition maxInputRunes : nat := 512.

Definition onText (text : string) : M unit :=
  let text := TrimSpace text in
  if String.eqb text "" then mret tt
  else if HasPrefix text "/" then onCommand text
  else if (maxInputRunes <? RuneCount text)%nat then
    l ← get lang_of;
    show (errorScreen l (tr l "in.toolong" []) "h")
  else
    s ← run (fun r => loadSession (uid r));
    match s with
    | Some s =>
        _ ← update (with_msg (Msg s));
        input s text
    | None => search text
    end.
End actions.

End Actions.
