(* ===== verification/BotConsole.v ===== *)
(** * BotConsole: the Telegram console around the interactions

    [Authz] maps a Telegram account to a panel identity ([internal/telegrambot/authz.go]);
    [Console] filters, authorises, throttles and de-duplicates an update and turns it into
    the work of one admin ([dispatch.go], [console.go]), and polls for updates; [Queue] runs
    an admin's work one piece at a time ([console.go], [enqueue]). *)

From S2P Require Import Prelude GoStrings GoFloat GoJson GoTime Auth IntegrationSettings BotText BotApi BotRequest.
Import GoFloat I18n Format Bot Session Request Actions.

#[local] Open Scope string_scope.
#[local] Open Scope Z_scope.

(** ** The memory of the console *)

(** [bucket] *)
Record bucket := mkBucket { tokens : float64; at_ : Z }.

(** [Console]: the admins by Telegram account and the sudo admin that stands in for listed
    accounts, as last read; the token buckets and the refusals. *)
Record console := mkConsole {
  authAt : Z; authByID : option (gmap Z (list Accounts.Admin)); authSudo : string;
  limiters : gmap Z bucket; refusals : gmap Z Z
}.

Definition New : console := mkConsole 0 None "" ∅ ∅.

Definition second : Z := 1000000000.
Definition settingsEvery : Z := 30.
Definition pollTimeoutSec : Z := 25.
Definition authTTL : Z := 30 * second.
Definition refusalEvery : Z := 600 * second.
Definition limitBurst : float64 := of_int 10.
Definition limitPerSec : float64 := of_int 2.
Definition maxTracked : nat := Z.to_nat 10000.

(** [time.Time.Sub] saturates. *)
Definition Sub (a b : Z) : Z := Z.max (- 2 ^ 63) (Z.min (2 ^ 63 - 1) (a - b)).

(** [time.Duration.Seconds] *)
Definition Seconds (d : Z) : float64 := fadd (of_int (Z.quot d second)) (fdiv (of_int (Z.rem d second)) (of_int second)).

(** ** Who an account is: [authz.go] *)

Module Authz.

(** The admins table as it is kept: those of each account in their order, and the first
    sudo admin, an owner before others. *)
Definition by_account (admins : list Accounts.Admin) : gmap Z (list Accounts.Admin) :=
  foldl (fun m a => match Accounts.TelegramID a with
                    | Some id => <[id := (default [] (m !! id) ++ [a])%list]> m
                    | None => m
                    end) ∅ admins.

Definition first_name (p : Accounts.Admin -> bool) (admins : list Accounts.Admin) : string :=
  match List.find (fun a => p a && negb (String.eqb (Accounts.Username a) "")) admins with
  | Some a => Accounts.Username a
  | None => ""
  end.

Definition sudo_name (admins : list Accounts.Admin) : string :=
  let owner := first_name (fun a => Accounts.IsOwner a && Accounts.IsSudo a) admins in
  if String.eqb owner "" then first_name Accounts.IsSudo admins else owner.

(** Read at most once every [authTTL]; while the table cannot be read the last answer
    stays, without a time of its own. *)
Definition adminsFor (c : console) (uid : Z) : prog (console * (list Accounts.Admin * string)) :=
  stale ← match authByID c with
          | None => mret true
          | Some _ => now ← call Now; mret (bool_decide (authTTL <= Sub now (authAt c)))
          end;
  c ← (if stale : bool then
         r ← call ListAdmins;
         match r with
         | None =>
             _ ← call (Warn "telegram console: could not read admins" None);
             mret c
         | Some admins =>
             now ← call Now;
             mret (mkConsole now (Some (by_account admins)) (sudo_name admins) (limiters c) (refusals c))
         end
       else mret c);
  mret (c, match authByID c with
           | None => ([], "")
           | Some m => (default [] (m !! uid), authSudo c)
           end).

(** [authorize], from the admins of the account, the stand-in, the listed accounts and the
    configured sudo account. *)
Definition identity (owned : list Accounts.Admin) (fallback : string) (listed : bool) (sudoUsername : string) : option principal :=
  match List.find Accounts.IsSudo owned with
  | Some a => Some (mkPrincipal (Accounts.Username a) true)
  | None =>
      if listed then
        if negb (String.eqb sudoUsername "") then Some (mkPrincipal sudoUsername true)
        else if negb (String.eqb fallback "") then Some (mkPrincipal fallback true)
        else None
      else match owned with
           | a :: _ => Some (mkPrincipal (Accounts.Username a) false)
           | [] => None
           end
  end.

Definition authorize (sudoUsername : string) (c : console) (uid : Z) : prog (console * option principal) :=
  vals ← call Settings;
  match vals with
  | None => mret (c, None)
  | Some v =>
      r ← adminsFor c uid;
      let '(c, (owned, fallback)) := r in
      mret (c, identity owned fallback (bool_decide (uid ∈ Integration.TelegramAdminIDs v)) sudoUsername)
  end.

End Authz.
Import Authz.

(** ** Updates: [dispatch.go], [console.go] *)

Module Console.

(** What a token bucket becomes at [now], and whether it lets a tap through. *)
Definition spend (now : Z) (b : bucket) : bucket * bool :=
  let t := fadd (tokens b) (fmul (Seconds (Sub now (at_ b))) limitPerSec) in
  let t := if flt limitBurst t then limitBurst else t in
  if flt t (of_int 1) then (mkBucket t now, false) else (mkBucket (fadd t (of_int (-1))) now, true).

Definition allow (c : console) (uid : Z) : prog (console * bool) :=
  now ← call Now;
  let ls := match limiters c !! uid with
            | Some _ => limiters c
            | None => if (maxTracked <=? size (limiters c))%nat then ∅ else limiters c
            end in
  let '(b, ok) := spend now (default (mkBucket limitBurst now) (ls !! uid)) in
  mret (mkConsole (authAt c) (authByID c) (authSudo c) (<[uid := b]> ls) (refusals c), ok).

Definition shouldRefuse (c : console) (uid : Z) : prog (console * bool) :=
  now ← call Now;
  if match refusals c !! uid with Some last => Sub now last <? refusalEvery | None => false end then mret (c, false)
  else
    let rs := if (maxTracked <=? size (refusals c))%nat then ∅ else refusals c in
    mret (mkConsole (authAt c) (authByID c) (authSudo c) (limiters c) (<[uid := now]> rs), true).

Fixpoint strip_tags (fuel : nat) (s : string) : string :=
  match fuel, s with
  | S fuel, String c r =>
      match foldr (fun tag acc => match strip_prefix tag s with Some rest => Some rest | None => acc end) None
                  ["<b>"; "</b>"; "<code>"; "</code>"] with
      | Some rest => strip_tags fuel rest
      | None => String c (strip_tags fuel r)
      end
  | _, _ => EmptyString
  end.

Definition stripTags (s : string) : string := strip_tags (String.length s) s.

(** What an update asks: who, in a private chat with the bot, tapped or typed something. *)
Inductive ask :=
  | Tap (from : tgUser) (cb : tgCallback) (m : tgMessage)
  | Say (from : tgUser) (m : tgMessage).

Definition asker (a : ask) : tgUser := match a with Tap f _ _ | Say f _ => f end.

Definition private (m : tgMessage) (id : Z) : bool := String.eqb (Type_ (Chat m)) "private" && (c_ID (Chat m) =? id).

Definition asked (u : tgUpdate) : option ask :=
  match CallbackQuery u, Message u with
  | Some cb, _ =>
      match cb_Message cb with
      | Some m => if private m (u_ID (cb_From cb)) then Some (Tap (cb_From cb) cb m) else None
      | None => None
      end
  | None, Some m =>
      match From m with
      | Some f =>
          if IsBot f || negb (private m (u_ID f)) || String.eqb (Text m) "" || forwarded m ||
             match ViaBot m with Some _ => true | None => false end
          then None else Some (Say f m)
      | None => None
      end
  | None, None => None
  end.

Definition refuse (bot : botClient) (c : console) (a : ask) : prog console :=
  r ← shouldRefuse c (u_ID (asker a));
  let '(c, due) := r in
  if due : bool then
    let text := tr (langFromCode (LanguageCode (asker a))) "refuse" [] in
    _ ← match a with
        | Tap _ cb _ => _ ← answerCallback bot (cb_ID cb) (truncateRunes (stripTags text) 150); mret tt
        | Say f _ => _ ← sendMessage bot (u_ID f) text []; mret tt
        end;
    mret c
  else mret c.

Section console.
Context `{Qr} (sudoUsername : string).

(** The work of an update, run later on the sender's queue. *)
Definition work (bot : botClient) (who : principal) (a : ask) : prog unit :=
  let from := asker a in
  l ← loadLang (u_ID from) (LanguageCode from);
  match a with
  | Tap _ cb m =>
      _ ← onCallback (cb_Data cb) (mkReq bot (u_ID from) l who (cb_ID cb) (MessageID m) 0 "");
      mret tt
  | Say _ m =>
      _ ← onText (Text m) (mkReq bot (u_ID from) l who "" 0 (MessageID m) "");
      mret tt
  end.

(** A piece of work, for the queue of an account. *)
Record job := mkJob { j_uid : Z; j_who : principal; j_ask : ask }.

Definition run_job (bot : botClient) (j : job) : prog unit := work bot (j_who j) (j_ask j).

Definition dispatch (bot : botClient) (c : console) (u : tgUpdate) : prog (console * option job) :=
  match asked u with
  | None => mret (c, None)
  | Some a =>
      let id := u_ID (asker a) in
      r ← authorize sudoUsername c id;
      let '(c, who) := r in
      match who with
      | None => c ← refuse bot c a; mret (c, None)
      | Some who =>
          r ← allow c id;
          let '(c, ok) := r in
          if negb ok then
            _ ← match a with
                | Tap _ cb _ => _ ← answerCallback bot (cb_ID cb) "⏳"; mret tt
                | Say _ _ => mret tt
                end;
            mret (c, None)
          else
            new ← (if UpdateID u =? 0 then mret true else firstDelivery (UpdateID u));
            mret (c, if new : bool then Some (mkJob id who a) else None)
      end
  end.

(** ** The polling loop *)

(** What [Run] keeps between two rounds: times in nanoseconds, waits in seconds. *)
Record loop := mkLoop {
  l_bot : option botClient; botKey : string; offset : Z; backoff : Z; resolved : Z; lastWarn : option Z
}.

Definition start : loop := mkLoop None "" 0 0 0 None.

Definition pollBackoff (cur : Z) : Z :=
  let cur := if cur =? 0 then 1 else if cur <? 60 then cur * 2 else cur in
  Z.min cur 60.

(** [warn]: at most once a minute. *)
Definition warn (l : loop) (m : string) (e : option boterr) : prog loop :=
  quiet ← match lastWarn l with
          | Some last => now ← call Now; mret (bool_decide (Sub now last < 60 * second))
          | None => mret false
          end;
  if quiet : bool then mret l
  else
    now ← call Now;
    _ ← call (Warn m e);
    mret (mkLoop (l_bot l) (botKey l) (offset l) (backoff l) (resolved l) (Some now)).

Definition nul : ascii := "000".

(** The settings are read again now and then; [None] when the round ends there. *)
Definition refresh (base : string) (l : loop) : prog (loop * option botClient) :=
  due ← match l_bot l with
        | None => mret true
        | Some _ => now ← call Now; mret (bool_decide (settingsEvery * second <= Sub now (resolved l)))
        end;
  if negb due then mret (l, l_bot l)
  else
    vals ← call Settings;
    match vals with
    | None =>
        l ← warn l "telegram console: could not resolve settings" None;
        _ ← call (After settingsEvery);
        mret (l, None)
    | Some v =>
        now ← call Now;
        if String.eqb (Integration.TelegramAPIToken v) "" then
          _ ← call (After settingsEvery);
          mret (match l_bot l with
                | Some _ => mkLoop None "" (offset l) (backoff l) now (lastWarn l)
                | None => mkLoop None (botKey l) (offset l) (backoff l) now (lastWarn l)
                end, None)
        else
          let key := Integration.TelegramAPIToken v ++ String nul (Integration.TelegramProxyURL v) in
          if String.eqb key (botKey l) then mret (mkLoop (l_bot l) (botKey l) (offset l) (backoff l) now (lastWarn l), l_bot l)
          else
            let b := newBotClient (Integration.TelegramAPIToken v) base in
            mret (mkLoop (Some b) key 0 0 now (lastWarn l), Some b)
    end.

(** How long to wait after an error, with what is logged. *)
Definition trouble_wait (e : boterr) (wait : Z) : Z * option string :=
  match e with
  | apiError code _ retry =>
      if code =? 409 then (30, Some "telegram console: another poller or a webhook holds this bot")
      else if (code =? 401) || (code =? 404) then (60, Some "telegram console: the bot token was rejected")
      else if 0 <? retry then (retry, None)
      else (wait, Some "telegram console: getUpdates failed")
  | _ => (wait, Some "telegram console: getUpdates failed")
  end.

Fixpoint deliver (bot : botClient) (c : console) (offset : Z) (us : list tgUpdate) : prog (console * Z * list job) :=
  match us with
  | [] => mret (c, offset, [])
  | u :: us =>
      let offset := if offset <=? UpdateID u then int64 (UpdateID u + 1) else offset in
      r ← dispatch bot c u;
      let '(c, j) := r in
      r ← deliver bot c offset us;
      let '(c, offset, js) := r in
      mret (c, offset, match j with Some j => j :: js | None => js end)
  end.

(** One round of [Run]. *)
Definition round (base : string) (c : console) (l : loop) : prog (console * loop * list job) :=
  r ← refresh base l;
  let '(l, bot) := r in
  match bot with
  | None => mret (c, l, [])
  | Some bot =>
      r ← getUpdates bot (offset l) pollTimeoutSec;
      match r with
      | Err e =>
          let b := pollBackoff (backoff l) in
          let l := mkLoop (l_bot l) (botKey l) (offset l) b (resolved l) (lastWarn l) in
          let '(wait, m) := trouble_wait e b in
          l ← match m with Some m => warn l m (Some e) | None => mret l end;
          _ ← call (After wait);
          mret (c, l, [])
      | Ok us =>
          r ← deliver bot c (offset l) us;
          let '(c, offset, js) := r in
          mret (c, mkLoop (l_bot l) (botKey l) offset 0 (resolved l) (lastWarn l), js)
      end
  end.
End console.

End Console.

(** ** The queue of an account: [enqueue] *)

Module Queue.

Section queue.
Context {J : Type}.

Definition maxQueued : nat := 50.

(** [userQueue]: what waits, and whether a worker runs. *)
Record userQueue := mkQueue { pending : list J; running : bool }.

Definition no_queue : userQueue := mkQueue [] false.

(** The goroutines that run, each with its account and the work in its hands; what has been
    accepted and what has been started, oldest first, are kept to talk about them. *)
Record state := mkState {
  queues : gmap Z userQueue; workers : list (Z * option J);
  accepted : list (Z * J); started : list (Z * J)
}.

Definition init : state := mkState ∅ [] [] [].

Definition queue_of (s : state) (uid : Z) : userQueue := default no_queue (queues s !! uid).

(** [enqueue]: over the limit the work is dropped; a worker is started when none runs. *)
Definition enqueue (uid : Z) (j : J) (s : state) : state :=
  let q := queue_of s uid in
  if (maxQueued <=? length (pending q))%nat then mkState (<[uid := q]> (queues s)) (workers s) (accepted s) (started s)
  else
    mkState (<[uid := mkQueue (pending q ++ [j]) true]> (queues s))
      (if running q then workers s else (workers s ++ [(uid, None)])%list)
      (accepted s ++ [(uid, j)])%list (started s).

(** A worker with empty hands takes the next piece, or ends when there is none; one that
    has finished its piece looks again. *)
Inductive step : state -> state -> Prop :=
  | s_enqueue s uid j : step s (enqueue uid j s)
  | s_take s w1 w2 uid j rest r :
      workers s = (w1 ++ (uid, None) :: w2)%list ->
      queues s !! uid = Some (mkQueue (j :: rest) r) ->
      step s (mkState (<[uid := mkQueue rest r]> (queues s)) (w1 ++ (uid, Some j) :: w2)%list (accepted s) (started s ++ [(uid, j)])%list)
  | s_finish s w1 w2 uid j :
      workers s = (w1 ++ (uid, Some j) :: w2)%list ->
      step s (mkState (queues s) (w1 ++ (uid, None) :: w2)%list (accepted s) (started s))
  | s_end s w1 w2 uid r :
      workers s = (w1 ++ (uid, None) :: w2)%list ->
      queues s !! uid = Some (mkQueue [] r) ->
      step s (mkState (<[uid := mkQueue [] false]> (queues s)) (w1 ++ w2)%list (accepted s) (started s)).

Definition of_account (uid : Z) (l : list (Z * J)) : list J := omap (fun p => if (p.1 =? uid)%Z then Some p.2 else None) l.
Definition working (uid : Z) (s : state) : list (option J) := omap (fun p => if (p.1 =? uid)%Z then Some p.2 else None) (workers s).

End queue.
Arguments userQueue J : clear implicits.
Arguments state J : clear implicits.

End Queue.
