(* ===== verification/BotProps.v ===== *)
(** * BotProps: the Telegram console acts for the admin who asked, and does what was asked

    The theorems about [BotApi], [BotRequest] and [BotConsole]. A run of a program is the
    list of its calls with their answers; [safe] goes through a program once and says what
    holds of all its runs. *)

From stdpp Require Import sorting.
From S2P Require Import Prelude GoStrings GoFloat GoJson GoUrl Auth IntegrationSettings NodeWire NodeLive NodeLiveProps BotText BotApi BotRequest BotConsole.
Import GoFloat I18n Format Bot Api Session Request Views Actions Authz Console.

#[local] Open Scope string_scope.
#[local] Open Scope Z_scope.

(** ** Runs *)

Module Runs.

Inductive event :=
  | Ev {X : Type} (o : op X) (x : X).

Inductive runs {A} : prog A -> list event -> A -> Prop :=
  | r_ret a : runs (Ret a) [] a
  | r_step X (o : op X) k x tr a : runs (k x) tr a -> runs (BotApi.Step o k) (Ev o x :: tr) a.

(** A run against a world that answers every call. *)
Fixpoint drive {A} (w : forall X, op X -> X) (p : prog A) : list event * A :=
  match p with
  | Ret a => ([], a)
  | BotApi.Step o k => let '(tr, a) := drive w (k (w _ o)) in (Ev o (w _ o) :: tr, a)
  end.

Lemma drive_runs {A} w (p : prog A) : runs p (drive w p).1 (drive w p).2.
Proof.
  induction p as [a|X o k IH]; cbn; [constructor|].
  specialize (IH (w X o)). destruct (drive w (k (w X o))). by constructor.
Qed.

(** With answers that [W] allows, all calls are in [P] and what comes out is in [Q]. *)
Section safe.
Context (W : forall X, op X -> X -> Prop) (P : forall X, op X -> Prop).

Fixpoint safe {A} (p : prog A) (Q : A -> Prop) : Prop :=
  match p with
  | Ret a => Q a
  | BotApi.Step o k => P _ o /\ forall x, W _ o x -> safe (k x) Q
  end.

Definition allowed (e : event) : Prop := match e with Ev o x => W _ o x end.
Definition does (e : event) : Prop := match e with Ev o _ => P _ o end.

Lemma safe_runs {A} (p : prog A) Q tr a : safe p Q -> runs p tr a -> Forall allowed tr -> Forall does tr /\ Q a.
Proof.
  intros Hs Hr. revert Hs. induction Hr as [a|X o k x tr a Hr IH]; cbn; [by auto|].
  intros [Ho Hk] [Hx Htr]%Forall_cons. destruct (IH (Hk x Hx) Htr) as [H1 H2]. split; [|done]. by constructor.
Qed.

Lemma safe_bind {A B} (p : prog A) (f : A -> prog B) Q R :
  safe p Q -> (forall a, Q a -> safe (f a) R) -> safe (p ≫= f) R.
Proof.
  unfold mbind, prog_bind. intros Hp Hf. induction p as [a|X o k IH]; cbn in *; [by apply Hf|].
  destruct Hp as [Ho Hk]. split; [done|]. intros x Hx. by apply IH, Hk.
Qed.

Lemma safe_mono {A} (p : prog A) (Q R : A -> Prop) : safe p Q -> (forall a, Q a -> R a) -> safe p R.
Proof. induction p as [a|X o k IH]; cbn; [by auto|]. intros [Ho Hk] H. split; [done|]. intros x Hx. by eauto. Qed.

Lemma safe_ret {A} (a : A) (Q : A -> Prop) : Q a -> safe (mret a) Q.
Proof. done. Qed.

Lemma safe_step {X} (o : op X) (Q : X -> Prop) : P _ o -> (forall x, W _ o x -> Q x) -> safe (call o) Q.
Proof. by split. Qed.
End safe.

End Runs.
Import Runs.

Create HintDb bot.

(** ** An interaction *)

Module Interaction.

(** What is relied on of the answers: [Named] of the user a route that names one answers
    with, [Held] of the session Redis holds for the sender. *)
Definition told (u : Z) (Named : string -> userDTO -> Prop) (Held : session -> Prop) (X : Type) (o : op X) : X -> Prop :=
  match o in op X return X -> Prop with
  | CacheGet key => fun x => key = sessionKey u -> forall s, x ≫= read = Some s -> Held s
  | Panel _ method path _ => fun x => forall res name d,
      x = Some res -> method = "GET" -> path = userPath name -> decode user zero_dto res = Some d -> Named name d
  | _ => fun _ => True
  end.

Section interaction.
Context (b : botClient) (u : Z) (w : principal) (c : string).
Context (Named : string -> userDTO -> Prop) (Held : session -> Prop).

(** The calls that change something and may be made. *)
Context (may : string -> string -> option json -> Prop).

(** Posts go to the sender's own chat, or acknowledge the sender's tap. *)
Definition to_sender (p : payload) : Prop :=
  match p with
  | GetUpdates _ _ => False
  | SendMessage chat _ _ | EditMessageText chat _ _ _ | DeleteMessage chat _ | SendPhoto chat _ _ | SendDocument chat _ _ _ => chat = u
  | AnswerCallbackQuery id _ => id = c
  end.

(** What an interaction may call. *)
Definition own (X : Type) (o : op X) : Prop :=
  match o with
  | Panel who method path body => who = w /\ (method = "GET" \/ may method path body)
  | CacheGet key | CacheSet key _ _ => key = sessionKey u \/ key = langKey u
  | CacheDel key => key = sessionKey u
  | Post url p => url = endpoint b (method_of p) /\ to_sender p
  | CacheSetNX _ _ _ | ListAdmins => False
  | Settings | After _ | Now | Warn _ _ => True
  end.

(** The request keeps its admin, and its tap until it is acknowledged. *)
Definition mine (r : req) : Prop := bot r = b /\ uid r = u /\ who r = w /\ (cbID r = c \/ cbID r = "").

Abbreviation safe := (safe (told u Named Held) own).

Definition msafe {A} (m : M A) (Q : A -> Prop) : Prop := forall r, mine r -> safe (m r) (fun p => mine p.1 /\ Q p.2).

Abbreviation good m := (msafe m (fun _ => True)).

Lemma msafe_ret {A} (a : A) (Q : A -> Prop) : Q a -> msafe (mret a) Q.
Proof. by intros Ha r Hr. Qed.

Lemma msafe_bind {A B} (m : M A) (f : A -> M B) Q R :
  msafe m Q -> (forall a, Q a -> msafe (f a) R) -> msafe (m ≫= f) R.
Proof. intros Hm Hf r Hr. eapply safe_bind; [by apply Hm|]. intros [r' a] [Hr' Ha]. by apply (Hf a Ha). Qed.

Lemma good_bind {A B} (m : M A) (f : A -> M B) R : good m -> (forall a, msafe (f a) R) -> msafe (m ≫= f) R.
Proof. intros Hm Hf. eapply msafe_bind; [apply Hm|]. auto. Qed.

Lemma msafe_mono {A} (m : M A) (Q R : A -> Prop) : msafe m Q -> (forall a, Q a -> R a) -> msafe m R.
Proof. intros Hm H r Hr. eapply safe_mono; [by apply Hm|]. intros [r' a] [Hr' Ha]. eauto. Qed.

Lemma msafe_run {A} (p : req -> prog A) Q : (forall r, mine r -> safe (p r) Q) -> msafe (run p) Q.
Proof. intros Hp r Hr. unfold run. eapply safe_bind; [by apply Hp|]. intros a Ha. by split. Qed.

Lemma msafe_get {A} (f : req -> A) (Q : A -> Prop) : (forall r, mine r -> Q (f r)) -> msafe (get f) Q.
Proof. intros Hf r Hr. split; [done|]. by apply Hf. Qed.

Lemma msafe_update (f : req -> req) : (forall r, mine r -> mine (f r)) -> good (update f).
Proof. intros Hf r Hr. split; [by apply Hf|done]. Qed.

Lemma mine_lang l r : mine r -> mine (with_lang l r). Proof. done. Qed.
Lemma mine_msg m r : mine r -> mine (with_msg m r). Proof. done. Qed.
Lemma mine_in m r : mine r -> mine (with_in m r). Proof. done. Qed.
Lemma mine_toast t r : mine r -> mine (with_toast t r). Proof. done. Qed.

(** *** Calls *)

Lemma post_safe p : to_sender p -> safe (call (Post (endpoint b (method_of p)) p)) (fun _ => True).
Proof. intros Hp. by repeat split. Qed.

Lemma callJSON_safe {A} p (out : option (Decode.decoder A)) z : to_sender p -> safe (callJSON b p out z) (fun _ => True).
Proof. intros Hp. eapply safe_bind; [by apply post_safe|]. done. Qed.

Lemma callJSONRetry_safe {A} p (out : option (Decode.decoder A)) z : to_sender p -> safe (callJSONRetry b p out z) (fun _ => True).
Proof.
  intros Hp. eapply safe_bind; [by apply callJSON_safe|]. intros [a|[]] _; try done.
  destruct (_ && _); [|done]. eapply safe_bind; [by apply safe_step with (Q := fun _ => True)|].
  intros [] _; [by apply callJSON_safe|done].
Qed.

Lemma sendMessage_safe text kb : safe (sendMessage b u text kb) (fun _ => True).
Proof. eapply safe_bind; [by apply callJSONRetry_safe|]. done. Qed.

Lemma request_safe method path body : method = "GET" \/ may method path body ->
  safe (request w method path body) (fun _ => True).
Proof. intros Hm. eapply safe_bind; [by apply safe_step with (Q := fun _ => True)|]. done. Qed.

Lemma fetch_safe {A} method path body (d : Decode.decoder A) z : method = "GET" \/ may method path body ->
  safe (fetch w method path body d z) (fun _ => True).
Proof. intros Hm. eapply safe_bind; [by apply request_safe|]. done. Qed.

(** The user a name is answered with has that name. *)
Lemma getUser_safe name : safe (getUser w name) (fun r => forall d, r = Ok d -> Named name d).
Proof.
  split; [by repeat (split || left)|]. intros x Hx. cbn. intros d. unfold decoded.
  destruct x as [res|]; [|done]. destruct (ok res); [|done]. destruct (decode user zero_dto res) as [d'|] eqn:E; [|done].
  intros Hd. injection Hd as <-. by eapply Hx.
Qed.

Lemma warn_safe m e : safe (call (Warn m e)) (fun _ => True).
Proof. done. Qed.

Lemma now_safe : safe (call Now) (fun _ => True).
Proof. done. Qed.

Lemma settings_safe : safe (call Settings) (fun _ => True).
Proof. done. Qed.

Lemma get_safe {A} path (d : Decode.decoder A) z : safe (fetch w "GET" path None d z) (fun _ => True).
Proof. apply fetch_safe. by left. Qed.

Lemma user_safe name : safe (getUser w name) (fun _ => True).
Proof. apply get_safe. Qed.

Lemma list_safe status q p : safe (listUsers w status q p) (fun _ => True).
Proof. apply get_safe. Qed.

Lemma nodes_safe : safe (listNodes w) (fun _ => True).
Proof. apply get_safe. Qed.

Lemma templates_safe : safe (templates w) (fun _ => True).
Proof. apply get_safe. Qed.

Lemma monitoring_safe : safe (monitoring w) (fun _ => True).
Proof. eapply safe_bind; [apply get_safe|]. done. Qed.

Lemma photo_safe png caption : safe (sendPhoto b u png caption) (fun _ => True).
Proof. by apply callJSON_safe. Qed.

Lemma document_safe f d caption : safe (sendDocument b u f d caption) (fun _ => True).
Proof. by apply callJSON_safe. Qed.

Lemma edit_safe m text kb : safe (editMessage b u m text kb) (fun _ => True).
Proof. by apply callJSONRetry_safe. Qed.

Lemma delete_safe m : safe (deleteMessage b u m) (fun _ => True).
Proof. by apply callJSON_safe. Qed.

Lemma save_safe s : safe (saveSession u s) (fun _ => True).
Proof. split; [by left|]. intros [] _; done. Qed.

Lemma clear_safe : safe (clearSession u) (fun _ => True).
Proof. done. Qed.

Lemma lang_safe l : safe (saveLang u l) (fun _ => True).
Proof. split; [by right|]. done. Qed.

Lemma load_safe : safe (loadSession u) (fun s => forall s', s = Some s' -> Held s').
Proof. split; [by left|]. intros x Hx. cbn. intros s' Hs. by apply Hx. Qed.

#[local] Hint Resolve warn_safe now_safe settings_safe get_safe user_safe list_safe nodes_safe templates_safe monitoring_safe
  photo_safe document_safe edit_safe delete_safe sendMessage_safe save_safe clear_safe lang_safe : bot.
#[local] Hint Resolve mine_lang mine_msg mine_in mine_toast : bot.
#[local] Hint Extern 1 (safe (Ret _) _) => exact I : bot.

(** One step of a computation: the goal that is left says what a hint does not. *)
Ltac m_step :=
  match goal with
  | |- msafe (mret _) _ => by apply msafe_ret
  | |- msafe (_ ≫= _) _ => eapply good_bind; [|intros ?]
  | |- msafe (get _) _ => by apply msafe_get
  | |- msafe (update _) _ => apply msafe_update; by auto with bot
  | |- msafe (run _) _ =>
      let r := fresh "r" in let Hb := fresh "Hb" in let Hu := fresh "Hu" in let Hw := fresh "Hw" in
      apply msafe_run; intros r (Hb & Hu & Hw & _); rewrite ?Hb, ?Hu, ?Hw; repeat case_match; by eauto with bot
  | |- msafe (match ?x with _ => _ end) _ => destruct x eqn:?
  | |- msafe (let '_ := ?x in _) _ => destruct x eqn:?
  | |- msafe _ _ => by eauto with bot
  end.
Ltac m_go := cbv zeta; repeat (m_step; cbv zeta).

(** *** Screens *)

Lemma show_good s : good (show s).
Proof. unfold show. m_go. Qed.

Lemma answer_good : good answer.
Proof.
  unfold answer. apply msafe_bind with (Q := fun id => id = c \/ id = ""); [by apply msafe_get; intros r (_ & _ & _ & Hc)|].
  intros id Hid. destruct (String.eqb id "") eqn:E; [by apply msafe_ret|].
  assert (id = c) as -> by (destruct Hid as [|Hid]; [done|by rewrite Hid in E]).
  apply good_bind; [|intros _; apply msafe_update; intros r (Hb & Hu & Hw & _); by repeat split; [..|right]].
  apply msafe_run. intros r (Hb & _). rewrite Hb. by apply callJSON_safe.
Qed.

#[local] Hint Resolve show_good answer_good : bot.

Lemma t_good key args : good (t key args).
Proof. unfold t. m_go. Qed.

Lemma saveSess_good s : good (saveSess s).
Proof. unfold saveSess. m_go. Qed.

Lemma clearSess_good : good clearSess.
Proof. unfold clearSess. m_go. Qed.

Lemma deleteIncoming_good : good deleteIncoming.
Proof. unfold deleteIncoming. m_go. Qed.

Lemma failure_good f back scope : good (failure f back scope).
Proof. unfold failure. m_go. Qed.

#[local] Hint Resolve t_good saveSess_good clearSess_good deleteIncoming_good failure_good : bot.

Lemma show_failure_good f back scope : good (show_failure f back scope).
Proof. unfold show_failure. m_go. Qed.

#[local] Hint Resolve show_failure_good : bot.

Lemma home_good : good home. Proof. unfold home. m_go. Qed.
Lemma help_good : good help. Proof. unfold help. m_go. Qed.

#[local] Hint Resolve home_good help_good : bot.

Lemma toggleLang_good : good toggleLang. Proof. unfold toggleLang. m_go. Qed.

Lemma system_good : good system.
Proof. unfold system, panelAndNodesSummary. m_go. Qed.

Lemma nodes_good : good nodes. Proof. unfold nodes. m_go. Qed.
Lemma usersMenu_good : good usersMenu. Proof. unfold usersMenu. m_go. Qed.
Lemma listPage_good f p q : good (listPage f p q). Proof. unfold listPage. m_go. Qed.

#[local] Hint Resolve toggleLang_good system_good nodes_good usersMenu_good listPage_good : bot.

Lemma listFromCallback_good rest : good (listFromCallback rest).
Proof. unfold listFromCallback. m_go. Qed.

Lemma showUser_good d notice : good (showUser d notice).
Proof. unfold showUser. m_go. Qed.

#[local] Hint Resolve listFromCallback_good showUser_good : bot.

Lemma userCard_good name notice : good (userCard name notice).
Proof. unfold userCard. m_go. Qed.

Lemma search_good text : good (search text).
Proof. unfold search. m_go. Qed.

#[local] Hint Resolve userCard_good search_good : bot.

(** *** Actions *)

Lemma with_user_good name k : (forall cur, Named name cur -> good (k cur)) -> good (with_user name k).
Proof.
  intros Hk. unfold with_user. eapply msafe_bind with (Q := fun r => forall d, r = Ok d -> Named name d).
  - apply msafe_run. intros r (_ & _ & Hw & _). rewrite Hw. apply getUser_safe.
  - intros [d|f] Hd; [by apply Hk, Hd|]. m_go.
Qed.

Definition change (cur : userDTO) (fields : gmap string json) : Prop :=
  may "PUT" (userPath (u_Username cur)) (Some (map_json (with_plan cur fields))).

Lemma modify_safe cur fields : change cur fields -> safe (modifyUser w cur fields) (fun _ => True).
Proof. intros Hc. apply fetch_safe. by right. Qed.

#[local] Hint Resolve modify_safe : bot.

Lemma toggle_good name :
  (forall cur, Named name cur ->
     change cur {[ "status" := JString (if String.eqb (u_Status cur) "disabled" then "active" else "disabled") ]}) ->
  good (toggleUser name).
Proof. intros Hm. apply with_user_good. intros cur Hn. specialize (Hm cur Hn). m_go. Qed.

Lemma post_good name action notice : may "POST" (userPath name ++ "/" ++ action) None -> good (postUser name action notice).
Proof. intros Hm. unfold postUser. apply good_bind; [|intros []; m_go]. apply msafe_run. intros r (_ & _ & Hw & _). rewrite Hw. apply fetch_safe. by right. Qed.

Lemma reset_good parts : (isConfirmed parts = true -> may "POST" (userPath (part 0 parts) ++ "/reset") None) -> good (resetUsage parts).
Proof. intros Hm. unfold resetUsage. destruct (isConfirmed parts); [|by m_go]. cbn [negb]. apply good_bind; [by m_go|]. intros n. by apply post_good, Hm. Qed.

Lemma revoke_good parts : (isConfirmed parts = true -> may "POST" (userPath (part 0 parts) ++ "/revoke_sub") None) -> good (revokeSub parts).
Proof. intros Hm. unfold revokeSub. destruct (isConfirmed parts); [|by m_go]. cbn [negb]. apply good_bind; [by m_go|]. intros n. by apply post_good, Hm. Qed.

Lemma deleteUser_good parts : (isConfirmed parts = true -> may "DELETE" (userPath (part 0 parts)) None) -> good (deleteUser parts).
Proof.
  intros Hm. unfold deleteUser. destruct (isConfirmed parts); [|by m_go]. cbn [negb].
  apply good_bind; [|intros []; m_go]. apply msafe_run. intros r (_ & _ & Hw & _). rewrite Hw. apply request_safe. right. by apply Hm.
Qed.

Lemma await_good mode name prompt back : good (await mode name prompt back).
Proof. unfold await. m_go. Qed.

Lemma again_good s problem prompt back : good (again s problem prompt back).
Proof. unfold again. m_go. Qed.

#[local] Hint Resolve await_good again_good : bot.

Lemma applyExtend_good name days :
  (forall cur now fields, Named name cur -> extended cur days now = Some fields -> change cur fields) ->
  good (applyExtend name days).
Proof. intros Hm. apply with_user_good. intros cur Hn. specialize (fun now fields => Hm cur now fields Hn). m_go. Qed.

Lemma applyData_good name add :
  (forall cur limit, Named name cur -> positive (DataLimit cur) = Some limit ->
     change cur {[ "data_limit" := JInt (int64 (limit + add)) ]}) ->
  good (applyData name add).
Proof. intros Hm. apply with_user_good. intros cur Hn. specialize (fun limit => Hm cur limit Hn). m_go. Qed.

Lemma extend_good parts :
  (forall days cur now fields, parseDays (part 1 parts) false = Some days -> Named (part 0 parts) cur ->
     extended cur days now = Some fields -> change cur fields) ->
  good (extend parts).
Proof. intros Hm. unfold extend. m_go. apply applyExtend_good. by eauto. Qed.

Lemma addData_good parts :
  (forall add cur limit, parseGB (part 1 parts) false = Some add -> Named (part 0 parts) cur ->
     positive (DataLimit cur) = Some limit -> change cur {[ "data_limit" := JInt (int64 (limit + add)) ]}) ->
  good (addData parts).
Proof. intros Hm. unfold addData. m_go. apply applyData_good. by eauto. Qed.

Lemma customExtend_good s text :
  (forall days cur now fields, parseDays text false = Some days -> Named (User s) cur ->
     extended cur days now = Some fields -> change cur fields) ->
  good (customExtend s text).
Proof. intros Hm. unfold customExtend. m_go. apply applyExtend_good. by eauto. Qed.

Lemma customData_good s text :
  (forall add cur limit, parseGB text false = Some add -> Named (User s) cur ->
     positive (DataLimit cur) = Some limit -> change cur {[ "data_limit" := JInt (int64 (limit + add)) ]}) ->
  good (customData s text).
Proof. intros Hm. unfold customData. m_go. apply applyData_good. by eauto. Qed.

Lemma setNote_good s text :
  (forall cur, (String.length text <= maxNoteBytes)%nat -> Named (User s) cur ->
     change cur {[ "note" := JString (if String.eqb text "-" then "" else text) ]}) ->
  good (setNote s text).
Proof.
  intros Hm. unfold setNote. destruct (maxNoteBytes <? String.length text)%nat eqn:E; [by m_go|]. apply Nat.ltb_ge in E.
  eapply msafe_bind with (Q := fun r => forall d, r = Ok d -> Named (User s) d).
  { apply msafe_run. intros r (_ & _ & Hw & _). rewrite Hw. apply getUser_safe. }
  intros [cur|f] Hn; [|by m_go]. specialize (Hm cur E (Hn cur eq_refl)). m_go.
Qed.

Lemma askNote_good name : good (askNote name).
Proof. unfold askNote. apply await_good. Qed.

#[local] Hint Resolve askNote_good : bot.

Section qr.
Context `{Qr}.

Lemma sendQR_good d : good (sendQR d).
Proof. unfold sendQR. m_go. Qed.

#[local] Hint Resolve sendQR_good : bot.

Lemma qr_good name : good (qr name).
Proof. apply with_user_good. intros cur _. m_go. Qed.

Lemma wizardScreen_good s notice : good (wizardScreen s notice).
Proof. unfold wizardScreen. m_go. Qed.

#[local] Hint Resolve qr_good wizardScreen_good : bot.

Lemma keep_good s notice : good (keep s notice).
Proof. unfold keep. m_go. Qed.

#[local] Hint Resolve keep_good : bot.

Lemma wizardTemplate_good s arg : good (wizardTemplate s arg).
Proof.
  unfold wizardTemplate. m_go. apply msafe_run. intros r (_ & _ & Hw & _). rewrite Hw.
  apply safe_step; [by split; [|left]|done].
Qed.

Lemma wizardInput_good s text : good (wizardInput s text).
Proof. unfold wizardInput. m_go. Qed.

Lemma creationProxies_safe d : safe (creationProxies w d) (fun _ => True).
Proof.
  unfold creationProxies. eapply safe_bind with (Q := fun _ => True).
  - destruct (sortedKeys (Inbounds d)); [|done]. eapply safe_bind; [apply get_safe|]. done.
  - intros [ps|e] _; [|done]. eapply safe_bind; [apply settings_safe|]. done.
Qed.

#[local] Hint Resolve wizardTemplate_good wizardInput_good creationProxies_safe : bot.

Lemma show_wizard_failure_good f : good (show_wizard_failure f).
Proof. unfold show_wizard_failure. m_go. Qed.

#[local] Hint Resolve show_wizard_failure_good : bot.

Lemma wizardCreate_good s :
  (forall proxies expire, validUsername (finalUsername (Draft s)) = true ->
     may "POST" "/api/user" (Some (map_json (creation (Draft s) proxies expire)))) ->
  good (wizardCreate s).
Proof.
  intros Hm. unfold wizardCreate. destruct (validUsername (finalUsername (Draft s))) eqn:E; [|by m_go].
  specialize (fun proxies expire => Hm proxies expire eq_refl). cbn [negb]. m_go.
  apply msafe_run. intros r (_ & _ & Hw & _). rewrite Hw. apply fetch_safe. by right.
Qed.

Lemma wizard_good parts :
  (forall s proxies expire, part 0 parts = "ok" -> Held s -> Mode s = modeWizard ->
     validUsername (finalUsername (Draft s)) = true -> may "POST" "/api/user" (Some (map_json (creation (Draft s) proxies expire)))) ->
  good (wizard parts).
Proof.
  intros Hm. unfold wizard. destruct (String.eqb (part 0 parts) "") eqn:E0; [by m_go|].
  eapply msafe_bind with (Q := fun o => forall s', o = Some s' -> Held s').
  { apply msafe_run. intros r (_ & Hu & _). rewrite Hu. apply load_safe. }
  intros [s|] Hs; [|by m_go]. specialize (Hs s eq_refl).
  destruct (String.eqb (Mode s) modeWizard) eqn:Em; [|by m_go]. apply String.eqb_eq in Em. cbn [negb].
  destruct (String.eqb (part 0 parts) "ok") eqn:Eok; [|by m_go]. apply String.eqb_eq in Eok. rewrite Eok. cbn [String.eqb Ascii.eqb Bool.eqb].
  apply wizardCreate_good. by eauto.
Qed.

Lemma sendBackup_good f dl : good (sendBackup f dl).
Proof. unfold sendBackup, tooLarge. m_go. Qed.

Lemma backup_good confirmed :
  (confirmed = true -> IsSudo w = true -> may "POST" "/api/settings/backup" None) -> good (backup confirmed).
Proof.
  intros Hm. unfold backup. apply good_bind; [by m_go|]. intros l.
  eapply msafe_bind with (Q := fun sudo => sudo = IsSudo w); [by apply msafe_get; intros r (_ & _ & <- & _)|].
  intros sudo ->. destruct (IsSudo w); [|by m_go]. destruct confirmed; [|by m_go]. cbn [negb]. specialize (Hm eq_refl eq_refl).
  apply good_bind; [unfold answerNow; by m_go|]. intros _. apply good_bind; [by m_go|]. intros _.
  unfold makeBackup, backupFailure, tooLarge. apply good_bind.
  - apply msafe_run. intros r (_ & _ & Hw & _). rewrite Hw. apply safe_step; [by split; [|right]|done].
  - intros res. m_go. all: try apply sendBackup_good.
    apply msafe_run. intros r (_ & _ & Hw & _). rewrite Hw. apply request_safe. by left.
Qed.

Lemma onCallback_good data :
  let op := fst (cut ":" data) in
  let rest := default "" (snd (cut ":" data)) in
  let parts := split_at ":" rest in
  (op = "t" -> forall cur, Named rest cur ->
     change cur {[ "status" := JString (if String.eqb (u_Status cur) "disabled" then "active" else "disabled") ]}) ->
  (op = "rs" -> isConfirmed parts = true -> may "POST" (userPath (part 0 parts) ++ "/reset") None) ->
  (op = "rv" -> isConfirmed parts = true -> may "POST" (userPath (part 0 parts) ++ "/revoke_sub") None) ->
  (op = "dl" -> isConfirmed parts = true -> may "DELETE" (userPath (part 0 parts)) None) ->
  (op = "ex" -> forall days cur now fields, parseDays (part 1 parts) false = Some days -> Named (part 0 parts) cur ->
     extended cur days now = Some fields -> change cur fields) ->
  (op = "dt" -> forall add cur limit, parseGB (part 1 parts) false = Some add -> Named (part 0 parts) cur ->
     positive (DataLimit cur) = Some limit -> change cur {[ "data_limit" := JInt (int64 (limit + add)) ]}) ->
  (op = "nu" -> forall s proxies expire, part 0 parts = "ok" -> Held s -> Mode s = modeWizard ->
     validUsername (finalUsername (Draft s)) = true -> may "POST" "/api/user" (Some (map_json (creation (Draft s) proxies expire)))) ->
  (op = "bk" -> rest = "y" -> IsSudo w = true -> may "POST" "/api/settings/backup" None) ->
  good (onCallback data).
Proof.
  cbv zeta. unfold onCallback. destruct (cut ":" data) as [op rest0]. cbn [fst snd]. set (rest := default "" rest0).
  intros Ht Hrs Hrv Hdl Hex Hdt Hnu Hbk. apply good_bind; [by m_go|]. intros _. apply good_bind; [|intros _; apply answer_good].
  repeat match goal with
  | |- msafe (if String.eqb op ?x then _ else _) _ => destruct (String.eqb_spec op x) as [Heq|_]
  end; try by auto with bot.
  - exact (toggle_good _ (Ht Heq)).
  - exact (reset_good _ (Hrs Heq)).
  - exact (revoke_good _ (Hrv Heq)).
  - exact (deleteUser_good _ (Hdl Heq)).
  - exact (extend_good _ (Hex Heq)).
  - exact (addData_good _ (Hdt Heq)).
  - exact (wizard_good _ (Hnu Heq)).
  - apply backup_good. intros Hy%String.eqb_eq. by auto.
Qed.

Lemma onText_good typed :
  let text := TrimSpace typed in
  (forall s days cur now fields, Held s -> Mode s = modeExtend -> parseDays text false = Some days ->
     Named (User s) cur -> extended cur days now = Some fields -> change cur fields) ->
  (forall s add cur limit, Held s -> Mode s = modeData -> parseGB text false = Some add ->
     Named (User s) cur -> positive (DataLimit cur) = Some limit -> change cur {[ "data_limit" := JInt (int64 (limit + add)) ]}) ->
  (forall s cur, Held s -> Mode s = modeNote -> (String.length text <= maxNoteBytes)%nat -> Named (User s) cur ->
     change cur {[ "note" := JString (if String.eqb text "-" then "" else text) ]}) ->
  good (onText typed).
Proof.
  unfold onText. cbv zeta. generalize (TrimSpace typed) as x. intros x He Hd Hn.
  destruct (String.eqb x ""); [by m_go|]. destruct (HasPrefix x "/"); [unfold onCommand; by m_go|].
  destruct (maxInputRunes <? RuneCount x)%nat; [by m_go|].
  eapply msafe_bind with (Q := fun o => forall s', o = Some s' -> Held s').
  { apply msafe_run. intros r (_ & Hu & _). rewrite Hu. apply load_safe. }
  intros [s|] Hs; [|by m_go]. specialize (Hs s eq_refl). apply good_bind; [by m_go|]. intros _.
  unfold input. apply good_bind; [|intros _; apply deleteIncoming_good].
  destruct (String.eqb_spec (Mode s) modeExtend) as [Hm|_]; [apply customExtend_good; by eauto|].
  destruct (String.eqb_spec (Mode s) modeData) as [Hm|_]; [apply customData_good; by eauto|].
  destruct (String.eqb_spec (Mode s) modeNote) as [Hm|_]; [apply setNote_good; by eauto|].
  m_go.
Qed.
End qr.

End interaction.

End Interaction.
Import Interaction.

(** ** What was asked *)

Module Asked.

(** The calls that change something, each with the tap or the typed answer that asks for
    it; [sess] is the session the answer completes. A change of a user gives its plan back
    and sets one field. *)
Section asked.
Context (w : principal) (sess : option session).

Definition op_of (cb : tgCallback) : string := fst (cut ":" (cb_Data cb)).
Definition rest_of (cb : tgCallback) : string := default "" (snd (cut ":" (cb_Data cb))).
Definition parts_of (cb : tgCallback) : list string := split_at ":" (rest_of cb).

(** The request that sets [fields] of a user as it was just read. *)
Definition set_fields (cur : userDTO) (fields : gmap string json) (r : string * string * option json) : Prop :=
  r = ("PUT", userPath (u_Username cur), Some (map_json (with_plan cur fields))).

Inductive asked_for : ask -> string * string * option json -> Prop :=
  | a_toggle f cb m cur r : op_of cb = "t" -> u_Username cur = rest_of cb ->
      set_fields cur {[ "status" := JString (if String.eqb (u_Status cur) "disabled" then "active" else "disabled") ]} r ->
      asked_for (Tap f cb m) r
  | a_reset f cb m : op_of cb = "rs" -> isConfirmed (parts_of cb) = true ->
      asked_for (Tap f cb m) ("POST", userPath (part 0 (parts_of cb)) ++ "/reset", None)
  | a_revoke f cb m : op_of cb = "rv" -> isConfirmed (parts_of cb) = true ->
      asked_for (Tap f cb m) ("POST", userPath (part 0 (parts_of cb)) ++ "/revoke_sub", None)
  | a_delete f cb m : op_of cb = "dl" -> isConfirmed (parts_of cb) = true ->
      asked_for (Tap f cb m) ("DELETE", userPath (part 0 (parts_of cb)), None)
  | a_extend f cb m days cur now fields r : op_of cb = "ex" -> parseDays (part 1 (parts_of cb)) false = Some days ->
      u_Username cur = part 0 (parts_of cb) -> extended cur days now = Some fields -> set_fields cur fields r ->
      asked_for (Tap f cb m) r
  | a_data f cb m add cur limit r : op_of cb = "dt" -> parseGB (part 1 (parts_of cb)) false = Some add ->
      u_Username cur = part 0 (parts_of cb) -> positive (DataLimit cur) = Some limit ->
      set_fields cur {[ "data_limit" := JInt (int64 (limit + add)) ]} r ->
      asked_for (Tap f cb m) r
  | a_create f cb m s proxies expire : op_of cb = "nu" -> part 0 (parts_of cb) = "ok" -> sess = Some s -> Mode s = modeWizard ->
      validUsername (finalUsername (Draft s)) = true ->
      asked_for (Tap f cb m) ("POST", "/api/user", Some (map_json (creation (Draft s) proxies expire)))
  | a_backup f cb m : op_of cb = "bk" -> rest_of cb = "y" -> IsSudo w = true ->
      asked_for (Tap f cb m) ("POST", "/api/settings/backup", None)
  | a_typed_days f m s days cur now fields r : sess = Some s -> Mode s = modeExtend ->
      parseDays (TrimSpace (Text m)) false = Some days -> u_Username cur = User s -> extended cur days now = Some fields ->
      set_fields cur fields r ->
      asked_for (Say f m) r
  | a_typed_data f m s add cur limit r : sess = Some s -> Mode s = modeData ->
      parseGB (TrimSpace (Text m)) false = Some add -> u_Username cur = User s -> positive (DataLimit cur) = Some limit ->
      set_fields cur {[ "data_limit" := JInt (int64 (limit + add)) ]} r ->
      asked_for (Say f m) r
  | a_typed_note f m s cur r : sess = Some s -> Mode s = modeNote -> (String.length (TrimSpace (Text m)) <= maxNoteBytes)%nat ->
      u_Username cur = User s ->
      set_fields cur {[ "note" := JString (if String.eqb (TrimSpace (Text m)) "-" then "" else TrimSpace (Text m)) ]} r ->
      asked_for (Say f m) r.

Definition cb_of (a : ask) : string := match a with Tap _ cb _ => cb_ID cb | Say _ _ => "" end.

Context `{Qr} (b : botClient).

Lemma loadLang_safe uid code W (P : forall X, op X -> Prop) : P _ (CacheGet (langKey uid)) -> safe W P (loadLang uid code) (fun _ => True).
Proof. by split. Qed.

Lemma work_safe a :
  safe (told (u_ID (asker a)) (fun n d => u_Username d = n) (fun s => sess = Some s)) (own b (u_ID (asker a)) w (cb_of a) (fun m p bd => asked_for a (m, p, bd))) (work b w a) (fun _ => True).
Proof.
  unfold work. eapply safe_bind; [by apply loadLang_safe; right|]. intros l _. destruct a as [f cb m|f m]; cbn [asker cb_of].
  - eapply safe_bind; [|done]. apply onCallback_good; [..|by repeat split; left]; intros; by econstructor.
  - eapply safe_bind; [|done]. apply onText_good; [..|by repeat split; left]; intros; by econstructor.
Qed.

(** Whatever the answers are. *)
Lemma work_any a :
  safe (told (u_ID (asker a)) (fun _ _ => True) (fun _ => True)) (own b (u_ID (asker a)) w (cb_of a) (fun _ _ _ => True)) (work b w a) (fun _ => True).
Proof.
  unfold work. eapply safe_bind; [by apply loadLang_safe; right|]. intros l _. destruct a as [f cb m|f m]; cbn [asker cb_of].
  - eapply safe_bind; [|done]. apply onCallback_good; [..|by repeat split; left]; done.
  - eapply safe_bind; [|done]. apply onText_good; [..|by repeat split; left]; done.
Qed.

Lemma told_any u tr : Forall (allowed (told u (fun _ _ => True) (fun _ => True))) tr.
Proof. apply Forall_forall. intros [X o x] _. by destruct o. Qed.
End asked.

End Asked.
Import Asked.

(** ** Who may ask *)

Module Entitled.

(** The settings and the admins table as they were read at any time. *)
Section entitled.
Context (sudoUsername : string) (VS : Integration.Values -> Prop) (AS : list Accounts.Admin -> Prop).

(** What an account may act as: a sudo admin bound to it; if it is listed, the configured
    sudo account or, without one, a sudo admin; an admin bound to it, without its rights to
    others' users. *)
Inductive entitled (uid : Z) : principal -> Prop :=
  | e_sudo l a : AS l -> a ∈ l -> Accounts.TelegramID a = Some uid -> Accounts.IsSudo a = true ->
      entitled uid (mkPrincipal (Accounts.Username a) true)
  | e_configured v : VS v -> uid ∈ Integration.TelegramAdminIDs v -> sudoUsername <> "" -> entitled uid (mkPrincipal sudoUsername true)
  | e_listed v l a : VS v -> uid ∈ Integration.TelegramAdminIDs v -> sudoUsername = "" -> AS l -> a ∈ l -> Accounts.IsSudo a = true ->
      entitled uid (mkPrincipal (Accounts.Username a) true)
  | e_admin v l a : VS v -> uid ∉ Integration.TelegramAdminIDs v -> AS l -> a ∈ l -> Accounts.TelegramID a = Some uid ->
      (forall a', a' ∈ l -> Accounts.TelegramID a' = Some uid -> Accounts.IsSudo a' = false) ->
      entitled uid (mkPrincipal (Accounts.Username a) false).

Definition read_ok (X : Type) (o : op X) : X -> Prop :=
  match o in op X return X -> Prop with
  | BotApi.Settings => fun x => match x with Some v => VS v | None => True end
  | ListAdmins => fun x => match x with Some l => AS l | None => True end
  | _ => fun _ => True
  end.

(** What the poller calls itself: nothing of the panel, and nothing but answers to who wrote. *)
Definition aloof (X : Type) (o : op X) : Prop :=
  match o with
  | Panel _ _ _ _ | CacheSet _ _ _ | CacheDel _ | CacheGet _ => False
  | _ => True
  end.

Abbreviation safe := (safe read_ok aloof).

(** The admins kept are those of a table that was read. *)
Definition trusted (c : console) : Prop :=
  match authByID c with
  | None => True
  | Some m => exists l, AS l /\ m = by_account l /\ authSudo c = sudo_name l
  end.

Lemma by_account_spec l uid a : a ∈ default [] (by_account l !! uid) <-> a ∈ l /\ Accounts.TelegramID a = Some uid.
Proof.
  unfold by_account. induction l as [|x l IH] using rev_ind; cbn.
  - rewrite lookup_empty. cbn. set_solver.
  - rewrite foldl_app. cbn. rewrite elem_of_app, list_elem_of_singleton. destruct (Accounts.TelegramID x) as [id|] eqn:E.
    + destruct (decide (id = uid)) as [->|Hne].
      * rewrite lookup_insert_eq. cbn. rewrite elem_of_app, IH, list_elem_of_singleton. naive_solver.
      * rewrite lookup_insert_ne by done. rewrite IH. naive_solver.
    + rewrite IH. naive_solver.
Qed.

Lemma find_elem {A} (f : A -> bool) l a : List.find f l = Some a -> a ∈ l /\ f a = true.
Proof. intros [Hin Hf]%find_some. split; [by apply list_elem_of_In|done]. Qed.

Lemma first_name_spec p l : first_name p l <> "" -> exists a, a ∈ l /\ p a = true /\ Accounts.Username a = first_name p l.
Proof.
  unfold first_name. destruct (List.find _ l) as [a|] eqn:E; [|done]. intros _. apply find_elem in E as [Hin Hp].
  apply andb_true_iff in Hp as [Hp _]. by exists a.
Qed.

Lemma sudo_name_spec l : sudo_name l <> "" -> exists a, a ∈ l /\ Accounts.IsSudo a = true /\ Accounts.Username a = sudo_name l.
Proof.
  unfold sudo_name. destruct (String.eqb_spec (first_name (fun a => Accounts.IsOwner a && Accounts.IsSudo a) l) "") as [_|Hn]; intros H.
  - by apply first_name_spec.
  - destruct (first_name_spec _ _ Hn) as (a & Hin & [_ Hs]%andb_true_iff & Ha). by exists a.
Qed.

Lemma identity_entitled l v uid who : VS v -> AS l ->
  identity (default [] (by_account l !! uid)) (sudo_name l) (bool_decide (uid ∈ Integration.TelegramAdminIDs v)) sudoUsername = Some who ->
  entitled uid who.
Proof.
  intros Hv Hl. unfold identity. destruct (List.find Accounts.IsSudo _) as [a|] eqn:Ef.
  - apply find_elem in Ef as [Hin Hs]. apply by_account_spec in Hin as [Hin Ht]. intros [= <-]. by eapply e_sudo.
  - case_bool_decide as Hlisted.
    + destruct (String.eqb_spec sudoUsername "") as [He|Hne]; cbn; [|intros [= <-]; by eapply e_configured].
      destruct (String.eqb_spec (sudo_name l) "") as [|Hn]; [done|]. cbn. intros [= <-].
      destruct (sudo_name_spec l Hn) as (a & Hin & Hs & <-). by eapply e_listed.
    + destruct (default [] _) as [|a rest] eqn:Ed; [done|]. intros [= <-].
      assert (a ∈ l /\ Accounts.TelegramID a = Some uid) as [Hin Ht].
      { apply by_account_spec. rewrite Ed. by left. }
      eapply e_admin; try done. intros a' Hin' Ht'. apply not_true_iff_false. intros Hs.
      assert (a' ∈ default [] (by_account l !! uid)) as Hd by by apply by_account_spec.
      rewrite Ed in Hd. apply list_elem_of_In in Hd. by rewrite (find_none _ _ Ef _ Hd) in Hs.
Qed.

Lemma adminsFor_safe c uid : trusted c ->
  safe (adminsFor c uid) (fun r => trusted r.1 /\
    ((exists l, AS l /\ r.2 = (default [] (by_account l !! uid), sudo_name l)) \/ r.2 = ([], ""))).
Proof.
  intros Hc. unfold adminsFor. eapply safe_bind with (Q := fun _ => True); [by destruct (authByID c)|]. intros stale _.
  eapply safe_bind with (Q := trusted).
  - destruct stale; [|done]. split; [done|]. intros [l|] Hl; cbn; [|by split].
    split; [done|]. intros now _. cbn. by exists l.
  - intros c' Hc'. apply safe_ret. cbn. split; [done|]. unfold trusted in Hc'.
    destruct (authByID c') as [m|]; [|by right]. destruct Hc' as (l & Hl & -> & ->). left. by exists l.
Qed.

Lemma authorize_safe c uid : trusted c ->
  safe (authorize sudoUsername c uid) (fun r => trusted r.1 /\ forall who, r.2 = Some who -> entitled uid who).
Proof.
  intros Hc. unfold authorize. split; [done|]. intros [v|] Hv; cbn; [|done].
  eapply safe_bind; [by apply adminsFor_safe|]. intros [c' [owned fallback]] [Hc' Hr]. cbn [fst snd] in *. apply safe_ret. cbn.
  split; [done|]. intros who Hid. destruct Hr as [(l & Hl & [= -> ->])|[= -> ->]]; [by eapply identity_entitled|].
  cbn in Hid. case_bool_decide; [|done]. destruct (String.eqb_spec sudoUsername "") as [|Hne]; [done|].
  injection Hid as <-. by eapply e_configured.
Qed.

(** *** Updates *)

(** In a private chat with the account, written or tapped by it. *)
Definition in_private (a : ask) : Prop :=
  match a with
  | Tap f cb m => f = cb_From cb /\ Type_ (Chat m) = "private" /\ c_ID (Chat m) = u_ID f
  | Say f m => From m = Some f /\ IsBot f = false /\ Type_ (Chat m) = "private" /\ c_ID (Chat m) = u_ID f /\
               forwarded m = false /\ ViaBot m = None
  end.

Lemma private_spec m id : private m id = true -> Type_ (Chat m) = "private" /\ c_ID (Chat m) = id.
Proof. unfold private. intros [H1%String.eqb_eq H2%Z.eqb_eq]%andb_true_iff. done. Qed.

Lemma asked_private up a : asked up = Some a -> in_private a.
Proof.
  unfold asked. destruct (CallbackQuery up) as [cb|].
  - destruct (cb_Message cb) as [m|]; [|done]. destruct (private m _) eqn:E; [|done]. intros [= <-].
    apply private_spec in E as [? ?]. done.
  - destruct (Message up) as [m|]; [|done]. destruct (From m) as [f|] eqn:Ef; [|done].
    destruct (_ || _) eqn:E; [done|]. intros [= <-]. go_bool. match goal with H : private _ _ = true |- _ => apply private_spec in H as [? ?] end.
    destruct (ViaBot m) eqn:Ev; [done|]. by repeat split.
Qed.

(** A piece of work that was let through. *)
Definition proper (j : job) : Prop := j_uid j = u_ID (asker (j_ask j)) /\ in_private (j_ask j) /\ entitled (j_uid j) (j_who j).

Lemma bot_call_safe {A} bot p (out : option (Decode.decoder A)) z : safe (callJSON bot p out z) (fun _ => True).
Proof. by split. Qed.

Lemma bot_retry_safe {A} bot p (out : option (Decode.decoder A)) z : safe (callJSONRetry bot p out z) (fun _ => True).
Proof.
  eapply safe_bind; [apply bot_call_safe|]. intros [a|[]] _; try done. destruct (_ && _); [|done]. split; [done|].
  intros [] _; [apply bot_call_safe|done].
Qed.

Lemma refuse_safe bot c a : trusted c -> safe (refuse bot c a) trusted.
Proof.
  intros Hc. unfold refuse. eapply safe_bind with (Q := fun r => trusted r.1).
  - split; [done|]. intros now _. cbn. by destruct (match refusals c !! _ with Some _ => _ | None => _ end).
  - intros [c' due] Hc'. destruct due; [|done]. eapply safe_bind with (Q := fun _ => True); [|done].
    destruct a; (eapply safe_bind with (Q := fun _ => True); [|done]); [apply bot_call_safe|]. eapply safe_bind; [apply bot_retry_safe|done].
Qed.

Lemma allow_safe c uid : trusted c -> safe (allow c uid) (fun r => trusted r.1).
Proof.
  intros Hc. unfold allow. eapply safe_bind with (Q := fun _ => True); [done|]. intros now _. cbv zeta.
  by destruct (spend now _).
Qed.

Lemma dispatch_safe bot c up : trusted c ->
  safe (dispatch sudoUsername bot c up) (fun r => trusted r.1 /\ forall j, r.2 = Some j -> proper j).
Proof.
  intros Hc. unfold dispatch. destruct (asked up) as [a|] eqn:Ea; [|done]. apply asked_private in Ea.
  eapply safe_bind; [by apply authorize_safe|]. intros [c1 [who|]] [Hc1 Hwho]; cbn [fst snd] in *.
  - eapply safe_bind; [by apply allow_safe|]. intros [c2 ok] Hc2. destruct ok; cbn [negb].
    + eapply safe_bind with (Q := fun _ => True); [destruct (UpdateID up =? 0); [done|by split]|].
      intros new _. apply safe_ret. split; [done|]. destruct new; [|done]. intros j [= <-]. repeat split; auto.
    + eapply safe_bind with (Q := fun _ => True); [|done]. destruct a; [|done]. eapply safe_bind; [apply bot_call_safe|done].
  - eapply safe_bind; [by apply refuse_safe|]. done.
Qed.

Lemma deliver_safe bot us : forall c offset, trusted c ->
  safe (deliver sudoUsername bot c offset us) (fun r => trusted r.1.1 /\ Forall proper r.2).
Proof.
  induction us as [|up us IH]; intros c offset Hc; cbn [deliver]; [done|].
  eapply safe_bind; [by apply dispatch_safe|]. intros [c1 j] [Hc1 Hj]. eapply safe_bind; [by apply IH|].
  intros [[c2 o2] js] [Hc2 Hjs]. apply safe_ret. cbn in *. split; [done|]. destruct j; [|done]. constructor; auto.
Qed.

Lemma warn_loop_safe l m e : safe (warn l m e) (fun _ => True).
Proof.
  unfold warn. eapply safe_bind with (Q := fun _ => True); [by destruct (lastWarn l)|]. intros [] _; [done|].
  split; [done|]. intros now _. by split.
Qed.

Lemma refresh_safe base l : safe (refresh base l) (fun _ => True).
Proof.
  unfold refresh. eapply safe_bind with (Q := fun _ => True); [by destruct (l_bot l)|]. intros [] _; [|done]. cbn [negb].
  eapply safe_bind with (Q := fun _ => True); [done|]. intros [v|] _.
  - eapply safe_bind with (Q := fun _ => True); [done|]. intros now _.
    destruct (String.eqb (Integration.TelegramAPIToken v) ""); [by split|]. cbv zeta. by destruct (String.eqb _ (botKey l)).
  - eapply safe_bind; [apply warn_loop_safe|]. intros l' _. by split.
Qed.

Lemma round_safe base c l : trusted c ->
  safe (round sudoUsername base c l) (fun r => trusted r.1.1 /\ Forall proper r.2).
Proof.
  intros Hc. unfold round. eapply safe_bind; [apply refresh_safe|]. intros [l' [bot|]] _; [|done].
  eapply safe_bind; [apply bot_call_safe|]. intros [us|e] _.
  - eapply safe_bind; [by apply deliver_safe|]. intros [[c' o] js] [? ?]. done.
  - destruct (trouble_wait e _) as [wait m]. eapply safe_bind with (Q := fun _ => True).
    + destruct m; [apply warn_loop_safe|done].
    + intros l2 _. by split.
Qed.

(** Any rounds of the poller, with the work they found. *)
Inductive history : console -> loop -> list job -> Prop :=
  | h_start : history New start []
  | h_round c l js base tr c' l' js' :
      history c l js -> runs (round sudoUsername base c l) tr (c', l', js') -> Forall (allowed read_ok) tr ->
      history c' l' (js ++ js').

Lemma history_proper c l js : history c l js -> trusted c /\ Forall proper js.
Proof.
  induction 1 as [|c l js base tr c' l' js' _ [Hc Hjs] Hr Htr]; [done|].
  destruct (safe_runs _ _ _ _ _ _ (round_safe base c l Hc) Hr Htr) as [_ [Hc' Hjs']]. split; [done|]. by apply Forall_app.
Qed.

End entitled.

End Entitled.
Import Entitled.

(** ** The console acts for who asked *)

Module Acts.

(** C6: whatever is sent to the bot, by whom and when, and whatever the panel, Redis, the
    database and Telegram answer: a piece of work the console accepts comes from a private
    chat with the account it acts for; the panel identity it acts as is one this account is
    entitled to by the settings and the admins table as they were read; and its run calls
    the panel as that identity only, touches the keys of that account only and writes to
    that account only. *)
Theorem only_entitled `{Qr} sudoUsername VS AS c l js j bot tr :
  history sudoUsername VS AS c l js -> j ∈ js -> runs (run_job bot j) tr tt ->
  entitled sudoUsername VS AS (j_uid j) (j_who j) /\
  in_private (j_ask j) /\ u_ID (asker (j_ask j)) = j_uid j /\
  Forall (does (own bot (j_uid j) (j_who j) (cb_of (j_ask j)) (fun _ _ _ => True))) tr.
Proof.
  intros Hh Hj Hr. destruct (history_proper _ _ _ _ _ _ Hh) as [_ Hp].
  rewrite Forall_forall in Hp. destruct (Hp j Hj) as (Hu & Hin & He). do 3 (split; [done|]).
  rewrite Hu. by apply (safe_runs _ _ _ _ _ _ (work_any (j_who j) bot (j_ask j)) Hr (told_any _ _)).
Qed.


End Acts.

(** ** A tap *)

Module Demo.
Import Acts.

Instance demo_qr : Qr := fun _ => Some "png".

Definition bob : Accounts.Admin := Accounts.mkAdmin 2 "bob" "" 0 false false None (Some 42) None 0.
Definition bob_acts : principal := mkPrincipal "bob" false.
Definition values : Integration.Values := Integration.mkValues "" "" "" "1:a" [7] "" 0 0 "" [] "" "".

Definition chat_json : json := JObject [("id", JInt 42); ("type", JString "private")].
Definition tap_json : json := JObject [
  ("update_id", JInt 5);
  ("callback_query", JObject [
    ("id", JString "q"); ("from", JObject [("id", JInt 42); ("language_code", JString "en")]);
    ("message", JObject [("message_id", JInt 9); ("chat", chat_json)]); ("data", JString "dl:alice:y")])].

Definition world (X : Type) (o : op X) : X :=
  match o with
  | Panel _ _ _ _ => Some (mkResult 204 "")
  | CacheGet _ => None
  | CacheSet _ _ _ => true
  | CacheDel _ => tt
  | CacheSetNX _ _ _ => Some true
  | BotApi.Settings => Some values
  | ListAdmins => Some [bob]
  | Post _ (GetUpdates _ _) => Answer 200 (encode (JObject [("ok", JBool true); ("result", JArray [tap_json])]))
  | Post _ _ => Answer 200 (encode (JObject [("ok", JBool true); ("result", JObject [("message_id", JInt 9)])]))
  | After _ => true
  | Now => 0
  | Warn _ _ => tt
  end.

Definition client : botClient := newBotClient "1:a" "".
Definition first_round := drive world (round "root" "" New start).
Definition tap : ask := Tap (mkUser 42 false "en")
  (mkCallback "q" (mkUser 42 false "en") (Some (mkMessage 9 None (mkChat 42 "private") "" 0 None None)) "dl:alice:y")
  (mkMessage 9 None (mkChat 42 "private") "" 0 None None).
Definition deletion : job := mkJob 42 bob_acts tap.

Lemma first_history : history "root" (eq values) (eq [bob]) first_round.2.1.1 first_round.2.1.2 ([] ++ first_round.2.2).
Proof.
  eapply (h_round "root" (eq values) (eq [bob]) New start [] "" first_round.1).
  - constructor.
  - rewrite <- !surjective_pairing. apply drive_runs.
  - vm_compute. repeat constructor.
Qed.

Definition deletion_run : list event := (drive world (run_job client deletion)).1.

Lemma deletion_runs : runs (run_job client deletion) deletion_run tt.
Proof. unfold deletion_run. pose proof (drive_runs world (run_job client deletion)) as H. by destruct (drive _ _).2. Qed.

Lemma only_entitled_witness :
  entitled "root" (eq values) (eq [bob]) 42 bob_acts /\ in_private tap /\ 42 = 42 /\
  Forall (does (own client 42 bob_acts "q" (fun _ _ _ => True))) deletion_run.
Proof.
  apply (only_entitled "root" (eq values) (eq [bob]) first_round.2.1.1 first_round.2.1.2 ([] ++ first_round.2.2) deletion client).
  - apply first_history.
  - vm_compute. left.
  - apply deletion_runs.
Defined.

Lemma deletion_told : Forall (allowed (told 42 (fun n d => u_Username d = n) (fun s => None = Some s))) deletion_run.
Proof.
  let tr := eval vm_compute in deletion_run in assert (deletion_run = tr) as -> by (vm_cast_no_check (eq_refl tr)).
  repeat (apply Forall_cons; split); try apply Forall_nil; try exact I; try done.
  all: cbn; intros; discriminate.
Qed.


End Demo.
