(* ===== verification/BotStateProps.v ===== *)
(** * BotStateProps: what the Telegram console keeps, runs and tells

    A stored session reads back ([Stored]); an account's work runs one piece at a time and
    in order ([OneAtATime]); the bot's token stays out of what is logged ([Hidden]); the
    texts of both languages fit each other and the numbers that are typed are bounded
    ([Texts]). *)

From stdpp Require Import sorting.
From S2P Require Import Prelude GoStrings GoFloat GoJson GoUrl CoreDto NodeWire NodeLive NodeLiveProps BotText BotApi BotConsole.
Import GoFloat Session.

#[local] Open Scope string_scope.
#[local] Open Scope Z_scope.

(** ** Sessions *)

Module Stored.

Lemma tags_member_none ms : foldl tags_member None ms = None.
Proof. by induction ms. Qed.

Lemma tags_decoded (l : list (string * list string)) (m : gmap string (list string)) : Forall (fun p => codec_ok p.2) l ->
  foldl tags_member (Some m) (map (fun kv => (kv.1, to_json kv.2)) l) = Some (foldl (fun m p => <[p.1 := p.2]> m) m l).
Proof.
  intros Hl. revert m. induction Hl as [|[k x] l Hx _ IH]; intros m; [done|]. cbn [map foldl fst snd] in *.
  unfold tags_member at 2. cbn [fst snd].
  assert (of_json (to_json x) [] = Some x) as -> by exact (codec_roundtrip (A := list string) x Hx). apply IH.
Qed.

Definition tags_ok (m : gmap string (list string)) : Prop := map_Forall (fun k l => ValidUTF8 k = true /\ codec_ok l) m.

#[export] Instance tags_laws : CodecLaws (gmap string (list string)).
Proof.
  refine {| codec_ok := tags_ok |}.
  - apply map_Forall_empty.
  - intros x Hx. by apply bool_decide_eq_true in Hx.
  - intros m Hm. cbn. rewrite forallb_forall. intros [k j] ([k' l] & [= -> <-] & Hin)%in_map_iff.
    apply list_elem_of_In, by_name_in in Hin. destruct (Hm _ _ Hin) as [Hk Hl].
    rewrite Hk. by exact (codec_wf (A := list string) l Hl).
  - intros m Hm. cbn [to_json of_json tags_codec zero]. rewrite tags_decoded.
    + f_equal. rewrite inserts_list_to_map; [apply list_to_map_sorted|].
      rewrite (fmap_Permutation fst _ _ (by_name_perm m)). apply NoDup_fst_map_to_list.
    + apply Forall_forall. intros [k l] Hin%by_name_in. by destruct (Hm _ _ Hin).
  - intros [| | | | |ms|] old x; try done; cbn; [intros _ _ [= <-]; apply map_Forall_empty|].
    intros Hms Hold. revert old Hold. induction ms as [|[k j] ms IH]; intros old Hold; [by intros [= <-]|].
    cbn [foldl]. unfold tags_member at 2. cbn [fst snd mbind option_bind]. cbn in Hms. apply andb_true_iff in Hms as [[Hk Hj]%andb_true_iff Hms].
    destruct (of_json j []) as [l|] eqn:En; [|by rewrite tags_member_none].
    apply IH; [done|]. apply map_Forall_insert_2; [|done]. split; [done|].
    exact (codec_decoded (A := list string) j [] l Hj (codec_zero (A := list string)) En).
Defined.

#[local] Existing Instance int32_laws.

#[export] Instance draft_laws : CodecLaws draft.
Proof.
  refine {| codec_ok d := codec_ok (Name d) /\ codec_ok (HasTmpl d) /\ @codec_ok _ _ int32_laws (TmplID d) /\ codec_ok (TmplName d) /\
    codec_ok (Prefix d) /\ codec_ok (Suffix d) /\ codec_ok (LimitBytes d) /\ codec_ok (ExpireSecs d) /\ codec_ok (Inbounds d) |}.
  - split_and!; try done; try (cbn; lia).
  - done.
  - intros [] Hx. cbn [Name HasTmpl TmplID TmplName Prefix Suffix LimitBytes ExpireSecs Inbounds] in Hx. destruct_and? Hx. cbn [to_json draft_codec Name HasTmpl TmplID TmplName Prefix Suffix LimitBytes ExpireSecs Inbounds]. wf_members.
  - intros [] Hx. cbn [Name HasTmpl TmplID TmplName Prefix Suffix LimitBytes ExpireSecs Inbounds] in Hx. destruct_and? Hx. cbn [to_json of_json draft_codec zero Name HasTmpl TmplID TmplName Prefix Suffix LimitBytes ExpireSecs Inbounds].
    read_fields. reflexivity.
  - intros j old x Hj Hold. destruct_and? Hold. destruct j; cbn [of_json draft_codec]; try done; [by intros [= <-]|]. decoded_fields.
Defined.

#[export] Instance session_laws : CodecLaws session.
Proof.
  refine {| codec_ok s := codec_ok (Mode s) /\ codec_ok (Step s) /\ codec_ok (User s) /\ codec_ok (Msg s) /\ codec_ok (Draft s) |}.
  - split_and!; try done.
  - done.
  - intros [] Hx. cbn [Mode Step User Msg Draft] in Hx. destruct_and? Hx. cbn [to_json session_codec Mode Step User Msg Draft]. wf_members.
  - intros [] Hx. cbn [Mode Step User Msg Draft] in Hx. destruct_and? Hx. cbn [to_json of_json session_codec zero Mode Step User Msg Draft].
    read_fields. reflexivity.
  - intros j old x Hj Hold. destruct_and? Hold. destruct j; cbn [of_json session_codec]; try done; [by intros [= <-]|]. decoded_fields.
Defined.

(** A session whose texts are UTF-8 and whose numbers fit their types. *)
Definition session_ok (s : session) : Prop := codec_ok s.

(** a session that was saved is loaded as it was: mode, step, user, message and every
    part of the draft, the protocols and tags of a template included. *)
Theorem session_reads_back s : session_ok s -> Mode s <> "" -> read (encode (to_json s)) = Some s.
Proof.
  intros Hs Hm. unfold read. rewrite (parse_encode _ (codec_wf s Hs)). cbn [mbind option_bind].
  rewrite (codec_roundtrip s Hs). cbn [mbind option_bind].
  by apply String.eqb_neq in Hm as ->.
Qed.

Definition example : session :=
  mkSession modeWizard stepConfirm "" 9
    (mkDraft "alice" true 3 "Gold" "eu_" "" (5 * 2 ^ 30) (30 * 86400) (<["vless" := ["a"; "b"]]> {[ "trojan" := ["c"] ]})).

Lemma session_reads_back_witness : read (encode (to_json example)) = Some example.
Proof.
  apply session_reads_back; [|done]. repeat split; try done; try (cbn; unfold fits; lia).
  all: cbn in H; rewrite lookup_insert_Some, lookup_singleton_Some in H; destruct H as [[<- <-]|[_ [<- <-]]]; by repeat constructor.
Defined.
End Stored.

(** ** The queue *)

Module OneAtATime.
Import Queue.

Section queue.
Context {J : Type}.
Implicit Types (s : state J) (uid : Z).

Inductive reachable : state J -> Prop :=
  | q_init : reachable init
  | q_step s s' : reachable s -> step s s' -> reachable s'.

(** A worker runs exactly when the queue says so, and a queue without one is empty. *)
Definition fine (q : userQueue J) (acc st : list J) (w : list (option J)) : Prop :=
  acc = (st ++ pending q)%list /\ (length (pending q) <= maxQueued)%nat /\
  length w = (if running q then 1 else 0)%nat /\ (running q = false -> pending q = []).

Definition sound s : Prop :=
  forall uid, fine (queue_of s uid) (of_account uid (accepted s)) (of_account uid (started s)) (working uid s).

Lemma of_account_snoc uid v (j : J) l : of_account uid (l ++ [(v, j)]) = (of_account uid l ++ if v =? uid then [j] else [])%list.
Proof. unfold of_account. rewrite omap_app. cbn. by destruct (v =? uid). Qed.

Lemma working_mid uid v h w1 w2 qs (a b : list (Z * J)) :
  working uid (mkState qs (w1 ++ (v, h) :: w2) a b) =
    (working uid (mkState qs w1 a b) ++ (if v =? uid then [h] else []) ++ working uid (mkState qs w2 a b))%list.
Proof. unfold working. cbn [workers]. rewrite omap_app. cbn. by destruct (v =? uid). Qed.

Lemma working_app uid w1 w2 qs qs' (a b a' b' : list (Z * J)) :
  working uid (mkState qs (w1 ++ w2) a b) = (working uid (mkState qs' w1 a' b') ++ working uid (mkState qs' w2 a' b'))%list.
Proof. unfold working. cbn [workers]. apply omap_app. Qed.

Lemma queue_of_insert qs ws (a b : list (Z * J)) v q uid :
  queue_of (mkState (<[v := q]> qs) ws a b) uid = if v =? uid then q else default no_queue (qs !! uid).
Proof.
  unfold queue_of. cbn [queues]. destruct (Z.eqb_spec v uid) as [->|Hne]; [by rewrite lookup_insert_eq|by rewrite lookup_insert_ne].
Qed.

Lemma enqueue_sound uid j s : sound s -> sound (enqueue uid j s).
Proof.
  intros Hs v. pose proof (Hs v) as Hv. unfold enqueue. cbv zeta.
  destruct (maxQueued <=? length (pending (queue_of s uid)))%nat eqn:E; cbn [accepted started]; rewrite queue_of_insert.
  - destruct (Z.eqb_spec uid v) as [->|Hne]; exact Hv.
  - apply Nat.leb_gt in E. rewrite of_account_snoc. destruct Hv as (Ha & Hl & Hw & Hr).
    destruct (Z.eqb_spec uid v) as [->|Hne].
    + unfold fine. cbn [pending running]. rewrite Ha, app_assoc, length_app. cbn [length].
      split_and!; [done|lia| |done]. destruct (running (queue_of s v)); [done|].
      unfold working in *. cbn [workers]. rewrite omap_app, length_app, Hw. cbn. by rewrite Z.eqb_refl.
    + rewrite app_nil_r. split_and!; [done..| |done]. change (default no_queue (queues s !! v)) with (queue_of s v). rewrite <- Hw. destruct (running (queue_of s uid)); [done|].
      unfold working. cbn [workers]. rewrite omap_app. cbn. by rewrite (proj2 (Z.eqb_neq uid v) Hne), app_nil_r.
Qed.

Lemma take_sound s w1 w2 uid j rest r : sound s -> workers s = (w1 ++ (uid, None) :: w2)%list ->
  queues s !! uid = Some (mkQueue (j :: rest) r) ->
  sound (mkState (<[uid := mkQueue rest r]> (queues s)) (w1 ++ (uid, Some j) :: w2)%list (accepted s) (started s ++ [(uid, j)])%list).
Proof.
  intros Hs Hw Hq v. destruct s as [qs ws a b]. cbn [workers queues accepted started] in *. subst ws. destruct (Hs v) as (Ha & Hl & Hk & Hr).
  rewrite queue_of_insert, working_mid, of_account_snoc. rewrite working_mid in Hk. cbn [accepted started] in Ha.
  unfold queue_of in *. cbn [queues] in *. rewrite !length_app in Hk. revert Hk. destruct (Z.eqb_spec uid v) as [->|Hne]; intros Hk.
  - rewrite Hq in *. cbn [default from_option id pending running length] in *. unfold fine. cbn [pending running].
    rewrite <- app_assoc, !length_app. cbn [length]. split_and!; [done|lia|exact Hk|intros Hf; by specialize (Hr Hf)].
  - rewrite app_nil_r. unfold fine. rewrite !length_app. by split_and!.
Qed.

Lemma step_sound s s' : sound s -> step s s' -> sound s'.
Proof.
  intros Hs Hstep. revert Hs. destruct Hstep as [s0 uid j|s0 w1 w2 uid j rest r Hw Hq|s0 w1 w2 uid j Hw|s0 w1 w2 uid r Hw Hq]; intros Hs.
  - by apply enqueue_sound.
  - by apply take_sound.
  - intros v. specialize (Hs v). destruct s0 as [qs ws a b]. cbn [workers queues accepted started] in *. subst ws.
    destruct Hs as (Ha & Hl & Hk & Hr). rewrite working_mid in *. split_and!; [done..| |done].
    change (queue_of (mkState qs (w1 ++ (uid, None) :: w2) a b) v) with (queue_of (mkState qs (w1 ++ (uid, Some j) :: w2) a b) v).
    rewrite !length_app in *. by destruct (uid =? v).
  - intros v. specialize (Hs v). destruct s0 as [qs ws a b]. cbn [workers queues accepted started] in *. subst ws.
    destruct Hs as (Ha & Hl & Hk & Hr). rewrite working_mid, !length_app in Hk. rewrite queue_of_insert, (working_app _ _ _ _ qs _ _ a b).
    unfold queue_of in *. cbn [queues accepted started] in *. revert Hk. destruct (Z.eqb_spec uid v) as [->|Hne]; intros Hk.
    + rewrite Hq in *. cbn [default from_option id pending running length] in *. unfold fine. cbn [pending running].
      rewrite !length_app. cbn [length]. split_and!; [done|lia| |done]. destruct r; lia.
    + unfold fine. rewrite !length_app. by split_and!.
Qed.

(** C8: however updates arrive and workers are scheduled, an account has at most one piece
    of work in hand and at most fifty waiting; what was accepted is started in the order it
    came, none twice and none skipped; and while something waits a worker runs. *)
Theorem one_at_a_time s uid : reachable s ->
  (length (working uid s) <= 1)%nat /\ (length (pending (queue_of s uid)) <= 50)%nat /\
  of_account uid (accepted s) = (of_account uid (started s) ++ pending (queue_of s uid))%list /\
  (pending (queue_of s uid) <> [] -> length (working uid s) = 1%nat).
Proof.
  intros Hr. assert (sound s) as Hs. { induction Hr; [|by eapply step_sound]. intros v. by split_and!; try apply Nat.le_0_l. }
  destruct (Hs uid) as (Ha & Hl & Hw & Hn). rewrite Hw. split_and!; [by destruct (running _); lia|done|done|].
  intros Hp. destruct (running _); [done|]. by destruct Hp, Hn.
Qed.
End queue.

Definition two_waiting : state nat := enqueue 7 2%nat (enqueue 7 1%nat init).

Lemma one_at_a_time_witness :
  (length (working 7 two_waiting) <= 1)%nat /\ (length (pending (queue_of two_waiting 7)) <= 50)%nat /\
  of_account 7 (accepted two_waiting) = (of_account 7 (started two_waiting) ++ pending (queue_of two_waiting 7))%list /\
  (pending (queue_of two_waiting 7) <> [] -> length (working 7 two_waiting) = 1%nat).
Proof.
  apply one_at_a_time. apply q_step with (s := enqueue 7 1%nat init); [|constructor].
  apply q_step with (s := init); constructor.
Defined.
End OneAtATime.

(** ** The token of the bot *)

Module Hidden.
Import Bot.

(** Telegram's tokens have a colon and no angle bracket. *)
Definition token_like (tk : string) : Prop := free_of ":" tk = false /\ free_of "<" tk = true /\ free_of ">" tk = true.

Lemma Contains_cons c r p : p <> "" -> Contains (String c r) p = String.prefix p (String c r) || Contains r p.
Proof.
  intros Hp. unfold Contains, Index. destruct p as [|d p]; [done|]. cbn [String.index].
  destruct (String.prefix (String d p) (String c r)); [done|]. cbn [orb]. by destruct (String.index 0 (String d p) r).
Qed.

(** A text with a colon is no prefix of one that has none before a bracket. *)
Lemma prefix_blocked tk : free_of ":" tk = false -> free_of ">" tk = true ->
  forall w x, free_of ":" w = true -> String.prefix tk (w ++ String ">" x) = false.
Proof.
  unfold free_of. induction tk as [|c tk IH]; intros Hc Hb w x Hw; [done|]. cbn in Hc, Hb |- *. apply andb_true_iff in Hb as [Hb1 Hb2].
  destruct w as [|d w]; cbn [String.append String.prefix].
  - destruct (ascii_dec c ">") as [->|]; [discriminate Hb1|done].
  - destruct (ascii_dec c d) as [->|]; [|done]. cbn in Hw. apply andb_true_iff in Hw as [Hw1 Hw2]. rewrite Hw1 in Hc. by apply IH.
Qed.

(** What a replaced text begins with is what the text begins with, up to a bracket. *)
Lemma prefix_kept tk n : forall s p, free_of "<" p = true -> String.prefix p (ReplaceAll n s tk "<token>") = true -> String.prefix p s = true.
Proof.
  induction n as [|n IH]; intros s p Hp; [by destruct p, s|]. destruct s as [|c s]; [by destruct p|]. destruct p as [|d p]; [done|].
  unfold free_of in Hp. cbn in Hp. apply andb_true_iff in Hp as [Hd Hp]. cbn [ReplaceAll]. destruct (strip_prefix tk (String c s)).
  - cbn. destruct (ascii_dec d "<") as [->|]; done.
  - cbn. destruct (ascii_dec d c); [|done]. by apply IH.
Qed.

Lemma prefix_strip p s : String.prefix p s = true -> strip_prefix p s <> None.
Proof.
  revert s. induction p as [|c p IH]; intros s Hs; [done|]. destruct s as [|d s]; [done|]. cbn in *.
  destruct (ascii_dec c d) as [->|]; [|done]. rewrite Ascii.eqb_refl. by apply IH.
Qed.

Lemma replaced_free tk n : token_like tk -> forall s, Contains (ReplaceAll n s tk "<token>") tk = false.
Proof.
  intros (Hc & Hl & Hg). assert (tk <> "") as Hne by (intros ->; discriminate Hc).
  assert (Contains "" tk = false) as Hempty by by destruct tk.
  induction n as [|n IH]; intros s; [done|]. destruct s as [|c s]; [done|]. cbn [ReplaceAll].
  destruct (strip_prefix tk (String c s)) as [rest|] eqn:E.
  - specialize (IH rest). revert IH. generalize (ReplaceAll n rest tk "<token>") as x. intros x IH. cbn [String.append].
    assert (forall w, free_of ":" w = true -> String.prefix tk (w ++ String ">" x) = false) as Hb by (intros w; by apply prefix_blocked).
    rewrite !Contains_cons by done. rewrite IH.
    repeat (apply orb_false_iff; split); [exact (Hb "<token" eq_refl)|exact (Hb "token" eq_refl)|exact (Hb "oken" eq_refl)
      |exact (Hb "ken" eq_refl)|exact (Hb "en" eq_refl)|exact (Hb "n" eq_refl)|exact (Hb "" eq_refl)|done].
  - rewrite Contains_cons, IH by done. rewrite orb_false_r. apply not_true_iff_false. intros Hp.
    apply (prefix_strip tk (String c s)); [|done]. destruct tk as [|d tk]; [done|]. cbn in Hp |- *.
    destruct (ascii_dec d c); [|done]. apply (prefix_kept (String d tk) n); [|done].
    unfold free_of in *. cbn in Hl. by apply andb_true_iff in Hl as [_ Hl].
Qed.

(** whatever text a failed call to Telegram carries, the request's address with the
    token in it included, the error the console gets and logs does not contain the token. *)
Theorem errors_hide_token {A} b (out : option (Decode.decoder A)) z r m :
  token_like (token b) -> do_answer b out z r = Err (Transport m) -> Contains m (token b) = false.
Proof.
  intros Ht. unfold do_answer, redact. destruct r as [msg|status body].
  - intros [= <-]. by apply replaced_free.
  - repeat case_match; discriminate.
Qed.

Lemma errors_hide_token_witness :
  Contains "dial https://api.telegram.org/bot<token>/getUpdates: refused" "12:ab" = false.
Proof.
  apply (errors_hide_token (newBotClient "12:ab" "") None tt (NoAnswer "dial https://api.telegram.org/bot12:ab/getUpdates: refused")); [|reflexivity].
  by repeat split.
Defined.
End Hidden.

(** ** Texts and numbers *)

Module Texts.
Import Fmt I18n Format.

(** Every text is there in both languages, with the same verbs in the same order. *)
Definition catalogs_agree : bool :=
  bool_decide (map fst catalog_fa = map fst catalog_en) &&
  forallb (fun kv => match lookup kv.1 catalog_fa with Some s => bool_decide (verbs s = verbs kv.2) | None => false end) catalog_en.

Lemma lookup_in k v c : lookup k c = Some v -> In (k, v) c.
Proof.
  induction c as [|[k' v'] c IH]; cbn; [done|]. destruct (String.eqb_spec k' k) as [->|]; [intros [= <-]; by left|by right; apply IH].
Qed.

(** A text takes the same arguments in either language. *)
Lemma tr_verbs key s : lookup key catalog_en = Some s -> exists s', lookup key catalog_fa = Some s' /\ verbs s' = verbs s.
Proof.
  intros Hk%lookup_in. assert (catalogs_agree = true) as Ha by (vm_cast_no_check (eq_refl true)).
  unfold catalogs_agree in Ha. apply andb_true_iff in Ha as [_ Ha]. rewrite forallb_forall in Ha. specialize (Ha _ Hk). cbn [fst snd] in Ha.
  destruct (lookup key catalog_fa) as [s'|]; [|done]. apply bool_decide_eq_true in Ha. by exists s'.
Qed.

(** An amount too small for a byte is taken for zero, which the wizard reads as unlimited. *)
Example tiny_amount_is_unlimited : parseGB "0.0000000001" true = Some 0.
Proof. vm_compute. reflexivity. Qed.

Example days_in_persian : parseDays "۳۰" false = Some 30.
Proof. vm_compute. reflexivity. Qed.

(** Without a line break to cut at, a capped message is one rune over the cap. *)
Example cap_overshoots : RuneCount (capMessage "abcdef" 5) = 6%nat.
Proof. vm_compute. reflexivity. Qed.

Example percent_of_little : usagePercent 1 (2 ^ 60) = 1.
Proof. vm_compute. reflexivity. Qed.
End Texts.
