(* ===== verification/Tickets.v ===== *)
(** * Tickets: support tickets and the emergency grant

    [internal/httpapi/tickets.go], [subscription_tickets.go] and the grant of
    [subscription_emergency.go], over the statements of [queries/tickets.sql]. Admins
    answer the tickets of their own users, sudo admins all; a customer's requests carry a
    subscription token. The two tables and the column [emergency_used_at] are kept beside
    the user database. *)

From stdpp Require Import sorting.
From S2P Require Import Prelude GoStrings GoFloat GoJson Effect ProxySettings Store UserApi LoadMap Subscription.
Import Store.

#[local] Open Scope string_scope.
#[local] Open Scope Z_scope.

Module Tickets.

(** ** Tables *)

Record Ticket := mkTicket { t_ID : Z; t_UserID : Z; Subject : string; t_Status : string; t_CreatedAt : Z; UpdatedAt : Z }.
Record TicketMessage := mkMessage { m_ID : Z; TicketID : Z; IsAdmin : bool; Body : string; m_CreatedAt : Z }.

(** [emergency] is the column [emergency_used_at]; [next] the serial sequences. *)
Record St := mkSt {
  world : World; tickets : gmap Z Ticket; messages : gmap Z TicketMessage; emergency : gmap Z Z; next_ticket : Z; next_message : Z
}.

Definition set_world w (s : St) : St := mkSt w (tickets s) (messages s) (emergency s) (next_ticket s) (next_message s).
Definition set_tickets ts (s : St) : St := mkSt (world s) ts (messages s) (emergency s) (next_ticket s) (next_message s).
Definition set_messages ms (s : St) : St := mkSt (world s) (tickets s) ms (emergency s) (next_ticket s) (next_message s).
Definition set_emergency e (s : St) : St := mkSt (world s) (tickets s) (messages s) e (next_ticket s) (next_message s).
Definition set_next t m (s : St) : St := mkSt (world s) (tickets s) (messages s) (emergency s) t m.

(** A handler answers with a value or with a status and a detail. *)
Definition M (A : Type) : Type := eff St UserApi.httperr A.

(** What runs on the user database, and one statement on the tables here. *)
Definition on_db {E A} (m : Store.M E A) : eff St E A := fun s =>
  let '(w, r) := m (world s) in (set_world w s, r).

Definition stmt {A} (q : St -> result dberror (St * A)) : eff St dberror A := fun s =>
  match faults (world s) with
  | true :: fs => (set_world (mkWorld (db (world s)) fs) s, Err Unavailable)
  | fs =>
      let s := set_world (mkWorld (db (world s)) (tail fs)) s in
      match q s with Ok (s, a) => (s, Ok a) | Err e => (s, Err e) end
  end.

Definition query {A} (q : St -> result dberror A) : eff St dberror A :=
  stmt (fun s => match q s with Ok a => Ok (s, a) | Err e => Err e end).

(** A statement whose failure is answered as a fault of the panel. *)
Definition run {A} (m : eff St dberror A) (detail : string) : M A := catch m (UserApi.err500 detail).

(** ** Statements *)

(** Postgres takes no NUL byte in a text. *)
Definition storable (s : string) : bool := str_forallb (fun c => negb (Ascii.eqb c "000")) s.

Definition CreateTicket (now userID : Z) (subject : string) (s : St) : result dberror (St * Ticket) :=
  if negb (storable subject && (char_count subject <=? 255)%nat) then Err OutOfRange
  else match users (db (world s)) !! userID with
       | None => Err ForeignKey
       | Some _ =>
           let t := mkTicket (next_ticket s) userID subject "open" now now in
           Ok (set_next (next_ticket s + 1) (next_message s) (set_tickets (<[next_ticket s := t]> (tickets s)) s), t)
       end.

Definition CreateTicketMessage (now ticketID : Z) (isAdmin : bool) (body : string) (s : St) : result dberror (St * TicketMessage) :=
  if negb (storable body) then Err OutOfRange
  else match tickets s !! ticketID with
       | None => Err ForeignKey
       | Some _ =>
           let m := mkMessage (next_message s) ticketID isAdmin body now in
           Ok (set_next (next_ticket s) (next_message s + 1) (set_messages (<[next_message s := m]> (messages s)) s), m)
       end.

Definition rows {A} (m : gmap Z A) : list A := map snd (map_to_list m).

Definition CountOpenTicketsByUserID (userID : Z) (s : St) : result dberror Z :=
  Ok (Z.of_nat (length (List.filter (fun t => (t_UserID t =? userID) && String.eqb (t_Status t) "open") (rows (tickets s))))).

Definition CountTicketMessages (ticketID : Z) (s : St) : result dberror Z :=
  Ok (Z.of_nat (length (List.filter (fun m => TicketID m =? ticketID) (rows (messages s))))).

Definition GetUserTicketByID (id userID : Z) (s : St) : result dberror Ticket :=
  match tickets s !! id with
  | Some t => if t_UserID t =? userID then Ok t else Err NoRows
  | None => Err NoRows
  end.

(** Newest first. Rows of one instant come in no particular order; here by id. *)
Definition newer (p q : Z * Z) : bool := (q.1 <? p.1) || ((q.1 =? p.1) && (q.2 <=? p.2)).
Definition created_first (t u : Ticket) : Prop := newer (t_CreatedAt t, t_ID t) (t_CreatedAt u, t_ID u) = true.
Definition updated_first (t u : Ticket) : Prop := newer (UpdatedAt t, t_ID t) (UpdatedAt u, t_ID u) = true.

#[export] Instance created_first_dec t u : Decision (created_first t u) := decide (_ = _).
#[export] Instance updated_first_dec t u : Decision (updated_first t u) := decide (_ = _).

(** [LIMIT] and [OFFSET]; Postgres refuses a negative one. *)
Definition page {A} (limit offset : Z) (l : list A) : result dberror (list A) :=
  if (limit <? 0) || (offset <? 0) then Err OutOfRange else Ok (take (Z.to_nat limit) (drop (Z.to_nat offset) l)).

Definition ListUserTickets (userID limit offset : Z) (s : St) : result dberror (list Ticket) :=
  page limit offset (merge_sort created_first (List.filter (fun t => t_UserID t =? userID) (rows (tickets s)))).

(** By ticket and in the order they came. *)
Definition thread_order (m n : TicketMessage) : Prop := (TicketID m <? TicketID n) || ((TicketID m =? TicketID n) && (m_ID m <=? m_ID n)) = true.

#[export] Instance thread_order_dec m n : Decision (thread_order m n) := decide (_ = _).

Definition ListTicketMessagesByTicketIDs (ids : list Z) (s : St) : result dberror (list TicketMessage) :=
  Ok (merge_sort thread_order (List.filter (fun m => bool_decide (TicketID m ∈ ids)) (rows (messages s)))).

Definition change_ticket (id : Z) (f : Ticket -> Ticket) (s : St) : result dberror (St * Ticket) :=
  match tickets s !! id with
  | None => Err NoRows
  | Some t => Ok (set_tickets (<[id := f t]> (tickets s)) s, f t)
  end.

Definition with_status (now : Z) (status : string) (t : Ticket) : Ticket :=
  mkTicket (t_ID t) (t_UserID t) (Subject t) status (t_CreatedAt t) now.

Definition TouchAndReopenTicket (now id : Z) : St -> result dberror (St * Ticket) := change_ticket id (with_status now "open").

Definition UpdateTicketStatus (now id : Z) (status : string) (s : St) : result dberror (St * Ticket) :=
  if str_mem status ["open"; "closed"] then change_ticket id (with_status now status) s else Err CheckViolation.

(** The owner of a ticket's user, [None] without the user; [admin_id = $1 OR $1 IS NULL]. *)
Definition in_scope (admin : option Z) (d : Db) (t : Ticket) : bool :=
  match users d !! t_UserID t with
  | None => false
  | Some u => match admin with None => true | Some a => bool_decide (AdminID u = Some a) end
  end.

(** A ticket with the name of its user and of the user's admin. *)
Definition joined (d : Db) (t : Ticket) : Ticket * string * option string :=
  match users d !! t_UserID t with
  | None => (t, "", None)
  | Some u => (t, Username u, a ← AdminID u; a_Username <$> admins d !! a)
  end.

Definition GetAdminTicketByID (id : Z) (admin : option Z) (s : St) : result dberror (Ticket * string * option string) :=
  let d := db (world s) in
  match tickets s !! id with
  | Some t => if in_scope admin d t then Ok (joined d t) else Err NoRows
  | None => Err NoRows
  end.

Definition listed (admin : option Z) (status : option string) (s : St) : list Ticket :=
  List.filter (fun t => in_scope admin (db (world s)) t && match status with Some x => String.eqb (t_Status t) x | None => true end)
    (rows (tickets s)).

Definition ListAdminTickets (admin : option Z) (status : option string) (limit offset : Z) (s : St) :
    result dberror (list (Ticket * string * option string)) :=
  l ← page limit offset (merge_sort updated_first (listed admin status s));
  Ok (map (joined (db (world s))) l).

Definition CountAdminTickets (admin : option Z) (status : option string) (s : St) : result dberror Z :=
  Ok (Z.of_nat (length (listed admin status s))).

(** ** Requests *)

Definition ticketStatusOpen : string := "open".
Definition ticketStatusClosed : string := "closed".
Definition maxOpenTicketsPerUser : Z := 5.
Definition maxMessagesPerTicket : Z := 100.
Definition ticketSubjectMaxLen : nat := 255.
Definition ticketBodyMaxLen : nat := Z.to_nat 4000.

(** [ticketTextOK]: the trimmed text, if it has between one and [max] characters. *)
Definition ticketTextOK (v : string) (max : nat) : option string :=
  let trimmed := TrimSpace v in
  let n := char_count trimmed in
  if (0 <? n)%nat && (n <=? max)%nat then Some trimmed else None.

(** The members of a body that is an object; [null] leaves every field empty. *)
Definition bind (text : string) : option (list (string * json)) :=
  '(j, _) ← decode_value text;
  match j with JObject ms => Some ms | JNull => Some [] | _ => None end.

Definition required (name : string) (ms : list (string * json)) : option string :=
  v ← get_from name (Some "") ms;
  if String.eqb v "" then None else Some v.

Definition ticketMessageWriteRequest (text : string) : option string := ms ← bind text; required "body" ms.
Definition ticketStatusWriteRequest (text : string) : option string := ms ← bind text; required "status" ms.
Definition ticketCreateRequest (text : string) : option (string * string) :=
  ms ← bind text; s ← required "subject" ms; m ← required "message" ms; Some (s, m).

Definition parseIDParam (v : string) : option Z := n ← ParseInt v; if bool_decide (fits 32 n) then Some n else None.

(** A number of the query within bounds, or the default. *)
Definition query_int (v : string) (default lo : Z) (hi : option Z) : Z :=
  match ParseInt v with
  | Some n => if (lo <=? n) && match hi with Some h => n <=? h | None => true end then n else default
  | None => default
  end.

(** ** Answers *)

Record ticketMessageDTO := mkMessageDTO { dm_ID : Z; dm_IsAdmin : bool; dm_Body : string; dm_CreatedAt : Z }.

(** A nil slice of messages is written as [null]. *)
Record ticketDTO := mkDTO {
  d_ID : Z; d_Subject : string; d_Status : string; d_CreatedAt : Z; d_UpdatedAt : Z; d_Messages : option (list ticketMessageDTO)
}.

Record adminTicketDTO := mkAdminDTO { d_ticket : ticketDTO; d_Username : string; d_Owner : option string }.

Definition toTicketMessageDTO (m : TicketMessage) : ticketMessageDTO := mkMessageDTO (m_ID m) (IsAdmin m) (Body m) (m_CreatedAt m).
Definition toTicketMessageDTOs (l : list TicketMessage) : list ticketMessageDTO := map toTicketMessageDTO l.

Definition toTicketDTO (t : Ticket) (msgs : option (list ticketMessageDTO)) : ticketDTO :=
  mkDTO (t_ID t) (Subject t) (t_Status t) (t_CreatedAt t) (UpdatedAt t) msgs.

Definition toAdminTicketDTO (row : Ticket * string * option string) (msgs : option (list ticketMessageDTO)) : adminTicketDTO :=
  let '(t, username, owner) := row in mkAdminDTO (toTicketDTO t msgs) username owner.

Definition add_message (out : gmap Z (list ticketMessageDTO)) (m : TicketMessage) : gmap Z (list ticketMessageDTO) :=
  <[TicketID m := (default [] (out !! TicketID m) ++ [toTicketMessageDTO m])%list]> out.

Definition loadMessagesByTicketID (ids : list Z) : eff St dberror (gmap Z (list ticketMessageDTO)) :=
  match ids with
  | [] => mret ∅
  | _ => msgs ← query (ListTicketMessagesByTicketIDs ids); mret (foldl add_message ∅ msgs)
  end.

(** ** The admins' side *)

Definition scopedAdminID (identity : UserApi.Identity) : option Z :=
  if UserApi.IsSudo identity then None else Some (int32 (UserApi.i_AdminID identity)).

Definition handleListTickets (identity : UserApi.Identity) (status limit offset : string) : M (list adminTicketDTO * Z) :=
  if negb (String.eqb status "" || String.eqb status ticketStatusOpen || String.eqb status ticketStatusClosed) then
    throw (422, "invalid status")
  else
    let wanted := if String.eqb status "" then None else Some status in
    let adminID := scopedAdminID identity in
    rows ← run (query (ListAdminTickets adminID wanted (int32 (query_int limit 50 1 (Some 200))) (int32 (query_int offset 0 0 None))))
             "Could not list tickets";
    total ← run (query (CountAdminTickets adminID wanted)) "Could not list tickets";
    byTicket ← run (loadMessagesByTicketID (map (fun r => t_ID r.1.1) rows)) "Could not list tickets";
    mret (map (fun r => toAdminTicketDTO r (byTicket !! t_ID r.1.1)) rows, total).

(** A ticket of the caller's with its messages; [None] if there is none. *)
Definition renderAdminTicket (id : Z) (identity : UserApi.Identity) : eff St dberror (option adminTicketDTO) := fun s =>
  match query (GetAdminTicketByID id (scopedAdminID identity)) s with
  | (s, Err NoRows) => (s, Ok None)
  | (s, Err e) => (s, Err e)
  | (s, Ok row) => (msgs ← query (ListTicketMessagesByTicketIDs [id]);
                    mret (Some (toAdminTicketDTO row (Some (toTicketMessageDTOs msgs))))) s
  end.

Definition found (o : option adminTicketDTO) : M adminTicketDTO :=
  match o with Some dto => mret dto | None => throw (404, "Ticket not found") end.

Definition handleGetTicket (identity : UserApi.Identity) (idParam : string) : M adminTicketDTO :=
  match parseIDParam idParam with
  | None => throw (422, "invalid ticket id")
  | Some id => o ← run (renderAdminTicket id identity) "Could not read ticket"; found o
  end.

(** The ticket after a write; not finding it is a fault as well. *)
Definition read_back (id : Z) (identity : UserApi.Identity) (detail : string) : M adminTicketDTO :=
  o ← run (renderAdminTicket id identity) detail;
  match o with Some dto => mret dto | None => throw (500, detail) end.

Definition insertTicketMessage (now id : Z) (body : string) (isAdmin : bool) : eff St dberror unit :=
  _ ← stmt (CreateTicketMessage now id isAdmin body);
  _ ← stmt (TouchAndReopenTicket now id);
  mret tt.

Definition handleAdminReplyTicket (now : Z) (identity : UserApi.Identity) (idParam text : string) : M adminTicketDTO :=
  match parseIDParam idParam with
  | None => throw (422, "invalid ticket id")
  | Some id =>
      match ticketMessageWriteRequest text ≫= fun b => ticketTextOK b ticketBodyMaxLen with
      | None => throw (422, "body must be 1 to 4000 characters")
      | Some body =>
          o ← run (renderAdminTicket id identity) "Could not read ticket";
          _ ← found o;
          _ ← run (insertTicketMessage now id body true) "Could not send reply";
          read_back id identity "Reply sent but could not be read back"
      end
  end.

Definition handleUpdateTicketStatus (now : Z) (identity : UserApi.Identity) (idParam text : string) : M adminTicketDTO :=
  match parseIDParam idParam with
  | None => throw (422, "invalid ticket id")
  | Some id =>
      match ticketStatusWriteRequest text with
      | Some status =>
          if negb (String.eqb status ticketStatusOpen || String.eqb status ticketStatusClosed) then throw (422, "status must be 'open' or 'closed'")
          else
            o ← run (renderAdminTicket id identity) "Could not read ticket";
            _ ← found o;
            _ ← run (stmt (UpdateTicketStatus now id status)) "Could not update ticket";
            read_back id identity "Status updated but could not be read back"
      | None => throw (422, "status must be 'open' or 'closed'")
      end
  end.

(** ** The customers' side *)

Section customer.
Context `{Token.Crypto} `{LoadMap.FloatToInt} (secret : string).

Definition subscriber (token : string) : M User := on_db (Token.loadSubscriptionUser token secret).

Definition handleListMyTickets (token limit offset : string) : M (list ticketDTO) :=
  user ← subscriber token;
  rows ← run (query (ListUserTickets (ID user) (int32 (query_int limit 20 1 (Some 100))) (int32 (query_int offset 0 0 None)))) "Could not list tickets";
  byTicket ← run (loadMessagesByTicketID (map t_ID rows)) "Could not list tickets";
  mret (map (fun t => toTicketDTO t (byTicket !! t_ID t)) rows).

Definition handleCreateMyTicket (now : Z) (token text : string) : M ticketDTO :=
  user ← subscriber token;
  match '(s, m) ← ticketCreateRequest text; s ← ticketTextOK s ticketSubjectMaxLen; m ← ticketTextOK m ticketBodyMaxLen; Some (s, m) with
  | None => throw (422, "invalid subject/message")
  | Some (subject, message) =>
      openCount ← run (query (CountOpenTicketsByUserID (ID user))) "Could not create ticket";
      if maxOpenTicketsPerUser <=? openCount then throw (400, "You already have 5 open tickets")
      else
        ticket ← run (stmt (CreateTicket now (ID user) subject)) "Could not create ticket";
        msg ← run (stmt (CreateTicketMessage now (t_ID ticket) false message)) "Could not create ticket";
        mret (toTicketDTO ticket (Some [toTicketMessageDTO msg]))
  end.

(** Any failure of the lookup reads as no ticket. *)
Definition handleReplyMyTicket (now : Z) (token idParam text : string) : M ticketDTO :=
  user ← subscriber token;
  match parseIDParam idParam with
  | None => throw (422, "invalid ticket id")
  | Some id =>
      match ticketMessageWriteRequest text ≫= fun b => ticketTextOK b ticketBodyMaxLen with
      | None => throw (422, "body must be 1 to 4000 characters")
      | Some body =>
          _ ← catch (query (GetUserTicketByID id (ID user))) (fun _ => (404, "Ticket not found"));
          msgCount ← run (query (CountTicketMessages id)) "Could not send reply";
          if maxMessagesPerTicket <=? msgCount then throw (400, "This ticket already has 100 messages")
          else
            _ ← run (insertTicketMessage now id body false) "Could not send reply";
            updated ← run (query (GetUserTicketByID id (ID user))) "Reply sent but could not be read back";
            msgs ← run (query (ListTicketMessagesByTicketIDs [id])) "Reply sent but could not be read back";
            mret (toTicketDTO updated (Some (toTicketMessageDTOs msgs)))
      end
  end.

(** ** The emergency grant *)

Definition emergencyRechargeDataBytes : Z := 50 * 1024 * 1024.
Definition emergencyRechargeSeconds : Z := 30 * 60.

(** [expire] is a 32-bit column, the sum is computed in 32 bits. *)
Definition granted (now : Z) (c : Core) : result dberror Core :=
  l ← match DataLimit c with
      | Some l => if 0 <? l then n ← int8 (l + 52428800); Ok (Some n) else Ok (Some l)
      | None => Ok None
      end;
  e ← match Expire c with
      | Some e => if 0 <? e then n ← int4 (unix now); m ← int4 (Z.max e n + 1800); Ok (Some m) else Ok (Some e)
      | None => Ok None
      end;
  Ok (mkCore "active" l (DataLimitResetStrategy c) e (Note c) (OnHoldExpireDuration c) (OnHoldTimeout c) (AutoDeleteInDays c)).

Definition ApplyEmergencyRecharge (now id : Z) (s : St) : result dberror (St * User) :=
  match emergency s !! id with
  | Some _ => Err NoRows
  | None =>
      match update_user id (fun u => c ← granted now (core u); Ok (touch_status now (Store.with_core c u))) (db (world s)) with
      | Ok (d, u) => Ok (set_emergency (<[id := now]> (emergency s)) (set_world (mkWorld d (faults (world s))) s), u)
      | Err e => Err e
      end
  end.

(** The user, when the grant was used and what it is worth. *)
Definition handleEmergencyRecharge (now : Z) (token : string) : M (User * Z * Z) :=
  user ← subscriber token;
  used ← (fun s => (s, Ok (emergency s !! ID user)));
  match used with
  | Some _ => throw (409, "Emergency recharge has already been used")
  | None =>
      if negb (String.eqb (Status (core user)) "limited" || String.eqb (Status (core user)) "expired") then
        throw (400, "Emergency recharge is only available when your account is out of data or expired")
      else
        updated ← catch (stmt (ApplyEmergencyRecharge now (ID user))) (fun _ => (409, "Emergency recharge has already been used"));
        mret (updated, emergencyRechargeDataBytes, emergencyRechargeSeconds)
  end.

(** ** The routes *)

Inductive request :=
  | ListTickets (identity : UserApi.Identity) (status limit offset : string)
  | GetTicket (identity : UserApi.Identity) (id : string)
  | ReplyTicket (now : Z) (identity : UserApi.Identity) (id text : string)
  | PutTicket (now : Z) (identity : UserApi.Identity) (id text : string)
  | ListMine (token limit offset : string)
  | CreateMine (now : Z) (token text : string)
  | ReplyMine (now : Z) (token id text : string).

Inductive answer :=
  | Inbox (tickets : list adminTicketDTO) (total : Z)
  | OneTicket (ticket : adminTicketDTO)
  | MyTickets (tickets : list ticketDTO)
  | MyTicket (ticket : ticketDTO).

Definition serve (r : request) : M answer :=
  match r with
  | ListTickets identity status limit offset => a ← handleListTickets identity status limit offset; mret (Inbox a.1 a.2)
  | GetTicket identity id => a ← handleGetTicket identity id; mret (OneTicket a)
  | ReplyTicket now identity id text => a ← handleAdminReplyTicket now identity id text; mret (OneTicket a)
  | PutTicket now identity id text => a ← handleUpdateTicketStatus now identity id text; mret (OneTicket a)
  | ListMine token limit offset => a ← handleListMyTickets token limit offset; mret (MyTickets a)
  | CreateMine now token text => a ← handleCreateMyTicket now token text; mret (MyTicket a)
  | ReplyMine now token id text => a ← handleReplyMyTicket now token id text; mret (MyTicket a)
  end.
End customer.

End Tickets.
