(* ===== verification/TicketsProps.v ===== *)
(** * TicketsProps: who sees which ticket, and what becomes of conversations *)

From stdpp Require Import sorting.
From S2P Require Import Prelude GoStrings GoFloat GoJson Effect ProxySettings Store ReviewJob UserApi LoadMap Subscription Tickets.
Import Store Tickets.

#[local] Open Scope string_scope.
#[local] Open Scope Z_scope.

(** ** Rows of a part of a table *)

Module Rows.

Lemma elem_rows {A} (m : gmap Z A) x : x ∈ rows m <-> exists i, m !! i = Some x.
Proof.
  unfold rows. rewrite list_elem_of_fmap. split.
  - intros ([i y] & -> & H%elem_of_map_to_list). by exists i.
  - intros (i & H). exists (i, x). by rewrite elem_of_map_to_list.
Qed.

Lemma rows_NoDup {A} (key : A -> Z) (m : gmap Z A) : (forall i x, m !! i = Some x -> key x = i) -> NoDup (rows m).
Proof.
  intros Hk. unfold rows. apply NoDup_fmap_2_strong; [|apply NoDup_map_to_list].
  intros [i x] [j y] Hi%elem_of_map_to_list Hj%elem_of_map_to_list E. cbn in E. subst y.
  apply Hk in Hi as <-. by apply Hk in Hj as ->.
Qed.

Lemma elem_filter {A} (f : A -> bool) l x : x ∈ List.filter f l <-> x ∈ l /\ f x = true.
Proof. rewrite !list_elem_of_In. apply filter_In. Qed.

Lemma NoDup_filter_list {A} (f : A -> bool) (l : list A) : NoDup l -> NoDup (List.filter f l).
Proof. intros H%NoDup_ListNoDup. by apply NoDup_ListNoDup, List.NoDup_filter. Qed.

Lemma none_selected {A} (f : A -> bool) l : (forall x, x ∈ l -> f x = false) -> List.filter f l = [].
Proof. induction l as [|x l IH]; intros H; [done|]. cbn. rewrite H by constructor. apply IH. intros y Hy. apply H. by constructor. Qed.

(** A selection that only takes rows of a part takes the same rows from the part. *)
Lemma selection {A} (key : A -> Z) (m : gmap Z A) (g f : A -> bool) :
  (forall i x, m !! i = Some x -> key x = i) -> (forall x, x ∈ rows m -> f x = true -> g x = true) ->
  List.filter f (rows (filter (fun kv => g kv.2 = true) m)) ≡ₚ List.filter f (rows m).
Proof.
  intros Hk Hfg. apply NoDup_Permutation.
  - apply NoDup_filter_list, (rows_NoDup key). intros i x [Hx _]%map_lookup_filter_Some. by apply Hk.
  - by apply NoDup_filter_list, (rows_NoDup key).
  - intros x. rewrite !elem_filter, !elem_rows. split.
    + intros ((i & [Hx _]%map_lookup_filter_Some) & Hf). eauto.
    + intros ((i & Hx) & Hf). split; [|done]. exists i. rewrite map_lookup_filter_Some. split; [done|].
      apply Hfg; [|done]. apply elem_rows. eauto.
Qed.

(** Sorting forgets in what order rows came when no two of them compare equal. *)
Lemma sorted_same {A} (R : relation A) `{!forall x y, Decision (R x y), !Transitive R, !Total R} (l k : list A) :
  (forall x y, x ∈ l -> y ∈ l -> R x y -> R y x -> x = y) -> l ≡ₚ k -> merge_sort R l = merge_sort R k.
Proof.
  intros Ha Hp. apply (Sorted_unique_strong R); [|apply Sorted_merge_sort; apply _..|].
  - intros x y. rewrite !merge_sort_Permutation, <- Hp. apply Ha.
  - by rewrite !merge_sort_Permutation.
Qed.

End Rows.

Module TicketsProps.
Import Rows.

#[local] Instance thread_trans : Transitive thread_order.
Proof. intros [] [] []. unfold thread_order. cbn. lia. Qed.
#[local] Instance thread_total : Total thread_order.
Proof. intros [] []. unfold thread_order. cbn. lia. Qed.
#[local] Instance created_trans : Transitive created_first.
Proof. intros [] [] []. unfold created_first, newer. cbn. lia. Qed.
#[local] Instance created_total : Total created_first.
Proof. intros [] []. unfold created_first, newer. cbn. lia. Qed.
#[local] Instance updated_trans : Transitive updated_first.
Proof. intros [] [] []. unfold updated_first, newer. cbn. lia. Qed.
#[local] Instance updated_total : Total updated_first.
Proof. intros [] []. unfold updated_first, newer. cbn. lia. Qed.

(** ** Well-formed tables *)

Definition owned_tickets (s : St) : Prop :=
  forall i t, tickets s !! i = Some t -> t_ID t = i /\ i < next_ticket s.
Definition owned_messages (s : St) : Prop :=
  forall i m, messages s !! i = Some m -> m_ID m = i /\ i < next_message s /\ is_Some (tickets s !! TicketID m).
Definition tables (s : St) : Prop := owned_tickets s /\ owned_messages s.

(** ** The part of the tables in a scope *)

Definition visible (p : Ticket -> bool) (s : St) (m : TicketMessage) : bool :=
  match tickets s !! TicketID m with Some t => p t | None => false end.

Definition keep (p : Ticket -> bool) (s : St) : St :=
  set_messages (filter (fun kv => visible p s kv.2 = true) (messages s)) (set_tickets (filter (fun kv => p kv.2 = true) (tickets s)) s).

(** What is outside. *)
Definition rest (p : Ticket -> bool) (s : St) : gmap Z Ticket * gmap Z TicketMessage :=
  (filter (fun kv => p kv.2 = false) (tickets s), filter (fun kv => visible p s kv.2 = false) (messages s)).

Section scope.
Context (p : Ticket -> bool) (d : Db).
Hypothesis by_user : forall t u, t_UserID t = t_UserID u -> p t = p u.

(** A computation whose run on its scope alone is its run on everything, and which leaves
    the rest as it was; [P] and [Q] speak of the tickets. *)
Definition local {E A} (P : gmap Z Ticket -> Prop) (m : eff St E A) (Q : A -> gmap Z Ticket -> Prop) : Prop :=
  forall s, tables s -> db (world s) = d -> P (tickets s) ->
  let s' := (m s).1 in
  m (keep p s) = (keep p s', (m s).2) /\ rest p s' = rest p s /\ tables s' /\ db (world s') = d /\
  (forall a, (m s).2 = Ok a -> Q a (tickets s')).

Lemma local_ret {E A} P (a : A) (Q : A -> gmap Z Ticket -> Prop) : (forall ts, P ts -> Q a ts) -> local (E := E) P (mret a) Q.
Proof. intros H s Ht Hd Hp. cbn. split_and!; try done. intros b [= <-]. by apply H. Qed.

Lemma local_throw {E A} P (e : E) (Q : A -> gmap Z Ticket -> Prop) : local P (throw e) Q.
Proof. intros s Ht Hd Hp. cbn. by split_and!. Qed.

Lemma local_bind {E A B} P (m : eff St E A) (f : A -> eff St E B) Q R :
  local P m Q -> (forall a, local (Q a) (f a) R) -> local P (m ≫= f) R.
Proof.
  intros Hm Hf s Ht Hd Hp. destruct (Hm s Ht Hd Hp) as (He & Hr & Ht' & Hd' & Hq). unfold mbind, eff_bind. rewrite He.
  destruct (m s) as [s1 [a|e]]; cbn in *; [|by split_and!].
  destruct (Hf a s1 Ht' Hd' (Hq a eq_refl)) as (He2 & Hr2 & Ht2 & Hd2 & Hq2). rewrite He2. split_and!; try done. by rewrite Hr2.
Qed.

Lemma local_catch {E E' A} P (m : eff St E A) (f : E -> E') Q : local P m Q -> local P (catch m f) Q.
Proof.
  intros Hm s Ht Hd Hp. destruct (Hm s Ht Hd Hp) as (He & Hr & Ht' & Hd' & Hq). unfold catch. rewrite He.
  destruct (m s) as [s1 [a|e]]; cbn in *; split_and!; try done. intros b [= <-]. by apply Hq.
Qed.

Lemma local_if {E A} P (b : bool) (m n : eff St E A) Q : local P m Q -> local P n Q -> local P (if b then m else n) Q.
Proof. by destruct b. Qed.

Lemma local_weaken {E A} P P' (m : eff St E A) (Q Q' : A -> gmap Z Ticket -> Prop) :
  local P' m Q' -> (forall ts, P ts -> P' ts) -> (forall a ts, Q' a ts -> Q a ts) -> local P m Q.
Proof. intros Hm HP HQ s Ht Hd Hp. destruct (Hm s Ht Hd (HP _ Hp)) as (? & ? & ? & ? & H). split_and!; try done. eauto. Qed.

(** The fault list does not matter to the scope. *)
Lemma keep_world w s : keep p (set_world w s) = set_world w (keep p s).
Proof. done. Qed.

Lemma local_stmt {A} P (q : St -> result dberror (St * A)) Q :
  (forall s, tables s -> db (world s) = d -> P (tickets s) ->
     match q s with
     | Ok (s', a) => q (keep p s) = Ok (keep p s', a) /\ rest p s' = rest p s /\ tables s' /\ db (world s') = d /\ Q a (tickets s')
     | Err e => q (keep p s) = Err e
     end) -> local P (stmt q) Q.
Proof.
  intros Hq s Ht Hd Hp. unfold stmt. cbn [world keep set_messages set_tickets].
  assert (forall fs, let s0 := set_world (mkWorld (db (world s)) fs) s in
    match q s0 with
    | Ok (s', a) => q (keep p s0) = Ok (keep p s', a) /\ rest p s' = rest p s /\ tables s' /\ db (world s') = d /\ Q a (tickets s')
    | Err e => q (keep p s0) = Err e
    end) as Hs by (intros fs; apply (Hq (set_world (mkWorld (db (world s)) fs) s)); done).
  assert (forall fs, let s0 := set_world (mkWorld (db (world s)) fs) s in
    let m := fun s => match q s with Ok (s', a) => (s', Ok a) | Err e => (s, Err e) end in
    m (keep p s0) = (keep p (m s0).1, (m s0).2) /\ rest p (m s0).1 = rest p s /\ tables (m s0).1 /\ db (world (m s0).1) = d /\
    (forall a, (m s0).2 = Ok a -> Q a (tickets (m s0).1))) as Hm.
  { intros fs s0 m. specialize (Hs fs). cbv zeta in Hs. fold s0 in Hs. subst m. cbn beta. destruct (q s0) as [[s' a]|e] eqn:E.
    - destruct Hs as (-> & ? & ? & ? & ?). cbn. split_and!; try done. by intros b [= <-].
    - rewrite Hs. cbn. by split_and!. }
  destruct (faults (world s)) as [|[] fs]; [apply (Hm [])| |apply (Hm fs)].
  cbn. by split_and!.
Qed.

Lemma local_query {A} P (q : St -> result dberror A) (Q : A -> gmap Z Ticket -> Prop) :
  (forall s, tables s -> db (world s) = d -> P (tickets s) -> q (keep p s) = q s /\ forall a, q s = Ok a -> Q a (tickets s)) ->
  local P (query q) Q.
Proof.
  intros Hq. apply local_stmt. intros s Ht Hd Hp. destruct (Hq s Ht Hd Hp) as [-> H]. destruct (q s); [|done].
  split_and!; try done. by apply H.
Qed.

(** A ticket of the scope. *)
Definition ours (id : Z) (ts : gmap Z Ticket) : Prop := exists t, ts !! id = Some t /\ p t = true.

Lemma kept_tickets s f : tables s -> (forall t, f t = true -> p t = true) ->
  List.filter f (rows (tickets (keep p s))) ≡ₚ List.filter f (rows (tickets s)).
Proof. intros [Ht _] Hf. apply (selection t_ID); [intros i t H; by apply Ht|eauto]. Qed.

Lemma kept_messages s f : tables s -> (forall m, f m = true -> ours (TicketID m) (tickets s)) ->
  List.filter f (rows (messages (keep p s))) ≡ₚ List.filter f (rows (messages s)).
Proof.
  intros [_ Hm] Hf. apply (selection m_ID (messages s) (visible p s)); [intros i m H; by apply Hm|].
  intros m _ H. destruct (Hf m H) as (t & Ht & Hp). unfold visible. by rewrite Ht.
Qed.

Lemma ticket_key s t u : tables s -> t ∈ rows (tickets s) -> u ∈ rows (tickets s) -> t_ID t = t_ID u -> t = u.
Proof.
  intros [Ht _] [i Hi]%elem_rows [j Hj]%elem_rows E. apply Ht in Hi as Ei. apply Ht in Hj as Ej.
  destruct Ei as [Ei _], Ej as [Ej _]. assert (i = j) as -> by congruence. congruence.
Qed.

Lemma message_key s m n : tables s -> m ∈ rows (messages s) -> n ∈ rows (messages s) -> m_ID m = m_ID n -> m = n.
Proof.
  intros [_ Ht] [i Hi]%elem_rows [j Hj]%elem_rows E. apply Ht in Hi as Ei. apply Ht in Hj as Ej.
  destruct Ei as [Ei _], Ej as [Ej _]. assert (i = j) as -> by congruence. congruence.
Qed.

Lemma keep_tables s : tables s -> tables (keep p s).
Proof.
  intros [Ht Hm]. split.
  - intros i t [H _]%map_lookup_filter_Some. by apply Ht.
  - intros i m [H Hv]%map_lookup_filter_Some. apply Hm in H as (? & ? & ?). split_and!; try done. cbn in Hv. unfold visible in Hv.
    destruct (tickets s !! TicketID m) as [t|] eqn:E; [|done]. exists t. cbn. by apply map_lookup_filter_Some.
Qed.

(** *** Statements *)

Lemma local_messages ids P : (forall ts, P ts -> Forall (fun i => ours i ts) ids) ->
  local P (query (ListTicketMessagesByTicketIDs ids)) (fun _ => P).
Proof.
  intros HP. apply local_query. intros s Ht Hd Hp. split; [|by intros; subst].
  unfold ListTicketMessagesByTicketIDs. f_equal. apply HP in Hp. rewrite Forall_forall in Hp. apply (sorted_same thread_order).
  - intros m n [Hm _]%elem_filter [Hn _]%elem_filter. unfold thread_order. intros. apply (message_key (keep p s)); [by apply keep_tables|done..|lia].
  - apply kept_messages; [done|]. intros m Hin%bool_decide_eq_true. by apply Hp.
Qed.

Lemma local_get_admin id admin P : (forall t, p t = in_scope admin d t) ->
  local P (query (GetAdminTicketByID id admin)) (fun row ts => P ts /\ ts !! id = Some row.1.1 /\ p row.1.1 = true).
Proof.
  intros Hsc. apply local_query. intros s Ht Hd Hp. unfold GetAdminTicketByID. cbn [keep tickets set_messages set_tickets world]. rewrite Hd.
  destruct (tickets s !! id) as [t|] eqn:E.
  - destruct (in_scope admin d t) eqn:Es.
    + rewrite (map_lookup_filter_Some_2 _ _ _ t) by (cbn; by rewrite ?Hsc). rewrite Es. split; [done|]. intros a [= <-].
      rewrite <- Hsc in Es. unfold joined. by destruct (users d !! t_UserID t).
    + rewrite map_lookup_filter_None_2; [done|]. right. intros u Hu. rewrite E in Hu. injection Hu as <-. cbn. rewrite Hsc, Es. done.
  - rewrite map_lookup_filter_None_2; [done|by left].
Qed.

Lemma local_get_user id uid P : (forall t, p t = (t_UserID t =? uid)) ->
  local P (query (GetUserTicketByID id uid)) (fun t ts => P ts /\ ours id ts).
Proof.
  intros Hsc. apply local_query. intros s Ht Hd Hp. unfold GetUserTicketByID. cbn [keep tickets set_messages set_tickets world].
  destruct (tickets s !! id) as [t|] eqn:E.
  - destruct (t_UserID t =? uid) eqn:Es.
    + rewrite (map_lookup_filter_Some_2 _ _ _ t) by (cbn; by rewrite ?Hsc). rewrite Es. split; [done|]. intros a [= <-].
      split; [done|]. exists t. by rewrite Hsc.
    + rewrite map_lookup_filter_None_2; [done|]. right. intros u Hu. rewrite E in Hu. injection Hu as <-. cbn. rewrite Hsc, Es. done.
  - rewrite map_lookup_filter_None_2; [done|by left].
Qed.

Lemma local_count_open uid P : (forall t, p t = (t_UserID t =? uid)) -> local P (query (CountOpenTicketsByUserID uid)) (fun _ => P).
Proof.
  intros Hsc. apply local_query. intros s Ht Hd Hp. split; [|by intros; subst]. unfold CountOpenTicketsByUserID. do 2 f_equal.
  apply Permutation_length, kept_tickets; [done|]. intros t [Hu _]%andb_true_iff. by rewrite Hsc.
Qed.

Lemma local_count_messages id P : (forall ts, P ts -> ours id ts) -> local P (query (CountTicketMessages id)) (fun _ => P).
Proof.
  intros HP. apply local_query. intros s Ht Hd Hp. split; [|by intros; subst]. unfold CountTicketMessages. do 2 f_equal.
  apply Permutation_length, kept_messages; [done|]. intros m ->%Z.eqb_eq. by apply HP.
Qed.

(** Pages of the rows of a scope. *)
Lemma paged R (f : Ticket -> bool) s limit offset `{!forall x y, Decision (R x y), !Transitive R, !Total R} :
  tables s -> (forall t, f t = true -> p t = true) -> (forall t u, R t u -> R u t -> t_ID t = t_ID u) ->
  page limit offset (merge_sort R (List.filter f (rows (tickets (keep p s))))) =
  page limit offset (merge_sort R (List.filter f (rows (tickets s)))).
Proof.
  intros Ht Hf HR. f_equal. apply (sorted_same R); [|by apply kept_tickets].
  intros t u [H1 _]%elem_filter [H2 _]%elem_filter ? ?. apply (ticket_key (keep p s)); [by apply keep_tables|done..|by apply HR].
Qed.

Lemma page_sub {A} limit offset (l k : list A) x : page limit offset l = Ok k -> x ∈ k -> x ∈ l.
Proof.
  unfold page. destruct (_ || _); [done|]. intros [= <-] H%list_elem_of_In. apply list_elem_of_In.
  rewrite <- (take_drop (Z.to_nat offset) l). apply in_app_iff. right.
  rewrite <- (take_drop (Z.to_nat limit) (drop _ l)). apply in_app_iff. by left.
Qed.

Lemma selected_ours f s t : tables s -> (forall t, f t = true -> p t = true) -> t ∈ List.filter f (rows (tickets s)) -> ours (t_ID t) (tickets s).
Proof.
  intros [Ht _] Hf [[i Hi]%elem_rows Hft]%elem_filter. exists t. split; [|by apply Hf]. by destruct (Ht i t Hi) as [-> _].
Qed.

Lemma local_list_user uid limit offset P : (forall t, p t = (t_UserID t =? uid)) ->
  local P (query (ListUserTickets uid limit offset)) (fun l ts => Forall (fun i => ours i ts) (map t_ID l)).
Proof.
  intros Hsc. apply local_query. intros s Ht Hd Hp. unfold ListUserTickets.
  rewrite paged; [|apply _..|done|intros; by rewrite Hsc|intros [] []; unfold created_first, newer; cbn; lia]. split; [done|].
  intros l Hl. apply Forall_map, Forall_forall. intros t Hin. cbn.
  apply (page_sub _ _ _ _ _ Hl) in Hin. rewrite merge_sort_Permutation in Hin. eapply selected_ours; [done| |done]. intros u. by rewrite Hsc.
Qed.

Lemma listed_scope admin status s t : (forall t, p t = in_scope admin d t) -> db (world s) = d ->
  in_scope admin (db (world s)) t && match status with Some x => String.eqb (t_Status t) x | None => true end = true -> p t = true.
Proof. intros Hsc -> [H _]%andb_true_iff. by rewrite Hsc. Qed.

Lemma local_list_admin admin status limit offset P : (forall t, p t = in_scope admin d t) ->
  local P (query (ListAdminTickets admin status limit offset)) (fun l ts => P ts /\ Forall (fun i => ours i ts) (map (fun r => t_ID r.1.1) l)).
Proof.
  intros Hsc. apply local_query. intros s Ht Hd Hp. unfold ListAdminTickets, listed. cbn [world keep set_messages set_tickets].
  rewrite paged; [|apply _..|done|intros t; by eapply listed_scope|intros [] []; unfold updated_first, newer; cbn; lia]. split; [done|].
  intros l Hl. destruct (page _ _ _) as [k|] eqn:E; [|done]. injection Hl as <-. split; [done|]. apply Forall_map, Forall_map, Forall_forall. intros t Hin. cbn.
  assert (t_ID (joined (db (world s)) t).1.1 = t_ID t) as -> by (unfold joined; by destruct (users _ !! _)).
  apply (page_sub _ _ _ _ _ E) in Hin. rewrite merge_sort_Permutation in Hin. eapply selected_ours; [done| |done].
  intros u. by apply listed_scope.
Qed.

Lemma local_count_admin admin status P : (forall t, p t = in_scope admin d t) ->
  local P (query (CountAdminTickets admin status)) (fun _ => P).
Proof.
  intros Hsc. apply local_query. intros s Ht Hd Hp. split; [|by intros; subst]. unfold CountAdminTickets, listed. do 2 f_equal.
  apply Permutation_length, kept_tickets; [done|]. intros t. by apply listed_scope.
Qed.

(** *** Writes *)

Lemma st_eq (s s' : St) : world s = world s' -> tickets s = tickets s' -> messages s = messages s' -> emergency s = emergency s' ->
  next_ticket s = next_ticket s' -> next_message s = next_message s' -> s = s'.
Proof. destruct s, s'. cbn. congruence. Qed.

(** Writing a ticket of the scope that is there, or one that is new, leaves every message
    as visible as it was. *)
Lemma visible_insert s id t m : tables s -> m ∈ rows (messages s) -> p t = true ->
  (tickets s !! id = None \/ ours id (tickets s)) ->
  visible p (set_tickets (<[id := t]> (tickets s)) s) m = visible p s m.
Proof.
  intros [_ Hm] [i Hi]%elem_rows Hp Hid. unfold visible. cbn. destruct (decide (TicketID m = id)) as [<-|Hne].
  - rewrite lookup_insert_eq, Hp. destruct Hid as [Hn|(u & Hu & Hpu)]; [|by rewrite Hu].
    apply Hm in Hi as (_ & _ & [u Hu]). congruence.
  - by rewrite lookup_insert_ne.
Qed.

Lemma keep_ticket s id t : tables s -> p t = true -> (tickets s !! id = None \/ ours id (tickets s)) ->
  keep p (set_tickets (<[id := t]> (tickets s)) s) = set_tickets (<[id := t]> (tickets (keep p s))) (keep p s) /\
  rest p (set_tickets (<[id := t]> (tickets s)) s) = rest p s.
Proof.
  intros Ht Hp Hid. split.
  - apply st_eq; try done; cbn.
    + by rewrite map_filter_insert_True.
    + apply map_filter_strong_ext. intros i m. cbn. split; intros [Hv Hi]; (split; [|done]); revert Hv; rewrite visible_insert; eauto using elem_rows;
        try (apply elem_rows; by exists i); done.
  - unfold rest. cbn. f_equal.
    + rewrite map_filter_insert_not'; [done|cbn; congruence|]. intros u Hu. cbn. destruct Hid as [Hn|(v & Hv & Hpv)]; congruence.
    + apply map_filter_strong_ext. intros i m. cbn. split; intros [Hv Hi]; (split; [|done]); revert Hv; rewrite visible_insert; eauto;
        try (apply elem_rows; by exists i); done.
Qed.

Lemma tables_ticket s id t n : tables s -> t_ID t = id -> id < n -> next_ticket s <= n ->
  tables (set_next n (next_message s) (set_tickets (<[id := t]> (tickets s)) s)).
Proof.
  intros [Ht Hm] Hid Hlt Hle. split.
  - intros i u. cbn. rewrite lookup_insert_Some. intros [[-> ->]|[_ H]]; [done|]. apply Ht in H as []. split; [done|lia].
  - intros i m. cbn. intros H. apply Hm in H as (? & ? & ?). split_and!; try done. destruct (decide (TicketID m = id)) as [->|]; [by rewrite lookup_insert_eq|by rewrite lookup_insert_ne].
Qed.

Lemma local_create now uid subject P : (forall t, p t = (t_UserID t =? uid)) ->
  local P (stmt (CreateTicket now uid subject)) (fun t ts => ours (t_ID t) ts).
Proof.
  intros Hsc. apply local_stmt. intros s Ht Hd Hp. unfold CreateTicket. cbn [keep world set_messages set_tickets next_ticket next_message].
  destruct (negb _); [done|]. destruct (users (db (world s)) !! uid); [|done].
  set (t := mkTicket _ _ _ _ _ _). assert (p t = true) as Hpt by (rewrite Hsc; apply Z.eqb_refl).
  assert (tickets s !! next_ticket s = None) as Hn.
  { destruct (tickets s !! next_ticket s) eqn:E; [|done]. apply (proj1 Ht) in E as [_ ?]. lia. }
  destruct (keep_ticket s (next_ticket s) t) as [Hk Hr]; [done|done|by left|].
  assert (forall n m s0, keep p (set_next n m s0) = set_next n m (keep p s0)) as Hnext by done.
  split_and!.
  - rewrite Hnext, Hk. done.
  - exact Hr.
  - apply tables_ticket; [done|done|lia|lia].
  - done.
  - exists t. split; [|done]. cbn. by rewrite lookup_insert_eq.
Qed.

Lemma local_change id f P : (forall t, t_ID (f t) = t_ID t /\ t_UserID (f t) = t_UserID t) -> (forall ts, P ts -> ours id ts) ->
  local P (stmt (change_ticket id f)) (fun _ ts => ours id ts).
Proof.
  intros Hf HP. apply local_stmt. intros s Ht Hd Hp. unfold change_ticket. destruct (HP _ Hp) as (t & E & Hpt).
  destruct (Hf t) as [Hid Hu]. assert (p (f t) = true) as Hpf by (by rewrite (by_user _ t)).
  rewrite E. cbn [keep tickets set_messages set_tickets]. rewrite (map_lookup_filter_Some_2 _ _ _ t) by done.
  destruct (keep_ticket s id (f t)) as [Hk Hr]; [done|done|right; by exists t|]. destruct (proj1 Ht id t E) as [Et Hlt].
  split_and!.
  - rewrite Hk. done.
  - exact Hr.
  - pose proof (tables_ticket s id (f t) (next_ticket s) Ht) as Htt. apply Htt; [congruence|done|lia].
  - done.
  - exists (f t). split; [|done]. cbn. by rewrite lookup_insert_eq.
Qed.

Lemma local_update_status now id status P : (forall ts, P ts -> ours id ts) ->
  local P (stmt (UpdateTicketStatus now id status)) (fun _ ts => ours id ts).
Proof.
  intros HP. pose proof (local_change id (with_status now status) P (fun _ => conj eq_refl eq_refl) HP) as H.
  unfold UpdateTicketStatus. destruct (str_mem _ _); [done|]. apply local_stmt. by intros.
Qed.

Lemma local_create_message now id admin body P : (forall ts, P ts -> ours id ts) ->
  local P (stmt (CreateTicketMessage now id admin body)) (fun _ => P).
Proof.
  intros HP. apply local_stmt. intros s Ht Hd Hp. unfold CreateTicketMessage. destruct (negb _); [done|].
  destruct (HP _ Hp) as (t & E & Hpt). cbn [keep tickets set_messages set_tickets next_message next_ticket messages].
  rewrite E, (map_lookup_filter_Some_2 _ _ _ t) by done. set (m := mkMessage _ _ _ _ _).
  assert (visible p s m = true) as Hv by (unfold visible; cbn; by rewrite E). destruct Ht as [Ht Hm].
  assert (messages s !! next_message s = None) as Hn.
  { destruct (messages s !! next_message s) eqn:En; [|done]. apply Hm in En as (_ & ? & _). lia. }
  split_and!.
  - f_equal. f_equal. apply st_eq; try done; cbn. by rewrite map_filter_insert_True.
  - unfold rest. cbn. f_equal. rewrite map_filter_insert_not'; [done|unfold visible; cbn; by rewrite E, Hpt|]. intros n. by rewrite Hn.
  - split; [exact Ht|]. intros i n. cbn. rewrite lookup_insert_Some. intros [[<- <-]|[_ H]].
    + split_and!; [done|lia|by exists t].
    + apply Hm in H as (? & ? & ?). split_and!; [done|lia|done].
  - done.
  - done.
Qed.

(** *** Handlers *)

Lemma local_load ids P : (forall ts, P ts -> Forall (fun i => ours i ts) ids) -> local P (loadMessagesByTicketID ids) (fun _ _ => True).
Proof.
  intros HP. unfold loadMessagesByTicketID. destruct ids; [by apply local_ret|].
  eapply local_bind; [by apply local_messages|]. intros msgs. by apply local_ret.
Qed.

Lemma local_render id identity P : (forall t, p t = in_scope (scopedAdminID identity) d t) ->
  local P (renderAdminTicket id identity) (fun o ts => is_Some o -> ours id ts).
Proof.
  intros Hsc s Ht Hd Hp. destruct (local_get_admin id (scopedAdminID identity) P Hsc s Ht Hd Hp) as (He & Hr & Ht' & Hd' & Hq).
  unfold renderAdminTicket. rewrite He. destruct (query _ s) as [s1 [row|e]]; cbn in Hr, Ht', Hd', Hq |- *.
  - destruct (Hq row eq_refl) as (_ & Hi & Hpr).
    assert (local (ours id)
      (msgs ← query (ListTicketMessagesByTicketIDs [id]); mret (Some (toAdminTicketDTO row (Some (toTicketMessageDTOs msgs)))))
      (fun o ts => is_Some o -> ours id ts)) as Hl.
    { eapply local_bind; [by apply local_messages; intros ts ?; repeat constructor|]. intros msgs. by apply local_ret. }
    destruct (Hl s1 Ht' Hd' (ex_intro _ _ (conj Hi Hpr))) as (He2 & Hr2 & Ht2 & Hd2 & Hq2). split_and!; try done. by rewrite Hr2.
  - destruct e; cbn; split_and!; try done. intros a [= <-]. by intros [].
Qed.

Lemma local_found id o : local (fun ts => is_Some o -> ours id ts) (found o) (fun _ ts => ours id ts).
Proof. destruct o; [apply local_ret|apply local_throw]. eauto. Qed.

Lemma local_read_back id identity detail P : (forall t, p t = in_scope (scopedAdminID identity) d t) ->
  local P (read_back id identity detail) (fun _ _ => True).
Proof.
  intros Hsc. eapply local_bind; [by apply local_catch, local_render|]. intros []; [by apply local_ret|apply local_throw].
Qed.

Lemma local_insert now id body admin : local (ours id) (insertTicketMessage now id body admin) (fun _ ts => ours id ts).
Proof.
  eapply local_bind; [by apply local_create_message|]. intros m. eapply local_bind; [by apply local_change|]. intros t. by apply local_ret.
Qed.

Lemma admin_list identity status limit offset : (forall t, p t = in_scope (scopedAdminID identity) d t) ->
  local (fun _ => True) (handleListTickets identity status limit offset) (fun _ _ => True).
Proof.
  intros Hsc. unfold handleListTickets. apply local_if; [apply local_throw|]. cbv zeta.
  eapply local_bind; [by apply local_catch, local_list_admin|]. intros rows_. eapply local_bind; [by apply local_catch, local_count_admin|]. intros total.
  eapply local_bind; [by apply local_catch, local_load; intros ts []|]. intros m. by apply local_ret.
Qed.

Lemma admin_get identity id : (forall t, p t = in_scope (scopedAdminID identity) d t) ->
  local (fun _ => True) (handleGetTicket identity id) (fun _ _ => True).
Proof.
  intros Hsc. unfold handleGetTicket. destruct (parseIDParam id) as [z|]; [|apply local_throw].
  eapply local_bind; [by apply local_catch, local_render|]. intros o. by eapply local_weaken; [apply (local_found z)| |].
Qed.

Lemma admin_reply now identity id text : (forall t, p t = in_scope (scopedAdminID identity) d t) ->
  local (fun _ => True) (handleAdminReplyTicket now identity id text) (fun _ _ => True).
Proof.
  intros Hsc. unfold handleAdminReplyTicket. destruct (parseIDParam id); [|apply local_throw]. destruct (_ ≫= _); [|apply local_throw].
  eapply local_bind; [by apply local_catch, local_render|]. intros o. eapply local_bind; [apply local_found|]. intros dto.
  eapply local_bind; [apply local_catch, local_insert|]. intros []. by apply local_read_back.
Qed.

Lemma admin_status now identity id text : (forall t, p t = in_scope (scopedAdminID identity) d t) ->
  local (fun _ => True) (handleUpdateTicketStatus now identity id text) (fun _ _ => True).
Proof.
  intros Hsc. unfold handleUpdateTicketStatus. destruct (parseIDParam id); [|apply local_throw]. destruct (ticketStatusWriteRequest _); [|apply local_throw].
  apply local_if; [apply local_throw|].
  eapply local_bind; [by apply local_catch, local_render|]. intros o. eapply local_bind; [apply local_found|]. intros dto.
  eapply local_bind; [by apply local_catch, local_update_status|]. intros ?. by apply local_read_back.
Qed.

Lemma local_assume {E A} (phi : Prop) (m : eff St E A) Q : (phi -> local (fun _ => True) m Q) -> local (fun _ => phi) m Q.
Proof. intros H s Ht Hd Hp. by apply H. Qed.

Section customer.
Context `{Token.Crypto} `{LoadMap.FloatToInt} (secret : string).

(** Reading a token reads the same account whatever fails on the way, or none. *)
Lemma token_reads token w : let '(w', r) := Token.loadSubscriptionUser token secret w in
  db w' = db w /\ forall u, r = Ok u -> (Token.loadSubscriptionUser token secret (mkWorld (db w) [])).2 = Ok u.
Proof.
  assert (forall A (q : Db -> result dberror A) w, db (Store.query q w).1 = db w /\
    forall a, (Store.query q w).2 = Ok a -> (Store.query q (mkWorld (db w) [])) = (mkWorld (db w) [], Ok a)) as Hq.
  { intros A q [d0 [|[] fs]]; unfold Store.query, Store.stmt; cbn; destruct (q d0); cbn; split; try done; by intros ? [= ->]. }
  unfold Token.loadSubscriptionUser. destruct (Token.ParseToken token secret) as [c|]; [|by split].
  unfold Token.lookup_claims.
  assert (forall (m : Store.M UserApi.httperr User), (db (m w).1 = db w /\ forall a, (m w).2 = Ok a -> m (mkWorld (db w) []) = (mkWorld (db w) [], Ok a)) ->
    let '(w', r) := (user ← m; _ ← UserApi.ensure (negb (Token.outdated (Some (CreatedAt user)) (Token.c_CreatedAt c))) Token.not_found;
      _ ← UserApi.ensure (negb (Token.outdated (SubRevokedAt user) (Token.c_CreatedAt c))) Token.not_found; mret user) w in
    db w' = db w /\ forall u, r = Ok u -> ((user ← m; _ ← UserApi.ensure (negb (Token.outdated (Some (CreatedAt user)) (Token.c_CreatedAt c))) Token.not_found;
      _ ← UserApi.ensure (negb (Token.outdated (SubRevokedAt user) (Token.c_CreatedAt c))) Token.not_found; mret user) (mkWorld (db w) [])).2 = Ok u) as Hrest.
  { intros m [Hd Hm]. unfold mbind, M_bind. destruct (m w) as [w1 [a|e]]; cbn in *; [|by split]. rewrite (Hm a eq_refl).
    unfold UserApi.ensure. destruct (negb _); cbn; [|by split]. destruct (negb _); cbn; by split. }
  apply Hrest. assert (forall A (q : Db -> result dberror A) (f : dberror -> UserApi.httperr), db (or_else (Store.query q) f w).1 = db w /\
    forall a, (or_else (Store.query q) f w).2 = Ok a -> or_else (Store.query q) f (mkWorld (db w) []) = (mkWorld (db w) [], Ok a)) as Ho.
  { intros A q f. destruct (Hq A q w) as [H1 H2]. unfold or_else. destruct (Store.query q w) as [w1 [a|e]]; cbn in *; split; try done.
    intros b [= ->]. by rewrite (H2 b eq_refl). }
  repeat case_match; try apply Ho; by split.
Qed.

Context (token : string).
Hypothesis account : forall u, (Token.loadSubscriptionUser token secret (mkWorld d [])).2 = Ok u -> forall t, p t = (t_UserID t =? ID u).

Lemma local_subscriber P : local P (subscriber secret token) (fun u _ => forall t, p t = (t_UserID t =? ID u)).
Proof.
  intros s Ht Hd Hp. unfold subscriber, on_db. pose proof (token_reads token (world s)) as Hl.
  replace (world (keep p s)) with (world s) by done. destruct (Token.loadSubscriptionUser token secret (world s)) as [w r] eqn:E.
  destruct Hl as [Hw Hu]. cbn. split_and!; try done; [congruence|]. intros u ->. apply account. rewrite <- Hd. by apply Hu.
Qed.

Lemma customer_list limit offset : local (fun _ => True) (handleListMyTickets secret token limit offset) (fun _ _ => True).
Proof.
  eapply local_bind; [by apply local_subscriber|]. intros u. apply (local_assume (forall t, p t = (t_UserID t =? ID u))). intros Hsc.
  eapply local_bind; [by apply local_catch, local_list_user|]. intros l.
  eapply local_bind; [by apply local_catch, local_load|]. intros m. by apply local_ret.
Qed.

Lemma customer_create now text : local (fun _ => True) (handleCreateMyTicket secret now token text) (fun _ _ => True).
Proof.
  eapply local_bind; [by apply local_subscriber|]. intros u. apply (local_assume (forall t, p t = (t_UserID t =? ID u))). intros Hsc.
  match goal with |- context [match ?x with Some _ => _ | None => _ end] => destruct x as [[]|]; [|apply local_throw] end.
  eapply local_bind; [by apply local_catch, local_count_open|]. intros n. apply local_if; [apply local_throw|].
  eapply local_bind; [by apply local_catch, local_create|]. intros t. eapply local_bind; [by apply local_catch, local_create_message|].
  intros m. by apply local_ret.
Qed.

Lemma customer_reply now id text : local (fun _ => True) (handleReplyMyTicket secret now token id text) (fun _ _ => True).
Proof.
  eapply local_bind; [by apply local_subscriber|]. intros u. apply (local_assume (forall t, p t = (t_UserID t =? ID u))). intros Hsc.
  destruct (parseIDParam id) as [z|]; [|apply local_throw]. destruct (_ ≫= _); [|apply local_throw].
  eapply local_bind; [by apply local_catch, local_get_user|]. intros t. eapply (local_weaken _ (ours z) _ _ (fun _ _ => True)); [|by intros ts [_ H1]; exact H1|done].
  eapply local_bind; [by apply local_catch, local_count_messages|]. intros n. apply local_if; [apply local_throw|].
  eapply local_bind; [apply local_catch, local_insert|]. intros [].
  eapply local_bind; [by apply local_catch, local_get_user|]. intros t'.
  eapply local_bind; [by apply local_catch, local_messages; intros ts [_ ?]; repeat constructor|]. intros msgs. by apply local_ret.
Qed.
End customer.
End scope.

(** ** Isolation *)

Section isolation.
Context `{Token.Crypto} `{LoadMap.FloatToInt} (secret : string).

(** The tickets a request may be about: those of the account its token opens, or those of
    the users of its admin. *)
Definition scope_of (r : request) (d : Db) (t : Ticket) : bool :=
  match r with
  | ListTickets identity _ _ _ | GetTicket identity _ | ReplyTicket _ identity _ _ | PutTicket _ identity _ _ =>
      in_scope (scopedAdminID identity) d t
  | ListMine token _ _ | CreateMine _ token _ | ReplyMine _ token _ _ =>
      match (Token.loadSubscriptionUser token secret (mkWorld d [])).2 with Ok u => t_UserID t =? ID u | Err _ => false end
  end.

Lemma scope_by_user r d t u : t_UserID t = t_UserID u -> scope_of r d t = scope_of r d u.
Proof. intros Hu. unfold scope_of, in_scope. rewrite Hu. done. Qed.

Lemma serve_local r d : local (scope_of r d) d (fun _ => True) (serve secret r) (fun _ _ => True).
Proof.
  destruct r; cbn [serve]; (eapply local_bind; [|intros; by apply local_ret]).
  - by apply admin_list.
  - by apply admin_get.
  - apply admin_reply; [by apply scope_by_user|done].
  - apply admin_status; [by apply scope_by_user|done].
  - apply customer_list. intros u Hu t. cbn. by rewrite Hu.
  - apply customer_create. intros u Hu t. cbn. by rewrite Hu.
  - apply customer_reply; [by apply scope_by_user|]. intros u Hu t. cbn. by rewrite Hu.
Qed.

(** C10: tickets of others neither answer nor change: whatever fails, a request is
    answered from the tickets of its own scope, a customer's own or those of an admin's
    users, exactly as if no others existed; it writes what it would write then; and every
    ticket and message outside the scope stays as it is. *)
Theorem tickets_isolated r s :
  tables s -> let p := scope_of r (db (world s)) in
  serve secret r (keep p s) = (keep p (serve secret r s).1, (serve secret r s).2) /\
  rest p (serve secret r s).1 = rest p s.
Proof. intros Ht p. by destruct (serve_local r (db (world s)) s) as (? & ? & _). Qed.
End isolation.

(** ** Conversations *)

Definition thread (id : Z) (s : St) : list TicketMessage :=
  match ListTicketMessagesByTicketIDs [id] s with Ok l => l | Err _ => [] end.

(** Messages of a ticket its user wrote. *)
Definition from_user (id : Z) (m : TicketMessage) : bool := (TicketID m =? id) && negb (IsAdmin m).
Definition written (id : Z) (s : St) : nat := length (List.filter (from_user id) (rows (messages s))).

Definition ticket_ok (d : Db) (t : Ticket) : Prop :=
  (t_Status t = "open" \/ t_Status t = "closed") /\ (1 <= char_count (Subject t) <= 255)%nat /\ is_Some (users d !! t_UserID t).
Definition message_ok (m : TicketMessage) : Prop := (1 <= char_count (Body m) <= 4000)%nat.

Record sound (s : St) : Prop := {
  s_tables : tables s;
  s_tickets : forall i t, tickets s !! i = Some t -> ticket_ok (db (world s)) t;
  s_messages : forall i m, messages s !! i = Some m -> message_ok m;
  s_written : forall id, (written id s <= 100)%nat;
}.

(** A ticket that was there, or is newer. *)
Definition same_ticket (t t' : Ticket) : Prop :=
  t_ID t' = t_ID t /\ t_UserID t' = t_UserID t /\ Subject t' = Subject t /\ t_CreatedAt t' = t_CreatedAt t.

Definition grows (s s' : St) : Prop :=
  next_ticket s <= next_ticket s' /\
  forall id t', tickets s' !! id = Some t' -> id < next_ticket s ->
    exists t, tickets s !! id = Some t /\ same_ticket t t' /\ exists new, thread id s' = (thread id s ++ new)%list.

Lemma grows_refl s : grows s s.
Proof. split; [lia|]. intros id t' Ht _. exists t'. split_and!; try done. exists []. by rewrite app_nil_r. Qed.

Lemma grows_trans s1 s2 s3 : grows s1 s2 -> grows s2 s3 -> grows s1 s3.
Proof.
  intros [Hn1 H1] [Hn2 H2]. split; [lia|]. intros id t' Ht Hid. destruct (H2 id t' Ht ltac:(lia)) as (t & Ht2 & (?&?&?&?) & new2 & E2).
  destruct (H1 id t Ht2 Hid) as (u & Hu & (?&?&?&?) & new1 & E1). exists u. split; [done|]. split; [split_and!; congruence|].
  exists (new1 ++ new2)%list. by rewrite E2, E1, app_assoc.
Qed.

(** What is the same about two states that differ in the faults to come. *)
Definition same_rows (s s' : St) : Prop :=
  tickets s' = tickets s /\ messages s' = messages s /\ db (world s') = db (world s) /\ next_ticket s' = next_ticket s /\ next_message s' = next_message s.

Lemma sound_same s s' : same_rows s s' -> sound s -> sound s'.
Proof.
  intros (E1 & E2 & E3 & E4 & E5) [[H1 H2] H3 H4 H5]. split; [split|..]; unfold owned_tickets, owned_messages, written; rewrite ?E1, ?E2, ?E3, ?E4, ?E5; done.
Qed.

Lemma grows_same s s' : same_rows s s' -> grows s s'.
Proof.
  intros (E1 & E2 & E3 & E4 & E5). split; [lia|]. rewrite E1. intros id t' Ht _. exists t'. split_and!; try done. exists [].
  unfold thread, ListTicketMessagesByTicketIDs. by rewrite E2, app_nil_r.
Qed.

(** A computation that keeps conversations: [P] and [Q] speak of the rows. *)
Definition steady {E A} (P : St -> Prop) (m : eff St E A) (Q : A -> St -> Prop) : Prop :=
  forall s, sound s -> P s -> let s' := (m s).1 in sound s' /\ grows s s' /\ forall a, (m s).2 = Ok a -> Q a s'.

Lemma steady_ret {E A} P (a : A) (Q : A -> St -> Prop) : (forall s, P s -> Q a s) -> steady (E := E) P (mret a) Q.
Proof. intros H s Hs Hp. split_and!; [done|apply grows_refl|]. intros b [= <-]. by apply H. Qed.

Lemma steady_throw {E A} P (e : E) (Q : A -> St -> Prop) : steady P (throw e) Q.
Proof. intros s Hs Hp. split_and!; [done|apply grows_refl|done]. Qed.

Lemma steady_bind {E A B} P (m : eff St E A) (f : A -> eff St E B) Q R : steady P m Q -> (forall a, steady (Q a) (f a) R) -> steady P (m ≫= f) R.
Proof.
  intros Hm Hf s Hs Hp. destruct (Hm s Hs Hp) as (H1 & H2 & H3). unfold mbind, eff_bind. destruct (m s) as [s1 [a|e]]; cbn in *; [|done].
  destruct (Hf a s1 H1 (H3 a eq_refl)) as (H4 & H5 & H6). split_and!; [done|by eapply grows_trans|done].
Qed.

Lemma steady_catch {E E' A} P (m : eff St E A) (f : E -> E') Q : steady P m Q -> steady P (catch m f) Q.
Proof.
  intros Hm s Hs Hp. destruct (Hm s Hs Hp) as (H1 & H2 & H3). unfold catch. destruct (m s) as [s1 [a|e]]; cbn in *; split_and!; try done.
  intros b [= <-]. by apply H3.
Qed.

Lemma steady_if {E A} P (b : bool) (m n : eff St E A) Q : (b = true -> steady P m Q) -> (b = false -> steady P n Q) -> steady P (if b then m else n) Q.
Proof. destruct b; auto. Qed.

(** Properties of the rows alone. *)
Definition of_rows (P : St -> Prop) : Prop := forall s s', same_rows s s' -> P s -> P s'.

Lemma steady_stmt {A} P (q : St -> result dberror (St * A)) Q : of_rows P ->
  (forall s s' a, sound s -> P s -> q s = Ok (s', a) -> sound s' /\ grows s s' /\ Q a s') -> steady P (stmt q) Q.
Proof.
  intros HP Hq s Hs Hp. unfold stmt.
  assert (forall fs, same_rows s (set_world (mkWorld (db (world s)) fs) s)) as Hsame by done.
  assert (forall fs, let m := fun s => match q s with Ok (s', a) => (s', Ok a) | Err e => (s, Err e) end in
    let x := m (set_world (mkWorld (db (world s)) fs) s) in sound x.1 /\ grows s x.1 /\ forall a, x.2 = Ok a -> Q a x.1) as Hm.
  { intros fs m x. subst m x. cbn beta. pose proof (sound_same _ _ (Hsame fs) Hs) as Hs0. pose proof (HP _ _ (Hsame fs) Hp) as Hp0.
    destruct (q (set_world _ s)) as [[s' a]|e] eqn:E; cbn.
    - destruct (Hq _ _ _ Hs0 Hp0 E) as (? & Hg & ?). split_and!; [done| |by intros b [= <-]]. eapply grows_trans; [by apply grows_same, (Hsame fs)|done].
    - split_and!; [done|by apply grows_same|done]. }
  destruct (faults (world s)) as [|[] fs]; [apply (Hm [])| |apply (Hm fs)].
  cbn. split_and!; [by eapply sound_same|by apply grows_same|done].
Qed.

Lemma steady_query {A} P (q : St -> result dberror A) (Q : A -> St -> Prop) : of_rows P ->
  (forall s a, sound s -> P s -> q s = Ok a -> Q a s) -> steady P (query q) Q.
Proof.
  intros HP Hq. apply steady_stmt; [done|]. intros s s' a Hs Hp. destruct (q s) eqn:E; [|done]. intros [= <- <-].
  split_and!; [done|apply grows_refl|by eapply Hq].
Qed.

Lemma rows_insert {A} (m : gmap Z A) i x : m !! i = None -> rows (<[i := x]> m) ≡ₚ x :: rows m.
Proof. intros H. unfold rows. by rewrite map_to_list_insert. Qed.

Lemma filter_perm {A} (f : A -> bool) l k : l ≡ₚ k -> List.filter f l ≡ₚ List.filter f k.
Proof. induction 1; cbn; repeat case_match; first [done|by constructor|by etrans]. Qed.

Lemma thread_sorted id s : Sorted thread_order (thread id s).
Proof. unfold thread, ListTicketMessagesByTicketIDs. apply Sorted_merge_sort; apply _. Qed.

Lemma thread_elem id s m : m ∈ thread id s <-> m ∈ rows (messages s) /\ TicketID m = id.
Proof.
  unfold thread, ListTicketMessagesByTicketIDs. rewrite merge_sort_Permutation, elem_filter, bool_decide_eq_true.
  rewrite list_elem_of_singleton. done.
Qed.

Lemma fresh_message s : tables s -> messages s !! next_message s = None.
Proof. intros [_ Hm]. destruct (messages s !! next_message s) eqn:E; [|done]. apply Hm in E as (_ & ? & _). lia. Qed.

Lemma fresh_ticket s : tables s -> tickets s !! next_ticket s = None.
Proof. intros [Ht _]. destruct (tickets s !! next_ticket s) eqn:E; [|done]. apply Ht in E as [_ ?]. lia. Qed.

(** A message added last comes last. *)
Lemma thread_snoc s s' m : tables s -> m_ID m = next_message s -> messages s' = <[next_message s := m]> (messages s) ->
  forall id, thread id s' = (thread id s ++ if TicketID m =? id then [m] else [])%list.
Proof.
  intros Ht Hid E id. pose proof (rows_insert _ _ m (fresh_message s Ht)) as Hr. rewrite <- E in Hr.
  assert (forall n, n ∈ rows (messages s) -> m_ID n < m_ID m) as Hlt.
  { intros n [i Hi]%elem_rows. apply (proj2 Ht) in Hi as (-> & ? & _). lia. }
  assert (thread id s' ≡ₚ thread id s ++ if TicketID m =? id then [m] else []) as Hp.
  { unfold thread, ListTicketMessagesByTicketIDs. rewrite !merge_sort_Permutation. rewrite (filter_perm _ _ _ Hr). cbn [List.filter].
    destruct (Z.eqb_spec (TicketID m) id) as [->|Hne].
    - rewrite bool_decide_eq_true_2 by (by apply list_elem_of_singleton). by rewrite Permutation_app_comm.
    - rewrite bool_decide_eq_false_2 by (by rewrite list_elem_of_singleton). by rewrite app_nil_r. }
  apply (Sorted_unique_strong thread_order); [| apply thread_sorted | |done].
  - intros x y Hx Hy. rewrite Hp in Hx. unfold thread_order.
    assert (forall z, z ∈ (thread id s ++ if TicketID m =? id then [m] else [])%list -> z = m \/ z ∈ rows (messages s)) as Hin.
    { intros z. rewrite elem_of_app. intros [[? _]%thread_elem|Hz]; [by right|]. destruct (_ =? _); [left; by apply list_elem_of_singleton in Hz|by apply not_elem_of_nil in Hz]. }
    intros ? ?. assert (m_ID x = m_ID y) as Exy by lia. destruct (Hin x Hx) as [->|Hx'], (Hin y Hy) as [->|Hy']; try done.
    + apply Hlt in Hy'. lia.
    + apply Hlt in Hx'. lia.
    + by apply (message_key s).
  - apply StronglySorted_Sorted, StronglySorted_app_2; [|apply Sorted_StronglySorted; [apply _|apply thread_sorted]|destruct (_ =? _); repeat constructor].
    intros x y [Hx Ex]%thread_elem Hy. destruct (Z.eqb_spec (TicketID m) id); [|by apply not_elem_of_nil in Hy].
    apply list_elem_of_singleton in Hy as ->. apply Hlt in Hx. unfold thread_order. lia.
Qed.

Definition room (id : Z) (s : St) : Prop := (written id s < 100)%nat.
Lemma room_rows id : of_rows (room id).
Proof. intros s s' (_ & E & _). unfold room, written. by rewrite E. Qed.

Lemma steady_message now id admin body : (1 <= char_count body <= 4000)%nat ->
  steady (fun s => admin = true \/ room id s) (stmt (CreateTicketMessage now id admin body)) (fun _ _ => True).
Proof.
  intros Hbody. apply steady_stmt; [intros s s' Hs [?|?]; [by left|right; by eapply room_rows]|].
  intros s s' m [Ht H1 H2 H3] Hroom. unfold CreateTicketMessage. destruct (negb _); [done|]. destruct (tickets s !! id) as [t|] eqn:Et; [|done].
  intros [= <- <-]. set (m := mkMessage _ _ _ _ _). pose proof (fresh_message s Ht) as Hn. split_and!; [split|split|done].
  - destruct Ht as [Ht Hm]. split; [exact Ht|]. intros i n. cbn. rewrite lookup_insert_Some. intros [[<- <-]|[_ H]].
    + split_and!; [done|lia|by exists t].
    + apply Hm in H as (? & ? & ?). split_and!; [done|lia|done].
  - exact H1.
  - intros i n. cbn. rewrite lookup_insert_Some. intros [[<- <-]|[_ H]]; [done|by eapply H2].
  - intros k. unfold written. cbn. rewrite (filter_perm _ _ _ (rows_insert _ _ m Hn)). cbn [List.filter]. specialize (H3 k). unfold written in H3.
    unfold from_user at 1. cbn. destruct (Z.eqb_spec id k) as [<-|]; [|done]. destruct admin; [done|]. cbn.
    destruct Hroom as [?|Hroom]; [done|]. unfold room, written in Hroom. lia.
  - cbn. lia.
  - intros k t' Hk _. exists t'. cbn in Hk. split_and!; try done. exists (if TicketID m =? k then [m] else []). by apply (thread_snoc s).
Qed.

Lemma steady_create now uid subject : (1 <= char_count subject <= 255)%nat ->
  steady (fun _ => True) (stmt (CreateTicket now uid subject)) (fun t => room (t_ID t)).
Proof.
  intros Hsub. apply steady_stmt; [done|]. intros s s' t' [Ht H1 H2 H3] _. unfold CreateTicket. destruct (negb _); [done|].
  destruct (users (db (world s)) !! uid) as [u|] eqn:Eu; [|done]. intros [= <- <-]. set (t := mkTicket _ _ _ _ _ _).
  pose proof (fresh_ticket s Ht) as Hn. split_and!; [split|split|].
  - apply tables_ticket; [done|done|lia|lia].
  - intros i v. cbn. rewrite lookup_insert_Some. intros [[<- <-]|[_ H]]; [|by eapply H1]. split; [by left|split; [done|by exists u]].
  - exact H2.
  - exact H3.
  - cbn. lia.
  - intros k v. cbn. intros Hk Hlt. rewrite lookup_insert_ne in Hk by lia. exists v. split_and!; try done. exists []. by rewrite app_nil_r.
  - unfold room, written. cbn. rewrite none_selected; [cbn; lia|].
    intros m [i Hi]%elem_rows. apply (proj2 Ht) in Hi as (_ & _ & [v Hv]). unfold from_user.
    destruct (Z.eqb_spec (TicketID m) (next_ticket s)) as [E|]; [|done]. congruence.
Qed.

Lemma steady_change now status id P : status = "open" \/ status = "closed" -> of_rows P ->
  steady P (stmt (change_ticket id (with_status now status))) (fun _ _ => True).
Proof.
  intros Hst HP. apply steady_stmt; [done|]. intros s s' t' [Ht H1 H2 H3] _. unfold change_ticket. destruct (tickets s !! id) as [t|] eqn:Et; [|done].
  intros [= <- <-]. destruct (proj1 Ht id t Et) as [Eid Hlt]. destruct (H1 id t Et) as (_ & Hsub & Hu). split_and!; [split|split|done].
  - apply (tables_ticket s id _ (next_ticket s)); [done|done|done|lia].
  - intros i v. cbn. rewrite lookup_insert_Some. intros [[<- <-]|[_ H]]; [|by eapply H1]. done.
  - exact H2.
  - exact H3.
  - cbn. lia.
  - intros k v. cbn. rewrite lookup_insert_Some. intros [[<- <-]|[_ H]] _.
    + exists t. split_and!; try done. exists []. by rewrite app_nil_r.
    + exists v. split_and!; try done. exists []. by rewrite app_nil_r.
Qed.

(** *** Handlers *)

Lemma steady_weaken {E A} P P' (m : eff St E A) (Q Q' : A -> St -> Prop) :
  steady P' m Q' -> (forall s, P s -> P' s) -> (forall a s, Q' a s -> Q a s) -> steady P m Q.
Proof. intros Hm HP HQ s Hs Hp. destruct (Hm s Hs (HP _ Hp)) as (? & ? & H). split_and!; eauto. Qed.

Lemma steady_read {A} (q : St -> result dberror A) : steady (fun _ => True) (query q) (fun _ _ => True).
Proof. by apply steady_query. Qed.

Lemma text_bounds v max b : ticketTextOK v max = Some b -> (1 <= char_count b <= max)%nat.
Proof. unfold ticketTextOK. destruct ((0 <? _)%nat) eqn:E1; [|done]. destruct ((_ <=? max)%nat) eqn:E2; [|done]. intros [= <-]. apply Nat.ltb_lt in E1. apply Nat.leb_le in E2. lia. Qed.

Lemma steady_render id identity P : of_rows P -> steady P (renderAdminTicket id identity) (fun _ _ => True).
Proof.
  intros HP s Hs Hp. destruct (steady_read (GetAdminTicketByID id (scopedAdminID identity)) s Hs I) as (H1 & H2 & _).
  unfold renderAdminTicket. destruct (query (GetAdminTicketByID _ _) s) as [s1 [row|e]]; cbn in H1, H2 |- *.
  - assert (steady (fun _ => True) (msgs ← query (ListTicketMessagesByTicketIDs [id]);
      mret (Some (toAdminTicketDTO row (Some (toTicketMessageDTOs msgs))))) (fun _ _ => True)) as Hl.
    { eapply steady_bind; [apply steady_read|]. intros. by apply steady_ret. }
    destruct (Hl s1 H1 I) as (? & ? & _). split_and!; [done|by eapply grows_trans|done].
  - destruct e; cbn; by split_and!.
Qed.

Lemma steady_insert now id body admin : (1 <= char_count body <= 4000)%nat ->
  steady (fun s => admin = true \/ room id s) (insertTicketMessage now id body admin) (fun _ _ => True).
Proof.
  intros Hb. eapply steady_bind; [by apply steady_message|]. intros m.
  eapply steady_bind; [by apply steady_change; [left|]|]. intros t. by apply steady_ret.
Qed.

Lemma steady_true {E A} P (m : eff St E A) Q : steady (fun _ => True) m Q -> steady P m Q.
Proof. intros H. by eapply steady_weaken. Qed.

Lemma steady_read_back id identity detail : steady (fun _ => True) (read_back id identity detail) (fun _ _ => True).
Proof.
  eapply steady_bind; [by apply steady_catch, steady_render|]. intros []; [by apply steady_ret|apply steady_throw].
Qed.

Lemma steady_found o : steady (fun _ => True) (found o) (fun _ _ => True).
Proof. destruct o; [by apply steady_ret|apply steady_throw]. Qed.

Lemma steady_load ids : steady (fun _ => True) (loadMessagesByTicketID ids) (fun _ _ => True).
Proof. unfold loadMessagesByTicketID. destruct ids; [by apply steady_ret|]. eapply steady_bind; [apply steady_read|]. intros. by apply steady_ret. Qed.

Section conversations.
Context `{Token.Crypto} `{LoadMap.FloatToInt} (secret : string).

Lemma steady_subscriber token : steady (fun _ => True) (subscriber secret token) (fun _ _ => True).
Proof.
  intros s Hs _. unfold subscriber, on_db. pose proof (token_reads secret token (world s)) as Hl.
  destruct (Token.loadSubscriptionUser token secret (world s)) as [w r]. destruct Hl as [Hw _]. cbn.
  assert (same_rows s (set_world w s)) as Hsame by (by split_and!). split_and!; [by eapply sound_same|by apply grows_same|done].
Qed.

#[local] Ltac reading := eapply steady_bind; [apply steady_catch, steady_read|]; intros ?.

Lemma list_steady identity status limit offset : steady (fun _ => True) (handleListTickets identity status limit offset) (fun _ _ => True).
Proof.
  apply steady_if; intros _; [apply steady_throw|]. cbv zeta. reading. reading.
  eapply steady_bind; [apply steady_catch, steady_load|]. intros. by apply steady_ret.
Qed.

Lemma get_steady identity id : steady (fun _ => True) (handleGetTicket identity id) (fun _ _ => True).
Proof.
  unfold handleGetTicket. destruct (parseIDParam id); [|apply steady_throw].
  eapply steady_bind; [by apply steady_catch, steady_render|]. intros. apply steady_found.
Qed.

Lemma reply_steady now identity id text : steady (fun _ => True) (handleAdminReplyTicket now identity id text) (fun _ _ => True).
Proof.
  unfold handleAdminReplyTicket. destruct (parseIDParam id); [|apply steady_throw].
  destruct (_ ≫= _) as [b|] eqn:E; [|apply steady_throw]. apply bind_Some in E as (v & _ & Hb%text_bounds).
  eapply steady_bind; [by apply steady_catch, steady_render|]. intros o. eapply steady_bind; [apply steady_found|]. intros dto.
  eapply steady_bind; [|intros ?; apply steady_read_back].
  eapply steady_weaken; [by apply steady_catch, steady_insert|by left|done].
Qed.

Lemma status_steady now identity id text : steady (fun _ => True) (handleUpdateTicketStatus now identity id text) (fun _ _ => True).
Proof.
  unfold handleUpdateTicketStatus. destruct (parseIDParam id) as [z|]; [|apply steady_throw]. destruct (ticketStatusWriteRequest _) as [status|]; [|apply steady_throw].
  apply steady_if; [intros _; apply steady_throw|]. intros [Hs|Hs]%negb_false_iff%orb_true_iff; apply String.eqb_eq in Hs as ->.
  all: eapply steady_bind; [by apply steady_catch, steady_render|]; intros o; eapply steady_bind; [apply steady_found|]; intros dto.
  all: eapply steady_bind; [|intros ?; apply steady_read_back].
  - by apply steady_catch, (steady_change now "open" z); [left|].
  - by apply steady_catch, (steady_change now "closed" z); [right|].
Qed.

Lemma mine_steady token limit offset : steady (fun _ => True) (handleListMyTickets secret token limit offset) (fun _ _ => True).
Proof.
  eapply steady_bind; [apply steady_subscriber|]. intros u. reading.
  eapply steady_bind; [apply steady_catch, steady_load|]. intros. by apply steady_ret.
Qed.

Lemma create_steady now token text : steady (fun _ => True) (handleCreateMyTicket secret now token text) (fun _ _ => True).
Proof.
  eapply steady_bind; [apply steady_subscriber|]. intros u.
  match goal with |- context [match ?x with Some _ => _ | None => _ end] => destruct x as [[subject message]|] eqn:E; [|apply steady_throw] end.
  apply bind_Some in E as ([s0 m0] & _ & E). apply bind_Some in E as (s1 & Hs%text_bounds & E). apply bind_Some in E as (m1 & Hm%text_bounds & E).
  injection E as <- <-. reading. apply steady_if; intros _; [apply steady_throw|].
  eapply steady_bind; [by apply steady_catch, steady_create|]. intros t.
  eapply steady_bind; [|intros ?; by apply steady_ret].
  eapply steady_weaken; [by apply steady_catch, steady_message|by right|done].
Qed.

Lemma written_count id s : (written id s <= length (List.filter (fun m => (TicketID m =? id)%Z) (rows (messages s))))%nat.
Proof.
  unfold written. generalize (rows (messages s)) as l. intros l. induction l as [|m l IH]; [done|]. cbn. unfold from_user at 1.
  destruct (TicketID m =? id)%Z; [|done]. destruct (negb _); cbn; lia.
Qed.

Lemma customer_steady now token id text : steady (fun _ => True) (handleReplyMyTicket secret now token id text) (fun _ _ => True).
Proof.
  eapply steady_bind; [apply steady_subscriber|]. intros u. destruct (parseIDParam id) as [z|]; [|apply steady_throw].
  destruct (_ ≫= _) as [b|] eqn:E; [|apply steady_throw]. apply bind_Some in E as (v & _ & Hb%text_bounds). reading.
  eapply (steady_bind _ _ _ (fun n s => n < 100 -> room z s)).
  { apply steady_catch, steady_query; [done|]. intros s n _ _ [= <-] Hn. unfold room. pose proof (written_count z s). lia. }
  intros n. apply steady_if; [intros _; apply steady_throw|]. intros Hn%Z.leb_gt. unfold maxMessagesPerTicket in Hn.
  eapply steady_bind; [eapply steady_weaken; [by apply steady_catch, steady_insert| |]|].
  - intros s Hroom. right. by apply Hroom.
  - intros a0 s0 Ha. exact Ha.
  - intros ?. reading. reading. by apply steady_ret.
Qed.

Lemma serve_steady r : steady (fun _ => True) (serve secret r) (fun _ _ => True).
Proof.
  destruct r; cbn [serve]; (eapply steady_bind; [|intros; by apply steady_ret]).
  - apply list_steady.
  - apply get_steady.
  - apply reply_steady.
  - apply status_steady.
  - apply mine_steady.
  - apply create_steady.
  - apply customer_steady.
Qed.

(** What the rest of the panel does: any change of the user database, which takes the
    tickets of users that are gone with it. *)
Definition has_user (d : Db) (t : Ticket) : bool := match users d !! t_UserID t with Some _ => true | None => false end.
Definition elsewhere (d : Db) (fs : list bool) (s : St) : St := set_world (mkWorld d fs) (keep (has_user d) s).

Lemma elsewhere_keeps d fs s : sound s -> sound (elsewhere d fs s) /\ grows s (elsewhere d fs s).
Proof.
  intros [Ht H1 H2 H3]. pose proof (keep_tables (has_user d) s Ht) as Hk. split; [split|split].
  - exact Hk.
  - intros i t [Hi Hu]%map_lookup_filter_Some. destruct (H1 i t Hi) as (? & ? & _). split; [done|split; [done|]]. cbn in Hu |- *.
    unfold has_user in Hu. destruct (users d !! t_UserID t) as [u|]; [by exists u|done].
  - intros i m [Hi _]%map_lookup_filter_Some. by eapply H2.
  - intros id. etrans; [|apply (H3 id)]. apply submseteq_length, NoDup_submseteq.
    + apply NoDup_filter_list, (rows_NoDup m_ID). intros i m. apply Hk.
    + intros m. rewrite !elem_filter, !elem_rows. intros [(i & [Hi _]%map_lookup_filter_Some) Hf]. eauto.
  - cbn. lia.
  - intros id t [Hi Hu]%map_lookup_filter_Some _. exists t. split_and!; try done. exists []. rewrite app_nil_r.
    unfold thread, ListTicketMessagesByTicketIDs. apply (sorted_same thread_order).
    + intros m n [Hm _]%elem_filter [Hn _]%elem_filter. unfold thread_order. intros. apply (message_key (keep (has_user d) s)); [done..|lia].
    + apply (kept_messages (has_user d)); [done|]. intros m Hin%bool_decide_eq_true. apply list_elem_of_singleton in Hin as ->. by exists t.
Qed.

Inductive event := Served (r : request) | Elsewhere (d : Db) (fs : list bool).
Definition happens (s : St) (e : event) : St :=
  match e with Served r => (serve secret r s).1 | Elsewhere d fs => elsewhere d fs s end.


(** ** The emergency grant *)

(** An answered grant was the first of its account, which was out of data or time. *)
Lemma recharge_once now token s s' u g t :
  handleEmergencyRecharge secret now token s = (s', Ok (u, g, t)) ->
  exists v, (Token.loadSubscriptionUser token secret (mkWorld (db (world s)) [])).2 = Ok v /\
    emergency s !! ID v = None /\ emergency s' = <[ID v := now]> (emergency s) /\
    (Status (core v) = "limited" \/ Status (core v) = "expired") /\
    users (db (world s')) = <[ID v := u]> (users (db (world s))) /\ Status (core u) = "active".
Proof.
  intros H1. apply eff_bind_ok in H1 as (s1 & v & Hl & H1). unfold subscriber, on_db in Hl. pose proof (token_reads secret token (world s)) as Hw.
  destruct (Token.loadSubscriptionUser token secret (world s)) as [w r]. injection Hl as <- ->. destruct Hw as [Hd Hv]. exists v. split; [by apply Hv|].
  apply eff_bind_ok in H1 as (s2 & used & Hused & H1). injection Hused as <- <-. cbn [emergency set_world] in H1.
  destruct (emergency s !! ID v) as [?|] eqn:Ee; [done|]. destruct (negb _) eqn:Es; [done|]. apply negb_false_iff, orb_true_iff in Es.
  apply eff_bind_ok in H1 as (s3 & u1 & Hs & H1). injection H1 as <- <- <- <-. apply catch_ok in Hs.
  assert (exists fs, ApplyEmergencyRecharge now (ID v) (set_world (mkWorld (db (world s)) fs) s) = Ok (s3, u1)) as [fs Ha].
  { unfold stmt in Hs. cbn in Hs. rewrite Hd in Hs. destruct (faults w) as [|[] fs]; [|done|].
    - exists []. cbn [tail] in Hs. destruct (ApplyEmergencyRecharge _ _ _) as [[]|]; [|done]. by injection Hs as -> ->.
    - exists fs. cbn [tail] in Hs. destruct (ApplyEmergencyRecharge _ _ _) as [[]|]; [|done]. by injection Hs as -> ->. }
  unfold ApplyEmergencyRecharge in Ha. cbn [emergency set_world world db] in Ha. rewrite Ee in Ha. unfold update_user in Ha.
  destruct (users (db (world s)) !! ID v) as [x|]; [|done]. destruct (granted now (core x)) as [c|] eqn:Eg; [|done]. cbn in Ha.
  destruct (core_ok c); [|done]. injection Ha as <- <-. cbn. split_and!; try done.
  - by destruct Es as [E%String.eqb_eq|E%String.eqb_eq]; [left|right].
  - unfold granted in Eg. destruct (match DataLimit (core x) with Some _ => _ | None => _ end); [|done]. cbn in Eg.
    destruct (match Expire (core x) with Some _ => _ | None => _ end); [|done]. cbn in Eg. by injection Eg as <-.
Qed.
End conversations.
End TicketsProps.

(** ** A panel with two resellers *)

Module TicketsDemo.
Import TicketsProps.

#[local] Instance toy_crypto : Token.Crypto := {|
  Token.sha256 x := x; Token.hmac_sha256 k x := k ++ x; Token.jwt_verify _ _ := None |}.
#[local] Existing Instance LoadMap.wraps_like_amd64.

Definition ali : User := with_owner (Some 7) (ReviewJob.demo_user 1 "ali" "limited" 100 (Some 100) None None None).
Definition sara : User := with_owner (Some 8) (ReviewJob.demo_user 2 "sara" "active" 5 None None None None).
Definition panel : Db := set_users {[1 := ali; 2 := sara]} ReviewJob.demo_db.
Definition of_ali (i : Z) (status : string) : Ticket := mkTicket i 1 "slow" status 10 10.

Definition s0 : St := mkSt (mkWorld panel []) {[1 := of_ali 1 "open"; 2 := mkTicket 2 2 "price" "open" 11 11]}
  {[1 := mkMessage 1 1 false "help" 10; 2 := mkMessage 2 2 false "how much" 11]} ∅ 3 3.

Definition reza : UserApi.Identity := UserApi.mkIdentity "reza" 7 false.
Definition body (s : string) : string := encode (JObject [("body", JString s)]).
Definition token : string := Token.CreateToken "ali" "k" 1000000000.
Definition opening : request := CreateMine 60 token (encode (JObject [("subject", JString "again"); ("message", JString "still slow")])).

Lemma s0_tables : tables s0.
Proof.
  split.
  - intros i t H. cbn in H. rewrite lookup_insert_Some, lookup_singleton_Some in H. destruct H as [[<- <-]|[_ [<- <-]]]; by split.
  - intros i m H. cbn in H. rewrite lookup_insert_Some, lookup_singleton_Some in H. destruct H as [[<- <-]|[_ [<- <-]]]; (split; [done|split; [done|by eexists]]).
Qed.

Lemma s0_sound : sound s0.
Proof.
  split; [apply s0_tables|..].
  - intros i t H. cbn in H. rewrite lookup_insert_Some, lookup_singleton_Some in H. destruct H as [[<- <-]|[_ [<- <-]]];
      (split; [by left|split; [by split; apply Nat.leb_le; vm_compute|by eexists]]).
  - intros i m H. cbn in H. rewrite lookup_insert_Some, lookup_singleton_Some in H. destruct H as [[<- <-]|[_ [<- <-]]]; by split; apply Nat.leb_le; vm_compute.
  - intros id. unfold written. etrans; [|apply (Nat.le_trans _ 2); [reflexivity|lia]]. etrans; [apply List.filter_length_le|]. reflexivity.
Qed.

Lemma tickets_isolated_witness : let p := scope_of "k" opening panel in
  serve "k" opening (keep p s0) = (keep p (serve "k" opening s0).1, (serve "k" opening s0).2) /\ rest p (serve "k" opening s0).1 = rest p s0.
Proof. apply (tickets_isolated "k" opening s0). apply s0_tables. Defined.


Definition opened : St := (serve "k" opening s0).1.

Example ticket_opened : tickets opened !! 3 = Some (mkTicket 3 1 "again" "open" 60 60).
Proof. by vm_compute. Qed.

Example other_reseller_sees_nothing : (serve "k" (ReplyTicket 50 reza "2" (body "hi")) s0).2 = Err (404, "Ticket not found").
Proof. by vm_compute. Qed.

(** A reply reopens a ticket, so that the limit of open ones is no limit. *)
Definition five_open : St :=
  set_tickets {[1 := of_ali 1 "closed"; 4 := of_ali 4 "open"; 5 := of_ali 5 "open"; 6 := of_ali 6 "open"; 7 := of_ali 7 "open"; 8 := of_ali 8 "open"]}
    (set_next 9 3 (set_messages ∅ s0)).

Example reopened_beyond_cap :
  CountOpenTicketsByUserID 1 five_open = Ok 5 /\ CountOpenTicketsByUserID 1 (serve "k" (ReplyMine 60 token "1" (body "hi")) five_open).1 = Ok 6.
Proof. by vm_compute. Qed.

(** A ticket whose first message could not be stored stays, and is listed with [null]. *)
Definition half : St := set_world (mkWorld panel [false; false; false; true]) s0.

Example ticket_without_message :
  (serve "k" opening half).2 = Err (500, "Could not create ticket") /\ thread 3 (serve "k" opening half).1 = [] /\
  (serve "k" (ListMine token "1" "") (serve "k" opening half).1).2 = Ok (MyTickets [mkDTO 3 "again" "open" 60 60 None]).
Proof. by vm_compute. Qed.

Example far_page_is_first :
  (serve "k" (ListMine token "" "4294967296") s0).2 = (serve "k" (ListMine token "" "0") s0).2.
Proof. by vm_compute. Qed.

(** The grant checks the status when the account is read, not when it is written: an
    account disabled in between is active again. *)
Example disabled_reactivated :
  let disabled := mkCore "disabled" (Some 100) "no_reset" None None None None None in
  let s := set_world (mkWorld (set_users {[1 := Store.with_core disabled ali]} panel) []) s0 in
  exists s' u, ApplyEmergencyRecharge 60000000 1 s = Ok (s', u) /\ Status (core u) = "active".
Proof. cbn zeta. eexists _, _. split; [by vm_compute|by vm_compute]. Qed.

Example granted_once :
  exists s' u, handleEmergencyRecharge "k" 60000000 token s0 = (s', Ok (u, 52428800, 1800)) /\
    (handleEmergencyRecharge "k" 70000000 token s').2 = Err (409, "Emergency recharge has already been used").
Proof. eexists _, _. split; [by vm_compute|by vm_compute]. Qed.
End TicketsDemo.
