(* ===== verification/UserView.v ===== *)
(** * UserView: reading users — the list and the batched answers of [user.go]

    [GET /api/users] with its filters, orders and pages, and [buildUserResponses], which
    answers a whole page with a fixed number of statements. The row of an admin is read
    through the cache of [Auth]; what that answers for an id is an argument here. The tags
    of a protocol are read from the table, without their cache, as in [UserApi]. Arguments are
    also
    the case-insensitive match and the collation of Postgres, and the columns about the
    last fetch of a subscription, which nothing else in the model reads. *)

From stdpp Require Import sorting.
From S2P Require Import Prelude GoStrings GoFloat ProxySettings Store UserApi LoadMap Auth Share Subscription OnlineView.
Import Store.

#[local] Open Scope string_scope.
#[local] Open Scope Z_scope.

Module UserView.

(** ** Answers *)

Record adminDTO := mkAdminDTO {
  a_ID : option Z; a_Username : string; a_IsSudo : bool; a_IsOwner : bool; a_TelegramID : option Z; a_DiscordWebhook : option string;
  a_UsersUsage : option Z
}.

Definition toAdminDTO (a : Accounts.Admin) : adminDTO :=
  mkAdminDTO (Some (Accounts.ID a)) (Accounts.Username a) (Accounts.IsSudo a) (Accounts.IsOwner a) (Accounts.TelegramID a)
    (Accounts.DiscordWebhook a) (Some (Accounts.UsersUsage a)).

(** The columns [sub_updated_at], [sub_last_user_agent] and [emergency_used_at]. *)
Record Columns := mkColumns { SubUpdatedAt : option Z; SubLastUserAgent : option string; EmergencyUsedAt : option Z }.

Record userResponseDTO := mkResponse {
  v_ID : Z; v_Username : string; v_core : Core; v_UsedTraffic : Z; v_LifetimeUsedTraffic : Z; v_CreatedAt : Z; v_columns : Columns;
  v_Admin : option adminDTO; v_SyncedFromPanelName : option string;
  v_Proxies : gmap string ProxySettings.Settings; v_Inbounds : gmap string (list string); v_ExcludedInbounds : gmap string (list string);
  v_NextPlan : option UserApi.nextPlanDTO; v_SubscriptionURL : string; v_SubscriptionURLs : list string;
  v_OnlineAt : option Z; v_Online : bool; v_Links : list string
}.

(** ** Statements *)

Definition by_user (p q : Proxy) : Prop := (p_UserID p <? p_UserID q) || ((p_UserID p =? p_UserID q) && (p_ID p <=? p_ID q)) = true.
#[export] Instance by_user_dec p q : Decision (by_user p q) := decide (_ = _).

Definition ListProxiesByUserIDs (ids : list Z) (d : Db) : result dberror (list Proxy) :=
  Ok (merge_sort by_user (List.filter (fun p => bool_decide (p_UserID p ∈ ids)) (map snd (map_to_list (proxies d))))).

(** The association table has a row for each tag. *)
Definition exclusions (d : Db) : list (Z * string) := flat_map (fun '(id, tags) => map (pair id) tags) (map_to_list (exclude_inbounds d)).

Definition by_proxy (r q : Z * string) : Prop := (r.1 <? q.1) || ((r.1 =? q.1) && negb (str_ltb q.2 r.2)) = true.
#[export] Instance by_proxy_dec r q : Decision (by_proxy r q) := decide (_ = _).

Definition ListExcludedInboundTagsByProxyIDs (ids : list Z) (d : Db) : result dberror (list (Z * string)) :=
  Ok (merge_sort by_proxy (List.filter (fun r => bool_decide (r.1 ∈ ids)) (exclusions d))).

Definition GetNextPlansByUserIDs (ids : list Z) (d : Db) : result dberror (list (Z * NextPlan)) :=
  Ok (List.filter (fun r => bool_decide (r.1 ∈ ids)) (map_to_list (next_plans d))).

(** ** A page of answers *)

(** Rows by a key, in the order they came. *)
Definition group {A B} (key : A -> Z) (val : A -> B) (l : list A) : gmap Z (list B) :=
  foldl (fun m x => <[key x := (default [] (m !! key x) ++ [val x])%list]> m) ∅ l.

Definition TrimRight_slash (s : string) : string := trim_right_byte "/" s.

Section view.
Context `{Token.Crypto} (jwtSecret subURLPrefix : string) (subURLPrefixes : list string).
Context (adminOf : Z -> option Accounts.Admin) (columns : Z -> Columns).

Definition subscriptionURLs (token : string) : list string :=
  match subURLPrefixes with
  | [] => [subURLPrefix ++ "/sub/" ++ token]
  | ps => map (fun prefix => TrimRight_slash prefix ++ "/sub/" ++ token) ps
  end.

Definition set_proxy (known : gmap string (list string)) (excludedByProxy : gmap Z (list string))
    (out : gmap string ProxySettings.Settings * gmap string (list string) * gmap string (list string)) (p : Proxy) :=
  let '(proxiesOut, inboundsOut, excludedOut) := out in
  let excluded := default [] (excludedByProxy !! p_ID p) in
  (<[p_Type p := p_Settings p]> proxiesOut,
   <[p_Type p := UserApi.subtractTags (default [] (known !! p_Type p)) excluded]> inboundsOut,
   <[p_Type p := excluded]> excludedOut).

Definition toNextPlanDTO (p : NextPlan) : UserApi.nextPlanDTO :=
  UserApi.mkPlanDTO (np_DataLimit p) (default 0 (np_Expire p)) (AddRemainingTraffic p) (FireOnEither p).

(** What is known of a page when its answers are put together. *)
Record Gathered := mkGathered {
  proxiesByUser : gmap Z (list Proxy); excludedByProxy : gmap Z (list string); knownByProtocol : gmap string (list string);
  nextPlanByUser : gmap Z NextPlan; adminByID : gmap Z Accounts.Admin
}.

Definition response (now : Z) (presence : Online.presenceView) (g : Gathered) (u : User) : userResponseDTO :=
  let '(online, onlineAt) := Online.userStatus presence (Username u) (OnlineAt u) now in
  let '(proxiesOut, inboundsOut, excludedOut) :=
    foldl (set_proxy (knownByProtocol g) (excludedByProxy g)) (∅, ∅, ∅) (default [] (proxiesByUser g !! ID u)) in
  let token := Token.CreateToken (Username u) jwtSecret (now * 1000) in
  mkResponse (ID u) (Username u) (core u) (UsedTraffic u) (UsedTraffic u) (CreatedAt u) (columns (ID u))
    (id ← AdminID u; toAdminDTO <$> adminByID g !! id) (SyncedFromPanelName u) proxiesOut inboundsOut excludedOut
    (toNextPlanDTO <$> nextPlanByUser g !! ID u) (subURLPrefix ++ "/sub/" ++ token) (subscriptionURLs token) onlineAt online [].

Fixpoint known_tags (protocols : list string) (m : gmap string (list string)) : M dberror (gmap string (list string)) :=
  match protocols with
  | [] => mret m
  | protocol :: rest => known ← query (ListInboundTagsByProtocol protocol); known_tags rest (<[protocol := known]> m)
  end.

Definition add_admin (m : gmap Z Accounts.Admin) (id : Z) : gmap Z Accounts.Admin :=
  match adminOf id with Some a => <[id := a]> m | None => m end.

(** The protocols of a page are visited in some order; here as they come. *)
Definition gather (us : list User) : M dberror Gathered :=
  let userIDs := map ID us in
  allProxies ← query (ListProxiesByUserIDs userIDs);
  excludedRows ← match allProxies with
                 | [] => mret []
                 | _ => query (ListExcludedInboundTagsByProxyIDs (map p_ID allProxies))
                 end;
  known ← known_tags (remove_dups (map p_Type allProxies)) ∅;
  plans ← query (GetNextPlansByUserIDs userIDs);
  mret (mkGathered (group p_UserID (fun p => p) allProxies) (group fst snd excludedRows) known
          (foldl (fun m r => <[r.1 := r.2]> m) ∅ plans) (foldl add_admin ∅ (remove_dups (omap AdminID us)))).

Definition buildUserResponses (now : Z) (presence : list string -> Online.presenceView) (us : list User) : M dberror (list userResponseDTO) :=
  match us with
  | [] => mret []
  | _ => g ← gather us; mret (map (response now (presence (map Username us)) g) us)
  end.

Definition buildUserResponse (now : Z) (presence : list string -> Online.presenceView) (u : User) : M dberror userResponseDTO :=
  out ← buildUserResponses now presence [u];
  match out with r :: _ => mret r | [] => fail NoRows end.

(** ** The list *)

Context (ilike : string -> string -> bool) (collate : string -> string -> comparison).

Record list_query := mkQuery { q_search : string; q_status : list string; q_offset : string; q_limit : string; q_sort : string }.

(** [username ILIKE '%' || search || '%' OR note ILIKE ...]; a null note matches nothing. *)
Definition matches (admin : option Z) (statuses : list string) (search : option string) (u : User) : bool :=
  match admin with None => true | Some a => bool_decide (AdminID u = Some a) end &&
  match statuses with [] => true | l => str_mem (Status (core u)) l end &&
  match search with
  | None => true
  | Some s => let pattern := "%" ++ s ++ "%" in
              ilike (Username u) pattern || match Note (core u) with Some n => ilike n pattern | None => false end
  end.

Definition null_last (a b : option Z) : comparison :=
  match a, b with Some x, Some y => (x ?= y) | Some _, None => Lt | None, Some _ => Gt | None, None => Eq end.

Definition compare (sort : string) (u v : User) : comparison :=
  if String.eqb sort "created_at" then CreatedAt u ?= CreatedAt v
  else if String.eqb sort "-created_at" then CreatedAt v ?= CreatedAt u
  else if String.eqb sort "username" then collate (Username u) (Username v)
  else if String.eqb sort "-used_traffic" then UsedTraffic v ?= UsedTraffic u
  else if String.eqb sort "expire" then null_last (Expire (core u)) (Expire (core v))
  else Eq.

(** The key, then [id DESC]. *)
Definition comes_first (sort : string) (u v : User) : Prop :=
  match compare sort u v with Lt => true | Gt => false | Eq => ID v <=? ID u end = true.
#[export] Instance comes_first_dec sort u v : Decision (comes_first sort u v) := decide (_ = _).

Definition page {A} (limit offset : option Z) (l : list A) : result dberror (list A) :=
  if match limit with Some n => n <? 0 | None => false end || match offset with Some n => n <? 0 | None => false end then Err OutOfRange
  else let l := match offset with Some n => drop (Z.to_nat n) l | None => l end in
       Ok match limit with Some n => take (Z.to_nat n) l | None => l end.

Definition ListUsers (admin : option Z) (statuses : list string) (search : option string) (sort : string) (limit offset : option Z)
    (d : Db) : result dberror (list User) :=
  page limit offset (merge_sort (comes_first sort) (select (matches admin statuses search) d)).

Definition CountUsers (admin : option Z) (statuses : list string) (search : option string) (d : Db) : result dberror Z :=
  Ok (Z.of_nat (length (select (matches admin statuses search) d))).

(** A number of the query, cut to 32 bits; what is not a number counts as absent. *)
Definition int_param (v : string) : option Z := if String.eqb v "" then None else int32 <$> ParseInt v.

Definition handleListUsers (now : Z) (presence : list string -> Online.presenceView) (identity : UserApi.Identity) (q : list_query) :
    M UserApi.httperr (list userResponseDTO * Z) :=
  let admin := if UserApi.IsSudo identity then None else Some (int32 (UserApi.i_AdminID identity)) in
  let search := if String.eqb (q_search q) "" then None else Some (q_search q) in
  rows ← UserApi.run (query (ListUsers admin (q_status q) search (UserApi.validUserSort (q_sort q)) (int_param (q_limit q)) (int_param (q_offset q))))
           "Could not list users";
  out ← UserApi.run (buildUserResponses now presence rows) "Could not read users";
  total ← UserApi.run (query (CountUsers admin (q_status q) search)) "Could not count users";
  mret (out, total).
End view.

End UserView.
