(* ===== verification/UserViewProps.v ===== *)
(** * UserViewProps: what a page of users says *)

From stdpp Require Import sorting.
From S2P Require Import Prelude GoStrings GoFloat ProxySettings Store ReviewJob UserApi LoadMap Auth Subscription OnlineView UserView TicketsProps.
Import Store UserView.

#[local] Open Scope string_scope.
#[local] Open Scope Z_scope.

(** ** Rows by a key *)

Module Groups.
Import Rows.

Lemma group_lookup {A B} (key : A -> Z) (val : A -> B) (l : list A) k :
  default [] (group key val l !! k) = map val (List.filter (fun x => key x =? k) l).
Proof.
  unfold group.
  assert (forall m, default [] (foldl (fun m x => <[key x := (default [] ((m : gmap Z (list B)) !! key x) ++ [val x])%list]> m) m l !! k) =
    (default [] (m !! k) ++ map val (List.filter (fun x => key x =? k) l))%list) as H.
  { induction l as [|x l IH]; intros m; cbn; [by rewrite app_nil_r|]. rewrite IH. destruct (Z.eqb_spec (key x) k) as [->|Hne].
    - rewrite lookup_insert_eq. cbn. by rewrite <- app_assoc.
    - by rewrite lookup_insert_ne. }
  rewrite H. by rewrite lookup_empty.
Qed.

Lemma filter_filter {A} (f g : A -> bool) l : (forall x, x ∈ l -> f x = true -> g x = true) -> List.filter f (List.filter g l) = List.filter f l.
Proof.
  induction l as [|x l IH]; intros H; [done|]. cbn. rewrite <- IH by (intros y Hy; apply H; by constructor).
  destruct (g x) eqn:Eg; cbn; [done|]. destruct (f x) eqn:Ef; [|done]. rewrite H in Eg; [done|by constructor|done].
Qed.

Lemma filter_sorted {A} (R : relation A) (f : A -> bool) l : StronglySorted R l -> StronglySorted R (List.filter f l).
Proof.
  induction 1 as [|x k Hk IH Hx]; cbn; [constructor|]. destruct (f x); [|done]. constructor; [done|].
  rewrite Forall_forall in Hx |- *. intros y [Hy _]%elem_filter. by apply Hx.
Qed.

(** Selecting from a sorted table is sorting what is selected. *)
Lemma filter_sort {A} (R : relation A) `{!forall x y, Decision (R x y), !Transitive R, !Total R} (f : A -> bool) l :
  (forall x y, x ∈ l -> y ∈ l -> R x y -> R y x -> x = y) -> List.filter f (merge_sort R l) = merge_sort R (List.filter f l).
Proof.
  intros Ha. assert (List.filter f (merge_sort R l) ≡ₚ List.filter f l) as Hp by apply TicketsProps.filter_perm, merge_sort_Permutation.
  apply (Sorted_unique_strong R); [|..|by rewrite Hp, merge_sort_Permutation].
  - intros x y. rewrite Hp, merge_sort_Permutation. rewrite !elem_filter. intros [] []. by apply Ha.
  - apply StronglySorted_Sorted, filter_sorted, Sorted_StronglySorted; [apply _|]. apply Sorted_merge_sort; apply _.
  - apply Sorted_merge_sort; apply _.
Qed.

End Groups.

Module UserViewProps.
Import Rows Groups.

#[local] Instance by_user_trans : Transitive by_user.
Proof. intros [] [] []. unfold by_user. cbn. lia. Qed.
#[local] Instance by_user_total : Total by_user.
Proof. intros [] []. unfold by_user. cbn. lia. Qed.

Lemma str_ltb_false_trans a b c : str_ltb b a = false -> str_ltb c b = false -> str_ltb c a = false.
Proof.
  intros H1 H2. destruct (str_ltb c a) eqn:E; [|done]. destruct (str_ltb_total a b) as [H|[->|H]]; [|congruence..].
  rewrite (str_ltb_trans c a b E H) in H2. done.
Qed.

Lemma by_proxy_iff r q : by_proxy r q <-> r.1 < q.1 \/ (r.1 = q.1 /\ str_ltb q.2 r.2 = false).
Proof. unfold by_proxy. by rewrite orb_true_iff, andb_true_iff, negb_true_iff, Z.ltb_lt, Z.eqb_eq. Qed.

#[local] Instance by_proxy_trans : Transitive by_proxy.
Proof.
  intros r q p. rewrite !by_proxy_iff. intros [H1|[E1 H1]] [H2|[E2 H2]]; [left; lia|left; lia|left; lia|right; split; [lia|]].
  by apply (str_ltb_false_trans _ q.2).
Qed.
#[local] Instance by_proxy_total : Total by_proxy.
Proof.
  intros r q. rewrite !by_proxy_iff. destruct (Z.lt_trichotomy r.1 q.1) as [H|[H|H]]; [by left; left| |by right; left].
  destruct (str_ltb q.2 r.2) eqn:E; [right|left]; right; (split; [done|]); [|done].
  destruct (str_ltb r.2 q.2) eqn:E2; [|done]. pose proof (str_ltb_trans _ _ _ E E2) as H3. by rewrite str_ltb_irrefl in H3.
Qed.

Lemma by_proxy_anti r q : by_proxy r q -> by_proxy q r -> r = q.
Proof.
  rewrite !by_proxy_iff. intros H1 H2. destruct r as [i s], q as [j t]. cbn in *. assert (i = j) as -> by lia.
  f_equal. destruct H1 as [?|[_ H1]]; [lia|]. destruct H2 as [?|[_ H2]]; [lia|]. by destruct (str_ltb_total s t) as [?|[?|?]]; [congruence|done|congruence].
Qed.

(** ** An answer from a user's own rows *)

Definition proxies_of (d : Db) (id : Z) : list Proxy :=
  merge_sort by_user (List.filter (fun p => p_UserID p =? id) (map snd (map_to_list (proxies d)))).
Definition excluded_of (d : Db) (id : Z) : list string :=
  map snd (merge_sort by_proxy (List.filter (fun r => r.1 =? id) (exclusions d))).
Definition tags_of (d : Db) (protocol : string) : list string :=
  map fst (List.filter (fun '(_, p) => String.eqb p protocol) (inbounds d)).

Definition own_proxy (d : Db) (out : gmap string ProxySettings.Settings * gmap string (list string) * gmap string (list string)) (p : Proxy) :=
  let excluded := excluded_of d (p_ID p) in
  (<[p_Type p := p_Settings p]> out.1.1, <[p_Type p := UserApi.subtractTags (tags_of d (p_Type p)) excluded]> out.1.2, <[p_Type p := excluded]> out.2).

Section view.
Context `{Token.Crypto} (jwtSecret subURLPrefix : string) (subURLPrefixes : list string).
Context (adminOf : Z -> option Accounts.Admin) (columns : Z -> Columns).
#[local] Abbreviation response := (response jwtSecret subURLPrefix subURLPrefixes columns).
#[local] Abbreviation buildUserResponses := (buildUserResponses jwtSecret subURLPrefix subURLPrefixes adminOf columns).
#[local] Abbreviation buildUserResponse := (buildUserResponse jwtSecret subURLPrefix subURLPrefixes adminOf columns).

(** The answer about a user, read from the rows of this user alone. *)
Definition own_response (now : Z) (presence : Online.presenceView) (d : Db) (u : User) : userResponseDTO :=
  let status := Online.userStatus presence (Username u) (OnlineAt u) now in
  let out := foldl (own_proxy d) (∅, ∅, ∅) (proxies_of d (ID u)) in
  let token := Token.CreateToken (Username u) jwtSecret (now * 1000) in
  mkResponse (ID u) (Username u) (core u) (UsedTraffic u) (UsedTraffic u) (CreatedAt u) (columns (ID u))
    (id ← AdminID u; toAdminDTO <$> adminOf id) (SyncedFromPanelName u) out.1.1 out.1.2 out.2
    (toNextPlanDTO <$> next_plans d !! ID u) (subURLPrefix ++ "/sub/" ++ token) (subscriptionURLs subURLPrefix subURLPrefixes token)
    status.2 status.1 [].

Lemma proxies_grouped d (ids : list Z) id : wf d -> id ∈ ids ->
  List.filter (fun p => p_UserID p =? id)
    (merge_sort by_user (List.filter (fun p => bool_decide (p_UserID p ∈ ids)) (map snd (map_to_list (proxies d))))) = proxies_of d id.
Proof.
  intros Hw Hid. unfold proxies_of. rewrite (filter_sort by_user).
  - f_equal. apply filter_filter. intros p _ ->%Z.eqb_eq. by apply bool_decide_eq_true.
  - assert (forall p, p ∈ List.filter (fun p => bool_decide (p_UserID p ∈ ids)) (map snd (map_to_list (proxies d))) -> proxies d !! p_ID p = Some p) as Hp.
    { intros p [Hp _]%elem_filter. apply (elem_rows (proxies d)) in Hp as [i Hi]. by destruct (wf_proxies d Hw i p Hi) as [-> _]. }
    intros p q Hpp%Hp Hqq%Hp. unfold by_user. intros. assert (p_ID p = p_ID q) as E by lia. rewrite E in Hpp. congruence.
Qed.

Lemma excluded_grouped d (ids : list Z) id : id ∈ ids ->
  map snd (List.filter (fun r : Z * string => r.1 =? id) (merge_sort by_proxy (List.filter (fun r => bool_decide (r.1 ∈ ids)) (exclusions d)))) = excluded_of d id.
Proof.
  intros Hid. unfold excluded_of. rewrite (filter_sort by_proxy) by (intros; by apply by_proxy_anti).
  do 2 f_equal. apply filter_filter. intros p _ ->%Z.eqb_eq. by apply bool_decide_eq_true.
Qed.

Lemma plans_grouped d (ids : list Z) id : id ∈ ids ->
  (foldl (fun m r => <[r.1 := r.2]> m) (∅ : gmap Z NextPlan) (List.filter (fun r => bool_decide (r.1 ∈ ids)) (map_to_list (next_plans d)))) !! id =
  next_plans d !! id.
Proof.
  intros Hid. pose proof (NoDup_fst_map_to_list (next_plans d)) as Hnd.
  assert (forall l (m : gmap Z NextPlan), NoDup l.*1 -> foldl (fun m r => <[r.1 := r.2]> m) m (List.filter (fun r => bool_decide (r.1 ∈ ids)) l) !! id =
    match (list_to_map l : gmap Z NextPlan) !! id with Some x => Some x | None => m !! id end) as H1.
  { induction l as [|[k x] l IH]; intros m Hl; [done|]. cbn in Hl |- *. apply NoDup_cons in Hl as [Hk Hl].
    destruct (decide (k = id)) as [->|Hne].
    - rewrite bool_decide_eq_true_2 by done. cbn. rewrite IH, lookup_insert_eq by done.
      rewrite not_elem_of_list_to_map_1 by done. by rewrite lookup_insert_eq.
    - rewrite lookup_insert_ne by done. case_bool_decide; cbn; rewrite IH by done; [by rewrite lookup_insert_ne|done]. }
  rewrite H1 by done. rewrite list_to_map_to_list, lookup_empty. by destruct (next_plans d !! id).
Qed.

Lemma known_ok protocols m w w' m' : known_tags protocols m w = (w', Ok m') ->
  db w' = db w /\ forall p, m' !! p = if str_mem p protocols then Some (tags_of (db w) p) else m !! p.
Proof.
  revert m w. induction protocols as [|x l IH]; intros m w; cbn [known_tags]; [by intros [= <- <-]|].
  intros (w1 & known & [Hq Hd]%query_ok & Hrest)%bind_ok. injection Hq as <-. destruct (IH _ _ Hrest) as [Hd2 Hm]. split; [congruence|].
  intros p. rewrite Hm, Hd. unfold str_mem. cbn. destruct (String.eqb_spec p x) as [->|Hne]; cbn.
  - rewrite lookup_insert_eq. by destruct (existsb _ _).
  - by rewrite lookup_insert_ne.
Qed.

Lemma admins_ok (ids : list Z) id : id ∈ ids -> foldl (add_admin adminOf) ∅ ids !! id = adminOf id.
Proof.
  intros Hin. assert (forall m, foldl (add_admin adminOf) m ids !! id = if decide (id ∈ ids) then
    match adminOf id with Some a => Some a | None => m !! id end else m !! id) as Hf.
  { clear Hin. induction ids as [|k l IH]; intros m; [done|]. cbn. rewrite IH. unfold add_admin.
    destruct (decide (id ∈ l)) as [Hl|Hl].
    - rewrite decide_True by (by constructor). destruct (adminOf id) eqn:Ea; [done|]. destruct (adminOf k) eqn:Ek; [|done].
      rewrite lookup_insert_ne; [done|congruence].
    - destruct (decide (k = id)) as [->|Hne].
      + rewrite decide_True by (by constructor). destruct (adminOf id); [by rewrite lookup_insert_eq|done].
      + rewrite decide_False by (by rewrite elem_of_cons; intros [|]). destruct (adminOf k); [by rewrite lookup_insert_ne|done]. }
  rewrite Hf, decide_True by done. rewrite lookup_empty. by destruct (adminOf id).
Qed.

(** ** A page of answers *)

Definition agrees (d : Db) (g : Gathered) (u : User) : Prop :=
  default [] (proxiesByUser g !! ID u) = proxies_of d (ID u) /\
  (forall p, p ∈ proxies_of d (ID u) ->
     default [] (excludedByProxy g !! p_ID p) = excluded_of d (p_ID p) /\ default [] (knownByProtocol g !! p_Type p) = tags_of d (p_Type p)) /\
  nextPlanByUser g !! ID u = next_plans d !! ID u /\ (forall id, AdminID u = Some id -> adminByID g !! id = adminOf id).

Lemma response_own now presence d g u : agrees d g u -> response now presence g u = own_response now presence d u.
Proof.
  intros (Hp & Hx & Hn & Ha). unfold UserView.response, own_response. destruct (Online.userStatus _ _ _ _) as [online at_]. cbn [fst snd].
  rewrite Hp, Hn. replace (id ← AdminID u; toAdminDTO <$> adminByID g !! id) with (id ← AdminID u; toAdminDTO <$> adminOf id)
    by (destruct (AdminID u) as [id|]; [cbn; by rewrite Ha|done]).
  assert (forall out, foldl (set_proxy (knownByProtocol g) (excludedByProxy g)) out (proxies_of d (ID u)) = foldl (own_proxy d) out (proxies_of d (ID u))) as ->.
  { clear Hp. induction (proxies_of d (ID u)) as [|p l IH]; intros out; [done|]. cbn. rewrite IH by (intros q Hq; apply Hx; by constructor).
    destruct (Hx p) as [H1 H2]; [by constructor|]. destruct out as [[a b] c]. cbn. by rewrite H1, H2. }
  by destruct (foldl _ _ _) as [[a b] c].
Qed.

Lemma gather_agrees us w w' g : wf (db w) -> gather adminOf us w = (w', Ok g) ->
  db w' = db w /\ forall u, u ∈ us -> agrees (db w) g u.
Proof.
  intros Hw (w1 & ps & [Hps Hd1]%query_ok & Hg)%bind_ok. injection Hps as <-.
  set (ps := merge_sort by_user _) in Hg. apply bind_ok in Hg as (w2 & xs & Hxs & Hg).
  assert (db w2 = db w /\ xs = merge_sort by_proxy (List.filter (fun r => bool_decide (r.1 ∈ map p_ID ps)) (exclusions (db w)))) as [Hd2 ->].
  { destruct ps as [|p ps'] eqn:E.
    - injection Hxs as <- <-. split; [done|]. by rewrite none_selected.
    - apply query_ok in Hxs as [Hq Hd]. injection Hq as <-. by rewrite Hd, Hd1. }
  apply bind_ok in Hg as (w3 & known & Hk & Hg). destruct (known_ok _ _ _ _ _ Hk) as [Hd3 Hknown].
  apply bind_ok in Hg as (w4 & plans & [Hp Hd4]%query_ok & Hg). injection Hp as <-. injection Hg as <- <-.
  split; [congruence|]. rewrite Hd2 in *. rewrite Hd3 in *. intros u Hu.
  assert (ID u ∈ map ID us) as Hid by (apply list_elem_of_fmap; by exists u).
  assert (default [] (group p_UserID (fun p => p) ps !! ID u) = proxies_of (db w) (ID u)) as Hps.
  { rewrite group_lookup, map_id. unfold ps. by apply proxies_grouped. }
  split_and!; [done|..].
  - intros p Hp. cbn [excludedByProxy knownByProtocol].
    assert (p ∈ ps) as Hin. { rewrite <- Hps, group_lookup, map_id in Hp. by apply elem_filter in Hp as [? _]. }
    split.
    + rewrite group_lookup. apply excluded_grouped. apply list_elem_of_fmap. by exists p.
    + rewrite Hknown. rewrite (proj2 (str_mem_spec _ _)); [done|]. apply list_elem_of_In, elem_of_remove_dups, list_elem_of_fmap. by exists p.
  - by apply plans_grouped.
  - intros id Ha. cbn [adminByID]. apply admins_ok, elem_of_remove_dups, list_elem_of_omap. by exists u.
Qed.

Lemma buildUserResponses_ok now presence us w w' out : wf (db w) -> buildUserResponses now presence us w = (w', Ok out) ->
  db w' = db w /\ out = map (own_response now (presence (map Username us)) (db w)) us.
Proof.
  intros Hw. unfold UserView.buildUserResponses. destruct us as [|u us']; [by intros [= <- <-]|]. set (us := u :: us').
  intros (w1 & g & Hg & [= <- <-])%bind_ok. destruct (gather_agrees _ _ _ _ Hw Hg) as [Hd Ha]. split; [done|].
  apply (map_ext_in (response _ _ g) _ us). intros v Hv. apply response_own, Ha. by apply list_elem_of_In.
Qed.

(** ** The order *)

Section order.
Context (collate : string -> string -> comparison).
Context (collate_flip : forall a b, collate b a = CompOpp (collate a b)).
Context (collate_trans : forall a b c, collate a b <> Gt -> collate b c <> Gt -> collate a c <> Gt).
#[local] Abbreviation compare := (compare collate).

(** The keys of an order compare as a total preorder. *)
Definition preorder {A} (cmp : A -> A -> comparison) : Prop :=
  (forall a b, cmp b a = CompOpp (cmp a b)) /\ (forall a b c, cmp a b <> Gt -> cmp b c <> Gt -> cmp a c <> Gt).

Lemma preorder_Z {A} (f : A -> Z) : preorder (fun a b => f a ?= f b).
Proof. split; [intros; apply Z.compare_antisym|]. intros a b c. rewrite !Z.compare_le_iff. lia. Qed.

Lemma preorder_flip {A} (cmp : A -> A -> comparison) : preorder cmp -> preorder (fun a b => cmp b a).
Proof. intros [H1 H2]. split; [intros; apply H1|]. intros a b c ? ?. by apply (H2 c b a). Qed.

Lemma null_last_preorder {A} (f : A -> option Z) : preorder (fun a b => null_last (f a) (f b)).
Proof.
  split; intros a b; [|intros c]; unfold null_last; destruct (f a) as [x|], (f b) as [y|]; try destruct (f c); try done; [apply Z.compare_antisym|].
  rewrite !Z.compare_le_iff. lia.
Qed.

Lemma compare_preorder sort : preorder (compare sort).
Proof.
  unfold UserView.compare. repeat case_match; [apply preorder_Z|apply (preorder_flip (fun u v => CreatedAt u ?= CreatedAt v)), preorder_Z|..].
  - split; [intros; apply collate_flip|]. intros u v t. apply collate_trans.
  - apply (preorder_flip (fun u v => UsedTraffic u ?= UsedTraffic v)), preorder_Z.
  - apply (null_last_preorder (fun u => Expire (core u))).
  - by split.
Qed.

Lemma comes_first_iff sort u v :
  comes_first collate sort u v <-> compare sort u v = Lt \/ (compare sort u v = Eq /\ ID v <= ID u).
Proof. unfold comes_first. destruct (compare sort u v); rewrite ?Z.leb_le; naive_solver. Qed.

Lemma comes_first_trans sort : Transitive (comes_first collate sort).
Proof.
  destruct (compare_preorder sort) as [Hf Ht]. intros u v t. rewrite !comes_first_iff. intros H1 H2.
  assert (compare sort u v <> Gt) as Huv by (intros E; rewrite E in H1; naive_solver).
  assert (compare sort v t <> Gt) as Hvt by (intros E; rewrite E in H2; naive_solver).
  pose proof (Ht u v t Huv Hvt) as Hut. destruct (compare sort u t) eqn:E; [|by left|done]. right. split; [done|].
  assert (compare sort t u <> Gt) as Htu by (by rewrite Hf, E).
  pose proof (Ht v t u Hvt Htu) as Hvu. pose proof (Ht t u v Htu Huv) as Htv. rewrite Hf in Hvu, Htv.
  destruct H1 as [H1|[H1 L1]]; [by rewrite H1 in Hvu|]. destruct H2 as [H2|[H2 L2]]; [by rewrite H2 in Htv|lia].
Qed.

Lemma comes_first_total sort : Total (comes_first collate sort).
Proof.
  destruct (compare_preorder sort) as [Hf _]. intros u v. rewrite !comes_first_iff, (Hf u v). destruct (compare sort u v); cbn; [|by left; left|by right; left].
  destruct (Z.le_ge_cases (ID v) (ID u)); [left|right]; by right.
Qed.

End order.

(** ** The list *)

Section listing.
Context (ilike : string -> string -> bool) (collate : string -> string -> comparison).
Context (collate_flip : forall a b, collate b a = CompOpp (collate a b)).
Context (collate_trans : forall a b c, collate a b <> Gt -> collate b c <> Gt -> collate a c <> Gt).
#[local] Abbreviation handleListUsers := (handleListUsers jwtSecret subURLPrefix subURLPrefixes adminOf columns ilike collate).

(** Whom a request is about: users of the admin who asks, all of them for sudo. *)
Definition asked (identity : UserApi.Identity) (q : list_query) (u : User) : Prop :=
  (UserApi.IsSudo identity = true \/ AdminID u = Some (int32 (UserApi.i_AdminID identity))) /\
  (q_status q = [] \/ In (Status (core u)) (q_status q)) /\
  (q_search q = "" \/ ilike (Username u) ("%" ++ q_search q ++ "%") = true \/
   exists note, Note (core u) = Some note /\ ilike note ("%" ++ q_search q ++ "%") = true).

Definition scope (identity : UserApi.Identity) : option Z :=
  if UserApi.IsSudo identity then None else Some (int32 (UserApi.i_AdminID identity)).
Definition term (q : list_query) : option string := if String.eqb (q_search q) "" then None else Some (q_search q).

Lemma matches_asked identity q u : matches ilike (scope identity) (q_status q) (term q) u = true <-> asked identity q u.
Proof.
  unfold matches, asked, scope, term. rewrite !andb_true_iff, Logic.and_assoc. f_equiv; [|f_equiv].
  - destruct (UserApi.IsSudo identity); [|rewrite bool_decide_eq_true]; naive_solver.
  - destruct (q_status q) eqn:E; [naive_solver|]. rewrite str_mem_spec. naive_solver.
  - destruct (String.eqb_spec (q_search q) ""); [naive_solver|]. rewrite orb_true_iff. destruct (Note (core u)); naive_solver.
Qed.

Lemma sorted_matches identity q d l : wf d ->
  l = merge_sort (comes_first collate (UserApi.validUserSort (q_sort q))) (select (matches ilike (scope identity) (q_status q) (term q)) d) ->
  StronglySorted (comes_first collate (UserApi.validUserSort (q_sort q))) l /\ NoDup (map ID l) /\
  (forall u, u ∈ l <-> users d !! ID u = Some u /\ asked identity q u) /\
  length l = length (select (matches ilike (scope identity) (q_status q) (term q)) d).
Proof.
  intros Hw ->. pose proof (comes_first_trans collate collate_flip collate_trans (UserApi.validUserSort (q_sort q))) as Ht.
  pose proof (comes_first_total collate collate_flip collate_trans (UserApi.validUserSort (q_sort q))) as Hl.
  split_and!; [|..|by rewrite merge_sort_Permutation].
  - apply Sorted_StronglySorted; [apply _|]. apply Sorted_merge_sort; apply _.
  - rewrite merge_sort_Permutation. by apply select_NoDup.
  - intros u. rewrite merge_sort_Permutation, list_elem_of_In, select_elem by done. by rewrite matches_asked.
Qed.

(** C12: a list of users that is answered changes no row, and is the page asked for of
    all users of the admin who asks (of everyone for sudo) that pass the filters, each
    once and in the order asked for; its total counts all of them, and each user is told
    what its own rows say and nothing of another's. *)
Theorem listing_exact now presence identity q w w' out total :
  wf (db w) -> handleListUsers now presence identity q w = (w', Ok (out, total)) ->
  db w' = db w /\ exists all rows,
    StronglySorted (comes_first collate (UserApi.validUserSort (q_sort q))) all /\ NoDup (map ID all) /\
    (forall u, u ∈ all <-> users (db w) !! ID u = Some u /\ asked identity q u) /\
    page (int_param (q_limit q)) (int_param (q_offset q)) all = Ok rows /\
    out = map (own_response now (presence (map Username rows)) (db w)) rows /\ total = Z.of_nat (length all).
Proof.
  intros Hw (w1 & rows & [Hr Hd1]%or_else_ok%query_ok & (w2 & v & Hv%or_else_ok & (w3 & n & [Hn Hd3]%or_else_ok%query_ok & [= <- <- <-])%bind_ok)%bind_ok)%bind_ok.
  rewrite <- Hd1 in Hw. destruct (buildUserResponses_ok _ _ _ _ _ _ Hw Hv) as [Hd2 ->]. rewrite Hd1 in *. rewrite Hd2 in *.
  split; [done|]. injection Hn as <-. unfold ListUsers in Hr. eexists _, rows.
  destruct (sorted_matches identity q (db w) _ Hw eq_refl) as (Hs & Hnd & Hin & Hlen). split_and!; [apply Hs|done|done|done|done|].
  by rewrite Hlen.
Qed.

End listing.
End view.
End UserViewProps.

(** ** A page of three users *)

Module UserViewDemo.
Import UserViewProps.

#[local] Instance toy_crypto : Token.Crypto := {|
  Token.sha256 x := x; Token.hmac_sha256 k x := k ++ x; Token.jwt_verify _ _ := None |}.

(** A collation by bytes, and a match of the text between the two wildcards. *)
Definition collate (a b : string) : comparison := if str_ltb a b then Lt else if str_ltb b a then Gt else Eq.
Definition ilike (s pattern : string) : bool :=
  match String.index 0 (String.substring 1 (String.length pattern - 2) pattern) s with Some _ => true | None => false end.

Lemma collate_flip a b : collate b a = CompOpp (collate a b).
Proof.
  unfold collate. destruct (str_ltb a b) eqn:E1, (str_ltb b a) eqn:E2; try done.
  pose proof (str_ltb_trans _ _ _ E1 E2) as H. by rewrite str_ltb_irrefl in H.
Qed.

Lemma collate_le a b : collate a b <> Gt <-> str_ltb b a = false.
Proof.
  unfold collate. destruct (str_ltb a b) eqn:E1, (str_ltb b a) eqn:E2; try done.
  pose proof (str_ltb_trans _ _ _ E1 E2) as H. by rewrite str_ltb_irrefl in H.
Qed.

Lemma collate_trans a b c : collate a b <> Gt -> collate b c <> Gt -> collate a c <> Gt.
Proof. rewrite !collate_le. apply str_ltb_false_trans. Qed.

Definition noon : Z := 1700000000 * 1000000.
Definition root : UserApi.Identity := UserApi.mkIdentity "root" 1 true.
Definition asking (q : list_query) := handleListUsers "k" "https://panel" [] (fun _ => None) (fun _ => mkColumns None None None) ilike collate
  noon (fun _ => Online.no_view) root q (mkWorld ReviewJob.demo_db []).
Definition first_two : list_query := mkQuery "a" ["active"; "on_hold"] "" "2" "username".
Definition answered : list userResponseDTO * Z := match snd (asking first_two) with Ok r => r | Err _ => ([], 0) end.

Lemma listing_exact_witness :
  (map v_Username answered.1, answered.2) = (["ali"; "reza"], 3) /\
  exists all rows, NoDup (map ID all) /\ page (Some 2) None all = Ok rows /\
    answered.1 = map (own_response "k" "https://panel" [] (fun _ => None) (fun _ => mkColumns None None None) noon Online.no_view ReviewJob.demo_db) rows.
Proof.
  split; [by vm_compute|].
  destruct (listing_exact "k" "https://panel" [] (fun _ => None) (fun _ => mkColumns None None None) ilike collate collate_flip collate_trans
    noon (fun _ => Online.no_view) root first_two (mkWorld ReviewJob.demo_db []) (fst (asking first_two)) answered.1 answered.2
    ReviewJob.demo_wf ltac:(by vm_compute)) as (_ & all & rows & _ & Hnd & _ & Hp & Ho & _).
  exists all, rows. split; [exact Hnd|]. split; [exact Hp|exact Ho].
Defined.

(** A limit past 32 bits is cut: 4294967297 is a page of one user, and 4294967295 is
    negative to Postgres. *)
Example far_limit_is_one :
  match (asking (mkQuery "" [] "" "4294967297" "")).2 with Ok (out, total) => (length out, total) = (1%nat, 3) | Err _ => False end.
Proof. by vm_compute. Qed.

Example far_limit_fails : (asking (mkQuery "" [] "" "4294967295" "")).2 = Err (500, "Could not list users").
Proof. by vm_compute. Qed.

End UserViewDemo.
